(* ===== verification/_CoqProject ===== *)
-Q . S2P
Prelude.v
Uapi.v
LinkedList.v
Kernel.v
PeerMemory.v
QidPool.v
Map.v
MapGpu.v
Ctrl.v
Qgroup.v
DevIoctl.v
AddQueue.v
Invariant.v
MapIoctl.v
GroupInv.v
GroupIoctl.v
Release.v
InfoIoctl.v
AddSpec.v
System.v
Instances.v
Theorems.v
Control.v
ControlSpec.v
ModuleSpec.v
ControlTheorems.v
PciData.v
PciDataSpec.v
PciQueue.v
PciQueueSpec.v
PciSetup.v
PciSetupSpec.v
PciTheorems.v
CoreCtrl.v
CoreCtrlSpec.v
CoreCmd.v
CoreCmdSpec.v
CoreRun.v
CoreSqe.v
CoreIdent.v
CoreIdentSpec.v
CoreScan.v
CoreScanSpec.v
CoreTheorems.v
PciHmb.v
PciHmbSpec.v
PciBatch.v
DeviceTheorems.v
PciLife.v
PciLifeIo.v
PciOnline.v
PciLifeSpec.v
PciLifeRun.v
PciLifeBind.v
LifeTheorems.v
SpaceAlloc.v
SlotPlace.v
Digest.v
Bytes.v
ObjHeader.v
Checkpoint.v
Media.v
MediaSpec.v
Residency.v
StorageTheorems.v
ObjStore.v
ObjStoreInv.v
ObjStoreOps.v
ObjStoreWrite.v
ObjStoreMedia.v
ObjStoreCkpt.v
ObjStoreRun.v
ObjStoreLoad.v
ObjStoreOpen.v
ObjStoreRestart.v
ObjStoreReopen.v
StoreTheorems.v
