(* ===== verification/Prelude.v ===== *)
(** * Tutti's kernel driver and its object store: a shallow embedding and its proofs

    Two programs of the repository are modelled.  snvme
    (src/csrc/device_manager/nvme/kernel_modules/snvme) is an NVMe driver that
    shares a controller between the kernel's block layer and user space: it
    lets a process map host or GPU memory for DMA, create NVMe queues whose
    rings live in that memory, and ring their doorbells directly.  The object
    store (src/csrc/storage_objects) keeps fixed-size objects in segment files
    on such devices and finds them again after a restart.  Paths below are
    relative to these two directories.

    ** The driver: its parts and the files that model them

    - The ABI (src/csrc/include/uapi/tutti_snvme.h): request structs with
      their C layout, constants, ioctl numbers.  [Uapi].
    - The intrusive list (list.h, list.c): a heap of linked nodes, refined to
      sequences.  [LinkedList].  Everywhere else a list is its sequence.
    - Kernel objects and services: [Kernel] has the state of the whole module
      ([kstate]: mapping descriptors, controllers, per-fd owners, queue
      groups, PCI devices, minors, an event log), the environment ([env]:
      answers of the kernel, the controller and user memory, one per call) and
      the specifications of its primitives.
    - GPU peer memory (peer_memory/): [PeerMemory], the operations interface
      as a record with its laws as a class, the NVIDIA and Metax backends, the
      vendor drivers as parameters.
    - DMA mappings (map.c): [Map], [MapGpu].  Controllers (ctrl.c): [Ctrl].
    - User queue ids (snvm_qgroup.c): [QidPool], the bitmap pool refined to a
      finite set of ids; queue groups: [Qgroup].
    - The character device (snvm_dev_ioctl.c): [DevIoctl], [AddQueue] (open,
      release, mmap, every ioctl case, the dispatcher).
    - The consistency invariant [wf] and its preservation: [Invariant],
      [GroupInv], then one file per group of handlers ([MapIoctl],
      [GroupIoctl], [Release], [InfoIoctl], [AddSpec]).  [System] closes it:
      the reachable states of any interleaving of opens, ioctls, mmaps, closes,
      forced GPU reclaims and device rebinds.
    - The control device and the module's life (snvm_control.c): [Control],
      [ControlSpec], [ModuleSpec].
    - The PCI driver below (baseline/6.8/pci.c, nvme.h):
      [PciData]/[PciDataSpec] the data pointer of a command,
      [PciQueue]/[PciQueueSpec] the rings and doorbells,
      [PciSetup]/[PciSetupSpec] the kernel's share of the I/O queues,
      [PciHmb]/[PciHmbSpec] the host memory buffer, [PciBatch] request lists,
      [PciLife], [PciLifeIo], [PciOnline] probe, reset work, disabling and
      removal, with their specifications in [PciLifeSpec], [PciLifeRun] and
      [PciLifeBind].
    - The NVMe core (baseline/6.8/core.c): [CoreCtrl]/[CoreCtrlSpec] the
      controller's state machine with the fast-fail timer, [CoreCmd],
      [CoreSqe], [CoreRun]/[CoreCmdSpec] block commands from set-up to
      completion and retry, [CoreIdent]/[CoreIdentSpec] identification,
      [CoreScan]/[CoreScanSpec] the namespace list and the scan.
    - [Instances] builds concrete environments and histories; [Theorems],
      [ControlTheorems], [PciTheorems], [CoreTheorems], [DeviceTheorems] and
      [LifeTheorems] hold the main theorems and their instances at concrete
      inputs.

    The parts meet as in the code: the handlers of the character device call
    the mapping layer, the id pool and the queue groups; the id pool starts
    where the block driver's queues end ([PciTheorems] proves that the two do
    not overlap); the control device creates and removes the controllers the
    handlers look up; the mapping layer calls a backend only through its
    operations record; probe and reset run the queue set-up, the host memory
    buffer and the controller's state machine.

    ** The object store: its parts and the files that model them

    - [SpaceAlloc] (space_allocator.cpp): slots free, reserved, committed,
      reclaiming, with their generations.
    - [SlotPlace] (slot_placement_policy.cpp): slot number to file and offset.
    - [Digest] (src/csrc/include/tutti/spi/object_digest.h): CRC-32C by table
      and the 64-bit key digest.  [Bytes]: little-endian fields in buffers,
      the load and store helpers the codecs share.
    - [ObjHeader] (object_header_codec.cpp) and [Checkpoint]
      (checkpoint_region.cpp): the two on-media formats, every read of a
      buffer checked against its length.
    - [Media] (slot_media.cpp): segment and metadata files on a [disk] of
      named files, each call of the kernel answered from a list.
      [MediaSpec]: what its operations read, write and leave alone.
    - [Residency] (residency_bitmap.cpp): one mapped bitmap per rank.
    - [ObjStore] (object_store_core.cpp): every operation of ObjectStoreCore.
      [ObjStoreInv] its invariant [live] over index, owners, allocator and
      media; [ObjStoreOps], [ObjStoreWrite], [ObjStoreMedia], [ObjStoreCkpt]
      its preservation by the operations, [ObjStoreRun] by their histories;
      [ObjStoreLoad], [ObjStoreOpen] recovery and open; [ObjStoreRestart],
      [ObjStoreReopen] the way from one process to the next.
    - [StorageTheorems] and [StoreTheorems]: the main theorems and their
      instances at concrete inputs.

    ** How code becomes definitions

    A function is a program of the state-and-error monad [M] of this file
    under the function's name: [Ok] is a normal return, [Err e] the return of
    [-e] (or of the status code [e] in the object store), [Fault] undefined
    behaviour (use after free, out of bounds, null or uninitialised access, a
    loop that does not end), kept as a value so that its absence is a theorem.
    Functions without effects are plain functions.  Guards, early returns,
    roll-back paths and the order of side effects follow the source.  Machine
    integers are integers with their wrap-around written out.  Code outside
    the repository is an environment of answers; what the proofs use of it is
    a named law ([EnvOk], the backends' classes, [pool_env_ok], [req_ok],
    [io_env_ok], ...), each shown to hold of a concrete instance.

    ** What the theorems show

    - Safety and consistency: every reachable state of the character device is
      well formed, no ioctl on it faults, and a queue id has at most one
      owner; every history of the object store keeps its index, allocator and
      media in agreement, wherever a call stops.
    - Transactions: adding queues, mapping host or GPU memory, creating a
      group or a device node, binding a device either complete with the stated
      effect or leave the state as it was; closing a file, removing a device
      or unloading the module returns exactly what was held, hardware queues
      before memory.
    - Durability: a restart gives back exactly the committed objects, recovery
      admits nothing its header does not prove, and writing a checkpoint
      spares the newest one.
    - Refinement: the id bitmap to a set, list code to sequences, rings to
      the sequences of commands and completions, PRP and SGL memory to the
      bytes of the request as the controller reads them, the namespace list to
      the controller's active namespaces, the table-driven checksum to the
      bit-serial one.
    - Round trips: descriptor lists, object headers, checkpoints, command
      identifiers, mapping and unmapping.
    - Termination and bounds: reclaim loops, rebinding, the namespace wait,
      the PRP loop, polling, queue set-up with its retries, reset; doorbell
      offsets, register mapping, list blocks, queue-array indices, slots in
      their files.
    - Layout: the sizes and offsets the ABI header promises.

    ** Conditions

    Where the code goes wrong on some path, the theorem about it names the
    condition that keeps off that path, and an evaluated example or a lemma
    shows the path.  No ioremap that extends an already mapped register window
    fails ([life_env_ok], [LifeTheorems.bind_failures]); the first mapping may.
    Closing a file is exact as long as no other file of the task holds a data
    buffer ([Release.sibling_data], [Theorems.sibling_close_reaps_data]).  The
    store's histories start with one open of a new object on mounts with
    different segment directories; it is opened again only while it is open
    ([ObjStoreRun.history_ok], [StoreTheorems.second_open_shares_slot]), and
    slots are told apart by path strings without a trailing slash.  The pool of
    user queue ids is made once and not rebuilt when the device is reset.
    Freeing DMA memory with a smaller size than it was allocated with leaves
    the difference allocated ([PciHmb.hm_rest], [DeviceTheorems.hmb_sizes_disagree]).
    Registering the driver and driver_attach walk the whole bus: they may bind
    any unbound device that has a listed controller ([Control.walk_bus]).  The
    Phoenix service returns at most one address per GPU page
    ([EnvOk.phx_count]); its source is not in the repository.

    ** Fuel and bounds

    Loops that are not structural take fuel that the theorems show enough:
    [purge_fuel] is the square of one more than the number of descriptors,
    [ns_wait_fuel] the code's own limit of 100 sleeps plus its fixed calls,
    the PRP loop one step per page of the payload, polling one more than the
    ring's depth, deletion of queues twice their number, queue set-up the
    number of queues asked for, adopting file groups one more than the number
    of slots.  The loops of [Media] that retry an interrupted call recurse on
    the list of answers: when it is used up the call does not return
    ([Fault OutOfFuel]), which is how the model stops a process anywhere;
    theorems about all outcomes cover these stops.  At most eight controllers
    are listed when GPU memory is mapped, the size of the array in map.c; the
    code allows 64, see [Map.map_for_ctrls].

    ** What is not modelled

    Operations run to completion: the locks (except the shutdown lock of queue
    set-up and the unlocked middle of precreate_step) and the interleavings
    inside a handler are not part of the model, nor are memory barriers.  Log
    messages and statistics are left out.  Of the four baselines, 6.8 is the
    one modelled, and of it the parts named above; request time-outs, power
    management, keep-alive, autonomous power states, queue limits,
    asynchronous events, passthrough, multipath, fabrics and sysfs are stock
    Linux code that snvme reaches only through calls that are answers here.
    The compat/ shims choose between signatures of the same call.  Of a file
    the store reads, a write that is not synced is visible at once; which
    unsynced writes survive a power failure is recorded ([f_dirty]) but not
    drawn.  The rest of the C++, CUDA and Python code (runtime, resolvers, data
    paths, transfer engines, bindings) is outside the scope.

    This file: shared notation, machine integers, the monad with its
    weakest-precondition rules, framing, automation and generic lemmas. *)
From Stdlib Require Export ZArith Lia.
From stdpp Require Export base gmap sets list strings.
Open Scope Z_scope.

(** ** Machine integers

    A [w]-bit unsigned integer is a [Z] kept in [0, 2^w); every C expression
    that can leave the range goes through [wrap]. *)
Definition wrap (w x : Z) : Z := x `mod` 2 ^ w.
Abbreviation u8 := (wrap 8).
Abbreviation u16 := (wrap 16).
Abbreviation u32 := (wrap 32).
Abbreviation u64 := (wrap 64).

Definition fits (w x : Z) : Prop := 0 ≤ x < 2 ^ w.

#[export] Instance fits_dec w x : Decision (fits w x).
Proof. unfold fits. apply _. Defined.

Lemma wrap_small w x : 0 ≤ x < 2 ^ w → wrap w x = x.
Proof. intros H. by apply Z.mod_small. Qed.

Lemma wrap_fits w x : 0 ≤ w → fits w (wrap w x).
Proof. intros H. apply Z.mod_pos_bound. lia. Qed.

Lemma wrap_idemp w x : 0 ≤ w → wrap w (wrap w x) = wrap w x.
Proof. intros H. apply wrap_small, wrap_fits, H. Qed.

(** [x & ~(2^k - 1)] on a non-negative [x]: the page-alignment masks. *)
Definition align_down (k x : Z) : Z := Z.shiftl (Z.shiftr x k) k.

Lemma align_down_spec k x : 0 ≤ k → align_down k x = x - x `mod` 2 ^ k.
Proof.
  intros Hk. unfold align_down.
  rewrite Z.shiftl_mul_pow2, Z.shiftr_div_pow2 by done.
  pose proof (Z.div_mod x (2 ^ k)). lia.
Qed.

Lemma align_down_idemp k x : 0 ≤ k → align_down k (align_down k x) = align_down k x.
Proof.
  intros Hk. unfold align_down. f_equal.
  rewrite Z.shiftr_shiftl_r by done. by rewrite Z.sub_diag, Z.shiftr_0_r.
Qed.

Lemma align_down_bounds k x : 0 ≤ k → align_down k x ≤ x < align_down k x + 2 ^ k.
Proof.
  intros Hk. rewrite align_down_spec by done.
  pose proof (Z.mod_pos_bound x (2 ^ k)). lia.
Qed.

(** [x & ~(p - 1)], the way the ioctl code spells a mask from a page size. *)
Definition mask_page (p x : Z) : Z := Z.land x (Z.lnot (p - 1)).

Lemma mask_page_align k x : 0 ≤ k → mask_page (2 ^ k) x = align_down k x.
Proof.
  intros Hk. unfold mask_page, align_down.
  replace (2 ^ k - 1) with (Z.ones k) by (rewrite Z.ones_equiv; lia).
  rewrite <- Z.ldiff_land. by rewrite Z.ldiff_ones_r.
Qed.

(** A disjoint [lor] is an addition: the way packed fields are read back. *)
Lemma lor_shiftl a b n : 0 ≤ n → 0 ≤ a < 2 ^ n → Z.lor a (Z.shiftl b n) = a + b * 2 ^ n.
Proof.
  intros Hn Ha. rewrite <- Z.shiftl_mul_pow2 by lia. symmetry.
  rewrite <- Z.lxor_lor; [apply Z.add_nocarry_lxor|].
  all: apply Z.bits_inj'; intros i Hi; rewrite Z.land_spec, Z.shiftl_spec, Z.bits_0 by lia.
  all: destruct (Z.ltb_spec i n);
    [rewrite (Z.testbit_neg_r b) by lia; apply andb_false_r|].
  all: replace (Z.testbit a i) with false; [done|].
  all: symmetry; rewrite <- (Z.mod_small a (2 ^ n)) by done; by apply Z.mod_pow2_bits_high.
Qed.

(** ** Errno values (asm-generic/errno*.h), positive; code returns [-e] *)
Definition ENOENT : Z := 2.
Definition EIO : Z := 5.
Definition EBADF : Z := 9.
Definition EAGAIN : Z := 11.
Definition ENOMEM : Z := 12.
Definition EFAULT : Z := 14.
Definition EBUSY : Z := 16.
Definition ENODEV : Z := 19.
Definition EINVAL : Z := 22.
Definition ENOTTY : Z := 25.
Definition ENOSYS : Z := 38.
Definition EOPNOTSUPP : Z := 95.

(** ** Outcomes and the state-and-error monad

    [Err e] is the C function returning [-e] (or [ERR_PTR(-e)]); [Fault] is
    undefined behaviour, kept as a value so that its absence is a theorem. *)
Inductive fault : Set :=
  | UseAfterFree
  | OutOfBounds
  | NullDeref
  | Uninitialised
  | TakenTwice
  | OutOfFuel.

#[export] Instance fault_eq_dec : EqDecision fault.
Proof. solve_decision. Defined.

Inductive outcome (A : Type) : Type :=
  | Ok (a : A)
  | Err (e : Z)
  | Fault (f : fault).
Arguments Ok {A} a.
Arguments Err {A} e.
Arguments Fault {A} f.

#[export] Instance outcome_eq_dec `{EqDecision A} : EqDecision (outcome A).
Proof. solve_decision. Defined.

Definition M (S A : Type) : Type := S → outcome A * S.

#[export] Instance M_ret S : MRet (M S) := λ A a s, (Ok a, s).
#[export] Instance M_bind S : MBind (M S) := λ A B k m s,
  match m s with
  | (Ok a, s') => k a s'
  | (Err e, s') => (Err e, s')
  | (Fault f, s') => (Fault f, s')
  end.

Definition fail {S A} (e : Z) : M S A := λ s, (Err e, s).
Definition crash {S A} (f : fault) : M S A := λ s, (Fault f, s).
Definition gets {S A} (f : S → A) : M S A := λ s, (Ok (f s), s).
Definition modify {S} (f : S → S) : M S unit := λ s, (Ok tt, f s).
Definition guard_err {S} (b : bool) (e : Z) : M S unit :=
  if b then fail e else mret tt.
Definition when {S} (b : bool) (m : M S unit) : M S unit :=
  if b then m else mret tt.
Definition from_opt {S A} (f : fault) (o : option A) : M S A :=
  match o with Some a => mret a | None => crash f end.

Fixpoint for_each {S A} (f : A → M S unit) (l : list A) : M S unit :=
  match l with
  | [] => mret tt
  | x :: l => f x;; for_each f l
  end.

(** Weakest precondition of a monadic program, with one rule per combinator. *)
Definition wp {S A} (m : M S A) (Q : outcome A → S → Prop) (s : S) : Prop :=
  Q (m s).1 (m s).2.

Section wp_rules.
Context {S A B : Type}.
Implicit Types (m : M S A) (k : A → M S B) (s : S).

Lemma wp_ret (a : A) Q s : Q (Ok a) s → wp (mret a : M S A) Q s.
Proof. done. Qed.

Lemma wp_bind m k Q s :
  wp m (λ r s', match r with
                | Ok a => wp (k a) Q s'
                | Err e => Q (Err e) s'
                | Fault f => Q (Fault f) s'
                end) s →
  wp (m ≫= k) Q s.
Proof. unfold wp, mbind, M_bind. by destruct (m s) as [[a|e|f] s']. Qed.

Lemma wp_mono m (Q Q' : outcome A → S → Prop) s :
  wp m Q s → (∀ r s', Q r s' → Q' r s') → wp m Q' s.
Proof. unfold wp. auto. Qed.

Lemma wp_fail e (Q : outcome A → S → Prop) s : Q (Err e) s → wp (fail e : M S A) Q s.
Proof. done. Qed.

Lemma wp_gets (f : S → A) Q s : Q (Ok (f s)) s → wp (gets f) Q s.
Proof. done. Qed.

Lemma wp_from_opt f (o : option A) a (Q : outcome A → S → Prop) s :
  o = Some a → Q (Ok a) s → wp (from_opt f o) Q s.
Proof. by intros ->. Qed.

Lemma wp_modify (f : S → S) Q s : Q (Ok tt) (f s) → wp (modify f) Q s.
Proof. done. Qed.

Lemma wp_guard b e (Q : outcome unit → S → Prop) s :
  (b = true → Q (Err e) s) → (b = false → Q (Ok tt) s) → wp (guard_err b e) Q s.
Proof. unfold wp. destruct b; cbn; auto. Qed.

Lemma wp_when b (m : M S unit) (Q : outcome unit → S → Prop) s :
  (b = true → wp m Q s) → (b = false → Q (Ok tt) s) → wp (when b m) Q s.
Proof. unfold wp. destruct b; cbn; auto. Qed.

(** The first steps of a sequence, specified as one program. *)
Lemma wp_prefix2 (m1 m2 : M S unit) (k : M S B) (Q : outcome B → S → Prop) s :
  wp (m1;; m2) (λ r s', r = Ok tt ∧ wp k Q s') s → wp (m1;; m2;; k) Q s.
Proof.
  unfold wp, mbind, M_bind. destruct (m1 s) as [[[]|e|f] s1]; [|by intros []..].
  destruct (m2 s1) as [[[]|e|f] s2]; [by intros []|by intros []..].
Qed.

Lemma wp_bind2 {C} (m1 : M S C) (m2 : C → M S unit) (k : M S B) (Q : outcome B → S → Prop) s :
  wp (m1 ≫= m2) (λ r s', match r with Ok _ => wp k Q s' | Err e => Q (Err e) s' | Fault f => Q (Fault f) s' end) s →
  wp (m1 ≫= λ x, m2 x;; k) Q s.
Proof.
  unfold wp, mbind, M_bind. destruct (m1 s) as [[c|e|f] s1]; [|done..].
  by destruct (m2 c s1) as [[[]|e|f] s2].
Qed.

Lemma wp_prefix3 (m1 m2 m3 : M S A) (k : M S B) (Q : outcome B → S → Prop) s :
  wp (m1;; m2;; m3;; mret tt) (λ r s', r = Ok tt ∧ wp k Q s') s → wp (m1;; m2;; m3;; k) Q s.
Proof.
  unfold wp, mbind, M_bind. destruct (m1 s) as [[a|e|f] s1]; [|by intros []..].
  destruct (m2 s1) as [[b|e|f] s2]; [|by intros []..].
  destruct (m3 s2) as [[c|e|f] s3]; [by intros []|by intros []..].
Qed.

(** From a computed result to a specification and back. *)
Lemma wp_eq m (Q : outcome A → S → Prop) s r s' : m s = (r, s') → Q r s' → wp m Q s.
Proof. unfold wp. by intros ->. Qed.

Lemma bind_ok m k s a s' : m s = (Ok a, s') → (m ≫= k) s = k a s'.
Proof. unfold mbind, M_bind. by intros ->. Qed.

Lemma bind_gets (f : S → A) k s : (gets f ≫= k) s = k (f s) s.
Proof. done. Qed.

Lemma bind_modify (f : S → S) (k : unit → M S B) s : (modify f ≫= k) s = k tt (f s).
Proof. done. Qed.

Lemma bind_err m k s e s' : m s = (Err e, s') → (m ≫= k) s = (Err e, s').
Proof. unfold mbind, M_bind. by intros ->. Qed.
End wp_rules.

(** Symbolic execution: one step of a goal [wp m Q s], stopping at calls that
    need a specification of their own. *)
Ltac wp_step :=
  lazymatch goal with
  | |- wp (mbind _ _) _ _ => apply wp_bind
  | |- wp (mret _) _ _ => apply wp_ret
  | |- wp (fail _) _ _ => apply wp_fail
  | |- wp (gets _) _ _ => apply wp_gets
  | |- wp (modify _) _ _ => apply wp_modify
  | |- wp (let '_ := _ in _) _ _ => progress cbv beta iota zeta
  end; cbv beta iota.
Ltac wp_steps := repeat wp_step.

(** Use a specification of a call and continue with its postcondition. *)
Tactic Notation "wp_use" uconstr(H) := eapply wp_mono; [apply H|].

(** The loop rule: an invariant indexed by what is left to visit.  Every
    iteration returns normally, so the loop does. *)
Lemma wp_for_each {S A} (f : A → M S unit) (I : list A → S → Prop) l s :
  I l s →
  (∀ x l s, I (x :: l) s → wp (f x) (λ r s', r = Ok tt ∧ I l s') s) →
  wp (for_each f l) (λ r s', r = Ok tt ∧ I [] s') s.
Proof.
  revert s. induction l as [|x l IH]; intros s HI Hf; cbn.
  - by apply wp_ret.
  - apply wp_bind. eapply wp_mono; [by apply Hf|].
    intros r s' [-> HI']. by apply IH.
Qed.

(** [frames R m]: whatever [m] returns, its final state is [R]-related to the
    initial one.  With [R] a preorder this is closed under all combinators. *)
Definition frames {S A} (R : S → S → Prop) (m : M S A) : Prop :=
  ∀ s, R s (m s).2.

Create HintDb snvme.

Section frames.
Context {S : Type} (R : S → S → Prop) `{!PreOrder R}.

Lemma frames_ret {A} (a : A) : frames R (mret a : M S A).
Proof. intros s. cbn. reflexivity. Qed.
Lemma frames_fail {A} e : frames R (fail e : M S A).
Proof. intros s. cbn. reflexivity. Qed.
Lemma frames_crash {A} f : frames R (crash f : M S A).
Proof. intros s. cbn. reflexivity. Qed.
Lemma frames_gets {A} (f : S → A) : frames R (gets f).
Proof. intros s. cbn. reflexivity. Qed.
Lemma frames_guard b e : frames R (guard_err b e).
Proof. intros s. destruct b; cbn; reflexivity. Qed.
Lemma frames_from_opt {A} f (o : option A) : frames R (from_opt f o).
Proof. intros s. destruct o; cbn; reflexivity. Qed.
Lemma frames_modify g : (∀ s, R s (g s)) → frames R (modify g).
Proof. intros Hg s. apply Hg. Qed.

Lemma frames_bind {A B} (m : M S A) (k : A → M S B) :
  frames R m → (∀ a, frames R (k a)) → frames R (m ≫= k).
Proof.
  intros Hm Hk s. unfold mbind, M_bind. specialize (Hm s).
  destruct (m s) as [[a|e|f] s']; cbn in *; [|done|done].
  etrans; [exact Hm|]. apply Hk.
Qed.

Lemma frames_when b m : frames R m → frames R (when b m).
Proof. intros Hm s. destruct b; [apply Hm|cbn; reflexivity]. Qed.

Lemma frames_for_each {A} (f : A → M S unit) l :
  (∀ x, frames R (f x)) → frames R (for_each f l).
Proof.
  intros Hf. induction l as [|x l IH]; cbn; [apply frames_ret|].
  apply frames_bind; auto.
Qed.
End frames.

#[export] Hint Resolve frames_ret frames_fail frames_crash frames_gets
  frames_guard frames_from_opt frames_bind frames_when frames_for_each : snvme.

(** ** Record update *)
Class Setter {R T : Type} (proj : R → T) := set : (T → T) → R → R.
Arguments set {R T} proj {_} f r.

Notation "r <| proj := v |>" := (set proj (λ _, v) r)
  (at level 1, left associativity, proj at level 0, format "r  <| proj  :=  v |>").
Notation "r <| proj ::= f |>" := (set proj f r)
  (at level 1, left associativity, proj at level 0, format "r  <| proj  ::=  f |>").

(** ** Generic list lemmas *)

(** Removing every occurrence of an element: what [list_del] and
    [list_remove] do to the sequence of a list that holds the node once. *)
Definition without (x : nat) (l : list nat) : list nat := filter (λ y, y ≠ x) l.

#[global] Arguments without : simpl never.

Lemma elem_of_without x y l : y ∈ without x l ↔ y ≠ x ∧ y ∈ l.
Proof. unfold without. by rewrite list_elem_of_filter. Qed.

Lemma NoDup_without x l : NoDup l → NoDup (without x l).
Proof. apply NoDup_filter. Qed.

Lemma without_notin x l : x ∉ l → without x l = l.
Proof.
  induction l as [|y l IH]; intros Hx; [done|]. apply not_elem_of_cons in Hx as [? ?].
  unfold without in *. rewrite filter_cons_True by congruence. by rewrite IH.
Qed.

Lemma without_app x l1 l2 : without x (l1 ++ l2) = without x l1 ++ without x l2.
Proof. apply filter_app. Qed.

Lemma without_cons_eq x l : x ∉ l → without x (x :: l) = l.
Proof.
  intros Hx. unfold without. rewrite filter_cons_False by auto.
  by apply without_notin.
Qed.

Lemma without_snoc_eq x l : x ∉ l → without x (l ++ [x]) = l.
Proof.
  intros Hx. rewrite without_app, without_notin, without_cons_eq by set_solver.
  apply app_nil_r.
Qed.

Lemma without_snoc x l : without x (l ++ [x]) = without x l.
Proof. rewrite without_app, (without_cons_eq x []) by set_solver. apply app_nil_r. Qed.

Lemma without_split x l1 l2 : NoDup (l1 ++ x :: l2) → without x (l1 ++ x :: l2) = l1 ++ l2.
Proof.
  intros (_ & Hdis & [Hx _]%NoDup_cons)%NoDup_app.
  rewrite without_app, without_cons_eq by done. f_equal.
  apply without_notin. intros Hin. apply (Hdis x Hin). by left.
Qed.

Lemma length_without x l : NoDup l → x ∈ l → length l = S (length (without x l)).
Proof.
  induction l as [|y l IH]; intros Hnd Hx; [by apply elem_of_nil in Hx|].
  apply NoDup_cons in Hnd as [Hy Hnd]. destruct (decide (y = x)) as [->|Hne].
  - by rewrite without_cons_eq.
  - apply elem_of_cons in Hx as [?|Hx]; [congruence|].
    unfold without. rewrite filter_cons_True by done. cbn. f_equal. by apply IH.
Qed.

Lemma elem_of_rev {A} (x : A) l : x ∈ rev l ↔ x ∈ l.
Proof. by rewrite !list_elem_of_In, <- in_rev. Qed.

(** Filters only look at the elements. *)
Lemma filter_ext_in {A} (f g : A → bool) (l : list A) :
  (∀ x, x ∈ l → f x = g x) → filter (λ x, f x = true) l = filter (λ x, g x = true) l.
Proof.
  induction l as [|x l IH]; intros H; [done|]. rewrite !filter_cons, (H x) by (by left).
  rewrite IH; [done|]. intros y Hy. apply H. by right.
Qed.

Lemma filter_none {A} (f : A → bool) (l : list A) :
  Forall (λ x, f x = false) l → filter (λ x, f x = true) l = [].
Proof. induction 1 as [|x l Hx _ IH]; [done|]. rewrite filter_cons_False; [done|]. by rewrite Hx. Qed.

#[export] Hint Resolve NoDup_without : snvme.
Create Rewrite HintDb snvme.
#[export] Hint Rewrite elem_of_without without_app : snvme.

(** Case analysis on whatever a [match] or [if] in the goal or a hypothesis is
    stuck on; the workhorse for handlers with many early returns. *)
Ltac case_step :=
  match goal with
  | |- context [match ?x with _ => _ end] => destruct x eqn:?
  | H : context [match ?x with _ => _ end] |- _ => destruct x eqn:?
  end.
Ltac crush_cases := repeat (case_step; simplify_eq/=; try done).
