(* ===== verification/Uapi.v ===== *)
(** * Uapi: the kernel/userspace ABI of csrc/include/uapi/tutti_snvme.h

    The request structs (as records of field values and, separately, as C type
    descriptions from which size, alignment and field offsets are computed),
    the map kinds, the capability bits and the ioctl command encoding. *)
From S2P Require Import Prelude.

(** ** Constants *)
Definition TUTTI_SNVME_ABI_VERSION : Z := 2.
Definition TUTTI_SNVME_CAP_QUEUE_GROUPS : Z := Z.shiftl 1 0.
Definition TUTTI_SNVME_CAP_USER_QUEUES : Z := Z.shiftl 1 1.
Definition TUTTI_SNVME_CAP_RAW_ADMIN : Z := Z.shiftl 1 2.
Definition TUTTI_SNVME_CAP_KERNEL_IOQ_CAP : Z := Z.shiftl 1 3.
Definition TUTTI_SNVME_CAP_MAP_KIND_TAG : Z := Z.shiftl 1 4.
Definition TUTTI_SNVME_CAP_ALL : Z :=
  Z.lor (Z.lor (Z.lor (Z.lor TUTTI_SNVME_CAP_QUEUE_GROUPS
                             TUTTI_SNVME_CAP_USER_QUEUES)
                      TUTTI_SNVME_CAP_RAW_ADMIN)
               TUTTI_SNVME_CAP_KERNEL_IOQ_CAP)
        TUTTI_SNVME_CAP_MAP_KIND_TAG.

Definition NVM_IOCTL_TYPE : Z := 0x80.
Definition NVM_CTRL_IOCTL_TYPE : Z := 0x90.
Definition DISK_NAME_LEN : Z := 32.
Definition NVM_MAX_QUEUE_GROUPS : Z := 8.
Definition NVM_MAX_GROUPS_PER_FD : Z := 1.
Definition NVM_MAX_QUEUES_PER_GROUP : Z := 32.

(** ** Map kinds (enum nvm_map_kind) *)
Definition NVM_MAP_KIND_UNSPECIFIED : Z := 0.
Definition NVM_MAP_KIND_RING_SQ : Z := 1.
Definition NVM_MAP_KIND_RING_CQ : Z := 2.
Definition NVM_MAP_KIND_DATA : Z := 3.

(** ** Request structs, as field values *)
Record nvm_ioctl_map : Type := mk_nvm_ioctl_map {
  vaddr_start : Z;
  n_pages : Z;
  ioaddrs : Z;
  ioq_idx : Z;
  is_cq : Z;
  req_group_id : Z;
  map_kind : Z;
  map_reserved0 : list Z;
}.

Record nvm_ioctl_dev : Type := mk_nvm_ioctl_dev {
  nr_user_q : Z;
  start_cq_idx : Z;
  dstrd : Z;
  max_data_size : Z;
  block_size : Z;
  disk_name : list Z;
  dev_q_depth : Z;
  dev_reserved0 : Z;
  bar0_size : Z;
  max_user_qid : Z;
  max_queues_per_group : Z;
  sgl_supported : Z;
  abi_version : Z;
  capabilities : Z;
  dev_reserved1 : list Z;
}.

Record pci_device_addr : Type := mk_pci_device_addr {
  domain : Z;
  bus : Z;
  slot : Z;
  func : Z;
}.

#[export] Instance pci_device_addr_eq_dec : EqDecision pci_device_addr.
Proof. solve_decision. Defined.

Record nvm_ioctl_queue_group : Type := mk_nvm_ioctl_queue_group {
  qg_group_id : Z;
  qg_flags : Z;
  qg_max_queues : Z;
  qg_reserved : list Z;
}.

Record nvm_user_queue_pair_in : Type := mk_pair_in {
  sq_vaddr : Z;
  cq_vaddr : Z;
}.

Record nvm_user_queue_pair_out : Type := mk_pair_out {
  sq_doorbell_offset : Z;
  cq_doorbell_offset : Z;
  out_qid : Z;
  out_reserved : Z;
}.

Record nvm_ioctl_add_user_queue : Type := mk_add_user_queue {
  auq_group_id : Z;
  nr_pairs : Z;
  auq_flags : Z;
  auq_reserved : list Z;
  pairs : list nvm_user_queue_pair_in;
  out_pairs : list nvm_user_queue_pair_out;
}.

(** ** C layout

    [align64] is the alignment of [uint64_t]: 8 on LP64, 4 on the 32-bit x86
    ABI. *)
Inductive cty : Type :=
  | CU8
  | CU16
  | CU32
  | CU64
  | CArr (n : Z) (t : cty)
  | CStruct (fs : list (string * cty)).

Definition round_up (x a : Z) : Z := (x + a - 1) / a * a.

Section layout.
Variable align64 : Z.

Fixpoint layout (t : cty) : Z * Z :=
  match t with
  | CU8 => (1, 1)
  | CU16 => (2, 2)
  | CU32 => (4, 4)
  | CU64 => (8, align64)
  | CArr n t => (n * (layout t).1, (layout t).2)
  | CStruct fs =>
      (fix go (off al : Z) (fs : list (string * cty)) : Z * Z :=
         match fs with
         | [] => (round_up off al, al)
         | (_, t) :: fs =>
             go (round_up off (layout t).2 + (layout t).1)
                (Z.max al (layout t).2) fs
         end) 0 1 fs
  end.

Definition sizeof (t : cty) : Z := (layout t).1.

(** Offset of a field, scanning the struct the way a compiler places it. *)
Fixpoint offset_from (off : Z) (fs : list (string * cty)) (f : string) : option Z :=
  match fs with
  | [] => None
  | (g, t) :: fs =>
      let here := round_up off (layout t).2 in
      if bool_decide (f = g) then Some here
      else offset_from (here + (layout t).1) fs f
  end.

Definition offsetof (t : cty) (f : string) : option Z :=
  match t with CStruct fs => offset_from 0 fs f | _ => None end.
End layout.

Definition struct_nvm_ioctl_map : cty := CStruct [
  ("vaddr_start", CU64); ("n_pages", CU64); ("ioaddrs", CU64);
  ("ioq_idx", CU32); ("is_cq", CU32); ("group_id", CU32);
  ("map_kind", CU8); ("reserved0", CArr 3 CU8)].

Definition struct_nvm_ioctl_dev : cty := CStruct [
  ("nr_user_q", CU32); ("start_cq_idx", CU32); ("dstrd", CU8);
  ("max_data_size", CU64); ("block_size", CU64);
  ("disk_name", CArr DISK_NAME_LEN CU8); ("q_depth", CU16);
  ("reserved0", CU16); ("bar0_size", CU32); ("max_user_qid", CU32);
  ("max_queues_per_group", CU32); ("sgl_supported", CU32);
  ("abi_version", CU32); ("capabilities", CU32); ("reserved1", CArr 3 CU32)].

Definition struct_nvm_queue_group : cty := CStruct [
  ("owner_id", CU32); ("count", CU32); ("numa_node", CU32); ("reserved", CU32)].

Definition struct_nvm_ioctl_setup : cty := CStruct [
  ("ioq_num", CU32); ("flags", CU32); ("cap_kernel_ioq", CU32);
  ("nr_write", CU32); ("nr_poll", CU32); ("nr_groups", CU32);
  ("reserved", CArr 2 CU32);
  ("groups", CArr NVM_MAX_QUEUE_GROUPS struct_nvm_queue_group)].

Definition struct_pci_device_addr : cty := CStruct [
  ("domain", CU32); ("bus", CU32); ("slot", CU32); ("func", CU32)].

Definition struct_nvm_ioctl_raw_admin : cty := CStruct [
  ("sqe", CArr 64 CU8); ("result_dw0", CU32); ("result_dw1", CU32);
  ("nvme_status", CU16); ("reserved0", CU16); ("reserved1", CArr 4 CU32)].

Definition struct_nvm_ioctl_queue_group : cty := CStruct [
  ("group_id", CU32); ("flags", CU32); ("max_queues", CU32);
  ("reserved", CArr 5 CU32)].

Definition struct_nvm_user_queue_pair_in : cty := CStruct [
  ("sq_vaddr", CU64); ("cq_vaddr", CU64)].

Definition struct_nvm_user_queue_pair_out : cty := CStruct [
  ("sq_doorbell_offset", CU32); ("cq_doorbell_offset", CU32);
  ("qid", CU32); ("reserved", CU32)].

Definition struct_nvm_ioctl_add_user_queue : cty := CStruct [
  ("group_id", CU32); ("nr_pairs", CU32); ("flags", CU32);
  ("reserved", CArr 5 CU32);
  ("pairs", CArr NVM_MAX_QUEUES_PER_GROUP struct_nvm_user_queue_pair_in);
  ("out_pairs", CArr NVM_MAX_QUEUES_PER_GROUP struct_nvm_user_queue_pair_out)].

(** ** Ioctl command numbers

    [_IOC(dir, type, nr, size)] of asm-generic/ioctl.h: [nr] in bits 0-7,
    [type] in bits 8-15, [size] in bits 16-29, [dir] in bits 30-31. *)
Definition IOC (dir ty nr size : Z) : Z :=
  Z.lor (Z.lor (Z.shiftl dir 30) (Z.shiftl ty 8)) (Z.lor nr (Z.shiftl size 16)).
Definition IOC_WRITE : Z := 1.
Definition IOC_READ : Z := 2.

Definition IOW (ty nr : Z) (t : cty) : Z := IOC IOC_WRITE ty nr (sizeof 8 t).
Definition IOR (ty nr : Z) (t : cty) : Z := IOC IOC_READ ty nr (sizeof 8 t).
Definition IOWR (ty nr : Z) (t : cty) : Z :=
  IOC (Z.lor IOC_READ IOC_WRITE) ty nr (sizeof 8 t).


Inductive nvm_ioctl_type : Set :=
  | NVM_MAP_HOST_MEMORY
  | NVM_MAP_DEVICE_MEMORY
  | NVM_MAP_DEVICE_QUEUE_MEMORY
  | NVM_UNMAP_HOST_MEMORY
  | NVM_UNMAP_DEVICE_MEMORY
  | NVM_UNMAP_DEVICE_QUEUE_MEMORY
  | NVM_SET_IOQ_NUM
  | NVM_SET_SHARE_REG
  | NVM_GET_DEV_INFO
  | NVM_CLEAR_IOQ_NUM
  | NVM_RAW_ADMIN_CMD
  | NVM_CREATE_QUEUE_GROUP
  | NVM_DESTROY_QUEUE_GROUP
  | NVM_ADD_USER_QUEUE
  | NVM_SET_KERNEL_IOQ_CAP.

#[export] Instance nvm_ioctl_type_eq_dec : EqDecision nvm_ioctl_type.
Proof. solve_decision. Defined.

Definition nvm_ioctl_code (c : nvm_ioctl_type) : Z :=
  match c with
  | NVM_MAP_HOST_MEMORY => IOW NVM_IOCTL_TYPE 1 struct_nvm_ioctl_map
  | NVM_MAP_DEVICE_MEMORY => IOW NVM_IOCTL_TYPE 2 struct_nvm_ioctl_map
  | NVM_MAP_DEVICE_QUEUE_MEMORY => IOW NVM_IOCTL_TYPE 3 struct_nvm_ioctl_map
  | NVM_UNMAP_HOST_MEMORY => IOW NVM_IOCTL_TYPE 4 CU64
  | NVM_UNMAP_DEVICE_MEMORY => IOW NVM_IOCTL_TYPE 5 CU64
  | NVM_UNMAP_DEVICE_QUEUE_MEMORY => IOW NVM_IOCTL_TYPE 6 CU64
  | NVM_SET_IOQ_NUM => IOW NVM_IOCTL_TYPE 7 struct_nvm_ioctl_setup
  | NVM_SET_SHARE_REG => IOW NVM_IOCTL_TYPE 8 struct_nvm_ioctl_dev
  | NVM_GET_DEV_INFO => IOR NVM_IOCTL_TYPE 9 struct_nvm_ioctl_dev
  | NVM_CLEAR_IOQ_NUM => IOW NVM_IOCTL_TYPE 10 struct_nvm_ioctl_dev
  | NVM_RAW_ADMIN_CMD => IOWR NVM_IOCTL_TYPE 11 struct_nvm_ioctl_raw_admin
  | NVM_CREATE_QUEUE_GROUP => IOWR NVM_IOCTL_TYPE 12 struct_nvm_ioctl_queue_group
  | NVM_DESTROY_QUEUE_GROUP => IOW NVM_IOCTL_TYPE 13 CU32
  | NVM_ADD_USER_QUEUE => IOWR NVM_IOCTL_TYPE 14 struct_nvm_ioctl_add_user_queue
  | NVM_SET_KERNEL_IOQ_CAP => IOW NVM_IOCTL_TYPE 15 CU32
  end.

Inductive snvm_ctrl_ioctl_type : Set :=
  | SNVM_DEVICE_BIND
  | SNVM_DEVICE_UNBIND
  | SNVM_CHRDEV_CREATE
  | SNVM_CHRDEV_REMOVE.

Definition snvm_ctrl_ioctl_code (c : snvm_ctrl_ioctl_type) : Z :=
  match c with
  | SNVM_DEVICE_BIND => IOW NVM_CTRL_IOCTL_TYPE 1 struct_pci_device_addr
  | SNVM_DEVICE_UNBIND => IOW NVM_CTRL_IOCTL_TYPE 2 struct_pci_device_addr
  | SNVM_CHRDEV_CREATE => IOWR NVM_CTRL_IOCTL_TYPE 3 struct_pci_device_addr
  | SNVM_CHRDEV_REMOVE => IOW NVM_CTRL_IOCTL_TYPE 4 struct_pci_device_addr
  end.

Definition all_nvm_ioctls : list nvm_ioctl_type :=
  [NVM_MAP_HOST_MEMORY; NVM_MAP_DEVICE_MEMORY; NVM_MAP_DEVICE_QUEUE_MEMORY;
   NVM_UNMAP_HOST_MEMORY; NVM_UNMAP_DEVICE_MEMORY;
   NVM_UNMAP_DEVICE_QUEUE_MEMORY; NVM_SET_IOQ_NUM; NVM_SET_SHARE_REG;
   NVM_GET_DEV_INFO; NVM_CLEAR_IOQ_NUM; NVM_RAW_ADMIN_CMD;
   NVM_CREATE_QUEUE_GROUP; NVM_DESTROY_QUEUE_GROUP; NVM_ADD_USER_QUEUE;
   NVM_SET_KERNEL_IOQ_CAP].

Definition all_ctrl_ioctls : list snvm_ctrl_ioctl_type :=
  [SNVM_DEVICE_BIND; SNVM_DEVICE_UNBIND; SNVM_CHRDEV_CREATE; SNVM_CHRDEV_REMOVE].

(** The [switch (cmd)] of a dispatcher, as a partial inverse of the encoding. *)
Definition decode_ioctl (cmd : Z) : option nvm_ioctl_type :=
  list_find (λ c, nvm_ioctl_code c = cmd) all_nvm_ioctls ≫= λ p, Some p.2.

Definition decode_ctrl_ioctl (cmd : Z) : option snvm_ctrl_ioctl_type :=
  list_find (λ c, snvm_ctrl_ioctl_code c = cmd) all_ctrl_ioctls ≫= λ p, Some p.2.

(** ** Theorems *)

(** every layout assertion of the header holds of the computed LP64 layout. *)
Theorem uapi_layout_locked :
  (sizeof 8 struct_nvm_ioctl_map = 40
   ∧ map (offsetof 8 struct_nvm_ioctl_map)
       ["vaddr_start"; "n_pages"; "ioaddrs"; "ioq_idx"; "group_id"; "map_kind"]%string
     = [Some 0; Some 8; Some 16; Some 24; Some 32; Some 36])
  ∧ (sizeof 8 struct_nvm_ioctl_dev = 104
     ∧ map (offsetof 8 struct_nvm_ioctl_dev)
         ["nr_user_q"; "start_cq_idx"; "dstrd"; "max_data_size"; "block_size";
          "disk_name"; "q_depth"; "bar0_size"; "max_user_qid"; "sgl_supported";
          "abi_version"; "capabilities"]%string
       = [Some 0; Some 4; Some 8; Some 16; Some 24; Some 32; Some 64; Some 68;
          Some 72; Some 80; Some 84; Some 88])
  ∧ (sizeof 8 struct_nvm_queue_group = 16
     ∧ map (offsetof 8 struct_nvm_queue_group) ["owner_id"; "count"; "numa_node"]%string
       = [Some 0; Some 4; Some 8])
  ∧ (sizeof 8 struct_nvm_ioctl_setup = 160
     ∧ map (offsetof 8 struct_nvm_ioctl_setup)
         ["ioq_num"; "cap_kernel_ioq"; "nr_groups"; "groups"]%string
       = [Some 0; Some 8; Some 20; Some 32])
  ∧ (sizeof 8 struct_pci_device_addr = 16
     ∧ map (offsetof 8 struct_pci_device_addr) ["domain"; "bus"; "slot"; "func"]%string
       = [Some 0; Some 4; Some 8; Some 12])
  ∧ (sizeof 8 struct_nvm_ioctl_raw_admin = 92
     ∧ map (offsetof 8 struct_nvm_ioctl_raw_admin) ["sqe"; "result_dw0"; "nvme_status"]%string
       = [Some 0; Some 64; Some 72])
  ∧ (sizeof 8 struct_nvm_ioctl_queue_group = 32
     ∧ map (offsetof 8 struct_nvm_ioctl_queue_group) ["group_id"; "max_queues"]%string
       = [Some 0; Some 8])
  ∧ (sizeof 8 struct_nvm_user_queue_pair_in = 16
     ∧ offsetof 8 struct_nvm_user_queue_pair_in "sq_vaddr" = Some 0)
  ∧ (sizeof 8 struct_nvm_user_queue_pair_out = 16
     ∧ offsetof 8 struct_nvm_user_queue_pair_out "sq_doorbell_offset" = Some 0)
  ∧ (sizeof 8 struct_nvm_ioctl_add_user_queue = 1056
     ∧ map (offsetof 8 struct_nvm_ioctl_add_user_queue)
         ["group_id"; "nr_pairs"; "pairs"; "out_pairs"]%string
       = [Some 0; Some 4; Some 32; Some 544]).
Proof. repeat split; vm_compute; reflexivity. Qed.

(** the header calls its layout the same for 32- and 64-bit userspace; on
    the 32-bit x86 ABI, where a uint64_t is 4-byte aligned, this holds of every
    struct but nvm_ioctl_dev, which is 100 bytes instead of 104. *)
Theorem nvm_ioctl_dev_layout_ia32 :
  sizeof 4 struct_nvm_ioctl_dev = 100
  ∧ offsetof 4 struct_nvm_ioctl_dev "max_data_size" = Some 12
  ∧ offsetof 8 struct_nvm_ioctl_dev "max_data_size" = Some 16
  ∧ Forall (λ t, sizeof 4 t = sizeof 8 t)
      [struct_nvm_ioctl_map; struct_nvm_ioctl_setup; struct_pci_device_addr;
       struct_nvm_ioctl_raw_admin; struct_nvm_ioctl_queue_group;
       struct_nvm_ioctl_add_user_queue].
Proof. repeat split; repeat constructor. Qed.

Lemma decode_ioctl_spec cmd c : decode_ioctl cmd = Some c ↔ cmd = nvm_ioctl_code c.
Proof.
  split.
  - unfold decode_ioctl. intros H. apply bind_Some in H as ([i c'] & H & [= <-]).
    by apply list_find_Some in H as (_ & <- & _).
  - intros ->. by destruct c.
Qed.

Lemma decode_ctrl_ioctl_spec cmd c : decode_ctrl_ioctl cmd = Some c ↔ cmd = snvm_ctrl_ioctl_code c.
Proof.
  split.
  - unfold decode_ctrl_ioctl. intros H. apply bind_Some in H as ([i c'] & H & [= <-]).
    by apply list_find_Some in H as (_ & <- & _).
  - intros ->. by destruct c.
Qed.

(** a dispatcher's switch recognises exactly the command numbers of its
    enum, no two commands share a number, and no number is a command of both
    the controller device and the control device. *)
Theorem ioctl_numbers_roundtrip cmd :
  (∀ c, decode_ioctl cmd = Some c ↔ cmd = nvm_ioctl_code c)
  ∧ (∀ c, decode_ctrl_ioctl cmd = Some c ↔ cmd = snvm_ctrl_ioctl_code c)
  ∧ (decode_ioctl cmd = None ∨ decode_ctrl_ioctl cmd = None).
Proof.
  split; [apply decode_ioctl_spec|]. split; [apply decode_ctrl_ioctl_spec|].
  destruct (decode_ioctl cmd) as [c|] eqn:Hc; [right|by left].
  apply decode_ioctl_spec in Hc as ->. by destruct c.
Qed.
