(* ===== verification/LinkedList.v ===== *)
(** * LinkedList: the intrusive doubly linked list of snvme/list.h and list.c

    The list is modelled at the level of the pointers it is made of: a heap of
    [list_node]s, where the address of a [struct list] is the address of its
    embedded head node.  The refinement theorems say that on a well-formed
    list the operations are append, remove and traversal of a sequence, which
    is what the components built on it ([Kernel], [Map], [Ctrl]) use. *)
From S2P Require Import Prelude.

Abbreviation addr := nat.

(** struct list_node: [None] is the null pointer. *)
Record list_node : Type := mk_list_node {
  n_list : option addr;
  n_next : option addr;
  n_prev : option addr;
}.

#[export] Instance set_n_list : Setter n_list := λ f n,
  mk_list_node (f (n_list n)) (n_next n) (n_prev n).
#[export] Instance set_n_next : Setter n_next := λ f n,
  mk_list_node (n_list n) (f (n_next n)) (n_prev n).
#[export] Instance set_n_prev : Setter n_prev := λ f n,
  mk_list_node (n_list n) (n_next n) (f (n_prev n)).

Abbreviation heap := (gmap addr list_node).
Abbreviation L := (M heap).

Definition deref (p : option addr) : L addr := from_opt NullDeref p.
Definition load (a : addr) : L list_node :=
  h ← gets id; from_opt UseAfterFree (h !! a).
Definition store (a : addr) (f : list_node → list_node) : L unit :=
  n ← load a; modify (insert a (f n)).

(** list_node_init *)
Definition list_node_init (e : addr) : L unit :=
  store e (λ n, n <| n_list := None |>);;
  store e (λ n, n <| n_next := None |>);;
  store e (λ n, n <| n_prev := None |>).

(** list_next(current): the next element, or NULL when it is the head. *)
Definition list_next (current : addr) : L (option addr) :=
  n ← load current;
  l ← deref (n_list n);
  mret (if bool_decide (n_next n = Some l) then None else n_next n).

(** list_init *)
Definition list_init (l : addr) : L unit :=
  store l (λ n, n <| n_list := Some l |>);;
  store l (λ n, n <| n_prev := Some l |>);;
  store l (λ n, n <| n_next := Some l |>).

(** list_remove: nothing on NULL, on a detached node and on a head. *)
Definition list_remove (element : option addr) : L unit :=
  match element with
  | None => mret tt
  | Some e =>
      n ← load e;
      match n_list n with
      | None => mret tt
      | Some l =>
          if bool_decide (e = l) then mret tt else
          n ← load e;
          p ← deref (n_prev n);
          store p (λ m, m <| n_next := n_next n |>);;
          n ← load e;
          q ← deref (n_next n);
          store q (λ m, m <| n_prev := n_prev n |>);;
          store e (λ n, n <| n_list := None |>);;
          store e (λ n, n <| n_next := None |>);;
          store e (λ n, n <| n_prev := None |>)
      end
  end.

(** list_insert: append before the head. *)
Definition list_insert (l e : addr) : L unit :=
  n ← load l;
  last ← deref (n_prev n);
  store last (λ n, n <| n_next := Some e |>);;
  store e (λ n, n <| n_list := Some l |>);;
  store e (λ n, n <| n_prev := Some last |>);;
  store e (λ n, n <| n_next := Some l |>);;
  store l (λ n, n <| n_prev := Some e |>).

(** The [while (element != NULL) ... element = list_next(element)] loops of
    ctrl.c and map.c, collecting what they visit. *)
Fixpoint walk_from (fuel : nat) (e : option addr) : L (list addr) :=
  match fuel, e with
  | _, None => mret []
  | O, Some _ => fail 0
  | S fuel, Some a =>
      e' ← list_next a;
      rest ← walk_from fuel e';
      mret (a :: rest)
  end.

Definition walk (fuel : nat) (l : addr) : L (list addr) :=
  e ← list_next l; walk_from fuel e.

(** ** Representation *)

Definition hd_or (q : addr) (xs : list addr) : addr := default q (head xs).
Definition last_or (p : addr) (xs : list addr) : addr := default p (last xs).

(** [chain h l p xs q]: the nodes [xs] in order, entered from [p], left to [q],
    all claiming to be on list [l]. *)
Fixpoint chain (h : heap) (l p : addr) (xs : list addr) (q : addr) : Prop :=
  match xs with
  | [] => True
  | x :: xs =>
      h !! x = Some (mk_list_node (Some l) (Some (hd_or q xs)) (Some p))
      ∧ chain h l x xs q
  end.

Definition is_list (h : heap) (l : addr) (xs : list addr) : Prop :=
  NoDup (l :: xs)
  ∧ h !! l = Some (mk_list_node (Some l) (Some (hd_or l xs)) (Some (last_or l xs)))
  ∧ chain h l l xs l.

Lemma last_or_nil p : last_or p [] = p.
Proof. done. Qed.

Lemma hd_or_nil q : hd_or q [] = q.
Proof. done. Qed.

Lemma hd_or_cons q x xs : hd_or q (x :: xs) = x.
Proof. done. Qed.

Lemma last_or_snoc p xs x : last_or p (xs ++ [x]) = x.
Proof. unfold last_or. by rewrite last_snoc. Qed.

Lemma last_or_cons p x xs : last_or p (x :: xs) = last_or x xs.
Proof. unfold last_or. rewrite last_cons. by destruct (last xs). Qed.

Lemma hd_or_app q xs ys : hd_or q (xs ++ ys) = hd_or (hd_or q ys) xs.
Proof. by destruct xs. Qed.

Lemma last_or_app p xs ys : last_or p (xs ++ ys) = last_or (last_or p xs) ys.
Proof. unfold last_or. rewrite last_app. by destruct (last ys), (last xs). Qed.

Lemma chain_app h l p xs ys q :
  chain h l p (xs ++ ys) q ↔
  chain h l p xs (hd_or q ys) ∧ chain h l (last_or p xs) ys q.
Proof.
  revert p. induction xs as [|x xs IH]; intros p; cbn; [tauto|].
  rewrite IH, hd_or_app, last_or_cons. tauto.
Qed.

Lemma chain_insert h l p xs q a n : a ∉ xs → chain (<[a:=n]> h) l p xs q ↔ chain h l p xs q.
Proof.
  revert p. induction xs as [|x xs IH]; intros p Ha; cbn; [done|].
  apply not_elem_of_cons in Ha as [Hx Ha].
  by rewrite lookup_insert_ne, IH by done.
Qed.

Create Rewrite HintDb dlist.
#[export] Hint Rewrite last_or_nil hd_or_nil hd_or_cons last_or_snoc last_or_cons hd_or_app : dlist.

(** Sequencing of loads and stores on a known heap. *)
Lemma load_ok a (h : heap) n : h !! a = Some n → load a h = (Ok n, h).
Proof. intros H. unfold load, gets, mbind, M_bind. cbn. by rewrite H. Qed.

Lemma store_ok a f (h : heap) n : h !! a = Some n → store a f h = (Ok tt, <[a := f n]> h).
Proof. intros H. unfold store. by rewrite (bind_ok _ _ _ _ _ (load_ok _ _ _ H)). Qed.

Ltac heap_simpl :=
  repeat first [rewrite lookup_insert_eq | rewrite lookup_insert_ne by congruence].
Ltac run1 :=
  lazymatch goal with
  | |- context [(load ?a ≫= _) ?h] =>
      erewrite (bind_ok (load a) _ h) by (apply load_ok; heap_simpl; eassumption || reflexivity)
  | |- context [(store ?a ?f ≫= _) ?h] =>
      erewrite (bind_ok (store a f) _ h) by (apply store_ok; heap_simpl; eassumption || reflexivity)
  | |- context [store ?a ?f ?h] =>
      erewrite (store_ok a f h) by (heap_simpl; eassumption || reflexivity)
  | |- context [(deref (Some ?a) ≫= _) ?h] =>
      rewrite (bind_ok (deref (Some a)) _ h a h eq_refl)
  end; cbn beta iota; cbn [n_list n_next n_prev set set_n_list set_n_next set_n_prev].

(** ** Refinement theorems *)

Lemma list_init_ok h l n :
  h !! l = Some n →
  ∃ h', list_init l h = (Ok tt, h') ∧ is_list h' l [] ∧ ∀ a, a ≠ l → h' !! a = h !! a.
Proof.
  intros Hl. eexists. split.
  - unfold list_init. do 3 run1. reflexivity.
  - split.
    + split; [by apply NoDup_singleton|]. cbn. split; [|done]. by heap_simpl.
    + intros a Ha. by heap_simpl.
Qed.

Lemma NoDup_snoc_cons (l e : addr) xs :
  NoDup (l :: xs) → e ≠ l → e ∉ xs → NoDup (l :: xs ++ [e]).
Proof.
  intros Hnd Hel He. change (NoDup ((l :: xs) ++ [e])). apply NoDup_app.
  split; [done|]. split; [|apply NoDup_singleton].
  intros a Ha ->%list_elem_of_singleton. by apply not_elem_of_cons in Ha.
Qed.

(** list_insert on a well-formed list appends the node to the sequence. *)
Theorem list_insert_refines h l xs e n :
  is_list h l xs → e ∉ l :: xs → h !! e = Some n →
  ∃ h', list_insert l e h = (Ok tt, h') ∧ is_list h' l (xs ++ [e])
        ∧ ∀ a, a ∉ l :: e :: xs → h' !! a = h !! a.
Proof.
  intros (Hnd & Hl & Hc) He Hn.
  apply not_elem_of_cons in He as [Hel Hexs].
  pose proof Hnd as [Hlxs Hndxs]%NoDup_cons.
  assert (Hnd' : NoDup (l :: xs ++ [e])) by (by apply NoDup_snoc_cons).
  destruct xs as [|z xs _] using rev_ind.
  - autorewrite with dlist in *.
    eexists. split; [unfold list_insert; do 7 run1; reflexivity|]. split.
    + split; [done|]. cbn. by heap_simpl.
    + intros a Ha. by rewrite !lookup_insert_ne by set_solver.
  - rewrite last_or_snoc in Hl. apply chain_app in Hc as [Hc [Hz _]].
    assert (e ≠ z ∧ l ≠ z) as [? ?] by set_solver.
    apply NoDup_app in Hndxs as (_ & Hdis & _).
    assert (z ∉ xs) by set_solver. assert (e ∉ xs) by set_solver. assert (l ∉ xs) by set_solver.
    eexists. split; [unfold list_insert; do 7 run1; reflexivity|]. split.
    + split; [done|]. rewrite last_or_snoc, !hd_or_app in *. split.
      * heap_simpl. by destruct xs.
      * apply chain_app. rewrite last_or_snoc. split; [|by cbn; heap_simpl].
        apply chain_app. split; [|by cbn; heap_simpl].
        by rewrite !chain_insert by done.
    + intros a Ha. by rewrite !lookup_insert_ne by set_solver.
Qed.


Ltac nodup_facts :=
  repeat match goal with
  | H : NoDup (_ :: _) |- _ => apply NoDup_cons in H as [? ?]
  | H : _ ∉ _ :: _ |- _ => apply not_elem_of_cons in H as [? ?]
  | H : _ ∉ _ ++ _ |- _ => apply not_elem_of_app in H as [? ?]
  end.

(** list_remove unlinks the node, wherever it is, and clears it. *)
Theorem list_remove_refines h l xs x :
  is_list h l xs → x ∈ xs →
  ∃ h', list_remove (Some x) h = (Ok tt, h') ∧ is_list h' l (without x xs)
        ∧ h' !! x = Some (mk_list_node None None None)
        ∧ ∀ a, a ∉ l :: xs → h' !! a = h !! a.
Proof.
  intros (Hnd & Hl & Hc) Hx. apply list_elem_of_split in Hx as (ys & zs & ->).
  rewrite without_split by (by apply NoDup_cons in Hnd as [_ ?]).
  apply chain_app in Hc as [Hys [Hx Hzs]].
  rewrite hd_or_app, last_or_app, last_or_cons in Hl.
  change (hd_or l (x :: zs)) with x in Hl, Hys.
  assert (Hnd' : NoDup (l :: ys ++ zs)).
  { rewrite <- Permutation_middle, Permutation_swap in Hnd.
    by apply NoDup_cons in Hnd as [_ ?]. }
  pose proof Hnd as Hd. rewrite <- Permutation_middle in Hd. clear Hnd. revert Hnd'.
  destruct ys as [|p ys _] using rev_ind; destruct zs as [|q zs];
    autorewrite with dlist in *; rewrite ?last_or_app in *; rewrite <- ?app_assoc in *;
    cbn [app] in *; rewrite <- ?Permutation_middle in Hd; nodup_facts.
  all: repeat match goal with
       | H : chain _ _ _ (_ ++ _) _ |- _ => apply chain_app in H as [? ?]
       | H : chain _ _ _ (_ :: _) _ |- _ => destruct H as [? ?]
       end; autorewrite with dlist in *.
  all: intros Hnd'; (eexists; split;
    [unfold list_remove; run1; rewrite bool_decide_eq_false_2 by congruence; do 9 run1; reflexivity|]).
  all: split; [split; [done|]|split].
  all: try (intros a Ha; nodup_facts; by heap_simpl).
  all: heap_simpl; try done.
  all: autorewrite with dlist; rewrite ?last_or_app; autorewrite with dlist; split; [done|].
  all: repeat (rewrite chain_app || cbn [chain] || autorewrite with dlist).
  all: rewrite ?chain_insert by done; by heap_simpl.
Qed.

(** list_remove leaves a detached node, a head and NULL alone. *)
Lemma list_remove_detached h x :
  n_list <$> h !! x = Some None → list_remove (Some x) h = (Ok tt, h).
Proof.
  intros H. destruct (h !! x) as [n|] eqn:Hx; [|done]. cbn in H. simplify_eq.
  unfold list_remove. rewrite (bind_ok _ _ _ _ _ (load_ok _ _ _ Hx)). by rewrite H.
Qed.

Lemma list_next_in h l xs y ys :
  is_list h l (xs ++ y :: ys) → list_next y h = (Ok (head ys), h).
Proof.
  intros (Hnd & _ & Hc). apply chain_app in Hc as [_ [Hy _]].
  unfold list_next. run1. run1. cbn. f_equal. f_equal.
  apply NoDup_cons in Hnd as [Hl _]. destruct ys as [|z ys]; cbn.
  - by rewrite bool_decide_eq_true_2.
  - rewrite bool_decide_eq_false_2; [done|]. intros [= ->]. apply Hl. set_solver.
Qed.

Lemma list_next_head h l xs : is_list h l xs → list_next l h = (Ok (head xs), h).
Proof.
  intros (Hnd & Hl & _). unfold list_next. run1. run1. cbn. f_equal. f_equal.
  apply NoDup_cons in Hnd as [Hlx _]. destruct xs as [|z ys]; cbn.
  - by rewrite bool_decide_eq_true_2.
  - rewrite bool_decide_eq_false_2; [done|]. intros [= ->]. apply Hlx. set_solver.
Qed.

Lemma walk_from_refines h l xs ys fuel :
  is_list h l (xs ++ ys) → (length ys ≤ fuel)%nat →
  walk_from fuel (head ys) h = (Ok ys, h).
Proof.
  revert xs fuel. induction ys as [|y ys IH]; intros xs fuel Hl Hf.
  - by destruct fuel.
  - destruct fuel as [|fuel]; [cbn in Hf; lia|]. cbn [walk_from head].
    rewrite (bind_ok _ _ _ _ _ (list_next_in _ _ _ _ _ Hl)).
    rewrite (bind_ok _ _ _ ys h); [done|].
    apply (IH (xs ++ [y])); [by rewrite <- app_assoc|cbn in Hf; lia].
Qed.

(** the traversal loops visit exactly the sequence, in order, and stop. *)
Theorem walk_refines h l xs fuel :
  is_list h l xs → (length xs ≤ fuel)%nat → walk fuel l h = (Ok xs, h).
Proof.
  intros Hl Hf. unfold walk. rewrite (bind_ok _ _ _ _ _ (list_next_head _ _ _ Hl)).
  by apply (walk_from_refines h l []).
Qed.

(** ** A list of two nodes at 10 and 20 behind a head at 1; 30 is detached *)
Definition sample_heap : heap :=
  {[ 1%nat := mk_list_node (Some 1%nat) (Some 10%nat) (Some 20%nat);
     10%nat := mk_list_node (Some 1%nat) (Some 20%nat) (Some 1%nat);
     20%nat := mk_list_node (Some 1%nat) (Some 1%nat) (Some 10%nat);
     30%nat := mk_list_node None None None ]}.

Lemma sample_is_list : is_list sample_heap 1%nat [10%nat; 20%nat].
Proof. split; [repeat constructor; set_solver|]. split; [by vm_compute|]. by vm_compute. Qed.

Lemma list_insert_refines_witness :
  ∃ h', list_insert 1%nat 30%nat sample_heap = (Ok tt, h') ∧ is_list h' 1%nat [10; 20; 30]%nat.
Proof.
  destruct (list_insert_refines sample_heap 1%nat [10; 20]%nat 30%nat (mk_list_node None None None)
    sample_is_list) as (h' & H1 & H2 & _); [set_solver|by vm_compute|]. eauto.
Defined.

Lemma list_remove_refines_witness :
  ∃ h', list_remove (Some 10%nat) sample_heap = (Ok tt, h') ∧ is_list h' 1%nat [20%nat].
Proof.
  destruct (list_remove_refines sample_heap 1%nat [10; 20]%nat 10%nat sample_is_list)
    as (h' & H1 & H2 & _); [set_solver|]. eauto.
Defined.

Lemma walk_refines_witness : walk 2 1%nat sample_heap = (Ok [10%nat; 20%nat], sample_heap).
Proof. apply (walk_refines sample_heap 1%nat [10; 20]%nat 2 sample_is_list). cbn. lia. Defined.
