(* ===== verification/Kernel.v ===== *)
(** * Kernel: the state of the snvme module and of what it runs against

    One record per C struct ([ctrl.h], [map.h], [snvm_qgroup.h],
    [snvm_ndev.h]), one record [kstate] for everything the module's entry
    points share, and the class [Env] of answers that come from outside the
    sources: allocators, user copies, page pinning, the IOMMU, the controller's
    admin queue, the IDA, symbol lookup, udev and the GPU drivers.  Every call
    to the outside consumes one tick, so that quantifying over [Env] ranges
    over all sequences of answers. *)
From S2P Require Import Prelude.
From S2P Require Import Uapi.

(** Identifiers of objects. *)
Abbreviation task := nat.
Abbreviation fdid := nat.
Abbreviation mapid := nat.
Abbreviation cid := nat.
Abbreviation pdevid := nat.

(** ** Host and GPU pages *)
Definition PAGE_SHIFT : Z := 12.
Definition PAGE_SIZE : Z := 2 ^ PAGE_SHIFT.
Definition GPU_PAGE_SHIFT : Z := 16.
Definition GPU_PAGE_SIZE : Z := 2 ^ GPU_PAGE_SHIFT.

(** A pointer-valued memory cell: never written, null, or an object. *)
Inductive cell : Set :=
  | CUninit
  | CNull
  | CPtr (p : nat).

#[export] Instance cell_eq_dec : EqDecision cell.
Proof. solve_decision. Defined.

(** struct gpu_region of map.c *)
Record gpu_region : Type := mk_gpu_region {
  pages : cell;
  mappings : option (list cell);
  phx_handle : cell;
}.

#[export] Instance set_pages : Setter pages := λ f r,
  mk_gpu_region (f (pages r)) (mappings r) (phx_handle r).
#[export] Instance set_mappings : Setter mappings := λ f r,
  mk_gpu_region (pages r) (f (mappings r)) (phx_handle r).
#[export] Instance set_phx_handle : Setter phx_handle := λ f r,
  mk_gpu_region (pages r) (mappings r) (f (phx_handle r)).

(** What [map->data] points at, and the [map->release] callback. *)
Inductive map_data : Type :=
  | DataNull
  | DataPages (pages : list Z)
  | DataGpu (gd : gpu_region).

Inductive release_fn : Set :=
  | NoRelease
  | release_user_pages_fn
  | release_gpu_memory_fn
  | release_gpu_ioqueue_memory_fn.

(** struct map of map.h.  [m_has_ctrl_list] says whether [ctrl_list] was set
    (it always points at the global list). *)
Record map : Type := mk_map {
  m_owner : task;
  m_vaddr : Z;
  m_has_ctrl_list : bool;
  m_pdev : pdevid;
  m_page_size : Z;
  m_data : map_data;
  m_release : release_fn;
  m_group_id : Z;
  m_kind : Z;
  m_n_addrs : Z;
  m_addrs : list Z;
}.

#[export] Instance set_m_owner : Setter m_owner := λ f r,
  mk_map (f (m_owner r)) (m_vaddr r) (m_has_ctrl_list r) (m_pdev r) (m_page_size r)
    (m_data r) (m_release r) (m_group_id r) (m_kind r) (m_n_addrs r) (m_addrs r).
#[export] Instance set_m_vaddr : Setter m_vaddr := λ f r,
  mk_map (m_owner r) (f (m_vaddr r)) (m_has_ctrl_list r) (m_pdev r) (m_page_size r)
    (m_data r) (m_release r) (m_group_id r) (m_kind r) (m_n_addrs r) (m_addrs r).
#[export] Instance set_m_has_ctrl_list : Setter m_has_ctrl_list := λ f r,
  mk_map (m_owner r) (m_vaddr r) (f (m_has_ctrl_list r)) (m_pdev r) (m_page_size r)
    (m_data r) (m_release r) (m_group_id r) (m_kind r) (m_n_addrs r) (m_addrs r).
#[export] Instance set_m_pdev : Setter m_pdev := λ f r,
  mk_map (m_owner r) (m_vaddr r) (m_has_ctrl_list r) (f (m_pdev r)) (m_page_size r)
    (m_data r) (m_release r) (m_group_id r) (m_kind r) (m_n_addrs r) (m_addrs r).
#[export] Instance set_m_page_size : Setter m_page_size := λ f r,
  mk_map (m_owner r) (m_vaddr r) (m_has_ctrl_list r) (m_pdev r) (f (m_page_size r))
    (m_data r) (m_release r) (m_group_id r) (m_kind r) (m_n_addrs r) (m_addrs r).
#[export] Instance set_m_data : Setter m_data := λ f r,
  mk_map (m_owner r) (m_vaddr r) (m_has_ctrl_list r) (m_pdev r) (m_page_size r) (f
    (m_data r)) (m_release r) (m_group_id r) (m_kind r) (m_n_addrs r) (m_addrs r).
#[export] Instance set_m_release : Setter m_release := λ f r,
  mk_map (m_owner r) (m_vaddr r) (m_has_ctrl_list r) (m_pdev r) (m_page_size r) (m_data
    r) (f (m_release r)) (m_group_id r) (m_kind r) (m_n_addrs r) (m_addrs r).
#[export] Instance set_m_group_id : Setter m_group_id := λ f r,
  mk_map (m_owner r) (m_vaddr r) (m_has_ctrl_list r) (m_pdev r) (m_page_size r) (m_data
    r) (m_release r) (f (m_group_id r)) (m_kind r) (m_n_addrs r) (m_addrs r).
#[export] Instance set_m_kind : Setter m_kind := λ f r,
  mk_map (m_owner r) (m_vaddr r) (m_has_ctrl_list r) (m_pdev r) (m_page_size r) (m_data
    r) (m_release r) (m_group_id r) (f (m_kind r)) (m_n_addrs r) (m_addrs r).
#[export] Instance set_m_n_addrs : Setter m_n_addrs := λ f r,
  mk_map (m_owner r) (m_vaddr r) (m_has_ctrl_list r) (m_pdev r) (m_page_size r) (m_data
    r) (m_release r) (m_group_id r) (m_kind r) (f (m_n_addrs r)) (m_addrs r).
#[export] Instance set_m_addrs : Setter m_addrs := λ f r,
  mk_map (m_owner r) (m_vaddr r) (m_has_ctrl_list r) (m_pdev r) (m_page_size r) (m_data
    r) (m_release r) (m_group_id r) (m_kind r) (m_n_addrs r) (f (m_addrs r)).

(** struct snvm_user_queue and struct snvm_qgroup of snvm_qgroup.h *)
Record snvm_user_queue : Type := mk_uq {
  uq_qid : Z;
  uq_alive : bool;
}.

#[export] Instance set_uq_qid : Setter uq_qid := λ f r,
  mk_uq (f (uq_qid r)) (uq_alive r).
#[export] Instance set_uq_alive : Setter uq_alive := λ f r,
  mk_uq (uq_qid r) (f (uq_alive r)).

Record snvm_qgroup : Type := mk_qgroup {
  g_group_id : Z;
  g_max_queues : Z;
  g_maps : list mapid;
  g_nr_maps : Z;
  g_queues : list snvm_user_queue;
  g_cur_queues : Z;
}.

#[export] Instance set_g_group_id : Setter g_group_id := λ f r,
  mk_qgroup (f (g_group_id r)) (g_max_queues r) (g_maps r) (g_nr_maps r) (g_queues r)
    (g_cur_queues r).
#[export] Instance set_g_max_queues : Setter g_max_queues := λ f r,
  mk_qgroup (g_group_id r) (f (g_max_queues r)) (g_maps r) (g_nr_maps r) (g_queues r)
    (g_cur_queues r).
#[export] Instance set_g_maps : Setter g_maps := λ f r,
  mk_qgroup (g_group_id r) (g_max_queues r) (f (g_maps r)) (g_nr_maps r) (g_queues r)
    (g_cur_queues r).
#[export] Instance set_g_nr_maps : Setter g_nr_maps := λ f r,
  mk_qgroup (g_group_id r) (g_max_queues r) (g_maps r) (f (g_nr_maps r)) (g_queues r)
    (g_cur_queues r).
#[export] Instance set_g_queues : Setter g_queues := λ f r,
  mk_qgroup (g_group_id r) (g_max_queues r) (g_maps r) (g_nr_maps r) (f (g_queues r))
    (g_cur_queues r).
#[export] Instance set_g_cur_queues : Setter g_cur_queues := λ f r,
  mk_qgroup (g_group_id r) (g_max_queues r) (g_maps r) (g_nr_maps r) (g_queues r) (f
    (g_cur_queues r)).

(** struct snvm_dev_owner: what [file->private_data] points at. *)
Record snvm_dev_owner : Type := mk_owner {
  own_ctrl : cid;
  own_owner : task;
  own_groups : list snvm_qgroup;
  own_nr_groups : Z;
  own_data_maps : list mapid;
  own_nr_data_maps : Z;
}.

#[export] Instance set_own_ctrl : Setter own_ctrl := λ f r,
  mk_owner (f (own_ctrl r)) (own_owner r) (own_groups r) (own_nr_groups r)
    (own_data_maps r) (own_nr_data_maps r).
#[export] Instance set_own_owner : Setter own_owner := λ f r,
  mk_owner (own_ctrl r) (f (own_owner r)) (own_groups r) (own_nr_groups r)
    (own_data_maps r) (own_nr_data_maps r).
#[export] Instance set_own_groups : Setter own_groups := λ f r,
  mk_owner (own_ctrl r) (own_owner r) (f (own_groups r)) (own_nr_groups r)
    (own_data_maps r) (own_nr_data_maps r).
#[export] Instance set_own_nr_groups : Setter own_nr_groups := λ f r,
  mk_owner (own_ctrl r) (own_owner r) (own_groups r) (f (own_nr_groups r))
    (own_data_maps r) (own_nr_data_maps r).
#[export] Instance set_own_data_maps : Setter own_data_maps := λ f r,
  mk_owner (own_ctrl r) (own_owner r) (own_groups r) (own_nr_groups r) (f (own_data_maps
    r)) (own_nr_data_maps r).
#[export] Instance set_own_nr_data_maps : Setter own_nr_data_maps := λ f r,
  mk_owner (own_ctrl r) (own_owner r) (own_groups r) (own_nr_groups r) (own_data_maps r)
    (f (own_nr_data_maps r)).

(** An open file on /dev/ssnvme<N>: its inode, its private
    data and whether it was opened for writing. *)
Record file : Type := mk_file {
  f_inode : nat;
  private_data : option snvm_dev_owner;
  f_mode_write : bool;
}.

#[export] Instance set_f_inode : Setter f_inode := λ f r,
  mk_file (f (f_inode r)) (private_data r) (f_mode_write r).
#[export] Instance set_private_data : Setter private_data := λ f r,
  mk_file (f_inode r) (f (private_data r)) (f_mode_write r).
#[export] Instance set_f_mode_write : Setter f_mode_write := λ f r,
  mk_file (f_inode r) (private_data r) (f (f_mode_write r)).

(** struct snvm_queue_setup of ctrl.h (the fields the module reads). *)
Record snvm_queue_setup : Type := mk_setup {
  setup_valid : Z;
  setup_ioq_num : Z;
  setup_flags : Z;
  setup_cap_kernel_ioq : Z;
  setup_nr_write : Z;
  setup_nr_poll : Z;
  setup_nr_groups : Z;
}.

#[export] Instance set_setup_valid : Setter setup_valid := λ f r,
  mk_setup (f (setup_valid r)) (setup_ioq_num r) (setup_flags r) (setup_cap_kernel_ioq
    r) (setup_nr_write r) (setup_nr_poll r) (setup_nr_groups r).
#[export] Instance set_setup_ioq_num : Setter setup_ioq_num := λ f r,
  mk_setup (setup_valid r) (f (setup_ioq_num r)) (setup_flags r) (setup_cap_kernel_ioq
    r) (setup_nr_write r) (setup_nr_poll r) (setup_nr_groups r).
#[export] Instance set_setup_flags : Setter setup_flags := λ f r,
  mk_setup (setup_valid r) (setup_ioq_num r) (f (setup_flags r)) (setup_cap_kernel_ioq
    r) (setup_nr_write r) (setup_nr_poll r) (setup_nr_groups r).
#[export] Instance set_setup_cap_kernel_ioq : Setter setup_cap_kernel_ioq := λ f r,
  mk_setup (setup_valid r) (setup_ioq_num r) (setup_flags r) (f (setup_cap_kernel_ioq
    r)) (setup_nr_write r) (setup_nr_poll r) (setup_nr_groups r).
#[export] Instance set_setup_nr_write : Setter setup_nr_write := λ f r,
  mk_setup (setup_valid r) (setup_ioq_num r) (setup_flags r) (setup_cap_kernel_ioq r) (f
    (setup_nr_write r)) (setup_nr_poll r) (setup_nr_groups r).
#[export] Instance set_setup_nr_poll : Setter setup_nr_poll := λ f r,
  mk_setup (setup_valid r) (setup_ioq_num r) (setup_flags r) (setup_cap_kernel_ioq r)
    (setup_nr_write r) (f (setup_nr_poll r)) (setup_nr_groups r).
#[export] Instance set_setup_nr_groups : Setter setup_nr_groups := λ f r,
  mk_setup (setup_valid r) (setup_ioq_num r) (setup_flags r) (setup_cap_kernel_ioq r)
    (setup_nr_write r) (setup_nr_poll r) (f (setup_nr_groups r)).

Definition zero_setup : snvm_queue_setup := mk_setup 0 0 0 0 0 0 0.

(** struct ctrl of ctrl.h, with the reference count of the embedded cdev's
    kobject and the inodes linked on [cdev.list]. *)
Record ctrl : Type := mk_ctrl {
  c_pdev : pdevid;
  c_name : string;
  c_number : Z;
  c_rdev : Z;
  c_chrdev : bool;
  c_setup : snvm_queue_setup;
  user_qid_bitmap : option (list bool);
  user_qid_first : Z;
  user_qid_last : Z;
  c_kref : Z;
  c_inodes : list nat;
}.

#[export] Instance set_c_pdev : Setter c_pdev := λ f r,
  mk_ctrl (f (c_pdev r)) (c_name r) (c_number r) (c_rdev r) (c_chrdev r) (c_setup r)
    (user_qid_bitmap r) (user_qid_first r) (user_qid_last r) (c_kref r) (c_inodes r).
#[export] Instance set_c_name : Setter c_name := λ f r,
  mk_ctrl (c_pdev r) (f (c_name r)) (c_number r) (c_rdev r) (c_chrdev r) (c_setup r)
    (user_qid_bitmap r) (user_qid_first r) (user_qid_last r) (c_kref r) (c_inodes r).
#[export] Instance set_c_number : Setter c_number := λ f r,
  mk_ctrl (c_pdev r) (c_name r) (f (c_number r)) (c_rdev r) (c_chrdev r) (c_setup r)
    (user_qid_bitmap r) (user_qid_first r) (user_qid_last r) (c_kref r) (c_inodes r).
#[export] Instance set_c_rdev : Setter c_rdev := λ f r,
  mk_ctrl (c_pdev r) (c_name r) (c_number r) (f (c_rdev r)) (c_chrdev r) (c_setup r)
    (user_qid_bitmap r) (user_qid_first r) (user_qid_last r) (c_kref r) (c_inodes r).
#[export] Instance set_c_chrdev : Setter c_chrdev := λ f r,
  mk_ctrl (c_pdev r) (c_name r) (c_number r) (c_rdev r) (f (c_chrdev r)) (c_setup r)
    (user_qid_bitmap r) (user_qid_first r) (user_qid_last r) (c_kref r) (c_inodes r).
#[export] Instance set_c_setup : Setter c_setup := λ f r,
  mk_ctrl (c_pdev r) (c_name r) (c_number r) (c_rdev r) (c_chrdev r) (f (c_setup r))
    (user_qid_bitmap r) (user_qid_first r) (user_qid_last r) (c_kref r) (c_inodes r).
#[export] Instance set_user_qid_bitmap : Setter user_qid_bitmap := λ f r,
  mk_ctrl (c_pdev r) (c_name r) (c_number r) (c_rdev r) (c_chrdev r) (c_setup r) (f
    (user_qid_bitmap r)) (user_qid_first r) (user_qid_last r) (c_kref r) (c_inodes r).
#[export] Instance set_user_qid_first : Setter user_qid_first := λ f r,
  mk_ctrl (c_pdev r) (c_name r) (c_number r) (c_rdev r) (c_chrdev r) (c_setup r)
    (user_qid_bitmap r) (f (user_qid_first r)) (user_qid_last r) (c_kref r) (c_inodes
    r).
#[export] Instance set_user_qid_last : Setter user_qid_last := λ f r,
  mk_ctrl (c_pdev r) (c_name r) (c_number r) (c_rdev r) (c_chrdev r) (c_setup r)
    (user_qid_bitmap r) (user_qid_first r) (f (user_qid_last r)) (c_kref r) (c_inodes
    r).
#[export] Instance set_c_kref : Setter c_kref := λ f r,
  mk_ctrl (c_pdev r) (c_name r) (c_number r) (c_rdev r) (c_chrdev r) (c_setup r)
    (user_qid_bitmap r) (user_qid_first r) (user_qid_last r) (f (c_kref r)) (c_inodes
    r).
#[export] Instance set_c_inodes : Setter c_inodes := λ f r,
  mk_ctrl (c_pdev r) (c_name r) (c_number r) (c_rdev r) (c_chrdev r) (c_setup r)
    (user_qid_bitmap r) (user_qid_first r) (user_qid_last r) (c_kref r) (f (c_inodes
    r)).

(** struct nvme_dev of baseline/6.8/snvm_ndev.h: the fields the shared units
    read, [nd_admin_q] standing for [ctrl.admin_q != NULL]. *)
Record nvme_dev : Type := mk_ndev {
  online_queues : Z;
  online_user_queues : Z;
  user_start_qid : Z;
  nr_allocated_queues : Z;
  nr_write_queues : Z;
  nr_poll_queues : Z;
  ctrl_max_io_queues : Z;
  nd_cap_kernel_ioq : Z;
  q_depth : Z;
  db_stride : Z;
  nd_admin_q : bool;
  max_hw_sectors : Z;
  sgls : Z;
}.

#[export] Instance set_online_queues : Setter online_queues := λ f r,
  mk_ndev (f (online_queues r)) (online_user_queues r) (user_start_qid r)
    (nr_allocated_queues r) (nr_write_queues r) (nr_poll_queues r) (ctrl_max_io_queues
    r) (nd_cap_kernel_ioq r) (q_depth r) (db_stride r) (nd_admin_q r) (max_hw_sectors r)
    (sgls r).
#[export] Instance set_online_user_queues : Setter online_user_queues := λ f r,
  mk_ndev (online_queues r) (f (online_user_queues r)) (user_start_qid r)
    (nr_allocated_queues r) (nr_write_queues r) (nr_poll_queues r) (ctrl_max_io_queues
    r) (nd_cap_kernel_ioq r) (q_depth r) (db_stride r) (nd_admin_q r) (max_hw_sectors r)
    (sgls r).
#[export] Instance set_user_start_qid : Setter user_start_qid := λ f r,
  mk_ndev (online_queues r) (online_user_queues r) (f (user_start_qid r))
    (nr_allocated_queues r) (nr_write_queues r) (nr_poll_queues r) (ctrl_max_io_queues
    r) (nd_cap_kernel_ioq r) (q_depth r) (db_stride r) (nd_admin_q r) (max_hw_sectors r)
    (sgls r).
#[export] Instance set_nr_allocated_queues : Setter nr_allocated_queues := λ f r,
  mk_ndev (online_queues r) (online_user_queues r) (user_start_qid r) (f
    (nr_allocated_queues r)) (nr_write_queues r) (nr_poll_queues r) (ctrl_max_io_queues
    r) (nd_cap_kernel_ioq r) (q_depth r) (db_stride r) (nd_admin_q r) (max_hw_sectors r)
    (sgls r).
#[export] Instance set_nr_write_queues : Setter nr_write_queues := λ f r,
  mk_ndev (online_queues r) (online_user_queues r) (user_start_qid r)
    (nr_allocated_queues r) (f (nr_write_queues r)) (nr_poll_queues r)
    (ctrl_max_io_queues r) (nd_cap_kernel_ioq r) (q_depth r) (db_stride r) (nd_admin_q
    r) (max_hw_sectors r) (sgls r).
#[export] Instance set_nr_poll_queues : Setter nr_poll_queues := λ f r,
  mk_ndev (online_queues r) (online_user_queues r) (user_start_qid r)
    (nr_allocated_queues r) (nr_write_queues r) (f (nr_poll_queues r))
    (ctrl_max_io_queues r) (nd_cap_kernel_ioq r) (q_depth r) (db_stride r) (nd_admin_q
    r) (max_hw_sectors r) (sgls r).
#[export] Instance set_ctrl_max_io_queues : Setter ctrl_max_io_queues := λ f r,
  mk_ndev (online_queues r) (online_user_queues r) (user_start_qid r)
    (nr_allocated_queues r) (nr_write_queues r) (nr_poll_queues r) (f
    (ctrl_max_io_queues r)) (nd_cap_kernel_ioq r) (q_depth r) (db_stride r) (nd_admin_q
    r) (max_hw_sectors r) (sgls r).
#[export] Instance set_nd_cap_kernel_ioq : Setter nd_cap_kernel_ioq := λ f r,
  mk_ndev (online_queues r) (online_user_queues r) (user_start_qid r)
    (nr_allocated_queues r) (nr_write_queues r) (nr_poll_queues r) (ctrl_max_io_queues
    r) (f (nd_cap_kernel_ioq r)) (q_depth r) (db_stride r) (nd_admin_q r)
    (max_hw_sectors r) (sgls r).
#[export] Instance set_q_depth : Setter q_depth := λ f r,
  mk_ndev (online_queues r) (online_user_queues r) (user_start_qid r)
    (nr_allocated_queues r) (nr_write_queues r) (nr_poll_queues r) (ctrl_max_io_queues
    r) (nd_cap_kernel_ioq r) (f (q_depth r)) (db_stride r) (nd_admin_q r)
    (max_hw_sectors r) (sgls r).
#[export] Instance set_db_stride : Setter db_stride := λ f r,
  mk_ndev (online_queues r) (online_user_queues r) (user_start_qid r)
    (nr_allocated_queues r) (nr_write_queues r) (nr_poll_queues r) (ctrl_max_io_queues
    r) (nd_cap_kernel_ioq r) (q_depth r) (f (db_stride r)) (nd_admin_q r)
    (max_hw_sectors r) (sgls r).
#[export] Instance set_nd_admin_q : Setter nd_admin_q := λ f r,
  mk_ndev (online_queues r) (online_user_queues r) (user_start_qid r)
    (nr_allocated_queues r) (nr_write_queues r) (nr_poll_queues r) (ctrl_max_io_queues
    r) (nd_cap_kernel_ioq r) (q_depth r) (db_stride r) (f (nd_admin_q r))
    (max_hw_sectors r) (sgls r).
#[export] Instance set_max_hw_sectors : Setter max_hw_sectors := λ f r,
  mk_ndev (online_queues r) (online_user_queues r) (user_start_qid r)
    (nr_allocated_queues r) (nr_write_queues r) (nr_poll_queues r) (ctrl_max_io_queues
    r) (nd_cap_kernel_ioq r) (q_depth r) (db_stride r) (nd_admin_q r) (f (max_hw_sectors
    r)) (sgls r).
#[export] Instance set_sgls : Setter sgls := λ f r,
  mk_ndev (online_queues r) (online_user_queues r) (user_start_qid r)
    (nr_allocated_queues r) (nr_write_queues r) (nr_poll_queues r) (ctrl_max_io_queues
    r) (nd_cap_kernel_ioq r) (q_depth r) (db_stride r) (nd_admin_q r) (max_hw_sectors r)
    (f (sgls r)).

(** A PCI function: its driver pointer ([Some None] is a driver with a null
    name), drvdata, enable state, class, BAR0 and reference count. *)
Record pci_dev : Type := mk_pdev {
  pd_domain : Z;
  pd_bus : Z;
  pd_devfn : Z;
  pd_driver : option (option string);
  pd_drvdata : option nvme_dev;
  pd_enabled : bool;
  pd_class : Z;
  pd_bar0_start : Z;
  pd_bar0_len : Z;
  pd_refs : Z;
}.

#[export] Instance set_pd_domain : Setter pd_domain := λ f r,
  mk_pdev (f (pd_domain r)) (pd_bus r) (pd_devfn r) (pd_driver r) (pd_drvdata r)
    (pd_enabled r) (pd_class r) (pd_bar0_start r) (pd_bar0_len r) (pd_refs r).
#[export] Instance set_pd_bus : Setter pd_bus := λ f r,
  mk_pdev (pd_domain r) (f (pd_bus r)) (pd_devfn r) (pd_driver r) (pd_drvdata r)
    (pd_enabled r) (pd_class r) (pd_bar0_start r) (pd_bar0_len r) (pd_refs r).
#[export] Instance set_pd_devfn : Setter pd_devfn := λ f r,
  mk_pdev (pd_domain r) (pd_bus r) (f (pd_devfn r)) (pd_driver r) (pd_drvdata r)
    (pd_enabled r) (pd_class r) (pd_bar0_start r) (pd_bar0_len r) (pd_refs r).
#[export] Instance set_pd_driver : Setter pd_driver := λ f r,
  mk_pdev (pd_domain r) (pd_bus r) (pd_devfn r) (f (pd_driver r)) (pd_drvdata r)
    (pd_enabled r) (pd_class r) (pd_bar0_start r) (pd_bar0_len r) (pd_refs r).
#[export] Instance set_pd_drvdata : Setter pd_drvdata := λ f r,
  mk_pdev (pd_domain r) (pd_bus r) (pd_devfn r) (pd_driver r) (f (pd_drvdata r))
    (pd_enabled r) (pd_class r) (pd_bar0_start r) (pd_bar0_len r) (pd_refs r).
#[export] Instance set_pd_enabled : Setter pd_enabled := λ f r,
  mk_pdev (pd_domain r) (pd_bus r) (pd_devfn r) (pd_driver r) (pd_drvdata r) (f
    (pd_enabled r)) (pd_class r) (pd_bar0_start r) (pd_bar0_len r) (pd_refs r).
#[export] Instance set_pd_class : Setter pd_class := λ f r,
  mk_pdev (pd_domain r) (pd_bus r) (pd_devfn r) (pd_driver r) (pd_drvdata r) (pd_enabled
    r) (f (pd_class r)) (pd_bar0_start r) (pd_bar0_len r) (pd_refs r).
#[export] Instance set_pd_bar0_start : Setter pd_bar0_start := λ f r,
  mk_pdev (pd_domain r) (pd_bus r) (pd_devfn r) (pd_driver r) (pd_drvdata r) (pd_enabled
    r) (pd_class r) (f (pd_bar0_start r)) (pd_bar0_len r) (pd_refs r).
#[export] Instance set_pd_bar0_len : Setter pd_bar0_len := λ f r,
  mk_pdev (pd_domain r) (pd_bus r) (pd_devfn r) (pd_driver r) (pd_drvdata r) (pd_enabled
    r) (pd_class r) (pd_bar0_start r) (f (pd_bar0_len r)) (pd_refs r).
#[export] Instance set_pd_refs : Setter pd_refs := λ f r,
  mk_pdev (pd_domain r) (pd_bus r) (pd_devfn r) (pd_driver r) (pd_drvdata r) (pd_enabled
    r) (pd_class r) (pd_bar0_start r) (pd_bar0_len r) (f (pd_refs r)).

(** GPU peer-memory objects: page tables and DMA mappings. *)
Record peer_page_table : Type := mk_pt {
  pt_handle : Z;
  pt_sgt : option (list (Z * Z));
  pt_entries : Z;
  pt_length : Z;
}.

#[export] Instance set_pt_handle : Setter pt_handle := λ f r,
  mk_pt (f (pt_handle r)) (pt_sgt r) (pt_entries r) (pt_length r).
#[export] Instance set_pt_sgt : Setter pt_sgt := λ f r,
  mk_pt (pt_handle r) (f (pt_sgt r)) (pt_entries r) (pt_length r).
#[export] Instance set_pt_entries : Setter pt_entries := λ f r,
  mk_pt (pt_handle r) (pt_sgt r) (f (pt_entries r)) (pt_length r).
#[export] Instance set_pt_length : Setter pt_length := λ f r,
  mk_pt (pt_handle r) (pt_sgt r) (pt_entries r) (f (pt_length r)).

Record peer_dma_mapping : Type := mk_dm {
  dma_addresses : option (list Z);
}.

#[export] Instance set_dma_addresses : Setter dma_addresses := λ f r,
  mk_dm (f (dma_addresses r)).

Record peer_state : Type := mk_peer {
  ps_syms : gset string;
  ps_pts : gmap nat peer_page_table;
  ps_dms : gmap nat peer_dma_mapping;
  ps_next : nat;
}.

#[export] Instance set_ps_syms : Setter ps_syms := λ f r,
  mk_peer (f (ps_syms r)) (ps_pts r) (ps_dms r) (ps_next r).
#[export] Instance set_ps_pts : Setter ps_pts := λ f r,
  mk_peer (ps_syms r) (f (ps_pts r)) (ps_dms r) (ps_next r).
#[export] Instance set_ps_dms : Setter ps_dms := λ f r,
  mk_peer (ps_syms r) (ps_pts r) (f (ps_dms r)) (ps_next r).
#[export] Instance set_ps_next : Setter ps_next := λ f r,
  mk_peer (ps_syms r) (ps_pts r) (ps_dms r) (f (ps_next r)).

(** Admin commands the user-queue code issues. *)
Inductive admin_cmd : Set :=
  | CreateCQ (qid prp1 qsize flags irq_vector : Z)
  | CreateSQ (qid prp1 qsize flags cqid : Z)
  | DeleteSQ (qid : Z)
  | DeleteCQ (qid : Z).

#[export] Instance admin_cmd_eq_dec : EqDecision admin_cmd.
Proof. solve_decision. Defined.

(** External effects, oldest first in [k_trace]. *)
Inductive event : Type :=
  | EvAdmin (c : admin_cmd) (rc : Z)
  | EvPin (pages : list Z)
  | EvPutPage (page : Z)
  | EvDmaMap (p : pdevid) (addr : Z)
  | EvDmaUnmap (p : pdevid) (addr : Z)
  | EvPeerGet (pt : nat)
  | EvPeerPut (pt : nat)
  | EvPeerMap (p : pdevid) (dm : nat)
  | EvPeerUnmap (p : pdevid) (dm : nat)
  | EvPeerFreePt (pt : nat)
  | EvVendor (op : string) (h : Z)
  | EvPhxRegister (h : nat)
  | EvPhxDeregister (h : nat)
  | EvReleaseMap (m : mapid)
  | EvFreeGroup (gid : Z)
  | EvDriverAttach
  | EvDriverRelease (p : pdevid).

(** The /dev/snvm_control singleton: class, minor region, cdev, device node. *)
Record control_dev : Type := mk_control {
  dev_class : bool;
  chrdev_region : bool;
  snvm_cdev : bool;
  control_node : bool;
}.

#[export] Instance set_dev_class : Setter dev_class := λ f r,
  mk_control (f (dev_class r)) (chrdev_region r) (snvm_cdev r) (control_node r).
#[export] Instance set_chrdev_region : Setter chrdev_region := λ f r,
  mk_control (dev_class r) (f (chrdev_region r)) (snvm_cdev r) (control_node r).
#[export] Instance set_snvm_cdev : Setter snvm_cdev := λ f r,
  mk_control (dev_class r) (chrdev_region r) (f (snvm_cdev r)) (control_node r).
#[export] Instance set_control_node : Setter control_node := λ f r,
  mk_control (dev_class r) (chrdev_region r) (snvm_cdev r) (f (control_node r)).

(** The whole module state. *)
Record kstate : Type := mk_kstate {
  k_tick : nat;
  k_trace : list event;
  k_heap : gmap mapid map;
  k_next : nat;
  host_list : list mapid;
  device_list : list mapid;
  device_queue_list : list mapid;
  k_ctrls : gmap cid ctrl;
  ctrl_list : list cid;
  k_files : gmap fdid file;
  snvm_queue_group_ida : gset Z;
  snvm_chrdev_minor_ida : gset Z;
  k_pdevs : gmap pdevid pci_dev;
  k_symrefs : gmap string Z;
  phx_register_fn : bool;
  phx_deregister_fn : bool;
  k_peer : peer_state;
  snvm_registered : bool;
  k_on_bus : bool;
  k_inodes : gmap nat (option cid);
  k_major : Z;
  k_control : control_dev;
}.

#[export] Instance set_k_tick : Setter k_tick := λ f r,
  mk_kstate (f (k_tick r)) (k_trace r) (k_heap r) (k_next r) (host_list r) (device_list
    r) (device_queue_list r) (k_ctrls r) (ctrl_list r) (k_files r) (snvm_queue_group_ida
    r) (snvm_chrdev_minor_ida r) (k_pdevs r) (k_symrefs r) (phx_register_fn r)
    (phx_deregister_fn r) (k_peer r) (snvm_registered r) (k_on_bus r) (k_inodes r)
    (k_major r) (k_control r).
#[export] Instance set_k_trace : Setter k_trace := λ f r,
  mk_kstate (k_tick r) (f (k_trace r)) (k_heap r) (k_next r) (host_list r) (device_list
    r) (device_queue_list r) (k_ctrls r) (ctrl_list r) (k_files r) (snvm_queue_group_ida
    r) (snvm_chrdev_minor_ida r) (k_pdevs r) (k_symrefs r) (phx_register_fn r)
    (phx_deregister_fn r) (k_peer r) (snvm_registered r) (k_on_bus r) (k_inodes r)
    (k_major r) (k_control r).
#[export] Instance set_k_heap : Setter k_heap := λ f r,
  mk_kstate (k_tick r) (k_trace r) (f (k_heap r)) (k_next r) (host_list r) (device_list
    r) (device_queue_list r) (k_ctrls r) (ctrl_list r) (k_files r) (snvm_queue_group_ida
    r) (snvm_chrdev_minor_ida r) (k_pdevs r) (k_symrefs r) (phx_register_fn r)
    (phx_deregister_fn r) (k_peer r) (snvm_registered r) (k_on_bus r) (k_inodes r)
    (k_major r) (k_control r).
#[export] Instance set_k_next : Setter k_next := λ f r,
  mk_kstate (k_tick r) (k_trace r) (k_heap r) (f (k_next r)) (host_list r) (device_list
    r) (device_queue_list r) (k_ctrls r) (ctrl_list r) (k_files r) (snvm_queue_group_ida
    r) (snvm_chrdev_minor_ida r) (k_pdevs r) (k_symrefs r) (phx_register_fn r)
    (phx_deregister_fn r) (k_peer r) (snvm_registered r) (k_on_bus r) (k_inodes r)
    (k_major r) (k_control r).
#[export] Instance set_host_list : Setter host_list := λ f r,
  mk_kstate (k_tick r) (k_trace r) (k_heap r) (k_next r) (f (host_list r)) (device_list
    r) (device_queue_list r) (k_ctrls r) (ctrl_list r) (k_files r) (snvm_queue_group_ida
    r) (snvm_chrdev_minor_ida r) (k_pdevs r) (k_symrefs r) (phx_register_fn r)
    (phx_deregister_fn r) (k_peer r) (snvm_registered r) (k_on_bus r) (k_inodes r)
    (k_major r) (k_control r).
#[export] Instance set_device_list : Setter device_list := λ f r,
  mk_kstate (k_tick r) (k_trace r) (k_heap r) (k_next r) (host_list r) (f (device_list
    r)) (device_queue_list r) (k_ctrls r) (ctrl_list r) (k_files r)
    (snvm_queue_group_ida r) (snvm_chrdev_minor_ida r) (k_pdevs r) (k_symrefs r)
    (phx_register_fn r) (phx_deregister_fn r) (k_peer r) (snvm_registered r) (k_on_bus
    r) (k_inodes r) (k_major r) (k_control r).
#[export] Instance set_device_queue_list : Setter device_queue_list := λ f r,
  mk_kstate (k_tick r) (k_trace r) (k_heap r) (k_next r) (host_list r) (device_list r)
    (f (device_queue_list r)) (k_ctrls r) (ctrl_list r) (k_files r)
    (snvm_queue_group_ida r) (snvm_chrdev_minor_ida r) (k_pdevs r) (k_symrefs r)
    (phx_register_fn r) (phx_deregister_fn r) (k_peer r) (snvm_registered r) (k_on_bus
    r) (k_inodes r) (k_major r) (k_control r).
#[export] Instance set_k_ctrls : Setter k_ctrls := λ f r,
  mk_kstate (k_tick r) (k_trace r) (k_heap r) (k_next r) (host_list r) (device_list r)
    (device_queue_list r) (f (k_ctrls r)) (ctrl_list r) (k_files r)
    (snvm_queue_group_ida r) (snvm_chrdev_minor_ida r) (k_pdevs r) (k_symrefs r)
    (phx_register_fn r) (phx_deregister_fn r) (k_peer r) (snvm_registered r) (k_on_bus
    r) (k_inodes r) (k_major r) (k_control r).
#[export] Instance set_ctrl_list : Setter ctrl_list := λ f r,
  mk_kstate (k_tick r) (k_trace r) (k_heap r) (k_next r) (host_list r) (device_list r)
    (device_queue_list r) (k_ctrls r) (f (ctrl_list r)) (k_files r)
    (snvm_queue_group_ida r) (snvm_chrdev_minor_ida r) (k_pdevs r) (k_symrefs r)
    (phx_register_fn r) (phx_deregister_fn r) (k_peer r) (snvm_registered r) (k_on_bus
    r) (k_inodes r) (k_major r) (k_control r).
#[export] Instance set_k_files : Setter k_files := λ f r,
  mk_kstate (k_tick r) (k_trace r) (k_heap r) (k_next r) (host_list r) (device_list r)
    (device_queue_list r) (k_ctrls r) (ctrl_list r) (f (k_files r))
    (snvm_queue_group_ida r) (snvm_chrdev_minor_ida r) (k_pdevs r) (k_symrefs r)
    (phx_register_fn r) (phx_deregister_fn r) (k_peer r) (snvm_registered r) (k_on_bus
    r) (k_inodes r) (k_major r) (k_control r).
#[export] Instance set_snvm_queue_group_ida : Setter snvm_queue_group_ida := λ f r,
  mk_kstate (k_tick r) (k_trace r) (k_heap r) (k_next r) (host_list r) (device_list r)
    (device_queue_list r) (k_ctrls r) (ctrl_list r) (k_files r) (f (snvm_queue_group_ida
    r)) (snvm_chrdev_minor_ida r) (k_pdevs r) (k_symrefs r) (phx_register_fn r)
    (phx_deregister_fn r) (k_peer r) (snvm_registered r) (k_on_bus r) (k_inodes r)
    (k_major r) (k_control r).
#[export] Instance set_snvm_chrdev_minor_ida : Setter snvm_chrdev_minor_ida := λ f r,
  mk_kstate (k_tick r) (k_trace r) (k_heap r) (k_next r) (host_list r) (device_list r)
    (device_queue_list r) (k_ctrls r) (ctrl_list r) (k_files r) (snvm_queue_group_ida r)
    (f (snvm_chrdev_minor_ida r)) (k_pdevs r) (k_symrefs r) (phx_register_fn r)
    (phx_deregister_fn r) (k_peer r) (snvm_registered r) (k_on_bus r) (k_inodes r)
    (k_major r) (k_control r).
#[export] Instance set_k_pdevs : Setter k_pdevs := λ f r,
  mk_kstate (k_tick r) (k_trace r) (k_heap r) (k_next r) (host_list r) (device_list r)
    (device_queue_list r) (k_ctrls r) (ctrl_list r) (k_files r) (snvm_queue_group_ida r)
    (snvm_chrdev_minor_ida r) (f (k_pdevs r)) (k_symrefs r) (phx_register_fn r)
    (phx_deregister_fn r) (k_peer r) (snvm_registered r) (k_on_bus r) (k_inodes r)
    (k_major r) (k_control r).
#[export] Instance set_k_symrefs : Setter k_symrefs := λ f r,
  mk_kstate (k_tick r) (k_trace r) (k_heap r) (k_next r) (host_list r) (device_list r)
    (device_queue_list r) (k_ctrls r) (ctrl_list r) (k_files r) (snvm_queue_group_ida r)
    (snvm_chrdev_minor_ida r) (k_pdevs r) (f (k_symrefs r)) (phx_register_fn r)
    (phx_deregister_fn r) (k_peer r) (snvm_registered r) (k_on_bus r) (k_inodes r)
    (k_major r) (k_control r).
#[export] Instance set_phx_register_fn : Setter phx_register_fn := λ f r,
  mk_kstate (k_tick r) (k_trace r) (k_heap r) (k_next r) (host_list r) (device_list r)
    (device_queue_list r) (k_ctrls r) (ctrl_list r) (k_files r) (snvm_queue_group_ida r)
    (snvm_chrdev_minor_ida r) (k_pdevs r) (k_symrefs r) (f (phx_register_fn r))
    (phx_deregister_fn r) (k_peer r) (snvm_registered r) (k_on_bus r) (k_inodes r)
    (k_major r) (k_control r).
#[export] Instance set_phx_deregister_fn : Setter phx_deregister_fn := λ f r,
  mk_kstate (k_tick r) (k_trace r) (k_heap r) (k_next r) (host_list r) (device_list r)
    (device_queue_list r) (k_ctrls r) (ctrl_list r) (k_files r) (snvm_queue_group_ida r)
    (snvm_chrdev_minor_ida r) (k_pdevs r) (k_symrefs r) (phx_register_fn r) (f
    (phx_deregister_fn r)) (k_peer r) (snvm_registered r) (k_on_bus r) (k_inodes r)
    (k_major r) (k_control r).
#[export] Instance set_k_peer : Setter k_peer := λ f r,
  mk_kstate (k_tick r) (k_trace r) (k_heap r) (k_next r) (host_list r) (device_list r)
    (device_queue_list r) (k_ctrls r) (ctrl_list r) (k_files r) (snvm_queue_group_ida r)
    (snvm_chrdev_minor_ida r) (k_pdevs r) (k_symrefs r) (phx_register_fn r)
    (phx_deregister_fn r) (f (k_peer r)) (snvm_registered r) (k_on_bus r) (k_inodes r)
    (k_major r) (k_control r).
#[export] Instance set_snvm_registered : Setter snvm_registered := λ f r,
  mk_kstate (k_tick r) (k_trace r) (k_heap r) (k_next r) (host_list r) (device_list r)
    (device_queue_list r) (k_ctrls r) (ctrl_list r) (k_files r) (snvm_queue_group_ida r)
    (snvm_chrdev_minor_ida r) (k_pdevs r) (k_symrefs r) (phx_register_fn r)
    (phx_deregister_fn r) (k_peer r) (f (snvm_registered r)) (k_on_bus r) (k_inodes r)
    (k_major r) (k_control r).
#[export] Instance set_k_on_bus : Setter k_on_bus := λ f r,
  mk_kstate (k_tick r) (k_trace r) (k_heap r) (k_next r) (host_list r) (device_list r)
    (device_queue_list r) (k_ctrls r) (ctrl_list r) (k_files r) (snvm_queue_group_ida r)
    (snvm_chrdev_minor_ida r) (k_pdevs r) (k_symrefs r) (phx_register_fn r)
    (phx_deregister_fn r) (k_peer r) (snvm_registered r) (f (k_on_bus r)) (k_inodes r)
    (k_major r) (k_control r).
#[export] Instance set_k_inodes : Setter k_inodes := λ f r,
  mk_kstate (k_tick r) (k_trace r) (k_heap r) (k_next r) (host_list r) (device_list r)
    (device_queue_list r) (k_ctrls r) (ctrl_list r) (k_files r) (snvm_queue_group_ida r)
    (snvm_chrdev_minor_ida r) (k_pdevs r) (k_symrefs r) (phx_register_fn r)
    (phx_deregister_fn r) (k_peer r) (snvm_registered r) (k_on_bus r) (f (k_inodes r))
    (k_major r) (k_control r).
#[export] Instance set_k_major : Setter k_major := λ f r,
  mk_kstate (k_tick r) (k_trace r) (k_heap r) (k_next r) (host_list r) (device_list r)
    (device_queue_list r) (k_ctrls r) (ctrl_list r) (k_files r) (snvm_queue_group_ida r)
    (snvm_chrdev_minor_ida r) (k_pdevs r) (k_symrefs r) (phx_register_fn r)
    (phx_deregister_fn r) (k_peer r) (snvm_registered r) (k_on_bus r) (k_inodes r) (f
    (k_major r)) (k_control r).
#[export] Instance set_k_control : Setter k_control := λ f r,
  mk_kstate (k_tick r) (k_trace r) (k_heap r) (k_next r) (host_list r) (device_list r)
    (device_queue_list r) (k_ctrls r) (ctrl_list r) (k_files r) (snvm_queue_group_ida r)
    (snvm_chrdev_minor_ida r) (k_pdevs r) (k_symrefs r) (phx_register_fn r)
    (phx_deregister_fn r) (k_peer r) (snvm_registered r) (k_on_bus r) (k_inodes r)
    (k_major r) (f (k_control r)).

Abbreviation K := (M kstate).

(** ** The environment *)
Class Env : Type := {
  (** a k*alloc call succeeds *)
  env_alloc : nat → bool;
  (** bytes NOT copied by copy_from_user / copy_to_user; 0 is success *)
  env_copy_from : nat → Z;
  env_copy_to : nat → Z;
  (** get_user_pages start nr: the return value and the pages *)
  env_gup : nat → Z → Z → Z * list Z;
  (** dma_map_page and dma_mapping_error *)
  env_dma_map : nat → pdevid → Z → Z;
  env_dma_error : nat → pdevid → Z → Z;
  (** snvme_submit_sync_cmd on the admin queue *)
  env_admin : nat → admin_cmd → Z;
  (** ida_simple_get(ida, start, 0): the new id or a negative errno *)
  env_ida : nat → gset Z → Z → Z;
  (** __symbol_get finds the symbol *)
  env_symbol : nat → string → bool;
  (** phxfs_p2p_register vaddr length: errno, handle, bus addresses *)
  env_phx : nat → Z → Z → Z * option nat * list Z;
  (** cdev_add and device_create: 0 or a negative errno *)
  env_cdev_add : nat → Z;
  env_device_create : nat → Z;
  (** class_create, alloc_chrdev_region: 0 or a negative errno *)
  env_class_create : nat → Z;
  env_chrdev_region : nat → Z;
  (** snvme_find_get_ns(ctrl, 1): the disk name and the LBA shift *)
  env_ns : nat → option (list Z * Z);
  (** vm_iomap_memory start len *)
  env_iomap : nat → Z → Z → Z;
  (** the baseline's admin pass-through ioctl *)
  env_passthru : nat → Z → bool → Z;
  (** pci_register_driver *)
  env_register : nat → Z;
  (** driver_attach: its return value *)
  env_attach : nat → Z;
  (** nvme_probe called by the driver core on a device: the drvdata of a
      successful probe, or none *)
  env_probe : nat → pdevid → option (option nvme_dev);
  (** the driver and drvdata the environment (driver core or udev) binds an
      unbound device to at this point, if any *)
  env_bind : nat → pdevid → option (option string * option nvme_dev);
  (** contents of freshly kmalloc'ed memory: [n] 64-bit words *)
  env_junk : nat → nat → list Z;
}.

(** Documented behaviour of the environment the theorems rely on. *)
Class EnvOk (E : Env) : Prop := {
  (** an IDA hands out an int that is not in use and not below [start] *)
  ida_fresh : ∀ t ids start, 0 ≤ env_ida t ids start →
    start ≤ env_ida t ids start < 2 ^ 31 ∧ env_ida t ids start ∉ ids;
  (** get_user_pages pins at most what was asked and reports how many *)
  gup_count : ∀ t start nr, 0 < (env_gup t start nr).1 →
    (env_gup t start nr).1 ≤ nr
    ∧ Z.of_nat (length (env_gup t start nr).2) = (env_gup t start nr).1;
  (** phxfs_p2p_register(vaddr, length) pins that range and returns the bus
      addresses of its GPU pages: at most one per page of [length].  Its
      contract is not in the repository; map_gpu_memory copies that many
      addresses into an array of [length / GPU_PAGE_SIZE] *)
  phx_count : ∀ t v len, 0 ≤ len →
    Z.of_nat (length (env_phx t v len).2) ≤ len / GPU_PAGE_SIZE;
  (** kmalloc(n * 8) returns n words *)
  junk_length : ∀ t n, length (env_junk t n) = n;
}.

Section primitives.
Context `{E : Env}.

Definition tick : K nat :=
  t ← gets k_tick; modify (λ w, w <| k_tick := S t |>);; mret t.

Definition log (e : event) : K unit := modify (λ w, w <| k_trace ::= (.++ [e]) |>).

(** A kernel allocation: [Err ENOMEM] is the caller's usual reaction, but the
    choice is left to it. *)
Definition kalloc : K bool := t ← tick; mret (env_alloc t).

(** [if (copy_from_user(...)) return -EFAULT] *)
Definition copy_from_user : K unit :=
  t ← tick; guard_err (bool_decide (env_copy_from t ≠ 0)) EFAULT.

(** copy_to_user, returning the number of bytes left *)
Definition copy_to_user : K Z := t ← tick; mret (env_copy_to t).

(** __symbol_get / __symbol_put: a reference on the exporting module *)
Definition symbol_get (name : string) : K bool :=
  t ← tick;
  if env_symbol t name
  then modify (λ w, w <| k_symrefs ::= insert name (default 0 (k_symrefs w !! name) + 1) |>);;
       mret true
  else mret false.

Definition symbol_put (name : string) : K unit :=
  modify (λ w, w <| k_symrefs ::= insert name (default 0 (k_symrefs w !! name) - 1) |>).

(** Dereference of a [struct map *]. *)
Definition the_map (m : mapid) : K map :=
  h ← gets k_heap; from_opt UseAfterFree (h !! m).

Definition upd_map (m : mapid) (f : map → map) : K unit :=
  md ← the_map m; modify (λ w, w <| k_heap ::= insert m (f md) |>).

Definition the_ctrl (c : cid) : K ctrl :=
  cs ← gets k_ctrls; from_opt UseAfterFree (cs !! c).

Definition upd_ctrl (c : cid) (f : ctrl → ctrl) : K unit :=
  ct ← the_ctrl c; modify (λ w, w <| k_ctrls ::= insert c (f ct) |>).

(** Run an operation on one controller's struct. *)
Definition with_ctrl {A} (c : cid) (m : M ctrl A) : K A := λ w,
  match k_ctrls w !! c with
  | None => (Fault UseAfterFree, w)
  | Some ct => ((m ct).1, w <| k_ctrls ::= insert c (m ct).2 |>)
  end.

Definition the_pdev (p : pdevid) : K pci_dev :=
  ps ← gets k_pdevs; from_opt UseAfterFree (ps !! p).

Definition upd_pdev (p : pdevid) (f : pci_dev → pci_dev) : K unit :=
  pd ← the_pdev p; modify (λ w, w <| k_pdevs ::= insert p (f pd) |>).

Definition the_file (fd : fdid) : K file :=
  fs ← gets k_files; from_opt UseAfterFree (fs !! fd).

Definition upd_file (fd : fdid) (f : file → file) : K unit :=
  fl ← the_file fd; modify (λ w, w <| k_files ::= insert fd (f fl) |>).

(** [file->private_data], which must be set. *)
Definition upd_owner (fd : fdid) (f : snvm_dev_owner → snvm_dev_owner) : K unit :=
  fl ← the_file fd;
  own ← from_opt NullDeref (private_data fl);
  modify (λ w, w <| k_files ::= insert fd (fl <| private_data := Some (f own) |>) |>).
End primitives.

(** Their specifications. *)
Section primitive_specs.
Context `{E : Env}.
Implicit Types (w : kstate).

Lemma wp_tick (Q : outcome nat → kstate → Prop) w :
  Q (Ok (k_tick w)) (w <| k_tick := S (k_tick w) |>) → wp tick Q w.
Proof. done. Qed.

Lemma wp_kalloc (Q : outcome bool → kstate → Prop) w :
  Q (Ok (env_alloc (k_tick w))) (w <| k_tick := S (k_tick w) |>) → wp kalloc Q w.
Proof. done. Qed.

Lemma wp_log e (Q : outcome unit → kstate → Prop) w :
  Q (Ok tt) (w <| k_trace ::= (.++ [e]) |>) → wp (log e) Q w.
Proof. done. Qed.

Lemma wp_the_map m md (Q : outcome map → kstate → Prop) w :
  k_heap w !! m = Some md → Q (Ok md) w → wp (the_map m) Q w.
Proof. intros Hm HQ. unfold wp, the_map, mbind, M_bind, gets. by rewrite Hm. Qed.

Lemma wp_upd_map m md f (Q : outcome unit → kstate → Prop) w :
  k_heap w !! m = Some md → Q (Ok tt) (w <| k_heap ::= insert m (f md) |>) →
  wp (upd_map m f) Q w.
Proof. intros Hm HQ. apply wp_bind, (wp_the_map m md); [done|]. exact HQ. Qed.

Lemma wp_the_ctrl c ct (Q : outcome ctrl → kstate → Prop) w :
  k_ctrls w !! c = Some ct → Q (Ok ct) w → wp (the_ctrl c) Q w.
Proof. intros Hc HQ. unfold wp, the_ctrl, mbind, M_bind, gets. by rewrite Hc. Qed.

Lemma wp_upd_ctrl c ct f (Q : outcome unit → kstate → Prop) w :
  k_ctrls w !! c = Some ct → Q (Ok tt) (w <| k_ctrls ::= insert c (f ct) |>) →
  wp (upd_ctrl c f) Q w.
Proof. intros Hc HQ. apply wp_bind, (wp_the_ctrl c ct); [done|]. exact HQ. Qed.

Lemma wp_the_pdev p pd (Q : outcome pci_dev → kstate → Prop) w :
  k_pdevs w !! p = Some pd → Q (Ok pd) w → wp (the_pdev p) Q w.
Proof. intros Hp HQ. unfold wp, the_pdev, mbind, M_bind, gets. by rewrite Hp. Qed.

Lemma wp_the_file fd fl (Q : outcome file → kstate → Prop) w :
  k_files w !! fd = Some fl → Q (Ok fl) w → wp (the_file fd) Q w.
Proof. intros Hf HQ. unfold wp, the_file, mbind, M_bind, gets. by rewrite Hf. Qed.

Lemma wp_upd_owner fd fl own f (Q : outcome unit → kstate → Prop) w :
  k_files w !! fd = Some fl → private_data fl = Some own →
  Q (Ok tt) (w <| k_files ::= insert fd (fl <| private_data := Some (f own) |>) |>) →
  wp (upd_owner fd f) Q w.
Proof.
  intros Hf Ho HQ. apply wp_bind, (wp_the_file fd fl); [done|].
  apply wp_bind, (wp_from_opt _ _ own); [done|]. exact HQ.
Qed.
End primitive_specs.

(** ** The vendor-neutral peer-memory interface (struct peer_memory_ops)

    [get_pages] and [dma_map_pages] return the C return value together with
    what they stored through their output pointer, if anything. *)
Class PeerMemory : Type := {
  peer_init : K Z;
  peer_exit : K unit;
  peer_get_pages : Z → Z → Z → Z → K (Z * option nat);
  peer_put_pages : Z → Z → Z → nat → K Z;
  peer_dma_map_pages : pdevid → nat → Z → K (Z * option nat);
  peer_dma_unmap_pages : pdevid → cell → nat → K Z;
  peer_free_dma_mapping : nat → K Z;
  peer_free_page_table : nat → K Z;
  peer_memory_pt_entries : nat → K Z;
  peer_memory_dm_addresses : nat → K (list Z);
}.

(** The part of the state that the module's own bookkeeping consists of:
    everything but the tick, the trace, the GPU driver's objects and the
    symbol references. *)
Definition core (w : kstate) : kstate :=
  w <| k_tick := 0%nat |> <| k_trace := [] |>
    <| k_peer := mk_peer ∅ ∅ ∅ 0 |> <| k_symrefs := ∅ |>.

Definition same_core (w w' : kstate) : Prop := core w = core w'.

#[export] Instance same_core_equiv : Equivalence same_core.
Proof. unfold same_core. split; repeat intro; congruence. Qed.

(** [same_core] goals between updates of one abstract state. *)
Ltac core_eq := unfold same_core, core; cbn; reflexivity.

(** Every field of the bookkeeping can be read off either of two states with
    the same core, and bookkeeping updates commute with [core]. *)
Lemma same_core_field {A} (f : kstate → A) w w' :
  (∀ w, f (core w) = f w) → same_core w w' → f w = f w'.
Proof. intros Hf H. rewrite <- (Hf w), <- (Hf w'). by rewrite H. Qed.

Lemma same_core_update (f : kstate → kstate) w w' :
  (∀ w, core (f w) = f (core w)) → same_core w w' → same_core (f w) (f w').
Proof. intros Hf H. unfold same_core in *. rewrite !Hf. by rewrite H. Qed.

(** The trace of [w'] extends that of [w] by events that satisfy [P]. *)
Definition extends (P : event → Prop) (w w' : kstate) : Prop :=
  ∃ tr, k_trace w' = k_trace w ++ tr ∧ Forall P tr.

#[export] Instance extends_preorder P : PreOrder (extends P).
Proof.
  split.
  - intros w. exists []. by rewrite app_nil_r.
  - intros w1 w2 w3 (t1 & H1 & F1) (t2 & H2 & F2). exists (t1 ++ t2).
    rewrite H2, H1, app_assoc. split; [done|]. by apply Forall_app.
Qed.

Lemma extends_mono (P Q : event → Prop) w w' :
  (∀ e, P e → Q e) → extends P w w' → extends Q w w'.
Proof. intros HPQ (tr & H & F). exists tr. split; [done|]. by eapply Forall_impl. Qed.

Lemma extends_same P w w' : k_trace w' = k_trace w → extends P w w'.
Proof. intros H. exists []. by rewrite app_nil_r. Qed.

(** Events a GPU backend may emit. *)
Definition peer_event (e : event) : Prop :=
  match e with
  | EvPeerGet _ | EvPeerPut _ | EvPeerMap _ _ | EvPeerUnmap _ _ | EvPeerFreePt _
  | EvVendor _ _ => True
  | _ => False
  end.

(** Updates that change nothing. *)
Lemma host_list_id f w : f (host_list w) = host_list w → w <| host_list ::= f |> = w.
Proof. destruct w. unfold set; intros H; cbn in *; unfold set_host_list, set_device_list, set_device_queue_list; cbn. by rewrite H. Qed.
Lemma device_list_id f w : f (device_list w) = device_list w → w <| device_list ::= f |> = w.
Proof. destruct w. unfold set; intros H; cbn in *; unfold set_host_list, set_device_list, set_device_queue_list; cbn. by rewrite H. Qed.
Lemma device_queue_list_id f w :
  f (device_queue_list w) = device_queue_list w → w <| device_queue_list ::= f |> = w.
Proof. destruct w. unfold set; intros H; cbn in *; unfold set_host_list, set_device_list, set_device_queue_list; cbn. by rewrite H. Qed.

(** Updates agree when the functions agree on the field. *)
Lemma host_list_ext f g w :
  f (host_list w) = g (host_list w) → w <| host_list ::= f |> = w <| host_list ::= g |>.
Proof. unfold set, set_host_list. by intros ->. Qed.
Lemma device_list_ext f g w :
  f (device_list w) = g (device_list w) → w <| device_list ::= f |> = w <| device_list ::= g |>.
Proof. unfold set, set_device_list. by intros ->. Qed.
Lemma device_queue_list_ext f g w :
  f (device_queue_list w) = g (device_queue_list w) →
  w <| device_queue_list ::= f |> = w <| device_queue_list ::= g |>.
Proof. unfold set, set_device_queue_list. by intros ->. Qed.

Lemma k_files_ext f g w :
  f (k_files w) = g (k_files w) → w <| k_files ::= f |> = w <| k_files ::= g |>.
Proof. unfold set, set_k_files. by intros ->. Qed.

(** Writing back what is there, and freeing what was just written. *)
Lemma heap_insert_id m md w : k_heap w !! m = Some md → w <| k_heap ::= insert m md |> = w.
Proof. intros H. destruct w. unfold set, set_k_heap. simpl in *. by rewrite insert_id. Qed.

Lemma heap_delete_id m w : k_heap w !! m = None → w <| k_heap ::= delete m |> = w.
Proof. intros H. destruct w. unfold set, set_k_heap. simpl in *. by rewrite delete_id. Qed.

Lemma heap_delete_insert m md w :
  w <| k_heap ::= insert m md |> <| k_heap ::= delete m |> = w <| k_heap ::= delete m |>.
Proof. destruct w. unfold set, set_k_heap. simpl. by rewrite delete_insert_eq. Qed.

Lemma heap_insert_insert m md md' w :
  w <| k_heap ::= insert m md |> <| k_heap ::= insert m md' |> = w <| k_heap ::= insert m md' |>.
Proof. destruct w. unfold set, set_k_heap. simpl. by rewrite insert_insert_eq. Qed.

(** Appending to the trace, as one operation with its algebra. *)
Definition emit (tr : list event) (w : kstate) : kstate := w <| k_trace ::= (.++ tr) |>.

Lemma emit_nil w : emit [] w = w.
Proof. destruct w. unfold emit, set, set_k_trace. cbn. by rewrite app_nil_r. Qed.

Lemma emit_emit t1 t2 w : emit t2 (emit t1 w) = emit (t1 ++ t2) w.
Proof. destruct w. unfold emit, set, set_k_trace. cbn. by rewrite app_assoc. Qed.

Lemma emit_heap tr f w : emit tr (w <| k_heap ::= f |>) = (emit tr w) <| k_heap ::= f |>.
Proof. reflexivity. Qed.

Lemma emit_trace tr w : k_trace (emit tr w) = k_trace w ++ tr.
Proof. reflexivity. Qed.

Lemma emit_core tr w : same_core w (emit tr w).
Proof. reflexivity. Qed.

Lemma emit_extends (Q : event → Prop) tr w : Forall Q tr → extends Q w (emit tr w).
Proof. intros H. by exists tr. Qed.

(** ** What a GPU backend promises to the mapping code

    Its operations return, touch none of the module's own bookkeeping and emit
    only GPU events.  A page table obtained for [n] pages ([peer_pt]) yields,
    once mapped, at least [n] bus addresses ([peer_dm]) and reports at most
    [n] entries; the mapping was made for the device it was asked for. *)
Definition peer_returns {A} (m : K A) (Q : A → Prop) : Prop :=
  ∀ w, ∃ a w', m w = (Ok a, w') ∧ same_core w w' ∧ extends peer_event w w' ∧ Q a.

(** [dm] was mapped for device [d] at some point of the trace. *)
Definition mapped_for (d : pdevid) (dm : nat) (tr : list event) : Prop := EvPeerMap d dm ∈ tr.

Class PeerMemoryOk (P : PeerMemory) : Type := {
  peer_pt : nat → Z → Prop;
  peer_dm : nat → Z → Prop;
  peer_get_pages_ok tok va v len :
    peer_returns (peer_get_pages tok va v len)
      (λ r, r.1 = 0 → ∃ pt, r.2 = Some pt ∧ peer_pt pt (len / GPU_PAGE_SIZE));
  peer_put_pages_ok tok va v pt : peer_returns (peer_put_pages tok va v pt) (λ _, True);
  peer_dma_map_ok d pt n :
    peer_pt pt n →
    ∀ w, ∃ r w', peer_dma_map_pages d pt GPU_PAGE_SIZE w = (Ok r, w') ∧ same_core w w' ∧ extends peer_event w w'
      ∧ (r.1 = 0 → ∃ dm, r.2 = Some dm ∧ peer_dm dm n ∧ mapped_for d dm (k_trace w'));
  peer_dma_unmap_ok d pt dm : peer_returns (peer_dma_unmap_pages d pt dm) (λ _, True);
  peer_exit_ok : peer_returns peer_exit (λ _, True);
  peer_free_pt_ok pt : peer_returns (peer_free_page_table pt) (λ _, True);
  peer_entries_ok pt n :
    peer_pt pt n → peer_returns (peer_memory_pt_entries pt) (λ k, 0 ≤ k ≤ n);
  peer_addresses_ok dm n :
    peer_dm dm n → peer_returns (peer_memory_dm_addresses dm) (λ l, n ≤ Z.of_nat (length l));
}.
