(* ===== verification/PeerMemory.v ===== *)
(** * PeerMemory: the GPU backends behind peer_memory_ops
    (snvme/peer_memory/nvidia.c, metax.c)

    Both backends resolve the GPU driver's symbols at load time and forward to
    them.  What the drivers themselves do is a parameter: the classes
    [NvidiaP2P] and [MetaxP2P], with the documented behaviour of the NVIDIA
    calls in [NvidiaP2POk]. *)
From S2P Require Import Prelude.
From S2P Require Import Uapi.
From S2P Require Import Kernel.

(** ** Runtime symbols

    A backend's static function pointer is non-null exactly when its symbol is
    in [ps_syms]. *)
Section symbols.
Context `{E : Env}.

Definition has_symbol (name : string) : K bool :=
  gets (λ w, bool_decide (name ∈ ps_syms (k_peer w))).

Definition upd_peer (f : peer_state → peer_state) : K unit := modify (λ w, w <| k_peer ::= f |>).

(** [if (p) { __symbol_put("name"); p = NULL; }] *)
Definition put_one (name : string) : K unit :=
  h ← has_symbol name;
  when h (symbol_put name;; upd_peer (λ p, p <| ps_syms ::= (.∖ {[name]}) |>)).

(** [p = __symbol_get("name")], reporting whether p is non-null *)
Definition get_one (name : string) : K bool :=
  ok ← symbol_get name;
  when ok (upd_peer (λ p, p <| ps_syms ::= ({[name]} ∪.) |>));;
  mret ok.
End symbols.

(** ** NVIDIA *)

Definition nvidia_symbols : list string :=
  ["nvidia_p2p_dma_unmap_pages"; "nvidia_p2p_get_pages"; "nvidia_p2p_put_pages";
   "nvidia_p2p_dma_map_pages"; "nvidia_p2p_free_dma_mapping"; "nvidia_p2p_free_page_table"]%string.

(** The NVIDIA driver: return values, the objects it stores through its output
    pointers, and the fields of those objects the backend reads. *)
Class NvidiaP2P : Type := {
  nvidia_p2p_get_pages : nat → Z → Z → Z → Z → Z * option nat;
  nvidia_p2p_put_pages : nat → Z → Z → Z → nat → Z;
  nvidia_p2p_dma_map_pages : nat → pdevid → nat → Z * option nat;
  nvidia_p2p_dma_unmap_pages : nat → pdevid → cell → nat → Z;
  nvidia_p2p_free_dma_mapping : nat → nat → Z;
  nvidia_p2p_free_page_table : nat → nat → Z;
  nvidia_entries : nat → Z;
  nvidia_dma_addresses : nat → list Z;
}.

(** nv-p2p.h: a successful pin covers the whole range with 64 KiB pages, and a
    DMA mapping holds one address per page of its table. *)
Class NvidiaP2POk (N : NvidiaP2P) : Prop := {
  nvidia_get_pages_ok : ∀ t tok va v len, (nvidia_p2p_get_pages t tok va v len).1 = 0 →
    ∃ pt, (nvidia_p2p_get_pages t tok va v len).2 = Some pt ∧ nvidia_entries pt = len / GPU_PAGE_SIZE
      ∧ 0 ≤ nvidia_entries pt;
  nvidia_dma_map_ok : ∀ t d pt, (nvidia_p2p_dma_map_pages t d pt).1 = 0 →
    ∃ dm, (nvidia_p2p_dma_map_pages t d pt).2 = Some dm
      ∧ Z.of_nat (length (nvidia_dma_addresses dm)) = nvidia_entries pt;
}.

Section nvidia.
Context `{E : Env} `{N : NvidiaP2P}.

Definition nvidia_peer_put_symbols : K unit := for_each put_one nvidia_symbols.

(** The chain of [if (p == NULL) { p = __symbol_get(..); if (!p) goto error; }] *)
Fixpoint nvidia_resolve (syms : list string) : K bool :=
  match syms with
  | [] => mret true
  | s :: syms =>
      h ← has_symbol s;
      if (h : bool) then nvidia_resolve syms else
      ok ← get_one s;
      if (ok : bool) then nvidia_resolve syms else mret false
  end.

Definition nvidia_peer_init : K Z :=
  ok ← nvidia_resolve nvidia_symbols;
  if (ok : bool) then mret 0 else nvidia_peer_put_symbols;; mret (-1).

Definition nvidia_peer_exit : K unit := nvidia_peer_put_symbols.

(** [if (!p) return -ENOMEM;] *)
Definition nvidia_call {A} (sym : string) (dflt : A) (m : K A) : K A :=
  h ← has_symbol sym; if (h : bool) then m else mret dflt.

Definition nvidia_peer_get_pages (tok va vaddr len : Z) : K (Z * option nat) :=
  nvidia_call "nvidia_p2p_get_pages" (- ENOMEM, None)
    (t ← tick;
     let '(ret, npt) := nvidia_p2p_get_pages t tok va vaddr len in
     if bool_decide (ret = 0) then
       match npt with Some pt => log (EvPeerGet pt) | None => mret tt end;; mret (ret, npt)
     else mret (ret, None)).

Definition nvidia_peer_put_pages (tok va vaddr : Z) (pt : nat) : K Z :=
  nvidia_call "nvidia_p2p_put_pages" (- ENOMEM)
    (t ← tick; log (EvPeerPut pt);; mret (nvidia_p2p_put_pages t tok va vaddr pt)).

(** expect_page_size is unused *)
Definition nvidia_peer_dma_map_pages (peer : pdevid) (pt : nat) (expect_page_size : Z) : K (Z * option nat) :=
  nvidia_call "nvidia_p2p_dma_map_pages" (- ENOMEM, None)
    (t ← tick;
     let '(ret, ndm) := nvidia_p2p_dma_map_pages t peer pt in
     if bool_decide (ret = 0) then
       match ndm with Some dm => log (EvPeerMap peer dm) | None => mret tt end;; mret (ret, ndm)
     else mret (ret, None)).

Definition nvidia_peer_dma_unmap_pages (peer : pdevid) (pt : cell) (dm : nat) : K Z :=
  nvidia_call "nvidia_p2p_dma_unmap_pages" (- ENOMEM)
    (t ← tick; log (EvPeerUnmap peer dm);; mret (nvidia_p2p_dma_unmap_pages t peer pt dm)).

Definition nvidia_peer_free_dma_mapping (dm : nat) : K Z :=
  nvidia_call "nvidia_p2p_free_dma_mapping" (- ENOMEM)
    (t ← tick; mret (nvidia_p2p_free_dma_mapping t dm)).

Definition nvidia_peer_free_page_table (pt : nat) : K Z :=
  nvidia_call "nvidia_p2p_free_page_table" (- ENOMEM)
    (t ← tick; log (EvPeerFreePt pt);; mret (nvidia_p2p_free_page_table t pt)).

Definition nvidia_pt_entries (pt : nat) : K Z := mret (nvidia_entries pt).
Definition nvidia_dm_addresses (dm : nat) : K (list Z) := mret (nvidia_dma_addresses dm).

(** const struct peer_memory_ops peer_memory_ops *)
#[export] Instance nvidia_memory_ops : PeerMemory := {|
  peer_init := nvidia_peer_init;
  peer_exit := nvidia_peer_exit;
  peer_get_pages := nvidia_peer_get_pages;
  peer_put_pages := nvidia_peer_put_pages;
  peer_dma_map_pages := nvidia_peer_dma_map_pages;
  peer_dma_unmap_pages := nvidia_peer_dma_unmap_pages;
  peer_free_dma_mapping := nvidia_peer_free_dma_mapping;
  peer_free_page_table := nvidia_peer_free_page_table;
  peer_memory_pt_entries := nvidia_pt_entries;
  peer_memory_dm_addresses := nvidia_dm_addresses;
|}.
End nvidia.

(** ** Metax *)

Definition metax_symbols : list string :=
  ["metax_p2p_acquire_mem"; "metax_p2p_get_mem"; "metax_p2p_put_mem";
   "metax_p2p_release_mem"; "metax_p2p_get_page_size"]%string.

(** The Metax driver: a handle for a range, then a scatter list of bus address
    and length. *)
Class MetaxP2P : Type := {
  metax_p2p_acquire_mem : nat → Z → Z → Z * Z;
  metax_p2p_get_mem : nat → Z → Z * option (list (Z * Z));
}.

Section metax.
Context `{E : Env} `{X : MetaxP2P}.

Definition metax_peer_put_symbols : K unit := for_each put_one metax_symbols.

(** [if (!p) p = __symbol_get(..);] for every symbol *)
Definition metax_resolve : K unit :=
  for_each (λ s, h ← has_symbol s; when (negb h) (get_one s;; mret tt)) metax_symbols.

Definition metax_peer_init : K Z :=
  metax_resolve;;
  syms ← gets (λ w, ps_syms (k_peer w));
  if forallb (λ s, bool_decide (s ∈ syms)) metax_symbols then mret 0
  else metax_peer_put_symbols;; mret (-1).

Definition metax_peer_exit : K unit := metax_peer_put_symbols.

(** metax_put_mem_p and metax_release_mem_p, non-null *)
Definition metax_put_mem (h : Z) : K unit := log (EvVendor "put" h).
Definition metax_release_mem (h : Z) : K unit := log (EvVendor "release" h).

Definition call_ptr (sym : string) (m : K unit) : K unit :=
  h ← has_symbol sym; if (h : bool) then m else crash NullDeref.

Definition metax_peer_get_pages (tok va vaddr len : Z) : K (Z * option nat) :=
  a ← has_symbol "metax_p2p_acquire_mem";
  g ← has_symbol "metax_p2p_get_mem";
  if negb a || negb g then mret (- ENOSYS, None) else
  t ← tick;
  let '(ret, handle) := metax_p2p_acquire_mem t vaddr len in
  if bool_decide (ret ≠ 0) then mret (ret, None) else
  log (EvVendor "acquire" handle);;
  t ← tick;
  let '(ret, sgt) := metax_p2p_get_mem t handle in
  if bool_decide (ret ≠ 0) then
    call_ptr "metax_p2p_release_mem" (metax_release_mem handle);; mret (ret, None)
  else
  log (EvVendor "get" handle);;
  ok ← kalloc;
  if negb ok then
    call_ptr "metax_p2p_put_mem" (metax_put_mem handle);;
    call_ptr "metax_p2p_release_mem" (metax_release_mem handle);;
    mret (- ENOMEM, None)
  else
  n ← gets (λ w, ps_next (k_peer w));
  upd_peer (λ p, p <| ps_next := S n |> <| ps_pts ::= insert n (mk_pt handle sgt 0 len) |>);;
  mret (0, Some n).

(** Dereference of a page table or of a mapping. *)
Definition the_pt (pt : nat) : K peer_page_table :=
  m ← gets (λ w, ps_pts (k_peer w)); from_opt UseAfterFree (m !! pt).
Definition the_dm (dm : nat) : K peer_dma_mapping :=
  m ← gets (λ w, ps_dms (k_peer w)); from_opt UseAfterFree (m !! dm).

Definition metax_peer_put_pages (tok va vaddr : Z) (pt : nat) : K Z :=
  p ← the_pt pt;
  h ← has_symbol "metax_p2p_put_mem";
  when h (metax_put_mem (pt_handle p));;
  r ← has_symbol "metax_p2p_release_mem";
  when r (metax_release_mem (pt_handle p));;
  upd_peer (λ s, s <| ps_pts ::= delete pt |>);;
  mret 0.

(** The two nested loops: [len / page] addresses per segment, capped by the
    size of the array. *)
Definition segment_pages (page : Z) (sg : Z * Z) : list Z :=
  (λ j, u64 (sg.1 + u32 (j * page))) <$> seqZ 0 (sg.2 / page).

Fixpoint fill_segment (cap : nat) (addrs out : list Z) : list Z :=
  match addrs with
  | [] => out
  | a :: addrs => fill_segment cap addrs (if bool_decide (length out < cap)%nat then out ++ [a] else out)
  end.

Definition fill_addresses (page : Z) (cap : nat) (sgs : list (Z * Z)) : list Z :=
  foldl (λ out sg, fill_segment cap (segment_pages page sg) out) [] sgs.

Definition metax_peer_dma_map_pages (peer : pdevid) (pt : nat) (expect_page_size : Z) : K (Z * option nat) :=
  p ← the_pt pt;
  match pt_sgt p with
  | None | Some [] => mret (- EINVAL, None)
  | Some sgs =>
      ok ← kalloc;
      if negb ok then mret (- ENOMEM, None) else
      let expect_page_num := u32 (pt_length p / expect_page_size) in
      ok ← kalloc;
      if negb ok then mret (- ENOMEM, None) else
      t ← tick;
      let junk := env_junk t (Z.to_nat expect_page_num) in
      let filled := fill_addresses expect_page_size (Z.to_nat expect_page_num) sgs in
      n ← gets (λ w, ps_next (k_peer w));
      upd_peer (λ s, s <| ps_next := S n |>
        <| ps_dms ::= insert n (mk_dm (Some (filled ++ drop (length filled) junk))) |>
        <| ps_pts ::= insert pt (p <| pt_entries := Z.of_nat (length filled) |>) |>);;
      mret (0, Some n)
  end.

(** kfree of the array and of the wrapper. *)
Definition metax_free_dm (dm : nat) : K Z :=
  the_dm dm;; upd_peer (λ s, s <| ps_dms ::= delete dm |>);; mret 0.
Definition metax_peer_dma_unmap_pages (peer : pdevid) (pt : cell) (dm : nat) : K Z := metax_free_dm dm.
Definition metax_peer_free_dma_mapping (dm : nat) : K Z := metax_free_dm dm.

Definition metax_peer_free_page_table (pt : nat) : K Z :=
  the_pt pt;; upd_peer (λ s, s <| ps_pts ::= delete pt |>);; mret 0.

Definition metax_pt_entries (pt : nat) : K Z :=
  p ← the_pt pt;
  mret (match pt_sgt p with None => 0 | Some _ => pt_entries p end).

Definition metax_dm_addresses (dm : nat) : K (list Z) :=
  d ← the_dm dm;
  mret (default [0] (dma_addresses d)).

Definition metax_memory_ops : PeerMemory := {|
  peer_init := metax_peer_init;
  peer_exit := metax_peer_exit;
  peer_get_pages := metax_peer_get_pages;
  peer_put_pages := metax_peer_put_pages;
  peer_dma_map_pages := metax_peer_dma_map_pages;
  peer_dma_unmap_pages := metax_peer_dma_unmap_pages;
  peer_free_dma_mapping := metax_peer_free_dma_mapping;
  peer_free_page_table := metax_peer_free_page_table;
  peer_memory_pt_entries := metax_pt_entries;
  peer_memory_dm_addresses := metax_dm_addresses;
|}.
End metax.

(** ** Symbol references

    The module's reference count on a symbol, less one if a pointer to it is
    kept: the balance no operation may change. *)
Definition sym_ref (w : kstate) (s : string) : Z := default 0 (k_symrefs w !! s).
Definition sym_held (w : kstate) (s : string) : Z := if bool_decide (s ∈ ps_syms (k_peer w)) then 1 else 0.

Definition sym_balanced (w w' : kstate) : Prop :=
  ∀ s, sym_ref w' s - sym_held w' s = sym_ref w s - sym_held w s.

#[export] Instance sym_balanced_preorder : PreOrder sym_balanced.
Proof. split; [by intros w s|]. intros w1 w2 w3 H1 H2 s. by rewrite H2, H1. Qed.

Section symbol_specs.
Context `{E : Env}.
Implicit Types (w : kstate).

Lemma put_one_ok s w :
  wp (put_one s) (λ r w', r = Ok tt ∧ sym_balanced w w'
    ∧ ps_syms (k_peer w') = ps_syms (k_peer w) ∖ {[s]}) w.
Proof.
  unfold put_one. apply wp_bind, wp_gets, wp_when; intros Hb.
  - apply bool_decide_eq_true in Hb. apply wp_bind, wp_modify, wp_modify. split; [done|]. split; [|done].
    intros x. unfold sym_ref, sym_held. cbn. destruct (decide (x = s)) as [->|Hne].
    + rewrite lookup_insert_eq, (bool_decide_eq_false_2 (s ∈ _ ∖ _)) by set_solver.
      rewrite bool_decide_eq_true_2 by done. cbn. lia.
    + rewrite lookup_insert_ne by done. rewrite (bool_decide_ext (x ∈ _ ∖ _) (x ∈ ps_syms (k_peer w))); [done|set_solver].
  - apply bool_decide_eq_false in Hb. split; [done|]. split; [done|set_solver].
Qed.

Lemma get_one_ok s w :
  s ∉ ps_syms (k_peer w) →
  wp (get_one s) (λ r w', sym_balanced w w' ∧
    ((r = Ok true ∧ ps_syms (k_peer w') = {[s]} ∪ ps_syms (k_peer w))
     ∨ (r = Ok false ∧ ps_syms (k_peer w') = ps_syms (k_peer w)))) w.
Proof.
  intros Hs. unfold get_one, symbol_get. apply wp_bind, wp_bind, wp_tick. destruct (env_symbol _ s).
  - apply wp_bind, wp_modify, wp_ret. cbn [when]. apply wp_bind, wp_modify, wp_ret. split; [|by left].
    intros x. unfold sym_ref, sym_held. cbn. destruct (decide (x = s)) as [->|Hne].
    + rewrite lookup_insert_eq, (bool_decide_eq_true_2 (s ∈ _ ∪ _)) by set_solver.
      rewrite bool_decide_eq_false_2 by done. cbn. lia.
    + rewrite lookup_insert_ne by done. rewrite (bool_decide_ext (x ∈ _ ∪ _) (x ∈ ps_syms (k_peer w))); [done|set_solver].
  - apply wp_ret. cbn [when]. apply wp_bind, wp_ret, wp_ret. split; [done|by right].
Qed.

Lemma put_symbols_ok syms w :
  wp (for_each put_one syms) (λ r w', r = Ok tt ∧ sym_balanced w w'
    ∧ ps_syms (k_peer w') = ps_syms (k_peer w) ∖ list_to_set syms) w.
Proof.
  revert w. induction syms as [|s syms IH]; intros w; cbn [for_each].
  { apply wp_ret. split; [done|]. split; [done|set_solver]. }
  apply wp_bind. eapply wp_mono; [apply put_one_ok|]. intros r w1 (-> & B1 & E1).
  eapply wp_mono; [apply IH|]. intros r w2 (-> & B2 & E2). split; [done|]. split; [by etrans|].
  rewrite E2, E1. set_solver.
Qed.

Lemma nvidia_resolve_ok syms w :
  wp (nvidia_resolve syms) (λ r w', sym_balanced w w' ∧ ps_syms (k_peer w) ⊆ ps_syms (k_peer w')
    ∧ ps_syms (k_peer w') ⊆ ps_syms (k_peer w) ∪ list_to_set syms
    ∧ ((r = Ok true ∧ list_to_set syms ⊆ ps_syms (k_peer w')) ∨ r = Ok false)) w.
Proof.
  revert w. induction syms as [|s syms IH]; intros w; cbn [nvidia_resolve].
  { apply wp_ret. split; [done|]. split; [done|]. split; [set_solver|]. left. split; [done|set_solver]. }
  apply wp_bind, wp_gets. case_bool_decide as Hs.
  { eapply wp_mono; [apply IH|]. intros r w1 (B & S1 & S2 & [[-> Hall]|Hr]); (split; [done|]; split; [done|];
      split; [set_solver|]); [left|by right]. split; [done|set_solver]. }
  apply wp_bind. eapply wp_mono; [by apply get_one_ok|].
  intros r w1 (B1 & [[-> E1]|[-> E1]]).
  - eapply wp_mono; [apply IH|]. intros r w2 (B2 & S1 & S2 & Hr). split; [by etrans|].
    split; [set_solver|]. split; [set_solver|]. destruct Hr as [[-> Hall]|Hr]; [left|by right].
    split; [done|set_solver].
  - apply wp_ret. split; [done|]. rewrite E1. split; [done|]. split; [set_solver|by right].
Qed.

(** Outcome of a backend's init: all its symbols, or none and an error. *)
Definition init_post (syms : list string) (w : kstate) (r : outcome Z) (w' : kstate) : Prop :=
  sym_balanced w w' ∧
  ((r = Ok 0 ∧ list_to_set syms ⊆ ps_syms (k_peer w'))
   ∨ (r = Ok (-1) ∧ ∀ s, s ∈ syms → s ∉ ps_syms (k_peer w'))).

Lemma put_all_ok syms w w0 :
  sym_balanced w0 w →
  wp (for_each put_one syms;; mret (-1)) (init_post syms w0) w.
Proof.
  intros B. apply wp_bind. eapply wp_mono; [apply put_symbols_ok|]. intros r w1 (-> & B1 & E1).
  apply wp_ret. split; [by etrans|]. right. split; [done|]. intros s Hs. rewrite E1. set_solver.
Qed.

Lemma nvidia_init_ok w : wp nvidia_peer_init (init_post nvidia_symbols w) w.
Proof.
  unfold nvidia_peer_init. apply wp_bind. eapply wp_mono; [apply nvidia_resolve_ok|].
  intros r w1 (B & _ & _ & [[-> Hall]| ->]); [|by apply put_all_ok].
  apply wp_ret. split; [done|]. by left.
Qed.

Lemma metax_resolve_ok syms w :
  wp (for_each (λ s, h ← has_symbol s; when (negb h) (get_one s;; mret tt)) syms)
    (λ r w', r = Ok tt ∧ sym_balanced w w') w.
Proof.
  revert w. induction syms as [|s syms IH]; intros w; cbn [for_each]; [by apply wp_ret|].
  apply wp_bind, wp_bind, wp_gets, wp_when; intros Hb.
  - apply negb_true_iff, bool_decide_eq_false in Hb. apply wp_bind.
    eapply wp_mono; [by apply get_one_ok|]. intros r w1 (B1 & [[-> _]|[-> _]]); apply wp_ret;
      (eapply wp_mono; [apply IH|]; intros r w2 (-> & B2); split; [done|by etrans]).
  - apply IH.
Qed.

Lemma metax_init_ok w : wp metax_peer_init (init_post metax_symbols w) w.
Proof.
  unfold metax_peer_init, metax_resolve. apply wp_bind. eapply wp_mono; [apply metax_resolve_ok|].
  intros r w1 (-> & B). apply wp_bind, wp_gets.
  destruct (forallb _ _) eqn:Hall; [|by apply put_all_ok]. apply wp_ret. split; [done|]. left.
  split; [done|]. rewrite forallb_forall in Hall. intros s Hs%elem_of_list_to_set.
  by apply list_elem_of_In, Hall, bool_decide_eq_true in Hs.
Qed.
End symbol_specs.

(** ** The NVIDIA backend keeps the interface's promises *)
Section nvidia_ok.
Context `{E : Env} `{N : NvidiaP2P} `{NOk : !NvidiaP2POk N}.

Lemma nvidia_call_returns {A} sym (dflt : A) (m : K A) (Q : A → Prop) :
  Q dflt → peer_returns m Q → peer_returns (nvidia_call sym dflt m) Q.
Proof.
  intros Hd Hm w. unfold nvidia_call, has_symbol, gets, mbind, M_bind. cbn.
  case_bool_decide; [apply Hm|]. exists dflt, w. split; [done|]. split; [done|]. split; [|done].
  by apply extends_same.
Qed.

(** Dropping symbols touches nothing but the symbol references. *)
Lemma put_symbols_returns syms : peer_returns (for_each put_one syms) (λ _, True).
Proof.
  intros w. exists tt. enough (H : wp (for_each put_one syms) (λ r w', r = Ok tt ∧ same_core w w'
    ∧ k_trace w' = k_trace w) w).
  { destruct H as (Hr & Hs & Ht). exists (for_each put_one syms w).2.
    split; [by rewrite <- Hr; destruct (for_each put_one syms w)|]. split; [done|]. split; [by apply extends_same|done]. }
  revert w. induction syms as [|s syms IH]; intros w; cbn [for_each]; [by apply wp_ret|].
  apply wp_bind, wp_bind, wp_gets, wp_when; intros _; [apply wp_bind, wp_modify, wp_modify|];
    (eapply wp_mono; [apply IH|]; intros r w' (-> & Hs & Ht); split; [done|]; split; [exact Hs|exact Ht]).
Qed.

(** One tick and at most one event. *)
Lemma tick_returns {A} (f : nat → K A) (Q : A → Prop) :
  (∀ t w, ∃ a tr, f t w = (Ok a, emit tr w) ∧ Forall peer_event tr ∧ Q a) →
  peer_returns (t ← tick; f t) Q.
Proof.
  intros Hf w. destruct (Hf (k_tick w) (w <| k_tick := S (k_tick w) |>)) as (a & tr & Ha & Htr & HQ).
  exists a, (emit tr (w <| k_tick := S (k_tick w) |>)). split; [exact Ha|]. split; [done|].
  split; [|done]. by exists tr.
Qed.

(** A mapping call that succeeds records the device it was made for. *)
Lemma nvidia_map_returns d pt w :
  ∃ r w', nvidia_peer_dma_map_pages d pt GPU_PAGE_SIZE w = (Ok r, w') ∧ same_core w w' ∧ extends peer_event w w'
    ∧ (r.1 = 0 → ∃ dm, r.2 = Some dm ∧ Z.of_nat (length (nvidia_dma_addresses dm)) = nvidia_entries pt
                    ∧ mapped_for d dm (k_trace w')).
Proof.
  unfold nvidia_peer_dma_map_pages, nvidia_call, has_symbol, gets, mbind, M_bind. cbn.
  case_bool_decide; [|eexists _, w; split; [done|]; split; [done|]; split; [by apply extends_same|done]].
  pose proof (nvidia_dma_map_ok (k_tick w) d pt) as Hok.
  unfold tick, gets, modify, mbind, M_bind. cbn. destruct (nvidia_p2p_dma_map_pages (k_tick w) d pt) as [ret ndm].
  cbn in Hok. case_bool_decide as Hr.
  - destruct (Hok Hr) as (dm & -> & Hn). eexists _, (emit [EvPeerMap d dm] (w <| k_tick := S (k_tick w) |>)).
    split; [reflexivity|]. split; [done|]. split; [by exists [EvPeerMap d dm]; split; [|repeat constructor]|].
    intros _. exists dm. split; [done|]. split; [done|]. unfold mapped_for. rewrite emit_trace. set_solver.
  - eexists _, (w <| k_tick := S (k_tick w) |>). split; [reflexivity|]. split; [done|]. split; [by apply extends_same|done].
Qed.

Ltac one_event e := intros t w; eexists _, e; split; [reflexivity|]; split; [by repeat constructor|done].

#[export] Instance nvidia_memory_ok : PeerMemoryOk nvidia_memory_ops.
Proof.
  refine {| peer_pt := λ pt n, nvidia_entries pt = n ∧ 0 ≤ n;
            peer_dm := λ dm n, Z.of_nat (length (nvidia_dma_addresses dm)) = n |}.
  - intros tok va v len. apply nvidia_call_returns; [done|]. apply tick_returns. intros t w.
    pose proof (nvidia_get_pages_ok t tok va v len) as Hok.
    destruct (nvidia_p2p_get_pages t tok va v len) as [ret npt]. cbn in Hok. case_bool_decide as Hr.
    + destruct (Hok Hr) as (pt & -> & Hn & Hpos). eexists _, [EvPeerGet pt]. split; [reflexivity|].
      split; [by repeat constructor|]. intros _. exists pt. split; [done|]. split; [done|]. by rewrite <- Hn.
    + eexists _, []. rewrite emit_nil. split; [reflexivity|]. split; [done|]. done.
  - intros tok va v pt. apply nvidia_call_returns; [done|]. apply tick_returns. one_event [EvPeerPut pt].
  - intros d pt n [<- Hpos]. apply nvidia_map_returns.
  - intros d pt dm. apply nvidia_call_returns; [done|]. apply tick_returns. one_event [EvPeerUnmap d dm].
  - apply put_symbols_returns.
  - intros pt. apply nvidia_call_returns; [done|]. apply tick_returns. one_event [EvPeerFreePt pt].
  - intros pt n [<- Hpos] w. eexists _, w. split; [reflexivity|]. split; [done|].
    split; [by apply extends_same|lia].
  - intros dm n <- w. eexists _, w. split; [reflexivity|]. split; [done|].
    split; [by apply extends_same|lia].
Qed.
End nvidia_ok.

(** ** The Metax backend *)

Lemma fill_segment_take cap addrs out :
  (length out ≤ cap)%nat → fill_segment cap addrs out = take cap (out ++ addrs).
Proof.
  revert out. induction addrs as [|a addrs IH]; intros out Hl; cbn [fill_segment].
  { rewrite app_nil_r. by rewrite take_ge. }
  case_bool_decide as Hc.
  - rewrite IH by (rewrite length_app; cbn; lia). by rewrite <- app_assoc.
  - rewrite IH by done. rewrite !take_app_le by lia. done.
Qed.

Lemma take_app_take {A} n (l k : list A) : take n (take n l ++ k) = take n (l ++ k).
Proof.
  destruct (decide (n ≤ length l)%nat) as [Hle|Hgt].
  - rewrite (take_app_le l) by done. rewrite take_app_le by (rewrite length_take; lia).
    rewrite take_take. f_equal. lia.
  - by rewrite (take_ge l) by lia.
Qed.

(** The nested loops compute the first [cap] pages of the concatenated
    segments. *)
Lemma fill_addresses_take page cap sgs :
  fill_addresses page cap sgs = take cap (sgs ≫= segment_pages page).
Proof.
  unfold fill_addresses. enough (Hgen : ∀ out, (length out ≤ cap)%nat →
    foldl (λ out sg, fill_segment cap (segment_pages page sg) out) out sgs
    = take cap (out ++ (sgs ≫= segment_pages page))) by (rewrite Hgen by (cbn; lia); done).
  induction sgs as [|sg sgs IH]; intros out Hl; cbn [foldl].
  { by rewrite app_nil_r, take_ge. }
  rewrite fill_segment_take by done. rewrite IH by (rewrite length_take; lia).
  rewrite bind_cons, app_assoc. apply take_app_take.
Qed.

Lemma segment_pages_length page sg : 0 < page → 0 ≤ sg.2 → Z.of_nat (length (segment_pages page sg)) = sg.2 / page.
Proof.
  intros Hp Hl. unfold segment_pages. rewrite length_fmap, length_seqZ, Z2Nat.id; [done|].
  by apply Z.div_pos.
Qed.

Definition vendor_ops (op : string) (e : event) : list Z :=
  match e with EvVendor o h => if bool_decide (o = op) then [h] else [] | _ => [] end.

Section metax_specs.
Context `{E : Env} `{EOk : !EnvOk E} `{X : MetaxP2P}.
Implicit Types (w : kstate).

Lemma wp_the_pt pt p (Q : outcome peer_page_table → kstate → Prop) w :
  ps_pts (k_peer w) !! pt = Some p → Q (Ok p) w → wp (the_pt pt) Q w.
Proof. intros Hp HQ. unfold wp, the_pt, mbind, M_bind, gets. by rewrite Hp. Qed.

(** A DMA mapping: an address array of the full requested length whose first
    [entries] words are the bus addresses of the pages. *)
Lemma metax_dma_map_ok d pt p n page w :
  ps_pts (k_peer w) !! pt = Some p → pt_length p = n * page → 0 < page → 0 ≤ n < 2 ^ 32 →
  wp (metax_peer_dma_map_pages d pt page) (λ r w', same_core w w' ∧ k_trace w' = k_trace w ∧
    match r with
    | Ok (0, Some dm) => ∃ sgs addrs junk, pt_sgt p = Some sgs
        ∧ addrs = take (Z.to_nat n) (sgs ≫= segment_pages page)
        ∧ ps_dms (k_peer w') !! dm = Some (mk_dm (Some (addrs ++ junk)))
        ∧ Z.of_nat (length (addrs ++ junk)) = n
        ∧ ps_pts (k_peer w') !! pt = Some (p <| pt_entries := Z.of_nat (length addrs) |>)
    | Ok (ret, None) => ret ∈ [- EINVAL; - ENOMEM] ∧ k_peer w' = k_peer w
    | _ => False
    end) w.
Proof.
  intros Hp Hl Hpg Hn. unfold metax_peer_dma_map_pages. apply wp_bind, (wp_the_pt pt p); [done|].
  assert (Hmul : pt_length p / page = n) by (rewrite Hl; by apply Z.div_mul; lia).
  destruct (pt_sgt p) as [[|sg sgs]|] eqn:Hs;
    [apply wp_ret; split; [done|]; split; [done|]; split; [set_solver|done]| |
     apply wp_ret; split; [done|]; split; [done|]; split; [set_solver|done]].
  apply wp_bind, wp_kalloc. destruct (negb _);
    [apply wp_ret; split; [core_eq|]; split; [done|]; split; [set_solver|done]|]. cbv zeta.
  apply wp_bind, wp_kalloc. destruct (negb _);
    [apply wp_ret; split; [core_eq|]; split; [done|]; split; [set_solver|done]|].
  rewrite Hmul, (wrap_small 32) by lia.
  apply wp_bind, wp_tick. set (junk := env_junk _ _). set (l := sg :: sgs) in *.
  rewrite fill_addresses_take. set (addrs := take _ _).
  apply wp_bind, wp_gets, wp_bind, wp_modify, wp_ret. split; [core_eq|]. split; [done|].
  assert (Hlen : (length addrs ≤ Z.to_nat n)%nat) by (unfold addrs; rewrite length_take; lia).
  exists l, addrs, (drop (length addrs) junk). split; [done|]. split; [done|].
  split; [apply lookup_insert_eq|]. split; [|apply lookup_insert_eq].
  rewrite length_app, length_drop. unfold junk. rewrite junk_length. lia.
Qed.

(** Pinning: every resource taken from the driver on a failing path is given
    back, in reverse order. *)
Lemma metax_get_pages_ok tok va v len w :
  list_to_set metax_symbols ⊆ ps_syms (k_peer w) →
  wp (metax_peer_get_pages tok va v len) (λ r w', same_core w w' ∧ ∃ tr,
    k_trace w' = k_trace w ++ tr ∧ Forall peer_event tr ∧
    match r with
    | Ok (0, Some pt) => ∃ h sgt, ps_pts (k_peer w') !! pt = Some (mk_pt h sgt 0 len)
        ∧ tr = [EvVendor "acquire" h; EvVendor "get" h]
    | Ok (ret, _) => tr ≫= vendor_ops "acquire" = tr ≫= vendor_ops "release"
        ∧ tr ≫= vendor_ops "get" = tr ≫= vendor_ops "put" ∧ ps_pts (k_peer w') = ps_pts (k_peer w)
    | _ => False
    end) w.
Proof.
  intros Hsym. assert (Hs : ∀ s, s ∈ metax_symbols → bool_decide (s ∈ ps_syms (k_peer w)) = true).
  { intros s Hin. apply bool_decide_eq_true_2, Hsym. by apply elem_of_list_to_set. }
  unfold metax_peer_get_pages, call_ptr, has_symbol.
  apply wp_bind, wp_gets, wp_bind, wp_gets. rewrite !Hs by set_solver. cbn [negb orb].
  apply wp_bind, wp_tick. destruct (metax_p2p_acquire_mem _ v len) as [ret h].
  case_bool_decide as Hr.
  { apply wp_ret. split; [core_eq|]. exists []. rewrite app_nil_r. split; [done|]. split; [done|]. by destruct ret. }
  apply wp_bind, wp_log, wp_bind, wp_tick. destruct (metax_p2p_get_mem _ h) as [ret2 sgt].
  case_bool_decide as Hr2.
  { apply wp_bind, wp_bind, wp_gets. cbn. rewrite Hs by set_solver. apply wp_log, wp_ret.
    split; [core_eq|]. exists [EvVendor "acquire" h; EvVendor "release" h]. cbn. rewrite <- app_assoc.
    split; [done|]. split; [by repeat constructor|]. by destruct ret2. }
  apply wp_bind, wp_log, wp_bind, wp_kalloc. destruct (negb _).
  { apply wp_bind, wp_bind, wp_gets. cbn. rewrite Hs by set_solver. apply wp_log.
    apply wp_bind, wp_bind, wp_gets. cbn. rewrite Hs by set_solver. apply wp_log, wp_ret.
    split; [core_eq|]. exists [EvVendor "acquire" h; EvVendor "get" h; EvVendor "put" h; EvVendor "release" h].
    cbn. rewrite <- !app_assoc. split; [done|]. split; [by repeat constructor|]. done. }
  apply wp_bind, wp_gets, wp_bind, wp_modify, wp_ret. split; [core_eq|].
  exists [EvVendor "acquire" h; EvVendor "get" h]. split; [cbn; by rewrite <- app_assoc|].
  split; [by repeat constructor|]. exists h, sgt. split; [apply lookup_insert_eq|done].
Qed.
End metax_specs.
