(* ===== verification/QidPool.v ===== *)
(** * QidPool: the per-controller pool of user queue ids (snvm_qgroup.c)

    The bitmap of [struct ctrl] at its real size (whole 64-bit longs), the
    lazy initialisation, the allocator with its roll-back and the idempotent
    free.  The abstract specification is a finite set of queue ids in use. *)
From S2P Require Import Prelude.
From S2P Require Import Uapi.
From S2P Require Import Kernel.

(** ** Kernel bitmap primitives *)
Definition BITS_TO_LONGS (n : Z) : Z := (n + 63) / 64.

(** find_first_zero_bit(bitmap, size): [size] when all of them are set. *)
Definition find_first_zero_bit (bm : list bool) (size : Z) : Z :=
  match list_find (λ b, b = false) (take (Z.to_nat size) bm) with
  | Some (i, _) => Z.of_nat i
  | None => size
  end.

Definition the_bitmap : M ctrl (list bool) :=
  c ← gets id; from_opt NullDeref (user_qid_bitmap c).

(** set_bit / clear_bit on the pool's bitmap. *)
Definition write_bit (i : Z) (b : bool) : M ctrl unit :=
  bm ← the_bitmap;
  match bm !! Z.to_nat i with
  | None => crash OutOfBounds
  | Some _ => modify (λ c, c <| user_qid_bitmap := Some (<[Z.to_nat i := b]> bm) |>)
  end.

Definition pool_size : M ctrl Z :=
  gets (λ c, u32 (user_qid_last c - user_qid_first c + 1)).

(** ** Operations *)

(** snvm_user_qid_pool_init_locked; [mem] is whether kcalloc succeeds. *)
Definition snvm_user_qid_pool_init_locked (mem : bool) (ndev : option nvme_dev) :
    M ctrl unit :=
  c ← gets id;
  match user_qid_bitmap c with
  | Some _ => mret tt
  | None =>
      match ndev with
      | None => fail ENODEV
      | Some nd =>
          guard_err (bool_decide (online_queues nd = 0)
                     || bool_decide (nr_allocated_queues nd = 0)) ENODEV;;
          guard_err (bool_decide (ctrl_max_io_queues nd = 0)) ENODEV;;
          let first := online_queues nd in
          let last := ctrl_max_io_queues nd in
          guard_err (bool_decide (last < first)) EBUSY;;
          let count := u32 (last - first + 1) in
          guard_err (negb mem) ENOMEM;;
          modify (λ c, c <| user_qid_first := first |>
                         <| user_qid_last := last |>
                         <| user_qid_bitmap :=
                              Some (replicate (Z.to_nat (BITS_TO_LONGS count * 64)) false) |>)
      end
  end.

(** The roll-back loop [while (i > 0) { --i; clear_bit(qids_out[i] - first) }],
    [qids] holding [qids_out[0..i)]. *)
Definition qid_rollback (qids : list Z) : M ctrl unit :=
  for_each (λ q, c ← gets id; write_bit (u32 (q - user_qid_first c)) false) (rev qids).

(** The allocation loop: [nr] more to go, [qids] already written. *)
Fixpoint qid_alloc_loop (nr : nat) (qids : list Z) : M ctrl (list Z) :=
  match nr with
  | O => mret qids
  | S nr =>
      size ← pool_size;
      bm ← the_bitmap;
      let bit := find_first_zero_bit bm size in
      if bool_decide (size ≤ bit) then
        qid_rollback qids;; fail EAGAIN
      else
        write_bit bit true;;
        c ← gets id;
        qid_alloc_loop nr (qids ++ [u16 (user_qid_first c + bit)])
  end.

Definition snvm_user_qid_alloc_locked (nr : Z) : M ctrl (list Z) :=
  qid_alloc_loop (Z.to_nat nr) [].

(** snvm_user_qid_free_locked: out-of-pool and already-free qids only warn. *)
Definition snvm_user_qid_free_locked (qid : Z) : M ctrl unit :=
  c ← gets id;
  if bool_decide (qid < user_qid_first c) || bool_decide (user_qid_last c < qid)
  then mret tt
  else write_bit (u32 (qid - user_qid_first c)) false.

(** ** Abstract view: which queue ids are in use *)

Definition qid_used (c : ctrl) (q : Z) : bool :=
  match user_qid_bitmap c with
  | None => false
  | Some bm =>
      bool_decide (user_qid_first c ≤ q ≤ user_qid_last c)
      && default false (bm !! Z.to_nat (q - user_qid_first c))
  end.

(** The pool as a finite set: the abstract state the operations refine. *)
Definition used_qids (c : ctrl) : gset Z :=
  list_to_set (filter (λ q, qid_used c q = true)
    (seqZ (user_qid_first c) (user_qid_last c - user_qid_first c + 1))).

Lemma elem_of_used_qids c q : q ∈ used_qids c ↔ qid_used c q = true.
Proof.
  unfold used_qids. rewrite elem_of_list_to_set, list_elem_of_filter, elem_of_seqZ.
  split; [tauto|]. intros H. split; [done|]. unfold qid_used in H.
  destruct (user_qid_bitmap c); [|done]. apply andb_prop in H as [H _].
  apply bool_decide_eq_true in H. lia.
Qed.

(** A pool whose bitmap is allocated and whose ids fit the 16-bit qid type. *)
Record pool_ok (c : ctrl) (bm : list bool) : Prop := {
  pool_bitmap : user_qid_bitmap c = Some bm;
  pool_range : 0 ≤ user_qid_first c ≤ user_qid_last c;
  pool_u16 : user_qid_last c < 2 ^ 16;
  pool_bits : user_qid_last c - user_qid_first c + 1 ≤ Z.of_nat (length bm);
}.

Definition nbits (c : ctrl) : nat := Z.to_nat (user_qid_last c - user_qid_first c + 1).

(** Free slots of the pool. *)
Definition free_count (c : ctrl) (bm : list bool) : nat :=
  length (filter (λ b, b = false) (take (nbits c) bm)).

Lemma pool_ok_set_bitmap c bm bm' :
  pool_ok c bm → length bm' = length bm →
  pool_ok (c <| user_qid_bitmap := Some bm' |>) bm'.
Proof. intros [? ? ? ?] Hl. split; cbn; try done. by rewrite Hl. Qed.

Lemma pool_size_ok c bm :
  pool_ok c bm → pool_size c = (Ok (Z.of_nat (nbits c)), c).
Proof.
  intros [Hb Hr Hu Hn]. unfold pool_size, gets, nbits. f_equal. f_equal.
  rewrite Z2Nat.id by lia. apply wrap_small. lia.
Qed.

Lemma the_bitmap_ok c bm : pool_ok c bm → the_bitmap c = (Ok bm, c).
Proof. intros [Hb _ _ _]. unfold the_bitmap, gets, mbind, M_bind. cbn. by rewrite Hb. Qed.

Lemma write_bit_ok c bm (i : nat) b :
  pool_ok c bm → (i < length bm)%nat →
  write_bit (Z.of_nat i) b c = (Ok tt, c <| user_qid_bitmap := Some (<[i:=b]> bm) |>).
Proof.
  intros Hok Hi. unfold write_bit. rewrite (bind_ok _ _ _ _ _ (the_bitmap_ok _ _ Hok)).
  rewrite Nat2Z.id. apply lookup_lt_is_Some in Hi as [x ->]. done.
Qed.

Lemma find_first_zero_bit_lt bm (n : nat) :
  (n ≤ length bm)%nat →
  (∃ i : nat, find_first_zero_bit bm (Z.of_nat n) = Z.of_nat i ∧ (i < n)%nat
              ∧ bm !! i = Some false)
  ∨ (find_first_zero_bit bm (Z.of_nat n) = Z.of_nat n
     ∧ Forall (λ b, b = true) (take n bm)).
Proof.
  intros Hn. unfold find_first_zero_bit. rewrite Nat2Z.id.
  destruct (list_find _ _) as [[i b]|] eqn:Hf.
  - left. exists i. apply list_find_Some in Hf as (Hl & -> & _).
    apply lookup_take_Some in Hl as [? ?]. auto.
  - right. split; [done|]. apply list_find_None in Hf.
    eapply Forall_impl; [exact Hf|]. by intros [].
Qed.

(** ** Bit sets *)

Definition set_bits (bs : list nat) (bm : list bool) : list bool :=
  foldl (λ bm b, <[b:=true]> bm) bm bs.

Lemma set_bits_snoc bs b bm : set_bits (bs ++ [b]) bm = <[b:=true]> (set_bits bs bm).
Proof. unfold set_bits. by rewrite foldl_app. Qed.

Lemma length_set_bits bs bm : length (set_bits bs bm) = length bm.
Proof.
  unfold set_bits. revert bm. induction bs as [|b bs IH]; intros bm; cbn; [done|].
  by rewrite IH, length_insert.
Qed.

Lemma set_bits_lookup_notin bs bm i : i ∉ bs → set_bits bs bm !! i = bm !! i.
Proof.
  induction bs as [|b bs IH] using rev_ind; intros Hi; [done|].
  rewrite set_bits_snoc. apply not_elem_of_app in Hi as [? Hb].
  rewrite list_lookup_insert_ne; [auto|]. set_solver.
Qed.

Lemma set_bits_lookup_in bs bm i : (i < length bm)%nat → i ∈ bs → set_bits bs bm !! i = Some true.
Proof.
  induction bs as [|b bs IH] using rev_ind; intros Hl Hi; [by apply elem_of_nil in Hi|].
  rewrite set_bits_snoc. destruct (decide (b = i)) as [->|Hne].
  - apply list_lookup_insert_eq. by rewrite length_set_bits.
  - rewrite list_lookup_insert_ne by done. apply IH; [done|]. by apply elem_of_app in Hi as [? | ->%list_elem_of_singleton].
Qed.

(** Clearing what was set restores the bitmap, provided it was clear. *)
Lemma clear_set_bit (bm : list bool) b : bm !! b = Some false → <[b:=false]> (<[b:=true]> bm) = bm.
Proof. intros H. rewrite list_insert_insert_eq. by apply list_insert_id. Qed.

Lemma free_bits_insert n (bm : list bool) i :
  (i < n)%nat → bm !! i = Some false →
  length (filter (λ b, b = false) (take n bm))
  = S (length (filter (λ b, b = false) (take n (<[i:=true]> bm)))).
Proof.
  intros Hi Hl. rewrite take_insert_lt by done.
  assert (take n bm !! i = Some false) as Ht by (by rewrite lookup_take_lt).
  rewrite <- (take_drop_middle _ _ _ Ht) at 1.
  rewrite insert_take_drop by (by eapply lookup_lt_Some).
  rewrite !filter_app, !length_app, filter_cons_True, filter_cons_False by done.
  cbn. lia.
Qed.

(** ** The allocator *)

Definition qids_of (c : ctrl) (bs : list nat) : list Z :=
  (λ b, user_qid_first c + Z.of_nat b) <$> bs.

(** Bits [bs] are distinct slots of the pool that were free in [bm0]. *)
Definition taken (c : ctrl) (bm0 : list bool) (bs : list nat) : Prop :=
  NoDup bs ∧ Forall (λ b, (b < nbits c)%nat ∧ bm0 !! b = Some false) bs.

Lemma taken_snoc c bm0 bs b : taken c bm0 (bs ++ [b]) → taken c bm0 bs ∧ (b ∉ bs)
  ∧ (b < nbits c)%nat ∧ bm0 !! b = Some false.
Proof.
  intros [Hnd Hf]. apply NoDup_app in Hnd as (Hnd & Hdis & _).
  apply Forall_app in Hf as [Hf Hb]. apply Forall_singleton in Hb as [? ?].
  repeat split; try done. intros Hin. by apply (Hdis b Hin), list_elem_of_singleton.
Qed.

Lemma taken_add c bm0 bs b : taken c bm0 bs → b ∉ bs → (b < nbits c)%nat →
  bm0 !! b = Some false → taken c bm0 (bs ++ [b]).
Proof.
  intros [Hnd Hf] Hb Hlt Hfree. split.
  - apply NoDup_app. split; [done|]. split; [|apply NoDup_singleton].
    by intros a Ha ->%list_elem_of_singleton.
  - by apply Forall_app; split; [|apply Forall_singleton].
Qed.

Lemma no_free_bits (l : list bool) :
  Forall (λ b, b = true) l → filter (λ b, b = false) l = [].
Proof. induction 1 as [|b l -> _ IH]; [done|]. by rewrite filter_cons_False. Qed.

Lemma qid_of_bit c bm (b : nat) :
  pool_ok c bm → (b < nbits c)%nat →
  u16 (user_qid_first c + Z.of_nat b) = user_qid_first c + Z.of_nat b
  ∧ u32 (user_qid_first c + Z.of_nat b - user_qid_first c) = Z.of_nat b.
Proof.
  intros [_ Hr Hu _] Hb. unfold nbits in Hb. split; [apply wrap_small; lia|].
  replace (_ + _ - _) with (Z.of_nat b) by lia. apply wrap_small. lia.
Qed.

Lemma set_bitmap_twice (c : ctrl) b1 b2 :
  c <| user_qid_bitmap := b1 |> <| user_qid_bitmap := b2 |> = c <| user_qid_bitmap := b2 |>.
Proof. done. Qed.

Lemma set_bitmap_same c bm : pool_ok c bm → c <| user_qid_bitmap := Some bm |> = c.
Proof. intros [Hb _ _ _]. destruct c; cbn in *. by rewrite <- Hb. Qed.

Lemma qid_rollback_ok c bm0 bs :
  pool_ok c bm0 → taken c bm0 bs →
  qid_rollback (qids_of c bs) (c <| user_qid_bitmap := Some (set_bits bs bm0) |>)
  = (Ok tt, c).
Proof.
  intros Hok. induction bs as [|b bs IH] using rev_ind; intros Ht.
  - unfold qid_rollback. cbn. by rewrite (set_bitmap_same c bm0).
  - apply taken_snoc in Ht as (Ht & Hb & Hlt & Hfree).
    unfold qid_rollback, qids_of in *. rewrite fmap_app, rev_app_distr. cbn [fmap list_fmap rev app for_each].
    set (c1 := c <| user_qid_bitmap := Some (set_bits (bs ++ [b]) bm0) |>).
    assert (Hok1 : pool_ok c1 (set_bits (bs ++ [b]) bm0)).
    { eapply pool_ok_set_bitmap; [done|]. apply length_set_bits. }
    destruct (qid_of_bit c bm0 b Hok Hlt) as [_ Hu].
    erewrite (bind_ok _ _ c1); [apply IH, Ht|].
    erewrite (bind_ok (gets id) _ c1) by reflexivity.
    change (user_qid_first (id c1)) with (user_qid_first c). rewrite Hu.
    rewrite (write_bit_ok _ _ _ _ Hok1).
    + f_equal. rewrite set_bits_snoc. unfold c1. rewrite set_bitmap_twice.
      by rewrite clear_set_bit by (by rewrite set_bits_lookup_notin).
    + rewrite length_set_bits. by eapply lookup_lt_Some.
Qed.

Lemma qid_alloc_loop_ok n c bm0 bs :
  pool_ok c bm0 → taken c bm0 bs →
  match qid_alloc_loop n (qids_of c bs) (c <| user_qid_bitmap := Some (set_bits bs bm0) |>) with
  | (Ok qs, c') => ∃ bs', qs = qids_of c (bs ++ bs') ∧ length bs' = n
      ∧ taken c bm0 (bs ++ bs')
      ∧ c' = c <| user_qid_bitmap := Some (set_bits (bs ++ bs') bm0) |>
  | (Err e, c') => e = EAGAIN ∧ c' = c ∧ (free_count c (set_bits bs bm0) < n)%nat
  | (Fault _, _) => False
  end.
Proof.
  intros Hok. revert bs. induction n as [|n IH]; intros bs Ht.
  - cbn. exists []. by rewrite app_nil_r.
  - set (c1 := c <| user_qid_bitmap := Some (set_bits bs bm0) |>).
    assert (Hok1 : pool_ok c1 (set_bits bs bm0)).
    { eapply pool_ok_set_bitmap; [done|]. apply length_set_bits. }
    cbn [qid_alloc_loop]. rewrite (bind_ok _ _ _ _ _ (pool_size_ok _ _ Hok1)).
    rewrite (bind_ok _ _ _ _ _ (the_bitmap_ok _ _ Hok1)).
    change (nbits c1) with (nbits c).
    assert (Hlen : (nbits c ≤ length (set_bits bs bm0))%nat).
    { rewrite length_set_bits. destruct Hok as [_ Hr _ Hn]. unfold nbits. lia. }
    destruct (find_first_zero_bit_lt _ _ Hlen) as [(i & -> & Hi & Hfree)|[-> Hall]].
    + rewrite bool_decide_eq_false_2 by lia.
      rewrite (bind_ok _ _ _ _ _ (write_bit_ok _ _ i true Hok1 ltac:(lia))).
      rewrite (bind_ok (gets id) _ _ _ _ eq_refl).
      change (user_qid_first (id _)) with (user_qid_first c).
      destruct (qid_of_bit c bm0 i Hok Hi) as [-> _].
      assert (Hi' : i ∉ bs).
      { intros Hin. rewrite (set_bits_lookup_in _ _ _) in Hfree; [done| |done].
        rewrite length_set_bits in Hlen. lia. }
      rewrite set_bits_lookup_notin in Hfree by done.
      specialize (IH (bs ++ [i]) (taken_add _ _ _ _ Ht Hi' Hi Hfree)).
      rewrite set_bits_snoc in IH. unfold c1. rewrite set_bitmap_twice.
      replace (qids_of c bs ++ _) with (qids_of c (bs ++ [i])) by (unfold qids_of; by rewrite fmap_app).
      destruct (qid_alloc_loop n _ _) as [[qs|e|f] c']; [| |done].
      * destruct IH as (bs' & -> & Hl & Ht' & ->).
        exists (i :: bs'). rewrite <- app_assoc in *. cbn in *. by rewrite Hl.
      * destruct IH as (-> & -> & Hc). repeat split. unfold free_count in *.
        rewrite (free_bits_insert _ _ i Hi); [lia|]. by rewrite set_bits_lookup_notin.
    + rewrite bool_decide_eq_true_2 by lia.
      rewrite (bind_ok _ _ _ _ _ (qid_rollback_ok _ _ _ Hok Ht)). cbn.
      repeat split. unfold free_count. rewrite no_free_bits by done. cbn. lia.
Qed.

Lemma qid_used_set_bits c bm0 bs q :
  pool_ok c bm0 → taken c bm0 bs →
  qid_used (c <| user_qid_bitmap := Some (set_bits bs bm0) |>) q = true
  ↔ qid_used c q = true ∨ q ∈ qids_of c bs.
Proof.
  intros [Hb Hr Hu Hn] [Hnd Hf]. unfold qid_used. rewrite Hb. cbn.
  unfold qids_of. rewrite list_elem_of_fmap.
  case_bool_decide as Hq; cbn.
  - set (b := Z.to_nat (q - user_qid_first c)).
    assert (b < length bm0)%nat by lia.
    destruct (decide (b ∈ bs)) as [Hin|Hin].
    + rewrite set_bits_lookup_in by done. split; [|done]. intros _. right.
      exists b. split; [|done]. lia.
    + rewrite set_bits_lookup_notin by done. split; [by left|].
      intros [?|(b' & -> & Hb')]; [done|]. exfalso. apply Hin.
      subst b. by replace (Z.to_nat _) with b' by lia.
  - split; [done|]. intros [?|(b' & -> & Hb')]; [done|].
    rewrite Forall_forall in Hf. specialize (Hf b' Hb') as [Hlt _]. unfold nbits in Hlt. lia.
Qed.

(** ** Theorems *)

(** Allocating [nr] ids either takes exactly [nr] distinct ids of the pool
    that were free, or reports EAGAIN with the pool untouched, and the latter
    happens only when fewer than [nr] are free. *)
Lemma qid_alloc_ok c bm nr :
  pool_ok c bm → 0 ≤ nr →
  match snvm_user_qid_alloc_locked nr c with
  | (Ok qids, c') =>
      Z.of_nat (length qids) = nr ∧ NoDup qids
      ∧ Forall (λ q, user_qid_first c ≤ q ≤ user_qid_last c ∧ q ∉ used_qids c) qids
      ∧ used_qids c' = used_qids c ∪ list_to_set qids
      ∧ (∃ bm', c' = c <| user_qid_bitmap := Some bm' |> ∧ pool_ok c' bm')
  | (Err e, c') => e = EAGAIN ∧ c' = c ∧ Z.of_nat (free_count c bm) < nr
  | (Fault _, _) => False
  end.
Proof.
  intros Hok Hnr. unfold snvm_user_qid_alloc_locked.
  pose proof (qid_alloc_loop_ok (Z.to_nat nr) c bm [] Hok) as H. cbn [qids_of fmap list_fmap set_bits foldl app] in H.
  rewrite (set_bitmap_same c bm Hok) in H.
  destruct (qid_alloc_loop _ _ _) as [[qs|e|f] c'];
    specialize (H ltac:(split; constructor)); [|destruct H as (-> & -> & ?); repeat split; lia|done].
  destruct H as (bs & -> & Hl & Ht & ->).
  pose proof Ht as [Hnd Hf]. rewrite Forall_forall in Hf.
  unfold qids_of. rewrite length_fmap. split; [lia|]. split.
  { apply NoDup_fmap_2; [|done]. intros ???. lia. }
  split; [|split].
  - apply Forall_fmap, Forall_forall. intros b Hb. destruct (Hf b Hb) as [Hlt Hfree]. cbn.
    unfold nbits in Hlt. split; [lia|]. rewrite elem_of_used_qids. unfold qid_used.
    destruct Hok as [-> _ _ _]. replace (Z.to_nat _) with b by lia. rewrite Hfree. cbn.
    by rewrite andb_false_r.
  - apply set_eq. intros q. rewrite elem_of_union, !elem_of_used_qids, elem_of_list_to_set.
    by apply qid_used_set_bits.
  - eexists. split; [done|]. eapply pool_ok_set_bitmap; [done|]. apply length_set_bits.
Qed.


Lemma qid_free_in_pool c bm (b : nat) :
  pool_ok c bm → (b < nbits c)%nat →
  snvm_user_qid_free_locked (user_qid_first c + Z.of_nat b) c
  = (Ok tt, c <| user_qid_bitmap := Some (<[b:=false]> bm) |>).
Proof.
  intros Hok Hb. unfold snvm_user_qid_free_locked.
  rewrite (bind_ok (gets id) _ _ _ _ eq_refl). cbn [id].
  pose proof Hok as [_ Hr _ Hn]. unfold nbits in Hb.
  rewrite !bool_decide_eq_false_2 by lia. cbn [orb].
  destruct (qid_of_bit c bm b Hok) as [_ ->]; [unfold nbits; lia|].
  rewrite (write_bit_ok _ bm) by (done || lia). done.
Qed.

Lemma qid_free_outside c q :
  ¬ (user_qid_first c ≤ q ≤ user_qid_last c) →
  snvm_user_qid_free_locked q c = (Ok tt, c).
Proof.
  intros Hq. unfold snvm_user_qid_free_locked.
  rewrite (bind_ok (gets id) _ _ _ _ eq_refl). cbn [id].
  by destruct (decide (q < user_qid_first c)) as [?|?];
    [rewrite bool_decide_eq_true_2 by done
    |rewrite bool_decide_eq_false_2, bool_decide_eq_true_2 by lia].
Qed.

(** What a sequence of frees leaves of a controller's pool. *)
Definition pool_after (c : ctrl) (qs : list Z) (c' : ctrl) : Prop :=
  (∃ b, c' = c <| user_qid_bitmap := b |> ∧ (user_qid_bitmap c = None → b = None))
  ∧ used_qids c' = used_qids c ∖ list_to_set qs
  ∧ (∀ bm, pool_ok c bm → ∃ bm', pool_ok c' bm')
  ∧ (qs = [] → c' = c).

Lemma pool_after_nil c : pool_after c [] c.
Proof.
  split; [exists (user_qid_bitmap c); by destruct c|]. split; [set_solver|]. split; [eauto|done].
Qed.

Lemma pool_after_cons c q c1 qs c2 :
  pool_after c [q] c1 → pool_after c1 qs c2 → pool_after c (q :: qs) c2.
Proof.
  intros ((b1 & -> & N1) & U1 & P1 & _) ((b2 & -> & N2) & U2 & P2 & _).
  split; [exists b2; auto|]. split; [|split; [|done]].
  - rewrite U2, U1. set_solver.
  - intros bm Hbm. destruct (P1 bm Hbm) as [bm1 H1]. eauto.
Qed.

Lemma qid_free_ok c bm q :
  pool_ok c bm → ∃ c', snvm_user_qid_free_locked q c = (Ok tt, c') ∧ pool_after c [q] c'.
Proof.
  intros Hok. pose proof Hok as [Hbm Hr _ Hn].
  destruct (decide (user_qid_first c ≤ q ≤ user_qid_last c)) as [Hq|Hq].
  - set (b := Z.to_nat (q - user_qid_first c)).
    assert (Hb : (b < nbits c)%nat) by (unfold nbits; lia).
    replace q with (user_qid_first c + Z.of_nat b) by lia.
    rewrite (qid_free_in_pool c bm) by done. eexists. split; [done|].
    split; [eexists; split; [done|congruence]|]. split; [|split; [|done]].
    + apply set_eq. intros q'. rewrite elem_of_difference, list_to_set_singleton,
        elem_of_singleton, !elem_of_used_qids.
      unfold qid_used. rewrite Hbm. cbn. case_bool_decide as Hq'; cbn; [|by split; [|intros []]].
      destruct (decide (Z.to_nat (q' - user_qid_first c) = b)) as [Heq|Hne].
      * rewrite Heq, list_lookup_insert_eq by lia. cbn. split; [done|]. intros [_ Hx]. lia.
      * rewrite list_lookup_insert_ne by done. split; [|tauto]. intros H. split; [done|lia].
    + intros bm' [Hbm' _ _ _]. eexists. eapply pool_ok_set_bitmap; [exact Hok|]. apply length_insert.
  - rewrite qid_free_outside by done. eexists. split; [done|].
    split; [exists (user_qid_bitmap c); by destruct c|]. split; [|split; [eauto|done]].
    apply set_eq. intros q'. rewrite elem_of_difference, list_to_set_singleton,
      elem_of_singleton, !elem_of_used_qids.
    split; [|tauto]. intros H. split; [done|]. intros ->. unfold qid_used in H. rewrite Hbm in H.
    by rewrite bool_decide_eq_false_2 in H.
Qed.

Lemma qid_free_all c bm qs :
  pool_ok c bm →
  ∃ c', for_each snvm_user_qid_free_locked qs c = (Ok tt, c') ∧ pool_after c qs c'.
Proof.
  revert c bm. induction qs as [|q qs IH]; intros c bm Hok.
  { exists c. split; [done|]. apply pool_after_nil. }
  destruct (qid_free_ok c bm q Hok) as (c1 & H1 & A1).
  destruct A1 as (B1 & U1 & P1 & N1). destruct (P1 bm Hok) as [bm1 Hok1].
  destruct (IH c1 bm1 Hok1) as (c2 & H2 & A2). exists c2. split.
  - cbn. by rewrite (bind_ok _ _ _ _ _ H1).
  - eapply pool_after_cons; [|exact A2]. by split.
Qed.

(** freeing ids removes exactly those from the pool's in-use set, keeps a
    pool, and is idempotent: ids outside the pool or already free are no-ops. *)
Theorem qid_free_spec c bm qs :
  pool_ok c bm →
  ∃ c', for_each snvm_user_qid_free_locked qs c = (Ok tt, c')
    ∧ used_qids c' = used_qids c ∖ list_to_set qs
    ∧ (∃ bm', pool_ok c' bm')
    ∧ (∀ q, q ∈ qs → q ∉ used_qids c')
    ∧ (∃ c'', for_each snvm_user_qid_free_locked qs c' = (Ok tt, c'')
         ∧ used_qids c'' = used_qids c').
Proof.
  intros Hok. destruct (qid_free_all c bm qs Hok) as (c' & H & B & U & Hp & _).
  destruct (Hp bm Hok) as [bm' Hok']. destruct (qid_free_all c' bm' qs Hok') as (c'' & H' & _ & U' & _).
  exists c'. split; [done|]. split; [done|]. split; [eauto|]. split.
  - intros q Hq. rewrite U. set_solver.
  - exists c''. split; [done|]. rewrite U', U. set_solver.
Qed.

Lemma set_bits_cons b bs bm : b ∉ bs → set_bits (b :: bs) bm = <[b:=true]> (set_bits bs bm).
Proof.
  unfold set_bits. revert bm. induction bs as [|x bs IH]; intros bm Hb; [done|].
  apply not_elem_of_cons in Hb as [Hx Hb]. cbn in *.
  rewrite list_insert_insert_ne by done. by apply IH.
Qed.

Lemma free_set_bits c bm bs :
  pool_ok c bm → taken c bm bs →
  for_each snvm_user_qid_free_locked (qids_of c bs)
    (c <| user_qid_bitmap := Some (set_bits bs bm) |>) = (Ok tt, c).
Proof.
  intros Hok. induction bs as [|b bs IH]; intros [Hnd Hf].
  - cbn. by rewrite (set_bitmap_same c bm).
  - apply NoDup_cons in Hnd as [Hb Hnd]. apply Forall_cons in Hf as [[Hlt Hfree] Hf].
    unfold qids_of. cbn [fmap list_fmap for_each].
    set (c1 := c <| user_qid_bitmap := Some (set_bits (b :: bs) bm) |>).
    assert (Hok1 : pool_ok c1 (set_bits (b :: bs) bm)).
    { eapply pool_ok_set_bitmap; [done|]. apply length_set_bits. }
    rewrite (bind_ok _ _ _ _ _ (qid_free_in_pool c1 _ b Hok1 Hlt)).
    rewrite set_bits_cons by done. unfold c1. rewrite set_bitmap_twice.
    rewrite clear_set_bit by (by rewrite set_bits_lookup_notin). by apply IH.
Qed.

(** Freeing every id an allocation returned restores the pool bit for bit. *)
Lemma qid_alloc_free_ok c bm nr qids c' :
  pool_ok c bm → 0 ≤ nr →
  snvm_user_qid_alloc_locked nr c = (Ok qids, c') →
  for_each snvm_user_qid_free_locked qids c' = (Ok tt, c).
Proof.
  intros Hok Hnr H. unfold snvm_user_qid_alloc_locked in H.
  pose proof (qid_alloc_loop_ok (Z.to_nat nr) c bm [] Hok) as HL.
  cbn [qids_of fmap list_fmap set_bits foldl app] in HL.
  rewrite (set_bitmap_same c bm Hok), H in HL.
  destruct HL as (bs & -> & _ & Ht & ->); [split; constructor|]. by apply free_set_bits.
Qed.

(** A successful initialisation leaves a pool; a freshly created one is empty
    and is exactly the gap between the queues the kernel brought online and the
    controller's grant. *)
Definition lazy_init (ndev : option nvme_dev) (c c' : ctrl) : Prop :=
  (is_Some (user_qid_bitmap c) ∧ c' = c)
  ∨ (∃ nd bm, ndev = Some nd ∧ user_qid_bitmap c = None ∧ pool_ok c' bm
       ∧ c' = c <| user_qid_first := online_queues nd |>
                <| user_qid_last := ctrl_max_io_queues nd |>
                <| user_qid_bitmap := Some bm |>
       ∧ Forall (λ b, b = false) bm).

Lemma qid_pool_init_ok mem ndev c :
  (∀ nd, ndev = Some nd → 0 ≤ online_queues nd ∧ 0 ≤ ctrl_max_io_queues nd < 2 ^ 16) →
  match snvm_user_qid_pool_init_locked mem ndev c with
  | (Ok _, c') => lazy_init ndev c c'
  | (Err e, c') => c' = c ∧ user_qid_bitmap c = None ∧ e ∈ [ENODEV; EBUSY; ENOMEM]
  | (Fault _, _) => False
  end.
Proof.
  intros Hnd. unfold snvm_user_qid_pool_init_locked.
  rewrite (bind_ok (gets id) _ _ _ _ eq_refl). cbn [id].
  destruct (user_qid_bitmap c) as [bm|] eqn:Hb; [by left; split; [rewrite Hb|]|].
  destruct ndev as [nd|]; [|by cbn; set_solver].
  destruct (Hnd nd eq_refl) as [Ho Hm].
  unfold guard_err, mbind, M_bind.
  destruct (bool_decide (online_queues nd = 0) || bool_decide (nr_allocated_queues nd = 0)); [by cbn; set_solver|].
  cbn. case_bool_decide; [by cbn; set_solver|]. cbn. case_bool_decide; [by cbn; set_solver|]. cbn.
  destruct mem; [|by cbn; set_solver]. cbn. right. eexists nd, _. split; [done|]. split; [done|].
  split; [|split; [done|by apply Forall_replicate]].
  split; cbn; try done; try lia. rewrite length_replicate.
  rewrite wrap_small by lia. unfold BITS_TO_LONGS. Z.div_mod_to_equations; lia.
Qed.

Lemma clear_bits_unused (bm : list bool) (i : nat) :
  Forall (λ b, b = false) bm → default false (bm !! i) = false.
Proof.
  intros HF. destruct (bm !! i) as [b|] eqn:Hb; [|done]. cbn. by rewrite Forall_lookup in HF; eapply HF.
Qed.

(** Initialising does not change which ids are in use. *)
Lemma lazy_init_used ndev c c' : lazy_init ndev c c' → used_qids c' = used_qids c.
Proof.
  intros [[_ ->]|(nd & bm & _ & Hn & _ & -> & HF)]; [done|]. apply set_eq. intros q.
  rewrite !elem_of_used_qids. unfold qid_used. rewrite Hn. cbn.
  by rewrite clear_bits_unused, andb_false_r.
Qed.

Lemma lazy_init_pdev ndev c c' : lazy_init ndev c c' → c_pdev c' = c_pdev c.
Proof. by intros [[_ ->]|(nd & bm & _ & _ & _ & -> & _)]. Qed.

(** ** The properties of the pool *)

(** C29: allocating [nr] ids refines taking them from a finite set: it takes
    exactly [nr] distinct ids of the pool's range that were not in use, or
    reports -EAGAIN with the pool untouched, which happens only when fewer than
    [nr] are free; bits already taken by a failing batch are rolled back. *)
Theorem qid_alloc_refines_set c bm nr :
  pool_ok c bm → 0 ≤ nr →
  match snvm_user_qid_alloc_locked nr c with
  | (Ok qids, c') =>
      Z.of_nat (length qids) = nr ∧ NoDup qids
      ∧ Forall (λ q, user_qid_first c ≤ q ≤ user_qid_last c ∧ q ∉ used_qids c) qids
      ∧ used_qids c' = used_qids c ∪ list_to_set qids
      ∧ (∃ bm', c' = c <| user_qid_bitmap := Some bm' |> ∧ pool_ok c' bm')
  | (Err e, c') => e = EAGAIN ∧ c' = c ∧ Z.of_nat (free_count c bm) < nr
  | (Fault _, _) => False
  end.
Proof. apply qid_alloc_ok. Qed.

(** freeing every id an allocation returned restores the controller
    bit for bit. *)
Theorem qid_alloc_free_roundtrip c bm nr qids c' :
  pool_ok c bm → 0 ≤ nr → snvm_user_qid_alloc_locked nr c = (Ok qids, c') →
  for_each snvm_user_qid_free_locked qids c' = (Ok tt, c).
Proof. apply qid_alloc_free_ok. Qed.

(** the lazily built pool spans exactly the ids from the kernel's
    [online_queues] to the controller's grant, all free, all below 2^16; an
    existing pool is kept, and every refusal leaves the controller alone. *)
Theorem qid_pool_init_spec mem ndev c :
  (∀ nd, ndev = Some nd → 0 ≤ online_queues nd ∧ 0 ≤ ctrl_max_io_queues nd < 2 ^ 16) →
  match snvm_user_qid_pool_init_locked mem ndev c with
  | (Ok _, c') => lazy_init ndev c c' ∧ used_qids c' = used_qids c
  | (Err e, c') => c' = c ∧ user_qid_bitmap c = None ∧ e ∈ [ENODEV; EBUSY; ENOMEM]
  | (Fault _, _) => False
  end.
Proof.
  intros H. pose proof (qid_pool_init_ok mem ndev c H) as Hi.
  destruct (snvm_user_qid_pool_init_locked mem ndev c) as [[[]|e|f] c']; [|done..].
  split; [done|]. by eapply lazy_init_used.
Qed.

(** ** A pool of thirteen ids, two of them taken *)
Definition sample_bitmap : list bool := [true; false; true] ++ replicate 61 false.
Definition sample_pool : ctrl :=
  mk_ctrl 0 "ssnvme0" 0 0 true zero_setup (Some sample_bitmap) 4 16 1 [].

Lemma sample_pool_ok : pool_ok sample_pool sample_bitmap.
Proof. by split. Qed.

Lemma qid_alloc_refines_set_witness :
  (snvm_user_qid_alloc_locked 3 sample_pool).1 = Ok [5; 7; 8]
  ∧ (snvm_user_qid_alloc_locked 12 sample_pool) = (Err EAGAIN, sample_pool)
  ∧ match snvm_user_qid_alloc_locked 3 sample_pool with
    | (Ok qids, c') => used_qids c' = used_qids sample_pool ∪ list_to_set qids
    | _ => False
    end.
Proof.
  split; [vm_compute; reflexivity|]. split; [vm_compute; reflexivity|].
  pose proof (qid_alloc_refines_set sample_pool sample_bitmap 3 sample_pool_ok ltac:(lia)) as H.
  destruct (snvm_user_qid_alloc_locked 3 sample_pool) as [[q|e|f] c'] eqn:He; [|vm_compute in He; discriminate..].
  apply H.
Defined.

Lemma qid_alloc_free_roundtrip_witness :
  for_each snvm_user_qid_free_locked [5; 7; 8] (snvm_user_qid_alloc_locked 3 sample_pool).2 = (Ok tt, sample_pool).
Proof.
  apply (qid_alloc_free_roundtrip sample_pool sample_bitmap 3); [apply sample_pool_ok|lia|].
  vm_compute. reflexivity.
Defined.

Lemma qid_free_spec_witness :
  ∃ c', for_each snvm_user_qid_free_locked [4; 99] sample_pool = (Ok tt, c')
    ∧ used_qids c' = used_qids sample_pool ∖ list_to_set [4; 99].
Proof.
  destruct (qid_free_spec sample_pool sample_bitmap [4; 99] sample_pool_ok) as (c' & H1 & H2 & _). eauto.
Defined.

Definition sample_ndev : nvme_dev := mk_ndev 4 0 0 4 0 0 16 3 1024 1 true 256 0.

Lemma qid_pool_init_spec_witness :
  let c := sample_pool <| user_qid_bitmap := None |> in
  match snvm_user_qid_pool_init_locked true (Some sample_ndev) c with
  | (Ok _, c') => user_qid_first c' = 4 ∧ user_qid_last c' = 16 ∧ used_qids c' = ∅
  | _ => False
  end.
Proof.
  intros c. assert (Hnd : ∀ nd, Some sample_ndev = Some nd →
    0 ≤ online_queues nd ∧ 0 ≤ ctrl_max_io_queues nd < 2 ^ 16) by (intros nd [= <-]; by vm_compute).
  pose proof (qid_pool_init_spec true (Some sample_ndev) c Hnd) as H.
  destruct (snvm_user_qid_pool_init_locked true (Some sample_ndev) c) as [[[]|e|f] c'] eqn:He;
    [|vm_compute in He; discriminate..].
  destruct H as [_ Hu]. split; [|split; [|exact Hu]]; vm_compute in He; injection He as <-; done.
Defined.
