(* ===== verification/Map.v ===== *)
(** * Map: DMA mappings of host and GPU memory (snvme/map.c)

    Descriptors live on a heap and are threaded on two kinds of lists at once:
    a global registry (host, device or device-queue) and at most one per-fd
    list (a queue group's maps or the fd's data maps).  [unmap_and_release]
    takes a descriptor off both, runs its release callback and frees it. *)
From S2P Require Import Prelude.
From S2P Require Import Uapi.
From S2P Require Import Kernel.

Inductive registry : Set := HostList | DeviceList | DeviceQueueList.

Definition reg_get (r : registry) (w : kstate) : list mapid :=
  match r with
  | HostList => host_list w
  | DeviceList => device_list w
  | DeviceQueueList => device_queue_list w
  end.

(** list_insert(list, &md->list) *)
Definition reg_insert (r : registry) (m : mapid) (w : kstate) : kstate :=
  match r with
  | HostList => w <| host_list ::= (.++ [m]) |>
  | DeviceList => w <| device_list ::= (.++ [m]) |>
  | DeviceQueueList => w <| device_queue_list ::= (.++ [m]) |>
  end.

(** list_remove(&map->list): the node knows which registry it is on. *)
Definition reg_remove (m : mapid) (w : kstate) : kstate :=
  w <| host_list ::= without m |>
    <| device_list ::= without m |>
    <| device_queue_list ::= without m |>.

(** list_del(&map->group_link): unthread from whichever per-fd list holds it. *)
Definition owner_unlink (m : mapid) (own : snvm_dev_owner) : snvm_dev_owner :=
  own <| own_groups ::= fmap (λ g, g <| g_maps ::= without m |>) |>
      <| own_data_maps ::= without m |>.

Definition file_unlink (m : mapid) (fl : file) : file :=
  fl <| private_data ::= fmap (owner_unlink m) |>.

Definition link_del (m : mapid) (w : kstate) : kstate :=
  w <| k_files ::= fmap (file_unlink m) |>.

Section map.
Context `{E : Env} `{P : PeerMemory}.

(** ** Phoenix P2P service *)
Definition map_p2p_service_probe : K unit :=
  r ← symbol_get "phxfs_p2p_register";
  modify (λ w, w <| phx_register_fn := r |>);;
  d ← symbol_get "phxfs_p2p_deregister";
  modify (λ w, w <| phx_deregister_fn := d |>);;
  if r && d then mret tt
  else
    when r (symbol_put "phxfs_p2p_register";;
            modify (λ w, w <| phx_register_fn := false |>));;
    when d (symbol_put "phxfs_p2p_deregister";;
            modify (λ w, w <| phx_deregister_fn := false |>)).

Definition map_p2p_service_release : K unit :=
  r ← gets phx_register_fn;
  when r (symbol_put "phxfs_p2p_register";;
          modify (λ w, w <| phx_register_fn := false |>));;
  d ← gets phx_deregister_fn;
  when d (symbol_put "phxfs_p2p_deregister";;
          modify (λ w, w <| phx_deregister_fn := false |>)).

(** ** Descriptors *)
Definition create_descriptor (cur : task) (c : cid) (vaddr n_pages : Z) : K mapid :=
  ok ← kalloc;
  guard_err (negb ok) ENOMEM;;
  ct ← the_ctrl c;
  m ← gets k_next;
  modify (λ w, w <| k_next := S m |>
    <| k_heap ::= insert m
         (mk_map cur vaddr false (c_pdev ct) 0 DataNull NoRelease 0
            NVM_MAP_KIND_UNSPECIFIED n_pages (replicate (Z.to_nat n_pages) 0)) |>);;
  mret m.

(** ** Release callbacks *)

(** release_user_pages: unmap every bus address, then drop every page. *)
Definition release_user_pages (m : mapid) : K unit :=
  md ← the_map m;
  for_each (λ i, a ← from_opt OutOfBounds (m_addrs md !! i);
                 log (EvDmaUnmap (m_pdev md) a)) (seq 0 (Z.to_nat (m_n_addrs md)));;
  match m_data md with
  | DataPages pages =>
      for_each (λ i, p ← from_opt OutOfBounds (pages !! i); log (EvPutPage p))
        (seq 0 (Z.to_nat (m_n_addrs md)));;
      upd_map m (λ md, md <| m_data := DataNull |>)
  | _ => crash NullDeref
  end.

(** The walk over [map->ctrl_list] that undoes the per-controller mappings:
    [j] only advances past a mapping it unmapped. *)
Fixpoint unmap_for_ctrls (pages : cell) (ms : list cell) (cs : list cid) (j : nat) : K unit :=
  match cs with
  | [] => mret tt
  | c :: cs =>
      ct ← the_ctrl c;
      x ← from_opt OutOfBounds (ms !! j);
      match x with
      | CUninit => crash Uninitialised
      | CNull => unmap_for_ctrls pages ms cs j
      | CPtr dm =>
          peer_dma_unmap_pages (c_pdev ct) pages dm;;
          unmap_for_ctrls pages ms cs (S j)
      end
  end.

Definition release_mappings (md : map) (gd : gpu_region) : K unit :=
  match mappings gd with
  | None => mret tt
  | Some ms =>
      if m_has_ctrl_list md
      then cs ← gets ctrl_list; unmap_for_ctrls (pages gd) ms cs 0
      else crash Uninitialised
  end.

Definition release_gpu_memory (m : mapid) : K unit :=
  md ← the_map m;
  match m_data md with
  | DataNull => mret tt
  | DataPages _ => crash NullDeref
  | DataGpu gd =>
      match phx_handle gd with
      | CUninit => crash Uninitialised
      | CPtr h =>
          d ← gets phx_deregister_fn;
          when d (log (EvPhxDeregister h));;
          upd_map m (λ md, md <| m_data := DataNull |>)
      | CNull =>
          release_mappings md gd;;
          match pages gd with
          | CUninit => crash Uninitialised
          | CNull => mret tt
          | CPtr pt => peer_put_pages 0 0 (m_vaddr md) pt;; mret tt
          end;;
          upd_map m (λ md, md <| m_data := DataNull |>)
      end
  end.

(** The single mapping of an I/O-queue map. *)
Definition release_ioqueue_mapping (md : map) (gd : gpu_region) : K unit :=
  match mappings gd with
  | None => mret tt
  | Some ms =>
      x ← from_opt OutOfBounds (ms !! 0%nat);
      match x with
      | CUninit => crash Uninitialised
      | CNull => mret tt
      | CPtr dm => peer_dma_unmap_pages (m_pdev md) (pages gd) dm;; mret tt
      end
  end.

Definition release_gpu_ioqueue_memory (m : mapid) : K unit :=
  md ← the_map m;
  match m_data md with
  | DataNull => mret tt
  | DataPages _ => crash NullDeref
  | DataGpu gd =>
      release_ioqueue_mapping md gd;;
      match pages gd with
      | CUninit => crash Uninitialised
      | CNull => mret tt
      | CPtr pt => peer_put_pages 0 0 (m_vaddr md) pt;; mret tt
      end;;
      upd_map m (λ md, md <| m_data := DataNull |>)
  end.

Definition run_release (m : mapid) (md : map) : K unit :=
  match m_release md, m_data md with
  | NoRelease, _ => mret tt
  | _, DataNull => mret tt
  | release_user_pages_fn, _ => release_user_pages m
  | release_gpu_memory_fn, _ => release_gpu_memory m
  | release_gpu_ioqueue_memory_fn, _ => release_gpu_ioqueue_memory m
  end.

Definition unmap_and_release (m : mapid) : K unit :=
  the_map m;;
  modify (reg_remove m);;
  modify (link_del m);;
  md ← the_map m;
  run_release m md;;
  log (EvReleaseMap m);;
  modify (λ w, w <| k_heap ::= delete m |>).

(** ** Lookup and per-task reclaim *)
Fixpoint map_find_in (cur : task) (vaddr : Z) (l : list mapid) : K (option mapid) :=
  match l with
  | [] => mret None
  | m :: l =>
      md ← the_map m;
      if bool_decide (m_owner md = cur)
         && (bool_decide (m_vaddr md = align_down PAGE_SHIFT vaddr)
             || bool_decide (m_vaddr md = align_down GPU_PAGE_SHIFT vaddr))
      then mret (Some m)
      else map_find_in cur vaddr l
  end.

Definition map_find (cur : task) (r : registry) (vaddr : Z) : K (option mapid) :=
  l ← gets (reg_get r); map_find_in cur vaddr l.

(** map_purge_by_owner: restart from the front of the registry after every
    descriptor reclaimed; [todo] is the suffix still to look at. *)
Fixpoint purge_loop (fuel : nat) (r : registry) (owner : task) (todo : list mapid)
    (freed : Z) : K Z :=
  match fuel with
  | O => crash OutOfFuel
  | S fuel =>
      match todo with
      | [] => mret freed
      | m :: rest =>
          md ← the_map m;
          if bool_decide (m_owner md = owner) && bool_decide (m_group_id md = 0)
          then unmap_and_release m;;
               l ← gets (reg_get r);
               purge_loop fuel r owner l (freed + 1)
          else purge_loop fuel r owner rest freed
      end
  end.

Definition purge_fuel (l : list mapid) : nat := (S (length l) * S (length l))%nat.

Definition map_purge_by_owner (r : registry) (owner : task) : K Z :=
  l ← gets (reg_get r); purge_loop (purge_fuel l) r owner l 0.

(** ** Host memory *)

(** The dma_map_page loop from index [i], [k] pages to go. *)
Fixpoint dma_map_loop (m : mapid) (pages : list Z) (i k : nat) : K Z :=
  match k with
  | O => mret 0
  | S k =>
      md ← the_map m;
      page ← from_opt OutOfBounds (pages !! i);
      t ← tick;
      let a := env_dma_map t (m_pdev md) page in
      match m_addrs md !! i with
      | None => crash OutOfBounds
      | Some _ =>
          upd_map m (λ md, md <| m_addrs ::= insert i a |>);;
          t ← tick;
          let err := env_dma_error t (m_pdev md) a in
          if bool_decide (err ≠ 0) then mret err
          else log (EvDmaMap (m_pdev md) a);; dma_map_loop m pages (S i) k
      end
  end.

Definition map_user_pages (m : mapid) : K Z :=
  md ← the_map m;
  ok ← kalloc;
  if negb ok then mret (- ENOMEM) else
  t ← tick;
  let '(retval, pages) := env_gup t (m_vaddr md) (m_n_addrs md) in
  if bool_decide (retval ≤ 0) then mret retval else
  log (EvPin pages);;
  upd_map m (λ md, md <| m_n_addrs := retval |> <| m_page_size := PAGE_SIZE |>
                      <| m_data := DataPages pages |>
                      <| m_release := release_user_pages_fn |>);;
  dma_map_loop m pages 0 (Z.to_nat retval).

Definition map_userspace (cur : task) (r : registry) (c : cid) (vaddr n_pages : Z) : K mapid :=
  guard_err (bool_decide (n_pages < 1)) EINVAL;;
  m ← create_descriptor cur c (align_down PAGE_SHIFT vaddr) n_pages;
  upd_map m (λ md, md <| m_page_size := PAGE_SIZE |>);;
  err ← map_user_pages m;
  if bool_decide (err ≠ 0) then unmap_and_release m;; fail (- err)
  else modify (reg_insert r m);; mret m.

(** ** GPU memory *)

(** [max_num_ctrls] of map.c: the length of a map's mapping array. *)
Definition max_num_ctrls : nat := 8.

Definition upd_gd (m : mapid) (f : gpu_region → gpu_region) : K unit :=
  md ← the_map m;
  match m_data md with
  | DataGpu gd => upd_map m (λ md, md <| m_data := DataGpu (f gd) |>)
  | _ => crash NullDeref
  end.

(** [for (i = 0; i < n; ++i) map->addrs[i] = src[i]] *)
Definition copy_addrs (m : mapid) (src : list Z) (n : nat) : K unit :=
  for_each (λ i,
    a ← from_opt OutOfBounds (src !! i);
    md ← the_map m;
    match m_addrs md !! i with
    | None => crash OutOfBounds
    | Some _ => upd_map m (λ md, md <| m_addrs ::= insert i a |>)
    end) (seq 0 n).

(** [gd->mappings[j] = dm] *)
Definition store_mapping (m : mapid) (j dm : nat) : K unit :=
  md ← the_map m;
  match m_data md with
  | DataGpu gd =>
      match mappings gd with
      | Some ms =>
          match ms !! j with
          | None => crash OutOfBounds
          | Some _ => upd_gd m (λ gd, gd <| mappings := Some (<[j := CPtr dm]> ms) |>)
          end
      | None => crash NullDeref
      end
  | _ => crash NullDeref
  end.

(** Map the pinned pages on every registered controller; the first mapping
    provides the bus addresses. *)
Fixpoint map_for_ctrls (m : mapid) (pt : nat) (cs : list cid) (j : nat) : K Z :=
  match cs with
  | [] => mret 0
  | c :: cs =>
      ct ← the_ctrl c;
      md ← the_map m;
      '(err, dm) ← peer_dma_map_pages (c_pdev ct) pt (u32 (m_page_size md));
      if bool_decide (err ≠ 0) then mret err else
      dm ← from_opt NullDeref dm;
      store_mapping m j dm;;
      when (bool_decide (j = 0%nat))
        (addrs ← peer_memory_dm_addresses dm;
         copy_addrs m addrs (Z.to_nat (m_n_addrs md)));;
      map_for_ctrls m pt cs (S j)
  end.

(** With the pages pinned: map them on every controller, then take the page
    count from the page table. *)
Definition map_gpu_spread (m : mapid) (pt : nat) : K Z :=
  upd_gd m (λ gd, gd <| pages := CPtr pt |>);;
  cs ← gets ctrl_list;
  err ← map_for_ctrls m pt cs 0;
  if bool_decide (err ≠ 0) then mret err else
  n ← peer_memory_pt_entries pt;
  upd_map m (λ md, md <| m_n_addrs := n |>);;
  mret 0.

(** peer_memory get_pages + dma_map_pages for every controller. *)
Definition map_gpu_normal (m : mapid) : K Z :=
  ok ← kalloc;
  if negb ok then mret (- ENOMEM) else
  upd_gd m (λ gd, gd <| mappings := Some (replicate max_num_ctrls CNull) |>);;
  md ← the_map m;
  '(err, pt) ← peer_get_pages 0 0 (m_vaddr md) (u64 (GPU_PAGE_SIZE * m_n_addrs md));
  if bool_decide (err ≠ 0) then mret err else
  pt ← from_opt NullDeref pt;
  map_gpu_spread m pt.

Definition map_gpu_memory (m : mapid) : K Z :=
  ok ← kalloc;
  if negb ok then mret (- ENOMEM) else
  upd_map m (λ md, md <| m_page_size := GPU_PAGE_SIZE |>
                      <| m_data := DataGpu (mk_gpu_region CNull None CNull) |>
                      <| m_release := release_gpu_memory_fn |>);;
  r ← gets phx_register_fn;
  if (r : bool) then
    md ← the_map m;
    t ← tick;
    let '(err, handle, ioaddrs) :=
      env_phx t (m_vaddr md) (u64 (GPU_PAGE_SIZE * m_n_addrs md)) in
    match handle with
    | Some h =>
        if bool_decide (err = 0) then
          log (EvPhxRegister h);;
          upd_gd m (λ gd, gd <| phx_handle := CPtr h |>);;
          upd_map m (λ md, md <| m_n_addrs := Z.of_nat (length ioaddrs) |>);;
          copy_addrs m ioaddrs (length ioaddrs);;
          mret 0
        else map_gpu_normal m
    | None => map_gpu_normal m
    end
  else map_gpu_normal m.

(** map_gpu_ioqueue_memory: the mapping array has one cell, not initialised,
    and so is the Phoenix handle, which this path never reads. *)
Definition map_gpu_ioqueue_memory (m : mapid) : K Z :=
  ok ← kalloc;
  if negb ok then mret (- ENOMEM) else
  ok ← kalloc;
  if negb ok then mret (- ENOMEM) else
  upd_map m (λ md, md <| m_page_size := GPU_PAGE_SIZE |>
                      <| m_data := DataGpu (mk_gpu_region CNull (Some [CUninit]) CUninit) |>
                      <| m_release := release_gpu_ioqueue_memory_fn |>);;
  md ← the_map m;
  '(err, pt) ← peer_get_pages 0 0 (m_vaddr md) (u64 (GPU_PAGE_SIZE * m_n_addrs md));
  if bool_decide (err ≠ 0) then mret err else
  pt ← from_opt NullDeref pt;
  upd_gd m (λ gd, gd <| pages := CPtr pt |>);;
  '(err, dm) ← peer_dma_map_pages (m_pdev md) pt (u32 (m_page_size md));
  if bool_decide (err ≠ 0) then mret err else
  dm ← from_opt NullDeref dm;
  store_mapping m 0 dm;;
  addrs ← peer_memory_dm_addresses dm;
  copy_addrs m addrs (Z.to_nat (m_n_addrs md));;
  n ← peer_memory_pt_entries pt;
  upd_map m (λ md, md <| m_n_addrs := n |>);;
  mret 0.

Definition map_device_memory (cur : task) (r : registry) (c : cid) (vaddr n_pages : Z) : K mapid :=
  guard_err (bool_decide (n_pages < 1)) EINVAL;;
  m ← create_descriptor cur c (align_down GPU_PAGE_SHIFT vaddr) n_pages;
  upd_map m (λ md, md <| m_page_size := GPU_PAGE_SIZE |> <| m_has_ctrl_list := true |>);;
  err ← map_gpu_memory m;
  if bool_decide (err ≠ 0) then unmap_and_release m;; fail (- err)
  else modify (reg_insert r m);; mret m.

Definition map_device_ioqueue_memory (cur : task) (r : registry) (c : cid) (vaddr n_pages : Z) : K mapid :=
  guard_err (bool_decide (n_pages < 1)) EINVAL;;
  m ← create_descriptor cur c (align_down GPU_PAGE_SHIFT vaddr) n_pages;
  upd_map m (λ md, md <| m_page_size := GPU_PAGE_SIZE |>);;
  err ← map_gpu_ioqueue_memory m;
  if bool_decide (err ≠ 0) then unmap_and_release m;; fail (- err)
  else modify (reg_insert r m);; mret m.

(** ** Forced reclaim: the GPU driver's callbacks *)
Definition force_release_gpu_memory (m : mapid) : K unit :=
  md ← the_map m;
  match m_data md with
  | DataPages _ => crash NullDeref
  | DataNull => unmap_and_release m
  | DataGpu gd =>
      match phx_handle gd with
      | CUninit => crash Uninitialised
      | CPtr _ => release_gpu_memory m;; unmap_and_release m
      | CNull =>
          release_mappings md gd;;
          match pages gd with
          | CUninit => crash Uninitialised
          | CNull => mret tt
          | CPtr pt => peer_free_page_table pt;; mret tt
          end;;
          upd_map m (λ md, md <| m_data := DataNull |>);;
          unmap_and_release m
      end
  end.

Definition force_release_gpu_ioqueue_memory (m : mapid) : K unit :=
  md ← the_map m;
  match m_data md with
  | DataPages _ => crash NullDeref
  | DataNull => unmap_and_release m
  | DataGpu gd =>
      release_ioqueue_mapping md gd;;
      match pages gd with
      | CUninit => crash Uninitialised
      | CNull => mret tt
      | CPtr pt => peer_free_page_table pt;; mret tt
      end;;
      upd_map m (λ md, md <| m_data := DataNull |>);;
      unmap_and_release m
  end.
End map.

(** ** Bookkeeping view

    What the operations above do to the registries, the per-fd lists and the
    heap, apart from the calls they make to the outside. *)

(** The descriptor leaves its registry, its per-fd list and the heap. *)
Definition drop_map (m : mapid) (w : kstate) : kstate :=
  (link_del m (reg_remove m w)) <| k_heap ::= delete m |>.

#[global] Arguments drop_map : simpl never.

Lemma drop_map_trace m w : k_trace (drop_map m w) = k_trace w.
Proof. reflexivity. Qed.

Definition drop_maps (ms : list mapid) (w : kstate) : kstate :=
  foldl (λ w m, drop_map m w) w ms.

(** Events of the mapping code: no admin command, no group, no driver. *)
Definition quiet (e : event) : Prop :=
  match e with
  | EvAdmin _ _ | EvFreeGroup _ | EvDriverAttach | EvDriverRelease _ => False
  | _ => True
  end.

Lemma peer_quiet e : peer_event e → quiet e.
Proof. by destruct e. Qed.

(** A cell a release callback may look at. *)
Definition init_cell (x : cell) : Prop := x ≠ CUninit.

(** The descriptor's [data] is what its [release] callback expects. *)
Definition release_ok (md : map) : Prop :=
  match m_release md, m_data md with
  | NoRelease, _ | _, DataNull => True
  | release_user_pages_fn, DataPages ps =>
      0 ≤ m_n_addrs md ≤ Z.of_nat (length (m_addrs md))
      ∧ m_n_addrs md = Z.of_nat (length ps)
  | release_gpu_memory_fn, DataGpu gd =>
      m_has_ctrl_list md = true ∧ init_cell (phx_handle gd) ∧ init_cell (pages gd)
      ∧ (∀ ms, mappings gd = Some ms → length ms = max_num_ctrls ∧ Forall init_cell ms)
  | release_gpu_ioqueue_memory_fn, DataGpu gd =>
      init_cell (pages gd)
      ∧ (∀ ms, mappings gd = Some ms → ∃ x, ms = [x] ∧ init_cell x)
  | _, _ => False
  end.

(** The controllers a GPU mapping is spread over: all alive, and no more than
    a mapping array holds. *)
Definition ctrls_ok (w : kstate) : Prop :=
  (length (ctrl_list w) ≤ max_num_ctrls)%nat
  ∧ Forall (λ c, is_Some (k_ctrls w !! c)) (ctrl_list w).

Lemma ctrls_ok_core w w' : same_core w w' → ctrls_ok w → ctrls_ok w'.
Proof.
  intros H. unfold ctrls_ok.
  rewrite <- (same_core_field ctrl_list w w'), <- (same_core_field k_ctrls w w'); done.
Qed.

Lemma ctrls_ok_drop m w : ctrls_ok w → ctrls_ok (drop_map m w).
Proof. done. Qed.

Section map_specs.
Context `{E : Env} `{P : PeerMemory} `{POk : !PeerMemoryOk P}.
Implicit Types (w : kstate).

Lemma wp_peer {A} (m : K A) (R : A → Prop) (Q : outcome A → kstate → Prop) w :
  peer_returns m R →
  (∀ a w', same_core w w' → extends peer_event w w' → R a → Q (Ok a) w') →
  wp m Q w.
Proof. intros H HQ. destruct (H w) as (a & w' & Hm & Hc & Ht & Ha). eapply wp_eq; eauto. Qed.

Lemma map_of_core m w w' : same_core w w' → k_heap w' !! m = k_heap w !! m.
Proof. intros H. by rewrite (same_core_field k_heap w w'). Qed.

(** Logging a list of events. *)
Lemma wp_log_each {A} (f : A → event) (pick : nat → option A) n w :
  (∀ i, (i < n)%nat → is_Some (pick i)) →
  wp (for_each (λ i, a ← from_opt OutOfBounds (pick i); log (f a)) (seq 0 n))
    (λ r w', r = Ok tt ∧ w' = emit (f <$> omap pick (seq 0 n)) w) w.
Proof.
  intros Hp. assert (∀ i, i ∈ seq 0 n → is_Some (pick i)) as Hin.
  { intros i Hi%elem_of_seq. apply Hp. lia. }
  clear Hp. revert w Hin. generalize (seq 0 n). intros l.
  induction l as [|i l IH]; intros w Hin; cbn [for_each].
  - apply wp_ret. split; [done|]. symmetry. apply emit_nil.
  - apply wp_bind, wp_bind. destruct (Hin i) as [a Ha]; [by left|].
    apply (wp_from_opt _ _ a); [done|]. apply wp_log. fold (emit [f a] w).
    eapply wp_mono; [apply IH; intros j Hj; apply Hin; by right|].
    intros r w' [-> ->]. split; [done|]. rewrite emit_emit. cbn. by rewrite Ha.
Qed.

Lemma omap_lookup_seq {A} (l : list A) n :
  omap (λ i, l !! i) (seq 0 n) = take n l.
Proof.
  revert n. induction l as [|x l IH]; intros n.
  - rewrite take_nil. generalize 0%nat. induction n as [|n IHn]; intros k; [done|]. cbn. by rewrite IHn.
  - destruct n as [|n]; [done|]. cbn. f_equal. rewrite <- IH, <- fmap_S_seq.
    generalize (seq 0 n). intros s. induction s as [|i s IHs]; [done|]. cbn. by rewrite IHs.
Qed.

(** release_user_pages on a well-formed host mapping: exactly one
    dma_unmap_page per address and one put_page per page, in that order. *)
Lemma release_user_pages_spec m md ps w :
  k_heap w !! m = Some md → m_release md = release_user_pages_fn →
  m_data md = DataPages ps → release_ok md →
  wp (release_user_pages m) (λ r w',
    r = Ok tt ∧ w' =
      (emit ((EvDmaUnmap (m_pdev md) <$> take (Z.to_nat (m_n_addrs md)) (m_addrs md))
             ++ (EvPutPage <$> ps)) w)
      <| k_heap ::= insert m (md <| m_data := DataNull |>) |>) w.
Proof.
  intros Hm Hr Hd Hok. unfold release_ok in Hok. rewrite Hr, Hd in Hok. destruct Hok as [Hn Hl].
  unfold release_user_pages. apply wp_bind, (wp_the_map m md); [done|].
  apply wp_bind. eapply wp_mono.
  { apply (wp_log_each (EvDmaUnmap (m_pdev md)) (λ i, m_addrs md !! i)).
    intros i Hi. apply lookup_lt_is_Some. lia. }
  intros r w' [-> ->]. rewrite Hd. apply wp_bind. eapply wp_mono.
  { apply (wp_log_each EvPutPage (λ i, ps !! i)).
    intros i Hi. apply lookup_lt_is_Some. lia. }
  intros r w' [-> ->]. apply (wp_upd_map m md); [done|]. split; [done|].
  rewrite !omap_lookup_seq, Hl, Nat2Z.id, (take_ge ps) by lia. by rewrite emit_emit.
Qed.

(** The descriptor [m] now holds [md'], nothing else changed, and only
    mapping events were emitted. *)
Definition released (m : mapid) (md' : map) (w : kstate) (r : outcome unit) (w' : kstate) : Prop :=
  r = Ok tt ∧ same_core (w <| k_heap ::= insert m md' |>) w' ∧ extends quiet w w'.

Definition peer_only {A} (a : A) (w : kstate) (r : outcome A) (w' : kstate) : Prop :=
  r = Ok a ∧ same_core w w' ∧ extends peer_event w w'.

Lemma unmap_for_ctrls_spec pgs ms cs j w :
  Forall (λ c, is_Some (k_ctrls w !! c)) cs → Forall init_cell ms →
  (j + length cs ≤ length ms)%nat →
  wp (unmap_for_ctrls pgs ms cs j) (peer_only tt w) w.
Proof.
  revert j w. induction cs as [|c cs IH]; intros j w Hcs Hms Hj; cbn.
  { apply wp_ret. by split. }
  apply Forall_cons in Hcs as [[ct Hc] Hcs]. cbn in Hj.
  apply wp_bind, (wp_the_ctrl c ct); [done|].
  destruct (lookup_lt_is_Some_2 ms j ltac:(lia)) as [x Hx].
  apply wp_bind, (wp_from_opt _ _ x); [done|].
  destruct x as [| |dm].
  - by apply (Forall_lookup_1 _ _ _ _ Hms) in Hx.
  - apply IH; [done..|lia].
  - apply wp_bind. eapply wp_peer; [apply peer_dma_unmap_ok|].
    intros e w' Hw Ht _. eapply wp_mono.
    + apply IH; [|done|lia]. by rewrite <- (same_core_field k_ctrls w w').
    + intros r w'' (-> & Hw' & Ht'). split; [done|]. split; [by etrans|by etrans].
Qed.

Lemma release_mappings_spec md gd w :
  m_has_ctrl_list md = true → ctrls_ok w →
  (∀ ms, mappings gd = Some ms → length ms = max_num_ctrls ∧ Forall init_cell ms) →
  wp (release_mappings md gd) (peer_only tt w) w.
Proof.
  intros Hl [Hlen Hcs] Hms. unfold release_mappings.
  destruct (mappings gd) as [ms|]; [|by apply wp_ret; split].
  destruct (Hms ms eq_refl) as [Hm Hi]. rewrite Hl. apply wp_bind, wp_gets.
  apply unmap_for_ctrls_spec; [done..|]. rewrite Hm. lia.
Qed.

(** The tail of every GPU release: give the pages back, clear [data]. *)
Lemma put_and_clear_spec (put : nat → K Z) pgs m md w w0 :
  (∀ pt, peer_returns (put pt) (λ _, True)) →
  init_cell pgs → k_heap w0 !! m = Some md →
  same_core w0 w → extends peer_event w0 w →
  wp (match pgs with
      | CUninit => crash Uninitialised
      | CNull => mret tt
      | CPtr pt => put pt;; mret tt
      end;; upd_map m (λ md, md <| m_data := DataNull |>))
    (released m (md <| m_data := DataNull |>) w0) w.
Proof.
  intros Hput Hi Hm Hc Ht. apply wp_bind.
  assert (Hend : ∀ w', same_core w0 w' → extends peer_event w0 w' →
    wp (upd_map m (λ md, md <| m_data := DataNull |>))
       (released m (md <| m_data := DataNull |>) w0) w').
  { intros w' Hc' Ht'. apply (wp_upd_map m md).
    - by rewrite (map_of_core m w0 w').
    - split; [done|]. split; [by apply (same_core_update (λ w, w <| k_heap ::= insert m _ |>))|].
      exact (extends_mono _ _ w0 w' peer_quiet Ht'). }
  destruct pgs as [| |pt]; [done|by apply wp_ret, Hend|].
  apply wp_bind. eapply wp_peer; [apply Hput|].
  intros a w' Hc' Ht' _. apply wp_ret, Hend; by etrans.
Qed.

Lemma release_gpu_memory_spec m md w :
  k_heap w !! m = Some md → m_release md = release_gpu_memory_fn →
  m_data md ≠ DataNull → release_ok md → ctrls_ok w →
  wp (release_gpu_memory m) (released m (md <| m_data := DataNull |>) w) w.
Proof.
  intros Hm Hr Hnn Hok Hcs. unfold release_ok in Hok. rewrite Hr in Hok.
  unfold release_gpu_memory. apply wp_bind, (wp_the_map m md); [done|].
  destruct (m_data md) as [|ps|gd] eqn:Hd; [done|done|].
  destruct Hok as (Hl & Hphx & Hpg & Hms).
  destruct (phx_handle gd) as [| |h] eqn:Hp; [done| |].
  - apply wp_bind. eapply wp_mono; [by apply release_mappings_spec|].
    intros r w' (-> & Hc & Ht). by eapply (put_and_clear_spec (peer_put_pages 0 0 (m_vaddr md)));
      [intros; apply peer_put_pages_ok|..].
  - apply wp_bind, wp_gets, wp_bind, wp_when; intros _.
    + apply wp_log. apply (wp_upd_map m md); [done|]. split; [done|].
      split; [core_eq|]. eexists; split; [reflexivity|]. by repeat constructor.
    + apply (wp_upd_map m md); [done|]. split; [done|]. split; [core_eq|]. by apply extends_same.
Qed.

Lemma release_ioqueue_mapping_spec md gd w :
  (∀ ms, mappings gd = Some ms → ∃ x, ms = [x] ∧ init_cell x) →
  wp (release_ioqueue_mapping md gd) (peer_only tt w) w.
Proof.
  intros Hms. unfold release_ioqueue_mapping.
  destruct (mappings gd) as [ms|]; [|by apply wp_ret; split].
  destruct (Hms ms eq_refl) as (x & -> & Hi). apply wp_bind, (wp_from_opt _ _ x); [done|].
  destruct x as [| |dm]; [done|by apply wp_ret; split|].
  apply wp_bind. eapply wp_peer; [apply peer_dma_unmap_ok|].
  intros a w' Hc Ht _. apply wp_ret. by split.
Qed.

Lemma release_gpu_ioqueue_memory_spec m md w :
  k_heap w !! m = Some md → m_release md = release_gpu_ioqueue_memory_fn →
  m_data md ≠ DataNull → release_ok md →
  wp (release_gpu_ioqueue_memory m) (released m (md <| m_data := DataNull |>) w) w.
Proof.
  intros Hm Hr Hnn Hok. unfold release_ok in Hok. rewrite Hr in Hok.
  unfold release_gpu_ioqueue_memory. apply wp_bind, (wp_the_map m md); [done|].
  destruct (m_data md) as [|ps|gd] eqn:Hd; [done|done|]. destruct Hok as (Hpg & Hms).
  apply wp_bind. eapply wp_mono; [by apply release_ioqueue_mapping_spec|].
  intros r w' (-> & Hc & Ht). by eapply (put_and_clear_spec (peer_put_pages 0 0 (m_vaddr md)));
    [intros; apply peer_put_pages_ok|..].
Qed.

Lemma run_release_spec m md w :
  k_heap w !! m = Some md → release_ok md → ctrls_ok w →
  wp (run_release m md) (λ r w', ∃ md', released m md' w r w') w.
Proof.
  intros Hm Hok Hcs. unfold run_release.
  assert (Hid : wp (mret tt) (λ r w', ∃ md', released m md' w r w') w).
  { apply wp_ret. exists md. split; [done|]. split; [|by apply extends_same].
    by rewrite heap_insert_id. }
  destruct (m_data md) as [|ps|gd] eqn:Hd; [by destruct (m_release md)| |].
  - destruct (m_release md) eqn:Hr; [done| |by unfold release_ok in Hok; rewrite Hr, Hd in Hok..].
    eapply wp_mono; [by eapply release_user_pages_spec|].
    intros r w' [-> ->]. eexists. split; [done|]. split; [core_eq|].
    eexists. split; [reflexivity|]. apply Forall_app; split; by apply Forall_fmap, Forall_true.
  - destruct (m_release md) eqn:Hr; [done|by unfold release_ok in Hok; rewrite Hr, Hd in Hok| |].
    + eapply wp_mono; [apply (release_gpu_memory_spec m md); congruence|eauto].
    + eapply wp_mono; [apply (release_gpu_ioqueue_memory_spec m md); congruence|eauto].
Qed.

(** The whole of unmap_and_release, seen from the bookkeeping. *)
Lemma unmap_and_release_core m md w :
  k_heap w !! m = Some md → release_ok md → ctrls_ok w →
  wp (unmap_and_release m) (λ r w', r = Ok tt ∧ same_core (drop_map m w) w' ∧ extends quiet w w') w.
Proof.
  intros Hm Hok Hcs. unfold unmap_and_release.
  apply wp_bind, (wp_the_map m md); [done|].
  apply wp_bind, wp_modify, wp_bind, wp_modify.
  apply wp_bind, (wp_the_map m md); [done|]. apply wp_bind.
  eapply wp_mono; [by apply (run_release_spec m md)|].
  intros r w' (md' & -> & Hc & Ht). apply wp_bind, wp_log, wp_modify.
  split; [done|]. split.
  - apply (same_core_update (λ w, w <| k_heap ::= delete m |>)) in Hc; [|done].
    rewrite heap_delete_insert in Hc. etrans; [exact Hc|]. core_eq.
  - etrans; [exact Ht|]. eexists. split; [reflexivity|]. by repeat constructor.
Qed.

(** Releasing a host mapping, exactly: one dma_unmap_page per bus address,
    then one put_page per page, then the descriptor. *)
Lemma unmap_host_exact m md ps w :
  k_heap w !! m = Some md → m_release md = release_user_pages_fn →
  m_data md = DataPages ps → release_ok md →
  unmap_and_release m w =
    (Ok tt, emit ((EvDmaUnmap (m_pdev md) <$> take (Z.to_nat (m_n_addrs md)) (m_addrs md))
                  ++ (EvPutPage <$> ps) ++ [EvReleaseMap m]) (drop_map m w)).
Proof.
  intros Hm Hr Hd Hok.
  assert (H : wp (unmap_and_release m) (λ r w', (r, w') =
    (Ok tt, emit ((EvDmaUnmap (m_pdev md) <$> take (Z.to_nat (m_n_addrs md)) (m_addrs md))
                  ++ (EvPutPage <$> ps) ++ [EvReleaseMap m]) (drop_map m w))) w);
    [|unfold wp in H; by destruct (unmap_and_release m w)].
  unfold unmap_and_release. apply wp_bind, (wp_the_map m md); [done|].
  apply wp_bind, wp_modify, wp_bind, wp_modify.
  apply wp_bind, (wp_the_map m md); [done|]. apply wp_bind. unfold run_release. rewrite Hr, Hd.
  eapply wp_mono; [by apply (release_user_pages_spec m md ps)|].
  intros r w' [-> ->]. apply wp_bind, wp_log, wp_modify. f_equal.
  rewrite app_assoc. set (tr := (EvDmaUnmap _ <$> _) ++ (EvPutPage <$> _)).
  unfold drop_map. generalize (link_del m (reg_remove m w)). intros w1.
  rewrite <- (emit_emit tr), !emit_heap.
  change (_ <| k_trace ::= _ |>) with
    ((emit [EvReleaseMap m] (emit tr w1)) <| k_heap ::= insert m (md <| m_data := DataNull |>) |>).
  by rewrite heap_delete_insert.
Qed.

(** ** A descriptor no list knows about *)
Definition owner_maps (own : snvm_dev_owner) : list mapid :=
  (own_groups own ≫= g_maps) ++ own_data_maps own.

Definition unlisted (m : mapid) (w : kstate) : Prop :=
  (m ∉ host_list w ++ device_list w ++ device_queue_list w)
  ∧ map_Forall (λ _ fl, ∀ own, private_data fl = Some own → m ∉ owner_maps own) (k_files w).

Lemma owner_unlink_id m own : m ∉ owner_maps own → owner_unlink m own = own.
Proof.
  unfold owner_maps. rewrite not_elem_of_app. intros [Hg Hd].
  destruct own as [c t gs n ds nd]. unfold owner_unlink, set, set_own_groups, set_own_data_maps.
  simpl in *. rewrite without_notin by done. f_equal.
  induction gs as [|g gs IH]; [done|]. rewrite bind_cons, not_elem_of_app in Hg.
  destruct Hg as [Hg Hgs]. rewrite fmap_cons, IH by done. f_equal.
  destruct g. unfold set, set_g_maps. simpl in *. by rewrite without_notin.
Qed.

Lemma link_del_id m w :
  map_Forall (λ _ fl, ∀ own, private_data fl = Some own → m ∉ owner_maps own) (k_files w) →
  link_del m w = w.
Proof.
  intros H. destruct w. unfold link_del, set, set_k_files. simpl in *. f_equal.
  apply map_eq. intros fd. rewrite lookup_fmap.
  destruct (_ !! fd) as [fl|] eqn:Hf; [|done]. simpl. f_equal.
  specialize (H fd fl Hf). destruct fl as [i [own|] b]; [|done].
  unfold file_unlink, set, set_private_data. simpl in *. by rewrite owner_unlink_id by auto.
Qed.

Lemma reg_remove_id m w :
  (m ∉ host_list w ++ device_list w ++ device_queue_list w) → reg_remove m w = w.
Proof.
  rewrite !not_elem_of_app. intros (Hh & Hd & Hq). unfold reg_remove.
  rewrite (host_list_id (without m) w), (device_list_id (without m) w) by (by apply without_notin).
  apply device_queue_list_id. by apply without_notin.
Qed.

Lemma drop_unlisted m w : unlisted m w → drop_map m w = w <| k_heap ::= delete m |>.
Proof.
  intros [Hl Hf]. unfold drop_map. rewrite reg_remove_id by done.
  by rewrite link_del_id.
Qed.

Lemma unlisted_core m w w' : same_core w w' → unlisted m w → unlisted m w'.
Proof.
  intros H. unfold unlisted.
  by rewrite (same_core_field host_list w w'), (same_core_field device_list w w'),
    (same_core_field device_queue_list w w'), (same_core_field k_files w w').
Qed.

(** A fresh descriptor on the heap. *)
Definition alloc_map (m : mapid) (md : map) (w : kstate) : kstate :=
  w <| k_next := S m |> <| k_heap ::= insert m md |>.

Definition new_map (cur : task) (ct : ctrl) (vaddr n : Z) : map :=
  mk_map cur vaddr false (c_pdev ct) 0 DataNull NoRelease 0
    NVM_MAP_KIND_UNSPECIFIED n (replicate (Z.to_nat n) 0).

Lemma create_descriptor_spec cur c ct vaddr n w :
  k_ctrls w !! c = Some ct →
  wp (create_descriptor cur c vaddr n) (λ r w',
    (r = Ok (k_next w) ∧ w' = (alloc_map (k_next w) (new_map cur ct vaddr n) w)
                                <| k_tick := S (k_tick w) |>)
    ∨ (r = Err ENOMEM ∧ w' = w <| k_tick := S (k_tick w) |>)) w.
Proof.
  intros Hc. unfold create_descriptor. apply wp_bind, wp_kalloc, wp_bind, wp_guard.
  - by right.
  - intros _. apply wp_bind, (wp_the_ctrl c ct); [done|].
    apply wp_bind, wp_gets, wp_bind, wp_modify, wp_ret. left. split; reflexivity.
Qed.

(** ** Host mappings *)

(** Map [md] with other bus addresses. *)
Lemma dma_map_loop_spec m ps md i k w :
  k_heap w !! m = Some md → (i + k ≤ length ps)%nat → (i + k ≤ length (m_addrs md))%nat →
  wp (dma_map_loop m ps i k) (λ r w', ∃ err addrs j,
    r = Ok err ∧ length addrs = length (m_addrs md) ∧ take i addrs = take i (m_addrs md)
    ∧ same_core (w <| k_heap ::= insert m (md <| m_addrs := addrs |>) |>) w'
    ∧ (j ≤ k)%nat ∧ (err = 0 → j = k)
    ∧ k_trace w' = k_trace w ++ (EvDmaMap (m_pdev md) <$> take j (drop i addrs))) w.
Proof.
  revert md i w. induction k as [|k IH]; intros md i w Hm Hp Ha; cbn [dma_map_loop].
  { apply wp_ret. exists 0, (m_addrs md), 0%nat. repeat split; try done; [|by rewrite app_nil_r].
    rewrite heap_insert_id; [done|]. by destruct md. }
  apply wp_bind, (wp_the_map m md); [done|].
  destruct (lookup_lt_is_Some_2 ps i ltac:(lia)) as [pg Hpg].
  apply wp_bind, (wp_from_opt _ _ pg); [done|]. apply wp_bind, wp_tick.
  destruct (lookup_lt_is_Some_2 (m_addrs md) i ltac:(lia)) as [x Hx]. cbv zeta. rewrite Hx.
  set (a := env_dma_map _ _ _). apply wp_bind, (wp_upd_map m md); [done|].
  apply wp_bind, wp_tick. set (err := env_dma_error _ _ _). cbv zeta.
  set (md1 := md <| m_addrs ::= insert i a |>).
  assert (Hlen : length (m_addrs md1) = length (m_addrs md)) by apply length_insert.
  assert (Htk : take i (m_addrs md1) = take i (m_addrs md)) by (by apply take_insert_ge).
  case_bool_decide as He.
  - apply wp_ret. exists err, (m_addrs md1), 0%nat. repeat split; try done; [lia|].
    cbn. by rewrite app_nil_r.
  - apply wp_bind, wp_log. eapply wp_mono; [apply (IH md1 (S i))|].
    + apply lookup_insert_eq.
    + lia.
    + rewrite Hlen. lia.
    + intros r w' (err' & addrs & j & -> & Hl & Ht & Hc & Hj & Hz & Htr).
      assert (Hat : addrs !! i = Some a).
      { rewrite <- (lookup_take_lt addrs (S i) i), Ht by lia. rewrite lookup_take_lt by lia.
        apply list_lookup_insert_eq. lia. }
      exists err', addrs, (S j). split; [done|]. split; [congruence|].
      split.
      { apply (f_equal (take i)) in Ht. rewrite !take_take, !Nat.min_l in Ht by lia. congruence. }
      split; [|split; [lia|split; [intros Hz'; by rewrite Hz|]]].
      * etrans; [|exact Hc].
        etrans; [|apply (same_core_update (λ w, w <| k_heap ::= insert m (md1 <| m_addrs := addrs |>) |>)
                          (w <| k_heap ::= insert m md1 |>)); [done|core_eq]].
        by rewrite heap_insert_insert.
      * rewrite Htr. cbn. rewrite <- app_assoc. by rewrite (drop_S addrs a i).
Qed.

(** A descriptor whose mapping step has not run yet. *)
Definition blank (md : map) : Prop :=
  m_data md = DataNull ∧ m_release md = NoRelease ∧ 0 < m_n_addrs md
  ∧ m_n_addrs md = Z.of_nat (length (m_addrs md)).

(** What the caller's request fixes about a descriptor. *)
Definition same_request (md md' : map) : Prop :=
  m_owner md' = m_owner md ∧ m_vaddr md' = m_vaddr md ∧ m_pdev md' = m_pdev md
  ∧ m_has_ctrl_list md' = m_has_ctrl_list md
  ∧ m_group_id md' = m_group_id md ∧ m_kind md' = m_kind md
  ∧ m_page_size md' = m_page_size md ∧ length (m_addrs md') = length (m_addrs md).

Lemma same_request_refl md : same_request md md.
Proof. by repeat split. Qed.

(** A host mapping of the pages [ps]: [j] of them have been DMA-mapped. *)
Definition host_mapping (md : map) (ps : list Z) (j : nat) : list event :=
  EvPin ps :: (EvDmaMap (m_pdev md) <$> take j (m_addrs md)).

Lemma map_user_pages_spec `{EOk : !EnvOk E} m md w :
  k_heap w !! m = Some md → blank md → m_page_size md = PAGE_SIZE →
  wp (map_user_pages m) (λ r w', ∃ err md',
    r = Ok err ∧ same_core (w <| k_heap ::= insert m md' |>) w'
    ∧ same_request md md' ∧ release_ok md'
    ∧ ((md' = md ∧ k_trace w' = k_trace w)
       ∨ ∃ ps j, m_data md' = DataPages ps ∧ m_release md' = release_user_pages_fn
           ∧ 0 < m_n_addrs md' ≤ m_n_addrs md
           ∧ k_trace w' = k_trace w ++ host_mapping md' ps j
           ∧ (err = 0 → j = Z.to_nat (m_n_addrs md')))) w.
Proof.
  intros Hm (Hd & Hr & Hn & Hl) Hps. unfold map_user_pages.
  assert (Hsame : ∀ err w', same_core w w' → k_trace w' = k_trace w →
    wp (mret err) (λ r w', ∃ err md',
      r = Ok err ∧ same_core (w <| k_heap ::= insert m md' |>) w'
      ∧ same_request md md' ∧ release_ok md'
      ∧ ((md' = md ∧ k_trace w' = k_trace w)
         ∨ ∃ ps j, m_data md' = DataPages ps ∧ m_release md' = release_user_pages_fn
             ∧ 0 < m_n_addrs md' ≤ m_n_addrs md
             ∧ k_trace w' = k_trace w ++ host_mapping md' ps j
             ∧ (err = 0 → j = Z.to_nat (m_n_addrs md')))) w').
  { intros err w' Hc Ht. apply wp_ret. exists err, md. split; [done|].
    rewrite heap_insert_id by done. split; [done|]. split; [apply same_request_refl|].
    split; [by unfold release_ok; rewrite Hr|by left]. }
  apply wp_bind, (wp_the_map m md); [done|]. apply wp_bind, wp_kalloc.
  destruct (env_alloc _); cbn [negb]; [|by apply Hsame]. apply wp_bind, wp_tick.
  pose proof (gup_count (S (k_tick w)) (m_vaddr md) (m_n_addrs md)) as Hgup.
  cbn [k_tick]. change (k_tick (w <| k_tick := _ |>)) with (S (k_tick w)).
  destruct (env_gup _ _ _) as [retval ps]. cbn in Hgup.
  case_bool_decide as Hret; [by apply Hsame|]. destruct Hgup as [Hle Hlen]; [lia|].
  apply wp_bind, wp_log, wp_bind, (wp_upd_map m md); [done|].
  set (md1 := md <| m_n_addrs := retval |> <| m_page_size := PAGE_SIZE |>
                 <| m_data := DataPages ps |> <| m_release := release_user_pages_fn |>).
  eapply wp_mono; [apply (dma_map_loop_spec m ps md1)|].
  - apply lookup_insert_eq.
  - lia.
  - cbn. lia.
  - intros r w' (err & addrs & j & -> & Hla & _ & Hc & Hj & Hz & Htr).
    exists err, (md1 <| m_addrs := addrs |>). split; [done|]. split.
    { etrans; [|exact Hc]. etrans; [|apply (same_core_update
        (λ w, w <| k_heap ::= insert m (md1 <| m_addrs := addrs |>) |>)
        (w <| k_heap ::= insert m md1 |>)); [done|core_eq]].
      by rewrite heap_insert_insert. }
    split; [by repeat split|]. split; [cbn; cbn in Hla; lia|]. right. exists ps, j.
    split; [done|]. split; [done|]. split; [cbn; lia|]. split; [|exact Hz].
    rewrite Htr. cbn. by rewrite <- app_assoc.
Qed.

(** Pages pinned and pages put back by a trace. *)
Definition pins (e : event) : list Z := match e with EvPin ps => ps | _ => [] end.
Definition puts (e : event) : list Z := match e with EvPutPage p => [p] | _ => [] end.

Lemma puts_fmap ps : (EvPutPage <$> ps) ≫= puts = ps.
Proof. induction ps as [|p ps IH]; [done|]. cbn. by f_equal. Qed.

Lemma bind_fmap_nil {A} (f : A → event) (g : event → list Z) l :
  (∀ a, g (f a) = []) → (f <$> l) ≫= g = [].
Proof. intros H. induction l as [|a l IH]; [done|]. rewrite fmap_cons, bind_cons, H, IH. done. Qed.

(** The descriptor a host-mapping request asks for. *)
Definition host_request (cur : task) (ct : ctrl) (vaddr n : Z) : map :=
  (new_map cur ct (align_down PAGE_SHIFT vaddr) n) <| m_page_size := PAGE_SIZE |>.

Lemma host_request_blank cur ct vaddr n : 1 ≤ n → blank (host_request cur ct vaddr n).
Proof. intros Hn. repeat split; cbn; [lia|]. rewrite length_replicate. lia. Qed.

(** Nothing happened but that ids were consumed. *)
Definition untouched (w w' : kstate) : Prop :=
  same_core (w <| k_next := k_next w' |>) w' ∧ (k_next w ≤ k_next w')%nat.

Lemma untouched_core w w' : same_core w w' → untouched w w'.
Proof.
  intros Hs. unfold untouched. rewrite <- (same_core_field k_next _ _ (λ _, eq_refl) Hs).
  split; [by destruct w|done].
Qed.

(** Outcome of a mapping operation on registry [r] for the request [req]: a
    new registered descriptor that answers it, or nothing but a consumed id. *)
Definition mapped (r : registry) (req : map) (w : kstate)
    (good : map → kstate → Prop) (bad : kstate → Prop)
    (res : outcome mapid) (w' : kstate) : Prop :=
  match res with
  | Ok m => m = k_next w ∧ ∃ md, same_core (reg_insert r m (alloc_map m md w)) w'
      ∧ same_request req md ∧ release_ok md ∧ good md w'
  | Err e => untouched w w' ∧ bad w'
  | Fault _ => False
  end.

Definition host_good (n : Z) (w : kstate) (md : map) (w' : kstate) : Prop :=
  1 ≤ n ∧ 0 < m_n_addrs md ≤ n ∧
  ((m_data md = DataNull ∧ k_trace w' = k_trace w)
    ∨ ∃ ps, m_data md = DataPages ps ∧ m_release md = release_user_pages_fn
        ∧ k_trace w' = k_trace w ++ host_mapping md ps (Z.to_nat (m_n_addrs md))).

Definition balanced (w w' : kstate) : Prop :=
  ∃ tr, k_trace w' = k_trace w ++ tr ∧ tr ≫= pins = tr ≫= puts ∧ Forall quiet tr.

Lemma host_mapping_quiet md ps j : Forall quiet (host_mapping md ps j).
Proof. constructor; [done|]. by apply Forall_fmap, Forall_true. Qed.

(** The failure path of map_userspace: the half-made mapping is undone, and
    every page pinned on the way is put back. *)
Lemma undo_user_pages m md ps j w w0 :
  k_heap w !! m = Some md → m_release md = release_user_pages_fn →
  m_data md = DataPages ps → release_ok md →
  k_trace w = k_trace w0 ++ host_mapping md ps j →
  wp (unmap_and_release m) (λ r w', r = Ok tt ∧ same_core (drop_map m w) w'
    ∧ balanced w0 w') w.
Proof.
  intros Hm Hr Hd Hok Ht. eapply wp_eq; [by apply (unmap_host_exact m md ps)|].
  split; [done|]. split; [apply emit_core|]. eexists. split.
  - rewrite emit_trace, drop_map_trace, Ht, <- app_assoc. reflexivity.
  - split; [|by repeat first [apply Forall_app; split | apply host_mapping_quiet
      | apply Forall_fmap, Forall_true | constructor]].
    unfold host_mapping. rewrite !bind_app, !bind_cons, puts_fmap, !bind_fmap_nil by done.
    cbn. by rewrite !app_nil_r.
Qed.

(** [w] with a new descriptor, after that descriptor is gone again. *)
Lemma drop_alloc m md w w1 w2 :
  m = k_next w → unlisted m w → k_heap w !! m = None →
  same_core (alloc_map m md w) w1 → same_core (drop_map m w1) w2 →
  untouched w w2.
Proof.
  intros Hm Hu Hn H1 H2.
  assert (Hu1 : unlisted m w1) by (by eapply unlisted_core; [exact H1|]).
  rewrite drop_unlisted in H2 by done.
  assert (Hx : k_next w2 = S m).
  { rewrite <- (same_core_field k_next _ _ (λ _, eq_refl) H2). cbn.
    by rewrite <- (same_core_field k_next _ _ (λ _, eq_refl) H1). }
  unfold untouched. rewrite Hx. split; [|lia]. etrans; [|exact H2].
  apply (same_core_update (λ w, w <| k_heap ::= delete m |>)) in H1; [|done].
  etrans; [|exact H1]. unfold alloc_map. rewrite heap_delete_insert.
  by rewrite heap_delete_id.
Qed.

(** A descriptor without a mapping is just freed. *)
Lemma unmap_blank m md w :
  k_heap w !! m = Some md → m_data md = DataNull →
  unmap_and_release m w = (Ok tt, emit [EvReleaseMap m] (drop_map m w)).
Proof.
  intros Hm Hd. unfold unmap_and_release, the_map, mbind, M_bind, gets, modify. cbn.
  rewrite Hm. cbn. rewrite Hm. cbn. unfold run_release. rewrite Hd.
  by destruct (m_release md).
Qed.

(** The failure path of map_userspace, whatever its mapping step reached. *)
Lemma undo_host m md md0 w w0 :
  k_heap w !! m = Some md → release_ok md → m_data md0 = DataNull →
  ((md = md0 ∧ k_trace w = k_trace w0)
   ∨ ∃ ps j, m_data md = DataPages ps ∧ m_release md = release_user_pages_fn
       ∧ k_trace w = k_trace w0 ++ host_mapping md ps j) →
  wp (unmap_and_release m)
    (λ r w', r = Ok tt ∧ same_core (drop_map m w) w' ∧ balanced w0 w') w.
Proof.
  intros Hm Hok Hd0 [[-> Ht]|(ps & j & Hd & Hr & Ht)].
  - eapply wp_eq; [by eapply unmap_blank|]. split; [done|]. split; [done|].
    exists [EvReleaseMap m]. rewrite <- Ht. split; [done|]. split; [done|]. by repeat constructor.
  - by eapply (undo_user_pages m md ps j).
Qed.

(** NVM_MAP_HOST_MEMORY's mapping step: it either registers one new
    descriptor for the calling task at the page-aligned address, with exactly
    one DMA mapping per pinned page, or leaves registries, per-fd lists and
    heap as they were with every pinned page put back.  It never faults. *)
Lemma map_userspace_spec `{EOk : !EnvOk E} cur r c ct vaddr n w :
  k_ctrls w !! c = Some ct → unlisted (k_next w) w → k_heap w !! k_next w = None →
  wp (map_userspace cur r c vaddr n)
    (mapped r (host_request cur ct vaddr n) w (host_good n w) (balanced w)) w.
Proof.
  intros Hc Hu Hn. unfold map_userspace.
  assert (Hid : ∀ w', same_core w w' → k_trace w' = k_trace w →
    untouched w w' ∧ balanced w w').
  { intros w' Hs Ht. split; [by apply untouched_core|exists []; by rewrite app_nil_r]. }
  apply wp_bind, wp_guard; [intros _; by apply Hid|]. intros Hn1%bool_decide_eq_false.
  apply wp_bind. eapply wp_mono; [by apply create_descriptor_spec|].
  intros r1 w1 [[-> ->]|[-> ->]]; [|by apply Hid].
  set (m := k_next w). set (req := host_request cur ct vaddr n).
  apply wp_bind, (wp_upd_map m (new_map cur ct (align_down PAGE_SHIFT vaddr) n)); [apply lookup_insert_eq|].
  set (w1 := _ <| k_heap ::= _ |>).
  assert (Hw1 : same_core (alloc_map m req w) w1).
  { unfold w1, alloc_map. change (_ <| m_page_size := PAGE_SIZE |>) with req.
    etrans; [|apply (same_core_update (λ w, w <| k_heap ::= insert m req |>)
      (alloc_map m (new_map cur ct (align_down PAGE_SHIFT vaddr) n) w)); [done|core_eq]].
    unfold alloc_map. by rewrite heap_insert_insert. }
  apply wp_bind. eapply wp_mono.
  { apply (map_user_pages_spec m req); [apply lookup_insert_eq|apply host_request_blank; lia|done]. }
  intros r2 w2 (err & md & -> & Hs2 & Hreq & Hok & Hcase).
  assert (Hs : same_core (alloc_map m md w) w2).
  { etrans; [|exact Hs2]. etrans; [|apply (same_core_update (λ w, w <| k_heap ::= insert m md |>)
      (alloc_map m req w)); [done|exact Hw1]]. unfold alloc_map. by rewrite heap_insert_insert. }
  assert (Hmd : k_heap w2 !! m = Some md).
  { rewrite (map_of_core m _ _ Hs). apply lookup_insert_eq. }
  case_bool_decide as He.
  - apply wp_bind. eapply wp_mono; [apply (undo_host m md req w2 w); [done..|]|].
    { destruct Hcase as [?|(ps & j & Hd & Hr & _ & Ht & _)]; [by left|right; eauto]. }
    intros r3 w3 (-> & Hdrop & Hbal). apply wp_fail. split; [|done]. by eapply drop_alloc.
  - apply wp_bind, wp_modify, wp_ret. split; [done|]. exists md. split.
    { apply (same_core_update (reg_insert r m)); [by destruct r|done]. }
    split; [done|]. split; [done|]. split; [lia|].
    destruct Hcase as [[-> Ht]|(ps & j & Hd & Hr & Hle & Ht & Hj)].
    + split; [cbn; lia|]. left. split; [done|]. by destruct r.
    + split; [done|]. right. exists ps. split; [done|]. split; [done|].
      rewrite <- Hj by (by destruct (decide (err = 0))). by destruct r.
Qed.

Lemma reg_remove_insert r m w : reg_remove m (reg_insert r m w) = reg_remove m w.
Proof.
  unfold reg_remove, reg_insert. destruct r.
  - change (w <| host_list ::= (.++ [m]) |> <| host_list ::= without m |>)
      with (w <| host_list ::= λ l, without m (l ++ [m]) |>).
    by rewrite (host_list_ext _ (without m)) by apply without_snoc.
  - transitivity (w <| host_list ::= without m |>
      <| device_list ::= λ l, without m (l ++ [m]) |> <| device_queue_list ::= without m |>);
      [reflexivity|].
    by rewrite (device_list_ext _ (without m)) by apply without_snoc.
  - transitivity (w <| host_list ::= without m |> <| device_list ::= without m |>
      <| device_queue_list ::= λ l, without m (l ++ [m]) |>); [reflexivity|].
    by rewrite (device_queue_list_ext _ (without m)) by apply without_snoc.
Qed.

Lemma drop_reg_insert r m w : drop_map m (reg_insert r m w) = drop_map m w.
Proof. unfold drop_map. by rewrite reg_remove_insert. Qed.

Lemma drop_map_core m w w' : same_core w w' → same_core (drop_map m w) (drop_map m w').
Proof. by apply (same_core_update (drop_map m)). Qed.

(** Bus addresses DMA-mapped and unmapped by a trace. *)
Definition dma_maps (e : event) : list (pdevid * Z) :=
  match e with EvDmaMap p a => [(p, a)] | _ => [] end.
Definition dma_unmaps (e : event) : list (pdevid * Z) :=
  match e with EvDmaUnmap p a => [(p, a)] | _ => [] end.

Lemma dma_maps_fmap p l : (EvDmaMap p <$> l) ≫= dma_maps = pair p <$> l.
Proof. induction l as [|a l IH]; [done|]. cbn. by f_equal. Qed.
Lemma dma_unmaps_fmap p l : (EvDmaUnmap p <$> l) ≫= dma_unmaps = pair p <$> l.
Proof. induction l as [|a l IH]; [done|]. cbn. by f_equal. Qed.
Lemma bind_fmap_nil' {A B} (f : A → event) (g : event → list B) l :
  (∀ a, g (f a) = []) → (f <$> l) ≫= g = [].
Proof. intros H. induction l as [|a l IH]; [done|]. rewrite fmap_cons, bind_cons, H, IH. done. Qed.

(** ** Lookup *)
Definition hit (cur : task) (vaddr : Z) (md : map) : Prop :=
  m_owner md = cur ∧ (m_vaddr md = align_down PAGE_SHIFT vaddr
                      ∨ m_vaddr md = align_down GPU_PAGE_SHIFT vaddr).

Lemma map_find_in_spec cur vaddr l w :
  Forall (λ m, is_Some (k_heap w !! m)) l →
  wp (map_find_in cur vaddr l) (λ r w', w' = w ∧
    ((∃ m md l1 l2, r = Ok (Some m) ∧ l = l1 ++ m :: l2 ∧ k_heap w !! m = Some md
        ∧ hit cur vaddr md
        ∧ Forall (λ m', ∀ md', k_heap w !! m' = Some md' → ¬ hit cur vaddr md') l1)
     ∨ (r = Ok None
        ∧ Forall (λ m', ∀ md', k_heap w !! m' = Some md' → ¬ hit cur vaddr md') l))) w.
Proof.
  induction 1 as [|m l [md Hm] Hl IH]; cbn [map_find_in].
  { apply wp_ret. split; [done|]. by right. }
  apply wp_bind, (wp_the_map m md); [done|].
  destruct (bool_decide (m_owner md = cur) && _) eqn:Hb.
  - apply wp_ret. split; [done|]. left. exists m, md, [], l. repeat split; try done.
    + apply andb_prop in Hb as [Hb%bool_decide_eq_true _]. done.
    + apply andb_prop in Hb as [_ Hb]. apply orb_prop in Hb as [Hb|Hb];
        apply bool_decide_eq_true in Hb; auto.
  - assert (Hno : ¬ hit cur vaddr md).
    { intros [Ho Hv]. rewrite bool_decide_eq_true_2 in Hb by done. cbn in Hb.
      apply orb_false_elim in Hb as [H1%bool_decide_eq_false H2%bool_decide_eq_false].
      by destruct Hv. }
    eapply wp_mono; [apply IH|]. intros r w' [-> [(m' & md' & l1 & l2 & -> & -> & H1 & H2 & H3)|[-> HF]]];
      (split; [done|]).
    + left. exists m', md', (m :: l1), l2. repeat split; try done; try apply H2.
      constructor; [|done]. intros md'' Heq. by simplify_eq.
    + right. split; [done|]. constructor; [|done]. intros md'' Heq. by simplify_eq.
Qed.

(** ** Reclaim by owner *)
Definition victim (h : gmap mapid map) (owner : task) (m : mapid) : bool :=
  match h !! m with
  | Some md => bool_decide (m_owner md = owner) && bool_decide (m_group_id md = 0)
  | None => false
  end.

Definition victims (h : gmap mapid map) (owner : task) (l : list mapid) : list mapid :=
  filter (λ m, victim h owner m = true) l.

Definition registry_ok (r : registry) (w : kstate) : Prop :=
  NoDup (reg_get r w)
  ∧ Forall (λ m, ∃ md, k_heap w !! m = Some md ∧ release_ok md) (reg_get r w).

Lemma reg_get_core r w w' : same_core w w' → reg_get r w' = reg_get r w.
Proof. intros H. symmetry. apply (same_core_field (reg_get r)); [by destruct r|done]. Qed.

Lemma reg_get_drop r m w : reg_get r (drop_map m w) = without m (reg_get r w).
Proof. by destruct r. Qed.

Lemma drop_maps_core ms w w' : same_core w w' → same_core (drop_maps ms w) (drop_maps ms w').
Proof.
  revert w w'. induction ms as [|m ms IH]; intros w w' H; [done|]. cbn. by apply IH, drop_map_core.
Qed.

Lemma registry_ok_drop r m w w' :
  registry_ok r w → same_core (drop_map m w) w' → registry_ok r w'.
Proof.
  intros [Hnd HF] Hc. unfold registry_ok.
  rewrite (reg_get_core r _ _ Hc), reg_get_drop. split; [by apply NoDup_without|].
  rewrite Forall_forall in HF |- *. intros x [Hne Hx]%elem_of_without.
  destruct (HF x Hx) as (md & Hmd & Hok). exists md. split; [|done].
  rewrite (map_of_core x _ _ Hc). unfold drop_map. cbn. by rewrite lookup_delete_ne.
Qed.

Lemma victims_delete h owner m l :
  m ∉ l → victims (delete m h) owner l = victims h owner l.
Proof.
  intros Hm. apply filter_ext_in. intros x Hx. unfold victim.
  rewrite lookup_delete_ne; [done|]. by intros ->.
Qed.

Lemma purge_loop_spec fuel r owner dn todo freed w :
  reg_get r w = dn ++ todo → registry_ok r w → ctrls_ok w →
  Forall (λ m, victim (k_heap w) owner m = false) dn →
  let vs := victims (k_heap w) owner todo in
  (length todo + length vs * length (reg_get r w) < fuel)%nat →
  wp (purge_loop fuel r owner todo freed) (λ res w',
    res = Ok (freed + Z.of_nat (length vs)) ∧ same_core (drop_maps vs w) w'
    ∧ extends quiet w w') w.
Proof.
  revert dn todo freed w. induction fuel as [|fuel IH]; intros dn todo freed w Hl Hok Hcs Hdn vs Hf; [lia|].
  cbn [purge_loop]. destruct todo as [|m rest].
  { apply wp_ret. subst vs. cbn. rewrite Z.add_0_r. split; [done|]. split; [done|]. by apply extends_same. }
  pose proof Hok as [Hnd HF]. rewrite Hl in Hnd, HF.
  apply Forall_app in HF as [_ [(md & Hm & Hrel) _]%Forall_cons].
  apply wp_bind, (wp_the_map m md); [done|].
  assert (Hv : victim (k_heap w) owner m
               = bool_decide (m_owner md = owner) && bool_decide (m_group_id md = 0)).
  { unfold victim. by rewrite Hm. }
  rewrite <- Hv. destruct (victim (k_heap w) owner m) eqn:Hvm.
  - assert (Hvs : vs = m :: victims (k_heap w) owner rest).
    { subst vs. unfold victims. by rewrite filter_cons_True. }
    apply wp_bind. eapply wp_mono; [by apply (unmap_and_release_core m md)|].
    intros r1 w1 (-> & Hc & Ht). apply wp_bind, wp_gets.
    assert (Hrest : m ∉ dn ++ rest).
    { apply NoDup_app in Hnd as (_ & Hdis & [Hm1 _]%NoDup_cons). rewrite not_elem_of_app.
      split; [|done]. intros Hin. apply (Hdis m Hin). by left. }
    assert (Hl1 : reg_get r w1 = dn ++ rest).
    { rewrite (reg_get_core r _ _ Hc), reg_get_drop, Hl. by apply without_split. }
    assert (Hh1 : k_heap w1 = delete m (k_heap w)).
    { by rewrite <- (same_core_field k_heap _ _ (λ _, eq_refl) Hc). }
    assert (Hv1 : victims (k_heap w1) owner (reg_get r w1) = victims (k_heap w) owner rest).
    { rewrite Hh1, Hl1, victims_delete by done. unfold victims.
      by rewrite filter_app, filter_none. }
    eapply wp_mono; [apply (IH [] (reg_get r w1))|].
    + done.
    + by eapply registry_ok_drop.
    + by eapply ctrls_ok_core; [exact Hc|].
    + done.
    + rewrite Hv1. rewrite Hvs in Hf. cbn [length] in Hf. rewrite Hl, length_app in Hf.
      rewrite Hl1, length_app. cbn [length] in Hf. nia.
    + intros r2 w2 (-> & Hc2 & Ht2). rewrite Hv1 in *. rewrite Hvs. split; [f_equal; cbn; lia|].
      split; [|by etrans]. etrans; [|exact Hc2]. cbn. by apply drop_maps_core.
  - assert (Hvs : vs = victims (k_heap w) owner rest).
    { subst vs. unfold victims. by rewrite filter_cons_False by (by rewrite Hvm). }
    rewrite Hvs. apply (IH (dn ++ [m])); try done.
    + by rewrite <- app_assoc.
    + apply Forall_app. by repeat constructor.
    + rewrite Hvs in Hf. cbn in Hf. lia.
Qed.

(** Releasing a list of descriptors. *)
Lemma unmap_all_core ms w :
  NoDup ms → Forall (λ m, ∃ md, k_heap w !! m = Some md ∧ release_ok md) ms → ctrls_ok w →
  wp (for_each unmap_and_release ms)
    (λ r w', r = Ok tt ∧ same_core (drop_maps ms w) w' ∧ extends quiet w w') w.
Proof.
  revert w. induction ms as [|m ms IH]; intros w Hnd HF Hcs; cbn [for_each].
  { apply wp_ret. split; [done|]. split; [done|]. by apply extends_same. }
  apply NoDup_cons in Hnd as [Hm Hnd]. apply Forall_cons in HF as [(md & Hmd & Hok) HF].
  apply wp_bind. eapply wp_mono; [by apply (unmap_and_release_core m md)|].
  intros r w1 (-> & Hc & Ht). eapply wp_mono; [apply IH; [done| |by eapply ctrls_ok_core]|].
  - rewrite Forall_forall in HF |- *. intros x Hx. destruct (HF x Hx) as (md' & Hx' & Hok').
    exists md'. split; [|done]. rewrite (map_of_core x _ _ Hc). unfold drop_map. cbn.
    rewrite lookup_delete_ne; [done|]. by intros ->.
  - intros r w2 (-> & Hc2 & Ht2). split; [done|]. split; [|by etrans].
    etrans; [|exact Hc2]. cbn. by apply drop_maps_core.
Qed.

(** ** Theorems *)

(** Mapping host memory and releasing the mapping again is a round trip:
    registries, per-fd lists and heap are back to what they were, every page
    pinned in between was put back and every DMA mapping undone. *)
Lemma map_unmap_host_ok `{EOk : !EnvOk E} cur r c ct vaddr n w m w1 :
  k_ctrls w !! c = Some ct → unlisted (k_next w) w → k_heap w !! k_next w = None →
  map_userspace cur r c vaddr n w = (Ok m, w1) →
  wp (unmap_and_release m) (λ res w2,
    res = Ok tt ∧ untouched w w2
    ∧ ∃ tr, k_trace w2 = k_trace w ++ tr ∧ tr ≫= pins = tr ≫= puts
        ∧ tr ≫= dma_maps = tr ≫= dma_unmaps) w1.
Proof.
  intros Hc Hu Hn Hmap. pose proof (map_userspace_spec cur r c ct vaddr n w Hc Hu Hn) as H.
  unfold wp in H. rewrite Hmap in H. cbn in H.
  destruct H as (-> & md & Hs & Hreq & Hok & Hn1 & Hle & Hcase). set (m := k_next w) in *.
  assert (Hm : k_heap w1 !! m = Some md).
  { rewrite (map_of_core m _ _ Hs). destruct r; apply lookup_insert_eq. }
  assert (Hdrop : ∀ w2, same_core (drop_map m w1) w2 → untouched w w2).
  { intros w2 H2. apply (drop_alloc m md w (alloc_map m md w)); try done.
    etrans; [|exact H2]. rewrite <- (drop_reg_insert r). by apply drop_map_core. }
  destruct Hcase as [[Hd Ht]|(ps & Hd & Hr & Ht)].
  - eapply wp_eq; [by eapply unmap_blank|]. split; [done|]. split; [by apply Hdrop|].
    exists [EvReleaseMap m]. by rewrite emit_trace, drop_map_trace, Ht.
  - eapply wp_eq; [by apply (unmap_host_exact m md ps)|].
    split; [done|]. split; [by apply Hdrop|]. eexists. split.
    { rewrite emit_trace, drop_map_trace, Ht, <- app_assoc. reflexivity. }
    unfold host_mapping. rewrite !bind_app, !bind_cons, puts_fmap, dma_maps_fmap, dma_unmaps_fmap.
    rewrite !bind_fmap_nil' by done. cbn. by rewrite !app_nil_r.
Qed.

(** Map_find returns the first descriptor of the registry that the calling
    task owns and whose start is the address rounded down to a host or to a
    GPU page, so the address lies within one GPU page of it; it changes
    nothing and finds a descriptor whenever there is one. *)
Lemma map_find_ok cur r vaddr w :
  Forall (λ m, is_Some (k_heap w !! m)) (reg_get r w) →
  wp (map_find cur r vaddr) (λ res w', w' = w ∧
    ((∃ m md l1 l2, res = Ok (Some m) ∧ reg_get r w = l1 ++ m :: l2
        ∧ k_heap w !! m = Some md ∧ hit cur vaddr md
        ∧ m_vaddr md ≤ vaddr < m_vaddr md + GPU_PAGE_SIZE
        ∧ Forall (λ m', ∀ md', k_heap w !! m' = Some md' → ¬ hit cur vaddr md') l1)
     ∨ (res = Ok None
        ∧ Forall (λ m', ∀ md', k_heap w !! m' = Some md' → ¬ hit cur vaddr md') (reg_get r w)))) w.
Proof.
  intros HF. unfold map_find. apply wp_bind, wp_gets.
  eapply wp_mono; [by apply map_find_in_spec|].
  intros res w' [-> [(m & md & l1 & l2 & -> & Hl & Hm & Hh & HF')|H]]; (split; [done|]); [left|by right].
  exists m, md, l1, l2. do 4 (split; [done|]). split; [|done].
  pose proof (align_down_bounds PAGE_SHIFT vaddr ltac:(done)) as Hp.
  pose proof (align_down_bounds GPU_PAGE_SHIFT vaddr ltac:(done)) as Hg.
  change (2 ^ PAGE_SHIFT) with 4096 in Hp. change (2 ^ GPU_PAGE_SHIFT) with 65536 in Hg.
  change GPU_PAGE_SIZE with 65536. destruct Hh as [_ [-> | ->]]; lia.
Qed.

(** Reclaiming a dead task's maps terminates, releases exactly the
    descriptors of that registry that the task owns and that no group holds,
    returns their number, and touches no other descriptor. *)
Lemma map_purge_ok r owner w :
  registry_ok r w → ctrls_ok w →
  wp (map_purge_by_owner r owner) (λ res w',
    let vs := victims (k_heap w) owner (reg_get r w) in
    res = Ok (Z.of_nat (length vs)) ∧ same_core (drop_maps vs w) w' ∧ extends quiet w w') w.
Proof.
  intros Hok Hcs. unfold map_purge_by_owner. apply wp_bind, wp_gets.
  eapply wp_mono; [by apply (purge_loop_spec _ r owner [] (reg_get r w) 0 w);
    [..|unfold purge_fuel; pose proof (length_filter
       (λ m, victim (k_heap w) owner m = true) (reg_get r w)); unfold victims; nia]|].
  intros res w' (-> & Hs & Ht). by rewrite Z.add_0_l.
Qed.
End map_specs.
