(* ===== verification/MapGpu.v ===== *)
(** * MapGpu: the GPU mapping path of snvme/map.c, proved against the
    peer-memory interface

    [map_gpu_memory] and [map_device_memory] with any backend that satisfies
    [PeerMemoryOk], through Phoenix or through the backend itself. *)
From S2P Require Import Prelude.
From S2P Require Import Uapi.
From S2P Require Import Kernel.
From S2P Require Import Map.

Section map_gpu.
Context `{E : Env} `{P : PeerMemory} `{POk : !PeerMemoryOk P}.
Implicit Types (w : kstate).
(** Two updates of one descriptor in a row. *)
Lemma heap_insert_trans m md1 md2 w w1 w2 :
  same_core (w <| k_heap ::= insert m md1 |>) w1 →
  same_core (w1 <| k_heap ::= insert m md2 |>) w2 →
  same_core (w <| k_heap ::= insert m md2 |>) w2.
Proof.
  intros H1 H2. etrans; [|exact H2].
  apply (same_core_update (λ w, w <| k_heap ::= insert m md2 |>)) in H1; [|done].
  by rewrite heap_insert_insert in H1.
Qed.

Lemma heap_insert_core m md w w' :
  same_core (w <| k_heap ::= insert m md |>) w' → k_heap w' !! m = Some md.
Proof. intros H. rewrite (map_of_core m _ _ H). apply lookup_insert_eq. Qed.

(** The descriptor [m] went from [md] to some [md'] with [Q], and only mapping
    events were emitted. *)
Definition rewrites {A} (m : mapid) (Q : A → map → list event → Prop) (w : kstate)
    (r : outcome A) (w' : kstate) : Prop :=
  ∃ a md', r = Ok a ∧ same_core (w <| k_heap ::= insert m md' |>) w'
    ∧ extends quiet w w' ∧ Q a md' (k_trace w').

Lemma rewrites_trans {A} m (Q : A → map → list event → Prop) md1 w w1 r w' :
  same_core (w <| k_heap ::= insert m md1 |>) w1 → extends quiet w w1 →
  rewrites m Q w1 r w' → rewrites m Q w r w'.
Proof.
  intros H1 T1 (a & md' & -> & H2 & T2 & HQ). exists a, md'. split; [done|].
  split; [by eapply heap_insert_trans|]. split; [by etrans|done].
Qed.

(** Nothing happened but peer calls: the descriptor is still [md]. *)
Lemma rewrites_peer m md w w' :
  k_heap w !! m = Some md → same_core w w' → extends peer_event w w' →
  same_core (w <| k_heap ::= insert m md |>) w' ∧ extends quiet w w'.
Proof.
  intros Hm Hc Ht. rewrite heap_insert_id by done. split; [done|].
  by eapply extends_mono; [apply peer_quiet|].
Qed.

Lemma copy_addrs_from m src md i k w :
  k_heap w !! m = Some md → (i + k ≤ length src)%nat → (i + k ≤ length (m_addrs md))%nat →
  wp (for_each (λ i,
        a ← from_opt OutOfBounds (src !! i);
        md ← the_map m;
        match m_addrs md !! i with
        | None => crash OutOfBounds
        | Some _ => upd_map m (λ md, md <| m_addrs ::= insert i a |>)
        end) (seq i k))
    (λ r w', ∃ addrs, r = Ok tt ∧ length addrs = length (m_addrs md)
      ∧ take i addrs = take i (m_addrs md) ∧ take k (drop i addrs) = take k (drop i src)
      ∧ w' = w <| k_heap ::= insert m (md <| m_addrs := addrs |>) |>) w.
Proof.
  revert md i w. induction k as [|k IH]; intros md i w Hm Hs Ha; cbn [seq for_each].
  { apply wp_ret. exists (m_addrs md). repeat split; try done.
    rewrite heap_insert_id; [done|]. by destruct md. }
  destruct (lookup_lt_is_Some_2 src i ltac:(lia)) as [a Hsrc].
  destruct (lookup_lt_is_Some_2 (m_addrs md) i ltac:(lia)) as [x Hx].
  apply wp_bind, wp_bind, (wp_from_opt _ _ a); [done|].
  apply wp_bind, (wp_the_map m md); [done|]. rewrite Hx. apply (wp_upd_map m md); [done|].
  set (md1 := md <| m_addrs ::= insert i a |>).
  assert (Hlen : length (m_addrs md1) = length (m_addrs md)) by apply length_insert.
  eapply wp_mono; [apply (IH md1 (S i)); [apply lookup_insert_eq|lia|rewrite Hlen; lia]|].
  intros r w' (addrs & -> & Hl & Ht & Hd & ->). exists addrs. split; [done|].
  assert (Hat : addrs !! i = Some a).
  { rewrite <- (lookup_take_lt addrs (S i) i), Ht by lia. rewrite lookup_take_lt by lia.
    apply list_lookup_insert_eq. lia. }
  split; [congruence|]. split; [|split].
  - apply (f_equal (take i)) in Ht. rewrite !take_take, !Nat.min_l in Ht by lia. rewrite Ht.
    by apply take_insert_ge.
  - rewrite (drop_S addrs a i), (drop_S src a i) by done. cbn. by f_equal.
  - by rewrite heap_insert_insert.
Qed.

Lemma copy_addrs_spec m src md n w :
  k_heap w !! m = Some md → (n ≤ length src)%nat → (n ≤ length (m_addrs md))%nat →
  wp (copy_addrs m src n) (λ r w', ∃ addrs, r = Ok tt ∧ length addrs = length (m_addrs md)
    ∧ take n addrs = take n src
    ∧ w' = w <| k_heap ::= insert m (md <| m_addrs := addrs |>) |>) w.
Proof.
  intros Hm Hs Ha. eapply wp_mono; [by apply (copy_addrs_from m src md 0 n)|].
  intros r w' (addrs & -> & Hl & _ & Ht & ->). exists addrs. by rewrite !drop_0 in Ht.
Qed.

(** A GPU descriptor on the peer-memory path, asked for [n] pages. *)
Definition gpu_inv (req : map) (n : Z) (md : map) : Prop :=
  same_request req md ∧ m_n_addrs md = n ∧ m_release md = release_gpu_memory_fn
  ∧ ∃ gd, m_data md = DataGpu gd ∧ phx_handle gd = CNull ∧ init_cell (pages gd)
      ∧ (∀ ms, mappings gd = Some ms → length ms = max_num_ctrls ∧ Forall init_cell ms).

Definition gpu_mapped (req : map) (n : Z) (md : map) : Prop :=
  gpu_inv req n md ∧ ∃ gd ms, m_data md = DataGpu gd ∧ mappings gd = Some ms.

Lemma gpu_inv_release req n md :
  m_has_ctrl_list req = true → gpu_inv req n md → release_ok md.
Proof.
  intros Hh ((_ & _ & _ & Hl & _) & _ & Hr & gd & Hd & Hp & Hi & Hms).
  unfold release_ok. rewrite Hr, Hd. rewrite Hp. split; [congruence|]. by split.
Qed.

(** The devices of the listed controllers, in order. *)
Definition ctrl_devices (w : kstate) : list pdevid := omap (λ c, c_pdev <$> k_ctrls w !! c) (ctrl_list w).

(** Cell [i] of the mapping array holds a mapping made for device [i]. *)
Definition mapped_on (ds : list pdevid) (md : map) (tr : list event) : Prop :=
  ∃ gd ms, m_data md = DataGpu gd ∧ mappings gd = Some ms
    ∧ ∀ i d, ds !! i = Some d → ∃ dm, ms !! i = Some (CPtr dm) ∧ mapped_for d dm tr.

(** A finished GPU mapping: through Phoenix, or on every device. *)
Definition gpu_spread (ds : list pdevid) (md : map) (tr : list event) : Prop :=
  (∃ gd h, m_data md = DataGpu gd ∧ phx_handle gd = CPtr h) ∨ mapped_on ds md tr.

Lemma mapped_on_extends (Q : event → Prop) ds md w w' : extends Q w w' → mapped_on ds md (k_trace w) → mapped_on ds md (k_trace w').
Proof.
  intros (tr & -> & _) (gd & ms & Hd & Hms & H). exists gd, ms. split; [done|]. split; [done|]. intros i d Hi.
  destruct (H i d Hi) as (dm & ? & ?). exists dm. split; [done|]. by apply elem_of_app; left.
Qed.

Lemma gpu_spread_data ds md md' tr : m_data md' = m_data md → gpu_spread ds md tr → gpu_spread ds md' tr.
Proof. unfold gpu_spread, mapped_on. by intros ->. Qed.

Lemma gpu_spread_extends (Q : event → Prop) ds md w w' : extends Q w w' → gpu_spread ds md (k_trace w) → gpu_spread ds md (k_trace w').
Proof. intros He [H|H]; [by left|right]. by eapply mapped_on_extends. Qed.

Lemma ctrl_devices_core w w' : same_core w w' → ctrl_devices w' = ctrl_devices w.
Proof.
  intros H. unfold ctrl_devices.
  by rewrite <- (same_core_field k_ctrls _ _ (λ _, eq_refl) H), <- (same_core_field ctrl_list _ _ (λ _, eq_refl) H).
Qed.

Definition device_of (cs : gmap cid ctrl) (c : cid) (d : pdevid) : Prop := ∃ ct, cs !! c = Some ct ∧ c_pdev ct = d.

Lemma ctrl_devices_of w : ctrls_ok w → Forall2 (device_of (k_ctrls w)) (ctrl_list w) (ctrl_devices w).
Proof.
  intros [_ HF]. unfold ctrl_devices. induction HF as [|c cs [ct Hc] _ IH]; [constructor|]. cbn. rewrite Hc. cbn.
  constructor; [by exists ct|done].
Qed.

Lemma store_mapping_spec m req n md ds d dm w :
  k_heap w !! m = Some md → gpu_mapped req n md → (length ds < max_num_ctrls)%nat →
  mapped_on ds md (k_trace w) → mapped_for d dm (k_trace w) →
  wp (store_mapping m (length ds) dm) (rewrites m (λ _ md' tr, gpu_mapped req n md' ∧ mapped_on (ds ++ [d]) md' tr) w) w.
Proof.
  intros Hm ((Hreq & Hn & Hr & gd & Hd & Hp & Hi & Hms) & gd' & ms & Hd' & Hm') Hj (gd2 & ms2 & Hd2 & Hm2 & Hon) Hfor.
  assert (gd2 = gd) as -> by congruence. assert (ms2 = ms) as -> by congruence. clear Hd2 Hm2. set (j := length ds) in *.
  assert (gd' = gd) as -> by congruence. clear Hd'. destruct (Hms ms Hm') as [Hlen HF].
  unfold store_mapping. apply wp_bind, (wp_the_map m md); [done|]. rewrite Hd, Hm'.
  destruct (lookup_lt_is_Some_2 ms j ltac:(lia)) as [x ->].
  apply wp_bind, (wp_the_map m md); [done|]. rewrite Hd. apply (wp_upd_map m md); [done|].
  eexists tt, _. split; [done|]. split; [reflexivity|]. split; [by apply extends_same|].
  split; [split; [|by eexists _, _]|].
  2: { eexists _, _. split; [reflexivity|]. split; [reflexivity|]. cbn. intros i d' [Hi'|[Hge Hi']]%lookup_app_Some.
       - destruct (Hon i d' Hi') as (dm' & ? & ?). exists dm'. split; [|done]. apply lookup_lt_Some in Hi'.
         by rewrite list_lookup_insert_ne by (unfold j; lia).
       - apply list_lookup_singleton_Some in Hi' as [Hi' <-]. assert (i = j) as -> by (unfold j; lia). exists dm. split; [|done].
         apply list_lookup_insert_eq. lia. }
  split; [exact Hreq|]. split; [exact Hn|]. split; [exact Hr|].
  eexists. split; [reflexivity|]. split; [exact Hp|]. split; [exact Hi|].
  intros ms' [= <-]. rewrite length_insert. split; [done|].
  by apply Forall_insert.
Qed.

Lemma set_addrs_mapped req n md addrs :
  gpu_mapped req n md → length addrs = length (m_addrs md) →
  gpu_mapped req n (md <| m_addrs := addrs |>).
Proof.
  intros [((? & ? & ? & ? & ? & ? & ? & Hl) & ?) ?] Hlen.
  split; [|done]. split; [|done]. repeat split; try done. cbn. congruence.
Qed.

Lemma map_for_ctrls_spec m req n pt cs ds' ds md w :
  k_heap w !! m = Some md → gpu_mapped req n md → mapped_on ds md (k_trace w) → peer_pt pt n →
  m_page_size req = GPU_PAGE_SIZE → 0 ≤ n ≤ Z.of_nat (length (m_addrs req)) →
  Forall2 (device_of (k_ctrls w)) cs ds' → (length ds + length cs ≤ max_num_ctrls)%nat →
  wp (map_for_ctrls m pt cs (length ds))
    (rewrites m (λ (err : Z) md' tr, gpu_mapped req n md' ∧ (err = 0 → mapped_on (ds ++ ds') md' tr)) w) w.
Proof.
  intros Hm Hg Hon Hpt Hps Hn. revert ds' ds md w Hm Hg Hon.
  induction cs as [|c cs IH]; intros ds' ds md w Hm Hg Hon Hcs Hj; cbn [map_for_ctrls].
  { apply Forall2_nil_inv_l in Hcs as ->. rewrite app_nil_r. apply wp_ret. exists 0, md. rewrite heap_insert_id by done.
    by split; [|split; [|split; [apply extends_same|]]]. }
  apply Forall2_cons_inv_l in Hcs as (d1 & ds1 & (ct & Hc & Hcd) & Hcs & ->). cbn in Hj.
  apply wp_bind, (wp_the_ctrl c ct); [done|]. apply wp_bind, (wp_the_map m md); [done|].
  assert (Hpg : u32 (m_page_size md) = GPU_PAGE_SIZE).
  { destruct Hg as [((_ & _ & _ & _ & _ & _ & -> & _) & _) _]. by rewrite Hps. }
  rewrite Hpg, Hcd. apply wp_bind.
  destruct (peer_dma_map_ok d1 pt n Hpt w) as ([err dm] & w1 & Ecall & Hc1 & Ht1 & Hdm). eapply wp_eq; [exact Ecall|]. cbn in Hdm.
  destruct (rewrites_peer m md w w1 Hm Hc1 Ht1) as [Hs1 Hq1].
  case_bool_decide as He.
  { apply wp_ret. by exists err, md. }
  destruct (Hdm ltac:(lia)) as (d & -> & Hd & Hfor). pose proof (mapped_on_extends _ _ _ _ _ Ht1 Hon) as Hon1. apply wp_bind, (wp_from_opt _ _ d); [done|].
  eapply wp_mono.
  { apply wp_bind. eapply wp_mono; [apply (store_mapping_spec m req n md ds d1 d w1);
      [by apply (heap_insert_core m md w)|done|lia|done|done]|]. intros r2 w2 (u2 & md2 & -> & Hs2 & Hq2 & Hg2 & Hon2).
    apply wp_bind.
    assert (Hrest : ∀ md3 w3, same_core (w2 <| k_heap ::= insert m md3 |>) w3 →
      extends quiet w2 w3 → gpu_mapped req n md3 → m_data md3 = m_data md2 →
      wp (map_for_ctrls m pt cs (S (length ds)))
        (rewrites m (λ (err : Z) md' tr, gpu_mapped req n md' ∧ (err = 0 → mapped_on (ds ++ d1 :: ds1) md' tr)) w1) w3).
    { intros md3 w3 Hs3 Hq3 Hg3 Hd3. replace (S (length ds)) with (length (ds ++ [d1])) by (rewrite length_app; cbn; lia).
      rewrite (cons_middle d1 ds ds1), (app_assoc ds).
      eapply wp_mono; [apply (IH ds1 (ds ++ [d1]) md3); try done|].
      - by eapply heap_insert_core.
      - eapply mapped_on_extends; [exact Hq3|]. unfold mapped_on. by rewrite Hd3.
      - rewrite <- (same_core_field k_ctrls _ _ (λ _, eq_refl) Hs3). cbn.
        rewrite <- (same_core_field k_ctrls _ _ (λ _, eq_refl) Hs2). cbn.
        by rewrite <- (same_core_field k_ctrls _ _ (λ _, eq_refl) Hs1).
      - rewrite length_app. cbn. lia.
      - intros r4 w4 H4. eapply rewrites_trans; [exact Hs2|exact Hq2|].
        by eapply rewrites_trans. }
    apply wp_when; intros Hj0.
    - apply wp_bind. eapply wp_peer; [by apply (peer_addresses_ok _ n)|].
      intros l w3 Hc3 Ht3 Hl. cbv beta in Hl.
      assert (Hm2 : k_heap w2 !! m = Some md2) by (by eapply heap_insert_core).
      destruct (rewrites_peer m md2 w2 w3 Hm2 Hc3 Ht3) as [Hs3 Hq3].
      assert (Hreqn : length (m_addrs md2) = length (m_addrs req) ∧ m_n_addrs md = n)
        by (split; [apply Hg2|apply Hg]). destruct Hreqn as [Hlen Hmn].
      eapply wp_mono; [apply (copy_addrs_spec m l md2);
        [by eapply heap_insert_core|lia|lia]|].
      intros r4 w4 (addrs & -> & Hla & _ & ->).
      eapply (Hrest (md2 <| m_addrs := addrs |>)).
      + eapply heap_insert_trans; [exact Hs3|reflexivity].
      + exact Hq3.
      + by apply set_addrs_mapped.
      + done.
    - eapply (Hrest md2); [|by apply extends_same|done|done].
      rewrite heap_insert_id; [done|]. by eapply heap_insert_core. }
  intros r3 w3 H3. by eapply rewrites_trans.
Qed.

(** What every exit of the GPU mapping step leaves: a descriptor its release
    callback can undo. *)
Definition gpu_done (req : map) (n : Z) (md : map) : Prop :=
  same_request req md ∧ release_ok md ∧ 0 ≤ m_n_addrs md ≤ n.

(** The mapping step's answer: an error, or all devices served. *)
Definition gpu_result (req : map) (n : Z) (ds : list pdevid) (err : Z) (md : map) (tr : list event) : Prop :=
  gpu_done req n md ∧ (err = 0 → gpu_spread ds md tr).

Lemma gpu_inv_done req n md :
  m_has_ctrl_list req = true → 0 ≤ n → gpu_inv req n md → gpu_done req n md.
Proof.
  intros Hh Hn Hg. split; [apply Hg|]. split; [by eapply gpu_inv_release|].
  destruct Hg as (_ & -> & _). lia.
Qed.

Lemma gpu_inv_set_data req n md gd gd' :
  gpu_inv req n md → m_data md = DataGpu gd →
  phx_handle gd' = phx_handle gd → init_cell (pages gd') →
  (∀ ms, mappings gd' = Some ms → length ms = max_num_ctrls ∧ Forall init_cell ms) →
  gpu_inv req n (md <| m_data := DataGpu gd' |>).
Proof.
  intros (Hreq & Hn & Hr & gd0 & Hd & Hp & _) Hd' Hp' Hi Hms.
  assert (gd0 = gd) as -> by congruence.
  split; [exact Hreq|]. split; [exact Hn|]. split; [exact Hr|].
  exists gd'. split; [done|]. split; [congruence|]. by split.
Qed.

Lemma wp_upd_gd m md gd f (Q : outcome unit → kstate → Prop) w :
  k_heap w !! m = Some md → m_data md = DataGpu gd →
  Q (Ok tt) (w <| k_heap ::= insert m (md <| m_data := DataGpu (f gd) |>) |>) →
  wp (upd_gd m f) Q w.
Proof.
  intros Hm Hd HQ. apply wp_bind, (wp_the_map m md); [done|]. rewrite Hd.
  by apply (wp_upd_map m md).
Qed.

(** The facts about a request that the GPU path relies on. *)
Definition gpu_req (req : map) (n : Z) : Prop :=
  m_has_ctrl_list req = true ∧ m_page_size req = GPU_PAGE_SIZE
  ∧ 0 ≤ n ≤ Z.of_nat (length (m_addrs req)) ∧ GPU_PAGE_SIZE * n < 2 ^ 64.

(** Leaving with a descriptor that satisfies the invariant. *)
Lemma gpu_stop m req n ds md w (e : Z) w' :
  gpu_req req n → e ≠ 0 → same_core (w <| k_heap ::= insert m md |>) w' →
  extends quiet w w' → gpu_inv req n md →
  wp (mret e) (rewrites m (gpu_result req n ds) w) w'.
Proof.
  intros (Hh & _ & Hn & _) He Hs Hq Hg'. apply wp_ret. exists e, md.
  split; [done|]. split; [done|]. split; [done|]. split; [apply gpu_inv_done; [done|lia|done]|by intros ?].
Qed.

Lemma gpu_bytes req n :
  gpu_req req n → u64 (GPU_PAGE_SIZE * n) = GPU_PAGE_SIZE * n ∧ GPU_PAGE_SIZE * n / GPU_PAGE_SIZE = n.
Proof.
  intros (_ & _ & Hn & Hov). split.
  - apply wrap_small. unfold GPU_PAGE_SIZE, GPU_PAGE_SHIFT in *. lia.
  - rewrite Z.mul_comm. by apply Z.div_mul.
Qed.

Lemma map_gpu_spread_spec m req n md pt w :
  k_heap w !! m = Some md → gpu_mapped req n md → ctrls_ok w → gpu_req req n → peer_pt pt n →
  wp (map_gpu_spread m pt) (rewrites m (gpu_result req n (ctrl_devices w)) w) w.
Proof.
  intros Hm Hg Hcs Hreq Hpt. pose proof Hcs as [Hlen HF]. pose proof Hreq as (Hh & Hps & Hn & Hov).
  destruct Hg as [Hg (gd & ms & Hd & Hms)].
  unfold map_gpu_spread. apply wp_bind, (wp_upd_gd m md gd); [done..|].
  set (md2 := md <| m_data := _ |>).
  assert (Hg2 : gpu_mapped req n md2).
  { split; [|by eexists _, _]. eapply gpu_inv_set_data; try done.
    destruct Hg as (_ & _ & _ & gd' & Hd' & _ & _ & Hms').
    assert (gd' = gd) as -> by congruence. exact Hms'. }
  apply wp_bind, wp_gets, wp_bind. eapply wp_mono.
  { apply (map_for_ctrls_spec m req n pt _ (ctrl_devices w) [] md2); try done; [apply lookup_insert_eq| |exact (ctrl_devices_of w Hcs)].
    eexists _, ms. split; [reflexivity|]. split; [exact Hms|]. by intros i d. }
  intros r3 w3 H3. eapply rewrites_trans in H3; [|reflexivity|by apply extends_same].
  destruct H3 as (err3 & md3 & -> & Hs3 & Hq3 & Hg3 & Hon3).
  case_bool_decide as He3; [by eapply gpu_stop; [..|apply Hg3]|].
  apply wp_bind. eapply wp_peer; [by apply (peer_entries_ok _ n)|].
  intros k w4 Hc4 Ht4 Hk. cbv beta in Hk.
  pose proof (heap_insert_core _ _ _ _ Hs3) as Hm3.
  destruct (rewrites_peer m md3 w3 w4 Hm3 Hc4 Ht4) as [Hs4 Hq4].
  apply wp_bind, (wp_upd_map m md3); [by eapply heap_insert_core|]. apply wp_ret.
  exists 0, (md3 <| m_n_addrs := k |>). split; [done|].
  split; [eapply heap_insert_trans; [exact Hs3|]; by eapply heap_insert_trans|].
  split; [etrans; [exact Hq3|exact Hq4]|].
  split; [|intros _; right; eapply (mapped_on_extends _ _ _ w3); [exact Hq4|]; apply Hon3; lia].
  destruct Hg3 as [Hg3 _]. pose proof (gpu_inv_release _ _ _ Hh Hg3) as Hrel.
  destruct Hg3 as (Hreq3 & _ & Hr3 & _). split; [exact Hreq3|]. split; [|done].
  unfold release_ok in *. cbn. rewrite Hr3 in *. exact Hrel.
Qed.

Lemma map_gpu_normal_spec m req n md w :
  k_heap w !! m = Some md → gpu_inv req n md → ctrls_ok w → gpu_req req n →
  wp (map_gpu_normal m) (rewrites m (gpu_result req n (ctrl_devices w)) w) w.
Proof.
  intros Hm Hg Hcs Hreq. pose proof Hg as (_ & Hmn & _ & gd & Hd & Hp & Hpg & _).
  destruct (gpu_bytes req n Hreq) as [Hu Hdiv].
  unfold map_gpu_normal. apply wp_bind, wp_kalloc. set (w0 := w <| k_tick := _ |>).
  destruct (env_alloc _); cbn [negb];
    [|eapply gpu_stop; [done|done|rewrite heap_insert_id by done; core_eq|by apply extends_same|done]].
  apply wp_bind, (wp_upd_gd m md gd); [done..|].
  set (gd1 := gd <| mappings := _ |>). set (md1 := md <| m_data := _ |>).
  assert (Hg1 : gpu_inv req n md1).
  { eapply gpu_inv_set_data; try done. intros ms [= <-]. split; [done|]. by repeat constructor. }
  apply wp_bind, (wp_the_map m md1); [apply lookup_insert_eq|].
  change (m_n_addrs md1) with (m_n_addrs md). rewrite Hmn, Hu.
  apply wp_bind. eapply wp_peer; [apply peer_get_pages_ok|].
  intros [err pt] w1 Hc1 Ht1 Hpt. cbn in Hpt. rewrite Hdiv in Hpt.
  assert (Hs1 : same_core (w <| k_heap ::= insert m md1 |>) w1) by (etrans; [|exact Hc1]; core_eq).
  assert (Hq1 : extends quiet w w1) by (apply (extends_mono _ _ w w1 peer_quiet Ht1)).
  case_bool_decide as He; [by eapply gpu_stop|].
  destruct (Hpt ltac:(lia)) as (p & -> & Hpt'). apply wp_bind, (wp_from_opt _ _ p); [done|].
  eapply wp_mono; [apply (map_gpu_spread_spec m req n md1); try done|].
  - by eapply heap_insert_core.
  - split; [done|]. by eexists _, _.
  - by apply (ctrls_ok_core _ w1 Hs1).
  - intros r w' H. change (ctrl_devices w) with (ctrl_devices (w <| k_heap ::= insert m md1 |>)).
    rewrite <- (ctrl_devices_core _ _ Hs1). by eapply rewrites_trans.
Qed.

(** A registration with the Phoenix service answers the request. *)
Lemma phx_done req n md h addrs k :
  gpu_inv req n md → gpu_req req n → length addrs = length (m_addrs md) → 0 ≤ k ≤ n →
  (∃ gd, m_data md = DataGpu gd ∧ mappings gd = None) →
  gpu_done req n (md <| m_data := DataGpu (mk_gpu_region CNull None (CPtr h)) |>
                     <| m_n_addrs := k |> <| m_addrs := addrs |>).
Proof.
  intros ((? & ? & ? & Hh & ? & ? & ? & Hla) & _ & Hr & _) (Hh' & _) Hl Hk _.
  split; [repeat split; try done; cbn; congruence|]. split; [|done].
  unfold release_ok. cbn. rewrite Hr. split; [congruence|]. by split.
Qed.

Lemma map_gpu_memory_spec `{EOk : !EnvOk E} m req n md w :
  k_heap w !! m = Some md → same_request req md → m_n_addrs md = n → ctrls_ok w → gpu_req req n →
  m_data md = DataNull →
  wp (map_gpu_memory m) (rewrites m (gpu_result req n (ctrl_devices w)) w) w.
Proof.
  intros Hm Hsr Hmn Hcs Hreq Hdn. pose proof Hreq as (Hh & Hps & Hn & Hov).
  destruct (gpu_bytes req n Hreq) as [Hu Hdiv].
  unfold map_gpu_memory. apply wp_bind, wp_kalloc. set (w0 := w <| k_tick := _ |>).
  destruct (env_alloc _); cbn [negb].
  2: { apply wp_ret. exists (- ENOMEM), md. split; [done|]. rewrite heap_insert_id by done.
       split; [core_eq|]. split; [by apply extends_same|]. split; [|done]. split; [done|].
       split; [by unfold release_ok; rewrite Hdn; destruct (m_release md)|]. lia. }
  apply wp_bind, (wp_upd_map m md); [done|].
  set (md1 := md <| m_page_size := _ |> <| m_data := _ |> <| m_release := _ |>).
  assert (Hg1 : gpu_inv req n md1).
  { destruct Hsr as (? & ? & ? & ? & ? & ? & ? & ?). split; [by repeat split; cbn; congruence|].
    split; [done|]. split; [done|]. by eexists. }
  set (w1 := w0 <| k_heap ::= _ |>).
  assert (Hnormal : ∀ w', same_core w1 w' → k_trace w' = k_trace w →
    wp (map_gpu_normal m) (rewrites m (gpu_result req n (ctrl_devices w)) w) w').
  { intros w' Hc Ht.
    assert (Hs : same_core (w <| k_heap ::= insert m md1 |>) w') by (etrans; [|exact Hc]; core_eq).
    eapply wp_mono; [apply (map_gpu_normal_spec m req n md1); try done|].
    - by eapply heap_insert_core.
    - by eapply ctrls_ok_core.
    - intros r w2 H. rewrite (ctrl_devices_core _ _ Hs) in H. eapply rewrites_trans; [done|by apply extends_same|done]. }
  apply wp_bind, wp_gets. destruct (phx_register_fn w1); [|by apply Hnormal].
  apply wp_bind, (wp_the_map m md1); [apply lookup_insert_eq|]. apply wp_bind, wp_tick.
  change (m_n_addrs md1) with (m_n_addrs md). rewrite Hmn, Hu.
  assert (Hpos : 0 ≤ GPU_PAGE_SIZE * n) by (destruct Hreq as (_ & _ & ? & _); unfold GPU_PAGE_SIZE; lia).
  pose proof (phx_count (k_tick w1) (m_vaddr md1) (GPU_PAGE_SIZE * n) Hpos) as Hcnt. rewrite Hdiv in Hcnt.
  destruct (env_phx _ _ _) as [[err [h|]] ioaddrs]; [|by apply Hnormal]. cbn in Hcnt.
  case_bool_decide; [|by apply Hnormal].
  apply wp_bind, wp_log, wp_bind, (wp_upd_gd m md1 (mk_gpu_region CNull None CNull));
    [apply lookup_insert_eq|done|].
  set (md2 := md1 <| m_data := _ |>).
  apply wp_bind, (wp_upd_map m md2); [apply lookup_insert_eq|].
  set (md3 := md2 <| m_n_addrs := _ |>). apply wp_bind.
  eapply wp_mono; [apply (copy_addrs_spec m ioaddrs md3); [apply lookup_insert_eq|done|]|].
  { destruct Hsr as (_ & _ & _ & _ & _ & _ & _ & Hl). change (m_addrs md3) with (m_addrs md). lia. }
  intros r w' (addrs & -> & Hl & _ & ->). apply wp_ret.
  exists 0, (md3 <| m_addrs := addrs |>). split; [done|]. rewrite !heap_insert_insert.
  split; [eapply (heap_insert_trans m md1); [|reflexivity]; core_eq|].
  split; [eexists; split; [reflexivity|]; by repeat constructor|].
  split; [|intros _; left; by eexists _, h].
  apply (phx_done req n md1 h addrs); try done; [lia|]. by eexists.
Qed.

Definition gpu_request (cur : task) (ct : ctrl) (vaddr n : Z) : map :=
  (new_map cur ct (align_down GPU_PAGE_SHIFT vaddr) n)
    <| m_page_size := GPU_PAGE_SIZE |> <| m_has_ctrl_list := true |>.

Lemma gpu_request_ok cur ct vaddr n :
  1 ≤ n → GPU_PAGE_SIZE * n < 2 ^ 64 → gpu_req (gpu_request cur ct vaddr n) n.
Proof. intros Hn Hov. repeat split; try done; [lia|]. cbn. rewrite length_replicate. lia. Qed.

(** NVM_MAP_DEVICE_MEMORY's mapping step, with at most eight controllers
    and a GPU backend that keeps its promises: it either registers one new
    descriptor at the 64 KiB-aligned address, pinned by Phoenix or mapped on
    the device of every listed controller, that its release callback can
    undo, or leaves registries, per-fd lists and heap as they were.  It never
    faults and issues no admin command. *)
Lemma map_device_memory_spec `{EOk : !EnvOk E} cur r c ct vaddr n w :
  k_ctrls w !! c = Some ct → unlisted (k_next w) w → k_heap w !! k_next w = None →
  ctrls_ok w → GPU_PAGE_SIZE * n < 2 ^ 64 →
  wp (map_device_memory cur r c vaddr n)
    (mapped r (gpu_request cur ct vaddr n) w
       (λ md w', 1 ≤ n ∧ 0 ≤ m_n_addrs md ≤ n ∧ extends quiet w w' ∧ gpu_spread (ctrl_devices w) md (k_trace w'))
       (extends quiet w)) w.
Proof.
  intros Hc Hu Hn Hcs Hov. unfold map_device_memory.
  assert (Hid : ∀ w', same_core w w' → k_trace w' = k_trace w →
    untouched w w' ∧ extends quiet w w').
  { intros w' Hs Ht. split; [by apply untouched_core|by apply extends_same]. }
  apply wp_bind, wp_guard; [intros _; by apply Hid|]. intros Hn1%bool_decide_eq_false.
  apply wp_bind. eapply wp_mono; [by apply create_descriptor_spec|].
  intros r1 w1 [[-> ->]|[-> ->]]; [|by apply Hid].
  set (m := k_next w). set (req := gpu_request cur ct vaddr n).
  apply wp_bind, (wp_upd_map m (new_map cur ct (align_down GPU_PAGE_SHIFT vaddr) n));
    [apply lookup_insert_eq|].
  set (w1 := _ <| k_heap ::= _ |>).
  assert (Hw1 : same_core (w <| k_next := S m |> <| k_heap ::= insert m req |>) w1).
  { eapply (heap_insert_trans m); [|reflexivity]. core_eq. }
  apply wp_bind. eapply wp_mono.
  { apply (map_gpu_memory_spec m req n req); try done; [apply lookup_insert_eq|].
    apply gpu_request_ok; lia. }
  intros r2 w2 (err & md & -> & Hs2 & Hq & (Hreq & Hok & Hle) & Hspread).
  assert (Hs : same_core (alloc_map m md w) w2) by (by eapply heap_insert_trans).
  case_bool_decide as He.
  - apply wp_bind. eapply wp_mono.
    { apply (unmap_and_release_core m md); [by eapply heap_insert_core|done|].
      by eapply (ctrls_ok_core _ _ Hs). }
    intros r3 w3 (-> & Hdrop & Ht). apply wp_fail. split; [by eapply drop_alloc|].
    etrans; [exact Hq|exact Ht].
  - apply wp_bind, wp_modify, wp_ret. split; [done|]. exists md. split.
    { apply (same_core_update (reg_insert r m)); [by destruct r|done]. }
    split; [done|]. split; [done|]. split; [lia|]. split; [done|]. split; [by destruct r|].
    assert (err = 0) as E0 by lia. by destruct r; apply Hspread.
Qed.

(** ** Forced reclaim *)

(** Releasing a descriptor whose data is already gone. *)
Lemma unmap_cleared m md w0 w :
  k_heap w0 !! m = Some md → ctrls_ok w0 → extends quiet w0 w →
  same_core (w0 <| k_heap ::= insert m (md <| m_data := DataNull |>) |>) w →
  wp (unmap_and_release m) (λ r w', r = Ok tt ∧ same_core (drop_map m w0) w' ∧ extends quiet w0 w') w.
Proof.
  intros Hm Hcs Ht Hc. set (md' := md <| m_data := DataNull |>).
  eapply wp_mono; [apply (unmap_and_release_core m md')|].
  - rewrite (map_of_core m _ _ Hc). apply lookup_insert_eq.
  - unfold release_ok. cbn. by destruct (m_release md).
  - apply (ctrls_ok_core _ _ Hc). exact Hcs.
  - intros r w' (-> & Hs & Ht'). split; [done|]. split; [|by etrans]. etrans; [|exact Hs].
    etrans; [|by apply drop_map_core]. unfold drop_map, same_core. f_equal.
    trans ((link_del m (reg_remove m w0)) <| k_heap ::= insert m md' |> <| k_heap ::= delete m |>); [|reflexivity].
    by rewrite heap_delete_insert.
Qed.

Lemma force_release_core m md w :
  k_heap w !! m = Some md → m_release md = release_gpu_memory_fn → release_ok md → ctrls_ok w →
  wp (force_release_gpu_memory m)
    (λ r w', r = Ok tt ∧ same_core (drop_map m w) w' ∧ extends quiet w w') w.
Proof.
  intros Hm Hr Hok Hcs. unfold force_release_gpu_memory. apply wp_bind, (wp_the_map m md); [done|].
  pose proof Hok as Hok'. unfold release_ok in Hok'. rewrite Hr in Hok'.
  destruct (m_data md) as [|ps|gd] eqn:Hd; [by apply (unmap_and_release_core m md)|done|].
  destruct Hok' as (Hl & Hphx & Hpg & Hms).
  destruct (phx_handle gd) as [| |h] eqn:Hp; [done| |].
  - apply wp_bind. eapply wp_mono; [by apply release_mappings_spec|].
    intros r w1 (-> & Hc & Ht). apply wp_prefix2.
    eapply wp_mono; [by apply (put_and_clear_spec peer_free_page_table _ m md w1 w);
      [intros; apply peer_free_pt_ok|..]|].
    intros r w2 (-> & Hc2 & Ht2). split; [done|]. by apply (unmap_cleared m md).
  - apply wp_bind. eapply wp_mono; [apply (release_gpu_memory_spec m md); congruence|].
    intros r w2 (-> & Hc2 & Ht2). by apply (unmap_cleared m md).
Qed.

Lemma force_release_ioqueue_core m md w :
  k_heap w !! m = Some md → m_release md = release_gpu_ioqueue_memory_fn → release_ok md → ctrls_ok w →
  wp (force_release_gpu_ioqueue_memory m)
    (λ r w', r = Ok tt ∧ same_core (drop_map m w) w' ∧ extends quiet w w') w.
Proof.
  intros Hm Hr Hok Hcs. unfold force_release_gpu_ioqueue_memory. apply wp_bind, (wp_the_map m md); [done|].
  pose proof Hok as Hok'. unfold release_ok in Hok'. rewrite Hr in Hok'.
  destruct (m_data md) as [|ps|gd] eqn:Hd; [by apply (unmap_and_release_core m md)|done|].
  destruct Hok' as (Hpg & Hms).
  apply wp_bind. eapply wp_mono; [by apply release_ioqueue_mapping_spec|].
  intros r w1 (-> & Hc & Ht). apply wp_prefix2.
  eapply wp_mono; [by apply (put_and_clear_spec peer_free_page_table _ m md w1 w);
    [intros; apply peer_free_pt_ok|..]|].
  intros r w2 (-> & Hc2 & Ht2). split; [done|]. by apply (unmap_cleared m md).
Qed.
End map_gpu.
