(* ===== verification/Ctrl.v ===== *)
(** * Ctrl: controllers and their character devices (snvme/ctrl.c)

    A [struct ctrl] embeds its cdev, so it lives until the last reference to
    the cdev's kobject is dropped: the base reference taken by [cdev_init] and
    one per open file. *)
From S2P Require Import Prelude.
From S2P Require Import Uapi.
From S2P Require Import Kernel.
From stdpp Require Import pretty.
Open Scope Z_scope.

(** MKDEV / MAJOR / MINOR: a 12-bit major above a 20-bit minor. *)
Definition MKDEV (ma mi : Z) : Z := Z.lor (Z.shiftl ma 20) mi.
Definition MAJOR (dev : Z) : Z := Z.shiftr dev 20.
Definition MINOR (dev : Z) : Z := Z.land dev (2 ^ 20 - 1).

Section ctrl.
Context `{E : Env}.

(** ctrl_get: a new descriptor at the end of the controller list. *)
Definition ctrl_get (pdev : pdevid) (number : Z) : K cid :=
  ok ← kalloc;
  guard_err (negb ok) ENOMEM;;
  c ← gets k_next;
  modify (λ w, w <| k_next := S c |>
    <| k_ctrls ::= insert c
         (mk_ctrl pdev ("ssnvme" +:+ pretty number) number 0 false zero_setup
            None 0 0 0 []) |>
    <| ctrl_list ::= (.++ [c]) |>);;
  mret c.

(** list_remove(&ctrl->list) *)
Definition ctrl_list_remove (c : cid) : K unit :=
  modify (λ w, w <| ctrl_list ::= without c |>).

(** ctrl_cdev_release: detach every inode still on cdev.list, then free. *)
Definition ctrl_cdev_release (c : cid) : K unit :=
  ct ← the_ctrl c;
  for_each (λ i,
    modify (λ w, w <| k_inodes ::= insert i None |>);;
    upd_ctrl c (λ ct, ct <| c_inodes ::= without i |>)) (c_inodes ct);;
  modify (λ w, w <| k_ctrls ::= delete c |>).

(** kobject_put(&ctrl->cdev.kobj) *)
Definition kobject_put (c : cid) : K unit :=
  ct ← the_ctrl c;
  if bool_decide (c_kref ct = 1) then ctrl_cdev_release c
  else upd_ctrl c (λ ct, ct <| c_kref ::= Z.pred |>).

(** cdev_init: the base reference, an empty inode list. *)
Definition cdev_init (c : cid) : K unit :=
  upd_ctrl c (λ ct, ct <| c_kref := 1 |> <| c_inodes := [] |>).

Definition cdev_del (c : cid) : K unit := kobject_put c.

Definition ctrl_chrdev_create (c : cid) : K unit :=
  ct ← the_ctrl c;
  if c_chrdev ct then mret tt else
  major ← gets k_major;
  upd_ctrl c (λ ct, ct <| c_rdev := MKDEV major (c_number ct) |>);;
  cdev_init c;;
  t ← tick;
  let err := env_cdev_add t in
  if bool_decide (err ≠ 0) then
    ctrl_list_remove c;; kobject_put c;; fail (- err)
  else
  t ← tick;
  let err := env_device_create t in
  if bool_decide (err ≠ 0) then
    ctrl_list_remove c;; cdev_del c;; fail (- err)
  else
  upd_ctrl c (λ ct, ct <| c_chrdev := true |>).

Definition ctrl_chrdev_remove (c : cid) : K unit :=
  ct ← the_ctrl c;
  when (c_chrdev ct)
    (upd_ctrl c (λ ct, ct <| c_chrdev := false |>);; cdev_del c).

Definition ctrl_put (c : cid) : K unit :=
  the_ctrl c;; ctrl_list_remove c;; ctrl_chrdev_remove c.

Fixpoint ctrl_find (f : cid → ctrl → bool) (cs : list cid) : K (option cid) :=
  match cs with
  | [] => mret None
  | c :: cs =>
      ct ← the_ctrl c;
      if f c ct then mret (Some c) else ctrl_find f cs
  end.

Definition ctrl_find_by_pci_dev (pdev : pdevid) : K (option cid) :=
  cs ← gets ctrl_list;
  ctrl_find (λ _ ct, bool_decide (c_pdev ct = pdev)) cs.

Definition ctrl_find_by_inode (inode : nat) : K (option cid) :=
  cs ← gets ctrl_list;
  inodes ← gets k_inodes;
  ctrl_find (λ c _, bool_decide (inodes !! inode = Some (Some c))) cs.
End ctrl.
