(* ===== verification/Qgroup.v ===== *)
(** * Qgroup: user queues and per-fd queue groups (snvme/snvm_qgroup.c)

    The admin commands behind a user queue, the "is this controller ours and
    up" check, and the teardown of a queue group: delete its queues on the
    controller, then release its maps, then its id. *)
From S2P Require Import Prelude.
From S2P Require Import Uapi.
From S2P Require Import Kernel.
From S2P Require Import QidPool.
From S2P Require Import Map.

Definition PCI_DRIVER_NAME : string := "snvme".
Definition NVME_QUEUE_PHYS_CONTIG : Z := 1.
Definition NVME_REG_DBS : Z := 0x1000.

Section qgroup.
Context `{E : Env} `{P : PeerMemory}.

(** snvme_submit_sync_cmd on the admin queue: 0, a negative errno or a
    positive NVMe status. *)
Definition snvme_submit_sync_cmd (cmd : admin_cmd) : K Z :=
  t ← tick;
  let rc := env_admin t cmd in
  log (EvAdmin cmd rc);;
  mret rc.

Definition adapter_alloc_cq_user (dev : nvme_dev) (q_map : mapid) (qid : Z) : K Z :=
  md ← the_map q_map;
  prp1 ← from_opt OutOfBounds (m_addrs md !! 0%nat);
  snvme_submit_sync_cmd
    (CreateCQ (u16 qid) (u64 prp1) (u16 (q_depth dev - 1)) (u16 NVME_QUEUE_PHYS_CONTIG) (u16 0)).

Definition adapter_alloc_sq_user (dev : nvme_dev) (q_map : mapid) (qid : Z) : K Z :=
  md ← the_map q_map;
  prp1 ← from_opt OutOfBounds (m_addrs md !! 0%nat);
  snvme_submit_sync_cmd
    (CreateSQ (u16 qid) (u64 prp1) (u16 (q_depth dev - 1)) (u16 NVME_QUEUE_PHYS_CONTIG) (u16 qid)).

Definition adapter_delete_cq (cqid : Z) : K Z := snvme_submit_sync_cmd (DeleteCQ (u16 cqid)).
Definition adapter_delete_sq (sqid : Z) : K Z := snvme_submit_sync_cmd (DeleteSQ (u16 sqid)).

(** The nvme_dev behind a controller, if snvme owns the device and its admin
    queue is up. *)
Definition live_ndev (pd : pci_dev) : option nvme_dev :=
  match pd_driver pd with
  | Some (Some name) =>
      if bool_decide (name = PCI_DRIVER_NAME) then
        match pd_drvdata pd with
        | Some ndev => if nd_admin_q ndev then Some ndev else None
        | None => None
        end
      else None
  | _ => None
  end.

Definition snvm_ctrl_get_live_ndev (c : option cid) : K (option nvme_dev) :=
  match c with
  | None => mret None
  | Some c =>
      ct ← the_ctrl c;
      pd ← the_pdev (c_pdev ct);
      mret (live_ndev pd)
  end.

(** find_qgroup_locked: the position of the first group with that id (which
    stands for the pointer) and the group. *)
Definition find_qgroup_locked (own : snvm_dev_owner) (group_id : Z) : option (nat * snvm_qgroup) :=
  if bool_decide (group_id = 0) then None
  else list_find (λ g, g_group_id g = group_id) (own_groups own).

(** One iteration of the drain loop, on slot [uq]. *)
Definition drain_queue (ndev : option nvme_dev) (c : option cid) (uq : snvm_user_queue) : K unit :=
  when (uq_alive uq)
    (match ndev with
     | Some _ => adapter_delete_sq (uq_qid uq);; adapter_delete_cq (uq_qid uq);; mret tt
     | None => mret tt
     end;;
     match c with
     | Some c => with_ctrl c (snvm_user_qid_free_locked (uq_qid uq))
     | None => mret tt
     end).

(** destroy_qgroup_locked: [g] is already off its owner's list. *)
Definition destroy_qgroup_locked (g : snvm_qgroup) (c : option cid) : K unit :=
  ndev ← snvm_ctrl_get_live_ndev c;
  for_each (λ i, uq ← from_opt OutOfBounds (g_queues g !! (i - 1)%nat); drain_queue ndev c uq)
    (rev (seq 1 (Z.to_nat NVM_MAX_QUEUES_PER_GROUP)));;
  for_each unmap_and_release (g_maps g);;
  modify (λ w, w <| snvm_queue_group_ida ::= (.∖ {[g_group_id g]}) |>);;
  log (EvFreeGroup (g_group_id g)).
End qgroup.

(** ** Specifications *)

Definition is_admin (e : event) : Prop := match e with EvAdmin _ _ => True | _ => False end.

(** The admin commands of a trace, and the pair that deletes a queue. *)
Definition admin_of (e : event) : list admin_cmd := match e with EvAdmin c _ => [c] | _ => [] end.
Definition delete_pair (qid : Z) : list admin_cmd := [DeleteSQ (u16 qid); DeleteCQ (u16 qid)].

Lemma quiet_no_admin tr : Forall quiet tr → tr ≫= admin_of = [].
Proof. induction 1 as [|e tr He _ IH]; [done|]. rewrite bind_cons, IH. by destruct e. Qed.

(** The user queues of a group, in the order it tears them down. *)
Definition alive_qids (slots : list snvm_user_queue) : list Z :=
  uq_qid <$> filter (λ u, uq_alive u = true) slots.

(** The admin commands of a step, and what it leaves of the bookkeeping. *)
Definition issues (cmds : list admin_cmd) (w w' : kstate) : Prop :=
  ∃ tr, k_trace w' = k_trace w ++ tr ∧ Forall is_admin tr ∧ tr ≫= admin_of = cmds.

Lemma issues_nil w w' : k_trace w' = k_trace w → issues [] w w'.
Proof. intros H. exists []. by rewrite app_nil_r. Qed.

Lemma issues_app c1 c2 w w1 w2 : issues c1 w w1 → issues c2 w1 w2 → issues (c1 ++ c2) w w2.
Proof.
  intros (t1 & H1 & F1 & <-) (t2 & H2 & F2 & <-). exists (t1 ++ t2).
  rewrite H2, H1, app_assoc, bind_app. split; [done|]. split; [by apply Forall_app|done].
Qed.

Section qgroup_specs.
Context `{E : Env} `{P : PeerMemory} `{POk : !PeerMemoryOk P}.
Implicit Types (w : kstate).

Lemma wp_submit cmd (Q : outcome Z → kstate → Prop) w :
  (∀ rc w', same_core w w' → issues [cmd] w w' → Q (Ok rc) w') →
  wp (snvme_submit_sync_cmd cmd) Q w.
Proof.
  intros HQ. apply wp_bind, wp_tick, wp_bind, wp_log, wp_ret, HQ; [done|].
  eexists. split; [reflexivity|]. by repeat constructor.
Qed.

Lemma wp_delete_pair qid (Q : outcome unit → kstate → Prop) w :
  (∀ w', same_core w w' → issues (delete_pair qid) w w' → Q (Ok tt) w') →
  wp (adapter_delete_sq qid;; adapter_delete_cq qid;; mret tt) Q w.
Proof.
  intros HQ. apply wp_bind, wp_submit. intros _ w1 H1 I1.
  apply wp_bind, wp_submit. intros _ w2 H2 I2. apply wp_ret, HQ; [by etrans|].
  by apply (issues_app [_] [_] w w1 w2).
Qed.

Lemma wp_with_ctrl {A} c ct (m : M ctrl A) r ct' (Q : outcome A → kstate → Prop) w :
  k_ctrls w !! c = Some ct → m ct = (r, ct') →
  Q r (w <| k_ctrls ::= insert c ct' |>) → wp (with_ctrl c m) Q w.
Proof. intros Hc Hm HQ. unfold wp, with_ctrl. by rewrite Hc, Hm. Qed.

(** Updates of the controller table, up to the core. *)
Lemma ctrl_insert_id c ct w : k_ctrls w !! c = Some ct → w <| k_ctrls ::= insert c ct |> = w.
Proof. intros H. destruct w. unfold set, set_k_ctrls. cbn in *. by rewrite insert_id. Qed.

Lemma ctrl_insert_trans c ct1 ct2 w w1 w2 :
  same_core (w <| k_ctrls ::= insert c ct1 |>) w1 →
  same_core (w1 <| k_ctrls ::= insert c ct2 |>) w2 →
  same_core (w <| k_ctrls ::= insert c ct2 |>) w2.
Proof.
  intros H1 H2. etrans; [|exact H2].
  apply (same_core_update (λ w, w <| k_ctrls ::= insert c ct2 |>)) in H1; [|done].
  etrans; [|exact H1]. unfold same_core. f_equal. unfold set, set_k_ctrls. cbn.
  by rewrite insert_insert_eq.
Qed.

Lemma ctrl_insert_core c ct w w' :
  same_core (w <| k_ctrls ::= insert c ct |>) w' → k_ctrls w' !! c = Some ct.
Proof.
  intros H. rewrite <- (same_core_field k_ctrls _ _ (λ _, eq_refl) H). apply lookup_insert_eq.
Qed.

(** Step 1 of the teardown: for every live queue Delete SQ then Delete CQ
    (while snvme owns the controller), and its id back to the pool. *)
Lemma drain_queues_spec ndev c ct slots w :
  k_ctrls w !! c = Some ct → (alive_qids slots = [] ∨ ∃ bm, pool_ok ct bm) →
  wp (for_each (drain_queue ndev (Some c)) slots) (λ r w', r = Ok tt ∧ ∃ ct',
    same_core (w <| k_ctrls ::= insert c ct' |>) w' ∧ pool_after ct (alive_qids slots) ct'
    ∧ issues (match ndev with Some _ => alive_qids slots ≫= delete_pair | None => [] end) w w') w.
Proof.
  revert ct w. induction slots as [|u slots IH]; intros ct w Hc Hp; cbn [for_each].
  { apply wp_ret. split; [done|]. exists ct. rewrite ctrl_insert_id by done.
    split; [done|]. split; [apply pool_after_nil|]. destruct ndev; by apply issues_nil. }
  unfold alive_qids in *. destruct (uq_alive u) eqn:Ha.
  2: { rewrite filter_cons_False in Hp |- * by congruence. apply wp_bind.
       unfold drain_queue at 1. rewrite Ha. by apply wp_ret, IH. }
  rewrite filter_cons_True in Hp |- * by done. rewrite fmap_cons in *.
  destruct Hp as [?|[bm Hok]]; [done|].
  destruct (qid_free_ok ct bm (uq_qid u) Hok) as (ct1 & Hfree & Haf).
  destruct (proj1 (proj2 (proj2 Haf)) bm Hok) as [bm1 Hok1].
  apply wp_bind. unfold drain_queue at 1. rewrite Ha. cbn [when].
  assert (Hnext : ∀ w1 cmds, same_core w w1 → issues cmds w w1 →
    wp (with_ctrl c (snvm_user_qid_free_locked (uq_qid u)))
      (λ r w2, match r with
        | Ok _ => wp (for_each (drain_queue ndev (Some c)) slots) (λ r w', r = Ok tt ∧ ∃ ct',
            same_core (w <| k_ctrls ::= insert c ct' |>) w'
            ∧ pool_after ct (uq_qid u :: (uq_qid <$> filter (λ u, uq_alive u = true) slots)) ct'
            ∧ issues (cmds ++ match ndev with
                | Some _ => (uq_qid <$> filter (λ u, uq_alive u = true) slots) ≫= delete_pair
                | None => [] end) w w') w2
        | _ => False end) w1).
  { intros w1 cmds H1 I1. eapply wp_with_ctrl; [|exact Hfree|].
    { by rewrite <- (same_core_field k_ctrls _ _ (λ _, eq_refl) H1). }
    eapply wp_mono; [apply (IH ct1); [apply lookup_insert_eq|by right; eauto]|].
    intros r w3 (-> & ct2 & H3 & A3 & I3). split; [done|]. exists ct2. split; [|split].
    - eapply ctrl_insert_trans; [|exact H3].
      by apply (same_core_update (λ w, w <| k_ctrls ::= insert c ct1 |>)).
    - by eapply pool_after_cons.
    - by eapply issues_app; [exact I1|]. }
  apply wp_bind. destruct ndev as [nd|].
  - apply wp_delete_pair. intros w1 H1 I1.
    eapply wp_mono; [by apply (Hnext w1 (delete_pair (uq_qid u)))|]. intros [[]|e|f] w2 H2; done.
  - apply wp_ret. eapply wp_mono; [by apply (Hnext w []), issues_nil|]. intros [[]|e|f] w2 H2; done.
Qed.

(** The index loop [for (i = n; i > 0; i--) slots[i - 1]] visits the array
    back to front. *)
Lemma for_each_down {S A} (f : A → M S unit) (l : list A) s :
  for_each (λ i, x ← from_opt OutOfBounds (l !! (i - 1)%nat); f x) (rev (seq 1 (length l))) s
  = for_each f (rev l) s.
Proof.
  enough (Hgen : ∀ l1 l2, for_each (λ i, x ← from_opt OutOfBounds ((l1 ++ l2) !! (i - 1)%nat); f x)
      (rev (seq 1 (length l1))) s = for_each f (rev l1) s).
  { specialize (Hgen l []). by rewrite app_nil_r in Hgen. }
  intros l1. revert s. induction l1 as [|x l1 IH] using rev_ind; intros s l2; [done|].
  rewrite length_app, Nat.add_comm. cbn [length Nat.add].
  rewrite seq_S, !rev_app_distr. cbn [rev app for_each]. rewrite <- app_assoc. cbn [app].
  unfold mbind at 1 4, M_bind at 1 4. unfold mbind at 1, M_bind at 1.
  replace (1 + length l1 - 1)%nat with (length l1) by lia.
  rewrite list_lookup_middle by done. cbn.
  destruct (f x s) as [[[]|e|g] s']; [|done|done]. apply IH.
Qed.

(** What a teardown leaves of the bookkeeping. *)
Definition destroyed (g : snvm_qgroup) (c : cid) (ct' : ctrl) (w : kstate) : kstate :=
  (drop_maps (g_maps g) (w <| k_ctrls ::= insert c ct' |>))
    <| snvm_queue_group_ida ::= (.∖ {[g_group_id g]}) |>.

(** A group a teardown can be run on. *)
Record group_ok (w : kstate) (g : snvm_qgroup) (ct : ctrl) : Prop := {
  group_slots : Z.of_nat (length (g_queues g)) = NVM_MAX_QUEUES_PER_GROUP;
  group_maps_nodup : NoDup (g_maps g);
  group_maps_ok : Forall (λ m, ∃ md, k_heap w !! m = Some md ∧ release_ok md) (g_maps g);
  group_pool : alive_qids (rev (g_queues g)) = [] ∨ ∃ bm, pool_ok ct bm;
}.

(** The trace of a teardown: admin commands, then map releases, then the
    group itself. *)
Definition teardown_trace (g : snvm_qgroup) (live : bool) (w w' : kstate) : Prop :=
  ∃ adm mp, k_trace w' = k_trace w ++ adm ++ mp ++ [EvFreeGroup (g_group_id g)]
    ∧ Forall is_admin adm
    ∧ adm ≫= admin_of = (if live then alive_qids (rev (g_queues g)) ≫= delete_pair else [])
    ∧ Forall quiet mp.

Lemma get_live_spec c ct pd w :
  k_ctrls w !! c = Some ct → k_pdevs w !! c_pdev ct = Some pd →
  snvm_ctrl_get_live_ndev (Some c) w = (Ok (live_ndev pd), w).
Proof.
  intros Hc Hp. unfold snvm_ctrl_get_live_ndev, the_ctrl, the_pdev, mbind, M_bind, gets. cbn.
  rewrite Hc. cbn. by rewrite Hp.
Qed.

Lemma destroy_qgroup_ok g c ct pd w :
  k_ctrls w !! c = Some ct → k_pdevs w !! c_pdev ct = Some pd →
  group_ok w g ct → ctrls_ok w →
  wp (destroy_qgroup_locked g (Some c)) (λ r w', r = Ok tt ∧ ∃ ct',
    pool_after ct (alive_qids (rev (g_queues g))) ct' ∧ same_core (destroyed g c ct' w) w'
    ∧ teardown_trace g (bool_decide (is_Some (live_ndev pd))) w w') w.
Proof.
  intros Hc Hp [Hslots Hnd HF Hpool] [Hlen Hcs]. unfold destroy_qgroup_locked.
  apply wp_bind. eapply wp_eq; [by apply (get_live_spec c ct pd)|].
  apply wp_bind. replace (Z.to_nat NVM_MAX_QUEUES_PER_GROUP) with (length (g_queues g)) by lia.
  unfold wp at 1. rewrite for_each_down. eapply wp_mono; [by apply (drain_queues_spec _ c ct)|].
  intros r w1 (-> & ct' & H1 & A1 & (adm & T1 & F1 & I1)). apply wp_bind.
  eapply wp_mono; [apply unmap_all_core; [done| |]|].
  - by rewrite <- (same_core_field k_heap _ _ (λ _, eq_refl) H1).
  - apply (ctrls_ok_core _ _ H1). split; [done|]. eapply Forall_impl; [exact Hcs|].
    intros x Hx. cbn. destruct (decide (x = c)) as [->|Hne].
    + by rewrite lookup_insert_eq.
    + by rewrite lookup_insert_ne.
  - intros r w2 (-> & H2 & (mp & T2 & F2)). apply wp_bind, wp_modify, wp_log.
    split; [done|]. exists ct'. split; [done|]. split.
    + etrans; [|apply (same_core_update (λ w, w <| snvm_queue_group_ida ::= (.∖ {[g_group_id g]}) |>));
        [done|etrans; [|exact H2]; by apply drop_maps_core]]. done.
    + exists adm, mp. split; [unfold set, set_k_trace; cbn; by rewrite T2, T1, <- !app_assoc|].
      split; [done|]. split; [|done]. rewrite I1. by destruct (live_ndev pd).
Qed.
End qgroup_specs.
