(* ===== verification/DevIoctl.v ===== *)
(** * DevIoctl: the /dev/ssnvme<N> file operations (snvme/snvm_dev_ioctl.c)

    open, release, mmap and every case of the ioctl dispatcher but
    NVM_ADD_USER_QUEUE, which is in [AddQueue].  A handler returns the ioctl's
    return value and what it copied out; [Err e] is [return -e]. *)
From S2P Require Import Prelude.
From S2P Require Import Uapi.
From S2P Require Import Kernel.
From S2P Require Import QidPool.
From S2P Require Import Map.
From S2P Require Import MapGpu.
From S2P Require Import Ctrl.
From S2P Require Import Qgroup.

(** What the user's argument holds, read as each of the request types. *)
Record uarg : Type := mk_uarg {
  arg_map : nvm_ioctl_map;
  arg_u64 : Z;
  arg_u32 : Z;
  arg_group : nvm_ioctl_queue_group;
  arg_add : nvm_ioctl_add_user_queue;
}.

(** What a handler wrote to user memory. *)
Inductive uout : Type :=
  | OutNone
  | OutAddrs (addrs : list Z)
  | OutDev (d : nvm_ioctl_dev)
  | OutGroup (g : nvm_ioctl_queue_group)
  | OutAdd (a : nvm_ioctl_add_user_queue).

Definition NVME_IOCTL_ADMIN_CMD : Z := 0xC0484E41.
Definition NVME_IOCTL_ADMIN64_CMD : Z := 0xC0504E47.

Section dev_ioctl.
Context `{E : Env} `{P : PeerMemory}.

(** Reading and updating [file->private_data]. *)
Definition the_owner (fd : fdid) : K (option snvm_dev_owner) :=
  fl ← the_file fd; mret (private_data fl).

(** [*g] for the group at position [i] of this fd's list. *)
Definition upd_group (fd : fdid) (i : nat) (f : snvm_qgroup → snvm_qgroup) : K unit :=
  upd_owner fd (λ own, own <| own_groups ::= alter f i |>).

(** ** NVM_MAP_HOST_MEMORY and NVM_MAP_DEVICE_MEMORY *)

Definition check_map_request (req : nvm_ioctl_map) : K unit :=
  guard_err (negb (forallb (λ x, bool_decide (x = 0)) (map_reserved0 req))) EINVAL;;
  guard_err (bool_decide (NVM_MAP_KIND_DATA < map_kind req)) EINVAL;;
  guard_err ((bool_decide (map_kind req = NVM_MAP_KIND_RING_SQ)
              || bool_decide (map_kind req = NVM_MAP_KIND_RING_CQ))
             && bool_decide (req_group_id req = 0)) EINVAL.

(** Route the new map: fd-scoped data buffer, group member, or neither. *)
Definition attach_map (fd : fdid) (req : nvm_ioctl_map) (m : mapid) : K unit :=
  if bool_decide (map_kind req = NVM_MAP_KIND_DATA) then
    own ← the_owner fd;
    match own with
    | None => unmap_and_release m;; fail ENODEV
    | Some _ =>
        upd_owner fd (λ own, own <| own_data_maps ::= (.++ [m]) |>
                                 <| own_nr_data_maps ::= λ n, u32 (n + 1) |>)
    end
  else if bool_decide (req_group_id req ≠ 0) then
    own ← the_owner fd;
    match own with
    | None => unmap_and_release m;; fail ENODEV
    | Some own =>
        match find_qgroup_locked own (req_group_id req) with
        | None => unmap_and_release m;; fail ENOENT
        | Some (i, _) =>
            upd_map m (λ md, md <| m_group_id := req_group_id req |>);;
            upd_group fd i (λ g, g <| g_maps ::= (.++ [m]) |>
                                   <| g_nr_maps ::= λ n, u32 (n + 1) |>)
        end
    end
  else mret tt.

(** copy_to_user failed: roll the counter back and release the map. *)
Definition detach_map (fd : fdid) (req : nvm_ioctl_map) (m : mapid) : K unit :=
  own ← the_owner fd;
  match own with
  | None => mret tt
  | Some own =>
      if bool_decide (map_kind req = NVM_MAP_KIND_DATA) then
        upd_owner fd (λ own, own <| own_nr_data_maps ::= λ n, if bool_decide (0 < n) then n - 1 else n |>)
      else if bool_decide (req_group_id req ≠ 0) then
        match find_qgroup_locked own (req_group_id req) with
        | None => mret tt
        | Some (i, _) => upd_group fd i (λ g, g <| g_nr_maps ::= λ n, u32 (n - 1) |>)
        end
      else mret tt
  end;;
  unmap_and_release m.

(** The n_addrs words at [map->addrs]. *)
Definition map_addrs (md : map) : option (list Z) :=
  if bool_decide (m_n_addrs md ≤ Z.of_nat (length (m_addrs md)))
  then Some (take (Z.to_nat (m_n_addrs md)) (m_addrs md)) else None.

(** After the type-specific mapping step: tag, attach, copy out. *)
Definition finish_map (fd : fdid) (req : nvm_ioctl_map) (m : mapid) : K (Z * uout) :=
  upd_map m (λ md, md <| m_kind := map_kind req |>);;
  attach_map fd req m;;
  md ← the_map m;
  addrs ← from_opt OutOfBounds (map_addrs md);
  left ← copy_to_user;
  if bool_decide (left ≠ 0) then detach_map fd req m;; fail EFAULT
  else mret (0, OutAddrs addrs).

Definition ioctl_map_host (cur : task) (fd : fdid) (c : cid) (req : nvm_ioctl_map) : K (Z * uout) :=
  copy_from_user;;
  check_map_request req;;
  m ← map_userspace cur HostList c (vaddr_start req) (n_pages req);
  finish_map fd req m.

Definition ioctl_map_device (cur : task) (fd : fdid) (c : cid) (req : nvm_ioctl_map) : K (Z * uout) :=
  copy_from_user;;
  check_map_request req;;
  m ← map_device_memory cur DeviceList c (vaddr_start req) (n_pages req);
  finish_map fd req m.

(** ** NVM_UNMAP_* *)

(** The counter bookkeeping before unmap_and_release, on this fd's owner. *)
Definition unmap_counters (fd : fdid) (m : mapid) : K unit :=
  own ← the_owner fd;
  md ← the_map m;
  match own with
  | None => mret tt
  | Some own =>
      if bool_decide (m_kind md = NVM_MAP_KIND_DATA) then
        upd_owner fd (λ own, own <| own_nr_data_maps ::= λ n, if bool_decide (0 < n) then n - 1 else n |>)
      else if bool_decide (m_group_id md ≠ 0) then
        match find_qgroup_locked own (m_group_id md) with
        | None => mret tt
        | Some (i, _) =>
            upd_group fd i (λ g, g <| g_nr_maps ::= λ n, if bool_decide (0 < n) then n - 1 else n |>)
        end
      else mret tt
  end.

Definition ioctl_unmap (cur : task) (fd : fdid) (r : registry) (addr : Z) : K (Z * uout) :=
  copy_from_user;;
  found ← map_find cur r addr;
  match found with
  | None => fail EINVAL
  | Some m => unmap_counters fd m;; unmap_and_release m;; mret (0, OutNone)
  end.

(** NVM_UNMAP_DEVICE_QUEUE_MEMORY keeps no counters. *)
Definition ioctl_unmap_queue (cur : task) (addr : Z) : K (Z * uout) :=
  copy_from_user;;
  found ← map_find cur DeviceQueueList addr;
  match found with
  | None => fail EINVAL
  | Some m => unmap_and_release m;; mret (0, OutNone)
  end.

(** ** NVM_GET_DEV_INFO *)

(** snvme_find_get_ns(&ndev->ctrl, 1) *)
Definition find_get_ns : K (option (list Z * Z)) := t ← tick; mret (env_ns t).

(** [while (!ns && wait_ms < 5000) { wait_ms += 50; ns = find }] *)
Fixpoint ns_wait (fuel : nat) (ns : option (list Z * Z)) (wait_ms : Z) : K (option (list Z * Z)) :=
  match ns with
  | Some _ => mret ns
  | None =>
      if bool_decide (wait_ms < 5000) then
        match fuel with
        | O => crash OutOfFuel
        | S fuel => ns ← find_get_ns; ns_wait fuel ns (wait_ms + 50)
        end
      else mret None
  end.

Definition ns_wait_fuel : nat := 100.

Definition dev_info (ndev : nvme_dev) (pd : pci_dev) (name : list Z) (lba_shift : Z) : nvm_ioctl_dev :=
  mk_nvm_ioctl_dev
    (online_user_queues ndev)
    (if bool_decide (user_start_qid ndev ≠ 0) then user_start_qid ndev else online_queues ndev)
    (u8 (db_stride ndev))
    (u64 (Z.shiftl (max_hw_sectors ndev) 9))
    (u32 (Z.shiftl 1 lba_shift))
    (take (Z.to_nat DISK_NAME_LEN) name)
    (u16 (q_depth ndev))
    0
    (u32 (pd_bar0_len pd))
    (ctrl_max_io_queues ndev)
    NVM_MAX_QUEUES_PER_GROUP
    (sgls ndev)
    TUTTI_SNVME_ABI_VERSION
    TUTTI_SNVME_CAP_ALL
    [0; 0; 0].

Definition ioctl_get_dev_info (c : cid) : K (Z * uout) :=
  ct ← the_ctrl c;
  pd ← the_pdev (c_pdev ct);
  match pd_drvdata pd with
  | None => fail EFAULT
  | Some ndev =>
      ns ← find_get_ns;
      ns ← match ns with
           | Some _ => mret ns
           | None => ns ← find_get_ns; ns_wait ns_wait_fuel ns 0
           end;
      match ns with
      | None => fail EFAULT
      | Some (name, lba_shift) =>
          left ← copy_to_user;
          if bool_decide (left ≠ 0) then fail EFAULT
          else mret (0, OutDev (dev_info ndev pd name lba_shift))
      end
  end.

(** ** Queue groups *)

Definition new_qgroup (gid : Z) : snvm_qgroup :=
  mk_qgroup gid NVM_MAX_QUEUES_PER_GROUP [] 0
    (replicate (Z.to_nat NVM_MAX_QUEUES_PER_GROUP) (mk_uq 0 false)) 0.

(** list_del(&g->link); own->nr_groups-- *)
Definition unlink_group (fd : fdid) (i : nat) : K unit :=
  upd_owner fd (λ own, own <| own_groups ::= delete i |>
                           <| own_nr_groups ::= λ n, u32 (n - 1) |>).

Definition ioctl_create_group (fd : fdid) (c : cid) (req : nvm_ioctl_queue_group) : K (Z * uout) :=
  own ← the_owner fd;
  match own with
  | None => fail ENODEV
  | Some own =>
      copy_from_user;;
      guard_err (bool_decide (qg_flags req ≠ 0)) EINVAL;;
      guard_err (negb (forallb (λ x, bool_decide (x = 0)) (qg_reserved req))) EINVAL;;
      guard_err (bool_decide (NVM_MAX_GROUPS_PER_FD ≤ own_nr_groups own)) EBUSY;;
      ok ← kalloc;
      guard_err (negb ok) ENOMEM;;
      t ← tick;
      ids ← gets snvm_queue_group_ida;
      let new_id := env_ida t ids 1 in
      guard_err (bool_decide (new_id < 0)) (- new_id);;
      modify (λ w, w <| snvm_queue_group_ida ::= ({[new_id]} ∪.) |>);;
      let g := new_qgroup (u32 new_id) in
      upd_owner fd (λ own, own <| own_groups ::= (.++ [g]) |>
                               <| own_nr_groups ::= λ n, u32 (n + 1) |>);;
      left ← copy_to_user;
      if bool_decide (left ≠ 0) then
        unlink_group fd (length (own_groups own));;
        destroy_qgroup_locked g (Some c);;
        fail EFAULT
      else mret (0, OutGroup (mk_nvm_ioctl_queue_group (g_group_id g) (qg_flags req)
                                (g_max_queues g) (qg_reserved req)))
  end.

Definition ioctl_destroy_group (fd : fdid) (c : cid) (group_id : Z) : K (Z * uout) :=
  own ← the_owner fd;
  match own with
  | None => fail ENODEV
  | Some own =>
      copy_from_user;;
      guard_err (bool_decide (group_id = 0)) EINVAL;;
      match find_qgroup_locked own group_id with
      | None => fail ENOENT
      | Some (i, g) =>
          unlink_group fd i;;
          destroy_qgroup_locked g (Some c);;
          mret (0, OutNone)
      end
  end.

(** ** NVM_SET_KERNEL_IOQ_CAP *)
Definition ioctl_set_cap (c : cid) (cap : Z) : K (Z * uout) :=
  copy_from_user;;
  upd_ctrl c (λ ct, ct <| c_setup ::= λ s, s <| setup_cap_kernel_ioq := cap |>
                                             <| setup_valid := 1 |> |>);;
  mret (0, OutNone).

(** ** The default case: admin pass-through *)
Definition ioctl_default (fd : fdid) (c : cid) (cmd : Z) : K (Z * uout) :=
  if bool_decide (cmd = NVME_IOCTL_ADMIN_CMD) || bool_decide (cmd = NVME_IOCTL_ADMIN64_CMD) then
    ndev ← snvm_ctrl_get_live_ndev (Some c);
    match ndev with
    | None => fail ENODEV
    | Some _ =>
        fl ← the_file fd;
        t ← tick;
        mret (env_passthru t cmd (f_mode_write fl), OutNone)
    end
  else fail EINVAL.

(** ** mmap, open, release *)
Definition svm_mmap_registers (fd : fdid) (vm_start vm_end : Z) : K Z :=
  fl ← the_file fd;
  found ← ctrl_find_by_inode (f_inode fl);
  match found with
  | None => fail EBADF
  | Some c =>
      ct ← the_ctrl c;
      pd ← the_pdev (c_pdev ct);
      guard_err (bool_decide (pd_bar0_len pd < u64 (vm_end - vm_start))) EINVAL;;
      t ← tick;
      mret (env_iomap t (pd_bar0_start pd) (u64 (vm_end - vm_start)))
  end.

Definition snvm_dev_open (cur : task) (inode : nat) (fd : fdid) : K unit :=
  found ← ctrl_find_by_inode inode;
  match found with
  | None => fail ENODEV
  | Some c =>
      ok ← kalloc;
      guard_err (negb ok) ENOMEM;;
      upd_file fd (λ fl, fl <| private_data := Some (mk_owner c cur [] 0 [] 0) |>)
  end.

(** Pass 0 of release: destroy the fd's groups, front to back. *)
Fixpoint destroy_groups (fd : fdid) (c : cid) (gs : list snvm_qgroup) : K unit :=
  match gs with
  | [] => mret tt
  | g :: gs =>
      upd_owner fd (λ own, own <| own_groups ::= tail |>);;
      destroy_qgroup_locked g (Some c);;
      destroy_groups fd c gs
  end.

Definition snvm_dev_release (fd : fdid) : K unit :=
  own ← the_owner fd;
  match own with
  | None => mret tt
  | Some own =>
      destroy_groups fd (own_ctrl own) (own_groups own);;
      upd_owner fd (λ own, own <| own_nr_groups := 0 |>);;
      for_each unmap_and_release (own_data_maps own);;
      upd_owner fd (λ own, own <| own_nr_data_maps := 0 |>);;
      map_purge_by_owner HostList (own_owner own);;
      map_purge_by_owner DeviceList (own_owner own);;
      map_purge_by_owner DeviceQueueList (own_owner own);;
      upd_file fd (λ fl, fl <| private_data := None |>)
  end.
End dev_ioctl.
