(* ===== verification/AddQueue.v ===== *)
(** * AddQueue: NVM_ADD_USER_QUEUE and the ioctl dispatcher
    (snvme/snvm_dev_ioctl.c)

    The handler in the stages the code has: validate the batch, check the
    controller and the group, resolve every pair of ring addresses to maps of
    the group, take queue ids, create the queues on the controller, commit them
    to the group, copy the answer out; with the two roll-back paths. *)
From S2P Require Import Prelude.
From S2P Require Import Uapi.
From S2P Require Import Kernel.
From S2P Require Import QidPool.
From S2P Require Import Map.
From S2P Require Import MapGpu.
From S2P Require Import Ctrl.
From S2P Require Import Qgroup.
From S2P Require Import DevIoctl.

Section add_queue.
Context `{E : Env} `{P : PeerMemory}.

(** ** Validation *)

(** The pairs below [i] that clash with pair [p]. *)
Definition pair_clash (p q : nvm_user_queue_pair_in) : bool :=
  bool_decide (sq_vaddr p = sq_vaddr q) || bool_decide (cq_vaddr p = cq_vaddr q).

Definition pair_bad (p : nvm_user_queue_pair_in) : bool :=
  bool_decide (sq_vaddr p = 0) || bool_decide (cq_vaddr p = 0)
  || bool_decide (sq_vaddr p = cq_vaddr p).

(** The duplicate-detection loop: [seen] are the pairs [0..i). *)
Fixpoint pairs_ok (seen todo : list nvm_user_queue_pair_in) : bool :=
  match todo with
  | [] => true
  | p :: todo =>
      negb (pair_bad p) && negb (existsb (pair_clash p) seen) && pairs_ok (seen ++ [p]) todo
  end.

(** The first nr_pairs entries of the request. *)
Definition batch (req : nvm_ioctl_add_user_queue) : list nvm_user_queue_pair_in :=
  take (Z.to_nat (nr_pairs req)) (pairs req).

Definition check_add_request (req : nvm_ioctl_add_user_queue) : K unit :=
  guard_err (bool_decide (auq_flags req ≠ 0)) EINVAL;;
  guard_err (negb (forallb (λ x, bool_decide (x = 0)) (auq_reserved req))) EINVAL;;
  guard_err (bool_decide (nr_pairs req = 0)
             || bool_decide (NVM_MAX_QUEUES_PER_GROUP < nr_pairs req)) EINVAL;;
  guard_err (negb (pairs_ok [] (batch req))) EINVAL.

(** ** Resolving ring addresses *)

Definition ring_mask (md : map) (vaddr : Z) : Z :=
  mask_page (if bool_decide (m_page_size md = 0) then PAGE_SIZE else m_page_size md) vaddr.

Definition ring_match (md : map) (vaddr kind : Z) : bool :=
  bool_decide (m_vaddr md = ring_mask md vaddr)
  && (bool_decide (m_kind md = NVM_MAP_KIND_UNSPECIFIED) || bool_decide (m_kind md = kind)).

(** The list_for_each_entry over g->maps, with the two candidates so far. *)
Fixpoint resolve_pair (ms : list mapid) (p : nvm_user_queue_pair_in)
    (m_sq m_cq : option mapid) : K (option mapid * option mapid) :=
  match ms with
  | [] => mret (m_sq, m_cq)
  | m :: ms =>
      md ← the_map m;
      if bool_decide (m_kind md = NVM_MAP_KIND_DATA) then resolve_pair ms p m_sq m_cq
      else
        let m_sq := if ring_match md (sq_vaddr p) NVM_MAP_KIND_RING_SQ then Some m else m_sq in
        let m_cq := if ring_match md (cq_vaddr p) NVM_MAP_KIND_RING_CQ then Some m else m_cq in
        match m_sq, m_cq with
        | Some _, Some _ => mret (m_sq, m_cq)
        | _, _ => resolve_pair ms p m_sq m_cq
        end
  end.

Fixpoint resolve_pairs (ms : list mapid) (ps : list nvm_user_queue_pair_in) :
    K (list (mapid * mapid)) :=
  match ps with
  | [] => mret []
  | p :: ps =>
      r ← resolve_pair ms p None None;
      match r with
      | (Some sq, Some cq) => rest ← resolve_pairs ms ps; mret ((sq, cq) :: rest)
      | _ => fail ENOENT
      end
  end.

(** ** Queue creation on the controller *)

(** Create CQ then SQ for every pair; stops at the first failure, having
    deleted the CQ of a half-made pair.  Returns rc and the ids completed. *)
Fixpoint create_queues (ndev : nvme_dev) (todo : list (Z * (mapid * mapid))) (created : list Z) :
    K (Z * list Z) :=
  match todo with
  | [] => mret (0, created)
  | (qid, (sq, cq)) :: todo =>
      rc ← adapter_alloc_cq_user ndev cq qid;
      if bool_decide (rc ≠ 0) then mret (rc, created) else
      rc ← adapter_alloc_sq_user ndev sq qid;
      if bool_decide (rc ≠ 0) then adapter_delete_cq qid;; mret (rc, created) else
      create_queues ndev todo (created ++ [qid])
  end.

(** rollback_unlocked: delete the completed pairs in reverse, free every id. *)
Definition add_rollback (c : cid) (created qids : list Z) : K unit :=
  for_each (λ qid, adapter_delete_sq qid;; adapter_delete_cq qid;; mret tt) (rev created);;
  with_ctrl c (for_each snvm_user_qid_free_locked qids).

(** ** Commit and copy-out *)

Definition sq_doorbell (ndev : nvme_dev) (qid : Z) : Z :=
  u32 (NVME_REG_DBS + qid * 2 * db_stride ndev * 4).
Definition cq_doorbell (ndev : nvme_dev) (qid : Z) : Z :=
  u32 (NVME_REG_DBS + (qid * 2 + 1) * db_stride ndev * 4).

(** uq->qid = qid; uq->alive = 1 for the slots from [cur] on. *)
Fixpoint commit_slots (cur : Z) (qids : list Z) (slots : list snvm_user_queue) :
    option (list snvm_user_queue) :=
  match qids with
  | [] => Some slots
  | qid :: qids =>
      match slots !! Z.to_nat cur with
      | None => None
      | Some _ => commit_slots (cur + 1) qids (<[Z.to_nat cur := mk_uq qid true]> slots)
      end
  end.

(** Write out_pairs[i] for the new queues; the rest is echoed. *)
Definition fill_out (ndev : nvme_dev) (qids : list Z) (outs : list nvm_user_queue_pair_out) :
    list nvm_user_queue_pair_out :=
  zip_with (λ qid o, mk_pair_out (sq_doorbell ndev qid) (cq_doorbell ndev qid) qid (out_reserved o))
    qids outs ++ drop (length qids) outs.

Definition add_response (ndev : nvme_dev) (qids : list Z) (req : nvm_ioctl_add_user_queue) :
    nvm_ioctl_add_user_queue :=
  mk_add_user_queue (auq_group_id req) (nr_pairs req) (auq_flags req) (auq_reserved req)
    (pairs req) (fill_out ndev qids (out_pairs req)).

(** The slots a failed copy-out reverts: queues[cur_queues - nr_pairs + k]. *)
Fixpoint revert_slots (fd : fdid) (gi : nat) (c : cid) (first : Z) (n : nat) : K unit :=
  match n with
  | O => mret tt
  | S n =>
      own ← the_owner fd;
      own ← from_opt NullDeref own;
      g ← from_opt UseAfterFree (own_groups own !! gi);
      uq ← from_opt OutOfBounds (g_queues g !! Z.to_nat first);
      adapter_delete_sq (uq_qid uq);;
      adapter_delete_cq (uq_qid uq);;
      upd_group fd gi (λ g, g <| g_queues ::= alter (λ u, u <| uq_alive := false |>) (Z.to_nat first) |>);;
      with_ctrl c (snvm_user_qid_free_locked (uq_qid uq));;
      revert_slots fd gi c (first + 1) n
  end.

(** The first critical section: everything under groups_lock up to the
    commit.  Returns the position of the group, the device and the ids. *)
Definition add_locked (fd : fdid) (c : cid) (own : snvm_dev_owner) (req : nvm_ioctl_add_user_queue)
    (ndev : nvme_dev) : K (nat * list Z) :=
  match find_qgroup_locked own (auq_group_id req) with
  | None => fail ENOENT
  | Some (gi, g) =>
      guard_err (bool_decide (g_max_queues g < u32 (g_cur_queues g + nr_pairs req))) EBUSY;;
      rings ← resolve_pairs (g_maps g) (batch req);
      ok ← kalloc;
      with_ctrl c (snvm_user_qid_pool_init_locked ok (Some ndev));;
      qids ← with_ctrl c (snvm_user_qid_alloc_locked (nr_pairs req));
      '(rc, created) ← create_queues ndev (zip qids rings) [];
      if bool_decide (rc ≠ 0) then add_rollback c created qids;; fail (- rc)
      else
      slots ← from_opt OutOfBounds (commit_slots (g_cur_queues g) qids (g_queues g));
      upd_group fd gi (λ g, g <| g_queues := slots |>
                              <| g_cur_queues ::= λ n, u32 (n + nr_pairs req) |>);;
      mret (gi, qids)
  end.

(** The second one: copy_to_user failed after the commit. *)
Definition add_revert (fd : fdid) (c : cid) (gi : nat) (nr : Z) : K unit :=
  own ← the_owner fd;
  own ← from_opt NullDeref own;
  g ← from_opt UseAfterFree (own_groups own !! gi);
  revert_slots fd gi c (u32 (g_cur_queues g - nr)) (Z.to_nat nr);;
  upd_group fd gi (λ g, g <| g_cur_queues ::= λ n, u32 (n - nr) |>).

Definition ioctl_add_user_queue (fd : fdid) (c : cid) (req : nvm_ioctl_add_user_queue) : K (Z * uout) :=
  own ← the_owner fd;
  match own with
  | None => fail ENODEV
  | Some own =>
      ok ← kalloc;
      guard_err (negb ok) ENOMEM;;
      copy_from_user;;
      check_add_request req;;
      ndev ← snvm_ctrl_get_live_ndev (Some c);
      match ndev with
      | None => fail ENODEV
      | Some ndev =>
          '(gi, qids) ← add_locked fd c own req ndev;
          left ← copy_to_user;
          if bool_decide (left ≠ 0) then add_revert fd c gi (nr_pairs req);; fail EFAULT
          else mret (0, OutAdd (add_response ndev qids req))
      end
  end.

(** ** The dispatcher *)
Definition snvm_dev_map_ioctl (cur : task) (fd : fdid) (cmd : Z) (arg : uarg) : K (Z * uout) :=
  fl ← the_file fd;
  found ← ctrl_find_by_inode (f_inode fl);
  match found with
  | None => fail EBADF
  | Some c =>
      match decode_ioctl cmd with
      | Some NVM_MAP_HOST_MEMORY => ioctl_map_host cur fd c (arg_map arg)
      | Some NVM_MAP_DEVICE_MEMORY => ioctl_map_device cur fd c (arg_map arg)
      | Some NVM_UNMAP_HOST_MEMORY => ioctl_unmap cur fd HostList (arg_u64 arg)
      | Some NVM_UNMAP_DEVICE_MEMORY => ioctl_unmap cur fd DeviceList (arg_u64 arg)
      | Some NVM_UNMAP_DEVICE_QUEUE_MEMORY => ioctl_unmap_queue cur (arg_u64 arg)
      | Some NVM_GET_DEV_INFO => ioctl_get_dev_info c
      | Some NVM_CREATE_QUEUE_GROUP => ioctl_create_group fd c (arg_group arg)
      | Some NVM_DESTROY_QUEUE_GROUP => ioctl_destroy_group fd c (arg_u32 arg)
      | Some NVM_ADD_USER_QUEUE => ioctl_add_user_queue fd c (arg_add arg)
      | Some NVM_SET_KERNEL_IOQ_CAP => ioctl_set_cap c (arg_u32 arg)
      | _ => ioctl_default fd c cmd
      end
  end.
End add_queue.
