(* ===== verification/Invariant.v ===== *)
(** * Invariant: well-formed module states

    What holds of the registries, the per-fd lists, the queue groups, the
    group-id allocator and the queue-id pools between two operations, stated on
    the fields they are about so that an operation only has to argue about
    what it touches. *)
From S2P Require Import Prelude.
From S2P Require Import Uapi.
From S2P Require Import Kernel.
From S2P Require Import QidPool.
From S2P Require Import Map.
From S2P Require Import MapGpu.
From S2P Require Import Ctrl.
From S2P Require Import Qgroup.
From S2P Require Import DevIoctl.
From S2P Require Import AddQueue.

(** ** Views of the open files *)

Definition owners (files : gmap fdid file) : gmap fdid snvm_dev_owner := omap private_data files.

(** A group without its list of maps: what the queue bookkeeping looks at. *)
Definition gview (g : snvm_qgroup) : snvm_qgroup := g <| g_maps := [] |> <| g_nr_maps := 0 |>.

(** The group of an owner, with the controller it is on. *)
Definition owner_group (own : snvm_dev_owner) : option (cid * snvm_qgroup) :=
  g ← head (own_groups own); Some (own_ctrl own, gview g).

Definition gviews (O : gmap fdid snvm_dev_owner) : gmap fdid (cid * snvm_qgroup) :=
  omap owner_group O.

(** ** The parts *)

Definition registries (w : kstate) : list mapid := host_list w ++ device_list w ++ device_queue_list w.

(** A descriptor on the heap: releasable, with room for at least one address. *)
Definition map_ok (md : map) : Prop := release_ok md ∧ m_addrs md ≠ [].

(** The heap holds exactly the registered descriptors, each on one registry
    and releasable; ids above [next] are unused. *)
Definition regs_ok (regs : list mapid) (h : gmap mapid map) (next : nat) : Prop :=
  NoDup regs ∧ (∀ m, m ∈ regs ↔ is_Some (h !! m))
  ∧ map_Forall (λ m md, map_ok md ∧ (m < next)%nat) h.

(** Per-fd lists hold live descriptors, each on at most one list. *)
Definition links_ok (O : gmap fdid snvm_dev_owner) (h : gmap mapid map) : Prop :=
  (∀ fd own, O !! fd = Some own →
     NoDup (owner_maps own) ∧ Forall (λ m, is_Some (h !! m)) (owner_maps own))
  ∧ (∀ fd1 fd2 own1 own2 m, O !! fd1 = Some own1 → O !! fd2 = Some own2 →
       m ∈ owner_maps own1 → m ∈ owner_maps own2 → fd1 = fd2).

(** A descriptor's tags say which list it is on. *)
Definition tags_ok (O : gmap fdid snvm_dev_owner) (h : gmap mapid map) : Prop :=
  (∀ fd own g m, O !! fd = Some own → g ∈ own_groups own → m ∈ g_maps g →
     ∃ md, h !! m = Some md ∧ m_group_id md = g_group_id g ∧ m_kind md ≠ NVM_MAP_KIND_DATA)
  ∧ (∀ fd own m, O !! fd = Some own → m ∈ own_data_maps own →
       ∃ md, h !! m = Some md ∧ m_group_id md = 0 ∧ m_kind md = NVM_MAP_KIND_DATA)
  ∧ (∀ m md, h !! m = Some md →
       (m_group_id md ≠ 0 → ∃ fd own g, O !! fd = Some own ∧ g ∈ own_groups own ∧ m ∈ g_maps g)
       ∧ (m_kind md = NVM_MAP_KIND_DATA → ∃ fd own, O !! fd = Some own ∧ m ∈ own_data_maps own)).

Definition owners_ok (O : gmap fdid snvm_dev_owner) (cs : gmap cid ctrl) : Prop :=
  map_Forall (λ _ own, is_Some (cs !! own_ctrl own)
    ∧ own_nr_groups own = Z.of_nat (length (own_groups own))
    ∧ own_nr_groups own ≤ NVM_MAX_GROUPS_PER_FD) O.

(** Live queues are exactly the first [cur_queues] slots. *)
Record group_shape (g : snvm_qgroup) : Prop := {
  shape_slots : Z.of_nat (length (g_queues g)) = NVM_MAX_QUEUES_PER_GROUP;
  shape_max : g_max_queues g = NVM_MAX_QUEUES_PER_GROUP;
  shape_id : 1 ≤ g_group_id g < 2 ^ 31;
  shape_cur : 0 ≤ g_cur_queues g ≤ NVM_MAX_QUEUES_PER_GROUP;
  shape_alive s u : g_queues g !! s = Some u → (uq_alive u = true ↔ Z.of_nat s < g_cur_queues g);
}.

(** The IDA holds exactly the ids of the existing groups, each on one fd. *)
Definition groups_ok (V : gmap fdid (cid * snvm_qgroup)) (ida : gset Z) : Prop :=
  map_Forall (λ _ v, group_shape v.2) V
  ∧ (∀ i, i ∈ ida ↔ ∃ fd v, V !! fd = Some v ∧ g_group_id v.2 = i)
  ∧ (∀ fd1 fd2 v1 v2, V !! fd1 = Some v1 → V !! fd2 = Some v2 →
       g_group_id v1.2 = g_group_id v2.2 → fd1 = fd2).

(** A live queue [q] of controller [c] sits in slot [s] of [fd]'s group. *)
Definition slot_at (V : gmap fdid (cid * snvm_qgroup)) (c : cid) (q : Z) (p : fdid * nat) : Prop :=
  ∃ g u, V !! p.1 = Some (c, g) ∧ g_queues g !! p.2 = Some u ∧ uq_alive u = true ∧ uq_qid u = q.

(** A controller's pool has marked exactly the live queues, each in one slot. *)
Definition pool_exact (V : gmap fdid (cid * snvm_qgroup)) (c : cid) (ct : ctrl) : Prop :=
  (∀ bm, user_qid_bitmap ct = Some bm → pool_ok ct bm)
  ∧ (∀ q, q ∈ used_qids ct ↔ ∃ p, slot_at V c q p)
  ∧ (∀ q p1 p2, slot_at V c q p1 → slot_at V c q p2 → p1 = p2).

Definition qids_ok (V : gmap fdid (cid * snvm_qgroup)) (cs : gmap cid ctrl) : Prop :=
  map_Forall (λ c ct, pool_exact V c ct) cs.

(** A queue budget a controller can have negotiated. *)
Definition ndev_ok (nd : nvme_dev) : Prop :=
  0 ≤ online_queues nd ∧ 0 ≤ ctrl_max_io_queues nd < 2 ^ 16.

Definition pdevs_ok (cs : gmap cid ctrl) (ps : gmap pdevid pci_dev) : Prop :=
  map_Forall (λ _ ct, ∃ pd, ps !! c_pdev ct = Some pd
    ∧ ∀ nd, pd_drvdata pd = Some nd → ndev_ok nd) cs.

(** An open file's inode still names the controller it was opened on. *)
Definition inodes_ok (files : gmap fdid file) (inodes : gmap nat (option cid)) : Prop :=
  ∀ fd fl own c, files !! fd = Some fl → private_data fl = Some own →
    inodes !! f_inode fl = Some (Some c) → c = own_ctrl own.

Record wf (w : kstate) : Prop := {
  wf_ctrls : ctrls_ok w;
  wf_regs : regs_ok (registries w) (k_heap w) (k_next w);
  wf_links : links_ok (owners (k_files w)) (k_heap w);
  wf_tags : tags_ok (owners (k_files w)) (k_heap w);
  wf_owners : owners_ok (owners (k_files w)) (k_ctrls w);
  wf_groups : groups_ok (gviews (owners (k_files w))) (snvm_queue_group_ida w);
  wf_qids : qids_ok (gviews (owners (k_files w))) (k_ctrls w);
  wf_pdevs : pdevs_ok (k_ctrls w) (k_pdevs w);
  wf_inodes : inodes_ok (k_files w) (k_inodes w);
}.

(** ** Views under updates *)

Lemma owners_lookup files fd own :
  owners files !! fd = Some own ↔ ∃ fl, files !! fd = Some fl ∧ private_data fl = Some own.
Proof. unfold owners. rewrite lookup_omap. apply bind_Some. Qed.

Lemma owners_insert files fd fl own :
  owners (<[fd := fl <| private_data := Some own |>]> files) = <[fd := own]> (owners files).
Proof. unfold owners. by rewrite (omap_insert_Some _ _ _ _ own). Qed.

Lemma owners_unlink m files : owners (file_unlink m <$> files) = owner_unlink m <$> owners files.
Proof.
  unfold owners. apply map_eq. intros fd. rewrite lookup_omap, !lookup_fmap, lookup_omap.
  by destruct (files !! fd) as [[i [own|] b]|].
Qed.

Lemma owner_group_unlink m own : owner_group (owner_unlink m own) = owner_group own.
Proof. unfold owner_group, owner_unlink. cbn. by destruct (own_groups own). Qed.

Lemma gviews_unlink m O : gviews (owner_unlink m <$> O) = gviews O.
Proof.
  unfold gviews. apply map_eq. intros fd. rewrite !lookup_omap, lookup_fmap.
  destruct (O !! fd) as [own|]; [|done]. cbn. apply owner_group_unlink.
Qed.

Lemma owner_maps_unlink m own : owner_maps (owner_unlink m own) = without m (owner_maps own).
Proof.
  unfold owner_maps, owner_unlink. cbn. rewrite without_app. f_equal.
  induction (own_groups own) as [|g gs IH]; [done|].
  rewrite fmap_cons, !bind_cons, without_app. f_equal. exact IH.
Qed.

(** [wf] does not look at the tick, the trace or the GPU driver's objects. *)
Lemma wf_core w w' : same_core w w' → wf w → wf w'.
Proof.
  intros H [H1 H2 H3 H4 H5 H6 H7 H8 H9].
  pose proof (same_core_field k_heap _ _ (λ _, eq_refl) H) as Eh.
  pose proof (same_core_field k_next _ _ (λ _, eq_refl) H) as En.
  pose proof (same_core_field registries _ _ (λ _, eq_refl) H) as Er.
  pose proof (same_core_field k_files _ _ (λ _, eq_refl) H) as Ef.
  pose proof (same_core_field k_ctrls _ _ (λ _, eq_refl) H) as Ec.
  pose proof (same_core_field snvm_queue_group_ida _ _ (λ _, eq_refl) H) as Ei.
  pose proof (same_core_field k_pdevs _ _ (λ _, eq_refl) H) as Ep.
  pose proof (same_core_field k_inodes _ _ (λ _, eq_refl) H) as Eo.
  split; rewrite <- ?Eh, <- ?En, <- ?Er, <- ?Ef, <- ?Ec, <- ?Ei, <- ?Ep, <- ?Eo; try done.
  by eapply ctrls_ok_core.
Qed.

(** ** Releasing a descriptor *)

Lemma without_app3 m l1 l2 l3 :
  without m l1 ++ without m l2 ++ without m l3 = without m (l1 ++ l2 ++ l3).
Proof. by rewrite !without_app. Qed.

Lemma regs_ok_drop m regs h next :
  regs_ok regs h next → regs_ok (without m regs) (delete m h) next.
Proof.
  intros (Hnd & Hiff & HF). split; [by apply NoDup_without|]. split.
  - intros m'. rewrite elem_of_without, Hiff, lookup_delete_is_Some. naive_solver.
  - by apply map_Forall_delete.
Qed.

Lemma links_ok_drop m O h : links_ok O h → links_ok (owner_unlink m <$> O) (delete m h).
Proof.
  intros [H1 H2]. split.
  - intros fd own'. rewrite lookup_fmap, fmap_Some. intros (own & HO & ->).
    destruct (H1 fd own HO) as [Hnd HF]. rewrite owner_maps_unlink.
    split; [by apply NoDup_without|]. rewrite Forall_forall in HF |- *.
    intros x [Hne Hx]%elem_of_without. rewrite lookup_delete_ne by done. by apply HF.
  - intros fd1 fd2 own1' own2' x. rewrite !lookup_fmap, !fmap_Some.
    intros (own1 & HO1 & ->) (own2 & HO2 & ->). rewrite !owner_maps_unlink, !elem_of_without.
    intros [_ Hx1] [_ Hx2]. by eapply H2.
Qed.

(** The groups of an owner after a map is unlinked. *)
Lemma elem_of_unlink_groups m own g' :
  g' ∈ own_groups (owner_unlink m own) ↔
  ∃ g, g ∈ own_groups own ∧ g' = g <| g_maps ::= without m |>.
Proof. unfold owner_unlink. cbn. rewrite list_elem_of_fmap. naive_solver. Qed.

Lemma tags_ok_drop m O h : tags_ok O h → tags_ok (owner_unlink m <$> O) (delete m h).
Proof.
  intros (H1 & H2 & H3). split; [|split].
  - intros fd own' g' x. rewrite lookup_fmap, fmap_Some. intros (own & HO & ->).
    rewrite elem_of_unlink_groups. intros (g & Hg & ->). cbn. rewrite elem_of_without. intros [Hne Hx].
    rewrite lookup_delete_ne by done. by apply (H1 fd own g x).
  - intros fd own' x. rewrite lookup_fmap, fmap_Some. intros (own & HO & ->).
    unfold owner_unlink. cbn. rewrite elem_of_without. intros [Hne Hx].
    rewrite lookup_delete_ne by done. by apply (H2 fd own x).
  - intros x md [Hne Hx]%lookup_delete_Some. destruct (H3 x md Hx) as [Hg Hd]. split.
    + intros Hid. destruct (Hg Hid) as (fd & own & g & HO & Hin & Hmem).
      exists fd, (owner_unlink m own), (g <| g_maps ::= without m |>).
      rewrite lookup_fmap, HO. split; [done|]. split; [rewrite elem_of_unlink_groups; eauto|].
      cbn. rewrite elem_of_without. auto.
    + intros Hk. destruct (Hd Hk) as (fd & own & HO & Hmem). exists fd, (owner_unlink m own).
      rewrite lookup_fmap, HO. split; [done|]. unfold owner_unlink. cbn. rewrite elem_of_without. auto.
Qed.

Lemma owners_ok_unlink m O cs : owners_ok O cs → owners_ok (owner_unlink m <$> O) cs.
Proof.
  intros H fd own'. rewrite lookup_fmap, fmap_Some. intros (own & HO & ->).
  destruct (H fd own HO) as (Hc & Hn & Hle). unfold owner_unlink. cbn. by rewrite length_fmap.
Qed.

Lemma inodes_ok_unlink m files inodes :
  inodes_ok files inodes → inodes_ok (file_unlink m <$> files) inodes.
Proof.
  intros H fd fl' own' c. rewrite lookup_fmap, fmap_Some. intros (fl & Hf & ->).
  unfold file_unlink. cbn. intros (own & Ho & ->)%fmap_Some Hi. by apply (H fd fl own c).
Qed.

Lemma wf_drop m w : wf w → wf (drop_map m w).
Proof.
  intros [H1 H2 H3 H4 H5 H6 H7 H8 H9]. split.
  - done.
  - change (registries (drop_map m w)) with (without m (host_list w) ++ without m (device_list w)
      ++ without m (device_queue_list w)). rewrite without_app3. by apply regs_ok_drop.
  - unfold drop_map. cbn. rewrite owners_unlink. by apply links_ok_drop.
  - unfold drop_map. cbn. rewrite owners_unlink. by apply tags_ok_drop.
  - unfold drop_map. cbn. rewrite owners_unlink. by apply owners_ok_unlink.
  - unfold drop_map. cbn. by rewrite owners_unlink, gviews_unlink.
  - unfold drop_map. cbn. by rewrite owners_unlink, gviews_unlink.
  - done.
  - by apply inodes_ok_unlink.
Qed.

Lemma wf_drop_maps ms w : wf w → wf (drop_maps ms w).
Proof. revert w. induction ms as [|m ms IH]; intros w H; [done|]. cbn. by apply IH, wf_drop. Qed.

(** ** What [wf] gives the operations *)

Lemma wf_fresh w : wf w → k_heap w !! k_next w = None.
Proof.
  intros H. destruct (k_heap w !! k_next w) as [md|] eqn:Hm; [|done].
  destruct (wf_regs w H) as (_ & _ & HF). destruct (HF _ _ Hm) as [_ Hlt]. lia.
Qed.

Lemma wf_unlisted m w : wf w → k_heap w !! m = None → unlisted m w.
Proof.
  intros H Hm. split.
  - destruct (wf_regs w H) as (_ & Hiff & _). unfold registries in Hiff. rewrite Hiff, Hm.
    by intros [? ?].
  - intros fd fl Hf own Hown Hin. destruct (wf_links w H) as [H1 _].
    destruct (H1 fd own) as [_ HF]; [apply owners_lookup; eauto|].
    rewrite Forall_forall in HF. destruct (HF m Hin) as [? ?]. congruence.
Qed.

Lemma reg_get_registries r w : reg_get r w ⊆ registries w.
Proof. unfold registries. destruct r; cbn; set_solver. Qed.

Lemma wf_registry r w : wf w → registry_ok r w.
Proof.
  intros H. destruct (wf_regs w H) as (Hnd & Hiff & HF). split.
  - unfold registries in Hnd. apply NoDup_app in Hnd as (? & _ & (? & _ & ?)%NoDup_app).
    by destruct r.
  - rewrite Forall_forall. intros m Hm. destruct (proj1 (Hiff m)) as [md Hmd];
      [by apply (reg_get_registries r)|]. exists md. split; [done|]. by apply (HF m md).
Qed.

Lemma wf_heap_ok w m md : wf w → k_heap w !! m = Some md → map_ok md.
Proof. intros H Hm. destruct (wf_regs w H) as (_ & _ & HF). by apply (HF m md). Qed.

Lemma wf_heap_release w m md : wf w → k_heap w !! m = Some md → release_ok md.
Proof. intros H Hm. by apply (wf_heap_ok w m md). Qed.

(** ** New descriptors *)

Lemma registries_insert r m w :
  NoDup (registries w) → m ∉ registries w →
  NoDup (registries (reg_insert r m w)) ∧ ∀ x, x ∈ registries (reg_insert r m w) ↔ x = m ∨ x ∈ registries w.
Proof.
  intros Hnd Hm. assert (Hp : registries (reg_insert r m w) ≡ₚ m :: registries w).
  { unfold registries. destruct r; cbn; solve_Permutation. }
  rewrite Hp. split; [by constructor|]. intros x. rewrite Hp. set_solver.
Qed.

Lemma wf_alloc r md w :
  wf w → map_ok md → m_group_id md = 0 → m_kind md ≠ NVM_MAP_KIND_DATA →
  wf (reg_insert r (k_next w) (alloc_map (k_next w) md w)).
Proof.
  intros H Hok Hg Hk. pose proof (wf_fresh w H) as Hfresh. set (m := k_next w) in *.
  assert (Hnew : ∀ x y, k_heap w !! x = Some y → x ≠ m) by (intros x y Hx ->; congruence).
  pose proof H as [H1 (Hnd & Hiff & HF) [HL1 HL2] (HT1 & HT2 & HT3) H5 H6 H7 H8 H9].
  assert (Hm : m ∉ registries w) by (rewrite Hiff, Hfresh; by intros [? ?]).
  set (w' := reg_insert r m (alloc_map m md w)).
  assert (Eh : k_heap w' = <[m:=md]> (k_heap w)) by (by destruct r).
  assert (En : k_next w' = S m) by (by destruct r).
  assert (Ef : k_files w' = k_files w) by (by destruct r).
  assert (Ec : k_ctrls w' = k_ctrls w) by (by destruct r).
  destruct (registries_insert r m (alloc_map m md w)) as [Hnd' Hin']; [exact Hnd|exact Hm|].
  fold w' in Hnd', Hin'.
  split; rewrite ?Eh, ?En, ?Ef, ?Ec.
  - by destruct r.
  - split; [done|]. split.
    + intros x. rewrite Hin'. change (registries (alloc_map m md w)) with (registries w).
      rewrite lookup_insert_is_Some, Hiff. destruct (decide (m = x)); naive_solver.
    + apply map_Forall_insert_2; [split; [done|lia]|]. eapply map_Forall_impl; [exact HF|].
      intros x y [? ?]. split; [done|lia].
  - split; [|done]. intros fd own HO. destruct (HL1 fd own HO) as [? HF']. split; [done|].
    eapply Forall_impl; [exact HF'|]. intros x [y Hx]. rewrite lookup_insert_ne; [by eauto|].
    intros <-. by apply (Hnew _ _ Hx).
  - split; [|split].
    + intros fd own g x HO Hin Hx. destruct (HT1 fd own g x HO Hin Hx) as (y & Hy & ?).
      exists y. split; [|done]. rewrite lookup_insert_ne; [done|]. intros <-. by apply (Hnew _ _ Hy).
    + intros fd own x HO Hx. destruct (HT2 fd own x HO Hx) as (y & Hy & ?).
      exists y. split; [|done]. rewrite lookup_insert_ne; [done|]. intros <-. by apply (Hnew _ _ Hy).
    + intros x y [[<- <-]|[Hne Hx]]%lookup_insert_Some; [|by apply HT3]. split; intros ?; congruence.
  - done.
  - by destruct r.
  - done.
  - by destruct r.
  - by destruct r.
Qed.

(** ** Updates of one open file *)

(** [file->private_data = own'] on the file [fl] behind [fd]. *)
Definition set_owner (fd : fdid) (fl : file) (own' : snvm_dev_owner) (w : kstate) : kstate :=
  w <| k_files ::= insert fd (fl <| private_data := Some own' |>) |>.

Lemma links_ok_insert O h fd own own' :
  links_ok O h → O !! fd = Some own → NoDup (owner_maps own') →
  Forall (λ m, is_Some (h !! m) ∧ (m ∈ owner_maps own
                 ∨ ∀ fd2 own2, O !! fd2 = Some own2 → m ∉ owner_maps own2)) (owner_maps own') →
  links_ok (<[fd := own']> O) h.
Proof.
  intros [H1 H2] HO Hnd HF. rewrite Forall_forall in HF.
  assert (Hone : ∀ fd2 own2 m, fd2 ≠ fd → O !! fd2 = Some own2 → m ∈ owner_maps own' → m ∉ owner_maps own2).
  { intros fd2 own2 m Hne HO2 Hm Hm2. destruct (HF m Hm) as [_ [Hold|Hnew]].
    - by destruct (Hne (H2 fd2 fd own2 own m HO2 HO Hm2 Hold)).
    - by apply (Hnew fd2 own2). }
  split.
  - intros fd1 own1 [[<- <-]|[Hne HO1]]%lookup_insert_Some; [|by apply (H1 fd1)].
    split; [done|]. rewrite Forall_forall. intros m Hm. by apply HF.
  - intros fd1 fd2 own1 own2 m [[<- <-]|[Hne1 HO1]]%lookup_insert_Some
      [[<- <-]|[Hne2 HO2]]%lookup_insert_Some Hm1 Hm2; try done.
    + by destruct (Hone fd2 own2 m).
    + by destruct (Hone fd1 own1 m).
    + by eapply H2.
Qed.

Lemma gviews_insert fd own O :
  gviews (<[fd := own]> O) = match owner_group own with
                             | Some v => <[fd := v]> (gviews O)
                             | None => delete fd (gviews O)
                             end.
Proof.
  unfold gviews. apply map_eq. intros i. rewrite lookup_omap. destruct (decide (fd = i)) as [->|Hne].
  - rewrite lookup_insert_eq. cbn. destruct (owner_group own).
    + by rewrite lookup_insert_eq.
    + by rewrite lookup_delete_eq.
  - rewrite lookup_insert_ne by done. destruct (owner_group own).
    + by rewrite lookup_insert_ne, lookup_omap.
    + by rewrite lookup_delete_ne, lookup_omap.
Qed.

Lemma gviews_lookup O fd own : O !! fd = Some own → gviews O !! fd = owner_group own.
Proof. intros H. unfold gviews. rewrite lookup_omap, H. done. Qed.

Lemma gviews_insert_same fd own own' O :
  O !! fd = Some own → owner_group own' = owner_group own → gviews (<[fd := own']> O) = gviews O.
Proof.
  intros HO Hg. rewrite gviews_insert, Hg. pose proof (gviews_lookup O fd own HO) as Hv.
  destruct (owner_group own) as [v|]; [by apply insert_id|by apply delete_id].
Qed.

Lemma inodes_ok_insert files inodes fd fl own own' :
  inodes_ok files inodes → files !! fd = Some fl → private_data fl = Some own →
  own_ctrl own' = own_ctrl own →
  inodes_ok (<[fd := fl <| private_data := Some own' |>]> files) inodes.
Proof.
  intros H Hf Ho Hc fd' fl' own1 c [[<- <-]|[Hne Hf']]%lookup_insert_Some Hp Hi.
  - cbn in *. simplify_eq. rewrite Hc. by apply (H fd fl own c).
  - by apply (H fd' fl' own1 c).
Qed.

(** An owner that differs only in its counters of maps. *)
Definition same_lists (own own' : snvm_dev_owner) : Prop :=
  own_ctrl own' = own_ctrl own ∧ own_nr_groups own' = own_nr_groups own
  ∧ own_data_maps own' = own_data_maps own
  ∧ Forall2 (λ g g', gview g' = gview g ∧ g_maps g' = g_maps g) (own_groups own) (own_groups own').

Lemma same_lists_group own own' :
  same_lists own own' → owner_group own' = owner_group own.
Proof.
  intros (Hc & _ & _ & HF). unfold owner_group. rewrite Hc.
  destruct HF as [|g g' gs gs' [Hg _] _]; [done|]. cbn. by rewrite Hg.
Qed.

Lemma same_lists_maps own own' : same_lists own own' → owner_maps own' = owner_maps own.
Proof.
  intros (_ & _ & Hd & HF). unfold owner_maps. rewrite Hd. f_equal.
  induction HF as [|g g' gs gs' [_ Hm] _ IH]; [done|]. rewrite !bind_cons. by rewrite Hm, IH.
Qed.

Lemma gview_id g g' : gview g' = gview g → g_group_id g' = g_group_id g.
Proof. intros H. exact (f_equal g_group_id H). Qed.

(** Membership in the groups of two such owners. *)
Lemma same_lists_in own own' g' :
  same_lists own own' → g' ∈ own_groups own' →
  ∃ g, g ∈ own_groups own ∧ g_maps g' = g_maps g ∧ g_group_id g' = g_group_id g.
Proof.
  intros (_ & _ & _ & HF) (i & Hi)%list_elem_of_lookup.
  destruct (Forall2_lookup_r _ _ _ _ _ HF Hi) as (g & Hg & Hv & Hm).
  exists g. split; [by eapply list_elem_of_lookup_2|]. split; [done|]. by apply gview_id.
Qed.

Lemma same_lists_sym own own' : same_lists own own' → same_lists own' own.
Proof.
  intros (? & ? & ? & HF). repeat split; try done. apply Forall2_flip.
  eapply Forall2_impl; [exact HF|]. by intros ?? [-> ->].
Qed.

Lemma tags_ok_same_lists O h fd own own' :
  tags_ok O h → O !! fd = Some own → same_lists own own' → tags_ok (<[fd := own']> O) h.
Proof.
  intros (H1 & H2 & H3) HO Hs. pose proof Hs as (_ & _ & Hd & _). split; [|split].
  - intros fd1 own1 g m [[<- <-]|[Hne HO1]]%lookup_insert_Some Hg Hm; [|by eapply H1].
    destruct (same_lists_in own own' g Hs Hg) as (g0 & Hg0 & Hm0 & ->).
    rewrite Hm0 in Hm. by apply (H1 fd own).
  - intros fd1 own1 m [[<- <-]|[Hne HO1]]%lookup_insert_Some Hm; [|by eapply H2].
    rewrite Hd in Hm. by apply (H2 fd own).
  - intros m md Hm. destruct (H3 m md Hm) as [Hg Hk]. split.
    + intros Hid. destruct (Hg Hid) as (fd1 & own1 & g & HO1 & Hin & Hmem).
      destruct (decide (fd1 = fd)) as [->|Hne].
      * assert (own1 = own) as -> by congruence.
        destruct (same_lists_in own' own g (same_lists_sym _ _ Hs) Hin) as (g' & Hg' & Hm' & _).
        exists fd, own', g'. rewrite lookup_insert_eq. split; [done|]. split; [done|]. congruence.
      * exists fd1, own1, g. by rewrite lookup_insert_ne.
    + intros Hdk. destruct (Hk Hdk) as (fd1 & own1 & HO1 & Hmem).
      destruct (decide (fd1 = fd)) as [->|Hne].
      * exists fd, own'. rewrite lookup_insert_eq. split; [done|]. congruence.
      * exists fd1, own1. by rewrite lookup_insert_ne.
Qed.

Lemma wf_same_lists fd fl own own' w :
  wf w → k_files w !! fd = Some fl → private_data fl = Some own → same_lists own own' →
  wf (set_owner fd fl own' w).
Proof.
  intros [H1 H2 H3 H4 H5 H6 H7 H8 H9] Hf Ho Hs.
  assert (HO : owners (k_files w) !! fd = Some own) by (apply owners_lookup; eauto).
  split; try done; unfold set_owner; cbn; rewrite ?owners_insert.
  - destruct H3 as [HL1 HL2]. destruct (HL1 fd own HO) as [Hnd HF].
    apply (links_ok_insert _ _ fd own); [by split|done|by rewrite (same_lists_maps own)|].
    rewrite (same_lists_maps _ _ Hs). eapply Forall_impl; [apply Forall_and; split; [exact HF|]|].
    + rewrite Forall_forall. intros x Hx. exact Hx.
    + intros x [? ?]. auto.
  - by apply (tags_ok_same_lists _ _ fd own).
  - intros fd' own1 [[<- <-]|[Hne HO1]]%lookup_insert_Some; [|by apply (H5 fd')].
    destruct (H5 fd own HO) as (Hc & Hn & Hle). pose proof Hs as (Hc' & Hn' & _ & HF).
    rewrite Hc', Hn'. by rewrite <- (Forall2_length _ _ _ HF).
  - by rewrite (gviews_insert_same fd own) by (done || by apply same_lists_group).
  - by rewrite (gviews_insert_same fd own) by (done || by apply same_lists_group).
  - apply (inodes_ok_insert _ _ fd fl own own'); try done. apply Hs.
Qed.

(** ** Attaching a new map to its list *)

Lemma regs_ok_update regs h next m md md' :
  regs_ok regs h next → h !! m = Some md → map_ok md' → regs_ok regs (<[m := md']> h) next.
Proof.
  intros (Hnd & Hiff & HF) Hm Hok. split; [done|]. split.
  - intros x. rewrite Hiff. destruct (decide (m = x)) as [<-|Hne].
    + rewrite lookup_insert_eq, Hm. split; eauto.
    + by rewrite lookup_insert_ne.
  - apply map_Forall_insert_2; [|done]. split; [done|]. by apply (HF m md).
Qed.

Lemma heap_update_some (h : gmap mapid map) m md md' x :
  h !! m = Some md → is_Some (h !! x) → is_Some (<[m := md']> h !! x).
Proof. intros Hm Hx. rewrite lookup_insert_is_Some'. auto. Qed.

Lemma links_ok_update O h m md md' :
  links_ok O h → h !! m = Some md → links_ok O (<[m := md']> h).
Proof.
  intros [H1 H2] Hm. split; [|done]. intros fd own HO. destruct (H1 fd own HO) as [Hnd HF].
  split; [done|]. eapply Forall_impl; [exact HF|]. intros x Hx. by eapply heap_update_some.
Qed.

(** A group of an open file never has id 0, the tag of ungrouped maps. *)
Lemma wf_group_id w fd own g :
  wf w → owners (k_files w) !! fd = Some own → g ∈ own_groups own → 1 ≤ g_group_id g.
Proof.
  intros H HO Hin. destruct (wf_owners w H fd own HO) as (_ & Hn & Hle).
  destruct (wf_groups w H) as (Hshape & _).
  assert (Hv : gviews (owners (k_files w)) !! fd = Some (own_ctrl own, gview g)).
  { rewrite (gviews_lookup _ _ _ HO). unfold owner_group.
    destruct (own_groups own) as [|g0 [|g1 gs]]; cbn in *; [by apply elem_of_nil in Hin| |
      unfold NVM_MAX_GROUPS_PER_FD in *; lia].
    by apply list_elem_of_singleton in Hin as ->. }
  apply (Hshape _ _ Hv).
Qed.

(** A descriptor with neither tag is on no per-fd list. *)
Lemma wf_unlinked w m md :
  wf w → k_heap w !! m = Some md → m_group_id md = 0 → m_kind md ≠ NVM_MAP_KIND_DATA →
  ∀ fd own, owners (k_files w) !! fd = Some own → m ∉ owner_maps own.
Proof.
  intros H Hm Hg Hk fd own HO. destruct (wf_tags w H) as (T1 & T2 & _).
  unfold owner_maps. rewrite elem_of_app, list_elem_of_bind. intros [(g & Hmem & Hin)|Hd].
  - destruct (T1 fd own g m HO Hin Hmem) as (md' & Hm' & Hid & _). simplify_eq.
    pose proof (wf_group_id w fd own g H HO Hin). lia.
  - destruct (T2 fd own m HO Hd) as (md' & Hm' & _ & Hk'). by simplify_eq.
Qed.

(** Every other descriptor is where it was when one owner's lists grow by [m]. *)
Definition grows (m : mapid) (own own' : snvm_dev_owner) : Prop :=
  own_ctrl own' = own_ctrl own ∧ own_nr_groups own' = own_nr_groups own
  ∧ length (own_groups own') = length (own_groups own)
  ∧ owner_group own' = owner_group own
  ∧ owner_maps own' ≡ₚ m :: owner_maps own.

Lemma wf_grow fd fl own own' m md md' w :
  wf w → k_files w !! fd = Some fl → private_data fl = Some own →
  k_heap w !! m = Some md → m_group_id md = 0 → m_kind md ≠ NVM_MAP_KIND_DATA →
  grows m own own' → map_ok md' →
  tags_ok (<[fd := own']> (owners (k_files w))) (<[m := md']> (k_heap w)) →
  wf ((set_owner fd fl own' w) <| k_heap ::= insert m md' |>).
Proof.
  intros H Hf Ho Hm Hg Hk (Gc & Gn & Gl & Gv & Gm) Hok Ht.
  pose proof (wf_unlinked w m md H Hm Hg Hk) as Hun.
  destruct H as [H1 H2 H3 H4 H5 H6 H7 H8 H9].
  assert (HO : owners (k_files w) !! fd = Some own) by (apply owners_lookup; eauto).
  split; try done; unfold set_owner; cbn; rewrite ?owners_insert; try done.
  - by apply (regs_ok_update _ _ _ m md).
  - pose proof H3 as [HL1 _]. destruct (HL1 fd own HO) as [Hnd HF].
    apply (links_ok_insert _ _ fd own); [by apply (links_ok_update _ _ _ md)|done| |].
    + rewrite Gm. constructor; [by apply (Hun fd)|done].
    + rewrite Gm. constructor; [split; [rewrite lookup_insert_eq; eauto|by right]|].
      rewrite Forall_forall in HF |- *. intros x Hx. split; [|by left].
      by eapply heap_update_some; [|apply HF].
  - intros fd' own1 [[<- <-]|[Hne HO1]]%lookup_insert_Some; [|by apply (H5 fd')].
    destruct (H5 fd own HO) as (Hc & Hn & Hle). by rewrite Gc, Gn, Gl.
  - by rewrite (gviews_insert_same fd own).
  - by rewrite (gviews_insert_same fd own).
  - by apply (inodes_ok_insert _ _ fd fl own own').
Qed.

Lemma wf_attach_data fd fl own m md md' f w :
  wf w → k_files w !! fd = Some fl → private_data fl = Some own →
  k_heap w !! m = Some md → m_group_id md = 0 → m_kind md ≠ NVM_MAP_KIND_DATA →
  map_ok md' → m_group_id md' = 0 → m_kind md' = NVM_MAP_KIND_DATA →
  wf ((set_owner fd fl (own <| own_data_maps ::= (.++ [m]) |> <| own_nr_data_maps ::= f |>) w)
        <| k_heap ::= insert m md' |>).
Proof.
  intros H Hf Ho Hm Hg Hk Hok Hg' Hk'. set (own' := own <| own_data_maps ::= _ |> <| _ ::= _ |>).
  pose proof (wf_unlinked w m md H Hm Hg Hk) as Hun.
  assert (HO : owners (k_files w) !! fd = Some own) by (apply owners_lookup; eauto).
  apply (wf_grow fd fl own own' m md); try done.
  { split; [done|]. split; [done|]. split; [done|]. split; [done|].
    unfold owner_maps. cbn. solve_Permutation. }
  destruct (wf_tags w H) as (T1 & T2 & T3).
  assert (Hother : ∀ fd1 own1 x, owners (k_files w) !! fd1 = Some own1 → x ∈ owner_maps own1 →
    <[m := md']> (k_heap w) !! x = k_heap w !! x).
  { intros fd1 own1 x HO1 Hx. rewrite lookup_insert_ne; [done|]. intros ->. by apply (Hun fd1 own1). }
  split; [|split].
  - intros fd1 own1 g x HO1 Hin Hx.
    assert (HO1' : ∃ own0, owners (k_files w) !! fd1 = Some own0 ∧ g ∈ own_groups own0).
    { apply lookup_insert_Some in HO1 as [[<- <-]|[_ HO1]]; eauto. }
    destruct HO1' as (own0 & HO0 & Hin0). rewrite (Hother fd1 own0); [by apply (T1 fd1 own0)|done|].
    unfold owner_maps. rewrite elem_of_app, list_elem_of_bind. eauto.
  - intros fd1 own1 x [[<- <-]|[_ HO1]]%lookup_insert_Some Hx.
    + cbn in Hx. apply elem_of_app in Hx as [Hx| ->%list_elem_of_singleton].
      * rewrite (Hother fd own); [by apply (T2 fd own)|done|]. unfold owner_maps. set_solver.
      * exists md'. by rewrite lookup_insert_eq.
    + rewrite (Hother fd1 own1); [by apply (T2 fd1 own1)|done|]. unfold owner_maps. set_solver.
  - intros x mx [[<- <-]|[Hne Hx]]%lookup_insert_Some.
    + split; [done|]. intros _. exists fd, own'. rewrite lookup_insert_eq. split; [done|].
      cbn. set_solver.
    + destruct (T3 x mx Hx) as [Tg Td]. split.
      * intros Hid. destruct (Tg Hid) as (fd1 & own1 & g & HO1 & Hin & Hmem).
        destruct (decide (fd1 = fd)) as [->|Hfd]; simplify_eq.
        -- exists fd, own', g. by rewrite lookup_insert_eq.
        -- exists fd1, own1, g. by rewrite lookup_insert_ne.
      * intros Hdk. destruct (Td Hdk) as (fd1 & own1 & HO1 & Hmem).
        destruct (decide (fd1 = fd)) as [->|Hfd]; simplify_eq.
        -- exists fd, own'. rewrite lookup_insert_eq. split; [done|]. cbn. set_solver.
        -- exists fd1, own1. by rewrite lookup_insert_ne.
Qed.

(** The group list of an owner with [m] appended to group [i]. *)
Lemma alter_groups_elem (gs : list snvm_qgroup) (i : nat) g g' (f : snvm_qgroup → snvm_qgroup) :
  gs !! i = Some g → g' ∈ alter f i gs → g' = f g ∨ g' ∈ gs.
Proof.
  intros Hi (k & Hk)%list_elem_of_lookup. destruct (decide (i = k)) as [<-|Hne].
  - rewrite list_lookup_alter_eq, Hi in Hk. left. by simplify_eq/=.
  - rewrite list_lookup_alter_ne in Hk by done. right. by eapply list_elem_of_lookup_2.
Qed.

Lemma alter_groups_old (gs : list snvm_qgroup) (i : nat) g x (f : snvm_qgroup → snvm_qgroup) :
  gs !! i = Some g → x ∈ gs → x = g ∨ x ∈ alter f i gs.
Proof.
  intros Hi (k & Hk)%list_elem_of_lookup. destruct (decide (i = k)) as [<-|Hne].
  - left. congruence.
  - right. apply (list_elem_of_lookup_2 _ k). by rewrite list_lookup_alter_ne.
Qed.

Lemma alter_groups_new (gs : list snvm_qgroup) (i : nat) g (f : snvm_qgroup → snvm_qgroup) :
  gs !! i = Some g → f g ∈ alter f i gs.
Proof. intros Hi. apply (list_elem_of_lookup_2 _ i). by rewrite list_lookup_alter_eq, Hi. Qed.

Lemma alter_groups_maps (gs : list snvm_qgroup) (i : nat) g m f :
  gs !! i = Some g →
  alter (λ g, g <| g_maps ::= (.++ [m]) |> <| g_nr_maps ::= f |>) i gs ≫= g_maps
  ≡ₚ m :: (gs ≫= g_maps).
Proof.
  revert i. induction gs as [|g0 gs IH]; intros [|i] Hi; try done.
  - injection Hi as ->. cbn. solve_Permutation.
  - change (alter ?f (S i) (g0 :: gs)) with (g0 :: alter f i gs). rewrite !bind_cons, (IH i Hi).
    solve_Permutation.
Qed.

Lemma owner_group_alter own (i : nat) (f : snvm_qgroup → snvm_qgroup) :
  (∀ g, gview (f g) = gview g) →
  owner_group (own <| own_groups ::= alter f i |>) = owner_group own.
Proof.
  intros Hf. unfold owner_group. cbn. destruct (own_groups own) as [|g gs]; [by destruct i|].
  destruct i; [|done]. cbn. by rewrite Hf.
Qed.

Lemma wf_attach_group fd fl own i g m md md' f w :
  wf w → k_files w !! fd = Some fl → private_data fl = Some own → own_groups own !! i = Some g →
  k_heap w !! m = Some md → m_group_id md = 0 → m_kind md ≠ NVM_MAP_KIND_DATA →
  map_ok md' → m_group_id md' = g_group_id g → m_kind md' ≠ NVM_MAP_KIND_DATA →
  wf ((set_owner fd fl (own <| own_groups ::=
         alter (λ g, g <| g_maps ::= (.++ [m]) |> <| g_nr_maps ::= f |>) i |>) w)
        <| k_heap ::= insert m md' |>).
Proof.
  intros H Hf Ho Hi Hm Hg Hk Hok Hg' Hk'. set (F := λ g, g <| g_maps ::= _ |> <| _ ::= _ |>).
  set (own' := own <| own_groups ::= alter F i |>).
  pose proof (wf_unlinked w m md H Hm Hg Hk) as Hun.
  assert (HO : owners (k_files w) !! fd = Some own) by (apply owners_lookup; eauto).
  assert (Hgin : g ∈ own_groups own) by (by eapply list_elem_of_lookup_2).
  apply (wf_grow fd fl own own' m md); try done.
  { split; [done|]. split; [done|]. split; [cbn; apply length_alter|].
    split; [by apply owner_group_alter|]. unfold owner_maps, own', F. cbn.
    rewrite (alter_groups_maps _ _ g) by done. solve_Permutation. }
  destruct (wf_tags w H) as (T1 & T2 & T3).
  assert (Hother : ∀ fd1 own1 x, owners (k_files w) !! fd1 = Some own1 → x ∈ owner_maps own1 →
    <[m := md']> (k_heap w) !! x = k_heap w !! x).
  { intros fd1 own1 x HO1 Hx. rewrite lookup_insert_ne; [done|]. intros ->. by apply (Hun fd1 own1). }
  assert (Hold : ∀ fd1 own1 g1 x, owners (k_files w) !! fd1 = Some own1 → g1 ∈ own_groups own1 →
    x ∈ g_maps g1 → ∃ mx, <[m := md']> (k_heap w) !! x = Some mx ∧ m_group_id mx = g_group_id g1
                          ∧ m_kind mx ≠ NVM_MAP_KIND_DATA).
  { intros fd1 own1 g1 x HO1 Hin Hx. rewrite (Hother fd1 own1); [by apply (T1 fd1 own1)|done|].
    unfold owner_maps. rewrite elem_of_app, list_elem_of_bind. eauto. }
  split; [|split].
  - intros fd1 own1 g1 x [[<- <-]|[_ HO1]]%lookup_insert_Some Hin Hx; [|by apply (Hold fd1 own1)].
    destruct (alter_groups_elem _ _ g g1 F Hi Hin) as [->|Hin']; [|by apply (Hold fd own)].
    cbn in Hx. apply elem_of_app in Hx as [Hx| ->%list_elem_of_singleton]; [by apply (Hold fd own g)|].
    exists md'. by rewrite lookup_insert_eq.
  - intros fd1 own1 x HO1 Hx.
    assert (HO1' : ∃ own0, owners (k_files w) !! fd1 = Some own0 ∧ x ∈ own_data_maps own0).
    { apply lookup_insert_Some in HO1 as [[<- <-]|[_ HO1]]; eauto. }
    destruct HO1' as (own0 & HO0 & Hx0).
    rewrite (Hother fd1 own0); [by apply (T2 fd1 own0)|done|]. unfold owner_maps. set_solver.
  - intros x mx [[<- <-]|[Hne Hx]]%lookup_insert_Some.
    + split; [|done]. intros _. exists fd, own', (F g). rewrite lookup_insert_eq. split; [done|].
      split; [by apply alter_groups_new|]. cbn. set_solver.
    + destruct (T3 x mx Hx) as [Tg Td]. split.
      * intros Hid. destruct (Tg Hid) as (fd1 & own1 & g1 & HO1 & Hin & Hmem).
        destruct (decide (fd1 = fd)) as [->|Hfd]; [|exists fd1, own1, g1; by rewrite lookup_insert_ne].
        simplify_eq. destruct (alter_groups_old _ _ g g1 F Hi Hin) as [->|Hin'].
        -- exists fd, own', (F g). rewrite lookup_insert_eq. split; [done|].
           split; [by apply alter_groups_new|]. cbn. set_solver.
        -- exists fd, own', g1. by rewrite lookup_insert_eq.
      * intros Hdk. destruct (Td Hdk) as (fd1 & own1 & HO1 & Hmem).
        destruct (decide (fd1 = fd)) as [->|Hfd]; simplify_eq.
        -- exists fd, own'. by rewrite lookup_insert_eq.
        -- exists fd1, own1. by rewrite lookup_insert_ne.
Qed.

(** A change of kind that leaves the descriptor off every list. *)
Lemma wf_retag m md md' w :
  wf w → k_heap w !! m = Some md → m_group_id md = 0 → m_kind md ≠ NVM_MAP_KIND_DATA →
  map_ok md' → m_group_id md' = 0 → m_kind md' ≠ NVM_MAP_KIND_DATA →
  wf (w <| k_heap ::= insert m md' |>).
Proof.
  intros H Hm Hg Hk Hok Hg' Hk'. pose proof (wf_unlinked w m md H Hm Hg Hk) as Hun.
  destruct H as [H1 H2 H3 (T1 & T2 & T3) H5 H6 H7 H8 H9].
  split; try done; cbn.
  - by apply (regs_ok_update _ _ _ m md).
  - by apply (links_ok_update _ _ _ md).
  - split; [|split].
    + intros fd own g x HO Hin Hx. rewrite lookup_insert_ne; [by apply (T1 fd own)|].
      intros <-. apply (Hun fd own HO). unfold owner_maps. rewrite elem_of_app, list_elem_of_bind. eauto.
    + intros fd own x HO Hx. rewrite lookup_insert_ne; [by apply (T2 fd own)|].
      intros <-. apply (Hun fd own HO). unfold owner_maps. set_solver.
    + intros x mx [[<- <-]|[_ Hx]]%lookup_insert_Some; [by split|by apply T3].
Qed.
