(* ===== verification/MapIoctl.v ===== *)
(** * MapIoctl: the mapping and unmapping handlers keep the module well-formed

    Specifications of the NVM_MAP_* and NVM_UNMAP_* handlers of [DevIoctl]
    against the invariant of [Invariant]. *)
From S2P Require Import Prelude.
From S2P Require Import Uapi.
From S2P Require Import Kernel.
From S2P Require Import QidPool.
From S2P Require Import Map.
From S2P Require Import MapGpu.
From S2P Require Import Ctrl.
From S2P Require Import Qgroup.
From S2P Require Import DevIoctl.
From S2P Require Import AddQueue.
From S2P Require Import Invariant.

(** ** Releasing commutes with what was done to the descriptor's lists *)

Lemma drop_heap_insert m md w : drop_map m (w <| k_heap ::= insert m md |>) = drop_map m w.
Proof. exact (heap_delete_insert m md (link_del m (reg_remove m w))). Qed.

Lemma drop_set_owner m fd fl own own' w :
  k_files w !! fd = Some fl → private_data fl = Some own →
  owner_unlink m own' = owner_unlink m own →
  drop_map m (set_owner fd fl own' w) = drop_map m w.
Proof.
  intros Hf Ho Hu. unfold drop_map. f_equal.
  change (reg_remove m (set_owner fd fl own' w)) with (set_owner fd fl own' (reg_remove m w)).
  unfold link_del, set_owner.
  trans ((reg_remove m w) <| k_files ::= λ F, file_unlink m <$> insert fd (fl <| private_data := Some own' |>) F |>);
    [reflexivity|].
  apply k_files_ext. change (k_files (reg_remove m w)) with (k_files w).
  rewrite fmap_insert. apply insert_id. rewrite lookup_fmap, Hf. cbn. f_equal.
  unfold file_unlink, set, set_private_data. cbn. by rewrite Ho, Hu.
Qed.

(** Counters that have not wrapped. *)
Definition counters_ok (own : snvm_dev_owner) : Prop :=
  0 ≤ own_nr_data_maps own < 2 ^ 32 - 1
  ∧ Forall (λ g, 0 ≤ g_nr_maps g < 2 ^ 32 - 1) (own_groups own).

#[export] Instance counters_ok_dec own : Decision (counters_ok own).
Proof. unfold counters_ok. apply _. Defined.

Lemma counter_down n : 0 ≤ n < 2 ^ 32 - 1 →
  u32 (u32 (n + 1) - 1) = n ∧ (if bool_decide (0 < u32 (n + 1)) then u32 (n + 1) - 1 else u32 (n + 1)) = n.
Proof.
  intros Hn. rewrite (wrap_small 32 (n + 1)) by lia. rewrite bool_decide_eq_true_2 by lia.
  rewrite wrap_small by lia. lia.
Qed.

Section map_ioctl.
Context `{E : Env} `{P : PeerMemory} `{POk : !PeerMemoryOk P}.
Implicit Types (w : kstate).

Lemma wp_the_owner fd fl (Q : outcome (option snvm_dev_owner) → kstate → Prop) w :
  k_files w !! fd = Some fl → Q (Ok (private_data fl)) w → wp (the_owner fd) Q w.
Proof. intros Hf HQ. apply wp_bind, (wp_the_file fd fl); [done|]. by apply wp_ret. Qed.

Lemma wp_copy_from (Q : outcome unit → kstate → Prop) w :
  Q (Err EFAULT) (w <| k_tick := S (k_tick w) |>) →
  Q (Ok tt) (w <| k_tick := S (k_tick w) |>) → wp copy_from_user Q w.
Proof. intros H1 H2. apply wp_bind, wp_tick, wp_guard; auto. Qed.

Lemma wp_copy_to (Q : outcome Z → kstate → Prop) w :
  (∀ left, Q (Ok left) (w <| k_tick := S (k_tick w) |>)) → wp copy_to_user Q w.
Proof. intros HQ. apply wp_bind, wp_tick, wp_ret, HQ. Qed.

Lemma find_qgroup_some own gid i g :
  find_qgroup_locked own gid = Some (i, g) →
  own_groups own !! i = Some g ∧ g_group_id g = gid ∧ gid ≠ 0.
Proof.
  unfold find_qgroup_locked. case_bool_decide; [done|].
  intros (Hi & Hg & _)%list_find_Some. done.
Qed.

(** What a failed mapping handler leaves: the descriptor [m] is gone and
    nothing else happened. *)
Definition undone (m : mapid) (w w0 : kstate) (r : outcome unit) (w' : kstate) : Prop :=
  r = Ok tt ∧ same_core (drop_map m w) w' ∧ extends quiet w0 w'.

Lemma unmap_undone m md w w0 :
  k_heap w0 !! m = Some md → map_ok md → ctrls_ok w0 →
  same_core (drop_map m w) (drop_map m w0) →
  wp (unmap_and_release m) (undone m w w0) w0.
Proof.
  intros Hm [Hok _] Hcs Hd. eapply wp_mono; [by apply (unmap_and_release_core m md)|].
  intros r w' (-> & Hc & Ht). split; [done|]. split; [by etrans|done].
Qed.

(** A new map [md] in a well-formed state, not yet attached. *)
Record new_in (w : kstate) (m : mapid) (md : map) : Prop := {
  new_wf : wf w;
  new_heap : k_heap w !! m = Some md;
  new_gid : m_group_id md = 0;
  new_kind : m_kind md = NVM_MAP_KIND_UNSPECIFIED;
  new_release : map_ok md;
  new_count : m_n_addrs md ≤ Z.of_nat (length (m_addrs md));
}.

(** The descriptor after tagging: same mapping, new tags. *)
Definition tagged (md md' : map) : Prop :=
  m_addrs md' = m_addrs md ∧ m_n_addrs md' = m_n_addrs md ∧ map_ok md'
  ∧ m_data md' = m_data md ∧ m_owner md' = m_owner md ∧ m_vaddr md' = m_vaddr md ∧ m_pdev md' = m_pdev md.

(** Attaching either fails with the map released, or leaves a well-formed
    state from which [detach_map] would restore the one before. *)
Definition attach_post (fd : fdid) (req : nvm_ioctl_map) (m : mapid) (md : map) (w : kstate)
    (r : outcome unit) (w' : kstate) : Prop :=
  extends quiet w w' ∧
  ((∃ e, r = Err e ∧ e ∈ [ENODEV; ENOENT] ∧ same_core (drop_map m w) w')
   ∨ (r = Ok tt ∧ wf w' ∧ (∃ md', k_heap w' !! m = Some md' ∧ tagged md md')
      ∧ (∀ r, reg_get r w' = reg_get r w)
      ∧ ∀ w'', same_core w' w'' → wp (detach_map fd req m) (undone m w w'') w'')).

Lemma attach_fail fd req m md md1 e w :
  new_in w m md → map_ok md1 → e ∈ [ENODEV; ENOENT] →
  wp (unmap_and_release m;; fail e) (attach_post fd req m md w) (w <| k_heap ::= insert m md1 |>).
Proof.
  intros [Hwf Hm _ _ _ _] Hok He. set (w1 := w <| k_heap ::= _ |>).
  apply wp_bind. eapply wp_mono; [apply (unmap_undone m md1 w w1)|].
  - apply lookup_insert_eq.
  - done.
  - exact (wf_ctrls w Hwf).
  - unfold w1. by rewrite drop_heap_insert.
  - intros r w' (-> & Hc & Ht). apply wp_fail. split; [exact Ht|]. left. by exists e.
Qed.

(** Detaching when there is nothing but the descriptor to undo. *)
Lemma detach_plain fd fl req m md w w' w'' :
  k_files w' !! fd = Some fl → map_kind req ≠ NVM_MAP_KIND_DATA → req_group_id req = 0 →
  k_heap w' !! m = Some md → map_ok md → ctrls_ok w' →
  same_core (drop_map m w) (drop_map m w') → same_core w' w'' →
  wp (detach_map fd req m) (undone m w w'') w''.
Proof.
  intros Hf Hk Hg Hm Hok Hcs Hd Hc. unfold detach_map.
  rewrite (same_core_field k_files _ _ (λ _, eq_refl) Hc) in Hf.
  apply wp_bind, (wp_the_owner fd fl); [done|]. apply wp_bind.
  rewrite bool_decide_eq_false_2 by done. rewrite (bool_decide_eq_false_2 (req_group_id req ≠ 0)) by auto.
  assert (Hrel : wp (unmap_and_release m) (undone m w w'') w'').
  { apply (unmap_undone m md); [by rewrite (map_of_core m _ _ Hc)|done|by eapply ctrls_ok_core|].
    etrans; [exact Hd|]. by apply drop_map_core. }
  destruct (private_data fl); apply wp_ret; exact Hrel.
Qed.

(** Detaching with one owner update in between. *)
Lemma detach_owner fd fl own' m md w w' w'' (f : snvm_dev_owner → snvm_dev_owner) :
  k_files w' !! fd = Some (fl <| private_data := Some own' |>) →
  k_heap w' !! m = Some md → map_ok md → ctrls_ok w' → same_core w' w'' →
  same_core (drop_map m w) (drop_map m (set_owner fd fl (f own') w')) →
  wp (upd_owner fd f;; unmap_and_release m) (undone m w w'') w''.
Proof.
  intros Hf Hm Hok Hcs Hc Hd.
  rewrite (same_core_field k_files _ _ (λ _, eq_refl) Hc) in Hf.
  apply wp_bind. eapply wp_upd_owner; [exact Hf|done|].
  set (w1 := w'' <| k_files ::= _ |>).
  assert (Hc1 : same_core (set_owner fd fl (f own') w') w1)
    by (by apply (same_core_update (set_owner fd fl (f own')))).
  eapply wp_mono; [apply (unmap_undone m md w w1)|].
  - rewrite (map_of_core m _ _ Hc1). exact Hm.
  - done.
  - by eapply ctrls_ok_core; [exact Hc1|].
  - etrans; [exact Hd|]. by apply drop_map_core.
  - intros r w2 (-> & H2 & Ht). split; [done|]. split; [done|]. exact Ht.
Qed.

Lemma set_owner_twice fd fl own1 own2 w :
  set_owner fd fl own2 (set_owner fd fl own1 w) = set_owner fd fl own2 w.
Proof.
  unfold set_owner.
  trans (w <| k_files ::= λ F, <[fd := fl <| private_data := Some own2 |>]>
               (<[fd := fl <| private_data := Some own1 |>]> F) |>); [reflexivity|].
  apply k_files_ext. apply insert_insert_eq.
Qed.

(** Undoing an attachment in the middle of a handler. *)
Lemma drop_attached m fd fl own own1 own2 md w :
  k_files w !! fd = Some fl → private_data fl = Some own →
  owner_unlink m own2 = owner_unlink m own →
  same_core (drop_map m w)
    (drop_map m (set_owner fd fl own2 ((set_owner fd fl own1 w) <| k_heap ::= insert m md |>))).
Proof.
  intros Hf Ho Hu.
  change (set_owner fd fl own2 ((set_owner fd fl own1 w) <| k_heap ::= insert m md |>))
    with ((set_owner fd fl own2 (set_owner fd fl own1 w)) <| k_heap ::= insert m md |>).
  by rewrite drop_heap_insert, set_owner_twice, (drop_set_owner m fd fl own).
Qed.

Lemma unlink_data_undo m own :
  counters_ok own →
  owner_unlink m (own <| own_data_maps ::= (.++ [m]) |> <| own_nr_data_maps ::= λ n, u32 (n + 1) |>
     <| own_nr_data_maps ::= λ n, if bool_decide (0 < n) then n - 1 else n |>)
  = owner_unlink m own.
Proof.
  intros [Hn _]. destruct (counter_down _ Hn) as [_ Hd]. destruct own. unfold owner_unlink, set,
    set_own_groups, set_own_data_maps, set_own_nr_data_maps. cbn in *. by rewrite Hd, without_snoc.
Qed.

Lemma unlink_group_undo m own i :
  counters_ok own →
  owner_unlink m (own <| own_groups ::= alter (λ g, g <| g_maps ::= (.++ [m]) |>
                                                     <| g_nr_maps ::= λ n, u32 (n + 1) |>) i |>
                      <| own_groups ::= alter (λ g, g <| g_nr_maps ::= λ n, u32 (n - 1) |>) i |>)
  = owner_unlink m own.
Proof.
  intros [_ Hn]. destruct own as [c t gs n ds nd]. unfold owner_unlink, set, set_own_groups, set_own_data_maps.
  cbn in *. f_equal. revert i. induction Hn as [|g gs Hg _ IH]; intros i; [by destruct i|].
  destruct i as [|i]; cbn; f_equal.
  - destruct g. unfold set, set_g_maps, set_g_nr_maps. cbn in *.
    by rewrite without_snoc, (proj1 (counter_down _ Hg)).
  - apply IH.
Qed.

Lemma find_qgroup_gviews own own' gid :
  fmap g_group_id (own_groups own') = fmap g_group_id (own_groups own) →
  fst <$> find_qgroup_locked own' gid = fst <$> find_qgroup_locked own gid.
Proof.
  intros He. unfold find_qgroup_locked. case_bool_decide; [done|].
  revert He. generalize (own_groups own) (own_groups own'). intros l l' He.
  revert l' He. induction l as [|g l IH]; intros [|g' l'] He; try done.
  cbn in He. injection He as Hg Hl. specialize (IH l' Hl). cbn.
  rewrite Hg. destruct (decide (g_group_id g = gid)); [done|].
  destruct (list_find _ l') as [[]|], (list_find _ l) as [[]|]; cbn in *; by simplify_eq.
Qed.

Lemma attach_data_spec fd fl own req m md w :
  new_in w m md → k_files w !! fd = Some fl → private_data fl = Some own → counters_ok own →
  map_kind req = NVM_MAP_KIND_DATA →
  wp (upd_owner fd (λ own, own <| own_data_maps ::= (.++ [m]) |>
                               <| own_nr_data_maps ::= λ n, u32 (n + 1) |>))
     (attach_post fd req m md w)
     (w <| k_heap ::= insert m (md <| m_kind := map_kind req |>) |>).
Proof.
  intros [Hwf Hm Hg Hk Hok Hn] Hf Ho Hcnt Hdata. set (md1 := md <| m_kind := map_kind req |>).
  apply (wp_upd_owner fd fl own); [done|done|]. split; [by apply extends_same|]. right.
  set (own' := own <| own_data_maps ::= _ |> <| _ ::= _ |>). split; [done|].
  set (w2 := _ <| k_files ::= _ |>).
  change w2 with ((set_owner fd fl own' w) <| k_heap ::= insert m md1 |>). clear w2.
  split; [apply (wf_attach_data fd fl own m md); try done; by rewrite Hk|].
  split; [exists md1; split; [apply lookup_insert_eq|done]|]. split; [done|].
  intros w'' Hc. unfold detach_map.
  apply wp_bind, (wp_the_owner fd (fl <| private_data := Some own' |>)).
  { rewrite <- (same_core_field k_files _ _ (λ _, eq_refl) Hc). apply lookup_insert_eq. }
  change (private_data (fl <| private_data := Some own' |>)) with (Some own').
  cbv iota. rewrite bool_decide_eq_true_2 by done.
  apply (detach_owner fd fl own' m md1 w ((set_owner fd fl own' w) <| k_heap ::= insert m md1 |>)); try done.
  - apply lookup_insert_eq.
  - apply lookup_insert_eq.
  - exact (wf_ctrls w Hwf).
  - apply (drop_attached m fd fl own); [done|done|]. by apply unlink_data_undo.
Qed.

Lemma alter_group_ids (gs : list snvm_qgroup) (i : nat) (F : snvm_qgroup → snvm_qgroup) :
  (∀ g, g_group_id (F g) = g_group_id g) →
  g_group_id <$> alter F i gs = g_group_id <$> gs.
Proof.
  intros HF. revert i. induction gs as [|g gs IH]; intros [|i]; try done; cbn; f_equal; [apply HF|apply IH].
Qed.

Lemma attach_group_spec fd fl own req i g m md w :
  new_in w m md → k_files w !! fd = Some fl → private_data fl = Some own → counters_ok own →
  map_kind req ≠ NVM_MAP_KIND_DATA → req_group_id req ≠ 0 →
  find_qgroup_locked own (req_group_id req) = Some (i, g) →
  wp (upd_map m (λ md, md <| m_group_id := req_group_id req |>);;
      upd_group fd i (λ g, g <| g_maps ::= (.++ [m]) |> <| g_nr_maps ::= λ n, u32 (n + 1) |>))
     (attach_post fd req m md w)
     (w <| k_heap ::= insert m (md <| m_kind := map_kind req |>) |>).
Proof.
  intros [Hwf Hm Hg Hk Hok Hn] Hf Ho Hcnt Hdata Hid Hfind.
  destruct (find_qgroup_some _ _ _ _ Hfind) as (Hi & Hgid & _).
  apply wp_bind, (wp_upd_map m (md <| m_kind := map_kind req |>)); [apply lookup_insert_eq|].
  rewrite heap_insert_insert. set (md2 := md <| m_kind := _ |> <| m_group_id := _ |>).
  apply (wp_upd_owner fd fl own); [done|done|]. split; [by apply extends_same|]. right.
  set (F := λ g, g <| g_maps ::= _ |> <| _ ::= _ |>).
  set (own' := own <| own_groups ::= alter F i |>). split; [done|].
  set (w2 := _ <| k_files ::= _ |>).
  change w2 with ((set_owner fd fl own' w) <| k_heap ::= insert m md2 |>). clear w2.
  split; [apply (wf_attach_group fd fl own i g m md); try done; by rewrite Hk|].
  split; [exists md2; split; [apply lookup_insert_eq|done]|]. split; [done|].
  intros w'' Hc. unfold detach_map.
  apply wp_bind, (wp_the_owner fd (fl <| private_data := Some own' |>)).
  { rewrite <- (same_core_field k_files _ _ (λ _, eq_refl) Hc). apply lookup_insert_eq. }
  change (private_data (fl <| private_data := Some own' |>)) with (Some own').
  cbv iota. rewrite bool_decide_eq_false_2 by done. rewrite bool_decide_eq_true_2 by done.
  assert (Hf' : ∃ g', find_qgroup_locked own' (req_group_id req) = Some (i, g')).
  { pose proof (find_qgroup_gviews own own' (req_group_id req) (alter_group_ids _ i F (λ _, eq_refl))) as He.
    rewrite Hfind in He. destruct (find_qgroup_locked own' _) as [[j g']|]; [|done].
    cbn in He. exists g'. congruence. }
  destruct Hf' as [g' ->].
  apply (detach_owner fd fl own' m md2 w ((set_owner fd fl own' w) <| k_heap ::= insert m md2 |>)); try done.
  - apply lookup_insert_eq.
  - apply lookup_insert_eq.
  - exact (wf_ctrls w Hwf).
  - apply (drop_attached m fd fl own); [done|done|]. by apply unlink_group_undo.
Qed.

(** attach_map on the tagged descriptor. *)
Lemma attach_map_spec fd fl req m md w :
  new_in w m md → k_files w !! fd = Some fl →
  (∀ own, private_data fl = Some own → counters_ok own) →
  wp (attach_map fd req m) (attach_post fd req m md w)
     (w <| k_heap ::= insert m (md <| m_kind := map_kind req |>) |>).
Proof.
  intros Hnew Hf Hcnt. pose proof Hnew as [Hwf Hm Hg Hk Hok Hn].
  unfold attach_map. case_bool_decide as Hdata.
  - apply wp_bind, (wp_the_owner fd fl); [done|].
    destruct (private_data fl) as [own|] eqn:Ho; [|apply attach_fail; [done|done|set_solver]].
    apply (attach_data_spec fd fl own); auto.
  - case_bool_decide as Hid.
    + apply wp_bind, (wp_the_owner fd fl); [done|].
      destruct (private_data fl) as [own|] eqn:Ho; [|apply attach_fail; [done|done|set_solver]].
      destruct (find_qgroup_locked own _) as [[i g]|] eqn:Hfind;
        [|apply attach_fail; [done|done|set_solver]].
      apply (attach_group_spec fd fl own req i g); auto.
    + apply wp_ret. split; [by apply extends_same|]. right. split; [done|].
      assert (Hwf' : wf (w <| k_heap ::= insert m (md <| m_kind := map_kind req |>) |>)).
      { apply (wf_retag m md); try done; by rewrite Hk. }
      split; [done|]. split; [eexists; split; [apply lookup_insert_eq|done]|]. split; [done|].
      intros w'' Hc.
      eapply (detach_plain fd fl req m (md <| m_kind := map_kind req |>) w
        (w <| k_heap ::= insert m (md <| m_kind := map_kind req |>) |>)); try done.
      * apply lookup_insert_eq.
      * exact (wf_ctrls w Hwf).
      * by rewrite drop_heap_insert.
Qed.

(** Everything after the type-specific mapping step. *)
Definition finish_post (m : mapid) (md : map) (w : kstate) (r : outcome (Z * uout)) (w' : kstate) : Prop :=
  extends quiet w w' ∧
  match r with
  | Ok (ret, out) =>
      ret = 0 ∧ wf w' ∧ out = OutAddrs (take (Z.to_nat (m_n_addrs md)) (m_addrs md))
      ∧ (∀ r, reg_get r w' = reg_get r w)
      ∧ ∃ md', k_heap w' !! m = Some md' ∧ tagged md md'
  | Err e => e ∈ [ENODEV; ENOENT; EFAULT] ∧ same_core (drop_map m w) w'
  | Fault _ => False
  end.

Lemma finish_map_spec fd fl req m md w :
  new_in w m md → k_files w !! fd = Some fl →
  (∀ own, private_data fl = Some own → counters_ok own) →
  wp (finish_map fd req m) (finish_post m md w) w.
Proof.
  intros Hnew Hf Hcnt. pose proof Hnew as [Hwf Hm _ _ _ Hn]. unfold finish_map.
  apply wp_bind, (wp_upd_map m md); [done|]. apply wp_bind.
  eapply wp_mono; [by apply (attach_map_spec fd fl req m md)|].
  intros r w1 (Ht & [(e & -> & He & Hc)|(-> & Hwf1 & (md' & Hm' & (Ha & Hna & Hok')) & Hreg & Hundo)]).
  { split; [done|]. split; [set_solver|done]. }
  apply wp_bind, (wp_the_map m md'); [done|].
  apply wp_bind, (wp_from_opt _ _ (take (Z.to_nat (m_n_addrs md)) (m_addrs md))).
  { unfold map_addrs. rewrite Ha, Hna. by rewrite bool_decide_eq_true_2. }
  apply wp_bind, wp_copy_to. intros left. case_bool_decide.
  - apply wp_bind. eapply wp_mono; [apply Hundo; reflexivity|].
    intros r w2 (-> & Hc & Ht2). apply wp_fail. split; [by etrans|]. split; [set_solver|done].
  - apply wp_ret. split; [exact Ht|]. split; [done|].
    split; [by eapply wf_core; [|exact Hwf1]|]. split; [done|]. split; [exact Hreg|].
    by exists md'.
Qed.

Lemma wf_untouched w w' : wf w → untouched w w' → wf w'.
Proof.
  intros H [Hc Hle]. eapply wf_core; [exact Hc|]. destruct H as [H1 (? & ? & HF) H3 H4 H5 H6 H7 H8 H9].
  split; try done. split; [done|]. split; [done|]. cbn. eapply map_Forall_impl; [exact HF|].
  intros m md [? ?]. split; [done|lia].
Qed.

(** Outcome of a mapping handler: a well-formed state with one new descriptor
    at the end of registry [r] and of no other, which satisfies [made] and
    whose bus addresses were copied out, or nothing at all. *)
Definition map_ioctl_post (r : registry) (made : map → list event → Prop) (w : kstate)
    (res : outcome (Z * uout)) (w' : kstate) : Prop :=
  extends quiet w w' ∧ wf w' ∧
  match res with
  | Ok (ret, out) =>
      ret = 0 ∧ ∃ md, k_heap w' !! k_next w = Some md
        ∧ out = OutAddrs (take (Z.to_nat (m_n_addrs md)) (m_addrs md))
        ∧ reg_get r w' = reg_get r w ++ [k_next w] ∧ (∀ r', r' ≠ r → reg_get r' w' = reg_get r' w)
        ∧ made md (k_trace w')
  | Err _ => untouched w w'
  | Fault _ => False
  end.

(** What a caller learns of a descriptor does not depend on its tags, and is
    not undone by later events. *)
Record stable (made : map → list event → Prop) : Prop := {
  stable_tags md md' tr : m_data md' = m_data md → m_owner md' = m_owner md → m_vaddr md' = m_vaddr md →
    m_pdev md' = m_pdev md → made md tr → made md' tr;
  stable_trace md w w' : extends quiet w w' → made md (k_trace w) → made md (k_trace w');
}.

(** From the mapping step to the whole handler. *)
Lemma finish_mapped fd fl req r made md w w1 :
  stable made → made md (k_trace w1) →
  wf w → k_files w !! fd = Some fl → (∀ own, private_data fl = Some own → counters_ok own) →
  same_core (reg_insert r (k_next w) (alloc_map (k_next w) md w)) w1 → extends quiet w w1 →
  m_group_id md = 0 → m_kind md = NVM_MAP_KIND_UNSPECIFIED → map_ok md →
  m_n_addrs md ≤ Z.of_nat (length (m_addrs md)) →
  wp (finish_map fd req (k_next w)) (map_ioctl_post r made w) w1.
Proof.
  intros Hst Hmd Hwf Hf Hcnt Hs Hq Hg Hk Hok Hn. set (m := k_next w) in *.
  assert (Hwf1 : wf w1).
  { eapply wf_core; [exact Hs|]. apply wf_alloc; try done. by rewrite Hk. }
  assert (Hm1 : k_heap w1 !! m = Some md).
  { rewrite (map_of_core m _ _ Hs). destruct r; apply lookup_insert_eq. }
  assert (Hf1 : k_files w1 !! fd = Some fl).
  { rewrite <- (same_core_field k_files _ _ (λ _, eq_refl) Hs). by destruct r. }
  assert (Hreg1 : reg_get r w1 = reg_get r w ++ [m] ∧ ∀ r', r' ≠ r → reg_get r' w1 = reg_get r' w).
  { split; [|intros r' Hr']; rewrite <- (same_core_field (reg_get _) _ _ (λ _, ltac:(by destruct r || by destruct r')) Hs);
      [by destruct r|by destruct r, r']. }
  eapply wp_mono; [apply (finish_map_spec fd fl req m md w1); [by split|done|done]|].
  intros res w2 [Ht Hres]. split; [by etrans|]. destruct res as [[ret out]|e|f]; [| |done].
  - destruct Hres as (-> & Hwf2 & -> & Hreg & md' & Hm' & Ha & Hna & _ & T1 & T2 & T3 & T4).
    split; [done|]. split; [done|]. exists md'. split; [done|]. rewrite Ha, Hna. split; [done|].
    destruct Hreg1 as [R1 R2]. rewrite Hreg. split; [done|]. split; [intros r' Hr'; rewrite Hreg; by apply R2|].
    apply (stable_trace _ Hst _ w1); [done|]. by apply (stable_tags _ Hst md).
  - destruct Hres as [_ Hc]. assert (Hun : untouched w w2).
    { apply (drop_alloc m md w (alloc_map m md w)); try done.
      - by apply wf_unlisted, wf_fresh.
      - by apply wf_fresh.
      - etrans; [|exact Hc]. rewrite <- (drop_reg_insert r). by apply drop_map_core. }
    split; [by apply (wf_untouched w)|done].
Qed.

Lemma check_map_spec req w (Q : outcome unit → kstate → Prop) :
  Q (Err EINVAL) w → (map_kind req ≤ NVM_MAP_KIND_DATA → Q (Ok tt) w) →
  wp (check_map_request req) Q w.
Proof.
  intros He Ho. unfold check_map_request.
  apply wp_bind, wp_guard; [done|]. intros _.
  apply wp_bind, wp_guard; [done|]. intros Hk%bool_decide_eq_false.
  apply wp_guard; [done|]. intros _. apply Ho. lia.
Qed.

Lemma map_ioctl_err r made e w w' :
  wf w → untouched w w' → extends quiet w w' → map_ioctl_post r made w (Err e) w'.
Proof. intros Hwf Hu Ht. split; [done|]. split; [by apply (wf_untouched w)|done]. Qed.

(** The mapping handlers, for any mapping step that either answers the
    request or leaves no trace. *)
Lemma map_handler_spec fd fl req r reqd good bad made (step : K mapid) w :
  stable made →
  wf w → k_files w !! fd = Some fl → (∀ own, private_data fl = Some own → counters_ok own) →
  m_group_id reqd = 0 → m_kind reqd = NVM_MAP_KIND_UNSPECIFIED →
  (∀ w0, same_core w w0 → k_trace w0 = k_trace w → wp step (mapped r reqd w0 (good w0) (bad w0)) w0) →
  (∀ w0 md w', same_core w w0 → k_trace w0 = k_trace w → same_request reqd md → good w0 md w' →
     m_n_addrs md ≤ Z.of_nat (length (m_addrs md)) ∧ m_addrs md ≠ [] ∧ extends quiet w0 w' ∧ made md (k_trace w')) →
  (∀ w0 w', bad w0 w' → extends quiet w0 w') →
  wp (copy_from_user;; check_map_request req;; m ← step; finish_map fd req m)
     (map_ioctl_post r made w) w.
Proof.
  intros Hst Hwf Hf Hcnt Hg Hk Hstep Hgood Hbad. set (w0 := w <| k_tick := S (k_tick w) |>).
  assert (H0 : same_core w w0) by core_eq.
  assert (Hstop : ∀ e, map_ioctl_post r made w (Err e) w0).
  { intros e. apply map_ioctl_err; [done|by apply untouched_core|by apply extends_same]. }
  apply wp_bind, wp_copy_from; [apply Hstop|]. apply wp_bind, check_map_spec; [apply Hstop|]. intros _.
  apply wp_bind. eapply wp_mono; [by apply (Hstep w0)|].
  intros [m|e|f] w1 Hres; [| |done].
  - destruct Hres as (-> & md & Hs & Hreq & Hok & Hgd).
    destruct (Hgood w0 md w1) as (Hn & Hne & Hq & Hmade); [done..|].
    destruct Hreq as (_ & _ & _ & _ & Eg & Ek & _).
    eapply wp_mono; [apply (finish_mapped fd fl req r made md w0 w1); try done; try congruence|].
    + by apply (wf_core w).
    + intros res w2 (T & W & R). split; [exact T|]. split; [done|].
      destruct res as [[ret out]|e|f]; [|destruct R as [Hc Hle]; by split|done].
      destruct R as (-> & md2 & A1 & A2 & A3 & A4 & A5). split; [done|]. by exists md2.
  - destruct Hres as [[Hc Hle] Hb]. apply map_ioctl_err; [done|by split|]. by apply (Hbad w0).
Qed.

(** The request a host mapping answers: the caller's, at the page of the
    address, for the controller's device. *)
Definition host_made (cur : task) (ct : ctrl) (v : Z) (md : map) (_ : list event) : Prop :=
  m_owner md = cur ∧ m_vaddr md = align_down PAGE_SHIFT v ∧ m_pdev md = c_pdev ct.

(** A GPU mapping: the caller's, at the GPU page of the address, pinned by
    Phoenix or mapped on the device of every listed controller. *)
Definition device_made (cur : task) (v : Z) (ds : list pdevid) (md : map) (tr : list event) : Prop :=
  m_owner md = cur ∧ m_vaddr md = align_down GPU_PAGE_SHIFT v ∧ gpu_spread ds md tr.

Lemma host_made_stable cur ct v : stable (host_made cur ct v).
Proof. split; [|done]. intros md md' tr _ E1 E2 E3 (? & ? & ?). split; [congruence|]. split; congruence. Qed.

Lemma device_made_stable cur v ds : stable (device_made cur v ds).
Proof.
  split; [intros md md' tr E0 E1 E2 _ (? & ? & ?)|intros md w w' He (? & ? & ?)].
  - split; [congruence|]. split; [congruence|]. by eapply gpu_spread_data.
  - split; [done|]. split; [done|]. by eapply gpu_spread_extends.
Qed.

Lemma ioctl_map_host_ok `{EOk : !EnvOk E} cur fd fl c ct req w :
  wf w → k_files w !! fd = Some fl → (∀ own, private_data fl = Some own → counters_ok own) →
  k_ctrls w !! c = Some ct →
  wp (ioctl_map_host cur fd c req) (map_ioctl_post HostList (host_made cur ct (vaddr_start req)) w) w.
Proof.
  intros Hwf Hf Hcnt Hc. set (n := n_pages req). set (v := vaddr_start req).
  apply (map_handler_spec fd fl req HostList (host_request cur ct v n) (host_good n) balanced); try done; [apply host_made_stable|..].
  - intros w0 H0 _. assert (Hwf0 : wf w0) by (by apply (wf_core w)).
    apply map_userspace_spec; [|by apply wf_unlisted, wf_fresh|by apply wf_fresh].
    by rewrite <- (same_core_field k_ctrls _ _ (λ _, eq_refl) H0).
  - intros w0 md w' H0 _ (Ho & Hv & Hp & _ & _ & _ & _ & Hl) (Hn & Hna & Hcase). split_and!.
    + rewrite Hl. cbn. rewrite length_replicate. lia.
    + intros E0. rewrite E0 in Hl. cbn in Hl. rewrite length_replicate in Hl. lia.
    + destruct Hcase as [[_ Ht]|(ps & _ & _ & Ht)]; [by apply extends_same|].
      eexists. split; [exact Ht|]. apply host_mapping_quiet.
    + split; [exact Ho|]. split; [exact Hv|exact Hp].
  - intros w0 w' (tr & Ht & _ & HF). by exists tr.
Qed.

Lemma ioctl_map_device_ok `{EOk : !EnvOk E} cur fd fl c req w :
  wf w → k_files w !! fd = Some fl → (∀ own, private_data fl = Some own → counters_ok own) →
  is_Some (k_ctrls w !! c) → GPU_PAGE_SIZE * n_pages req < 2 ^ 64 →
  wp (ioctl_map_device cur fd c req)
    (map_ioctl_post DeviceList (device_made cur (vaddr_start req) (ctrl_devices w)) w) w.
Proof.
  intros Hwf Hf Hcnt [ct Hc] Hov. set (n := n_pages req) in *. set (v := vaddr_start req).
  apply (map_handler_spec fd fl req DeviceList (gpu_request cur ct v n)
    (λ w md w', 1 ≤ n ∧ 0 ≤ m_n_addrs md ≤ n ∧ extends quiet w w' ∧ gpu_spread (ctrl_devices w) md (k_trace w'))
    (extends quiet)); try done; [apply device_made_stable|..].
  - intros w0 H0 _. assert (Hwf0 : wf w0) by (by apply (wf_core w)).
    apply map_device_memory_spec; [|by apply wf_unlisted, wf_fresh|by apply wf_fresh|by apply wf_ctrls|done].
    by rewrite <- (same_core_field k_ctrls _ _ (λ _, eq_refl) H0).
  - intros w0 md w' H0 _ (Ho & Hv & _ & _ & _ & _ & _ & Hl) (Hn & Hna & Ht & Hsp).
    split; [|split; [|split; [done|split; [exact Ho|split; [exact Hv|by rewrite <- (ctrl_devices_core _ _ H0)]]]]].
    + rewrite Hl. cbn. rewrite length_replicate. lia.
    + intros E0. rewrite E0 in Hl. cbn in Hl. rewrite length_replicate in Hl. lia.
Qed.

(** ** Unmapping *)

Lemma alter_same_lists own i (F : snvm_qgroup → snvm_qgroup) :
  (∀ g, gview (F g) = gview g ∧ g_maps (F g) = g_maps g) →
  same_lists own (own <| own_groups ::= alter F i |>).
Proof.
  intros HF. split; [done|]. split; [done|]. split; [done|]. cbn.
  revert i. induction (own_groups own) as [|g gs IH]; intros [|i]; cbn; try by constructor.
  constructor; [apply HF|]. apply Forall2_same_length_lookup_2; [done|].
  intros k x y Hx Hy. by simplify_eq.
Qed.

(** The bookkeeping of counters touches nothing else. *)
Lemma unmap_counters_spec fd fl m md w :
  wf w → k_files w !! fd = Some fl → k_heap w !! m = Some md →
  wp (unmap_counters fd m) (λ r w', r = Ok tt ∧ wf w' ∧ k_heap w' = k_heap w
    ∧ registries w' = registries w ∧ k_trace w' = k_trace w) w.
Proof.
  intros Hwf Hf Hm. unfold unmap_counters. apply wp_bind, (wp_the_owner fd fl); [done|].
  apply wp_bind, (wp_the_map m md); [done|].
  destruct (private_data fl) as [own|] eqn:Ho; [|by apply wp_ret].
  case_bool_decide.
  { eapply wp_upd_owner; [done|done|]. split; [done|].
    split; [apply (wf_same_lists fd fl own); try done|done].
    split; [done|]. split; [done|]. split; [done|]. cbn. apply Forall2_same_length_lookup_2; [done|].
    intros k x y Hx Hy. by simplify_eq. }
  case_bool_decide; [|by apply wp_ret].
  destruct (find_qgroup_locked _ _) as [[i g]|]; [|by apply wp_ret].
  eapply wp_upd_owner; [done|done|]. split; [done|].
  split; [apply (wf_same_lists fd fl own); try done|done]. by apply alter_same_lists.
Qed.

(** Outcome of an unmapping handler. *)
Definition unmap_post (cur : task) (r : registry) (addr : Z) (w : kstate)
    (res : outcome (Z * uout)) (w' : kstate) : Prop :=
  extends quiet w w' ∧ wf w' ∧
  match res with
  | Ok (ret, out) =>
      ret = 0 ∧ out = OutNone ∧ ∃ m md, m ∈ reg_get r w ∧ k_heap w !! m = Some md
        ∧ hit cur addr md ∧ k_heap w' = delete m (k_heap w)
        ∧ registries w' = without m (registries w)
  | Err e => same_core w w' ∧ (e = EFAULT ∨ e = EINVAL ∧
      Forall (λ m, ∀ md, k_heap w !! m = Some md → ¬ hit cur addr md) (reg_get r w))
  | Fault _ => False
  end.

(** From a found descriptor to the end of the handler. *)
Lemma unmap_found cur r addr m md w w1 :
  wf w → m ∈ reg_get r w → k_heap w !! m = Some md → hit cur addr md →
  wf w1 → k_heap w1 = k_heap w → registries w1 = registries w → k_trace w1 = k_trace w →
  wp (unmap_and_release m;; mret (0, OutNone)) (unmap_post cur r addr w) w1.
Proof.
  intros Hwf Hin Hm Hh Hwf1 Eh Er Et. apply wp_bind.
  eapply wp_mono; [apply (unmap_and_release_core m md)|].
  - by rewrite Eh.
  - by apply (wf_heap_release w m).
  - by apply wf_ctrls.
  - intros res w2 (-> & Hc & Ht). apply wp_ret.
    split; [destruct Ht as (tr & Ht & HF); exists tr; by rewrite <- Et|].
    split; [by eapply wf_core, wf_drop|]. split; [done|]. split; [done|].
    exists m, md. do 3 (split; [done|]). split.
    + rewrite <- (same_core_field k_heap _ _ (λ _, eq_refl) Hc). unfold drop_map. cbn. by rewrite Eh.
    + rewrite <- (same_core_field registries _ _ (λ _, eq_refl) Hc), <- Er.
      unfold registries. by rewrite <- without_app3.
Qed.

Lemma unmap_search cur r addr (k : option mapid → K (Z * uout)) w :
  wf w →
  (∀ m md w0, same_core w w0 → k_trace w0 = k_trace w → m ∈ reg_get r w → k_heap w !! m = Some md →
     hit cur addr md → wp (k (Some m)) (unmap_post cur r addr w) w0) →
  k None = fail EINVAL →
  wp (copy_from_user;; found ← map_find cur r addr; k found) (unmap_post cur r addr w) w.
Proof.
  intros Hwf Hk Hnone. set (w0 := w <| k_tick := S (k_tick w) |>).
  assert (H0 : same_core w w0) by core_eq. assert (Hwf0 : wf w0) by (by apply (wf_core w)).
  apply wp_bind, wp_copy_from.
  { split; [by apply extends_same|]. split; [done|]. split; [done|by left]. }
  apply wp_bind. eapply wp_mono; [apply (map_find_ok cur r addr w0)|].
  { destruct (wf_registry r w0 Hwf0) as [_ HF]. eapply Forall_impl; [exact HF|].
    intros m (md & Hm & _). eauto. }
  assert (Er : reg_get r w0 = reg_get r w) by (by destruct r).
  intros res w1 [-> [(m & md & l1 & l2 & -> & Hl & Hm & Hh & _)|[-> HF]]].
  - apply (Hk m md); try done. rewrite <- Er, Hl. set_solver.
  - rewrite Hnone. apply wp_fail. split; [by apply extends_same|]. split; [done|]. split; [done|].
    right. by rewrite Er in HF.
Qed.

Lemma ioctl_unmap_ok cur fd fl r addr w :
  wf w → k_files w !! fd = Some fl →
  wp (ioctl_unmap cur fd r addr) (unmap_post cur r addr w) w.
Proof.
  intros Hwf Hf. apply unmap_search; [done| |done].
  intros m md w0 H0 T0 Hin Hm Hh. assert (Hwf0 : wf w0) by (by apply (wf_core w)).
  apply wp_bind. eapply wp_mono; [apply (unmap_counters_spec fd fl m md w0)|].
  - done.
  - by rewrite <- (same_core_field k_files _ _ (λ _, eq_refl) H0).
  - by rewrite (map_of_core m _ _ H0).
  - intros r1 w1 (-> & Hwf1 & Eh & Er & Et).
    apply (unmap_found cur r addr m md w w1); try done; [| |congruence].
    + by rewrite Eh, <- (same_core_field k_heap _ _ (λ _, eq_refl) H0).
    + by rewrite Er, <- (same_core_field registries _ _ (λ _, eq_refl) H0).
Qed.

Lemma ioctl_unmap_queue_ok cur addr w :
  wf w → wp (ioctl_unmap_queue cur addr) (unmap_post cur DeviceQueueList addr w) w.
Proof.
  intros Hwf. apply unmap_search; [done| |done].
  intros m md w0 H0 T0 Hin Hm Hh. apply (unmap_found cur DeviceQueueList addr m md w w0); try done.
  - by apply (wf_core w).
  - by rewrite <- (same_core_field k_heap _ _ (λ _, eq_refl) H0).
  - by rewrite <- (same_core_field registries _ _ (λ _, eq_refl) H0).
Qed.
End map_ioctl.
