(* ===== verification/GroupInv.v ===== *)
(** * GroupInv: the invariant under changes of a queue group

    Adding a group to an open file, changing its queues together with the
    controller's queue-id pool, and removing it. *)
From S2P Require Import Prelude.
From S2P Require Import Uapi.
From S2P Require Import Kernel.
From S2P Require Import QidPool.
From S2P Require Import Map.
From S2P Require Import MapGpu.
From S2P Require Import Ctrl.
From S2P Require Import Qgroup.
From S2P Require Import DevIoctl.
From S2P Require Import AddQueue.
From S2P Require Import Invariant.
From S2P Require Import MapIoctl.

(** ** Controller tables that agree up to a pool *)

Lemma ctrls_ok_insert c ct ct' w :
  ctrls_ok w → k_ctrls w !! c = Some ct → ctrls_ok (w <| k_ctrls ::= insert c ct' |>).
Proof.
  intros [Hl HF] Hc. split; [done|]. eapply Forall_impl; [exact HF|]. intros x Hx. cbn.
  rewrite lookup_insert_is_Some'. auto.
Qed.

Lemma owners_ok_insert_ctrl O cs c ct' : owners_ok O cs → owners_ok O (<[c := ct']> cs).
Proof.
  intros H fd own HO. destruct (H fd own HO) as (Hc & Hn & Hle). split; [|done].
  rewrite lookup_insert_is_Some'. auto.
Qed.

Lemma pdevs_ok_insert cs ps c ct ct' :
  pdevs_ok cs ps → cs !! c = Some ct → c_pdev ct' = c_pdev ct → pdevs_ok (<[c := ct']> cs) ps.
Proof.
  intros H Hc Hp. apply map_Forall_insert_2; [|done]. rewrite Hp. by apply (H c ct).
Qed.

(** ** One file's group, seen through the views *)

(** [slot_at] after the group of [fd] was replaced. *)
Lemma slot_at_insert V fd c g c' q p :
  slot_at (<[fd := (c, g)]> V) c' q p ↔
  (p.1 = fd ∧ c' = c ∧ ∃ u, g_queues g !! p.2 = Some u ∧ uq_alive u = true ∧ uq_qid u = q)
  ∨ (p.1 ≠ fd ∧ slot_at V c' q p).
Proof.
  unfold slot_at. destruct (decide (p.1 = fd)) as [Hp|Hp].
  - rewrite Hp, lookup_insert_eq. split.
    + intros (g0 & u & [= <- <-] & Hu). left. eauto.
    + intros [(_ & -> & u & Hu)|[? _]]; [|done]. eauto.
  - rewrite lookup_insert_ne by congruence. split; [by right|]. intros [(? & _)|[_ ?]]; done.
Qed.

Lemma slot_at_delete V fd c q p :
  slot_at (delete fd V) c q p ↔ p.1 ≠ fd ∧ slot_at V c q p.
Proof.
  unfold slot_at. destruct (decide (p.1 = fd)) as [Hp|Hp].
  - rewrite Hp, lookup_delete_eq. split; [by intros (? & ? & ? & _)|by intros [? _]].
  - rewrite lookup_delete_ne by congruence. split; [auto|by intros [_ ?]].
Qed.

Lemma elem_of_alive q slots :
  q ∈ alive_qids slots ↔ ∃ s u, slots !! s = Some u ∧ uq_alive u = true ∧ uq_qid u = q.
Proof.
  unfold alive_qids. rewrite list_elem_of_fmap. split.
  - intros (u & -> & [Ha (s & Hs)%list_elem_of_lookup]%list_elem_of_filter). eauto.
  - intros (s & u & Hs & Ha & <-). exists u. split; [done|]. apply list_elem_of_filter.
    split; [done|]. by eapply list_elem_of_lookup_2.
Qed.

Lemma alive_rev q slots : q ∈ alive_qids (rev slots) ↔ q ∈ alive_qids slots.
Proof.
  unfold alive_qids. rewrite !list_elem_of_fmap. setoid_rewrite list_elem_of_filter.
  by setoid_rewrite elem_of_rev.
Qed.

(** A slot of [fd] is a live queue of its group. *)
Lemma slot_at_fd V fd c g c' q s :
  V !! fd = Some (c, g) → slot_at V c' q (fd, s) → c' = c ∧ q ∈ alive_qids (g_queues g).
Proof.
  intros HV (g0 & u & Hg & Hu & Ha & Hq). cbn in *. simplify_eq. split; [done|].
  apply elem_of_alive. eauto.
Qed.

Lemma alive_slot V fd c g q :
  V !! fd = Some (c, g) → q ∈ alive_qids (g_queues g) → ∃ s, slot_at V c q (fd, s).
Proof. intros HV (s & u & Hs & Ha & Hq)%elem_of_alive. exists s, g, u. done. Qed.

(** ** Removing a group *)

Lemma groups_ok_delete V ida fd v :
  groups_ok V ida → V !! fd = Some v → groups_ok (delete fd V) (ida ∖ {[g_group_id v.2]}).
Proof.
  intros (HF & Hiff & Huniq) HV. split; [by apply map_Forall_delete|]. split.
  - intros i. rewrite elem_of_difference, elem_of_singleton, Hiff. split.
    + intros [(fd' & v' & HV' & Hi) Hne]. exists fd', v'. split; [|done].
      rewrite lookup_delete_ne; [done|]. intros ->. congruence.
    + intros (fd' & v' & [Hne HV']%lookup_delete_Some & Hi). split; [eauto|].
      intros ->. apply Hne. symmetry. by eapply Huniq.
  - intros fd1 fd2 v1 v2 [_ H1]%lookup_delete_Some [_ H2]%lookup_delete_Some. by apply Huniq.
Qed.

(** Frees keep the pool well-formed, and an uninitialised one so. *)
Lemma pool_bitmap_after ct qs ct' :
  (∀ bm, user_qid_bitmap ct = Some bm → pool_ok ct bm) → pool_after ct qs ct' →
  ∀ bm, user_qid_bitmap ct' = Some bm → pool_ok ct' bm.
Proof.
  intros Hp ((b & -> & Hnone) & _ & Hpool & _) bm Hbm. cbn in Hbm. subst b.
  destruct (user_qid_bitmap ct) as [bm0|] eqn:H0; [|by specialize (Hnone eq_refl)].
  destruct (Hpool bm0 (Hp bm0 eq_refl)) as [bm' Hok]. pose proof (pool_bitmap _ _ Hok) as Hb.
  cbn in Hb. by simplify_eq.
Qed.

Lemma pool_exact_delete V fd c g ct ct' :
  pool_exact V c ct → V !! fd = Some (c, g) →
  pool_after ct (alive_qids (rev (g_queues g))) ct' → pool_exact (delete fd V) c ct'.
Proof.
  intros (Hp & Hiff & Huniq) HV Haf. pose proof Haf as ((b & _) & Hu & _). split; [|split].
  - by eapply pool_bitmap_after.
  - intros q. rewrite Hu, elem_of_difference, elem_of_list_to_set, alive_rev, Hiff. split.
    + intros [[p Hs] Hna]. exists p. apply slot_at_delete. split; [|done]. intros Hp1.
      destruct p as [fd' s]. cbn in Hp1. subst fd'.
      by destruct (slot_at_fd _ _ _ _ _ _ _ HV Hs).
    + intros [p [Hne Hs]%slot_at_delete]. split; [eauto|].
      intros Ha. destruct (alive_slot _ _ _ _ _ HV Ha) as [s Hs'].
      apply Hne. by rewrite (Huniq q p (fd, s)).
  - intros q p1 p2 [_ H1]%slot_at_delete [_ H2]%slot_at_delete. by apply (Huniq q).
Qed.

(** Another controller does not notice what happens to [fd]'s group. *)
Lemma pool_exact_ext V V' c ct :
  (∀ q p, slot_at V' c q p ↔ slot_at V c q p) → pool_exact V c ct → pool_exact V' c ct.
Proof.
  intros He (Hp & Hiff & Huniq). split; [done|]. split.
  - intros q. rewrite Hiff. by setoid_rewrite He.
  - intros q p1 p2. rewrite !He. apply Huniq.
Qed.

Lemma qids_ok_delete V cs fd c g ct ct' :
  qids_ok V cs → V !! fd = Some (c, g) → cs !! c = Some ct →
  pool_after ct (alive_qids (rev (g_queues g))) ct' →
  qids_ok (delete fd V) (<[c := ct']> cs).
Proof.
  intros H HV Hc Haf c2 ct2 [[<- <-]|[Hne Hc2]]%lookup_insert_Some.
  - eapply pool_exact_delete; [by apply (H c ct)|done|done].
  - apply (pool_exact_ext V); [|by apply (H c2)]. intros q p. rewrite slot_at_delete.
    split; [by intros [_ ?]|]. intros Hs. split; [|done]. intros Hp. destruct p as [fd' s]. cbn in Hp.
    subst fd'. by destruct (slot_at_fd _ _ _ _ _ _ _ HV Hs).
Qed.

(** ** Tags when an owner's group list changes but its maps do not *)

Lemma tags_ok_groups O h fd own own' :
  tags_ok O h → O !! fd = Some own → own_data_maps own' = own_data_maps own →
  (∀ g' m, g' ∈ own_groups own' → m ∈ g_maps g' →
     ∃ g, g ∈ own_groups own ∧ m ∈ g_maps g ∧ g_group_id g = g_group_id g') →
  (∀ g m, g ∈ own_groups own → m ∈ g_maps g → ∃ g', g' ∈ own_groups own' ∧ m ∈ g_maps g') →
  tags_ok (<[fd := own']> O) h.
Proof.
  intros (T1 & T2 & T3) HO Hd Hback Hfwd. split; [|split].
  - intros fd1 own1 g x [[<- <-]|[_ HO1]]%lookup_insert_Some Hin Hx; [|by apply (T1 fd1 own1)].
    destruct (Hback g x Hin Hx) as (g0 & Hin0 & Hx0 & <-). by apply (T1 fd own).
  - intros fd1 own1 x [[<- <-]|[_ HO1]]%lookup_insert_Some Hx; [|by apply (T2 fd1 own1)].
    rewrite Hd in Hx. by apply (T2 fd own).
  - intros x mx Hx. destruct (T3 x mx Hx) as [Tg Td]. split.
    + intros Hid. destruct (Tg Hid) as (fd1 & own1 & g & HO1 & Hin & Hmem).
      destruct (decide (fd1 = fd)) as [->|Hfd]; [|exists fd1, own1, g; by rewrite lookup_insert_ne].
      simplify_eq. destruct (Hfwd g x Hin Hmem) as (g' & Hin' & Hmem').
      exists fd, own', g'. by rewrite lookup_insert_eq.
    + intros Hdk. destruct (Td Hdk) as (fd1 & own1 & HO1 & Hmem).
      destruct (decide (fd1 = fd)) as [->|Hfd]; [|exists fd1, own1; by rewrite lookup_insert_ne].
      simplify_eq. exists fd, own'. rewrite lookup_insert_eq. split; [done|]. congruence.
Qed.

(** ** The three group operations on a well-formed state *)

(** [fd]'s owner becomes [own'], controller [c] becomes [ct'], the IDA [ida']. *)
Definition regroup (fd : fdid) (fl : file) (own' : snvm_dev_owner) (c : cid) (ct' : ctrl)
    (ida' : gset Z) (w : kstate) : kstate :=
  (set_owner fd fl own' w) <| k_ctrls ::= insert c ct' |> <| snvm_queue_group_ida := ida' |>.

Lemma wf_regroup fd fl own own' c ct ct' ida' w :
  wf w → k_files w !! fd = Some fl → private_data fl = Some own →
  k_ctrls w !! c = Some ct → c_pdev ct' = c_pdev ct →
  own_ctrl own' = own_ctrl own → owner_maps own' = owner_maps own →
  own_nr_groups own' = Z.of_nat (length (own_groups own')) →
  own_nr_groups own' ≤ NVM_MAX_GROUPS_PER_FD →
  tags_ok (<[fd := own']> (owners (k_files w))) (k_heap w) →
  groups_ok (gviews (<[fd := own']> (owners (k_files w)))) ida' →
  qids_ok (gviews (<[fd := own']> (owners (k_files w)))) (<[c := ct']> (k_ctrls w)) →
  wf (regroup fd fl own' c ct' ida' w).
Proof.
  intros [H1 H2 H3 H4 H5 H6 H7 H8 H9] Hf Ho Hc Hpd Hoc Hom Hnr Hle Ht Hg Hq.
  assert (HO : owners (k_files w) !! fd = Some own) by (apply owners_lookup; eauto).
  split; unfold regroup, set_owner; cbn; rewrite ?owners_insert; try done.
  - apply (ctrls_ok_insert c ct ct' w H1 Hc).
  - pose proof H3 as [HL1 _]. destruct (HL1 fd own HO) as [Hnd HF].
    apply (links_ok_insert _ _ fd own); [done|done|by rewrite Hom|].
    rewrite Hom. rewrite Forall_forall in HF |- *. intros m Hm. split; [by apply HF|by left].
  - apply owners_ok_insert_ctrl. apply map_Forall_insert_2; [|done].
    rewrite Hoc. destruct (H5 fd own HO) as (Hcs & _). done.
  - by apply (pdevs_ok_insert _ _ c ct).
  - by apply (inodes_ok_insert _ _ fd fl own).
Qed.

(** The group of a file, if it has one, is its only one. *)
Lemma wf_one_group w fd fl own i g :
  wf w → k_files w !! fd = Some fl → private_data fl = Some own → own_groups own !! i = Some g →
  i = 0%nat ∧ own_groups own = [g] ∧ own_nr_groups own = 1
  ∧ gviews (owners (k_files w)) !! fd = Some (own_ctrl own, gview g).
Proof.
  intros H Hf Ho Hi. assert (HO : owners (k_files w) !! fd = Some own) by (apply owners_lookup; eauto).
  destruct (wf_owners w H fd own HO) as (_ & Hn & Hle). unfold NVM_MAX_GROUPS_PER_FD in *.
  rewrite (gviews_lookup _ _ _ HO). unfold owner_group.
  destruct (own_groups own) as [|g0 [|g1 gs]]; [done| |cbn in *; lia].
  destruct i as [|i]; [|done]. cbn in *. by simplify_eq.
Qed.

Lemma wf_remove_group fd fl own g c ct ct' w :
  wf w → k_files w !! fd = Some fl → private_data fl = Some own →
  own_groups own = [g] → g_maps g = [] → own_ctrl own = c → k_ctrls w !! c = Some ct →
  pool_after ct (alive_qids (rev (g_queues g))) ct' →
  wf (regroup fd fl (own <| own_groups := [] |> <| own_nr_groups := 0 |>) c ct'
        (snvm_queue_group_ida w ∖ {[g_group_id g]}) w).
Proof.
  intros H Hf Ho Hg Hm Hoc Hc Haf.
  assert (HO : owners (k_files w) !! fd = Some own) by (apply owners_lookup; eauto).
  destruct (wf_one_group w fd fl own 0 g H Hf Ho) as (_ & _ & _ & HV); [by rewrite Hg|].
  rewrite Hoc in HV. apply (wf_regroup fd fl own _ c ct); try done.
  - by destruct Haf as ((b & -> & _) & _).
  - unfold owner_maps. rewrite Hg. cbn. by rewrite Hm.
  - apply (tags_ok_groups _ _ fd own); [by apply wf_tags|done|done| |].
    + intros g' m Hin. by apply elem_of_nil in Hin.
    + intros g' m. rewrite Hg, list_elem_of_singleton. intros ->. rewrite Hm. by intros ?%elem_of_nil.
  - rewrite gviews_insert. cbn. change (g_group_id g) with (g_group_id (gview g)).
    apply (groups_ok_delete _ _ _ (c, gview g)); [by apply wf_groups|done].
  - rewrite gviews_insert. cbn. apply (qids_ok_delete _ _ _ _ (gview g) ct); [by apply wf_qids|done..].
Qed.

(** ** Tearing a group down *)

Definition unlink_maps (ms : list mapid) (own : snvm_dev_owner) : snvm_dev_owner :=
  foldl (λ o m, owner_unlink m o) own ms.
Definition file_unlink_maps (ms : list mapid) (fl : file) : file :=
  foldl (λ f m, file_unlink m f) fl ms.

Lemma drop_map_set_owner m fd fl own w :
  drop_map m (set_owner fd fl own w) = set_owner fd (file_unlink m fl) (owner_unlink m own) (drop_map m w).
Proof.
  trans ((reg_remove m w) <| k_files ::= λ F, file_unlink m <$> (<[fd := fl <| private_data := Some own |>]> F) |>
           <| k_heap ::= delete m |>); [reflexivity|].
  trans ((reg_remove m w) <| k_files ::= λ F, <[fd := (file_unlink m fl) <| private_data := Some (owner_unlink m own) |>]>
             (file_unlink m <$> F) |> <| k_heap ::= delete m |>); [|reflexivity].
  f_equal. apply k_files_ext. by rewrite fmap_insert.
Qed.

Lemma drop_maps_set_owner ms fd fl own w :
  drop_maps ms (set_owner fd fl own w)
  = set_owner fd (file_unlink_maps ms fl) (unlink_maps ms own) (drop_maps ms w).
Proof.
  revert fl own w. induction ms as [|m ms IH]; intros fl own w; [done|].
  change (drop_maps ms (drop_map m (set_owner fd fl own w))
    = set_owner fd (file_unlink_maps ms (file_unlink m fl)) (unlink_maps ms (owner_unlink m own))
        (drop_maps ms (drop_map m w))). by rewrite drop_map_set_owner, IH.
Qed.

Lemma file_unlink_maps_owner ms fl own :
  private_data fl = Some own → private_data (file_unlink_maps ms fl) = Some (unlink_maps ms own).
Proof.
  revert fl own. induction ms as [|m ms IH]; intros fl own Ho; [done|]. cbn. apply IH.
  unfold file_unlink. cbn. by rewrite Ho.
Qed.

Lemma drop_maps_files ms w fd fl :
  k_files w !! fd = Some fl → k_files (drop_maps ms w) !! fd = Some (file_unlink_maps ms fl).
Proof.
  revert w fl. induction ms as [|m ms IH]; intros w fl Hf; [done|]. cbn. apply IH.
  unfold drop_map. cbn. by rewrite lookup_fmap, Hf.
Qed.

Lemma drop_maps_ctrls ms w : k_ctrls (drop_maps ms w) = k_ctrls w.
Proof. revert w. induction ms as [|m ms IH]; intros w; [done|]. exact (IH (drop_map m w)). Qed.

Lemma drop_maps_set_ctrl ms f w :
  drop_maps ms (w <| k_ctrls ::= f |>) = (drop_maps ms w) <| k_ctrls ::= f |>.
Proof. revert w. induction ms as [|m ms IH]; intros w; [done|]. exact (IH (drop_map m w)). Qed.

Lemma drop_maps_ida ms w : snvm_queue_group_ida (drop_maps ms w) = snvm_queue_group_ida w.
Proof. revert w. induction ms as [|m ms IH]; intros w; [done|]. exact (IH (drop_map m w)). Qed.

(** The owner's only group, once its maps are gone. *)
Lemma unlink_maps_group ms own g :
  own_groups own = [g] →
  own_groups (unlink_maps ms own) = [g <| g_maps ::= λ l, foldl (λ l m, without m l) l ms |>].
Proof.
  revert own g. induction ms as [|m ms IH]; intros own g Hg; [by destruct g|].
  assert (H1 : own_groups (owner_unlink m own) = [g <| g_maps ::= without m |>]).
  { unfold owner_unlink. cbn. by rewrite Hg. }
  etrans; [exact (IH _ _ H1)|reflexivity].
Qed.

Lemma foldl_without ms l : foldl (λ l m, without m l) l ms = filter (λ x, x ∉ ms) l.
Proof.
  revert l. induction ms as [|m ms IH]; intros l.
  - cbn. symmetry. induction l as [|x l IH]; [done|]. rewrite filter_cons_True by set_solver. by rewrite IH.
  - cbn. rewrite IH. unfold without. rewrite list_filter_filter. apply list_filter_iff. set_solver.
Qed.

Lemma foldl_without_self ms : foldl (λ l m, without m l) ms ms = [].
Proof.
  rewrite foldl_without. apply elem_of_nil_inv. intros x [Hx Hin]%list_elem_of_filter. done.
Qed.

Lemma unlink_maps_ungroup ms own n :
  unlink_maps ms (own <| own_groups := [] |> <| own_nr_groups := n |>)
  = (unlink_maps ms own) <| own_groups := [] |> <| own_nr_groups := n |>.
Proof. revert own. induction ms as [|m ms IH]; intros own; [done|]. cbn. apply (IH (owner_unlink m own)). Qed.

(** A destroyed group: its owner's list is empty, its ids are back, and what
    is left is well-formed. *)
Lemma wf_destroyed fd fl own g c ct ct' w :
  wf w → k_files w !! fd = Some fl → private_data fl = Some own →
  own_groups own = [g] → own_ctrl own = c → k_ctrls w !! c = Some ct →
  pool_after ct (alive_qids (rev (g_queues g))) ct' →
  wf (destroyed g c ct'
        (set_owner fd fl (own <| own_groups := [] |> <| own_nr_groups := 0 |>) w)).
Proof.
  intros H Hf Ho Hg Hoc Hc Haf. set (ms := g_maps g).
  set (w1 := drop_maps ms w).
  assert (Hwf1 : wf w1) by (by apply wf_drop_maps).
  pose proof (drop_maps_files ms w fd fl Hf) as Hf1.
  pose proof (file_unlink_maps_owner ms fl own Ho) as Ho1.
  pose proof (unlink_maps_group ms own g Hg) as Hg1. set (g1 := g <| g_maps ::= _ |>) in Hg1.
  assert (Hoc1 : own_ctrl (unlink_maps ms own) = c).
  { rewrite <- Hoc. clear. revert own. induction ms as [|m ms IH]; intros own; [done|].
    exact (IH (owner_unlink m own)). }
  pose proof (wf_remove_group fd _ _ g1 c ct ct' w1 Hwf1 Hf1 Ho1 Hg1) as Hr.
  specialize (Hr (foldl_without_self ms) Hoc1). unfold w1 in Hr. rewrite drop_maps_ctrls in Hr.
  specialize (Hr Hc Haf). rewrite drop_maps_ida, <- unlink_maps_ungroup in Hr.
  unfold destroyed. fold ms. rewrite drop_maps_set_ctrl, drop_maps_set_owner.
  change (wf (regroup fd (file_unlink_maps ms fl)
    (unlink_maps ms (own <| own_groups := [] |> <| own_nr_groups := 0 |>)) c ct'
    (snvm_queue_group_ida (drop_maps ms w) ∖ {[g_group_id g]}) (drop_maps ms w))).
  by rewrite drop_maps_ida.
Qed.

(** ** Creating a group *)

Lemma new_group_shape gid : 1 ≤ gid < 2 ^ 31 → group_shape (gview (new_qgroup gid)).
Proof.
  intros Hid. split; try done.
  intros s u [-> _]%lookup_replicate. cbn. split; [done|lia].
Qed.

Lemma new_group_dead V fd c gid c' q p :
  V !! fd = None → slot_at (<[fd := (c, gview (new_qgroup gid))]> V) c' q p ↔ slot_at V c' q p.
Proof.
  intros HV. rewrite slot_at_insert. split.
  - intros [(_ & _ & u & [-> _]%lookup_replicate & Ha & _)|[_ ?]]; done.
  - intros Hs. right. split; [|done]. intros Hp. destruct Hs as (g & u & Hg & _). congruence.
Qed.

Lemma wf_add_group fd fl own gid w :
  wf w → k_files w !! fd = Some fl → private_data fl = Some own → own_groups own = [] →
  1 ≤ gid < 2 ^ 31 → gid ∉ snvm_queue_group_ida w →
  wf ((set_owner fd fl (own <| own_groups := [new_qgroup gid] |> <| own_nr_groups := 1 |>) w)
        <| snvm_queue_group_ida ::= ({[gid]} ∪.) |>).
Proof.
  intros H Hf Ho Hg Hid Hfresh.
  assert (HO : owners (k_files w) !! fd = Some own) by (apply owners_lookup; eauto).
  destruct (wf_owners w H fd own HO) as ([ct Hc] & _ & _). set (c := own_ctrl own) in *.
  assert (HV : gviews (owners (k_files w)) !! fd = None).
  { rewrite (gviews_lookup _ _ _ HO). unfold owner_group. by rewrite Hg. }
  set (own' := own <| own_groups := _ |> <| own_nr_groups := _ |>).
  assert (E : (set_owner fd fl own' w) <| snvm_queue_group_ida ::= ({[gid]} ∪.) |>
              = regroup fd fl own' c ct ({[gid]} ∪ snvm_queue_group_ida w) w).
  { unfold regroup. by rewrite ctrl_insert_id. }
  rewrite E. apply (wf_regroup fd fl own own' c ct); try done.
  - unfold owner_maps. cbn. by rewrite Hg.
  - apply (tags_ok_groups _ _ fd own); [by apply wf_tags|done|done| |].
    + intros g' m. cbn. rewrite list_elem_of_singleton. intros ->. by intros ?%elem_of_nil.
    + intros g' m. rewrite Hg. by intros ?%elem_of_nil.
  - rewrite gviews_insert. cbn -[new_qgroup]. destruct (wf_groups w H) as (HF & Hiff & Huniq). split; [|split].
    + apply map_Forall_insert_2; [by apply new_group_shape|done].
    + intros i. rewrite elem_of_union, elem_of_singleton, Hiff. split.
      * intros [->|(fd' & v & Hv & <-)]; [eexists fd, _; by rewrite lookup_insert_eq|].
        exists fd', v. rewrite lookup_insert_ne; [done|]. intros <-. congruence.
      * intros (fd' & v & [[<- <-]|[Hne Hv]]%lookup_insert_Some & <-); [by left|right; eauto].
    + assert (Hno : ∀ fd' v, gviews (owners (k_files w)) !! fd' = Some v → g_group_id v.2 ≠ gid).
      { intros fd' v Hv Heq. apply Hfresh. rewrite Hiff. eauto. }
      intros fd1 fd2 v1 v2 [[<- <-]|[Hne1 H1]]%lookup_insert_Some [[<- <-]|[Hne2 H2]]%lookup_insert_Some Heq;
        [done|exfalso; exact (Hno fd2 v2 H2 (eq_sym Heq))|exfalso; exact (Hno fd1 v1 H1 Heq)|].
      by eapply Huniq.
  - rewrite gviews_insert. cbn -[new_qgroup]. rewrite (insert_id (k_ctrls w) c ct) by done.
    intros c' ct' Hc'. apply (pool_exact_ext (gviews (owners (k_files w)))).
    + intros q p. by apply new_group_dead.
    + by apply (wf_qids w H c').
Qed.

(** ** Changing the queues of a group *)

(** No queue id sits in two live slots. *)
Definition slots_inj (slots : list snvm_user_queue) : Prop :=
  ∀ s1 s2 u1 u2, slots !! s1 = Some u1 → slots !! s2 = Some u2 →
    uq_alive u1 = true → uq_alive u2 = true → uq_qid u1 = uq_qid u2 → s1 = s2.

Lemma pool_exact_replace V fd c g g' ct ct' :
  pool_exact V c ct → V !! fd = Some (c, g) →
  (∀ bm, user_qid_bitmap ct' = Some bm → pool_ok ct' bm) →
  (∀ q, q ∈ used_qids ct' ↔ (q ∈ used_qids ct ∧ q ∉ alive_qids (g_queues g))
                            ∨ q ∈ alive_qids (g_queues g')) →
  slots_inj (g_queues g') →
  (∀ q, q ∈ alive_qids (g_queues g') → q ∈ used_qids ct → q ∈ alive_qids (g_queues g)) →
  pool_exact (<[fd := (c, g')]> V) c ct'.
Proof.
  intros (Hp & Hiff & Huniq) HV Hbm Hused Hinj Hold. split; [done|].
  assert (Hout : ∀ q p, p.1 ≠ fd → slot_at V c q p → q ∉ alive_qids (g_queues g)).
  { intros q p Hne Hs Ha. destruct (alive_slot _ _ _ _ _ HV Ha) as [s Hs'].
    apply Hne. by rewrite (Huniq q p (fd, s)). }
  assert (Hin : ∀ q p, slot_at (<[fd := (c, g')]> V) c q p → p.1 = fd → q ∈ alive_qids (g_queues g')).
  { intros q p [(_ & _ & u & Hu & Ha & Hq)|[Hne _]]%slot_at_insert Hp1; [|done].
    apply elem_of_alive. eauto. }
  split.
  - intros q. rewrite Hused. split.
    + intros [[[p Hs]%Hiff Hna]|(s & u & Hs & Ha & Hq)%elem_of_alive].
      * exists p. apply slot_at_insert. right. split; [|done]. intros Hp1. destruct p as [fd' s].
        cbn in Hp1. subst fd'. by destruct (slot_at_fd _ _ _ _ _ _ _ HV Hs).
      * exists (fd, s). apply slot_at_insert. left. split; [done|]. split; [done|]. by exists u.
    + intros [p Hs]. destruct (decide (p.1 = fd)) as [Hp1|Hp1]; [right; by eapply Hin|].
      apply slot_at_insert in Hs as [[? _]|[_ Hs]]; [done|]. left. split; [apply Hiff; eauto|].
      by eapply Hout.
  - assert (Hcross : ∀ q p1 p2, p1.1 = fd → p2.1 ≠ fd →
      slot_at (<[fd := (c, g')]> V) c q p1 → slot_at (<[fd := (c, g')]> V) c q p2 → False).
    { intros q p1 p2 E1 E2 H1 H2. apply slot_at_insert in H2 as [[? _]|[_ H2]]; [done|].
      apply (Hout q p2 E2 H2). apply Hold; [by eapply Hin|]. apply Hiff. eauto. }
    intros q p1 p2 H1 H2. destruct (decide (p1.1 = fd)) as [E1|E1], (decide (p2.1 = fd)) as [E2|E2].
    + apply slot_at_insert in H1 as [(_ & _ & u1 & Hu1 & Ha1 & Hq1)|[? _]]; [|done].
      apply slot_at_insert in H2 as [(_ & _ & u2 & Hu2 & Ha2 & Hq2)|[? _]]; [|done].
      destruct p1, p2. cbn in *. subst. f_equal. by eapply Hinj.
    + by destruct (Hcross q p1 p2).
    + by destruct (Hcross q p2 p1).
    + apply slot_at_insert in H1 as [[? _]|[_ H1]]; [done|].
      apply slot_at_insert in H2 as [[? _]|[_ H2]]; [done|]. by apply (Huniq q).
Qed.

Lemma wf_set_queues fd fl own g g' c ct ct' w :
  wf w → k_files w !! fd = Some fl → private_data fl = Some own → own_groups own = [g] →
  own_ctrl own = c → k_ctrls w !! c = Some ct → c_pdev ct' = c_pdev ct →
  g_maps g' = g_maps g → g_group_id g' = g_group_id g → group_shape (gview g') →
  pool_exact (<[fd := (c, gview g')]> (gviews (owners (k_files w)))) c ct' →
  wf ((set_owner fd fl (own <| own_groups := [g'] |>) w) <| k_ctrls ::= insert c ct' |>).
Proof.
  intros H Hf Ho Hg Hoc Hc Hpd Hm Hid Hs Hpe.
  assert (HO : owners (k_files w) !! fd = Some own) by (apply owners_lookup; eauto).
  destruct (wf_one_group w fd fl own 0 g H Hf Ho) as (_ & _ & Hnr & HV); [by rewrite Hg|].
  rewrite Hoc in HV. set (own' := own <| own_groups := _ |>).
  assert (Eg : owner_group own' = Some (c, gview g')) by (unfold owner_group; cbn; by rewrite Hoc).
  change (wf (regroup fd fl own' c ct' (snvm_queue_group_ida w) w)).
  apply (wf_regroup fd fl own own' c ct); try done.
  - unfold owner_maps. rewrite Hg. cbn. by rewrite Hm.
  - cbn. by rewrite Hnr.
  - apply (tags_ok_groups _ _ fd own); [by apply wf_tags|done|done| |].
    + intros x m. cbn. rewrite list_elem_of_singleton. intros ->. rewrite Hm. intros Hin.
      exists g. rewrite Hg. by split; [left|].
    + intros x m. rewrite Hg, list_elem_of_singleton. intros ->. intros Hin. exists g'.
      split; [by left|]. by rewrite Hm.
  - rewrite gviews_insert, Eg. destruct (wf_groups w H) as (HF & Hiff & Huniq). split; [|split].
    + by apply map_Forall_insert_2.
    + intros i. rewrite Hiff. split.
      * intros (fd' & v & Hv & <-). destruct (decide (fd = fd')) as [<-|Hne].
        -- eexists fd, _. rewrite lookup_insert_eq. split; [done|]. cbn. by simplify_eq.
        -- exists fd', v. by rewrite lookup_insert_ne.
      * intros (fd' & v & [[<- <-]|[Hne Hv]]%lookup_insert_Some & <-); [|eauto].
        exists fd, (c, gview g). split; [done|]. cbn. by rewrite Hid.
    + assert (Hback : ∀ fd' v, <[fd := (c, gview g')]> (gviews (owners (k_files w))) !! fd' = Some v →
        ∃ v0, gviews (owners (k_files w)) !! fd' = Some v0 ∧ g_group_id v0.2 = g_group_id v.2).
      { intros fd' v [[<- <-]|[_ Hv]]%lookup_insert_Some; [|eauto]. exists (c, gview g). by rewrite HV. }
      intros fd1 fd2 v1 v2 H1 H2 Heq. destruct (Hback _ _ H1) as (a & Ha & Ea).
      destruct (Hback _ _ H2) as (b & Hb & Eb). apply (Huniq fd1 fd2 a b Ha Hb). congruence.
  - rewrite gviews_insert, Eg. intros c2 ct2 [[<- <-]|[Hne Hc2]]%lookup_insert_Some; [done|].
    apply (pool_exact_ext (gviews (owners (k_files w)))); [|by apply (wf_qids w H c2)].
    intros q p. rewrite slot_at_insert. split.
    + intros [(_ & -> & _)|[_ ?]]; done.
    + intros Hs2. right. split; [|done]. intros Hp1. destruct p as [fd' s]. cbn in Hp1. subst fd'.
      by destruct (slot_at_fd _ _ _ _ _ _ _ HV Hs2).
Qed.
