(* ===== verification/GroupIoctl.v ===== *)
(** * GroupIoctl: creating and destroying queue groups, closing an fd

    Specifications of NVM_CREATE_QUEUE_GROUP, NVM_DESTROY_QUEUE_GROUP, of the
    remaining small handlers and of open and release, against the invariant. *)
From S2P Require Import Prelude.
From S2P Require Import Uapi.
From S2P Require Import Kernel.
From S2P Require Import QidPool.
From S2P Require Import Map.
From S2P Require Import MapGpu.
From S2P Require Import Ctrl.
From S2P Require Import Qgroup.
From S2P Require Import DevIoctl.
From S2P Require Import AddQueue.
From S2P Require Import Invariant.
From S2P Require Import MapIoctl.
From S2P Require Import GroupInv.

Section group_ioctl.
Context `{E : Env} `{P : PeerMemory} `{POk : !PeerMemoryOk P}.
Implicit Types (w : kstate).

(** A live queue means its controller's pool exists. *)
Lemma wf_group_pool w fd c g ct :
  wf w → gviews (owners (k_files w)) !! fd = Some (c, gview g) → k_ctrls w !! c = Some ct →
  alive_qids (rev (g_queues g)) = [] ∨ ∃ bm, pool_ok ct bm.
Proof.
  intros H HV Hc. destruct (wf_qids w H c ct Hc) as (Hp & Hiff & _).
  destruct (alive_qids (rev (g_queues g))) as [|q qs] eqn:Ha; [by left|right].
  assert (Hq : q ∈ alive_qids (g_queues (gview g))) by (change (g_queues (gview g)) with (g_queues g); apply alive_rev; rewrite Ha; by left).
  destruct (alive_slot _ _ _ _ _ HV Hq) as [s Hs].
  assert (Hu : q ∈ used_qids ct) by (apply Hiff; eauto).
  apply elem_of_used_qids in Hu. unfold qid_used in Hu.
  destruct (user_qid_bitmap ct) as [bm|] eqn:Hb; [|done]. exists bm. by apply Hp.
Qed.

(** The teardown precondition, from the invariant. *)
Lemma wf_group_ok w fd fl own g c ct :
  wf w → k_files w !! fd = Some fl → private_data fl = Some own → own_groups own = [g] →
  own_ctrl own = c → k_ctrls w !! c = Some ct → group_ok w g ct.
Proof.
  intros H Hf Ho Hg Hoc Hc.
  assert (HO : owners (k_files w) !! fd = Some own) by (apply owners_lookup; eauto).
  destruct (wf_one_group w fd fl own 0 g H Hf Ho) as (_ & _ & _ & HV); [by rewrite Hg|].
  rewrite Hoc in HV. destruct (wf_groups w H) as (Hsh & _). destruct (wf_links w H) as [HL _].
  destruct (HL fd own HO) as [Hnd HF]. unfold owner_maps in Hnd, HF. rewrite Hg in Hnd, HF.
  rewrite bind_cons, app_nil_r in Hnd, HF. split.
  - exact (shape_slots _ (Hsh _ _ HV)).
  - by apply NoDup_app in Hnd as (? & _).
  - apply Forall_app in HF as [HF _]. eapply Forall_impl; [exact HF|]. intros m [md Hm].
    exists md. split; [done|]. by eapply wf_heap_release.
  - by eapply wf_group_pool.
Qed.

Lemma wf_ctrl_pdev w c ct : wf w → k_ctrls w !! c = Some ct → ∃ pd, k_pdevs w !! c_pdev ct = Some pd.
Proof. intros H Hc. destruct (wf_pdevs w H c ct Hc) as (pd & Hp & _). eauto. Qed.

(** What is gone after a group was torn down. *)
Definition group_gone (fd : fdid) (g : snvm_qgroup) (c : cid) (w' : kstate) : Prop :=
  gviews (owners (k_files w')) !! fd = None
  ∧ g_group_id g ∉ snvm_queue_group_ida w'
  ∧ Forall (λ m, k_heap w' !! m = None) (g_maps g)
  ∧ ∀ ct q, k_ctrls w' !! c = Some ct → q ∈ alive_qids (g_queues g) → q ∉ used_qids ct.

Lemma drop_maps_heap ms w m :
  k_heap (drop_maps ms w) !! m = if bool_decide (m ∈ ms) then None else k_heap w !! m.
Proof.
  revert w. induction ms as [|x ms IH]; intros w; [done|].
  change (drop_maps (x :: ms) w) with (drop_maps ms (drop_map x w)). rewrite IH.
  unfold drop_map. cbn. destruct (decide (m = x)) as [->|Hne].
  - rewrite lookup_delete_eq. rewrite (bool_decide_eq_true_2 (x ∈ x :: ms)) by (by left).
    by destruct (bool_decide _).
  - rewrite lookup_delete_ne by done. case_bool_decide as H1; case_bool_decide as H2; try done; set_solver.
Qed.

(** Tearing down the group of a file from a well-formed state. *)
Lemma destroy_group_wf fd fl own g c ct pd w :
  wf w → k_files w !! fd = Some fl → private_data fl = Some own → own_groups own = [g] →
  own_ctrl own = c → k_ctrls w !! c = Some ct → k_pdevs w !! c_pdev ct = Some pd →
  wp (destroy_qgroup_locked g (Some c)) (λ r w', r = Ok tt ∧ wf w'
      ∧ teardown_trace g (bool_decide (is_Some (live_ndev pd))) w w'
      ∧ group_gone fd g c w'
      ∧ ∃ ct', pool_after ct (alive_qids (rev (g_queues g))) ct' ∧ same_core
          (destroyed g c ct' (set_owner fd fl (own <| own_groups := [] |> <| own_nr_groups := 0 |>) w)) w')
    (set_owner fd fl (own <| own_groups := [] |> <| own_nr_groups := 0 |>) w).
Proof.
  intros H Hf Ho Hg Hoc Hc Hp. pose proof (wf_group_ok w fd fl own g c ct H Hf Ho Hg Hoc Hc) as [G1 G2 G3 G4].
  set (own1 := own <| own_groups := _ |> <| own_nr_groups := _ |>). set (w1 := set_owner fd fl own1 w).
  eapply wp_mono; [apply (destroy_qgroup_ok g c ct pd w1); try done; exact (wf_ctrls w H)|].
  intros r w' (-> & ct' & Haf & Hs & Ht). split; [done|].
  assert (Hwf' : wf w') by (eapply wf_core; [exact Hs|]; by apply (wf_destroyed fd fl own g c ct)).
  split; [done|]. split; [exact Ht|]. split; [|by exists ct'].
  split; [|split; [|split]].
  - rewrite <- (same_core_field k_files _ _ (λ _, eq_refl) Hs). unfold destroyed.
    change (k_files (?x <| snvm_queue_group_ida ::= _ |>)) with (k_files x).
    rewrite drop_maps_set_ctrl. change (k_files (?x <| k_ctrls ::= _ |>)) with (k_files x).
    unfold w1. rewrite drop_maps_set_owner. unfold set_owner.
    change (k_files (?x <| k_files ::= ?f |>)) with (f (k_files x)). cbv beta.
    rewrite owners_insert, gviews_insert. unfold own1. rewrite unlink_maps_ungroup. apply lookup_delete_eq.
  - rewrite <- (same_core_field snvm_queue_group_ida _ _ (λ _, eq_refl) Hs). unfold destroyed. cbn. set_solver.
  - rewrite Forall_forall. intros m Hm. rewrite <- (same_core_field k_heap _ _ (λ _, eq_refl) Hs).
    unfold destroyed. change (k_heap (?x <| snvm_queue_group_ida ::= _ |>)) with (k_heap x).
    rewrite drop_maps_heap. by rewrite bool_decide_eq_true_2.
  - intros ct2 q Hc2 Hq. rewrite <- (same_core_field k_ctrls _ _ (λ _, eq_refl) Hs) in Hc2.
    unfold destroyed in Hc2. change (k_ctrls (?x <| snvm_queue_group_ida ::= _ |>)) with (k_ctrls x) in Hc2.
    rewrite drop_maps_ctrls in Hc2. cbn in Hc2. rewrite lookup_insert_eq in Hc2.
    injection Hc2 as <-. destruct Haf as (_ & -> & _). rewrite elem_of_difference, elem_of_list_to_set, alive_rev.
    tauto.
Qed.

(** unlink_group on a file with one group. *)
Lemma unlink_one own g :
  own_groups own = [g] → own_nr_groups own = 1 →
  own <| own_groups ::= delete 0%nat |> <| own_nr_groups ::= λ n, u32 (n - 1) |>
  = own <| own_groups := [] |> <| own_nr_groups := 0 |>.
Proof. intros Hg Hn. destruct own. unfold set, set_own_groups, set_own_nr_groups. cbn in *. by subst. Qed.

(** ** NVM_DESTROY_QUEUE_GROUP *)
Lemma ioctl_destroy_group_ok fd fl c group_id w :
  wf w → k_files w !! fd = Some fl →
  (∀ own, private_data fl = Some own → own_ctrl own = c) →
  wp (ioctl_destroy_group fd c group_id) (λ res w', wf w' ∧
    match res with
    | Ok (ret, out) => ret = 0 ∧ out = OutNone ∧ ∃ own g ct pd,
        private_data fl = Some own ∧ own_groups own = [g] ∧ g_group_id g = group_id
        ∧ k_ctrls w !! c = Some ct ∧ k_pdevs w !! c_pdev ct = Some pd
        ∧ teardown_trace g (bool_decide (is_Some (live_ndev pd))) w w'
        ∧ group_gone fd g c w'
    | Err e => same_core w w' ∧ e ∈ [ENODEV; EFAULT; EINVAL; ENOENT]
    | Fault _ => False
    end) w.
Proof.
  intros H Hf Hoc. unfold ioctl_destroy_group. apply wp_bind, (wp_the_owner fd fl); [done|].
  destruct (private_data fl) as [own|] eqn:Ho.
  2: { apply wp_fail. split; [done|]. split; [done|set_solver]. }
  set (w0 := w <| k_tick := S (k_tick w) |>).
  assert (H0 : same_core w w0) by core_eq. assert (Hwf0 : wf w0) by (by apply (wf_core w)).
  assert (Hstop : ∀ e, e ∈ [ENODEV; EFAULT; EINVAL; ENOENT] →
    wf w0 ∧ same_core w w0 ∧ e ∈ [ENODEV; EFAULT; EINVAL; ENOENT]) by (intros e He; done).
  apply wp_bind, wp_copy_from; [apply Hstop; set_solver|].
  apply wp_bind, wp_guard; [intros _; apply Hstop; set_solver|]. intros _.
  destruct (find_qgroup_locked own group_id) as [[i g]|] eqn:Hfind;
    [|apply wp_fail, Hstop; set_solver].
  destruct (find_qgroup_some _ _ _ _ Hfind) as (Hi & Hid & _).
  destruct (wf_one_group w fd fl own i g H Hf Ho Hi) as (-> & Hg & Hn & _).
  assert (HO : owners (k_files w) !! fd = Some own) by (apply owners_lookup; eauto).
  destruct (wf_owners w H fd own HO) as ([ct Hc] & _). rewrite (Hoc own eq_refl) in Hc.
  destruct (wf_ctrl_pdev w c ct H Hc) as [pd Hp].
  apply wp_bind, (wp_upd_owner fd fl own); [done|done|]. rewrite (unlink_one own g) by done.
  apply wp_bind. eapply wp_mono; [by apply (destroy_group_wf fd fl own g c ct pd w0); auto|].
  intros r w' (-> & Hwf' & Ht & Hgone & _). apply wp_ret. split; [done|]. split; [done|]. split; [done|].
  exists own, g, ct, pd. do 5 (split; [done|]). by split.
Qed.

(** ** NVM_CREATE_QUEUE_GROUP *)

Lemma set_owner_id fd fl own w :
  k_files w !! fd = Some fl → private_data fl = Some own → set_owner fd fl own w = w.
Proof.
  intros Hf Ho. unfold set_owner.
  assert (E1 : fl <| private_data := Some own |> = fl) by (destruct fl; cbn in *; by rewrite <- Ho).
  rewrite E1. destruct w. unfold set, set_k_files. cbn in *. by rewrite insert_id.
Qed.

Lemma new_group_alive gid : alive_qids (rev (g_queues (new_qgroup gid))) = [].
Proof. reflexivity. Qed.

(** Destroying a group that was only just created, its owner already
    unlinked, takes the id back and nothing else. *)
Lemma destroy_new_group gid c ct pd w :
  k_ctrls w !! c = Some ct → k_pdevs w !! c_pdev ct = Some pd → ctrls_ok w →
  gid ∉ snvm_queue_group_ida w →
  wp (destroy_qgroup_locked (new_qgroup gid) (Some c))
    (λ r w', r = Ok tt ∧ same_core w w')
    (w <| snvm_queue_group_ida ::= ({[gid]} ∪.) |>).
Proof.
  intros Hc Hp Hcs Hfresh.
  eapply wp_mono; [apply (destroy_qgroup_ok _ c ct pd); [done|done| |exact Hcs]|].
  { split; [done|apply NoDup_nil_2|apply Forall_nil_2|by left]. }
  intros r w' (-> & ct' & (_ & _ & _ & Heq) & Hs & _). split; [done|].
  rewrite (Heq (new_group_alive gid)) in Hs. etrans; [|exact Hs].
  unfold destroyed. change (g_maps (new_qgroup gid)) with (@nil mapid).
  change (g_group_id (new_qgroup gid)) with gid. change (drop_maps [] ?x) with x.
  rewrite ctrl_insert_id by done. unfold same_core. f_equal. destruct w.
  unfold set, set_snvm_queue_group_ida. cbn in *. f_equal. set_solver.
Qed.

Definition create_errs : list Z := [ENODEV; EFAULT; EINVAL; EBUSY; ENOMEM].

Lemma create_full own w fd fl :
  wf w → k_files w !! fd = Some fl → private_data fl = Some own →
  bool_decide (NVM_MAX_GROUPS_PER_FD ≤ own_nr_groups own) = false →
  own_groups own = [] ∧ own_nr_groups own = 0.
Proof.
  intros H Hf Ho Hn%bool_decide_eq_false.
  assert (HO : owners (k_files w) !! fd = Some own) by (apply owners_lookup; eauto).
  destruct (wf_owners w H fd own HO) as (_ & Hl & _). unfold NVM_MAX_GROUPS_PER_FD in *.
  destruct (own_groups own); cbn in *; [by split|lia].
Qed.

Lemma ioctl_create_group_ok `{EOk : !EnvOk E} fd fl c req w :
  wf w → k_files w !! fd = Some fl →
  (∀ own, private_data fl = Some own → own_ctrl own = c) →
  wp (ioctl_create_group fd c req) (λ res w', wf w' ∧
    match res with
    | Ok (ret, out) => ret = 0 ∧ ∃ own gid,
        private_data fl = Some own ∧ own_groups own = [] ∧ 1 ≤ gid < 2 ^ 31
        ∧ gid ∉ snvm_queue_group_ida w
        ∧ out = OutGroup (mk_nvm_ioctl_queue_group gid 0 NVM_MAX_QUEUES_PER_GROUP (qg_reserved req))
        ∧ same_core ((set_owner fd fl (own <| own_groups := [new_qgroup gid] |>
                                           <| own_nr_groups := 1 |>) w)
                       <| snvm_queue_group_ida ::= ({[gid]} ∪.) |>) w'
    | Err e => same_core w w'
    | Fault _ => False
    end) w.
Proof.
  intros H Hf Hoc. unfold ioctl_create_group. apply wp_bind, (wp_the_owner fd fl); [done|].
  destruct (private_data fl) as [own|] eqn:Ho; [|by apply wp_fail].
  specialize (Hoc own eq_refl).
  set (w0 := w <| k_tick := S (k_tick w) |>).
  assert (H0 : same_core w w0) by core_eq. assert (Hwf0 : wf w0) by (by apply (wf_core w)).
  apply wp_bind, wp_copy_from; [done|].
  apply wp_bind, wp_guard; [done|]. intros Hfl%bool_decide_eq_false.
  apply wp_bind, wp_guard; [done|]. intros _. apply wp_bind, wp_guard; [done|]. intros Hn.
  destruct (create_full own w fd fl H Hf Ho Hn) as [Hg Hnr].
  apply wp_bind, wp_kalloc. set (w1 := w0 <| k_tick := S (k_tick w0) |>).
  assert (H1 : same_core w w1) by core_eq. assert (Hwf1 : wf w1) by (by apply (wf_core w)).
  apply wp_bind, wp_guard; [done|]. intros _.
  apply wp_bind, wp_tick. set (w2 := w1 <| k_tick := S (k_tick w1) |>).
  assert (H2 : same_core w w2) by core_eq. assert (Hwf2 : wf w2) by (by apply (wf_core w)).
  apply wp_bind, wp_gets. cbv zeta. set (gid := env_ida _ _ _).
  apply wp_bind, wp_guard; [done|]. intros Hpos%bool_decide_eq_false.
  assert (Hnn : 0 ≤ gid) by lia. destruct (ida_fresh _ _ _ Hnn) as [Hid Hfresh].
  fold gid in Hid, Hfresh. rewrite (wrap_small 32 gid) by lia.
  assert (HO : owners (k_files w) !! fd = Some own) by (apply owners_lookup; eauto).
  destruct (wf_owners w H fd own HO) as ([ct Hc] & _). rewrite Hoc in Hc.
  destruct (wf_ctrl_pdev w c ct H Hc) as [pd Hp].
  apply wp_bind, wp_modify. apply wp_bind, (wp_upd_owner fd fl own); [done|done|].
  set (own1 := own <| own_groups := [new_qgroup gid] |> <| own_nr_groups := 1 |>).
  replace (own <| own_groups ::= (.++ [new_qgroup gid]) |> <| own_nr_groups ::= λ n, u32 (n + 1) |>)
    with own1 by (unfold own1; destruct own; unfold set, set_own_groups, set_own_nr_groups; cbn in *; by subst).
  set (w3 := w2 <| snvm_queue_group_ida ::= ({[gid]} ∪.) |>).
  apply wp_bind, wp_copy_to. intros left. clear Hn. case_bool_decide.
  - set (w4 := _ <| k_tick := _ |>).
    apply wp_bind, (wp_upd_owner fd (fl <| private_data := Some own1 |>) own1);
      [apply lookup_insert_eq|done|].
    assert (Ed : own1 <| own_groups ::= delete (length (own_groups own)) |>
                      <| own_nr_groups ::= λ n, u32 (n - 1) |> = own).
    { rewrite Hg. unfold own1. destruct own; unfold set, set_own_groups, set_own_nr_groups; cbn in *; by subst. }
    rewrite Ed. clear Ed. apply wp_bind.
    match goal with |- wp _ _ ?x => replace x with
      ((w2 <| k_tick := S (k_tick w2) |>) <| snvm_queue_group_ida ::= ({[gid]} ∪.) |>) end.
    2: { unfold w4, w3. change ((w2 <| k_tick := S (k_tick w2) |>) <| snvm_queue_group_ida ::= ({[gid]} ∪.) |>
           = (set_owner fd fl own (set_owner fd fl own1 (w2 <| k_tick := S (k_tick w2) |>)))
               <| snvm_queue_group_ida ::= ({[gid]} ∪.) |>).
         rewrite set_owner_twice, set_owner_id; done. }
    eapply wp_mono; [apply (destroy_new_group gid c ct pd); [done|done|exact (wf_ctrls w H)|exact Hfresh]|].
    intros r w' [-> Hs]. apply wp_fail. assert (Hsw : same_core w w') by (etrans; [|exact Hs]; core_eq).
    split; [by apply (wf_core w)|done].
  - apply wp_ret. assert (Hwf3 : wf ((set_owner fd fl own1 w) <| snvm_queue_group_ida ::= ({[gid]} ∪.) |>))
      by (by apply wf_add_group).
    split; [by eapply wf_core; [|exact Hwf3]|]. split; [done|]. exists own, gid.
    do 4 (split; [done|]). split; [|core_eq]. f_equal. f_equal.
    by destruct (decide (qg_flags req = 0)).
Qed.
End group_ioctl.
