(* ===== verification/Release.v ===== *)
(** * Release: closing an fd (snvm_dev_open, snvm_dev_release)

    The four passes of release: destroy the fd's groups, release its data
    buffers, reap the ungrouped maps of the opening task from the three
    registries, clear [file->private_data]. *)
From S2P Require Import Prelude.
From S2P Require Import Uapi.
From S2P Require Import Kernel.
From S2P Require Import QidPool.
From S2P Require Import Map.
From S2P Require Import MapGpu.
From S2P Require Import Ctrl.
From S2P Require Import Qgroup.
From S2P Require Import DevIoctl.
From S2P Require Import AddQueue.
From S2P Require Import Invariant.
From S2P Require Import MapIoctl.
From S2P Require Import GroupInv.
From S2P Require Import GroupIoctl.

(** The live queues of an open file, in teardown order. *)
Definition owner_qids (own : snvm_dev_owner) : list Z :=
  own_groups own ≫= λ g, alive_qids (rev (g_queues g)).

(** The heap without the descriptors [gone] says. *)
Definition heap_without (gone : mapid → bool) (w w' : kstate) : Prop :=
  ∀ m, k_heap w' !! m = if gone m then None else k_heap w !! m.

Definition in_list (ms : list mapid) (m : mapid) : bool := bool_decide (m ∈ ms).

Lemma heap_without_trans g1 g2 w w1 w2 :
  heap_without g1 w w1 → heap_without g2 w1 w2 → heap_without (λ m, g1 m || g2 m) w w2.
Proof. intros H1 H2 m. rewrite H2, H1. by destruct (g1 m), (g2 m). Qed.

Definition not_admin (e : event) : Prop := ¬ is_admin e.

Lemma quiet_not_admin e : quiet e → not_admin e.
Proof. unfold not_admin. destruct e; cbn; tauto. Qed.

Section release.
Context `{E : Env} `{P : PeerMemory} `{POk : !PeerMemoryOk P}.
Implicit Types (w : kstate).

(** What a pass of release leaves: the file is still open, its owner's
    remaining lists are given. *)
Record stage (fd : fdid) (own : snvm_dev_owner) (gs : list snvm_qgroup) (ds : list mapid)
    (w : kstate) : Prop := {
  stage_wf : wf w;
  stage_file : ∃ fl own', k_files w !! fd = Some fl ∧ private_data fl = Some own'
    ∧ own_ctrl own' = own_ctrl own ∧ own_owner own' = own_owner own
    ∧ own_groups own' = gs ∧ own_data_maps own' = ds;
}.

Lemma unlink_maps_data ms own :
  own_data_maps (unlink_maps ms own) = filter (λ x, x ∉ ms) (own_data_maps own).
Proof.
  rewrite <- foldl_without. revert own. induction ms as [|m ms IH]; intros own; [done|].
  etrans; [exact (IH (owner_unlink m own))|reflexivity].
Qed.

Lemma unlink_maps_id ms own :
  own_ctrl (unlink_maps ms own) = own_ctrl own ∧ own_owner (unlink_maps ms own) = own_owner own.
Proof.
  revert own. induction ms as [|m ms IH]; intros own; [done|]. exact (IH (owner_unlink m own)).
Qed.

Lemma unlink_maps_nr ms own n :
  unlink_maps ms (own <| own_nr_groups := n |>) = (unlink_maps ms own) <| own_nr_groups := n |>.
Proof. revert own. induction ms as [|m ms IH]; intros own; [done|]. apply (IH (owner_unlink m own)). Qed.

Lemma filter_notin (l ms : list mapid) : (∀ x, x ∈ l → x ∉ ms) → filter (λ x, x ∉ ms) l = l.
Proof.
  intros H. induction l as [|x l IH]; [done|]. rewrite filter_cons_True by (apply H; by left).
  f_equal. apply IH. intros y Hy. apply H. by right.
Qed.

(** Pass 0 on a file with a group. *)
Lemma release_group fd fl own g c ct pd w :
  wf w → k_files w !! fd = Some fl → private_data fl = Some own → own_groups own = [g] →
  own_ctrl own = c → k_ctrls w !! c = Some ct → k_pdevs w !! c_pdev ct = Some pd →
  wp (destroy_groups fd c [g];; upd_owner fd (λ own, own <| own_nr_groups := 0 |>))
    (λ r w', r = Ok tt ∧ stage fd own [] (own_data_maps own) w'
      ∧ heap_without (in_list (g_maps g)) w w'
      ∧ (∃ ct', pool_after ct (alive_qids (rev (g_queues g))) ct' ∧ k_ctrls w' = <[c := ct']> (k_ctrls w))
      ∧ snvm_queue_group_ida w' = snvm_queue_group_ida w ∖ {[g_group_id g]}
      ∧ teardown_trace g (bool_decide (is_Some (live_ndev pd))) w w') w.
Proof.
  intros H Hf Ho Hg Hoc Hc Hp. pose proof (wf_group_ok w fd fl own g c ct H Hf Ho Hg Hoc Hc) as [G1 G2 G3 G4].
  set (own1 := own <| own_groups := [] |>). set (own2 := own1 <| own_nr_groups := 0 |>). set (ms := g_maps g).
  apply wp_bind. cbn [destroy_groups]. apply wp_bind, (wp_upd_owner fd fl own); [done|done|].
  replace (own <| own_groups ::= tail |>) with own1
    by (unfold own1; destruct own; unfold set, set_own_groups; cbn in *; by subst).
  apply wp_bind. eapply wp_mono; [apply (destroy_qgroup_ok g c ct pd); try done; exact (wf_ctrls w H)|].
  intros r w1 (-> & ct' & Haf & Hs & Ht). apply wp_ret.
  pose proof (wf_destroyed fd fl own g c ct ct' w H Hf Ho Hg Hoc Hc Haf) as Hwf2.
  assert (Hd : ∀ o, destroyed g c ct' (set_owner fd fl o w)
    = set_owner fd (file_unlink_maps ms fl) (unlink_maps ms o) (destroyed g c ct' w)).
  { intros o. unfold destroyed. rewrite !drop_maps_set_ctrl. by rewrite drop_maps_set_owner. }
  change (w <| k_files ::= <[fd := fl <| private_data := Some own1 |>]> |>) with (set_owner fd fl own1 w) in Hs.
  change (own <| own_groups := [] |> <| own_nr_groups := 0 |>) with own2 in Hwf2. rewrite Hd in Hs, Hwf2.
  assert (Hf1 : k_files w1 !! fd = Some ((file_unlink_maps ms fl) <| private_data := Some (unlink_maps ms own1) |>)).
  { rewrite <- (same_core_field k_files _ _ (λ _, eq_refl) Hs). apply lookup_insert_eq. }
  apply (wp_upd_owner fd ((file_unlink_maps ms fl) <| private_data := Some (unlink_maps ms own1) |>) (unlink_maps ms own1)); [exact Hf1|done|].
  set (w2 := w1 <| k_files ::= _ |>).
  assert (Hs2 : same_core (set_owner fd (file_unlink_maps ms fl) (unlink_maps ms own2) (destroyed g c ct' w)) w2).
  { apply (same_core_update (set_owner fd (file_unlink_maps ms fl) (unlink_maps ms own2))) in Hs; [|done].
    rewrite set_owner_twice in Hs. etrans; [exact Hs|]. unfold w2, own2. rewrite unlink_maps_nr.
    reflexivity. }
  split; [done|]. split; [split|split; [|split; [|split]]].
  - by eapply wf_core.
  - eexists _, (unlink_maps ms own2).
    rewrite <- (same_core_field k_files _ _ (λ _, eq_refl) Hs2).
    split; [apply lookup_insert_eq|]. split; [done|]. rewrite !(proj1 (unlink_maps_id _ _)), !(proj2 (unlink_maps_id _ _)).
    do 2 (split; [done|]). split; [unfold own2, own1; by rewrite unlink_maps_ungroup|].
    rewrite unlink_maps_data. apply filter_notin. intros x Hx Hin.
    assert (HO : owners (k_files w) !! fd = Some own) by (apply owners_lookup; eauto).
    destruct (wf_links w H) as [HL _]. destruct (HL fd own HO) as [Hnd _].
    unfold owner_maps in Hnd. rewrite Hg, bind_cons, app_nil_r in Hnd.
    apply NoDup_app in Hnd as (_ & Hdis & _). exact (Hdis x Hin Hx).
  - intros m. rewrite <- (same_core_field k_heap _ _ (λ _, eq_refl) Hs2).
    change (k_heap (set_owner ?a ?b ?c ?x)) with (k_heap x). unfold destroyed.
    change (k_heap (?x <| snvm_queue_group_ida ::= _ |>)) with (k_heap x).
    etrans; [apply drop_maps_heap|reflexivity].
  - exists ct'. split; [done|]. rewrite <- (same_core_field k_ctrls _ _ (λ _, eq_refl) Hs2).
    change (k_ctrls (set_owner ?a ?b ?c ?x)) with (k_ctrls x). unfold destroyed.
    change (k_ctrls (?x <| snvm_queue_group_ida ::= _ |>)) with (k_ctrls x). by rewrite drop_maps_ctrls.
  - rewrite <- (same_core_field snvm_queue_group_ida _ _ (λ _, eq_refl) Hs2).
    change (snvm_queue_group_ida (set_owner ?a ?b ?c ?x)) with (snvm_queue_group_ida x). unfold destroyed.
    change (snvm_queue_group_ida (?x <| snvm_queue_group_ida ::= ?f |>)) with (f (snvm_queue_group_ida x)).
    cbv beta. by rewrite drop_maps_ida.
  - exact Ht.
Qed.

(** Releasing a list of descriptors keeps the file and the invariant. *)
Lemma stage_drop fd own ds ms w w' :
  stage fd own [] ds w → same_core (drop_maps ms w) w' → stage fd own [] (filter (λ x, x ∉ ms) ds) w'.
Proof.
  intros [H (fl & own' & Hf & Ho & Hc & Hw & Hg & Hd)] Hs. split.
  - eapply wf_core; [exact Hs|]. by apply wf_drop_maps.
  - eexists _, (unlink_maps ms own'). rewrite <- (same_core_field k_files _ _ (λ _, eq_refl) Hs).
    split; [by apply drop_maps_files|]. split; [by apply file_unlink_maps_owner|].
    rewrite (proj1 (unlink_maps_id _ _)), (proj2 (unlink_maps_id _ _)). do 2 (split; [done|]).
    split; [|by rewrite unlink_maps_data, Hd]. clear -Hg. revert own' Hg.
    induction ms as [|m ms IH]; intros own' Hg; [done|]. apply (IH (owner_unlink m own')).
    unfold owner_unlink. cbn. by rewrite Hg.
Qed.

(** The rest of the bookkeeping is not touched by releasing descriptors. *)
Definition only_maps (gone : mapid → bool) (w w' : kstate) : Prop :=
  heap_without gone w w' ∧ k_ctrls w' = k_ctrls w
  ∧ snvm_queue_group_ida w' = snvm_queue_group_ida w
  ∧ (∀ r, reg_get r w' ⊆ reg_get r w) ∧ extends quiet w w'.

Lemma drop_maps_reg ms r w : reg_get r (drop_maps ms w) ⊆ reg_get r w.
Proof.
  revert w. induction ms as [|m ms IH]; intros w; [done|].
  change (drop_maps (m :: ms) w) with (drop_maps ms (drop_map m w)).
  etrans; [apply IH|]. rewrite reg_get_drop. intros x [_ Hx]%elem_of_without. done.
Qed.

Lemma only_maps_drop ms w w' :
  same_core (drop_maps ms w) w' → extends quiet w w' → only_maps (in_list ms) w w'.
Proof.
  intros Hs Ht. split; [|split; [|split; [|split]]].
  - intros m. rewrite (map_of_core m _ _ Hs). apply drop_maps_heap.
  - rewrite <- (same_core_field k_ctrls _ _ (λ _, eq_refl) Hs). apply drop_maps_ctrls.
  - rewrite <- (same_core_field snvm_queue_group_ida _ _ (λ _, eq_refl) Hs). apply drop_maps_ida.
  - intros r. rewrite (reg_get_core r _ _ Hs). apply drop_maps_reg.
  - done.
Qed.

Lemma only_maps_trans g1 g2 w w1 w2 :
  only_maps g1 w w1 → only_maps g2 w1 w2 → only_maps (λ m, g1 m || g2 m) w w2.
Proof.
  intros (A1 & A2 & A3 & A4 & A5) (B1 & B2 & B3 & B4 & B5).
  split; [by eapply heap_without_trans|]. split; [congruence|]. split; [congruence|].
  split; [|by etrans]. intros r. etrans; [apply B4|apply A4].
Qed.

(** Pass 1: the fd's data buffers. *)
Lemma release_data fd own ds w :
  stage fd own [] ds w →
  wp (for_each unmap_and_release ds;; upd_owner fd (λ own, own <| own_nr_data_maps := 0 |>))
    (λ r w', r = Ok tt ∧ stage fd own [] [] w' ∧ only_maps (in_list ds) w w') w.
Proof.
  intros Hst. pose proof Hst as [H (fl & own' & Hf & Ho & Hc & Hw & Hg & Hd)].
  assert (HO : owners (k_files w) !! fd = Some own') by (apply owners_lookup; eauto).
  destruct (wf_links w H) as [HL _]. destruct (HL fd own' HO) as [Hnd HF].
  unfold owner_maps in Hnd, HF. rewrite Hg, Hd in Hnd, HF. cbn in Hnd, HF.
  apply wp_bind. eapply wp_mono; [apply (unmap_all_core ds); [done| |by apply wf_ctrls]|].
  { eapply Forall_impl; [exact HF|]. intros m [md Hm]. exists md. split; [done|]. by eapply wf_heap_release. }
  intros r w1 (-> & Hs & Ht). pose proof (stage_drop fd own ds ds w w1 Hst Hs) as Hst1.
  replace (filter (λ x, x ∉ ds) ds) with (@nil mapid) in Hst1
    by (by rewrite <- foldl_without, foldl_without_self).
  pose proof (only_maps_drop ds w w1 Hs Ht) as Hm1.
  destruct Hst1 as [H1 (fl1 & own1 & Hf1 & Ho1 & Hc1 & Hw1 & Hg1 & Hd1)].
  apply (wp_upd_owner fd fl1 own1); [done|done|]. split; [done|]. split; [split|done].
  - apply (wf_same_lists fd fl1 own1); try done. split; [done|]. split; [done|]. split; [done|].
    change (own_groups (own1 <| own_nr_data_maps := 0 |>)) with (own_groups own1). rewrite Hg1. by constructor.
  - eexists _, (own1 <| own_nr_data_maps := 0 |>). split; [apply lookup_insert_eq|]. by split.
Qed.

Lemma in_victims h o l m : in_list (victims h o l) m = victim h o m && in_list l m.
Proof.
  unfold in_list. apply eq_true_iff_eq. rewrite andb_true_iff, !bool_decide_eq_true.
  unfold victims. by rewrite list_elem_of_filter.
Qed.

(** Pass 2, on one registry. *)
Lemma release_purge fd own r w :
  stage fd own [] [] w →
  wp (map_purge_by_owner r (own_owner own)) (λ res w', (∃ n, res = Ok n)
    ∧ stage fd own [] [] w'
    ∧ only_maps (λ m, victim (k_heap w) (own_owner own) m && in_list (reg_get r w) m) w w') w.
Proof.
  intros Hst. pose proof (stage_wf _ _ _ _ _ Hst) as H.
  eapply wp_mono; [apply map_purge_ok; [by apply wf_registry|by apply wf_ctrls]|].
  intros res w' (-> & Hs & Ht). split; [eauto|]. split; [exact (stage_drop fd own [] _ w w' Hst Hs)|].
  pose proof (only_maps_drop _ _ _ Hs Ht) as (A & B). split; [|done].
  intros m. rewrite (A m). by rewrite in_victims.
Qed.

(** Pass 3: the file lets go of an owner that owns nothing any more. *)
Lemma wf_remove_owner fd fl own w :
  wf w → k_files w !! fd = Some fl → private_data fl = Some own →
  own_groups own = [] → own_data_maps own = [] →
  wf (w <| k_files ::= insert fd (fl <| private_data := None |>) |>).
Proof.
  intros [H1 H2 [L1 L2] (T1 & T2 & T3) H5 H6 H7 H8 H9] Hf Ho Hg Hd.
  assert (HO : owners (k_files w) !! fd = Some own) by (apply owners_lookup; eauto).
  set (w' := w <| k_files ::= _ |>).
  assert (EO : owners (k_files w') = delete fd (owners (k_files w))) by (apply omap_insert_None; done).
  assert (EV : gviews (delete fd (owners (k_files w))) = gviews (owners (k_files w))).
  { unfold gviews. rewrite omap_delete. apply delete_id. rewrite lookup_omap, HO. cbn.
    unfold owner_group. by rewrite Hg. }
  assert (Hkeep : ∀ fd' own', owners (k_files w) !! fd' = Some own' →
    own_groups own' ≠ [] ∨ own_data_maps own' ≠ [] → delete fd (owners (k_files w)) !! fd' = Some own').
  { intros fd' own' HO' Hne. rewrite lookup_delete_ne; [done|]. intros <-.
    assert (own' = own) as -> by congruence. rewrite Hg, Hd in Hne. by destruct Hne. }
  split; rewrite ?EO, ?EV; change (k_heap w') with (k_heap w); try done.
  - split.
    + intros fd' own' [_ HO']%lookup_delete_Some. by apply (L1 fd').
    + intros fd1 fd2 own1 own2 m [_ HO1]%lookup_delete_Some [_ HO2]%lookup_delete_Some. by eapply L2.
  - split; [|split].
    + intros fd' own' g m [_ HO']%lookup_delete_Some. by apply (T1 fd').
    + intros fd' own' m [_ HO']%lookup_delete_Some. by apply (T2 fd').
    + intros m md Hm. destruct (T3 m md Hm) as [Tg Td]. split.
      * intros Hid. destruct (Tg Hid) as (fd' & own' & g & HO' & Hin & Hmem). exists fd', own', g.
        split; [|done]. apply Hkeep; [done|]. left. intros E0. rewrite E0 in Hin. by apply elem_of_nil in Hin.
      * intros Hk. destruct (Td Hk) as (fd' & own' & HO' & Hin). exists fd', own'.
        split; [|done]. apply Hkeep; [done|]. right. intros E0. rewrite E0 in Hin. by apply elem_of_nil in Hin.
  - by apply map_Forall_delete.
  - intros fd' fl' own' c' Hf' Ho'. change (k_files w') with (<[fd := fl <| private_data := None |>]> (k_files w)) in Hf'.
    apply lookup_insert_Some in Hf' as [[<- <-]|[_ Hf']]; [done|]. by apply (H9 fd').
Qed.

(** Pass 0 whatever the file has. *)
Lemma release_groups fd fl own c ct pd w :
  wf w → k_files w !! fd = Some fl → private_data fl = Some own →
  own_ctrl own = c → k_ctrls w !! c = Some ct → k_pdevs w !! c_pdev ct = Some pd →
  wp (destroy_groups fd c (own_groups own);; upd_owner fd (λ own, own <| own_nr_groups := 0 |>))
    (λ r w', r = Ok tt ∧ stage fd own [] (own_data_maps own) w'
      ∧ heap_without (in_list (own_groups own ≫= g_maps)) w w'
      ∧ (∃ ct', pool_after ct (owner_qids own) ct' ∧ k_ctrls w' = <[c := ct']> (k_ctrls w))
      ∧ snvm_queue_group_ida w' = snvm_queue_group_ida w ∖ list_to_set (g_group_id <$> own_groups own)
      ∧ ∃ adm rest, k_trace w' = k_trace w ++ adm ++ rest ∧ Forall is_admin adm ∧ Forall not_admin rest
          ∧ adm ≫= admin_of = (if bool_decide (is_Some (live_ndev pd))
                               then owner_qids own ≫= delete_pair else [])) w.
Proof.
  intros H Hf Ho Hoc Hc Hp. destruct (own_groups own) as [|g gs] eqn:Hg.
  - cbn [destroy_groups]. apply wp_bind, wp_ret, (wp_upd_owner fd fl own); [done|done|].
    assert (HO : owners (k_files w) !! fd = Some own) by (apply owners_lookup; eauto).
    destruct (wf_owners w H fd own HO) as (_ & Hn & _). rewrite Hg in Hn. cbn in Hn.
    assert (E1 : own <| own_nr_groups := 0 |> = own) by (destruct own; cbn in *; by subst).
    rewrite E1. change (w <| k_files ::= _ |>) with (set_owner fd fl own w).
    rewrite set_owner_id by done. unfold owner_qids. rewrite Hg. split; [done|].
    split; [split; [done|]; by exists fl, own|]. split; [done|].
    split; [exists ct; split; [apply pool_after_nil|by rewrite insert_id]|].
    split; [cbn; set_solver|]. exists [], []. rewrite !app_nil_r. split; [done|].
    split; [done|]. split; [done|]. by case_bool_decide.
  - destruct (wf_one_group w fd fl own 0 g H Hf Ho) as (_ & Hg1 & _); [by rewrite Hg|].
    assert (gs = []) as -> by congruence.
    eapply wp_mono; [by apply (release_group fd fl own g c ct pd w)|].
    intros r w' (-> & Hst & Hh & Hct & Hida & (adm & mp & Ht & Ha & Hd & Hq)).
    unfold owner_qids. rewrite Hg, !bind_cons, !app_nil_r. split; [done|]. split; [done|]. split; [exact Hh|].
    split; [done|]. split; [rewrite Hida; cbn; set_solver|].
    exists adm, (mp ++ [EvFreeGroup (g_group_id g)]). split; [done|]. split; [done|]. split; [|done].
    apply Forall_app. split; [eapply Forall_impl; [exact Hq|apply quiet_not_admin]|].
    constructor; [by intros []|done].
Qed.

(** The three purges together reach every ungrouped map of the task. *)
Lemma release_purges fd own w :
  stage fd own [] [] w →
  wp (map_purge_by_owner HostList (own_owner own);;
      map_purge_by_owner DeviceList (own_owner own);;
      map_purge_by_owner DeviceQueueList (own_owner own);; mret tt)
    (λ res w', res = Ok tt ∧ stage fd own [] [] w'
       ∧ only_maps (victim (k_heap w) (own_owner own)) w w') w.
Proof.
  intros Hst. set (o := own_owner own).
  apply wp_bind. eapply wp_mono; [by apply release_purge|]. intros r w1 ([? ->] & S1 & M1).
  apply wp_bind. eapply wp_mono; [by apply release_purge|]. intros r w2 ([? ->] & S2 & M2).
  apply wp_bind. eapply wp_mono; [by apply release_purge|]. intros r w3 ([? ->] & S3 & M3).
  apply wp_ret. split; [done|]. split; [done|].
  destruct (only_maps_trans _ _ _ _ _ (only_maps_trans _ _ _ _ _ M1 M2) M3) as (Hh & Hrest).
  split; [|done]. destruct M1 as (A1 & _ & _ & R1 & _), M2 as (A2 & _ & _ & R2 & _), M3 as (A3 & _ & _ & R3 & _).
  fold o in Hh, A1, A2, A3.
  assert (Hback : ∀ m md, k_heap w3 !! m = Some md → victim (k_heap w) o m = false).
  { intros m md H3. pose proof H3 as H2. rewrite A3 in H2. case_match eqn:V3; [done|].
    pose proof H2 as H1. rewrite A2 in H1. case_match eqn:V2; [done|].
    pose proof H1 as H0. rewrite A1 in H0. case_match eqn:V1; [done|].
    destruct (victim (k_heap w) o m) eqn:Hv; [|done]. exfalso.
    assert (E1 : victim (k_heap w1) o m = true) by (unfold victim in *; rewrite H1; by rewrite H0 in Hv).
    assert (E2 : victim (k_heap w2) o m = true) by (unfold victim in *; rewrite H2; by rewrite H0 in Hv).
    rewrite E2 in V3. rewrite E1 in V2. cbn in V1, V2, V3. unfold in_list in *.
    apply bool_decide_eq_false in V1, V2, V3.
    destruct (wf_regs w3 (stage_wf _ _ _ _ _ S3)) as (_ & Hiff & _).
    assert (Hin : m ∈ registries w3) by (apply Hiff; eauto). unfold registries in Hin.
    specialize (R3 HostList m) as R3h. specialize (R3 DeviceList m) as R3d. specialize (R3 DeviceQueueList m) as R3q.
    specialize (R2 HostList m) as R2h. specialize (R2 DeviceList m) as R2d. specialize (R1 HostList m) as R1h.
    cbn in *. rewrite !elem_of_app in Hin. tauto. }
  intros m. destruct (victim (k_heap w) o m) eqn:Hv.
  - destruct (k_heap w3 !! m) as [md|] eqn:H3; [|done]. by rewrite (Hback m md H3) in Hv.
  - assert (E1 : k_heap w1 !! m = k_heap w !! m) by (by rewrite A1, Hv).
    assert (V1 : victim (k_heap w1) o m = false) by (unfold victim in *; by rewrite E1).
    assert (E2 : k_heap w2 !! m = k_heap w !! m) by (by rewrite A2, V1).
    assert (V2 : victim (k_heap w2) o m = false) by (unfold victim in *; by rewrite E2).
    by rewrite A3, V2.
Qed.

(** Everything release does to the bookkeeping and to the device. *)
Definition released_fd (gone : mapid → bool) (fd : fdid) (own : snvm_dev_owner) (ct : ctrl) (live : bool) (w w' : kstate) : Prop :=
  (∃ fl, k_files w' !! fd = Some fl ∧ private_data fl = None)
  ∧ heap_without (λ m, in_list (owner_maps own) m || gone m) w w'
  ∧ (∃ ct', pool_after ct (owner_qids own) ct' ∧ k_ctrls w' = <[own_ctrl own := ct']> (k_ctrls w))
  ∧ snvm_queue_group_ida w' = snvm_queue_group_ida w ∖ list_to_set (g_group_id <$> own_groups own)
  ∧ ∃ adm rest, k_trace w' = k_trace w ++ adm ++ rest ∧ Forall is_admin adm ∧ Forall not_admin rest
      ∧ adm ≫= admin_of = (if live then owner_qids own ≫= delete_pair else []).

Lemma snvm_dev_release_ok fd fl own ct pd w :
  wf w → k_files w !! fd = Some fl → private_data fl = Some own →
  k_ctrls w !! own_ctrl own = Some ct → k_pdevs w !! c_pdev ct = Some pd →
  wp (snvm_dev_release fd) (λ r w', r = Ok tt ∧ wf w'
    ∧ released_fd (victim (k_heap w) (own_owner own)) fd own ct (bool_decide (is_Some (live_ndev pd))) w w') w.
Proof.
  intros H Hf Ho Hc Hp. unfold snvm_dev_release. apply wp_bind, (wp_the_owner fd fl); [done|].
  rewrite Ho. apply wp_prefix2. eapply wp_mono; [by apply (release_groups fd fl own (own_ctrl own) ct pd)|].
  intros r w1 (-> & S1 & A1 & C1 & I1 & T1). split; [done|].
  apply wp_prefix2. eapply wp_mono; [by apply release_data|].
  intros r w2 (-> & S2 & (A2 & C2 & I2 & _ & T2)). split; [done|].
  apply wp_prefix3. eapply wp_mono; [by apply (release_purges fd own w2)|].
  intros r w3 (-> & S3 & (A3 & C3 & I3 & _ & T3)). split; [done|].
  destruct S3 as [H3 (fl3 & own3 & Hf3 & Ho3 & _ & _ & Hg3 & Hd3)].
  apply wp_bind, (wp_the_file fd fl3); [done|]. apply wp_modify. split; [done|].
  split; [by apply (wf_remove_owner fd fl3 own3)|]. set (w4 := w3 <| k_files ::= _ |>).
  split; [eexists; split; [apply lookup_insert_eq|done]|]. split; [|split; [|split]].
  - change (heap_without (λ m, in_list (owner_maps own) m || victim (k_heap w) (own_owner own) m) w w3).
    assert (A12 : heap_without (in_list (owner_maps own)) w w2).
    { intros m. rewrite (heap_without_trans _ _ _ _ _ A1 A2 m). unfold owner_maps, in_list.
      by rewrite <- bool_decide_or, (bool_decide_ext _ _ (symmetry (elem_of_app _ _ m))). }
    intros m. rewrite (A3 m), (A12 m). unfold victim at 1. rewrite (A12 m).
    destruct (in_list (owner_maps own) m); [done|]. reflexivity.
  - destruct C1 as (ct' & Haf & E1). exists ct'. split; [done|].
    change (k_ctrls w4) with (k_ctrls w3). congruence.
  - change (snvm_queue_group_ida w4) with (snvm_queue_group_ida w3). congruence.
  - destruct T1 as (adm & rest & T1 & F1 & N1 & D1), T2 as (t2 & T2 & F2), T3 as (t3 & T3 & F3).
    exists adm, (rest ++ t2 ++ t3). change (k_trace w4) with (k_trace w3).
    split; [by rewrite T3, T2, T1, <- !app_assoc|]. split; [done|]. split; [|done].
    rewrite !Forall_app. split; [done|].
    split; eapply Forall_impl; try apply quiet_not_admin; done.
Qed.

(** Another open file of the task has a data buffer.  Such a buffer keeps group
    id 0, so the purge by owner does not tell it from a legacy map. *)
Definition sibling_data (fd : fdid) (own : snvm_dev_owner) (w : kstate) : Prop :=
  ∃ fd' own' m md, fd' ≠ fd ∧ owners (k_files w) !! fd' = Some own' ∧ m ∈ own_data_maps own'
    ∧ k_heap w !! m = Some md ∧ m_owner md = own_owner own.

(** A map that belongs to no file: ungrouped, no data buffer. *)
Definition legacy (h : gmap mapid map) (owner : task) (m : mapid) : bool :=
  match h !! m with
  | Some md => bool_decide (m_owner md = owner) && bool_decide (m_group_id md = 0) && negb (bool_decide (m_kind md = NVM_MAP_KIND_DATA))
  | None => false
  end.

(** Every map of another open file survives. *)
Definition spares_siblings (fd : fdid) (w w' : kstate) : Prop :=
  ∀ fd' own' m, fd' ≠ fd → owners (k_files w) !! fd' = Some own' → m ∈ owner_maps own' → k_heap w' !! m = k_heap w !! m.

Lemma victim_legacy fd own w m :
  wf w → owners (k_files w) !! fd = Some own → ¬ sibling_data fd own w →
  in_list (owner_maps own) m || victim (k_heap w) (own_owner own) m
  = in_list (owner_maps own) m || legacy (k_heap w) (own_owner own) m.
Proof.
  intros H Ho Hsib. unfold victim, legacy. destruct (k_heap w !! m) as [md|] eqn:Hm; [|done].
  destruct (bool_decide (m_owner md = own_owner own)) eqn:E1; [|done]. destruct (bool_decide (m_group_id md = 0)); [|done].
  destruct (bool_decide (m_kind md = NVM_MAP_KIND_DATA)) eqn:Hk; [|done]. apply bool_decide_eq_true in Hk.
  cbn [negb andb]. rewrite orb_true_r, orb_false_r. symmetry. apply bool_decide_eq_true in E1.
  destruct (wf_tags w H) as (_ & _ & Ht). destruct (Ht m md Hm) as [_ Hd]. destruct (Hd Hk) as (fd' & own' & Ho' & Hin).
  destruct (decide (fd' = fd)) as [->|Hne]; [|exfalso; apply Hsib; by exists fd', own', m, md].
  assert (own' = own) as -> by congruence. apply bool_decide_eq_true. unfold owner_maps. apply elem_of_app. by right.
Qed.

Lemma release_exact fd fl own ct pd w :
  wf w → k_files w !! fd = Some fl → private_data fl = Some own →
  k_ctrls w !! own_ctrl own = Some ct → k_pdevs w !! c_pdev ct = Some pd → ¬ sibling_data fd own w →
  wp (snvm_dev_release fd) (λ r w', r = Ok tt ∧ wf w' ∧ spares_siblings fd w w'
    ∧ released_fd (legacy (k_heap w) (own_owner own)) fd own ct (bool_decide (is_Some (live_ndev pd))) w w') w.
Proof.
  intros H Hf Ho Hc Hp Hsib. assert (HO : owners (k_files w) !! fd = Some own) by (apply owners_lookup; eauto).
  eapply wp_mono; [by apply (snvm_dev_release_ok fd fl own ct pd)|]. intros r w' (-> & Hw' & R1 & R2 & R3).
  assert (Hh : heap_without (λ m, in_list (owner_maps own) m || legacy (k_heap w) (own_owner own) m) w w').
  { intros m. rewrite (R2 m). cbn. by rewrite (victim_legacy fd own w m). }
  split; [done|]. split; [done|]. split; [|split; [exact R1|]; split; [exact Hh|exact R3]]. intros fd' own' m Hne Ho' Hin.
  specialize (Hh m). cbv beta in Hh. destruct (wf_links w H) as [L1 L2]. destruct (wf_tags w H) as (T1 & T2 & _).
  assert (in_list (owner_maps own) m = false) as E1.
  { apply bool_decide_eq_false. intros Hin2. apply Hne. by eapply (L2 fd' fd). }
  assert (legacy (k_heap w) (own_owner own) m = false) as E2; [|by rewrite E1, E2 in Hh].
  unfold owner_maps in Hin. apply elem_of_app in Hin as [(g & Hm & Hg)%list_elem_of_bind|Hd].
  - destruct (T1 fd' own' g m Ho' Hg Hm) as (md & Hmd & Eg & _). unfold legacy. rewrite Hmd, Eg.
    rewrite (bool_decide_eq_false_2 (g_group_id g = 0)), andb_false_r; [done|].
    pose proof (wf_group_id w fd' own' g H Ho' Hg). lia.
  - destruct (T2 fd' own' m Ho' Hd) as (md & Hmd & _ & Ek). unfold legacy. rewrite Hmd, Ek. by rewrite (bool_decide_eq_true_2 _ eq_refl), andb_false_r.
Qed.
End release.
