(* ===== verification/InfoIoctl.v ===== *)
(** * InfoIoctl: the handlers that change no group and no map

    NVM_GET_DEV_INFO, NVM_SET_KERNEL_IOQ_CAP, the admin pass-through, mmap of
    the registers, open, and the look-up of the controller behind an inode that
    every entry point starts with. *)
From S2P Require Import Prelude.
From S2P Require Import Uapi.
From S2P Require Import Kernel.
From S2P Require Import QidPool.
From S2P Require Import Map.
From S2P Require Import MapGpu.
From S2P Require Import Ctrl.
From S2P Require Import Qgroup.
From S2P Require Import DevIoctl.
From S2P Require Import AddQueue.
From S2P Require Import Invariant.
From S2P Require Import MapIoctl.
From S2P Require Import GroupInv.
From S2P Require Import GroupIoctl.

Section info_ioctl.
Context `{E : Env} `{P : PeerMemory}.
Implicit Types (w : kstate).

(** ** Finding the controller *)

Lemma ctrl_find_ok f cs w :
  Forall (λ c, is_Some (k_ctrls w !! c)) cs →
  wp (ctrl_find f cs) (λ r w', w' = w ∧
    match r with
    | Ok (Some c) => ∃ l1 l2 ct, cs = l1 ++ c :: l2 ∧ k_ctrls w !! c = Some ct ∧ f c ct = true
        ∧ Forall (λ c', ∀ ct', k_ctrls w !! c' = Some ct' → f c' ct' = false) l1
    | Ok None => Forall (λ c', ∀ ct', k_ctrls w !! c' = Some ct' → f c' ct' = false) cs
    | _ => False
    end) w.
Proof.
  induction cs as [|c cs IH]; intros HF; cbn [ctrl_find]; [by apply wp_ret|].
  apply Forall_cons in HF as [[ct Hc] HF]. apply wp_bind, (wp_the_ctrl c ct); [done|].
  destruct (f c ct) eqn:Hfc.
  - apply wp_ret. split; [done|]. by exists [], cs, ct.
  - eapply wp_mono; [by apply IH|]. intros [[c'|]|e|g] w' [-> Hr]; (split; [done|]); try done.
    + destruct Hr as (l1 & l2 & ct' & -> & Hc' & Hf' & HF'). exists (c :: l1), l2, ct'.
      do 3 (split; [done|]). constructor; [|done]. intros ct2 H2. congruence.
    + constructor; [|done]. intros ct2 H2. congruence.
Qed.

Lemma find_by_inode_ok inode w :
  ctrls_ok w →
  wp (ctrl_find_by_inode inode) (λ r w', w' = w ∧
    match r with
    | Ok (Some c) => c ∈ ctrl_list w ∧ is_Some (k_ctrls w !! c) ∧ k_inodes w !! inode = Some (Some c)
    | Ok None => ∀ c, c ∈ ctrl_list w → k_inodes w !! inode ≠ Some (Some c)
    | _ => False
    end) w.
Proof.
  intros [_ Hcs]. unfold ctrl_find_by_inode. apply wp_bind, wp_gets, wp_bind, wp_gets.
  eapply wp_mono; [by apply ctrl_find_ok|]. intros [[c|]|e|f] w' [-> Hr]; (split; [done|]); try done.
  - destruct Hr as (l1 & l2 & ct & Hl & Hc & Hi%bool_decide_eq_true & _). rewrite Hl. split; [set_solver|]. eauto.
  - intros c Hin. rewrite Forall_forall in Hr, Hcs. destruct (Hcs c Hin) as [ct Hc].
    by pose proof (Hr c Hin ct Hc) as ?%bool_decide_eq_false.
Qed.

Lemma find_by_pci_dev_ok pdev w :
  Forall (λ c, is_Some (k_ctrls w !! c)) (ctrl_list w) →
  wp (ctrl_find_by_pci_dev pdev) (λ r w', w' = w ∧
    match r with
    | Ok (Some c) => c ∈ ctrl_list w ∧ ∃ ct, k_ctrls w !! c = Some ct ∧ c_pdev ct = pdev
    | Ok None => ∀ c ct, c ∈ ctrl_list w → k_ctrls w !! c = Some ct → c_pdev ct ≠ pdev
    | _ => False
    end) w.
Proof.
  intros Hcs. unfold ctrl_find_by_pci_dev. apply wp_bind, wp_gets.
  eapply wp_mono; [by apply ctrl_find_ok|]. intros [[c|]|e|f] w' [-> Hr]; (split; [done|]); try done.
  - destruct Hr as (l1 & l2 & ct & Hl & Hc & Hi%bool_decide_eq_true & _). rewrite Hl. split; [set_solver|]. eauto.
  - intros c ct Hin Hc. rewrite Forall_forall in Hr. by pose proof (Hr c Hin ct Hc) as ?%bool_decide_eq_false.
Qed.

(** ** NVM_GET_DEV_INFO *)

Lemma ns_wait_ok fuel ns ms w :
  5000 ≤ ms + 50 * Z.of_nat fuel →
  wp (ns_wait fuel ns ms) (λ r w', (∃ ns', r = Ok ns'
      ∧ ∀ x, ns' = Some x → ns = Some x ∨ ∃ t, env_ns t = Some x)
    ∧ same_core w w' ∧ k_trace w' = k_trace w ∧ (k_tick w' ≤ k_tick w + fuel)%nat) w.
Proof.
  revert ns ms w. induction fuel as [|fuel IH]; intros ns ms w Hf; cbn [ns_wait];
    (destruct ns as [x|]; [apply wp_ret; split; [eauto|]; split; [done|]; split; [done|lia]|]).
  - rewrite bool_decide_eq_false_2 by lia. apply wp_ret. split; [eauto|]. split; [done|]. split; [done|lia].
  - case_bool_decide; [|apply wp_ret; split; [eauto|]; split; [done|]; split; [done|lia]].
    apply wp_bind, wp_bind, wp_tick, wp_ret. eapply wp_mono; [apply IH; lia|].
    intros r w' ((ns' & -> & Hns) & Hc & Ht & Hk). split.
    + exists ns'. split; [done|]. intros x Hx. destruct (Hns x Hx); eauto.
    + split; [exact Hc|]. split; [exact Ht|]. cbn in Hk. lia.
Qed.

Definition info_post (pd : pci_dev) (w : kstate) (res : outcome (Z * uout)) (w' : kstate) : Prop :=
  same_core w w' ∧ k_trace w' = k_trace w ∧ (k_tick w' ≤ k_tick w + 103)%nat
  ∧ match res with
    | Ok (ret, out) => ret = 0 ∧ ∃ nd name lba t, pd_drvdata pd = Some nd
        ∧ env_ns t = Some (name, lba) ∧ out = OutDev (dev_info nd pd name lba)
    | Err e => e = EFAULT
    | Fault _ => False
    end.

Lemma ioctl_get_dev_info_ok c ct pd w :
  k_ctrls w !! c = Some ct → k_pdevs w !! c_pdev ct = Some pd →
  wp (ioctl_get_dev_info c) (info_post pd w) w.
Proof.
  intros Hc Hp. unfold ioctl_get_dev_info. apply wp_bind, (wp_the_ctrl c ct); [done|].
  apply wp_bind, (wp_the_pdev (c_pdev ct) pd); [done|].
  destruct (pd_drvdata pd) as [nd|] eqn:Hnd;
    [|apply wp_fail; split; [done|]; split; [done|]; split; [lia|done]].
  apply wp_bind, wp_bind, wp_tick, wp_ret. set (w0 := w <| k_tick := S (k_tick w) |>).
  assert (Hwait : wp (match env_ns (k_tick w) with
      | Some _ => mret (env_ns (k_tick w))
      | None => ns ← find_get_ns; ns_wait ns_wait_fuel ns 0 end)
    (λ r w', (∃ ns', r = Ok ns' ∧ ∀ x, ns' = Some x → ∃ t, env_ns t = Some x)
      ∧ same_core w w' ∧ k_trace w' = k_trace w ∧ (k_tick w' ≤ k_tick w + 102)%nat) w0).
  { destruct (env_ns (k_tick w)) as [x|] eqn:Hx.
    - apply wp_ret. split; [eexists; split; [done|]; intros y [= <-]; eauto|].
      split; [core_eq|]. split; [done|]. cbn. lia.
    - apply wp_bind, wp_bind, wp_tick, wp_ret. eapply wp_mono; [by apply ns_wait_ok|].
      intros r w' ((ns' & -> & Hns) & Hc' & Ht & Hk). split.
      + exists ns'. split; [done|]. intros y Hy. destruct (Hns y Hy); eauto.
      + split; [exact Hc'|]. split; [exact Ht|]. unfold ns_wait_fuel in Hk. cbn in Hk. lia. }
  apply wp_bind. eapply wp_mono; [exact Hwait|]. intros r w1 ((ns & -> & Hns) & Hc1 & Ht1 & Hk1).
  destruct ns as [[name lba]|]; [|apply wp_fail; split; [done|]; split; [done|]; split; [lia|done]].
  destruct (Hns _ eq_refl) as [t Ht]. apply wp_bind, wp_bind, wp_tick, wp_ret.
  set (w2 := w1 <| k_tick := _ |>). assert (Hc2 : same_core w w2) by exact Hc1.
  assert (Hk2 : (k_tick w2 ≤ k_tick w + 103)%nat) by (cbn; lia).
  case_bool_decide; [by apply wp_fail|]. apply wp_ret. split; [done|]. split; [done|]. split; [done|].
  split; [done|]. by exists nd, name, lba, t.
Qed.

(** ** NVM_SET_KERNEL_IOQ_CAP *)

Lemma wf_set_setup c ct s w :
  wf w → k_ctrls w !! c = Some ct →
  wf (w <| k_ctrls ::= insert c (ct <| c_setup := s |>) |>).
Proof.
  intros [H1 H2 H3 H4 H5 H6 H7 H8 H9] Hc. split; cbn; try done.
  - by apply (ctrls_ok_insert c ct).
  - by apply owners_ok_insert_ctrl.
  - apply map_Forall_insert_2; [|done]. destruct (H7 c ct Hc) as (Hp & Hu).
    split; [|exact Hu]. intros bm Hbm. destruct (Hp bm Hbm). by split.
  - by apply (pdevs_ok_insert _ _ c ct).
Qed.

Lemma ioctl_set_cap_ok c ct cap w :
  wf w → k_ctrls w !! c = Some ct →
  wp (ioctl_set_cap c cap) (λ res w', wf w' ∧
    match res with
    | Ok r => r = (0, OutNone) ∧ same_core (w <| k_ctrls ::= insert c (ct <| c_setup :=
          (c_setup ct) <| setup_cap_kernel_ioq := cap |> <| setup_valid := 1 |> |>) |>) w'
    | Err e => e = EFAULT ∧ same_core w w'
    | Fault _ => False
    end) w.
Proof.
  intros H Hc. set (w0 := w <| k_tick := S (k_tick w) |>).
  assert (H0 : same_core w w0) by core_eq. assert (Hwf0 : wf w0) by (by apply (wf_core w)).
  unfold ioctl_set_cap. apply wp_bind, wp_copy_from; [done|].
  apply wp_bind, (wp_upd_ctrl c ct); [done|]. apply wp_ret. split; [|split; [done|core_eq]].
  exact (wf_set_setup c ct _ w0 Hwf0 Hc).
Qed.

(** ** Admin pass-through *)

Lemma ioctl_default_ok fd fl c ct pd cmd w :
  k_files w !! fd = Some fl → k_ctrls w !! c = Some ct → k_pdevs w !! c_pdev ct = Some pd →
  wp (ioctl_default fd c cmd) (λ res w', same_core w w' ∧ k_trace w' = k_trace w ∧
    match res with
    | Ok (ret, out) => out = OutNone ∧ is_Some (live_ndev pd)
        ∧ cmd ∈ [NVME_IOCTL_ADMIN_CMD; NVME_IOCTL_ADMIN64_CMD]
        ∧ ret = env_passthru (k_tick w) cmd (f_mode_write fl)
    | Err e => (e = EINVAL ∧ cmd ∉ [NVME_IOCTL_ADMIN_CMD; NVME_IOCTL_ADMIN64_CMD])
               ∨ (e = ENODEV ∧ live_ndev pd = None)
    | Fault _ => False
    end) w.
Proof.
  intros Hf Hc Hp. unfold ioctl_default.
  destruct (bool_decide (cmd = NVME_IOCTL_ADMIN_CMD) || bool_decide (cmd = NVME_IOCTL_ADMIN64_CMD)) eqn:Hcmd.
  2: { apply wp_fail. split; [done|]. split; [done|]. left. split; [done|].
       apply orb_false_elim in Hcmd as [?%bool_decide_eq_false ?%bool_decide_eq_false]. set_solver. }
  assert (Hin : cmd ∈ [NVME_IOCTL_ADMIN_CMD; NVME_IOCTL_ADMIN64_CMD]).
  { apply orb_prop in Hcmd as [->%bool_decide_eq_true| ->%bool_decide_eq_true]; set_solver. }
  apply wp_bind. eapply wp_eq; [by apply (get_live_spec c ct pd)|].
  destruct (live_ndev pd) as [nd|]; [|apply wp_fail; split; [done|]; split; [done|]; by right].
  apply wp_bind, (wp_the_file fd fl); [done|]. apply wp_bind, wp_tick, wp_ret.
  split; [core_eq|]. split; [done|]. split; [done|]. by split.
Qed.

(** ** mmap and open *)

Lemma svm_mmap_ok fd fl vs ve w :
  wf w → k_files w !! fd = Some fl →
  wp (svm_mmap_registers fd vs ve) (λ res w', same_core w w' ∧
    match res with
    | Ok ret => ∃ c ct pd, k_inodes w !! f_inode fl = Some (Some c) ∧ k_ctrls w !! c = Some ct
        ∧ k_pdevs w !! c_pdev ct = Some pd ∧ u64 (ve - vs) ≤ pd_bar0_len pd
        ∧ ret = env_iomap (k_tick w) (pd_bar0_start pd) (u64 (ve - vs))
    | Err e => e ∈ [EBADF; EINVAL]
    | Fault _ => False
    end) w.
Proof.
  intros H Hf. unfold svm_mmap_registers. apply wp_bind, (wp_the_file fd fl); [done|].
  apply wp_bind. eapply wp_mono; [by apply find_by_inode_ok, wf_ctrls|].
  intros [[c|]|e|f] w' [-> Hr]; try done; [|apply wp_fail; split; [done|set_solver]].
  destruct Hr as (_ & [ct Hc] & Hi). destruct (wf_ctrl_pdev w c ct H Hc) as [pd Hp].
  apply wp_bind, (wp_the_ctrl c ct); [done|]. apply wp_bind, (wp_the_pdev (c_pdev ct) pd); [done|].
  apply wp_bind, wp_guard; [intros _; split; [done|set_solver]|]. intros Hle%bool_decide_eq_false.
  apply wp_bind, wp_tick, wp_ret. split; [core_eq|]. exists c, ct, pd. do 3 (split; [done|]). split; [lia|done].
Qed.

Lemma wf_new_owner fd fl c cur w :
  wf w → k_files w !! fd = Some fl → private_data fl = None → is_Some (k_ctrls w !! c) →
  k_inodes w !! f_inode fl = Some (Some c) →
  wf (set_owner fd fl (mk_owner c cur [] 0 [] 0) w).
Proof.
  intros [H1 H2 [L1 L2] (T1 & T2 & T3) H5 H6 H7 H8 H9] Hf Ho Hc Hi. set (own := mk_owner c cur [] 0 [] 0).
  assert (HO : owners (k_files w) !! fd = None) by (unfold owners; by rewrite lookup_omap, Hf).
  assert (EV : gviews (<[fd := own]> (owners (k_files w))) = gviews (owners (k_files w))).
  { rewrite gviews_insert. cbn. apply delete_id. unfold gviews. by rewrite lookup_omap, HO. }
  set (w' := set_owner fd fl own w).
  assert (EO : owners (k_files w') = <[fd := own]> (owners (k_files w))) by apply owners_insert.
  split; rewrite ?EO, ?EV; change (k_heap w') with (k_heap w); try done.
  - split.
    + intros fd' own' [[<- <-]|[_ HO']]%lookup_insert_Some; [|by apply (L1 fd')].
      split; [apply NoDup_nil_2|apply Forall_nil_2].
    + intros fd1 fd2 own1 own2 m [[<- <-]|[_ HO1]]%lookup_insert_Some; [by intros _ ?%elem_of_nil|].
      intros [[<- <-]|[_ HO2]]%lookup_insert_Some; [by intros _ ?%elem_of_nil|]. by eapply L2.
  - split; [|split].
    + intros fd' own' g m [[<- <-]|[_ HO']]%lookup_insert_Some; [by intros ?%elem_of_nil|]. by apply (T1 fd').
    + intros fd' own' m [[<- <-]|[_ HO']]%lookup_insert_Some; [by intros ?%elem_of_nil|]. by apply (T2 fd').
    + intros m md Hm. destruct (T3 m md Hm) as [Tg Td]. split.
      * intros Hid. destruct (Tg Hid) as (fd' & own' & g & HO' & ?). exists fd', own', g.
        rewrite lookup_insert_ne; [done|]. intros <-. congruence.
      * intros Hk. destruct (Td Hk) as (fd' & own' & HO' & ?). exists fd', own'.
        rewrite lookup_insert_ne; [done|]. intros <-. congruence.
  - by apply map_Forall_insert_2.
  - intros fd' fl' own' c' Hf'.
    change (k_files w') with (<[fd := fl <| private_data := Some own |>]> (k_files w)) in Hf'.
    apply lookup_insert_Some in Hf' as [[<- <-]|[_ Hf']]; [|by apply (H9 fd')].
    intros [= <-] Hi'. change (k_inodes w !! f_inode fl = Some (Some c')) in Hi'. cbn. congruence.
Qed.

Lemma snvm_dev_open_ok cur inode fd fl w :
  wf w → k_files w !! fd = Some fl → private_data fl = None → f_inode fl = inode →
  wp (snvm_dev_open cur inode fd) (λ res w', wf w' ∧
    match res with
    | Ok _ => ∃ c, c ∈ ctrl_list w ∧ k_inodes w !! inode = Some (Some c)
        ∧ same_core (set_owner fd fl (mk_owner c cur [] 0 [] 0) w) w'
    | Err e => e ∈ [ENODEV; ENOMEM] ∧ same_core w w'
    | Fault _ => False
    end) w.
Proof.
  intros H Hf Ho Hi. unfold snvm_dev_open. apply wp_bind.
  eapply wp_mono; [by apply find_by_inode_ok, wf_ctrls|].
  intros [[c|]|e|f] w' [-> Hr]; try done; [|apply wp_fail; split; [done|]; split; [set_solver|done]].
  destruct Hr as (Hin & Hc & Hic). apply wp_bind, wp_kalloc. set (w0 := w <| k_tick := S (k_tick w) |>).
  assert (H0 : same_core w w0) by core_eq. assert (Hwf0 : wf w0) by (by apply (wf_core w)).
  apply wp_bind, wp_guard; [intros _; split; [done|]; split; [set_solver|done]|]. intros _.
  apply wp_bind, (wp_the_file fd fl); [done|]. apply wp_modify. split.
  - apply (wf_new_owner fd fl c cur w0); try done. by rewrite Hi.
  - exists c. split; [done|]. split; [done|]. core_eq.
Qed.
End info_ioctl.
