(* ===== verification/AddSpec.v ===== *)
(** * AddSpec: what NVM_ADD_USER_QUEUE does

    Every stage of the handler against the invariant: ring resolution, queue
    creation with its roll-back, commit to the group's slots, and the second
    roll-back when the answer cannot be copied out. *)
From S2P Require Import Prelude.
From S2P Require Import Uapi.
From S2P Require Import Kernel.
From S2P Require Import QidPool.
From S2P Require Import Map.
From S2P Require Import MapGpu.
From S2P Require Import Ctrl.
From S2P Require Import Qgroup.
From S2P Require Import DevIoctl.
From S2P Require Import AddQueue.
From S2P Require Import Invariant.
From S2P Require Import MapIoctl.
From S2P Require Import GroupInv.
From S2P Require Import GroupIoctl.
From S2P Require Import InfoIoctl.

(** ** The request *)

(** What the C type of the request guarantees. *)
Record add_req_ok (req : nvm_ioctl_add_user_queue) : Prop := {
  add_nr : 0 ≤ nr_pairs req;
  add_pairs : Z.of_nat (length (pairs req)) = NVM_MAX_QUEUES_PER_GROUP;
  add_outs : Z.of_nat (length (out_pairs req)) = NVM_MAX_QUEUES_PER_GROUP;
}.

(** No two rings of a batch share an address, and none is null. *)
Definition rings_distinct (ps : list nvm_user_queue_pair_in) : Prop :=
  NoDup (sq_vaddr <$> ps) ∧ NoDup (cq_vaddr <$> ps)
  ∧ Forall (λ p, sq_vaddr p ≠ 0 ∧ cq_vaddr p ≠ 0 ∧ sq_vaddr p ≠ cq_vaddr p) ps.

Lemma pair_bad_false p :
  pair_bad p = false ↔ sq_vaddr p ≠ 0 ∧ cq_vaddr p ≠ 0 ∧ sq_vaddr p ≠ cq_vaddr p.
Proof. unfold pair_bad. rewrite !orb_false_iff, !bool_decide_eq_false. tauto. Qed.

Lemma clash_false p seen :
  existsb (pair_clash p) seen = false ↔
  sq_vaddr p ∉ (sq_vaddr <$> seen) ∧ cq_vaddr p ∉ (cq_vaddr <$> seen).
Proof.
  induction seen as [|q seen IH]; [split; [by split; apply not_elem_of_nil|done]|].
  cbn [existsb]. rewrite orb_false_iff, IH, !fmap_cons, !not_elem_of_cons. unfold pair_clash.
  rewrite orb_false_iff, !bool_decide_eq_false. tauto.
Qed.

(** The duplicate-detection loop accepts exactly the batches without clashes. *)
Lemma pairs_ok_iff seen todo :
  rings_distinct seen → pairs_ok seen todo = true ↔ rings_distinct (seen ++ todo).
Proof.
  revert seen. induction todo as [|p todo IH]; intros seen Hs; [by rewrite app_nil_r|].
  cbn [pairs_ok]. rewrite !andb_true_iff, !negb_true_iff, pair_bad_false, clash_false.
  replace (seen ++ p :: todo) with ((seen ++ [p]) ++ todo) by (by rewrite <- app_assoc).
  destruct Hs as (H1 & H2 & H3). split.
  - intros [[Hb [Hc1 Hc2]] Hrest]. apply IH; [|done]. unfold rings_distinct. rewrite !fmap_app, !NoDup_app, Forall_app.
    split; [split; [done|]; split; [set_solver|apply NoDup_singleton]|].
    split; [split; [done|]; split; [set_solver|apply NoDup_singleton]|]. split; [done|by constructor].
  - intros Hd. assert (Hsnoc : rings_distinct (seen ++ [p])).
    { destruct Hd as (D1 & D2 & D3). rewrite fmap_app in D1, D2.
      apply NoDup_app in D1 as (? & _), D2 as (? & _). by apply Forall_app in D3 as [? _]. }
    split; [|by apply IH]. destruct Hsnoc as (D1 & D2 & D3). rewrite fmap_app, NoDup_app in D1, D2.
    apply Forall_app in D3 as [_ [Hp _]%Forall_cons]. split; [done|]. split.
    + intros Hin. apply (proj1 (proj2 D1) _ Hin). by left.
    + intros Hin. apply (proj1 (proj2 D2) _ Hin). by left.
Qed.

Section add_spec.
Context `{E : Env} `{P : PeerMemory} `{POk : !PeerMemoryOk P}.
Implicit Types (w : kstate).

Lemma check_add_spec req w (Q : outcome unit → kstate → Prop) :
  add_req_ok req → Q (Err EINVAL) w →
  (1 ≤ nr_pairs req ≤ NVM_MAX_QUEUES_PER_GROUP → rings_distinct (batch req) → auq_flags req = 0 →
   Q (Ok tt) w) →
  wp (check_add_request req) Q w.
Proof.
  intros [Hn _ _] He Ho. unfold check_add_request.
  apply wp_bind, wp_guard; [done|]. intros Hf%bool_decide_eq_false.
  apply wp_bind, wp_guard; [done|]. intros _.
  apply wp_bind, wp_guard; [done|]. intros [H1%bool_decide_eq_false H2%bool_decide_eq_false]%orb_false_elim.
  apply wp_guard; [done|]. intros Hp%negb_false_iff. apply Ho; [lia| |].
  - apply (pairs_ok_iff [] (batch req)) in Hp; [done|]. split; [apply NoDup_nil_2|]. split; [apply NoDup_nil_2|done].
  - by destruct (decide (auq_flags req = 0)).
Qed.

(** ** Resolving rings *)

(** [m] is a map of the list [ms] that can serve as the ring of [kind] at
    [vaddr]. *)
Definition ring_of (w : kstate) (ms : list mapid) (kind vaddr : Z) (m : mapid) : Prop :=
  m ∈ ms ∧ ∃ md, k_heap w !! m = Some md ∧ m_kind md ≠ NVM_MAP_KIND_DATA
    ∧ ring_match md vaddr kind = true.

Lemma ring_of_tail w m0 ms kind v m : ring_of w ms kind v m → ring_of w (m0 :: ms) kind v m.
Proof. intros [Hin Hr]. split; [by right|done]. Qed.

(** One candidate: kept, or replaced by a matching map; none only when no map
    matches. *)
Definition candidate (w : kstate) (ms : list mapid) (kind vaddr : Z) (old new : option mapid) : Prop :=
  match new with
  | Some m => old = Some m ∨ ring_of w ms kind vaddr m
  | None => old = None ∧ ∀ m, ¬ ring_of w ms kind vaddr m
  end.

Lemma candidate_skip w m ms kind v old new :
  (∀ m', m' = m → ¬ ring_of w (m :: ms) kind v m') →
  candidate w ms kind v old new → candidate w (m :: ms) kind v old new.
Proof.
  intros Hno. destruct new as [x|]; cbn.
  - intros [?|Hr]; [by left|right; by apply ring_of_tail].
  - intros [? Hn]. split; [done|]. intros m' Hr. pose proof Hr as [[->|Hin]%elem_of_cons Hx];
      [by apply (Hno m)|]. apply (Hn m'). by split.
Qed.

Lemma candidate_step w m md ms kind v old new :
  k_heap w !! m = Some md → m_kind md ≠ NVM_MAP_KIND_DATA →
  candidate w ms kind v (if ring_match md v kind then Some m else old) new →
  candidate w (m :: ms) kind v old new.
Proof.
  intros Hm Hk. destruct (ring_match md v kind) eqn:Hr.
  - destruct new as [x|]; cbn; [|by intros []]. intros [[= <-]|Hx]; right; [|by apply ring_of_tail].
    split; [by left|]. by exists md.
  - apply candidate_skip. intros m' -> [_ (md' & Hm' & _ & Hr')]. congruence.
Qed.

Lemma candidate_stop w m md ms kind v old x :
  k_heap w !! m = Some md → m_kind md ≠ NVM_MAP_KIND_DATA →
  (if ring_match md v kind then Some m else old) = Some x → candidate w (m :: ms) kind v old (Some x).
Proof.
  intros Hm Hk Hx. apply (candidate_step w m md); [done|done|]. rewrite Hx. by left.
Qed.

Lemma resolve_pair_ok ms p sq cq w :
  Forall (λ m, is_Some (k_heap w !! m)) ms →
  wp (resolve_pair ms p sq cq) (λ r w', w' = w ∧ ∃ a b, r = Ok (a, b)
    ∧ candidate w ms NVM_MAP_KIND_RING_SQ (sq_vaddr p) sq a
    ∧ candidate w ms NVM_MAP_KIND_RING_CQ (cq_vaddr p) cq b) w.
Proof.
  revert sq cq. induction ms as [|m ms IH]; intros sq cq HF; cbn [resolve_pair].
  { apply wp_ret. split; [done|]. exists sq, cq. split; [done|].
    assert (Hc : ∀ kind v o, candidate w [] kind v o o).
    { intros kind v [x|]; cbn; [by left|]. split; [done|]. intros m [Hin _]. by apply elem_of_nil in Hin. }
    split; apply Hc. }
  apply Forall_cons in HF as [[md Hm] HF]. apply wp_bind, (wp_the_map m md); [done|].
  case_bool_decide as Hk.
  { eapply wp_mono; [by apply IH|]. intros r w' (-> & a & b & -> & Ha & Hb). split; [done|].
    exists a, b. split; [done|]. split; (apply candidate_skip; [|done]); intros m' -> [_ (md' & Hm' & Hne & _)]; congruence. }
  cbv zeta. set (sq' := if ring_match md (sq_vaddr p) _ then _ else _).
  set (cq' := if ring_match md (cq_vaddr p) _ then _ else _).
  assert (Hgo : wp (resolve_pair ms p sq' cq') (λ r w', w' = w ∧ ∃ a b, r = Ok (a, b)
    ∧ candidate w (m :: ms) NVM_MAP_KIND_RING_SQ (sq_vaddr p) sq a
    ∧ candidate w (m :: ms) NVM_MAP_KIND_RING_CQ (cq_vaddr p) cq b) w).
  { eapply wp_mono; [by apply IH|]. intros r w' (-> & a & b & -> & Ha & Hb). split; [done|].
    exists a, b. split; [done|]. split; by apply (candidate_step w m md). }
  destruct sq' as [x|] eqn:Hx; [|exact Hgo]. destruct cq' as [y|] eqn:Hy; [|exact Hgo].
  apply wp_ret. split; [done|]. exists (Some x), (Some y). split; [done|].
  split; by apply (candidate_stop w m md).
Qed.

(** The rings of a batch: one submission and one completion ring per pair. *)
Definition rings_of (w : kstate) (ms : list mapid) (p : nvm_user_queue_pair_in) (r : mapid * mapid) : Prop :=
  ring_of w ms NVM_MAP_KIND_RING_SQ (sq_vaddr p) r.1
  ∧ ring_of w ms NVM_MAP_KIND_RING_CQ (cq_vaddr p) r.2.

Lemma resolve_pairs_ok ms ps w :
  Forall (λ m, is_Some (k_heap w !! m)) ms →
  wp (resolve_pairs ms ps) (λ r w', w' = w ∧
    match r with
    | Ok rings => Forall2 (rings_of w ms) ps rings
    | Err e => e = ENOENT ∧ ∃ p, p ∈ ps ∧ ∀ r, ¬ rings_of w ms p r
    | Fault _ => False
    end) w.
Proof.
  intros HF. induction ps as [|p ps IH]; cbn [resolve_pairs]; [by apply wp_ret|].
  apply wp_bind. eapply wp_mono; [by apply resolve_pair_ok|].
  intros r w' (-> & a & b & -> & Ha & Hb).
  assert (Hstop : (a = None ∨ b = None) → ENOENT = ENOENT ∧ ∃ p', p' ∈ p :: ps ∧ ∀ r, ¬ rings_of w ms p' r).
  { intros Hn. split; [done|]. exists p. split; [by left|]. intros r [H1 H2].
    destruct Hn as [->| ->]; [by apply (proj2 Ha r.1)|by apply (proj2 Hb r.2)]. }
  destruct a as [sq|]; [|apply wp_fail; split; [done|apply Hstop; by left]].
  destruct b as [cq|]; [|apply wp_fail; split; [done|apply Hstop; by right]].
  apply wp_bind. eapply wp_mono; [exact IH|]. intros [rings|e|f] w' [-> Hr]; [| |done].
  - apply wp_ret. split; [done|]. constructor; [|done]. destruct Ha as [?|Ha], Hb as [?|Hb]; done.
  - destruct Hr as (-> & p' & Hin & Hn). split; [done|]. split; [done|]. exists p'. split; [by right|done].
Qed.

(** ** Creating the queues *)

(** The bus address of a ring: the first address of its map. *)
Definition ring_addr (w : kstate) (m : mapid) : Z :=
  default 0 (md ← k_heap w !! m; head (m_addrs md)).

Definition create_cq (w : kstate) (nd : nvme_dev) (x : Z * (mapid * mapid)) : admin_cmd :=
  CreateCQ (u16 x.1) (u64 (ring_addr w x.2.2)) (u16 (q_depth nd - 1)) (u16 NVME_QUEUE_PHYS_CONTIG) (u16 0).
Definition create_sq (w : kstate) (nd : nvme_dev) (x : Z * (mapid * mapid)) : admin_cmd :=
  CreateSQ (u16 x.1) (u64 (ring_addr w x.2.1)) (u16 (q_depth nd - 1)) (u16 NVME_QUEUE_PHYS_CONTIG) (u16 x.1).

(** A pair is created completion queue first. *)
Definition create_pair (w : kstate) (nd : nvme_dev) (x : Z * (mapid * mapid)) : list admin_cmd :=
  [create_cq w nd x; create_sq w nd x].

(** The commands of a pair whose creation failed. *)
Definition half_pair (w : kstate) (nd : nvme_dev) (x : Z * (mapid * mapid)) (cmds : list admin_cmd) : Prop :=
  cmds = [create_cq w nd x] ∨ cmds = [create_cq w nd x; create_sq w nd x; DeleteCQ (u16 x.1)].

Definition has_addr (w : kstate) (m : mapid) : Prop :=
  ∃ md a, k_heap w !! m = Some md ∧ head (m_addrs md) = Some a.

Lemma ring_addr_core w w' m : same_core w w' → ring_addr w' m = ring_addr w m.
Proof. intros H. unfold ring_addr. by rewrite (map_of_core m _ _ H). Qed.

Lemma create_pair_core w w' nd x : same_core w w' →
  create_cq w' nd x = create_cq w nd x ∧ create_sq w' nd x = create_sq w nd x.
Proof. intros H. unfold create_cq, create_sq. by rewrite !(ring_addr_core w w'). Qed.

Lemma has_addr_core w w' m : same_core w w' → has_addr w m → has_addr w' m.
Proof. intros H (md & a & Hm & Ha). exists md, a. by rewrite (map_of_core m _ _ H). Qed.

Lemma alloc_cq_ok nd x w (Q : outcome Z → kstate → Prop) :
  has_addr w x.2.2 →
  (∀ rc w', same_core w w' → issues [create_cq w nd x] w w' → Q (Ok rc) w') →
  wp (adapter_alloc_cq_user nd x.2.2 x.1) Q w.
Proof.
  intros (md & a & Hm & Ha) HQ. unfold adapter_alloc_cq_user. apply wp_bind, (wp_the_map _ md); [done|].
  apply wp_bind, (wp_from_opt _ _ a); [by destruct (m_addrs md)|]. apply wp_submit.
  intros rc w' Hc Hi. apply HQ; [done|]. unfold create_cq, ring_addr. by rewrite Hm; cbn; rewrite Ha.
Qed.

Lemma alloc_sq_ok nd x w (Q : outcome Z → kstate → Prop) :
  has_addr w x.2.1 →
  (∀ rc w', same_core w w' → issues [create_sq w nd x] w w' → Q (Ok rc) w') →
  wp (adapter_alloc_sq_user nd x.2.1 x.1) Q w.
Proof.
  intros (md & a & Hm & Ha) HQ. unfold adapter_alloc_sq_user. apply wp_bind, (wp_the_map _ md); [done|].
  apply wp_bind, (wp_from_opt _ _ a); [by destruct (m_addrs md)|]. apply wp_submit.
  intros rc w' Hc Hi. apply HQ; [done|]. unfold create_sq, ring_addr. by rewrite Hm; cbn; rewrite Ha.
Qed.

Definition created_ok (nd : nvme_dev) (todo : list (Z * (mapid * mapid))) (created : list Z) (w : kstate)
    (r : outcome (Z * list Z)) (w' : kstate) : Prop :=
  same_core w w' ∧ ∃ rc qs, r = Ok (rc, qs) ∧
    ((rc = 0 ∧ qs = created ++ todo.*1 ∧ issues (todo ≫= create_pair w nd) w w')
     ∨ (rc ≠ 0 ∧ ∃ dn x rest half, todo = dn ++ x :: rest ∧ qs = created ++ dn.*1
          ∧ half_pair w nd x half ∧ issues ((dn ≫= create_pair w nd) ++ half) w w')).

Lemma create_queues_ok nd todo created w :
  Forall (λ x, has_addr w x.2.1 ∧ has_addr w x.2.2) todo →
  wp (create_queues nd todo created) (created_ok nd todo created w) w.
Proof.
  revert created w. induction todo as [|[qid [sq cq]] todo IH]; intros created w HF; cbn [create_queues].
  { apply wp_ret. split; [done|]. exists 0, created. split; [done|]. left. rewrite app_nil_r.
    split; [done|]. split; [done|]. by apply issues_nil. }
  apply Forall_cons in HF as [[Hsq Hcq] HF]. set (x := (qid, (sq, cq))).
  apply wp_bind. apply (alloc_cq_ok nd x); [done|]. intros rc w1 C1 I1. case_bool_decide as Hrc.
  { apply wp_ret. split; [done|]. exists rc, created. split; [done|]. right. split; [done|].
    exists [], x, todo, [create_cq w nd x]. rewrite app_nil_r. split; [done|]. split; [done|].
    split; [by left|done]. }
  apply wp_bind. apply (alloc_sq_ok nd x); [by apply (has_addr_core w)|].
  intros rc2 w2 C2 I2. rewrite (proj2 (create_pair_core w w1 nd x C1)) in I2.
  assert (C12 : same_core w w2) by (by etrans).
  pose proof (issues_app _ _ _ _ _ I1 I2) as I12. case_bool_decide as Hrc2.
  { apply wp_bind, wp_submit. intros rc3 w3 C3 I3. apply wp_ret. split; [by etrans|].
    exists rc2, created. split; [done|]. right. split; [done|].
    exists [], x, todo, [create_cq w nd x; create_sq w nd x; DeleteCQ (u16 qid)]. rewrite app_nil_r.
    split; [done|]. split; [done|]. split; [by right|]. by apply (issues_app _ _ _ _ _ I12 I3). }
  eapply wp_mono.
  { apply IH. eapply Forall_impl; [exact HF|]. intros y [H1 H2]. split; by apply (has_addr_core w). }
  intros r w3 (C3 & rc3 & qs & -> & Hcase). split; [by etrans|]. exists rc3, qs. split; [done|].
  assert (Ecp : ∀ l, l ≫= create_pair w2 nd = l ≫= create_pair w nd).
  { intros l. induction l as [|y l IHl]; [done|]. rewrite !bind_cons, IHl. f_equal. unfold create_pair.
    by destruct (create_pair_core w w2 nd y C12) as [-> ->]. }
  destruct Hcase as [(-> & -> & I3)|(Hne & dn & y & rest & half & -> & -> & Hhalf & I3)]; [left|right].
  - rewrite Ecp in I3. split; [done|]. split; [by rewrite <- app_assoc|].
    exact (issues_app _ _ _ _ _ I12 I3).
  - rewrite Ecp in I3. split; [done|]. exists (x :: dn), y, rest, half. split; [done|].
    split; [by rewrite <- app_assoc|]. split.
    + unfold half_pair in *. by destruct (create_pair_core w w2 nd y C12) as [-> ->] in Hhalf.
    + rewrite bind_cons, <- app_assoc. exact (issues_app _ _ _ _ _ I12 I3).
Qed.

(** Deleting queue pairs, in the given order. *)
Lemma delete_pairs_ok qs w :
  wp (for_each (λ qid, adapter_delete_sq qid;; adapter_delete_cq qid;; mret tt) qs)
    (λ r w', r = Ok tt ∧ same_core w w' ∧ issues (qs ≫= delete_pair) w w') w.
Proof.
  revert w. induction qs as [|q qs IH]; intros w; cbn [for_each].
  { apply wp_ret. split; [done|]. split; [done|]. by apply issues_nil. }
  apply wp_bind, wp_delete_pair. intros w1 C1 I1. eapply wp_mono; [apply IH|].
  intros r w2 (-> & C2 & I2). split; [done|]. split; [by etrans|]. rewrite bind_cons.
  exact (issues_app _ _ _ _ _ I1 I2).
Qed.

Lemma add_rollback_ok c ct ct' created qids w :
  k_ctrls w !! c = Some ct → for_each snvm_user_qid_free_locked qids ct = (Ok tt, ct') →
  wp (add_rollback c created qids) (λ r w', r = Ok tt
    ∧ same_core (w <| k_ctrls ::= insert c ct' |>) w' ∧ issues (rev created ≫= delete_pair) w w') w.
Proof.
  intros Hc Hfree. unfold add_rollback. apply wp_bind. eapply wp_mono; [apply delete_pairs_ok|].
  intros r w1 (-> & C1 & I1). eapply wp_with_ctrl; [|exact Hfree|].
  { by rewrite <- (same_core_field k_ctrls _ _ (λ _, eq_refl) C1). }
  split; [done|]. split; [|exact I1]. by apply (same_core_update (λ w, w <| k_ctrls ::= insert c ct' |>)).
Qed.

(** ** The slots *)

Definition new_slots (qids : list Z) (alive : bool) : list snvm_user_queue := (λ q, mk_uq q alive) <$> qids.

Lemma commit_slots_at (pre mid post : list snvm_user_queue) qids :
  length mid = length qids →
  commit_slots (Z.of_nat (length pre)) qids (pre ++ mid ++ post) = Some (pre ++ new_slots qids true ++ post).
Proof.
  revert pre mid. induction qids as [|q qids IH]; intros pre mid Hl.
  { by destruct mid. }
  destruct mid as [|u mid]; [done|]. cbn [commit_slots]. rewrite Nat2Z.id.
  cbn [app]. rewrite list_lookup_middle by done.
  rewrite insert_app_r_alt, Nat.sub_diag by lia. cbn [list_insert].
  specialize (IH (pre ++ [mk_uq q true]) mid). rewrite length_app in IH. cbn [length] in IH.
  replace (Z.of_nat (length pre + 1)) with (Z.of_nat (length pre) + 1) in IH by lia.
  rewrite <- !app_assoc in IH. cbn in IH. etrans; [|apply IH; cbn in Hl; lia]. done.
Qed.

Definition is_alive (u : snvm_user_queue) : Prop := uq_alive u = true.
Definition is_dead (u : snvm_user_queue) : Prop := uq_alive u = false.

Lemma alive_split pre post :
  Forall is_alive pre → Forall is_dead post → alive_qids (pre ++ post) = uq_qid <$> pre.
Proof.
  intros Hp Hd. unfold alive_qids. rewrite filter_app.
  rewrite (filter_none uq_alive post) by exact Hd. rewrite app_nil_r. f_equal.
  induction Hp as [|u pre Hu _ IH]; [done|]. rewrite filter_cons_True by exact Hu. by rewrite IH.
Qed.

Lemma new_slots_alive qids : Forall is_alive (new_slots qids true).
Proof. unfold new_slots. apply Forall_fmap, Forall_forall. done. Qed.
Lemma new_slots_dead qids : Forall is_dead (new_slots qids false).
Proof. unfold new_slots. apply Forall_fmap, Forall_forall. done. Qed.
Lemma new_slots_qids qids b : uq_qid <$> new_slots qids b = qids.
Proof. induction qids as [|q qids IH]; [done|]. cbn. f_equal. exact IH. Qed.

(** A group's slots are its live queues followed by free ones. *)
Lemma shape_split g : group_shape g → ∃ pre post, g_queues g = pre ++ post
  ∧ Z.of_nat (length pre) = g_cur_queues g ∧ Forall is_alive pre ∧ Forall is_dead post.
Proof.
  intros [Hl _ _ Hc Ha]. set (n := Z.to_nat (g_cur_queues g)).
  exists (take n (g_queues g)), (drop n (g_queues g)). rewrite take_drop. split; [done|].
  split; [rewrite length_take; lia|]. split; apply Forall_lookup; intros s u Hs.
  - apply lookup_take_Some in Hs as [Hs Hlt]. apply (Ha s u Hs). lia.
  - rewrite lookup_drop in Hs. unfold is_dead. destruct (uq_alive u) eqn:Hu; [|done].
    apply (Ha _ u Hs) in Hu. lia.
Qed.

Lemma split_shape g pre post :
  g_queues g = pre ++ post → Z.of_nat (length pre) = g_cur_queues g →
  Forall is_alive pre → Forall is_dead post →
  Z.of_nat (length (g_queues g)) = NVM_MAX_QUEUES_PER_GROUP →
  g_max_queues g = NVM_MAX_QUEUES_PER_GROUP → 1 ≤ g_group_id g < 2 ^ 31 → group_shape g.
Proof.
  intros Hq Hl Ha Hd Hn Hm Hid. split; [done|done|done| |].
  - rewrite Hq, length_app in Hn. lia.
  - intros s u. rewrite Hq, lookup_app_Some. intros [Hs|[Hge Hs]].
    + split; [|intros _; exact (proj1 (Forall_lookup _ _) Ha s u Hs)].
      intros _. apply lookup_lt_Some in Hs. lia.
    + pose proof (proj1 (Forall_lookup _ _) Hd _ u Hs) as Hu. unfold is_dead in Hu. rewrite Hu. split; [done|lia].
Qed.

Lemma slots_inj_nodup pre post :
  Forall is_alive pre → Forall is_dead post → slots_inj (pre ++ post) ↔ NoDup (uq_qid <$> pre).
Proof.
  intros Ha Hd. rewrite NoDup_alt. split.
  - intros Hi i j q. rewrite !list_lookup_fmap, !fmap_Some. intros (u1 & H1 & ->) (u2 & H2 & E2).
    apply (Hi i j u1 u2); try done; try (by apply lookup_app_l_Some);
      eapply (proj1 (Forall_lookup _ _) Ha); eassumption.
  - intros Hnd s1 s2 u1 u2 H1 H2 A1 A2 Eq.
    assert (Hin : ∀ s u, (pre ++ post) !! s = Some u → uq_alive u = true → pre !! s = Some u).
    { intros s u [Hs|[_ Hs]]%lookup_app_Some Hu; [done|].
      pose proof (proj1 (Forall_lookup _ _) Hd _ u Hs) as Hu'. unfold is_dead in Hu'. congruence. }
    apply (Hnd s1 s2 (uq_qid u1)); rewrite list_lookup_fmap; [by rewrite (Hin s1 u1)|by rewrite (Hin s2 u2), Eq].
Qed.

Lemma group_slots_inj V c ct fd g :
  pool_exact V c ct → V !! fd = Some (c, g) → slots_inj (g_queues g).
Proof.
  intros (_ & _ & Hu) HV s1 s2 u1 u2 H1 H2 A1 A2 Eq.
  assert (Hp : (fd, s1) = (fd, s2)); [|congruence].
  apply (Hu (uq_qid u1)); [exists g, u1|exists g, u2]; by repeat split.
Qed.

(** The group after [qids] were committed, or reverted again. *)
Definition with_slots (g : snvm_qgroup) (slots : list snvm_user_queue) (cur : Z) : snvm_qgroup :=
  g <| g_queues := slots |> <| g_cur_queues := cur |>.

(** Changing the free slots and the pool behind a group's queues. *)
Lemma wf_slots fd fl own g c ct ct' pre post post' extra w :
  wf w → k_files w !! fd = Some fl → private_data fl = Some own → own_groups own = [g] →
  own_ctrl own = c → k_ctrls w !! c = Some ct → c_pdev ct' = c_pdev ct →
  (∀ bm, user_qid_bitmap ct' = Some bm → pool_ok ct' bm) →
  g_queues g = pre ++ post → Forall is_alive pre → Forall is_dead post →
  Z.of_nat (length pre) = g_cur_queues g →
  length post = (length extra + length post')%nat → Forall is_dead post' →
  NoDup extra → Forall (λ q, q ∉ used_qids ct) extra →
  used_qids ct' = used_qids ct ∪ list_to_set extra →
  wf ((set_owner fd fl (own <| own_groups := [with_slots g (pre ++ new_slots extra true ++ post')
        (g_cur_queues g + Z.of_nat (length extra))] |>) w) <| k_ctrls ::= insert c ct' |>).
Proof.
  intros H Hf Ho Hg Hoc Hc Hpd Hbm Hq Ha Hd Hcur Hlen Hd' Hnd Hfree Hused.
  destruct (wf_one_group w fd fl own 0 g H Hf Ho) as (_ & _ & _ & HV); [by rewrite Hg|]. rewrite Hoc in HV.
  destruct (wf_groups w H) as (Hshape & _). pose proof (Hshape _ _ HV) as Hs. cbn in Hs.
  pose proof (wf_qids w H c ct Hc) as Hpe. pose proof (group_slots_inj _ _ _ _ _ Hpe HV) as Hinj.
  change (g_queues (gview g)) with (g_queues g) in Hinj. rewrite Hq in Hinj.
  apply slots_inj_nodup in Hinj; [|done..].
  set (g' := with_slots g _ _). assert (Halive : Forall is_alive (pre ++ new_slots extra true)).
  { apply Forall_app. split; [done|apply new_slots_alive]. }
  assert (Eq' : g_queues g' = (pre ++ new_slots extra true) ++ post') by (cbn; by rewrite <- app_assoc).
  assert (Hold : alive_qids (g_queues g) = uq_qid <$> pre) by (rewrite Hq; by apply alive_split).
  assert (Hnew : alive_qids (g_queues g') = (uq_qid <$> pre) ++ extra).
  { rewrite Eq', alive_split by done. by rewrite fmap_app, new_slots_qids. }
  assert (Hin : ∀ q, q ∈ uq_qid <$> pre → q ∈ used_qids ct).
  { intros q Hin. destruct Hpe as (_ & Hiff & _). apply Hiff.
    destruct (alive_slot _ fd c (gview g) q HV) as [s Hs']; [|eauto].
    change (q ∈ alive_qids (g_queues g)). by rewrite Hold. }
  rewrite Forall_forall in Hfree.
  apply (wf_set_queues fd fl own g g' c ct ct'); try done.
  - apply (split_shape _ (pre ++ new_slots extra true) post'); try done.
    + rewrite length_app. unfold new_slots. rewrite length_fmap. cbn. lia.
    + change (g_queues (gview g')) with (g_queues g'). rewrite Eq', !length_app. unfold new_slots. rewrite length_fmap.
      pose proof (shape_slots _ Hs) as Hl. change (g_queues (gview g)) with (g_queues g) in Hl.
      rewrite Hq, length_app in Hl. lia.
    + exact (shape_max _ Hs).
    + exact (shape_id _ Hs).
  - apply (pool_exact_replace _ fd c (gview g) (gview g') ct ct'); try done.
    + intros q. change (g_queues (gview g)) with (g_queues g). change (g_queues (gview g')) with (g_queues g').
      rewrite Hused, Hold, Hnew, elem_of_union, elem_of_list_to_set, elem_of_app.
      destruct (decide (q ∈ uq_qid <$> pre)); [|tauto]. pose proof (Hin q). tauto.
    + change (g_queues (gview g')) with (g_queues g'). rewrite Eq'. apply slots_inj_nodup; [done..|].
      rewrite fmap_app, new_slots_qids. apply NoDup_app. split; [done|]. split; [|done].
      intros q H1 H2. by apply (Hfree q), Hin.
    + intros q. change (g_queues (gview g)) with (g_queues g). change (g_queues (gview g')) with (g_queues g').
      rewrite Hold, Hnew, elem_of_app. intros [?|Hq']; [done|]. intros Hu. by destruct (Hfree q).
Qed.

(** ** Reverting a commit *)

(** [fd]'s owner and controller [c] replaced together. *)
Definition reslot (fd : fdid) (fl : file) (own : snvm_dev_owner) (c : cid) (ct : ctrl) (w : kstate) : kstate :=
  (set_owner fd fl own w) <| k_ctrls ::= insert c ct |>.

Lemma reslot_trans fd fl own1 own2 c ct1 ct2 w w1 w2 :
  same_core (reslot fd fl own1 c ct1 w) w1 →
  same_core (reslot fd (fl <| private_data := Some own1 |>) own2 c ct2 w1) w2 →
  same_core (reslot fd fl own2 c ct2 w) w2.
Proof.
  intros H1 H2. etrans; [|exact H2].
  apply (same_core_update (reslot fd fl own2 c ct2)) in H1; [|done]. etrans; [|exact H1].
  unfold reslot. change (set_owner fd fl own2 ((set_owner fd fl own1 w) <| k_ctrls ::= insert c ct1 |>))
    with ((set_owner fd fl own2 (set_owner fd fl own1 w)) <| k_ctrls ::= insert c ct1 |>).
  rewrite set_owner_twice. unfold same_core. f_equal. unfold set, set_k_ctrls. cbn. by rewrite insert_insert_eq.
Qed.

Lemma reslot_core fd fl own c ct w w' :
  same_core w w' → same_core (reslot fd fl own c ct w) (reslot fd fl own c ct w').
Proof. by apply (same_core_update (reslot fd fl own c ct)). Qed.

Lemma wp_upd_only_group fd fl own g f (Q : outcome unit → kstate → Prop) w :
  k_files w !! fd = Some fl → private_data fl = Some own → own_groups own = [g] →
  Q (Ok tt) (set_owner fd fl (own <| own_groups := [f g] |>) w) →
  wp (upd_group fd 0 f) Q w.
Proof.
  intros Hf Ho Hg HQ. apply (wp_upd_owner fd fl own); [done|done|].
  replace (own <| own_groups ::= alter f 0%nat |>) with (own <| own_groups := [f g] |>); [exact HQ|].
  destruct own. unfold set, set_own_groups. cbn in *. by subst.
Qed.

(** Step by step through the slots that were committed. *)
Lemma revert_slots_ok fd fl own g c ct ct' pre qids post w :
  k_files w !! fd = Some fl → private_data fl = Some own → own_groups own = [g] →
  g_queues g = pre ++ new_slots qids true ++ post → k_ctrls w !! c = Some ct →
  for_each snvm_user_qid_free_locked qids ct = (Ok tt, ct') →
  wp (revert_slots fd 0 c (Z.of_nat (length pre)) (length qids)) (λ r w', r = Ok tt
    ∧ same_core (reslot fd fl (own <| own_groups :=
          [g <| g_queues := pre ++ new_slots qids false ++ post |>] |>) c ct' w) w'
    ∧ issues (qids ≫= delete_pair) w w') w.
Proof.
  revert fl own g ct pre w. induction qids as [|q qids IH]; intros fl own g ct pre w Hf Ho Hg Hq Hc Hfree.
  { cbn [length revert_slots]. apply wp_ret. split; [done|]. split; [|by apply issues_nil].
    injection Hfree as <-. cbn in Hq. unfold new_slots. cbn. rewrite <- Hq.
    assert (Eg : g <| g_queues := g_queues g |> = g) by (by destruct g). rewrite Eg, <- Hg.
    assert (Eo : own <| own_groups := own_groups own |> = own) by (by destruct own). rewrite Eo.
    unfold reslot. rewrite set_owner_id by done. by rewrite ctrl_insert_id. }
  cbn [length revert_slots]. cbn [for_each] in Hfree.
  destruct (snvm_user_qid_free_locked q ct) as [[[]|e|x] ct1] eqn:Hf1;
    unfold mbind, M_bind in Hfree; rewrite Hf1 in Hfree; try done.
  apply wp_bind, (wp_the_owner fd fl); [done|]. rewrite Ho.
  apply wp_bind, (wp_from_opt _ _ own); [done|].
  apply wp_bind, (wp_from_opt _ _ g); [by rewrite Hg|].
  apply wp_bind, (wp_from_opt _ _ (mk_uq q true)).
  { rewrite Nat2Z.id, Hq. cbn. by rewrite list_lookup_middle. }
  cbn [uq_qid]. apply wp_bind, wp_submit. intros _ wa Ca Ia. apply wp_bind, wp_submit. intros _ wb Cb Ib.
  assert (Cab : same_core w wb) by (by etrans). pose proof (issues_app _ _ _ _ _ Ia Ib) as Iab.
  set (g1 := g <| g_queues := (pre ++ [mk_uq q false]) ++ new_slots qids true ++ post |>).
  set (own1 := own <| own_groups := [g1] |>).
  apply wp_bind, (wp_upd_only_group fd fl own g); [by rewrite <- (same_core_field k_files _ _ (λ _, eq_refl) Cab)|done|done|].
  assert (Eg : g <| g_queues ::= alter (λ u, u <| uq_alive := false |>) (Z.to_nat (Z.of_nat (length pre))) |> = g1).
  { unfold g1. destruct g. unfold set, set_g_queues. cbn in *. subst. f_equal.
    rewrite Nat2Z.id, alter_app_r_alt, Nat.sub_diag by lia. by rewrite <- !app_assoc. }
  rewrite Eg. apply wp_bind. eapply wp_with_ctrl; [|exact Hf1|].
  { cbn. by rewrite <- (same_core_field k_ctrls _ _ (λ _, eq_refl) Cab). }
  fold own1. change (wp (revert_slots fd 0 c (Z.of_nat (length pre) + 1) (length qids)) (λ r w', r = Ok tt
    ∧ same_core (reslot fd fl (own <| own_groups :=
          [g <| g_queues := pre ++ new_slots (q :: qids) false ++ post |>] |>) c ct' w) w'
    ∧ issues ((q :: qids) ≫= delete_pair) w w') (reslot fd fl own1 c ct1 wb)).
  replace (Z.of_nat (length pre) + 1) with (Z.of_nat (length (pre ++ [mk_uq q false])))
    by (rewrite length_app; cbn; lia).
  eapply wp_mono; [apply (IH (fl <| private_data := Some own1 |>) own1 g1 ct1); try done|].
  - apply lookup_insert_eq.
  - apply lookup_insert_eq.
  - intros r w' (-> & C2 & I2). split; [done|]. split.
    + eapply (reslot_trans fd fl own1); [by apply reslot_core|].
      replace (pre ++ new_slots (q :: qids) false ++ post)
        with ((pre ++ [mk_uq q false]) ++ new_slots qids false ++ post) by (by rewrite <- app_assoc).
      exact C2.
    + rewrite bind_cons. exact (issues_app _ _ _ _ _ Iab I2).
Qed.

(** ** The critical section *)

(** What a failed addition asked of the controller: complete pairs, at most
    one half-made pair that was cleaned up, and the deletion of exactly the
    complete ones. *)
Definition undone_cmds (w0 : kstate) (nd : nvme_dev) (w w' : kstate) : Prop :=
  ∃ dn half dels, issues ((dn ≫= create_pair w0 nd) ++ half ++ (dels ≫= delete_pair)) w w'
    ∧ dels ≡ₚ dn.*1 ∧ (half = [] ∨ ∃ x, half_pair w0 nd x half).

Lemma undone_none w0 nd w w' : k_trace w' = k_trace w → undone_cmds w0 nd w w'.
Proof. intros H. exists [], [], []. split; [by apply issues_nil|]. split; [done|by left]. Qed.

(** The pool of a controller may have been initialised on the way. *)
Definition maybe_init (nd : nvme_dev) (ct ct1 : ctrl) : Prop := ct1 = ct ∨ lazy_init (Some nd) ct ct1.

Record added (fd : fdid) (fl : file) (own : snvm_dev_owner) (c : cid) (ct : ctrl) (nd : nvme_dev)
    (req : nvm_ioctl_add_user_queue) (qids : list Z) (g : snvm_qgroup) (rings : list (mapid * mapid))
    (pre post : list snvm_user_queue) (ct1 ct2 : ctrl) (w w' : kstate) : Prop := {
  added_group : own_groups own = [g];
  added_gid : g_group_id g = auq_group_id req;
  added_slots : g_queues g = pre ++ post;
  added_alive : Forall is_alive pre;
  added_dead : Forall is_dead post;
  added_cur : Z.of_nat (length pre) = g_cur_queues g;
  added_room : (length qids ≤ length post)%nat;
  added_init : lazy_init (Some nd) ct ct1;
  added_alloc : snvm_user_qid_alloc_locked (nr_pairs req) ct1 = (Ok qids, ct2);
  added_rings : Forall2 (rings_of w (g_maps g)) (batch req) rings;
  added_state : same_core (reslot fd fl (own <| own_groups :=
      [with_slots g (pre ++ new_slots qids true ++ drop (length qids) post)
         (g_cur_queues g + Z.of_nat (length qids))] |>) c ct2 w) w';
  added_cmds : issues (zip qids rings ≫= create_pair w nd) w w';
}.

Lemma lazy_init_pool V c ct ct1 nd :
  pool_exact V c ct → lazy_init (Some nd) ct ct1 → ∃ bm, pool_ok ct1 bm.
Proof.
  intros (Hp & _) [[[bm Hb] ->]|(nd' & bm & _ & _ & Hok & _)]; [|eauto]. exists bm. by apply Hp.
Qed.

Lemma ctrl_insert_trans_eq c ct1 ct2 w w1 :
  same_core (w <| k_ctrls ::= insert c ct1 |>) w1 →
  same_core (w <| k_ctrls ::= insert c ct2 |>) (w1 <| k_ctrls ::= insert c ct2 |>).
Proof. intros H. eapply ctrl_insert_trans; [exact H|done]. Qed.

Lemma ring_has_addr w ms kind v m : wf w → ring_of w ms kind v m → has_addr w m.
Proof.
  intros H [_ (md & Hm & _)]. destruct (wf_heap_ok w m md H Hm) as [_ Hne].
  destruct (m_addrs md) as [|a l] eqn:Ha; [done|]. exists md, a. by rewrite Ha.
Qed.

Lemma zip_rings_addr w ms ps rings (qids : list Z) :
  wf w → Forall2 (rings_of w ms) ps rings →
  Forall (λ x : Z * (mapid * mapid), has_addr w x.2.1 ∧ has_addr w x.2.2) (zip qids rings).
Proof.
  intros H HF. rewrite Forall_forall. intros [q [sq cq]] Hin%elem_of_zip_r. cbn.
  apply list_elem_of_lookup in Hin as [i Hi]. destruct (Forall2_lookup_r _ _ _ _ _ HF Hi) as (p & _ & Hr & Hr').
  split; by eapply ring_has_addr.
Qed.

Lemma batch_length req : add_req_ok req → 1 ≤ nr_pairs req ≤ NVM_MAX_QUEUES_PER_GROUP →
  Z.of_nat (length (batch req)) = nr_pairs req.
Proof. intros [_ Hp _] Hn. unfold batch. rewrite length_take. lia. Qed.

(** The free slots of a group hold a batch that passed the limit check. *)
Lemma group_room w fd fl own g n :
  wf w → k_files w !! fd = Some fl → private_data fl = Some own → own_groups own = [g] →
  g_cur_queues g + Z.of_nat n ≤ NVM_MAX_QUEUES_PER_GROUP →
  ∃ pre post, g_queues g = pre ++ post ∧ Z.of_nat (length pre) = g_cur_queues g
    ∧ Forall is_alive pre ∧ Forall is_dead post ∧ (n ≤ length post)%nat.
Proof.
  intros H Hf Ho Hg Hroom.
  destruct (wf_one_group w fd fl own 0 g H Hf Ho) as (_ & _ & _ & HV); [by rewrite Hg|].
  destruct (wf_groups w H) as (Hshape & _). pose proof (Hshape _ _ HV) as Hs. cbn in Hs.
  destruct (shape_split _ Hs) as (pre & post & Eq & El & Ea & Ed).
  change (g_queues (gview g)) with (g_queues g) in Eq. change (g_cur_queues (gview g)) with (g_cur_queues g) in El.
  pose proof (shape_slots _ Hs) as Hn. change (g_queues (gview g)) with (g_queues g) in Hn.
  rewrite Eq, length_app in Hn. exists pre, post. repeat split; try done. lia.
Qed.

Lemma commit_group_ok fd fl own g c ct2 nr qids pre post w wb :
  k_files w !! fd = Some fl → private_data fl = Some own → own_groups own = [g] →
  same_core (w <| k_ctrls ::= insert c ct2 |>) wb →
  g_queues g = pre ++ post → Z.of_nat (length pre) = g_cur_queues g → (length qids ≤ length post)%nat →
  Z.of_nat (length qids) = nr → g_cur_queues g + nr ≤ NVM_MAX_QUEUES_PER_GROUP →
  wp (slots ← from_opt OutOfBounds (commit_slots (g_cur_queues g) qids (g_queues g));
      upd_group fd 0 (λ g, g <| g_queues := slots |> <| g_cur_queues ::= λ n, u32 (n + nr) |>);;
      mret (0%nat, qids))
    (λ res w', res = Ok (0%nat, qids) ∧ k_trace w' = k_trace wb ∧ same_core (reslot fd fl (own <| own_groups :=
      [with_slots g (pre ++ new_slots qids true ++ drop (length qids) post)
         (g_cur_queues g + Z.of_nat (length qids))] |>) c ct2 w) w') wb.
Proof.
  intros Hf Ho Hg Cab Eq El Hle Hlq Hroom.
  assert (Ecommit : commit_slots (g_cur_queues g) qids (g_queues g)
    = Some (pre ++ new_slots qids true ++ drop (length qids) post)).
  { rewrite <- El, Eq, <- (take_drop (length qids) post) at 1. apply commit_slots_at.
    rewrite length_take. lia. }
  apply wp_bind, (wp_from_opt _ _ _ _ _ Ecommit).
  apply wp_bind, (wp_upd_only_group fd fl own g);
    [by rewrite <- (same_core_field k_files _ _ (λ _, eq_refl) Cab)|done|done|].
  apply wp_ret. split; [done|]. split; [done|].
  set (slots := pre ++ _). assert (Eg : g <| g_queues := slots |> <| g_cur_queues ::= λ n, u32 (n + nr) |>
    = with_slots g slots (g_cur_queues g + Z.of_nat (length qids))).
  { unfold with_slots. destruct g. unfold set, set_g_queues, set_g_cur_queues. cbn in *. f_equal.
    rewrite Hlq, wrap_small; [done|]. unfold NVM_MAX_QUEUES_PER_GROUP in *. lia. }
  rewrite Eg. exact (same_core_update (set_owner fd fl (own <| own_groups := _ |>)) _ _ (λ _, eq_refl) Cab).
Qed.

(** Creation of the queues and commit, once the ids are taken. *)
Lemma add_create_ok fd fl own g c ct ct1 ct2 bm nd req rings qids w wa :
  wf w → k_files w !! fd = Some fl → private_data fl = Some own → own_groups own = [g] →
  own_ctrl own = c → g_group_id g = auq_group_id req → k_ctrls w !! c = Some ct →
  add_req_ok req → 1 ≤ nr_pairs req ≤ NVM_MAX_QUEUES_PER_GROUP →
  g_cur_queues g + nr_pairs req ≤ NVM_MAX_QUEUES_PER_GROUP →
  Forall2 (rings_of w (g_maps g)) (batch req) rings →
  lazy_init (Some nd) ct ct1 → pool_ok ct1 bm →
  snvm_user_qid_alloc_locked (nr_pairs req) ct1 = (Ok qids, ct2) →
  same_core (w <| k_ctrls ::= insert c ct2 |>) wa → k_trace wa = k_trace w →
  wp ('(rc, created) ← create_queues nd (zip qids rings) [];
      if bool_decide (rc ≠ 0) then add_rollback c created qids;; fail (- rc)
      else
      slots ← from_opt OutOfBounds (commit_slots (g_cur_queues g) qids (g_queues g));
      upd_group fd 0 (λ g, g <| g_queues := slots |>
                             <| g_cur_queues ::= λ n, u32 (n + nr_pairs req) |>);;
      mret (0%nat, qids))
    (λ res w', match res with
      | Ok (gi, qs) => gi = 0%nat ∧ qs = qids ∧ ∃ pre post, added fd fl own c ct nd req qids g rings pre post ct1 ct2 w w'
      | Err e => same_core (w <| k_ctrls ::= insert c ct1 |>) w' ∧ undone_cmds w nd w w'
      | Fault _ => False
      end) wa.
Proof.
  intros H Hf Ho Hg Hoc Hgid Hc Hreq Hnr Hroom Hrings Hinit Hpool Halloc Ca Ta.
  assert (Hlq : Z.of_nat (length qids) = nr_pairs req).
  { pose proof (qid_alloc_ok ct1 bm (nr_pairs req) Hpool ltac:(lia)) as HA. rewrite Halloc in HA. by destruct HA. }
  assert (Hlr : length rings = length qids).
  { pose proof (Forall2_length _ _ _ Hrings). pose proof (batch_length req Hreq Hnr). lia. }
  assert (Hhas : ∀ m, has_addr w m → has_addr wa m).
  { intros m (md & a & Hm & Hh). exists md, a. split; [|done]. by rewrite (map_of_core m _ _ Ca). }
  assert (Eaddr : ∀ m, ring_addr wa m = ring_addr w m).
  { intros m. unfold ring_addr. by rewrite (map_of_core m _ _ Ca). }
  assert (Ecp : ∀ x, create_cq wa nd x = create_cq w nd x ∧ create_sq wa nd x = create_sq w nd x).
  { intros x. unfold create_cq, create_sq. by rewrite !Eaddr. }
  assert (Ebind : ∀ l, l ≫= create_pair wa nd = l ≫= create_pair w nd).
  { intros l. induction l as [|y l IHl]; [done|]. rewrite !bind_cons, IHl. f_equal. unfold create_pair.
    by destruct (Ecp y) as [-> ->]. }
  assert (Iw : ∀ cmds w', issues cmds wa w' → issues cmds w w').
  { intros cmds w' (tr & Ht & Hr). exists tr. by rewrite <- Ta. }
  apply wp_bind. eapply wp_mono.
  { apply create_queues_ok. eapply Forall_impl; [by apply (zip_rings_addr w (g_maps g) (batch req))|].
    intros x [? ?]. split; by apply Hhas. }
  intros r wb (Cb & rc & qs & -> & Hcase). cbv beta iota.
  assert (Cab : same_core (w <| k_ctrls ::= insert c ct2 |>) wb) by (by etrans).
  assert (Hcb : k_ctrls wb !! c = Some ct2) by (by eapply ctrl_insert_core).
  destruct Hcase as [(-> & -> & Ib)|(Hne & dn & x & rest & half & Hz & -> & Hhalf & Ib)].
  - rewrite (bool_decide_eq_false_2 (0 ≠ 0)) by auto.
    destruct (group_room w fd fl own g (length qids) H Hf Ho Hg) as (pre & post & Eq & El & Ea & Ed & Hle); [lia|].
    eapply wp_mono; [apply (commit_group_ok fd fl own g c ct2 (nr_pairs req) qids pre post w wb); try done|].
    intros res w' (-> & Tw & Cw). split; [done|]. split; [done|]. exists pre, post. split; try done.
    apply Iw. rewrite Ebind in Ib. destruct Ib as (tr & Ht & Hr). exists tr. by rewrite Tw.
  - rewrite bool_decide_eq_true_2 by done. cbn [app].
    pose proof (qid_alloc_free_ok ct1 bm (nr_pairs req) qids ct2 Hpool ltac:(lia) Halloc) as Hfree.
    apply wp_bind. eapply wp_mono; [by apply (add_rollback_ok c ct2 ct1)|].
    intros r wc (-> & Cc & Ic). apply wp_fail. split; [by eapply ctrl_insert_trans|].
    exists dn, half, (rev dn.*1). split; [|split].
    + rewrite app_assoc. eapply issues_app; [|exact Ic]. apply Iw. rewrite Ebind in Ib. exact Ib.
    + symmetry. apply Permutation_rev.
    + right. exists x. unfold half_pair in *. by destruct (Ecp x) as [-> ->] in Hhalf.
Qed.

Lemma live_ndev_ok w c ct pd nd :
  wf w → k_ctrls w !! c = Some ct → k_pdevs w !! c_pdev ct = Some pd → live_ndev pd = Some nd → ndev_ok nd.
Proof.
  intros H Hc Hp Hl. destruct (wf_pdevs w H c ct Hc) as (pd' & Hp' & Hnd). simplify_eq. apply Hnd.
  unfold live_ndev in Hl. destruct (pd_driver pd) as [[name|]|]; try done. case_bool_decide; [|done].
  destruct (pd_drvdata pd) as [nd'|]; [|done]. destruct (nd_admin_q nd'); congruence.
Qed.

Definition add_err (c : cid) (ct : ctrl) (nd : nvme_dev) (w w' : kstate) : Prop :=
  ∃ ct1, maybe_init nd ct ct1 ∧ same_core (w <| k_ctrls ::= insert c ct1 |>) w' ∧ undone_cmds w nd w w'.

Lemma add_err_same c ct nd w w' :
  k_ctrls w !! c = Some ct → same_core w w' → k_trace w' = k_trace w → add_err c ct nd w w'.
Proof.
  intros Hc Hs Ht. exists ct. split; [by left|]. rewrite ctrl_insert_id by done.
  split; [done|by apply undone_none].
Qed.

Lemma add_locked_ok fd fl own c ct nd req w :
  wf w → k_files w !! fd = Some fl → private_data fl = Some own → own_ctrl own = c →
  k_ctrls w !! c = Some ct → ndev_ok nd → add_req_ok req →
  1 ≤ nr_pairs req ≤ NVM_MAX_QUEUES_PER_GROUP →
  wp (add_locked fd c own req nd) (λ res w', match res with
    | Ok (gi, qids) => gi = 0%nat ∧ ∃ g rings pre post ct1 ct2,
        added fd fl own c ct nd req qids g rings pre post ct1 ct2 w w'
    | Err e => add_err c ct nd w w'
    | Fault _ => False
    end) w.
Proof.
  intros H Hf Ho Hoc Hc Hnd Hreq Hnr. unfold add_locked.
  assert (Hstop : add_err c ct nd w w) by (by apply add_err_same).
  destruct (find_qgroup_locked own (auq_group_id req)) as [[gi g]|] eqn:Hfind; [|by apply wp_fail].
  destruct (find_qgroup_some _ _ _ _ Hfind) as (Hi & Hid & _).
  destruct (wf_one_group w fd fl own gi g H Hf Ho Hi) as (-> & Hg & _ & HV).
  assert (HO : owners (k_files w) !! fd = Some own) by (apply owners_lookup; eauto).
  destruct (wf_groups w H) as (Hshape & _). pose proof (Hshape _ _ HV) as Hs.
  pose proof (shape_cur _ Hs) as Hcur. pose proof (shape_max _ Hs) as Hmax. cbn in Hcur, Hmax.
  apply wp_bind, wp_guard; [done|]. rewrite Hmax. unfold NVM_MAX_QUEUES_PER_GROUP in *.
  rewrite wrap_small by lia. intros Hroom%bool_decide_eq_false.
  apply wp_bind. eapply wp_mono; [apply (resolve_pairs_ok (g_maps g) (batch req) w)|].
  { destruct (wf_links w H) as [HL _]. destruct (HL fd own HO) as [_ HF]. unfold owner_maps in HF.
    rewrite Hg, bind_cons, app_nil_r in HF. by apply Forall_app in HF as [? _]. }
  intros [rings|e|f] w' [-> Hr]; [|exact Hstop|done].
  apply wp_bind, wp_kalloc. set (w0 := w <| k_tick := S (k_tick w) |>). apply wp_bind.
  pose proof (qid_pool_init_ok (env_alloc (k_tick w)) (Some nd) ct) as Hinit.
  destruct (snvm_user_qid_pool_init_locked _ _ ct) as [[[]|e|f] ct1] eqn:Ei; [| |destruct Hinit; by intros ? [= <-]].
  2: { eapply wp_with_ctrl; [done|exact Ei|]. destruct Hinit as [-> _]; [by intros ? [= <-]|].
       apply add_err_same; [done| |done]. rewrite (ctrl_insert_id c ct w0) by done. core_eq. }
  specialize (Hinit ltac:(by intros ? [= <-])). eapply wp_with_ctrl; [done|exact Ei|].
  destruct (lazy_init_pool _ _ _ _ _ (wf_qids w H c ct Hc) Hinit) as [bm Hpool].
  set (w1 := w0 <| k_ctrls ::= insert c ct1 |>). apply wp_bind.
  pose proof (qid_alloc_ok ct1 bm (nr_pairs req) Hpool ltac:(lia)) as HA.
  destruct (snvm_user_qid_alloc_locked (nr_pairs req) ct1) as [[qids|e|f] ct2] eqn:Ea; [| |done].
  2: { eapply wp_with_ctrl; [apply lookup_insert_eq|exact Ea|]. destruct HA as (_ & -> & _).
       exists ct1. split; [by right|]. split; [|by apply undone_none].
       apply (ctrl_insert_trans_eq c ct1 ct1 w w1). core_eq. }
  eapply wp_with_ctrl; [apply lookup_insert_eq|exact Ea|].
  eapply wp_mono; [apply (add_create_ok fd fl own g c ct ct1 ct2 bm nd req rings qids w); try done|].
  - unfold NVM_MAX_QUEUES_PER_GROUP. lia.
  - apply (ctrl_insert_trans_eq c ct1 ct2 w w1). core_eq.
  - intros [[gi qs]|e|f] w' Hres; [| |done].
    + destruct Hres as (-> & -> & pre & post & Hadd). split; [done|]. by exists g, rings, pre, post, ct1, ct2.
    + destruct Hres as [Hs' Hu]. exists ct1. split; [by right|]. by split.
Qed.

(** The state after a lazy initialisation is as well-formed as before. *)
Lemma wf_maybe_init fd fl own c ct ct1 nd w :
  wf w → k_files w !! fd = Some fl → private_data fl = Some own → own_ctrl own = c →
  k_ctrls w !! c = Some ct → maybe_init nd ct ct1 → wf (w <| k_ctrls ::= insert c ct1 |>).
Proof.
  intros H Hf Ho Hoc Hc [->|Hinit]; [by rewrite ctrl_insert_id|].
  pose proof (wf_qids w H c ct Hc) as Hpe. destruct (lazy_init_pool _ _ _ _ _ Hpe Hinit) as [bm Hpool].
  destruct H as [H1 H2 H3 H4 H5 H6 H7 H8 H9]. split; try done.
  - by apply (ctrls_ok_insert c ct).
  - by apply owners_ok_insert_ctrl.
  - apply map_Forall_insert_2; [|done]. destruct Hpe as (_ & Hiff & Hu). split; [|split; [|done]].
    + intros bm' Hbm'. destruct (Hpool). congruence.
    + intros q. rewrite (lazy_init_used _ _ _ Hinit). apply Hiff.
  - apply (pdevs_ok_insert _ _ c ct); [done|done|]. by eapply lazy_init_pdev.
Qed.

Section after_add.
Context (fd : fdid) (fl : file) (own : snvm_dev_owner) (c : cid) (ct : ctrl) (nd : nvme_dev)
  (req : nvm_ioctl_add_user_queue) (qids : list Z) (g : snvm_qgroup) (rings : list (mapid * mapid))
  (pre post : list snvm_user_queue) (ct1 ct2 : ctrl) (w w1 : kstate).
Context (H : wf w) (Hf : k_files w !! fd = Some fl) (Ho : private_data fl = Some own)
  (Hoc : own_ctrl own = c) (Hc : k_ctrls w !! c = Some ct) (Hnr : 0 ≤ nr_pairs req)
  (A : added fd fl own c ct nd req qids g rings pre post ct1 ct2 w w1).

(** The ids are new, distinct and now in use. *)
Lemma added_qids :
  Z.of_nat (length qids) = nr_pairs req ∧ NoDup qids
  ∧ Forall (λ q, user_qid_first ct1 ≤ q ≤ user_qid_last ct1 ∧ q ∉ used_qids ct) qids
  ∧ used_qids ct2 = used_qids ct ∪ list_to_set qids
  ∧ c_pdev ct2 = c_pdev ct ∧ ∃ bm bm1, pool_ok ct2 bm ∧ pool_ok ct1 bm1.
Proof.
  destruct A as [_ _ _ _ _ _ _ Hinit Halloc _ _ _].
  destruct (lazy_init_pool _ _ _ _ _ (wf_qids w H c ct Hc) Hinit) as [bm1 Hpool].
  pose proof (qid_alloc_ok ct1 bm1 (nr_pairs req) Hpool Hnr) as HA. rewrite Halloc in HA.
  destruct HA as (Hl & Hnd & HF & Hu & (bm2 & E2 & Hp2)). rewrite <- (lazy_init_used _ _ _ Hinit).
  do 4 (split; [done|]). split; [rewrite E2; by apply (lazy_init_pdev _ _ _ Hinit)|eauto].
Qed.

Lemma added_wf : wf w1.
Proof.
  destruct added_qids as (_ & Hnd & HF & Hu & Hpd & bm & _ & Hpool & _).
  destruct A as [Ag _ As Aa Ad Ac Ar _ _ _ Ast _]. eapply wf_core; [exact Ast|].
  apply (wf_slots fd fl own g c ct ct2 pre post (drop (length qids) post) qids); try done.
  - intros bm' Hbm'. destruct (Hpool). congruence.
  - rewrite length_drop. lia.
  - by apply Forall_drop.
  - eapply Forall_impl; [exact HF|]. by intros q [_ ?].
Qed.

(** The group after the failed copy-out: the same live queues. *)
Definition reverted_group : snvm_qgroup :=
  with_slots g (pre ++ new_slots qids false ++ drop (length qids) post) (g_cur_queues g).

Lemma reverted_wf : wf (reslot fd fl (own <| own_groups := [reverted_group] |>) c ct1 w).
Proof.
  destruct added_qids as (_ & _ & _ & _ & _ & _ & bm1 & _ & Hpool1).
  destruct A as [Ag _ As Aa Ad Ac Ar Hinit _ _ _ _].
  pose proof (wf_slots fd fl own g c ct ct1 pre post (new_slots qids false ++ drop (length qids) post) [] w) as W.
  cbn [length] in W. rewrite Z.add_0_r in W. apply W; try done.
  - by apply (lazy_init_pdev _ _ _ Hinit).
  - intros bm' Hbm'. destruct (Hpool1). congruence.
  - rewrite length_app, length_drop. unfold new_slots. rewrite length_fmap. lia.
  - apply Forall_app. split; [apply new_slots_dead|by apply Forall_drop].
  - apply NoDup_nil_2.
  - rewrite (lazy_init_used _ _ _ Hinit). set_solver.
Qed.

Lemma added_room_ok : 0 ≤ g_cur_queues g + Z.of_nat (length qids) ≤ 32.
Proof.
  destruct A as [Ag _ As _ _ Ac Ar _ _ _ _ _].
  destruct (wf_one_group w fd fl own 0 g H Hf Ho) as (_ & _ & _ & HV); [by rewrite Ag|].
  destruct (wf_groups w H) as (Hshape & _). pose proof (shape_slots _ (Hshape _ _ HV)) as Hn.
  cbn in Hn. rewrite As, length_app in Hn. unfold NVM_MAX_QUEUES_PER_GROUP in Hn. lia.
Qed.

Lemma revert_ok w2 :
  same_core w1 w2 →
  wp (add_revert fd c 0 (nr_pairs req)) (λ r w', r = Ok tt ∧ wf w'
    ∧ same_core (reslot fd fl (own <| own_groups := [reverted_group] |>) c ct1 w) w'
    ∧ issues (qids ≫= delete_pair) w2 w') w2.
Proof.
  intros C2. destruct added_qids as (Hl & Hnd & HF & Hu & Hpd & bm & bm1 & Hpool & Hpool1).
  destruct A as [Ag Agid As Aa Ad Ac Ar Hinit Halloc _ Ast _].
  set (g1 := with_slots g (pre ++ new_slots qids true ++ drop (length qids) post) (g_cur_queues g + Z.of_nat (length qids))) in *.
  set (own1 := own <| own_groups := [g1] |>) in *.
  assert (C : same_core (reslot fd fl own1 c ct2 w) w2) by (by etrans).
  pose proof (same_core_field k_files _ _ (λ _, eq_refl) C) as Ef.
  assert (Hf2 : k_files w2 !! fd = Some (fl <| private_data := Some own1 |>)) by (rewrite <- Ef; apply lookup_insert_eq).
  pose proof added_room_ok as Hroom.
  unfold add_revert. apply wp_bind, (wp_the_owner fd (fl <| private_data := Some own1 |>)); [done|]. apply wp_bind, (wp_from_opt _ _ own1); [done|].
  apply wp_bind, (wp_from_opt _ _ g1); [done|]. apply wp_bind.
  change (g_cur_queues g1) with (g_cur_queues g + Z.of_nat (length qids)).
  rewrite <- Hl, Nat2Z.id, wrap_small by lia.
  replace (g_cur_queues g + Z.of_nat (length qids) - Z.of_nat (length qids)) with (Z.of_nat (length pre)) by lia.
  eapply wp_mono; [apply (revert_slots_ok fd (fl <| private_data := Some own1 |>) own1 g1 c ct2 ct1 pre qids (drop (length qids) post)); try done|].
  { rewrite <- (same_core_field k_ctrls _ _ (λ _, eq_refl) C). apply lookup_insert_eq. }
  { by apply (qid_alloc_free_ok ct1 bm1 (nr_pairs req)). }
  intros r w3 (-> & C3 & I3). set (g2 := g1 <| g_queues := _ |>) in C3. set (own2 := own1 <| own_groups := [g2] |>) in C3.
  pose proof (reslot_trans _ _ _ _ _ _ _ _ _ _ C C3) as C4.
  apply (wp_upd_only_group fd (fl <| private_data := Some own2 |>) own2 g2); [|done|done|].
  { rewrite <- (same_core_field k_files _ _ (λ _, eq_refl) C4). apply lookup_insert_eq. }
  assert (Eg : g2 <| g_cur_queues ::= λ n, u32 (n - Z.of_nat (length qids)) |> = reverted_group).
  { unfold reverted_group, g2, g1, with_slots. destruct g. unfold set, set_g_queues, set_g_cur_queues. cbn in *. f_equal.
    rewrite wrap_small; lia. }
  rewrite Eg. change (own2 <| own_groups := [reverted_group] |>) with (own <| own_groups := [reverted_group] |>).
  set (own3 := own <| own_groups := [reverted_group] |>).
  assert (C5 : same_core (reslot fd fl own3 c ct1 w) (set_owner fd (fl <| private_data := Some own2 |>) own3 w3)).
  { change (set_owner fd (fl <| private_data := Some own2 |>) own3 w3) with (set_owner fd fl own3 w3).
    apply (same_core_update (set_owner fd fl own3)) in C4; [|done]. etrans; [|exact C4]. unfold reslot.
    change (same_core ((set_owner fd fl own3 w) <| k_ctrls ::= insert c ct1 |>)
      ((set_owner fd fl own3 (set_owner fd fl own2 w)) <| k_ctrls ::= insert c ct1 |>)).
    by rewrite set_owner_twice. }
  split; [done|]. split; [|split; [exact C5|exact I3]]. by eapply wf_core; [exact C5|apply reverted_wf].
Qed.
End after_add.

(** ** The handler *)

(** The live queues of the group of an open file. *)
Definition group_qids (w : kstate) (fd : fdid) : option (list Z) :=
  (λ v, alive_qids (g_queues v.2)) <$> gviews (owners (k_files w)) !! fd.

(** Nothing a user can see of maps, groups and queues has changed. *)
Definition same_queues (w w' : kstate) : Prop :=
  k_heap w' = k_heap w ∧ registries w' = registries w
  ∧ snvm_queue_group_ida w' = snvm_queue_group_ida w
  ∧ (∀ c, used_qids <$> k_ctrls w' !! c = used_qids <$> k_ctrls w !! c)
  ∧ ∀ fd, group_qids w' fd = group_qids w fd.

Lemma same_queues_core w w' : same_core w w' → same_queues w w'.
Proof.
  intros H. split; [by rewrite (same_core_field k_heap _ _ (λ _, eq_refl) H)|].
  split; [by rewrite (same_core_field registries _ _ (λ _, eq_refl) H)|].
  split; [by rewrite (same_core_field snvm_queue_group_ida _ _ (λ _, eq_refl) H)|].
  split; [intros c; by rewrite (same_core_field k_ctrls _ _ (λ _, eq_refl) H)|].
  intros fd. unfold group_qids. by rewrite (same_core_field k_files _ _ (λ _, eq_refl) H).
Qed.

Lemma same_queues_trans w1 w2 w3 : same_queues w1 w2 → same_queues w2 w3 → same_queues w1 w3.
Proof.
  intros (A1 & A2 & A3 & A4 & A5) (B1 & B2 & B3 & B4 & B5).
  do 3 (split; [congruence|]). split; [intros c; by rewrite B4, A4|intros fd; by rewrite B5, A5].
Qed.

Lemma same_queues_ctrl c ct ct1 w :
  k_ctrls w !! c = Some ct → used_qids ct1 = used_qids ct → same_queues w (w <| k_ctrls ::= insert c ct1 |>).
Proof.
  intros Hc Hu. do 3 (split; [done|]). split; [|done]. intros c'. cbn.
  destruct (decide (c = c')) as [<-|Hne]; [rewrite lookup_insert_eq, Hc; cbn; by rewrite Hu|by rewrite lookup_insert_ne].
Qed.

Lemma group_qids_owner fd fl own g w :
  own_groups own = [g] → group_qids (set_owner fd fl own w) fd = Some (alive_qids (g_queues g)).
Proof.
  intros Hg. unfold group_qids, set_owner. cbn. rewrite owners_insert, gviews_insert. unfold owner_group.
  rewrite Hg. cbn. by rewrite lookup_insert_eq.
Qed.

Lemma same_queues_owner fd fl own g g' w :
  k_files w !! fd = Some fl → private_data fl = Some own → own_groups own = [g] →
  alive_qids (g_queues g') = alive_qids (g_queues g) →
  same_queues w (set_owner fd fl (own <| own_groups := [g'] |>) w).
Proof.
  intros Hf Ho Hg Ha. do 4 (split; [done|]). intros fd'. destruct (decide (fd = fd')) as [<-|Hne].
  - rewrite (group_qids_owner fd fl _ g') by done. rewrite Ha. symmetry.
    pose proof (group_qids_owner fd fl own g w Hg) as Hq. by rewrite set_owner_id in Hq.
  - unfold group_qids, set_owner. cbn. rewrite owners_insert, gviews_insert. unfold owner_group. cbn.
    by rewrite lookup_insert_ne.
Qed.

Definition add_post (fd : fdid) (fl : file) (c : cid) (ct : ctrl) (pd : pci_dev)
    (req : nvm_ioctl_add_user_queue) (w : kstate) (res : outcome (Z * uout)) (w' : kstate) : Prop :=
  wf w' ∧
  match res with
  | Ok (ret, out) => ret = 0 ∧ ∃ own g nd rings qids ct2,
      private_data fl = Some own ∧ own_groups own = [g] ∧ g_group_id g = auq_group_id req
      ∧ live_ndev pd = Some nd ∧ out = OutAdd (add_response nd qids req)
      ∧ Z.of_nat (length qids) = nr_pairs req ∧ NoDup qids ∧ Forall (λ q, q ∉ used_qids ct) qids
      ∧ rings_distinct (batch req) ∧ Forall2 (rings_of w (g_maps g)) (batch req) rings
      ∧ k_heap w' = k_heap w ∧ k_ctrls w' = <[c := ct2]> (k_ctrls w)
      ∧ used_qids ct2 = used_qids ct ∪ list_to_set qids
      ∧ group_qids w fd = Some (alive_qids (g_queues g))
      ∧ group_qids w' fd = Some (alive_qids (g_queues g) ++ qids)
      ∧ issues (zip qids rings ≫= create_pair w nd) w w'
  | Err e => same_queues w w' ∧ ∃ nd, undone_cmds w nd w w'
  | Fault _ => False
  end.

Lemma added_post fd fl own c ct pd nd req qids g rings pre post ct1 ct2 w w1 w2 :
  wf w → k_files w !! fd = Some fl → private_data fl = Some own → own_ctrl own = c →
  k_ctrls w !! c = Some ct → 0 ≤ nr_pairs req → live_ndev pd = Some nd → rings_distinct (batch req) →
  added fd fl own c ct nd req qids g rings pre post ct1 ct2 w w1 →
  same_core w1 w2 → k_trace w2 = k_trace w1 →
  add_post fd fl c ct pd req w (Ok (0, OutAdd (add_response nd qids req))) w2.
Proof.
  intros H Hf Ho Hoc Hc Hnr Hl Hd A C2 T2.
  pose proof (added_wf _ _ _ _ _ _ _ _ _ _ _ _ _ _ _ _ H Hf Ho Hoc Hc Hnr A) as Hwf1.
  destruct (added_qids _ _ _ _ _ _ _ _ _ _ _ _ _ _ _ _ H Hc Hnr A) as (Hlq & Hnd & HF & Hu & _).
  destruct A as [Ag Agid As Aa Ad Ac Ar _ _ Arings Ast Acmds].
  assert (C : same_core (reslot fd fl _ c ct2 w) w2) by (etrans; [exact Ast|exact C2]).
  split; [by apply (wf_core w1)|]. split; [done|]. exists own, g, nd, rings, qids, ct2.
  do 7 (split; [done|]). split; [eapply Forall_impl; [exact HF|]; by intros q [_ ?]|].
  do 2 (split; [done|]).
  split; [by rewrite <- (same_core_field k_heap _ _ (λ _, eq_refl) C)|].
  split; [by rewrite <- (same_core_field k_ctrls _ _ (λ _, eq_refl) C)|]. split; [done|].
  split; [pose proof (group_qids_owner fd fl own g w Ag) as Hq; by rewrite set_owner_id in Hq|]. split.
  - destruct (same_queues_core _ _ C) as (_ & _ & _ & _ & Hq). rewrite Hq. unfold reslot.
    change (group_qids (?x <| k_ctrls ::= _ |>) fd) with (group_qids x fd).
    etrans; [by apply group_qids_owner|]. f_equal. rewrite As, (alive_split pre post) by done.
    change (g_queues (with_slots ?x ?y ?z)) with y. rewrite app_assoc, alive_split;
      [by rewrite fmap_app, new_slots_qids| |by apply Forall_drop].
    apply Forall_app. split; [done|apply new_slots_alive].
  - destruct Acmds as (tr & Ht & Hr). exists tr. by rewrite T2.
Qed.

Lemma add_err_post fd fl own c ct pd nd req e w w' :
  wf w → k_files w !! fd = Some fl → private_data fl = Some own → own_ctrl own = c →
  k_ctrls w !! c = Some ct → add_err c ct nd w w' → add_post fd fl c ct pd req w (Err e) w'.
Proof.
  intros H Hf Ho Hoc Hc (ct1 & Hmi & Hs & Hu). split.
  - eapply wf_core; [exact Hs|]. by eapply wf_maybe_init.
  - split; [|by exists nd]. eapply same_queues_trans; [|by apply same_queues_core].
    apply (same_queues_ctrl c ct); [done|]. destruct Hmi as [->|Hi]; [done|]. by eapply lazy_init_used.
Qed.

Lemma reverted_post fd fl own c ct pd nd req qids g rings pre post ct1 ct2 e w w1 w2 w' :
  wf w → k_files w !! fd = Some fl → private_data fl = Some own → own_ctrl own = c →
  k_ctrls w !! c = Some ct → add_req_ok req → 1 ≤ nr_pairs req ≤ NVM_MAX_QUEUES_PER_GROUP →
  added fd fl own c ct nd req qids g rings pre post ct1 ct2 w w1 → k_trace w2 = k_trace w1 → wf w' →
  same_core (reslot fd fl (own <| own_groups := [reverted_group qids g pre post] |>) c ct1 w) w' →
  issues (qids ≫= delete_pair) w2 w' →
  add_post fd fl c ct pd req w (Err e) w'.
Proof.
  intros H Hf Ho Hoc Hc Hreq Hnr A T2 Hwf' C I.
  assert (Hnn : 0 ≤ nr_pairs req) by lia.
  destruct (added_qids _ _ _ _ _ _ _ _ _ _ _ _ _ _ _ _ H Hc Hnn A) as (Hlq & _).
  destruct A as [Ag _ As Aa Ad _ _ Hinit _ Arings _ (tr & Ht & Hr)]. split; [done|]. split.
  - eapply same_queues_trans; [|by apply same_queues_core]. unfold reslot.
    eapply same_queues_trans; [apply (same_queues_owner fd fl own g (reverted_group qids g pre post)); try done|].
    + unfold reverted_group. change (g_queues (with_slots ?x ?y ?z)) with y.
      rewrite As, (alive_split pre post) by done. apply alive_split; [done|].
      apply Forall_app. split; [apply new_slots_dead|by apply Forall_drop].
    + apply (same_queues_ctrl c ct); [done|]. by eapply lazy_init_used.
  - exists nd, (zip qids rings), [], qids. split; [|split; [|by left]].
    + cbn. eapply issues_app; [|exact I]. exists tr. by rewrite T2.
    + pose proof (Forall2_length _ _ _ Arings). pose proof (batch_length req Hreq Hnr).
      by rewrite fst_zip by lia.
Qed.

Lemma ioctl_add_user_queue_ok fd fl c ct pd req w :
  wf w → k_files w !! fd = Some fl → (∀ own, private_data fl = Some own → own_ctrl own = c) →
  k_ctrls w !! c = Some ct → k_pdevs w !! c_pdev ct = Some pd → add_req_ok req →
  wp (ioctl_add_user_queue fd c req) (add_post fd fl c ct pd req w) w.
Proof.
  intros H Hf Hoc Hc Hp Hreq. unfold ioctl_add_user_queue.
  assert (Hstop : ∀ e w', same_core w w' → k_trace w' = k_trace w → add_post fd fl c ct pd req w (Err e) w').
  { intros e w' Hs Ht. split; [by apply (wf_core w)|]. split; [by apply same_queues_core|].
    exists (mk_ndev 0 0 0 0 0 0 0 0 0 0 false 0 0). by apply undone_none. }
  apply wp_bind, (wp_the_owner fd fl); [done|].
  destruct (private_data fl) as [own|] eqn:Ho; [|by apply wp_fail, Hstop].
  specialize (Hoc own eq_refl). apply wp_bind, wp_kalloc. set (w0 := w <| k_tick := S (k_tick w) |>).
  assert (C0 : same_core w w0) by core_eq. apply wp_bind, wp_guard; [intros _; by apply Hstop|]. intros _.
  set (wa := w0 <| k_tick := S (k_tick w0) |>). assert (Ca : same_core w wa) by core_eq.
  apply wp_bind, wp_copy_from; [by apply Hstop|].
  apply wp_bind, check_add_spec; [done|by apply Hstop|]. intros Hnr Hd _.
  apply wp_bind. eapply wp_eq; [by apply (get_live_spec c ct pd)|].
  destruct (live_ndev pd) as [nd|] eqn:Hl; [|by apply wp_fail, Hstop].
  assert (Hwfa : wf wa) by (by apply (wf_core w)).
  pose proof (live_ndev_ok w c ct pd nd H Hc Hp Hl) as Hnd.
  change (add_post fd fl c ct pd req w) with (add_post fd fl c ct pd req wa).
  apply wp_bind. eapply wp_mono; [by apply (add_locked_ok fd fl own c ct nd req wa)|].
  intros [[gi qids]|e|f] w1 Hres; [| |done].
  - destruct Hres as (-> & g & rings & pre & post & ct1 & ct2 & A). cbv beta iota.
    apply wp_bind, wp_copy_to. intros left. set (w2 := w1 <| k_tick := S (k_tick w1) |>).
    case_bool_decide.
    + apply wp_bind. eapply wp_mono.
      { apply (revert_ok fd fl own c ct nd req qids g rings pre post ct1 ct2 wa w1); first [done|lia|core_eq]. }
      intros r w' (-> & Hwf' & C & I). apply wp_fail.
      by apply (reverted_post fd fl own c ct pd nd req qids g rings pre post ct1 ct2 EFAULT wa w1 w2).
    + apply wp_ret. apply (added_post fd fl own c ct pd nd req qids g rings pre post ct1 ct2 wa w1); first [done|lia|core_eq].
  - by apply (add_err_post fd fl own c ct pd nd req e wa).
Qed.
End add_spec.
