(* ===== verification/System.v ===== *)
(** * System: the character device as a transition system

    The dispatcher against the invariant, and the machine whose steps are the
    file operations, interleaved in any order over any number of open files,
    with devices being bound and unbound and GPU memory being reclaimed by its
    driver in between. *)
From S2P Require Import Prelude.
From S2P Require Import Uapi.
From S2P Require Import Kernel.
From S2P Require Import QidPool.
From S2P Require Import Map.
From S2P Require Import MapGpu.
From S2P Require Import Ctrl.
From S2P Require Import Qgroup.
From S2P Require Import DevIoctl.
From S2P Require Import AddQueue.
From S2P Require Import Invariant.
From S2P Require Import MapIoctl.
From S2P Require Import GroupInv.
From S2P Require Import GroupIoctl.
From S2P Require Import Release.
From S2P Require Import InfoIoctl.
From S2P Require Import AddSpec.

(** The requests considered: the byte length [n_pages * GPU_PAGE_SIZE] of a map
    request fits 64 bits (a larger one could not be described by any
    allocation), and an add request has the arrays of its C type. *)
Record arg_ok (arg : uarg) : Prop := {
  arg_map_ok : GPU_PAGE_SIZE * n_pages (arg_map arg) < 2 ^ 64;
  arg_add_ok : add_req_ok (arg_add arg);
}.

Definition file_counters_ok (fl : file) : Prop := ∀ own, private_data fl = Some own → counters_ok own.

Definition no_fault {A} (r : outcome A) : Prop := ∀ f, r ≠ Fault f.

Section system.
Context `{E : Env} `{P : PeerMemory}.
Implicit Types (w : kstate).

(** A new [struct file], before [->open] is called on it. *)
Definition new_file (fd : fdid) (inode : nat) (wr : bool) (w : kstate) : kstate :=
  w <| k_files ::= insert fd (mk_file inode None wr) |>.

(** The last reference to a [struct file] goes away after [->release]. *)
Definition drop_file (fd : fdid) (w : kstate) : kstate := w <| k_files ::= delete fd |>.

(** A device is (un)bound or its driver renegotiates its queues. *)
Definition rebind_device (p : pdevid) (pd : pci_dev) (w : kstate) : kstate :=
  w <| k_pdevs ::= insert p pd |>.

Inductive step (w : kstate) : kstate → Prop :=
  | step_open cur inode fd wr :
      k_files w !! fd = None →
      step w (snvm_dev_open cur inode fd (new_file fd inode wr w)).2
  | step_ioctl cur fd fl cmd arg :
      k_files w !! fd = Some fl → file_counters_ok fl → arg_ok arg →
      step w (snvm_dev_map_ioctl cur fd cmd arg w).2
  | step_mmap fd fl vs ve :
      k_files w !! fd = Some fl → step w (svm_mmap_registers fd vs ve w).2
  | step_release fd fl :
      k_files w !! fd = Some fl → step w (drop_file fd (snvm_dev_release fd w).2)
  | step_revoke m md :
      k_heap w !! m = Some md → m_release md = release_gpu_memory_fn →
      step w (force_release_gpu_memory m w).2
  | step_device p pd :
      (∀ nd, pd_drvdata pd = Some nd → ndev_ok nd) → step w (rebind_device p pd w).

(** Just after the controllers' character devices were created: no open
    file, no map, no group, no queue-id pool.  [ctrls_ok] also bounds the
    listed controllers by eight, the length of the mapping array of map.c;
    CTRL_INIT accepts up to 64, and with more than eight a GPU mapping writes
    past that array. *)
Record booted (w : kstate) : Prop := {
  boot_ctrls : ctrls_ok w;
  boot_heap : k_heap w = ∅;
  boot_regs : registries w = [];
  boot_files : k_files w = ∅;
  boot_ida : snvm_queue_group_ida w = ∅;
  boot_pools : map_Forall (λ _ ct, user_qid_bitmap ct = None) (k_ctrls w);
  boot_pdevs : pdevs_ok (k_ctrls w) (k_pdevs w);
}.

Definition reachable (w : kstate) : Prop := ∃ w0, booted w0 ∧ rtc step w0 w.

Lemma booted_wf w : booted w → wf w.
Proof.
  intros [H1 Hh Hr Hf Hi Hp Hd].
  assert (EO : owners (k_files w) = ∅) by (rewrite Hf; apply omap_empty).
  assert (EV : gviews ∅ = ∅) by apply omap_empty.
  split; try done; rewrite ?EO, ?EV, ?Hh, ?Hi.
  - rewrite Hr. split; [apply NoDup_nil_2|]. split; [|apply map_Forall_empty].
    intros m. rewrite lookup_empty. split; [by intros ?%elem_of_nil|by intros [? ?]].
  - split; by intros fd.
  - split; [by intros fd|]. split; [by intros fd|]. by intros m.
  - apply map_Forall_empty.
  - split; [apply map_Forall_empty|]. split; [|by intros fd].
    intros i. split; [set_solver|]. intros (fd & v & Hv & _). done.
  - intros c ct Hc. pose proof (Hp c ct Hc) as Hn. cbn in Hn. split; [intros bm; congruence|].
    split; [|intros q p1 p2 (g & u & Hg & _); done].
    intros q. rewrite elem_of_used_qids. unfold qid_used. rewrite Hn. split; [done|].
    intros (p & g & u & Hg & _). done.
  - rewrite Hf. by intros fd.
Qed.

(** ** The machine's own updates *)

Lemma owners_insert_none files fd fl :
  files !! fd = None → private_data fl = None → owners (<[fd := fl]> files) = owners files.
Proof.
  intros Hn Hp. unfold owners. rewrite omap_insert_None by done. apply delete_id.
  by rewrite lookup_omap, Hn.
Qed.

Lemma wf_new_file fd inode wr w : wf w → k_files w !! fd = None → wf (new_file fd inode wr w).
Proof.
  intros [H1 H2 H3 H4 H5 H6 H7 H8 H9] Hn.
  assert (EO : owners (k_files (new_file fd inode wr w)) = owners (k_files w)) by (by apply owners_insert_none).
  split; rewrite ?EO; try done. intros fd' fl own c Hf Ho.
  change (<[fd := mk_file inode None wr]> (k_files w) !! fd' = Some fl) in Hf. apply lookup_insert_Some in Hf as [[<- <-]|[_ Hf]]; [done|]. by apply (H9 fd').
Qed.

Lemma wf_drop_file fd fl w :
  wf w → k_files w !! fd = Some fl → private_data fl = None → wf (drop_file fd w).
Proof.
  intros [H1 H2 H3 H4 H5 H6 H7 H8 H9] Hf Ho.
  assert (EO : owners (k_files (drop_file fd w)) = owners (k_files w)).
  { unfold owners, drop_file. cbn. rewrite omap_delete. apply delete_id. by rewrite lookup_omap, Hf. }
  split; rewrite ?EO; try done. intros fd' fl' own c Hf' Ho'.
  change (delete fd (k_files w) !! fd' = Some fl') in Hf'. apply lookup_delete_Some in Hf' as [_ Hf']. by apply (H9 fd').
Qed.

Lemma wf_rebind p pd w :
  wf w → (∀ nd, pd_drvdata pd = Some nd → ndev_ok nd) → wf (rebind_device p pd w).
Proof.
  intros [H1 H2 H3 H4 H5 H6 H7 H8 H9] Hnd. split; try done. intros c ct Hc. cbn.
  destruct (decide (p = c_pdev ct)) as [->|Hne].
  - exists pd. by rewrite lookup_insert_eq.
  - destruct (H8 c ct Hc) as (pd' & Hp' & ?). exists pd'. by rewrite lookup_insert_ne.
Qed.
End system.

Section dispatcher.
Context `{E : Env} `{EOk : !EnvOk E} `{P : PeerMemory} `{POk : !PeerMemoryOk P}.
Implicit Types (w : kstate).

Lemma keeps_wf {A} (res : outcome A) w' : wf w' → no_fault res → wf w' ∧ no_fault res.
Proof. by split. Qed.

(** Every request, whatever its number and argument: the invariant is kept
    and the code has no undefined behaviour. *)
Lemma dispatch_ok cur fd fl cmd arg w :
  wf w → k_files w !! fd = Some fl → file_counters_ok fl → arg_ok arg →
  wp (snvm_dev_map_ioctl cur fd cmd arg) (λ res w', wf w' ∧ no_fault res) w.
Proof.
  intros H Hf Hcnt [Hmap Hadd]. unfold snvm_dev_map_ioctl. apply wp_bind, (wp_the_file fd fl); [done|].
  apply wp_bind. eapply wp_mono; [by apply find_by_inode_ok, wf_ctrls|].
  intros [[c|]|e|f] w' [-> Hr]; try done.
  destruct Hr as (_ & [ct Hc] & Hi). destruct (wf_ctrl_pdev w c ct H Hc) as [pd Hp].
  assert (Hoc : ∀ own, private_data fl = Some own → own_ctrl own = c).
  { intros own Ho. symmetry. by apply (wf_inodes w H fd fl). }
  assert (Hdef : wp (ioctl_default fd c cmd) (λ res w', wf w' ∧ no_fault res) w).
  { eapply wp_mono; [by apply (ioctl_default_ok fd fl c ct pd)|].
    intros res w' (Hs & _ & Hr). split; [by apply (wf_core w)|]. by intros f ->. }
  destruct (decode_ioctl cmd) as [[]|]; try exact Hdef.
  all: eapply wp_mono.
  - apply (ioctl_map_host_ok cur fd fl c ct); eauto.
  - intros res w' (_ & Hwf & Hres). by apply keeps_wf; [|intros f ->].
  - apply (ioctl_map_device_ok cur fd fl); eauto.
  - intros res w' (_ & Hwf & Hres). by apply keeps_wf; [|intros f ->].
  - by apply (ioctl_unmap_ok cur fd fl).
  - intros res w' (_ & Hwf & Hres). by apply keeps_wf; [|intros f ->].
  - by apply (ioctl_unmap_ok cur fd fl).
  - intros res w' (_ & Hwf & Hres). by apply keeps_wf; [|intros f ->].
  - by apply ioctl_unmap_queue_ok.
  - intros res w' (_ & Hwf & Hres). by apply keeps_wf; [|intros f ->].
  - by apply (ioctl_get_dev_info_ok c ct pd).
  - intros res w' (Hs & _ & _ & Hres). apply keeps_wf; [by apply (wf_core w)|by intros f ->].
  - by apply (ioctl_create_group_ok fd fl).
  - intros res w' (Hwf & Hres). by apply keeps_wf; [|intros f ->].
  - by apply (ioctl_destroy_group_ok fd fl).
  - intros res w' (Hwf & Hres). by apply keeps_wf; [|intros f ->].
  - by apply (ioctl_add_user_queue_ok fd fl c ct pd).
  - intros res w' (Hwf & Hres). by apply keeps_wf; [|intros f ->].
  - by apply (ioctl_set_cap_ok c ct).
  - intros res w' (Hwf & Hres). by apply keeps_wf; [|intros f ->].
Qed.

(** Closing an open file, whatever its state. *)
Lemma release_any_ok fd fl w :
  wf w → k_files w !! fd = Some fl →
  wp (snvm_dev_release fd) (λ r w', r = Ok tt ∧ wf w' ∧
    ∃ fl', k_files w' !! fd = Some fl' ∧ private_data fl' = None) w.
Proof.
  intros H Hf. destruct (private_data fl) as [own|] eqn:Ho.
  - assert (HO : owners (k_files w) !! fd = Some own) by (apply owners_lookup; eauto).
    destruct (wf_owners w H fd own HO) as ([ct Hc] & _). destruct (wf_ctrl_pdev w _ ct H Hc) as [pd Hp].
    eapply wp_mono; [by apply (snvm_dev_release_ok fd fl own ct pd)|].
    intros r w' (-> & Hwf & Hgone & _). by split.
  - unfold snvm_dev_release. apply wp_bind, (wp_the_owner fd fl); [done|]. rewrite Ho. apply wp_ret. eauto.
Qed.

Lemma step_wf w w' : wf w → step w w' → wf w'.
Proof.
  intros H Hs. destruct Hs as [cur inode fd wr Hn|cur fd fl cmd arg Hf Hc Ha|fd fl vs ve Hf|fd fl Hf|m md Hm Hr|p pd Hnd].
  - assert (Hwf : wf (new_file fd inode wr w)) by (by apply wf_new_file).
    exact (proj1 (snvm_dev_open_ok cur inode fd (mk_file inode None wr) (new_file fd inode wr w) Hwf
      (lookup_insert_eq _ _ _) eq_refl eq_refl)).
  - exact (proj1 (dispatch_ok cur fd fl cmd arg w H Hf Hc Ha)).
  - destruct (svm_mmap_ok fd fl vs ve w H Hf) as [Hs _]. by apply (wf_core w).
  - destruct (release_any_ok fd fl w H Hf) as (_ & Hwf & fl' & Hf' & Ho'). by apply (wf_drop_file fd fl').
  - destruct (force_release_core m md w Hm Hr (wf_heap_release w m md H Hm) (wf_ctrls w H)) as (_ & Hs & _).
    eapply wf_core; [exact Hs|]. by apply wf_drop.
  - by apply wf_rebind.
Qed.

Lemma reachable_wf w : reachable w → wf w.
Proof.
  intros (w0 & Hb & Hr). apply booted_wf in Hb. induction Hr as [w|w w1 w2 Hs _ IH]; [done|].
  apply IH. by eapply step_wf.
Qed.
End dispatcher.
