(* ===== verification/Instances.v ===== *)
(** * Instances: a concrete environment and a concrete history

    An environment in which every outside call succeeds, an NVIDIA driver that
    pins what it is asked for, and a history of requests against one
    controller: open, create a group, map a submission ring, a completion ring
    and a data buffer, add a queue pair.  The states of the history are
    reachable, so they show that what the theorems assume does occur. *)
From S2P Require Import Prelude.
From S2P Require Import Uapi.
From S2P Require Import Kernel.
From S2P Require Import PeerMemory.
From S2P Require Import QidPool.
From S2P Require Import Map.
From S2P Require Import MapGpu.
From S2P Require Import Ctrl.
From S2P Require Import Qgroup.
From S2P Require Import DevIoctl.
From S2P Require Import AddQueue.
From S2P Require Import Invariant.
From S2P Require Import MapIoctl.
From S2P Require Import GroupInv.
From S2P Require Import GroupIoctl.
From S2P Require Import Release.
From S2P Require Import InfoIoctl.
From S2P Require Import AddSpec.
From S2P Require Import System.

(** ** The environment *)

(** The smallest free id at or above [start] among the next 64. *)
Definition demo_ida (ids : gset Z) (start : Z) : Z :=
  match list_find (λ i, i ∉ ids) (seqZ start 64) with
  | Some (_, i) => if bool_decide (i < 2 ^ 31) then i else - ENOMEM
  | None => - ENOMEM
  end.

Definition demo_env : Env := {|
  env_alloc := λ _, true;
  env_copy_from := λ _, 0;
  env_copy_to := λ _, 0;
  env_gup := λ _ start nr, (nr, seqZ (Z.shiftr start 12) nr);
  env_dma_map := λ _ _ page, 2 ^ 40 + page * 4096;
  env_dma_error := λ _ _ _, 0;
  env_admin := λ _ _, 0;
  env_ida := λ _, demo_ida;
  env_symbol := λ _ _, true;
  env_phx := λ _ _ _, (- ENODEV, None, []);
  env_cdev_add := λ _, 0;
  env_device_create := λ _, 0;
  env_class_create := λ _, 0;
  env_chrdev_region := λ _, 0;
  env_ns := λ _, Some ([115; 110; 118; 109; 101], 9);
  env_iomap := λ _ _ _, 0;
  env_passthru := λ _ _ _, 0;
  env_register := λ _, 0;
  env_attach := λ _, 0; env_probe := λ _ _, Some None;
  env_bind := λ _ _, None;
  env_junk := λ _ n, replicate n 0;
|}.

Lemma demo_ida_fresh ids start :
  0 ≤ demo_ida ids start → start ≤ demo_ida ids start < 2 ^ 31 ∧ demo_ida ids start ∉ ids.
Proof.
  unfold demo_ida. destruct (list_find _ _) as [[n i]|] eqn:Hf; [|done].
  apply list_find_Some in Hf as (Hi & Hnot & _). apply lookup_seqZ in Hi. case_bool_decide; [|done].
  intros _. split; [lia|done].
Qed.

#[export] Instance demo_env_ok : EnvOk demo_env.
Proof.
  split; cbn -[Z.pow].
  - intros _ ids start. apply demo_ida_fresh.
  - intros _ start nr Hnr. split; [done|]. rewrite length_seqZ. lia.
  - intros _ v len Hlen. by apply Z.div_pos.
  - intros _ n. apply length_replicate.
Qed.

(** An NVIDIA driver: a page table is known by its number of 64 KiB pages. *)
Definition demo_nvidia : NvidiaP2P := {|
  nvidia_p2p_get_pages := λ _ _ _ _ len,
    if bool_decide (0 ≤ len) then (0, Some (Z.to_nat (len / GPU_PAGE_SIZE))) else (- EINVAL, None);
  nvidia_p2p_put_pages := λ _ _ _ _ _, 0;
  nvidia_p2p_dma_map_pages := λ _ _ pt, (0, Some pt);
  nvidia_p2p_dma_unmap_pages := λ _ _ _ _, 0;
  nvidia_p2p_free_dma_mapping := λ _ _, 0;
  nvidia_p2p_free_page_table := λ _ _, 0;
  nvidia_entries := Z.of_nat;
  nvidia_dma_addresses := λ dm, (λ i, 2 ^ 41 + i * GPU_PAGE_SIZE) <$> seqZ 0 (Z.of_nat dm);
|}.

#[export] Instance demo_nvidia_ok : NvidiaP2POk demo_nvidia.
Proof.
  split; cbn -[Z.pow].
  - intros _ _ _ _ len. case_bool_decide as Hl; [|done]. intros _. eexists. split; [done|].
    assert (0 ≤ len / GPU_PAGE_SIZE) by (by apply Z.div_pos). lia.
  - intros _ _ pt _. eexists. split; [done|]. rewrite length_fmap, length_seqZ. lia.
Qed.

(** ** One controller *)
Definition demo_ndev : nvme_dev := mk_ndev 4 0 0 4 0 0 16 3 1024 1 true 256 0.
Definition demo_pdev : pci_dev :=
  mk_pdev 0 1 0 (Some (Some PCI_DRIVER_NAME)) (Some demo_ndev) true 0x010802 0xF0000000 16384 1.
Definition demo_ctrl : ctrl := mk_ctrl 0 "ssnvme0" 0 0 true zero_setup None 0 0 2 [7%nat].

Definition demo_boot : kstate :=
  mk_kstate 0 [] ∅ 1 [] [] [] {[0%nat := demo_ctrl]} [0%nat] ∅ ∅ {[0]} {[0%nat := demo_pdev]} ∅ false false
    (mk_peer (list_to_set nvidia_symbols) ∅ ∅ 0) true true {[7%nat := Some 0%nat]} 240
    (mk_control true true true true).

(** ** The history *)
Section history.
Existing Instance demo_env.
Existing Instance demo_nvidia.

Abbreviation demo_fd := 5%nat.
Abbreviation demo_task := 100%nat.

Definition no_map : nvm_ioctl_map := mk_nvm_ioctl_map 0 0 0 0 0 0 0 [0; 0; 0].
Definition no_add : nvm_ioctl_add_user_queue :=
  mk_add_user_queue 0 0 0 [] (replicate 32 (mk_pair_in 0 0)) (replicate 32 (mk_pair_out 0 0 0 0)).
Definition no_group : nvm_ioctl_queue_group := mk_nvm_ioctl_queue_group 0 0 0 (replicate 5 0).

Definition demo_ring (vaddr kind : Z) : nvm_ioctl_map :=
  mk_nvm_ioctl_map vaddr 2 0 0 0 (if bool_decide (kind = NVM_MAP_KIND_DATA) then 0 else 1) kind [0; 0; 0].
Definition map_arg (req : nvm_ioctl_map) : uarg := mk_uarg req 0 0 no_group no_add.
Definition group_arg : uarg := mk_uarg no_map 0 0 no_group no_add.
Definition demo_add : nvm_ioctl_add_user_queue :=
  mk_add_user_queue 1 1 0 (replicate 5 0) (mk_pair_in 0x10000 0x20000 :: replicate 31 (mk_pair_in 0 0))
    (replicate 32 (mk_pair_out 0 0 0 0)).
Definition add_arg : uarg := mk_uarg no_map 0 0 no_group demo_add.

Definition demo_ioctl (c : nvm_ioctl_type) (arg : uarg) (w : kstate) : kstate :=
  (snvm_dev_map_ioctl demo_task demo_fd (nvm_ioctl_code c) arg w).2.

Definition demo_open : kstate := (snvm_dev_open demo_task 7 demo_fd (new_file demo_fd 7 true demo_boot)).2.
Definition demo_group : kstate := demo_ioctl NVM_CREATE_QUEUE_GROUP group_arg demo_open.
Definition demo_sq : kstate :=
  demo_ioctl NVM_MAP_HOST_MEMORY (map_arg (demo_ring 0x10000 NVM_MAP_KIND_RING_SQ)) demo_group.
Definition demo_rings : kstate :=
  demo_ioctl NVM_MAP_HOST_MEMORY (map_arg (demo_ring 0x20000 NVM_MAP_KIND_RING_CQ)) demo_sq.
Definition demo_data : kstate :=
  demo_ioctl NVM_MAP_DEVICE_MEMORY (map_arg (demo_ring 0x30000 NVM_MAP_KIND_DATA)) demo_rings.
Definition demo_queue : kstate := demo_ioctl NVM_ADD_USER_QUEUE add_arg demo_data.

Definition demo_file (w : kstate) : file := default (mk_file 0 None false) (k_files w !! demo_fd).
Definition demo_owner (w : kstate) : snvm_dev_owner :=
  default (mk_owner 0 0 [] 0 [] 0) (private_data (demo_file w)).

(** What the history amounts to: one live queue with id 4, the first id above
    the kernel's own queues. *)
Example demo_queue_live :
  (λ g, (g_group_id g, g_cur_queues g, alive_qids (g_queues g), length (g_maps g)))
    <$> own_groups (demo_owner demo_queue) = [(1, 1, [4], 2%nat)].
Proof. vm_compute. reflexivity. Qed.

(** ** The states of the history are reachable *)
Lemma demo_boot_ok : booted demo_boot.
Proof.
  split; [|done..| |].
  - split; [cbn; unfold max_num_ctrls; lia|]. repeat constructor. vm_compute. eauto.
  - intros c ct Hc. change (({[0%nat := demo_ctrl]} : gmap cid ctrl) !! c = Some ct) in Hc.
    apply lookup_singleton_Some in Hc as [_ <-]. done.
  - intros c ct Hc. change (({[0%nat := demo_ctrl]} : gmap cid ctrl) !! c = Some ct) in Hc.
    apply lookup_singleton_Some in Hc as [_ <-]. exists demo_pdev. split; [done|].
    intros nd [= <-]. by split; vm_compute.
Qed.

Lemma demo_arg_ok u : GPU_PAGE_SIZE * n_pages (arg_map u) < 2 ^ 64 → 0 ≤ nr_pairs (arg_add u) →
  length (pairs (arg_add u)) = 32%nat → length (out_pairs (arg_add u)) = 32%nat → arg_ok u.
Proof. intros H1 H2 H3 H4. split; [done|]. split; [done|by rewrite H3|by rewrite H4]. Qed.

Lemma demo_ioctl_reach c arg w :
  reachable w → k_files w !! demo_fd = Some (demo_file w) →
  bool_decide (counters_ok (demo_owner w)) = true → arg_ok arg → reachable (demo_ioctl c arg w).
Proof.
  intros (w0 & Hb & Hr) Hf Hc Ha. exists w0. split; [done|]. eapply rtc_r; [done|].
  apply (step_ioctl w demo_task demo_fd (demo_file w)); [done| |done].
  intros own Ho. apply bool_decide_eq_true in Hc. unfold demo_owner in Hc. by rewrite Ho in Hc.
Qed.

Ltac demo_step := apply demo_ioctl_reach;
  [|vm_compute; reflexivity|vm_compute; reflexivity|apply demo_arg_ok; vm_compute; done].

Lemma demo_open_reach : reachable demo_open.
Proof.
  exists demo_boot. split; [apply demo_boot_ok|]. apply rtc_once. by apply step_open.
Qed.
Lemma demo_group_reach : reachable demo_group.
Proof. demo_step. apply demo_open_reach. Qed.
Lemma demo_sq_reach : reachable demo_sq.
Proof. demo_step. apply demo_group_reach. Qed.
Lemma demo_rings_reach : reachable demo_rings.
Proof. demo_step. apply demo_sq_reach. Qed.
Lemma demo_data_reach : reachable demo_data.
Proof. demo_step. apply demo_rings_reach. Qed.
Lemma demo_queue_reach : reachable demo_queue.
Proof. demo_step. apply demo_data_reach. Qed.

(** ... and therefore well-formed. *)
Lemma demo_wf w : reachable w → wf w.
Proof. apply reachable_wf. Qed.
End history.
