(* ===== verification/Theorems.v ===== *)
(** * Theorems: what the character device guarantees

    The properties of the /dev/ssnvme<N> interface, each a short consequence of
    the specifications of [Map], [MapGpu], [MapIoctl], [GroupIoctl], [Release],
    [InfoIoctl], [AddSpec] and [System], with an instance of its hypotheses
    from the history of [Instances]. *)
From S2P Require Import Prelude.
From S2P Require Import Uapi.
From S2P Require Import Kernel.
From S2P Require Import PeerMemory.
From S2P Require Import QidPool.
From S2P Require Import Map.
From S2P Require Import MapGpu.
From S2P Require Import Ctrl.
From S2P Require Import Qgroup.
From S2P Require Import DevIoctl.
From S2P Require Import AddQueue.
From S2P Require Import Invariant.
From S2P Require Import MapIoctl.
From S2P Require Import GroupInv.
From S2P Require Import GroupIoctl.
From S2P Require Import Release.
From S2P Require Import InfoIoctl.
From S2P Require Import AddSpec.
From S2P Require Import System.
From S2P Require Import Instances.


(** Facts about the states of the history, by evaluation. *)
Ltac demo_eval := vm_compute; reflexivity.

(** ** The whole device *)
Section device.
Context `{E : Env} `{EOk : !EnvOk E} `{P : PeerMemory} `{POk : !PeerMemoryOk P}.
Implicit Types (w : kstate).

(** C1: with at most eight listed controllers, whatever sequence of opens, ioctls, mmaps, closes, forced GPU
    reclaims and device rebinds led to a state, the registries, per-fd lists,
    queue groups, group-id allocator and queue-id pools are consistent with
    each other. *)
Theorem reachable_consistent w : reachable w → wf w.
Proof. apply reachable_wf. Qed.


(** C3: in every reachable state a controller's pool marks a queue id as used
    exactly when a live queue slot of some open file on that controller holds
    it, and no two slots of any open files hold the same id. *)
Theorem qid_exclusive c ct w :
  reachable w → k_ctrls w !! c = Some ct →
  let V := gviews (owners (k_files w)) in
  (∀ q, q ∈ used_qids ct ↔ ∃ fd s, slot_at V c q (fd, s))
  ∧ (∀ q p1 p2, slot_at V c q p1 → slot_at V c q p2 → p1 = p2).
Proof.
  intros H%reachable_wf Hc V. destruct (wf_qids w H c ct Hc) as (_ & Hin & Hinj). split; [|done].
  intros q. rewrite Hin. split; [intros [[fd s] ?]; eauto|intros (fd & s & ?); eauto].
Qed.

(** C4: NVM_ADD_USER_QUEUE either adds exactly the requested queues (fresh
    distinct ids, a submission and a completion ring of the group for each,
    completion queue created before submission queue, the ids appended to the
    group's live queues) or leaves maps, groups, live queues and used ids
    unchanged, having deleted on the controller every queue it had created. *)
Theorem add_user_queue_all_or_nothing fd fl c ct pd req w :
  wf w → k_files w !! fd = Some fl → (∀ own, private_data fl = Some own → own_ctrl own = c) →
  k_ctrls w !! c = Some ct → k_pdevs w !! c_pdev ct = Some pd → add_req_ok req →
  wp (ioctl_add_user_queue fd c req) (add_post fd fl c ct pd req w) w.
Proof. apply ioctl_add_user_queue_ok. Qed.

(** C5: as long as no other open file of the opening task holds a data buffer,
    closing a file returns every queue id of its groups to the pool and the
    group ids to the allocator, removes exactly its own maps (rings and data
    buffers) and the task's legacy maps from the heap, leaves every map of
    every other open file in place, and deletes its live queues on the
    controller before anything else is released.  ([sibling_close_reaps_data]
    shows what happens to the data buffer of another file of the task.) *)
Theorem release_reclaims fd fl own ct pd w :
  wf w → k_files w !! fd = Some fl → private_data fl = Some own →
  k_ctrls w !! own_ctrl own = Some ct → k_pdevs w !! c_pdev ct = Some pd →
  ¬ sibling_data fd own w →
  wp (snvm_dev_release fd) (λ r w', r = Ok tt ∧ wf w' ∧ spares_siblings fd w w'
    ∧ released_fd (legacy (k_heap w) (own_owner own)) fd own ct (bool_decide (is_Some (live_ndev pd))) w w') w.
Proof. apply release_exact. Qed.

(** C6: NVM_DESTROY_QUEUE_GROUP deletes every live queue (SQ before CQ, last
    slot first) before it releases any map of the group, and the group id
    last; afterwards group, maps and queue ids are gone.  Errors change
    nothing. *)
Theorem destroy_group_in_order fd fl c group_id w :
  wf w → k_files w !! fd = Some fl →
  (∀ own, private_data fl = Some own → own_ctrl own = c) →
  wp (ioctl_destroy_group fd c group_id) (λ res w', wf w' ∧
    match res with
    | Ok (ret, out) => ret = 0 ∧ out = OutNone ∧ ∃ own g ct pd,
        private_data fl = Some own ∧ own_groups own = [g] ∧ g_group_id g = group_id
        ∧ k_ctrls w !! c = Some ct ∧ k_pdevs w !! c_pdev ct = Some pd
        ∧ teardown_trace g (bool_decide (is_Some (live_ndev pd))) w w'
        ∧ group_gone fd g c w'
    | Err e => same_core w w' ∧ e ∈ [ENODEV; EFAULT; EINVAL; ENOENT]
    | Fault _ => False
    end) w.
Proof. apply ioctl_destroy_group_ok. Qed.

(** NVM_CREATE_QUEUE_GROUP gives an fd without a group one new empty group
    under an id no group has, and reports it; on every error path, a failed
    copy-out included, nothing has changed. *)
Theorem create_group_fresh fd fl c req w :
  wf w → k_files w !! fd = Some fl →
  (∀ own, private_data fl = Some own → own_ctrl own = c) →
  wp (ioctl_create_group fd c req) (λ res w', wf w' ∧
    match res with
    | Ok (ret, out) => ret = 0 ∧ ∃ own gid,
        private_data fl = Some own ∧ own_groups own = [] ∧ 1 ≤ gid < 2 ^ 31
        ∧ gid ∉ snvm_queue_group_ida w
        ∧ out = OutGroup (mk_nvm_ioctl_queue_group gid 0 NVM_MAX_QUEUES_PER_GROUP (qg_reserved req))
        ∧ same_core ((set_owner fd fl (own <| own_groups := [new_qgroup gid] |>
                                           <| own_nr_groups := 1 |>) w)
                       <| snvm_queue_group_ida ::= ({[gid]} ∪.) |>) w'
    | Err e => same_core w w'
    | Fault _ => False
    end) w.
Proof. apply ioctl_create_group_ok. Qed.

(** C30: NVM_MAP_HOST_MEMORY registers one new mapping of the calling task at
    the end of the host list, the other registries unchanged, and copies out
    exactly its bus addresses, or fails leaving registries, per-fd lists and
    heap as they were. *)
Theorem map_host_all_or_nothing cur fd fl c ct req w :
  wf w → k_files w !! fd = Some fl → file_counters_ok fl → k_ctrls w !! c = Some ct →
  wp (ioctl_map_host cur fd c req) (map_ioctl_post HostList (host_made cur ct (vaddr_start req)) w) w.
Proof. apply ioctl_map_host_ok. Qed.

(** C38: NVM_UNMAP_* removes exactly one mapping, one of the calling task's
    that starts at the address's host or GPU page, from its registry, its
    per-fd list and the heap; with no such mapping it fails with -EINVAL and
    changes nothing. *)
Theorem unmap_exact cur fd fl r addr w :
  wf w → k_files w !! fd = Some fl →
  wp (ioctl_unmap cur fd r addr) (unmap_post cur r addr w) w.
Proof. apply ioctl_unmap_ok. Qed.

(** reclaiming a task's maps from a registry terminates, releases exactly
    the descriptors that the task owns and no group holds, and returns how
    many they were. *)
Theorem purge_by_owner_exact r owner w :
  wf w →
  wp (map_purge_by_owner r owner) (λ res w',
    let vs := victims (k_heap w) owner (reg_get r w) in
    res = Ok (Z.of_nat (length vs)) ∧ same_core (drop_maps vs w) w' ∧ extends quiet w w') w.
Proof. intros H. apply map_purge_ok; [by apply wf_registry|by apply wf_ctrls]. Qed.

(** when the GPU driver reclaims memory behind a mapping, the forced
    release removes exactly that descriptor from registry, per-fd list and
    heap, without touching a queue. *)
Theorem forced_reclaim_exact m md w :
  wf w → k_heap w !! m = Some md → m_release md = release_gpu_memory_fn →
  wp (force_release_gpu_memory m)
    (λ r w', r = Ok tt ∧ wf w' ∧ same_core (drop_map m w) w' ∧ extends quiet w w') w.
Proof.
  intros H Hm Hr. eapply wp_mono; [apply (force_release_core m md); try done|].
  - by eapply wf_heap_release.
  - by apply wf_ctrls.
  - intros r w' (-> & Hs & Ht). split; [done|]. split; [|done]. by eapply wf_core, wf_drop.
Qed.

(** C32: mapping host memory and releasing the mapping again is a round trip:
    registries, per-fd lists and heap are back to what they were, every page
    pinned in between was put back and every DMA mapping undone. *)
Theorem map_unmap_host_roundtrip cur r c ct vaddr n w m w1 :
  wf w → k_ctrls w !! c = Some ct → map_userspace cur r c vaddr n w = (Ok m, w1) →
  wp (unmap_and_release m) (λ res w2,
    res = Ok tt ∧ untouched w w2
    ∧ ∃ tr, k_trace w2 = k_trace w ++ tr ∧ tr ≫= pins = tr ≫= puts
        ∧ tr ≫= dma_maps = tr ≫= dma_unmaps) w1.
Proof.
  intros H Hc. apply (map_unmap_host_ok cur r c ct vaddr n w m w1 Hc); [|by apply wf_fresh].
  by apply wf_unlisted, wf_fresh.
Qed.

(** looking a mapping up by address changes nothing and finds the first
    descriptor of the registry that the calling task owns and that starts at
    the address rounded down to a host or GPU page, so the address lies in
    its first GPU page; it reports none only when there is none. *)
Theorem map_find_first cur r vaddr w :
  wf w →
  wp (map_find cur r vaddr) (λ res w', w' = w ∧
    ((∃ m md l1 l2, res = Ok (Some m) ∧ reg_get r w = l1 ++ m :: l2
        ∧ k_heap w !! m = Some md ∧ hit cur vaddr md
        ∧ m_vaddr md ≤ vaddr < m_vaddr md + GPU_PAGE_SIZE
        ∧ Forall (λ m', ∀ md', k_heap w !! m' = Some md' → ¬ hit cur vaddr md') l1)
     ∨ (res = Ok None
        ∧ Forall (λ m', ∀ md', k_heap w !! m' = Some md' → ¬ hit cur vaddr md') (reg_get r w)))) w.
Proof.
  intros H. apply map_find_ok. destruct (wf_registry r w H) as [_ HF].
  eapply Forall_impl; [exact HF|]. intros m (md & ? & _). eauto.
Qed.

(** resolving the ring addresses of a batch finds, for every pair, a
    submission and a completion ring among the group's maps (matching page
    and kind, never a data buffer), or fails with -ENOENT naming a pair for
    which the group has none. *)
Theorem resolve_rings_complete ms ps w :
  Forall (λ m, is_Some (k_heap w !! m)) ms →
  wp (resolve_pairs ms ps) (λ r w', w' = w ∧
    match r with
    | Ok rings => Forall2 (rings_of w ms) ps rings
    | Err e => e = ENOENT ∧ ∃ p, p ∈ ps ∧ ∀ r, ¬ rings_of w ms p r
    | Fault _ => False
    end) w.
Proof. apply resolve_pairs_ok. Qed.

(** NVM_GET_DEV_INFO gives up waiting for namespace 1 after at most 103
    outside calls, changes nothing, and reports the queue budget of the bound
    device. *)
Theorem get_dev_info_terminates c ct pd w :
  k_ctrls w !! c = Some ct → k_pdevs w !! c_pdev ct = Some pd →
  wp (ioctl_get_dev_info c) (info_post pd w) w.
Proof. apply ioctl_get_dev_info_ok. Qed.

(** a register mapping is refused unless it fits BAR0; when it is made it
    is of BAR0 of the controller behind the file. *)
Theorem mmap_within_bar0 fd fl vs ve w :
  wf w → k_files w !! fd = Some fl →
  wp (svm_mmap_registers fd vs ve) (λ res w', same_core w w' ∧
    match res with
    | Ok ret => ∃ c ct pd, k_inodes w !! f_inode fl = Some (Some c) ∧ k_ctrls w !! c = Some ct
        ∧ k_pdevs w !! c_pdev ct = Some pd ∧ u64 (ve - vs) ≤ pd_bar0_len pd
        ∧ ret = env_iomap (k_tick w) (pd_bar0_start pd) (u64 (ve - vs))
    | Err e => e ∈ [EBADF; EINVAL]
    | Fault _ => False
    end) w.
Proof. apply svm_mmap_ok. Qed.

(** unknown commands are refused with -EINVAL and admin pass-through
    without a live snvme controller with -ENODEV; no branch of the default
    case changes the module's state. *)
Theorem passthrough_guarded fd fl c ct pd cmd w :
  k_files w !! fd = Some fl → k_ctrls w !! c = Some ct → k_pdevs w !! c_pdev ct = Some pd →
  wp (ioctl_default fd c cmd) (λ res w', same_core w w' ∧ k_trace w' = k_trace w ∧
    match res with
    | Ok (ret, out) => out = OutNone ∧ is_Some (live_ndev pd)
        ∧ cmd ∈ [NVME_IOCTL_ADMIN_CMD; NVME_IOCTL_ADMIN64_CMD]
        ∧ ret = env_passthru (k_tick w) cmd (f_mode_write fl)
    | Err e => (e = EINVAL ∧ cmd ∉ [NVME_IOCTL_ADMIN_CMD; NVME_IOCTL_ADMIN64_CMD])
               ∨ (e = ENODEV ∧ live_ndev pd = None)
    | Fault _ => False
    end) w.
Proof. apply ioctl_default_ok. Qed.

(** opening a device node binds the file to the listed controller its
    inode names, with no group and no map; every failure leaves the state
    alone. *)
Theorem open_binds_controller cur inode fd fl w :
  wf w → k_files w !! fd = Some fl → private_data fl = None → f_inode fl = inode →
  wp (snvm_dev_open cur inode fd) (λ res w', wf w' ∧
    match res with
    | Ok _ => ∃ c, c ∈ ctrl_list w ∧ k_inodes w !! inode = Some (Some c)
        ∧ same_core (set_owner fd fl (mk_owner c cur [] 0 [] 0) w) w'
    | Err e => e ∈ [ENODEV; ENOMEM] ∧ same_core w w'
    | Fault _ => False
    end) w.
Proof. apply snvm_dev_open_ok. Qed.
End device.

(** ** GPU memory through the NVIDIA backend *)
Section gpu.
Context `{E : Env} `{EOk : !EnvOk E} `{N : NvidiaP2P} `{NOk : !NvidiaP2POk N}.

End gpu.

(** ** Pure parts of NVM_ADD_USER_QUEUE *)

(** the quadratic duplicate check accepts a batch exactly when all its
    submission rings are different, all its completion rings are different, and
    every pair has two different non-null addresses. *)
Theorem duplicate_check_exact ps : pairs_ok [] ps = true ↔ rings_distinct ps.
Proof. apply (pairs_ok_iff [] ps). by repeat split; constructor. Qed.

(** for a doorbell stride below 8192 the two doorbell offsets reported for
    a queue id do not wrap in 32 bits, lie past the 4 KiB register page, are
    word-aligned and differ from those of every other queue id. *)
Theorem doorbells_disjoint nd q1 q2 :
  1 ≤ db_stride nd < 8192 → 0 ≤ q1 < 2 ^ 16 → 0 ≤ q2 < 2 ^ 16 →
  NVME_REG_DBS ≤ sq_doorbell nd q1 < cq_doorbell nd q1 ∧ cq_doorbell nd q1 < 2 ^ 32
  ∧ sq_doorbell nd q1 `mod` 4 = 0 ∧ cq_doorbell nd q1 `mod` 4 = 0
  ∧ sq_doorbell nd q1 ≠ cq_doorbell nd q2
  ∧ (q1 ≠ q2 → sq_doorbell nd q1 ≠ sq_doorbell nd q2 ∧ cq_doorbell nd q1 ≠ cq_doorbell nd q2).
Proof.
  intros Hs H1 H2. unfold sq_doorbell, cq_doorbell, NVME_REG_DBS.
  set (d := db_stride nd) in *. rewrite !wrap_small by nia.
  replace (4096 + q1 * 2 * d * 4) with ((1024 + q1 * 2 * d) * 4) by lia.
  replace (4096 + (q1 * 2 + 1) * d * 4) with ((1024 + (q1 * 2 + 1) * d) * 4) by lia.
  rewrite !Z.mod_mul by lia.
  assert (Hinj : ∀ a b, a * d = b * d → a = b) by (intros a b; apply Z.mul_reg_r; lia).
  split; [nia|]. split; [nia|]. do 2 (split; [done|]). split.
  - intros Heq. assert (q1 * 2 = q2 * 2 + 1) by (apply Hinj; lia). lia.
  - intros Hne. split; intros Heq; apply Hne.
    + assert (q1 * 2 = q2 * 2) by (apply Hinj; lia). lia.
    + assert (q1 * 2 + 1 = q2 * 2 + 1) by (apply Hinj; lia). lia.
Qed.

Lemma doorbells_disjoint_witness :
  db_stride demo_ndev = 1 ∧ sq_doorbell demo_ndev 4 = 0x1020 ∧ cq_doorbell demo_ndev 4 = 0x1024
  ∧ sq_doorbell demo_ndev 4 ≠ cq_doorbell demo_ndev 5.
Proof.
  split; [done|]. split; [demo_eval|]. split; [demo_eval|].
  apply (doorbells_disjoint demo_ndev 4 5); vm_compute; split; discriminate || reflexivity.
Defined.

(** ** The history as an instance *)
Section device_witnesses.
Existing Instance demo_env.
Existing Instance demo_nvidia.

Lemma reachable_consistent_witness : reachable demo_queue ∧ wf demo_queue.
Proof. split; [apply demo_queue_reach|]. apply (reachable_consistent demo_queue), demo_queue_reach. Defined.


Lemma qid_exclusive_witness :
  ∃ ct, k_ctrls demo_queue !! 0%nat = Some ct ∧ 4 ∈ used_qids ct
  ∧ (∀ q, q ∈ used_qids ct ↔ ∃ fd s, slot_at (gviews (owners (k_files demo_queue))) 0 q (fd, s)).
Proof.
  destruct (k_ctrls demo_queue !! 0%nat) as [ct|] eqn:Hc; [|vm_compute in Hc; discriminate].
  exists ct. split; [done|]. split.
  - assert (Hq : (λ ct, bool_decide (4 ∈ used_qids ct)) <$> k_ctrls demo_queue !! 0%nat = Some true) by demo_eval.
    rewrite Hc in Hq. cbn in Hq. injection Hq. apply bool_decide_eq_true.
  - apply (qid_exclusive 0 ct demo_queue); [apply demo_queue_reach|done].
Defined.

(** Controller 0 and its function, at any point of the history. *)
Definition demo_ct (w : kstate) : ctrl := default demo_ctrl (k_ctrls w !! 0%nat).

Lemma demo_own_ctrl w own :
  own_ctrl (demo_owner w) = 0%nat → private_data (demo_file w) = Some own → own_ctrl own = 0%nat.
Proof. unfold demo_owner. intros H Ho. by rewrite Ho in H. Qed.

Lemma add_user_queue_all_or_nothing_witness :
  ∃ fl, k_files demo_data !! 5%nat = Some fl
  ∧ (ioctl_add_user_queue 5 0 demo_add demo_data).1 = Ok (0, OutAdd (add_response demo_ndev [4] demo_add))
  ∧ wp (ioctl_add_user_queue 5 0 demo_add)
      (add_post 5 fl 0 (demo_ct demo_data) demo_pdev demo_add demo_data) demo_data.
Proof.
  exists (demo_file demo_data). split; [demo_eval|]. split; [demo_eval|].
  apply (add_user_queue_all_or_nothing 5 (demo_file demo_data) 0).
  - apply demo_wf, demo_data_reach.
  - demo_eval.
  - intros own. apply demo_own_ctrl. demo_eval.
  - demo_eval.
  - demo_eval.
  - by split.
Defined.

(** File 5 is the only open one. *)
Lemma demo_queue_alone own : ¬ sibling_data 5 own demo_queue.
Proof.
  intros (fd' & own' & m & md & Hne & Ho & _). apply owners_lookup in Ho as (fl & Hf & _).
  assert (Hd : (map_to_list (k_files demo_queue)).*1 = [5%nat]) by demo_eval.
  apply elem_of_map_to_list in Hf. apply (list_elem_of_fmap_2 fst) in Hf. rewrite Hd in Hf.
  apply list_elem_of_singleton in Hf. exact (Hne Hf).
Qed.

Lemma release_reclaims_witness :
  wp (snvm_dev_release 5) (λ r w', r = Ok tt ∧ wf w' ∧ spares_siblings 5 demo_queue w'
    ∧ released_fd (legacy (k_heap demo_queue) 100) 5 (demo_owner demo_queue) (demo_ct demo_queue) true demo_queue w') demo_queue.
Proof.
  apply (release_reclaims 5 (demo_file demo_queue) (demo_owner demo_queue) _ demo_pdev);
    [apply demo_wf, demo_queue_reach|demo_eval|demo_eval|demo_eval|demo_eval|apply demo_queue_alone].
Defined.

(** Destroying the group deletes queue 4 first. *)
Lemma destroy_group_in_order_witness :
  (ioctl_destroy_group 5 0 1 demo_queue).1 = Ok (0, OutNone)
  ∧ wp (ioctl_destroy_group 5 0 1) (λ res w', wf w' ∧ no_fault res) demo_queue.
Proof.
  split; [demo_eval|].
  eapply wp_mono; [apply (destroy_group_in_order 5 (demo_file demo_queue) 0 1)|].
  - apply demo_wf, demo_queue_reach.
  - demo_eval.
  - intros own. apply demo_own_ctrl. demo_eval.
  - intros [r|e|f] w' [H Hr]; split; done.
Defined.

Lemma create_group_fresh_witness :
  (ioctl_create_group 5 0 no_group demo_open).1
    = Ok (0, OutGroup (mk_nvm_ioctl_queue_group 1 0 32 (replicate 5 0)))
  ∧ wp (ioctl_create_group 5 0 no_group) (λ res w', wf w' ∧ no_fault res) demo_open.
Proof.
  split; [demo_eval|].
  eapply wp_mono; [apply (create_group_fresh 5 (demo_file demo_open) 0 no_group)|].
  - apply demo_wf, demo_open_reach.
  - demo_eval.
  - intros own. apply demo_own_ctrl. demo_eval.
  - intros [r|e|f] w' [H Hr]; split; done.
Defined.

Lemma demo_counters w : bool_decide (counters_ok (demo_owner w)) = true → file_counters_ok (demo_file w).
Proof. intros Hc own Ho. apply bool_decide_eq_true in Hc. unfold demo_owner in Hc. by rewrite Ho in Hc. Qed.

Lemma map_host_all_or_nothing_witness :
  (ioctl_map_host 100 5 0 (demo_ring 0x10000 NVM_MAP_KIND_RING_SQ) demo_group).1
    = Ok (0, OutAddrs [2 ^ 40 + 0x10000; 2 ^ 40 + 0x11000])
  ∧ wp (ioctl_map_host 100 5 0 (demo_ring 0x10000 NVM_MAP_KIND_RING_SQ))
      (map_ioctl_post HostList (host_made 100 (demo_ct demo_group) 0x10000) demo_group) demo_group.
Proof.
  split; [demo_eval|]. apply (map_host_all_or_nothing 100 5 (demo_file demo_group)).
  - apply demo_wf, demo_group_reach.
  - demo_eval.
  - apply demo_counters. demo_eval.
  - demo_eval.
Defined.

Lemma unmap_exact_witness :
  (ioctl_unmap 100 5 HostList 0x10000 demo_rings).1 = Ok (0, OutNone)
  ∧ wp (ioctl_unmap 100 5 HostList 0x10000) (unmap_post 100 HostList 0x10000 demo_rings) demo_rings.
Proof.
  split; [demo_eval|]. apply (unmap_exact 100 5 (demo_file demo_rings));
    [apply demo_wf, demo_rings_reach|demo_eval].
Defined.

(** The data buffer is the only ungrouped map of the task. *)
Lemma purge_by_owner_exact_witness :
  (map_purge_by_owner DeviceList 100 demo_data).1 = Ok 1
  ∧ wp (map_purge_by_owner DeviceList 100) (λ res w',
      let vs := victims (k_heap demo_data) 100 (reg_get DeviceList demo_data) in
      res = Ok (Z.of_nat (length vs)) ∧ same_core (drop_maps vs demo_data) w'
      ∧ extends quiet demo_data w') demo_data.
Proof. split; [demo_eval|]. apply purge_by_owner_exact, demo_wf, demo_data_reach. Defined.

Lemma forced_reclaim_exact_witness :
  ∃ m md, k_heap demo_data !! m = Some md
  ∧ wp (force_release_gpu_memory m)
      (λ r w', r = Ok tt ∧ wf w' ∧ same_core (drop_map m demo_data) w' ∧ extends quiet demo_data w') demo_data.
Proof.
  destruct (k_heap demo_data !! 3%nat) as [md|] eqn:Hm; [|vm_compute in Hm; discriminate].
  assert (Hr : m_release <$> k_heap demo_data !! 3%nat = Some release_gpu_memory_fn) by demo_eval.
  rewrite Hm in Hr. exists 3%nat, md. split; [done|].
  apply (forced_reclaim_exact 3 md); [apply demo_wf, demo_data_reach|done|by injection Hr].
Defined.

Lemma map_unmap_host_roundtrip_witness :
  let w1 := (map_userspace 100 HostList 0 0x40123 3 demo_rings).2 in
  wp (unmap_and_release 3) (λ res w2,
    res = Ok tt ∧ untouched demo_rings w2
    ∧ ∃ tr, k_trace w2 = k_trace demo_rings ++ tr ∧ tr ≫= pins = tr ≫= puts
        ∧ tr ≫= dma_maps = tr ≫= dma_unmaps) w1.
Proof.
  intros w1. apply (map_unmap_host_roundtrip 100 HostList 0 (demo_ct demo_rings) 0x40123 3).
  - apply demo_wf, demo_rings_reach.
  - demo_eval.
  - subst w1. rewrite (surjective_pairing (map_userspace 100 HostList 0 0x40123 3 demo_rings)) at 1.
    f_equal.
Defined.

Lemma map_find_first_witness :
  (map_find 100 HostList 0x20fff demo_rings).1 = Ok (Some 2%nat)
  ∧ wp (map_find 100 HostList 0x20fff) (λ res w', w' = demo_rings) demo_rings.
Proof.
  split; [demo_eval|]. eapply wp_mono; [apply (map_find_first 100 HostList 0x20fff), demo_wf, demo_rings_reach|].
  by intros r w' [-> _].
Defined.

Lemma resolve_rings_complete_witness :
  (resolve_pairs [1; 2]%nat [mk_pair_in 0x10000 0x20000] demo_rings).1 = Ok [(1, 2)%nat]
  ∧ wp (resolve_pairs [1; 2]%nat [mk_pair_in 0x10000 0x20000]) (λ r w', no_fault r) demo_rings.
Proof.
  split; [demo_eval|].
  eapply wp_mono; [apply (resolve_rings_complete [1; 2]%nat [mk_pair_in 0x10000 0x20000])|].
  - repeat constructor; vm_compute; eauto.
  - by intros [r|e|f] w' [_ H].
Defined.

Lemma get_dev_info_terminates_witness :
  (ioctl_get_dev_info 0 demo_open).1 = Ok (0, OutDev (dev_info demo_ndev demo_pdev [115; 110; 118; 109; 101] 9))
  ∧ wp (ioctl_get_dev_info 0) (info_post demo_pdev demo_open) demo_open.
Proof. split; [demo_eval|]. apply (get_dev_info_terminates 0 (demo_ct demo_open)); demo_eval. Defined.

Lemma mmap_within_bar0_witness :
  (svm_mmap_registers 5 0x7000 0xB000 demo_open).1 = Ok 0
  ∧ (svm_mmap_registers 5 0x7000 0xC000 demo_open).1 = Err EINVAL
  ∧ wp (svm_mmap_registers 5 0x7000 0xC000) (λ res w', same_core demo_open w') demo_open.
Proof.
  split; [demo_eval|]. split; [demo_eval|].
  eapply wp_mono; [apply (mmap_within_bar0 5 (demo_file demo_open) 0x7000 0xC000)|].
  - apply demo_wf, demo_open_reach.
  - demo_eval.
  - by intros r w' [H _].
Defined.

Lemma passthrough_guarded_witness :
  (ioctl_default 5 0 0xDEAD demo_open).1 = Err EINVAL
  ∧ wp (ioctl_default 5 0 0xDEAD) (λ res w', same_core demo_open w') demo_open.
Proof.
  split; [demo_eval|].
  eapply wp_mono; [apply (passthrough_guarded 5 (demo_file demo_open) 0 (demo_ct demo_open) demo_pdev 0xDEAD);
    demo_eval|]. by intros r w' [H _].
Defined.

Lemma open_binds_controller_witness :
  (snvm_dev_open 100 7 6 (new_file 6 7 true demo_queue)).1 = Ok tt
  ∧ wp (snvm_dev_open 100 7 6) (λ res w', wf w') (new_file 6 7 true demo_queue).
Proof.
  split; [demo_eval|].
  eapply wp_mono; [apply (open_binds_controller 100 7 6 (mk_file 7 None true))|].
  - apply wf_new_file; [apply demo_wf, demo_queue_reach|demo_eval].
  - demo_eval.
  - done.
  - done.
  - by intros r w' [H _].
Defined.


(** A data buffer is attached to the fd that mapped it, but keeps group id 0:
    closing another fd of the same task releases it, and the fd that owns it
    is left with a counter of one and no buffer. *)
Definition demo_sibling : kstate := (snvm_dev_open 100 7 6 (new_file 6 7 true demo_data)).2.
Example sibling_close_reaps_data :
  (is_Some (k_heap demo_sibling !! 3%nat) ∧ own_data_maps (demo_owner demo_sibling) = [3%nat])
  ∧ let w := (snvm_dev_release 6 demo_sibling).2 in
    k_heap w !! 3%nat = None ∧ own_data_maps (demo_owner w) = [] ∧ own_nr_data_maps (demo_owner w) = 1.
Proof. vm_compute. repeat split; eauto. Qed.
End device_witnesses.
