(* ===== verification/Control.v ===== *)
(** * Control: /dev/snvm_control and module load and unload
    (snvme/snvm_control.c)

    Creating and removing controllers' character devices, binding and
    unbinding PCI functions against whatever udev does in between, the
    singleton control device with its goto-style unwinding, and the module's
    init and exit sequences. *)
From S2P Require Import Prelude.
From S2P Require Import Uapi.
From S2P Require Import Kernel.
From S2P Require Import QidPool.
From S2P Require Import Map.
From S2P Require Import MapGpu.
From S2P Require Import Ctrl.
From S2P Require Import Qgroup.

Definition PCI_CLASS_STORAGE_EXPRESS : Z := 0x010802.

(** PCI_DEVFN(slot, func) *)
Definition PCI_DEVFN (slot func : Z) : Z := Z.lor (Z.shiftl (Z.land slot 31) 3) (Z.land func 7).

(** The conversions of the [int32_t] fields at pci_get_domain_bus_and_slot(int,
    unsigned int, unsigned int). *)
Definition addr_matches (a : pci_device_addr) (pd : pci_dev) : bool :=
  bool_decide (pd_domain pd = domain a) && bool_decide (pd_bus pd = u32 (bus a))
  && bool_decide (pd_devfn pd = PCI_DEVFN (slot a) (func a)).

Section control.
Context `{E : Env} `{P : PeerMemory}.

(** ** Devices *)

(** TO_PCI_DEV: the device at an address, with a reference taken. *)
Definition to_pci_dev (a : pci_device_addr) : K (option pdevid) :=
  ps ← gets k_pdevs;
  match list_find (λ p, addr_matches a p.2 = true) (map_to_list ps) with
  | None => mret None
  | Some (_, (p, _)) => upd_pdev p (λ pd, pd <| pd_refs ::= Z.succ |>);; mret (Some p)
  end.

Definition pci_dev_put (p : pdevid) : K unit := upd_pdev p (λ pd, pd <| pd_refs ::= Z.pred |>).

(** [if (pci_is_enabled(pdev)) pci_disable_device(pdev)] *)
Definition disable_if_enabled (p : pdevid) : K unit :=
  pd ← the_pdev p; when (pd_enabled pd) (upd_pdev p (λ pd, pd <| pd_enabled := false |>)).

Definition device_release_driver (p : pdevid) : K unit :=
  upd_pdev p (λ pd, pd <| pd_driver := None |> <| pd_drvdata := None |>);; log (EvDriverRelease p).

(** Anything may claim an unbound device between two statements. *)
Definition autoprobe (p : pdevid) : K unit :=
  t ← tick;
  pd ← the_pdev p;
  match pd_driver pd, env_bind t p with
  | None, Some (drv, nd) =>
      upd_pdev p (λ pd, pd <| pd_driver := Some drv |> <| pd_drvdata := nd |> <| pd_enabled := true |>)
  | _, _ => mret tt
  end.

(** [pdev->dev.driver], read at this point in time *)
Definition read_driver (p : pdevid) : K (option (option string)) :=
  autoprobe p;; pd ← the_pdev p; mret (pd_driver pd).

(** [dev_drv && dev_drv->name && strcmp(dev_drv->name, PCI_DRIVER_NAME) == 0] *)
Definition is_snvme (drv : option (option string)) : bool :=
  match drv with Some (Some name) => bool_decide (name = PCI_DRIVER_NAME) | _ => false end.

(** What the driver core's walk does with one device: an unbound one that the
    driver matches is probed, and nvme_probe refuses those without a listed
    controller.  The id_table and the rest of nvme_probe are the answer of
    [env_probe]. *)
Definition attach_device (q : pdevid) : K unit :=
  pd ← the_pdev q;
  match pd_driver pd with
  | Some _ => mret tt
  | None =>
      found ← ctrl_find_by_pci_dev q;
      match found with
      | None => mret tt
      | Some _ =>
          t ← tick;
          match env_probe t q with
          | None => mret tt
          | Some nd =>
              upd_pdev q (λ pd, pd <| pd_driver := Some (Some PCI_DRIVER_NAME) |> <| pd_drvdata := nd |>
                                   <| pd_enabled := true |>)
          end
      end
  end.

Fixpoint attach_devices (qs : list pdevid) : K unit :=
  match qs with
  | [] => mret tt
  | q :: qs => attach_device q;; attach_devices qs
  end.

(** The devices of the bus *)
Definition walk_bus : K unit := ps ← gets k_pdevs; attach_devices (map_to_list ps).*1.

(** driver_attach(&snvm_pci_drv->driver) *)
Definition driver_attach : K Z := log EvDriverAttach;; walk_bus;; t ← tick; mret (env_attach t).

(** ** The PCI driver *)

(** Registering the driver also probes the devices that are already there. *)
Definition register_driver : K Z :=
  on_bus ← gets k_on_bus;
  reg ← gets snvm_registered;
  if negb on_bus && negb reg then
    t ← tick;
    let ret := env_register t in
    when (bool_decide (ret = 0))
      (modify (λ w, w <| k_on_bus := true |>);; walk_bus;; modify (λ w, w <| snvm_registered := true |>));;
    mret ret
  else mret 0.

(** ** Bind and unbind *)

(** [for (attempt = 0; attempt < 3; attempt++) ...] with [n] attempts left *)
Fixpoint attach_loop (p : pdevid) (n : nat) : K unit :=
  match n with
  | O => mret tt
  | S n =>
      drv ← read_driver p;
      if is_snvme drv then mret tt
      else
        match drv with
        | None => mret tt
        | Some _ => disable_if_enabled p;; device_release_driver p
        end;;
        ret ← driver_attach;
        if bool_decide (ret ≠ 0) then mret tt else attach_loop p n
  end.

Definition snvm_rebind_driver (a : pci_device_addr) : K Z :=
  pdev ← to_pci_dev a;
  match pdev with
  | None => mret (- ENODEV)
  | Some p =>
      drv ← read_driver p;
      match drv with
      | Some (Some _) => disable_if_enabled p;; device_release_driver p
      | _ => mret tt
      end;;
      err ← register_driver;
      if bool_decide (err ≠ 0) then pci_dev_put p;; mret (- EFAULT) else
      attach_loop p 3;;
      drv ← read_driver p;
      pci_dev_put p;;
      mret (if is_snvme drv then 0 else - EBUSY)
  end.

Definition snvm_unbind_driver (a : pci_device_addr) : K Z :=
  pdev ← to_pci_dev a;
  match pdev with
  | None => mret (- EFAULT)
  | Some p =>
      drv ← read_driver p;
      if is_snvme drv then
        disable_if_enabled p;; device_release_driver p;; pci_dev_put p;; mret 0
      else mret (- EFAULT)
  end.

(** ** Character devices of controllers *)
Definition minor_put (minor : Z) : K unit :=
  modify (λ w, w <| snvm_chrdev_minor_ida ::= (.∖ {[minor]}) |>).

(** [err = f(...); if (err != 0) ...]: the error as a value. *)
Definition errno_of {A} (m : K A) (ok : A → K Z) (err : Z → K Z) : K Z := λ w,
  match m w with
  | (Ok a, w) => ok a w
  | (Err e, w) => err e w
  | (Fault f, w) => (Fault f, w)
  end.

Definition snvm_chrdev_create (p : pdevid) (class : Z) : K Z :=
  pd ← the_pdev p;
  if bool_decide (pd_class pd ≠ class) then mret (-1) else
  t ← tick;
  ids ← gets snvm_chrdev_minor_ida;
  let minor := env_ida t ids 0 in
  if bool_decide (minor < 0) then mret minor else
  modify (λ w, w <| snvm_chrdev_minor_ida ::= ({[minor]} ∪.) |>);;
  errno_of (ctrl_get p minor)
    (λ c, errno_of (ctrl_chrdev_create c) (λ _, mret 0) (λ e, minor_put minor;; mret (- e)))
    (λ e, minor_put minor;; mret (- e)).

(** The address struct on return: zeroed, [domain] holding the minor. *)
Definition snvm_chrdev_helper (a : pci_device_addr) (create : bool) : K (Z * pci_device_addr) :=
  pdev ← to_pci_dev a;
  match pdev with
  | None => mret (- EFAULT, a)
  | Some p =>
      found ← ctrl_find_by_pci_dev p;
      r ← match found with
          | None =>
              if create then
                ret ← snvm_chrdev_create p PCI_CLASS_STORAGE_EXPRESS;
                if bool_decide (ret = 0) then
                  found ← ctrl_find_by_pci_dev p;
                  c ← from_opt NullDeref found;
                  ct ← the_ctrl c;
                  mret (0, mk_pci_device_addr (c_number ct) 0 0 0)
                else mret (ret, a)
              else mret (0, a)
          | Some c =>
              ct ← the_ctrl c;
              if create then mret (0, mk_pci_device_addr (c_number ct) 0 0 0)
              else ctrl_put c;; minor_put (c_number ct);; mret (0, a)
          end;
      pci_dev_put p;;
      mret r
  end.

(** ** The control device's ioctl: its return value and the address struct
    written back *)
Definition snvm_ioctl (cmd : Z) (a : pci_device_addr) : K (Z * option pci_device_addr) :=
  t ← tick;
  if bool_decide (env_copy_from t ≠ 0) then mret (- EFAULT, None) else
  match decode_ctrl_ioctl cmd with
  | Some SNVM_DEVICE_BIND => ret ← snvm_rebind_driver a; mret (ret, None)
  | Some SNVM_DEVICE_UNBIND => ret ← snvm_unbind_driver a; mret (ret, None)
  | Some SNVM_CHRDEV_CREATE =>
      '(ret, a') ← snvm_chrdev_helper a true;
      if bool_decide (ret = 0) then
        left ← copy_to_user; mret (left, Some a')
      else mret (ret, None)
  | Some SNVM_CHRDEV_REMOVE => '(ret, _) ← snvm_chrdev_helper a false; mret (ret, None)
  | None => mret (- ENOTTY, None)
  end.

(** ** Draining lists: [while ((ptr = list_next(&list->head)) != NULL)] *)
Fixpoint clear_map_loop (fuel : nat) (r : registry) (i : Z) : K Z :=
  l ← gets (reg_get r);
  match l with
  | [] => mret i
  | m :: _ =>
      match fuel with
      | O => crash OutOfFuel
      | S fuel => unmap_and_release m;; clear_map_loop fuel r (i + 1)
      end
  end.

Definition clear_map_list (r : registry) : K Z :=
  l ← gets (reg_get r); clear_map_loop (length l) r 0.

Fixpoint clear_ctrl_loop (fuel : nat) (i : Z) : K Z :=
  l ← gets ctrl_list;
  match l with
  | [] => mret i
  | c :: _ =>
      match fuel with
      | O => crash OutOfFuel
      | S fuel => ctrl_put c;; clear_ctrl_loop fuel (i + 1)
      end
  end.

Definition clear_ctrl_list : K Z := l ← gets ctrl_list; clear_ctrl_loop (length l) 0.

(** pci_unregister_driver: every device snvme drives is released. *)
Definition unbind_snvme (pd : pci_dev) : pci_dev :=
  if is_snvme (pd_driver pd) then pd <| pd_driver := None |> <| pd_drvdata := None |> else pd.

Definition snvm_unregister_driver : K unit :=
  modify (λ w, w <| k_on_bus := false |> <| k_pdevs ::= fmap unbind_snvme |>).

Definition clean_driver : K Z :=
  clear_map_list DeviceList;;
  clear_map_list DeviceQueueList;;
  clear_map_list HostList;;
  on_bus ← gets k_on_bus;
  when on_bus snvm_unregister_driver;;
  mret 0.

(** ** /dev/snvm_control *)
Definition upd_control (f : control_dev → control_dev) : K unit := modify (λ w, w <| k_control ::= f |>).

Definition destroy_subsys_class (ret : Z) : K Z := upd_control (λ d, d <| dev_class := false |>);; mret ret.
Definition err_unregister_chrdev (ret : Z) : K Z :=
  upd_control (λ d, d <| chrdev_region := false |>);; destroy_subsys_class ret.
Definition destroy_cdev (ret : Z) : K Z :=
  upd_control (λ d, d <| snvm_cdev := false |>);; err_unregister_chrdev ret.

Definition snvm_cdev_init : K Z :=
  t ← tick;
  let ret := env_class_create t in
  if bool_decide (ret < 0) then mret ret else
  upd_control (λ d, d <| dev_class := true |>);;
  t ← tick;
  let ret := env_chrdev_region t in
  if bool_decide (ret < 0) then destroy_subsys_class ret else
  upd_control (λ d, d <| chrdev_region := true |>);;
  t ← tick;
  let ret := env_cdev_add t in
  if bool_decide (ret < 0) then err_unregister_chrdev ret else
  upd_control (λ d, d <| snvm_cdev := true |>);;
  t ← tick;
  let ret := env_device_create t in
  if bool_decide (ret < 0) then destroy_cdev ret else
  upd_control (λ d, d <| control_node := true |>);;
  mret 0.

Definition snvm_cdev_release : K unit :=
  upd_control (λ d, d <| control_node := false |>);;
  upd_control (λ d, d <| snvm_cdev := false |>);;
  upd_control (λ d, d <| chrdev_region := false |>);;
  upd_control (λ d, d <| dev_class := false |>);;
  modify (λ w, w <| snvm_chrdev_minor_ida := ∅ |>).

(** ** Module load and unload *)
Definition snvm_global_init : K Z :=
  modify (λ w, w <| snvm_registered := false |>);;
  err ← peer_init;
  if bool_decide (err ≠ 0) then mret (- EOPNOTSUPP) else
  map_p2p_service_probe;;
  modify (λ w, w <| ctrl_list := [] |> <| host_list := [] |> <| device_list := [] |>
                 <| device_queue_list := [] |>);;
  snvm_cdev_init.

Definition snvm_global_exit : K unit :=
  clean_driver;;
  map_p2p_service_release;;
  clear_ctrl_list;;
  snvm_cdev_release;;
  peer_exit.
End control.
