(* ===== verification/ControlSpec.v ===== *)
(** * ControlSpec: what the control device and the module entry points do *)
From S2P Require Import Prelude.
From S2P Require Import Uapi.
From S2P Require Import Kernel.
From S2P Require Import QidPool.
From S2P Require Import Map.
From S2P Require Import MapGpu.
From S2P Require Import Ctrl.
From S2P Require Import Qgroup.
From S2P Require Import DevIoctl.
From S2P Require Import AddQueue.
From S2P Require Import Invariant.
From S2P Require Import MapIoctl.
From S2P Require Import GroupInv.
From S2P Require Import GroupIoctl.
From S2P Require Import InfoIoctl.
From S2P Require Import Control.
From stdpp Require Import pretty.
Open Scope Z_scope.

(** ** Binding *)

(** Two views of one PCI function: same place, same references. *)
Definition same_slot (pd pd' : pci_dev) : Prop :=
  pd_domain pd' = pd_domain pd ∧ pd_bus pd' = pd_bus pd ∧ pd_devfn pd' = pd_devfn pd
  ∧ pd_class pd' = pd_class pd ∧ pd_refs pd' = pd_refs pd.

(** [q] was unbound, has a listed controller, and snvme was bound to it. *)
Definition claimed (w : kstate) (q : pdevid) (pd pd' : pci_dev) : Prop :=
  pd_driver pd = None ∧ (∃ c ct, c ∈ ctrl_list w ∧ k_ctrls w !! c = Some ct ∧ c_pdev ct = q)
  ∧ ∃ nd, pd' = pd <| pd_driver := Some (Some PCI_DRIVER_NAME) |> <| pd_drvdata := nd |> <| pd_enabled := true |>.

(** A device [q] the request is not about: as it was or, when the bus is
    walked, claimed. *)
Definition bystander (walk : bool) (w w' : kstate) (q : pdevid) : Prop :=
  k_pdevs w' !! q = k_pdevs w !! q
  ∨ walk = true ∧ ∃ pd pd', k_pdevs w !! q = Some pd ∧ k_pdevs w' !! q = Some pd' ∧ claimed w q pd pd'.

(** [w'] is [w] up to what is bound to device [p], what the walk claims and
    the driver's registration. *)
Definition dev_frame (walk : bool) (p : pdevid) (w w' : kstate) : Prop :=
  (∃ b1 b2, same_core (w <| k_pdevs := k_pdevs w' |> <| k_on_bus := b1 |> <| snvm_registered := b2 |>) w')
  ∧ (∀ q, q ≠ p → bystander walk w w' q)
  ∧ (∀ pd, k_pdevs w !! p = Some pd → ∃ pd', k_pdevs w' !! p = Some pd' ∧ same_slot pd pd').

Lemma dev_frame_ctrls walk p w w' :
  dev_frame walk p w w' → k_ctrls w' = k_ctrls w ∧ ctrl_list w' = ctrl_list w.
Proof.
  intros ((b1 & b2 & H) & _).
  by rewrite <- (same_core_field k_ctrls _ _ (λ _, eq_refl) H), <- (same_core_field ctrl_list _ _ (λ _, eq_refl) H).
Qed.

Lemma bystander_trans walk w1 w2 w3 q :
  k_ctrls w2 = k_ctrls w1 → ctrl_list w2 = ctrl_list w1 →
  bystander walk w1 w2 q → bystander walk w2 w3 q → bystander walk w1 w3 q.
Proof.
  unfold bystander, claimed. intros Ec El [H1|(Hw & pd & pd' & Hq & Hq' & Hd & Hc & nd & ->)] [H2|(Hw' & x & x' & Hx & Hx' & Hd' & Hc' & Hn)].
  - left. by rewrite H2.
  - right. split; [done|]. exists x, x'. rewrite Ec, El in Hc'. rewrite <- H1. by repeat split.
  - right. split; [done|]. eexists _, _. rewrite H2. split; [done|]. split; [done|]. by eauto.
  - simplify_eq.
Qed.

#[export] Instance dev_frame_preorder walk p : PreOrder (dev_frame walk p).
Proof.
  split.
  - intros w. split; [exists (k_on_bus w), (snvm_registered w); by destruct w|].
    split; [by left|]. intros pd Hp. by exists pd.
  - intros w1 w2 w3 F1 F2. destruct (dev_frame_ctrls _ _ _ _ F1) as [Ec El].
    destruct F1 as ((a & b & H1) & Q1 & D1), F2 as ((c & d & H2) & Q2 & D2). split; [|split].
    + exists c, d. etrans; [|exact H2].
      apply (same_core_update (λ w, w <| k_pdevs := k_pdevs w3 |> <| k_on_bus := c |> <| snvm_registered := d |>)) in H1; [|done].
      etrans; [|exact H1]. reflexivity.
    + intros q Hq. by eapply bystander_trans; [..|apply Q1|apply Q2].
    + intros pd Hp. destruct (D1 pd Hp) as (pd1 & Hp1 & (A1 & A2 & A3 & A4 & A5)).
      destruct (D2 pd1 Hp1) as (pd2 & Hp2 & (B1 & B2 & B3 & B4 & B5)). exists pd2. split; [done|].
      repeat split; congruence.
Qed.

(** How many times the trace forced an attach. *)
Definition is_attach (e : event) : bool := match e with EvDriverAttach => true | _ => false end.
Definition attaches (w : kstate) : nat := length (filter (λ e, is_attach e = true) (k_trace w)).

Lemma attaches_log e w :
  attaches (w <| k_trace ::= (.++ [e]) |>) = (attaches w + if is_attach e then 1 else 0)%nat.
Proof.
  unfold attaches. change (k_trace (w <| k_trace ::= (.++ [e]) |>)) with (k_trace w ++ [e]).
  rewrite filter_app, length_app. f_equal. by destruct (is_attach e) eqn:He;
    [rewrite filter_cons_True|rewrite filter_cons_False by congruence].
Qed.

(** A step that does not attach. *)
Ltac no_attach := rewrite ?Nat.add_0_r; reflexivity.

Section bind.
Context `{E : Env} `{P : PeerMemory}.
Implicit Types (w : kstate).

(** A step of the bind sequence: it returns, touches only [p], and attaches
    at most [n] times. *)
Definition bind_step {A} (b : bool) (p : pdevid) (n : nat) (w : kstate) (Q : A → kstate → Prop)
    (r : outcome A) (w' : kstate) : Prop :=
  ∃ a, r = Ok a ∧ dev_frame b p w w' ∧ (attaches w' ≤ attaches w + n)%nat ∧ Q a w'.

Lemma bind_step_trans {A} b p n1 n2 w w1 (Q Q' : A → kstate → Prop) r w2 :
  dev_frame b p w w1 → (attaches w1 ≤ attaches w + n1)%nat → bind_step b p n2 w1 Q r w2 →
  (∀ a, Q a w2 → Q' a w2) → bind_step b p (n1 + n2) w Q' r w2.
Proof. intros F N (a & -> & F2 & N2 & HQ) Hm. exists a. split; [done|]. split; [by etrans|]. split; [lia|auto]. Qed.

Lemma dev_frame_upd b p pd f w :
  k_pdevs w !! p = Some pd → same_slot pd (f pd) →
  dev_frame b p w (w <| k_pdevs ::= insert p (f pd) |>).
Proof.
  intros Hp Hs. split; [exists (k_on_bus w), (snvm_registered w); by destruct w|]. split.
  - intros q Hq. left. by apply lookup_insert_ne.
  - intros pd' Hp'. exists (f pd). assert (pd' = pd) as -> by congruence. split; [apply lookup_insert_eq|done].
Qed.

Lemma wp_upd_pdev p pd f (Q : outcome unit → kstate → Prop) w :
  k_pdevs w !! p = Some pd → Q (Ok tt) (w <| k_pdevs ::= insert p (f pd) |>) → wp (upd_pdev p f) Q w.
Proof. intros Hp HQ. apply wp_bind, (wp_the_pdev p pd); [done|]. exact HQ. Qed.

Lemma dev_frame_dev b p pd w w' :
  k_pdevs w !! p = Some pd → dev_frame b p w w' → ∃ pd', k_pdevs w' !! p = Some pd' ∧ same_slot pd pd'.
Proof. intros Hp (_ & _ & H). by apply H. Qed.

Lemma disable_ok b p pd w :
  k_pdevs w !! p = Some pd → wp (disable_if_enabled p) (bind_step b p 0 w (λ _ _, True)) w.
Proof.
  intros Hp. unfold disable_if_enabled. apply wp_bind, (wp_the_pdev p pd); [done|].
  apply wp_when; intros _.
  - apply (wp_upd_pdev p pd); [done|]. exists tt. split; [done|]. split; [by apply (dev_frame_upd b p pd (λ pd, pd <| pd_enabled := false |>))|].
    split; [no_attach|done].
  - exists tt. split; [done|]. split; [reflexivity|]. split; [no_attach|done].
Qed.

Lemma release_driver_ok b p pd w :
  k_pdevs w !! p = Some pd →
  wp (device_release_driver p) (bind_step b p 0 w (λ _ w', ∃ pd', k_pdevs w' !! p = Some pd' ∧ pd_driver pd' = None)) w.
Proof.
  intros Hp. unfold device_release_driver. apply wp_bind, (wp_upd_pdev p pd); [done|]. apply wp_log.
  exists tt. split; [done|]. split; [|split].
  - apply (dev_frame_upd b p pd (λ pd, pd <| pd_driver := None |> <| pd_drvdata := None |>) w); done.
  - rewrite attaches_log. no_attach.
  - eexists. split; [apply lookup_insert_eq|done].
Qed.

Lemma read_driver_ok b p pd w :
  k_pdevs w !! p = Some pd →
  wp (read_driver p) (bind_step b p 0 w (λ drv w', ∃ pd', k_pdevs w' !! p = Some pd' ∧ pd_driver pd' = drv
    ∧ (pd_driver pd ≠ None → drv = pd_driver pd))) w.
Proof.
  intros Hp. unfold read_driver, autoprobe. apply wp_bind, wp_bind, wp_tick.
  set (w0 := w <| k_tick := S (k_tick w) |>). apply wp_bind, (wp_the_pdev p pd); [done|].
  assert (F0 : dev_frame b p w w0).
  { split; [exists (k_on_bus w), (snvm_registered w); by destruct w|]. split; [by left|]. intros pd' Hp'. by exists pd'. }
  assert (Hid : wp (pd0 ← the_pdev p; mret (pd_driver pd0)) (bind_step b p 0 w (λ drv w', ∃ pd',
    k_pdevs w' !! p = Some pd' ∧ pd_driver pd' = drv ∧ (pd_driver pd ≠ None → drv = pd_driver pd))) w0).
  { apply wp_bind, (wp_the_pdev p pd); [done|]. apply wp_ret. exists (pd_driver pd). split; [done|].
    split; [done|]. split; [no_attach|]. by exists pd. }
  destruct (pd_driver pd) as [drv|] eqn:Hd; [by apply wp_ret|].
  destruct (env_bind (k_tick w) p) as [[drv nd]|]; [|by apply wp_ret].
  apply (wp_upd_pdev p pd); [done|]. set (f := λ pd, pd <| pd_driver := Some drv |> <| pd_drvdata := nd |> <| pd_enabled := true |>).
  apply wp_bind, (wp_the_pdev p (f pd)); [apply lookup_insert_eq|]. apply wp_ret. exists (Some drv).
  split; [done|]. split; [etrans; [exact F0|by apply (dev_frame_upd b p pd f)]|].
  split; [no_attach|]. exists (f pd). split; [apply lookup_insert_eq|]. done.
Qed.

(** ** Walking the bus *)
Lemma frame_some walk p q w w' : dev_frame walk p w w' → is_Some (k_pdevs w !! q) → is_Some (k_pdevs w' !! q).
Proof.
  intros (_ & Q & D) [pd Hq]. destruct (decide (q = p)) as [->|Hne].
  - destruct (D pd Hq) as (pd' & -> & _). eauto.
  - destruct (Q q Hne) as [->|(_ & x & x' & _ & -> & _)]; eauto.
Qed.

(** Every listed controller is there. *)
Definition listed_alive (w : kstate) : Prop := Forall (λ c, is_Some (k_ctrls w !! c)) (ctrl_list w).

Lemma listed_alive_frame walk p w w' : dev_frame walk p w w' → listed_alive w → listed_alive w'.
Proof. intros [E1 E2]%dev_frame_ctrls. unfold listed_alive. by rewrite E1, E2. Qed.

Lemma quiet_step b p w w' :
  same_core w w' → attaches w' = attaches w → bind_step b p 0 w (λ _ _, True) (Ok tt) w'.
Proof.
  intros Hc Ha. exists tt. split; [done|]. split; [|split; [lia|done]].
  pose proof (same_core_field k_pdevs w w' (λ _, eq_refl) Hc) as Hp.
  split; [exists (k_on_bus w), (snvm_registered w); rewrite <- Hp; by destruct w|].
  split; [intros q _; left; by rewrite Hp|]. intros pd Hpd. exists pd. by rewrite <- Hp.
Qed.

Lemma attach_device_ok p q w :
  listed_alive w → is_Some (k_pdevs w !! q) → wp (attach_device q) (bind_step true p 0 w (λ _ _, True)) w.
Proof.
  intros Ha [pd Hq]. unfold attach_device. apply wp_bind, (wp_the_pdev q pd); [done|].
  destruct (pd_driver pd) eqn:Hd; [by apply wp_ret, quiet_step|].
  apply wp_bind. eapply wp_mono; [by apply find_by_pci_dev_ok|].
  intros [[c|]|e|f] w' [-> Hr]; [|by apply wp_ret, quiet_step|done..]. destruct Hr as (Hin & ct & Hc & Hcp).
  apply wp_bind, wp_tick. set (w0 := w <| k_tick := _ |>). destruct (env_probe _ q) as [nd|]; [|by apply wp_ret, quiet_step].
  apply (wp_upd_pdev q pd); [done|]. exists tt. split; [done|]. split; [|split; [no_attach|done]].
  destruct (quiet_step true p w w0) as (_ & _ & F0 & _); [done..|]. etrans; [exact F0|].
  set (f := λ pd, pd <| pd_driver := Some (Some PCI_DRIVER_NAME) |> <| pd_drvdata := nd |> <| pd_enabled := true |>).
  destruct (decide (q = p)) as [->|Hne]; [by apply (dev_frame_upd true p pd f)|].
  split; [exists (k_on_bus w), (snvm_registered w); by destruct w|]. split.
  - intros q' Hq'. destruct (decide (q' = q)) as [->|Hn]; [|left; by apply lookup_insert_ne].
    right. split; [done|]. exists pd, (f pd). split; [done|]. split; [apply lookup_insert_eq|].
    split; [done|]. split; [by exists c, ct|]. by exists nd.
  - intros pd' Hp'. exists pd'. split; [|done]. cbn. by rewrite lookup_insert_ne.
Qed.

Lemma attach_devices_ok p qs w :
  listed_alive w → Forall (λ q, is_Some (k_pdevs w !! q)) qs →
  wp (attach_devices qs) (bind_step true p 0 w (λ _ _, True)) w.
Proof.
  revert w. induction qs as [|q qs IH]; intros w Ha HF; cbn [attach_devices]; [by apply wp_ret, quiet_step|].
  apply Forall_cons in HF as [Hq HF].
  apply wp_bind. eapply wp_mono; [by apply (attach_device_ok p)|]. intros r w1 ([] & -> & F1 & N1 & _).
  eapply wp_mono; [apply IH|].
  - by apply (listed_alive_frame true p w).
  - eapply Forall_impl; [exact HF|]. intros x. by apply (frame_some true p).
  - intros r w2 H2. by apply (bind_step_trans true p 0 0 w w1 _ _ _ _ F1 N1 H2).
Qed.

Lemma walk_bus_ok p w : listed_alive w → wp walk_bus (bind_step true p 0 w (λ _ _, True)) w.
Proof.
  intros Ha. apply wp_bind, wp_gets, attach_devices_ok; [done|]. apply Forall_forall.
  intros q ([q' pd] & -> & Hin)%list_elem_of_fmap. apply elem_of_map_to_list in Hin. by exists pd.
Qed.

Lemma attach_ok p w : listed_alive w → wp driver_attach (bind_step true p 1 w (λ _ _, True)) w.
Proof.
  intros Ha. unfold driver_attach. apply wp_bind, wp_log. set (w0 := w <| k_trace ::= _ |>).
  assert (F0 : dev_frame true p w w0).
  { split; [exists (k_on_bus w), (snvm_registered w); by destruct w|]. split; [by left|]. intros pd Hp. by exists pd. }
  apply wp_bind. eapply wp_mono; [by apply (walk_bus_ok p w0), (listed_alive_frame true p w)|].
  intros r w1 ([] & -> & F1 & N1 & _). apply wp_bind, wp_tick, wp_ret. eexists. split; [done|]. split; [|split; [|done]].
  - etrans; [exact F0|]. etrans; [exact F1|]. by destruct (quiet_step true p w1 (w1 <| k_tick := S (k_tick w1) |>)) as (_ & _ & F & _).
  - etrans; [exact N1|]. unfold w0. rewrite attaches_log, Nat.add_0_r. reflexivity.
Qed.

(** The bus refuses the driver with this error. *)
Definition register_fails (err : Z) : Prop := ∃ t, env_register t = err.

Lemma register_ok p w : listed_alive w → wp register_driver (bind_step true p 0 w (λ err _, err ≠ 0 → register_fails err)) w.
Proof.
  intros Ha. unfold register_driver. apply wp_bind, wp_gets, wp_bind, wp_gets.
  assert (Hid : ∀ (ret : Z) w', same_core w w' → attaches w' = attaches w → (ret ≠ 0 → register_fails ret) →
    wp (mret ret) (bind_step true p 0 w (λ err _, err ≠ 0 → register_fails err)) w').
  { intros ret w' Hc Hn Hf. destruct (quiet_step true p w w' Hc Hn) as (_ & _ & F & N & _). apply wp_ret. by eexists. }
  destruct (negb _ && negb _); [|by apply Hid].
  apply wp_bind, wp_tick. set (w0 := w <| k_tick := _ |>). apply wp_bind, wp_when; intros Hret; [|apply Hid; [done|done|by exists (k_tick w)]].
  apply wp_bind, wp_modify. set (w1 := w0 <| k_on_bus := true |>).
  assert (F1 : dev_frame true p w w1).
  { split; [exists true, (snvm_registered w); by destruct w|]. split; [by left|]. intros pd Hp. by exists pd. }
  apply wp_bind. eapply wp_mono; [by apply (walk_bus_ok p w1), (listed_alive_frame true p w)|].
  intros r w2 ([] & -> & F2 & N2 & _). apply wp_modify, wp_ret. eexists. split; [done|]. split; [|split; [|by exists (k_tick w)]].
  - etrans; [exact F1|]. etrans; [exact F2|].
    split; [exists (k_on_bus w2), true; by destruct w2|]. split; [by left|]. intros pd Hp. by exists pd.
  - exact N2.
Qed.

(** The bounded retry loop. *)
Lemma attach_loop_ok p pd n w :
  listed_alive w → k_pdevs w !! p = Some pd → wp (attach_loop p n) (bind_step true p n w (λ _ _, True)) w.
Proof.
  revert pd w. induction n as [|n IH]; intros pd w Ha Hp; cbn [attach_loop].
  { apply wp_ret. exists tt. split; [done|]. split; [reflexivity|]. split; [no_attach|done]. }
  apply wp_bind. eapply wp_mono; [by apply (read_driver_ok true p pd)|].
  intros r w1 (drv & -> & F1 & N1 & pd1 & Hp1 & Hd1 & _). destruct (is_snvme drv).
  { apply wp_ret. exists tt. split; [done|]. split; [done|]. split; [lia|done]. }
  assert (Hrel : wp (match drv with None => mret tt | Some _ => disable_if_enabled p;; device_release_driver p end)
    (bind_step true p 0 w1 (λ _ _, True)) w1).
  { destruct drv as [drv|].
    - apply wp_bind. eapply wp_mono; [by apply (disable_ok true p pd1)|]. intros r wa ([] & -> & Fa & Na & _).
      destruct (dev_frame_dev true p pd1 w1 wa Hp1 Fa) as (pda & Hpa & _).
      eapply wp_mono; [by apply (release_driver_ok true p pda)|].
      intros r wb Hb. by apply (bind_step_trans true p 0 0 w1 wa _ _ _ _ Fa Na Hb).
    - apply wp_ret. exists tt. split; [done|]. split; [reflexivity|]. split; [no_attach|done]. }
  apply wp_bind. eapply wp_mono; [exact Hrel|]. intros r w2 ([] & -> & F2 & N2 & _).
  apply wp_bind. assert (A2 : listed_alive w2) by (apply (listed_alive_frame true p w); [by etrans|done]).
  eapply wp_mono; [by apply (attach_ok p w2)|]. intros r w3 (ret & -> & F3 & N3 & _).
  assert (F : dev_frame true p w w3) by (etrans; [exact F1|]; etrans; [exact F2|exact F3]).
  assert (N : (attaches w3 ≤ attaches w + 1)%nat) by lia. case_bool_decide.
  { apply wp_ret. exists tt. split; [done|]. split; [done|]. split; [lia|done]. }
  destruct (dev_frame_dev true p pd w w3 Hp F) as (pd3 & Hp3 & _).
  eapply wp_mono; [apply (IH pd3); [by apply (listed_alive_frame true p w)|done]|]. intros r w4 H4. by apply (bind_step_trans true p 1 n w w3 _ _ _ _ F N H4).
Qed.

(** ** References *)

Lemma to_pci_dev_ok a w :
  wp (to_pci_dev a) (λ r w', match r with
    | Ok (Some p) => ∃ pd, k_pdevs w !! p = Some pd ∧ addr_matches a pd = true
        ∧ w' = w <| k_pdevs ::= insert p (pd <| pd_refs ::= Z.succ |>) |>
    | Ok None => w' = w ∧ map_Forall (λ _ pd, addr_matches a pd = false) (k_pdevs w)
    | _ => False
    end) w.
Proof.
  unfold to_pci_dev. apply wp_bind, wp_gets. destruct (list_find _ _) as [[i [p pd]]|] eqn:Hf.
  - apply list_find_Some in Hf as (Hi & Ha & _). cbn in Ha.
    assert (Hp : k_pdevs w !! p = Some pd) by (apply elem_of_map_to_list; by eapply list_elem_of_lookup_2).
    apply wp_bind, (wp_upd_pdev p pd); [done|]. apply wp_ret. by exists pd.
  - apply wp_ret. split; [done|]. apply list_find_None in Hf. intros p pd Hp.
    rewrite Forall_forall in Hf. specialize (Hf (p, pd) (proj2 (elem_of_map_to_list _ _ _) Hp)). cbn in Hf.
    by destruct (addr_matches a pd).
Qed.

(** Taking and putting a reference around a sequence of bind steps. *)
Lemma balanced_ref b p pd w w2 pd2 :
  k_pdevs w !! p = Some pd →
  dev_frame b p (w <| k_pdevs ::= insert p (pd <| pd_refs ::= Z.succ |>) |>) w2 →
  k_pdevs w2 !! p = Some pd2 →
  dev_frame b p w (w2 <| k_pdevs ::= insert p (pd2 <| pd_refs ::= Z.pred |>) |>).
Proof.
  intros Hp ((b1 & b2 & H) & Q & D) Hp2. split; [|split].
  - exists b1, b2. set (f := λ x : gmap pdevid pci_dev, <[p := pd2 <| pd_refs ::= Z.pred |>]> x).
    apply (same_core_update (λ w, w <| k_pdevs ::= f |>)) in H; [|done]. etrans; [|exact H]. reflexivity.
  - intros q Hq. destruct (Q q Hq) as [E1|(Hw & x & x' & Hx & Hx' & Hcl)]; cbn in *.
    + left. cbn. rewrite lookup_insert_ne by done. rewrite E1. by apply lookup_insert_ne.
    + right. split; [done|]. exists x, x'. cbn. rewrite !lookup_insert_ne in * by done. done.
  - intros pd' Hp'. assert (pd' = pd) as -> by congruence. eexists. split; [apply lookup_insert_eq|].
    destruct (D _ (lookup_insert_eq _ _ _)) as (pd3 & Hp3 & (A1 & A2 & A3 & A4 & A5)).
    assert (pd3 = pd2) as -> by congruence. cbn in *. repeat split; cbn; try congruence. lia.
Qed.

(** ** SNVM_DEVICE_BIND and SNVM_DEVICE_UNBIND *)

Definition rebind_post (a : pci_device_addr) (w : kstate) (r : outcome Z) (w' : kstate) : Prop :=
  (r = Ok (- ENODEV) ∧ w' = w ∧ map_Forall (λ _ pd, addr_matches a pd = false) (k_pdevs w))
  ∨ ∃ p pd ret pd', r = Ok ret ∧ k_pdevs w !! p = Some pd ∧ addr_matches a pd = true
      ∧ dev_frame true p w w' ∧ (attaches w' ≤ attaches w + 3)%nat ∧ k_pdevs w' !! p = Some pd'
      ∧ ((ret = 0 ∧ is_snvme (pd_driver pd') = true)
         ∨ (ret = - EBUSY ∧ is_snvme (pd_driver pd') = false)
         ∨ (ret = - EFAULT ∧ ∃ err, err ≠ 0 ∧ register_fails err)).

Lemma detach_ok b p pd w :
  k_pdevs w !! p = Some pd →
  wp (drv ← read_driver p;
      match drv with Some (Some _) => disable_if_enabled p;; device_release_driver p | _ => mret tt end)
    (bind_step b p 0 w (λ _ _, True)) w.
Proof.
  intros Hp. apply wp_bind. eapply wp_mono; [by apply (read_driver_ok b p pd)|].
  intros r w1 (drv & -> & F1 & N1 & pd1 & Hp1 & _).
  assert (Hend : bind_step b p 0 w (λ _ _, True) (Ok tt) w1) by (exists tt; split; [done|]; split; [done|]; by split).
  destruct drv as [[name|]|]; [|by apply wp_ret..]. apply wp_bind.
  eapply wp_mono; [by apply (disable_ok b p pd1)|]. intros r w2 ([] & -> & F2 & N2 & _).
  destruct (dev_frame_dev b p pd1 w1 w2 Hp1 F2) as (pd2 & Hp2 & _).
  eapply wp_mono; [by apply (release_driver_ok b p pd2)|]. intros r w3 H3.
  assert (F : dev_frame b p w w2) by (by etrans). assert (N : (attaches w2 ≤ attaches w + 0)%nat) by lia.
  by apply (bind_step_trans b p 0 0 w w2 _ _ _ _ F N H3).
Qed.

Lemma rebind_ok a w : listed_alive w → wp (snvm_rebind_driver a) (rebind_post a w) w.
Proof.
  intros Hal. unfold snvm_rebind_driver. apply wp_bind. eapply wp_mono; [apply to_pci_dev_ok|].
  intros [[p|]|e|f] w1 Hr; [| |done..].
  2: { destruct Hr as [-> Hno]. apply wp_ret. by left. }
  destruct Hr as (pd & Hp & Ha & ->). set (w1 := w <| k_pdevs ::= _ |>).
  assert (Hp1 : k_pdevs w1 !! p = Some (pd <| pd_refs ::= Z.succ |>)) by apply lookup_insert_eq.
  assert (Hput : ∀ ret w2 pd2, dev_frame true p w1 w2 → (attaches w2 ≤ attaches w1 + 3)%nat → k_pdevs w2 !! p = Some pd2 →
    ((ret = 0 ∧ is_snvme (pd_driver pd2) = true) ∨ (ret = - EBUSY ∧ is_snvme (pd_driver pd2) = false)
     ∨ (ret = - EFAULT ∧ ∃ err, err ≠ 0 ∧ register_fails err)) →
    wp (pci_dev_put p;; mret ret) (rebind_post a w) w2).
  { intros ret w2 pd2 F2 N2 Hp2 Hret. apply wp_bind, (wp_upd_pdev p pd2); [done|]. apply wp_ret. right.
    exists p, pd, ret, (pd2 <| pd_refs ::= Z.pred |>). split; [done|]. split; [done|]. split; [done|].
    split; [by apply (balanced_ref true p pd)|]. split; [exact N2|]. split; [apply lookup_insert_eq|exact Hret]. }
  apply wp_bind2. eapply wp_mono; [by apply (detach_ok true p _ w1 Hp1)|].
  intros r w2 ([] & -> & F2 & N2 & _). apply wp_bind.
  eapply wp_mono; [by apply (register_ok p w2), (listed_alive_frame true p w1)|]. intros r w3 (err & -> & F3 & N3 & Herr).
  assert (F13 : dev_frame true p w1 w3) by (by etrans).
  destruct (dev_frame_dev true p _ w1 w3 Hp1 F13) as (pd3 & Hp3 & _).
  case_bool_decide; [apply (Hput (- EFAULT) w3 pd3); [done|lia|done|right; right; split; [done|by eauto]]|].
  apply wp_bind. eapply wp_mono; [apply (attach_loop_ok p pd3); [by apply (listed_alive_frame true p w1)|done]|]. intros r w4 ([] & -> & F4 & N4 & _).
  assert (F14 : dev_frame true p w1 w4) by (by etrans). destruct (dev_frame_dev true p _ w1 w4 Hp1 F14) as (pd4 & Hp4 & _).
  apply wp_bind. eapply wp_mono; [by apply (read_driver_ok true p pd4)|].
  intros r w5 (drv & -> & F5 & N5 & pd5 & Hp5 & Hd5 & _).
  apply (Hput _ w5 pd5); [by etrans|lia|done|]. rewrite Hd5. destruct (is_snvme drv); [by left|by right; left].
Qed.

Definition unbind_post (a : pci_device_addr) (w : kstate) (r : outcome Z) (w' : kstate) : Prop :=
  (r = Ok (- EFAULT) ∧ w' = w ∧ map_Forall (λ _ pd, addr_matches a pd = false) (k_pdevs w))
  ∨ ∃ p pd pd', k_pdevs w !! p = Some pd ∧ addr_matches a pd = true ∧ k_pdevs w' !! p = Some pd' ∧
      ((r = Ok 0 ∧ dev_frame false p w w' ∧ pd_driver pd' = None)
       ∨ (r = Ok (- EFAULT) ∧ pd_refs pd' = pd_refs pd + 1 ∧ is_snvme (pd_driver pd') = false)).

Lemma unbind_ok a w : wp (snvm_unbind_driver a) (unbind_post a w) w.
Proof.
  unfold snvm_unbind_driver. apply wp_bind. eapply wp_mono; [apply to_pci_dev_ok|].
  intros [[p|]|e|f] w1 Hr; [| |done..].
  2: { destruct Hr as [-> Hno]. apply wp_ret. by left. }
  destruct Hr as (pd & Hp & Ha & ->). set (w1 := w <| k_pdevs ::= _ |>).
  assert (Hp1 : k_pdevs w1 !! p = Some (pd <| pd_refs ::= Z.succ |>)) by apply lookup_insert_eq.
  apply wp_bind. eapply wp_mono; [by apply (read_driver_ok false p _ w1 Hp1)|].
  intros r w2 (drv & -> & F2 & N2 & pd2 & Hp2 & Hd2 & _). destruct (is_snvme drv) eqn:Hs.
  2: { apply wp_ret. right. exists p, pd, pd2. do 3 (split; [done|]). right. split; [done|].
       destruct (dev_frame_dev false p _ w1 w2 Hp1 F2) as (pd2' & Hp2' & (_ & _ & _ & _ & Href)).
       assert (pd2' = pd2) as -> by congruence. split; [exact Href|by rewrite Hd2]. }
  apply wp_bind. eapply wp_mono; [by apply (disable_ok false p pd2)|]. intros r w3 ([] & -> & F3 & N3 & _).
  destruct (dev_frame_dev false p pd2 w2 w3 Hp2 F3) as (pd3 & Hp3 & _).
  apply wp_bind. eapply wp_mono; [by apply (release_driver_ok false p pd3)|].
  intros r w4 ([] & -> & F4 & N4 & pd4 & Hp4 & Hd4).
  apply wp_bind, (wp_upd_pdev p pd4); [done|]. apply wp_ret. right.
  exists p, pd, (pd4 <| pd_refs ::= Z.pred |>). split; [done|]. split; [done|]. split; [apply lookup_insert_eq|].
  left. split; [done|]. split; [|done]. apply (balanced_ref false p pd); [done| |done].
  etrans; [exact F2|]. by etrans.
Qed.
End bind.

(** ** Controllers and their character devices *)

(** Listed controllers are alive, have a device node and a minor of their own,
    and one function has at most one of them. *)
Record ctl_ok (w : kstate) : Prop := {
  ctl_nodup : NoDup (ctrl_list w);
  ctl_live : ∀ c, c ∈ ctrl_list w → ∃ ct, k_ctrls w !! c = Some ct
    ∧ c_number ct ∈ snvm_chrdev_minor_ida w ∧ c_chrdev ct = true;
  ctl_minor : ∀ c1 c2 ct1 ct2, c1 ∈ ctrl_list w → c2 ∈ ctrl_list w → k_ctrls w !! c1 = Some ct1 →
    k_ctrls w !! c2 = Some ct2 → c_number ct1 = c_number ct2 → c1 = c2;
  ctl_pdev : ∀ c1 c2 ct1 ct2, c1 ∈ ctrl_list w → c2 ∈ ctrl_list w → k_ctrls w !! c1 = Some ct1 →
    k_ctrls w !! c2 = Some ct2 → c_pdev ct1 = c_pdev ct2 → c1 = c2;
  ctl_fresh : map_Forall (λ c _, (c < k_next w)%nat) (k_ctrls w);
}.

(** [w'] is [w] up to controller [c] and the inodes. *)
Definition cframe (c : cid) (w w' : kstate) : Prop :=
  same_core (w <| k_ctrls := k_ctrls w' |> <| k_inodes := k_inodes w' |>) w'
  ∧ (∀ c', c' ≠ c → k_ctrls w' !! c' = k_ctrls w !! c') ∧ k_trace w' = k_trace w.

#[export] Instance cframe_preorder c : PreOrder (cframe c).
Proof.
  split.
  - intros w. split; [by destruct w|]. done.
  - intros w1 w2 w3 (H1 & Q1 & T1) (H2 & Q2 & T2). split; [|split].
    + etrans; [|exact H2].
      apply (same_core_update (λ w, w <| k_ctrls := k_ctrls w3 |> <| k_inodes := k_inodes w3 |>)) in H1; [|done].
      etrans; [|exact H1]. reflexivity.
    + intros c' Hc. by rewrite Q2, Q1.
    + congruence.
Qed.

Section chrdev.
Context `{E : Env} `{P : PeerMemory}.
Implicit Types (w : kstate).

Lemma cframe_upd c ct w : cframe c w (w <| k_ctrls ::= insert c ct |>).
Proof. split; [by destruct w|]. split; [|done]. intros c' Hc. by apply lookup_insert_ne. Qed.

(** Detaching the inodes that still point at a dying cdev. *)
Lemma detach_inodes_ok c ct ins w :
  k_ctrls w !! c = Some ct →
  wp (for_each (λ i, modify (λ w, w <| k_inodes ::= insert i None |>);;
                     upd_ctrl c (λ ct, ct <| c_inodes ::= without i |>)) ins)
    (λ r w', r = Ok tt ∧ cframe c w w' ∧ is_Some (k_ctrls w' !! c)
      ∧ (∀ i, i ∈ ins → k_inodes w' !! i = Some None)
      ∧ (∀ i, i ∉ ins → k_inodes w' !! i = k_inodes w !! i)) w.
Proof.
  revert ct w. induction ins as [|i ins IH]; intros ct w Hc; cbn [for_each].
  { apply wp_ret. split; [done|]. split; [reflexivity|]. split; [eauto|]. split; [by intros i ?%elem_of_nil|done]. }
  apply wp_bind, wp_bind, wp_modify. apply (wp_upd_ctrl c ct); [done|].
  set (w1 := w <| k_inodes ::= insert i None |> <| k_ctrls ::= _ |>).
  eapply wp_mono; [apply (IH (ct <| c_inodes ::= without i |>) w1); apply lookup_insert_eq|].
  intros r w2 (-> & F & Hs & Hin & Hout). split; [done|]. split; [|split; [done|split]].
  - etrans; [|exact F]. split; [by destruct w|]. split; [|done]. intros c' Hne. by apply lookup_insert_ne.
  - intros j Hj. destruct (decide (j ∈ ins)) as [?|Hn]; [by apply Hin|]. rewrite (Hout j Hn).
    apply elem_of_cons in Hj as [->|?]; [|done]. apply lookup_insert_eq.
  - intros j Hj. apply not_elem_of_cons in Hj as [Hne Hn]. rewrite (Hout j Hn). by apply lookup_insert_ne.
Qed.

(** The last reference to a controller is dropped: no inode can reach it any
    more, and it is gone. *)
Lemma cdev_release_ok c ct w :
  k_ctrls w !! c = Some ct →
  wp (ctrl_cdev_release c) (λ r w', r = Ok tt ∧ cframe c w w' ∧ k_ctrls w' !! c = None
    ∧ (∀ i, i ∈ c_inodes ct → k_inodes w' !! i = Some None)) w.
Proof.
  intros Hc. unfold ctrl_cdev_release. apply wp_bind, (wp_the_ctrl c ct); [done|]. apply wp_bind.
  eapply wp_mono; [by apply (detach_inodes_ok c ct)|]. intros r w1 (-> & F & _ & Hin & _).
  apply wp_modify. split; [done|]. split; [|split; [apply lookup_delete_eq|done]].
  etrans; [exact F|]. split; [by destruct w1|]. split; [|done]. intros c' Hne. by apply lookup_delete_ne.
Qed.

(** What dropping one reference leaves of a controller. *)
Definition put_post (c : cid) (ct : ctrl) (w w' : kstate) : Prop :=
  cframe c w w' ∧
  ((c_kref ct = 1 ∧ k_ctrls w' !! c = None ∧ ∀ i, i ∈ c_inodes ct → k_inodes w' !! i = Some None)
   ∨ (c_kref ct ≠ 1 ∧ k_ctrls w' !! c = Some (ct <| c_kref ::= Z.pred |>))).

Lemma kobject_put_ok c ct w :
  k_ctrls w !! c = Some ct → wp (kobject_put c) (λ r w', r = Ok tt ∧ put_post c ct w w') w.
Proof.
  intros Hc. unfold kobject_put. apply wp_bind, (wp_the_ctrl c ct); [done|]. case_bool_decide as Hk.
  - eapply wp_mono; [by apply (cdev_release_ok c ct)|]. intros r w' (-> & F & Hn & Hi).
    split; [done|]. split; [done|]. by left.
  - apply (wp_upd_ctrl c ct); [done|]. split; [done|]. split; [apply cframe_upd|]. right.
    split; [done|apply lookup_insert_eq].
Qed.

(** [w] without [c] on the controller list. *)
Definition unlist (c : cid) (w : kstate) : kstate := w <| ctrl_list ::= without c |>.

Lemma ctrl_put_ok c ct w :
  k_ctrls w !! c = Some ct → c_chrdev ct = true →
  wp (ctrl_put c) (λ r w', r = Ok tt ∧ put_post c (ct <| c_chrdev := false |>) (unlist c w) w') w.
Proof.
  intros Hc Hd. unfold ctrl_put. apply wp_bind, (wp_the_ctrl c ct); [done|].
  apply wp_bind, wp_modify. unfold ctrl_chrdev_remove. apply wp_bind, (wp_the_ctrl c ct); [done|].
  rewrite Hd. cbn [when]. apply wp_bind, (wp_upd_ctrl c ct); [done|].
  set (ct1 := ct <| c_chrdev := false |>). fold (unlist c w).
  set (w1 := (unlist c w) <| k_ctrls ::= insert c ct1 |>).
  eapply wp_mono; [by apply (kobject_put_ok c ct1 w1), lookup_insert_eq|].
  intros r w' (-> & F & Hcase). split; [done|]. split; [etrans; [apply (cframe_upd c ct1)|exact F]|done].
Qed.

(** Creating the device node: a complete node, or no controller at all. *)
Definition with_node (w : kstate) (ct : ctrl) : ctrl :=
  ct <| c_rdev := MKDEV (k_major w) (c_number ct) |> <| c_kref := 1 |> <| c_inodes := [] |> <| c_chrdev := true |>.

Definition create_post (c : cid) (ct : ctrl) (w : kstate) (r : outcome unit) (w' : kstate) : Prop :=
  match r with
  | Ok _ => cframe c w w' ∧ k_ctrls w' !! c = Some (with_node w ct)
  | Err e => cframe c (unlist c w) w' ∧ k_ctrls w' !! c = None ∧ e ≠ 0
  | Fault _ => False
  end.

(** Both error paths: off the list, then the last reference. *)
Lemma create_undo c ct ct2 w w3 e :
  cframe c w w3 → k_ctrls w3 !! c = Some ct2 → c_kref ct2 = 1 → e ≠ 0 →
  wp (modify (λ w, w <| ctrl_list ::= without c |>);; kobject_put c;; fail (- e)) (create_post c ct w) w3.
Proof.
  intros (F3 & Q3 & T3) Hc3 Hk He. apply wp_bind, wp_modify, wp_bind. fold (unlist c w3).
  eapply wp_mono; [by apply (kobject_put_ok c ct2)|]. intros r w' (-> & F & Hcase). apply wp_fail.
  destruct Hcase as [(_ & Hn & _)|[? _]]; [|done]. split; [|split; [done|lia]]. etrans; [|exact F].
  split; [|by split]. by apply (same_core_update (unlist c)) in F3.
Qed.

Lemma chrdev_create_ok c ct w :
  k_ctrls w !! c = Some ct → c_chrdev ct = false → wp (ctrl_chrdev_create c) (create_post c ct w) w.
Proof.
  intros Hc Hd. unfold ctrl_chrdev_create, cdev_del, ctrl_list_remove, cdev_init.
  apply wp_bind, (wp_the_ctrl c ct); [done|].
  rewrite Hd. apply wp_bind, wp_gets. apply wp_bind, (wp_upd_ctrl c ct); [done|].
  set (ct1 := ct <| c_rdev := _ |>). set (w1 := w <| k_ctrls ::= insert c ct1 |>).
  apply wp_bind, (wp_upd_ctrl c ct1); [apply lookup_insert_eq|].
  set (ct2 := ct1 <| c_kref := 1 |> <| c_inodes := [] |>). set (w2 := w1 <| k_ctrls ::= insert c ct2 |>).
  assert (F2 : cframe c w w2) by (etrans; [apply (cframe_upd c ct1)|apply (cframe_upd c ct2)]).
  apply wp_bind, wp_tick. set (w3 := w2 <| k_tick := S (k_tick w2) |>).
  assert (F3 : cframe c w w3) by (etrans; [exact F2|]; split; [by destruct w2|done]).
  case_bool_decide as H1; [by apply (create_undo c ct ct2); [..|apply lookup_insert_eq| |]|].
  apply wp_bind, wp_tick. set (w4 := w3 <| k_tick := S (k_tick w3) |>).
  assert (F4 : cframe c w w4) by (etrans; [exact F3|]; split; [by destruct w3|done]).
  case_bool_decide as H2; [by apply (create_undo c ct ct2); [..|apply lookup_insert_eq| |]|].
  apply (wp_upd_ctrl c ct2); [apply lookup_insert_eq|]. split; [etrans; [exact F4|apply cframe_upd]|].
  apply lookup_insert_eq.
Qed.

(** ** SNVM_CHRDEV_CREATE and SNVM_CHRDEV_REMOVE *)

Lemma wp_errno_of {A} (m : K A) ok err (Q : outcome Z → kstate → Prop) w :
  wp m (λ r w', match r with Ok a => wp (ok a) Q w' | Err e => wp (err e) Q w' | Fault f => Q (Fault f) w' end) w →
  wp (errno_of m ok err) Q w.
Proof. unfold wp, errno_of. by destruct (m w) as [[a|e|f] w']. Qed.

Lemma ctl_ok_ctrls w : ctl_ok w → Forall (λ c, is_Some (k_ctrls w !! c)) (ctrl_list w).
Proof. intros H. apply Forall_forall. intros c Hc. destruct (ctl_live w H c Hc) as (ct & -> & _). eauto. Qed.

Lemma ctl_ok_unused w : ctl_ok w → k_ctrls w !! k_next w = None.
Proof.
  intros H. destruct (k_ctrls w !! k_next w) as [ct|] eqn:Hc; [|done].
  pose proof (ctl_fresh w H _ _ Hc) as Hlt. cbn in Hlt. lia.
Qed.

(** The controllers, their list and their minors; what a control request is
    about. *)
Definition ctl_view (w : kstate) : gmap cid ctrl * list cid * gset Z :=
  (k_ctrls w, ctrl_list w, snvm_chrdev_minor_ida w).

Lemma ctl_ok_view w w' : ctl_view w' = ctl_view w → (k_next w ≤ k_next w')%nat → ctl_ok w → ctl_ok w'.
Proof.
  unfold ctl_view. intros [= E1 E2 E3] Hn [H1 H2 H3 H4 H5]. split; rewrite ?E1, ?E2, ?E3; [done..|].
  intros c ct Hc. pose proof (H5 c ct Hc). cbn in *. lia.
Qed.

(** A new controller for device [p] under [minor]. *)
Definition fresh_ctrl (p : pdevid) (minor : Z) : ctrl :=
  mk_ctrl p ("ssnvme" +:+ pretty minor) minor 0 false zero_setup None 0 0 0 [].

Lemma ctrl_get_ok p minor w :
  wp (ctrl_get p minor) (λ r w',
    (r = Err ENOMEM ∧ w' = w <| k_tick := S (k_tick w) |>)
    ∨ (r = Ok (k_next w) ∧ w' = w <| k_tick := S (k_tick w) |> <| k_next := S (k_next w) |>
         <| k_ctrls ::= insert (k_next w) (fresh_ctrl p minor) |> <| ctrl_list ::= (.++ [k_next w]) |>)) w.
Proof.
  unfold ctrl_get. apply wp_bind, wp_kalloc. apply wp_bind, wp_guard; intros _; [by left|].
  apply wp_bind, wp_gets, wp_bind, wp_modify, wp_ret. by right.
Qed.

(** Outcome of creating a controller's node: a listed controller with a node
    and a minor of its own, or nothing. *)
Definition node_created (p : pdevid) (w : kstate) (ret : Z) (w' : kstate) : Prop :=
  k_pdevs w' = k_pdevs w ∧ (k_next w ≤ k_next w')%nat ∧
  ((ret ≠ 0 ∧ ctl_view w' = ctl_view w)
   ∨ (ret = 0 ∧ ∃ minor, minor ∉ snvm_chrdev_minor_ida w ∧ (k_next w < k_next w')%nat
        ∧ ctl_view w' = (<[k_next w := with_node w (fresh_ctrl p minor)]> (k_ctrls w),
                         ctrl_list w ++ [k_next w], {[minor]} ∪ snvm_chrdev_minor_ida w))).

(** Undoing the minor of a controller that was not made. *)
Lemma node_undo p w w2 minor e :
  minor ∉ snvm_chrdev_minor_ida w → k_pdevs w2 = k_pdevs w → (k_next w ≤ k_next w2)%nat → e ≠ 0 →
  ctl_view w2 = (k_ctrls w, ctrl_list w, {[minor]} ∪ snvm_chrdev_minor_ida w) →
  wp (minor_put minor;; mret (- e)) (λ r w', ∃ ret, r = Ok ret ∧ node_created p w ret w') w2.
Proof.
  unfold ctl_view. intros Hm Hp Hn He [= E1 E2 E3]. apply wp_bind, wp_modify, wp_ret. exists (- e). split; [done|].
  split; [done|]. split; [done|]. left. split; [lia|]. unfold ctl_view. cbn. rewrite E1, E2, E3. f_equal. set_solver.
Qed.

(** The views of the frames used above. *)
Lemma cframe_view c w w' :
  cframe c w w' → ctrl_list w' = ctrl_list w ∧ snvm_chrdev_minor_ida w' = snvm_chrdev_minor_ida w
    ∧ k_pdevs w' = k_pdevs w ∧ k_next w' = k_next w.
Proof.
  intros (H & _ & _). set (w0 := w <| k_ctrls := _ |> <| k_inodes := _ |>) in H.
  rewrite <- (same_core_field ctrl_list w0 w'), <- (same_core_field snvm_chrdev_minor_ida w0 w'),
    <- (same_core_field k_pdevs w0 w'), <- (same_core_field k_next w0 w'); done.
Qed.

Lemma cframe_insert c w w' ct : cframe c w w' → k_ctrls w' !! c = Some ct → k_ctrls w' = <[c := ct]> (k_ctrls w).
Proof.
  intros (_ & Q & _) Hx. apply map_eq. intros c'. destruct (decide (c' = c)) as [->|Hne].
  - by rewrite lookup_insert_eq.
  - by rewrite lookup_insert_ne, Q by done.
Qed.

Lemma cframe_delete c w w' : cframe c w w' → k_ctrls w' !! c = None → k_ctrls w' = delete c (k_ctrls w).
Proof.
  intros (_ & Q & _) Hx. apply map_eq. intros c'. destruct (decide (c' = c)) as [->|Hne].
  - by rewrite lookup_delete_eq.
  - by rewrite lookup_delete_ne, Q by done.
Qed.

(** From a listed, node-less controller to the end of snvm_chrdev_create. *)
Lemma node_finish p minor w w2 :
  k_ctrls w !! k_next w = None → k_next w ∉ ctrl_list w → minor ∉ snvm_chrdev_minor_ida w →
  k_pdevs w2 = k_pdevs w → k_next w2 = S (k_next w) → k_major w2 = k_major w →
  ctl_view w2 = (<[k_next w := fresh_ctrl p minor]> (k_ctrls w), ctrl_list w ++ [k_next w],
                 {[minor]} ∪ snvm_chrdev_minor_ida w) →
  wp (errno_of (ctrl_chrdev_create (k_next w)) (λ _, mret 0) (λ e, minor_put minor;; mret (- e)))
    (λ r w', ∃ ret, r = Ok ret ∧ node_created p w ret w') w2.
Proof.
  unfold ctl_view. intros Hnone Hnin Hm Hp Hnx Hmaj [= E1 E2 E3]. set (c := k_next w) in *.
  apply wp_errno_of. eapply wp_mono.
  { apply (chrdev_create_ok c (fresh_ctrl p minor)); [by rewrite E1, lookup_insert_eq|done]. }
  intros [[]|e|f] w3 Hr; [| |done].
  - destruct Hr as [F Hc]. apply wp_ret. exists 0. split; [done|].
    destruct (cframe_view c w2 w3 F) as (V1 & V2 & V3 & V4). split; [congruence|]. split; [lia|].
    right. split; [done|]. exists minor. split; [done|]. split; [lia|]. unfold ctl_view.
    rewrite (cframe_insert c w2 w3 _ F Hc), V1, V2, E1, E2, E3, insert_insert_eq.
    unfold with_node. by rewrite Hmaj.
  - destruct Hr as (F & Hc & He). destruct (cframe_view c _ w3 F) as (V1 & V2 & V3 & V4).
    apply node_undo; [done|by rewrite V3|rewrite V4; cbn; lia|done|]. unfold ctl_view.
    rewrite (cframe_delete c _ w3 F Hc), V1, V2. cbn. rewrite E1, E2, E3, delete_insert_id by done.
    by rewrite without_snoc_eq.
Qed.

Lemma snvm_chrdev_create_ok `{EOk : !EnvOk E} p pd class w :
  ctl_ok w → k_pdevs w !! p = Some pd →
  wp (snvm_chrdev_create p class) (λ r w', ∃ ret, r = Ok ret ∧ node_created p w ret w'
    ∧ (ret = 0 → pd_class pd = class)) w.
Proof.
  intros H Hp. unfold snvm_chrdev_create. apply wp_bind, (wp_the_pdev p pd); [done|].
  case_bool_decide as Hcl.
  { apply wp_ret. exists (-1). split; [done|]. split; [|done]. split; [done|]. split; [done|]. by left. }
  assert (pd_class pd = class) as Hclass by (destruct (decide (pd_class pd = class)); [done|by destruct Hcl]). clear Hcl.
  apply wp_bind, wp_tick. set (w1 := w <| k_tick := _ |>). apply wp_bind, wp_gets.
  set (minor := env_ida _ _ 0). case_bool_decide as Hmin.
  { apply wp_ret. exists minor. split; [done|]. split; [|lia]. split; [done|]. split; [done|]. left. split; [lia|done]. }
  destruct (ida_fresh (k_tick w) (snvm_chrdev_minor_ida w) 0) as [_ Hfr]; [apply Z.le_ngt, Hmin|].
  change (minor ∉ snvm_chrdev_minor_ida w) in Hfr. apply wp_bind, wp_modify. apply wp_errno_of.
  pose proof (ctl_ok_unused w H) as Hun.
  assert (Hnin : k_next w ∉ ctrl_list w).
  { intros Hin. destruct (ctl_live w H _ Hin) as (ct & Hct & _). congruence. }
  eapply wp_mono; [apply ctrl_get_ok|]. intros r w2 [[-> ->]|[-> ->]].
  - eapply wp_mono; [by apply (node_undo p w)|]. intros r w3 (ret & -> & Hn). eauto.
  - eapply wp_mono; [by apply (node_finish p minor w)|]. intros r w3 (ret & -> & Hn). eauto.
Qed.

(** A created controller keeps the table consistent. *)
Lemma node_created_ok p w ret w' :
  ctl_ok w → (∀ c ct, c ∈ ctrl_list w → k_ctrls w !! c = Some ct → c_pdev ct ≠ p) →
  node_created p w ret w' → ctl_ok w'.
Proof.
  intros H Hno (_ & Hn & [[_ Hv]|(_ & minor & Hm & Hlt & Hv)]); [by apply (ctl_ok_view w)|].
  pose proof (ctl_ok_unused w H) as Hun. set (c := k_next w) in *. set (ct := with_node w _) in Hv.
  unfold ctl_view in Hv. injection Hv as E1 E2 E3.
  assert (Hold : ∀ c' ct', c' ∈ ctrl_list w' → k_ctrls w' !! c' = Some ct' →
    (c' = c ∧ ct' = ct) ∨ (c' ∈ ctrl_list w ∧ c' ≠ c ∧ k_ctrls w !! c' = Some ct')).
  { rewrite E1, E2. intros c' ct' Hin Hc. destruct (decide (c' = c)) as [->|Hne].
    - left. rewrite lookup_insert_eq in Hc. by injection Hc.
    - right. rewrite lookup_insert_ne in Hc by done. split; [|done].
      apply elem_of_app in Hin as [?| ->%list_elem_of_singleton]; done. }
  assert (Hnum : ∀ c' ct', c' ∈ ctrl_list w → k_ctrls w !! c' = Some ct' → c_number ct' ∈ snvm_chrdev_minor_ida w).
  { intros c' ct' Hin Hc. destruct (ctl_live w H c' Hin) as (x & Hx & Hi & _). by simplify_eq. }
  split.
  - rewrite E2. apply NoDup_app. split; [apply H|]. split; [|by apply NoDup_singleton].
    intros x Hx ->%list_elem_of_singleton. destruct (ctl_live w H c Hx) as (? & ? & _). congruence.
  - rewrite E1, E2, E3. intros c' [Hin| ->%list_elem_of_singleton]%elem_of_app.
    + destruct (ctl_live w H c' Hin) as (x & Hx & Hi & Hd). exists x.
      rewrite lookup_insert_ne by congruence. split; [done|]. split; [set_solver|done].
    + exists ct. rewrite lookup_insert_eq. split; [done|]. split; [set_solver|done].
  - intros c1 c2 ct1 ct2 H1 H2 Hc1 Hc2 Heq.
    destruct (Hold c1 ct1 H1 Hc1) as [[-> ->]|(I1 & N1 & L1)], (Hold c2 ct2 H2 Hc2) as [[-> ->]|(I2 & N2 & L2)].
    + done.
    + destruct Hm. cbn in Heq. rewrite Heq. eauto.
    + destruct Hm. cbn in Heq. rewrite <- Heq. eauto.
    + by apply (ctl_minor w H c1 c2 ct1 ct2).
  - intros c1 c2 ct1 ct2 H1 H2 Hc1 Hc2 Heq.
    destruct (Hold c1 ct1 H1 Hc1) as [[-> ->]|(I1 & N1 & L1)], (Hold c2 ct2 H2 Hc2) as [[-> ->]|(I2 & N2 & L2)].
    + done.
    + destruct (Hno c2 ct2 I2 L2). by rewrite <- Heq.
    + destruct (Hno c1 ct1 I1 L1). by rewrite Heq.
    + by apply (ctl_pdev w H c1 c2 ct1 ct2).
  - rewrite E1. intros c' ct' Hc. destruct (decide (c' = c)) as [->|Hne]; [done|].
    rewrite lookup_insert_ne in Hc by done. pose proof (ctl_fresh w H c' ct' Hc). cbn in *. lia.
Qed.

(** A controller leaves the list: what dropping its base reference does to
    the table, and that the rest stays consistent once its minor is back. *)
Lemma ctl_ok_unlist c ct w w' :
  ctl_ok w → c ∈ ctrl_list w → k_ctrls w !! c = Some ct → k_next w' = k_next w →
  ctrl_list w' = without c (ctrl_list w) →
  snvm_chrdev_minor_ida w' = snvm_chrdev_minor_ida w ∖ {[c_number ct]} →
  (∀ c', c' ≠ c → k_ctrls w' !! c' = k_ctrls w !! c') → ctl_ok w'.
Proof.
  intros H Hin Hct Hn El Ei Hrest. split.
  - rewrite El. apply NoDup_without, H.
  - rewrite El, Ei. intros c' [Hne Hin']%elem_of_without. destruct (ctl_live w H c' Hin') as (x & Hx & Hi & Hd).
    exists x. rewrite Hrest by done. split; [done|]. split; [|done]. apply elem_of_difference. split; [done|].
    intros Heq%elem_of_singleton. apply Hne. by apply (ctl_minor w H c' c x ct).
  - rewrite El. intros c1 c2 ct1 ct2 [N1 H1]%elem_of_without [N2 H2]%elem_of_without.
    rewrite !Hrest by done. by apply (ctl_minor w H).
  - rewrite El. intros c1 c2 ct1 ct2 [N1 H1]%elem_of_without [N2 H2]%elem_of_without.
    rewrite !Hrest by done. by apply (ctl_pdev w H).
  - rewrite Hn. intros c' ct' Hc'. destruct (decide (c' = c)) as [->|Hne].
    + by apply (ctl_fresh w H c ct).
    + rewrite Hrest in Hc' by done. by apply (ctl_fresh w H c' ct').
Qed.

(** The reference taken at the start of a request is put at its end. *)
Lemma put_restores p pd w w2 :
  k_pdevs w !! p = Some pd → k_pdevs w2 = <[p := pd <| pd_refs ::= Z.succ |>]> (k_pdevs w) →
  wp (pci_dev_put p) (λ r w3, r = Ok tt ∧ k_pdevs w3 = k_pdevs w ∧ ctl_view w3 = ctl_view w2
    ∧ k_next w3 = k_next w2) w2.
Proof.
  intros Hp E2. apply (wp_upd_pdev p (pd <| pd_refs ::= Z.succ |>)); [by rewrite E2, lookup_insert_eq|].
  split; [done|]. split; [|done]. cbn. rewrite E2, insert_insert_eq.
  destruct pd. unfold set, set_pd_refs. cbn. rewrite Z.pred_succ. by apply insert_id.
Qed.

Definition create_request_post (a : pci_device_addr) (w : kstate) (ret : Z) (a' : pci_device_addr) (w' : kstate) : Prop :=
  k_pdevs w' = k_pdevs w ∧ ctl_ok w' ∧
  ((ret ≠ 0 ∧ ctl_view w' = ctl_view w)
   ∨ (ret = 0 ∧ ∃ p pd c ct, k_pdevs w !! p = Some pd ∧ addr_matches a pd = true
        ∧ c ∈ ctrl_list w' ∧ k_ctrls w' !! c = Some ct ∧ c_pdev ct = p
        ∧ a' = mk_pci_device_addr (c_number ct) 0 0 0
        ∧ (ctl_view w' = ctl_view w
           ∨ (ctrl_list w' = ctrl_list w ++ [c] ∧ c_number ct ∉ snvm_chrdev_minor_ida w
              ∧ pd_class pd = PCI_CLASS_STORAGE_EXPRESS)))).

Definition remove_request_post (a : pci_device_addr) (w : kstate) (ret : Z) (w' : kstate) : Prop :=
  k_pdevs w' = k_pdevs w ∧ ctl_ok w' ∧
  ((ret = - EFAULT ∧ ctl_view w' = ctl_view w ∧ map_Forall (λ _ pd, addr_matches a pd = false) (k_pdevs w))
   ∨ (ret = 0 ∧ ∃ p pd, k_pdevs w !! p = Some pd ∧ addr_matches a pd = true
        ∧ (∀ c ct, c ∈ ctrl_list w' → k_ctrls w' !! c = Some ct → c_pdev ct ≠ p)
        ∧ (ctl_view w' = ctl_view w
           ∨ ∃ c ct, c ∈ ctrl_list w ∧ k_ctrls w !! c = Some ct ∧ c_pdev ct = p
               ∧ ctrl_list w' = without c (ctrl_list w)
               ∧ snvm_chrdev_minor_ida w' = snvm_chrdev_minor_ida w ∖ {[c_number ct]}))).

Lemma chrdev_request_create `{EOk : !EnvOk E} a w :
  ctl_ok w → wp (snvm_chrdev_helper a true) (λ r w', ∃ ret a', r = Ok (ret, a')
    ∧ create_request_post a w ret a' w') w.
Proof.
  intros H. unfold snvm_chrdev_helper. apply wp_bind. eapply wp_mono; [apply to_pci_dev_ok|].
  intros [[p|]|e|f] w1 Hr; [| |done..].
  2: { destruct Hr as [-> Hno]. apply wp_ret. eexists _, _. split; [done|]. split; [done|]. split; [done|]. by left. }
  destruct Hr as (pd & Hp & Ha & ->). set (w1 := w <| k_pdevs ::= _ |>).
  assert (Hp1 : k_pdevs w1 !! p = Some (pd <| pd_refs ::= Z.succ |>)) by apply lookup_insert_eq.
  assert (H1 : ctl_ok w1) by (by apply (ctl_ok_view w)).
  assert (Hend : ∀ ret a' w2, k_pdevs w2 = k_pdevs w1 → ctl_ok w2 →
    (∀ w3, k_pdevs w3 = k_pdevs w → ctl_ok w3 → ctl_view w3 = ctl_view w2 → create_request_post a w ret a' w3) →
    wp (pci_dev_put p;; mret (ret, a')) (λ r w', ∃ ret a', r = Ok (ret, a') ∧ create_request_post a w ret a' w') w2).
  { intros ret a' w2 E2 H2 HQ. apply wp_bind. eapply wp_mono; [by apply (put_restores p pd w w2)|].
    intros r w3 (-> & E3 & V3 & N3). apply wp_ret. eexists _, _. split; [done|]. apply HQ; [done| |done].
    apply (ctl_ok_view w2); [done|by rewrite N3|done]. }
  apply wp_bind. eapply wp_mono; [apply find_by_pci_dev_ok, (ctl_ok_ctrls w1 H1)|].
  intros [[c|]|e|f] w2 [-> Hr]; [| |done..].
  - destruct Hr as (Hin & ct & Hc & Hcp). apply wp_bind, wp_bind, (wp_the_ctrl c ct); [done|]. apply wp_ret.
    apply Hend; [done|done|]. intros w3 E3 H3 V3. split; [done|]. split; [done|]. right. split; [done|].
    unfold ctl_view in *. injection V3 as V1 V2 V4. exists p, pd, c, ct. rewrite V1, V2. do 6 (split; [done|]).
    left. by rewrite V4.
  - apply wp_bind, wp_bind. eapply wp_mono; [by apply (snvm_chrdev_create_ok p (pd <| pd_refs ::= Z.succ |>))|].
    intros r w3 (ret & -> & Hnc & Hcl). pose proof (node_created_ok p w1 ret w3 H1 Hr Hnc) as H3.
    destruct Hnc as (E3 & Hn & [[Hne Hv]|(-> & minor & Hm & Hlt & Hv)]).
    + rewrite bool_decide_false by done. apply wp_ret. apply Hend; [done|done|]. intros w4 E4 H4 V4.
      split; [done|]. split; [done|]. left. split; [done|]. by rewrite V4, Hv.
    + rewrite bool_decide_true by done. unfold ctl_view in Hv. injection Hv as E1 E2 E4.
      set (c := k_next w1) in *. set (ct := with_node w1 (fresh_ctrl p minor)) in *.
      assert (Hc3 : k_ctrls w3 !! c = Some ct) by (by rewrite E1, lookup_insert_eq).
      assert (Hin3 : c ∈ ctrl_list w3) by (rewrite E2; set_solver).
      apply wp_bind. eapply wp_mono; [apply find_by_pci_dev_ok, (ctl_ok_ctrls w3 H3)|].
      intros [[c'|]|e|f] w4 [-> Hf]; [| |done..].
      2: { exfalso. by apply (Hf c ct Hin3 Hc3). }
      destruct Hf as (Hin' & ct' & Hc' & Hp').
      assert (c' = c) as -> by (by apply (ctl_pdev w3 H3 c' c ct' ct)). assert (ct' = ct) as -> by congruence.
      apply wp_bind, (wp_from_opt _ _ c); [done|]. apply wp_bind, (wp_the_ctrl c ct); [done|]. apply wp_ret.
      apply Hend; [done|done|]. intros w5 E5 H5 V5. unfold ctl_view in V5. injection V5 as V1 V2 V3.
      split; [done|]. split; [done|]. right. split; [done|]. exists p, pd, c, ct. rewrite V1, V2.
      do 6 (split; [done|]). right. split; [done|]. split; [done|]. by apply Hcl.
Qed.

Lemma chrdev_request_remove a w :
  ctl_ok w → wp (snvm_chrdev_helper a false) (λ r w', ∃ ret a', r = Ok (ret, a')
    ∧ remove_request_post a w ret w') w.
Proof.
  intros H. unfold snvm_chrdev_helper. apply wp_bind. eapply wp_mono; [apply to_pci_dev_ok|].
  intros [[p|]|e|f] w1 Hr; [| |done..].
  2: { destruct Hr as [-> Hno]. apply wp_ret. eexists _, _. split; [done|]. split; [done|]. split; [done|]. by left. }
  destruct Hr as (pd & Hp & Ha & ->). set (w1 := w <| k_pdevs ::= _ |>).
  assert (Hp1 : k_pdevs w1 !! p = Some (pd <| pd_refs ::= Z.succ |>)) by apply lookup_insert_eq.
  assert (H1 : ctl_ok w1) by (by apply (ctl_ok_view w)).
  apply wp_bind. eapply wp_mono; [apply find_by_pci_dev_ok, (ctl_ok_ctrls w1 H1)|].
  intros [[c|]|e|f] w2 [-> Hr]; [| |done..].
  - destruct Hr as (Hin & ct & Hc & Hcp). destruct (ctl_live w H c Hin) as (ct' & Hc' & _ & Hd).
    assert (ct' = ct) as -> by (change (k_ctrls w !! c = Some ct) in Hc; congruence).
    apply wp_bind, wp_bind, (wp_the_ctrl c ct); [done|]. apply wp_bind.
    eapply wp_mono; [by apply (ctrl_put_ok c ct w1)|]. intros r w2 (-> & F & _).
    destruct (cframe_view c _ w2 F) as (V1 & V2 & V3 & V4). destruct F as (_ & Hrest & _).
    apply wp_bind, wp_modify, wp_ret. set (w3 := w2 <| snvm_chrdev_minor_ida ::= _ |>).
    apply wp_bind. eapply wp_mono; [by apply (put_restores p pd w w3)|]. intros r w4 (-> & E4 & V & N4).
    apply wp_ret. eexists _, _. split; [done|]. unfold ctl_view in V. injection V as U1 U2 U3.
    assert (L4 : ctrl_list w4 = without c (ctrl_list w)) by (rewrite U2; change (ctrl_list w3) with (ctrl_list w2); by rewrite V1).
    assert (I4 : snvm_chrdev_minor_ida w4 = snvm_chrdev_minor_ida w ∖ {[c_number ct]}).
    { rewrite U3. change (snvm_chrdev_minor_ida w3) with (snvm_chrdev_minor_ida w2 ∖ {[c_number ct]}). by rewrite V2. }
    assert (C4 : ∀ c', c' ≠ c → k_ctrls w4 !! c' = k_ctrls w !! c').
    { intros c' Hne. rewrite U1. by apply (Hrest c' Hne). }
    split; [done|]. split; [by apply (ctl_ok_unlist c ct w w4); [..|rewrite N4; exact V4|done|done|]|].
    right. split; [done|]. exists p, pd. do 2 (split; [done|]). split.
    + rewrite L4. intros c' x [Hne Hin']%elem_of_without Hx Heq. rewrite C4 in Hx by done. apply Hne.
      apply (ctl_pdev w H c' c x ct); try done. by rewrite Heq.
    + right. exists c, ct. by repeat split.
  - apply wp_bind, wp_ret, wp_bind. eapply wp_mono; [by apply (put_restores p pd w w1)|].
    intros r w3 (-> & E3 & V3 & N3). apply wp_ret. eexists _, _. split; [done|]. split; [done|].
    split; [apply (ctl_ok_view w1); [done|by rewrite N3|done]|]. right. split; [done|]. exists p, pd.
    do 2 (split; [done|]). split; [|by left]. unfold ctl_view in V3. injection V3 as U1 U2 U3.
    rewrite U1, U2. exact Hr.
Qed.
End chrdev.
