(* ===== verification/ModuleSpec.v ===== *)
(** * ModuleSpec: loading and unloading the module (snvme/snvm_control.c)

    The draining loops terminate and empty their lists, the control device
    comes up completely or not at all, and unloading leaves no mapping, no
    listed controller and no device bound to the driver. *)
From S2P Require Import Prelude.
From S2P Require Import Uapi.
From S2P Require Import Kernel.
From S2P Require Import PeerMemory.
From S2P Require Import QidPool.
From S2P Require Import Map.
From S2P Require Import MapGpu.
From S2P Require Import Ctrl.
From S2P Require Import Qgroup.
From S2P Require Import DevIoctl.
From S2P Require Import AddQueue.
From S2P Require Import Invariant.
From S2P Require Import MapIoctl.
From S2P Require Import GroupInv.
From S2P Require Import GroupIoctl.
From S2P Require Import Release.
From S2P Require Import InfoIoctl.
From S2P Require Import Control.
From S2P Require Import ControlSpec.

Section drain.
Context `{E : Env} `{P : PeerMemory} `{POk : !PeerMemoryOk P}.
Implicit Types (w : kstate).

(** ** Draining a registry *)
Lemma clear_map_loop_ok fuel r i w :
  registry_ok r w → ctrls_ok w → (length (reg_get r w) ≤ fuel)%nat →
  wp (clear_map_loop fuel r i) (λ res w', res = Ok (i + Z.of_nat (length (reg_get r w)))
    ∧ same_core (drop_maps (reg_get r w) w) w' ∧ extends quiet w w') w.
Proof.
  revert i w. induction fuel as [|fuel IH]; intros i w Hok Hcs Hlen; cbn [clear_map_loop];
    apply wp_bind, wp_gets; (destruct (reg_get r w) as [|m l] eqn:Hl;
      [apply wp_ret; cbn; rewrite Z.add_0_r; split; [done|]; split; [done|by apply extends_same]|]).
  { cbn in Hlen. lia. }
  destruct (Hok) as [Hnd HF]. rewrite Hl in Hnd, HF. apply Forall_cons in HF as [(md & Hm & Hrel) _].
  apply NoDup_cons in Hnd as [Hnin Hnd].
  apply wp_bind. eapply wp_mono; [by apply (unmap_and_release_core m md)|]. intros res w1 (-> & Hs & Ht).
  assert (Hl1 : reg_get r w1 = l).
  { rewrite (reg_get_core r _ _ Hs), reg_get_drop, Hl. by apply without_cons_eq. }
  eapply wp_mono; [apply IH|].
  - by apply (registry_ok_drop r m w).
  - eapply ctrls_ok_core; [exact Hs|]. by apply ctrls_ok_drop.
  - rewrite Hl1. cbn in Hlen. lia.
  - rewrite Hl1. intros res w2 (-> & Hs2 & Ht2). split; [f_equal; cbn [length]; lia|]. split; [|by etrans].
    etrans; [|exact Hs2]. change (drop_maps (m :: l) w) with (drop_maps l (drop_map m w)). by apply drop_maps_core.
Qed.

Lemma clear_map_list_ok r w :
  registry_ok r w → ctrls_ok w →
  wp (clear_map_list r) (λ res w', res = Ok (Z.of_nat (length (reg_get r w)))
    ∧ same_core (drop_maps (reg_get r w) w) w' ∧ extends quiet w w') w.
Proof. intros Hok Hcs. unfold clear_map_list. apply wp_bind, wp_gets. by apply clear_map_loop_ok. Qed.

Lemma drop_maps_field {A} (f : kstate → A) ms w :
  (∀ m w, f (drop_map m w) = f w) → f (drop_maps ms w) = f w.
Proof. intros Hf. revert w. induction ms as [|m ms IH]; intros w; [done|]. etrans; [apply (IH (drop_map m w))|done]. Qed.

(** ... and what it leaves of a well-formed state. *)
Lemma drop_maps_reg_nil ms r w : reg_get r w ⊆ ms → reg_get r (drop_maps ms w) = [].
Proof.
  intros Hsub. assert (H : ∀ ms w, ∀ m, m ∈ reg_get r (drop_maps ms w) → m ∈ reg_get r w ∧ m ∉ ms).
  { clear. induction ms as [|x ms IH]; intros w m Hm; [split; [done|set_solver]|].
    apply IH in Hm as [Hm Hn]. rewrite reg_get_drop, elem_of_without in Hm. set_solver. }
  destruct (reg_get r (drop_maps ms w)) as [|m l] eqn:Hl; [done|].
  destruct (H ms w m) as [Hin Hn]; [rewrite Hl; by left|]. destruct Hn. by apply Hsub.
Qed.

(** The part of the state the mapping code does not touch. *)
Definition outside (w : kstate) : gmap cid ctrl * list cid * gmap pdevid pci_dev * bool :=
  (k_ctrls w, ctrl_list w, k_pdevs w, k_on_bus w).

Lemma clear_map_list_wf r w :
  wf w → wp (clear_map_list r) (λ res w', (∃ n, res = Ok n) ∧ wf w' ∧ reg_get r w' = []
    ∧ (∀ r', reg_get r' w = [] → reg_get r' w' = []) ∧ outside w' = outside w ∧ extends quiet w w') w.
Proof.
  intros H. eapply wp_mono; [by apply clear_map_list_ok; [apply wf_registry|apply wf_ctrls]|].
  intros res w' (-> & Hs & Ht). split; [eauto|]. set (ms := reg_get r w) in *.
  split; [by apply (wf_core (drop_maps ms w)), wf_drop_maps|].
  split; [rewrite (reg_get_core r _ _ Hs); by apply drop_maps_reg_nil|]. split.
  { intros r' Hr'. rewrite (reg_get_core r' _ _ Hs). apply drop_maps_reg_nil. rewrite Hr'. set_solver. }
  split; [|done]. rewrite <- (same_core_field outside _ w' ltac:(done) Hs). by apply (drop_maps_field outside).
Qed.

(** ** Draining the controllers *)

(** Only controllers, their inodes and the list of them may differ. *)
Definition ctl_frame (w w' : kstate) : Prop :=
  same_core (w <| k_ctrls := k_ctrls w' |> <| k_inodes := k_inodes w' |> <| ctrl_list := ctrl_list w' |>) w'.

#[export] Instance ctl_frame_preorder : PreOrder ctl_frame.
Proof.
  split; [by intros []|]. intros w1 w2 w3 H1 H2. unfold ctl_frame in *. etrans; [|exact H2].
  apply (same_core_update (λ w, w <| k_ctrls := k_ctrls w3 |> <| k_inodes := k_inodes w3 |>
    <| ctrl_list := ctrl_list w3 |>)) in H1; [|done]. etrans; [|exact H1]. reflexivity.
Qed.

Lemma clear_ctrl_loop_ok fuel i w :
  NoDup (ctrl_list w) → Forall (λ c, ∃ ct, k_ctrls w !! c = Some ct ∧ c_chrdev ct = true) (ctrl_list w) →
  (length (ctrl_list w) ≤ fuel)%nat →
  wp (clear_ctrl_loop fuel i) (λ res w', res = Ok (i + Z.of_nat (length (ctrl_list w)))
    ∧ ctrl_list w' = [] ∧ ctl_frame w w') w.
Proof.
  revert i w. induction fuel as [|fuel IH]; intros i w Hnd HF Hlen; cbn [clear_ctrl_loop];
    apply wp_bind, wp_gets; (destruct (ctrl_list w) as [|c l] eqn:Hl;
      [apply wp_ret; cbn; rewrite Z.add_0_r; split; [done|]; split; [done|reflexivity]|]).
  { cbn in Hlen. lia. }
  apply NoDup_cons in Hnd as [Hnin Hnd]. apply Forall_cons in HF as [(ct & Hc & Hd) HF].
  apply wp_bind. eapply wp_mono; [by apply (ctrl_put_ok c ct)|]. intros res w1 (-> & F & _).
  destruct (cframe_view c _ w1 F) as (V1 & _). destruct F as (F & Hrest & _).
  assert (Hl1 : ctrl_list w1 = l) by (rewrite V1; cbn; rewrite Hl; by apply without_cons_eq).
  eapply wp_mono; [apply IH; rewrite Hl1|].
  - done.
  - rewrite Forall_forall in HF |- *. intros c' Hin. destruct (HF c' Hin) as (ct' & Hc' & Hd').
    exists ct'. split; [|done]. rewrite Hrest; [done|congruence].
  - cbn in Hlen. lia.
  - rewrite Hl1. intros res w2 (-> & Hn & F2). split; [f_equal; cbn [length]; lia|]. split; [done|].
    etrans; [|exact F2]. unfold ctl_frame. etrans; [|exact F]. rewrite V1. reflexivity.
Qed.

Lemma clear_ctrl_list_ok w :
  NoDup (ctrl_list w) → Forall (λ c, ∃ ct, k_ctrls w !! c = Some ct ∧ c_chrdev ct = true) (ctrl_list w) →
  wp clear_ctrl_list (λ res w', res = Ok (Z.of_nat (length (ctrl_list w)))
    ∧ ctrl_list w' = [] ∧ ctl_frame w w') w.
Proof. intros Hnd HF. unfold clear_ctrl_list. apply wp_bind, wp_gets. by apply clear_ctrl_loop_ok. Qed.
End drain.

(** ** The control device *)
Definition control_down : control_dev := mk_control false false false false.
Definition control_up : control_dev := mk_control true true true true.

Section control_device.
Context `{E : Env}.
Implicit Types (w : kstate).

(** Only the control device differs. *)
Definition control_only (d : control_dev) (w w' : kstate) : Prop := same_core (w <| k_control := d |>) w'.

Definition cdev_init_post (w : kstate) (r : outcome Z) (w' : kstate) : Prop :=
  k_trace w' = k_trace w ∧ k_symrefs w' = k_symrefs w ∧ k_peer w' = k_peer w ∧
  ((r = Ok 0 ∧ control_only control_up w w') ∨ (∃ e, r = Ok e ∧ e < 0 ∧ same_core w w')).

(** Every rung of the unwinding ladder ends with the device down. *)
Lemma cdev_init_undone w t e :
  k_control w = control_down → e < 0 →
  cdev_init_post w (Ok e) (w <| k_tick := t |> <| k_control := control_down |>).
Proof.
  intros Hd He. do 3 (split; [done|]). right. exists e. split; [done|]. split; [done|].
  destruct w. cbn in Hd. by subst.
Qed.

Lemma snvm_cdev_init_ok w : k_control w = control_down → wp snvm_cdev_init (cdev_init_post w) w.
Proof.
  intros Hd. pose proof (cdev_init_undone w) as Hu.
  unfold snvm_cdev_init, destroy_cdev, err_unregister_chrdev, destroy_subsys_class, upd_control.
  apply wp_bind, wp_tick. case_bool_decide as H1.
  { apply wp_ret. specialize (Hu (S (k_tick w)) _ Hd H1). destruct w. cbn in Hd. by subst. }
  apply wp_bind, wp_modify, wp_bind, wp_tick. case_bool_decide as H2.
  { apply wp_bind, wp_modify, wp_ret. specialize (Hu (S (S (k_tick w))) _ Hd H2). destruct w. cbn in Hd. by subst. }
  apply wp_bind, wp_modify, wp_bind, wp_tick. case_bool_decide as H3.
  { do 2 apply wp_bind, wp_modify. apply wp_ret. specialize (Hu (S (S (S (k_tick w)))) _ Hd H3).
    destruct w. cbn in Hd. by subst. }
  apply wp_bind, wp_modify, wp_bind, wp_tick. case_bool_decide as H4.
  { do 3 apply wp_bind, wp_modify. apply wp_ret. specialize (Hu (S (S (S (S (k_tick w))))) _ Hd H4).
    destruct w. cbn in Hd. by subst. }
  apply wp_bind, wp_modify, wp_ret. do 3 (split; [done|]). left. split; [done|]. destruct w. cbn in Hd. by subst.
Qed.

Lemma snvm_cdev_release_ok w :
  wp snvm_cdev_release (λ r w', r = Ok tt
    ∧ w' = w <| k_control := control_down |> <| snvm_chrdev_minor_ida := ∅ |>) w.
Proof.
  unfold snvm_cdev_release, upd_control. do 4 (apply wp_bind, wp_modify). apply wp_modify.
  split; [done|]. by destruct w as [????????????????????? []].
Qed.
End control_device.

(** ** The Phoenix service's symbols *)

(** References the two kept pointers, to symbols [a] and [b], account for. *)
Definition held2 (a b : string) (w : kstate) (s : string) : Z :=
  (if bool_decide (s = a) && phx_register_fn w then 1 else 0)
  + (if bool_decide (s = b) && phx_deregister_fn w then 1 else 0).

Definition balanced2 (a b : string) (w w' : kstate) : Prop :=
  ∀ s, sym_ref w' s - held2 a b w' s = sym_ref w s - held2 a b w s.

Abbreviation phx_balanced := (balanced2 "phxfs_p2p_register" "phxfs_p2p_deregister").

Definition only_phx (w w' : kstate) : Prop :=
  same_core (w <| phx_register_fn := phx_register_fn w' |> <| phx_deregister_fn := phx_deregister_fn w' |>) w'.

#[export] Instance only_phx_preorder : PreOrder only_phx.
Proof.
  split; [by intros []|]. intros w1 w2 w3 H1 H2. unfold only_phx in *. etrans; [|exact H2].
  apply (same_core_update (λ w, w <| phx_register_fn := phx_register_fn w3 |>
    <| phx_deregister_fn := phx_deregister_fn w3 |>)) in H1; [|done]. etrans; [|exact H1]. reflexivity.
Qed.

(** Reading a reference count after an update. *)
Lemma ref_insert (m : gmap string Z) n v s :
  default 0 (<[n := v]> m !! s) = if bool_decide (s = n) then v else default 0 (m !! s).
Proof.
  case_bool_decide as Hs; [by rewrite Hs, lookup_insert_eq|]. by rewrite lookup_insert_ne by congruence.
Qed.

Section phoenix.
Context `{E : Env} (a b : string) (Hab : a ≠ b).
Implicit Types (w : kstate).

(** map_p2p_service_probe and map_p2p_service_release for any two symbols. *)
Definition probe2 : K unit :=
  r ← symbol_get a;
  modify (λ w, w <| phx_register_fn := r |>);;
  d ← symbol_get b;
  modify (λ w, w <| phx_deregister_fn := d |>);;
  if r && d then mret tt
  else
    when r (symbol_put a;; modify (λ w, w <| phx_register_fn := false |>));;
    when d (symbol_put b;; modify (λ w, w <| phx_deregister_fn := false |>)).

Definition release2 : K unit :=
  r ← gets phx_register_fn;
  when r (symbol_put a;; modify (λ w, w <| phx_register_fn := false |>));;
  d ← gets phx_deregister_fn;
  when d (symbol_put b;; modify (λ w, w <| phx_deregister_fn := false |>)).

Ltac ref_cases :=
  intros s; unfold held2, sym_ref; cbn; rewrite ?ref_insert;
  destruct (decide (s = a)) as [->|Na]; [|destruct (decide (s = b)) as [->|Nb]];
  repeat first [rewrite bool_decide_true by reflexivity|rewrite bool_decide_false by congruence]; cbn; lia.

Lemma symbol_get_eq name w :
  symbol_get name w = (Ok (env_symbol (k_tick w) name),
    let w1 := w <| k_tick := S (k_tick w) |> in
    if env_symbol (k_tick w) name
    then w1 <| k_symrefs ::= insert name (default 0 (k_symrefs w !! name) + 1) |> else w1).
Proof.
  unfold symbol_get. rewrite (bind_ok tick _ w (k_tick w) (w <| k_tick := S (k_tick w) |>) eq_refl).
  by destruct (env_symbol (k_tick w) name).
Qed.

(** Neither touches anything but the two pointers and the references. *)
Lemma only_phx_modify f :
  (∀ w, only_phx w (f w)) → frames only_phx (modify f).
Proof. apply frames_modify. Qed.

Lemma only_phx_get name : frames only_phx (symbol_get name).
Proof. intros w. rewrite symbol_get_eq. destruct w. cbn. by destruct (env_symbol _ name). Qed.

Lemma only_phx_put name : frames only_phx (symbol_put name).
Proof. apply only_phx_modify. by intros []. Qed.

Hint Resolve only_phx_get only_phx_put : snvme.

Lemma only_phx_register v : frames only_phx (modify (λ w, w <| phx_register_fn := v |>)).
Proof. apply only_phx_modify. by intros []. Qed.
Lemma only_phx_deregister v : frames only_phx (modify (λ w, w <| phx_deregister_fn := v |>)).
Proof. apply only_phx_modify. by intros []. Qed.

Hint Resolve only_phx_register only_phx_deregister : snvme.

Lemma put_frames (x : bool) (name : string) (m : K unit) :
  frames only_phx m → frames only_phx (when x (symbol_put name;; m)).
Proof. intros Hm. apply frames_when; [apply _|]. apply frames_bind; [apply _|apply only_phx_put|done]. Qed.

Lemma probe2_frames : frames only_phx probe2.
Proof.
  unfold probe2. apply frames_bind; [apply _|apply only_phx_get|intros r].
  apply frames_bind; [apply _|apply only_phx_register|intros _].
  apply frames_bind; [apply _|apply only_phx_get|intros d].
  apply frames_bind; [apply _|apply only_phx_deregister|intros _].
  destruct (r && d); [apply frames_ret, _|].
  apply frames_bind; [apply _| |intros _]; apply put_frames; eauto with snvme.
Qed.

Lemma release2_frames : frames only_phx release2.
Proof.
  unfold release2. apply frames_bind; [apply _|apply frames_gets, _|intros r].
  apply frames_bind; [apply _|apply put_frames; eauto with snvme|intros _].
  apply frames_bind; [apply _|apply frames_gets, _|intros d]. apply put_frames; eauto with snvme.
Qed.

Lemma probe2_ok w :
  phx_register_fn w = false → phx_deregister_fn w = false →
  wp probe2 (λ r w', r = Ok tt ∧ balanced2 a b w w'
    ∧ phx_register_fn w' = phx_deregister_fn w') w.
Proof.
  intros H1 H2. unfold wp, probe2, mbind, M_bind. rewrite symbol_get_eq. cbn. rewrite symbol_get_eq. cbn.
  destruct w as [????????????? refs rf df ??????]; cbn in H1, H2; subst.
  destruct (env_symbol _ a); cbn; destruct (env_symbol _ b); cbn;
    (split; [done|]; split; [ref_cases|done]).
Qed.

Lemma release2_ok w :
  wp release2 (λ r w', r = Ok tt ∧ balanced2 a b w w'
    ∧ phx_register_fn w' = false ∧ phx_deregister_fn w' = false) w.
Proof.
  unfold wp, release2, mbind, M_bind. cbn.
  destruct w as [????????????? refs rf df ??????]; destruct rf, df; cbn;
    (split; [done|]; split; [ref_cases|done]).
Qed.
End phoenix.

(** ** The module's entry and exit *)
Section module.
Context `{E : Env} `{P : PeerMemory} `{POk : !PeerMemoryOk P}.
Implicit Types (w : kstate).

(** Probing and releasing the Phoenix service, with the module's names. *)
Lemma service_probe_ok w :
  phx_register_fn w = false → phx_deregister_fn w = false →
  wp map_p2p_service_probe (λ r w', r = Ok tt ∧ phx_balanced w w' ∧ only_phx w w'
    ∧ phx_register_fn w' = phx_deregister_fn w') w.
Proof.
  intros H1 H2. assert (Hne : "phxfs_p2p_register"%string ≠ "phxfs_p2p_deregister"%string) by discriminate.
  pose proof (probe2_ok _ _ Hne w H1 H2) as (Hr & Hb & He).
  split; [exact Hr|]. split; [exact Hb|]. split; [apply (probe2_frames "phxfs_p2p_register" "phxfs_p2p_deregister")|exact He].
Qed.

Lemma service_release_ok w :
  wp map_p2p_service_release (λ r w', r = Ok tt ∧ phx_balanced w w' ∧ only_phx w w'
    ∧ phx_register_fn w' = false ∧ phx_deregister_fn w' = false) w.
Proof.
  assert (Hne : "phxfs_p2p_register"%string ≠ "phxfs_p2p_deregister"%string) by discriminate.
  pose proof (release2_ok _ _ Hne w) as (Hr & Hb & He).
  split; [exact Hr|]. split; [exact Hb|]. split; [apply (release2_frames "phxfs_p2p_register" "phxfs_p2p_deregister")|exact He].
Qed.

(** No device is left to the driver once it is off the bus. *)
Definition none_bound (w : kstate) : Prop := map_Forall (λ _ pd, is_snvme (pd_driver pd) = false) (k_pdevs w).

Lemma unbind_all_ok w : wp snvm_unregister_driver (λ r w', r = Ok tt ∧ none_bound w'
  ∧ w' = w <| k_on_bus := false |> <| k_pdevs ::= fmap unbind_snvme |>) w.
Proof.
  apply wp_modify. split; [done|]. split; [|done]. intros p pd Hp.
  change ((unbind_snvme <$> k_pdevs w) !! p = Some pd) in Hp.
  apply lookup_fmap_Some in Hp as (pd0 & <- & _). unfold unbind_snvme. by destruct (is_snvme (pd_driver pd0)) eqn:Hs.
Qed.

(** What clean_driver leaves. *)
Definition drained (w w' : kstate) : Prop :=
  registries w' = [] ∧ k_heap w' = ∅ ∧ k_ctrls w' = k_ctrls w ∧ ctrl_list w' = ctrl_list w
  ∧ k_on_bus w' = false ∧ (k_on_bus w = true → none_bound w').

Lemma drained_heap w : wf w → registries w = [] → k_heap w = ∅.
Proof.
  intros H Hr. apply map_eq. intros m. rewrite lookup_empty. destruct (k_heap w !! m) eqn:Hm; [|done].
  destruct (wf_regs w H) as (_ & Hin & _). destruct (Hin m) as [_ Hi]. rewrite Hr in Hi.
  exfalso. by eapply not_elem_of_nil, Hi.
Qed.

Lemma clean_driver_ok w : wf w → wp clean_driver (λ r w', r = Ok 0 ∧ drained w w') w.
Proof.
  intros H. unfold clean_driver.
  apply wp_bind. eapply wp_mono; [by apply (clear_map_list_wf DeviceList)|].
  intros r w1 ((n1 & ->) & W1 & R1 & K1 & O1 & T1).
  apply wp_bind. eapply wp_mono; [by apply (clear_map_list_wf DeviceQueueList)|].
  intros r w2 ((n2 & ->) & W2 & R2 & K2 & O2 & T2).
  apply wp_bind. eapply wp_mono; [by apply (clear_map_list_wf HostList)|].
  intros r w3 ((n3 & ->) & W3 & R3 & K3 & O3 & T3).
  assert (Hreg : registries w3 = []).
  { pose proof (K3 DeviceList (K2 DeviceList R1)) as Q1. pose proof (K3 DeviceQueueList R2) as Q2.
    cbn in *. unfold registries. by rewrite R3, Q1, Q2. }
  pose proof (drained_heap w3 W3 Hreg) as Hheap.
  assert (O : outside w3 = outside w) by congruence. unfold outside in O. injection O as C L D B.
  apply wp_bind, wp_gets, wp_bind, wp_when; intros Hb.
  - eapply wp_mono; [apply unbind_all_ok|]. intros r w4 (-> & Hn & ->). apply wp_ret. by repeat split.
  - apply wp_ret. split; [done|]. repeat split; try done. intros Hw. congruence.
Qed.

(** rmmod: no mapping, no listed controller, no bound device, no control
    device, no minor and no service symbol is left. *)
Definition unloaded (w w' : kstate) : Prop :=
  registries w' = [] ∧ k_heap w' = ∅ ∧ ctrl_list w' = [] ∧ (k_on_bus w = true → none_bound w')
  ∧ k_on_bus w' = false ∧ k_control w' = control_down ∧ snvm_chrdev_minor_ida w' = ∅
  ∧ phx_register_fn w' = false ∧ phx_deregister_fn w' = false.

(** What the later steps of unloading keep. *)
Definition kept (w : kstate) : list mapid * gmap mapid map * gmap pdevid pci_dev * bool :=
  (registries w, k_heap w, k_pdevs w, k_on_bus w).

Lemma only_phx_kept w w' : only_phx w w' → kept w' = kept w ∧ ctrl_list w' = ctrl_list w ∧ k_ctrls w' = k_ctrls w.
Proof.
  intros H. rewrite <- (same_core_field kept _ w' ltac:(done) H), <- (same_core_field ctrl_list _ w' ltac:(done) H),
    <- (same_core_field k_ctrls _ w' ltac:(done) H). done.
Qed.

Lemma ctl_frame_kept w w' : ctl_frame w w' → kept w' = kept w
  ∧ phx_register_fn w' = phx_register_fn w ∧ phx_deregister_fn w' = phx_deregister_fn w.
Proof.
  intros H. rewrite <- (same_core_field kept _ w' ltac:(done) H), <- (same_core_field phx_register_fn _ w' ltac:(done) H),
    <- (same_core_field phx_deregister_fn _ w' ltac:(done) H). done.
Qed.

Lemma snvm_global_exit_ok w :
  wf w → ctl_ok w → wp snvm_global_exit (λ r w', r = Ok tt ∧ unloaded w w') w.
Proof.
  intros H Hctl. unfold snvm_global_exit. apply wp_bind. eapply wp_mono; [by apply clean_driver_ok|].
  intros r w1 (-> & Hreg & Hheap & C1 & L1 & B1 & N1).
  apply wp_bind. eapply wp_mono; [apply service_release_ok|].
  intros r w2 (-> & _ & F2 & Pr & Pd). destruct (only_phx_kept w1 w2 F2) as (K2 & L2 & C2).
  apply wp_bind. eapply wp_mono; [apply clear_ctrl_list_ok|].
  - rewrite L2, L1. apply Hctl.
  - rewrite L2, L1, C2, C1. apply Forall_forall. intros c Hc.
    destruct (ctl_live w Hctl c Hc) as (ct & Hct & _ & Hd). eauto.
  - intros r w3 (-> & L3 & F3). destruct (ctl_frame_kept w2 w3 F3) as (K3 & Pr3 & Pd3).
    apply wp_bind. eapply wp_mono; [apply snvm_cdev_release_ok|]. intros r w4 (-> & E4).
    destruct (peer_exit_ok w4) as ([] & w5 & He & Hs & _). apply (wp_eq _ _ _ _ _ He). split; [done|].
    assert (K : kept w4 = kept w1) by (subst w4; etrans; [exact K3|exact K2]).
    unfold unloaded, none_bound.
    rewrite <- (same_core_field registries _ w5 ltac:(done) Hs), <- (same_core_field k_heap _ w5 ltac:(done) Hs),
      <- (same_core_field ctrl_list _ w5 ltac:(done) Hs), <- (same_core_field k_pdevs _ w5 ltac:(done) Hs),
      <- (same_core_field k_on_bus _ w5 ltac:(done) Hs), <- (same_core_field k_control _ w5 ltac:(done) Hs),
      <- (same_core_field snvm_chrdev_minor_ida _ w5 ltac:(done) Hs),
      <- (same_core_field phx_register_fn _ w5 ltac:(done) Hs), <- (same_core_field phx_deregister_fn _ w5 ltac:(done) Hs).
    unfold kept in K. injection K as Q1 Q2 Q3 Q4. rewrite Q1, Q2, Q3, Q4. subst w4.
    change (ctrl_list w3 = []) in L3. repeat split; try done.
    + change (phx_register_fn w3 = false). congruence.
    + change (phx_deregister_fn w3 = false). congruence.
Qed.
End module.
