(* ===== verification/ControlTheorems.v ===== *)
(** * ControlTheorems: what the control device, the module entry points and the
    GPU backends guarantee

    Consequences of [PeerMemory], [ControlSpec] and [ModuleSpec], with instances
    of their hypotheses. *)
From S2P Require Import Prelude.
From S2P Require Import Uapi.
From S2P Require Import Kernel.
From S2P Require Import PeerMemory.
From S2P Require Import QidPool.
From S2P Require Import Map.
From S2P Require Import MapGpu.
From S2P Require Import Ctrl.
From S2P Require Import Qgroup.
From S2P Require Import DevIoctl.
From S2P Require Import AddQueue.
From S2P Require Import Invariant.
From S2P Require Import MapIoctl.
From S2P Require Import GroupInv.
From S2P Require Import GroupIoctl.
From S2P Require Import Release.
From S2P Require Import InfoIoctl.
From S2P Require Import AddSpec.
From S2P Require Import System.
From S2P Require Import Instances.
From S2P Require Import Control.
From S2P Require Import ControlSpec.
From S2P Require Import ModuleSpec.

Ltac eval_done := vm_compute; reflexivity.

(** ** Binding *)
Section binding.
Context `{E : Env} `{P : PeerMemory}.
Implicit Types (w : kstate).

(** C37: SNVM_DEVICE_BIND, whatever udev and the driver core do to the device
    in between, forces an attach at most three times and puts back the
    reference it took on every path.  The walks over the bus that registering
    the driver and each attach make leave every other device as it was, except
    that an unbound one with a listed controller may be bound to snvme.  The
    request returns 0 exactly when the device ended up bound to snvme, -EBUSY
    when it did not, -EFAULT when the driver could not be registered and
    -ENODEV when no device has the address. *)
Theorem rebind_bounded a w : listed_alive w → wp (snvm_rebind_driver a) (rebind_post a w) w.
Proof. apply rebind_ok. Qed.

(** SNVM_DEVICE_UNBIND releases a device bound to snvme with references
    balanced; when the device is not snvme's it returns -EFAULT and keeps the
    reference it took on the device. *)
Theorem unbind_leaks_on_error a w : wp (snvm_unbind_driver a) (unbind_post a w) w.
Proof. apply unbind_ok. Qed.
End binding.

(** ** Character devices *)
Section chrdevs.
Context `{E : Env} `{EOk : !EnvOk E} `{P : PeerMemory}.
Implicit Types (w : kstate).

(** SNVM_CHRDEV_CREATE returns the minor of the device's controller: the
    one it already has, or a new listed controller with a device node and a
    minor no other controller uses; on every error path controllers, list,
    minors and device references are what they were. *)
Theorem chrdev_create_idempotent a w :
  ctl_ok w → wp (snvm_chrdev_helper a true) (λ r w', ∃ ret a', r = Ok (ret, a')
    ∧ create_request_post a w ret a' w') w.
Proof. apply chrdev_request_create. Qed.

(** SNVM_CHRDEV_REMOVE takes the device's controller off the list and
    returns its minor, leaving every other controller alone; with no
    controller it changes nothing and still returns 0. *)
Theorem chrdev_remove_exact a w :
  ctl_ok w → wp (snvm_chrdev_helper a false) (λ r w', ∃ ret a', r = Ok (ret, a')
    ∧ remove_request_post a w ret w') w.
Proof. apply chrdev_request_remove. Qed.
End chrdevs.

(** ** Load and unload *)
Section module.
Context `{E : Env} `{P : PeerMemory} `{POk : !PeerMemoryOk P}.
Implicit Types (w : kstate).

(** the control device comes up completely (class, minor region, cdev,
    node) or, whichever step fails, not at all. *)
Theorem control_device_all_or_nothing w :
  k_control w = control_down → wp snvm_cdev_init (cdev_init_post w) w.
Proof. apply snvm_cdev_init_ok. Qed.

(** unloading terminates and leaves no mapping, no listed controller, no
    device bound to the driver, no control device, no minor and no symbol of
    the Phoenix service. *)
Theorem unload_drains w :
  wf w → ctl_ok w → wp snvm_global_exit (λ r w', r = Ok tt ∧ unloaded w w') w.
Proof. apply snvm_global_exit_ok. Qed.
End module.

(** ** GPU backends *)
Section backends.
Context `{E : Env}.
Implicit Types (w : kstate).

(** loading resolves every symbol of the selected GPU backend or drops
    the ones it got; for the NVIDIA and the Metax backend alike each symbol's
    reference count stays in step with the pointers kept, and so it does for
    the optional Phoenix service, of which both symbols are kept or neither. *)
Theorem symbols_balanced w :
  wp nvidia_peer_init (init_post nvidia_symbols w) w
  ∧ wp metax_peer_init (init_post metax_symbols w) w
  ∧ (phx_register_fn w = false → phx_deregister_fn w = false →
     wp map_p2p_service_probe (λ r w', r = Ok tt ∧ phx_balanced w w' ∧ only_phx w w'
       ∧ phx_register_fn w' = phx_deregister_fn w') w).
Proof. split; [apply nvidia_init_ok|]. split; [apply metax_init_ok|apply service_probe_ok]. Qed.
End backends.

Section metax_backend.
Context `{E : Env} `{EOk : !EnvOk E} `{X : MetaxP2P}.
Implicit Types (w : kstate).

(** the Metax backend's nested copy loops fill the address array with the
    first n pages of the concatenated scatter list, whatever the segment
    sizes, never past the array; the reported entry count is the number of
    addresses written. *)
Theorem metax_addresses_flattened d pt p n page w :
  ps_pts (k_peer w) !! pt = Some p → pt_length p = n * page → 0 < page → 0 ≤ n < 2 ^ 32 →
  wp (metax_peer_dma_map_pages d pt page) (λ r w', same_core w w' ∧ k_trace w' = k_trace w ∧
    match r with
    | Ok (0, Some dm) => ∃ sgs addrs junk, pt_sgt p = Some sgs
        ∧ addrs = take (Z.to_nat n) (sgs ≫= segment_pages page)
        ∧ ps_dms (k_peer w') !! dm = Some (mk_dm (Some (addrs ++ junk)))
        ∧ Z.of_nat (length (addrs ++ junk)) = n
        ∧ ps_pts (k_peer w') !! pt = Some (p <| pt_entries := Z.of_nat (length addrs) |>)
    | Ok (ret, None) => ret ∈ [- EINVAL; - ENOMEM] ∧ k_peer w' = k_peer w
    | _ => False
    end) w.
Proof. apply metax_dma_map_ok. Qed.

(** pinning through the Metax driver acquires and gets a handle, or on
    any failure puts and releases exactly what it had taken. *)
Theorem metax_pin_balanced tok va v len w :
  list_to_set metax_symbols ⊆ ps_syms (k_peer w) →
  wp (metax_peer_get_pages tok va v len) (λ r w', same_core w w' ∧ ∃ tr,
    k_trace w' = k_trace w ++ tr ∧ Forall peer_event tr ∧
    match r with
    | Ok (0, Some pt) => ∃ h sgt, ps_pts (k_peer w') !! pt = Some (mk_pt h sgt 0 len)
        ∧ tr = [EvVendor "acquire" h; EvVendor "get" h]
    | Ok (ret, _) => tr ≫= vendor_ops "acquire" = tr ≫= vendor_ops "release"
        ∧ tr ≫= vendor_ops "get" = tr ≫= vendor_ops "put" ∧ ps_pts (k_peer w') = ps_pts (k_peer w)
    | _ => False
    end) w.
Proof. apply metax_get_pages_ok. Qed.
End metax_backend.

(** ** Instances *)

(** A second NVMe function at 0000:02:00.0, not bound to anything. *)
Definition demo_spare : pci_dev := mk_pdev 0 2 0 None None false PCI_CLASS_STORAGE_EXPRESS 0xF1000000 16384 1.
Definition demo_two : kstate := demo_boot <| k_pdevs ::= insert 1%nat demo_spare |>.
Definition spare_addr : pci_device_addr := mk_pci_device_addr 0 2 0 0.
Definition first_addr : pci_device_addr := mk_pci_device_addr 0 1 0 0.

(** A Metax driver with a two-segment scatter list. *)
Definition demo_metax : MetaxP2P := {|
  metax_p2p_acquire_mem := λ _ v _, (0, v);
  metax_p2p_get_mem := λ _ _, (0, Some [(2 ^ 42, 0x10000); (2 ^ 43, 0x20000)]);
|}.
Definition demo_metax_state : kstate :=
  demo_boot <| k_peer := mk_peer (list_to_set metax_symbols)
    {[0%nat := mk_pt 9 (Some [(2 ^ 42, 0x10000); (2 ^ 43, 0x20000)]) 0 0x30000]} ∅ 1 |>.

Section control_witnesses.
Existing Instance demo_env.
Existing Instance demo_nvidia.

Lemma demo_boot_ctl : ctl_ok demo_boot.
Proof.
  assert (Hone : ∀ c ct, k_ctrls demo_boot !! c = Some ct → c = 0%nat ∧ ct = demo_ctrl).
  { intros c ct Hc. change (({[0%nat := demo_ctrl]} : gmap cid ctrl) !! c = Some ct) in Hc.
    by apply lookup_singleton_Some in Hc as [<- <-]. }
  split.
  - by apply NoDup_singleton.
  - intros c Hc. apply list_elem_of_singleton in Hc as ->. exists demo_ctrl. by vm_compute.
  - intros c1 c2 ct1 ct2 _ _ [-> ->]%Hone [-> ->]%Hone. done.
  - intros c1 c2 ct1 ct2 _ _ [-> ->]%Hone [-> ->]%Hone. done.
  - intros c ct [-> ->]%Hone. cbn. lia.
Qed.

Lemma demo_two_ctl : ctl_ok demo_two.
Proof. by apply (ctl_ok_view demo_boot), demo_boot_ctl. Qed.

Lemma chrdev_create_idempotent_witness :
  (snvm_chrdev_helper spare_addr true demo_two).1 = Ok (0, mk_pci_device_addr 1 0 0 0)
  ∧ (snvm_chrdev_helper first_addr true demo_two).1 = Ok (0, mk_pci_device_addr 0 0 0 0)
  ∧ wp (snvm_chrdev_helper spare_addr true) (λ r w', ∃ ret a', r = Ok (ret, a')
      ∧ create_request_post spare_addr demo_two ret a' w') demo_two.
Proof.
  split; [eval_done|]. split; [eval_done|].
  apply (chrdev_create_idempotent spare_addr demo_two demo_two_ctl).
Defined.

Lemma chrdev_remove_exact_witness :
  (snvm_chrdev_helper first_addr false demo_two).1 = Ok (0, first_addr)
  ∧ wp (snvm_chrdev_helper first_addr false) (λ r w', ∃ ret a', r = Ok (ret, a')
      ∧ remove_request_post first_addr demo_two ret w') demo_two.
Proof. split; [eval_done|]. apply (chrdev_remove_exact first_addr demo_two demo_two_ctl). Defined.

Lemma control_device_all_or_nothing_witness :
  (snvm_cdev_init (demo_boot <| k_control := control_down |>)).1 = Ok 0
  ∧ wp snvm_cdev_init (cdev_init_post (demo_boot <| k_control := control_down |>))
      (demo_boot <| k_control := control_down |>).
Proof. split; [eval_done|]. by apply control_device_all_or_nothing. Defined.

Lemma unload_drains_witness :
  wp snvm_global_exit (λ r w', r = Ok tt ∧ unloaded demo_boot w') demo_boot.
Proof.
  apply unload_drains; [|apply demo_boot_ctl]. apply booted_wf, demo_boot_ok.
Defined.

Lemma symbols_balanced_witness :
  wp map_p2p_service_probe (λ r w', r = Ok tt ∧ phx_balanced demo_boot w' ∧ only_phx demo_boot w'
    ∧ phx_register_fn w' = phx_deregister_fn w') demo_boot.
Proof. by apply (proj2 (proj2 (symbols_balanced demo_boot))). Defined.

Lemma metax_addresses_flattened_witness :
  ∃ p, ps_pts (k_peer demo_metax_state) !! 0%nat = Some p
  ∧ wp (metax_peer_dma_map_pages 0 0 0x10000) (λ r w', same_core demo_metax_state w') demo_metax_state.
Proof.
  eexists. split; [eval_done|]. eapply wp_mono; [eapply (metax_addresses_flattened 0 0 _ 3 0x10000)|].
  - eval_done.
  - done.
  - done.
  - done.
  - by intros r w' [H _].
Defined.

Lemma metax_pin_balanced_witness :
  wp (metax_peer_get_pages (X := demo_metax) 0 0 0x50000 0x30000)
    (λ r w', same_core demo_metax_state w') demo_metax_state.
Proof.
  eapply wp_mono; [eapply (metax_pin_balanced (X := demo_metax) 0 0 0x50000 0x30000)|].
  - done.
  - by intros r w' [H _].
Defined.

(** The forced attach at work: the first function, bound to the stock driver,
    ends up with snvme, whose probe the walk runs once it is free; the second
    one, which has no controller, stays unbound. *)
Definition attach_env : Env := {|
  env_alloc := env_alloc; env_copy_from := env_copy_from; env_copy_to := env_copy_to; env_gup := env_gup;
  env_dma_map := env_dma_map; env_dma_error := env_dma_error; env_admin := env_admin; env_ida := env_ida;
  env_symbol := env_symbol; env_phx := env_phx; env_cdev_add := env_cdev_add;
  env_device_create := env_device_create; env_class_create := env_class_create;
  env_chrdev_region := env_chrdev_region; env_ns := env_ns; env_iomap := env_iomap;
  env_passthru := env_passthru; env_register := env_register; env_attach := env_attach; env_probe := λ _ _, Some (Some demo_ndev);
  env_bind := env_bind; env_junk := env_junk |}.
Definition demo_stock : kstate :=
  demo_two <| k_pdevs ::= alter (λ pd, pd <| pd_driver := Some (Some "nvme") |>) 0%nat |>.
Lemma rebind_bounded_witness :
  (let '(r, w') := snvm_rebind_driver (E := attach_env) first_addr demo_stock in
   r = Ok 0 ∧ pd_driver <$> k_pdevs w' !! 0%nat = Some (Some (Some PCI_DRIVER_NAME))
   ∧ pd_driver <$> k_pdevs w' !! 1%nat = Some None)
  ∧ wp (snvm_rebind_driver (E := attach_env) first_addr) (rebind_post first_addr demo_stock) demo_stock.
Proof.
  split; [by vm_compute|]. apply (rebind_bounded (E := attach_env) first_addr demo_stock).
  apply Forall_singleton. by exists demo_ctrl.
Defined.

(** snvm_global_init does not undo the symbols it took when the control device
    cannot be created. *)
Definition no_class_env : Env := {|
  env_alloc := env_alloc; env_copy_from := env_copy_from; env_copy_to := env_copy_to; env_gup := env_gup;
  env_dma_map := env_dma_map; env_dma_error := env_dma_error; env_admin := env_admin; env_ida := env_ida;
  env_symbol := env_symbol; env_phx := env_phx; env_cdev_add := env_cdev_add;
  env_device_create := env_device_create; env_class_create := λ _, - ENOMEM;
  env_chrdev_region := env_chrdev_region; env_ns := env_ns; env_iomap := env_iomap;
  env_passthru := env_passthru; env_register := env_register; env_attach := env_attach; env_probe := env_probe;
  env_bind := env_bind; env_junk := env_junk |}.
Example failed_load_keeps_symbols :
  let w := demo_boot <| k_control := control_down |> <| k_peer := mk_peer ∅ ∅ ∅ 0 |> in
  let r := snvm_global_init (E := no_class_env) (P := nvidia_memory_ops (E := no_class_env)) w in
  r.1 = Ok (- ENOMEM) ∧ sym_ref w "nvidia_p2p_get_pages" = 0 ∧ sym_ref r.2 "nvidia_p2p_get_pages" = 1.
Proof. vm_compute. by repeat split. Qed.
End control_witnesses.
