(* ===== verification/PciData.v ===== *)
(** * PciData: the data pointer of an NVMe command (baseline/6.8/pci.c)

    How the block driver describes a request's memory to the controller:
    PRP lists chained through DMA-pool pages, scatter-gather lists, the two
    single-segment shortcuts, and the way back when the request completes.
    A DMA-pool block is a handle with its pool and its bus address; the words
    the driver stores in it and the words the controller reads are the same
    memory, indexed by bus address.  Fresh blocks hold whatever was there. *)
From S2P Require Import Prelude.
From S2P Require Import Uapi.
From S2P Require Import Kernel.

Definition NVME_CTRL_PAGE_SHIFT : Z := 12.
Definition NVME_CTRL_PAGE_SIZE : Z := Z.shiftl 1 NVME_CTRL_PAGE_SHIFT.
Definition NVME_MAX_KB_SZ : Z := 8192.
Definition NVME_MAX_SEGS : Z := 128.
Definition NVME_MAX_NR_ALLOCATIONS : nat := 5.

(** linux/nvme.h: descriptor formats and the command flag for SGLs. *)
Definition NVME_SGL_FMT_DATA_DESC : Z := 0.
Definition NVME_SGL_FMT_LAST_SEG_DESC : Z := 3.
Definition NVME_CMD_SGL_METABUF : Z := Z.shiftl 1 6.
(** linux/dma-mapping.h *)
Definition DMA_MAPPING_ERROR : Z := 2 ^ 64 - 1.
Definition EREMOTEIO : Z := 121.

(** Conversion to [int] and to [s8]. *)
Definition s32 (x : Z) : Z := wrap 32 (x + 2 ^ 31) - 2 ^ 31.
Definition s8 (x : Z) : Z := wrap 8 (x + 2 ^ 7) - 2 ^ 7.

Definition DIV_ROUND_UP (n d : Z) : Z := (n + d - 1) / d.

(** nvme_pci_npages_prp *)
Definition nvme_pci_npages_prp : Z :=
  let max_bytes := NVME_MAX_KB_SZ * 1024 + NVME_CTRL_PAGE_SIZE in
  let nprps := DIV_ROUND_UP max_bytes NVME_CTRL_PAGE_SIZE in
  DIV_ROUND_UP (8 * nprps) (NVME_CTRL_PAGE_SIZE - 8).

(** ** Data *)

Inductive blk_status : Set :=
  | BLK_STS_OK
  | BLK_STS_RESOURCE
  | BLK_STS_IOERR
  | BLK_STS_TARGET
  | BLK_STS_NOTSUPP
  | BLK_STS_NOSPC
  | BLK_STS_MEDIUM
  | BLK_STS_PROTECTION
  | BLK_STS_RESV_CONFLICT
  | BLK_STS_TRANSPORT
  | BLK_STS_ZONE_ACTIVE_RESOURCE
  | BLK_STS_ZONE_OPEN_RESOURCE.

#[export] Instance blk_status_eq_dec : EqDecision blk_status.
Proof. solve_decision. Defined.

(** The two DMA pools of nvme_setup_prp_pools. *)
Inductive dma_pool : Set := PrpPagePool | PrpSmallPool.

#[export] Instance dma_pool_eq_dec : EqDecision dma_pool.
Proof. solve_decision. Defined.

(** Block size, which is also the alignment the pool is created with. *)
Definition pool_bytes (p : dma_pool) : Z :=
  match p with PrpPagePool => NVME_CTRL_PAGE_SIZE | PrpSmallPool => 256 end.

(** A DMA-mapped scatterlist entry. *)
Record sg_entry : Set := mk_sg { sg_dma_address : Z; sg_dma_len : Z }.

#[export] Instance sg_entry_eq_dec : EqDecision sg_entry.
Proof. solve_decision. Defined.

Record nvme_sgl_desc : Set := mk_sge { sge_addr : Z; sge_length : Z; sge_type : Z }.

Inductive nvme_data_ptr : Set :=
  | DPrp (prp1 prp2 : Z)
  | DSgl (d : nvme_sgl_desc).

Record nvme_rw_command : Type := mk_rwcmd {
  cmd_flags : Z;
  cmd_dptr : nvme_data_ptr;
  cmd_metadata : Z;
}.

#[export] Instance set_cmd_flags : Setter cmd_flags := λ f r,
  mk_rwcmd (f (cmd_flags r)) (cmd_dptr r) (cmd_metadata r).
#[export] Instance set_cmd_dptr : Setter cmd_dptr := λ f r,
  mk_rwcmd (cmd_flags r) (f (cmd_dptr r)) (cmd_metadata r).
#[export] Instance set_cmd_metadata : Setter cmd_metadata := λ f r,
  mk_rwcmd (cmd_flags r) (cmd_dptr r) (f (cmd_metadata r)).

(** struct nvme_iod; [iod_list] is the array of NVME_MAX_NR_ALLOCATIONS block
    pointers, an unset slot being [None]. *)
Record nvme_iod : Type := mk_iod {
  iod_cmd : nvme_rw_command;
  iod_aborted : bool;
  nr_allocations : Z;
  dma_len : Z;
  first_dma : Z;
  meta_dma : Z;
  iod_sgl : list sg_entry;
  iod_nents : Z;
  iod_list : list (option nat);
}.

#[export] Instance set_iod_cmd : Setter iod_cmd := λ f r,
  mk_iod (f (iod_cmd r)) (iod_aborted r) (nr_allocations r) (dma_len r) (first_dma r)
    (meta_dma r) (iod_sgl r) (iod_nents r) (iod_list r).
#[export] Instance set_iod_aborted : Setter iod_aborted := λ f r,
  mk_iod (iod_cmd r) (f (iod_aborted r)) (nr_allocations r) (dma_len r) (first_dma r)
    (meta_dma r) (iod_sgl r) (iod_nents r) (iod_list r).
#[export] Instance set_nr_allocations : Setter nr_allocations := λ f r,
  mk_iod (iod_cmd r) (iod_aborted r) (f (nr_allocations r)) (dma_len r) (first_dma r)
    (meta_dma r) (iod_sgl r) (iod_nents r) (iod_list r).
#[export] Instance set_dma_len : Setter dma_len := λ f r,
  mk_iod (iod_cmd r) (iod_aborted r) (nr_allocations r) (f (dma_len r)) (first_dma r)
    (meta_dma r) (iod_sgl r) (iod_nents r) (iod_list r).
#[export] Instance set_first_dma : Setter first_dma := λ f r,
  mk_iod (iod_cmd r) (iod_aborted r) (nr_allocations r) (dma_len r) (f (first_dma r))
    (meta_dma r) (iod_sgl r) (iod_nents r) (iod_list r).
#[export] Instance set_meta_dma : Setter meta_dma := λ f r,
  mk_iod (iod_cmd r) (iod_aborted r) (nr_allocations r) (dma_len r) (first_dma r) (f
    (meta_dma r)) (iod_sgl r) (iod_nents r) (iod_list r).
#[export] Instance set_iod_sgl : Setter iod_sgl := λ f r,
  mk_iod (iod_cmd r) (iod_aborted r) (nr_allocations r) (dma_len r) (first_dma r)
    (meta_dma r) (f (iod_sgl r)) (iod_nents r) (iod_list r).
#[export] Instance set_iod_nents : Setter iod_nents := λ f r,
  mk_iod (iod_cmd r) (iod_aborted r) (nr_allocations r) (dma_len r) (first_dma r)
    (meta_dma r) (iod_sgl r) (f (iod_nents r)) (iod_list r).
#[export] Instance set_iod_list : Setter iod_list := λ f r,
  mk_iod (iod_cmd r) (iod_aborted r) (nr_allocations r) (dma_len r) (first_dma r)
    (meta_dma r) (iod_sgl r) (iod_nents r) (f (iod_list r)).

Record bio_vec : Set := mk_bvec { bv_offset : Z; bv_len : Z; bv_p2p : bool }.

(** The parts of struct request these functions read. *)
Record request : Set := mk_request {
  rq_nr_phys_segments : Z;
  rq_bvec : bio_vec;
  rq_payload_bytes : Z;
  rq_qid : Z;
  rq_integrity : option bio_vec;
}.

(** DMA mappings and buffers the request holds. *)
Inductive dma_res : Set :=
  | ResPage (addr len : Z)
  | ResSgt (l : list sg_entry)
  | ResSglBuf
  | ResCmd.

#[export] Instance dma_res_eq_dec : EqDecision dma_res.
Proof. solve_decision. Defined.

Record pstate : Type := mk_pstate {
  the_iod : nvme_iod;
  pool_live : gmap nat (dma_pool * Z);
  pool_calls : nat;
  dma_words : Z → Z;
  dma_descs : Z → nvme_sgl_desc;
  held : list dma_res;
}.

#[export] Instance set_the_iod : Setter the_iod := λ f r,
  mk_pstate (f (the_iod r)) (pool_live r) (pool_calls r) (dma_words r) (dma_descs r)
    (held r).
#[export] Instance set_pool_live : Setter pool_live := λ f r,
  mk_pstate (the_iod r) (f (pool_live r)) (pool_calls r) (dma_words r) (dma_descs r)
    (held r).
#[export] Instance set_pool_calls : Setter pool_calls := λ f r,
  mk_pstate (the_iod r) (pool_live r) (f (pool_calls r)) (dma_words r) (dma_descs r)
    (held r).
#[export] Instance set_dma_words : Setter dma_words := λ f r,
  mk_pstate (the_iod r) (pool_live r) (pool_calls r) (f (dma_words r)) (dma_descs r)
    (held r).
#[export] Instance set_dma_descs : Setter dma_descs := λ f r,
  mk_pstate (the_iod r) (pool_live r) (pool_calls r) (dma_words r) (f (dma_descs r))
    (held r).
#[export] Instance set_held : Setter held := λ f r,
  mk_pstate (the_iod r) (pool_live r) (pool_calls r) (dma_words r) (dma_descs r) (f
    (held r)).

(** Answers of the block layer, the DMA API and the command core. *)
Record req_env : Type := mk_renv {
  re_pool : nat → dma_pool → option Z;      (* dma_pool_alloc: bus address *)
  re_bvec : option Z;                       (* dma_map_bvec of the data *)
  re_meta : option Z;                       (* dma_map_bvec of the metadata *)
  re_mempool : bool;                        (* mempool_alloc *)
  re_map_sg : Z;                            (* blk_rq_map_sg *)
  re_map_sgtable : Z + list sg_entry;       (* dma_map_sgtable *)
  re_setup_cmd : blk_status;                (* snvme_setup_cmd *)
}.

(** ** Primitives *)

(** Storing into memory indexed by bus address. *)
Definition store {A} (a : Z) (v : A) (f : Z → A) : Z → A := λ x, if decide (x = a) then v else f x.

Definition upd_iod (f : nvme_iod → nvme_iod) : M pstate unit :=
  modify (λ s, s <| the_iod ::= f |>).

Definition upd_cmd (f : nvme_rw_command → nvme_rw_command) : M pstate unit :=
  upd_iod (λ io, io <| iod_cmd ::= f |>).

Definition hold (r : dma_res) : M pstate unit := modify (λ s, s <| held ::= cons r |>).

Fixpoint remove_first (r : dma_res) (l : list dma_res) : option (list dma_res) :=
  match l with
  | [] => None
  | x :: l => if decide (x = r) then Some l else cons x <$> remove_first r l
  end.

(** Unmapping or freeing what is not held is a use after free. *)
Definition unhold (r : dma_res) : M pstate unit :=
  s ← gets id;
  l ← from_opt UseAfterFree (remove_first r (held s));
  modify (λ s, s <| held := l |>).

(** The live block behind a handle. *)
Definition the_block (h : nat) : M pstate (dma_pool * Z) :=
  s ← gets id; from_opt UseAfterFree (pool_live s !! h).

(** [prp_list[i]] as a 64-bit word of a block. *)
Definition word_addr (h : nat) (i : Z) : M pstate Z :=
  '(p, bus) ← the_block h;
  if bool_decide (0 ≤ i < pool_bytes p / 8) then mret (bus + 8 * i) else crash OutOfBounds.

Definition read_word (h : nat) (i : Z) : M pstate Z :=
  a ← word_addr h i; gets (λ s, dma_words s a).

Definition write_word (h : nat) (i v : Z) : M pstate unit :=
  a ← word_addr h i; modify (λ s, s <| dma_words ::= store a v |>).

(** [sg_list[i]] as a 16-byte descriptor of a block. *)
Definition write_desc (h : nat) (i : Z) (d : nvme_sgl_desc) : M pstate unit :=
  '(p, bus) ← the_block h;
  if bool_decide (0 ≤ i < pool_bytes p / 16)
  then modify (λ s, s <| dma_descs ::= store (bus + 16 * i) d |>)
  else crash OutOfBounds.

(** dma_pool_free: block, pool and bus address must belong together. *)
Definition dma_pool_free (p : dma_pool) (h : nat) (bus : Z) : M pstate unit :=
  b ← the_block h;
  if bool_decide (b = (p, bus)) then modify (λ s, s <| pool_live ::= delete h |>)
  else crash UseAfterFree.

(** [iod->list[i] = p] and [iod->list[i]]. *)
Definition set_list (i : Z) (h : nat) : M pstate unit :=
  if bool_decide (0 ≤ i < Z.of_nat NVME_MAX_NR_ALLOCATIONS)
  then upd_iod (λ io, io <| iod_list ::= <[Z.to_nat i := Some h]> |>)
  else crash OutOfBounds.

Definition get_list (i : nat) : M pstate nat :=
  s ← gets id;
  o ← from_opt OutOfBounds (iod_list (the_iod s) !! i);
  from_opt NullDeref o.

Section pci_data.
Context (env : req_env) (dev : nvme_dev) (sgl_threshold : Z) (req : request).

Definition dma_pool_alloc (p : dma_pool) : M pstate (option (nat * Z)) :=
  s ← gets id;
  let n := pool_calls s in
  modify (λ s, s <| pool_calls := S n |>);;
  match re_pool env n p with
  | None => mret None
  | Some bus => modify (λ s, s <| pool_live ::= <[n := (p, bus)]> |>);; mret (Some (n, bus))
  end.

(** sg_next(sg) followed by the two reads through it. *)
Definition next_sg (sgs : list sg_entry) : M pstate (list sg_entry * Z * Z) :=
  match sgs with
  | [] => crash NullDeref
  | sg :: sgs => mret (sgs, sg_dma_address sg, s32 (sg_dma_len sg))
  end.

(** ** nvme_free_prps and nvme_unmap_data *)

Definition last_prp : Z := NVME_CTRL_PAGE_SIZE / 8 - 1.

Fixpoint free_prps_loop (idxs : list nat) (dma_addr : Z) : M pstate unit :=
  match idxs with
  | [] => mret tt
  | i :: idxs =>
      prp_list ← get_list i;
      next_dma_addr ← read_word prp_list last_prp;
      dma_pool_free PrpPagePool prp_list dma_addr;;
      free_prps_loop idxs next_dma_addr
  end.

Definition nvme_free_prps : M pstate unit :=
  io ← gets the_iod;
  free_prps_loop (seq 0 (Z.to_nat (nr_allocations io))) (first_dma io).

Definition nvme_unmap_data : M pstate unit :=
  io ← gets the_iod;
  if negb (bool_decide (dma_len io = 0)) then unhold (ResPage (first_dma io) (dma_len io))
  else
    unhold (ResSgt (iod_sgl io));;
    (if bool_decide (nr_allocations io = 0) then
       h ← get_list 0; dma_pool_free PrpSmallPool h (first_dma io)
     else if bool_decide (nr_allocations io = 1) then
       h ← get_list 0; dma_pool_free PrpPagePool h (first_dma io)
     else nvme_free_prps);;
    unhold ResSglBuf.

(** ** nvme_pci_setup_prps *)

(** The label [done]. *)
Definition prps_done : M pstate blk_status :=
  io ← gets the_iod;
  match iod_sgl io with
  | [] => crash NullDeref
  | sg :: _ =>
      upd_cmd (λ c, c <| cmd_dptr := DPrp (sg_dma_address sg) (first_dma io) |>);;
      mret BLK_STS_OK
  end.

(** The head of the loop body: when the current block is full, chain a new one
    and move the last entry over.  [None] is the jump to [free_prps]. *)
Definition prp_room (pool : dma_pool) (prp_list : nat) (i : Z) : M pstate (option (nat * Z)) :=
  if bool_decide (i = Z.shiftr NVME_CTRL_PAGE_SIZE 3) then
    o ← dma_pool_alloc pool;
    match o with
    | None => nvme_free_prps;; mret None
    | Some (h, prp_dma) =>
        io ← gets the_iod;
        set_list (nr_allocations io) h;;
        upd_iod (λ io, io <| nr_allocations ::= λ n, s8 (n + 1) |>);;
        old ← read_word prp_list (i - 1);
        write_word h 0 old;;
        write_word prp_list (i - 1) prp_dma;;
        mret (Some (h, 1))
    end
  else mret (Some (prp_list, i)).

(** The [for (;;)] loop; the iterations are bounded by the fuel, one page of
    the payload each. *)
Fixpoint prp_loop (fuel : nat) (pool : dma_pool) (prp_list : nat) (i : Z)
    (sgs : list sg_entry) (dma_addr dma_len length : Z) : M pstate blk_status :=
  match fuel with
  | O => crash OutOfFuel
  | S fuel =>
      r ← prp_room pool prp_list i;
      match r with
      | None => mret BLK_STS_RESOURCE
      | Some (prp_list, i) =>
          write_word prp_list i dma_addr;;
          let dma_len := dma_len - NVME_CTRL_PAGE_SIZE in
          let dma_addr := u64 (dma_addr + NVME_CTRL_PAGE_SIZE) in
          let length := length - NVME_CTRL_PAGE_SIZE in
          if bool_decide (length ≤ 0) then prps_done
          else if bool_decide (0 < dma_len) then
            prp_loop fuel pool prp_list (i + 1) sgs dma_addr dma_len length
          else if bool_decide (dma_len < 0) then mret BLK_STS_IOERR
          else
            '(sgs, dma_addr, dma_len) ← next_sg sgs;
            prp_loop fuel pool prp_list (i + 1) sgs dma_addr dma_len length
      end
  end.

Definition nvme_pci_setup_prps : M pstate blk_status :=
  io ← gets the_iod;
  '(sgs, dma_addr, dma_len) ← next_sg (iod_sgl io);
  let offset := Z.land dma_addr (NVME_CTRL_PAGE_SIZE - 1) in
  let length := s32 (rq_payload_bytes req) - (NVME_CTRL_PAGE_SIZE - offset) in
  if bool_decide (length ≤ 0) then
    upd_iod (λ io, io <| first_dma := 0 |>);; prps_done
  else
    let dma_len := dma_len - (NVME_CTRL_PAGE_SIZE - offset) in
    '(sgs, dma_addr, dma_len) ←
      (if negb (bool_decide (dma_len = 0))
       then mret (sgs, u64 (dma_addr + (NVME_CTRL_PAGE_SIZE - offset)), dma_len)
       else next_sg sgs);
    if bool_decide (length ≤ NVME_CTRL_PAGE_SIZE) then
      upd_iod (λ io, io <| first_dma := dma_addr |>);; prps_done
    else
      let nprps := DIV_ROUND_UP length NVME_CTRL_PAGE_SIZE in
      let small := bool_decide (nprps ≤ 256 / 8) in
      let pool := if small then PrpSmallPool else PrpPagePool in
      upd_iod (λ io, io <| nr_allocations := if small then 0 else 1 |>);;
      o ← dma_pool_alloc pool;
      match o with
      | None => upd_iod (λ io, io <| nr_allocations := -1 |>);; mret BLK_STS_RESOURCE
      | Some (prp_list, prp_dma) =>
          set_list 0 prp_list;;
          upd_iod (λ io, io <| first_dma := prp_dma |>);;
          prp_loop (Z.to_nat nprps) pool prp_list 0 sgs dma_addr dma_len length
      end.

(** ** Scatter-gather lists *)

Definition nvme_pci_sgl_set_data (sg : sg_entry) : nvme_sgl_desc :=
  mk_sge (sg_dma_address sg) (sg_dma_len sg) (Z.shiftl NVME_SGL_FMT_DATA_DESC 4).

Definition nvme_pci_sgl_set_seg (dma_addr entries : Z) : nvme_sgl_desc :=
  mk_sge dma_addr (u32 (entries * 16)) (Z.shiftl NVME_SGL_FMT_LAST_SEG_DESC 4).

(** The [do … while (--entries > 0)] loop, [entries] still to go. *)
Fixpoint sgl_loop (entries : nat) (h : nat) (i : Z) (sgs : list sg_entry) : M pstate unit :=
  match entries with
  | O => mret tt
  | S entries =>
      match sgs with
      | [] => crash NullDeref
      | sg :: sgs => write_desc h i (nvme_pci_sgl_set_data sg);; sgl_loop entries h (i + 1) sgs
      end
  end.

Definition nvme_pci_setup_sgls : M pstate blk_status :=
  io ← gets the_iod;
  let entries := iod_nents io in
  upd_cmd (λ c, c <| cmd_flags := NVME_CMD_SGL_METABUF |>);;
  if bool_decide (entries = 1) then
    sg ← from_opt NullDeref (head (iod_sgl io));
    upd_cmd (λ c, c <| cmd_dptr := DSgl (nvme_pci_sgl_set_data sg) |>);;
    mret BLK_STS_OK
  else
    let small := bool_decide (entries ≤ 256 / 16) in
    let pool := if small then PrpSmallPool else PrpPagePool in
    upd_iod (λ io, io <| nr_allocations := if small then 0 else 1 |>);;
    o ← dma_pool_alloc pool;
    match o with
    | None => upd_iod (λ io, io <| nr_allocations := -1 |>);; mret BLK_STS_RESOURCE
    | Some (h, sgl_dma) =>
        set_list 0 h;;
        upd_iod (λ io, io <| first_dma := sgl_dma |>);;
        upd_cmd (λ c, c <| cmd_dptr := DSgl (nvme_pci_sgl_set_seg sgl_dma entries) |>);;
        sgl_loop (Z.to_nat (Z.max entries 1)) h 0 (iod_sgl io);;
        mret BLK_STS_OK
    end.

(** nvme_ctrl_sgl_supported and nvme_pci_use_sgls; the caller has at least one
    segment. *)
Definition nvme_ctrl_sgl_supported : bool :=
  negb (bool_decide (Z.land (sgls dev) (Z.lor (Z.shiftl 1 0) (Z.shiftl 1 1)) = 0)).

Definition nvme_pci_use_sgls (nseg : Z) : bool :=
  let avg_seg_size := DIV_ROUND_UP (rq_payload_bytes req) nseg in
  if negb nvme_ctrl_sgl_supported then false
  else if bool_decide (rq_qid req = 0) then false
  else if bool_decide (sgl_threshold = 0) || bool_decide (avg_seg_size < sgl_threshold)
  then false
  else true.

(** ** The single-segment shortcuts *)

Definition dma_map_bvec_data (bv : bio_vec) : M pstate (option Z) :=
  match re_bvec env with
  | None => mret None
  | Some a => hold (ResPage a (bv_len bv));; mret (Some a)
  end.

Definition nvme_setup_prp_simple (bv : bio_vec) : M pstate blk_status :=
  let offset := Z.land (bv_offset bv) (NVME_CTRL_PAGE_SIZE - 1) in
  let first_prp_len := NVME_CTRL_PAGE_SIZE - offset in
  o ← dma_map_bvec_data bv;
  match o with
  | None => upd_iod (λ io, io <| first_dma := DMA_MAPPING_ERROR |>);; mret BLK_STS_RESOURCE
  | Some a =>
      upd_iod (λ io, io <| first_dma := a |> <| dma_len := bv_len bv |>);;
      upd_cmd (λ c, c <| cmd_dptr :=
        DPrp a (if bool_decide (first_prp_len < bv_len bv) then u64 (a + first_prp_len) else 0) |>);;
      mret BLK_STS_OK
  end.

Definition nvme_setup_sgl_simple (bv : bio_vec) : M pstate blk_status :=
  o ← dma_map_bvec_data bv;
  match o with
  | None => upd_iod (λ io, io <| first_dma := DMA_MAPPING_ERROR |>);; mret BLK_STS_RESOURCE
  | Some a =>
      upd_iod (λ io, io <| first_dma := a |> <| dma_len := bv_len bv |>);;
      upd_cmd (λ c, c <| cmd_flags := NVME_CMD_SGL_METABUF |>
                      <| cmd_dptr := DSgl (mk_sge a (bv_len bv) (Z.shiftl NVME_SGL_FMT_DATA_DESC 4)) |>);;
      mret BLK_STS_OK
  end.

(** ** nvme_map_data *)

Definition map_data_sgl : M pstate blk_status :=
  upd_iod (λ io, io <| dma_len := 0 |>);;
  if negb (re_mempool env) then mret BLK_STS_RESOURCE
  else
    hold ResSglBuf;;
    if bool_decide (re_map_sg env = 0) then unhold ResSglBuf;; mret BLK_STS_RESOURCE
    else
      match re_map_sgtable env with
      | inl rc =>
          unhold ResSglBuf;;
          mret (if bool_decide (rc = - EREMOTEIO) then BLK_STS_TARGET else BLK_STS_RESOURCE)
      | inr l =>
          hold (ResSgt l);;
          upd_iod (λ io, io <| iod_sgl := l |> <| iod_nents := Z.of_nat (length l) |>);;
          ret ← (if nvme_pci_use_sgls (Z.of_nat (length l))
                 then nvme_pci_setup_sgls else nvme_pci_setup_prps);
          if negb (bool_decide (ret = BLK_STS_OK)) then
            unhold (ResSgt l);; unhold ResSglBuf;; mret ret
          else mret BLK_STS_OK
      end.

Definition nvme_map_data : M pstate blk_status :=
  let bv := rq_bvec req in
  if bool_decide (rq_nr_phys_segments req = 1) && negb (bv_p2p bv) then
    if bool_decide (u32 (bv_offset bv + bv_len bv) ≤ NVME_CTRL_PAGE_SIZE * 2)
    then nvme_setup_prp_simple bv
    else if negb (bool_decide (rq_qid req = 0)) && negb (bool_decide (sgl_threshold = 0))
            && nvme_ctrl_sgl_supported
    then nvme_setup_sgl_simple bv
    else map_data_sgl
  else map_data_sgl.

(** ** Metadata, nvme_prep_rq and nvme_pci_unmap_rq *)

Definition nvme_map_metadata (bv : bio_vec) : M pstate blk_status :=
  match re_meta env with
  | None => upd_iod (λ io, io <| meta_dma := DMA_MAPPING_ERROR |>);; mret BLK_STS_IOERR
  | Some a =>
      hold (ResPage a (bv_len bv));;
      upd_iod (λ io, io <| meta_dma := a |>);;
      upd_cmd (λ c, c <| cmd_metadata := a |>);;
      mret BLK_STS_OK
  end.

(** snvme_setup_cmd is an answer of the environment: what matters here is
    whether the command was set up, which snvme_cleanup_cmd undoes. *)
Definition nvme_prep_rq : M pstate blk_status :=
  upd_iod (λ io, io <| iod_aborted := false |> <| nr_allocations := -1 |> <| iod_nents := 0 |>);;
  if negb (bool_decide (re_setup_cmd env = BLK_STS_OK)) then mret (re_setup_cmd env)
  else
    hold ResCmd;;
    ret ← (if negb (bool_decide (rq_nr_phys_segments req = 0))
           then nvme_map_data else mret BLK_STS_OK);
    if negb (bool_decide (ret = BLK_STS_OK)) then unhold ResCmd;; mret ret
    else
      ret ← match rq_integrity req with
            | Some bv => nvme_map_metadata bv
            | None => mret BLK_STS_OK
            end;
      if negb (bool_decide (ret = BLK_STS_OK)) then
        nvme_unmap_data;; unhold ResCmd;; mret ret
      else mret BLK_STS_OK.

Definition nvme_pci_unmap_rq : M pstate unit :=
  io ← gets the_iod;
  match rq_integrity req with
  | Some bv => unhold (ResPage (meta_dma io) (bv_len bv))
  | None => mret tt
  end;;
  when (negb (bool_decide (rq_nr_phys_segments req = 0))) nvme_unmap_data.

End pci_data.
