(* ===== verification/PciDataSpec.v ===== *)
(** * PciDataSpec: what the controller reads is what the request holds

    The controller's side of the NVMe data pointer (PRP lists with their
    chaining rule, SGL segments) as a decoder over the same memory, and the
    proofs that the driver's loops build a pointer that decodes to exactly the
    request's bytes, use at most NVME_MAX_NR_ALLOCATIONS blocks, give every
    block back on failure, and that unmapping returns everything. *)
From S2P Require Import Prelude.
From S2P Require Import Uapi.
From S2P Require Import Kernel.
From S2P Require Import PciData.

(** ** The controller's view *)

Definition bytes (l : list (Z * Z)) : list Z := l ≫= λ '(a, n), seqZ a n.
Definition sg_chunk (s : sg_entry) : Z * Z := (sg_dma_address s, sg_dma_len s).

(** [np] data pages still to be found, the next entry at bus address [p].  The
    last entry of a memory page is a link when more than one is missing. *)
Fixpoint read_prp_list (fuel : nat) (mem : Z → Z) (np : nat) (p : Z) : option (list Z) :=
  match np, fuel with
  | O, _ => Some []
  | _, O => None
  | S np', S fuel =>
      if bool_decide (p `mod` 4096 = 4088) && bool_decide (np' ≠ 0%nat)
      then read_prp_list fuel mem np (mem p)
      else cons (mem p) <$> read_prp_list fuel mem np' (p + 8)
  end.

(** [n] bytes spread over whole pages. *)
Fixpoint page_chunks (n : Z) (l : list Z) : list (Z * Z) :=
  match l with
  | [] => []
  | a :: l => (a, Z.min n 4096) :: page_chunks (n - 4096) l
  end.

Definition prp_decode (mem : Z → Z) (prp1 prp2 n : Z) : option (list (Z * Z)) :=
  let first := Z.min n (4096 - prp1 `mod` 4096) in
  let rest := n - first in
  let np := Z.to_nat (DIV_ROUND_UP rest 4096) in
  pages ← (if bool_decide (rest ≤ 0) then Some []
           else if bool_decide (rest ≤ 4096) then Some [prp2]
           else read_prp_list (2 * np) mem np prp2);
  Some ((prp1, first) :: page_chunks rest pages).

Definition sgl_decode (descs : Z → nvme_sgl_desc) (d : nvme_sgl_desc) : option (list (Z * Z)) :=
  if bool_decide (sge_type d = 0) then Some [(sge_addr d, sge_length d)]
  else if bool_decide (sge_type d = 48) then
    mapM (λ i, let e := descs (sge_addr d + 16 * Z.of_nat i) in
               if bool_decide (sge_type e = 0) then Some (sge_addr e, sge_length e) else None)
      (seq 0 (Z.to_nat (sge_length d / 16)))
  else None.

(** The PSDT field of the command's flags says which of the two it is. *)
Definition psdt (flags : Z) : Z := Z.land (Z.shiftr flags 6) 3.

Definition decode (s : pstate) (n : Z) : option (list (Z * Z)) :=
  let c := iod_cmd (the_iod s) in
  match cmd_dptr c with
  | DPrp prp1 prp2 => if bool_decide (psdt (cmd_flags c) = 0) then prp_decode (dma_words s) prp1 prp2 n else None
  | DSgl d => if bool_decide (psdt (cmd_flags c) = 1) then sgl_decode (dma_descs s) d else None
  end.

(** ** What the block layer and the DMA API promise *)

Definition sg_valid (s : sg_entry) : Prop :=
  0 ≤ sg_dma_address s ∧ 0 < sg_dma_len s < 2 ^ 31 ∧ sg_dma_address s + sg_dma_len s ≤ 2 ^ 64.

(** The virt-boundary rule: only the first segment starts inside a page, only
    the last ends inside one. *)
Fixpoint tail_aligned (l : list sg_entry) : Prop :=
  match l with
  | [] => True
  | s :: l => sg_dma_address s `mod` 4096 = 0 ∧ (l ≠ [] → sg_dma_len s `mod` 4096 = 0) ∧ tail_aligned l
  end.

Definition sg_total (l : list sg_entry) : Z := foldr (λ s n, sg_dma_len s + n) 0 l.

Record sgl_ok (l : list sg_entry) (n : Z) : Prop := {
  so_valid : Forall sg_valid l;
  so_head : match l with
            | [] => False
            | s :: tl => (tl ≠ [] → (sg_dma_address s + sg_dma_len s) `mod` 4096 = 0) ∧ tail_aligned tl
            end;
  so_bytes : 0 < n ≤ NVME_MAX_KB_SZ * 1024;
  so_total : n ≤ sg_total l;
}.

(** Blocks a pool hands out are aligned to their size, and two that are out at
    the same time are different. *)
Record pool_env_ok (env : req_env) : Prop := {
  pe_aligned n p b : re_pool env n p = Some b → 0 ≤ b ∧ b `mod` pool_bytes p = 0;
  pe_apart n n' p b : re_pool env n p = Some b → re_pool env n' p = Some b → n = n';
}.

(** Handles of later allocations are unused. *)
Definition handles_ok (s : pstate) : Prop := ∀ h, (pool_calls s ≤ h)%nat → pool_live s !! h = None.

(** ** Byte lists *)

Lemma bytes_cons a n l : bytes ((a, n) :: l) = seqZ a n ++ bytes l.
Proof. done. Qed.

Lemma bytes_app l k : bytes (l ++ k) = bytes l ++ bytes k.
Proof. apply bind_app. Qed.

Lemma seqZ_split a n m : 0 ≤ n ≤ m → seqZ a m = seqZ a n ++ seqZ (a + n) (m - n).
Proof. intros H. rewrite <- seqZ_app by lia. f_equal. lia. Qed.

Lemma take_seqZ a n m : 0 ≤ n ≤ m → take (Z.to_nat n) (seqZ a m) = seqZ a n.
Proof.
  intros H. rewrite (seqZ_split a n m) by done.
  apply take_app_length'. by rewrite length_seqZ.
Qed.

Lemma length_sg_bytes l : Forall sg_valid l → Z.of_nat (length (bytes (sg_chunk <$> l))) = sg_total l.
Proof.
  induction 1 as [|s l (_ & H & _) _ IH]; [done|].
  cbn [fmap list_fmap sg_total foldr]. unfold sg_chunk at 1. rewrite bytes_cons, length_app, length_seqZ.
  fold (sg_total l). lia.
Qed.

(** ** The pages of the payload, without the memory they are stored in *)

Fixpoint prp_pages (fuel : nat) (sgs : list sg_entry) (addr dlen n : Z) : option (list Z) :=
  match fuel with
  | O => None
  | S fuel =>
      cons addr <$>
        (if bool_decide (n - 4096 ≤ 0) then Some []
         else if bool_decide (0 < dlen - 4096)
         then prp_pages fuel sgs (u64 (addr + 4096)) (dlen - 4096) (n - 4096)
         else if bool_decide (dlen - 4096 < 0) then None
         else match sgs with
              | [] => None
              | s :: sgs => prp_pages fuel sgs (sg_dma_address s) (s32 (sg_dma_len s)) (n - 4096)
              end)
  end.

Record walk_ok (sgs : list sg_entry) (addr dlen n : Z) : Prop := {
  wo_addr : 0 ≤ addr ∧ addr `mod` 4096 = 0;
  wo_dlen : 0 < dlen < 2 ^ 31 ∧ addr + dlen ≤ 2 ^ 64;
  wo_end : sgs ≠ [] → dlen `mod` 4096 = 0;
  wo_tail : tail_aligned sgs;
  wo_valid : Forall sg_valid sgs;
  wo_n : 0 < n ≤ dlen + sg_total sgs;
}.

Lemma s32_small x : - 2 ^ 31 ≤ x < 2 ^ 31 → s32 x = x.
Proof. intros H. unfold s32. rewrite wrap_small by lia. lia. Qed.

Lemma walk_next sgs s addr n :
  Forall sg_valid (s :: sgs) → tail_aligned (s :: sgs) → 0 < n ≤ sg_total (s :: sgs) →
  addr = sg_dma_address s → walk_ok sgs addr (s32 (sg_dma_len s)) n.
Proof.
  intros Hv (H1 & H2 & H3) Hn ->. pose proof (Forall_inv Hv) as (Ha & Hl & Hs).
  change (sg_total (s :: sgs)) with (sg_dma_len s + sg_total sgs) in Hn.
  apply Forall_inv_tail in Hv. rewrite s32_small by lia. split; try done; lia.
Qed.

Lemma walk_page sgs addr dlen n :
  walk_ok sgs addr dlen n → 4096 < n → 4096 < dlen →
  walk_ok sgs (u64 (addr + 4096)) (dlen - 4096) (n - 4096).
Proof.
  intros [[H1 H2] [H3 H4] H5 H6 H7 H8] Hn Hd. rewrite wrap_small by lia.
  split; try done; try lia.
  - split; [lia|]. by rewrite Zplus_mod, H2.
  - intros H. by rewrite Zminus_mod, (H5 H).
Qed.

(** A walk inside the rule never meets a segment that ends inside a page. *)
Lemma walk_dlen sgs addr dlen n :
  walk_ok sgs addr dlen n → 4096 < n → 4096 < dlen ∨ dlen = 4096 ∧ sgs ≠ [].
Proof.
  intros [_ [H3 _] H5 _ _ H8] Hn. destruct sgs as [|s sgs]; [cbn in H8; lia|].
  specialize (H5 ltac:(done)). pose proof (Z.div_mod dlen 4096).
  destruct (decide (4096 < dlen)); [by left|right; split; [lia|done]].
Qed.

Lemma walk_last sgs addr dlen n : walk_ok sgs addr dlen n → n ≤ 4096 → n ≤ dlen.
Proof.
  intros [_ [H3 _] H5 _ _ H8] Hn. destruct sgs as [|s sgs]; [cbn in H8; lia|].
  specialize (H5 ltac:(done)). pose proof (Z.div_mod dlen 4096). lia.
Qed.

Lemma page_chunks_cons n a l : 4096 ≤ n → page_chunks n (a :: l) = (a, 4096) :: page_chunks (n - 4096) l.
Proof. intros H. cbn [page_chunks]. by rewrite Z.min_r by lia. Qed.

Lemma prp_pages_ok fuel sgs addr dlen n :
  walk_ok sgs addr dlen n → n ≤ 4096 * Z.of_nat fuel →
  ∃ es, prp_pages fuel sgs addr dlen n = Some es
        ∧ Z.of_nat (length es) = DIV_ROUND_UP n 4096
        ∧ bytes (page_chunks n es)
          = take (Z.to_nat n) (seqZ addr dlen ++ bytes (sg_chunk <$> sgs)).
Proof.
  revert sgs addr dlen n. induction fuel as [|fuel IH]; intros sgs addr dlen n Hw Hf.
  { pose proof (wo_n _ _ _ _ Hw). lia. }
  pose proof (wo_n _ _ _ _ Hw) as Hn. cbn [prp_pages].
  destruct (decide (n ≤ 4096)) as [Hle|Hgt].
  - rewrite bool_decide_true by lia. exists [addr]. split_and!; [done| |].
    + unfold DIV_ROUND_UP. cbn. apply (Z.div_unique _ _ _ (n - 1)); lia.
    + cbn. rewrite Z.min_l, app_nil_r by lia. pose proof (walk_last _ _ _ _ Hw Hle).
      rewrite take_app_le by (rewrite length_seqZ; lia). by rewrite take_seqZ by lia.
  - rewrite bool_decide_false by lia.
    assert (Hlen : ∀ m, 0 ≤ m → Z.of_nat (S (Z.to_nat (DIV_ROUND_UP m 4096))) = DIV_ROUND_UP (m + 4096) 4096).
    { intros m Hm. unfold DIV_ROUND_UP. replace (m + 4096 + 4096 - 1) with (m + 4096 - 1 + 1 * 4096) by lia.
      rewrite Z.div_add by lia. pose proof (Z.div_pos (m + 4096 - 1) 4096). lia. }
    destruct (walk_dlen _ _ _ _ Hw) as [Hd|[-> Hne]]; [lia| |].
    + rewrite bool_decide_true by lia.
      destruct (IH _ _ _ _ (walk_page _ _ _ _ Hw ltac:(lia) Hd)) as (es & -> & Hes & Hb); [lia|].
      exists (addr :: es). split_and!; [done| |].
      * rewrite <- (Z.sub_add 4096 n), <- Hlen, <- Hes by lia. cbn. lia.
      * rewrite page_chunks_cons, bytes_cons, Hb by lia.
        destruct (wo_dlen _ _ _ _ Hw), (wo_addr _ _ _ _ Hw).
        rewrite (seqZ_split addr 4096 dlen), <- app_assoc by lia.
        rewrite wrap_small by lia.
        rewrite (take_app_ge (seqZ addr 4096)) by (rewrite length_seqZ; lia).
        f_equal. f_equal. rewrite length_seqZ. lia.
    + rewrite !bool_decide_false by lia. destruct sgs as [|s sgs]; [done|].
      destruct (IH sgs (sg_dma_address s) (s32 (sg_dma_len s)) (n - 4096)) as (es & -> & Hes & Hb);
        [eapply walk_next; [apply Hw..| |done]; cbn in *; lia|lia|].
      exists (addr :: es). split_and!; [done| |].
      * rewrite <- (Z.sub_add 4096 n), <- Hlen, <- Hes by lia. cbn. lia.
      * rewrite page_chunks_cons, bytes_cons, Hb by lia.
        rewrite (take_app_ge (seqZ addr 4096)) by (rewrite length_seqZ; lia).
        f_equal. cbn [fmap list_fmap]. unfold sg_chunk at 2. rewrite bytes_cons.
        pose proof (Forall_inv (wo_valid _ _ _ _ Hw)) as (_ & Hl & _). rewrite s32_small by lia.
        f_equal. rewrite length_seqZ. lia.
Qed.

(** ** Chained list pages

    A chain is a list of blocks, each with the entries it holds; every block
    but the last holds 511 entries and a link to the next. *)

Definition words_at (mem : Z → Z) (b : Z) (es : list Z) : Prop :=
  ∀ i e, es !! i = Some e → mem (b + 8 * Z.of_nat i) = e.

Fixpoint linked (mem : Z → Z) (pgs : list (Z * list Z)) : Prop :=
  match pgs with
  | [] => True
  | (b, es) :: rest =>
      words_at mem b es ∧ (length es ≤ 512)%nat
      ∧ match rest with
        | [] => True
        | (b', _) :: _ => length es = 511%nat ∧ mem (b + 8 * 511) = b'
        end
      ∧ linked mem rest
  end.

Definition entries (pgs : list (Z * list Z)) : list Z := pgs ≫= snd.

Definition apart (b b' : Z) : Prop := b + 4096 ≤ b' ∨ b' + 4096 ≤ b.

Lemma store_eq {A} a (v : A) f : store a v f a = v.
Proof. unfold store. by rewrite decide_True. Qed.

Lemma store_ne {A} a (v : A) f x : x ≠ a → store a v f x = f x.
Proof. intros H. unfold store. by rewrite decide_False. Qed.

Lemma words_at_store mem a v b es :
  words_at mem b es → (∀ i, (i < length es)%nat → b + 8 * Z.of_nat i ≠ a) →
  words_at (store a v mem) b es.
Proof.
  intros H Ha i e Hi. rewrite store_ne; [by apply H|]. by apply Ha, (lookup_lt_Some _ _ _ Hi).
Qed.

Lemma words_at_snoc mem b es e :
  words_at mem b es → words_at (store (b + 8 * Z.of_nat (length es)) e mem) b (es ++ [e]).
Proof.
  intros H i x [[Hi He]|[-> <-]]%lookup_snoc_Some; [|apply store_eq].
  rewrite store_ne by lia. by apply H.
Qed.

(** A store outside every block of a chain. *)
Lemma linked_store mem a v pgs :
  linked mem pgs → Forall (λ '(b, _), a < b ∨ b + 4096 ≤ a) pgs → linked (store a v mem) pgs.
Proof.
  induction pgs as [|[b es] rest IH]; [done|]. intros (Hw & Hl & Hn & Hr) [Ha Hf]%Forall_cons.
  split_and!; [apply words_at_store; [done|lia]|done| |by apply IH].
  destruct rest as [|[b' es'] rest]; [done|]. destruct Hn as [? ?]. split; [done|].
  rewrite store_ne by lia. done.
Qed.

(** Writing the next entry of the last block. *)
Lemma linked_snoc mem full b cur e :
  linked mem (full ++ [(b, cur)]) → (length cur < 512)%nat →
  Forall (λ '(b', _), apart b' b) full →
  linked (store (b + 8 * Z.of_nat (length cur)) e mem) (full ++ [(b, cur ++ [e])]).
Proof.
  induction full as [|[b1 es] full IH]; intros H Hc Hf.
  - destruct H as (Hw & _). split_and!; [by apply words_at_snoc|rewrite length_app; cbn; lia|done..].
  - apply Forall_cons in Hf as [Ha Hf]. unfold apart in Ha. destruct H as (Hw & Hl & Hn & Hr).
    split_and!; [apply words_at_store; [done|lia]|done| |by apply IH].
    destruct full as [|[b2 es2] full]; cbn in *; destruct Hn as [? ?];
      (split; [done|by rewrite store_ne by lia]).
Qed.

(** Starting a new block: the entry in the last slot moves over and a link
    takes its place. *)
Lemma linked_new mem full b cur x b' :
  linked mem (full ++ [(b, cur ++ [x])]) → length cur = 511%nat →
  Forall (λ '(b'', _), apart b'' b ∧ apart b'' b') full → apart b b' →
  linked (store (b + 8 * 511) b' (store b' x mem)) (full ++ [(b, cur); (b', [x])]).
Proof.
  intros H Hc Hf Hb. unfold apart in Hb.
  induction full as [|[b1 es] full IH].
  - destruct H as (Hw & _). cbn. split_and!; try done; try lia.
    + apply words_at_store; [apply words_at_store|]; [|lia..].
      intros i e Hi. apply Hw. by apply lookup_app_l_Some.
    + apply store_eq.
    + intros i e Hi. destruct i; [|done]. injection Hi as <-.
      rewrite store_ne, Z.add_0_r, store_eq by lia. done.
  - apply Forall_cons in Hf as [[Ha Ha'] Hf]. unfold apart in Ha, Ha'.
    destruct H as (Hw & Hl & Hn & Hr). cbn [app linked].
    split_and!; [repeat (apply words_at_store; [|lia]); done|done| |by apply IH].
    destruct full as [|[b2 es2] full]; cbn in *; destruct Hn as [? ?];
      (split; [done|by rewrite !store_ne by lia]).
Qed.

(** ** The controller follows a chain *)

(** Reading the entries of one block, from slot [i] on. *)
Lemma read_block mem b es (i : nat) fuel np tl :
  (∀ j e, es !! j = Some e → mem (b + 8 * Z.of_nat (i + j)) = e) →
  (∀ j, (j < length es)%nat → (b + 8 * Z.of_nat (i + j)) `mod` 4096 = 4088 → np = 0%nat ∧ S j = length es) →
  read_prp_list fuel mem np (b + 8 * Z.of_nat (i + length es)) = Some tl →
  read_prp_list (length es + fuel) mem (length es + np) (b + 8 * Z.of_nat i) = Some (es ++ tl).
Proof.
  revert i. induction es as [|e es IH]; intros i Hm Hl Hr; [by rewrite Nat.add_0_r in Hr|].
  assert (Hno : bool_decide ((b + 8 * Z.of_nat i) `mod` 4096 = 4088)
                && bool_decide ((length es + np)%nat ≠ 0%nat) = false).
  { apply andb_false_iff.
    destruct (decide ((b + 8 * Z.of_nat i) `mod` 4096 = 4088)) as [Hmod|]; [right|left; by apply bool_decide_false].
    apply bool_decide_false. intros Hne. apply Hne.
    destruct (Hl 0%nat) as [? ?]; [cbn; lia|by rewrite Nat.add_0_r|]. cbn in *. lia. }
  cbn [length Nat.add read_prp_list]. rewrite Hno.
  pose proof (Hm 0%nat e eq_refl) as He. rewrite Nat.add_0_r in He. rewrite He.
  replace (b + 8 * Z.of_nat i + 8) with (b + 8 * Z.of_nat (S i)) by lia.
  rewrite IH; [done|..].
  - intros j x Hj. replace (S i + j)%nat with (i + S j)%nat by lia. by apply Hm.
  - intros j Hj. replace (S i + j)%nat with (i + S j)%nat by lia. intros Hmod.
    destruct (Hl (S j)) as [? ?]; [cbn; lia|done|]. cbn in *; lia.
  - by replace (S i + length es)%nat with (i + length (e :: es))%nat by (cbn; lia).
Qed.

(** Following a link. *)
Lemma read_link fuel mem np p :
  p `mod` 4096 = 4088 → (2 ≤ np)%nat → read_prp_list (S fuel) mem np p = read_prp_list fuel mem np (mem p).
Proof.
  intros Hp Hn. destruct np as [|np]; [lia|]. cbn [read_prp_list].
  by rewrite bool_decide_true, bool_decide_true by (done || lia).
Qed.

(** More fuel does not change what was read. *)
Lemma read_prp_list_fuel fuel fuel' mem np p l :
  read_prp_list fuel mem np p = Some l → (fuel ≤ fuel')%nat → read_prp_list fuel' mem np p = Some l.
Proof.
  revert fuel' np p l. induction fuel as [|fuel IH]; intros fuel' np p l H Hf; destruct np as [|np].
  1-3: by destruct fuel'.
  destruct fuel' as [|fuel']; [lia|]. cbn [read_prp_list] in *.
  case_match; [by apply IH; [|lia]|].
  apply fmap_Some in H as (k & Hk & ->). by rewrite (IH fuel' _ _ _ Hk) by lia.
Qed.

(** Every block of a chain of several is a page, and the last holds at least
    the entry that moved and the one that made it necessary. *)
Definition chain_ok (pgs : list (Z * list Z)) : Prop :=
  match pgs with
  | [] => False
  | [(b, es)] => ∀ j, (j < length es)%nat → (b + 8 * Z.of_nat j) `mod` 4096 = 4088 → S j = length es
  | _ => Forall (λ '(b, _), b `mod` 4096 = 0) pgs ∧ ∃ b es, last pgs = Some (b, es) ∧ (2 ≤ length es)%nat
  end.

Lemma page_slot b j : b `mod` 4096 = 0 → (b + 8 * Z.of_nat j) `mod` 4096 = 4088 → (j < 512)%nat → j = 511%nat.
Proof.
  intros Hb Hj Hlt. rewrite Zplus_mod, Hb in Hj. rewrite Z.add_0_l, Zmod_mod, Z.mod_small in Hj by lia. lia.
Qed.

Lemma entries_ge pgs b es : last pgs = Some (b, es) → (length es ≤ length (entries pgs))%nat.
Proof.
  intros (l & ->)%last_Some. unfold entries. rewrite bind_app, length_app. cbn. rewrite app_nil_r. lia.
Qed.

(** The controller reads back the entries of a chain, in order. *)
Lemma read_linked mem b es rest :
  linked mem ((b, es) :: rest) → chain_ok ((b, es) :: rest) →
  read_prp_list (length (entries ((b, es) :: rest)) + length rest) mem
    (length (entries ((b, es) :: rest))) b = Some (entries ((b, es) :: rest)).
Proof.
  revert b es. induction rest as [|[b' es'] rest IH]; intros b es (Hw & Hl & Hn & Hr) Hc.
  - change (entries [(b, es)]) with (es ++ []). rewrite app_nil_r.
    pose proof (read_block mem b es 0 0 0 [] Hw) as H. rewrite Nat.add_0_r, Z.add_0_r in H.
    rewrite Nat.add_0_r, H, app_nil_r; [done| |done].
    intros j Hj Hm. split; [done|]. by apply Hc.
  - destruct Hn as [Hlen Hlink], Hc as (Ha & bl & el & Hlast & H2).
    pose proof (Forall_inv Ha) as Hb. apply Forall_inv_tail in Ha.
    pose proof (Forall_inv Ha) as Hb'. cbn in Hb, Hb'.
    change (entries ((b, es) :: (b', es') :: rest)) with (es ++ entries ((b', es') :: rest)).
    set (tl := entries ((b', es') :: rest)) in *.
    assert (Htl : (2 ≤ length tl)%nat).
    { apply (entries_ge ((b', es') :: rest)) in Hlast. subst tl. lia. }
    pose proof (read_block mem b es 0 (S (length tl + length rest)) (length tl) tl Hw) as H.
    rewrite Z.add_0_r in H. rewrite length_app. cbn [length].
    replace (length es + length tl + S (length rest))%nat
      with (length es + S (length tl + length rest))%nat by lia.
    apply H; clear H.
    + intros j Hj Hm. exfalso. apply page_slot in Hm; [lia|done|lia].
    + rewrite Hlen. change (Z.of_nat (0 + 511)) with 511. rewrite read_link, Hlink; [|by rewrite Zplus_mod, Hb|done].
      apply IH; [done|].
      destruct rest as [|pg rest]; [|by split; [|exists bl, el]].
      intros j Hj Hm. destruct Hr as (_ & Hl' & _).
      apply page_slot in Hm; [|done|lia]. lia.
Qed.

(** ** The state while a list is being built *)

Record same_rest (s0 s : pstate) : Prop := {
  sr_sgl : iod_sgl (the_iod s) = iod_sgl (the_iod s0);
  sr_nents : iod_nents (the_iod s) = iod_nents (the_iod s0);
  sr_dma_len : dma_len (the_iod s) = dma_len (the_iod s0);
  sr_meta : meta_dma (the_iod s) = meta_dma (the_iod s0);
  sr_flags : cmd_flags (iod_cmd (the_iod s)) = cmd_flags (iod_cmd (the_iod s0));
  sr_metadata : cmd_metadata (iod_cmd (the_iod s)) = cmd_metadata (iod_cmd (the_iod s0));
  sr_slots : length (iod_list (the_iod s)) = length (iod_list (the_iod s0));
  sr_descs : dma_descs s = dma_descs s0;
  sr_held : held s = held s0;
}.

#[export] Instance same_rest_preorder : PreOrder same_rest.
Proof.
  split; [by intros s; split|].
  intros s1 s2 s3 [] []; split; congruence.
Qed.

Section build.
Context (env : req_env) (Henv : pool_env_ok env).

(** [bs]: bus addresses of the blocks allocated since [s0], oldest first. *)
Record building (s0 : pstate) (pool : dma_pool) (bs : list Z) (s : pstate) : Prop := {
  bd_live : pool_live s = map_seq (pool_calls s0) ((λ b, (pool, b)) <$> bs) ∪ pool_live s0;
  bd_calls : pool_calls s = (pool_calls s0 + length bs)%nat;
  bd_list : iod_list (the_iod s)
            = (Some <$> seq (pool_calls s0) (length bs)) ++ drop (length bs) (iod_list (the_iod s0));
  bd_nr : nr_allocations (the_iod s)
          = match pool with PrpSmallPool => 0 | PrpPagePool => Z.of_nat (length bs) end;
  bd_first : head bs = Some (first_dma (the_iod s));
  bd_bus k b : bs !! k = Some b → re_pool env (pool_calls s0 + k) pool = Some b;
  bd_mem a : (∀ b, b ∈ bs → a < b ∨ b + pool_bytes pool ≤ a) → dma_words s a = dma_words s0 a;
  bd_rest : same_rest s0 s;
}.

Lemma pool_words_bytes p : 8 * (pool_bytes p / 8) = pool_bytes p.
Proof. by destruct p. Qed.

Lemma block_lookup s0 pool bs s k b :
  building s0 pool bs s → bs !! k = Some b → pool_live s !! (pool_calls s0 + k)%nat = Some (pool, b).
Proof.
  intros H Hk. rewrite (bd_live _ _ _ _ H). apply lookup_union_Some_l.
  rewrite lookup_map_seq_Some. split; [lia|].
  replace (pool_calls s0 + k - pool_calls s0)%nat with k by lia. by rewrite list_lookup_fmap, Hk.
Qed.

Lemma word_addr_ok s0 pool bs s k b i :
  building s0 pool bs s → bs !! k = Some b → 0 ≤ i < pool_bytes pool / 8 →
  word_addr (pool_calls s0 + k) i s = (Ok (b + 8 * i), s).
Proof.
  intros H Hk Hi. unfold word_addr, the_block, gets, mbind, M_bind.
  cbn [id]. rewrite (block_lookup _ _ _ _ _ _ H Hk). cbn. by rewrite bool_decide_true.
Qed.

Lemma read_word_ok s0 pool bs s k b i :
  building s0 pool bs s → bs !! k = Some b → 0 ≤ i < pool_bytes pool / 8 →
  read_word (pool_calls s0 + k) i s = (Ok (dma_words s (b + 8 * i)), s).
Proof.
  intros H Hk Hi. unfold read_word. by rewrite (bind_ok _ _ _ _ _ (word_addr_ok _ _ _ _ _ _ _ H Hk Hi)).
Qed.

Lemma write_word_ok s0 pool bs s k b i v :
  building s0 pool bs s → bs !! k = Some b → 0 ≤ i < pool_bytes pool / 8 →
  write_word (pool_calls s0 + k) i v s = (Ok tt, s <| dma_words ::= store (b + 8 * i) v |>)
  ∧ building s0 pool bs (s <| dma_words ::= store (b + 8 * i) v |>).
Proof.
  intros H Hk Hi. unfold write_word.
  rewrite (bind_ok _ _ _ _ _ (word_addr_ok _ _ _ _ _ _ _ H Hk Hi)). split; [done|].
  destruct H as [? ? ? ? ? ? Hm []]. split; try done.
  intros a Ha. cbn. rewrite store_ne; [by apply Hm|].
  apply list_elem_of_lookup_2 in Hk. destruct (Ha b Hk); [lia|].
  pose proof (pool_words_bytes pool). lia.
Qed.

(** Different blocks of the page pool are pages apart. *)
Lemma building_apart s0 bs s j k b b' :
  building s0 PrpPagePool bs s → bs !! j = Some b → bs !! k = Some b' → j ≠ k → apart b b'.
Proof.
  intros H Hj Hk Hne. apply (bd_bus _ _ _ _ H) in Hj, Hk.
  destruct (pe_aligned _ Henv _ _ _ Hj) as [_ Ha], (pe_aligned _ Henv _ _ _ Hk) as [_ Ha'].
  assert (b ≠ b') by (intros ->; pose proof (pe_apart _ Henv _ _ _ _ Hj Hk); lia).
  change (pool_bytes PrpPagePool) with 4096 in *.
  pose proof (Z.div_mod b 4096). pose proof (Z.div_mod b' 4096). unfold apart. nia.
Qed.

(** ** Giving the blocks back *)

Definition links (mem : Z → Z) (bs : list Z) : Prop :=
  ∀ k b b', bs !! k = Some b → bs !! S k = Some b' → mem (b + 8 * 511) = b'.

Lemma linked_links mem pgs : linked mem pgs → links mem pgs.*1.
Proof.
  induction pgs as [|[b es] pgs IH]; [by intros _ k|]. intros (_ & _ & Hn & Hr) k b1 b2 H1 H2.
  destruct k as [|k]; [|by apply (IH Hr k)].
  destruct pgs as [|[b' es'] pgs]; [done|]. cbn in *. simplify_eq. by destruct Hn.
Qed.

Lemma free_prps_loop_ok L bs k (c : nat) b s :
  head bs = Some b ∨ bs = [] →
  links (dma_words s) bs →
  (∀ j, (j < length bs)%nat → iod_list (the_iod s) !! (k + j)%nat = Some (Some (c + j)%nat)) →
  pool_live s = map_seq c ((λ b, (PrpPagePool, b)) <$> bs) ∪ L →
  (∀ h, (c ≤ h)%nat → L !! h = None) →
  free_prps_loop (seq k (length bs)) b s = (Ok tt, s <| pool_live := L |>).
Proof.
  revert k c b s. induction bs as [|b0 bs IH]; intros k c b s Hb Hl Hi Hlive HL.
  - cbn. cbn in Hlive. rewrite (left_id_L ∅ (∪)) in Hlive. subst. by destruct s.
  - destruct Hb as [[= ->]|]; [|done]. cbn [length seq free_prps_loop].
    pose proof (Hi 0%nat ltac:(cbn; lia)) as Hi0. rewrite !Nat.add_0_r in Hi0.
    rewrite (bind_ok _ _ s c s).
    2:{ unfold get_list, gets, mbind, M_bind. cbn [id]. by rewrite Hi0. }
    assert (Hc : pool_live s !! c = Some (PrpPagePool, b)).
    { rewrite Hlive. apply lookup_union_Some_l. cbn. by rewrite lookup_insert_eq. }
    rewrite (bind_ok _ _ s (dma_words s (b + 8 * last_prp)) s).
    2:{ unfold read_word, word_addr, the_block, gets, mbind, M_bind. cbn [id]. by rewrite Hc. }
    rewrite (bind_ok _ _ s tt (s <| pool_live ::= delete c |>)).
    2:{ unfold dma_pool_free, the_block, gets, mbind, M_bind. cbn [id]. rewrite Hc. cbn.
        by rewrite bool_decide_true. }
    rewrite (IH (S k) (S c) _ (s <| pool_live ::= delete c |>)).
    + by destruct s.
    + destruct bs as [|b' bs]; [by right|left]. cbn. f_equal. symmetry. by apply (Hl 0%nat).
    + intros j x y Hx Hy. by apply (Hl (S j)).
    + intros j Hj. change (the_iod (s <| pool_live ::= delete c |>)) with (the_iod s).
      replace (S k + j)%nat with (k + S j)%nat by lia.
      rewrite (Hi (S j)) by (cbn; lia). do 2 f_equal. lia.
    + change (pool_live (s <| pool_live ::= delete c |>)) with (delete c (pool_live s)).
      rewrite Hlive, delete_union, (delete_id L) by (apply HL; lia). f_equal.
      cbn [fmap list_fmap map_seq]. rewrite delete_insert_eq.
      apply delete_id, lookup_map_seq_None. lia.
    + intros h Hh. apply HL. lia.
Qed.

Lemma building_slot s0 pool bs s j :
  building s0 pool bs s → (j < length bs)%nat →
  iod_list (the_iod s) !! j = Some (Some (pool_calls s0 + j)%nat).
Proof.
  intros H Hj. rewrite (bd_list _ _ _ _ H), lookup_app_l by (rewrite length_fmap, length_seq; lia).
  rewrite list_lookup_fmap, lookup_seq_lt by done. done.
Qed.

Lemma free_prps_ok s0 bs s :
  building s0 PrpPagePool bs s → handles_ok s0 → links (dma_words s) bs →
  nvme_free_prps s = (Ok tt, s <| pool_live := pool_live s0 |>).
Proof.
  intros H Hh Hl. unfold nvme_free_prps. rewrite (bind_ok _ _ s (the_iod s) s) by done.
  rewrite (bd_nr _ _ _ _ H), Nat2Z.id.
  apply (free_prps_loop_ok _ _ _ (pool_calls s0)); [|done| |apply H|done].
  - left. apply H.
  - intros j Hj. by apply (building_slot _ _ _ _ _ H).
Qed.

(** One more block of the page pool. *)
Definition add_block (n : nat) (pool : dma_pool) (b : Z) (s : pstate) : pstate :=
  s <| pool_calls := S n |> <| pool_live ::= <[n := (pool, b)]> |>.

Lemma alloc_ok pool s :
  (∃ b, re_pool env (pool_calls s) pool = Some b
        ∧ dma_pool_alloc env pool s = (Ok (Some (pool_calls s, b)), add_block (pool_calls s) pool b s))
  ∨ (re_pool env (pool_calls s) pool = None
     ∧ dma_pool_alloc env pool s = (Ok None, s <| pool_calls ::= S |>)).
Proof.
  unfold dma_pool_alloc, gets, modify, mbind, M_bind, mret, M_ret. cbn [id].
  destruct (re_pool env (pool_calls s) pool) as [b|]; [left; by exists b|by right].
Qed.

Lemma live_snoc s0 pool bs b (L : gmap nat (dma_pool * Z)) :
  L = map_seq (pool_calls s0) ((λ b, (pool, b)) <$> bs) ∪ pool_live s0 →
  <[(pool_calls s0 + length bs)%nat := (pool, b)]> L
  = map_seq (pool_calls s0) ((λ b, (pool, b)) <$> bs ++ [b]) ∪ pool_live s0.
Proof.
  intros ->. rewrite fmap_app. cbn [fmap list_fmap]. rewrite map_seq_snoc, length_fmap.
  by rewrite insert_union_l.
Qed.

Lemma slots_snoc (l0 : list (option nat)) c n :
  (n < length l0)%nat →
  <[n := Some (c + n)%nat]> ((Some <$> seq c n) ++ drop n l0)
  = (Some <$> seq c (S n)) ++ drop (S n) l0.
Proof.
  intros H. rewrite seq_S, fmap_app, <- app_assoc.
  rewrite insert_app_r_alt by (rewrite length_fmap, length_seq; lia).
  rewrite length_fmap, length_seq, Nat.sub_diag. f_equal.
  destruct (drop n l0) as [|x l] eqn:Hd.
  { apply (f_equal length) in Hd. rewrite length_drop in Hd. cbn in Hd. lia. }
  cbn. f_equal. change (S n) with (1 + n)%nat. rewrite Nat.add_comm, <- drop_drop, Hd. done.
Qed.

(** set_list and the counter after an allocation in the loop. *)
Definition grown (s : pstate) (b : Z) : pstate :=
  (add_block (pool_calls s) PrpPagePool b s)
    <| the_iod ::= λ io, io <| iod_list ::= <[Z.to_nat (nr_allocations io) := Some (pool_calls s)]> |>
                            <| nr_allocations ::= λ n, s8 (n + 1) |> |>.

Lemma grown_ok s0 bs s b :
  building s0 PrpPagePool bs s → bs ≠ [] → (length bs < NVME_MAX_NR_ALLOCATIONS)%nat →
  length (iod_list (the_iod s0)) = NVME_MAX_NR_ALLOCATIONS →
  re_pool env (pool_calls s) PrpPagePool = Some b →
  building s0 PrpPagePool (bs ++ [b]) (grown s b).
Proof.
  intros [Hlive Hcalls Hlist Hnr Hfirst Hbus Hmem Hrest] Hne Hlt H5 Hb. rewrite Hcalls in Hb.
  split.
  - cbn. rewrite Hcalls. by apply live_snoc.
  - cbn. rewrite Hcalls, length_app. cbn. lia.
  - cbn. rewrite Hnr, Nat2Z.id, Hlist, Hcalls, length_app, slots_snoc by lia. by rewrite Nat.add_1_r.
  - cbn. rewrite Hnr, length_app. cbn. unfold s8. unfold NVME_MAX_NR_ALLOCATIONS in *.
    rewrite wrap_small by lia. lia.
  - cbn. by destruct bs.
  - intros k x [Hk|[Hk Hx]]%lookup_app_Some; [by apply Hbus|].
    apply list_lookup_singleton_Some in Hx as [? ->].
    by replace k with (length bs) by lia.
  - intros a Ha. apply Hmem. intros x Hx. apply Ha. set_solver.
  - destruct Hrest. split; try done. cbn. by rewrite length_insert.
Qed.

(** ** The loop *)

Definition room (pool : dma_pool) : nat := Z.to_nat (pool_bytes pool / 8).

Record chain (s0 : pstate) (pool : dma_pool) (pgs : list (Z * list Z)) (b : Z) (cur : list Z)
    (s : pstate) : Prop := {
  ch_building : building s0 pool (pgs.*1 ++ [b]) s;
  ch_linked : linked (dma_words s) (pgs ++ [(b, cur)]);
  ch_small : pool = PrpSmallPool → pgs = [];
}.

Lemma linked_length mem pgs b cur :
  linked mem (pgs ++ [(b, cur)]) →
  length (entries (pgs ++ [(b, cur)])) = (511 * length pgs + length cur)%nat.
Proof.
  unfold entries. induction pgs as [|[b1 es] pgs IH]; intros H; cbn [app].
  - cbn. rewrite app_nil_r. lia.
  - destruct H as (_ & _ & Hn & Hr). rewrite bind_cons, length_app, (IH Hr). cbn [length snd].
    destruct pgs as [|[b2 es2] pgs]; cbn in *; destruct Hn; lia.
Qed.

Lemma chain_last_lookup (pgs : list (Z * list Z)) b : (pgs.*1 ++ [b]) !! length pgs = Some b.
Proof. by rewrite lookup_app_r, length_fmap, Nat.sub_diag by (rewrite length_fmap; lia). Qed.

Lemma chain_prefix_lookup (pgs : list (Z * list Z)) b k x es :
  pgs !! k = Some (x, es) → (pgs.*1 ++ [b]) !! k = Some x.
Proof. intros H. apply lookup_app_l_Some. by rewrite list_lookup_fmap, H. Qed.

(** The blocks before the last are pages apart from it. *)
Lemma chain_apart s0 pool pgs b cur s :
  chain s0 pool pgs b cur s → Forall (λ '(b', _), apart b' b) pgs.
Proof.
  intros [H _ Hs]. destruct pool; [|rewrite (Hs eq_refl); constructor].
  apply Forall_lookup. intros k [x es] Hk.
  apply (building_apart _ _ _ k (length pgs) _ _ H).
  - eapply chain_prefix_lookup, Hk.
  - apply chain_last_lookup.
  - apply lookup_lt_Some in Hk. lia.
Qed.

(** Appending an entry where there is room. *)
Lemma chain_write s0 pool pgs b cur s e :
  chain s0 pool pgs b cur s → (length cur < room pool)%nat →
  ∃ s', write_word (pool_calls s0 + length pgs) (Z.of_nat (length cur)) e s = (Ok tt, s')
        ∧ chain s0 pool pgs b (cur ++ [e]) s'.
Proof.
  intros Hc Hlt. pose proof (chain_apart _ _ _ _ _ _ Hc) as Ha. destruct Hc as [Hb Hl Hs].
  assert (room pool ≤ 512)%nat by (destruct pool; cbv; lia).
  destruct (write_word_ok _ _ _ _ _ _ (Z.of_nat (length cur)) e Hb (chain_last_lookup pgs b)) as [He Hb'].
  { unfold room in Hlt. lia. }
  eexists. split; [exact He|]. split; [done| |done].
  change (dma_words (s <| dma_words ::= ?f |>)) with (f (dma_words s)).
  by apply linked_snoc; [|lia|].
Qed.

Lemma grow_blocks s0 pgs b cur s b' :
  chain s0 PrpPagePool pgs b cur s →
  (S (length pgs) < NVME_MAX_NR_ALLOCATIONS)%nat →
  length (iod_list (the_iod s0)) = NVME_MAX_NR_ALLOCATIONS →
  re_pool env (pool_calls s) PrpPagePool = Some b' →
  building s0 PrpPagePool ((pgs.*1 ++ [b]) ++ [b']) (grown s b')
  ∧ ((pgs.*1 ++ [b]) ++ [b']) !! length pgs = Some b
  ∧ ((pgs.*1 ++ [b]) ++ [b']) !! S (length pgs) = Some b'.
Proof.
  intros Hc Hlt H5 Hb'. split_and!.
  - apply grown_ok; try done; [apply Hc|by destruct pgs|]. rewrite length_app, length_fmap. cbn. lia.
  - apply lookup_app_l_Some, chain_last_lookup.
  - rewrite lookup_app_r by (rewrite length_app, length_fmap; cbn; lia).
    rewrite length_app, length_fmap. cbn. by replace (_ - _)%nat with 0%nat by lia.
Qed.

(** The statements that chain a new block, in one step. *)
Lemma grow_run s0 pgs b cur x s b' :
  chain s0 PrpPagePool pgs b (cur ++ [x]) s → length cur = 511%nat →
  (S (length pgs) < NVME_MAX_NR_ALLOCATIONS)%nat →
  length (iod_list (the_iod s0)) = NVME_MAX_NR_ALLOCATIONS →
  re_pool env (pool_calls s) PrpPagePool = Some b' →
  (io ← gets the_iod;
   set_list (nr_allocations io) (pool_calls s);;
   upd_iod (λ io, io <| nr_allocations ::= λ n, s8 (n + 1) |>);;
   old ← read_word (pool_calls s0 + length pgs) 511;
   write_word (pool_calls s) 0 old;;
   write_word (pool_calls s0 + length pgs) 511 b';;
   mret (Some (pool_calls s, 1))) (add_block (pool_calls s) PrpPagePool b' s)
  = (Ok (Some (pool_calls s, 1)),
     (grown s b') <| dma_words ::= store b' x |> <| dma_words ::= store (b + 8 * 511) b' |>).
Proof.
  intros Hc Hlen Hlt H5 Hb'. destruct (grow_blocks _ _ _ _ _ _ Hc Hlt H5 Hb') as (Hg & Hk & Hk').
  destruct Hc as [Hb Hl _].
  assert (Hcalls : pool_calls s = (pool_calls s0 + S (length pgs))%nat).
  { rewrite (bd_calls _ _ _ _ Hb), length_app, length_fmap. cbn. lia. }
  rewrite (bind_ok _ _ _ (the_iod s) (add_block (pool_calls s) PrpPagePool b' s)) by done.
  rewrite (bind_ok _ _ _ tt ((add_block (pool_calls s) PrpPagePool b' s)
    <| the_iod ::= λ io, io <| iod_list ::= <[Z.to_nat (nr_allocations io) := Some (pool_calls s)]> |> |>)).
  2:{ unfold set_list. rewrite bool_decide_true; [done|].
      rewrite (bd_nr _ _ _ _ Hb), length_app, length_fmap. cbn [length]. lia. }
  rewrite (bind_ok _ _ _ tt (grown s b')) by done.
  assert (Hx : dma_words (grown s b') (b + 8 * 511) = x).
  { clear -Hl Hlen. change (dma_words (grown s b')) with (dma_words s).
    induction pgs as [|[b1 es] pgs IH]; destruct Hl as (Hw & _ & _ & Hr); [|by apply IH].
    rewrite <- (Hw 511%nat x); [done|]. rewrite lookup_app_r by lia. by rewrite Hlen. }
  rewrite (bind_ok _ _ _ x (grown s b')).
  2:{ rewrite (read_word_ok _ _ _ _ _ _ 511 Hg Hk) by done. by rewrite Hx. }
  destruct (write_word_ok _ _ _ _ _ _ 0 x Hg Hk') as [Hw1 Hg1]; [done|].
  rewrite Z.mul_0_r, Z.add_0_r, <- Hcalls in Hw1. rewrite Z.mul_0_r, Z.add_0_r in Hg1.
  rewrite (bind_ok _ _ _ _ _ Hw1).
  destruct (write_word_ok _ _ _ _ _ _ 511 b' Hg1 Hk) as [Hw2 _]; [done|].
  by rewrite (bind_ok _ _ _ _ _ Hw2).
Qed.

(** The moved entry and the link. *)
Lemma chain_grow s0 pgs b cur s x b' :
  chain s0 PrpPagePool pgs b (cur ++ [x]) s → length cur = 511%nat →
  (S (length pgs) < NVME_MAX_NR_ALLOCATIONS)%nat →
  length (iod_list (the_iod s0)) = NVME_MAX_NR_ALLOCATIONS →
  re_pool env (pool_calls s) PrpPagePool = Some b' →
  chain s0 PrpPagePool (pgs ++ [(b, cur)]) b' [x]
    ((grown s b') <| dma_words ::= store b' x |> <| dma_words ::= store (b + 8 * 511) b' |>).
Proof.
  intros Hc Hlen Hlt H5 Hb'. pose proof (chain_apart _ _ _ _ _ _ Hc) as Ha.
  destruct (grow_blocks _ _ _ _ _ _ Hc Hlt H5 Hb') as (Hg & Hk & Hk'). destruct Hc as [_ Hl _].
  assert (Hfst : (pgs ++ [(b, cur)]).*1 = pgs.*1 ++ [b]) by by rewrite fmap_app.
  split; [|rewrite <- app_assoc|done].
  - rewrite Hfst.
    destruct (write_word_ok _ _ _ _ _ _ 0 x Hg Hk') as [_ Hg1]; [done|].
    rewrite Z.mul_0_r, Z.add_0_r in Hg1.
    by destruct (write_word_ok _ _ _ _ _ _ 511 b' Hg1 Hk) as [_ Hg2].
  - apply linked_new; try done.
    + apply Forall_lookup. intros k [y es] Hy. rewrite Forall_lookup in Ha. split; [by apply (Ha _ _ Hy)|].
      apply (building_apart _ _ _ k (S (length pgs)) _ _ Hg); [|done|apply lookup_lt_Some in Hy; lia].
      eapply lookup_app_l_Some, chain_prefix_lookup, Hy.
    + apply (building_apart _ _ _ (length pgs) (S (length pgs)) _ _ Hg); [done..|lia].
Qed.

(** What a failed call leaves: every block it took is back. *)
Record given_back (s0 s : pstate) : Prop := {
  gb_live : pool_live s = pool_live s0;
  gb_calls : (pool_calls s0 ≤ pool_calls s)%nat;
  gb_rest : same_rest s0 s;
}.

Lemma chain_give_back s0 pgs b cur s :
  chain s0 PrpPagePool pgs b cur s → handles_ok s0 →
  ∃ s', nvme_free_prps (s <| pool_calls ::= S |>) = (Ok tt, s') ∧ given_back s0 s'.
Proof.
  intros [Hb Hl _] Hh. apply linked_links in Hl. rewrite fmap_app in Hl. cbn in Hl.
  unfold nvme_free_prps. rewrite (bind_ok _ _ _ (the_iod s) (s <| pool_calls ::= S |>)) by done.
  rewrite (bd_nr _ _ _ _ Hb), Nat2Z.id.
  rewrite (free_prps_loop_ok (pool_live s0) _ _ (pool_calls s0)).
  - eexists. split; [done|]. pose proof (bd_calls _ _ _ _ Hb). pose proof (bd_rest _ _ _ _ Hb) as [].
    split; [done|cbn; lia|by split].
  - left. apply Hb.
  - apply Hl.
  - intros j Hj. apply (building_slot _ _ _ _ _ Hb Hj).
  - apply Hb.
  - apply Hh.
Qed.

Lemma prp_room_ok s0 pool pgs b cur s :
  chain s0 pool pgs b cur s → handles_ok s0 →
  length (iod_list (the_iod s0)) = NVME_MAX_NR_ALLOCATIONS →
  (length cur ≤ 512)%nat → (length cur = 512%nat → pool = PrpPagePool ∧ (length pgs < 4)%nat) →
  wp (prp_room env pool (pool_calls s0 + length pgs) (Z.of_nat (length cur))) (λ r s',
    (∃ pgs' b' cur', r = Ok (Some ((pool_calls s0 + length pgs')%nat, Z.of_nat (length cur')))
       ∧ chain s0 pool pgs' b' cur' s'
       ∧ entries (pgs' ++ [(b', cur')]) = entries (pgs ++ [(b, cur)])
       ∧ (length cur' < 512)%nat
       ∧ (length cur < 512 → pgs' = pgs ∧ cur' = cur)%nat
       ∧ (pgs' ≠ pgs → 1 ≤ length cur')%nat)
    ∨ (r = Ok None ∧ given_back s0 s')) s.
Proof.
  intros Hc Hh H5 Hle Hfull. unfold prp_room.
  destruct (decide (length cur = 512%nat)) as [Heq|Hne].
  - destruct (Hfull Heq) as [-> Hpgs]. clear Hfull. rewrite bool_decide_true by (rewrite Heq; done).
    destruct (alloc_ok PrpPagePool s) as [(b' & Hb' & He)|[Hb' He]].
    + assert (∃ cur' x, cur = cur' ++ [x] ∧ length cur' = 511%nat) as (cur' & x & -> & Hlen).
      { destruct cur as [|x cur _] using rev_ind; [done|]. rewrite length_app in Heq. cbn in Heq.
        exists cur, x. split; [done|lia]. }
      pose proof (chain_grow _ _ _ _ _ _ _ Hc Hlen ltac:(unfold NVME_MAX_NR_ALLOCATIONS; lia) H5 Hb') as Hc'.
      eapply wp_eq.
      { rewrite (bind_ok _ _ _ _ _ He). rewrite Heq.
        by apply (grow_run _ _ _ _ _ _ _ Hc Hlen ltac:(unfold NVME_MAX_NR_ALLOCATIONS; lia) H5 Hb'). }
      left. exists (pgs ++ [(b, cur')]), b', [x].
      rewrite (bd_calls _ _ _ _ (ch_building _ _ _ _ _ _ Hc)), !length_app, length_fmap. cbn [length].
      split_and!; [done|exact Hc'|..].
      * unfold entries. rewrite !bind_app. cbn. rewrite app_nil_r, <- !app_assoc. done.
      * lia.
      * rewrite length_app in Heq. cbn in Heq. lia.
      * done.
    + destruct (chain_give_back _ _ _ _ _ Hc Hh) as (s' & Hf & Hg).
      eapply wp_eq; [|right; split; [reflexivity|exact Hg]].
      by rewrite (bind_ok _ _ _ _ _ He), (bind_ok _ _ _ _ _ Hf).
  - rewrite bool_decide_false by (change (Z.shiftr NVME_CTRL_PAGE_SIZE 3) with 512; lia).
    apply wp_ret. left. exists pgs, b, cur. split_and!; try done. lia.
Qed.

(** A finished chain is one the controller can follow. *)
Lemma chain_final s0 pool pgs b cur s :
  chain s0 pool pgs b cur s → (length cur ≤ room pool)%nat → (pgs ≠ [] → 2 ≤ length cur)%nat →
  chain_ok (pgs ++ [(b, cur)]).
Proof.
  intros [Hb Hl Hs] Hroom H2.
  assert (Hal : ∀ x, x ∈ pgs.*1 ++ [b] → x `mod` pool_bytes pool = 0).
  { intros x (k & Hk)%list_elem_of_lookup_1. by apply (bd_bus _ _ _ _ Hb), (pe_aligned _ Henv) in Hk as [_ ?]. }
  destruct (decide (pgs = [])) as [->|Hne].
  - intros j Hj Hm. specialize (Hal b ltac:(set_solver)). destruct pool.
    + change (room PrpPagePool) with 512%nat in Hroom.
      apply page_slot in Hm; [lia|done|lia].
    + change (room PrpSmallPool) with 32%nat in Hroom. change (pool_bytes PrpSmallPool) with 256 in Hal.
      pose proof (Z.div_mod (b + 8 * Z.of_nat j) 4096). pose proof (Z.div_mod b 256). lia.
  - destruct pool; [|naive_solver].
    assert (Hall : Forall (λ '(b, _), b `mod` 4096 = 0) (pgs ++ [(b, cur)])).
    { apply Forall_forall. intros [x es] Hx. apply Hal. apply elem_of_app in Hx as [Hx|Hx]; [|set_solver].
      apply elem_of_app. left. apply list_elem_of_fmap. by exists (x, es). }
    assert (Hlast : last (pgs ++ [(b, cur)]) = Some (b, cur)) by apply last_snoc.
    specialize (H2 Hne). destruct pgs as [|[b1 e1] pgs]; [done|]. cbn [app] in *.
    destruct pgs as [|[b2 e2] pgs]; cbn [app] in *; (split; [done|by exists b, cur]).
Qed.

(** A list that is ready for the controller. *)
Record built (s0 : pstate) (es : list Z) (s : pstate) : Prop := {
  bt_blocks : ∃ pool pgs, building s0 pool pgs.*1 s ∧ linked (dma_words s) pgs ∧ chain_ok pgs
                ∧ entries pgs = es ∧ (pool = PrpSmallPool → length pgs = 1%nat);
  bt_dptr : ∃ sg, head (iod_sgl (the_iod s)) = Some sg
                  ∧ cmd_dptr (iod_cmd (the_iod s)) = DPrp (sg_dma_address sg) (first_dma (the_iod s));
}.

Lemma chain_done s0 pool pgs b cur s :
  chain s0 pool pgs b cur s → (length cur ≤ room pool)%nat → (pgs ≠ [] → 2 ≤ length cur)%nat →
  iod_sgl (the_iod s0) ≠ [] →
  wp prps_done (λ r s', r = Ok BLK_STS_OK ∧ built s0 (entries (pgs ++ [(b, cur)])) s') s.
Proof.
  intros Hc Hr H2 Hne. pose proof (chain_final _ _ _ _ _ _ Hc Hr H2) as Hok. destruct Hc as [Hb Hl Hs].
  unfold prps_done. apply wp_bind, wp_gets. rewrite (sr_sgl _ _ (bd_rest _ _ _ _ Hb)).
  destruct (iod_sgl (the_iod s0)) as [|sg sgs] eqn:Hsg; [done|].
  apply wp_bind, wp_modify, wp_ret. split; [done|]. split.
  - exists pool, (pgs ++ [(b, cur)]). split_and!; try done; [|by intros ->%Hs].
    rewrite fmap_app. cbn [fmap list_fmap fst].
    destruct Hb as [? ? ? ? ? ? ? []]. by split.
  - exists sg. split; [|done]. cbn. by rewrite (sr_sgl _ _ (bd_rest _ _ _ _ Hb)), Hsg.
Qed.

Definition capacity (pool : dma_pool) : nat :=
  match pool with PrpPagePool => 511 * 4 + 512 | PrpSmallPool => 32 end.

Lemma prp_loop_ok s0 pool fuel pgs b cur sgs addr dlen n es s :
  handles_ok s0 → length (iod_list (the_iod s0)) = NVME_MAX_NR_ALLOCATIONS →
  iod_sgl (the_iod s0) ≠ [] →
  chain s0 pool pgs b cur s → (length cur ≤ 512)%nat → (pgs ≠ [] → 2 ≤ length cur)%nat →
  prp_pages fuel sgs addr dlen n = Some es →
  (length (entries (pgs ++ [(b, cur)])) + length es ≤ capacity pool)%nat →
  wp (prp_loop env fuel pool (pool_calls s0 + length pgs) (Z.of_nat (length cur)) sgs addr dlen n)
    (λ r s', (r = Ok BLK_STS_OK ∧ built s0 (entries (pgs ++ [(b, cur)]) ++ es) s')
             ∨ (r = Ok BLK_STS_RESOURCE ∧ given_back s0 s')) s.
Proof.
  intros Hh H5 Hne. revert pgs b cur sgs addr dlen n es s.
  induction fuel as [|fuel IH]; intros pgs b cur sgs addr dlen n es s Hc Hcur H2 Hes Hcap; [done|].
  cbn [prp_pages] in Hes. apply fmap_Some in Hes as (es' & Hes & ->). cbn [length] in Hcap.
  pose proof (linked_length _ _ _ _ (ch_linked _ _ _ _ _ _ Hc)) as Hlen.
  cbn [prp_loop]. apply wp_bind.
  eapply wp_mono; [apply (prp_room_ok _ _ _ _ _ _ Hc Hh H5 Hcur)|].
  { intros Heq. destruct pool; cbn [capacity] in Hcap; [split; [done|lia]|lia]. }
  cbv beta. intros r s1 [(pgs' & b' & cur' & -> & Hc' & Hent & Hlt & Hsame & Hnew)|[-> Hg]];
    [|apply wp_ret; by right].
  pose proof (linked_length _ _ _ _ (ch_linked _ _ _ _ _ _ Hc')) as Hlen'. rewrite Hent in Hlen'.
  assert (Hroom : (length cur' < room pool)%nat).
  { destruct pool; [done|]. rewrite (ch_small _ _ _ _ _ _ Hc' eq_refl) in Hlen'.
    change (room PrpSmallPool) with 32%nat. cbn [capacity length] in *. lia. }
  destruct (chain_write _ _ _ _ _ _ addr Hc' Hroom) as (s2 & Hw & Hc2).
  apply wp_bind. eapply wp_eq; [exact Hw|]. cbv beta iota zeta. clear Hw.
  change NVME_CTRL_PAGE_SIZE with 4096.
  assert (Happ : entries (pgs' ++ [(b', cur' ++ [addr])]) = entries (pgs ++ [(b, cur)]) ++ [addr]).
  { rewrite <- Hent. unfold entries. rewrite !bind_app. cbn. rewrite !app_nil_r. by rewrite app_assoc. }
  assert (H2' : (pgs' ≠ [] → 2 ≤ length (cur' ++ [addr]))%nat).
  { rewrite length_app. cbn. intros Hp. destruct (decide (pgs' = pgs)) as [->|Hd]; [|specialize (Hnew Hd); lia].
    specialize (H2 Hp). lia. }
  assert (Hl2 : (length (cur' ++ [addr]) ≤ 512)%nat) by (rewrite length_app; cbn; lia).
  assert (Hi : Z.of_nat (length cur') + 1 = Z.of_nat (length (cur' ++ [addr]))) by (rewrite length_app; cbn; lia).
  assert (Hcap2 : (length (entries (pgs' ++ [(b', cur' ++ [addr])])) + length es' ≤ capacity pool)%nat).
  { rewrite Happ, length_app. cbn. lia. }
  rewrite Hi.
  assert (Hass : entries (pgs ++ [(b, cur)]) ++ addr :: es' = entries (pgs' ++ [(b', cur' ++ [addr])]) ++ es').
  { by rewrite Happ, <- app_assoc. }
  rewrite Hass.
  destruct (bool_decide (n - 4096 ≤ 0)).
  { injection Hes as <-. rewrite app_nil_r. eapply wp_mono; [apply (chain_done _ _ _ _ _ _ Hc2); [|done..]|by left].
    destruct pool; [done|]. rewrite length_app. cbn [length]. lia. }
  destruct (bool_decide (0 < dlen - 4096)); [by apply IH|].
  destruct (bool_decide (dlen - 4096 < 0)); [done|].
  destruct sgs as [|sg sgs]; [done|]. apply wp_bind, wp_ret. by apply IH.
Qed.

(** ** nvme_pci_setup_prps *)

Lemma land_page a : Z.land a (4096 - 1) = a `mod` 4096.
Proof. change (4096 - 1) with (Z.ones 12). by rewrite Z.land_ones. Qed.

Lemma DIV_ROUND_UP_page n : 0 < n → 4096 * (DIV_ROUND_UP n 4096 - 1) < n ≤ 4096 * DIV_ROUND_UP n 4096.
Proof. intros H. unfold DIV_ROUND_UP. pose proof (Z.div_mod (n + 4096 - 1) 4096). pose proof (Z.mod_pos_bound (n + 4096 - 1) 4096). lia. Qed.

(** The first segment reaches the end of its first page, or of the payload. *)
Lemma sgl_first sg tl n :
  sgl_ok (sg :: tl) n →
  sg_valid sg ∧ Z.min n (4096 - sg_dma_address sg `mod` 4096) ≤ sg_dma_len sg.
Proof.
  intros [Hv [He Ht] Hn Htot]. pose proof (Forall_inv Hv) as Hs. split; [done|].
  destruct Hs as (Ha & Hl & _). destruct tl as [|s tl]; [cbn in Htot; lia|].
  specialize (He ltac:(done)). rewrite <- Zplus_mod_idemp_l in He.
  pose proof (Z.mod_pos_bound (sg_dma_address sg) 4096).
  pose proof (Z.div_mod (sg_dma_address sg `mod` 4096 + sg_dma_len sg) 4096). lia.
Qed.

(** Where the walk over whole pages starts. *)
Definition prp_start (sg : sg_entry) (tl : list sg_entry) : option (list sg_entry * Z * Z) :=
  let first := 4096 - sg_dma_address sg `mod` 4096 in
  if bool_decide (sg_dma_len sg - first = 0) then
    match tl with [] => None | s :: tl => Some (tl, sg_dma_address s, s32 (sg_dma_len s)) end
  else Some (tl, u64 (sg_dma_address sg + first), sg_dma_len sg - first).

Lemma prp_start_ok sg tl n :
  sgl_ok (sg :: tl) n → let first := 4096 - sg_dma_address sg `mod` 4096 in first < n →
  ∃ sgs addr dlen, prp_start sg tl = Some (sgs, addr, dlen) ∧ walk_ok sgs addr dlen (n - first)
    ∧ take (Z.to_nat n) (bytes (sg_chunk <$> sg :: tl))
      = seqZ (sg_dma_address sg) first
        ++ take (Z.to_nat (n - first)) (seqZ addr dlen ++ bytes (sg_chunk <$> sgs)).
Proof.
  intros H first Hn. destruct (sgl_first _ _ _ H) as [(Ha & Hl & Hs) Hfirst].
  fold first in Hfirst. rewrite Z.min_r in Hfirst by lia.
  destruct H as [Hv [He Ht] Hb Htot].
  pose proof (Z.mod_pos_bound (sg_dma_address sg) 4096).
  assert (Hal : (sg_dma_address sg + first) `mod` 4096 = 0).
  { subst first. rewrite Z.add_sub_assoc, Zminus_mod, Zplus_mod, Z_mod_same_full, Z.add_0_r, !Zmod_mod, Z.sub_diag. done. }
  change (sg_total (sg :: tl)) with (sg_dma_len sg + sg_total tl) in Htot.
  pose proof (Forall_inv_tail Hv) as Hvt.
  assert (Hsplit : take (Z.to_nat n) (bytes (sg_chunk <$> sg :: tl))
    = seqZ (sg_dma_address sg) first
      ++ take (Z.to_nat (n - first))
           (seqZ (sg_dma_address sg + first) (sg_dma_len sg - first) ++ bytes (sg_chunk <$> tl))).
  { cbn [fmap list_fmap]. unfold sg_chunk at 1. rewrite bytes_cons.
    rewrite (seqZ_split _ first (sg_dma_len sg)), <- app_assoc by lia.
    rewrite take_app_ge by (rewrite length_seqZ; lia). f_equal. f_equal. rewrite length_seqZ. lia. }
  unfold prp_start. fold first. destruct (decide (sg_dma_len sg - first = 0)) as [Hz|Hz].
  - rewrite bool_decide_true by done. destruct tl as [|s tl]; [cbn in Htot; lia|].
    eexists _, _, _. split; [done|]. split.
    + apply walk_next with (s := s); try done. lia.
    + rewrite Hsplit, Hz. cbn [fmap list_fmap]. unfold sg_chunk at 1.
      rewrite bytes_cons. rewrite s32_small by (destruct (Forall_inv Hvt) as (_ & ? & _); lia). done.
  - rewrite bool_decide_false by done. eexists _, _, _. split; [done|].
    rewrite wrap_small by lia. split; [|done]. split; try done; try lia.
    intros Hne. specialize (He Hne).
    replace (sg_dma_len sg - first) with (sg_dma_address sg + sg_dma_len sg - (sg_dma_address sg + first)) by lia.
    by rewrite Zminus_mod, He, Hal.
Qed.

(** What a request owns after its data pointer was set up: blocks of one pool,
    in the order of [iod_list], or none. *)
Record owns (s0 : pstate) (pool : dma_pool) (bs : list Z) (s : pstate) : Prop := {
  ow_live : pool_live s = map_seq (pool_calls s0) ((λ b, (pool, b)) <$> bs) ∪ pool_live s0;
  ow_slot j : (j < length bs)%nat → iod_list (the_iod s) !! j = Some (Some (pool_calls s0 + j)%nat);
  ow_nr : nr_allocations (the_iod s)
          = match bs, pool with
            | [], _ => -1
            | _, PrpSmallPool => 0
            | _, PrpPagePool => Z.of_nat (length bs)
            end;
  ow_first : bs ≠ [] → head bs = Some (first_dma (the_iod s));
  ow_small : pool = PrpSmallPool → (length bs ≤ 1)%nat;
  ow_links : links (dma_words s) bs;
  ow_calls : (pool_calls s0 ≤ pool_calls s)%nat;
  ow_bound : (length bs ≤ length (iod_list (the_iod s0)))%nat;
}.

Lemma owns_none s0 s :
  nr_allocations (the_iod s) = -1 → pool_live s = pool_live s0 → (pool_calls s0 ≤ pool_calls s)%nat →
  owns s0 PrpPagePool [] s.
Proof.
  intros Hn Hl Hc. split; try done; cbn; [|lia..].
  by rewrite (left_id_L ∅ (∪)).
Qed.

Lemma built_owns s0 es s : built s0 es s → ∃ pool bs, owns s0 pool bs s.
Proof.
  intros [(pool & pgs & Hb & Hl & Hok & _ & Hs) _]. exists pool, pgs.*1.
  destruct (Hb) as [? Hcalls Hlist Hnr Hfirst ? ? Hrest].
  assert (Hne : pgs.*1 ≠ []) by by destruct pgs.
  split; try done.
  - intros j Hj. by apply (building_slot _ _ _ _ _ Hb).
  - rewrite Hnr. by destruct pgs.
  - intros Hp. rewrite length_fmap, (Hs Hp). done.
  - by apply linked_links.
  - lia.
  - apply (f_equal length) in Hlist. rewrite (sr_slots _ _ Hrest), length_app, length_fmap, length_seq in Hlist. lia.
Qed.

(** The controller reads a finished list. *)
Lemma linked_fuel mem pg rest : linked mem (pg :: rest) → (length rest ≤ length (entries (pg :: rest)))%nat.
Proof.
  revert pg. induction rest as [|pg' rest IH]; intros [b es] H; [cbn; lia|].
  destruct pg' as [b' es']. destruct H as (_ & _ & [Hl _] & Hr). apply IH in Hr.
  change (entries ((b, es) :: (b', es') :: rest)) with (es ++ entries ((b', es') :: rest)).
  rewrite length_app. cbn [length]. lia.
Qed.

Lemma built_decode s0 es s n sg :
  built s0 es s → head (iod_sgl (the_iod s)) = Some sg →
  psdt (cmd_flags (iod_cmd (the_iod s))) = 0 →
  let first := 4096 - sg_dma_address sg `mod` 4096 in
  4096 < n - first → Z.of_nat (length es) = DIV_ROUND_UP (n - first) 4096 →
  decode s n = Some ((sg_dma_address sg, first) :: page_chunks (n - first) es).
Proof.
  intros [(pool & pgs & Hb & Hl & Hok & Hes & _) (sg' & Hsg & Hd)] Hsg' Hp first Hn Hlen.
  assert (sg' = sg) as -> by congruence. subst es.
  pose proof (Z.mod_pos_bound (sg_dma_address sg) 4096).
  unfold decode. rewrite Hd, bool_decide_true by done. unfold prp_decode. fold first.
  rewrite Z.min_r, !bool_decide_false by lia. rewrite <- Hlen, Nat2Z.id.
  destruct pgs as [|[b1 es1] rest]; [done|]. pose proof (bd_first _ _ _ _ Hb) as [= <-].
  pose proof (linked_fuel _ _ _ Hl).
  rewrite (read_prp_list_fuel _ _ _ _ _ _ (read_linked _ _ _ _ Hl Hok)) by lia. done.
Qed.

(** The outcome of setting up a data pointer for the payload [n]: the
    controller's view is exactly the first [n] bytes of the request's segments. *)
Definition describes (s : pstate) (n : Z) (l : list sg_entry) : Prop :=
  ∃ chunks, decode s n = Some chunks ∧ bytes chunks = take (Z.to_nat n) (bytes (sg_chunk <$> l)).

Lemma prp_setup_start sg tl n req :
  sgl_ok (sg :: tl) n → rq_payload_bytes req = n →
  s32 (sg_dma_len sg) = sg_dma_len sg ∧ s32 (rq_payload_bytes req) = n
  ∧ Z.land (sg_dma_address sg) (NVME_CTRL_PAGE_SIZE - 1) = sg_dma_address sg `mod` 4096.
Proof.
  intros H <-. destruct (sgl_first _ _ _ H) as [(_ & Hl & _) _]. destruct H as [_ _ Hn _].
  split_and!; [apply s32_small; lia|apply s32_small; unfold NVME_MAX_KB_SZ in Hn; lia|apply land_page].
Qed.

(** The first block of a list. *)
Lemma first_block s0 pool b n :
  re_pool env (pool_calls s0) pool = Some b → length (iod_list (the_iod s0)) = NVME_MAX_NR_ALLOCATIONS →
  n = (match pool with PrpSmallPool => 0 | PrpPagePool => 1 end) →
  chain s0 pool [] b []
    ((add_block (pool_calls s0) pool b s0)
       <| the_iod ::= λ io, io <| nr_allocations := n |> <| iod_list ::= <[0%nat := Some (pool_calls s0)]> |>
                               <| first_dma := b |> |>).
Proof.
  intros Hb H5 ->. split; [split|..]; try done.
  - cbn. rewrite insert_empty, insert_union_singleton_l. done.
  - cbn. lia.
  - cbn. destruct (iod_list (the_iod s0)); [done|]. cbn. by rewrite drop_0.
  - intros k x Hk. apply list_lookup_singleton_Some in Hk as [-> <-]. by rewrite Nat.add_0_r.
  - split; try done. cbn. by rewrite length_insert.
  - split_and!; [by intros i|cbn; lia|done..].
Qed.

(** One or two entries: no list at all. *)
Definition direct_state (s0 : pstate) (sg : sg_entry) (prp2 : Z) : pstate :=
  s0 <| the_iod ::= λ io, io <| first_dma := prp2 |> |>
     <| the_iod ::= λ io, io <| iod_cmd ::= λ c, c <| cmd_dptr := DPrp (sg_dma_address sg) prp2 |> |> |>.

Lemma direct_ok s0 sg tl n prp2 es :
  iod_sgl (the_iod s0) = sg :: tl → sgl_ok (sg :: tl) n →
  nr_allocations (the_iod s0) = -1 → psdt (cmd_flags (iod_cmd (the_iod s0))) = 0 →
  let first := Z.min n (4096 - sg_dma_address sg `mod` 4096) in
  n - first ≤ 4096 → es = (if bool_decide (n - first ≤ 0) then [] else [prp2]) →
  take (Z.to_nat n) (bytes (sg_chunk <$> sg :: tl))
    = seqZ (sg_dma_address sg) first ++ bytes (page_chunks (n - first) es) →
  wp (upd_iod (λ io, io <| first_dma := prp2 |>);; prps_done) (λ r s,
    (r = Ok BLK_STS_OK ∧ describes s n (sg :: tl) ∧ same_rest s0 s ∧ ∃ pool bs, owns s0 pool bs s)
    ∨ (r = Ok BLK_STS_RESOURCE ∧ given_back s0 s)) s0.
Proof.
  intros Hsg Hok Hnr Hp first Hle -> Hb. eapply wp_eq with (r := Ok BLK_STS_OK) (s' := direct_state s0 sg prp2).
  { unfold prps_done, upd_iod, upd_cmd, modify, gets, mbind, M_bind, mret, M_ret. cbn.
    rewrite Hsg. done. }
  left. split_and!; [done| |by split|].
  - eexists. split; [|by rewrite Hb, <- bytes_cons].
    unfold decode. cbn [direct_state]. unfold prp_decode. fold first.
    change (cmd_dptr (iod_cmd (the_iod (direct_state s0 sg prp2)))) with (DPrp (sg_dma_address sg) prp2).
    rewrite bool_decide_true by done. cbv beta iota zeta. fold first.
    destruct (bool_decide (n - first ≤ 0)); [done|]. by rewrite bool_decide_true.
  - exists PrpPagePool, []. by apply owns_none.
Qed.

(** More than two: a list in the small or the page pool. *)
Lemma setup_list_ok s0 sg tl n sgs addr dlen es :
  handles_ok s0 → length (iod_list (the_iod s0)) = NVME_MAX_NR_ALLOCATIONS →
  iod_sgl (the_iod s0) = sg :: tl → psdt (cmd_flags (iod_cmd (the_iod s0))) = 0 →
  let first := 4096 - sg_dma_address sg `mod` 4096 in
  let nprps := DIV_ROUND_UP (n - first) 4096 in
  4096 < n - first ≤ NVME_MAX_KB_SZ * 1024 →
  prp_pages (Z.to_nat nprps) sgs addr dlen (n - first) = Some es → Z.of_nat (length es) = nprps →
  take (Z.to_nat n) (bytes (sg_chunk <$> sg :: tl))
    = seqZ (sg_dma_address sg) first ++ bytes (page_chunks (n - first) es) →
  let small := bool_decide (nprps ≤ 256 / 8) in
  let pool := if small then PrpSmallPool else PrpPagePool in
  wp (upd_iod (λ io, io <| nr_allocations := if small then 0 else 1 |>);;
      o ← dma_pool_alloc env pool;
      match o with
      | None => upd_iod (λ io, io <| nr_allocations := -1 |>);; mret BLK_STS_RESOURCE
      | Some (prp_list, prp_dma) =>
          set_list 0 prp_list;;
          upd_iod (λ io, io <| first_dma := prp_dma |>);;
          prp_loop env (Z.to_nat nprps) pool prp_list 0 sgs addr dlen (n - first)
      end) (λ r s,
    (r = Ok BLK_STS_OK ∧ describes s n (sg :: tl) ∧ same_rest s0 s ∧ ∃ pool bs, owns s0 pool bs s)
    ∨ (r = Ok BLK_STS_RESOURCE ∧ given_back s0 s)) s0.
Proof.
  intros Hh H5 Hsg Hp first nprps Hn Hes Hlen Hb small pool.
  set (s1 := s0 <| the_iod ::= λ io, io <| nr_allocations := if small then 0 else 1 |> |>).
  apply wp_bind, wp_modify, wp_bind. fold s1.
  destruct (alloc_ok pool s1) as [(b & Hpool & He)|[Hpool He]]; (eapply wp_eq; [exact He|]); cbv beta iota.
  - change (pool_calls s1) with (pool_calls s0) in *.
    assert (Hc : chain s0 pool [] b [] ((add_block (pool_calls s0) pool b s0)
       <| the_iod ::= λ io, io <| nr_allocations := if small then 0 else 1 |>
            <| iod_list ::= <[0%nat := Some (pool_calls s0)]> |> <| first_dma := b |> |>)).
    { apply first_block; [done..|]. subst pool. by destruct small. }
    apply wp_bind. eapply wp_eq; [reflexivity|]. cbv beta iota. apply wp_bind, wp_modify.
    assert (Hcap : (length (entries ([] ++ [(b, [])])) + length es ≤ capacity pool)%nat).
    { change (entries ([] ++ [(b, [])])) with (@nil Z). cbn [length Nat.add]. subst pool small.
      destruct (DIV_ROUND_UP_page (n - first)) as [Hd _]; [lia|]. fold nprps in Hd.
      change (NVME_MAX_KB_SZ * 1024) with 8388608 in Hn.
      case_bool_decide; change (256 / 8) with 32 in *; cbn [capacity]; lia. }
    pose proof (prp_loop_ok s0 pool (Z.to_nat nprps) [] b [] sgs addr dlen (n - first) es _
      Hh H5 ltac:(by rewrite Hsg) Hc ltac:(cbn; lia) ltac:(done) Hes Hcap) as Hloop.
    cbn [length] in Hloop. rewrite Nat.add_0_r in Hloop.
    eapply wp_mono; [exact Hloop|].
    cbv beta. intros r s [[-> Hbt]|H]; [left|by right]. change (entries _) with (@nil Z) in Hbt. cbn [app] in Hbt.
    pose proof Hbt as [(pl & pgs & Hbd & _) _].
    pose proof (bd_rest _ _ _ _ Hbd) as Hrest.
    split_and!; [done| |done|by apply (built_owns _ es)].
    exists ((sg_dma_address sg, first) :: page_chunks (n - first) es).
    split; [|by rewrite bytes_cons].
    apply (built_decode _ _ _ _ _ Hbt); [|by rewrite (sr_flags _ _ Hrest)|fold first; lia|done].
    by rewrite (sr_sgl _ _ Hrest), Hsg.
  - apply wp_bind, wp_modify, wp_ret. right. split; [done|]. split; [done|cbn; lia|by split].
Qed.

Lemma setup_prps_ok s0 req n :
  handles_ok s0 → length (iod_list (the_iod s0)) = NVME_MAX_NR_ALLOCATIONS →
  nr_allocations (the_iod s0) = -1 → psdt (cmd_flags (iod_cmd (the_iod s0))) = 0 →
  sgl_ok (iod_sgl (the_iod s0)) n → rq_payload_bytes req = n →
  wp (nvme_pci_setup_prps env req) (λ r s,
    (r = Ok BLK_STS_OK ∧ describes s n (iod_sgl (the_iod s0)) ∧ same_rest s0 s
       ∧ ∃ pool bs, owns s0 pool bs s)
    ∨ (r = Ok BLK_STS_RESOURCE ∧ given_back s0 s)) s0.
Proof.
  intros Hh H5 Hnr Hp Hsgl Hreq. unfold nvme_pci_setup_prps. apply wp_bind, wp_gets, wp_bind.
  destruct (iod_sgl (the_iod s0)) as [|sg tl] eqn:Hsg; [by destruct Hsgl|]. apply wp_ret.
  destruct (prp_setup_start _ _ _ _ Hsgl Hreq) as (-> & -> & ->).
  destruct (sgl_first _ _ _ Hsgl) as [(_ & Hl & _) Hfirst].
  change NVME_CTRL_PAGE_SIZE with 4096. cbv beta iota zeta.
  pose proof (Z.mod_pos_bound (sg_dma_address sg) 4096).
  pose proof (so_bytes _ _ Hsgl) as Hn.
  destruct (decide (n - (4096 - sg_dma_address sg `mod` 4096) ≤ 0)) as [Hle|Hgt].
  - rewrite bool_decide_true by done.
    rewrite Z.min_l in Hfirst by lia.
    apply (direct_ok _ _ _ _ _ []); try done; rewrite Z.min_l by lia; [lia|by rewrite bool_decide_true by lia|].
    cbn [fmap list_fmap page_chunks]. unfold sg_chunk at 1. rewrite bytes_cons.
    rewrite take_app_le by (rewrite length_seqZ; lia). by rewrite take_seqZ, app_nil_r by lia.
  - rewrite bool_decide_false by done.
    destruct (prp_start_ok _ _ _ Hsgl) as (sgs & addr & dlen & Hst & Hw & Hb); [lia|].
    set (first := 4096 - sg_dma_address sg `mod` 4096) in *.
    destruct (prp_pages_ok (Z.to_nat (DIV_ROUND_UP (n - first) 4096)) _ _ _ _ Hw) as (es & Hes & Hlen & Hbe).
    { destruct (DIV_ROUND_UP_page (n - first)); lia. }
    rewrite <- Hbe in Hb. apply wp_bind. eapply wp_eq with (r := Ok (sgs, addr, dlen)) (s' := s0).
    { unfold prp_start in Hst. fold first in Hst.
      destruct (bool_decide (sg_dma_len sg - first = 0)); cbn [negb].
      - destruct tl; [done|]. by injection Hst as <- <- <-.
      - by injection Hst as <- <- <-. }
    cbv beta iota. destruct (decide (n - first ≤ 4096)) as [Hle|Hgt2].
    + rewrite bool_decide_true by done.
      destruct (DIV_ROUND_UP_page (n - first)) as [Hd1 Hd2]; [lia|].
      assert (DIV_ROUND_UP (n - first) 4096 = 1) as Hone by lia. rewrite Hone in Hes, Hlen.
      destruct (Z.to_nat 1) as [|f1] eqn:Hf1; [done|]. cbn [prp_pages] in Hes.
      apply fmap_Some in Hes as (es' & _ & ->). destruct es'; [|cbn in Hlen; lia].
      apply (direct_ok _ _ _ _ _ [addr]); try done; fold first; rewrite Z.min_r by lia; [lia| |done].
      by rewrite bool_decide_false by lia.
    + rewrite bool_decide_false by done. apply (setup_list_ok _ _ _ _ _ _ _ es); try done. fold first. lia.
Qed.

(** ** Scatter-gather lists *)

(** What both kinds of data pointer leave alone. *)
Record kept (s0 s : pstate) : Prop := {
  kp_sgl : iod_sgl (the_iod s) = iod_sgl (the_iod s0);
  kp_dma_len : dma_len (the_iod s) = dma_len (the_iod s0);
  kp_meta : meta_dma (the_iod s) = meta_dma (the_iod s0);
  kp_metadata : cmd_metadata (iod_cmd (the_iod s)) = cmd_metadata (iod_cmd (the_iod s0));
  kp_held : held s = held s0;
}.

Lemma same_rest_kept s0 s : same_rest s0 s → kept s0 s.
Proof. intros []. by split. Qed.

Lemma sgl_loop_ok sgs : ∀ h p bus i s,
  pool_live s !! h = Some (p, bus) → 0 ≤ i → i + Z.of_nat (length sgs) ≤ pool_bytes p / 16 →
  ∃ D, sgl_loop (length sgs) h i sgs s = (Ok tt, s <| dma_descs := D |>)
       ∧ (∀ j sg, sgs !! j = Some sg → D (bus + 16 * (i + Z.of_nat j)) = nvme_pci_sgl_set_data sg)
       ∧ (∀ a, a < bus + 16 * i → D a = dma_descs s a).
Proof.
  induction sgs as [|sg sgs IH]; intros h p bus i s Hh Hi Hle.
  - exists (dma_descs s). split_and!; [by destruct s|done|done].
  - cbn [length sgl_loop]. cbn [length] in Hle.
    set (s1 := s <| dma_descs ::= store (bus + 16 * i) (nvme_pci_sgl_set_data sg) |>).
    rewrite (bind_ok _ _ s tt s1).
    2:{ unfold write_desc, the_block, gets, mbind, M_bind. cbn [id]. rewrite Hh. cbn [from_opt mret M_ret].
        by rewrite bool_decide_true by lia. }
    destruct (IH h p bus (i + 1) s1) as (D & -> & HD & Hlow); [done|lia..|].
    exists D. split_and!; [by destruct s|..].
    + intros [|j] x Hx; [|rewrite <- (HD j x Hx); f_equal; lia].
      injection Hx as <-. rewrite Hlow by lia. rewrite Z.add_0_r. apply store_eq.
    + intros a Ha. rewrite Hlow by lia. cbn. rewrite store_ne by lia. done.
Qed.

Lemma sgl_decode_seg (D : Z → nvme_sgl_desc) bus l :
  (length l ≤ 256)%nat →
  (∀ j sg, l !! j = Some sg → D (bus + 16 * Z.of_nat j) = nvme_pci_sgl_set_data sg) →
  sgl_decode D (nvme_pci_sgl_set_seg bus (Z.of_nat (length l))) = Some (sg_chunk <$> l).
Proof.
  intros Hl HD. unfold sgl_decode, nvme_pci_sgl_set_seg. cbn [sge_type sge_addr sge_length].
  change (Z.shiftl NVME_SGL_FMT_LAST_SEG_DESC 4) with 48. rewrite bool_decide_false, bool_decide_true by done.
  rewrite wrap_small, Z.div_mul, Nat2Z.id by lia.
  apply mapM_Some, Forall2_same_length_lookup_2; [by rewrite length_seq, length_fmap|].
  intros j x y Hx Hy. apply lookup_seq in Hx as [-> Hx]. apply list_lookup_fmap_Some in Hy as (sg & -> & Hsg).
  rewrite Nat.add_0_l, (HD _ _ Hsg). done.
Qed.

Lemma setup_sgls_ok s0 l n :
  handles_ok s0 → length (iod_list (the_iod s0)) = NVME_MAX_NR_ALLOCATIONS →
  nr_allocations (the_iod s0) = -1 → iod_sgl (the_iod s0) = l →
  iod_nents (the_iod s0) = Z.of_nat (length l) → (1 ≤ length l ≤ 128)%nat →
  Forall sg_valid l → sg_total l = n →
  wp (nvme_pci_setup_sgls env) (λ r s,
    (r = Ok BLK_STS_OK ∧ describes s n l ∧ kept s0 s ∧ ∃ pool bs, owns s0 pool bs s)
    ∨ (r = Ok BLK_STS_RESOURCE ∧ pool_live s = pool_live s0 ∧ (pool_calls s0 ≤ pool_calls s)%nat ∧ kept s0 s)) s0.
Proof.
  intros Hh H5 Hnr Hl Hne Hlen Hv Hn.
  assert (Htake : take (Z.to_nat n) (bytes (sg_chunk <$> l)) = bytes (sg_chunk <$> l)).
  { apply take_ge. pose proof (length_sg_bytes _ Hv). lia. }
  unfold nvme_pci_setup_sgls. apply wp_bind, wp_gets, wp_bind, wp_modify. rewrite Hne, Hl.
  destruct (decide (Z.of_nat (length l) = 1)) as [H1|H1].
  - rewrite bool_decide_true by done. destruct l as [|sg [|]]; [cbn in H1; lia| |cbn in H1; lia].
    apply wp_bind. eapply wp_from_opt; [done|]. cbv beta iota. apply wp_bind, wp_modify, wp_ret. left.
    split_and!; [done| |by split|exists PrpPagePool, []; by apply owns_none].
    exists [sg_chunk sg]. by rewrite Htake.
  - rewrite bool_decide_false by done.
    set (small := bool_decide (Z.of_nat (length l) ≤ 256 / 16)).
    set (pool := if small then PrpSmallPool else PrpPagePool).
    apply wp_bind, wp_modify, wp_bind.
    set (s1 := _ <| the_iod ::= λ io, io <| nr_allocations := if small then 0 else 1 |> |>).
    destruct (alloc_ok pool s1) as [(b & Hpool & He)|[Hpool He]]; (eapply wp_eq; [exact He|]); cbv beta iota.
    2:{ apply wp_bind, wp_modify, wp_ret. right. split_and!; [done|done|cbn; lia|by split]. }
    change (pool_calls s1) with (pool_calls s0) in *. clear He.
    apply wp_bind. eapply wp_eq; [reflexivity|]. cbv beta iota. apply wp_bind, wp_modify, wp_bind, wp_modify.
    match goal with |- wp _ _ ?s => set (s2 := s) end.
    assert (Hlive : pool_live s2 !! pool_calls s0 = Some (pool, b)) by (cbn; apply lookup_insert_eq).
    assert (Hfit : 0 + Z.of_nat (length l) ≤ pool_bytes pool / 16).
    { subst pool small. case_bool_decide; [done|]. change (pool_bytes PrpPagePool / 16) with 256. lia. }
    rewrite Z.max_l, Nat2Z.id by lia.
    destruct (sgl_loop_ok l _ _ _ 0 s2 Hlive ltac:(done) Hfit) as (D & He & HD & _).
    apply wp_bind. eapply wp_eq; [exact He|]. cbv beta iota. apply wp_ret. left.
    split_and!; [done| |by split|].
    + exists (sg_chunk <$> l). rewrite Htake. split; [|done].
      unfold decode. change (cmd_dptr _) with (DSgl (nvme_pci_sgl_set_seg b (Z.of_nat (length l)))).
      cbv iota. rewrite bool_decide_true by done. apply sgl_decode_seg; [lia|exact HD].
    + exists pool, [b]. split; try done.
      * change (pool_live _) with (<[pool_calls s0 := (pool, b)]> (pool_live s0)) at 1.
        cbn [fmap list_fmap map_seq]. by rewrite insert_empty, insert_union_singleton_l.
      * intros [|j] Hj; [|cbn in Hj; lia]. cbn. rewrite Nat.add_0_r.
        apply list_lookup_insert_eq. rewrite H5. unfold NVME_MAX_NR_ALLOCATIONS. lia.
      * subst pool. cbn. by destruct small.
      * cbn. lia.
      * rewrite H5. cbv. lia.
Qed.

(** ** Mapping and unmapping a request *)

(** The bytes the request was mapped to, and what holds them. *)
Definition mapped_bytes (s : pstate) : list Z :=
  let io := the_iod s in
  if bool_decide (dma_len io = 0) then bytes (sg_chunk <$> iod_sgl io)
  else seqZ (first_dma io) (dma_len io).

Definition data_res (s : pstate) : list dma_res :=
  let io := the_iod s in
  if bool_decide (dma_len io = 0) then [ResSgt (iod_sgl io); ResSglBuf]
  else [ResPage (first_dma io) (dma_len io)].

Record mapped (s0 s : pstate) (n : Z) (H : list dma_res) : Prop := {
  mp_view : ∃ chunks, decode s n = Some chunks ∧ bytes chunks = mapped_bytes s;
  mp_length : Z.of_nat (length (mapped_bytes s)) = n;
  mp_held : held s = data_res s ++ H;
  mp_blocks : ∃ pool bs, owns s0 pool bs s ∧ (dma_len (the_iod s) ≠ 0 → bs = []);
}.

Record unmapped (s0 s : pstate) (H : list dma_res) : Prop := {
  um_live : pool_live s = pool_live s0;
  um_calls : (pool_calls s0 ≤ pool_calls s)%nat;
  um_held : held s = H;
}.

Lemma unhold_head r H s : held s = r :: H → unhold r s = (Ok tt, s <| held := H |>).
Proof.
  intros E. unfold unhold, gets, modify, mbind, M_bind. cbn [id]. rewrite E. cbn [remove_first].
  by rewrite decide_True.
Qed.

(** Freeing a single block. *)
Lemma free_one s0 pool b s :
  owns s0 pool [b] s → handles_ok s0 →
  (h ← get_list 0; dma_pool_free pool h (first_dma (the_iod s))) s = (Ok tt, s <| pool_live := pool_live s0 |>).
Proof.
  intros Ho Hh. pose proof (ow_slot _ _ _ _ Ho 0 ltac:(cbn; lia)) as Hs. rewrite Nat.add_0_r in Hs.
  pose proof (ow_first _ _ _ _ Ho ltac:(done)) as [= Hb]. pose proof (ow_live _ _ _ _ Ho) as Hl.
  rewrite (bind_ok _ _ s (pool_calls s0) s).
  2:{ unfold get_list, gets, mbind, M_bind. cbn [id]. by rewrite Hs. }
  cbn [fmap list_fmap map_seq] in Hl. rewrite insert_empty, <- insert_union_singleton_l in Hl.
  unfold dma_pool_free, the_block, gets, mbind, M_bind. cbn [id]. rewrite Hl, lookup_insert_eq. cbn [from_opt mret M_ret].
  rewrite <- Hb, bool_decide_true by done. unfold modify.
  change (s <| pool_live ::= delete (pool_calls s0) |>)
    with (s <| pool_live := delete (pool_calls s0) (pool_live s) |>).
  by rewrite Hl, delete_insert_eq, delete_id by (apply Hh; lia).
Qed.

Lemma free_blocks_ok s0 pool bs s :
  owns s0 pool bs s → handles_ok s0 →
  (if bool_decide (nr_allocations (the_iod s) = 0) then
     h ← get_list 0; dma_pool_free PrpSmallPool h (first_dma (the_iod s))
   else if bool_decide (nr_allocations (the_iod s) = 1) then
     h ← get_list 0; dma_pool_free PrpPagePool h (first_dma (the_iod s))
   else nvme_free_prps) s = (Ok tt, s <| pool_live := pool_live s0 |>).
Proof.
  intros Ho Hh. pose proof (ow_nr _ _ _ _ Ho) as Hnr.
  assert (Hfree : pool = PrpPagePool ∨ bs = [] → nvme_free_prps s = (Ok tt, s <| pool_live := pool_live s0 |>)).
  { intros Hp. unfold nvme_free_prps. rewrite (bind_ok _ _ s (the_iod s) s) by done.
    replace (Z.to_nat (nr_allocations (the_iod s))) with (length bs) by (destruct bs, pool; naive_solver lia).
    apply (free_prps_loop_ok _ _ _ (pool_calls s0)); [|apply Ho|apply Ho| |done].
    - destruct bs; [by right|left]. by apply Ho.
    - rewrite (ow_live _ _ _ _ Ho). by destruct Hp as [->| ->]. }
  destruct bs as [|b [|b2 bs]].
  - rewrite Hnr. by apply Hfree; right.
  - destruct pool; rewrite Hnr; by eapply free_one.
  - destruct pool; [|pose proof (ow_small _ _ _ _ Ho eq_refl) as Hx; cbn in Hx; lia].
    rewrite Hnr. rewrite !bool_decide_false by (cbn; lia). apply Hfree. by left.
Qed.

Lemma unmap_data_ok s0 s H pool bs :
  handles_ok s0 → held s = data_res s ++ H → owns s0 pool bs s → (dma_len (the_iod s) ≠ 0 → bs = []) →
  wp nvme_unmap_data (λ r s', r = Ok tt ∧ unmapped s0 s' H) s.
Proof.
  intros Hh He Ho Hbs. unfold data_res in He. unfold nvme_unmap_data. apply wp_bind, wp_gets.
  destruct (decide (dma_len (the_iod s) = 0)) as [Hz|Hz].
  - rewrite bool_decide_true in He |- * by done. cbn [negb].
    apply wp_bind. eapply wp_eq; [by apply unhold_head|]. cbv beta iota.
    set (s1 := s <| held := ResSglBuf :: H |>).
    assert (Ho1 : owns s0 pool bs s1) by by destruct Ho.
    apply wp_bind. eapply wp_eq; [apply (free_blocks_ok _ _ _ _ Ho1 Hh)|]. cbv beta iota.
    eapply wp_eq; [by apply unhold_head|]. split; [done|]. split; [done|apply Ho|done].
  - rewrite bool_decide_false in He |- * by done. cbn [negb].
    eapply wp_eq; [by apply unhold_head|]. split; [done|]. split; [|apply Ho|done].
    rewrite (Hbs Hz) in Ho. change (pool_live (s <| held := H |>)) with (pool_live s).
    rewrite (ow_live _ _ _ _ Ho). cbn. by rewrite (left_id_L ∅ (∪)).
Qed.

(** What the block layer and the DMA API promise about one request. *)
Record req_ok (req : request) : Prop := {
  ro_bvec : rq_nr_phys_segments req = 1 →
    let bv := rq_bvec req in
    0 ≤ bv_offset bv ∧ 0 < bv_len bv ∧ bv_offset bv + bv_len bv < 2 ^ 32 ∧ bv_len bv = rq_payload_bytes req
    ∧ ∀ a, re_bvec env = Some a →
        0 ≤ a ∧ a + bv_len bv ≤ 2 ^ 64 ∧ a `mod` 4096 = bv_offset bv `mod` 4096;
  ro_sgl l : re_map_sgtable env = inr l →
    sgl_ok l (rq_payload_bytes req) ∧ sg_total l = rq_payload_bytes req ∧ (length l ≤ Z.to_nat NVME_MAX_SEGS)%nat;
  ro_integrity : rq_integrity req ≠ None → rq_nr_phys_segments req ≠ 0;
}.

(** The state nvme_prep_rq hands to nvme_map_data. *)
Record fresh_iod (s : pstate) : Prop := {
  fi_handles : handles_ok s;
  fi_slots : length (iod_list (the_iod s)) = NVME_MAX_NR_ALLOCATIONS;
  fi_nr : nr_allocations (the_iod s) = -1;
  fi_psdt : psdt (cmd_flags (iod_cmd (the_iod s))) = 0;
}.

Definition map_post (s0 : pstate) (n : Z) (r : outcome blk_status) (s : pstate) : Prop :=
  (r = Ok BLK_STS_OK ∧ mapped s0 s n (held s0))
  ∨ ∃ e, r = Ok e ∧ e ≠ BLK_STS_OK ∧ unmapped s0 s (held s0).

Lemma prp_simple_ok s0 req :
  req_ok req → fresh_iod s0 → rq_nr_phys_segments req = 1 →
  bv_offset (rq_bvec req) + bv_len (rq_bvec req) ≤ 8192 →
  wp (nvme_setup_prp_simple env (rq_bvec req)) (map_post s0 (rq_payload_bytes req)) s0.
Proof.
  intros Hr [Hh H5 Hnr Hp] H1 Hle. destruct (ro_bvec _ Hr H1) as (Ho & Hl & Hsum & <- & Hmap).
  unfold nvme_setup_prp_simple, dma_map_bvec_data. apply wp_bind.
  destruct (re_bvec env) as [a|].
  2:{ apply wp_ret, wp_bind, wp_modify, wp_ret. right. eexists. split_and!; [done|done|]. by split. }
  destruct (Hmap a eq_refl) as (Ha & Hend & Hmod). clear Hmap.
  apply wp_bind, wp_modify, wp_ret, wp_bind, wp_modify, wp_bind, wp_modify, wp_ret. left. split; [done|].
  set (bv := rq_bvec req) in *. change NVME_CTRL_PAGE_SIZE with 4096.
  rewrite land_page, <- Hmod. pose proof (Z.mod_pos_bound a 4096) as Hb.
  assert (Hoff : a `mod` 4096 + bv_len bv ≤ 8192).
  { rewrite Hmod. pose proof (Z.mod_le (bv_offset bv) 4096). lia. }
  split.
  - unfold mapped_bytes. rewrite (bool_decide_false (dma_len _ = 0)) by (cbn; lia).
    change (first_dma _) with a. change (dma_len _) with (bv_len bv).
    unfold decode. change (cmd_dptr _) with (DPrp a (if bool_decide (4096 - a `mod` 4096 < bv_len bv) then u64 (a + (4096 - a `mod` 4096)) else 0)).
    cbv iota. rewrite (bool_decide_true (psdt _ = 0)) by done. unfold prp_decode.
    set (first := 4096 - a `mod` 4096) in *.
    destruct (decide (first < bv_len bv)) as [Hlt|Hge].
    + rewrite Z.min_r, (bool_decide_false (bv_len bv - first ≤ 0)) by lia.
      rewrite !bool_decide_true by lia. rewrite wrap_small by lia. eexists. split; [done|].
      cbn [page_chunks]. rewrite Z.min_l, !bytes_cons, app_nil_r by lia. by rewrite <- seqZ_split by lia.
    + rewrite Z.min_l by lia. rewrite Z.sub_diag. eexists. split; [done|].
      by rewrite bytes_cons, app_nil_r.
  - unfold mapped_bytes. rewrite (bool_decide_false (dma_len _ = 0)) by (cbn; lia). change (dma_len _) with (bv_len bv).
    rewrite length_seqZ. lia.
  - unfold data_res. rewrite (bool_decide_false (dma_len _ = 0)) by (cbn; lia). done.
  - exists PrpPagePool, []. split; [|done]. by apply owns_none.
Qed.

Lemma sgl_simple_ok s0 req :
  req_ok req → fresh_iod s0 → rq_nr_phys_segments req = 1 →
  wp (nvme_setup_sgl_simple env (rq_bvec req)) (map_post s0 (rq_payload_bytes req)) s0.
Proof.
  intros Hr [Hh H5 Hnr Hp] H1. destruct (ro_bvec _ Hr H1) as (Ho & Hl & Hsum & <- & Hmap).
  unfold nvme_setup_sgl_simple, dma_map_bvec_data. apply wp_bind.
  destruct (re_bvec env) as [a|].
  2:{ apply wp_ret, wp_bind, wp_modify, wp_ret. right. eexists. split_and!; [done|done|]. by split. }
  apply wp_bind, wp_modify, wp_ret, wp_bind, wp_modify, wp_bind, wp_modify, wp_ret. left. split; [done|].
  set (bv := rq_bvec req) in *. split.
  - unfold mapped_bytes. rewrite (bool_decide_false (dma_len _ = 0)) by (cbn; lia).
    change (first_dma _) with a. change (dma_len _) with (bv_len bv).
    exists [(a, bv_len bv)]. split; [done|]. by rewrite bytes_cons, app_nil_r.
  - unfold mapped_bytes. rewrite (bool_decide_false (dma_len _ = 0)) by (cbn; lia). change (dma_len _) with (bv_len bv).
    rewrite length_seqZ. lia.
  - unfold data_res. rewrite (bool_decide_false (dma_len _ = 0)) by (cbn; lia). done.
  - exists PrpPagePool, []. split; [|done]. by apply owns_none.
Qed.

(** A data pointer that was set up for the whole scatter list. *)
Lemma described_mapped s0 s n H :
  describes s n (iod_sgl (the_iod s)) → sg_total (iod_sgl (the_iod s)) = n →
  Forall sg_valid (iod_sgl (the_iod s)) → dma_len (the_iod s) = 0 →
  held s = ResSgt (iod_sgl (the_iod s)) :: ResSglBuf :: H →
  (∃ pool bs, owns s0 pool bs s) → mapped s0 s n H.
Proof.
  intros (chunks & Hd & Hb) Hn Hv Hz Hh (pool & bs & Ho).
  pose proof (length_sg_bytes _ Hv) as Hlen.
  assert (Hm : mapped_bytes s = bytes (sg_chunk <$> iod_sgl (the_iod s))).
  { unfold mapped_bytes. by rewrite bool_decide_true. }
  split.
  - exists chunks. split; [done|]. rewrite Hm, Hb. apply take_ge. lia.
  - rewrite Hm. lia.
  - unfold data_res. by rewrite bool_decide_true.
  - by exists pool, bs.
Qed.

Lemma map_data_sgl_ok s0 dev thr req :
  req_ok req → fresh_iod s0 →
  wp (map_data_sgl env dev thr req) (map_post s0 (rq_payload_bytes req)) s0.
Proof.
  intros Hr [Hh H5 Hnr Hp]. unfold map_data_sgl. apply wp_bind, wp_modify.
  destruct (re_mempool env); cbn [negb].
  2:{ apply wp_ret. right. eexists. split_and!; [done|done|]. by split. }
  apply wp_bind, wp_modify.
  destruct (bool_decide (re_map_sg env = 0)).
  { apply wp_bind. eapply wp_eq; [by apply unhold_head|]. apply wp_ret. right. eexists.
    split_and!; [done|done|]. by split. }
  destruct (re_map_sgtable env) as [rc|l] eqn:Hmap.
  { apply wp_bind. eapply wp_eq; [by apply unhold_head|]. apply wp_ret. right. eexists.
    split_and!; [done|by destruct (bool_decide _)|]. by split. }
  destruct (ro_sgl _ Hr l Hmap) as (Hok & Htot & Hlen).
  apply wp_bind, wp_modify, wp_bind, wp_modify, wp_bind.
  match goal with |- wp _ _ ?s => set (s1 := s) end.
  assert (Hpost : wp (if nvme_pci_use_sgls dev thr req (Z.of_nat (length l))
                      then nvme_pci_setup_sgls env else nvme_pci_setup_prps env req)
    (λ r s, (r = Ok BLK_STS_OK ∧ describes s (rq_payload_bytes req) l ∧ kept s1 s ∧ ∃ pool bs, owns s1 pool bs s)
      ∨ (r = Ok BLK_STS_RESOURCE ∧ pool_live s = pool_live s1 ∧ (pool_calls s1 ≤ pool_calls s)%nat ∧ kept s1 s)) s1).
  { destruct (nvme_pci_use_sgls _ _ _ _).
    - apply setup_sgls_ok; try done; [|apply Hok]. split; [|exact Hlen].
      destruct l; [by destruct (so_head _ _ Hok)|cbn; lia].
    - eapply wp_mono; [apply (setup_prps_ok s1 req (rq_payload_bytes req)); done|].
      intros r s [(-> & Hd & Hs & Ho)|(-> & [Hl Hc Hs])]; apply same_rest_kept in Hs; [left|right]; done. }
  eapply wp_mono; [exact Hpost|]. cbv beta.
  intros r s [(-> & Hd & [Hsgl Hdl Hme Hmd Hhe] & Ho)|(-> & Hl & Hc & [Hsgl Hdl Hme Hmd Hhe])]; cbn [negb].
  - rewrite bool_decide_true by done. apply wp_ret. left. split; [done|].
    change (iod_sgl (the_iod s1)) with l in Hsgl.
    apply described_mapped; rewrite ?Hsgl; [exact Hd|exact Htot|apply Hok|exact Hdl|exact Hhe|].
    destruct Ho as (pool & bs & []). exists pool, bs. by split.
  - rewrite bool_decide_false by done. apply wp_bind.
    change (held s1) with (ResSgt l :: ResSglBuf :: held s0) in Hhe.
    eapply wp_eq; [apply (unhold_head _ _ _ Hhe)|]. cbv beta iota. apply wp_bind. eapply wp_eq; [by apply unhold_head|]. apply wp_ret. right. eexists.
    split_and!; [done|done|]. by split.
Qed.

(** Mapping a request's data: the controller sees exactly its bytes, or
    everything taken on the way is given back. *)
Lemma map_data_ok s0 dev thr req :
  req_ok req → fresh_iod s0 →
  wp (nvme_map_data env dev thr req) (map_post s0 (rq_payload_bytes req)) s0.
Proof.
  intros Hr Hf. unfold nvme_map_data.
  destruct (decide (rq_nr_phys_segments req = 1)) as [H1|H1].
  2:{ rewrite bool_decide_false by done. by apply map_data_sgl_ok. }
  rewrite bool_decide_true by done. destruct (bv_p2p (rq_bvec req)); cbn [negb andb]; [by apply map_data_sgl_ok|].
  destruct (ro_bvec _ Hr H1) as (Ho & Hl & Hsum & _).
  rewrite wrap_small by lia. case_bool_decide as Hle.
  { by apply prp_simple_ok. }
  destruct (_ && _); [by apply sgl_simple_ok|by apply map_data_sgl_ok].
Qed.

(** ** A request from preparation to completion *)

Record prepared (s : pstate) (req : request) : Prop := {
  pr_data : rq_nr_phys_segments req ≠ 0 →
            ∃ chunks, decode s (rq_payload_bytes req) = Some chunks ∧ bytes chunks = mapped_bytes s
                      ∧ Z.of_nat (length (mapped_bytes s)) = rq_payload_bytes req;
  pr_meta bv : rq_integrity req = Some bv → re_meta env = Some (cmd_metadata (iod_cmd (the_iod s)));
}.

Definition prep_start (s0 : pstate) : pstate :=
  s0 <| the_iod ::= λ io, io <| iod_aborted := false |> <| nr_allocations := -1 |> <| iod_nents := 0 |> |>
     <| held ::= cons ResCmd |>.

Lemma map_data_if s0 dev thr req :
  req_ok req → fresh_iod s0 →
  wp (if negb (bool_decide (rq_nr_phys_segments req = 0)) then nvme_map_data env dev thr req
      else mret BLK_STS_OK)
    (λ r s, (r = Ok BLK_STS_OK ∧ (rq_nr_phys_segments req ≠ 0 → mapped s0 s (rq_payload_bytes req) (held s0))
                               ∧ (rq_nr_phys_segments req = 0 → s = s0))
            ∨ ∃ e, r = Ok e ∧ e ≠ BLK_STS_OK ∧ unmapped s0 s (held s0)) s0.
Proof.
  intros Hr Hf. case_bool_decide as Hz; cbn [negb].
  - apply wp_ret. by left.
  - eapply wp_mono; [by apply map_data_ok|]. intros r s [[-> Hm]|H]; [by left|by right].
Qed.

(** Completing a request whose data was mapped. *)
Lemma unmap_mapped s0 s n H :
  handles_ok s0 → mapped s0 s n H → wp nvme_unmap_data (λ r s', r = Ok tt ∧ unmapped s0 s' H) s.
Proof. intros Hh [_ _ Hhe (pool & bs & Ho & Hbs)]. by eapply unmap_data_ok. Qed.

(** Neither the metadata nor what is held beside the data matters to it. *)
Lemma mapped_meta s0 s n H a b l :
  mapped s0 s n H →
  mapped s0 (s <| the_iod ::= λ io, io <| meta_dma := a |> |>
               <| the_iod ::= λ io, io <| iod_cmd ::= λ c, c <| cmd_metadata := b |> |> |>
               <| held := data_res s ++ l |>) n l.
Proof.
  intros [Hv Hl Hhe (pool & bs & [] & Hbs)]. split; [exact Hv|exact Hl|done|].
  exists pool, bs. split; [by split|done].
Qed.

Lemma map_metadata_ok s0 s n H bv :
  handles_ok s0 → mapped s0 s n H →
  wp (nvme_map_metadata env bv) (λ r s',
    (r = Ok BLK_STS_OK ∧ re_meta env = Some (cmd_metadata (iod_cmd (the_iod s')))
       ∧ (∃ chunks, decode s' n = Some chunks ∧ bytes chunks = mapped_bytes s'
                    ∧ Z.of_nat (length (mapped_bytes s')) = n)
       ∧ held s' = ResPage (meta_dma (the_iod s')) (bv_len bv) :: held s
       ∧ mapped s0 (s' <| held := held s |>) n H)
    ∨ ∃ e, r = Ok e ∧ e ≠ BLK_STS_OK ∧ mapped s0 s' n H) s.
Proof.
  intros Hh Hm. pose proof Hm as [(c & Hd & Hb) Hl Hhe _]. unfold nvme_map_metadata.
  destruct (re_meta env) as [a|].
  - apply wp_bind, wp_modify, wp_bind, wp_modify, wp_bind, wp_modify, wp_ret. left.
    split_and!; [done|done|by exists c|done|].
    pose proof (mapped_meta _ _ _ _ a a H Hm) as Hm'. rewrite <- Hhe in Hm'. exact Hm'.
  - apply wp_bind, wp_modify, wp_ret. right. exists BLK_STS_IOERR. split_and!; [done|done|].
    pose proof (mapped_meta _ _ _ _ DMA_MAPPING_ERROR (cmd_metadata (iod_cmd (the_iod s))) H Hm) as Hm'.
    rewrite <- Hhe in Hm'. by destruct s as [[[]]].
Qed.

(** Preparing a request succeeds with the controller's view right, or leaves
    nothing behind. *)
Lemma prep_rq_ok s0 dev thr req :
  req_ok req → handles_ok s0 → length (iod_list (the_iod s0)) = NVME_MAX_NR_ALLOCATIONS →
  psdt (cmd_flags (iod_cmd (the_iod s0))) = 0 →
  wp (nvme_prep_rq env dev thr req) (λ r s,
    (r = Ok BLK_STS_OK ∧ prepared s req
       ∧ wp (nvme_pci_unmap_rq req) (λ r' s', r' = Ok tt ∧ unmapped s0 s' (ResCmd :: held s0)) s)
    ∨ ∃ e, r = Ok e ∧ e ≠ BLK_STS_OK ∧ unmapped s0 s (held s0)) s0.
Proof.
  intros Hr Hh H5 Hp. unfold nvme_prep_rq. apply wp_bind, wp_modify.
  case_bool_decide as Hset; cbn [negb].
  2:{ apply wp_ret. right. eexists. split_and!; [done|done|]. by split. }
  apply wp_bind, wp_modify, wp_bind. fold (prep_start s0).
  assert (Hf : fresh_iod (prep_start s0)) by by split.
  eapply wp_mono; [by apply map_data_if|]. cbv beta.
  intros r s [(-> & Hm & Hz)|(e & -> & He & Hu)]; cbn [negb].
  2:{ rewrite bool_decide_false by done. apply wp_bind.
      eapply wp_eq; [apply unhold_head; apply Hu|]. apply wp_ret. right. exists e. split_and!; [done|done|].
      destruct Hu. by split. }
  rewrite bool_decide_true by done. apply wp_bind.
  destruct (rq_integrity req) as [bv|] eqn:Hint.
  - specialize (Hm (ro_integrity _ Hr ltac:(by rewrite Hint))).
    eapply wp_mono; [exact (map_metadata_ok (prep_start s0) s _ _ bv Hh Hm)|]. cbv beta.
    intros r1 s1 [(-> & Hmeta & Hview & Hhe & Hm')|(e & -> & He & Hm')]; cbv beta iota.
    + rewrite bool_decide_true by done. apply wp_ret. left. split; [done|]. split; [by split|].
      unfold nvme_pci_unmap_rq. apply wp_bind, wp_gets. rewrite Hint. apply wp_bind.
      eapply wp_eq; [apply (unhold_head _ _ _ Hhe)|]. cbv beta iota.
      rewrite bool_decide_false by (apply (ro_integrity _ Hr); by rewrite Hint).
      eapply wp_mono; [by apply (unmap_mapped (prep_start s0) _ _ _ Hh Hm')|].
      intros r' s' [-> [? ? ?]]. by split.
    + rewrite bool_decide_false by done. apply wp_bind.
      eapply wp_mono; [by apply (unmap_mapped (prep_start s0) _ _ _ Hh Hm')|].
      intros r' s' [-> Hu]. apply wp_bind. eapply wp_eq; [apply unhold_head; apply Hu|].
      apply wp_ret. right. exists e. split_and!; [done|done|]. destruct Hu. by split.
  - apply wp_ret. rewrite bool_decide_true by done. apply wp_ret. left. split; [done|]. split.
    + split; [|congruence]. intros Hne. destruct (Hm Hne) as [(c & Hd & Hb) Hl _ _]. by exists c.
    + unfold nvme_pci_unmap_rq. apply wp_bind, wp_gets. rewrite Hint. apply wp_bind, wp_ret.
      case_bool_decide as Hn0; cbn [negb when]; [apply wp_ret; rewrite (Hz Hn0); by split|].
      eapply wp_mono; [by apply (unmap_mapped (prep_start s0) _ _ _ Hh (Hm Hn0))|].
      intros r' s' [-> [? ? ?]]. by split.
Qed.
End build.
