(* ===== verification/PciQueue.v ===== *)
(** * PciQueue: submission and completion rings (baseline/6.8/pci.c, nvme.h)

    The ring arithmetic of struct nvme_queue: copying commands into the
    submission ring and announcing them by MMIO or through the shadow
    doorbells, polling completions by their phase bit, and matching a
    completion to its request by tag and generation. *)
From S2P Require Import Prelude.
From S2P Require Import Uapi.
From S2P Require Import Kernel.
From S2P Require Import PciData.

(** linux/nvme.h: NVME_AQ_DEPTH - NVME_NR_AEN_COMMANDS. *)
Definition NVME_AQ_BLK_MQ_DEPTH : Z := 31.

Record nvme_completion : Set := mk_cqe {
  cqe_result : Z;
  cqe_sq_id : Z;
  cqe_command_id : Z;
  cqe_status : Z;
}.

(** struct nvme_queue: identity, ring positions, the two rings' memory and
    the queue's slots in the shadow doorbell buffers. *)
Record nvme_queue : Type := mk_nvmeq {
  nq_qid : Z;
  nq_depth : Z;
  sq_tail : Z;
  last_sq_tail : Z;
  cq_head : Z;
  cq_phase : Z;
  sq_cmds : list nvme_rw_command;
  cqes : list nvme_completion;
  dbbuf_sq : option Z;
  dbbuf_cq : option Z;
}.

#[export] Instance set_nq_qid : Setter nq_qid := λ f r,
  mk_nvmeq (f (nq_qid r)) (nq_depth r) (sq_tail r) (last_sq_tail r) (cq_head r)
    (cq_phase r) (sq_cmds r) (cqes r) (dbbuf_sq r) (dbbuf_cq r).
#[export] Instance set_nq_depth : Setter nq_depth := λ f r,
  mk_nvmeq (nq_qid r) (f (nq_depth r)) (sq_tail r) (last_sq_tail r) (cq_head r)
    (cq_phase r) (sq_cmds r) (cqes r) (dbbuf_sq r) (dbbuf_cq r).
#[export] Instance set_sq_tail : Setter sq_tail := λ f r,
  mk_nvmeq (nq_qid r) (nq_depth r) (f (sq_tail r)) (last_sq_tail r) (cq_head r)
    (cq_phase r) (sq_cmds r) (cqes r) (dbbuf_sq r) (dbbuf_cq r).
#[export] Instance set_last_sq_tail : Setter last_sq_tail := λ f r,
  mk_nvmeq (nq_qid r) (nq_depth r) (sq_tail r) (f (last_sq_tail r)) (cq_head r)
    (cq_phase r) (sq_cmds r) (cqes r) (dbbuf_sq r) (dbbuf_cq r).
#[export] Instance set_cq_head : Setter cq_head := λ f r,
  mk_nvmeq (nq_qid r) (nq_depth r) (sq_tail r) (last_sq_tail r) (f (cq_head r))
    (cq_phase r) (sq_cmds r) (cqes r) (dbbuf_sq r) (dbbuf_cq r).
#[export] Instance set_cq_phase : Setter cq_phase := λ f r,
  mk_nvmeq (nq_qid r) (nq_depth r) (sq_tail r) (last_sq_tail r) (cq_head r) (f (cq_phase
    r)) (sq_cmds r) (cqes r) (dbbuf_sq r) (dbbuf_cq r).
#[export] Instance set_sq_cmds : Setter sq_cmds := λ f r,
  mk_nvmeq (nq_qid r) (nq_depth r) (sq_tail r) (last_sq_tail r) (cq_head r) (cq_phase r)
    (f (sq_cmds r)) (cqes r) (dbbuf_sq r) (dbbuf_cq r).
#[export] Instance set_cqes : Setter cqes := λ f r,
  mk_nvmeq (nq_qid r) (nq_depth r) (sq_tail r) (last_sq_tail r) (cq_head r) (cq_phase r)
    (sq_cmds r) (f (cqes r)) (dbbuf_sq r) (dbbuf_cq r).
#[export] Instance set_dbbuf_sq : Setter dbbuf_sq := λ f r,
  mk_nvmeq (nq_qid r) (nq_depth r) (sq_tail r) (last_sq_tail r) (cq_head r) (cq_phase r)
    (sq_cmds r) (cqes r) (f (dbbuf_sq r)) (dbbuf_cq r).
#[export] Instance set_dbbuf_cq : Setter dbbuf_cq := λ f r,
  mk_nvmeq (nq_qid r) (nq_depth r) (sq_tail r) (last_sq_tail r) (cq_head r) (cq_phase r)
    (sq_cmds r) (cqes r) (dbbuf_sq r) (f (dbbuf_cq r)).

(** The driver's part of a request: struct nvme_request. *)
Record nvme_request : Type := mk_nvmerq {
  genctr : Z;
  nr_status : Z;
  nr_result : Z;
}.

#[export] Instance set_genctr : Setter genctr := λ f r,
  mk_nvmerq (f (genctr r)) (nr_status r) (nr_result r).
#[export] Instance set_nr_status : Setter nr_status := λ f r,
  mk_nvmerq (genctr r) (f (nr_status r)) (nr_result r).
#[export] Instance set_nr_result : Setter nr_result := λ f r,
  mk_nvmerq (genctr r) (nr_status r) (f (nr_result r)).

Inductive qevent : Set :=
  | EvAsync (c : nvme_completion)
  | EvInvalidId (cid sq_id : Z)
  | EvGenMismatch (tag : Z)
  | EvNoTag (tag : Z)
  | EvCompleted (tag : Z).

(** [mmio] is the log of doorbell writes (register index, value), [seen] the
    completion entries taken off the ring, both oldest first. *)
Record qstate : Type := mk_qstate {
  the_q : nvme_queue;
  dbbuf_dbs : Z → Z;
  dbbuf_eis : Z → Z;
  tags : gmap Z nvme_request;
  mmio : list (Z * Z);
  seen : list nvme_completion;
  qlog : list qevent;
}.

#[export] Instance set_the_q : Setter the_q := λ f r,
  mk_qstate (f (the_q r)) (dbbuf_dbs r) (dbbuf_eis r) (tags r) (mmio r) (seen r) (qlog
    r).
#[export] Instance set_dbbuf_dbs : Setter dbbuf_dbs := λ f r,
  mk_qstate (the_q r) (f (dbbuf_dbs r)) (dbbuf_eis r) (tags r) (mmio r) (seen r) (qlog
    r).
#[export] Instance set_dbbuf_eis : Setter dbbuf_eis := λ f r,
  mk_qstate (the_q r) (dbbuf_dbs r) (f (dbbuf_eis r)) (tags r) (mmio r) (seen r) (qlog
    r).
#[export] Instance set_tags : Setter tags := λ f r,
  mk_qstate (the_q r) (dbbuf_dbs r) (dbbuf_eis r) (f (tags r)) (mmio r) (seen r) (qlog
    r).
#[export] Instance set_mmio : Setter mmio := λ f r,
  mk_qstate (the_q r) (dbbuf_dbs r) (dbbuf_eis r) (tags r) (f (mmio r)) (seen r) (qlog
    r).
#[export] Instance set_seen : Setter seen := λ f r,
  mk_qstate (the_q r) (dbbuf_dbs r) (dbbuf_eis r) (tags r) (mmio r) (f (seen r)) (qlog
    r).
#[export] Instance set_qlog : Setter qlog := λ f r,
  mk_qstate (the_q r) (dbbuf_dbs r) (dbbuf_eis r) (tags r) (mmio r) (seen r) (f (qlog
    r)).

Definition upd_q (f : nvme_queue → nvme_queue) : M qstate unit := modify (λ s, s <| the_q ::= f |>).
Definition qemit (e : qevent) : M qstate unit := modify (λ s, s <| qlog ::= λ l, l ++ [e] |>).

(** ** Shadow doorbells *)

Definition sq_idx (qid stride : Z) : Z := u32 (qid * 2 * stride).
Definition cq_idx (qid stride : Z) : Z := u32 ((qid * 2 + 1) * stride).

Definition nvme_dbbuf_size (dev : nvme_dev) : Z := u32 (nr_allocated_queues dev * 8 * db_stride dev).

Definition nvme_dbbuf_need_event (event_idx new_idx old : Z) : bool :=
  bool_decide (u16 (new_idx - event_idx - 1) < u16 (new_idx - old)).

(** [slot]: the queue's index in dev->dbbuf_dbs and dev->dbbuf_eis, or none
    when the controller has no shadow doorbells. *)
Definition nvme_dbbuf_update_and_check_event (value : Z) (slot : option Z) : M qstate bool :=
  match slot with
  | None => mret true
  | Some i =>
      s ← gets id;
      let old_value := u16 (dbbuf_dbs s i) in
      modify (λ s, s <| dbbuf_dbs ::= store i value |>);;
      let event_idx := u16 (dbbuf_eis s i) in
      mret (nvme_dbbuf_need_event event_idx value old_value)
  end.

(** nvme_dbbuf_init and nvme_dbbuf_free; [dbs] is [dev->dbbuf_dbs != NULL]. *)
Definition nvme_dbbuf_init (dev : nvme_dev) (dbs : bool) (qid : Z) (q : nvme_queue) : nvme_queue :=
  if negb dbs || bool_decide (qid = 0) then q
  else q <| dbbuf_sq := Some (sq_idx qid (db_stride dev)) |>
         <| dbbuf_cq := Some (cq_idx qid (db_stride dev)) |>.

Definition nvme_dbbuf_free (q : nvme_queue) : nvme_queue :=
  if bool_decide (nq_qid q = 0) then q else q <| dbbuf_sq := None |> <| dbbuf_cq := None |>.

(** nvme_dbbuf_set: [rc] is the result of the Doorbell Buffer Config command;
    on failure the loop runs over [queues[1..online_queues]]. *)
Definition nvme_dbbuf_set (dev : nvme_dev) (dbs : bool) (rc : Z) : M (list nvme_queue) bool :=
  if negb dbs then mret dbs
  else if bool_decide (rc = 0) then mret dbs
  else
    for_each (λ i, qs ← gets id;
                   q ← from_opt OutOfBounds (qs !! i);
                   modify (λ qs, <[i := nvme_dbbuf_free q]> qs))
      (seq 1 (Z.to_nat (online_queues dev)));;
    mret false.

(** ** Submission *)

Section submission.
Context (db_stride : Z).

Definition q_db (q : nvme_queue) : Z := nq_qid q * 2 * db_stride.

Definition nvme_write_sq_db (write_sq : bool) : M qstate unit :=
  q ← gets the_q;
  let next_tail := u16 (sq_tail q + 1) in
  let next_tail := if bool_decide (next_tail = nq_depth q) then 0 else next_tail in
  if negb write_sq && negb (bool_decide (next_tail = last_sq_tail q)) then mret tt
  else
    ring ← nvme_dbbuf_update_and_check_event (sq_tail q) (dbbuf_sq q);
    when ring (modify (λ s, s <| mmio ::= λ l, l ++ [(q_db q, sq_tail q)] |>));;
    upd_q (λ q, q <| last_sq_tail := sq_tail q |>).

Definition nvme_sq_copy_cmd (cmd : nvme_rw_command) : M qstate unit :=
  q ← gets the_q;
  if bool_decide (Z.to_nat (sq_tail q) < length (sq_cmds q))%nat then
    let tail := u16 (sq_tail q + 1) in
    upd_q (λ q, q <| sq_cmds ::= <[Z.to_nat (sq_tail q) := cmd]> |>
                  <| sq_tail := if bool_decide (tail = nq_depth q) then 0 else tail |>)
  else crash OutOfBounds.

(** The locked part of nvme_queue_rq. *)
Definition queue_cmd (cmd : nvme_rw_command) (last : bool) : M qstate unit :=
  nvme_sq_copy_cmd cmd;; nvme_write_sq_db last.

Definition nvme_commit_rqs : M qstate unit :=
  q ← gets the_q;
  when (negb (bool_decide (sq_tail q = last_sq_tail q))) (nvme_write_sq_db true).

Definition nvme_submit_cmds (cmds : list nvme_rw_command) : M qstate unit :=
  for_each nvme_sq_copy_cmd cmds;; nvme_write_sq_db true.

End submission.

(** ** Command identifiers *)

Definition nvme_genctr_mask (gen : Z) : Z := Z.land gen 15.
Definition nvme_cid_install_genctr (gen : Z) : Z := Z.shiftl (nvme_genctr_mask gen) 12.
Definition nvme_genctr_from_cid (cid : Z) : Z := Z.shiftr (Z.land cid 61440) 12.
Definition nvme_tag_from_cid (cid : Z) : Z := Z.land cid 4095.

Definition nvme_cid (rq : nvme_request) (tag : Z) : Z :=
  u16 (Z.lor (nvme_cid_install_genctr (genctr rq)) tag).

Definition nvme_find_rq (command_id : Z) : M qstate (option Z) :=
  let gen := nvme_genctr_from_cid command_id in
  let tag := nvme_tag_from_cid command_id in
  s ← gets id;
  match tags s !! tag with
  | None => qemit (EvNoTag tag);; mret None
  | Some rq =>
      if bool_decide (nvme_genctr_mask (genctr rq) ≠ gen)
      then qemit (EvGenMismatch tag);; mret None
      else mret (Some tag)
  end.

Definition nvme_is_aen_req (qid command_id : Z) : bool :=
  bool_decide (qid = 0) && bool_decide (NVME_AQ_BLK_MQ_DEPTH ≤ nvme_tag_from_cid command_id).

(** ** Completion *)

Section completion.
Context (db_stride : Z) (skip_cid_gen : bool).

(** nvme_try_complete_req and what follows it: the request gets its status and
    result and is handed to the block layer, inline, in a batch or on another
    CPU. *)
Definition nvme_try_complete_req (tag : Z) (c : nvme_completion) : M qstate unit :=
  s ← gets id;
  rq ← from_opt NullDeref (tags s !! tag);
  modify (λ s, s <| tags ::= <[tag :=
    (if skip_cid_gen then rq else rq <| genctr ::= λ g, u8 (g + 1) |>)
      <| nr_status := Z.shiftr (cqe_status c) 1 |> <| nr_result := cqe_result c |>]> |>);;
  qemit (EvCompleted tag).

(** nvme_handle_cqe after the read of the entry. *)
Definition handle_entry (c : nvme_completion) : M qstate unit :=
  q ← gets the_q;
  if nvme_is_aen_req (nq_qid q) (cqe_command_id c) then qemit (EvAsync c)
  else
    o ← nvme_find_rq (cqe_command_id c);
    match o with
    | None => qemit (EvInvalidId (cqe_command_id c) (cqe_sq_id c))
    | Some tag => nvme_try_complete_req tag c
    end.

Definition nvme_handle_cqe (idx : Z) : M qstate unit :=
  q ← gets the_q;
  c ← from_opt OutOfBounds (cqes q !! Z.to_nat idx);
  modify (λ s, s <| seen ::= λ l, l ++ [c] |>);;
  handle_entry c.

Definition nvme_cqe_pending : M qstate bool :=
  q ← gets the_q;
  c ← from_opt OutOfBounds (cqes q !! Z.to_nat (cq_head q));
  mret (bool_decide (Z.land (cqe_status c) 1 = cq_phase q)).

Definition nvme_ring_cq_doorbell : M qstate unit :=
  q ← gets the_q;
  let head := cq_head q in
  ring ← nvme_dbbuf_update_and_check_event head (dbbuf_cq q);
  when ring (modify (λ s, s <| mmio ::= λ l, l ++ [(q_db db_stride q + db_stride, head)] |>)).

Definition nvme_update_cq_head : M qstate unit :=
  upd_q (λ q,
    let tmp := u32 (cq_head q + 1) in
    if bool_decide (tmp = nq_depth q)
    then q <| cq_head := 0 |> <| cq_phase ::= λ p, Z.lxor p 1 |>
    else q <| cq_head := u16 tmp |>).

(** The [while (nvme_cqe_pending(nvmeq))] loop on a ring the controller does
    not write meanwhile; [found] entries so far. *)
Fixpoint poll_loop (fuel : nat) (found : Z) : M qstate Z :=
  match fuel with
  | O => crash OutOfFuel
  | S fuel =>
      p ← nvme_cqe_pending;
      if (p : bool) then
        q ← gets the_q;
        nvme_handle_cqe (cq_head q);;
        nvme_update_cq_head;;
        poll_loop fuel (found + 1)
      else mret found
  end.

Definition nvme_poll_cq : M qstate Z :=
  q ← gets the_q;
  found ← poll_loop (S (length (cqes q))) 0;
  when (negb (bool_decide (found = 0))) nvme_ring_cq_doorbell;;
  mret found.

Inductive irqreturn : Set := IRQ_NONE | IRQ_HANDLED | IRQ_WAKE_THREAD.

Definition nvme_irq : M qstate irqreturn := nvme_poll_cq;; mret IRQ_HANDLED.

Definition nvme_irq_check : M qstate irqreturn :=
  p ← nvme_cqe_pending;
  mret (if (p : bool) then IRQ_WAKE_THREAD else IRQ_NONE).

Definition nvme_poll : M qstate bool :=
  p ← nvme_cqe_pending;
  if (p : bool) then found ← nvme_poll_cq; mret (negb (bool_decide (found = 0)))
  else mret false.

End completion.

(** The ring part of nvme_init_queue: positions reset, completion ring zeroed. *)
Definition nvme_init_queue_rings (dev : nvme_dev) (dbs : bool) (qid : Z) (q : nvme_queue) : nvme_queue :=
  nvme_dbbuf_init dev dbs qid
    (q <| sq_tail := 0 |> <| last_sq_tail := 0 |> <| cq_head := 0 |> <| cq_phase := 1 |>
       <| cqes ::= fmap (λ _, mk_cqe 0 0 0 0) |>).
