(* ===== verification/PciQueueSpec.v ===== *)
(** * PciQueueSpec: the rings refine sequences

    Abstractly a submission ring is the sequence of commands submitted so far
    with a count of those announced, and a completion ring is the sequence of
    entries the controller posted with a count of those consumed.  The ring
    positions are these counts modulo the depth, the phase bit the parity of
    the number of passes. *)
From S2P Require Import Prelude.
From S2P Require Import Uapi.
From S2P Require Import Kernel.
From S2P Require Import PciData.
From S2P Require Import PciQueue.

(** ** The event window of the shadow doorbells *)

Lemma need_event_window e new old :
  nvme_dbbuf_need_event e new old = true ↔ u16 (e - old) < u16 (new - old).
Proof.
  unfold nvme_dbbuf_need_event. rewrite bool_decide_eq_true. unfold wrap.
  set (m := 2 ^ 16). assert (Hm : 0 < m) by done.
  assert (H1 : (new - e - 1) `mod` m = ((new - old) `mod` m - (e - old) `mod` m - 1) `mod` m).
  { replace ((new - old) `mod` m - (e - old) `mod` m - 1)
      with ((new - old) `mod` m - ((e - old) `mod` m + 1)) by lia.
    rewrite Zminus_mod_idemp_l.
    replace (new - old - ((e - old) `mod` m + 1)) with (new - old - 1 - (e - old) `mod` m) by lia.
    rewrite Zminus_mod_idemp_r. f_equal. lia. }
  rewrite H1. pose proof (Z.mod_pos_bound (new - old) m Hm) as Ha. pose proof (Z.mod_pos_bound (e - old) m Hm) as Hb.
  set (a := (new - old) `mod` m) in *. set (b := (e - old) `mod` m) in *. clearbody a b m.
  destruct (decide (b < a)) as [Hlt|Hge].
  - rewrite Z.mod_small by lia. lia.
  - rewrite <- (Z.mod_unique (a - b - 1) m (-1) (a - b - 1 + m)) by lia. lia.
Qed.

(** ** Ring positions *)

Section positions.
Context (d : nat) (Hd : (2 ≤ d)%nat).

(** The parity of the pass over the ring: 1 on the first. *)
Definition phase (k : nat) : Z := Z.of_nat ((1 + k / d) mod 2).

Lemma slot_lt k : (k mod d < d)%nat.
Proof. apply Nat.mod_upper_bound. lia. Qed.

Lemma slot_step k : (S k mod d = if decide (S (k mod d) = d) then 0 else S (k mod d))%nat.
Proof.
  pose proof (slot_lt k). pose proof (Nat.div_mod_eq k d).
  case_decide as E.
  - symmetry. apply (Nat.mod_unique _ _ (S (k / d))); lia.
  - symmetry. apply (Nat.mod_unique _ _ (k / d)); lia.
Qed.

Lemma div_step k : (S k / d = if decide (S (k mod d) = d) then S (k / d) else k / d)%nat.
Proof.
  pose proof (slot_lt k). pose proof (Nat.div_mod_eq k d).
  case_decide as E.
  - symmetry. apply (Nat.div_unique _ _ _ 0); lia.
  - symmetry. apply (Nat.div_unique _ _ _ (S (k mod d))); lia.
Qed.

Lemma parity_flip n : Z.lxor (Z.of_nat (n mod 2)) 1 = Z.of_nat (S n mod 2).
Proof.
  pose proof (Nat.mod_upper_bound n 2). replace (S n) with (1 + n)%nat by lia.
  rewrite <- Nat.Div0.add_mod_idemp_r.
  destruct (n mod 2)%nat as [|[|]]; [done|done|lia].
Qed.

Lemma phase_step k :
  phase (S k) = if decide (S (k mod d) = d) then Z.lxor (phase k) 1 else phase k.
Proof.
  unfold phase. rewrite div_step. case_decide; [|done]. by rewrite parity_flip.
Qed.

(** One pass later the bit has flipped. *)
Lemma phase_pass k : phase (k + d) ≠ phase k.
Proof.
  unfold phase. replace (k + d)%nat with (k + 1 * d)%nat by lia. rewrite Nat.div_add by lia.
  replace (1 + (k / d + 1))%nat with (S (1 + k / d)) by lia. rewrite <- parity_flip.
  pose proof (Nat.mod_upper_bound (1 + k / d)%nat 2). destruct ((1 + k / d) mod 2)%nat as [|[|]]; [done|done|lia].
Qed.

Lemma phase_first k : (k < d)%nat → phase k = 1.
Proof. intros H. unfold phase. by rewrite Nat.div_small. Qed.

(** Two counts less than a ring apart share a slot only when equal. *)
Lemma slot_inj j k : (j ≤ k)%nat → (k < j + d)%nat → (j mod d = k mod d)%nat → j = k.
Proof.
  intros H1 H2 E. pose proof (Nat.div_mod_eq j d) as Ej. pose proof (Nat.div_mod_eq k d) as Ek.
  rewrite E in Ej. destruct (Nat.lt_trichotomy (j / d) (k / d)) as [Hlt|[Heq|Hgt]].
  - assert (d * S (j / d) ≤ d * (k / d))%nat by (apply Nat.mul_le_mono_l; lia). lia.
  - rewrite Heq in Ej. lia.
  - assert (d * S (k / d) ≤ d * (j / d))%nat by (apply Nat.mul_le_mono_l; lia). lia.
Qed.

End positions.

(** ** The completion ring *)

Definition depth (q : nvme_queue) : nat := Z.to_nat (nq_depth q).

(** [posted]: every entry the controller wrote, oldest first; [h] consumed. *)
Record cq_ring (q : nvme_queue) (posted : list nvme_completion) (h : nat) : Prop := {
  cr_depth : 2 ≤ nq_depth q < 2 ^ 16;
  cr_length : length (cqes q) = depth q;
  cr_head : cq_head q = Z.of_nat (h mod depth q);
  cr_phase : cq_phase q = phase (depth q) h;
  cr_range : (h ≤ length posted ≤ h + depth q)%nat;
  cr_slots k c : posted !! k = Some c → (length posted ≤ k + depth q)%nat →
                 cqes q !! (k mod depth q)%nat = Some c;
  cr_empty i : (length posted ≤ i < depth q)%nat →
               ∃ c, cqes q !! i = Some c ∧ Z.land (cqe_status c) 1 = 0;
  cr_bits k c : posted !! k = Some c → Z.land (cqe_status c) 1 = phase (depth q) k;
}.

Lemma cq_ring_depth q posted h : cq_ring q posted h → (2 ≤ depth q)%nat.
Proof. intros []. unfold depth. lia. Qed.

(** An unconsumed entry is at the head and carries the expected phase. *)
Lemma cq_head_entry q posted h c :
  cq_ring q posted h → posted !! h = Some c →
  cqes q !! Z.to_nat (cq_head q) = Some c ∧ Z.land (cqe_status c) 1 = cq_phase q.
Proof.
  intros H Hc. rewrite (cr_head _ _ _ H), Nat2Z.id, (cr_phase _ _ _ H).
  split; [apply (cr_slots _ _ _ H _ _ Hc); pose proof (cr_range _ _ _ H); lia|by apply H].
Qed.

(** When all is consumed the entry at the head is from the pass before. *)
Lemma cq_head_stale q posted h :
  cq_ring q posted h → h = length posted →
  ∃ c, cqes q !! Z.to_nat (cq_head q) = Some c ∧ Z.land (cqe_status c) 1 ≠ cq_phase q.
Proof.
  intros H Hh. pose proof (cq_ring_depth _ _ _ H) as Hd. rewrite (cr_head _ _ _ H), Nat2Z.id, (cr_phase _ _ _ H).
  destruct (decide (h < depth q)%nat) as [Hlt|Hge].
  - rewrite Nat.mod_small by done. destruct (cr_empty _ _ _ H h) as (c & Hc & Hz); [lia|].
    exists c. split; [done|]. by rewrite Hz, phase_first.
  - destruct (lookup_lt_is_Some_2 posted (h - depth q)) as [c Hc]; [lia|].
    exists c. rewrite (cr_bits _ _ _ H _ _ Hc). split.
    + replace (h mod depth q)%nat with ((h - depth q) mod depth q)%nat.
      * apply (cr_slots _ _ _ H _ _ Hc). lia.
      * replace h with (h - depth q + 1 * depth q)%nat at 2 by lia. by rewrite Nat.Div0.mod_add.
    + intros E. apply (phase_pass (depth q) Hd (h - depth q)).
      rewrite E. f_equal. lia.
Qed.

Lemma cqe_pending_ok s posted h :
  cq_ring (the_q s) posted h →
  nvme_cqe_pending s = (Ok (bool_decide (h < length posted)%nat), s).
Proof.
  intros H. unfold nvme_cqe_pending. rewrite (bind_ok _ _ _ (the_q s) s) by done.
  pose proof (cr_range _ _ _ H).
  destruct (decide (h < length posted)%nat) as [Hlt|Hge].
  - rewrite (bool_decide_true (h < _)%nat) by done. apply lookup_lt_is_Some_2 in Hlt as [c Hc].
    destruct (cq_head_entry _ _ _ _ H Hc) as [-> Hp].
    rewrite (bind_ok _ _ _ c s) by done. by rewrite bool_decide_true.
  - rewrite (bool_decide_false (h < _)%nat) by done.
    destruct (cq_head_stale _ _ _ H) as (c & -> & Hp); [lia|].
    rewrite (bind_ok _ _ _ c s) by done. by rewrite bool_decide_false.
Qed.

(** The next head. *)
Definition advance (q : nvme_queue) : nvme_queue :=
  if bool_decide (u32 (cq_head q + 1) = nq_depth q)
  then q <| cq_head := 0 |> <| cq_phase ::= λ p, Z.lxor p 1 |>
  else q <| cq_head := u16 (u32 (cq_head q + 1)) |>.

Lemma cq_ring_at q posted h h' hd ph :
  cq_ring q posted h → (h ≤ h' ≤ length posted)%nat →
  hd = Z.of_nat (h' mod depth q) → ph = phase (depth q) h' →
  cq_ring (q <| cq_head := hd |> <| cq_phase := ph |>) posted h'.
Proof.
  intros [] Hh -> ->. split; try done.
  change (depth (q <| cq_head := _ |> <| cq_phase := _ |>)) with (depth q). lia.
Qed.

Lemma advance_ring q posted h :
  cq_ring q posted h → (h < length posted)%nat → cq_ring (advance q) posted (S h).
Proof.
  intros H Hlt. pose proof (cq_ring_depth _ _ _ H) as Hd. pose proof (slot_lt _ Hd h) as Hs.
  assert (Hdep : nq_depth q = Z.of_nat (depth q) ∧ Z.of_nat (depth q) < 2 ^ 16) by (unfold depth; destruct H; lia).
  pose proof (slot_step _ Hd h) as Hst. pose proof (phase_step _ Hd h) as Hps.
  pose proof (cr_head _ _ _ H) as Hhead. pose proof (cr_phase _ _ _ H) as Hph.
  assert (Hr : u32 (cq_head q + 1) = Z.of_nat (S (h mod depth q))).
  { rewrite Hhead, wrap_small by lia. lia. }
  unfold advance. rewrite Hr. case_decide as E.
  - rewrite bool_decide_true by lia.
    change (q <| cq_head := 0 |> <| cq_phase ::= λ p, Z.lxor p 1 |>)
      with (q <| cq_head := 0 |> <| cq_phase := Z.lxor (cq_phase q) 1 |>).
    apply (cq_ring_at _ _ h); [done|lia|by rewrite Hst|by rewrite Hps, Hph].
  - rewrite bool_decide_false by lia. rewrite wrap_small by lia.
    replace (q <| cq_head := Z.of_nat (S (h mod depth q)) |>)
      with (q <| cq_head := Z.of_nat (S (h mod depth q)) |> <| cq_phase := cq_phase q |>) by (by destruct q).
    apply (cq_ring_at _ _ h); [done|lia|by rewrite Hst|by rewrite Hps, Hph].
Qed.

(** ** What one completion entry does to the requests

    The reference: an asynchronous event of the admin queue is passed on; an
    unknown tag or an old generation is reported and ignored; otherwise the
    request gets the entry's status and result and moves to its next
    generation. *)
Definition entry_effect (skip : bool) (qid : Z) (st : gmap Z nvme_request * list qevent)
    (c : nvme_completion) : gmap Z nvme_request * list qevent :=
  let '(ts, l) := st in
  let cid := cqe_command_id c in
  let tag := nvme_tag_from_cid cid in
  if bool_decide (qid = 0) && bool_decide (NVME_AQ_BLK_MQ_DEPTH ≤ tag) then (ts, l ++ [EvAsync c])
  else
    match ts !! tag with
    | None => (ts, l ++ [EvNoTag tag; EvInvalidId cid (cqe_sq_id c)])
    | Some rq =>
        if bool_decide (nvme_genctr_mask (genctr rq) = nvme_genctr_from_cid cid) then
          (<[tag := mk_nvmerq (if skip then genctr rq else u8 (genctr rq + 1))
                      (Z.shiftr (cqe_status c) 1) (cqe_result c)]> ts,
           l ++ [EvCompleted tag])
        else (ts, l ++ [EvGenMismatch tag; EvInvalidId cid (cqe_sq_id c)])
    end.

Section poll.
Context (stride : Z) (skip : bool).

Lemma qlog_two s a b :
  s <| qlog ::= λ l, l ++ [a] |> <| qlog ::= λ l, l ++ [b] |> = s <| qlog := qlog s ++ [a; b] |>.
Proof.
  unfold set, set_qlog. cbn [the_q dbbuf_dbs dbbuf_eis tags mmio seen qlog]. by rewrite <- app_assoc.
Qed.

Lemma handle_entry_ok c s :
  let '(ts, l) := entry_effect skip (nq_qid (the_q s)) (tags s, qlog s) c in
  handle_entry skip c s = (Ok tt, s <| tags := ts |> <| qlog := l |>).
Proof.
  unfold handle_entry, entry_effect, nvme_find_rq, nvme_is_aen_req.
  rewrite (bind_ok _ _ s (the_q s) s) by done.
  destruct (_ && _); [by destruct s|].
  unfold qemit, modify, gets, mbind, M_bind, mret, M_ret. cbn [id].
  destruct (tags s !! nvme_tag_from_cid (cqe_command_id c)) as [rq|] eqn:Ht.
  2:{ rewrite qlog_two. by destruct s. }
  destruct (decide (nvme_genctr_mask (genctr rq) = nvme_genctr_from_cid (cqe_command_id c))) as [E|E].
  - rewrite (bool_decide_true (_ = _)), bool_decide_false by naive_solver.
    unfold nvme_try_complete_req, qemit, gets, modify, mbind, M_bind. cbn [id]. rewrite Ht.
    destruct s, skip, rq; done.
  - rewrite (bool_decide_false (_ = _)), bool_decide_true by naive_solver.
    rewrite qlog_two. by destruct s.
Qed.

(** One turn of the loop. *)
Definition consumed (c : nvme_completion) (s : qstate) : qstate :=
  let '(ts, l) := entry_effect skip (nq_qid (the_q s)) (tags s, qlog s) c in
  s <| seen ::= λ k, k ++ [c] |> <| tags := ts |> <| qlog := l |> <| the_q ::= advance |>.

Lemma poll_turn s posted h c :
  cq_ring (the_q s) posted h → posted !! h = Some c →
  (nvme_handle_cqe skip (cq_head (the_q s));; nvme_update_cq_head) s = (Ok tt, consumed c s).
Proof.
  intros H Hc. destruct (cq_head_entry _ _ _ _ H Hc) as [He _].
  set (s1 := s <| seen ::= λ k, k ++ [c] |>).
  pose proof (handle_entry_ok c s1) as Hh. unfold consumed.
  change (the_q s1) with (the_q s) in Hh. change (tags s1) with (tags s) in Hh. change (qlog s1) with (qlog s) in Hh.
  destruct (entry_effect _ _ _ _) as [ts l].
  erewrite bind_ok; [reflexivity|]. unfold nvme_handle_cqe.
  rewrite (bind_ok _ _ s (the_q s) s) by done. rewrite (bind_ok _ _ s c s) by (by rewrite He).
  rewrite (bind_ok _ _ s tt s1) by done. exact Hh.
Qed.

(** The queue apart from its completion position. *)
Definition same_sq (q q' : nvme_queue) : Prop :=
  nq_qid q' = nq_qid q ∧ nq_depth q' = nq_depth q ∧ sq_tail q' = sq_tail q
  ∧ last_sq_tail q' = last_sq_tail q ∧ sq_cmds q' = sq_cmds q ∧ cqes q' = cqes q
  ∧ dbbuf_sq q' = dbbuf_sq q ∧ dbbuf_cq q' = dbbuf_cq q.

Lemma advance_same_sq q : same_sq q (advance q).
Proof. unfold advance. by destruct (bool_decide _). Qed.

Lemma same_sq_trans q1 q2 q3 : same_sq q1 q2 → same_sq q2 q3 → same_sq q1 q3.
Proof. unfold same_sq. intuition congruence. Qed.

Record polled (posted : list nvme_completion) (h : nat) (s s' : qstate) : Prop := {
  pd_ring : cq_ring (the_q s') posted (length posted);
  pd_same : same_sq (the_q s) (the_q s');
  pd_seen : seen s' = seen s ++ drop h posted;
  pd_effect : (tags s', qlog s')
              = foldl (entry_effect skip (nq_qid (the_q s))) (tags s, qlog s) (drop h posted);
}.

Lemma poll_loop_ok fuel s posted h found :
  cq_ring (the_q s) posted h → (length posted - h < fuel)%nat →
  ∃ s', poll_loop skip fuel found s = (Ok (found + Z.of_nat (length posted - h)), s')
        ∧ polled posted h s s' ∧ dbbuf_dbs s' = dbbuf_dbs s ∧ dbbuf_eis s' = dbbuf_eis s ∧ mmio s' = mmio s.
Proof.
  revert s h found. induction fuel as [|fuel IH]; intros s h found H Hf; [lia|].
  cbn [poll_loop]. rewrite (bind_ok _ _ _ _ _ (cqe_pending_ok _ _ _ H)).
  pose proof (cr_range _ _ _ H) as Hr.
  case_bool_decide as Hlt.
  - destruct (lookup_lt_is_Some_2 posted h Hlt) as [c Hc].
    rewrite (bind_ok _ _ s (the_q s) s) by done.
    pose proof (poll_turn _ _ _ _ H Hc) as Ht.
    assert (Hc1 : the_q (consumed c s) = advance (the_q s) ∧ seen (consumed c s) = seen s ++ [c]
      ∧ (tags (consumed c s), qlog (consumed c s)) = entry_effect skip (nq_qid (the_q s)) (tags s, qlog s) c
      ∧ dbbuf_dbs (consumed c s) = dbbuf_dbs s ∧ dbbuf_eis (consumed c s) = dbbuf_eis s
      ∧ mmio (consumed c s) = mmio s).
    { unfold consumed. by destruct (entry_effect _ _ _ _). }
    destruct Hc1 as (Hq & Hs & He & Hd1 & Hd2 & Hm).
    pose proof (advance_ring _ _ _ H Hlt) as Ha. rewrite <- Hq in Ha.
    destruct (IH (consumed c s) (S h) (found + 1) Ha) as (s' & Hrun & [Hring Hsame Hseen Heff] & E1 & E2 & E3); [lia|].
    exists s'. split_and!; [| |congruence..].
    + transitivity (poll_loop skip fuel (found + 1) (consumed c s)).
      * unfold mbind, M_bind in Ht |- *. destruct (nvme_handle_cqe skip (cq_head (the_q s)) s) as [[]?]; try done.
        by rewrite Ht.
      * rewrite Hrun. by replace (found + 1 + _) with (found + Z.of_nat (length posted - h)) by lia.
    + assert (Hdrop : drop h posted = c :: drop (S h) posted) by by apply drop_S.
      split; [done| | |].
      * eapply same_sq_trans; [|exact Hsame]. rewrite Hq. apply advance_same_sq.
      * by rewrite Hseen, Hs, <- app_assoc, Hdrop.
      * rewrite Heff, He, Hdrop. cbn [foldl]. rewrite Hq. by rewrite (proj1 (advance_same_sq (the_q s))).
  - exists s. assert (h = length posted) as -> by lia. split_and!; try done.
    + by rewrite Nat.sub_diag, Z.add_0_r.
    + split; try done; rewrite drop_all; [by rewrite app_nil_r|done].
Qed.
End poll.

(** ** Ringing a doorbell *)

(** Register [reg] gets [val]: by MMIO, or in the shadow buffer with an MMIO
    only when the controller's event index lies in the window just passed. *)
Definition announce (reg val : Z) (slot : option Z) (s : qstate) : qstate :=
  match slot with
  | None => s <| mmio ::= λ l, l ++ [(reg, val)] |>
  | Some i =>
      let old := u16 (dbbuf_dbs s i) in
      let s := s <| dbbuf_dbs ::= store i val |> in
      if bool_decide (u16 (u16 (dbbuf_eis s i) - old) < u16 (val - old))
      then s <| mmio ::= λ l, l ++ [(reg, val)] |> else s
  end.

Lemma announce_ok reg val slot s :
  (ring ← nvme_dbbuf_update_and_check_event val slot;
   when ring (modify (λ s, s <| mmio ::= λ l, l ++ [(reg, val)] |>))) s
  = (Ok tt, announce reg val slot s).
Proof.
  unfold nvme_dbbuf_update_and_check_event, announce. destruct slot as [i|]; [|done].
  unfold gets, modify, mbind, M_bind, mret, M_ret, when. cbn [id].
  change (dbbuf_eis (s <| dbbuf_dbs ::= store i val |>)) with (dbbuf_eis s).
  destruct (nvme_dbbuf_need_event _ _ _) eqn:E.
  - apply need_event_window in E. by rewrite bool_decide_true.
  - by rewrite bool_decide_false by (rewrite <- need_event_window, E; done).
Qed.

Lemma announce_frame reg val slot s :
  let s' := announce reg val slot s in
  the_q s' = the_q s ∧ tags s' = tags s ∧ seen s' = seen s ∧ qlog s' = qlog s ∧ dbbuf_eis s' = dbbuf_eis s.
Proof. unfold announce. destruct slot; [|done]. by destruct (bool_decide _). Qed.

Section poll_cq.
Context (stride : Z) (skip : bool).

Definition cq_rung (n : nat) (s s1 : qstate) : qstate :=
  if bool_decide (n = 0%nat) then s1
  else announce (q_db stride (the_q s1) + stride) (cq_head (the_q s1)) (dbbuf_cq (the_q s1)) s1.

Lemma poll_cq_ok s posted h :
  cq_ring (the_q s) posted h →
  ∃ s1, nvme_poll_cq stride skip s
        = (Ok (Z.of_nat (length posted - h)), cq_rung (length posted - h) s s1)
        ∧ polled skip posted h s s1
        ∧ dbbuf_dbs s1 = dbbuf_dbs s ∧ dbbuf_eis s1 = dbbuf_eis s ∧ mmio s1 = mmio s.
Proof.
  intros H. unfold nvme_poll_cq. rewrite (bind_ok _ _ s (the_q s) s) by done.
  destruct (poll_loop_ok skip (S (length (cqes (the_q s)))) s posted h 0 H) as (s1 & Hrun & Hp & Hrest).
  { rewrite (cr_length _ _ _ H). pose proof (cr_range _ _ _ H). lia. }
  rewrite Z.add_0_l in Hrun. rewrite (bind_ok _ _ _ _ _ Hrun).
  exists s1. split; [|done]. unfold cq_rung.
  destruct (decide (length posted - h = 0)%nat) as [E|E].
  - rewrite E. done.
  - rewrite (bool_decide_false (_ = 0%nat)), (bool_decide_false (_ = 0)) by lia. cbn [negb when].
    erewrite bind_ok; [reflexivity|]. unfold nvme_ring_cq_doorbell.
    rewrite (bind_ok _ _ s1 (the_q s1) s1) by done. apply announce_ok.
Qed.
End poll_cq.

(** ** The controller's side of the completion ring *)

(** Entry number [length posted] goes to its slot with the phase of its pass. *)
Definition cq_post (n : nat) (c : nvme_completion) (q : nvme_queue) : nvme_queue :=
  q <| cqes ::= <[(n mod depth q)%nat := c]> |>.

Lemma cq_post_ring q posted h c :
  cq_ring q posted h → (length posted < h + depth q)%nat →
  Z.land (cqe_status c) 1 = phase (depth q) (length posted) →
  cq_ring (cq_post (length posted) c q) (posted ++ [c]) h.
Proof.
  intros H Hlt Hp. pose proof (cq_ring_depth _ _ _ H) as Hd.
  destruct H as [Hd16 Hlen Hhead Hph Hrange Hsl Hem Hb].
  change (depth q) with (depth (cq_post (length posted) c q)) in *.
  pose proof (slot_lt _ Hd (length posted)) as Hs. set (q' := cq_post (length posted) c q) in *.
  assert (Hcq : cqes q' = <[(length posted mod depth q')%nat := c]> (cqes q)) by done.
  split; try done.
  - by rewrite Hcq, length_insert.
  - rewrite length_app. cbn. lia.
  - intros k x [Hk|[Hk Hx]]%lookup_app_Some Hr; rewrite Hcq; rewrite length_app in Hr; cbn in Hr.
    + rewrite list_lookup_insert_ne; [apply Hsl; [done|lia]|]. apply lookup_lt_Some in Hk as Hkl.
      intros E. symmetry in E. apply slot_inj in E; [lia|done|lia|lia].
    + apply list_lookup_singleton_Some in Hx as [Hz <-]. replace k with (length posted) by lia.
      apply list_lookup_insert_eq. lia.
  - intros i Hi. rewrite length_app in Hi. cbn in Hi. rewrite Hcq, list_lookup_insert_ne.
    + apply Hem. lia.
    + rewrite Nat.mod_small by lia. lia.
  - intros k x [Hk|[Hk Hx]]%lookup_app_Some; [by apply Hb|].
    apply list_lookup_singleton_Some in Hx as [Hz <-]. by replace k with (length posted) by lia.
Qed.

(** A queue fresh from nvme_init_queue. *)
Lemma init_ring dev dbs qid q :
  2 ≤ nq_depth q < 2 ^ 16 → length (cqes q) = depth q →
  cq_ring (nvme_init_queue_rings dev dbs qid q) [] 0.
Proof.
  intros Hd Hl.
  assert (H : cq_ring (q <| sq_tail := 0 |> <| last_sq_tail := 0 |> <| cq_head := 0 |> <| cq_phase := 1 |>
       <| cqes ::= fmap (λ _, mk_cqe 0 0 0 0) |>) [] 0).
  { split; try done.
    - cbn. by rewrite length_fmap.
    - cbn. by rewrite Nat.Div0.mod_0_l.
    - unfold phase. cbn. by rewrite Nat.Div0.div_0_l.
    - cbn. lia.
    - intros i Hi. change (depth _) with (depth q) in Hi. destruct (lookup_lt_is_Some_2 (cqes q) i) as [c Hc]; [lia|].
      eexists. split; [cbn; by rewrite list_lookup_fmap, Hc|done]. }
  unfold nvme_init_queue_rings, nvme_dbbuf_init. destruct (_ || _); [done|].
  destruct H as [Hd16 Hlen Hhead Hph Hrange Hsl Hem Hb]. by split.
Qed.

(** ** The submission ring *)

(** The parts of a queue the two rings depend on. *)
Definition sq_view (q : nvme_queue) := (nq_depth q, sq_tail q, last_sq_tail q, sq_cmds q).
Definition cq_view (q : nvme_queue) := (nq_depth q, cq_head q, cq_phase q, cqes q).

(** [subm]: every command copied into the ring, oldest first; [a] of them
    announced. *)
Record sq_ring (q : nvme_queue) (subm : list nvme_rw_command) (a : nat) : Prop := {
  sq_depth : 2 ≤ nq_depth q < 2 ^ 16;
  sq_length : length (sq_cmds q) = depth q;
  sq_tail_at : sq_tail q = Z.of_nat (length subm mod depth q);
  sq_last_at : last_sq_tail q = Z.of_nat (a mod depth q);
  sq_range : (a ≤ length subm < a + depth q)%nat;
  sq_slots k c : subm !! k = Some c → (length subm ≤ k + depth q)%nat →
                 sq_cmds q !! (k mod depth q)%nat = Some c;
}.

(** Room for one more before the ring must be announced. *)
Definition sq_open (q : nvme_queue) (subm : list nvme_rw_command) (a : nat) : Prop :=
  sq_ring q subm a ∧ (S (length subm) < a + depth q)%nat.

Lemma sq_ring_depth q subm a :
  sq_ring q subm a → (2 ≤ depth q)%nat ∧ nq_depth q = Z.of_nat (depth q) ∧ Z.of_nat (depth q) < 2 ^ 16.
Proof. intros []. unfold depth. lia. Qed.

(** The tail after the next command, the way the code computes it. *)
Lemma next_tail q subm a :
  sq_ring q subm a →
  (if bool_decide (u16 (sq_tail q + 1) = nq_depth q) then 0 else u16 (sq_tail q + 1))
  = Z.of_nat (S (length subm) mod depth q).
Proof.
  intros H. destruct (sq_ring_depth _ _ _ H) as (Hd & Hq & H16).
  pose proof (slot_lt _ Hd (length subm)) as Hs.
  rewrite (sq_tail_at _ _ _ H), wrap_small by lia. rewrite (slot_step _ Hd), Hq.
  case_decide as E.
  - by rewrite bool_decide_true by lia.
  - rewrite bool_decide_false by lia. lia.
Qed.

Definition copied (cmd : nvme_rw_command) (q : nvme_queue) : nvme_queue :=
  q <| sq_cmds ::= <[Z.to_nat (sq_tail q) := cmd]> |>
    <| sq_tail := if bool_decide (u16 (sq_tail q + 1) = nq_depth q) then 0 else u16 (sq_tail q + 1) |>.

Lemma copy_cmd_ok s subm a cmd :
  sq_ring (the_q s) subm a → (S (length subm) < a + depth (the_q s))%nat →
  nvme_sq_copy_cmd cmd s = (Ok tt, s <| the_q ::= copied cmd |>)
  ∧ sq_ring (copied cmd (the_q s)) (subm ++ [cmd]) a.
Proof.
  intros H Hlt. destruct (sq_ring_depth _ _ _ H) as (Hd & Hq & H16).
  pose proof (next_tail _ _ _ H) as Hn. pose proof (slot_lt _ Hd (length subm)) as Hs.
  assert (Hi : Z.to_nat (sq_tail (the_q s)) = (length subm mod depth (the_q s))%nat).
  { by rewrite (sq_tail_at _ _ _ H), Nat2Z.id. }
  split.
  - unfold nvme_sq_copy_cmd. rewrite (bind_ok _ _ s (the_q s) s) by done.
    by rewrite bool_decide_true by (rewrite Hi, (sq_length _ _ _ H); lia).
  - set (q := the_q s) in *. destruct H as [Hd16 Hlen Hta Hla Hr Hsl].
    change (depth q) with (depth (copied cmd q)) in *.
    assert (Hcm : sq_cmds (copied cmd q) = <[(length subm mod depth (copied cmd q))%nat := cmd]> (sq_cmds q)).
    { by rewrite <- Hi. }
    split; try done.
    + by rewrite Hcm, length_insert.
    + rewrite length_app, Nat.add_1_r. exact Hn.
    + rewrite length_app. cbn [length]. lia.
    + intros k x Hk Hkr. rewrite Hcm. rewrite length_app in Hkr. cbn [length] in Hkr.
      apply lookup_snoc_Some in Hk as [[Hkl Hk]|[-> <-]].
      * rewrite list_lookup_insert_ne; [apply Hsl; [done|lia]|].
        intros E. symmetry in E. apply slot_inj in E; [lia|done|lia|lia].
      * apply list_lookup_insert_eq. lia.
Qed.

Section submit.
Context (stride : Z).

(** The ring announced up to its tail. *)
Definition sq_rung (s : qstate) : qstate :=
  (announce (q_db stride (the_q s)) (sq_tail (the_q s)) (dbbuf_sq (the_q s)) s)
    <| the_q ::= λ q, q <| last_sq_tail := sq_tail q |> |>.

Lemma sq_rung_ring s subm a :
  sq_ring (the_q s) subm a → sq_open (the_q (sq_rung s)) subm (length subm).
Proof.
  intros H. destruct (sq_ring_depth _ _ _ H) as (Hd & _ & _).
  assert (Hq : the_q (sq_rung s) = (the_q s) <| last_sq_tail := sq_tail (the_q s) |>).
  { unfold sq_rung. destruct (announce_frame (q_db stride (the_q s)) (sq_tail (the_q s)) (dbbuf_sq (the_q s)) s) as (E & _).
    cbv zeta in E. cbn [the_q]. change (the_q (?x <| the_q ::= ?f |>)) with (f (the_q x)). by rewrite E. }
  rewrite Hq. destruct H as [Hd16 Hlen Hta Hla Hr Hsl].
  split; [split; try done|]; change (depth (_ <| last_sq_tail := _ |>)) with (depth (the_q s)); lia.
Qed.

Lemma write_db_run s :
  (ring ← nvme_dbbuf_update_and_check_event (sq_tail (the_q s)) (dbbuf_sq (the_q s));
   when ring (modify (λ s', s' <| mmio ::= λ l, l ++ [(q_db stride (the_q s), sq_tail (the_q s))] |>));;
   upd_q (λ q, q <| last_sq_tail := sq_tail q |>)) s = (Ok tt, sq_rung s).
Proof.
  pose proof (announce_ok (q_db stride (the_q s)) (sq_tail (the_q s)) (dbbuf_sq (the_q s)) s) as E.
  unfold sq_rung. unfold mbind, M_bind in *.
  destruct (nvme_dbbuf_update_and_check_event _ _ s) as [[r| |] s1]; [|done..].
  destruct (when _ _ s1) as [[u| |] s2]; [|done..]. by injection E as _ <-.
Qed.

Lemma write_sq_db_ok s subm a write_sq :
  sq_ring (the_q s) subm a →
  let ring := write_sq || bool_decide (S (length subm) = a + depth (the_q s))%nat in
  nvme_write_sq_db stride write_sq s = (Ok tt, if ring then sq_rung s else s).
Proof.
  intros H ring. destruct (sq_ring_depth _ _ _ H) as (Hd & Hq & H16).
  unfold nvme_write_sq_db. rewrite (bind_ok _ _ s (the_q s) s) by done.
  cbv zeta. rewrite (next_tail _ _ _ H), (sq_last_at _ _ _ H).
  assert (Hn : bool_decide (Z.of_nat (S (length subm) mod depth (the_q s)) = Z.of_nat (a mod depth (the_q s)))
               = bool_decide (S (length subm) = a + depth (the_q s))%nat).
  { apply bool_decide_ext. pose proof (sq_range _ _ _ H) as Hr. split.
    - intros E%Nat2Z.inj. destruct (decide (S (length subm) < a + depth (the_q s))%nat) as [Hl|Hl]; [|lia].
      symmetry in E. apply slot_inj in E; [lia|done|lia|lia].
    - intros ->. f_equal. replace (a + depth (the_q s))%nat with (a + 1 * depth (the_q s))%nat by lia.
      by rewrite Nat.Div0.mod_add. }
  rewrite Hn. clear Hn. subst ring.
  destruct write_sq, (bool_decide (S (length subm) = _)); try done; cbn [negb andb orb].
  all: apply write_db_run.
Qed.

(** One command: it is in the ring, and announced if asked or if the ring would
    otherwise be full of unannounced commands. *)
Lemma queue_cmd_ok s subm a cmd last :
  sq_open (the_q s) subm a →
  ∃ s' a', queue_cmd stride cmd last s = (Ok tt, s')
    ∧ sq_open (the_q s') (subm ++ [cmd]) a'
    ∧ (let s1 := s <| the_q ::= copied cmd |> in
       a' = length (subm ++ [cmd]) ∧ s' = sq_rung s1 ∨ last = false ∧ a' = a ∧ s' = s1).
Proof.
  intros [H Hlt]. destruct (copy_cmd_ok _ _ _ cmd H Hlt) as [Hrun H1].
  set (s1 := s <| the_q ::= copied cmd |>) in *. change (copied cmd (the_q s)) with (the_q s1) in H1.
  unfold queue_cmd. rewrite (bind_ok _ _ _ _ _ Hrun), (write_sq_db_ok _ _ _ last H1).
  destruct (last || _) eqn:E.
  - exists (sq_rung s1), (length (subm ++ [cmd])). split_and!; [done|by eapply sq_rung_ring|by left].
  - apply orb_false_iff in E as [-> E%bool_decide_eq_false].
    exists s1, a. split_and!; [done| |by right]. split; [done|].
    pose proof (sq_range _ _ _ H1). lia.
Qed.

Lemma commit_rqs_ok s subm a :
  sq_open (the_q s) subm a →
  ∃ s', nvme_commit_rqs stride s = (Ok tt, s') ∧ sq_open (the_q s') subm (length subm)
        ∧ s' = (if bool_decide (length subm = a) then s else sq_rung s).
Proof.
  intros [H Hlt]. destruct (sq_ring_depth _ _ _ H) as (Hd & _ & _). pose proof (sq_range _ _ _ H) as Hr.
  unfold nvme_commit_rqs. rewrite (bind_ok _ _ s (the_q s) s) by done.
  rewrite (sq_tail_at _ _ _ H), (sq_last_at _ _ _ H).
  destruct (decide (length subm = a)) as [E|E].
  - rewrite !bool_decide_true by congruence. exists s. split_and!; [done|by rewrite E|done].
  - rewrite !bool_decide_false; [|done|].
    + exists (sq_rung s). split_and!; [|by eapply sq_rung_ring|done].
      cbn [negb when]. by rewrite (write_sq_db_ok _ _ _ true H).
    + intros E2%Nat2Z.inj. symmetry in E2. apply slot_inj in E2; [lia|done|lia|lia].
Qed.

Lemma submit_cmds_ok cmds : ∀ s subm a,
  sq_ring (the_q s) subm a → (length subm + length cmds < a + depth (the_q s))%nat →
  ∃ s1, nvme_submit_cmds stride cmds s = (Ok tt, sq_rung s1)
    ∧ the_q s1 = foldl (λ q c, copied c q) (the_q s) cmds
    ∧ cq_view (the_q s1) = cq_view (the_q s) ∧ seen s1 = seen s
    ∧ sq_open (the_q (sq_rung s1)) (subm ++ cmds) (length (subm ++ cmds)).
Proof.
  unfold nvme_submit_cmds. induction cmds as [|c cmds IH]; intros s subm a H Hlt.
  - exists s. rewrite app_nil_r. split_and!; [|done..|by eapply sq_rung_ring].
    cbn [for_each]. rewrite (bind_ok _ _ s tt s) by done. by rewrite (write_sq_db_ok _ _ _ true H).
  - cbn [length] in Hlt. destruct (copy_cmd_ok _ _ _ c H) as [Hrun H1]; [lia|].
    set (s1 := s <| the_q ::= copied c |>) in *. change (copied c (the_q s)) with (the_q s1) in H1.
    destruct (IH s1 (subm ++ [c]) a H1) as (s2 & Hr2 & Hq & Hv & Hsn & Ho).
    { rewrite length_app. cbn [length]. change (depth (the_q s1)) with (depth (the_q s)). lia. }
    exists s2. rewrite <- app_assoc in Ho. split_and!; [|done|by rewrite Hv|done|done].
    rewrite <- Hr2. cbn [for_each]. unfold mbind, M_bind in *. by rewrite Hrun.
Qed.
End submit.

(** ** Both rings under any interleaving *)

Lemma depth_view q q' : nq_depth q' = nq_depth q → depth q' = depth q.
Proof. unfold depth. by intros ->. Qed.

Lemma sq_open_view q q' subm a : sq_view q' = sq_view q → sq_open q subm a → sq_open q' subm a.
Proof.
  intros [= E1 E2 E3 E4] [[] H]. pose proof (depth_view _ _ E1) as Ed.
  split; [split|]; rewrite ?Ed, ?E1, ?E2, ?E3, ?E4; done.
Qed.

Lemma cq_ring_view q q' posted h : cq_view q' = cq_view q → cq_ring q posted h → cq_ring q' posted h.
Proof.
  intros [= E1 E2 E3 E4] []. pose proof (depth_view _ _ E1) as Ed.
  split; rewrite ?Ed, ?E1, ?E2, ?E3, ?E4; done.
Qed.

Section interleaving.
Context (stride : Z) (skip : bool) (s0 : qstate).

(** What happens to a queue: the controller posts an entry when the ring has a
    slot the host has freed; the driver polls from a poller or an interrupt;
    commands are queued one by one or in a batch the tag set has room for; the
    block layer changes the requests behind the tags. *)
Inductive q_reach : qstate → list nvme_completion → list nvme_rw_command → Prop :=
  | q_start : q_reach s0 [] []
  | q_post s posted subm c :
      q_reach s posted subm → (length posted < length (seen s) + depth (the_q s))%nat →
      Z.land (cqe_status c) 1 = phase (depth (the_q s)) (length posted) →
      q_reach (s <| the_q ::= cq_post (length posted) c |>) (posted ++ [c]) subm
  | q_poll s posted subm r s' :
      q_reach s posted subm → nvme_poll stride skip s = (r, s') → q_reach s' posted subm
  | q_irq s posted subm r s' :
      q_reach s posted subm → nvme_irq stride skip s = (r, s') → q_reach s' posted subm
  | q_queue s posted subm cmd last r s' :
      q_reach s posted subm → queue_cmd stride cmd last s = (r, s') → q_reach s' posted (subm ++ [cmd])
  | q_batch s posted subm cmds r s' :
      q_reach s posted subm →
      (sq_tail (the_q s) - last_sq_tail (the_q s)) `mod` nq_depth (the_q s) + Z.of_nat (length cmds)
        < nq_depth (the_q s) →
      nvme_submit_cmds stride cmds s = (r, s') → q_reach s' posted (subm ++ cmds)
  | q_commit s posted subm r s' :
      q_reach s posted subm → nvme_commit_rqs stride s = (r, s') → q_reach s' posted subm
  | q_tags s posted subm ts :
      q_reach s posted subm → q_reach (s <| tags := ts |>) posted subm.

Definition q_inv (s : qstate) (posted : list nvme_completion) (subm : list nvme_rw_command) : Prop :=
  ∃ h a, cq_ring (the_q s) posted h ∧ sq_open (the_q s) subm a ∧ seen s = take h posted.

Lemma announce_views reg val slot s :
  the_q (announce reg val slot s) = the_q s ∧ seen (announce reg val slot s) = seen s.
Proof. by destruct (announce_frame reg val slot s) as (? & _ & ? & _). Qed.

Lemma sq_rung_views s : cq_view (the_q (sq_rung stride s)) = cq_view (the_q s) ∧ seen (sq_rung stride s) = seen s.
Proof.
  unfold sq_rung. destruct (announce_views (q_db stride (the_q s)) (sq_tail (the_q s)) (dbbuf_sq (the_q s)) s) as [E1 E2].
  split; [|exact E2]. change (the_q (?x <| the_q ::= ?f |>)) with (f (the_q x)). by rewrite E1.
Qed.

(** Polling empties the ring. *)
Lemma poll_inv s posted subm :
  q_inv s posted subm →
  ∃ n s', nvme_poll_cq stride skip s = (Ok n, s') ∧ q_inv s' posted subm ∧ seen s' = posted.
Proof.
  intros (h & a & Hc & Hs & Hseen). destruct (poll_cq_ok stride skip s posted h Hc) as (s1 & Hrun & [Hr Hsame Hsn _] & _).
  assert (E : the_q (cq_rung stride (length posted - h) s s1) = the_q s1
              ∧ seen (cq_rung stride (length posted - h) s s1) = seen s1).
  { unfold cq_rung. destruct (bool_decide _); [done|]. apply announce_views. }
  destruct E as [Eq Es].
  assert (Hall : seen s1 = posted) by by rewrite Hsn, Hseen, take_drop.
  eexists _, _. split; [exact Hrun|]. rewrite Es. split; [|done].
  exists (length posted), a. rewrite Eq, Es, Hall, firstn_all. split_and!; [done| |done].
  eapply sq_open_view; [|exact Hs]. unfold sq_view. destruct Hsame as (_ & -> & -> & -> & -> & _). done.
Qed.

Lemma pending_inv s posted subm :
  q_inv s posted subm → ∃ b, nvme_cqe_pending s = (Ok b, s) ∧ (b = false → seen s = posted).
Proof.
  intros (h & a & Hc & _ & Hseen). eexists. split; [by apply cqe_pending_ok|].
  rewrite bool_decide_eq_false. intros Hge. rewrite Hseen. apply take_ge. lia.
Qed.

Lemma poll_fn_inv s posted subm :
  q_inv s posted subm →
  ∃ b s', nvme_poll stride skip s = (Ok b, s') ∧ q_inv s' posted subm ∧ seen s' = posted.
Proof.
  intros H. destruct (pending_inv _ _ _ H) as (b & Hp & Hb). unfold nvme_poll.
  rewrite (bind_ok _ _ _ _ _ Hp). destruct b.
  - destruct (poll_inv _ _ _ H) as (n & s' & Hrun & Hi & Hs).
    eexists _, s'. rewrite (bind_ok _ _ _ _ _ Hrun). done.
  - exists false, s. split_and!; [done|done|by apply Hb].
Qed.

Lemma irq_inv s posted subm :
  q_inv s posted subm →
  ∃ s', nvme_irq stride skip s = (Ok IRQ_HANDLED, s') ∧ q_inv s' posted subm ∧ seen s' = posted.
Proof.
  intros H. destruct (poll_inv _ _ _ H) as (n & s' & Hrun & Hi & Hs). exists s'.
  unfold nvme_irq. by rewrite (bind_ok _ _ _ _ _ Hrun).
Qed.

Lemma unannounced q subm a :
  sq_ring q subm a → (sq_tail q - last_sq_tail q) `mod` nq_depth q = Z.of_nat (length subm - a).
Proof.
  intros H. destruct (sq_ring_depth _ _ _ H) as (Hd & Hq & _). pose proof (sq_range _ _ _ H) as Hr.
  rewrite (sq_tail_at _ _ _ H), (sq_last_at _ _ _ H), Hq, !Nat2Z.inj_mod.
  rewrite <- Zminus_mod, Z.mod_small by lia. lia.
Qed.

Lemma q_reach_inv s posted subm :
  cq_ring (the_q s0) [] 0 → sq_open (the_q s0) [] 0 → seen s0 = [] →
  q_reach s posted subm → q_inv s posted subm.
Proof.
  intros Hc0 Hs0 Hn0 Hreach. induction Hreach as [|s posted subm c _ IH Hlt Hp|s posted subm r s' _ IH Hrun
    |s posted subm r s' _ IH Hrun|s posted subm cmd last r s' _ IH Hrun|s posted subm cmds r s' _ IH Hg Hrun
    |s posted subm r s' _ IH Hrun|s posted subm ts _ IH].
  - by exists 0%nat, 0%nat.
  - destruct IH as (h & a & Hc & Hs & Hseen). exists h, a. pose proof (cr_range _ _ _ Hc) as Hr.
    rewrite Hseen, length_take in Hlt. split_and!; [apply cq_post_ring; [done|lia|done]| |].
    + by eapply sq_open_view; [|exact Hs].
    + change (seen (s <| the_q ::= _ |>)) with (seen s). rewrite take_app_le by lia. done.
  - destruct (poll_fn_inv _ _ _ IH) as (b & s'' & Hrun' & Hi & _).
    rewrite Hrun' in Hrun. by injection Hrun as <- <-.
  - destruct (irq_inv _ _ _ IH) as (s'' & Hrun' & Hi & _).
    rewrite Hrun' in Hrun. by injection Hrun as <- <-.
  - destruct IH as (h & a & Hc & Hs & Hseen).
    destruct (queue_cmd_ok stride s subm a cmd last Hs) as (s1 & a' & Hrun' & Hs1 & Hcase).
    rewrite Hrun' in Hrun. injection Hrun as <- <-.
    exists h, a'. destruct Hcase as [[_ ->]|[_ [_ ->]]]; [|split_and!; [by eapply cq_ring_view; [|exact Hc]|done|done]].
    destruct (sq_rung_views (s <| the_q ::= copied cmd |>)) as [E1 E2].
    split_and!; [by eapply cq_ring_view; [exact E1|eapply cq_ring_view; [|exact Hc]]|done|by rewrite E2].
  - destruct IH as (h & a & Hc & [Hs Ho] & Hseen). rewrite (unannounced _ _ _ Hs) in Hg.
    destruct (sq_ring_depth _ _ _ Hs) as (_ & Hq & _).
    destruct (submit_cmds_ok stride cmds s subm a Hs) as (s1 & Hrun' & _ & Hv & Hsn & Hs1); [pose proof (sq_range _ _ _ Hs); lia|].
    rewrite Hrun' in Hrun. injection Hrun as <- <-. exists h, (length (subm ++ cmds)). destruct (sq_rung_views s1) as [E1 E2].
    split_and!; [by eapply cq_ring_view; [exact E1|eapply cq_ring_view]|done|by rewrite E2, Hsn].
  - destruct IH as (h & a & Hc & Hs & Hseen).
    destruct (commit_rqs_ok stride s subm a Hs) as (s1 & Hrun' & Hs1 & Hcase).
    rewrite Hrun' in Hrun. injection Hrun as <- <-.
    exists h, (length subm). destruct (sq_rung_views s) as [E1 E2].
    destruct (bool_decide _); subst; [by split_and!|]. split_and!; [by eapply cq_ring_view|done|by rewrite E2].
  - destruct IH as (h & a & Hc & Hs & Hseen). by exists h, a.
Qed.
End interleaving.

(** ** Command identifiers *)

Lemma genctr_mask_mod g : nvme_genctr_mask g = g `mod` 16.
Proof. unfold nvme_genctr_mask. change 15 with (Z.ones 4). by rewrite Z.land_ones. Qed.

Lemma cid_value rq tag :
  0 ≤ tag < 4096 → nvme_cid rq tag = tag + (genctr rq) `mod` 16 * 4096.
Proof.
  intros Ht. unfold nvme_cid, nvme_cid_install_genctr. rewrite genctr_mask_mod.
  pose proof (Z.mod_pos_bound (genctr rq) 16).
  rewrite Z.lor_comm, (lor_shiftl _ _ 12) by lia. rewrite wrap_small by lia. done.
Qed.

(** The tag and the generation are read back from the identifier. *)
Lemma cid_roundtrip rq tag :
  0 ≤ tag < 4096 →
  nvme_tag_from_cid (nvme_cid rq tag) = tag
  ∧ nvme_genctr_from_cid (nvme_cid rq tag) = nvme_genctr_mask (genctr rq).
Proof.
  intros Ht. rewrite genctr_mask_mod, (cid_value _ _ Ht). pose proof (Z.mod_pos_bound (genctr rq) 16).
  split.
  - unfold nvme_tag_from_cid. change 4095 with (Z.ones 12). rewrite Z.land_ones by done.
    change (2 ^ 12) with 4096. by rewrite Z.mod_add, Z.mod_small by lia.
  - unfold nvme_genctr_from_cid. rewrite Z.shiftr_land. change (Z.shiftr 61440 12) with (Z.ones 4).
    rewrite Z.land_ones, Z.shiftr_div_pow2 by done. change (2 ^ 12) with 4096. change (2 ^ 4) with 16.
    rewrite Z.div_add, (Z.div_small tag), Z.add_0_l by lia. by apply Zmod_mod.
Qed.

Lemma next_genctr g : nvme_genctr_mask (u8 (g + 1)) ≠ nvme_genctr_mask g.
Proof.
  rewrite !genctr_mask_mod. unfold wrap. change (2 ^ 8) with 256.
  pose proof (Z.div_mod (g + 1) 256). pose proof (Z.div_mod ((g + 1) `mod` 256) 16).
  pose proof (Z.div_mod g 16). pose proof (Z.mod_pos_bound g 16). pose proof (Z.mod_pos_bound ((g + 1) `mod` 256) 16).
  intros E. lia.
Qed.

(** The same entry seen again changes no request. *)
Lemma entry_effect_again qid ts l c :
  let '(ts1, l1) := entry_effect false qid (ts, l) c in
  (entry_effect false qid (ts1, l1) c).1 = ts1.
Proof.
  unfold entry_effect. set (tag := nvme_tag_from_cid (cqe_command_id c)).
  destruct (bool_decide (qid = 0) && _); [done|].
  destruct (ts !! tag) as [rq|] eqn:Ht; [|cbv beta iota; by rewrite Ht].
  destruct (decide (nvme_genctr_mask (genctr rq) = nvme_genctr_from_cid (cqe_command_id c))) as [Eg|Eg].
  - rewrite (bool_decide_true (_ = _)) by done. cbv beta iota.
    rewrite lookup_insert_eq. cbn [genctr]. rewrite bool_decide_false; [done|].
    rewrite <- Eg. apply next_genctr.
  - rewrite (bool_decide_false (_ = _)) by done. cbv beta iota. rewrite Ht.
    by rewrite bool_decide_false.
Qed.

(** ** Shadow doorbell slots and their tear-down *)

Lemma dbbuf_slots_ok dev qid qid' :
  0 < db_stride dev → 0 ≤ qid < nr_allocated_queues dev → 0 ≤ qid' < nr_allocated_queues dev →
  nr_allocated_queues dev * 8 * db_stride dev < 2 ^ 32 →
  4 * sq_idx qid (db_stride dev) + 4 ≤ nvme_dbbuf_size dev
  ∧ 4 * cq_idx qid (db_stride dev) + 4 ≤ nvme_dbbuf_size dev
  ∧ sq_idx qid (db_stride dev) ≠ cq_idx qid' (db_stride dev)
  ∧ (qid ≠ qid' → sq_idx qid (db_stride dev) ≠ sq_idx qid' (db_stride dev)
                  ∧ cq_idx qid (db_stride dev) ≠ cq_idx qid' (db_stride dev)).
Proof.
  intros Hs Hq Hq' Hn. unfold sq_idx, cq_idx, nvme_dbbuf_size.
  set (st := db_stride dev) in *. set (n := nr_allocated_queues dev) in *.
  rewrite !wrap_small by nia. split_and!; [nia|nia| |].
  - intros E. assert (E' : (qid * 2) * st = (qid' * 2 + 1) * st) by lia.
    apply Z.mul_reg_r in E'; lia.
  - intros Hne. split; intros E.
    + assert (E' : (qid * 2) * st = (qid' * 2) * st) by lia. apply Z.mul_reg_r in E'; lia.
    + apply Z.mul_reg_r in E; lia.
Qed.

Definition free_slot (i : nat) : M (list nvme_queue) unit :=
  qs ← gets id;
  q ← from_opt OutOfBounds (qs !! i);
  modify (λ qs, <[i := nvme_dbbuf_free q]> qs).

Lemma free_slots_ok k : ∀ a qs,
  (a + k ≤ length qs)%nat →
  ∃ qs', for_each free_slot (seq a k) qs = (Ok tt, qs') ∧ length qs' = length qs
         ∧ (∀ i, (a ≤ i < a + k)%nat → qs' !! i = nvme_dbbuf_free <$> qs !! i)
         ∧ (∀ i, (i < a ∨ a + k ≤ i)%nat → qs' !! i = qs !! i).
Proof.
  induction k as [|k IH]; intros a qs Hk; [exists qs; split_and!; [done|done|lia|done]|].
  destruct (lookup_lt_is_Some_2 qs a) as [q Hq]; [lia|]. cbn [seq for_each].
  rewrite (bind_ok _ _ qs tt (<[a := nvme_dbbuf_free q]> qs)).
  2:{ unfold free_slot, gets, modify, mbind, M_bind. cbn [id]. by rewrite Hq. }
  destruct (IH (S a) (<[a := nvme_dbbuf_free q]> qs)) as (qs' & Hrun & Hl & Hin & Hout); [rewrite length_insert; lia|].
  rewrite length_insert in Hl. exists qs'. split_and!; [done|done|..].
  - intros i Hi. destruct (decide (i = a)) as [->|Hne].
    + rewrite Hout by lia. by rewrite list_lookup_insert_eq, Hq by lia.
    + rewrite Hin by lia. by rewrite list_lookup_insert_ne by lia.
  - intros i Hi. rewrite Hout by lia. by rewrite list_lookup_insert_ne by lia.
Qed.

Lemma for_each_snoc {S A} (f : A → M S unit) l x s s' :
  for_each f l s = (Ok tt, s') → for_each f (l ++ [x]) s = (f x;; mret tt) s'.
Proof.
  revert s. induction l as [|y l IH]; intros s H.
  - by injection H as <-.
  - cbn [for_each app] in *. unfold mbind, M_bind in *. destruct (f y s) as [[]?]; [by apply IH|done..].
Qed.

(** The clean-up after a refused Doorbell Buffer Config: right when a queue
    above the online ones is allocated, one past the array when none is. *)
Lemma dbbuf_set_ok dev rc qs :
  rc ≠ 0 → 1 ≤ online_queues dev →
  (online_queues dev < Z.of_nat (length qs) →
     ∃ qs', nvme_dbbuf_set dev true rc qs = (Ok false, qs')
            ∧ ∀ i, (1 ≤ i)%nat → Z.of_nat i ≤ online_queues dev → qs' !! i = nvme_dbbuf_free <$> qs !! i)
  ∧ (online_queues dev = Z.of_nat (length qs) → (nvme_dbbuf_set dev true rc qs).1 = Fault OutOfBounds).
Proof.
  intros Hrc Ho. unfold nvme_dbbuf_set. cbn [negb]. rewrite bool_decide_false by done.
  change (λ i : nat, qs ← gets id; q ← from_opt OutOfBounds (qs !! i); modify (λ qs0, <[i := nvme_dbbuf_free q]> qs0))
    with free_slot. split; intros Hl.
  - destruct (free_slots_ok (Z.to_nat (online_queues dev)) 1 qs) as (qs' & Hrun & _ & Hin & _); [lia|].
    exists qs'. rewrite (bind_ok _ _ _ _ _ Hrun). split; [done|]. intros i H1 H2. apply Hin. lia.
  - destruct (length qs) as [|n] eqn:Hlen; [lia|].
    rewrite Hl, Nat2Z.id, seq_S.
    destruct (free_slots_ok n 1 qs) as (qs' & Hrun & Hl' & _); [lia|].
    unfold mbind at 1, M_bind at 1. rewrite (for_each_snoc _ _ _ _ _ Hrun).
    unfold free_slot, gets, mbind, M_bind. cbn [id].
    by rewrite lookup_ge_None_2 by lia.
Qed.

Lemma init_sq dev dbs qid q :
  2 ≤ nq_depth q < 2 ^ 16 → length (sq_cmds q) = depth q → sq_open (nvme_init_queue_rings dev dbs qid q) [] 0.
Proof.
  intros Hd Hl.
  assert (H : sq_open (q <| sq_tail := 0 |> <| last_sq_tail := 0 |> <| cq_head := 0 |> <| cq_phase := 1 |>
       <| cqes ::= fmap (λ _, mk_cqe 0 0 0 0) |>) [] 0).
  { split; [split; try done|]; change (depth (_ <| cqes ::= _ |>)) with (depth q).
    1-2: by rewrite Nat.Div0.mod_0_l.
    all: unfold depth; cbn [length]; lia. }
  eapply sq_open_view; [|exact H]. unfold nvme_init_queue_rings, nvme_dbbuf_init. by destruct (_ || _).
Qed.
