(* ===== verification/PciSetup.v ===== *)
(** * PciSetup: the kernel's share of the I/O queues (baseline/6.8/pci.c, core.c)

    Negotiating the queue count with the controller, capping the kernel's
    share so that the queue ids above it are left to user queues, splitting
    interrupts between default, read and polled queues, creating the queues,
    and falling back to fewer when the controller or the platform gives less.
    Answers of the controller, the PCI core and the allocator come from an
    environment indexed by a call counter. *)
From S2P Require Import Prelude.
From S2P Require Import Uapi.
From S2P Require Import Kernel.
From S2P Require Import PciData.

Definition NVME_REG_DBS : Z := 4096.

(** ** Data *)

(** The state of [dev->queues[qid]] that queue set-up reads and writes. *)
Record io_queue : Type := mk_ioq {
  ioq_allocated : bool;
  ioq_enabled : bool;
  ioq_polled : bool;
  ioq_delete_error : bool;
  ioq_sq_cmb : bool;
  ioq_depth : Z;
  ioq_vector : Z;
}.

#[export] Instance set_ioq_allocated : Setter ioq_allocated := λ f r,
  mk_ioq (f (ioq_allocated r)) (ioq_enabled r) (ioq_polled r) (ioq_delete_error r)
    (ioq_sq_cmb r) (ioq_depth r) (ioq_vector r).
#[export] Instance set_ioq_enabled : Setter ioq_enabled := λ f r,
  mk_ioq (ioq_allocated r) (f (ioq_enabled r)) (ioq_polled r) (ioq_delete_error r)
    (ioq_sq_cmb r) (ioq_depth r) (ioq_vector r).
#[export] Instance set_ioq_polled : Setter ioq_polled := λ f r,
  mk_ioq (ioq_allocated r) (ioq_enabled r) (f (ioq_polled r)) (ioq_delete_error r)
    (ioq_sq_cmb r) (ioq_depth r) (ioq_vector r).
#[export] Instance set_ioq_delete_error : Setter ioq_delete_error := λ f r,
  mk_ioq (ioq_allocated r) (ioq_enabled r) (ioq_polled r) (f (ioq_delete_error r))
    (ioq_sq_cmb r) (ioq_depth r) (ioq_vector r).
#[export] Instance set_ioq_sq_cmb : Setter ioq_sq_cmb := λ f r,
  mk_ioq (ioq_allocated r) (ioq_enabled r) (ioq_polled r) (ioq_delete_error r) (f
    (ioq_sq_cmb r)) (ioq_depth r) (ioq_vector r).
#[export] Instance set_ioq_depth : Setter ioq_depth := λ f r,
  mk_ioq (ioq_allocated r) (ioq_enabled r) (ioq_polled r) (ioq_delete_error r)
    (ioq_sq_cmb r) (f (ioq_depth r)) (ioq_vector r).
#[export] Instance set_ioq_vector : Setter ioq_vector := λ f r,
  mk_ioq (ioq_allocated r) (ioq_enabled r) (ioq_polled r) (ioq_delete_error r)
    (ioq_sq_cmb r) (ioq_depth r) (f (ioq_vector r)).

Definition fresh_ioq : io_queue := mk_ioq false false false false false 0 0.

(** struct nvme_dev during queue set-up; [io_ndev] holds the fields the
    character device shares, [hctx_*] is [io_queues[HCTX_TYPE_*]],
    [shutdown_locked] says that shutdown_lock is held by this code. *)
Record io_dev : Type := mk_iodev {
  io_ndev : nvme_dev;
  io_queues : list io_queue;
  queue_count : Z;
  max_qid : Z;
  num_vecs : Z;
  hctx_default : Z;
  hctx_read : Z;
  hctx_poll : Z;
  sqsize : Z;
  bar_mapped_size : Z;
  bar_mapped : bool;
  cmb_use_sqes : bool;
  cmbsz_sqs : bool;
  cmb_size : Z;
  quirk_shared_tags : bool;
  quirk_single_vector : bool;
  shutdown_locked : bool;
  irq_vectors : bool;
}.

#[export] Instance set_io_ndev : Setter io_ndev := λ f r,
  mk_iodev (f (io_ndev r)) (io_queues r) (queue_count r) (max_qid r) (num_vecs r)
    (hctx_default r) (hctx_read r) (hctx_poll r) (sqsize r) (bar_mapped_size r)
    (bar_mapped r) (cmb_use_sqes r) (cmbsz_sqs r) (cmb_size r) (quirk_shared_tags r)
    (quirk_single_vector r) (shutdown_locked r) (irq_vectors r).
#[export] Instance set_io_queues : Setter io_queues := λ f r,
  mk_iodev (io_ndev r) (f (io_queues r)) (queue_count r) (max_qid r) (num_vecs r)
    (hctx_default r) (hctx_read r) (hctx_poll r) (sqsize r) (bar_mapped_size r)
    (bar_mapped r) (cmb_use_sqes r) (cmbsz_sqs r) (cmb_size r) (quirk_shared_tags r)
    (quirk_single_vector r) (shutdown_locked r) (irq_vectors r).
#[export] Instance set_queue_count : Setter queue_count := λ f r,
  mk_iodev (io_ndev r) (io_queues r) (f (queue_count r)) (max_qid r) (num_vecs r)
    (hctx_default r) (hctx_read r) (hctx_poll r) (sqsize r) (bar_mapped_size r)
    (bar_mapped r) (cmb_use_sqes r) (cmbsz_sqs r) (cmb_size r) (quirk_shared_tags r)
    (quirk_single_vector r) (shutdown_locked r) (irq_vectors r).
#[export] Instance set_max_qid : Setter max_qid := λ f r,
  mk_iodev (io_ndev r) (io_queues r) (queue_count r) (f (max_qid r)) (num_vecs r)
    (hctx_default r) (hctx_read r) (hctx_poll r) (sqsize r) (bar_mapped_size r)
    (bar_mapped r) (cmb_use_sqes r) (cmbsz_sqs r) (cmb_size r) (quirk_shared_tags r)
    (quirk_single_vector r) (shutdown_locked r) (irq_vectors r).
#[export] Instance set_num_vecs : Setter num_vecs := λ f r,
  mk_iodev (io_ndev r) (io_queues r) (queue_count r) (max_qid r) (f (num_vecs r))
    (hctx_default r) (hctx_read r) (hctx_poll r) (sqsize r) (bar_mapped_size r)
    (bar_mapped r) (cmb_use_sqes r) (cmbsz_sqs r) (cmb_size r) (quirk_shared_tags r)
    (quirk_single_vector r) (shutdown_locked r) (irq_vectors r).
#[export] Instance set_hctx_default : Setter hctx_default := λ f r,
  mk_iodev (io_ndev r) (io_queues r) (queue_count r) (max_qid r) (num_vecs r) (f
    (hctx_default r)) (hctx_read r) (hctx_poll r) (sqsize r) (bar_mapped_size r)
    (bar_mapped r) (cmb_use_sqes r) (cmbsz_sqs r) (cmb_size r) (quirk_shared_tags r)
    (quirk_single_vector r) (shutdown_locked r) (irq_vectors r).
#[export] Instance set_hctx_read : Setter hctx_read := λ f r,
  mk_iodev (io_ndev r) (io_queues r) (queue_count r) (max_qid r) (num_vecs r)
    (hctx_default r) (f (hctx_read r)) (hctx_poll r) (sqsize r) (bar_mapped_size r)
    (bar_mapped r) (cmb_use_sqes r) (cmbsz_sqs r) (cmb_size r) (quirk_shared_tags r)
    (quirk_single_vector r) (shutdown_locked r) (irq_vectors r).
#[export] Instance set_hctx_poll : Setter hctx_poll := λ f r,
  mk_iodev (io_ndev r) (io_queues r) (queue_count r) (max_qid r) (num_vecs r)
    (hctx_default r) (hctx_read r) (f (hctx_poll r)) (sqsize r) (bar_mapped_size r)
    (bar_mapped r) (cmb_use_sqes r) (cmbsz_sqs r) (cmb_size r) (quirk_shared_tags r)
    (quirk_single_vector r) (shutdown_locked r) (irq_vectors r).
#[export] Instance set_sqsize : Setter sqsize := λ f r,
  mk_iodev (io_ndev r) (io_queues r) (queue_count r) (max_qid r) (num_vecs r)
    (hctx_default r) (hctx_read r) (hctx_poll r) (f (sqsize r)) (bar_mapped_size r)
    (bar_mapped r) (cmb_use_sqes r) (cmbsz_sqs r) (cmb_size r) (quirk_shared_tags r)
    (quirk_single_vector r) (shutdown_locked r) (irq_vectors r).
#[export] Instance set_bar_mapped_size : Setter bar_mapped_size := λ f r,
  mk_iodev (io_ndev r) (io_queues r) (queue_count r) (max_qid r) (num_vecs r)
    (hctx_default r) (hctx_read r) (hctx_poll r) (sqsize r) (f (bar_mapped_size r))
    (bar_mapped r) (cmb_use_sqes r) (cmbsz_sqs r) (cmb_size r) (quirk_shared_tags r)
    (quirk_single_vector r) (shutdown_locked r) (irq_vectors r).
#[export] Instance set_bar_mapped : Setter bar_mapped := λ f r,
  mk_iodev (io_ndev r) (io_queues r) (queue_count r) (max_qid r) (num_vecs r)
    (hctx_default r) (hctx_read r) (hctx_poll r) (sqsize r) (bar_mapped_size r) (f
    (bar_mapped r)) (cmb_use_sqes r) (cmbsz_sqs r) (cmb_size r) (quirk_shared_tags r)
    (quirk_single_vector r) (shutdown_locked r) (irq_vectors r).
#[export] Instance set_cmb_use_sqes : Setter cmb_use_sqes := λ f r,
  mk_iodev (io_ndev r) (io_queues r) (queue_count r) (max_qid r) (num_vecs r)
    (hctx_default r) (hctx_read r) (hctx_poll r) (sqsize r) (bar_mapped_size r)
    (bar_mapped r) (f (cmb_use_sqes r)) (cmbsz_sqs r) (cmb_size r) (quirk_shared_tags r)
    (quirk_single_vector r) (shutdown_locked r) (irq_vectors r).
#[export] Instance set_cmbsz_sqs : Setter cmbsz_sqs := λ f r,
  mk_iodev (io_ndev r) (io_queues r) (queue_count r) (max_qid r) (num_vecs r)
    (hctx_default r) (hctx_read r) (hctx_poll r) (sqsize r) (bar_mapped_size r)
    (bar_mapped r) (cmb_use_sqes r) (f (cmbsz_sqs r)) (cmb_size r) (quirk_shared_tags r)
    (quirk_single_vector r) (shutdown_locked r) (irq_vectors r).
#[export] Instance set_cmb_size : Setter cmb_size := λ f r,
  mk_iodev (io_ndev r) (io_queues r) (queue_count r) (max_qid r) (num_vecs r)
    (hctx_default r) (hctx_read r) (hctx_poll r) (sqsize r) (bar_mapped_size r)
    (bar_mapped r) (cmb_use_sqes r) (cmbsz_sqs r) (f (cmb_size r)) (quirk_shared_tags r)
    (quirk_single_vector r) (shutdown_locked r) (irq_vectors r).
#[export] Instance set_quirk_shared_tags : Setter quirk_shared_tags := λ f r,
  mk_iodev (io_ndev r) (io_queues r) (queue_count r) (max_qid r) (num_vecs r)
    (hctx_default r) (hctx_read r) (hctx_poll r) (sqsize r) (bar_mapped_size r)
    (bar_mapped r) (cmb_use_sqes r) (cmbsz_sqs r) (cmb_size r) (f (quirk_shared_tags r))
    (quirk_single_vector r) (shutdown_locked r) (irq_vectors r).
#[export] Instance set_quirk_single_vector : Setter quirk_single_vector := λ f r,
  mk_iodev (io_ndev r) (io_queues r) (queue_count r) (max_qid r) (num_vecs r)
    (hctx_default r) (hctx_read r) (hctx_poll r) (sqsize r) (bar_mapped_size r)
    (bar_mapped r) (cmb_use_sqes r) (cmbsz_sqs r) (cmb_size r) (quirk_shared_tags r) (f
    (quirk_single_vector r)) (shutdown_locked r) (irq_vectors r).
#[export] Instance set_shutdown_locked : Setter shutdown_locked := λ f r,
  mk_iodev (io_ndev r) (io_queues r) (queue_count r) (max_qid r) (num_vecs r)
    (hctx_default r) (hctx_read r) (hctx_poll r) (sqsize r) (bar_mapped_size r)
    (bar_mapped r) (cmb_use_sqes r) (cmbsz_sqs r) (cmb_size r) (quirk_shared_tags r)
    (quirk_single_vector r) (f (shutdown_locked r)) (irq_vectors r).
#[export] Instance set_irq_vectors : Setter irq_vectors := λ f r,
  mk_iodev (io_ndev r) (io_queues r) (queue_count r) (max_qid r) (num_vecs r)
    (hctx_default r) (hctx_read r) (hctx_poll r) (sqsize r) (bar_mapped_size r)
    (bar_mapped r) (cmb_use_sqes r) (cmbsz_sqs r) (cmb_size r) (quirk_shared_tags r)
    (quirk_single_vector r) (shutdown_locked r) (f (irq_vectors r)).

Inductive io_event : Set :=
  | EvCreateCq (qid vector : Z) (rc : Z)
  | EvCreateSq (qid : Z) (rc : Z)
  | EvDeleteSq (qid : Z)
  | EvDeleteCq (qid : Z)
  | EvFreeIrq (qid : Z)
  | EvRequestIrq (qid : Z) (rc : Z).

Record iostate : Type := mk_iostate {
  the_dev : io_dev;
  io_clock : nat;
  io_log : list io_event;
}.

#[export] Instance set_the_dev : Setter the_dev := λ f r,
  mk_iostate (f (the_dev r)) (io_clock r) (io_log r).
#[export] Instance set_io_clock : Setter io_clock := λ f r,
  mk_iostate (the_dev r) (f (io_clock r)) (io_log r).
#[export] Instance set_io_log : Setter io_log := λ f r,
  mk_iostate (the_dev r) (io_clock r) (f (io_log r)).

Record io_env : Type := mk_ioenv {
  ie_set_features : nat → Z → Z * Z;   (* Set Features (Number of Queues): status, result *)
  ie_trylock : nat → bool;             (* mutex_trylock(&dev->shutdown_lock) *)
  ie_connecting : nat → bool;          (* state is NVME_CTRL_CONNECTING *)
  ie_bar_len : Z;                      (* pci_resource_len(pdev, 0) *)
  ie_ioremap : nat → bool;
  ie_irq_vectors : nat → Z → Z;        (* pci_alloc_irq_vectors_affinity(1, max) *)
  ie_request_irq : nat → Z;            (* pci_request_irq *)
  ie_cq_mem : nat → bool;              (* dma_alloc_coherent of the CQ *)
  ie_p2pmem : nat → bool;              (* pci_alloc_p2pmem and its bus address *)
  ie_sq_mem : nat → bool;              (* dma_alloc_coherent of the SQ *)
  ie_create_cq : nat → Z;
  ie_create_sq : nat → Z;
  ie_delete_req : nat → bool;          (* blk_mq_alloc_request *)
  ie_delete_done : nat → bool;         (* wait_for_completion_io_timeout *)
}.

(** ** Primitives *)

Definition upd_dev (f : io_dev → io_dev) : M iostate unit := modify (λ s, s <| the_dev ::= f |>).
Definition upd_nd (f : nvme_dev → nvme_dev) : M iostate unit := upd_dev (λ d, d <| io_ndev ::= f |>).
Definition emit_io (e : io_event) : M iostate unit := modify (λ s, s <| io_log ::= λ l, l ++ [e] |>).

(** The next answer of the environment. *)
Definition ask {A} (f : nat → A) : M iostate A :=
  s ← gets id;
  modify (λ s, s <| io_clock ::= S |>);;
  mret (f (io_clock s)).

Definition get_ioq (qid : Z) : M iostate io_queue :=
  s ← gets id;
  if bool_decide (0 ≤ qid) then from_opt OutOfBounds (io_queues (the_dev s) !! Z.to_nat qid)
  else crash OutOfBounds.

Definition upd_ioq (qid : Z) (f : io_queue → io_queue) : M iostate unit :=
  q ← get_ioq qid;
  upd_dev (λ d, d <| io_queues ::= <[Z.to_nat qid := f q]> |>).

(** ** Pure parts *)

(** nvme_calc_irq_sets: how many interrupts serve default and read queues. *)
Definition nvme_calc_irq_sets (nr_write nrirqs : Z) : Z * Z :=
  let '(nrirqs, nr_read) :=
    if bool_decide (nrirqs = 0) then (1, 0)
    else if bool_decide (nrirqs = 1) || bool_decide (nr_write = 0) then (nrirqs, 0)
    else if bool_decide (nrirqs ≤ nr_write) then (nrirqs, 1)
    else (nrirqs, u32 (nrirqs - nr_write)) in
  (u32 (nrirqs - nr_read), nr_read).

Definition nvme_max_io_queues (shared_tags : bool) (cpus : Z) (dev : nvme_dev) : Z :=
  if shared_tags then 1 else u32 (cpus + nr_write_queues dev + nr_poll_queues dev).

Definition db_bar_size (stride nr_io_queues : Z) : Z :=
  u32 (NVME_REG_DBS + (nr_io_queues + 1) * 8 * stride).

Definition roundup (x y : Z) : Z := (x + (y - 1)) / y * y.
Definition round_down (x y : Z) : Z := Z.land x (Z.lnot (y - 1)).

(** nvme_cmb_qdepth; an error is its negative errno. *)
Definition nvme_cmb_qdepth (depth cmb nr_io_queues entry_size : Z) : Z :=
  let q_size_aligned := u32 (roundup (depth * entry_size) NVME_CTRL_PAGE_SIZE) in
  if bool_decide (cmb < u32 (q_size_aligned * nr_io_queues)) then
    let mem_per_q := round_down (cmb / nr_io_queues) NVME_CTRL_PAGE_SIZE in
    let q_depth := s32 (mem_per_q / entry_size) in
    if bool_decide (q_depth < 64) then - ENOMEM else q_depth
  else depth.

Definition nvme_pci_nr_maps (d : io_dev) : Z :=
  if negb (bool_decide (hctx_poll d = 0)) then 3
  else if negb (bool_decide (hctx_read d = 0)) then 2 else 1.

Section pci_setup.
Context (env : io_env) (write_queues poll_queues : Z).

(** snvme_set_queue_count (core.c): a positive status leaves no I/O queues. *)
Definition snvme_set_queue_count (count : Z) : M iostate (Z * Z) :=
  let q_count := Z.lor (u32 (count - 1)) (u32 (Z.shiftl (count - 1) 16)) in
  '(status, result) ← ask (λ n, ie_set_features env n q_count);
  if bool_decide (status < 0) then mret (status, count)
  else if bool_decide (0 < status) then mret (0, 0)
  else
    let nr := Z.min (Z.land result 65535) (Z.shiftr result 16) + 1 in
    mret (0, Z.min count nr).

Definition nvme_setup_io_queues_trylock : M iostate Z :=
  locked ← ask (ie_trylock env);
  if negb locked then mret (- ENODEV)
  else
    connecting ← ask (ie_connecting env);
    if negb connecting then mret (- ENODEV)
    else upd_dev (λ d, d <| shutdown_locked := true |>);; mret 0.

Definition unlock : M iostate unit := upd_dev (λ d, d <| shutdown_locked := false |>).

Definition nvme_remap_bar (size : Z) : M iostate Z :=
  s ← gets id;
  let d := the_dev s in
  if bool_decide (size ≤ bar_mapped_size d) then mret 0
  else if bool_decide (ie_bar_len env < size) then mret (- ENOMEM)
  else
    ok ← ask (ie_ioremap env);
    if negb ok then upd_dev (λ d, d <| bar_mapped := false |> <| bar_mapped_size := 0 |>);; mret (- ENOMEM)
    else upd_dev (λ d, d <| bar_mapped := true |> <| bar_mapped_size := size |>);; mret 0.

(** The [do … while (1)] that shrinks the count until the doorbells fit; [None]
    is the jump to [out_unlock]. *)
Fixpoint fit_bar (nr : nat) : M iostate (option Z) :=
  match nr with
  | O => mret None
  | S nr' =>
      s ← gets id;
      rc ← nvme_remap_bar (db_bar_size (db_stride (io_ndev (the_dev s))) (Z.of_nat nr));
      if bool_decide (rc = 0) then mret (Some (Z.of_nat nr)) else fit_bar nr'
  end.

Definition queue_request_irq (qid : Z) : M iostate Z :=
  rc ← ask (ie_request_irq env); emit_io (EvRequestIrq qid rc);; mret rc.

(** test_and_clear_bit(NVMEQ_ENABLED, &adminq->flags) and pci_free_irq. *)
Definition release_admin_irq : M iostate unit :=
  q ← get_ioq 0;
  when (ioq_enabled q) (upd_ioq 0 (λ q, q <| ioq_enabled := false |>);; emit_io (EvFreeIrq 0)).

Definition nvme_setup_irqs (nr_io_queues : Z) : M iostate Z :=
  s ← gets id;
  let d := the_dev s in
  let poll := Z.min (nr_poll_queues (io_ndev d)) (u32 (nr_io_queues - 1)) in
  upd_dev (λ d, d <| hctx_poll := poll |> <| hctx_default := 1 |> <| hctx_read := 0 |>);;
  let irq_queues := if quirk_single_vector d then 1 else u32 (1 + (nr_io_queues - poll)) in
  n ← ask (λ k, ie_irq_vectors env k irq_queues);
  if bool_decide (n ≤ 0) then mret n
  else
    let '(def, rd) := nvme_calc_irq_sets (nr_write_queues (io_ndev d)) (n - 1) in
    upd_dev (λ d, d <| hctx_default := def |> <| hctx_read := rd |> <| irq_vectors := true |>);;
    mret n.

Definition nvme_alloc_sq_cmds (qid : Z) : M iostate Z :=
  s ← gets id;
  let d := the_dev s in
  p2p ← (if negb (bool_decide (qid = 0)) && cmb_use_sqes d && cmbsz_sqs d
         then ask (ie_p2pmem env) else mret false);
  if (p2p : bool) then upd_ioq qid (λ q, q <| ioq_sq_cmb := true |>);; mret 0
  else ok ← ask (ie_sq_mem env); mret (if (ok : bool) then 0 else - ENOMEM).

Definition nvme_alloc_queue (qid depth : Z) : M iostate Z :=
  q ← get_ioq qid;
  s ← gets id;
  if bool_decide (qid < queue_count (the_dev s)) then mret 0
  else
    upd_ioq qid (λ q, q <| ioq_depth := depth |>);;
    ok ← ask (ie_cq_mem env);
    if negb ok then mret (- ENOMEM)
    else
      rc ← nvme_alloc_sq_cmds qid;
      if negb (bool_decide (rc = 0)) then mret (- ENOMEM)
      else
        upd_ioq qid (λ q, q <| ioq_allocated := true |>);;
        upd_dev (λ d, d <| queue_count ::= Z.add 1 |>);;
        mret 0.

Definition adapter_alloc_cq (qid vector : Z) : M iostate Z :=
  rc ← ask (ie_create_cq env); emit_io (EvCreateCq qid vector rc);; mret rc.

Definition adapter_alloc_sq (qid : Z) : M iostate Z :=
  rc ← ask (ie_create_sq env); emit_io (EvCreateSq qid rc);; mret rc.

Definition nvme_create_queue (qid : Z) (polled : bool) : M iostate Z :=
  s ← gets id;
  upd_ioq qid (λ q, q <| ioq_delete_error := false |>
                      <| ioq_polled ::= λ p, p || polled |>);;
  let vector := if polled then 0
                else if bool_decide (num_vecs (the_dev s) = 1) then 0 else u16 qid in
  result ← adapter_alloc_cq qid vector;
  if negb (bool_decide (result = 0)) then mret result
  else
    result ← adapter_alloc_sq qid;
    if bool_decide (result < 0) then mret result
    else if negb (bool_decide (result = 0)) then emit_io (EvDeleteCq qid);; mret result
    else
      upd_ioq qid (λ q, q <| ioq_vector := vector |>);;
      result ← nvme_setup_io_queues_trylock;
      if negb (bool_decide (result = 0)) then mret result
      else
        upd_nd (λ nd, nd <| online_queues ::= Z.add 1 |>);;
        result ← (if polled then mret 0 else queue_request_irq qid);
        if bool_decide (result < 0) then
          upd_nd (λ nd, nd <| online_queues ::= λ n, n - 1 |>);;
          unlock;;
          emit_io (EvDeleteSq qid);;
          emit_io (EvDeleteCq qid);;
          mret result
        else
          upd_ioq qid (λ q, q <| ioq_enabled := true |>);;
          unlock;;
          mret result.

(** The two loops of nvme_create_io_queues, [n] iterations to go. *)
Fixpoint alloc_queues (n : nat) (i : Z) : M iostate Z :=
  match n with
  | O => mret 0
  | S n =>
      s ← gets id;
      rc ← nvme_alloc_queue i (q_depth (io_ndev (the_dev s)));
      if negb (bool_decide (rc = 0)) then mret (- ENOMEM) else alloc_queues n (i + 1)
  end.

Fixpoint create_queues_loop (n : nat) (i rw_queues ret : Z) : M iostate Z :=
  match n with
  | O => mret ret
  | S n =>
      ret ← nvme_create_queue i (bool_decide (rw_queues < i));
      if negb (bool_decide (ret = 0)) then mret ret else create_queues_loop n (i + 1) rw_queues ret
  end.

Definition nvme_create_io_queues : M iostate Z :=
  s ← gets id;
  let d := the_dev s in
  ret ← alloc_queues (Z.to_nat (max_qid d - queue_count d + 1)) (queue_count d);
  s ← gets id;
  let d := the_dev s in
  let max := Z.min (max_qid d) (queue_count d - 1) in
  let rw_queues := if negb (bool_decide (max = 1)) && negb (bool_decide (hctx_poll d = 0))
                   then hctx_default d + hctx_read d else max in
  ret ← create_queues_loop (Z.to_nat (max - online_queues (io_ndev d) + 1))
          (online_queues (io_ndev d)) rw_queues ret;
  mret (if bool_decide (0 ≤ ret) then 0 else ret).

(** ** Tearing queues down again *)

(** __nvme_delete_io_queues: [nr] commands to send, [sent] to wait for. *)
Fixpoint delete_send (nr : nat) (sent : Z) (ev : Z → io_event) : M iostate (Z * Z) :=
  match nr with
  | O => mret (0, sent)
  | S nr' =>
      ok ← ask (ie_delete_req env);
      if negb ok then mret (Z.of_nat nr, sent)
      else emit_io (ev (Z.of_nat nr));; delete_send nr' (sent + 1) ev
  end.

Fixpoint delete_loop (fuel : nat) (nr sent : Z) (ev : Z → io_event) : M iostate bool :=
  match fuel with
  | O => crash OutOfFuel
  | S fuel =>
      '(nr, sent) ← delete_send (Z.to_nat nr) sent ev;
      (fix wait (w : nat) (sent : Z) : M iostate bool :=
         match w with
         | O => mret true
         | S w =>
             done ← ask (ie_delete_done env);
             if negb done then mret false
             else if bool_decide (nr ≠ 0) then delete_loop fuel nr (sent - 1) ev
             else wait w (sent - 1)
         end) (Z.to_nat sent) sent
  end.

Definition __nvme_delete_io_queues (ev : Z → io_event) : M iostate bool :=
  s ← gets id;
  let nr := online_queues (io_ndev (the_dev s)) - 1 in
  delete_loop (S (2 * Z.to_nat nr)) nr 0 ev.

Definition nvme_delete_io_queues : M iostate unit :=
  ok ← __nvme_delete_io_queues EvDeleteSq;
  when ok (__nvme_delete_io_queues EvDeleteCq;; mret tt).

Definition nvme_suspend_queue (qid : Z) : M iostate unit :=
  q ← get_ioq qid;
  if negb (ioq_enabled q) then mret tt
  else
    upd_ioq qid (λ q, q <| ioq_enabled := false |>);;
    upd_nd (λ nd, nd <| online_queues ::= λ n, n - 1 |>);;
    if ioq_polled q then upd_ioq qid (λ q, q <| ioq_polled := false |>)
    else emit_io (EvFreeIrq qid).

Definition nvme_suspend_io_queues : M iostate unit :=
  s ← gets id;
  for_each (λ i, nvme_suspend_queue (Z.of_nat i))
    (rev (seq 1 (Z.to_nat (queue_count (the_dev s)) - 1))).

(** ** s_nvme_setup_io_queues *)

(** From the label [retry]; one round of interrupts and queues. *)
Fixpoint setup_retry (fuel : nat) (nr_io_queues : Z) : M iostate Z :=
  match fuel with
  | O => crash OutOfFuel
  | S fuel =>
      release_admin_irq;;
      upd_dev (λ d, d <| irq_vectors := false |>);;
      n ← nvme_setup_irqs nr_io_queues;
      if bool_decide (n ≤ 0) then unlock;; mret (- EIO)
      else
        upd_dev (λ d, d <| num_vecs := n |> <| max_qid := Z.max (n - 1) 1 + hctx_poll d |>);;
        rc ← queue_request_irq 0;
        if negb (bool_decide (rc = 0)) then unlock;; mret rc
        else
          upd_ioq 0 (λ q, q <| ioq_enabled := true |>);;
          unlock;;
          result ← nvme_create_io_queues;
          s ← gets id;
          let online := online_queues (io_ndev (the_dev s)) in
          if negb (bool_decide (result = 0)) || bool_decide (online < 2) then mret result
          else if bool_decide (online - 1 < max_qid (the_dev s)) then
            nvme_delete_io_queues;;
            rc ← nvme_setup_io_queues_trylock;
            if negb (bool_decide (rc = 0)) then mret rc
            else nvme_suspend_io_queues;; setup_retry fuel (online - 1)
          else mret 0
  end.

(** The controller memory buffer may shorten the queues. *)
Definition setup_cmb (nr_io_queues : Z) : M iostate unit :=
  s ← gets id;
  let d := the_dev s in
  when (cmb_use_sqes d)
    (let result := nvme_cmb_qdepth (q_depth (io_ndev d)) (cmb_size d) nr_io_queues 64 in
     if bool_decide (0 < result)
     then upd_nd (λ nd, nd <| q_depth := result |>);; upd_dev (λ d, d <| sqsize := u16 (result - 1) |>)
     else upd_dev (λ d, d <| cmb_use_sqes := false |>)).

(** The share of the granted queues the kernel uses itself. *)
Definition cap_queues (cap nr_io_queues : Z) : Z :=
  if negb (bool_decide (cap = 0)) && bool_decide (cap < nr_io_queues) then cap else nr_io_queues.

Definition s_nvme_setup_io_queues : M iostate Z :=
  s ← gets id;
  let nd := io_ndev (the_dev s) in
  when (bool_decide (nd_cap_kernel_ioq nd = 0))
    (upd_nd (λ nd, nd <| nr_write_queues := write_queues |> <| nr_poll_queues := poll_queues |>));;
  '(result, nr_io_queues) ← snvme_set_queue_count (nr_allocated_queues nd - 1);
  when (bool_decide (result = 0)) (upd_nd (λ nd, nd <| ctrl_max_io_queues := nr_io_queues |>));;
  if bool_decide (result < 0) then mret result
  else if bool_decide (nr_io_queues = 0) then mret 0
  else
    let nr_io_queues := cap_queues (nd_cap_kernel_ioq nd) nr_io_queues in
    rc ← nvme_setup_io_queues_trylock;
    if negb (bool_decide (rc = 0)) then mret rc
    else
      release_admin_irq;;
      setup_cmb nr_io_queues;;
      o ← fit_bar (Z.to_nat nr_io_queues);
      match o with
      | None => unlock;; mret (- ENOMEM)
      | Some nr_io_queues => setup_retry (Z.to_nat nr_io_queues) nr_io_queues
      end.

End pci_setup.
