(* ===== verification/PciSetupSpec.v ===== *)
(** * PciSetupSpec: queue set-up stays inside the kernel's share

    An invariant over queue set-up and its retry loop: the queue array is
    never indexed out of range, the enabled I/O queues are exactly those below
    [online_queues], every Create command names a queue id of the kernel's
    share, and the shutdown lock is held exactly where the code expects it. *)
From S2P Require Import Prelude.
From S2P Require Import Uapi.
From S2P Require Import Kernel.
From S2P Require Import PciData.
From S2P Require Import PciSetup.

(** ** The interrupt split *)

(** All interrupts but the admin queue's are used, a read queue is only made
    when two are left, and there is always a default queue. *)
Lemma calc_irq_sets_ok w n :
  0 ≤ w < 2 ^ 32 → 0 ≤ n < 2 ^ 32 →
  let '(def, rd) := nvme_calc_irq_sets w n in
  1 ≤ def ∧ 0 ≤ rd ∧ def + rd = Z.max n 1 ∧ (0 < rd → 2 ≤ n ∧ w ≠ 0) ∧ (0 < rd → def ≤ Z.max w (n - 1)).
Proof.
  intros Hw Hn. unfold nvme_calc_irq_sets.
  case_bool_decide; [rewrite wrap_small by lia; lia|].
  case_bool_decide; cbn [orb]; [rewrite wrap_small by lia; lia|].
  case_bool_decide; [rewrite wrap_small by lia; lia|].
  case_bool_decide; [rewrite wrap_small by lia; lia|].
  rewrite (wrap_small 32 (n - w)) by lia. rewrite wrap_small by lia. lia.
Qed.

(** ** The invariant *)

Definition create_ok (K : Z) (e : io_event) : Prop :=
  match e with
  | EvCreateCq qid _ _ | EvCreateSq qid _ => 1 ≤ qid ≤ K
  | _ => True
  end.

Definition nd_of (s : iostate) : nvme_dev := io_ndev (the_dev s).

(** The part of the state the invariant is about. *)
Definition io_core (s : iostate) :=
  (io_queues (the_dev s), queue_count (the_dev s), shutdown_locked (the_dev s), io_log s,
   (online_queues (nd_of s), ctrl_max_io_queues (nd_of s), nr_allocated_queues (nd_of s),
    nr_poll_queues (nd_of s))).

(** [K] the kernel's share, [G] the controller's grant, [L] the lock. *)
Record io_ok (K G : Z) (L : bool) (s : iostate) : Prop := {
  io_len : Z.of_nat (length (io_queues (the_dev s))) = nr_allocated_queues (nd_of s);
  io_share : 1 ≤ K ≤ G ∧ G < nr_allocated_queues (nd_of s);
  io_online : 1 ≤ online_queues (nd_of s) ≤ K + 1;
  io_count : online_queues (nd_of s) ≤ queue_count (the_dev s) ≤ nr_allocated_queues (nd_of s);
  io_enabled i q : (1 ≤ i)%nat → io_queues (the_dev s) !! i = Some q →
                   ioq_enabled q = bool_decide (Z.of_nat i < online_queues (nd_of s));
  io_creates : Forall (create_ok K) (io_log s);
  io_grant : ctrl_max_io_queues (nd_of s) = G;
  io_lock : shutdown_locked (the_dev s) = L;
  io_poll : 0 ≤ nr_poll_queues (nd_of s);
}.

Lemma io_ok_core K G L s s' : io_core s' = io_core s → io_ok K G L s → io_ok K G L s'.
Proof.
  intros [= E1 E2 E3 E4 E5 E6 E7 E8] []. split; rewrite ?E1, ?E2, ?E3, ?E4, ?E5, ?E6, ?E7, ?E8; done.
Qed.

(** Changes the invariant does not see. *)
Ltac io_frame H := eapply io_ok_core; [|exact H]; reflexivity.

Lemma wp_ask {A} (f : nat → A) (Q : outcome A → iostate → Prop) s :
  (∀ a, Q (Ok a) (s <| io_clock ::= S |>)) → wp (ask f) Q s.
Proof. intros H. apply H. Qed.

Lemma wp_get_ioq K G L s qid (Q : outcome io_queue → iostate → Prop) :
  io_ok K G L s → 0 ≤ qid < nr_allocated_queues (nd_of s) →
  (∀ q, io_queues (the_dev s) !! Z.to_nat qid = Some q → Q (Ok q) s) → wp (get_ioq qid) Q s.
Proof.
  intros H Hq HQ. unfold get_ioq. apply wp_bind, wp_gets. cbn [id]. rewrite bool_decide_true by lia.
  destruct (lookup_lt_is_Some_2 (io_queues (the_dev s)) (Z.to_nat qid)) as [q Hl].
  { pose proof (io_len _ _ _ _ H). lia. }
  eapply wp_from_opt; [exact Hl|]. by apply HQ.
Qed.

(** Updates of a queue that leave its enabled bit alone. *)
Lemma io_ok_upd_ioq K G L s i q f :
  io_ok K G L s → io_queues (the_dev s) !! i = Some q → (1 ≤ i → ioq_enabled (f q) = ioq_enabled q)%nat →
  io_ok K G L (s <| the_dev ::= λ d, d <| io_queues ::= <[i := f q]> |> |>).
Proof.
  intros [Hlen Hsh Hon Hc He Hcr Hg Hl Hpo] Hi Hf. split; try done.
  - cbn. rewrite length_insert. exact Hlen.
  - intros j x Hj Hx. change (io_queues _) with (<[i := f q]> (io_queues (the_dev s))) in Hx.
    change (nd_of _) with (nd_of s).
    destruct (decide (j = i)) as [->|Hne].
    + rewrite list_lookup_insert_eq in Hx by (eapply lookup_lt_Some, Hi). injection Hx as <-.
      rewrite Hf by done. by apply He.
    + rewrite list_lookup_insert_ne in Hx by done. by apply He.
Qed.

Lemma upd_ioq_ok K G L s qid f (Q : outcome unit → iostate → Prop) :
  io_ok K G L s → 0 ≤ qid < nr_allocated_queues (nd_of s) →
  (∀ q, ioq_enabled (f q) = ioq_enabled q) →
  (∀ s', io_ok K G L s' → nd_of s' = nd_of s → queue_count (the_dev s') = queue_count (the_dev s) →
         max_qid (the_dev s') = max_qid (the_dev s) → Q (Ok tt) s') →
  wp (upd_ioq qid f) Q s.
Proof.
  intros H Hq Hf HQ. unfold upd_ioq. apply wp_bind. eapply wp_get_ioq; [done|done|]. intros q Hl.
  apply wp_modify, HQ; [|done..]. by eapply io_ok_upd_ioq.
Qed.

(** Fields a step leaves alone. *)
Definition keeps (s s' : iostate) : Prop :=
  nd_of s' = nd_of s ∧ queue_count (the_dev s') = queue_count (the_dev s)
  ∧ max_qid (the_dev s') = max_qid (the_dev s).

Lemma keeps_trans s1 s2 s3 : keeps s1 s2 → keeps s2 s3 → keeps s1 s3.
Proof. unfold keeps. intuition congruence. Qed.

Section setup.
Context (env : io_env) (K G : Z).

Lemma trylock_ok s :
  io_ok K G false s →
  wp (nvme_setup_io_queues_trylock env) (λ r s', ∃ rc, r = Ok rc ∧ keeps s s'
       ∧ io_ok K G (bool_decide (rc = 0)) s' ∧ rc ≤ 0) s.
Proof.
  intros H. unfold nvme_setup_io_queues_trylock. apply wp_bind, wp_ask. intros []; cbn [negb].
  2:{ apply wp_ret. exists (- ENODEV). split_and!; [done|done|io_frame H|done]. }
  apply wp_bind, wp_ask. intros []; cbn [negb].
  2:{ apply wp_ret. exists (- ENODEV). split_and!; [done|done|io_frame H|done]. }
  apply wp_bind, wp_modify, wp_ret. exists 0. split_and!; [done|done| |done].
  destruct H. by split.
Qed.

Lemma unlock_ok s L :
  io_ok K G L s → wp unlock (λ r s', r = Ok tt ∧ keeps s s' ∧ io_ok K G false s') s.
Proof. intros []. apply wp_modify. split_and!; [done|done|]. by split. Qed.

Lemma emit_ok s L e :
  io_ok K G L s → create_ok K e → wp (emit_io e) (λ r s', r = Ok tt ∧ keeps s s' ∧ io_ok K G L s') s.
Proof.
  intros [] He. apply wp_modify. split_and!; [done|done|]. split; try done.
  apply Forall_app. split; [done|]. by apply Forall_singleton.
Qed.

Lemma request_irq_ok s L qid :
  io_ok K G L s → wp (queue_request_irq env qid) (λ r s', ∃ rc, r = Ok rc ∧ keeps s s' ∧ io_ok K G L s') s.
Proof.
  intros H. unfold queue_request_irq. apply wp_bind, wp_ask. intros rc. apply wp_bind.
  eapply wp_mono; [apply (emit_ok _ L (EvRequestIrq qid rc)); [io_frame H|done]|].
  intros r s' (-> & Hk & Ho). apply wp_ret. by exists rc.
Qed.

(** ** Memory and commands of one queue *)

Lemma ioq_alloc_sq_ok s L qid :
  io_ok K G L s → 0 ≤ qid < nr_allocated_queues (nd_of s) →
  wp (nvme_alloc_sq_cmds env qid) (λ r s', ∃ rc, r = Ok rc ∧ keeps s s' ∧ io_ok K G L s') s.
Proof.
  intros H Hq. unfold nvme_alloc_sq_cmds. apply wp_bind, wp_gets, wp_bind.
  assert (Hp : wp (if negb (bool_decide (qid = 0)) && cmb_use_sqes (the_dev (id s)) && cmbsz_sqs (the_dev (id s))
                   then ask (ie_p2pmem env) else mret false)
    (λ r s', ∃ b, r = Ok b ∧ keeps s s' ∧ io_ok K G L s') s).
  { destruct (_ && _); [apply wp_ask; intros b; exists b|apply wp_ret; exists false];
      (split_and!; [done|done|io_frame H]). }
  eapply wp_mono; [exact Hp|]. intros r s1 (b & -> & (E1 & E2 & E3) & H1). destruct b.
  - apply wp_bind. eapply upd_ioq_ok; [exact H1|by rewrite E1|done|]. intros s2 H2 F1 F2 F3.
    apply wp_ret. exists 0. split_and!; [done| |done]. unfold keeps. by rewrite F1, F2, F3.
  - apply wp_bind, wp_ask. intros ok. apply wp_ret. eexists. split_and!; [done|done|io_frame H1].
Qed.

(** The next queue in line gets its memory. *)
Lemma alloc_queue_ok s L qid depth :
  io_ok K G L s → queue_count (the_dev s) = qid → qid ≤ K →
  wp (nvme_alloc_queue env qid depth) (λ r s', ∃ rc, r = Ok rc ∧ io_ok K G L s' ∧ nd_of s' = nd_of s
    ∧ max_qid (the_dev s') = max_qid (the_dev s)
    ∧ queue_count (the_dev s') = if bool_decide (rc = 0) then qid + 1 else qid) s.
Proof.
  intros H Hc Hq. pose proof (io_share _ _ _ _ H) as Hsh. pose proof (io_online _ _ _ _ H) as Hon.
  pose proof (io_count _ _ _ _ H) as Hcnt.
  unfold nvme_alloc_queue. apply wp_bind. eapply wp_get_ioq; [exact H|lia|]. intros q _.
  apply wp_bind, wp_gets. rewrite bool_decide_false by (cbn [id]; lia).
  apply wp_bind. eapply upd_ioq_ok; [exact H|lia|done|]. intros s1 H1 F1 F2 F3.
  apply wp_bind, wp_ask. intros []; cbn [negb].
  2:{ apply wp_ret. exists (- ENOMEM). split_and!; [done|io_frame H1|done|done|by rewrite <- Hc]. }
  apply wp_bind. eapply wp_mono; [apply (ioq_alloc_sq_ok _ L qid); [io_frame H1|]|].
  { change (nd_of (s1 <| io_clock ::= S |>)) with (nd_of s1). rewrite F1. lia. }
  intros r s2 (rc & -> & (E1 & E2 & E3) & H2).
  change (nd_of (s1 <| io_clock ::= S |>)) with (nd_of s1) in E1.
  change (the_dev (s1 <| io_clock ::= S |>)) with (the_dev s1) in E2, E3.
  case_bool_decide; cbn [negb].
  2:{ apply wp_ret. exists (- ENOMEM). split_and!; [done|done|congruence|congruence|].
      rewrite bool_decide_false by done. congruence. }
  apply wp_bind. eapply upd_ioq_ok; [exact H2|rewrite E1, F1; lia|done|]. intros s3 H3 J1 J2 J3.
  apply wp_bind, wp_modify, wp_ret. exists 0.
  assert (Hn : nd_of s3 = nd_of s) by congruence. assert (Hcc : queue_count (the_dev s3) = qid) by congruence.
  split_and!; [done| |exact Hn|cbn; congruence|].
  - destruct H3. split; try done. change (queue_count _) with (1 + queue_count (the_dev s3)).
    change (nd_of _) with (nd_of s3). rewrite Hn, Hcc. lia.
  - change (queue_count _) with (1 + queue_count (the_dev s3)). rewrite bool_decide_true by done. lia.
Qed.

Lemma alloc_queues_ok n : ∀ s L i,
  io_ok K G L s → queue_count (the_dev s) = i → i + Z.of_nat n ≤ K + 1 →
  wp (alloc_queues env n i) (λ r s', ∃ rc, r = Ok rc ∧ io_ok K G L s' ∧ nd_of s' = nd_of s
    ∧ max_qid (the_dev s') = max_qid (the_dev s) ∧ i ≤ queue_count (the_dev s') ≤ i + Z.of_nat n ∧ rc ≤ 0) s.
Proof.
  induction n as [|n IH]; intros s L i H Hi Hle; cbn [alloc_queues].
  { apply wp_ret. exists 0. split_and!; try done; lia. }
  apply wp_bind, wp_gets, wp_bind. eapply wp_mono; [apply (alloc_queue_ok _ L i); [done|done|lia]|].
  intros r s1 (rc & -> & H1 & E1 & E2 & E3). case_bool_decide as Hrc; cbn [negb].
  - eapply wp_mono; [apply (IH s1 L (i + 1)); [done|done|lia]|].
    intros r s2 (rc2 & -> & H2 & F1 & F2 & F3 & F4). exists rc2. split_and!; [done|done|congruence|congruence|lia|lia|done].
  - apply wp_ret. exists (- ENOMEM). split_and!; try done; lia.
Qed.

(** A queue comes online: the counter and its enabled bit move together. *)
Definition raised (s : iostate) : iostate :=
  s <| the_dev ::= λ d, d <| io_ndev ::= λ nd, nd <| online_queues ::= Z.add 1 |> |> |>.
Definition lowered (s : iostate) : iostate :=
  s <| the_dev ::= λ d, d <| io_ndev ::= λ nd, nd <| online_queues ::= λ n, n - 1 |> |> |>.
Definition irq_asked (qid rc : Z) (s : iostate) : iostate :=
  s <| io_clock ::= S |> <| io_log ::= λ l, l ++ [EvRequestIrq qid rc] |>.

Lemma enable_ok s L qid q :
  io_ok K G L s → online_queues (nd_of s) = qid → 1 ≤ qid ≤ K → qid < queue_count (the_dev s) →
  io_queues (the_dev s) !! Z.to_nat qid = Some q →
  io_ok K G L ((raised s) <| the_dev ::= λ d, d <| io_queues ::= <[Z.to_nat qid := q <| ioq_enabled := true |>]> |> |>).
Proof.
  intros [Hlen Hsh Hon Hc He Hcr Hg Hl Hpo] Ho Hq Hqc Hlk.
  set (s' := _ <| the_dev ::= _ |>).
  assert (E : online_queues (nd_of s') = 1 + online_queues (nd_of s)) by done.
  split; try done.
  - change (io_queues (the_dev s')) with (<[Z.to_nat qid := q <| ioq_enabled := true |>]> (io_queues (the_dev s))).
    rewrite length_insert. exact Hlen.
  - rewrite E. lia.
  - rewrite E. change (queue_count (the_dev s')) with (queue_count (the_dev s)).
    change (nr_allocated_queues (nd_of s')) with (nr_allocated_queues (nd_of s)). lia.
  - intros i x Hi Hx. rewrite E.
    change (io_queues (the_dev s')) with (<[Z.to_nat qid := q <| ioq_enabled := true |>]> (io_queues (the_dev s))) in Hx.
    destruct (decide (i = Z.to_nat qid)) as [->|Hne].
    + rewrite list_lookup_insert_eq in Hx by (eapply lookup_lt_Some, Hlk). injection Hx as <-.
      symmetry. apply bool_decide_true. lia.
    + rewrite list_lookup_insert_ne in Hx by done. rewrite (He i x Hi Hx). apply bool_decide_ext. lia.
Qed.

Lemma io_ok_log s L e : io_ok K G L s → create_ok K e → io_ok K G L (s <| io_log ::= λ l, l ++ [e] |>).
Proof.
  intros [] He. split; try done. apply Forall_app. split; [done|by apply Forall_singleton].
Qed.

Lemma lowered_ok s L qid rc : io_ok K G L s → io_ok K G L (lowered (irq_asked qid rc (raised s))).
Proof.
  intros H. pose proof (io_ok_log s L (EvRequestIrq qid rc) H I) as H'.
  eapply io_ok_core; [|exact H']. unfold io_core, nd_of, lowered, irq_asked, raised. cbn -[Z.add Z.sub].
  by replace (1 + online_queues (io_ndev (the_dev s)) - 1) with (online_queues (io_ndev (the_dev s))) by lia.
Qed.

(** What creating the next queue can end in. *)
Definition created (s : iostate) (qid : Z) (r : outcome Z) (s' : iostate) : Prop :=
  ∃ rc, r = Ok rc ∧ io_ok K G false s' ∧ queue_count (the_dev s') = queue_count (the_dev s)
    ∧ max_qid (the_dev s') = max_qid (the_dev s)
    ∧ (online_queues (nd_of s') = qid ∨ online_queues (nd_of s') = qid + 1)
    ∧ (rc = 0 → online_queues (nd_of s') = qid + 1).

(** The end of nvme_create_queue, with the lock held and both commands done. *)
Lemma bring_online_ok s qid (polled : bool) :
  io_ok K G true s → online_queues (nd_of s) = qid → 1 ≤ qid ≤ K → qid < queue_count (the_dev s) →
  wp (upd_nd (λ nd, nd <| online_queues ::= Z.add 1 |>);;
      result ← (if polled then mret 0 else queue_request_irq env qid);
      if bool_decide (result < 0) then
        upd_nd (λ nd, nd <| online_queues ::= λ n, n - 1 |>);;
        unlock;; emit_io (EvDeleteSq qid);; emit_io (EvDeleteCq qid);; mret result
      else upd_ioq qid (λ q, q <| ioq_enabled := true |>);; unlock;; mret result) (created s qid) s.
Proof.
  intros H Ho Hq Hqc. pose proof (io_share _ _ _ _ H) as Hsh.
  apply wp_bind, wp_modify, wp_bind. fold (raised s).
  destruct (lookup_lt_is_Some_2 (io_queues (the_dev s)) (Z.to_nat qid)) as [q Hl].
  { pose proof (io_len _ _ _ _ H). lia. }
  assert (Hend : ∀ s1 rc, (s1 = raised s ∨ s1 = irq_asked qid rc (raised s)) → 0 ≤ rc →
    wp (upd_ioq qid (λ q, q <| ioq_enabled := true |>);; unlock;; mret rc) (created s qid) s1).
  { intros s1 rc Hs1 Hrc.
    assert (Hbase : ∃ s2, s1 = raised s2 ∧ io_ok K G true s2 ∧ nd_of s2 = nd_of s ∧ io_queues (the_dev s2) = io_queues (the_dev s)
      ∧ queue_count (the_dev s2) = queue_count (the_dev s) ∧ max_qid (the_dev s2) = max_qid (the_dev s)).
    { destruct Hs1 as [->| ->]; [by exists s|]. exists (irq_asked qid rc s). split_and!; try done.
      apply (io_ok_core _ _ _ (s <| io_log ::= λ l, l ++ [EvRequestIrq qid rc] |>)); [done|by apply io_ok_log]. }
    destruct Hbase as (s2 & -> & H2 & En & Eq & Ec & Em).
    apply wp_bind. unfold upd_ioq, get_ioq. apply wp_bind, wp_bind, wp_gets. cbn [id].
    rewrite bool_decide_true by lia. eapply wp_from_opt; [rewrite <- Eq in Hl; exact Hl|].
    apply wp_modify, wp_bind.
    eapply wp_mono; [apply (unlock_ok _ true), (enable_ok s2 true qid q); [done|by rewrite En|done|by rewrite Ec|by rewrite Eq]|].
    intros r s3 (-> & (F1 & F2 & F3) & H3). apply wp_ret. exists rc.
    assert (Eo : online_queues (nd_of s3) = qid + 1).
    { rewrite F1. change (online_queues (nd_of _)) with (1 + online_queues (nd_of s2)). rewrite En. lia. }
    split_and!; [done|done|by rewrite F2|by rewrite F3|by right|done]. }
  destruct polled.
  - apply wp_ret. rewrite bool_decide_false by done. apply Hend; [by left|done].
  - eapply wp_eq; [reflexivity|]. cbv beta iota. set (rc := ie_request_irq env _). fold (irq_asked qid rc (raised s)).
    case_bool_decide as Hneg; [|apply Hend; [by right|lia]].
    apply wp_bind, wp_modify. fold (lowered (irq_asked qid rc (raised s))).
    pose proof (lowered_ok s true qid rc H) as H1.
    apply wp_bind. eapply wp_mono; [apply (unlock_ok _ true H1)|]. intros r s1 (-> & K1 & H2).
    apply wp_bind. eapply wp_mono; [apply (emit_ok _ false (EvDeleteSq qid) H2 I)|]. intros r s2 (-> & K2 & H3).
    apply wp_bind. eapply wp_mono; [apply (emit_ok _ false (EvDeleteCq qid) H3 I)|]. intros r s3 (-> & K3 & H4).
    apply wp_ret. exists rc. destruct (keeps_trans _ _ _ (keeps_trans _ _ _ K1 K2) K3) as (F1 & F2 & F3).
    assert (Eo : online_queues (nd_of s3) = qid).
    { rewrite F1. change (online_queues (nd_of _)) with (1 + online_queues (nd_of s) - 1). lia. }
    split_and!; [done|done|by rewrite F2|by rewrite F3|by left|lia].
Qed.

(** One of the two admin commands of a queue in the kernel's share. *)
Lemma create_cmd_ok s L (f : nat → Z) (ev : Z → io_event) :
  io_ok K G L s → (∀ rc, create_ok K (ev rc)) →
  wp (rc ← ask f; emit_io (ev rc);; mret rc) (λ r s', ∃ rc, r = Ok rc ∧ keeps s s' ∧ io_ok K G L s') s.
Proof.
  intros H Hev. apply wp_bind, wp_ask. intros rc. apply wp_bind.
  eapply wp_mono; [apply (emit_ok _ L (ev rc)); [io_frame H|apply Hev]|].
  intros r s' (-> & Hk & Ho). apply wp_ret. by exists rc.
Qed.

Lemma created_early s s' qid rc :
  io_ok K G false s' → keeps s s' → online_queues (nd_of s) = qid → rc ≠ 0 → created s qid (Ok rc) s'.
Proof. intros H (E1 & E2 & E3) Ho Hrc. exists rc. rewrite E1. split_and!; try done. by left. Qed.

Lemma create_queue_ok s qid polled :
  io_ok K G false s → online_queues (nd_of s) = qid → 1 ≤ qid ≤ K → qid < queue_count (the_dev s) →
  wp (nvme_create_queue env qid polled) (created s qid) s.
Proof.
  intros H Ho Hq Hqc. pose proof (io_share _ _ _ _ H) as Hsh. unfold nvme_create_queue. apply wp_bind, wp_gets, wp_bind.
  eapply upd_ioq_ok; [exact H|lia|done|]. intros s1 H1 A1 A2 A3. cbv zeta.
  assert (K1 : keeps s s1) by done.
  apply wp_bind. eapply wp_mono; [apply (create_cmd_ok _ false _ (EvCreateCq qid _)); [exact H1|by intros]|].
  intros r s2 (rc & -> & K2 & H2). pose proof (keeps_trans _ _ _ K1 K2) as K02.
  case_bool_decide as Hz2; cbn [negb]; [|apply wp_ret; by apply created_early].
  apply wp_bind. eapply wp_mono; [apply (create_cmd_ok _ false _ (EvCreateSq qid)); [exact H2|by intros]|].
  intros r s3 (rc3 & -> & K3 & H3). pose proof (keeps_trans _ _ _ K02 K3) as K03.
  case_bool_decide as Hneg; [apply wp_ret; apply created_early; try done; lia|].
  case_bool_decide as Hz3; cbn [negb].
  2:{ apply wp_bind. eapply wp_mono; [apply (emit_ok _ false (EvDeleteCq qid) H3 I)|]. intros r s4 (-> & K4 & H4).
      apply wp_ret. apply created_early; try done. by eapply keeps_trans. }
  apply wp_bind. eapply upd_ioq_ok; [exact H3|rewrite (proj1 K03); lia|done|]. intros s4 H4 B1 B2 B3.
  assert (K04 : keeps s s4) by (eapply keeps_trans; [exact K03|done]).
  apply wp_bind. eapply wp_mono; [apply (trylock_ok _ H4)|]. intros r s5 (rc5 & -> & K5 & H5 & _).
  pose proof (keeps_trans _ _ _ K04 K5) as (C1 & C2 & C3).
  case_bool_decide as Hrc; cbn [negb]; [|apply wp_ret; by apply created_early].
  eapply wp_mono; [apply (bring_online_ok s5 qid polled H5); [by rewrite C1|done|by rewrite C2]|].
  intros r s6 (rc6 & -> & H6 & D1 & D2 & D3 & D4). exists rc6. split_and!; try done; congruence.
Qed.

Lemma create_loop_ok n : ∀ s i rw ret,
  io_ok K G false s → online_queues (nd_of s) = i → i + Z.of_nat n ≤ K + 1 →
  i + Z.of_nat n ≤ queue_count (the_dev s) →
  wp (create_queues_loop env n i rw ret) (λ r s', ∃ rc, r = Ok rc ∧ io_ok K G false s'
    ∧ queue_count (the_dev s') = queue_count (the_dev s) ∧ max_qid (the_dev s') = max_qid (the_dev s)
    ∧ i ≤ online_queues (nd_of s') ≤ i + Z.of_nat n) s.
Proof.
  induction n as [|n IH]; intros s i rw ret H Hi Hle Hqc; cbn [create_queues_loop].
  { apply wp_ret. exists ret. split_and!; try done; lia. }
  pose proof (io_online _ _ _ _ H). apply wp_bind.
  eapply wp_mono; [apply (create_queue_ok _ i _ H Hi); lia|].
  intros r s1 (rc & -> & H1 & E1 & E2 & E3 & E4). case_bool_decide as Hrc; cbn [negb].
  - eapply wp_mono; [apply (IH s1 (i + 1)); [done|by apply E4|lia|lia]|].
    intros r s2 (rc2 & -> & H2 & F1 & F2 & F3). exists rc2. split_and!; try done; try congruence; lia.
  - apply wp_ret. exists rc. split_and!; try done; lia.
Qed.

Lemma create_io_queues_ok s :
  io_ok K G false s → max_qid (the_dev s) ≤ K →
  wp (nvme_create_io_queues env) (λ r s', ∃ rc, r = Ok rc ∧ io_ok K G false s'
    ∧ max_qid (the_dev s') = max_qid (the_dev s)
    ∧ online_queues (nd_of s') ≤ Z.max (online_queues (nd_of s)) (max_qid (the_dev s) + 1)) s.
Proof.
  intros H Hm. pose proof (io_count _ _ _ _ H) as Hc0. pose proof (io_online _ _ _ _ H) as Ho0.
  unfold nvme_create_io_queues. apply wp_bind, wp_gets, wp_bind. cbn [id].
  assert (Ha : wp (alloc_queues env (Z.to_nat (max_qid (the_dev s) - queue_count (the_dev s) + 1)) (queue_count (the_dev s)))
    (λ r s', ∃ rc, r = Ok rc ∧ io_ok K G false s' ∧ nd_of s' = nd_of s ∧ max_qid (the_dev s') = max_qid (the_dev s)) s).
  { destruct (decide (queue_count (the_dev s) ≤ max_qid (the_dev s))) as [Hlt|Hge].
    - eapply wp_mono; [apply (alloc_queues_ok _ s false (queue_count (the_dev s)) H eq_refl); lia|].
      intros r s1 (rc & -> & H1 & E1 & E2 & _). by exists rc.
    - replace (Z.to_nat _) with 0%nat by lia. apply wp_ret. by exists 0. }
  eapply wp_mono; [exact Ha|]. intros r s1 (rc & -> & H1 & E1 & E2). apply wp_bind, wp_gets, wp_bind. cbn [id].
  pose proof (io_count _ _ _ _ H1) as Hc1. pose proof (io_online _ _ _ _ H1) as Ho1.
  set (mx := Z.min (max_qid (the_dev s1)) (queue_count (the_dev s1) - 1)).
  change (io_ndev (the_dev s1)) with (nd_of s1). set (o := online_queues (nd_of s1)) in *.
  assert (Hc : ∀ rw, wp (create_queues_loop env (Z.to_nat (mx - o + 1)) o rw rc) (λ r s', ∃ rc, r = Ok rc
     ∧ io_ok K G false s' ∧ max_qid (the_dev s') = max_qid (the_dev s1)
     ∧ online_queues (nd_of s') ≤ Z.max o (max_qid (the_dev s1) + 1)) s1).
  { intros rw. destruct (decide (o ≤ mx)) as [Hlt|Hge].
    - eapply wp_mono; [apply (create_loop_ok _ s1 o); [done|done|subst mx; lia..]|].
      intros r s2 (rc2 & -> & H2 & F1 & F2 & F3). exists rc2. split_and!; try done. subst mx. lia.
    - replace (Z.to_nat _) with 0%nat by lia. apply wp_ret. exists rc. split_and!; try done. fold o. lia. }
  eapply wp_mono; [apply Hc|]. intros r s2 (rc2 & -> & H2 & F1 & F2). apply wp_ret. eexists.
  split_and!; [done|done|congruence|]. subst o. rewrite E1, E2 in F2. lia.
Qed.

(** ** Tear-down *)

Lemma delete_send_ok (ev : Z → io_event) (Hev : ∀ q, create_ok K (ev q)) nr : ∀ s L sent,
  io_ok K G L s →
  wp (delete_send env nr sent ev) (λ r s', ∃ nr' sent', r = Ok (nr', sent') ∧ keeps s s' ∧ io_ok K G L s'
    ∧ 0 ≤ nr' ≤ Z.of_nat nr ∧ nr' + sent' = Z.of_nat nr + sent) s.
Proof.
  induction nr as [|nr IH]; intros s L sent H; cbn [delete_send].
  { apply wp_ret. exists 0, sent. split_and!; try done; lia. }
  apply wp_bind, wp_ask. intros []; cbn [negb].
  2:{ apply wp_ret. exists (Z.of_nat (S nr)), sent. split_and!; try done; try lia; io_frame H. }
  apply wp_bind. eapply wp_mono; [apply (emit_ok _ L (ev (Z.of_nat (S nr)))); [io_frame H|apply Hev]|].
  intros r s1 (-> & K1 & H1). eapply wp_mono; [apply (IH s1 L (sent + 1) H1)|].
  intros r s2 (nr' & sent' & -> & K2 & H2 & Hr & Hs). exists nr', sent'.
  split_and!; try done; try lia. eapply keeps_trans; [|exact K2]. exact K1.
Qed.

(** The send-and-wait loop ends: every round waits for one more command. *)
Lemma delete_loop_ok (ev : Z → io_event) (Hev : ∀ q, create_ok K (ev q)) fuel : ∀ s L nr sent,
  io_ok K G L s → 0 ≤ nr → 0 ≤ sent → nr + sent < Z.of_nat fuel →
  wp (delete_loop env fuel nr sent ev) (λ r s', (∃ b, r = Ok b) ∧ keeps s s' ∧ io_ok K G L s') s.
Proof.
  induction fuel as [|fuel IH]; intros s L nr sent H Hn Hs Hf; [lia|]. cbn [delete_loop].
  apply wp_bind. eapply wp_mono; [apply (delete_send_ok ev Hev _ _ _ sent H)|].
  intros r s1 (nr' & sent' & -> & K1 & H1 & Hr & Hsum). rewrite Z2Nat.id in Hr, Hsum by done.
  assert (Hw : ∀ (w : nat) s2 x, Z.of_nat w = x → x ≤ sent' → keeps s s2 → io_ok K G L s2 →
    wp ((fix wait (w : nat) (sent : Z) : M iostate bool :=
         match w with
         | O => mret true
         | S w =>
             done ← ask (ie_delete_done env);
             if negb done then mret false
             else if bool_decide (nr' ≠ 0) then delete_loop env fuel nr' (sent - 1) ev
             else wait w (sent - 1)
         end) w x) (λ r s', (∃ b, r = Ok b) ∧ keeps s s' ∧ io_ok K G L s') s2).
  { induction w as [|w IHw]; intros s2 x Hx Hle K2 H2; [apply wp_ret; split_and!; [by exists true|done|done]|].
    apply wp_bind, wp_ask. intros []; cbn [negb]; [|apply wp_ret; split_and!; [by exists false|done|io_frame H2]].
    case_bool_decide as Hnz; [|apply IHw; [lia|lia|done|io_frame H2]].
    eapply wp_mono; [apply (IH _ L nr' (x - 1)); [io_frame H2|lia..]|].
    intros r s3 (Hb & K3 & H3). split_and!; [done| |done]. eapply keeps_trans; [exact K2|exact K3]. }
  apply Hw; [lia|lia|done|done].
Qed.

Lemma delete_io_queues_ok s L :
  io_ok K G L s → wp (nvme_delete_io_queues env) (λ r s', r = Ok tt ∧ keeps s s' ∧ io_ok K G L s') s.
Proof.
  intros H. pose proof (io_online _ _ _ _ H) as Hon.
  assert (Hdel : ∀ ev s1, (∀ q, create_ok K (ev q)) → keeps s s1 → io_ok K G L s1 →
    wp (__nvme_delete_io_queues env ev) (λ r s', (∃ b, r = Ok b) ∧ keeps s s' ∧ io_ok K G L s') s1).
  { intros ev s1 Hev K1 H1. unfold __nvme_delete_io_queues. apply wp_bind, wp_gets.
    pose proof (io_online _ _ _ _ H1) as Hon1. unfold nd_of in Hon1. cbn [id].
    eapply wp_mono; [apply (delete_loop_ok ev Hev _ s1 L); [done|lia..]|].
    intros r s2 (Hb & K2 & H2). split_and!; [done| |done]. by eapply keeps_trans. }
  unfold nvme_delete_io_queues. apply wp_bind.
  eapply wp_mono; [by apply (Hdel EvDeleteSq)|]. intros r s1 ([b ->] & K1 & H1).
  apply wp_when; [intros _|intros _; done]. apply wp_bind.
  eapply wp_mono; [by apply (Hdel EvDeleteCq)|]. intros r s2 ([b2 ->] & K2 & H2). by apply wp_ret.
Qed.

(** The last queue online goes offline: counter and bit together again. *)
Lemma ioq_disable_ok s L i q :
  io_ok K G L s → (1 ≤ i)%nat → online_queues (nd_of s) = Z.of_nat i + 1 →
  io_queues (the_dev s) !! i = Some q →
  io_ok K G L (lowered (s <| the_dev ::= λ d, d <| io_queues ::= <[i := q <| ioq_enabled := false |>]> |> |>)).
Proof.
  intros [Hlen Hsh Hon Hc He Hcr Hg Hl Hpo] Hi Ho Hlk. set (s' := lowered _).
  assert (E : online_queues (nd_of s') = online_queues (nd_of s) - 1) by done.
  assert (Eq : io_queues (the_dev s') = <[i := q <| ioq_enabled := false |>]> (io_queues (the_dev s))) by done.
  split; try done.
  - rewrite Eq, length_insert. exact Hlen.
  - rewrite E. lia.
  - rewrite E. change (queue_count (the_dev s')) with (queue_count (the_dev s)).
    change (nr_allocated_queues (nd_of s')) with (nr_allocated_queues (nd_of s)). lia.
  - intros j x Hj Hx. rewrite E. rewrite Eq in Hx. destruct (decide (j = i)) as [->|Hne].
    + rewrite list_lookup_insert_eq in Hx by (eapply lookup_lt_Some, Hlk). injection Hx as <-.
      symmetry. apply bool_decide_false. lia.
    + rewrite list_lookup_insert_ne in Hx by done. rewrite (He j x Hj Hx). apply bool_decide_ext. lia.
Qed.

(** Suspending queue [i] when everything above it is suspended. *)
Lemma suspend_queue_ok s L i :
  io_ok K G L s → (1 ≤ i)%nat → Z.of_nat i < nr_allocated_queues (nd_of s) → online_queues (nd_of s) ≤ Z.of_nat i + 1 →
  wp (nvme_suspend_queue (Z.of_nat i)) (λ r s', r = Ok tt ∧ io_ok K G L s'
    ∧ max_qid (the_dev s') = max_qid (the_dev s) ∧ queue_count (the_dev s') = queue_count (the_dev s)
    ∧ nr_allocated_queues (nd_of s') = nr_allocated_queues (nd_of s)
    ∧ online_queues (nd_of s') ≤ Z.of_nat i) s.
Proof.
  intros H Hi Hn Ho. unfold nvme_suspend_queue. apply wp_bind. eapply wp_get_ioq; [exact H|lia|].
  intros q Hl. rewrite Nat2Z.id in Hl. pose proof (io_enabled _ _ _ _ H i q Hi Hl) as He.
  destruct (ioq_enabled q) eqn:Eq; cbn [negb].
  2:{ apply wp_ret. symmetry in He. apply bool_decide_eq_false in He. split_and!; try done. lia. }
  symmetry in He. apply bool_decide_eq_true in He.
  apply wp_bind. unfold upd_ioq at 1. apply wp_bind. eapply wp_get_ioq; [exact H|lia|].
  intros q' Hl'. rewrite Nat2Z.id in Hl' |- *. apply wp_modify. simplify_eq. apply wp_bind, wp_modify.
  pose proof (ioq_disable_ok s L i q H Hi ltac:(lia) Hl) as H1. unfold lowered in H1. set (s1 := s <| the_dev ::= _ |> <| the_dev ::= _ |>) in *.
  assert (Eo : online_queues (nd_of s1) = online_queues (nd_of s) - 1) by done.
  destruct (ioq_polled q).
  - eapply upd_ioq_ok; [exact H1|change (nr_allocated_queues (nd_of s1)) with (nr_allocated_queues (nd_of s)); lia|done|].
    intros s2 H2 F1 F2 F3. split_and!; [done|done|by rewrite F3|by rewrite F2|by rewrite F1|rewrite F1, Eo; lia].
  - eapply wp_mono; [apply (emit_ok _ L (EvFreeIrq (Z.of_nat i)) H1 I)|]. intros r s2 (-> & (F1 & F2 & F3) & H2).
    split_and!; [done|done|by rewrite F3|by rewrite F2|by rewrite F1|rewrite F1, Eo; lia].
Qed.

Lemma suspend_loop_ok n : ∀ s L,
  io_ok K G L s → Z.of_nat n < nr_allocated_queues (nd_of s) → online_queues (nd_of s) ≤ Z.of_nat n + 1 →
  wp (for_each (λ i, nvme_suspend_queue (Z.of_nat i)) (rev (seq 1 n))) (λ r s', r = Ok tt ∧ io_ok K G L s'
    ∧ max_qid (the_dev s') = max_qid (the_dev s) ∧ online_queues (nd_of s') = 1) s.
Proof.
  induction n as [|n IH]; intros s L H Hn Ho.
  { apply wp_ret. split_and!; try done. pose proof (io_online _ _ _ _ H). lia. }
  rewrite seq_S, rev_app_distr. cbn [rev app for_each]. apply wp_bind.
  eapply wp_mono; [apply (suspend_queue_ok s L (1 + n) H); lia|].
  intros r s1 (-> & H1 & E1 & E2 & E3 & E4). eapply wp_mono; [apply (IH s1 L H1); rewrite ?E3; lia|].
  intros r s2 (-> & H2 & F1 & F2). split_and!; try done. congruence.
Qed.

Lemma suspend_io_queues_ok s L :
  io_ok K G L s →
  wp nvme_suspend_io_queues (λ r s', r = Ok tt ∧ io_ok K G L s'
    ∧ max_qid (the_dev s') = max_qid (the_dev s) ∧ online_queues (nd_of s') = 1) s.
Proof.
  intros H. unfold nvme_suspend_io_queues. apply wp_bind, wp_gets. cbn [id].
  pose proof (io_count _ _ _ _ H). pose proof (io_online _ _ _ _ H). apply (suspend_loop_ok _ s L H); lia.
Qed.

(** ** Interrupts *)

Lemma upd_admin_ok s L f (Q : outcome unit → iostate → Prop) :
  io_ok K G L s →
  (∀ s', io_ok K G L s' → keeps s s' → Q (Ok tt) s') → wp (upd_ioq 0 f) Q s.
Proof.
  intros H HQ. pose proof (io_share _ _ _ _ H). unfold upd_ioq. apply wp_bind.
  eapply wp_get_ioq; [exact H|lia|]. intros q Hl. apply wp_modify, HQ; [|done].
  apply io_ok_upd_ioq; [done|done|lia].
Qed.

Lemma release_admin_irq_ok s L :
  io_ok K G L s → wp release_admin_irq (λ r s', r = Ok tt ∧ keeps s s' ∧ io_ok K G L s') s.
Proof.
  intros H. pose proof (io_share _ _ _ _ H). unfold release_admin_irq. apply wp_bind.
  eapply wp_get_ioq; [exact H|lia|]. intros q _. apply wp_when; [intros _|intros _; done].
  apply wp_bind. eapply upd_admin_ok; [exact H|]. intros s1 H1 K1.
  eapply wp_mono; [apply (emit_ok _ L (EvFreeIrq 0) H1 I)|]. intros r s2 (-> & K2 & H2).
  split_and!; [done|by eapply keeps_trans|done].
Qed.

Context (Hvec : ∀ k m, ie_irq_vectors env k m ≤ m).

(** Interrupts for the admin queue and every queue that is not polled, at
    most; so the queues planned never exceed the count asked for. *)
Lemma setup_irqs_ok s L nr :
  io_ok K G L s → 1 ≤ nr ≤ K → nr < 2 ^ 16 →
  wp (nvme_setup_irqs env nr) (λ r s', ∃ n, r = Ok n ∧ keeps s s' ∧ io_ok K G L s'
    ∧ (0 < n → 0 ≤ hctx_poll (the_dev s') ∧ Z.max (n - 1) 1 + hctx_poll (the_dev s') ≤ nr)) s.
Proof.
  intros H Hnr H16. pose proof (io_poll _ _ _ _ H) as Hp. unfold nvme_setup_irqs.
  apply wp_bind, wp_gets, wp_bind, wp_modify. cbn [id]. change (io_ndev (the_dev s)) with (nd_of s).
  rewrite (wrap_small 32 (nr - 1)) by lia. set (poll := Z.min _ _).
  set (s1 := s <| the_dev ::= _ |>). set (irqs := if quirk_single_vector _ then _ else _).
  assert (Hi : irqs ≤ 1 + (nr - poll)).
  { subst irqs poll. destruct (quirk_single_vector _); [lia|]. rewrite wrap_small by lia. lia. }
  apply wp_bind. change (wp (ask ?f) ?Q ?s) with (Q (Ok (f (io_clock s))) (s <| io_clock ::= S |>)). cbv beta iota.
  pose proof (Hvec (io_clock s1) irqs) as Hv. set (n := ie_irq_vectors env _ _) in *.
  case_bool_decide as Hn.
  - apply wp_ret. exists n. split_and!; [done|done|io_frame H|lia].
  - destruct (nvme_calc_irq_sets _ _) as [def rd]. apply wp_bind, wp_modify, wp_ret. exists n.
    split_and!; [done|done|io_frame H|]. intros _. change (hctx_poll _) with poll. subst poll. lia.
Qed.

(** ** The retry loop *)

Lemma setup_retry_ok fuel : ∀ s nr,
  io_ok K G true s → online_queues (nd_of s) = 1 → 1 ≤ nr ≤ K → nr < 2 ^ 16 → nr ≤ Z.of_nat fuel →
  wp (setup_retry env fuel nr) (λ r s', ∃ rc, r = Ok rc ∧ io_ok K G false s'
    ∧ (rc = 0 → online_queues (nd_of s') = 1 ∨ online_queues (nd_of s') = max_qid (the_dev s') + 1)) s.
Proof.
  induction fuel as [|fuel IH]; intros s nr H Ho Hnr H16 Hf; [lia|]. cbn [setup_retry].
  apply wp_bind. eapply wp_mono; [apply (release_admin_irq_ok _ _ H)|]. intros r s1 (-> & (A1 & _) & H1).
  apply wp_bind, wp_modify, wp_bind.
  eapply wp_mono; [apply (setup_irqs_ok _ true nr); [io_frame H1|done|done]|].
  intros r s2 (n & -> & (B1 & _) & H2 & Hn).
  case_bool_decide as Hz.
  { apply wp_bind. eapply wp_mono; [apply (unlock_ok _ _ H2)|]. intros r s3 (-> & _ & H3).
    apply wp_ret. by exists (- EIO). }
  destruct Hn as [Hp Hmax]; [lia|].
  apply wp_bind, wp_modify. set (s3 := s2 <| the_dev ::= _ |>).
  assert (H3 : io_ok K G true s3) by io_frame H2.
  assert (O3 : online_queues (nd_of s3) = 1) by (change (nd_of s3) with (nd_of s2); rewrite B1, <- Ho, <- A1; done).
  assert (M3 : 1 ≤ max_qid (the_dev s3) ≤ nr) by (change (max_qid (the_dev s3)) with (Z.max (n - 1) 1 + hctx_poll (the_dev s2)); lia).
  apply wp_bind. eapply wp_mono; [apply (request_irq_ok _ _ 0 H3)|]. intros r s4 (rc & -> & (C1 & C2 & C3) & H4).
  case_bool_decide as Hrc; cbn [negb].
  2:{ apply wp_bind. eapply wp_mono; [apply (unlock_ok _ _ H4)|]. intros r s5 (-> & _ & H5).
      apply wp_ret. by exists rc. }
  apply wp_bind. eapply upd_admin_ok; [exact H4|]. intros s5 H5 (D1 & D2 & D3).
  apply wp_bind. eapply wp_mono; [apply (unlock_ok _ _ H5)|]. intros r s6 (-> & (E1 & E2 & E3) & H6).
  assert (O6 : online_queues (nd_of s6) = 1) by congruence.
  assert (M6 : max_qid (the_dev s6) = max_qid (the_dev s3)) by congruence.
  apply wp_bind. eapply wp_mono; [apply (create_io_queues_ok _ H6); lia|].
  intros r s7 (res & -> & H7 & F1 & F2). apply wp_bind, wp_gets. cbn [id]. change (io_ndev (the_dev s7)) with (nd_of s7).
  pose proof (io_online _ _ _ _ H7) as O7.
  destruct (negb (bool_decide (res = 0)) || bool_decide (online_queues (nd_of s7) < 2)) eqn:Hend.
  { apply wp_ret. exists res. split_and!; [done|done|]. intros ->. left.
    cbn in Hend. apply bool_decide_eq_true in Hend. lia. }
  apply orb_false_iff in Hend as [_ Hge%bool_decide_eq_false].
  case_bool_decide as Hless.
  2:{ apply wp_ret. exists 0. split_and!; [done|done|]. intros _. right. lia. }
  apply wp_bind. eapply wp_mono; [apply (delete_io_queues_ok _ _ H7)|]. intros r s8 (-> & (I1 & I2 & I3) & H8).
  apply wp_bind. eapply wp_mono; [apply (trylock_ok _ H8)|]. intros r s9 (rc9 & -> & _ & H9 & Hle).
  case_bool_decide as Hrc9; cbn [negb]; [|apply wp_ret; by exists rc9].
  apply wp_bind. eapply wp_mono; [apply (suspend_io_queues_ok _ _ H9)|]. intros r s10 (-> & H10 & _ & O10).
  apply (IH s10 (online_queues (nd_of s7) - 1) H10 O10); lia.
Qed.

End setup.

(** ** The whole of s_nvme_setup_io_queues *)

(** A device whose admin queue is up and that has no I/O queue yet. *)
Record setup_start (s : iostate) : Prop := {
  ss_len : Z.of_nat (length (io_queues (the_dev s))) = nr_allocated_queues (nd_of s);
  ss_nr : 2 ≤ nr_allocated_queues (nd_of s) ≤ 2 ^ 16;
  ss_online : online_queues (nd_of s) = 1;
  ss_count : 1 ≤ queue_count (the_dev s) ≤ nr_allocated_queues (nd_of s);
  ss_off i q : (1 ≤ i)%nat → io_queues (the_dev s) !! i = Some q → ioq_enabled q = false;
  ss_log : io_log s = [];
  ss_lock : shutdown_locked (the_dev s) = false;
  ss_poll : 0 ≤ nr_poll_queues (nd_of s);
  ss_cap : 0 ≤ nd_cap_kernel_ioq (nd_of s);
}.

(** The controller's result is a 32-bit word, and the interrupt core never
    gives more vectors than the maximum. *)
Record io_env_ok (env : io_env) : Prop := {
  ieo_vectors k m : ie_irq_vectors env k m ≤ m;
  ieo_result n q : 0 ≤ (ie_set_features env n q).2 < 2 ^ 32;
}.

(** Nothing was done to the queues. *)
Definition queues_kept (s s' : iostate) : Prop :=
  io_queues (the_dev s') = io_queues (the_dev s) ∧ queue_count (the_dev s') = queue_count (the_dev s)
  ∧ online_queues (nd_of s') = online_queues (nd_of s).

(** How set-up ends. *)
Definition setup_post (s0 : iostate) (r : outcome Z) (s : iostate) : Prop :=
  ∃ rc, r = Ok rc
    ∧ (rc < 0 ∧ io_log s = [] ∧ shutdown_locked (the_dev s) = false
         ∧ ctrl_max_io_queues (nd_of s) = ctrl_max_io_queues (nd_of s0) ∧ queues_kept s0 s
       ∨ rc = 0 ∧ io_log s = [] ∧ shutdown_locked (the_dev s) = false
         ∧ ctrl_max_io_queues (nd_of s) = 0 ∧ online_queues (nd_of s) = 1 ∧ queues_kept s0 s
       ∨ let G := ctrl_max_io_queues (nd_of s) in
         let K := cap_queues (nd_cap_kernel_ioq (nd_of s0)) G in
         io_ok K G false s
         ∧ (rc = 0 → online_queues (nd_of s) = 1 ∨ online_queues (nd_of s) = max_qid (the_dev s) + 1)).

Lemma set_queue_count_ok env s count :
  io_env_ok env → 1 ≤ count →
  wp (snvme_set_queue_count env count) (λ r s', s' = s <| io_clock ::= S |>
    ∧ ((∃ rc, rc < 0 ∧ r = Ok (rc, count)) ∨ ∃ g, r = Ok (0, g) ∧ 0 ≤ g ≤ count)) s.
Proof.
  intros Henv Hc. unfold snvme_set_queue_count. apply wp_bind.
  set (q := Z.lor _ _). pose proof (ieo_result _ Henv (io_clock s) q) as Hr.
  change (wp (ask ?f) ?Q ?s) with (Q (Ok (f (io_clock s))) (s <| io_clock ::= S |>)). cbv beta iota.
  destruct (ie_set_features env (io_clock s) q) as [st res]. cbn [snd] in Hr.
  case_bool_decide; [apply wp_ret; split; [done|left; by exists st]|].
  case_bool_decide; [apply wp_ret; split; [done|right; exists 0; split; [done|lia]]|].
  apply wp_ret. split; [done|right]. eexists. split; [done|].
  assert (0 ≤ Z.land res 65535) by (apply Z.land_nonneg; lia).
  assert (0 ≤ Z.shiftr res 16) by (apply Z.shiftr_nonneg; lia). lia.
Qed.

Lemma cap_queues_ok cap g : 0 ≤ cap → 1 ≤ g → 1 ≤ cap_queues cap g ≤ g ∧ (cap ≠ 0 → cap_queues cap g ≤ cap).
Proof.
  intros Hc Hg. unfold cap_queues. case_bool_decide; cbn [negb andb]; [lia|].
  case_bool_decide; lia.
Qed.

Lemma fit_bar_ok env K G L n : ∀ s,
  io_ok K G L s →
  wp (fit_bar env n) (λ r s', ∃ o, r = Ok o ∧ keeps s s' ∧ io_ok K G L s'
    ∧ (∀ m, o = Some m → 1 ≤ m ≤ Z.of_nat n)) s.
Proof.
  induction n as [|n IH]; intros s H; cbn [fit_bar]; [apply wp_ret; by exists None|].
  apply wp_bind, wp_gets, wp_bind.
  assert (Hr : ∀ size, wp (nvme_remap_bar env size) (λ r s', ∃ rc, r = Ok rc ∧ keeps s s' ∧ io_ok K G L s') s).
  { intros size. unfold nvme_remap_bar. apply wp_bind, wp_gets.
    case_bool_decide; [apply wp_ret; by exists 0|]. case_bool_decide; [apply wp_ret; by exists (- ENOMEM)|].
    apply wp_bind, wp_ask. intros []; cbn [negb]; apply wp_bind, wp_modify, wp_ret;
      eexists; (split_and!; [done|done|io_frame H]). }
  eapply wp_mono; [apply Hr|]. intros r s1 (rc & -> & K1 & H1). case_bool_decide.
  - apply wp_ret. eexists. split_and!; [done|done|done|]. intros m [= <-]. lia.
  - eapply wp_mono; [apply (IH s1 H1)|]. intros r s2 (o & -> & K2 & H2 & Hm). exists o.
    split_and!; [done|by eapply keeps_trans|done|]. intros m Hmm. specialize (Hm m Hmm). lia.
Qed.

Lemma setup_cmb_ok K G L s nr :
  io_ok K G L s → wp (setup_cmb nr) (λ r s', r = Ok tt ∧ io_ok K G L s'
    ∧ online_queues (nd_of s') = online_queues (nd_of s)) s.
Proof.
  intros H. unfold setup_cmb. apply wp_bind, wp_gets. apply wp_when; [intros _|intros _; done].
  case_bool_decide; [apply wp_bind, wp_modify, wp_modify|apply wp_modify]; (split_and!; [done|io_frame H|done]).
Qed.

(** The invariant holds once the grant is recorded. *)
Lemma start_ok s K g :
  setup_start s → 1 ≤ K ≤ g → g < nr_allocated_queues (nd_of s) →
  io_ok K g false (s <| the_dev ::= λ d, d <| io_ndev ::= λ nd, nd <| ctrl_max_io_queues := g |> |> |>).
Proof.
  intros [Hlen Hnr Hon Hcnt Hoff Hlog Hlock Hpoll Hcap] HK Hg.
  set (s' := s <| the_dev ::= _ |>).
  assert (E1 : online_queues (nd_of s') = 1) by done.
  assert (E2 : nr_allocated_queues (nd_of s') = nr_allocated_queues (nd_of s)) by done.
  assert (E3 : queue_count (the_dev s') = queue_count (the_dev s)) by done.
  split; rewrite ?E1, ?E2, ?E3; try done; try lia.
  - intros i q Hi Hq. rewrite (Hoff i q Hi Hq). symmetry. apply bool_decide_false. lia.
  - change (io_log s') with (io_log s). by rewrite Hlog.
Qed.

(** From the lock on, with [K] queues for the kernel. *)
Lemma setup_share_ok env K g s :
  io_env_ok env → io_ok K g false s → online_queues (nd_of s) = 1 → K < 2 ^ 16 →
  wp (rc ← nvme_setup_io_queues_trylock env;
      if negb (bool_decide (rc = 0)) then mret rc
      else
        release_admin_irq;;
        setup_cmb K;;
        o ← fit_bar env (Z.to_nat K);
        match o with
        | None => unlock;; mret (- ENOMEM)
        | Some nr_io_queues => setup_retry env (Z.to_nat nr_io_queues) nr_io_queues
        end) (λ r s', ∃ rc, r = Ok rc ∧ io_ok K g false s'
    ∧ (rc = 0 → online_queues (nd_of s') = 1 ∨ online_queues (nd_of s') = max_qid (the_dev s') + 1)) s.
Proof.
  intros Henv H Ho H16. pose proof (io_share _ _ _ _ H) as Hsh.
  apply wp_bind. eapply wp_mono; [apply (trylock_ok _ _ _ _ H)|]. intros r s4 (rc & -> & (A1 & _) & H4 & _).
  case_bool_decide as Hrc; cbn [negb]; [|apply wp_ret; by exists rc].
  apply wp_bind. eapply wp_mono; [apply (release_admin_irq_ok _ _ _ _ H4)|]. intros r s5 (-> & (B1 & _) & H5).
  apply wp_bind. eapply wp_mono; [apply (setup_cmb_ok _ _ _ _ _ H5)|]. intros r s6 (-> & H6 & O6).
  apply wp_bind. eapply wp_mono; [apply (fit_bar_ok env _ _ _ _ _ H6)|]. intros r s7 (o & -> & (C1 & _) & H7 & Hm).
  destruct o as [m|].
  - specialize (Hm m eq_refl).
    apply (setup_retry_ok env K g (ieo_vectors _ Henv) _ s7 m H7); [congruence|lia..].
  - apply wp_bind. eapply wp_mono; [apply (unlock_ok _ _ _ _ H7)|]. intros r s8 (-> & _ & H8).
    apply wp_ret. by exists (- ENOMEM).
Qed.

(** Sampling the module parameters keeps a device ready for set-up. *)
Lemma sample_ok s wq pq :
  setup_start s → 0 ≤ pq →
  ∃ s1, wp (when (bool_decide (nd_cap_kernel_ioq (nd_of s) = 0))
      (upd_nd (λ nd, nd <| nr_write_queues := wq |> <| nr_poll_queues := pq |>))) (λ r s', r = Ok tt ∧ s' = s1) s
    ∧ setup_start s1 ∧ nr_allocated_queues (nd_of s1) = nr_allocated_queues (nd_of s)
    ∧ ctrl_max_io_queues (nd_of s1) = ctrl_max_io_queues (nd_of s) ∧ queues_kept s s1.
Proof.
  intros H Hpq. case_bool_decide; eexists; (split; [by split|]); (split_and!; [|done..]); [|done].
  destruct H. by split.
Qed.

Lemma setup_io_queues_ok env wq pq s :
  io_env_ok env → 0 ≤ pq → setup_start s → wp (s_nvme_setup_io_queues env wq pq) (setup_post s) s.
Proof.
  intros Henv Hpq Hs. unfold s_nvme_setup_io_queues. apply wp_bind, wp_gets. cbn [id].
  change (io_ndev (the_dev s)) with (nd_of s). apply wp_bind.
  destruct (sample_ok s wq pq Hs Hpq) as (s1 & Hrun & Hs1 & En & Em & Hkept).
  pose proof (ss_cap _ Hs) as Hcap. pose proof (ss_nr _ Hs) as Hnr.
  eapply wp_mono; [exact Hrun|]. intros r s1' [-> ->]. apply wp_bind.
  eapply wp_mono; [apply (set_queue_count_ok env s1 _ Henv); lia|].
  intros r s2 [-> [(rc & Hrc & ->)|(g & -> & Hg)]]; cbv beta iota.
  { rewrite (bool_decide_false (rc = 0)) by lia. apply wp_bind, wp_ret. rewrite bool_decide_true by done.
    apply wp_ret. exists rc. destruct Hs1. split; [done|by left]. }
  rewrite (bool_decide_true (0 = 0)) by done. apply wp_bind, wp_modify.
  rewrite (bool_decide_false (0 < 0)) by done. set (s3 := _ <| the_dev ::= _ |>).
  destruct (decide (g = 0)) as [Hg0|Hg0].
  { rewrite (bool_decide_true (g = 0)) by done. apply wp_ret. exists 0. destruct Hs1.
    split; [done|right; left]. done. }
  rewrite (bool_decide_false (g = 0)) by done.
  destruct (cap_queues_ok (nd_cap_kernel_ioq (nd_of s)) g) as [HK _]; [done|lia|].
  assert (H3 : io_ok (cap_queues (nd_cap_kernel_ioq (nd_of s)) g) g false s3).
  { eapply io_ok_core; [|apply (start_ok s1 _ g Hs1 HK); lia]. done. }
  eapply wp_mono; [apply (setup_share_ok env _ g s3 Henv H3); [apply Hs1|lia]|].
  intros r s4 (rc & -> & H4 & Hset). exists rc. split; [done|right; right]. cbv zeta.
  by rewrite (io_grant _ _ _ _ H4).
Qed.
