(* ===== verification/PciTheorems.v ===== *)
(** * PciTheorems: the properties of the block driver's data path and queues

    Theorems over PciData, PciQueue and PciSetup, with concrete requests and
    devices at which their hypotheses hold. *)
From S2P Require Import Prelude.
From S2P Require Import Uapi.
From S2P Require Import Kernel.
From S2P Require Import PciData.
From S2P Require Import PciDataSpec.
From S2P Require Import PciQueue.
From S2P Require Import PciQueueSpec.
From S2P Require Import PciSetup.
From S2P Require Import PciSetupSpec.
From S2P Require Import QidPool.

(** ** Data pointers *)

(** C7: Preparing a request either describes exactly its bytes to the
    controller, in order, through PRP entries, a chained PRP list or an SGL,
    and completing it later returns every DMA mapping, buffer and list block;
    or it fails with nothing taken. *)
Theorem request_data_exact env dev thr req s0 :
  pool_env_ok env → req_ok env req → handles_ok s0 →
  length (iod_list (the_iod s0)) = NVME_MAX_NR_ALLOCATIONS →
  psdt (cmd_flags (iod_cmd (the_iod s0))) = 0 →
  wp (nvme_prep_rq env dev thr req) (λ r s,
    (r = Ok BLK_STS_OK ∧ prepared env s req
       ∧ wp (nvme_pci_unmap_rq req) (λ r' s', r' = Ok tt ∧ unmapped s0 s' (ResCmd :: held s0)) s)
    ∨ ∃ e, r = Ok e ∧ e ≠ BLK_STS_OK ∧ unmapped s0 s (held s0)) s0.
Proof. intros. by apply prep_rq_ok. Qed.

(** C33: For a scatter list inside the virtual-boundary rule the PRP loop
    terminates, never reaches the bad-list exit, uses at most
    NVME_MAX_NR_ALLOCATIONS list blocks, and the chain it builds decodes to
    exactly the payload; when the pool runs dry every block is returned. *)
Theorem prp_list_exact env req s0 n :
  pool_env_ok env → handles_ok s0 →
  length (iod_list (the_iod s0)) = NVME_MAX_NR_ALLOCATIONS →
  nr_allocations (the_iod s0) = -1 → psdt (cmd_flags (iod_cmd (the_iod s0))) = 0 →
  sgl_ok (iod_sgl (the_iod s0)) n → rq_payload_bytes req = n →
  wp (nvme_pci_setup_prps env req) (λ r s,
    (r = Ok BLK_STS_OK ∧ describes s n (iod_sgl (the_iod s0)) ∧ same_rest s0 s
       ∧ ∃ pool bs, owns s0 pool bs s ∧ (length bs ≤ NVME_MAX_NR_ALLOCATIONS)%nat)
    ∨ (r = Ok BLK_STS_RESOURCE ∧ given_back s0 s)) s0.
Proof.
  intros Henv Hh H5 Hnr Hp Hs Hr. eapply wp_mono; [by apply setup_prps_ok|].
  intros r s [(-> & Hd & Hrest & pool & bs & Ho)|H]; [left|by right].
  split_and!; [done..|]. exists pool, bs. split; [done|]. rewrite <- H5. apply Ho.
Qed.

(** ** Concrete requests *)

Definition demo_pool (n : nat) (p : dma_pool) : option Z := Some (2 ^ 30 + 4096 * Z.of_nat n).

Definition demo_sgl : list sg_entry := [mk_sg 4608 3584; mk_sg 16384 12288].

Definition demo_renv (l : list sg_entry) : req_env :=
  mk_renv demo_pool None (Some 77) true (Z.of_nat (length l)) (inr l) BLK_STS_OK.

Definition demo_req (n : Z) : request :=
  mk_request 2 (mk_bvec 0 0 false) n 1 (Some (mk_bvec 0 64 false)).

Definition demo_iod (l : list sg_entry) : nvme_iod :=
  mk_iod (mk_rwcmd 0 (DPrp 0 0) 0) false (-1) 0 0 0 l (Z.of_nat (length l)) (replicate 5 None).

Definition demo_pst (l : list sg_entry) : pstate :=
  mk_pstate (demo_iod l) ∅ 0 (λ _, 0) (λ _, mk_sge 0 0 0) [].

Lemma demo_pool_ok l : pool_env_ok (demo_renv l).
Proof.
  split.
  - intros n p b [= <-]. split; [lia|].
    destruct p; [change (pool_bytes PrpPagePool) with 4096|change (pool_bytes PrpSmallPool) with 256].
    + replace (2 ^ 30 + 4096 * Z.of_nat n) with ((2 ^ 18 + Z.of_nat n) * 4096) by lia. by apply Z.mod_mul.
    + replace (2 ^ 30 + 4096 * Z.of_nat n) with ((2 ^ 22 + 16 * Z.of_nat n) * 256) by lia. by apply Z.mod_mul.
  - intros n n' p b [= <-] [= H]. lia.
Qed.

Lemma demo_sgl_ok : sgl_ok demo_sgl 15872.
Proof.
  split; [|cbn|unfold NVME_MAX_KB_SZ; lia|by vm_compute].
  { apply Forall_cons; split; [|apply Forall_singleton]; unfold sg_valid; cbn; lia. }
  by split; [|repeat split].
Qed.

Lemma demo_req_ok : req_ok (demo_renv demo_sgl) (demo_req 15872).
Proof.
  split; [done| |done].
  intros l [= <-]. split_and!; [apply demo_sgl_ok|done|cbv; lia].
Qed.

Lemma demo_handles l : handles_ok (demo_pst l).
Proof. by intros h _. Qed.

Lemma request_data_exact_witness :
  wp (nvme_prep_rq (demo_renv demo_sgl) (mk_ndev 1 0 0 2 0 0 1 0 64 1 true 0 0) 32768 (demo_req 15872))
    (λ r s, (r = Ok BLK_STS_OK ∧ prepared (demo_renv demo_sgl) s (demo_req 15872)
       ∧ wp (nvme_pci_unmap_rq (demo_req 15872))
           (λ r' s', r' = Ok tt ∧ unmapped (demo_pst []) s' [ResCmd]) s)
    ∨ ∃ e, r = Ok e ∧ e ≠ BLK_STS_OK ∧ unmapped (demo_pst []) s []) (demo_pst []).
Proof.
  exact (request_data_exact (demo_renv demo_sgl) (mk_ndev 1 0 0 2 0 0 1 0 64 1 true 0 0) 32768
    (demo_req 15872) (demo_pst []) (demo_pool_ok _) demo_req_ok (demo_handles _) eq_refl eq_refl).
Defined.

Lemma prp_list_exact_witness :
  wp (nvme_pci_setup_prps (demo_renv demo_sgl) (demo_req 15872)) (λ r s,
    (r = Ok BLK_STS_OK ∧ describes s 15872 demo_sgl ∧ same_rest (demo_pst demo_sgl) s
       ∧ ∃ pool bs, owns (demo_pst demo_sgl) pool bs s ∧ (length bs ≤ NVME_MAX_NR_ALLOCATIONS)%nat)
    ∨ (r = Ok BLK_STS_RESOURCE ∧ given_back (demo_pst demo_sgl) s)) (demo_pst demo_sgl).
Proof.
  exact (prp_list_exact (demo_renv demo_sgl) (demo_req 15872) (demo_pst demo_sgl) 15872
    (demo_pool_ok _) (demo_handles _) eq_refl eq_refl eq_refl demo_sgl_ok eq_refl).
Defined.

(** The largest request that starts inside a page needs all five list blocks,
    and the controller still finds its 2049 pages. *)
Example largest_request_uses_five_blocks :
  let l := [mk_sg 512 (8192 * 1024)] in
  let '(r, s) := nvme_pci_setup_prps (demo_renv l) (demo_req (8192 * 1024)) (demo_pst l) in
  r = Ok BLK_STS_OK ∧ nr_allocations (the_iod s) = 5
  ∧ length <$> decode s (8192 * 1024) = Some 2049%nat.
Proof. vm_compute. done. Qed.

(** A scatter list outside the rule takes the bad-list exit, and the list
    block it had allocated stays allocated after nvme_map_data's clean-up. *)
Example bad_sgl_keeps_list_block :
  let l := [mk_sg 0 8192; mk_sg 16384 512; mk_sg 20480 8192] in
  let '(r, s) := nvme_map_data (demo_renv l) (mk_ndev 1 0 0 2 0 0 1 0 64 1 true 0 0) 32768
                   (demo_req 16896) (demo_pst []) in
  r = Ok BLK_STS_IOERR ∧ held s = [] ∧ pool_live s = {[ 0%nat := (PrpSmallPool, 2 ^ 30) ]}.
Proof. vm_compute. done. Qed.

(** ** Rings *)

(** C8: Under any interleaving of posted completions, polls, interrupts,
    single and batched submissions and commits on a freshly initialised queue,
    the entries the driver consumed are a prefix of those the controller
    posted, each once and in order, the submission ring holds the last
    commands at their slots and never fills up unannounced; and a poll or an
    interrupt at any moment returns with every posted entry consumed. *)
Theorem rings_exactly_once stride skip dev dbs qid q s0 s posted subm :
  2 ≤ nq_depth q < 2 ^ 16 → length (cqes q) = depth q → length (sq_cmds q) = depth q →
  the_q s0 = nvme_init_queue_rings dev dbs qid q → seen s0 = [] →
  q_reach stride skip s0 s posted subm →
  q_inv s posted subm
  ∧ (∃ b s', nvme_poll stride skip s = (Ok b, s') ∧ seen s' = posted)
  ∧ (∃ s', nvme_irq stride skip s = (Ok IRQ_HANDLED, s') ∧ seen s' = posted).
Proof.
  intros Hd Hc Hs Hq Hn Hr.
  assert (Hi : q_inv s posted subm).
  { eapply q_reach_inv; [..|exact Hr]; [rewrite Hq; by apply init_ring|rewrite Hq; by apply init_sq|done]. }
  split_and!; [done| |].
  - destruct (poll_fn_inv stride skip _ _ _ Hi) as (b & s' & Hrun & _ & Hseen). by exists b, s'.
  - destruct (irq_inv stride skip _ _ _ Hi) as (s' & Hrun & _ & Hseen). by exists s'.
Qed.

(** C35: Polling a completion ring terminates, returns the number of
    unconsumed entries, applies exactly their effects to the requests in order
    (the reference [entry_effect]), moves head and phase past them, and rings
    the head doorbell once, only when something was found. *)
Theorem poll_handles_all stride skip s posted h :
  cq_ring (the_q s) posted h →
  ∃ s1, nvme_poll_cq stride skip s = (Ok (Z.of_nat (length posted - h)), cq_rung stride (length posted - h) s s1)
        ∧ polled skip posted h s s1
        ∧ dbbuf_dbs s1 = dbbuf_dbs s ∧ dbbuf_eis s1 = dbbuf_eis s ∧ mmio s1 = mmio s.
Proof. apply poll_cq_ok. Qed.

(** Queueing a command puts it in the next slot of the ring and announces
    everything up to it when asked to, or when the ring would otherwise be
    full of unannounced commands; a later commit announces the rest, and only
    if there is a rest. *)
Theorem submission_announced stride s subm a cmd last :
  sq_open (the_q s) subm a →
  ∃ s' a', queue_cmd stride cmd last s = (Ok tt, s')
    ∧ sq_open (the_q s') (subm ++ [cmd]) a'
    ∧ (let s1 := s <| the_q ::= copied cmd |> in
       a' = length (subm ++ [cmd]) ∧ s' = sq_rung stride s1 ∨ last = false ∧ a' = a ∧ s' = s1)
    ∧ ∃ s'', nvme_commit_rqs stride s' = (Ok tt, s'')
        ∧ sq_open (the_q s'') (subm ++ [cmd]) (length (subm ++ [cmd]))
        ∧ s'' = (if bool_decide (length (subm ++ [cmd]) = a') then s' else sq_rung stride s').
Proof.
  intros H. destruct (queue_cmd_ok stride _ _ _ cmd last H) as (s' & a' & Hrun & Ho & Hcase).
  exists s', a'. split_and!; [done..|]. by apply commit_rqs_ok.
Qed.

(** The shadow-doorbell test, computed with wrapping 16-bit differences,
    holds exactly when the controller's event index is one of the positions
    the doorbell just moved over. *)
Theorem doorbell_event_window e new old :
  nvme_dbbuf_need_event e new old = true ↔ ∃ i, 0 ≤ i < u16 (new - old) ∧ u16 e = u16 (old + i).
Proof.
  rewrite need_event_window. split.
  - intros H. exists (u16 (e - old)). split; [split; [apply wrap_fits; lia|done]|].
    unfold wrap. rewrite Zplus_mod_idemp_r. f_equal. lia.
  - intros (i & Hi & He).
    assert (E : u16 (e - old) = i); [|lia].
    unfold wrap in *. rewrite <- Zminus_mod_idemp_l, He, Zminus_mod_idemp_l.
    pose proof (Z.mod_pos_bound (new - old) (2 ^ 16)).
    replace (old + i - old) with i by lia. apply Z.mod_small. lia.
Qed.

(** A command identifier carries its tag and generation back, a
    completion carrying it completes exactly that request, and the same
    completion seen a second time changes no request. *)
Theorem completion_matches_once s tag rq c :
  nq_qid (the_q s) ≠ 0 → 0 ≤ tag < 4096 → tags s !! tag = Some rq →
  cqe_command_id c = nvme_cid rq tag →
  let rq' := mk_nvmerq (u8 (genctr rq + 1)) (Z.shiftr (cqe_status c) 1) (cqe_result c) in
  ∃ s1, handle_entry false c s = (Ok tt, s1) ∧ tags s1 = <[tag := rq']> (tags s)
        ∧ qlog s1 = qlog s ++ [EvCompleted tag]
        ∧ ∃ s2, handle_entry false c s1 = (Ok tt, s2) ∧ tags s2 = tags s1.
Proof.
  intros Hq Ht Hl Hc rq'. destruct (cid_roundtrip rq tag Ht) as [E1 E2].
  pose proof (handle_entry_ok false c s) as H1. unfold entry_effect in H1.
  rewrite Hc, E1, E2, (bool_decide_false (nq_qid (the_q s) = 0)), Hl in H1 by done. cbn [andb] in H1.
  rewrite bool_decide_true in H1 by done. set (s1 := s <| tags := _ |> <| qlog := _ |>) in H1.
  exists s1. split_and!; [exact H1|done|done|].
  pose proof (handle_entry_ok false c s1) as H2.
  pose proof (entry_effect_again (nq_qid (the_q s)) (tags s) (qlog s) c) as Ha.
  unfold entry_effect in Ha at 1.
  rewrite Hc, E1, E2, (bool_decide_false (nq_qid (the_q s) = 0)), Hl in Ha by done. cbn [andb] in Ha.
  rewrite bool_decide_true in Ha by done. cbv beta iota in Ha.
  change (tags s1) with (<[tag := rq']> (tags s)) in H2 |- *. change (qlog s1) with (qlog s ++ [EvCompleted tag]) in H2.
  change (the_q s1) with (the_q s) in H2.
  destruct (entry_effect false (nq_qid (the_q s)) _ c) as [ts l]. cbn [fst] in Ha. subst ts.
  eexists. split; [exact H2|done].
Qed.

(** When the controller refuses the shadow doorbells, the clean-up loop
    detaches every online I/O queue, and when every allocated queue is online
    it indexes one past the queue array. *)
Theorem dbbuf_teardown_bounds dev rc qs :
  rc ≠ 0 → 1 ≤ online_queues dev →
  (online_queues dev < Z.of_nat (length qs) →
     ∃ qs', nvme_dbbuf_set dev true rc qs = (Ok false, qs')
            ∧ ∀ i, (1 ≤ i)%nat → Z.of_nat i ≤ online_queues dev → qs' !! i = nvme_dbbuf_free <$> qs !! i)
  ∧ (online_queues dev = Z.of_nat (length qs) → (nvme_dbbuf_set dev true rc qs).1 = Fault OutOfBounds).
Proof. apply dbbuf_set_ok. Qed.

(** ** Queue set-up *)

(** C9: Setting up the I/O queues terminates on every answer of controller,
    interrupt core and allocator, releases the shutdown lock on every path,
    never indexes past the queue array, issues Create commands only for queue
    ids of the kernel's share (the cap when one is set), and ends with
    exactly the queues below online_queues enabled. *)
Theorem setup_within_share env wq pq s :
  io_env_ok env → 0 ≤ pq → setup_start s → wp (s_nvme_setup_io_queues env wq pq) (setup_post s) s.
Proof. apply setup_io_queues_ok. Qed.

Lemma fresh_pool_unused c n qid : user_qid_bitmap c = Some (replicate n false) → qid_used c qid = false.
Proof.
  intros E. unfold qid_used. rewrite E. destruct (replicate _ _ !! _) as [b|] eqn:Hb; [|by rewrite andb_false_r].
  apply lookup_replicate in Hb as [-> _]. by rewrite andb_false_r.
Qed.

(** C28: When the pool of user queue ids is made for the first time (none was
    made before: a reset does not rebuild it) after a successful set-up under a
    cap below the controller's grant, it starts with the first id past the
    kernel's queues, at most the cap plus one, is not empty, has no id in use,
    and every id of it is above every kernel queue that is enabled. *)
Theorem user_pool_above_kernel_queues env wq pq s c :
  io_env_ok env → 0 ≤ pq → setup_start s → user_qid_bitmap c = None →
  wp (s_nvme_setup_io_queues env wq pq) (λ r s',
    let cap := nd_cap_kernel_ioq (nd_of s) in
    let grant := ctrl_max_io_queues (nd_of s') in
    r = Ok 0 → cap ≠ 0 → cap < grant →
    let '(r', c') := snvm_user_qid_pool_init_locked true (Some (nd_of s')) c in
    r' = Ok tt ∧ user_qid_first c' = online_queues (nd_of s') ∧ user_qid_first c' ≤ cap + 1
    ∧ user_qid_first c' ≤ user_qid_last c' ∧ used_qids c' = ∅
    ∧ ∀ i q qid, (1 ≤ i)%nat → io_queues (the_dev s') !! i = Some q → ioq_enabled q = true →
        user_qid_first c' ≤ qid ≤ user_qid_last c' → Z.of_nat i < qid) s.
Proof.
  intros Henv Hpq Hs Hc. eapply wp_mono; [by apply setup_io_queues_ok|].
  intros r s' (rc & -> & Hpost) cap grant [= ->] Hcap Hlt. pose proof (ss_cap _ Hs) as Hc0. fold cap in Hc0.
  destruct Hpost as [[? _]|[(_ & _ & _ & E & _)|[Hok _]]]; [lia|subst grant; lia|]. fold cap grant in Hok.
  destruct (cap_queues_ok cap grant Hc0) as [_ HK]; [lia|]. specialize (HK Hcap).
  pose proof (io_online _ _ _ _ Hok) as Ho. pose proof (io_share _ _ _ _ Hok) as Hsh.
  unfold snvm_user_qid_pool_init_locked, gets, guard_err, mbind, M_bind, mret, M_ret, modify. cbn [id]. rewrite Hc.
  rewrite !bool_decide_false by (fold grant; lia). cbn [orb negb].
  split_and!; [done|done|cbn; lia|cbn; lia| |].
  - apply set_eq. intros qid. rewrite elem_of_used_qids. split; [|by intros ?%elem_of_empty].
    intros Hu. by erewrite fresh_pool_unused in Hu.
  - cbn. intros i q qid Hi Hq He Hr. rewrite (io_enabled _ _ _ _ Hok i q Hi Hq) in He. apply bool_decide_eq_true in He. lia.
Qed.

(** ** Concrete queues and devices *)

Definition demo_cmd : nvme_rw_command := mk_rwcmd 0 (DPrp 0 0) 0.
Definition demo_cqe (cid status : Z) : nvme_completion := mk_cqe 0 1 cid status.

Definition demo_ndev : nvme_dev := mk_ndev 1 0 0 9 0 1 0 2 64 1 true 0 0.

Definition demo_q : nvme_queue :=
  mk_nvmeq 1 4 0 0 0 1 (replicate 4 demo_cmd) (replicate 4 (demo_cqe 0 0)) None None.

Definition demo_qs : qstate :=
  mk_qstate (nvme_init_queue_rings demo_ndev false 1 demo_q) (λ _, 0) (λ _, 0)
    {[ 5 := mk_nvmerq 17 0 0 ]} [] [] [].

(** A command is queued and the controller completes it. *)
Definition demo_done : nvme_completion := demo_cqe 4101 1.

Definition demo_queued : qstate := (queue_cmd 1 demo_cmd true demo_qs).2.

Lemma demo_q_reach :
  q_reach 1 false demo_qs (demo_queued <| the_q ::= cq_post 0 demo_done |>) [demo_done] [demo_cmd].
Proof.
  apply (q_post 1 false demo_qs demo_queued [] [demo_cmd] demo_done); [|vm_compute; lia|reflexivity].
  apply (q_queue 1 false demo_qs demo_qs [] [] demo_cmd true (Ok tt) demo_queued (q_start _ _ _)). reflexivity.
Qed.

Lemma rings_exactly_once_witness :
  let s := demo_queued <| the_q ::= cq_post 0 demo_done |> in
  q_inv s [demo_done] [demo_cmd]
  ∧ (∃ b s', nvme_poll 1 false s = (Ok b, s') ∧ seen s' = [demo_done])
  ∧ (∃ s', nvme_irq 1 false s = (Ok IRQ_HANDLED, s') ∧ seen s' = [demo_done]).
Proof.
  apply (rings_exactly_once 1 false demo_ndev false 1 demo_q demo_qs _ [demo_done] [demo_cmd]);
    [split; [vm_compute; discriminate|reflexivity]|reflexivity|reflexivity|reflexivity|reflexivity|exact demo_q_reach].
Defined.

Lemma demo_ring : cq_ring (the_q demo_qs) [] 0.
Proof. apply init_ring; [split; [vm_compute; discriminate|reflexivity]|reflexivity]. Qed.

Lemma demo_sq : sq_open (the_q demo_qs) [] 0.
Proof. apply init_sq; [split; [vm_compute; discriminate|reflexivity]|reflexivity]. Qed.

(** The ring with one entry posted and none consumed. *)
Definition demo_posted : qstate := demo_qs <| the_q ::= cq_post 0 demo_done |>.

Lemma demo_posted_ring : cq_ring (the_q demo_posted) [demo_done] 0.
Proof. apply (cq_post_ring _ [] 0 demo_done demo_ring); [vm_compute; lia|reflexivity]. Qed.

Lemma poll_handles_all_witness :
  ∃ s1, nvme_poll_cq 1 false demo_posted = (Ok 1, cq_rung 1 1 demo_posted s1)
        ∧ polled false [demo_done] 0 demo_posted s1
        ∧ dbbuf_dbs s1 = dbbuf_dbs demo_posted ∧ dbbuf_eis s1 = dbbuf_eis demo_posted
        ∧ mmio s1 = mmio demo_posted.
Proof. exact (poll_handles_all 1 false demo_posted [demo_done] 0 demo_posted_ring). Defined.

Lemma submission_announced_witness :
  ∃ s' a', queue_cmd 1 demo_cmd false demo_qs = (Ok tt, s')
    ∧ sq_open (the_q s') [demo_cmd] a'
    ∧ (let s1 := demo_qs <| the_q ::= copied demo_cmd |> in
       a' = 1%nat ∧ s' = sq_rung 1 s1 ∨ false = false ∧ a' = 0%nat ∧ s' = s1)
    ∧ ∃ s'', nvme_commit_rqs 1 s' = (Ok tt, s'') ∧ sq_open (the_q s'') [demo_cmd] 1
        ∧ s'' = (if bool_decide (1%nat = a') then s' else sq_rung 1 s').
Proof. exact (submission_announced 1 demo_qs [] 0 demo_cmd false demo_sq). Defined.

Lemma completion_matches_once_witness :
  let rq' := mk_nvmerq 18 0 0 in
  ∃ s1, handle_entry false demo_done demo_qs = (Ok tt, s1) ∧ tags s1 = <[5 := rq']> (tags demo_qs)
        ∧ qlog s1 = [EvCompleted 5]
        ∧ ∃ s2, handle_entry false demo_done s1 = (Ok tt, s2) ∧ tags s2 = tags s1.
Proof.
  exact (completion_matches_once demo_qs 5 (mk_nvmerq 17 0 0) demo_done
    ltac:(discriminate) ltac:(lia) eq_refl eq_refl).
Defined.

Lemma dbbuf_teardown_bounds_witness :
  (nvme_dbbuf_set (demo_ndev <| online_queues := 2 |>) true 1 [demo_q; demo_q]).1 = Fault OutOfBounds.
Proof.
  apply (dbbuf_teardown_bounds (demo_ndev <| online_queues := 2 |>) 1 [demo_q; demo_q]);
    [discriminate|vm_compute; discriminate|reflexivity].
Defined.

(** A controller that grants four queues, a cap of two. *)
Definition demo_ioenv : io_env :=
  mk_ioenv (λ _ _, (0, 3 + 3 * 65536)) (λ _, true) (λ _, true) 65536 (λ _, true) (λ _ m, m) (λ _, 0)
    (λ _, true) (λ _, true) (λ _, true) (λ _, 0) (λ _, 0) (λ _, true) (λ _, true).

Definition demo_iodev : io_dev :=
  mk_iodev demo_ndev (replicate 9 fresh_ioq) 1 0 0 0 0 0 63 0 false false false 0 false false false false.

Definition demo_ios : iostate := mk_iostate demo_iodev 0 [].

Lemma demo_ioenv_ok : io_env_ok demo_ioenv.
Proof. split; cbn; intros; lia. Qed.

Lemma demo_start : setup_start demo_ios.
Proof.
  split; try (reflexivity || (vm_compute; split; discriminate) || (vm_compute; discriminate)).
  intros i q _ Hq. by apply lookup_replicate in Hq as [-> _].
Qed.

Lemma setup_within_share_witness :
  wp (s_nvme_setup_io_queues demo_ioenv 0 1) (setup_post demo_ios) demo_ios.
Proof. exact (setup_within_share demo_ioenv 0 1 demo_ios demo_ioenv_ok ltac:(lia) demo_start). Defined.

(** Set-up comes up with one interrupt-driven and one polled queue. *)
Example setup_uses_the_cap :
  let '(r, s) := s_nvme_setup_io_queues demo_ioenv 0 1 demo_ios in
  r = Ok 0 ∧ online_queues (nd_of s) = 3 ∧ ctrl_max_io_queues (nd_of s) = 4.
Proof. vm_compute. done. Qed.

Definition demo_pool_ctrl : ctrl := mk_ctrl 0 "ssnvme0" 0 0 true zero_setup None 0 0 2 [].

Lemma user_pool_above_kernel_queues_witness :
  wp (s_nvme_setup_io_queues demo_ioenv 0 1) (λ r s',
    let cap := nd_cap_kernel_ioq (nd_of demo_ios) in
    let grant := ctrl_max_io_queues (nd_of s') in
    r = Ok 0 → cap ≠ 0 → cap < grant →
    let '(r', c') := snvm_user_qid_pool_init_locked true (Some (nd_of s')) demo_pool_ctrl in
    r' = Ok tt ∧ user_qid_first c' = online_queues (nd_of s') ∧ user_qid_first c' ≤ cap + 1
    ∧ user_qid_first c' ≤ user_qid_last c' ∧ used_qids c' = ∅
    ∧ ∀ i q qid, (1 ≤ i)%nat → io_queues (the_dev s') !! i = Some q → ioq_enabled q = true →
        user_qid_first c' ≤ qid ≤ user_qid_last c' → Z.of_nat i < qid) demo_ios.
Proof.
  exact (user_pool_above_kernel_queues demo_ioenv 0 1 demo_ios demo_pool_ctrl
    demo_ioenv_ok ltac:(lia) demo_start eq_refl).
Defined.
