(* ===== verification/CoreCtrl.v ===== *)
(** * CoreCtrl: the life cycle of a controller (baseline/6.8/core.c)

    The controller's state machine with the work it starts and stops, reset
    and deletion requests, the waiter for a reset, and the fast-fail timer.
    [snvme_change_ctrl_state] changes the state under the controller's lock
    and does the rest after releasing it, and the timer's handler tests the
    state without the lock: the last part of the file runs the same pieces
    as interleaved steps of several threads and the timer. *)
From S2P Require Import Prelude.

Definition ENETRESET : Z := 102.
(** Do Not Retry, in a completion's status. *)
Definition NVME_STATUS_DNR : Z := 16384.             (* 0x4000 *)

Inductive nvme_ctrl_state : Set :=
  | NVME_CTRL_NEW
  | NVME_CTRL_LIVE
  | NVME_CTRL_RESETTING
  | NVME_CTRL_CONNECTING
  | NVME_CTRL_DELETING
  | NVME_CTRL_DELETING_NOIO
  | NVME_CTRL_DEAD.

#[export] Instance nvme_ctrl_state_eq_dec : EqDecision nvme_ctrl_state.
Proof. solve_decision. Defined.

(** What the operations ask of the rest of the kernel, oldest first. *)
Inductive core_event : Set :=
  | EvWakeState                        (* wake_up_all(&ctrl->state_wq) *)
  | EvKickRequeue                      (* nvme_kick_requeue_lists *)
  | EvFlushReset                       (* flush_work(&ctrl->reset_work) *)
  | EvStopCtrl                         (* snvme_stop_ctrl *)
  | EvRemoveNamespaces                 (* snvme_remove_namespaces *)
  | EvDeleteCtrl                       (* ctrl->ops->delete_ctrl *)
  | EvUninitCtrl                       (* snvme_uninit_ctrl *)
  | EvScan.                            (* queue_work(s_nvme_wq, &ctrl->scan_work) *)

(** struct nvme_ctrl: its state, the fabrics options by their
    fast_io_fail_tmo, NVME_CTRL_FAILFAST_EXPIRED, and which of its work items
    are queued. *)
Record nvme_ctrl : Type := mk_nctrl {
  nc_state : nvme_ctrl_state;
  nc_opts : option Z;
  nc_tagset : bool;
  nc_failfast_expired : bool;
  nc_failfast_queued : bool;
  nc_reset_queued : bool;
  nc_delete_queued : bool;
  nc_refs : Z;
  nc_log : list core_event;
}.

#[export] Instance set_nc_state : Setter nc_state := λ f r,
  mk_nctrl (f (nc_state r)) (nc_opts r) (nc_tagset r) (nc_failfast_expired r)
    (nc_failfast_queued r) (nc_reset_queued r) (nc_delete_queued r) (nc_refs r) (nc_log r).
#[export] Instance set_nc_failfast_expired : Setter nc_failfast_expired := λ f r,
  mk_nctrl (nc_state r) (nc_opts r) (nc_tagset r) (f (nc_failfast_expired r))
    (nc_failfast_queued r) (nc_reset_queued r) (nc_delete_queued r) (nc_refs r) (nc_log r).
#[export] Instance set_nc_failfast_queued : Setter nc_failfast_queued := λ f r,
  mk_nctrl (nc_state r) (nc_opts r) (nc_tagset r) (nc_failfast_expired r)
    (f (nc_failfast_queued r)) (nc_reset_queued r) (nc_delete_queued r) (nc_refs r) (nc_log r).
#[export] Instance set_nc_reset_queued : Setter nc_reset_queued := λ f r,
  mk_nctrl (nc_state r) (nc_opts r) (nc_tagset r) (nc_failfast_expired r)
    (nc_failfast_queued r) (f (nc_reset_queued r)) (nc_delete_queued r) (nc_refs r) (nc_log r).
#[export] Instance set_nc_delete_queued : Setter nc_delete_queued := λ f r,
  mk_nctrl (nc_state r) (nc_opts r) (nc_tagset r) (nc_failfast_expired r)
    (nc_failfast_queued r) (nc_reset_queued r) (f (nc_delete_queued r)) (nc_refs r) (nc_log r).
#[export] Instance set_nc_refs : Setter nc_refs := λ f r,
  mk_nctrl (nc_state r) (nc_opts r) (nc_tagset r) (nc_failfast_expired r)
    (nc_failfast_queued r) (nc_reset_queued r) (nc_delete_queued r) (f (nc_refs r)) (nc_log r).
#[export] Instance set_nc_log : Setter nc_log := λ f r,
  mk_nctrl (nc_state r) (nc_opts r) (nc_tagset r) (nc_failfast_expired r)
    (nc_failfast_queued r) (nc_reset_queued r) (nc_delete_queued r) (nc_refs r) (f (nc_log r)).

Definition CM := M nvme_ctrl.
Definition cemit (e : core_event) : CM unit := modify (λ c, c <| nc_log ::= λ l, l ++ [e] |>).

(** ** The state machine *)

(** The two nested switches of snvme_change_ctrl_state: may the controller go
    from [old] to [new_state]? *)
Definition state_change_allowed (old new_state : nvme_ctrl_state) : bool :=
  match new_state, old with
  | NVME_CTRL_LIVE, (NVME_CTRL_NEW | NVME_CTRL_RESETTING | NVME_CTRL_CONNECTING) => true
  | NVME_CTRL_RESETTING, (NVME_CTRL_NEW | NVME_CTRL_LIVE) => true
  | NVME_CTRL_CONNECTING, (NVME_CTRL_NEW | NVME_CTRL_RESETTING) => true
  | NVME_CTRL_DELETING, (NVME_CTRL_LIVE | NVME_CTRL_RESETTING | NVME_CTRL_CONNECTING) => true
  | NVME_CTRL_DELETING_NOIO, (NVME_CTRL_DELETING | NVME_CTRL_DEAD) => true
  | NVME_CTRL_DEAD, NVME_CTRL_DELETING => true
  | _, _ => false
  end.

(** [fast_io_fail_tmo == -1] leaves the timer off. *)
Definition failfast_enabled (opts : option Z) : bool :=
  match opts with Some tmo => negb (bool_decide (tmo = -1)) | None => false end.

Definition nvme_start_failfast_work : CM unit :=
  c ← gets id;
  when (failfast_enabled (nc_opts c)) (modify (λ c, c <| nc_failfast_queued := true |>)).

Definition nvme_stop_failfast_work : CM unit :=
  c ← gets id;
  match nc_opts c with
  | None => mret tt
  | Some _ =>
      modify (λ c, c <| nc_failfast_queued := false |>);;
      modify (λ c, c <| nc_failfast_expired := false |>)
  end.

Definition nvme_failfast_work : CM unit :=
  modify (λ c, c <| nc_failfast_queued := false |>);;
  c ← gets id;
  if negb (bool_decide (nc_state c = NVME_CTRL_CONNECTING)) then mret tt
  else modify (λ c, c <| nc_failfast_expired := true |>);; cemit EvKickRequeue.

Definition snvme_change_ctrl_state (new_state : nvme_ctrl_state) : CM bool :=
  c ← gets id;
  let old_state := nc_state c in
  let changed := state_change_allowed old_state new_state in
  if negb changed then mret false
  else
    modify (λ c, c <| nc_state := new_state |>);;
    cemit EvWakeState;;
    (if bool_decide (new_state = NVME_CTRL_LIVE) then
       when (bool_decide (old_state = NVME_CTRL_CONNECTING)) nvme_stop_failfast_work;;
       cemit EvKickRequeue
     else
       when (bool_decide (new_state = NVME_CTRL_CONNECTING)
             && bool_decide (old_state = NVME_CTRL_RESETTING)) nvme_start_failfast_work);;
    mret changed.

Definition nvme_state_terminal (st : nvme_ctrl_state) : bool :=
  match st with
  | NVME_CTRL_NEW | NVME_CTRL_LIVE | NVME_CTRL_RESETTING | NVME_CTRL_CONNECTING => false
  | NVME_CTRL_DELETING | NVME_CTRL_DELETING_NOIO | NVME_CTRL_DEAD => true
  end.

(** ** Reset and deletion *)

Definition nvme_queue_scan : CM unit :=
  c ← gets id;
  when (bool_decide (nc_state c = NVME_CTRL_LIVE) && nc_tagset c) (cemit EvScan).

(** queue_work on reset_work and delete_work: [false] when already queued. *)
Definition queue_reset_work : CM bool :=
  c ← gets id;
  if nc_reset_queued c then mret false
  else modify (λ c, c <| nc_reset_queued := true |>);; mret true.
Definition queue_delete_work : CM bool :=
  c ← gets id;
  if nc_delete_queued c then mret false
  else modify (λ c, c <| nc_delete_queued := true |>);; mret true.

Definition snvme_try_sched_reset : CM Z :=
  c ← gets id;
  if negb (bool_decide (nc_state c = NVME_CTRL_RESETTING)) then mret (- EBUSY)
  else q ← queue_reset_work; mret (if (q : bool) then 0 else - EBUSY).

Definition snvme_reset_ctrl : CM Z :=
  ok ← snvme_change_ctrl_state NVME_CTRL_RESETTING;
  if negb ok then mret (- EBUSY)
  else q ← queue_reset_work; mret (if (q : bool) then 0 else - EBUSY).

(** [reset_work]: what the transport's reset handler does to the controller;
    flush_work returns when it has run. *)
Definition nvme_reset_ctrl_sync (reset_work : CM unit) : CM Z :=
  ret ← snvme_reset_ctrl;
  if negb (bool_decide (ret = 0)) then mret ret
  else
    modify (λ c, c <| nc_reset_queued := false |>);;
    reset_work;;
    c ← gets id;
    mret (if bool_decide (nc_state c = NVME_CTRL_LIVE) then ret else - ENETRESET).

Definition nvme_do_delete_ctrl : CM unit :=
  cemit EvFlushReset;;
  cemit EvStopCtrl;;
  cemit EvRemoveNamespaces;;
  cemit EvDeleteCtrl;;
  cemit EvUninitCtrl.

Definition nvme_delete_ctrl_work : CM unit :=
  modify (λ c, c <| nc_delete_queued := false |>);; nvme_do_delete_ctrl.

Definition nvme_delete_ctrl : CM Z :=
  ok ← snvme_change_ctrl_state NVME_CTRL_DELETING;
  if negb ok then mret (- EBUSY)
  else q ← queue_delete_work; mret (if (q : bool) then 0 else - EBUSY).

Definition nvme_delete_ctrl_sync : CM unit :=
  modify (λ c, c <| nc_refs ::= λ n, n + 1 |>);;
  ok ← snvme_change_ctrl_state NVME_CTRL_DELETING;
  when ok nvme_do_delete_ctrl;;
  modify (λ c, c <| nc_refs ::= λ n, n - 1 |>).

(** snvme_wait_reset: the condition of wait_event is tried, and tried again
    after every wake-up; [others] are the changes of state other threads try
    while this one sleeps, of which only the successful ones wake it.  [None]
    is a waiter still asleep when they are over. *)
Fixpoint snvme_wait_reset (others : list nvme_ctrl_state) : CM (option bool) :=
  ok ← snvme_change_ctrl_state NVME_CTRL_RESETTING;
  c ← gets id;
  if ok || nvme_state_terminal (nc_state c)
  then mret (Some (bool_decide (nc_state c = NVME_CTRL_RESETTING)))
  else match others with
       | [] => mret None
       | new_state :: others => snvme_change_ctrl_state new_state;; snvme_wait_reset others
       end.

(** ** Interleaved threads

    What a thread inside snvme_change_ctrl_state has left to do after it
    released the lock: [PcCancel] is about to call cancel_delayed_work_sync,
    [PcClear] about to clear the flag, [PcKick] to kick the requeue lists,
    [PcStart] to start the timer. *)
Inductive change_pc : Set := PcCancel | PcClear | PcKick | PcStart.

(** The timer's handler: not running, past its test of the state, past
    setting the flag. *)
Inductive timer_pc : Set := TimerIdle | TimerChecked | TimerSet.

#[export] Instance change_pc_eq_dec : EqDecision change_pc.
Proof. solve_decision. Defined.
#[export] Instance timer_pc_eq_dec : EqDecision timer_pc.
Proof. solve_decision. Defined.

Record conc : Type := mk_conc {
  cc_ctrl : nvme_ctrl;
  cc_threads : gmap nat change_pc;
  cc_timer : timer_pc;
}.

(** What follows the critical section of a successful change of state. *)
Definition after_change (old new_state : nvme_ctrl_state) (opts : option Z) : option change_pc :=
  if bool_decide (new_state = NVME_CTRL_LIVE) then
    if bool_decide (old = NVME_CTRL_CONNECTING) && bool_decide (opts ≠ None)
    then Some PcCancel else Some PcKick
  else if bool_decide (new_state = NVME_CTRL_CONNECTING) && bool_decide (old = NVME_CTRL_RESETTING)
  then Some PcStart else None.

Definition put_pc (t : nat) (pc : option change_pc) (m : gmap nat change_pc) : gmap nat change_pc :=
  match pc with Some p => <[t := p]> m | None => delete t m end.

Inductive conc_act : Set :=
  | ActChange (t : nat) (new_state : nvme_ctrl_state)
  | ActThread (t : nat)
  | ActTimer.

(** One step; [None] when the thread or the timer cannot move, as when
    cancel_delayed_work_sync waits for a running handler. *)
Definition conc_step (a : conc_act) (s : conc) : option conc :=
  let c := cc_ctrl s in
  match a with
  | ActChange t new_state =>
      if bool_decide (cc_threads s !! t = None) && state_change_allowed (nc_state c) new_state
      then Some (mk_conc (c <| nc_state := new_state |> <| nc_log ::= λ l, l ++ [EvWakeState] |>)
                   (put_pc t (after_change (nc_state c) new_state (nc_opts c)) (cc_threads s))
                   (cc_timer s))
      else None
  | ActThread t =>
      match cc_threads s !! t with
      | Some PcCancel =>
          if bool_decide (cc_timer s = TimerIdle)
          then Some (mk_conc (c <| nc_failfast_queued := false |>)
                       (<[t := PcClear]> (cc_threads s)) (cc_timer s))
          else None
      | Some PcClear =>
          Some (mk_conc (c <| nc_failfast_expired := false |>)
                  (<[t := PcKick]> (cc_threads s)) (cc_timer s))
      | Some PcKick =>
          Some (mk_conc (c <| nc_log ::= λ l, l ++ [EvKickRequeue] |>)
                  (delete t (cc_threads s)) (cc_timer s))
      | Some PcStart =>
          Some (mk_conc (if failfast_enabled (nc_opts c) then c <| nc_failfast_queued := true |> else c)
                  (delete t (cc_threads s)) (cc_timer s))
      | None => None
      end
  | ActTimer =>
      match cc_timer s with
      | TimerIdle =>
          if nc_failfast_queued c then
            Some (mk_conc (c <| nc_failfast_queued := false |>) (cc_threads s)
                    (if bool_decide (nc_state c = NVME_CTRL_CONNECTING) then TimerChecked else TimerIdle))
          else None
      | TimerChecked =>
          Some (mk_conc (c <| nc_failfast_expired := true |>) (cc_threads s) TimerSet)
      | TimerSet =>
          Some (mk_conc (c <| nc_log ::= λ l, l ++ [EvKickRequeue] |>) (cc_threads s) TimerIdle)
      end
  end.

(** States reachable from a fresh controller. *)
Inductive conc_reach (opts : option Z) : conc → Prop :=
  | conc_fresh tagset refs :
      conc_reach opts (mk_conc (mk_nctrl NVME_CTRL_NEW opts tagset false false false false refs [])
                         ∅ TimerIdle)
  | conc_next s a s' : conc_reach opts s → conc_step a s = Some s' → conc_reach opts s'.

Fixpoint conc_run (l : list conc_act) (s : conc) : option conc :=
  match l with
  | [] => Some s
  | a :: l => s ← conc_step a s; conc_run l s
  end.
