(* ===== verification/CoreCtrlSpec.v ===== *)
(** * CoreCtrlSpec: reference definitions and lemmas for CoreCtrl

    The sequence of states a controller passes through, the invariant of the
    interleaved threads and the fast-fail timer, and the exact results of the
    reset operations. *)
From S2P Require Import Prelude.
From S2P Require Import CoreCtrl.

(** ** Reference: states only *)

(** A requested change of state, without its side effects. *)
Definition next_state (st new_state : nvme_ctrl_state) : nvme_ctrl_state :=
  if state_change_allowed st new_state then new_state else st.

(** The states a controller passes through, the first one included. *)
Fixpoint trajectory (st : nvme_ctrl_state) (changes : list nvme_ctrl_state) : list nvme_ctrl_state :=
  st :: match changes with [] => [] | n :: changes => trajectory (next_state st n) changes end.

(** The changes that succeed. *)
Fixpoint granted (st : nvme_ctrl_state) (changes : list nvme_ctrl_state) : list nvme_ctrl_state :=
  match changes with
  | [] => []
  | n :: changes =>
      if state_change_allowed st n then n :: granted n changes else granted st changes
  end.

Fixpoint change_all (changes : list nvme_ctrl_state) : CM unit :=
  match changes with
  | [] => mret tt
  | n :: changes => snvme_change_ctrl_state n;; change_all changes
  end.

Definition count_state (st : nvme_ctrl_state) (l : list nvme_ctrl_state) : nat :=
  length (filter (λ x, x = st) l).

(** A reset is under way or the transport is reconnecting. *)
Definition busy (st : nvme_ctrl_state) : bool :=
  match st with NVME_CTRL_RESETTING | NVME_CTRL_CONNECTING => true | _ => false end.

(** ** The state machine *)

(** Evaluate a short program on a concrete controller. *)
Ltac run_ctrl :=
  unfold snvme_change_ctrl_state, nvme_stop_failfast_work, nvme_start_failfast_work, cemit,
    mbind, M_bind, gets, modify, mret, M_ret, when, set, failfast_enabled; cbn;
  repeat match goal with
  | |- context [bool_decide (?a = ?b :> nvme_ctrl_state)] =>
      first [rewrite (bool_decide_true (a = b)) by done
            |rewrite (bool_decide_false (a = b)) by done]
  end; cbn.

Lemma change_ctrl_state_result new_state c :
  ∃ c', snvme_change_ctrl_state new_state c = (Ok (state_change_allowed (nc_state c) new_state), c')
    ∧ nc_state c' = next_state (nc_state c) new_state
    ∧ nc_reset_queued c' = nc_reset_queued c ∧ nc_delete_queued c' = nc_delete_queued c
    ∧ nc_refs c' = nc_refs c ∧ nc_opts c' = nc_opts c ∧ nc_tagset c' = nc_tagset c.
Proof.
  unfold next_state. destruct c as [st o tg e q rq dq n l].
  destruct o as [tmo|]; destruct st, new_state; run_ctrl; try (eexists; by split_and!).
  all: destruct (bool_decide (tmo = -1)); cbn; eexists; by split_and!.
Qed.

Lemma change_refused new_state c :
  state_change_allowed (nc_state c) new_state = false →
  snvme_change_ctrl_state new_state c = (Ok false, c).
Proof. intros H. run_ctrl. by rewrite H. Qed.

Lemma terminal_next st n :
  nvme_state_terminal st = true → nvme_state_terminal (next_state st n) = true.
Proof. by destruct st, n. Qed.

Lemma change_all_state changes c :
  ∃ c', change_all changes c = (Ok tt, c') ∧ nc_state c' = foldl next_state (nc_state c) changes
    ∧ nc_reset_queued c' = nc_reset_queued c.
Proof.
  revert c. induction changes as [|n changes IH]; intros c; cbn; [by exists c|].
  destruct (change_ctrl_state_result n c) as (c1 & E & Hst & Hq & _).
  unfold mbind, M_bind. rewrite E.
  destruct (IH c1) as (c2 & E2 & Hst2 & Hq2). rewrite E2. exists c2. split_and!; [done| |congruence].
  by rewrite Hst2, Hst.
Qed.

(** Distance to the end of a deletion. *)
Definition deletion_rank (st : nvme_ctrl_state) : nat :=
  match st with
  | NVME_CTRL_DELETING => 2
  | NVME_CTRL_DEAD => 1
  | _ => 0
  end.

Lemma granted_after_deletion st changes :
  nvme_state_terminal st = true → (length (granted st changes) ≤ deletion_rank st)%nat.
Proof.
  revert st. induction changes as [|n changes IH]; intros st Ht; cbn; [lia|].
  destruct (state_change_allowed st n) eqn:E; [|by apply IH].
  cbn. assert (nvme_state_terminal n = true) as Hn by (by destruct st, n).
  specialize (IH n Hn). assert (S (deletion_rank n) ≤ deletion_rank st)%nat by (destruct st, n; cbn in *; lia || done).
  lia.
Qed.

Lemma trajectory_terminal st changes :
  nvme_state_terminal st = true → Forall (λ x, nvme_state_terminal x = true) (trajectory st changes).
Proof.
  revert st. induction changes as [|n changes IH]; intros st Ht; cbn; constructor; auto.
  apply IH, terminal_next, Ht.
Qed.

(** Resets alternate with returns to service. *)
Lemma resets_bounded st changes :
  (count_state NVME_CTRL_RESETTING (granted st changes)
    ≤ count_state NVME_CTRL_LIVE (granted st changes)
      + (if state_change_allowed st NVME_CTRL_RESETTING then 1 else 0))%nat.
Proof.
  unfold count_state. revert st. induction changes as [|n changes IH]; intros st; cbn; [lia|].
  destruct (state_change_allowed st n) eqn:E; [|by apply IH].
  specialize (IH n). rewrite !filter_cons. revert IH.
  destruct st, n; try discriminate E;
    repeat match goal with
    | |- context [decide (?a = ?b)] =>
        first [rewrite (decide_True (P := a = b)) by done|rewrite (decide_False (P := a = b)) by done]
    end; cbn; lia.
Qed.

(** ** Waiting for a reset *)

Lemma wait_reset_exact others c :
  ∃ c', snvme_wait_reset others c
      = (Ok (match list_find (λ st, busy st = false) (trajectory (nc_state c) others) with
             | Some (_, st) => Some (negb (nvme_state_terminal st))
             | None => None
             end), c')
    ∧ (match list_find (λ st, busy st = false) (trajectory (nc_state c) others) with
       | Some (_, st) => nc_state c' = if nvme_state_terminal st then st else NVME_CTRL_RESETTING
       | None => busy (nc_state c') = true
       end).
Proof.
  revert c. induction others as [|n others IH]; intros c.
  all: destruct (change_ctrl_state_result NVME_CTRL_RESETTING c) as (c1 & E & Hst & _).
  all: destruct (busy (nc_state c)) eqn:Hb.
  - exists c. pose proof (change_refused NVME_CTRL_RESETTING c) as Hr.
    cbn. rewrite decide_False by congruence.
    unfold mbind, M_bind. rewrite Hr by (by destruct (nc_state c)). cbn.
    destruct (nc_state c); try discriminate Hb; done.
  - exists c1. cbn. rewrite decide_True by done. unfold mbind, M_bind. rewrite E. cbn. rewrite Hst.
    destruct (nc_state c); try discriminate Hb; done.
  - pose proof (change_refused NVME_CTRL_RESETTING c) as Hr.
    destruct (change_ctrl_state_result n c) as (c2 & E2 & Hst2 & _).
    destruct (IH c2) as (c3 & E3 & H3). rewrite Hst2 in E3, H3. exists c3.
    cbn [snvme_wait_reset trajectory list_find]. rewrite decide_False by congruence.
    unfold mbind, M_bind. rewrite Hr by (by destruct (nc_state c)). cbn.
    assert (nvme_state_terminal (nc_state c) = false) as -> by (by destruct (nc_state c)).
    rewrite E2, E3.
    destruct (list_find _ (trajectory (next_state (nc_state c) n) others)) as [[i st]|]; done.
  - exists c1. cbn. rewrite decide_True by done. unfold mbind, M_bind. rewrite E. cbn. rewrite Hst.
    destruct (nc_state c); try discriminate Hb; done.
Qed.

(** ** Reset requests *)

Lemma reset_ctrl_result c :
  ∃ c', snvme_reset_ctrl c
      = (Ok (if state_change_allowed (nc_state c) NVME_CTRL_RESETTING && negb (nc_reset_queued c)
             then 0 else - EBUSY), c')
    ∧ (nc_reset_queued c = false →
       nc_reset_queued c' = state_change_allowed (nc_state c) NVME_CTRL_RESETTING)
    ∧ nc_state c' = next_state (nc_state c) NVME_CTRL_RESETTING.
Proof.
  destruct (change_ctrl_state_result NVME_CTRL_RESETTING c) as (c1 & E & Hst & Hq & _).
  unfold snvme_reset_ctrl, queue_reset_work, mbind, M_bind. rewrite E. cbn.
  destruct (nc_state c) eqn:Es; cbn; try (eexists; split_and!; [done| |exact Hst]; congruence).
  all: unfold gets, modify; cbn; destruct (nc_reset_queued c1) eqn:E1; rewrite <- Hq; cbn;
    eexists; split_and!; [done| |exact Hst|done| |exact Hst]; done.
Qed.

(** ** Interleaved threads *)

(** States in which a set fast-fail flag is meant or no longer matters. *)
Definition flag_allowed (st : nvme_ctrl_state) : Prop :=
  st = NVME_CTRL_CONNECTING ∨ nvme_state_terminal st = true.

Record conc_ok (opts : option Z) (s : conc) : Prop := {
  co_opts : nc_opts (cc_ctrl s) = opts;
  co_none : opts = None → nc_failfast_expired (cc_ctrl s) = false
    ∧ nc_failfast_queued (cc_ctrl s) = false ∧ cc_timer s = TimerIdle;
  co_timer : cc_timer s = TimerChecked →
    flag_allowed (nc_state (cc_ctrl s)) ∨ ∃ t, cc_threads s !! t = Some PcCancel;
  co_flag : nc_failfast_expired (cc_ctrl s) = true →
    flag_allowed (nc_state (cc_ctrl s))
    ∨ ∃ t, cc_threads s !! t = Some PcCancel ∨ cc_threads s !! t = Some PcClear;
}.

(** A change of state keeps the flag allowed or leaves a thread that will
    clear it. *)
Lemma change_keeps_flag st n opts t m :
  state_change_allowed st n = true → opts ≠ None → flag_allowed st →
  flag_allowed n ∨ put_pc t (after_change st n opts) m !! t = Some PcCancel.
Proof.
  intros Ha Ho [->|Ht]; [|left; right; by destruct st, n].
  destruct n; try discriminate Ha; [right|left; by right..].
  unfold after_change. rewrite !bool_decide_true by done. cbn. by rewrite lookup_insert_eq.
Qed.

Lemma put_pc_other t t' pc m : t ≠ t' → put_pc t pc m !! t' = m !! t'.
Proof. intros H. destruct pc; cbn; [by rewrite lookup_insert_ne|by rewrite lookup_delete_ne]. Qed.

Lemma conc_change_ok opts t n s s' :
  conc_ok opts s → conc_step (ActChange t n) s = Some s' → conc_ok opts s'.
Proof.
  intros [Ho Hn Ht Hf] E. cbn in E. case_match eqn:Eg; [|done]. simplify_eq.
  apply andb_true_iff in Eg as [Hfree%bool_decide_eq_true Ha].
  assert (∀ t' p, cc_threads s !! t' = Some p →
    put_pc t (after_change (nc_state (cc_ctrl s)) n (nc_opts (cc_ctrl s))) (cc_threads s) !! t' = Some p) as Hkeep.
  { intros t' p Hp. rewrite put_pc_other; [done|]. intros <-. congruence. }
  split; cbn; [done|exact Hn| |].
  - intros Hc. destruct (Ht Hc) as [Hal|[t' Hp]]; [|right; exists t'; by apply Hkeep].
    destruct (change_keeps_flag _ n (nc_opts (cc_ctrl s)) t (cc_threads s) Ha) as [|]; [|done|by left|right; by exists t].
    intros En. destruct (Hn En) as (_ & _ & ?). congruence.
  - intros Hc. destruct (Hf Hc) as [Hal|[t' [Hp|Hp]]]; [|right; exists t'; left; by apply Hkeep|right; exists t'; right; by apply Hkeep].
    destruct (change_keeps_flag _ n (nc_opts (cc_ctrl s)) t (cc_threads s) Ha) as [|]; [|done|by left|right; exists t; by left].
    intros En. destruct (Hn En) as (? & _ & _). congruence.
Qed.

(** A waiting thread other than the one that moved is still there. *)
Lemma kept_cancel (m : gmap nat change_pc) t p t' (q : change_pc) :
  m !! t = Some p → m !! t' = Some q → p ≠ q → t ≠ t'.
Proof. intros H1 H2 H3 ->. congruence. Qed.

Lemma conc_thread_ok opts t s s' :
  conc_ok opts s → conc_step (ActThread t) s = Some s' → conc_ok opts s'.
Proof.
  intros [Ho Hn Ht Hf] E. cbn in E. destruct (cc_threads s !! t) as [pc|] eqn:Et; [|done]. destruct pc.
  - case_bool_decide as Hi; [|done]. simplify_eq/=. split; cbn; [done| |congruence|].
    + intros En. destruct (Hn En) as (? & _ & ?). done.
    + intros Hc. destruct (Hf Hc) as [|[t' Hp]]; [by left|]. right. exists t.
      right. by rewrite lookup_insert_eq.
  - simplify_eq/=. split; cbn; [done| | |done].
    + intros En. destruct (Hn En) as (_ & ? & ?). done.
    + intros Hc. destruct (Ht Hc) as [|[t' Hp]]; [by left|]. right. exists t'.
      rewrite lookup_insert_ne; [done|]. by apply (kept_cancel _ _ _ _ _ Et Hp).
  - simplify_eq/=. split; cbn; [done|done| |].
    + intros Hc. destruct (Ht Hc) as [|[t' Hp]]; [by left|]. right. exists t'.
      rewrite lookup_delete_ne; [done|]. by apply (kept_cancel _ _ _ _ _ Et Hp).
    + intros Hc. destruct (Hf Hc) as [|[t' Hp]]; [by left|]. right. exists t'.
      rewrite lookup_delete_ne; [done|]. destruct Hp as [Hp|Hp]; by apply (kept_cancel _ _ _ _ _ Et Hp).
  - simplify_eq/=.
    assert (∀ P : nvme_ctrl → Prop, P (cc_ctrl s) → (failfast_enabled (nc_opts (cc_ctrl s)) = true → P ((cc_ctrl s) <| nc_failfast_queued := true |>)) →
      P (if failfast_enabled (nc_opts (cc_ctrl s)) then (cc_ctrl s) <| nc_failfast_queued := true |> else cc_ctrl s)) as Hif.
    { intros P H1 H2. destruct (failfast_enabled _); auto. }
    split; cbn.
    + by apply Hif.
    + intros En. apply (Hif (λ c, _ c = _ ∧ _ c = _ ∧ _)); [by apply Hn|]. rewrite En. done.
    + intros Hc. apply (Hif (λ c, flag_allowed (nc_state c) ∨ _)); [|intros _; cbn];
        (destruct (Ht Hc) as [|[t' Hp]]; [by left|]; right; exists t';
         rewrite lookup_delete_ne; [done|]; by apply (kept_cancel _ _ _ _ _ Et Hp)).
    + intros Hc. assert (nc_failfast_expired (cc_ctrl s) = true) as Hc'
        by (by destruct (failfast_enabled _)).
      apply (Hif (λ c, flag_allowed (nc_state c) ∨ _)); [|intros _; cbn];
        (destruct (Hf Hc') as [|[t' Hp]]; [by left|]; right; exists t';
         rewrite lookup_delete_ne; [done|]; destruct Hp as [Hp|Hp]; by apply (kept_cancel _ _ _ _ _ Et Hp)).
Qed.

Lemma conc_timer_ok opts s s' :
  conc_ok opts s → conc_step ActTimer s = Some s' → conc_ok opts s'.
Proof.
  intros [Ho Hn Ht Hf] E. cbn in E. destruct (cc_timer s) eqn:Et.
  - destruct (nc_failfast_queued (cc_ctrl s)) eqn:Eq; [|done]. simplify_eq/=.
    split; cbn; [done| | |done].
    + intros En. destruct (Hn En) as (_ & ? & _). congruence.
    + case_bool_decide as Hs; [|done]. intros _. left. by left.
  - simplify_eq/=. split; cbn; [done| |done|].
    + intros En. destruct (Hn En) as (_ & _ & ?). congruence.
    + intros _. destruct (Ht eq_refl) as [|[t ?]]; [by left|right; exists t; by left].
  - simplify_eq/=. split; cbn; [done| |done|done].
    intros En. destruct (Hn En) as (_ & _ & ?). congruence.
Qed.

Lemma conc_reach_ok opts s : conc_reach opts s → conc_ok opts s.
Proof.
  induction 1 as [tg n|s a s' _ IH E].
  - split; cbn; done.
  - destruct a; [eapply conc_change_ok|eapply conc_thread_ok|eapply conc_timer_ok]; eauto.
Qed.

(** The steps one thread takes for a change of state. *)
Definition change_steps (t : nat) (c : nvme_ctrl) (n : nvme_ctrl_state) : list conc_act :=
  ActChange t n ::
  match after_change (nc_state c) n (nc_opts c) with
  | Some PcCancel => [ActThread t; ActThread t; ActThread t]
  | Some _ => [ActThread t]
  | None => []
  end.

(** Evaluate the steps of a single thread. *)
Ltac run_conc :=
  unfold after_change, put_pc;
  repeat match goal with
  | |- context [bool_decide (?a = ?b)] =>
      first [rewrite (bool_decide_true (a = b)) by done
            |rewrite (bool_decide_false (a = b)) by done]
  | |- context [bool_decide (?a ≠ ?b)] =>
      first [rewrite (bool_decide_true (a ≠ b)) by done
            |rewrite (bool_decide_false (a ≠ b)) by naive_solver]
  end; cbn;
  rewrite ?insert_insert_eq, ?lookup_insert_eq, ?delete_insert_eq, ?delete_empty; cbn.

(** Undisturbed, the steps of one thread are the function. *)
Lemma change_is_run t c n :
  state_change_allowed (nc_state c) n = true →
  conc_run (change_steps t c n) (mk_conc c ∅ TimerIdle)
    = Some (mk_conc (snvme_change_ctrl_state n c).2 ∅ TimerIdle).
Proof.
  destruct c as [st o tg e q rq dq r l]. intros Ha. cbn in Ha.
  destruct o as [tmo|]; [destruct (bool_decide (tmo = -1)) eqn:Et|];
    destruct st, n; try discriminate Ha; unfold change_steps, after_change;
    run_ctrl; do 4 run_conc; rewrite ?Et; cbn; done.
Qed.
