(* ===== verification/CoreCmd.v ===== *)
(** * CoreCmd: building and completing block requests (baseline/6.8/core.c, zns.c, multipath.c)

    How a block-layer request becomes a submission queue entry, what memory
    a discard holds while it is in flight, and what becomes of the request
    when the controller answers: ended, retried, or moved to another path.
    Little-endian conversions are the identity on x86.  Log messages and
    statistics are left out. *)
From S2P Require Import Prelude.
From S2P Require Import PciData.
From S2P Require Import PciQueue.
From S2P Require Import CoreCtrl.

(** ** Values of linux/nvme.h *)
Definition nvme_cmd_flush : Z := 0.
Definition nvme_cmd_write : Z := 1.
Definition nvme_cmd_read : Z := 2.
Definition nvme_cmd_write_zeroes : Z := 8.
Definition nvme_cmd_dsm : Z := 9.
Definition nvme_cmd_zone_mgmt_send : Z := 121.
Definition nvme_cmd_zone_append : Z := 125.

Definition NVME_RW_LR : Z := Z.shiftl 1 15.
Definition NVME_RW_FUA : Z := Z.shiftl 1 14.
Definition NVME_RW_APPEND_PIREMAP : Z := Z.shiftl 1 9.
Definition NVME_RW_PRINFO_PRCHK_REF : Z := Z.shiftl 1 10.
Definition NVME_RW_PRINFO_PRCHK_GUARD : Z := Z.shiftl 1 12.
Definition NVME_RW_PRINFO_PRACT : Z := Z.shiftl 1 13.
Definition NVME_RW_DSM_FREQ_PREFETCH : Z := 7.
Definition NVME_WZ_DEAC : Z := Z.shiftl 1 9.
Definition NVME_DSMGMT_AD : Z := Z.shiftl 1 2.
Definition NVME_DSM_MAX_RANGES : nat := 256.
Definition NVME_ZONE_CLOSE : Z := 1.
Definition NVME_ZONE_FINISH : Z := 2.
Definition NVME_ZONE_OPEN : Z := 3.
Definition NVME_ZONE_RESET : Z := 4.
Definition NVME_NVM_NS_16B_GUARD : Z := 0.
Definition NVME_NVM_NS_64B_GUARD : Z := 2.
Definition SECTOR_SHIFT : Z := 9.

Definition NVME_SC_AUTH_REQUIRED : Z := 401.         (* 0x191 *)
Definition NVME_SC_ANA_PERSISTENT_LOSS : Z := 769.   (* 0x301 *)
Definition NVME_SC_ANA_INACCESSIBLE : Z := 770.      (* 0x302 *)
Definition NVME_SC_ANA_TRANSITION : Z := 771.        (* 0x303 *)
Definition NVME_SC_HOST_PATH_ERROR : Z := 880.       (* 0x370 *)
Definition NVME_SC_HOST_ABORTED_CMD : Z := 881.      (* 0x371 *)
Definition NVME_STATUS_CRD : Z := 6144.              (* 0x1800 *)

(** ** Data *)

(** struct nvme_command as the words of the entry, its data pointer apart. *)
Record nvme_sqe : Type := mk_sqe {
  e_opcode : Z;
  e_flags : Z;
  e_command_id : Z;
  e_nsid : Z;
  e_cdw2 : Z;
  e_cdw3 : Z;
  e_metadata : Z;
  e_cdw10 : Z;
  e_cdw11 : Z;
  e_cdw12 : Z;
  e_cdw13 : Z;
  e_cdw14 : Z;
  e_cdw15 : Z;
}.

#[export] Instance set_e_opcode : Setter e_opcode := λ f r,
  mk_sqe (f (e_opcode r)) (e_flags r) (e_command_id r) (e_nsid r) (e_cdw2 r) (e_cdw3 r)
    (e_metadata r) (e_cdw10 r) (e_cdw11 r) (e_cdw12 r) (e_cdw13 r) (e_cdw14 r) (e_cdw15 r).
#[export] Instance set_e_flags : Setter e_flags := λ f r,
  mk_sqe (e_opcode r) (f (e_flags r)) (e_command_id r) (e_nsid r) (e_cdw2 r) (e_cdw3 r)
    (e_metadata r) (e_cdw10 r) (e_cdw11 r) (e_cdw12 r) (e_cdw13 r) (e_cdw14 r) (e_cdw15 r).
#[export] Instance set_e_command_id : Setter e_command_id := λ f r,
  mk_sqe (e_opcode r) (e_flags r) (f (e_command_id r)) (e_nsid r) (e_cdw2 r) (e_cdw3 r)
    (e_metadata r) (e_cdw10 r) (e_cdw11 r) (e_cdw12 r) (e_cdw13 r) (e_cdw14 r) (e_cdw15 r).
#[export] Instance set_e_nsid : Setter e_nsid := λ f r,
  mk_sqe (e_opcode r) (e_flags r) (e_command_id r) (f (e_nsid r)) (e_cdw2 r) (e_cdw3 r)
    (e_metadata r) (e_cdw10 r) (e_cdw11 r) (e_cdw12 r) (e_cdw13 r) (e_cdw14 r) (e_cdw15 r).
#[export] Instance set_e_cdw2 : Setter e_cdw2 := λ f r,
  mk_sqe (e_opcode r) (e_flags r) (e_command_id r) (e_nsid r) (f (e_cdw2 r)) (e_cdw3 r)
    (e_metadata r) (e_cdw10 r) (e_cdw11 r) (e_cdw12 r) (e_cdw13 r) (e_cdw14 r) (e_cdw15 r).
#[export] Instance set_e_cdw3 : Setter e_cdw3 := λ f r,
  mk_sqe (e_opcode r) (e_flags r) (e_command_id r) (e_nsid r) (e_cdw2 r) (f (e_cdw3 r))
    (e_metadata r) (e_cdw10 r) (e_cdw11 r) (e_cdw12 r) (e_cdw13 r) (e_cdw14 r) (e_cdw15 r).
#[export] Instance set_e_metadata : Setter e_metadata := λ f r,
  mk_sqe (e_opcode r) (e_flags r) (e_command_id r) (e_nsid r) (e_cdw2 r) (e_cdw3 r) (f
    (e_metadata r)) (e_cdw10 r) (e_cdw11 r) (e_cdw12 r) (e_cdw13 r) (e_cdw14 r) (e_cdw15 r).
#[export] Instance set_e_cdw10 : Setter e_cdw10 := λ f r,
  mk_sqe (e_opcode r) (e_flags r) (e_command_id r) (e_nsid r) (e_cdw2 r) (e_cdw3 r)
    (e_metadata r) (f (e_cdw10 r)) (e_cdw11 r) (e_cdw12 r) (e_cdw13 r) (e_cdw14 r) (e_cdw15
    r).
#[export] Instance set_e_cdw11 : Setter e_cdw11 := λ f r,
  mk_sqe (e_opcode r) (e_flags r) (e_command_id r) (e_nsid r) (e_cdw2 r) (e_cdw3 r)
    (e_metadata r) (e_cdw10 r) (f (e_cdw11 r)) (e_cdw12 r) (e_cdw13 r) (e_cdw14 r) (e_cdw15
    r).
#[export] Instance set_e_cdw12 : Setter e_cdw12 := λ f r,
  mk_sqe (e_opcode r) (e_flags r) (e_command_id r) (e_nsid r) (e_cdw2 r) (e_cdw3 r)
    (e_metadata r) (e_cdw10 r) (e_cdw11 r) (f (e_cdw12 r)) (e_cdw13 r) (e_cdw14 r) (e_cdw15
    r).
#[export] Instance set_e_cdw13 : Setter e_cdw13 := λ f r,
  mk_sqe (e_opcode r) (e_flags r) (e_command_id r) (e_nsid r) (e_cdw2 r) (e_cdw3 r)
    (e_metadata r) (e_cdw10 r) (e_cdw11 r) (e_cdw12 r) (f (e_cdw13 r)) (e_cdw14 r) (e_cdw15
    r).
#[export] Instance set_e_cdw14 : Setter e_cdw14 := λ f r,
  mk_sqe (e_opcode r) (e_flags r) (e_command_id r) (e_nsid r) (e_cdw2 r) (e_cdw3 r)
    (e_metadata r) (e_cdw10 r) (e_cdw11 r) (e_cdw12 r) (e_cdw13 r) (f (e_cdw14 r)) (e_cdw15
    r).
#[export] Instance set_e_cdw15 : Setter e_cdw15 := λ f r,
  mk_sqe (e_opcode r) (e_flags r) (e_command_id r) (e_nsid r) (e_cdw2 r) (e_cdw3 r)
    (e_metadata r) (e_cdw10 r) (e_cdw11 r) (e_cdw12 r) (e_cdw13 r) (e_cdw14 r) (f (e_cdw15
    r)).

Definition zero_sqe : nvme_sqe := mk_sqe 0 0 0 0 0 0 0 0 0 0 0 0 0.

(** Stores to the fields of the command formats: rw.slba and zms.slba lie on
    cdw10 and cdw11, rw.length and rw.control on the halves of cdw12,
    rw.dsmgmt on cdw13, rw.reftag on cdw14, rw.apptag and rw.appmask on the
    halves of cdw15; dsm.nr and dsm.attributes on cdw10 and cdw11; zms.zsa
    and zms.select_all on the low bytes of cdw13. *)
Definition put_slba (x : Z) (c : nvme_sqe) : nvme_sqe :=
  c <| e_cdw10 := u32 x |> <| e_cdw11 := u32 (Z.shiftr x 32) |>.
Definition put_length (x : Z) (c : nvme_sqe) : nvme_sqe :=
  c <| e_cdw12 ::= λ w, Z.shiftr w 16 * 2 ^ 16 + u16 x |>.
Definition put_control (x : Z) (c : nvme_sqe) : nvme_sqe :=
  c <| e_cdw12 ::= λ w, u16 w + u16 x * 2 ^ 16 |>.

Inductive req_op : Set :=
  | REQ_OP_READ | REQ_OP_WRITE | REQ_OP_FLUSH | REQ_OP_DISCARD | REQ_OP_WRITE_ZEROES
  | REQ_OP_ZONE_OPEN | REQ_OP_ZONE_CLOSE | REQ_OP_ZONE_FINISH | REQ_OP_ZONE_APPEND
  | REQ_OP_ZONE_RESET | REQ_OP_ZONE_RESET_ALL | REQ_OP_DRV_IN | REQ_OP_DRV_OUT
  | REQ_OP_SECURE_ERASE.

#[export] Instance req_op_eq_dec : EqDecision req_op.
Proof. solve_decision. Defined.

(** The bits of req->cmd_flags these functions test. *)
Record req_flags : Set := mk_rflags {
  f_fua : bool;
  f_rahead : bool;
  f_failfast_dev : bool;
  f_failfast_transport : bool;
  f_failfast_driver : bool;
  f_nounmap : bool;
  f_mpath : bool;
}.

Record cbio : Set := mk_cbio {
  bi_sector : Z;
  bi_size : Z;
  bi_polled : bool;
  bi_nowait : bool;
  bi_on_head : bool;    (* bio_set_dev to the multipath head *)
}.

Record nvme_dsm_range : Set := mk_range { dr_cattr : Z; dr_nlb : Z; dr_slba : Z }.

#[export] Instance nvme_dsm_range_eq_dec : EqDecision nvme_dsm_range.
Proof. solve_decision. Defined.

(** The memory special_vec points to: an allocation or ctrl->discard_page. *)
Inductive payload : Set := PHeap (h : nat) | PDiscardPage.

#[export] Instance payload_eq_dec : EqDecision payload.
Proof. solve_decision. Defined.

(** Where the block layer has the request. *)
Inductive rq_phase : Set := RqIdle | RqInFlight | RqEnded.

#[export] Instance rq_phase_eq_dec : EqDecision rq_phase.
Proof. solve_decision. Defined.

Inductive rq_event : Set :=
  | EvEnd (tag : nat) (st : blk_status)
  | EvRequeue (tag : nat) (delay : Z)
  | EvFailover (tag : nat)
  | EvAnaWork
  | EvAuthWork.

(** struct request with struct nvme_request; [q_special] is special_vec with
    RQF_SPECIAL_PAYLOAD, [q_dontprep] RQF_DONTPREP, [q_cancelled] and
    [q_usercmd] the flags of struct nvme_request. *)
Record core_request : Type := mk_creq {
  q_op : req_op;
  q_flags : req_flags;
  q_pos : Z;
  q_bytes : Z;
  q_segs : Z;
  q_bios : list cbio;
  q_integrity : bool;
  q_tag : Z;
  q_nvme : nvme_request;
  q_retries : Z;
  q_cancelled : bool;
  q_usercmd : bool;
  q_dontprep : bool;
  q_special : option payload;
  q_cmd : nvme_sqe;
  q_deadline : Z;
  q_timeout : Z;
  q_phase : rq_phase;
}.

#[export] Instance set_q_op : Setter q_op := λ f r,
  mk_creq (f (q_op r)) (q_flags r) (q_pos r) (q_bytes r) (q_segs r) (q_bios r)
    (q_integrity r) (q_tag r) (q_nvme r) (q_retries r) (q_cancelled r) (q_usercmd r)
    (q_dontprep r) (q_special r) (q_cmd r) (q_deadline r) (q_timeout r) (q_phase r).
#[export] Instance set_q_flags : Setter q_flags := λ f r,
  mk_creq (q_op r) (f (q_flags r)) (q_pos r) (q_bytes r) (q_segs r) (q_bios r)
    (q_integrity r) (q_tag r) (q_nvme r) (q_retries r) (q_cancelled r) (q_usercmd r)
    (q_dontprep r) (q_special r) (q_cmd r) (q_deadline r) (q_timeout r) (q_phase r).
#[export] Instance set_q_pos : Setter q_pos := λ f r,
  mk_creq (q_op r) (q_flags r) (f (q_pos r)) (q_bytes r) (q_segs r) (q_bios r)
    (q_integrity r) (q_tag r) (q_nvme r) (q_retries r) (q_cancelled r) (q_usercmd r)
    (q_dontprep r) (q_special r) (q_cmd r) (q_deadline r) (q_timeout r) (q_phase r).
#[export] Instance set_q_bytes : Setter q_bytes := λ f r,
  mk_creq (q_op r) (q_flags r) (q_pos r) (f (q_bytes r)) (q_segs r) (q_bios r)
    (q_integrity r) (q_tag r) (q_nvme r) (q_retries r) (q_cancelled r) (q_usercmd r)
    (q_dontprep r) (q_special r) (q_cmd r) (q_deadline r) (q_timeout r) (q_phase r).
#[export] Instance set_q_segs : Setter q_segs := λ f r,
  mk_creq (q_op r) (q_flags r) (q_pos r) (q_bytes r) (f (q_segs r)) (q_bios r)
    (q_integrity r) (q_tag r) (q_nvme r) (q_retries r) (q_cancelled r) (q_usercmd r)
    (q_dontprep r) (q_special r) (q_cmd r) (q_deadline r) (q_timeout r) (q_phase r).
#[export] Instance set_q_bios : Setter q_bios := λ f r,
  mk_creq (q_op r) (q_flags r) (q_pos r) (q_bytes r) (q_segs r) (f (q_bios r))
    (q_integrity r) (q_tag r) (q_nvme r) (q_retries r) (q_cancelled r) (q_usercmd r)
    (q_dontprep r) (q_special r) (q_cmd r) (q_deadline r) (q_timeout r) (q_phase r).
#[export] Instance set_q_integrity : Setter q_integrity := λ f r,
  mk_creq (q_op r) (q_flags r) (q_pos r) (q_bytes r) (q_segs r) (q_bios r) (f (q_integrity
    r)) (q_tag r) (q_nvme r) (q_retries r) (q_cancelled r) (q_usercmd r) (q_dontprep r)
    (q_special r) (q_cmd r) (q_deadline r) (q_timeout r) (q_phase r).
#[export] Instance set_q_tag : Setter q_tag := λ f r,
  mk_creq (q_op r) (q_flags r) (q_pos r) (q_bytes r) (q_segs r) (q_bios r) (q_integrity r)
    (f (q_tag r)) (q_nvme r) (q_retries r) (q_cancelled r) (q_usercmd r) (q_dontprep r)
    (q_special r) (q_cmd r) (q_deadline r) (q_timeout r) (q_phase r).
#[export] Instance set_q_nvme : Setter q_nvme := λ f r,
  mk_creq (q_op r) (q_flags r) (q_pos r) (q_bytes r) (q_segs r) (q_bios r) (q_integrity r)
    (q_tag r) (f (q_nvme r)) (q_retries r) (q_cancelled r) (q_usercmd r) (q_dontprep r)
    (q_special r) (q_cmd r) (q_deadline r) (q_timeout r) (q_phase r).
#[export] Instance set_q_retries : Setter q_retries := λ f r,
  mk_creq (q_op r) (q_flags r) (q_pos r) (q_bytes r) (q_segs r) (q_bios r) (q_integrity r)
    (q_tag r) (q_nvme r) (f (q_retries r)) (q_cancelled r) (q_usercmd r) (q_dontprep r)
    (q_special r) (q_cmd r) (q_deadline r) (q_timeout r) (q_phase r).
#[export] Instance set_q_cancelled : Setter q_cancelled := λ f r,
  mk_creq (q_op r) (q_flags r) (q_pos r) (q_bytes r) (q_segs r) (q_bios r) (q_integrity r)
    (q_tag r) (q_nvme r) (q_retries r) (f (q_cancelled r)) (q_usercmd r) (q_dontprep r)
    (q_special r) (q_cmd r) (q_deadline r) (q_timeout r) (q_phase r).
#[export] Instance set_q_usercmd : Setter q_usercmd := λ f r,
  mk_creq (q_op r) (q_flags r) (q_pos r) (q_bytes r) (q_segs r) (q_bios r) (q_integrity r)
    (q_tag r) (q_nvme r) (q_retries r) (q_cancelled r) (f (q_usercmd r)) (q_dontprep r)
    (q_special r) (q_cmd r) (q_deadline r) (q_timeout r) (q_phase r).
#[export] Instance set_q_dontprep : Setter q_dontprep := λ f r,
  mk_creq (q_op r) (q_flags r) (q_pos r) (q_bytes r) (q_segs r) (q_bios r) (q_integrity r)
    (q_tag r) (q_nvme r) (q_retries r) (q_cancelled r) (q_usercmd r) (f (q_dontprep r))
    (q_special r) (q_cmd r) (q_deadline r) (q_timeout r) (q_phase r).
#[export] Instance set_q_special : Setter q_special := λ f r,
  mk_creq (q_op r) (q_flags r) (q_pos r) (q_bytes r) (q_segs r) (q_bios r) (q_integrity r)
    (q_tag r) (q_nvme r) (q_retries r) (q_cancelled r) (q_usercmd r) (q_dontprep r) (f
    (q_special r)) (q_cmd r) (q_deadline r) (q_timeout r) (q_phase r).
#[export] Instance set_q_cmd : Setter q_cmd := λ f r,
  mk_creq (q_op r) (q_flags r) (q_pos r) (q_bytes r) (q_segs r) (q_bios r) (q_integrity r)
    (q_tag r) (q_nvme r) (q_retries r) (q_cancelled r) (q_usercmd r) (q_dontprep r)
    (q_special r) (f (q_cmd r)) (q_deadline r) (q_timeout r) (q_phase r).
#[export] Instance set_q_deadline : Setter q_deadline := λ f r,
  mk_creq (q_op r) (q_flags r) (q_pos r) (q_bytes r) (q_segs r) (q_bios r) (q_integrity r)
    (q_tag r) (q_nvme r) (q_retries r) (q_cancelled r) (q_usercmd r) (q_dontprep r)
    (q_special r) (q_cmd r) (f (q_deadline r)) (q_timeout r) (q_phase r).
#[export] Instance set_q_timeout : Setter q_timeout := λ f r,
  mk_creq (q_op r) (q_flags r) (q_pos r) (q_bytes r) (q_segs r) (q_bios r) (q_integrity r)
    (q_tag r) (q_nvme r) (q_retries r) (q_cancelled r) (q_usercmd r) (q_dontprep r)
    (q_special r) (q_cmd r) (q_deadline r) (f (q_timeout r)) (q_phase r).
#[export] Instance set_q_phase : Setter q_phase := λ f r,
  mk_creq (q_op r) (q_flags r) (q_pos r) (q_bytes r) (q_segs r) (q_bios r) (q_integrity r)
    (q_tag r) (q_nvme r) (q_retries r) (q_cancelled r) (q_usercmd r) (q_dontprep r)
    (q_special r) (q_cmd r) (q_deadline r) (q_timeout r) (f (q_phase r)).

Record nvme_ns_head : Set := mk_head {
  ns_id : Z;
  lba_shift : Z;
  head_ms : Z;
  pi_type : Z;
  pi_size : Z;
  guard_type : Z;
  ns_deac : bool;          (* features & NVME_NS_DEAC *)
}.

(** What does not change while requests run: the namespace, module
    parameters, quirks, build configuration and the limits of the queue. *)
Record core_cfg : Type := mk_cfg {
  cfg_head : nvme_ns_head;
  s_nvme_max_retries : Z;
  crdt : list Z;
  quirk_deallocate_zeroes : bool;
  queue_max_discard_segments : Z;
  config_nvme_host_auth : bool;
  config_blk_dev_zoned : bool;
  ctrl_kas : Z;
  ka_last_check_time : Z;
  has_ana_log : bool;
}.

(** Answers of the rest of the kernel: kzalloc, the reference tags of the
    integrity layer, whether the queue is dying. *)
Record core_answers : Set := mk_ans {
  an_alloc : bool;
  an_t10_ref_tag : Z;
  an_ext_ref_tag : Z;
  an_dying : bool;
}.

(** [k_ranges]: live allocations of range arrays; [k_discard_page] the
    controller's own array. *)
Record core_state : Type := mk_core {
  k_reqs : gmap nat core_request;
  k_ranges : gmap nat (list nvme_dsm_range);
  k_fresh : nat;
  k_discard_busy : bool;
  k_discard_page : list nvme_dsm_range;
  k_requeue : list cbio;
  k_comp_seen : bool;
  k_log : list rq_event;
}.

#[export] Instance set_k_reqs : Setter k_reqs := λ f r,
  mk_core (f (k_reqs r)) (k_ranges r) (k_fresh r) (k_discard_busy r) (k_discard_page r)
    (k_requeue r) (k_comp_seen r) (k_log r).
#[export] Instance set_k_ranges : Setter k_ranges := λ f r,
  mk_core (k_reqs r) (f (k_ranges r)) (k_fresh r) (k_discard_busy r) (k_discard_page r)
    (k_requeue r) (k_comp_seen r) (k_log r).
#[export] Instance set_k_fresh : Setter k_fresh := λ f r,
  mk_core (k_reqs r) (k_ranges r) (f (k_fresh r)) (k_discard_busy r) (k_discard_page r)
    (k_requeue r) (k_comp_seen r) (k_log r).
#[export] Instance set_k_discard_busy : Setter k_discard_busy := λ f r,
  mk_core (k_reqs r) (k_ranges r) (k_fresh r) (f (k_discard_busy r)) (k_discard_page r)
    (k_requeue r) (k_comp_seen r) (k_log r).
#[export] Instance set_k_discard_page : Setter k_discard_page := λ f r,
  mk_core (k_reqs r) (k_ranges r) (k_fresh r) (k_discard_busy r) (f (k_discard_page r))
    (k_requeue r) (k_comp_seen r) (k_log r).
#[export] Instance set_k_requeue : Setter k_requeue := λ f r,
  mk_core (k_reqs r) (k_ranges r) (k_fresh r) (k_discard_busy r) (k_discard_page r) (f
    (k_requeue r)) (k_comp_seen r) (k_log r).
#[export] Instance set_k_comp_seen : Setter k_comp_seen := λ f r,
  mk_core (k_reqs r) (k_ranges r) (k_fresh r) (k_discard_busy r) (k_discard_page r)
    (k_requeue r) (f (k_comp_seen r)) (k_log r).
#[export] Instance set_k_log : Setter k_log := λ f r,
  mk_core (k_reqs r) (k_ranges r) (k_fresh r) (k_discard_busy r) (k_discard_page r)
    (k_requeue r) (k_comp_seen r) (f (k_log r)).

Definition KM := M core_state.
Definition get_rq (t : nat) : KM core_request :=
  s ← gets id; from_opt NullDeref (k_reqs s !! t).
Definition upd_rq (t : nat) (f : core_request → core_request) : KM unit :=
  r ← get_rq t; modify (λ s, s <| k_reqs ::= <[t := f r]> |>).
Definition upd_cmd (t : nat) (f : nvme_sqe → nvme_sqe) : KM unit :=
  upd_rq t (λ r, r <| q_cmd ::= f |>).
Definition kemit (e : rq_event) : KM unit := modify (λ s, s <| k_log ::= λ l, l ++ [e] |>).

(** ** Blocks and sectors *)

Definition nvme_sect_to_lba (head : nvme_ns_head) (sector : Z) : Z :=
  Z.shiftr sector (lba_shift head - SECTOR_SHIFT).
Definition nvme_lba_to_sect (head : nvme_ns_head) (lba : Z) : Z :=
  u64 (Z.shiftl lba (lba_shift head - SECTOR_SHIFT)).
Definition nvme_ns_has_pi (head : nvme_ns_head) : bool :=
  negb (bool_decide (pi_type head = 0)) && bool_decide (head_ms head = pi_size head).

(** ** The range memory of a discard *)

Definition free_range (p : payload) : KM unit :=
  match p with
  | PDiscardPage => modify (λ s, s <| k_discard_busy := false |>)
  | PHeap h =>
      s ← gets id;
      _ ← from_opt UseAfterFree (k_ranges s !! h);
      modify (λ s, s <| k_ranges ::= delete h |>)
  end.

Definition range_mem (s : core_state) (p : payload) : option (list nvme_dsm_range) :=
  match p with PDiscardPage => Some (k_discard_page s) | PHeap h => k_ranges s !! h end.

(** [range[n] = ...] *)
Definition put_range (p : payload) (n : Z) (x : nvme_dsm_range) : KM unit :=
  s ← gets id;
  l ← from_opt UseAfterFree (range_mem s p);
  if bool_decide (Z.to_nat n < length l)%nat then
    match p with
    | PDiscardPage => modify (λ s, s <| k_discard_page := <[Z.to_nat n := x]> l |>)
    | PHeap h => modify (λ s, s <| k_ranges ::= <[h := <[Z.to_nat n := x]> l]> |>)
    end
  else crash OutOfBounds.

Definition alloc_range (ans : core_answers) : KM (option payload) :=
  s ← gets id;
  if an_alloc ans then
    let h := k_fresh s in
    modify (λ s, s <| k_ranges ::= <[h := replicate NVME_DSM_MAX_RANGES (mk_range 0 0 0)]> |>
                   <| k_fresh ::= S |>);;
    mret (Some (PHeap h))
  else if k_discard_busy s then mret None
  else modify (λ s, s <| k_discard_busy := true |>);; mret (Some PDiscardPage).

(** blk_rq_nr_discard_segments *)
Definition blk_rq_nr_discard_segments (r : core_request) : Z := Z.max (u16 (q_segs r)) 1.

Section setup.
Context (cfg : core_cfg) (ans : core_answers).
Notation head := (cfg_head cfg).

(** The __rq_for_each_bio loop; [n] is an unsigned short. *)
Fixpoint discard_bios (p : payload) (segments n : Z) (bios : list cbio) : KM Z :=
  match bios with
  | [] => mret n
  | b :: bios =>
      let slba := nvme_sect_to_lba head (bi_sector b) in
      let nlb := u32 (Z.shiftr (bi_size b) (lba_shift head)) in
      when (bool_decide (n < segments)) (put_range p n (mk_range 0 nlb slba));;
      discard_bios p segments (u16 (n + 1)) bios
  end.

Definition nvme_setup_discard (t : nat) : KM blk_status :=
  r ← get_rq t;
  let segments := blk_rq_nr_discard_segments r in
  o ← alloc_range ans;
  match o with
  | None => mret BLK_STS_RESOURCE
  | Some p =>
      n ← (if bool_decide (queue_max_discard_segments cfg = 1) then
             let slba := nvme_sect_to_lba head (q_pos r) in
             let nlb := u32 (Z.shiftr (Z.shiftr (q_bytes r) SECTOR_SHIFT) (lba_shift head - 9)) in
             put_range p 0 (mk_range 0 nlb slba);; mret 1
           else discard_bios p segments 0 (q_bios r));
      if negb (bool_decide (n = segments)) then free_range p;; mret BLK_STS_IOERR
      else
        upd_cmd t (λ _, zero_sqe <| e_opcode := nvme_cmd_dsm |> <| e_nsid := ns_id head |>
                          <| e_cdw10 := u32 (segments - 1) |> <| e_cdw11 := NVME_DSMGMT_AD |>);;
        upd_rq t (λ r, r <| q_special := Some p |>);;
        mret BLK_STS_OK
  end.

(** ** Commands *)

Definition nvme_setup_flush (t : nat) : KM unit :=
  upd_cmd t (λ _, zero_sqe <| e_opcode := nvme_cmd_flush |> <| e_nsid := ns_id head |>).

Definition nvme_set_ref_tag (c : nvme_sqe) : nvme_sqe :=
  if bool_decide (guard_type head = NVME_NVM_NS_16B_GUARD) then
    c <| e_cdw14 := u32 (an_t10_ref_tag ans) |>
  else if bool_decide (guard_type head = NVME_NVM_NS_64B_GUARD) then
    let ref48 := an_ext_ref_tag ans in
    c <| e_cdw14 := u32 ref48 |> <| e_cdw3 := u32 (Z.shiftr ref48 32) |>
  else c.

Definition nvme_setup_write_zeroes (t : nat) : KM blk_status :=
  upd_cmd t (λ _, zero_sqe);;
  if quirk_deallocate_zeroes cfg then nvme_setup_discard t
  else
    r ← get_rq t;
    upd_cmd t (λ c,
      let c := c <| e_opcode := nvme_cmd_write_zeroes |> <| e_nsid := ns_id head |> in
      let c := put_slba (nvme_sect_to_lba head (q_pos r)) c in
      let c := put_length (Z.shiftr (q_bytes r) (lba_shift head) - 1) c in
      let control := if negb (f_nounmap (q_flags r)) && ns_deac head then NVME_WZ_DEAC else 0 in
      if nvme_ns_has_pi head then
        let c := put_control (Z.lor control NVME_RW_PRINFO_PRACT) c in
        if bool_decide (pi_type head = 1) || bool_decide (pi_type head = 2)
        then nvme_set_ref_tag c else c
      else put_control control c);;
    mret BLK_STS_OK.

(** rw.control and rw.dsmgmt before protection information. *)
Definition rw_control (f : req_flags) : Z :=
  Z.lor (if f_fua f then NVME_RW_FUA else 0)
        (if f_failfast_dev f || f_rahead f then NVME_RW_LR else 0).
Definition rw_dsmgmt (f : req_flags) : Z := if f_rahead f then NVME_RW_DSM_FREQ_PREFETCH else 0.

Definition nvme_setup_rw (t : nat) (op : Z) : KM blk_status :=
  r ← get_rq t;
  let control := rw_control (q_flags r) in
  upd_cmd t (λ c,
    let c := c <| e_opcode := op |> <| e_flags := 0 |> <| e_nsid := ns_id head |>
               <| e_cdw2 := 0 |> <| e_cdw3 := 0 |> <| e_metadata := 0 |> in
    let c := put_slba (nvme_sect_to_lba head (q_pos r)) c in
    let c := put_length (Z.shiftr (q_bytes r) (lba_shift head) - 1) c in
    c <| e_cdw14 := 0 |> <| e_cdw15 := 0 |>);;
  if negb (bool_decide (head_ms head = 0)) && negb (q_integrity r) && negb (nvme_ns_has_pi head)
  then mret BLK_STS_NOTSUPP
  else
    (if bool_decide (head_ms head = 0) then upd_cmd t (put_control control)
     else
       let control := if q_integrity r then control else Z.lor control NVME_RW_PRINFO_PRACT in
       if bool_decide (pi_type head = 3) then
         upd_cmd t (put_control (Z.lor control NVME_RW_PRINFO_PRCHK_GUARD))
       else if bool_decide (pi_type head = 1) || bool_decide (pi_type head = 2) then
         let control := Z.lor control (Z.lor NVME_RW_PRINFO_PRCHK_GUARD NVME_RW_PRINFO_PRCHK_REF) in
         let control := if bool_decide (op = nvme_cmd_zone_append)
                        then Z.lor control NVME_RW_APPEND_PIREMAP else control in
         upd_cmd t nvme_set_ref_tag;; upd_cmd t (put_control control)
       else upd_cmd t (put_control control));;
    upd_cmd t (λ c, c <| e_cdw13 := rw_dsmgmt (q_flags r) |>);;
    mret BLK_STS_OK.

Definition nvme_setup_zone_mgmt_send (t : nat) (action : Z) : KM blk_status :=
  r ← get_rq t;
  upd_cmd t (λ _,
    put_slba (nvme_sect_to_lba head (q_pos r))
      (zero_sqe <| e_opcode := nvme_cmd_zone_mgmt_send |> <| e_nsid := ns_id head |>)
      <| e_cdw13 := action + (if bool_decide (q_op r = REQ_OP_ZONE_RESET_ALL) then 2 ^ 8 else 0) |>);;
  mret BLK_STS_OK.

Definition nvme_clear_nvme_request (t : nat) : KM unit :=
  upd_rq t (λ r, r <| q_nvme ::= (λ q, q <| nr_status := 0 |>) |> <| q_retries := 0 |>
                   <| q_cancelled := false |> <| q_usercmd := false |> <| q_dontprep := true |>).

Definition snvme_setup_cmd (t : nat) : KM blk_status :=
  r ← get_rq t;
  when (negb (q_dontprep r)) (nvme_clear_nvme_request t);;
  let finish (ret : blk_status) : KM blk_status :=
    r ← get_rq t;
    upd_cmd t (λ c, c <| e_command_id := nvme_cid (q_nvme r) (q_tag r) |>);; mret ret in
  match q_op r with
  | REQ_OP_DRV_IN | REQ_OP_DRV_OUT => finish BLK_STS_OK
  | REQ_OP_FLUSH => nvme_setup_flush t;; finish BLK_STS_OK
  | REQ_OP_ZONE_RESET_ALL | REQ_OP_ZONE_RESET =>
      nvme_setup_zone_mgmt_send t NVME_ZONE_RESET ≫= finish
  | REQ_OP_ZONE_OPEN => nvme_setup_zone_mgmt_send t NVME_ZONE_OPEN ≫= finish
  | REQ_OP_ZONE_CLOSE => nvme_setup_zone_mgmt_send t NVME_ZONE_CLOSE ≫= finish
  | REQ_OP_ZONE_FINISH => nvme_setup_zone_mgmt_send t NVME_ZONE_FINISH ≫= finish
  | REQ_OP_WRITE_ZEROES => nvme_setup_write_zeroes t ≫= finish
  | REQ_OP_DISCARD => nvme_setup_discard t ≫= finish
  | REQ_OP_READ => nvme_setup_rw t nvme_cmd_read ≫= finish
  | REQ_OP_WRITE => nvme_setup_rw t nvme_cmd_write ≫= finish
  | REQ_OP_ZONE_APPEND => nvme_setup_rw t nvme_cmd_zone_append ≫= finish
  | REQ_OP_SECURE_ERASE => mret BLK_STS_IOERR
  end.

End setup.

(** RQF_SPECIAL_PAYLOAD stays set. *)
Definition snvme_cleanup_cmd (t : nat) : KM unit :=
  r ← get_rq t;
  match q_special r with Some p => free_range p | None => mret tt end.

(** ** Completion *)

(** The status field without its CRD, MORE and DNR bits. *)
Definition status_code (status : Z) : Z := Z.land status 2047.

Definition nvme_error_status (status : Z) : blk_status :=
  let sc := status_code status in
  if bool_decide (sc = 0) then BLK_STS_OK                                 (* SUCCESS *)
  else if bool_decide (sc = 129) then BLK_STS_NOSPC                       (* CAP_EXCEEDED 0x81 *)
  else if bool_decide (sc ∈ [128; 33; 130]) then BLK_STS_TARGET
      (* LBA_RANGE 0x80, CMD_INTERRUPTED 0x21, NS_NOT_READY 0x82 *)
  else if bool_decide (sc ∈ [384; 387; 1; 2; 11]) then BLK_STS_NOTSUPP
      (* BAD_ATTRIBUTES 0x180, ONCS_NOT_SUPPORTED 0x183, INVALID_OPCODE 0x1,
         INVALID_FIELD 0x2, INVALID_NS 0xb *)
  else if bool_decide (sc ∈ [640; 641; 647; 646; 386; 645]) then BLK_STS_MEDIUM
      (* WRITE_FAULT 0x280, READ_ERROR 0x281, UNWRITTEN_BLOCK 0x287,
         ACCESS_DENIED 0x286, READ_ONLY 0x182, COMPARE_FAILED 0x285 *)
  else if bool_decide (sc ∈ [642; 643; 644; 385]) then BLK_STS_PROTECTION
      (* GUARD_CHECK 0x282, APPTAG_CHECK 0x283, REFTAG_CHECK 0x284, INVALID_PI 0x181 *)
  else if bool_decide (sc = 131) then BLK_STS_RESV_CONFLICT               (* 0x83 *)
  else if bool_decide (sc = NVME_SC_HOST_PATH_ERROR) then BLK_STS_TRANSPORT
  else if bool_decide (sc = 445) then BLK_STS_ZONE_ACTIVE_RESOURCE        (* 0x1bd *)
  else if bool_decide (sc = 446) then BLK_STS_ZONE_OPEN_RESOURCE          (* 0x1be *)
  else BLK_STS_IOERR.

Definition nvme_is_ana_error (status : Z) : bool :=
  bool_decide (status_code status ∈
    [NVME_SC_ANA_TRANSITION; NVME_SC_ANA_INACCESSIBLE; NVME_SC_ANA_PERSISTENT_LOSS]).
Definition nvme_is_path_error (status : Z) : bool := bool_decide (Z.land status 1792 = 768).

(** linux/blkdev.h *)
Definition blk_noretry_request (r : core_request) : bool :=
  f_failfast_dev (q_flags r) || f_failfast_transport (q_flags r) || f_failfast_driver (q_flags r).

Inductive nvme_disposition : Set := COMPLETE | RETRY | FAILOVER | AUTHENTICATE.

#[export] Instance nvme_disposition_eq_dec : EqDecision nvme_disposition.
Proof. solve_decision. Defined.

Section completion.
Context (cfg : core_cfg) (ans : core_answers).

Definition nvme_decide_disposition (r : core_request) : nvme_disposition :=
  let status := nr_status (q_nvme r) in
  if bool_decide (status = 0) then COMPLETE
  else if bool_decide (status_code status = NVME_SC_AUTH_REQUIRED) then AUTHENTICATE
  else if blk_noretry_request r || negb (bool_decide (Z.land status NVME_STATUS_DNR = 0))
          || bool_decide (s_nvme_max_retries cfg ≤ q_retries r) then COMPLETE
  else if f_mpath (q_flags r) then
    if nvme_is_path_error status || an_dying ans then FAILOVER else RETRY
  else if an_dying ans then COMPLETE else RETRY.

Definition nvme_end_req_zoned (t : nat) : KM unit :=
  r ← get_rq t;
  when (config_blk_dev_zoned cfg && bool_decide (q_op r = REQ_OP_ZONE_APPEND))
    (upd_rq t (λ r, r <| q_pos := nvme_lba_to_sect (cfg_head cfg) (nr_result (q_nvme r)) |>)).

Definition blk_mq_end_request (t : nat) (st : blk_status) : KM unit :=
  upd_rq t (λ r, r <| q_phase := RqEnded |>);; kemit (EvEnd t st).

Definition nvme_end_req (t : nat) : KM unit :=
  r ← get_rq t;
  let status := nvme_error_status (nr_status (q_nvme r)) in
  nvme_end_req_zoned t;;
  blk_mq_end_request t status.

Definition nvme_retry_req (t : nat) : KM unit :=
  r ← get_rq t;
  let crd := Z.shiftr (Z.land (nr_status (q_nvme r)) NVME_STATUS_CRD) 11 in
  delay ← (if bool_decide (crd = 0) then mret 0
           else d ← from_opt OutOfBounds (crdt cfg !! Z.to_nat (crd - 1)); mret (d * 100));
  upd_rq t (λ r, r <| q_retries ::= λ n, u8 (n + 1) |> <| q_phase := RqIdle |>);;
  kemit (EvRequeue t delay).

(** The bios go to the head's requeue list without REQ_POLLED and
    REQ_NOWAIT; the emptied request ends. *)
Definition nvme_failover_req (t : nat) : KM unit :=
  r ← get_rq t;
  when (nvme_is_ana_error (nr_status (q_nvme r)) && has_ana_log cfg) (kemit EvAnaWork);;
  modify (λ s, s <| k_requeue ::= λ l, l ++
    map (λ b, mk_cbio (bi_sector b) (bi_size b) false false true) (q_bios r) |>);;
  upd_rq t (λ r, r <| q_bios := [] |>);;
  blk_mq_end_request t BLK_STS_OK;;
  kemit (EvFailover t).

Definition snvme_complete_rq (t : nat) : KM unit :=
  snvme_cleanup_cmd t;;
  r ← get_rq t;
  when (negb (bool_decide (ctrl_kas cfg = 0))
        && bool_decide (ka_last_check_time cfg ≤ u64 (q_deadline r - q_timeout r)))
    (modify (λ s, s <| k_comp_seen := true |>));;
  match nvme_decide_disposition r with
  | COMPLETE => nvme_end_req t
  | RETRY => nvme_retry_req t
  | FAILOVER => nvme_failover_req t
  | AUTHENTICATE =>
      if config_nvme_host_auth cfg then kemit EvAuthWork;; nvme_retry_req t else nvme_end_req t
  end.

(** snvme_complete_batch_req with the end of the request by the batch. *)
Definition snvme_complete_batch_req (t : nat) : KM unit :=
  snvme_cleanup_cmd t;; nvme_end_req_zoned t;; blk_mq_end_request t BLK_STS_OK.

Definition nvme_host_path_error (t : nat) : KM blk_status :=
  upd_rq t (λ r, r <| q_nvme ::= (λ q, q <| nr_status := NVME_SC_HOST_PATH_ERROR |>) |>);;
  snvme_complete_rq t;;
  mret BLK_STS_OK.

(** blk_mq_complete_request leads to snvme_complete_rq. *)
Definition snvme_cancel_request (t : nat) : KM unit :=
  r ← get_rq t;
  if negb (bool_decide (q_phase r = RqInFlight)) then mret tt
  else
    upd_rq t (λ r, r <| q_nvme ::= (λ q, q <| nr_status := NVME_SC_HOST_ABORTED_CMD |>) |>
                     <| q_cancelled := true |>);;
    snvme_complete_rq t.

(** A completion entry's status and result reach the request. *)
Definition complete_with (t : nat) (status result : Z) : KM unit :=
  upd_rq t (λ r, r <| q_nvme ::= (λ q, q <| nr_status := status |> <| nr_result := result |>) |>);;
  snvme_complete_rq t.

(** ** Commands for a controller that is not ready *)

Definition snvme_fail_nonready_command (c : nvme_ctrl) (t : nat) : KM blk_status :=
  r ← get_rq t;
  let state := nc_state c in
  if negb (bool_decide (state = NVME_CTRL_DELETING_NOIO))
     && negb (bool_decide (state = NVME_CTRL_DELETING))
     && negb (bool_decide (state = NVME_CTRL_DEAD))
     && negb (nc_failfast_expired c)
     && negb (blk_noretry_request r) && negb (f_mpath (q_flags r))
  then mret BLK_STS_RESOURCE
  else nvme_host_path_error t.

End completion.

(** [on_admin]: rq->q is ctrl->admin_q; [fabrics]: NVME_F_FABRICS;
    [connect_cmd]: a passthrough fabrics connect or authentication command. *)
Definition __snvme_check_ready (on_admin fabrics connect_cmd : bool) (r : core_request)
    (queue_live : bool) (state : nvme_ctrl_state) : bool :=
  if on_admin && q_usercmd r then false
  else if fabrics && bool_decide (state = NVME_CTRL_CONNECTING) && connect_cmd then true
  else if fabrics && bool_decide (state = NVME_CTRL_DEAD) then false
  else queue_live.

Definition nvme_check_ready (on_admin fabrics connect_cmd : bool) (r : core_request)
    (queue_live : bool) (state : nvme_ctrl_state) : bool :=
  if bool_decide (state = NVME_CTRL_LIVE) then true
  else if fabrics && bool_decide (state = NVME_CTRL_DELETING) then queue_live
  else __snvme_check_ready on_admin fabrics connect_cmd r queue_live state.

(** ** The driver's queue_rq as the block layer sees it

    [map_ret] is the result of mapping the data, after snvme_setup_cmd; the
    block layer keeps a request it is refused with BLK_STS_RESOURCE and ends
    it on any other error. *)
Section dispatch.
Context (cfg : core_cfg) (ans : core_answers).

Definition queue_rq (on_admin fabrics connect_cmd queue_live : bool) (c : nvme_ctrl)
    (map_ret : blk_status) (t : nat) : KM blk_status :=
  r ← get_rq t;
  if negb (nvme_check_ready on_admin fabrics connect_cmd r queue_live (nc_state c))
  then snvme_fail_nonready_command cfg ans c t
  else
    ret ← snvme_setup_cmd cfg ans t;
    if negb (bool_decide (ret = BLK_STS_OK)) then mret ret
    else if negb (bool_decide (map_ret = BLK_STS_OK)) then snvme_cleanup_cmd t;; mret map_ret
    else upd_rq t (λ r, r <| q_phase := RqInFlight |>);; mret BLK_STS_OK.

Definition dispatch (on_admin fabrics connect_cmd queue_live : bool) (c : nvme_ctrl)
    (map_ret : blk_status) (t : nat) : KM unit :=
  ret ← queue_rq on_admin fabrics connect_cmd queue_live c map_ret t;
  if bool_decide (ret = BLK_STS_OK) || bool_decide (ret = BLK_STS_RESOURCE) then mret tt
  else blk_mq_end_request t ret.

End dispatch.
