(* ===== verification/CoreCmdSpec.v ===== *)
(** * CoreCmdSpec: invariants and specifications of CoreCmd

    The memory of discards as a map [H] from tags to what each request in
    flight holds, the specification of building and completing a request
    against it, and all interleavings of the block layer's calls for the PCI
    transport. *)
From S2P Require Import Prelude.
From S2P Require Import PciData.
From S2P Require Import PciQueue.
From S2P Require Import CoreCtrl.
From S2P Require Import CoreCmd.

(** ** Reference *)

(** Requests whose command is a Dataset Management command. *)
Definition discards (cfg : core_cfg) (r : core_request) : bool :=
  match q_op r with
  | REQ_OP_DISCARD => true
  | REQ_OP_WRITE_ZEROES => quirk_deallocate_zeroes cfg
  | _ => false
  end.

Definition bio_range (cfg : core_cfg) (b : cbio) : nvme_dsm_range :=
  mk_range 0 (u32 (Z.shiftr (bi_size b) (lba_shift (cfg_head cfg))))
    (nvme_sect_to_lba (cfg_head cfg) (bi_sector b)).

(** The ranges a discard has to name. *)
Definition wanted_ranges (cfg : core_cfg) (r : core_request) : list nvme_dsm_range :=
  if bool_decide (queue_max_discard_segments cfg = 1) then
    [mk_range 0 (u32 (Z.shiftr (Z.shiftr (q_bytes r) SECTOR_SHIFT) (lba_shift (cfg_head cfg) - 9)))
       (nvme_sect_to_lba (cfg_head cfg) (q_pos r))]
  else map (bio_range cfg) (q_bios r).

(** What the block layer guarantees of a discard it passes on: at most
    NVME_DSM_MAX_RANGES segments, the limit the driver sets on the queue. *)
Definition rq_wf (r : core_request) : Prop :=
  blk_rq_nr_discard_segments r ≤ Z.of_nat NVME_DSM_MAX_RANGES
  ∧ Z.of_nat (length (q_bios r)) < 2 ^ 16.

(** The block layer's part of a request. *)
Definition rq_same (r r' : core_request) : Prop :=
  q_op r' = q_op r ∧ q_flags r' = q_flags r ∧ q_pos r' = q_pos r ∧ q_bytes r' = q_bytes r
  ∧ q_segs r' = q_segs r ∧ q_bios r' = q_bios r ∧ q_phase r' = q_phase r.

(** ** Memory *)

Definition holds_ranges (s : core_state) (p : payload) (l : list nvme_dsm_range) : Prop :=
  ∃ m, range_mem s p = Some m ∧ take (length l) m = l.

Record mem_ok (H : gmap nat payload) (s : core_state) : Prop := {
  mo_page : length (k_discard_page s) = NVME_DSM_MAX_RANGES;
  mo_ranges : ∀ h l, k_ranges s !! h = Some l →
    length l = NVME_DSM_MAX_RANGES ∧ (h < k_fresh s)%nat ∧ ∃ t, H !! t = Some (PHeap h);
  mo_live : ∀ t h, H !! t = Some (PHeap h) → is_Some (k_ranges s !! h);
  mo_inj : ∀ t t' p, H !! t = Some p → H !! t' = Some p → t = t';
  mo_busy : k_discard_busy s = true ↔ ∃ t, H !! t = Some PDiscardPage;
}.

(** The memory other requests hold is untouched. *)
Definition others_kept (H : gmap nat payload) (s s' : core_state) : Prop :=
  ∀ t p, H !! t = Some p → range_mem s' p = range_mem s p.

Lemma others_kept_trans H s1 s2 s3 :
  others_kept H s1 s2 → others_kept H s2 s3 → others_kept H s1 s3.
Proof. intros H1 H2 t p Hp. by rewrite (H2 t p Hp), (H1 t p Hp). Qed.

(** Only the requests, the log or bookkeeping differ. *)
Definition mem_eq (s s' : core_state) : Prop :=
  k_ranges s' = k_ranges s ∧ k_fresh s' = k_fresh s ∧ k_discard_busy s' = k_discard_busy s
  ∧ k_discard_page s' = k_discard_page s.

Lemma mem_eq_refl s : mem_eq s s.
Proof. done. Qed.

#[export] Instance mem_eq_preorder : PreOrder mem_eq.
Proof. split; [done|]. intros s1 s2 s3 (?&?&?&?) (?&?&?&?). unfold mem_eq. split_and!; congruence. Qed.

Lemma mem_eq_ok H s s' : mem_eq s s' → mem_ok H s → mem_ok H s'.
Proof. intros (Hr & Hf & Hb & Hp) [? ? ? ? ?]. split; rewrite ?Hr, ?Hf, ?Hb, ?Hp; auto. Qed.

Lemma mem_eq_range s s' p : mem_eq s s' → range_mem s' p = range_mem s p.
Proof. intros (Hr & _ & _ & Hp). destruct p; cbn; congruence. Qed.

Lemma mem_eq_others H s s' : mem_eq s s' → others_kept H s s'.
Proof. intros He t p _. by apply mem_eq_range. Qed.

Definition set_mem (p : payload) (l : list nvme_dsm_range) (s : core_state) : core_state :=
  match p with
  | PDiscardPage => s <| k_discard_page := l |>
  | PHeap h => s <| k_ranges ::= <[h := l]> |>
  end.

Lemma range_mem_set p l s : range_mem (set_mem p l s) p = Some l.
Proof. destruct p; cbn; [by rewrite lookup_insert_eq|done]. Qed.

Lemma range_mem_set_ne p q l s : p ≠ q → range_mem (set_mem p l s) q = range_mem s q.
Proof. intros Hne. destruct p, q; cbn; try done. rewrite lookup_insert_ne; congruence. Qed.

Lemma set_mem_reqs p l s : k_reqs (set_mem p l s) = k_reqs s.
Proof. by destruct p. Qed.

Lemma set_mem_set p l l' s : set_mem p l (set_mem p l' s) = set_mem p l s.
Proof. destruct p; cbn; [|done]. unfold set; cbn. destruct s; unfold set_k_ranges; cbn. by rewrite insert_insert_eq. Qed.

Lemma mem_ok_length H s p l :
  mem_ok H s → range_mem s p = Some l → length l = NVME_DSM_MAX_RANGES.
Proof. intros Hm E. destruct p; cbn in E; [by apply (mo_ranges H s Hm) in E as [? _]|]. simplify_eq. apply Hm. Qed.

Lemma set_mem_ok H s t p l :
  mem_ok H s → H !! t = Some p → length l = NVME_DSM_MAX_RANGES → mem_ok H (set_mem p l s).
Proof.
  intros [Hp Hr Hl Hi Hb] Ht Hlen. destruct p as [h|]; split; cbn; auto.
  - intros h' l' E. destruct (decide (h' = h)) as [->|Hne].
    + rewrite lookup_insert_eq in E. simplify_eq. split_and!; [done| |by exists t].
      destruct (Hl t h Ht) as [l0 E0]. by apply Hr in E0 as (_ & ? & _).
    + rewrite lookup_insert_ne in E by done. by apply Hr in E.
  - intros t' h' Ht'. destruct (decide (h' = h)) as [->|Hne]; [rewrite lookup_insert_eq; by eexists|].
    rewrite lookup_insert_ne by done. by apply (Hl t').
Qed.

Lemma set_mem_others H s t p l :
  mem_ok H s → H !! t = Some p → others_kept (delete t H) s (set_mem p l s).
Proof.
  intros Hm Ht t' q Hq. apply lookup_delete_Some in Hq as [Hne Hq]. apply range_mem_set_ne.
  intros ->. apply Hne. by eapply (mo_inj H s Hm).
Qed.

(** ** Allocation and release *)

#[local] Arguments replicate : simpl never.

Lemma alloc_range_ok ans H s t :
  mem_ok H s → H !! t = None →
  wp (alloc_range ans) (λ r s', match r with
    | Ok (Some p) => mem_ok (<[t := p]> H) s' ∧ others_kept H s s' ∧ k_reqs s' = k_reqs s
    | Ok None => s' = s ∧ an_alloc ans = false ∧ ∃ t', H !! t' = Some PDiscardPage
    | _ => False
    end) s.
Proof.
  intros [Hp Hr Hl Hi Hb] Ht. unfold alloc_range. apply wp_bind, wp_gets. cbn.
  assert (∀ t', H !! t' ≠ Some (PHeap (k_fresh s))) as Hfresh.
  { intros t' E. destruct (Hl t' _ E) as [l El]. apply Hr in El as (_ & ? & _). lia. }
  destruct (an_alloc ans) eqn:Ea.
  - wp_steps. split_and!; [|intros t' p Hq; destruct p as [h|]; cbn; [|done]; apply lookup_insert_ne; intros <-; by eapply Hfresh|done].
    split; cbn; auto.
    + intros h l E. destruct (decide (h = k_fresh s)) as [->|Hne].
      * rewrite lookup_insert_eq in E. simplify_eq. rewrite length_replicate. split_and!; [done|lia|].
        exists t. by rewrite lookup_insert_eq.
      * rewrite lookup_insert_ne in E by done. apply Hr in E as (? & ? & t' & Et').
        split_and!; [done|lia|]. exists t'. rewrite lookup_insert_ne; [done|]. intros <-. congruence.
    + intros t' h E. destruct (decide (t' = t)) as [->|Hne].
      * rewrite lookup_insert_eq in E. simplify_eq. rewrite lookup_insert_eq. by eexists.
      * rewrite lookup_insert_ne in E by done. rewrite lookup_insert_ne; [by apply (Hl t')|].
        intros <-. by eapply Hfresh.
    + intros t1 t2 p E1 E2. apply lookup_insert_Some in E1 as [[<- <-]|[Hn1 E1]];
        apply lookup_insert_Some in E2 as [[<- E2]|[Hn2 E2]]; try done; try (by exfalso; eapply Hfresh; subst; eauto).
      by eapply Hi.
    + rewrite Hb. split; intros [t' E]; exists t'.
      * rewrite lookup_insert_ne; [done|]. intros <-. congruence.
      * by apply lookup_insert_Some in E as [[_ ?]|[_ ?]].
  - destruct (k_discard_busy s) eqn:Eb; wp_steps.
    { split_and!; [done..|]. by apply Hb. }
    assert (∀ t', H !! t' ≠ Some PDiscardPage) as Hno.
    { intros t' E. enough (false = true) by done. rewrite <- Eb at 1. rewrite Eb. apply Hb. by exists t'. }
    split_and!; [|by intros t' [h|] Hq; cbn|done].
    split; cbn; auto.
    + intros h l E. apply Hr in E as (? & ? & t' & Et'). split_and!; [done..|]. exists t'.
      rewrite lookup_insert_ne; [done|]. intros <-. congruence.
    + intros t' h E. apply lookup_insert_Some in E as [[_ ?]|[_ E]]; [done|]. by apply (Hl t').
    + intros t1 t2 p E1 E2. apply lookup_insert_Some in E1 as [[<- <-]|[Hn1 E1]];
        apply lookup_insert_Some in E2 as [[<- E2]|[Hn2 E2]]; try done; try (by exfalso; eapply Hno; subst; eauto).
      by eapply Hi.
    + split; [|done]. intros _. exists t. by rewrite lookup_insert_eq.
Qed.

Lemma free_range_ok H s t p :
  mem_ok H s → H !! t = Some p →
  wp (free_range p) (λ r s', r = Ok tt ∧ mem_ok (delete t H) s' ∧ others_kept (delete t H) s s'
    ∧ k_reqs s' = k_reqs s) s.
Proof.
  intros Hm Ht. pose proof Hm as [Hp Hr Hl Hi Hb]. unfold free_range. destruct p as [h|].
  - apply wp_bind, wp_gets. cbn. destruct (Hl t h Ht) as [l El]. apply wp_bind.
    eapply wp_from_opt; [exact El|]. cbn. apply wp_modify. split_and!; [done| | |done].
    + split; cbn; auto.
      * intros h' l' E. apply lookup_delete_Some in E as [Hne E]. apply Hr in E as (? & ? & t' & Et').
        split_and!; [done..|]. exists t'. rewrite lookup_delete_ne; [done|]. intros <-. congruence.
      * intros t' h' E. apply lookup_delete_Some in E as [Hne E]. rewrite lookup_delete_ne; [by apply (Hl t')|].
        intros <-. apply Hne. by eapply Hi.
      * intros t1 t2 q E1 E2. apply lookup_delete_Some in E1 as [_ E1], E2 as [_ E2]. by eapply Hi.
      * rewrite Hb. split; intros [t' E]; exists t'.
        -- rewrite lookup_delete_ne; [done|]. intros <-. congruence.
        -- by apply lookup_delete_Some in E as [_ ?].
    + intros t' q E. apply lookup_delete_Some in E as [Hne E]. destruct q as [h'|]; cbn; [|done].
      rewrite lookup_delete_ne; [done|]. intros <-. apply Hne. by eapply Hi.
  - apply wp_modify. split_and!; [done| |by intros t' [] E; cbn|done]. split; cbn; auto.
    + intros h' l' E. apply Hr in E as (? & ? & t' & Et').
      split_and!; [done..|]. exists t'. rewrite lookup_delete_ne; [done|]. intros <-. congruence.
    + intros t' h' E. apply lookup_delete_Some in E as [Hne E]. by apply (Hl t').
    + intros t1 t2 q E1 E2. apply lookup_delete_Some in E1 as [_ E1], E2 as [_ E2]. by eapply Hi.
    + split; [done|]. intros [t' E]. apply lookup_delete_Some in E as [Hne E]. exfalso. apply Hne. by eapply Hi.
Qed.

(** ** Requests *)

Lemma wp_get_rq t r s Q : k_reqs s !! t = Some r → Q (Ok r) s → wp (get_rq t) Q s.
Proof. intros E HQ. unfold get_rq. apply wp_bind, wp_gets. cbn. by eapply wp_from_opt. Qed.

Lemma wp_upd_rq t r f s Q :
  k_reqs s !! t = Some r → Q (Ok tt) (s <| k_reqs ::= <[t := f r]> |>) → wp (upd_rq t f) Q s.
Proof. intros E HQ. unfold upd_rq. apply wp_bind. eapply wp_get_rq; [exact E|]. by apply wp_modify. Qed.

Lemma wp_put_range p n x l s Q :
  range_mem s p = Some l → (Z.to_nat n < length l)%nat →
  Q (Ok tt) (set_mem p (<[Z.to_nat n := x]> l) s) → wp (put_range p n x) Q s.
Proof.
  intros E Hn HQ. unfold put_range. apply wp_bind, wp_gets. cbn. apply wp_bind.
  eapply wp_from_opt; [exact E|]. cbn. rewrite bool_decide_true by done. by destruct p.
Qed.

Lemma take_S_insert {A} (l : list A) n x :
  (n < length l)%nat → take (S n) (<[n := x]> l) = take n l ++ [x].
Proof.
  intros Hn. rewrite (take_S_r _ _ x) by (by apply list_lookup_insert_eq).
  by rewrite take_insert_ge by lia.
Qed.

Lemma discard_bios_ok cfg p segments n bios l s :
  range_mem s p = Some l → length l = NVME_DSM_MAX_RANGES → segments ≤ Z.of_nat NVME_DSM_MAX_RANGES →
  0 ≤ n → n + Z.of_nat (length bios) < 2 ^ 16 →
  wp (discard_bios cfg p segments n bios) (λ r s', r = Ok (n + Z.of_nat (length bios))
    ∧ ∃ l', s' = set_mem p l' s ∧ length l' = NVME_DSM_MAX_RANGES
      ∧ (n + Z.of_nat (length bios) ≤ segments →
         take (Z.to_nat n + length bios) l' = take (Z.to_nat n) l ++ map (bio_range cfg) bios)) s.
Proof.
  revert n l s. induction bios as [|b bios IH]; intros n l s El Hl Hs Hn Hb; cbn [discard_bios].
  - apply wp_ret. split; [f_equal; cbn; lia|]. exists l. split_and!; [|done|].
    + by destruct p, s; cbn in *; simplify_eq; unfold set; cbn; unfold set_k_ranges, set_k_discard_page; cbn; rewrite ?insert_id.
    + intros _. cbn. by rewrite Nat.add_0_r, app_nil_r.
  - cbn [length] in *. rewrite Nat2Z.inj_succ in *.
    assert (u16 (n + 1) = n + 1) as En by (apply wrap_small; lia). rewrite En.
    apply wp_bind, wp_when; intros Hd.
    + apply bool_decide_eq_true in Hd. eapply wp_put_range; [exact El|unfold NVME_DSM_MAX_RANGES in *; lia|]. cbn.
      eapply wp_mono; [apply (IH (n + 1) (<[Z.to_nat n := bio_range cfg b]> l)); [apply range_mem_set|by rewrite length_insert|done|lia|lia]|].
      intros r s' (-> & l' & -> & Hl' & Ht). split; [f_equal; lia|]. exists l'. rewrite set_mem_set. split_and!; [done..|].
      intros Hle. specialize (Ht ltac:(lia)).
      replace (Z.to_nat (n + 1)) with (S (Z.to_nat n)) in Ht by lia.
      replace (Z.to_nat n + S (length bios))%nat with (S (Z.to_nat n) + length bios)%nat by lia.
      rewrite Ht, take_S_insert by (unfold NVME_DSM_MAX_RANGES in *; lia). by rewrite <- app_assoc.
    + apply bool_decide_eq_false in Hd. cbn.
      eapply wp_mono; [apply (IH (n + 1) l); [done|done|done|lia|lia]|].
      intros r s' (-> & l' & -> & Hl' & Ht). split; [f_equal; lia|]. exists l'. split_and!; [done..|]. lia.
Qed.

(** ** Building a command *)

(** The driver's own fields after a command is built. *)
Definition rq_prepped (r r' : core_request) : Prop :=
  q_dontprep r' = true ∧ q_retries r' = (if q_dontprep r then q_retries r else 0).

Lemma setup_discard_ok cfg ans H t r s :
  mem_ok H s → H !! t = None → k_reqs s !! t = Some r → rq_wf r →
  wp (nvme_setup_discard cfg ans t) (λ res s', ∃ r', k_reqs s' = <[t := r']> (k_reqs s)
    ∧ rq_same r r' ∧ q_dontprep r' = q_dontprep r ∧ q_retries r' = q_retries r ∧ others_kept H s s'
    ∧ match res with
      | Ok BLK_STS_OK => ∃ p, q_special r' = Some p ∧ mem_ok (<[t := p]> H) s'
          ∧ holds_ranges s' p (wanted_ranges cfg r')
      | Ok _ => q_special r' = q_special r ∧ mem_ok H s'
      | _ => False
      end) s.
Proof.
  intros Hm Ht Er [Hw1 Hw2]. unfold nvme_setup_discard. apply wp_bind. eapply wp_get_rq; [exact Er|].
  apply wp_bind. eapply wp_mono; [by apply (alloc_range_ok ans H s t)|].
  intros [[p|]| |] s1 Ha; try done; cbv beta iota.
  2: { destruct Ha as (-> & _). apply wp_ret. exists r. rewrite insert_id by done. done. }
  destruct Ha as (Hm1 & Ho1 & Eq1).
  assert (<[t := p]> H !! t = Some p) as Hp by apply lookup_insert_eq.
  assert (delete t (<[t := p]> H) = H) as EH by (rewrite delete_insert_eq; by apply delete_id).
  assert (∃ l, range_mem s1 p = Some l) as [l El].
  { destruct p as [h|]; [|by eexists]. destruct (mo_live _ _ Hm1 t h Hp) as [l ?]. by exists l. }
  pose proof (mem_ok_length _ _ _ _ Hm1 El) as Hl.
  apply wp_bind.
  eapply (wp_mono _ (λ res s2, ∃ n l', res = Ok n ∧ s2 = set_mem p l' s1 ∧ length l' = NVME_DSM_MAX_RANGES
    ∧ (n = blk_rq_nr_discard_segments r →
       take (length (wanted_ranges cfg r)) l' = wanted_ranges cfg r))).
  { unfold wanted_ranges. case_bool_decide.
    - apply wp_bind. eapply wp_put_range; [exact El|rewrite Hl; unfold NVME_DSM_MAX_RANGES; lia|]. apply wp_ret.
      eexists _, _. split_and!; [done..|by rewrite length_insert|]. intros _. cbn [length].
      change (Z.to_nat 0) with 0%nat. rewrite take_S_insert by (rewrite Hl; unfold NVME_DSM_MAX_RANGES; lia). done.
    - eapply wp_mono; [apply (discard_bios_ok cfg p _ 0 (q_bios r) l); [exact El|exact Hl|exact Hw1|lia|lia]|].
      intros res s2 (-> & l' & -> & Hl' & Hc). eexists _, l'. split_and!; [done..|].
      intros E. rewrite length_map. apply Hc. lia. }
  intros res s2 (n & l' & -> & -> & Hl' & Hc). cbv beta iota.
  assert (mem_ok (<[t := p]> H) (set_mem p l' s1)) as Hm2 by (by eapply set_mem_ok).
  assert (others_kept H s (set_mem p l' s1)) as Ho2.
  { eapply others_kept_trans; [exact Ho1|]. rewrite <- EH at 1. by eapply set_mem_others. }
  case_bool_decide as En; cbn [negb].
  - apply wp_bind. unfold upd_cmd. eapply wp_upd_rq; [rewrite set_mem_reqs, Eq1; exact Er|]. cbv beta iota.
    apply wp_bind. eapply wp_upd_rq; [apply lookup_insert_eq|]. apply wp_ret. cbv beta iota.
    match goal with |- ∃ r', k_reqs ?x = _ ∧ _ => assert (mem_eq (set_mem p l' s1) x) as He by done end.
    eexists. split_and!; [cbn; by rewrite set_mem_reqs, Eq1, insert_insert_eq|done..| |].
    + eapply others_kept_trans; [exact Ho2|]. by apply mem_eq_others.
    + exists p. split_and!; [done|by eapply mem_eq_ok|]. exists l'. split; [|by apply Hc].
      rewrite (mem_eq_range _ _ p He). apply range_mem_set.
  - apply wp_bind. eapply wp_mono; [by eapply free_range_ok|]. intros res s3 (-> & Hm3 & Ho3 & Eq3). apply wp_ret.
    rewrite EH in Hm3, Ho3. exists r. rewrite Eq3, set_mem_reqs, Eq1, insert_id by done.
    split_and!; [done..| |done|done]. by eapply others_kept_trans.
Qed.

(** Programs that only write the command of request [t]. *)
Definition put_cmd (t : nat) (r : core_request) (c : nvme_sqe) (s : core_state) : core_state :=
  s <| k_reqs ::= <[t := r <| q_cmd := c |>]> |>.

Definition cmd_prog {A} (t : nat) (m : KM A) : Prop :=
  ∀ s r, k_reqs s !! t = Some r → ∃ a c, m s = (Ok a, put_cmd t r c s).

Lemma put_cmd_same t r s : k_reqs s !! t = Some r → put_cmd t r (q_cmd r) s = s.
Proof.
  intros E. unfold put_cmd, set, set_k_reqs, set_q_cmd. destruct s, r; cbn in *. by rewrite insert_id.
Qed.

Lemma put_cmd_put t r c c' s : put_cmd t (r <| q_cmd := c |>) c' (put_cmd t r c s) = put_cmd t r c' s.
Proof. unfold put_cmd, set, set_k_reqs, set_q_cmd. destruct s, r; cbn. by rewrite insert_insert_eq. Qed.

Lemma put_cmd_lookup t r c s : k_reqs (put_cmd t r c s) !! t = Some (r <| q_cmd := c |>).
Proof. apply lookup_insert_eq. Qed.

Lemma cmd_prog_ret {A} t (a : A) : cmd_prog t (mret a : KM A).
Proof. intros s r E. exists a, (q_cmd r). by rewrite put_cmd_same. Qed.

Lemma cmd_prog_bind {A B} t (m : KM A) (k : A → KM B) :
  cmd_prog t m → (∀ a, cmd_prog t (k a)) → cmd_prog t (m ≫= k).
Proof.
  intros Hm Hk s r E. destruct (Hm s r E) as (a & c & Em).
  destruct (Hk a _ _ (put_cmd_lookup t r c s)) as (b & c' & Ek). exists b, c'.
  rewrite (bind_ok _ _ _ _ _ Em), Ek. by rewrite put_cmd_put.
Qed.

Lemma cmd_prog_get t : cmd_prog t (get_rq t).
Proof.
  intros s r E. exists r, (q_cmd r). rewrite put_cmd_same by done.
  unfold get_rq, mbind, M_bind, gets. cbn. by rewrite E.
Qed.

Lemma upd_rq_eq t r f s :
  k_reqs s !! t = Some r → upd_rq t f s = (Ok tt, s <| k_reqs ::= <[t := f r]> |>).
Proof. intros E. unfold upd_rq, get_rq, mbind, M_bind, gets, modify. cbn. by rewrite E. Qed.

Lemma upd_cmd_eq t r f s :
  k_reqs s !! t = Some r → upd_cmd t f s = (Ok tt, put_cmd t r (f (q_cmd r)) s).
Proof. intros E. unfold upd_cmd. by rewrite (upd_rq_eq _ r). Qed.

Lemma cmd_prog_upd t f : cmd_prog t (upd_cmd t f).
Proof.
  intros s r E. exists tt, (f (q_cmd r)). by apply upd_cmd_eq.
Qed.

#[export] Hint Resolve cmd_prog_ret cmd_prog_bind cmd_prog_get cmd_prog_upd : snvme.

Ltac cmd_prog_solve :=
  repeat match goal with
  | |- cmd_prog _ (if ?b then _ else _) => destruct b
  | |- cmd_prog _ (mbind _ _) => apply cmd_prog_bind; [|intros ?]
  | |- cmd_prog _ (let _ := _ in _) => cbv zeta
  end; eauto with snvme.

Lemma setup_rw_prog cfg ans t op : cmd_prog t (nvme_setup_rw cfg ans t op).
Proof. unfold nvme_setup_rw. cmd_prog_solve. Qed.

Lemma setup_zone_prog cfg t a : cmd_prog t (nvme_setup_zone_mgmt_send cfg t a).
Proof. unfold nvme_setup_zone_mgmt_send. cmd_prog_solve. Qed.

Lemma setup_wz_prog cfg ans t :
  quirk_deallocate_zeroes cfg = false → cmd_prog t (nvme_setup_write_zeroes cfg ans t).
Proof. intros E. unfold nvme_setup_write_zeroes. rewrite E. cmd_prog_solve. Qed.

#[export] Hint Resolve setup_rw_prog setup_zone_prog setup_wz_prog : snvme.

(** What building a command may do; [BLK_STS_OK] hands the payload of a
    discard to the request. *)
Definition setup_post (cfg : core_cfg) (H : gmap nat payload) (t : nat) (r : core_request) (s : core_state)
    (res : outcome blk_status) (s' : core_state) : Prop :=
  ∃ r', k_reqs s' = <[t := r']> (k_reqs s) ∧ rq_same r r' ∧ rq_prepped r r' ∧ others_kept H s s'
    ∧ match res with
      | Ok BLK_STS_OK =>
          if discards cfg r then
            ∃ p, q_special r' = Some p ∧ mem_ok (<[t := p]> H) s' ∧ holds_ranges s' p (wanted_ranges cfg r')
          else q_special r' = q_special r ∧ mem_ok H s'
      | Ok _ => q_special r' = q_special r ∧ mem_ok H s'
      | _ => False
      end.

(** The first step of snvme_setup_cmd. *)
Definition cleared (r : core_request) : core_request :=
  if q_dontprep r then r
  else r <| q_nvme ::= (λ q, q <| nr_status := 0 |>) |> <| q_retries := 0 |>
         <| q_cancelled := false |> <| q_usercmd := false |> <| q_dontprep := true |>.

Lemma clear_eq t r s :
  k_reqs s !! t = Some r →
  when (negb (q_dontprep r)) (nvme_clear_nvme_request t) s
    = (Ok tt, s <| k_reqs ::= <[t := cleared r]> |>).
Proof.
  intros E. unfold cleared. destruct (q_dontprep r); cbn.
  - unfold mret, M_ret. f_equal. unfold set, set_k_reqs. destruct s; cbn in *. by rewrite insert_id.
  - unfold nvme_clear_nvme_request. by rewrite (upd_rq_eq _ r).
Qed.

(** The last step. *)
Lemma wp_finish t ret (Q : outcome blk_status → core_state → Prop) s r :
  k_reqs s !! t = Some r →
  Q (Ok ret) (put_cmd t r ((q_cmd r) <| e_command_id := nvme_cid (q_nvme r) (q_tag r) |>) s) →
  wp (r ← get_rq t; upd_cmd t (λ c, c <| e_command_id := nvme_cid (q_nvme r) (q_tag r) |>);; mret ret) Q s.
Proof.
  intros E HQ. apply wp_bind. eapply wp_get_rq; [exact E|]. apply wp_bind. eapply wp_upd_rq; [exact E|].
  by apply wp_ret.
Qed.

Lemma wp_bind_ret {S A B} (m : M S unit) (a : A) (k : A → M S B) Q s :
  wp ((m;; mret a) ≫= k) Q s → wp (m;; k a) Q s.
Proof. unfold wp, mbind, M_bind. by destruct (m s) as [[]?]. Qed.

(** Writing the command touches neither the other fields nor memory. *)
Lemma setup_post_put_cmd cfg H t r s res s' r1 c :
  setup_post cfg H t r s res s' → k_reqs s' !! t = Some r1 → setup_post cfg H t r s res (put_cmd t r1 c s').
Proof.
  intros (r' & Er & Hs & Hp & Ho & Hres) E. rewrite Er, lookup_insert_eq in E. simplify_eq.
  assert (mem_eq s' (put_cmd t r1 c s')) as He by done.
  exists (r1 <| q_cmd := c |>). split_and!; [cbn; by rewrite Er, insert_insert_eq|done|done| |].
  - eapply others_kept_trans; [exact Ho|by apply mem_eq_others].
  - destruct res as [[]| |]; try done; try (destruct Hres as [? Hm]; split; [done|by eapply mem_eq_ok]).
    destruct (discards cfg r).
    + destruct Hres as (p & Hsp & Hm & m & Em & Ht). exists p. split_and!; [done|by eapply mem_eq_ok|].
      exists m. by rewrite (mem_eq_range _ _ p He).
    + destruct Hres as [? Hm]. split; [done|by eapply mem_eq_ok].
Qed.

Lemma cleared_same r : rq_same r (cleared r) ∧ rq_prepped r (cleared r) ∧ q_special (cleared r) = q_special r.
Proof. unfold cleared, rq_same, rq_prepped. by destruct (q_dontprep r) eqn:E; cbn; rewrite ?E. Qed.

Lemma discards_same cfg r r' : rq_same r r' → discards cfg r' = discards cfg r.
Proof. intros (E & _). unfold discards. by rewrite E. Qed.

Lemma rq_wf_same r r' : rq_same r r' → rq_wf r → rq_wf r'.
Proof.
  intros (_ & _ & _ & _ & Es & Eb & _). unfold rq_wf, blk_rq_nr_discard_segments. by rewrite Es, Eb.
Qed.

Lemma rq_same_trans r1 r2 r3 : rq_same r1 r2 → rq_same r2 r3 → rq_same r1 r3.
Proof. intros (?&?&?&?&?&?&?) (?&?&?&?&?&?&?). unfold rq_same. split_and!; congruence. Qed.

Section setup_cases.
Context (cfg : core_cfg) (ans : core_answers) (H : gmap nat payload) (t : nat) (r : core_request) (s : core_state).
Context (Hm : mem_ok H s) (Ht : H !! t = None) (Er : k_reqs s !! t = Some r) (Hw : rq_wf r).
Notation s1 := (s <| k_reqs ::= <[t := cleared r]> |>).
Notation finish ret :=
  (r0 ← get_rq t; upd_cmd t (λ c, c <| e_command_id := nvme_cid (q_nvme r0) (q_tag r0) |>);; mret ret).

(** Commands without a payload. *)
Lemma setup_plain (m : KM blk_status) :
  cmd_prog t m → discards cfg r = false → wp (m ≫= λ ret, finish ret) (setup_post cfg H t r s) s1.
Proof.
  intros Hc Hd. destruct (Hc s1 (cleared r)) as (ret & c & E); [apply lookup_insert_eq|].
  apply wp_bind. eapply wp_eq; [exact E|]. cbv beta iota.
  eapply wp_finish; [apply put_cmd_lookup|]. rewrite put_cmd_put.
  destruct (cleared_same r) as (H1 & H2 & H3).
  eexists. split_and!; [cbn; by rewrite insert_insert_eq|exact H1|exact H2|by apply mem_eq_others|].
  rewrite Hd. destruct ret; (split; [exact H3|by eapply mem_eq_ok, Hm]).
Qed.

(** Discards, also when a Write Zeroes has cleared the command before. *)
Lemma setup_discard_case c :
  discards cfg r = true →
  wp (nvme_setup_discard cfg ans t ≫= λ ret, finish ret) (setup_post cfg H t r s) (put_cmd t (cleared r) c s1).
Proof.
  intros Hd. destruct (cleared_same r) as (H1 & H2 & H3).
  set (s2 := put_cmd t (cleared r) c s1). assert (mem_eq s s2) as He by done.
  apply wp_bind. eapply wp_mono.
  { apply (setup_discard_ok cfg ans H t ((cleared r) <| q_cmd := c |>) s2);
      [by eapply mem_eq_ok|done|apply put_cmd_lookup|]. eapply rq_wf_same; [|exact Hw]. exact H1. }
  intros res s' (r' & Er' & Hs & Hdp & Hrt & Ho & Hres).
  assert (setup_post cfg H t r s res s') as Hpost.
  { exists r'. split_and!.
    - rewrite Er'. cbn. by rewrite !insert_insert_eq.
    - by eapply rq_same_trans; [exact H1|].
    - destruct H2 as [H2a H2b]. split; [by rewrite Hdp|by rewrite Hrt].
    - eapply others_kept_trans; [by apply (mem_eq_others H s s2)|done].
    - rewrite Hd. destruct res as [[]| |]; try done; (destruct Hres as [Hsp ?]; split; [rewrite Hsp; exact H3|done]). }
  destruct res as [ret|e|f]; [|by destruct Hpost as (? & _ & _ & _ & _ & [])..].
  eapply wp_finish; [rewrite Er'; apply lookup_insert_eq|].
  eapply setup_post_put_cmd; [exact Hpost|rewrite Er'; apply lookup_insert_eq].
Qed.

Lemma setup_cmd_ok : wp (snvme_setup_cmd cfg ans t) (setup_post cfg H t r s) s.
Proof.
  unfold snvme_setup_cmd. apply wp_bind. eapply wp_get_rq; [exact Er|].
  apply wp_bind. eapply wp_eq; [by apply clear_eq|]. cbv beta iota zeta.
  assert (discards cfg r = match q_op r with REQ_OP_DISCARD => true
    | REQ_OP_WRITE_ZEROES => quirk_deallocate_zeroes cfg | _ => false end) as Hd by done.
  destruct (q_op r) eqn:Eo; try (apply setup_plain; [by auto with snvme|done]).
  - apply (wp_bind_ret _ BLK_STS_OK (λ ret, finish ret)), setup_plain; [unfold nvme_setup_flush; cmd_prog_solve|done].
  - rewrite <- (put_cmd_same t (cleared r) s1) by apply lookup_insert_eq. by apply setup_discard_case.
  - destruct (quirk_deallocate_zeroes cfg) eqn:Eq; [|apply setup_plain; [by auto with snvme|done]].
    unfold nvme_setup_write_zeroes. rewrite Eq.
    pose proof (setup_discard_case zero_sqe Hd) as Hw'. unfold wp, mbind, M_bind in Hw' |- *.
    rewrite (upd_cmd_eq t (cleared r)) by apply lookup_insert_eq. exact Hw'.
  - change (wp (mret BLK_STS_OK ≫= λ ret, finish ret) (setup_post cfg H t r s) s1).
    apply setup_plain; [cmd_prog_solve|done].
  - change (wp (mret BLK_STS_OK ≫= λ ret, finish ret) (setup_post cfg H t r s) s1).
    apply setup_plain; [cmd_prog_solve|done].
  - apply wp_ret. destruct (cleared_same r) as (H1 & H2 & H3).
    exists (cleared r). split_and!; [done|exact H1|exact H2|by apply mem_eq_others|exact H3|].
    by eapply mem_eq_ok; [|exact Hm].
Qed.
End setup_cases.

(** ** Completing a request *)

Lemma cleanup_ok H t r s :
  mem_ok H s → k_reqs s !! t = Some r → H !! t = q_special r →
  wp (snvme_cleanup_cmd t) (λ res s', res = Ok tt ∧ mem_ok (delete t H) s' ∧ others_kept (delete t H) s s'
    ∧ k_reqs s' = k_reqs s) s.
Proof.
  intros Hm Er Hh. unfold snvme_cleanup_cmd. apply wp_bind. eapply wp_get_rq; [exact Er|].
  destruct (q_special r) as [p|]; [by apply free_range_ok|].
  apply wp_ret. rewrite delete_id by done. split_and!; [done..|]. done.
Qed.

(** The command retry delay index has two bits. *)
Lemma crd_bound status : 0 ≤ Z.shiftr (Z.land status NVME_STATUS_CRD) 11 < 4.
Proof.
  unfold NVME_STATUS_CRD. rewrite Z.shiftr_land. change (Z.shiftr 6144 11) with (Z.ones 2).
  rewrite Z.land_ones by lia. apply Z.mod_pos_bound. lia.
Qed.

(** Does the request go back to the block layer to be sent again? *)
Definition retried (cfg : core_cfg) (ans : core_answers) (r : core_request) : bool :=
  match nvme_decide_disposition cfg ans r with
  | RETRY => true
  | AUTHENTICATE => config_nvme_host_auth cfg
  | _ => false
  end.

Definition retry_delay (cfg : core_cfg) (status : Z) : Z :=
  let crd := Z.shiftr (Z.land status NVME_STATUS_CRD) 11 in
  if bool_decide (crd = 0) then 0 else default 0 (crdt cfg !! Z.to_nat (crd - 1)) * 100.

(** What the block layer learns of a completion. *)
Definition verdict (cfg : core_cfg) (ans : core_answers) (t : nat) (r : core_request) : rq_event :=
  if retried cfg ans r then EvRequeue t (retry_delay cfg (nr_status (q_nvme r)))
  else match nvme_decide_disposition cfg ans r with
       | FAILOVER => EvEnd t BLK_STS_OK
       | _ => EvEnd t (nvme_error_status (nr_status (q_nvme r)))
       end.

Definition complete_post (cfg : core_cfg) (ans : core_answers) (H : gmap nat payload) (t : nat)
    (r : core_request) (s : core_state) (res : outcome unit) (s' : core_state) : Prop :=
  res = Ok tt ∧ ∃ r', k_reqs s' = <[t := r']> (k_reqs s) ∧ mem_ok (delete t H) s'
    ∧ others_kept (delete t H) s s' ∧ verdict cfg ans t r ∈ drop (length (k_log s)) (k_log s')
    ∧ if retried cfg ans r
      then r' = r <| q_retries ::= λ n, u8 (n + 1) |> <| q_phase := RqIdle |>
      else q_phase r' = RqEnded.

Section complete_cases.
Context (cfg : core_cfg) (ans : core_answers) (Hcrdt : length (crdt cfg) = 3%nat).

(** A tail of snvme_complete_rq that leaves memory alone. *)
Lemma complete_tail H t r s s1 s2 r' l :
  mem_ok (delete t H) s1 → others_kept (delete t H) s s1 → k_reqs s1 = k_reqs s → mem_eq s1 s2 →
  k_reqs s2 = <[t := r']> (k_reqs s) → k_log s2 = k_log s ++ l → verdict cfg ans t r ∈ l →
  (if retried cfg ans r then r' = r <| q_retries ::= λ n, u8 (n + 1) |> <| q_phase := RqIdle |>
   else q_phase r' = RqEnded) →
  complete_post cfg ans H t r s (Ok tt) s2.
Proof.
  intros Hm Ho Eq He Er El Hv Hr. split; [done|]. exists r'. split_and!; [done|by eapply mem_eq_ok| | |done].
  - eapply others_kept_trans; [exact Ho|by apply mem_eq_others].
  - by rewrite El, drop_app_length.
Qed.

Lemma end_req_zoned_eq t r s :
  k_reqs s !! t = Some r →
  ∃ r', nvme_end_req_zoned cfg t s = (Ok tt, s <| k_reqs ::= <[t := r']> |>).
Proof.
  intros E. unfold nvme_end_req_zoned, get_rq, mbind, M_bind, gets. cbn. rewrite E. cbn.
  destruct (_ && _); cbn; [rewrite (upd_rq_eq _ r) by done; by eexists|].
  exists r. unfold mret, M_ret, set, set_k_reqs. destruct s; cbn in *. by rewrite insert_id.
Qed.

Lemma end_request_eq t r st s :
  k_reqs s !! t = Some r →
  blk_mq_end_request t st s
    = (Ok tt, s <| k_reqs ::= <[t := r <| q_phase := RqEnded |>]> |> <| k_log ::= λ l, l ++ [EvEnd t st] |>).
Proof. intros E. unfold blk_mq_end_request, mbind, M_bind. by rewrite (upd_rq_eq _ r). Qed.

Lemma end_req_eq t r s :
  k_reqs s !! t = Some r →
  ∃ r', nvme_end_req cfg t s
    = (Ok tt, s <| k_reqs ::= <[t := r']> |> <| k_log ::= λ l, l ++ [EvEnd t (nvme_error_status (nr_status (q_nvme r)))] |>)
    ∧ q_phase r' = RqEnded.
Proof.
  intros E. destruct (end_req_zoned_eq t r s E) as [r1 E1].
  exists (r1 <| q_phase := RqEnded |>). split; [|done].
  unfold nvme_end_req, get_rq, mbind, M_bind, gets. cbn. rewrite E. cbn. rewrite E1. cbv beta iota.
  rewrite (end_request_eq _ r1) by apply lookup_insert_eq. f_equal.
  unfold set, set_k_reqs, set_k_log. destruct s; cbn. by rewrite insert_insert_eq.
Qed.

Lemma retry_req_eq t r s :
  k_reqs s !! t = Some r →
  nvme_retry_req cfg t s
    = (Ok tt, s <| k_reqs ::= <[t := r <| q_retries ::= λ n, u8 (n + 1) |> <| q_phase := RqIdle |>]> |>
               <| k_log ::= λ l, l ++ [EvRequeue t (retry_delay cfg (nr_status (q_nvme r)))] |>).
Proof.
  intros E. unfold nvme_retry_req, retry_delay, get_rq, mbind, M_bind, gets. cbn. rewrite E. cbn.
  pose proof (crd_bound (nr_status (q_nvme r))) as Hb.
  set (crd := Z.shiftr (Z.land (nr_status (q_nvme r)) NVME_STATUS_CRD) 11) in *.
  case_bool_decide as Hc; [unfold mret, M_ret; by rewrite (upd_rq_eq _ r)|].
  destruct (lookup_lt_is_Some_2 (crdt cfg) (Z.to_nat (crd - 1))) as [d Ed]; [lia|].
  rewrite Ed. cbn. by rewrite (upd_rq_eq _ r).
Qed.

Lemma complete_rq_ok H t r s :
  mem_ok H s → k_reqs s !! t = Some r → H !! t = q_special r →
  wp (snvme_complete_rq cfg ans t) (complete_post cfg ans H t r s) s.
Proof.
  intros Hm Er Hh. unfold snvme_complete_rq. apply wp_bind.
  eapply (wp_mono _ (λ res s1, res = Ok tt ∧ mem_ok (delete t H) s1 ∧ others_kept (delete t H) s s1
    ∧ k_reqs s1 = k_reqs s ∧ k_log s1 = k_log s)).
  { pose proof (cleanup_ok H t r s Hm Er Hh) as (H1 & H2 & H3 & H4). split_and!; [done..|].
    unfold snvme_cleanup_cmd, free_range, get_rq, mbind, M_bind, gets. cbn. rewrite Er. cbn.
    destruct (q_special r) as [[h|]|]; [cbn; by destruct (k_ranges s !! h)|done|done]. }
  intros res s1 (-> & Hm1 & Ho1 & Eq1 & El1). apply wp_bind. eapply wp_get_rq; [by rewrite Eq1|]. cbv beta iota.
  apply wp_bind.
  eapply (wp_mono _ (λ res s2, res = Ok tt ∧ mem_eq s1 s2 ∧ k_reqs s2 = k_reqs s1 ∧ k_log s2 = k_log s1)).
  { apply wp_when; intros _; [by apply wp_modify|done]. }
  intros res s2 (-> & He & Eq2 & El2). cbv beta iota.
  assert (k_reqs s2 !! t = Some r) as Er2 by (by rewrite Eq2, Eq1).
  assert (∀ res s3 r' l, res = Ok tt → mem_eq s2 s3 → k_reqs s3 = <[t := r']> (k_reqs s2) → k_log s3 = k_log s2 ++ l →
    verdict cfg ans t r ∈ l →
    (if retried cfg ans r then r' = r <| q_retries ::= λ n, u8 (n + 1) |> <| q_phase := RqIdle |>
     else q_phase r' = RqEnded) → complete_post cfg ans H t r s res s3) as Htail.
  { intros res s3 r' l -> He3 Eq3 El3 Hv Hr. eapply (complete_tail H t r s s1 s3 r' l); try done.
    - by etrans. - congruence. - congruence. }
  clear Hm1 Ho1. unfold verdict, retried in Htail.
  assert (nvme_decide_disposition cfg ans r = COMPLETE ∨ (nvme_decide_disposition cfg ans r = AUTHENTICATE ∧ config_nvme_host_auth cfg = false) →
    wp (nvme_end_req cfg t) (complete_post cfg ans H t r s) s2) as Hend.
  { intros Hd. destruct (end_req_eq t r s2 Er2) as (r' & E & Hp). eapply wp_eq; [exact E|].
    destruct Hd as [Hd|[Hd Ha]]; rewrite Hd, ?Ha in Htail; (eapply Htail; [done..|by apply list_elem_of_singleton|done]). }
  destruct (nvme_decide_disposition cfg ans r) eqn:Ed.
  - apply Hend. by left.
  - eapply wp_eq; [by apply retry_req_eq|]. eapply Htail; [done..|by apply list_elem_of_singleton|done].
  - unfold nvme_failover_req. apply wp_bind. eapply wp_get_rq; [exact Er2|]. cbv beta iota.
    apply wp_bind. eapply (wp_mono _ (λ res s3, res = Ok tt ∧ mem_eq s2 s3 ∧ k_reqs s3 = k_reqs s2 ∧ ∃ l, k_log s3 = k_log s2 ++ l)).
    { apply wp_when; intros _; [apply wp_modify; split_and!; [done..|by eexists]|].
      split_and!; [done..|]. exists []. by rewrite app_nil_r. }
    intros res s3 (-> & He3 & Eq3 & l & El3). cbv beta iota. apply wp_bind, wp_modify. cbv beta iota.
    apply wp_bind. eapply wp_upd_rq; [cbn; by rewrite Eq3|]. cbv beta iota.
    apply wp_bind. eapply wp_eq; [apply end_request_eq, lookup_insert_eq|]. cbv beta iota. apply wp_modify.
    eapply (Htail _ _ _ (l ++ [EvEnd t BLK_STS_OK] ++ [EvFailover t])).
    + done.
    + by etrans; [exact He3|].
    + cbn. by rewrite Eq3, insert_insert_eq.
    + cbn. by rewrite El3, <- !app_assoc.
    + apply elem_of_app. right. apply elem_of_app. left. by apply list_elem_of_singleton.
    + done.
  - destruct (config_nvme_host_auth cfg) eqn:Ea; [|apply Hend; by right].
    apply wp_bind, wp_modify. cbv beta iota. eapply wp_eq; [by apply retry_req_eq|].
    eapply (Htail _ _ _ ([EvAuthWork] ++ [_])); [done..|cbn; by rewrite <- app_assoc| |done].
    apply elem_of_app. right. by apply list_elem_of_singleton.
Qed.
End complete_cases.
