(* ===== verification/CoreRun.v ===== *)
(** * CoreRun: all interleavings of requests on a PCI controller

    New requests, dispatches with whatever the allocator and the data mapping
    answer, completions with any status, cancellations and batched
    completions, in any order and on any number of requests. *)
From S2P Require Import Prelude.
From S2P Require Import PciData.
From S2P Require Import PciQueue.
From S2P Require Import CoreCtrl.
From S2P Require Import CoreCmd.
From S2P Require Import CoreCmdSpec.

Inductive core_act : Type :=
  | ANew (t : nat) (r : core_request)
  | ADispatch (t : nat) (ans : core_answers) (c : nvme_ctrl) (map_ret : blk_status)
  | AComplete (t : nat) (ans : core_answers) (status result : Z)
  | ACancel (t : nat) (ans : core_answers)
  | ABatch (t : nat) (ans : core_answers).

(** A request as the block layer allocates it. *)
Definition fresh_request (r : core_request) : Prop :=
  q_phase r = RqIdle ∧ q_special r = None ∧ q_dontprep r = false ∧ rq_wf r.

Definition in_phase (s : core_state) (t : nat) (ph : rq_phase) : Prop :=
  ∃ r, k_reqs s !! t = Some r ∧ q_phase r = ph.

(** When the block layer takes the action. *)
Definition act_ok (a : core_act) (s : core_state) : Prop :=
  match a with
  | ANew t r => fresh_request r ∧ (k_reqs s !! t = None ∨ in_phase s t RqEnded)
  | ADispatch t _ _ _ => in_phase s t RqIdle
  | AComplete t _ _ _ | ABatch t _ => in_phase s t RqInFlight
  | ACancel t _ => is_Some (k_reqs s !! t)
  end.

Section run.
Context (cfg : core_cfg).

(** Dispatch on an I/O queue of the PCI transport: not the admin queue, no
    fabrics, the queue always live. *)
Definition core_step (a : core_act) : KM unit :=
  match a with
  | ANew t r => modify (λ s, s <| k_reqs ::= <[t := r]> |>)
  | ADispatch t ans c map_ret => dispatch cfg ans false false false true c map_ret t
  | AComplete t ans status result => complete_with cfg ans t status result
  | ACancel t ans => snvme_cancel_request cfg ans t
  | ABatch t ans => snvme_complete_batch_req cfg t
  end.

Definition core_start (s : core_state) : Prop :=
  k_reqs s = ∅ ∧ k_ranges s = ∅ ∧ k_discard_busy s = false
  ∧ length (k_discard_page s) = NVME_DSM_MAX_RANGES.

Inductive core_reach : core_state → Prop :=
  | core_init s : core_start s → core_reach s
  | core_next s a s' : core_reach s → act_ok a s → (core_step a s).2 = s' → core_reach s'.

(** ** The invariant *)

(** A request's side of the memory map. *)
Definition req_ok (H : gmap nat payload) (s : core_state) (t : nat) (r : core_request) : Prop :=
  (q_phase r ≠ RqEnded → rq_wf r ∧ (discards cfg r = false → q_special r = None))
  ∧ H !! t = (if bool_decide (q_phase r = RqInFlight) then q_special r else None)
  ∧ (q_phase r = RqInFlight → discards cfg r = true →
     ∃ p, q_special r = Some p ∧ holds_ranges s p (wanted_ranges cfg r)).

Record core_inv (H : gmap nat payload) (s : core_state) : Prop := {
  ck_mem : mem_ok H s;
  ck_reqs : ∀ t r, k_reqs s !! t = Some r → req_ok H s t r;
  ck_none : ∀ t, k_reqs s !! t = None → H !! t = None;
}.

Definition act_tag (a : core_act) : nat :=
  match a with
  | ANew t _ | ADispatch t _ _ _ | AComplete t _ _ _ | ACancel t _ | ABatch t _ => t
  end.

(** The request as a completion finds it. *)
Definition with_status (status result : Z) (r : core_request) : core_request :=
  r <| q_nvme ::= (λ q, q <| nr_status := status |> <| nr_result := result |>) |>.
Definition aborted (r : core_request) : core_request :=
  r <| q_nvme ::= (λ q, q <| nr_status := NVME_SC_HOST_ABORTED_CMD |>) |> <| q_cancelled := true |>.

(** Ended, or back with the block layer and one more retry counted. *)
Definition completed (ans : core_answers) (r r' : core_request) : Prop :=
  if retried cfg ans r then r' = r <| q_retries ::= λ n, u8 (n + 1) |> <| q_phase := RqIdle |>
  else q_phase r' = RqEnded.

(** What an action does to the request it names. *)
Definition act_rel (a : core_act) (o : option core_request) (r' : core_request) : Prop :=
  match a, o with
  | ANew _ r, _ => r' = r
  | ADispatch _ _ _ _, Some r => rq_prepped r r'
  | AComplete _ ans status result, Some r => completed ans (with_status status result r) r'
  | ACancel _ ans, Some r =>
      if bool_decide (q_phase r = RqInFlight) then completed ans (aborted r) r' else r' = r
  | ABatch _ _, Some r => q_phase r' = RqEnded
  | _, None => False
  end.

(** One request changed; the memory of the others is as it was. *)
Lemma core_inv_update H H' s s' t r' :
  core_inv H s → k_reqs s' = <[t := r']> (k_reqs s) → mem_ok H' s' →
  (∀ t', t' ≠ t → H' !! t' = H !! t') → others_kept (delete t H) s s' → req_ok H' s' t r' →
  core_inv H' s'.
Proof.
  intros [Hm Hr Hn] Er Hm' Hoth Hk Hr'. split; [done| |].
  - intros t' r1 E. rewrite Er in E. apply lookup_insert_Some in E as [[<- <-]|[Hne E]]; [done|].
    apply not_eq_sym in Hne. destruct (Hr t' r1 E) as (H1 & H2 & H3). split_and!; [done|by rewrite Hoth|].
    intros Hp Hd. destruct (H3 Hp Hd) as (p & Hsp & m & Em & Ht). exists p. split; [done|]. exists m. split; [|done].
    rewrite (Hk t' p); [done|]. rewrite lookup_delete_ne by done. rewrite H2, bool_decide_true by done. done.
  - intros t' E. rewrite Er in E. apply lookup_insert_None in E as [E Hne]. rewrite Hoth by done. by apply Hn.
Qed.

(** I/O requests of the PCI transport are always ready. *)
Lemma pci_ready r st : nvme_check_ready false false false r true st = true.
Proof. unfold nvme_check_ready, __snvme_check_ready. by destruct (bool_decide _). Qed.

Definition step_post (a : core_act) (s : core_state) (res : outcome unit) (s' : core_state) : Prop :=
  res = Ok tt ∧ (∃ H', core_inv H' s')
  ∧ ∃ r', k_reqs s' = <[act_tag a := r']> (k_reqs s) ∧ act_rel a (k_reqs s !! act_tag a) r'.

(** An idle or ended request that holds nothing. *)
Lemma req_ok_released H s t r :
  q_phase r ≠ RqInFlight → H !! t = None →
  (q_phase r ≠ RqEnded → rq_wf r ∧ (discards cfg r = false → q_special r = None)) → req_ok H s t r.
Proof. intros Hp Hh Hw. split_and!; [done|by rewrite bool_decide_false|done]. Qed.

Lemma new_step H s t r :
  core_inv H s → act_ok (ANew t r) s → wp (core_step (ANew t r)) (step_post (ANew t r) s) s.
Proof.
  intros HI [(Hp & Hsp & _ & Hw) Hfree]. pose proof HI as [Hm Hr Hn].
  assert (H !! t = None) as Ht.
  { destruct Hfree as [E|(r0 & E & Hp0)]; [by apply Hn|].
    destruct (Hr t r0 E) as (_ & -> & _). by rewrite bool_decide_false by congruence. }
  apply wp_modify. split_and!; [done| |by exists r].
  exists H. eapply (core_inv_update H H s _ t r); [done|done|by eapply mem_eq_ok, Hm|done|by apply mem_eq_others|].
  apply req_ok_released; [congruence|done|by intros _].
Qed.

(** From the built command to what the block layer does with the result. *)
Lemma end_step H s s1 t r r1 st (E : k_reqs s !! t = Some r) :
  core_inv H s → H !! t = None → k_reqs s1 = <[t := r1]> (k_reqs s) → mem_ok H s1 → others_kept H s s1 →
  q_phase r1 = RqIdle → rq_wf r1 → (discards cfg r1 = false → q_special r1 = None) →
  wp (if bool_decide (st = BLK_STS_OK) || bool_decide (st = BLK_STS_RESOURCE) then mret tt
      else blk_mq_end_request t st)
    (λ res s', res = Ok tt ∧ (∃ H', core_inv H' s') ∧ ∃ ph, k_reqs s' = <[t := r1 <| q_phase := ph |>]> (k_reqs s)) s1.
Proof.
  intros HI Ht Er1 Hm1 Ho Hp Hw Hsp.
  assert (others_kept (delete t H) s s1) as Ho' by (by rewrite delete_id).
  destruct (_ || _).
  - apply wp_ret. split_and!; [done| |].
    + exists H. eapply (core_inv_update H H s s1 t r1); [done..|]. apply req_ok_released; [congruence|done|done].
    + exists RqIdle. rewrite Er1. f_equal. destruct r1; cbn in *. by subst.
  - eapply wp_eq; [apply end_request_eq; rewrite Er1; apply lookup_insert_eq|].
    split_and!; [done| |exists RqEnded; cbn; by rewrite Er1, insert_insert_eq].
    exists H. eapply (core_inv_update H H s _ t (r1 <| q_phase := RqEnded |>)); [done| | |done| |].
    + cbn. by rewrite Er1, insert_insert_eq.
    + by eapply mem_eq_ok, Hm1.
    + eapply others_kept_trans; [exact Ho'|]. by apply mem_eq_others.
    + by apply req_ok_released.
Qed.

Lemma act_rel_phase t ans c mr r r1 ph :
  act_rel (ADispatch t ans c mr) (Some r) r1 → act_rel (ADispatch t ans c mr) (Some r) (r1 <| q_phase := ph |>).
Proof. done. Qed.

Lemma dispatch_step H s t ans c mr :
  core_inv H s → act_ok (ADispatch t ans c mr) s →
  wp (core_step (ADispatch t ans c mr)) (step_post (ADispatch t ans c mr) s) s.
Proof.
  intros HI (r & E & Hp). pose proof HI as [Hm Hr Hn].
  destruct (Hr t r E) as (Hwf & Ht & _). rewrite bool_decide_false in Ht by congruence.
  destruct Hwf as [Hw Hsp]; [congruence|].
  cbn [core_step]. unfold dispatch, queue_rq. do 2 apply wp_bind. eapply wp_get_rq; [exact E|].
  rewrite pci_ready. cbn [negb]. apply wp_bind. eapply wp_mono; [by eapply setup_cmd_ok|].
  intros res s1 (r1 & Er1 & Hsame & Hprep & Ho & Hres).
  assert (discards cfg r1 = discards cfg r) as Hd by (by apply discards_same).
  assert (rq_wf r1) as Hw1 by (by eapply rq_wf_same).
  assert (q_phase r1 = RqIdle) as Hp1 by (destruct Hsame as (_ & _ & _ & _ & _ & _ & ->); done).
  assert (∀ s2 st, k_reqs s2 = k_reqs s1 → mem_ok H s2 → others_kept H s s2 →
    (discards cfg r1 = false → q_special r1 = None) →
    wp (if bool_decide (st = BLK_STS_OK) || bool_decide (st = BLK_STS_RESOURCE) then mret tt
      else blk_mq_end_request t st) (step_post (ADispatch t ans c mr) s) s2) as Hend.
  { intros s2 st Eq2 Hm2 Ho2 Hsp1. eapply wp_mono; [eapply (end_step H s s2 t r r1 st); try done; by rewrite Eq2|].
    intros res2 s3 (-> & HI3 & ph & Er3). split_and!; [done..|]. exists (r1 <| q_phase := ph |>).
    cbn [act_tag]. rewrite E. done. }
  destruct res as [ret|e|f]; [|done..]. destruct (decide (ret = BLK_STS_OK)) as [->|Hne].
  2: { rewrite bool_decide_false by done. apply wp_ret. assert (q_special r1 = q_special r ∧ mem_ok H s1) as [Hs1 Hm1] by (by destruct ret).
    apply Hend; [done..|]. by rewrite Hs1, Hd. }
  rewrite bool_decide_true by done. cbn [negb].
  (* what the request holds now *)
  assert (∃ H1, mem_ok H1 s1 ∧ H1 !! t = q_special r1 ∧ delete t H1 = H ∧ (∀ t', t' ≠ t → H1 !! t' = H !! t')
    ∧ (discards cfg r1 = false → q_special r1 = None)
    ∧ (discards cfg r1 = true → ∃ p, q_special r1 = Some p ∧ holds_ranges s1 p (wanted_ranges cfg r1)))
    as (H1 & Hm1 & Ht1 & Hdel & Hoth & Hsp1 & Hh1).
  { rewrite Hd. destruct (discards cfg r).
    - destruct Hres as (p & Hsp1 & Hm1 & Hh). exists (<[t := p]> H). rewrite lookup_insert_eq, delete_insert_eq, delete_id by done.
      split_and!; [done..| |done|by exists p]. intros t' Hne. by rewrite lookup_insert_ne.
    - destruct Hres as [Hs1 Hm1]. exists H. rewrite Hs1, Hsp by done. by rewrite delete_id. }
  destruct (decide (mr = BLK_STS_OK)) as [->|Hmr].
  - rewrite bool_decide_true by done. cbn [negb]. apply wp_bind. eapply wp_upd_rq; [rewrite Er1; apply lookup_insert_eq|].
    apply wp_ret. apply wp_ret. split_and!; [done| |].
    + exists H1. eapply (core_inv_update H H1 s _ t (r1 <| q_phase := RqInFlight |>)); [done| |by eapply mem_eq_ok, Hm1|done| |].
      * cbn. by rewrite Er1, insert_insert_eq.
      * rewrite delete_id by done. eapply others_kept_trans; [exact Ho|by apply mem_eq_others].
      * split_and!; [by intros _|by rewrite bool_decide_true|]. intros _ Hdd. destruct (Hh1 Hdd) as (p & ? & m & ? & ?).
        exists p. split; [done|]. by exists m.
    + eexists. cbn [act_tag]. split; [cbn; by rewrite Er1, insert_insert_eq|]. rewrite E. done.
  - rewrite bool_decide_false by done. cbn [negb]. apply wp_bind.
    eapply wp_mono; [eapply (cleanup_ok H1 t r1 s1); [done|rewrite Er1; apply lookup_insert_eq|done]|].
    intros res2 s2 (-> & Hm2 & Ho2 & Eq2). rewrite Hdel in Hm2, Ho2. apply wp_ret.
    apply Hend; [done|done| |done]. by eapply others_kept_trans.
Qed.

(** Completion of a request in flight, whatever its status now says. *)
Lemma complete_step (Hcrdt : length (crdt cfg) = 3%nat) H s s1 t r r1 ans :
  core_inv H s → k_reqs s !! t = Some r → q_phase r = RqInFlight →
  s1 = s <| k_reqs ::= <[t := r1]> |> → rq_same r r1 → q_special r1 = q_special r →
  wp (snvme_complete_rq cfg ans t) (λ res s', res = Ok tt ∧ (∃ H', core_inv H' s')
    ∧ ∃ r', k_reqs s' = <[t := r']> (k_reqs s) ∧ completed ans r1 r') s1.
Proof.
  intros HI E Hp -> Hsame Hsp. pose proof HI as [Hm Hr Hn].
  destruct (Hr t r E) as (Hwf & Ht & _). rewrite bool_decide_true in Ht by done.
  destruct Hwf as [Hw Hsp0]; [congruence|].
  eapply wp_mono; [eapply (complete_rq_ok cfg ans Hcrdt H t r1); [by eapply mem_eq_ok, Hm|apply lookup_insert_eq|congruence]|].
  intros res s' (-> & r' & Er & Hm' & Ho & _ & Hc). split_and!; [done| |exists r'; split; [|done]; cbn in Er; by rewrite insert_insert_eq in Er].
  exists (delete t H). eapply (core_inv_update H _ s s' t r'); [done| |done| | |].
  - cbn in Er. by rewrite insert_insert_eq in Er.
  - intros t' Hne. by rewrite lookup_delete_ne.
  - eapply others_kept_trans; [|exact Ho]. by apply mem_eq_others.
  - destruct (retried cfg ans r1) eqn:Erd.
    + subst r'. apply req_ok_released; [done|by rewrite lookup_delete_eq|]. intros _. cbn.
      split; [exact (rq_wf_same _ _ Hsame Hw)|]. intros Hd. rewrite Hsp. apply Hsp0. rewrite <- Hd. symmetry. exact (discards_same cfg r r1 Hsame).
    + apply req_ok_released; [congruence|by rewrite lookup_delete_eq|done].
Qed.

Lemma step_ok (Hcrdt : length (crdt cfg) = 3%nat) H s a :
  core_inv H s → act_ok a s → wp (core_step a) (step_post a s) s.
Proof.
  intros HI Ha. destruct a as [t r|t ans c mr|t ans st rs|t ans|t ans].
  - by eapply new_step.
  - by eapply dispatch_step.
  - destruct Ha as (r & E & Hp). cbn [core_step]. unfold complete_with. apply wp_bind. eapply wp_upd_rq; [exact E|].
    eapply wp_mono; [by eapply (complete_step Hcrdt H s _ t r)|]. intros res s' (-> & HI' & r' & Er & Hc).
    split_and!; [done..|]. exists r'. cbn [act_tag]. rewrite E. done.
  - destruct Ha as (r & E). cbn [core_step]. unfold snvme_cancel_request. apply wp_bind. eapply wp_get_rq; [exact E|].
    unfold step_post. cbn [act_tag]. rewrite E. cbn [act_rel]. case_bool_decide as Hp; cbn [negb].
    + apply wp_bind. eapply wp_upd_rq; [exact E|]. by eapply (complete_step Hcrdt H s _ t r).
    + apply wp_ret. split_and!; [done|by exists H|]. exists r. by rewrite insert_id.
  - destruct Ha as (r & E & Hp). cbn [core_step]. unfold snvme_complete_batch_req. pose proof HI as [Hm Hr Hn].
    destruct (Hr t r E) as (_ & Ht & _). rewrite bool_decide_true in Ht by done.
    apply wp_bind. eapply wp_mono; [by eapply cleanup_ok|]. intros res s1 (-> & Hm1 & Ho1 & Eq1). cbv beta iota.
    destruct (end_req_zoned_eq cfg t r s1) as [r1 E1]; [by rewrite Eq1|]. apply wp_bind. eapply wp_eq; [exact E1|]. cbv beta iota.
    eapply wp_eq; [apply end_request_eq, lookup_insert_eq|]. unfold step_post. cbn [act_tag]. rewrite E.
    assert (∀ x, <[t := x]> (<[t := r1]> (k_reqs s1)) = <[t := x]> (k_reqs s)) as Ei by (intros x; by rewrite insert_insert_eq, Eq1).
    split_and!; [done| |eexists; split; [cbn; apply Ei|done]].
    exists (delete t H). eapply (core_inv_update H _ s _ t); [done|cbn; apply Ei|by eapply mem_eq_ok, Hm1| | |].
    + intros t' Hne. by rewrite lookup_delete_ne.
    + eapply others_kept_trans; [exact Ho1|by apply mem_eq_others].
    + apply req_ok_released; [done|by rewrite lookup_delete_eq|done].
Qed.

Lemma reach_inv (Hcrdt : length (crdt cfg) = 3%nat) s : core_reach s → ∃ H, core_inv H s.
Proof.
  induction 1 as [s (E1 & E2 & E3 & E4)|s a s' _ [H HI] Ha <-].
  - exists ∅. split.
    + split; [done| | | |].
      * intros h l E. by rewrite E2 in E.
      * intros t h E. by rewrite lookup_empty in E.
      * intros t t' p E. by rewrite lookup_empty in E.
      * rewrite E3. split; [done|]. intros [t E]. by rewrite lookup_empty in E.
    + intros t r E. by rewrite E1 in E.
    + intros t _. by rewrite lookup_empty.
  - by destruct (step_ok Hcrdt H s a HI Ha) as (_ & HI' & _).
Qed.

(** ** The life of one request

    [core_life t n s]: since request [t] was last started, the controller's
    answers have sent it back to the block layer [n] times and have not ended
    it; anything may have happened to other requests meanwhile. *)
Inductive core_life (t : nat) : nat → core_state → Prop :=
  | life_new s r s' : core_reach s → act_ok (ANew t r) s → (core_step (ANew t r) s).2 = s' → core_life t 0 s'
  | life_other n s a s' : core_life t n s → act_ok a s → act_tag a ≠ t → (core_step a s).2 = s' → core_life t n s'
  | life_sent n s ans c mr s' : core_life t n s → act_ok (ADispatch t ans c mr) s →
      (core_step (ADispatch t ans c mr) s).2 = s' → ¬ in_phase s' t RqEnded → core_life t n s'
  | life_back n s a s' : core_life t n s → act_ok a s → in_phase s t RqInFlight →
      (∃ ans st rs, a = AComplete t ans st rs) ∨ (∃ ans, a = ACancel t ans) →
      (core_step a s).2 = s' → in_phase s' t RqIdle → core_life t (S n) s'.

Context (Hcrdt : length (crdt cfg) = 3%nat) (Hauth : config_nvme_host_auth cfg = false)
  (Hmax : 0 ≤ s_nvme_max_retries cfg < 2 ^ 8).

Lemma life_reach t n s : core_life t n s → core_reach s.
Proof. induction 1; by eapply core_next. Qed.

(** A request that goes back had retries left. *)
Lemma retried_below ans r : retried cfg ans r = true → q_retries r < s_nvme_max_retries cfg.
Proof.
  unfold retried, nvme_decide_disposition. rewrite Hauth.
  destruct (decide (s_nvme_max_retries cfg ≤ q_retries r)) as [Hle|Hle]; [|intros _; lia].
  rewrite (bool_decide_true _ Hle), orb_true_r. by repeat case_bool_decide.
Qed.

(** The retry counter of a request in its life. *)
Definition counts (n : nat) (r : core_request) : Prop :=
  if q_dontprep r then q_retries r = Z.of_nat n else n = 0%nat ∧ q_phase r = RqIdle.

Lemma counts_prepped n r r' : counts n r → rq_prepped r r' → counts n r'.
Proof.
  unfold counts. intros Hc [-> ->]. destruct (q_dontprep r); [done|]. by destruct Hc as [-> _].
Qed.

Lemma completed_back ans n r r1 r' :
  counts n r → q_phase r = RqInFlight → Z.of_nat n ≤ s_nvme_max_retries cfg →
  q_retries r1 = q_retries r → q_dontprep r1 = q_dontprep r → completed ans r1 r' → q_phase r' = RqIdle →
  counts (S n) r' ∧ Z.of_nat (S n) ≤ s_nvme_max_retries cfg.
Proof.
  intros Hc Hp Hn Er Ed Hcm Hp'. unfold completed in Hcm. destruct (retried cfg ans r1) eqn:E; [|congruence].
  apply retried_below in E. rewrite Er in E. unfold counts in *. destruct (q_dontprep r) eqn:Hdp; [|by destruct Hc as [_ ?]; congruence].
  subst r'. cbn. rewrite Ed, Er, Hc. split; [|lia]. unfold wrap. rewrite Z.mod_small; lia.
Qed.

Lemma life_counts t n s :
  core_life t n s → ∃ r, k_reqs s !! t = Some r ∧ counts n r ∧ Z.of_nat n ≤ s_nvme_max_retries cfg.
Proof.
  assert (∀ s a s', core_reach s → act_ok a s → (core_step a s).2 = s' →
    ∃ r', k_reqs s' = <[act_tag a := r']> (k_reqs s) ∧ act_rel a (k_reqs s !! act_tag a) r') as Hstep.
  { intros s0 a s' Hr Ha <-. destruct (reach_inv Hcrdt s0 Hr) as [H HI]. by destruct (step_ok Hcrdt H s0 a HI Ha) as (_ & _ & ?). }
  induction 1 as [s r s' Hr Ha E|n s a s' Hl IH Ha Hne E|n s ans c mr s' Hl IH Ha E _|n s a s' Hl IH Ha Hf Hk E Hb].
  - destruct (Hstep _ _ _ Hr Ha E) as (r' & Er & Hrel). cbn in Er, Hrel. subst r'. exists r. rewrite Er, lookup_insert_eq.
    destruct Ha as [(? & _ & Hd & _) _]. split_and!; [done| |cbn; lia]. unfold counts. by rewrite Hd.
  - destruct IH as (r & Er & Hc). destruct (Hstep _ _ _ (life_reach _ _ _ Hl) Ha E) as (r' & Er' & _).
    exists r. by rewrite Er', lookup_insert_ne.
  - destruct IH as (r & Er & Hc & Hn). destruct (Hstep _ _ _ (life_reach _ _ _ Hl) Ha E) as (r' & Er' & Hrel).
    cbn [act_tag] in Er', Hrel. rewrite Er in Hrel. exists r'. rewrite Er', lookup_insert_eq. split_and!; [done| |done].
    by eapply counts_prepped.
  - destruct IH as (r & Er & Hc & Hn). destruct (Hstep _ _ _ (life_reach _ _ _ Hl) Ha E) as (r' & Er' & Hrel).
    destruct Hf as (rf & Ef & Hpf). rewrite Er in Ef. simplify_eq. destruct Hb as (rb & Eb & Hpb).
    exists r'. destruct Hk as [(ans & st & rs & ->)|(ans & ->)]; cbn [act_tag] in Er', Hrel;
      rewrite Er', lookup_insert_eq in *; rewrite Er in Hrel; cbn in Hrel; simplify_eq.
    + split; [done|]. eapply completed_back; [exact Hc|done|exact Hn| | |exact Hrel|done]; done.
    + rewrite bool_decide_true in Hrel by done. split; [done|]. eapply completed_back; [exact Hc|done|exact Hn| | |exact Hrel|done]; done.
Qed.

(** After the last retry the next answer ends the request. *)
Lemma last_answer_ends t n s a :
  core_life t n s → s_nvme_max_retries cfg ≤ Z.of_nat n → in_phase s t RqInFlight → act_ok a s →
  (∃ ans st rs, a = AComplete t ans st rs) ∨ (∃ ans, a = ACancel t ans) →
  in_phase (core_step a s).2 t RqEnded.
Proof.
  intros Hl Hn (r & E & Hp) Ha Hk. destruct (life_counts t n s Hl) as (r0 & E0 & Hc & _). rewrite E in E0. simplify_eq.
  destruct (reach_inv Hcrdt s (life_reach _ _ _ Hl)) as [H HI].
  destruct (step_ok Hcrdt H s a HI Ha) as (_ & _ & r' & Er & Hrel). exists r'.
  unfold counts in Hc. destruct (q_dontprep r0); [|by destruct Hc; congruence].
  assert (∀ ans r1, q_retries r1 = q_retries r0 → completed ans r1 r' → q_phase r' = RqEnded) as Hfin.
  { intros ans r1 Eq Hcm. unfold completed in Hcm. destruct (retried cfg ans r1) eqn:Ert; [|done].
    apply retried_below in Ert. lia. }
  destruct Hk as [(ans & st & rs & ->)|(ans & ->)]; cbn [act_tag] in Er, Hrel; rewrite Er, lookup_insert_eq; rewrite E in Hrel; cbn in Hrel.
  - split; [done|]. eapply Hfin; [|exact Hrel]; done.
  - rewrite bool_decide_true in Hrel by done. split; [done|]. eapply Hfin; [|exact Hrel]; done.
Qed.

End run.
