(* ===== verification/CoreSqe.v ===== *)
(** * CoreSqe: what the controller reads in a command (baseline/6.8/core.c)

    The fields of a read, write, zone append or Write Zeroes command decoded
    from the words of the entry, and the range list of a discard as byte
    intervals of the namespace. *)
From S2P Require Import Prelude.
From S2P Require Import PciData.
From S2P Require Import PciQueue.
From S2P Require Import CoreCtrl.
From S2P Require Import CoreCmd.
From S2P Require Import CoreCmdSpec.

(** ** The controller's view *)

Definition sqe_slba (c : nvme_sqe) : Z := e_cdw10 c + e_cdw11 c * 2 ^ 32.
(** The length field counts from zero. *)
Definition sqe_nlb (c : nvme_sqe) : Z := u16 (e_cdw12 c) + 1.
Definition sqe_control (c : nvme_sqe) : Z := Z.shiftr (e_cdw12 c) 16.

(** Byte interval of a namespace, as first byte and length. *)
Definition sqe_bytes (head : nvme_ns_head) (c : nvme_sqe) : Z * Z :=
  (sqe_slba c * 2 ^ lba_shift head, sqe_nlb c * 2 ^ lba_shift head).
Definition range_bytes (head : nvme_ns_head) (x : nvme_dsm_range) : Z * Z :=
  (dr_slba x * 2 ^ lba_shift head, dr_nlb x * 2 ^ lba_shift head).

(** What the block layer guarantees: whole logical blocks, at most 2^16 of
    them, at a position the 64-bit sector number can express. *)
Definition io_aligned (head : nvme_ns_head) (pos bytes : Z) : Prop :=
  (2 ^ lba_shift head | pos * 512) ∧ (2 ^ lba_shift head | bytes)
  ∧ 0 ≤ pos < 2 ^ 64 ∧ 0 < bytes ≤ 2 ^ 16 * 2 ^ lba_shift head.

(** ** Words and fields *)

Lemma sect_to_lba_bytes head pos :
  9 ≤ lba_shift head → (2 ^ lba_shift head | pos * 512) →
  nvme_sect_to_lba head pos * 2 ^ lba_shift head = pos * 512.
Proof.
  intros Hs [k Hk]. unfold nvme_sect_to_lba, SECTOR_SHIFT. rewrite Z.shiftr_div_pow2 by lia.
  assert (2 ^ lba_shift head = 2 ^ (lba_shift head - 9) * 512) as E
    by (rewrite <- (Z.pow_add_r 2 _ 9) by lia; f_equal; lia).
  rewrite E in Hk |- *. assert (pos = k * 2 ^ (lba_shift head - 9)) as -> by lia.
  rewrite Z.div_mul by lia. lia.
Qed.

Lemma sect_to_lba_range head pos :
  9 ≤ lba_shift head → 0 ≤ pos < 2 ^ 64 → 0 ≤ nvme_sect_to_lba head pos < 2 ^ 64.
Proof.
  intros Hs Hp. unfold nvme_sect_to_lba, SECTOR_SHIFT. rewrite Z.shiftr_div_pow2 by lia.
  assert (1 ≤ 2 ^ (lba_shift head - 9)) by (apply (Z.pow_le_mono_r 2 0); lia).
  split; [apply Z.div_pos; lia|]. apply Z.div_lt_upper_bound; [lia|]. nia.
Qed.

Lemma slba_words x : 0 ≤ x < 2 ^ 64 → u32 x + u32 (Z.shiftr x 32) * 2 ^ 32 = x.
Proof.
  intros Hx. rewrite Z.shiftr_div_pow2 by lia. unfold wrap.
  rewrite (Z.mod_small (x / 2 ^ 32)); [pose proof (Z.div_mod x (2 ^ 32)); lia|].
  split; [apply Z.div_pos; lia|]. apply Z.div_lt_upper_bound; lia.
Qed.

Lemma blocks_range head bytes :
  9 ≤ lba_shift head → (2 ^ lba_shift head | bytes) → 0 < bytes ≤ 2 ^ 16 * 2 ^ lba_shift head →
  u16 (Z.shiftr bytes (lba_shift head) - 1) + 1 = Z.shiftr bytes (lba_shift head)
  ∧ Z.shiftr bytes (lba_shift head) * 2 ^ lba_shift head = bytes.
Proof.
  intros Hs [k ->] Hb. rewrite Z.shiftr_div_pow2 by lia.
  assert (0 < 2 ^ lba_shift head) by (apply Z.pow_pos_nonneg; lia).
  rewrite Z.div_mul by lia. split; [|done]. rewrite wrap_small by nia. lia.
Qed.

Lemma u16_halves a b : u16 (u16 a + u16 b * 2 ^ 16) = u16 a.
Proof. unfold wrap. rewrite Z.mod_add by lia. by rewrite Zmod_mod. Qed.

Lemma control_halves a b : Z.shiftr (u16 a + u16 b * 2 ^ 16) 16 = u16 b.
Proof.
  rewrite Z.shiftr_div_pow2 by lia. unfold wrap. rewrite Z.div_add by lia.
  rewrite (Z.div_small (a `mod` 2 ^ 16)); [done|]. apply Z.mod_pos_bound. lia.
Qed.

Lemma u16_length a b : u16 (a * 2 ^ 16 + u16 b) = u16 b.
Proof. unfold wrap. rewrite Z.add_comm, Z.mod_add by lia. by rewrite Zmod_mod. Qed.

(** ** Commands on a range of blocks *)

(** The words that name the blocks and the command, which neither the
    reference tag nor the control bits change. *)
Definition names_blocks (head : nvme_ns_head) (op pos bytes control : Z) (c : nvme_sqe) : Prop :=
  e_opcode c = op ∧ e_nsid c = ns_id head ∧ sqe_bytes head c = (pos * 512, bytes) ∧ sqe_control c = u16 control.

Lemma names_blocks_built head op pos bytes control c0 c :
  9 ≤ lba_shift head → io_aligned head pos bytes →
  e_opcode c = op → e_nsid c = ns_id head →
  e_cdw10 c = u32 (nvme_sect_to_lba head pos) → e_cdw11 c = u32 (Z.shiftr (nvme_sect_to_lba head pos) 32) →
  e_cdw12 c = u16 (Z.shiftr c0 16 * 2 ^ 16 + u16 (Z.shiftr bytes (lba_shift head) - 1)) + u16 control * 2 ^ 16 →
  names_blocks head op pos bytes control c.
Proof.
  intros Hs (Hp & Hb & Hr & Hbb) E1 E2 E3 E4 E5. destruct (blocks_range head bytes Hs Hb Hbb) as [H1 H2].
  unfold names_blocks, sqe_bytes, sqe_slba, sqe_nlb, sqe_control.
  rewrite E3, E4, E5, slba_words by (by apply sect_to_lba_range).
  rewrite u16_halves, u16_length, control_halves. split_and!; [done..| |done].
  rewrite sect_to_lba_bytes by done. f_equal. lia.
Qed.

(** Control bits of a request: FUA and limited retry from its flags, the
    protection checks from the namespace's format. *)
Definition wanted_control (cfg : core_cfg) (r : core_request) (op : Z) : Z :=
  let head := cfg_head cfg in
  Z.lor (rw_control (q_flags r))
    (if bool_decide (head_ms head = 0) then 0
     else Z.lor (if q_integrity r then 0 else NVME_RW_PRINFO_PRACT)
       (if bool_decide (pi_type head = 3) then NVME_RW_PRINFO_PRCHK_GUARD
        else if bool_decide (pi_type head = 1) || bool_decide (pi_type head = 2)
        then Z.lor (Z.lor NVME_RW_PRINFO_PRCHK_GUARD NVME_RW_PRINFO_PRCHK_REF)
               (if bool_decide (op = nvme_cmd_zone_append) then NVME_RW_APPEND_PIREMAP else 0)
        else 0)).

(** May the namespace's format be read and written by this host? *)
Definition rw_supported (cfg : core_cfg) (r : core_request) : bool :=
  bool_decide (head_ms (cfg_head cfg) = 0) || q_integrity r || nvme_ns_has_pi (cfg_head cfg).

Lemma get_rq_eq t r s : k_reqs s !! t = Some r → get_rq t s = (Ok r, s).
Proof. intros E. unfold get_rq, mbind, M_bind, gets. cbn. by rewrite E. Qed.

Lemma bind_upd_put {B} t r c f (k : unit → KM B) s :
  (upd_cmd t f ≫= k) (put_cmd t r c s) = k tt (put_cmd t r (f c) s).
Proof.
  unfold mbind, M_bind. rewrite (upd_cmd_eq t (r <| q_cmd := c |>)) by apply put_cmd_lookup.
  by rewrite put_cmd_put.
Qed.

Lemma bind_get_put {B} t r c (k : core_request → KM B) s :
  (get_rq t ≫= k) (put_cmd t r c s) = k (r <| q_cmd := c |>) (put_cmd t r c s).
Proof. unfold mbind, M_bind. by rewrite (get_rq_eq t (r <| q_cmd := c |>)) by apply put_cmd_lookup. Qed.

(** The reference tag leaves the words that name the blocks alone. *)
Lemma names_blocks_tag head cfg ans op pos bytes control c :
  names_blocks head op pos bytes control c → names_blocks head op pos bytes control (nvme_set_ref_tag cfg ans c).
Proof. unfold nvme_set_ref_tag. by repeat case_bool_decide. Qed.

Lemma put_control_tag cfg ans x c :
  put_control x (nvme_set_ref_tag cfg ans c) = nvme_set_ref_tag cfg ans (put_control x c).
Proof. unfold nvme_set_ref_tag, put_control, set. by repeat case_bool_decide. Qed.

Lemma names_blocks_dsmgmt head op pos bytes control c x :
  names_blocks head op pos bytes control c → names_blocks head op pos bytes control (c <| e_cdw13 := x |>).
Proof. done. Qed.

Lemma setup_rw_result cfg ans t r c0 s op :
  9 ≤ lba_shift (cfg_head cfg) → io_aligned (cfg_head cfg) (q_pos r) (q_bytes r) →
  ∃ c, nvme_setup_rw cfg ans t op (put_cmd t r c0 s)
      = (Ok (if rw_supported cfg r then BLK_STS_OK else BLK_STS_NOTSUPP), put_cmd t r c s)
    ∧ (rw_supported cfg r = true →
       names_blocks (cfg_head cfg) op (q_pos r) (q_bytes r) (wanted_control cfg r op) c
       ∧ e_cdw13 c = rw_dsmgmt (q_flags r)).
Proof.
  intros Hs Ha. unfold nvme_setup_rw. rewrite bind_get_put. cbv zeta. rewrite bind_upd_put. cbn [q_flags q_pos q_bytes q_integrity].
  match goal with |- ∃ c, _ (put_cmd t r ?c1 s) = _ ∧ _ => set (c1' := c1) end.
  assert (∀ control, names_blocks (cfg_head cfg) op (q_pos r) (q_bytes r) control (put_control control c1')) as Hn.
  { intros control. by eapply names_blocks_built. }
  unfold rw_supported, wanted_control. cbn [set set_q_cmd q_integrity q_flags].
  destruct (bool_decide (head_ms (cfg_head cfg) = 0)) eqn:Em; cbn [negb andb orb].
  - unfold mbind, M_bind. rewrite (upd_cmd_eq t (r <| q_cmd := c1' |>)) by apply put_cmd_lookup. rewrite put_cmd_put.
    rewrite (upd_cmd_eq t (r <| q_cmd := put_control (rw_control (q_flags r)) c1' |>)) by apply put_cmd_lookup. rewrite put_cmd_put.
    eexists. split; [done|]. intros _. split; [|done]. rewrite Z.lor_0_r. apply names_blocks_dsmgmt, Hn.
  - destruct (q_integrity r || nvme_ns_has_pi (cfg_head cfg)) eqn:Ei.
    2: { apply orb_false_iff in Ei as [Ei1 Ei2]. rewrite Ei1, Ei2. eexists. split; [reflexivity|done]. }
    replace (negb (q_integrity r) && negb (nvme_ns_has_pi (cfg_head cfg))) with false
      by (rewrite <- negb_orb, Ei; done).
    set (control := if q_integrity r then rw_control (q_flags r) else Z.lor (rw_control (q_flags r)) NVME_RW_PRINFO_PRACT).
    assert (Z.lor (rw_control (q_flags r)) (if q_integrity r then 0 else NVME_RW_PRINFO_PRACT) = control) as Ec
      by (unfold control; destruct (q_integrity r); [by rewrite Z.lor_0_r|done]).
    rewrite (Z.lor_assoc (rw_control (q_flags r))), Ec.
    assert (∀ m x c2, (∀ s, m (put_cmd t r c1' s) = (Ok tt, put_cmd t r c2 s)) → names_blocks (cfg_head cfg) op (q_pos r) (q_bytes r) x c2 →
      ∃ c, (m;; upd_cmd t (λ c, c <| e_cdw13 := rw_dsmgmt (q_flags r) |>);; mret BLK_STS_OK) (put_cmd t r c1' s)
        = (Ok BLK_STS_OK, put_cmd t r c s)
        ∧ (true = true → names_blocks (cfg_head cfg) op (q_pos r) (q_bytes r) x c ∧ e_cdw13 c = rw_dsmgmt (q_flags r))) as Hfin.
    { intros m x c2 Em2 Hx. eexists. rewrite (bind_ok _ _ _ _ _ (Em2 s)), bind_upd_put. split; [done|]. intros _. split; [|done].
      by apply names_blocks_dsmgmt. }
    fold control.
    destruct (bool_decide (pi_type (cfg_head cfg) = 3)).
    { apply (Hfin _ _ (put_control (Z.lor control NVME_RW_PRINFO_PRCHK_GUARD) c1')); [|by apply Hn].
      intros s0. rewrite (upd_cmd_eq t (r <| q_cmd := c1' |>)) by apply put_cmd_lookup. by rewrite put_cmd_put. }
    destruct (bool_decide (pi_type (cfg_head cfg) = 1) || bool_decide (pi_type (cfg_head cfg) = 2)).
    + set (control2 := if bool_decide (op = nvme_cmd_zone_append) then _ else _).
      apply (Hfin _ _ (put_control control2 (nvme_set_ref_tag cfg ans c1'))).
      * intros s0. unfold mbind, M_bind. rewrite (upd_cmd_eq t (r <| q_cmd := c1' |>)) by apply put_cmd_lookup.
        rewrite put_cmd_put, (upd_cmd_eq t (r <| q_cmd := nvme_set_ref_tag cfg ans c1' |>)) by apply put_cmd_lookup.
        by rewrite put_cmd_put.
      * rewrite put_control_tag. apply names_blocks_tag.
        replace (Z.lor control _) with control2; [by apply Hn|].
        unfold control2. destruct (bool_decide (op = nvme_cmd_zone_append)); [symmetry; apply Z.lor_assoc|by rewrite Z.lor_0_r].
    + apply (Hfin _ _ (put_control control c1')); [|rewrite Z.lor_0_r; by apply Hn].
      intros s0. rewrite (upd_cmd_eq t (r <| q_cmd := c1' |>)) by apply put_cmd_lookup. by rewrite put_cmd_put.
Qed.

(** ** From the request to the entry *)

Definition block_op (cfg : core_cfg) (op : req_op) : option Z :=
  match op with
  | REQ_OP_READ => Some nvme_cmd_read
  | REQ_OP_WRITE => Some nvme_cmd_write
  | REQ_OP_ZONE_APPEND => Some nvme_cmd_zone_append
  | REQ_OP_WRITE_ZEROES => if quirk_deallocate_zeroes cfg then None else Some nvme_cmd_write_zeroes
  | _ => None
  end.

Definition block_supported (cfg : core_cfg) (r : core_request) : bool :=
  bool_decide (q_op r = REQ_OP_WRITE_ZEROES) || rw_supported cfg r.

Definition block_control (cfg : core_cfg) (r : core_request) (op : Z) : Z :=
  let head := cfg_head cfg in
  if bool_decide (q_op r = REQ_OP_WRITE_ZEROES) then
    Z.lor (if negb (f_nounmap (q_flags r)) && ns_deac head then NVME_WZ_DEAC else 0)
          (if nvme_ns_has_pi head then NVME_RW_PRINFO_PRACT else 0)
  else wanted_control cfg r op.

Lemma setup_wz_result cfg ans t r c0 s :
  9 ≤ lba_shift (cfg_head cfg) → io_aligned (cfg_head cfg) (q_pos r) (q_bytes r) →
  q_op r = REQ_OP_WRITE_ZEROES → quirk_deallocate_zeroes cfg = false →
  ∃ c, nvme_setup_write_zeroes cfg ans t (put_cmd t r c0 s) = (Ok BLK_STS_OK, put_cmd t r c s)
    ∧ names_blocks (cfg_head cfg) nvme_cmd_write_zeroes (q_pos r) (q_bytes r)
        (block_control cfg r nvme_cmd_write_zeroes) c.
Proof.
  intros Hs Ha Eo Eq. unfold nvme_setup_write_zeroes. rewrite bind_upd_put, Eq, bind_get_put, bind_upd_put.
  eexists. split; [reflexivity|]. unfold block_control. rewrite bool_decide_true by done.
  cbn [set set_q_cmd q_flags q_pos q_bytes].
  set (deac := if negb (f_nounmap (q_flags r)) && ns_deac (cfg_head cfg) then NVME_WZ_DEAC else 0).
  assert (∀ control, names_blocks (cfg_head cfg) nvme_cmd_write_zeroes (q_pos r) (q_bytes r) control
    (put_control control (put_length (Z.shiftr (q_bytes r) (lba_shift (cfg_head cfg)) - 1)
      (put_slba (nvme_sect_to_lba (cfg_head cfg) (q_pos r))
        (zero_sqe <| e_opcode := nvme_cmd_write_zeroes |> <| e_nsid := ns_id (cfg_head cfg) |>))))) as Hn
    by (intros control; by eapply names_blocks_built).
  destruct (nvme_ns_has_pi (cfg_head cfg)); [|rewrite Z.lor_0_r; apply Hn].
  destruct (_ || _); [apply names_blocks_tag|]; apply Hn.
Qed.

Lemma setup_block_cmd cfg ans t r s op :
  9 ≤ lba_shift (cfg_head cfg) → io_aligned (cfg_head cfg) (q_pos r) (q_bytes r) →
  k_reqs s !! t = Some r → block_op cfg (q_op r) = Some op →
  ∃ c, snvme_setup_cmd cfg ans t s
      = (Ok (if block_supported cfg r then BLK_STS_OK else BLK_STS_NOTSUPP), put_cmd t (cleared r) c s)
    ∧ e_command_id c = nvme_cid (q_nvme (cleared r)) (q_tag r)
    ∧ (block_supported cfg r = true →
       names_blocks (cfg_head cfg) op (q_pos r) (q_bytes r) (block_control cfg r op) c).
Proof.
  intros Hs Ha Er Eop.
  assert (q_tag (cleared r) = q_tag r ∧ q_integrity (cleared r) = q_integrity r) as [Et Ei] by (unfold cleared; by destruct (q_dontprep r)).
  destruct (cleared_same r) as ((Eo & Ef & Ep & Eb & _) & _).
  assert (rw_supported cfg (cleared r) = rw_supported cfg r) as Esup by (unfold rw_supported; by rewrite Ei).
  assert (∀ op0, wanted_control cfg (cleared r) op0 = wanted_control cfg r op0) as Ewc by (intros; unfold wanted_control; by rewrite Ei, Ef).
  rewrite <- Ep, <- Eb in Ha |- *.
  assert (∀ (m : KM blk_status) ret P, (∃ c, m (put_cmd t (cleared r) (q_cmd (cleared r)) s) = (Ok ret, put_cmd t (cleared r) c s) ∧ P c) →
    (∀ c i, P c → P (c <| e_command_id := i |>)) →
    ∃ c, (m ≫= λ ret, r0 ← get_rq t; upd_cmd t (λ c, c <| e_command_id := nvme_cid (q_nvme r0) (q_tag r0) |>);; mret ret)
      (s <| k_reqs ::= <[t := cleared r]> |>) = (Ok ret, put_cmd t (cleared r) c s)
      ∧ e_command_id c = nvme_cid (q_nvme (cleared r)) (q_tag r) ∧ P c) as Hfin.
  { intros m ret P (c & Em & HP) Hst.
    assert (put_cmd t (cleared r) (q_cmd (cleared r)) s = s <| k_reqs ::= <[t := cleared r]> |>) as E0.
    { unfold put_cmd. do 2 f_equal. by destruct (cleared r). }
    rewrite E0 in Em. rewrite (bind_ok _ _ _ _ _ Em), bind_get_put, bind_upd_put.
    eexists. split; [reflexivity|]. split; [cbn; by rewrite Et|]. by apply Hst. }
  unfold snvme_setup_cmd. rewrite (bind_ok _ _ _ _ _ (get_rq_eq t r s Er)), (bind_ok _ _ _ _ _ (clear_eq t r s Er)). cbv zeta.
  unfold block_supported, block_control.
  destruct (q_op r) eqn:Eor; try discriminate Eop; cbn in Eop;
    try (simplify_eq; rewrite bool_decide_false by done; cbn [orb]; rewrite <- Ewc, <- Esup; apply Hfin;
         [edestruct (setup_rw_result cfg ans t (cleared r) (q_cmd (cleared r)) s) as (c & E & HP); [exact Hs|exact Ha|];
          exists c; split; [exact E|]; intros Hsup; by apply HP|done]).
  destruct (quirk_deallocate_zeroes cfg) eqn:Eq; [discriminate Eop|]. simplify_eq. rewrite bool_decide_true by done. cbn [orb].
  apply Hfin; [|done]. destruct (setup_wz_result cfg ans t (cleared r) (q_cmd (cleared r)) s Hs Ha) as (c & E & HP);
    [congruence|done|]. exists c. split; [done|]. intros _. revert HP. unfold block_control. rewrite bool_decide_true by congruence.
  by rewrite Ef.
Qed.

(** ** Discards *)

Definition discard_bytes (cfg : core_cfg) (r : core_request) : list (Z * Z) :=
  if bool_decide (queue_max_discard_segments cfg = 1) then [(q_pos r * 512, q_bytes r)]
  else map (λ b, (bi_sector b * 512, bi_size b)) (q_bios r).

Definition bio_aligned (head : nvme_ns_head) (b : Z * Z) : Prop :=
  (2 ^ lba_shift head | b.1) ∧ (2 ^ lba_shift head | b.2) ∧ 0 ≤ b.2 < 2 ^ 32.

Lemma wanted_ranges_bytes cfg r :
  9 ≤ lba_shift (cfg_head cfg) → Forall (bio_aligned (cfg_head cfg)) (discard_bytes cfg r) →
  map (range_bytes (cfg_head cfg)) (wanted_ranges cfg r) = discard_bytes cfg r.
Proof.
  intros Hs. unfold discard_bytes, wanted_ranges.
  assert (∀ pos size x, bio_aligned (cfg_head cfg) (pos * 512, size) →
    x = Z.shiftr size (lba_shift (cfg_head cfg)) →
    range_bytes (cfg_head cfg) (mk_range 0 (u32 x) (nvme_sect_to_lba (cfg_head cfg) pos)) = (pos * 512, size)) as Hone.
  { intros pos size x (Hp & [k Hb] & Hr) ->. unfold range_bytes. cbn in *.
    rewrite sect_to_lba_bytes by done. f_equal.
    assert (0 < 2 ^ lba_shift (cfg_head cfg)) by (apply Z.pow_pos_nonneg; lia).
    rewrite Z.shiftr_div_pow2 by lia. rewrite Hb in Hr |- *. rewrite Z.div_mul by lia. rewrite wrap_small by nia. done. }
  case_bool_decide.
  - intros [Ha _]%Forall_cons. cbn. f_equal. apply Hone; [done|].
    unfold SECTOR_SHIFT. rewrite Z.shiftr_shiftr by lia. f_equal. lia.
  - intros Ha. induction (q_bios r) as [|b bios IH]; [done|]. apply Forall_cons in Ha as [Ha Hrest].
    cbn. f_equal; [by apply Hone|by apply IH].
Qed.
