(* ===== verification/CoreIdent.v ===== *)
(** * CoreIdent: namespace identification (baseline/6.8/core.c)

    The parser of the namespace identification descriptor list and the
    generic namespace information gathered from the two Identify data
    structures.  The controller's answers are data: the status of each admin
    command and the bytes it wrote. *)
From S2P Require Import Prelude.

Definition NVME_IDENTIFY_DATA_SIZE : Z := 4096.
Definition NVME_NIDT_EUI64 : Z := 1.
Definition NVME_NIDT_NGUID : Z := 2.
Definition NVME_NIDT_UUID : Z := 3.
Definition NVME_NIDT_CSI : Z := 4.
Definition NVME_NIDT_EUI64_LEN : Z := 8.
Definition NVME_NIDT_NGUID_LEN : Z := 16.
Definition NVME_NIDT_UUID_LEN : Z := 16.
Definition NVME_NIDT_CSI_LEN : Z := 1.
(** sizeof(struct nvme_ns_id_desc): nidt, nidl and two reserved bytes. *)
Definition NS_DESC_SIZE : Z := 4.
Definition NVME_CSI_NVM : Z := 0.
Definition NVME_CSI_ZNS : Z := 2.
Definition NVME_NS_NMIC_SHARED : Z := 1.
Definition NVME_NS_ATTR_RO : Z := 1.
Definition NVME_NSTAT_NRDY : Z := 1.

Definition NVME_VS (major minor tertiary : Z) : Z :=
  Z.lor (Z.lor (Z.shiftl major 16) (Z.shiftl minor 8)) tertiary.

Record nvme_ns_ids : Type := mk_ids {
  eui64 : list Z;
  nguid : list Z;
  ids_uuid : list Z;
  ids_csi : Z;
}.

#[export] Instance nvme_ns_ids_eq_dec : EqDecision nvme_ns_ids.
Proof. solve_decision. Defined.

Definition zero_ids : nvme_ns_ids := mk_ids (replicate 8 0) (replicate 16 0) (replicate 16 0) 0.

Record nvme_ns_info : Type := mk_info {
  info_ids : nvme_ns_ids;
  info_nsid : Z;
  info_anagrpid : Z;
  is_shared : bool;
  is_readonly : bool;
  is_ready : bool;
  is_removed : bool;
}.

(** What identification depends on in struct nvme_ctrl. *)
Record ident_ctrl : Set := mk_ictrl {
  ic_vs : Z;
  ic_multi_css : bool;             (* nvme_multi_css *)
  ic_crims : bool;                 (* cap & NVME_CAP_CRMS_CRIMS *)
  quirk_no_ns_desc_list : bool;
  quirk_bogus_nid : bool;
}.

Definition nvme_ns_ids_equal (a b : nvme_ns_ids) : bool :=
  bool_decide (ids_uuid a = ids_uuid b) && bool_decide (nguid a = nguid b)
  && bool_decide (eui64 a = eui64 b) && bool_decide (ids_csi a = ids_csi b).

(** ** The descriptor list *)

(** The parser's output: the identifiers and whether a CSI was seen. *)
Definition IM := M (nvme_ns_ids * bool).

(** Read [n] bytes at [pos] of a buffer. *)
Definition read_bytes (data : list Z) (pos n : Z) : IM (list Z) :=
  if bool_decide (0 ≤ pos ∧ pos + n ≤ Z.of_nat (length data))
  then mret (take (Z.to_nat n) (drop (Z.to_nat pos) data)) else crash OutOfBounds.
Definition read_byte (data : list Z) (pos : Z) : IM Z :=
  l ← read_bytes data pos 1; from_opt OutOfBounds (head l).

Definition set_eui64 (x : list Z) : IM unit :=
  modify (λ '(i, b), (mk_ids x (nguid i) (ids_uuid i) (ids_csi i), b)).
Definition set_nguid (x : list Z) : IM unit :=
  modify (λ '(i, b), (mk_ids (eui64 i) x (ids_uuid i) (ids_csi i), b)).
Definition set_uuid (x : list Z) : IM unit :=
  modify (λ '(i, b), (mk_ids (eui64 i) (nguid i) x (ids_csi i), b)).
Definition set_csi (x : Z) : IM unit :=
  modify (λ '(i, _), (mk_ids (eui64 i) (nguid i) (ids_uuid i) x, true)).

Section ident.
Context (c : ident_ctrl) (data : list Z).

(** The descriptor at [pos]; -1 for a bogus length. *)
Definition nvme_process_ns_desc (pos : Z) : IM Z :=
  nidt ← read_byte data pos;
  nidl ← read_byte data (pos + 1);
  if bool_decide (nidt = NVME_NIDT_EUI64) then
    if negb (bool_decide (nidl = NVME_NIDT_EUI64_LEN)) then mret (-1)
    else if quirk_bogus_nid c then mret NVME_NIDT_EUI64_LEN
    else x ← read_bytes data (pos + NS_DESC_SIZE) NVME_NIDT_EUI64_LEN; set_eui64 x;; mret NVME_NIDT_EUI64_LEN
  else if bool_decide (nidt = NVME_NIDT_NGUID) then
    if negb (bool_decide (nidl = NVME_NIDT_NGUID_LEN)) then mret (-1)
    else if quirk_bogus_nid c then mret NVME_NIDT_NGUID_LEN
    else x ← read_bytes data (pos + NS_DESC_SIZE) NVME_NIDT_NGUID_LEN; set_nguid x;; mret NVME_NIDT_NGUID_LEN
  else if bool_decide (nidt = NVME_NIDT_UUID) then
    if negb (bool_decide (nidl = NVME_NIDT_UUID_LEN)) then mret (-1)
    else if quirk_bogus_nid c then mret NVME_NIDT_UUID_LEN
    else x ← read_bytes data (pos + NS_DESC_SIZE) NVME_NIDT_UUID_LEN; set_uuid x;; mret NVME_NIDT_UUID_LEN
  else if bool_decide (nidt = NVME_NIDT_CSI) then
    if negb (bool_decide (nidl = NVME_NIDT_CSI_LEN)) then mret (-1)
    else x ← read_byte data (pos + NS_DESC_SIZE); set_csi x;; mret NVME_NIDT_CSI_LEN
  else mret nidl.

(** The loop over the data; [fuel] bounds the number of descriptors. *)
Fixpoint desc_loop (fuel : nat) (pos : Z) : IM unit :=
  if negb (bool_decide (pos < NVME_IDENTIFY_DATA_SIZE)) then mret tt
  else match fuel with
       | O => crash OutOfFuel
       | S fuel =>
           nidl ← read_byte data (pos + 1);
           if bool_decide (nidl = 0) then mret tt
           else
             len ← nvme_process_ns_desc pos;
             if bool_decide (len < 0) then mret tt
             else desc_loop fuel (pos + (len + NS_DESC_SIZE))
       end.

(** Every descriptor takes at least five bytes. *)
Definition desc_fuel : nat := 820.

End ident.

(** [alloc]: the buffer was allocated; [status], [data]: result of the
    Identify command and the buffer after it. *)
Definition nvme_identify_ns_descs (c : ident_ctrl) (alloc : bool) (status : Z) (data : list Z) : IM Z :=
  if bool_decide (ic_vs c < NVME_VS 1 3 0) && negb (ic_multi_css c) then mret 0
  else if quirk_no_ns_desc_list c then mret 0
  else if negb alloc then mret (- ENOMEM)
  else if negb (bool_decide (status = 0)) then mret status
  else
    desc_loop c data desc_fuel 0;;
    p ← gets id;
    if ic_multi_css c && negb p.2 then mret (- EINVAL) else mret 0.

(** ** Generic namespace information *)

(** The fields of struct nvme_id_ns read here. *)
Record nvme_id_ns : Type := mk_id_ns {
  id_ncap : Z;
  id_anagrpid : Z;
  id_nmic : Z;
  id_nsattr : Z;
  id_eui64 : list Z;
  id_nguid : list Z;
}.

(** !memchr_inv(x, 0, n) *)
Definition all_zero (x : list Z) : bool := forallb (λ b, bool_decide (b = 0)) x.

(** [ret]: result of nvme_identify_ns, with the structure it read. *)
Definition nvme_ns_info_from_identify (c : ident_ctrl) (ret : Z) (id : nvme_id_ns) (info : nvme_ns_info)
    : Z * nvme_ns_info :=
  if negb (bool_decide (ret = 0)) then (ret, info)
  else if bool_decide (id_ncap id = 0) then
    (- ENODEV, mk_info (info_ids info) (info_nsid info) (info_anagrpid info) (is_shared info)
                 (is_readonly info) (is_ready info) true)
  else
    let ids := info_ids info in
    let ids :=
      if quirk_bogus_nid c then ids
      else
        let e := if bool_decide (NVME_VS 1 1 0 ≤ ic_vs c) && all_zero (eui64 ids) then id_eui64 id else eui64 ids in
        let g := if bool_decide (NVME_VS 1 2 0 ≤ ic_vs c) && all_zero (nguid ids) then id_nguid id else nguid ids in
        mk_ids e g (ids_uuid ids) (ids_csi ids) in
    (0, mk_info ids (info_nsid info) (id_anagrpid id)
          (negb (bool_decide (Z.land (id_nmic id) NVME_NS_NMIC_SHARED = 0)))
          (negb (bool_decide (Z.land (id_nsattr id) NVME_NS_ATTR_RO = 0))) true (is_removed info)).

(** struct nvme_id_ns_cs_indep *)
Record nvme_id_ns_cs_indep : Type := mk_id_indep {
  ii_anagrpid : Z;
  ii_nmic : Z;
  ii_nsattr : Z;
  ii_nstat : Z;
}.

Definition nvme_ns_info_from_id_cs_indep (alloc : bool) (ret : Z) (id : nvme_id_ns_cs_indep)
    (info : nvme_ns_info) : Z * nvme_ns_info :=
  if negb alloc then (- ENOMEM, info)
  else if negb (bool_decide (ret = 0)) then (ret, info)
  else (0, mk_info (info_ids info) (info_nsid info) (ii_anagrpid id)
             (negb (bool_decide (Z.land (ii_nmic id) NVME_NS_NMIC_SHARED = 0)))
             (negb (bool_decide (Z.land (ii_nsattr id) NVME_NS_ATTR_RO = 0)))
             (negb (bool_decide (Z.land (ii_nstat id) NVME_NSTAT_NRDY = 0))) (is_removed info)).
