(* ===== verification/CoreIdentSpec.v ===== *)
(** * CoreIdentSpec: descriptors as data, their encoding, and the parser

    An encoder for lists of namespace identification descriptors, which the
    parser inverts, and how far past its buffer the parser can read. *)
From S2P Require Import Prelude.
From S2P Require Import CoreIdent.

Inductive ns_desc : Type :=
  | DescEui64 (x : list Z)
  | DescNguid (x : list Z)
  | DescUuid (x : list Z)
  | DescCsi (x : Z)
  | DescOther (nidt : Z) (x : list Z).

Definition desc_nidt (d : ns_desc) : Z :=
  match d with
  | DescEui64 _ => NVME_NIDT_EUI64
  | DescNguid _ => NVME_NIDT_NGUID
  | DescUuid _ => NVME_NIDT_UUID
  | DescCsi _ => NVME_NIDT_CSI
  | DescOther t _ => t
  end.

Definition desc_payload (d : ns_desc) : list Z :=
  match d with
  | DescEui64 x | DescNguid x | DescUuid x | DescOther _ x => x
  | DescCsi x => [x]
  end.

Definition desc_ok (d : ns_desc) : Prop :=
  match d with
  | DescEui64 x => length x = 8%nat
  | DescNguid x | DescUuid x => length x = 16%nat
  | DescCsi _ => True
  | DescOther t x => ¬ 1 ≤ t ≤ 4 ∧ (1 ≤ length x < 256)%nat
  end.

Definition encode_desc (d : ns_desc) : list Z :=
  [desc_nidt d; Z.of_nat (length (desc_payload d)); 0; 0] ++ desc_payload d.

Definition encode_descs (ds : list ns_desc) : list Z := mjoin (encode_desc <$> ds).

(** What a descriptor says of the namespace. *)
Definition apply_desc (c : ident_ctrl) (st : nvme_ns_ids * bool) (d : ns_desc) : nvme_ns_ids * bool :=
  let '(i, seen) := st in
  match d with
  | DescEui64 x => if quirk_bogus_nid c then st else (mk_ids x (nguid i) (ids_uuid i) (ids_csi i), seen)
  | DescNguid x => if quirk_bogus_nid c then st else (mk_ids (eui64 i) x (ids_uuid i) (ids_csi i), seen)
  | DescUuid x => if quirk_bogus_nid c then st else (mk_ids (eui64 i) (nguid i) x (ids_csi i), seen)
  | DescCsi x => (mk_ids (eui64 i) (nguid i) (ids_uuid i) x, true)
  | DescOther _ _ => st
  end.

(** ** Reading *)

Lemma read_bytes_eq data pos n st :
  0 ≤ pos → pos + n ≤ Z.of_nat (length data) →
  read_bytes data pos n st = (Ok (take (Z.to_nat n) (drop (Z.to_nat pos) data)), st).
Proof. intros H1 H2. unfold read_bytes. by rewrite bool_decide_true. Qed.

Lemma read_bytes_at pre x post n st :
  n = Z.of_nat (length x) →
  read_bytes (pre ++ x ++ post) (Z.of_nat (length pre)) n st = (Ok x, st).
Proof.
  intros ->. rewrite read_bytes_eq by (rewrite ?length_app; lia).
  by rewrite !Nat2Z.id, drop_app_length, take_app_length.
Qed.

Lemma read_byte_at pre b post st :
  read_byte (pre ++ b :: post) (Z.of_nat (length pre)) st = (Ok b, st).
Proof.
  unfold read_byte. rewrite (bind_ok _ _ _ _ _ (read_bytes_at pre [b] post 1 st eq_refl)). done.
Qed.

Lemma read_byte_total data pos st :
  0 ≤ pos < Z.of_nat (length data) → ∃ b, b ∈ data ∧ read_byte data pos st = (Ok b, st).
Proof.
  intros Hp. destruct (lookup_lt_is_Some_2 data (Z.to_nat pos)) as [b Hb]; [lia|]. exists b.
  split; [by eapply list_elem_of_lookup_2|]. apply list_elem_of_split_length in Hb as (l1 & l2 & -> & Hl).
  replace pos with (Z.of_nat (length l1)) by lia. apply read_byte_at.
Qed.

(** ** The parser inverts the encoder *)

Lemma encode_desc_length d : length (encode_desc d) = (4 + length (desc_payload d))%nat.
Proof. done. Qed.

Lemma encode_descs_cons d ds : encode_descs (d :: ds) = encode_desc d ++ encode_descs ds.
Proof. done. Qed.

Lemma process_desc_at c pre d post st :
  desc_ok d →
  nvme_process_ns_desc c (pre ++ encode_desc d ++ post) (Z.of_nat (length pre)) st
    = (Ok (Z.of_nat (length (desc_payload d))), apply_desc c st d).
Proof.
  intros Hd. unfold nvme_process_ns_desc.
  set (data := pre ++ encode_desc d ++ post).
  assert (read_byte data (Z.of_nat (length pre)) st = (Ok (desc_nidt d), st)) as E1 by apply read_byte_at.
  assert (∀ st, read_byte data (Z.of_nat (length pre) + 1) st = (Ok (Z.of_nat (length (desc_payload d))), st)) as E2.
  { intros st'. pose proof (read_byte_at (pre ++ [desc_nidt d]) (Z.of_nat (length (desc_payload d))) ([0; 0] ++ desc_payload d ++ post) st') as E.
    rewrite <- app_assoc in E. rewrite length_app in E. cbn [length] in E. rewrite Nat2Z.inj_add in E. exact E. }
  assert (∀ n st, n = Z.of_nat (length (desc_payload d)) →
    read_bytes data (Z.of_nat (length pre) + NS_DESC_SIZE) n st = (Ok (desc_payload d), st)) as E3.
  { intros n st' Hn. pose proof (read_bytes_at (pre ++ [desc_nidt d; Z.of_nat (length (desc_payload d)); 0; 0]) (desc_payload d) post n st' Hn) as E.
    rewrite <- app_assoc in E. rewrite length_app in E. cbn [length] in E. rewrite Nat2Z.inj_add in E. exact E. }
  rewrite (bind_ok _ _ _ _ _ E1), (bind_ok _ _ _ _ _ (E2 st)). destruct st as [i seen].
  destruct d as [x|x|x|x|nt x]; cbn [desc_nidt desc_payload desc_ok apply_desc length] in *.
  1-4: repeat (case_bool_decide; try done; cbn [negb]);
    try (rewrite Hd in *; unfold NVME_NIDT_EUI64_LEN, NVME_NIDT_NGUID_LEN, NVME_NIDT_UUID_LEN in *; lia);
    try (destruct (quirk_bogus_nid c); [by rewrite Hd|]).
  - rewrite (bind_ok _ _ _ _ _ (E3 NVME_NIDT_EUI64_LEN _ ltac:(by rewrite Hd))). by rewrite Hd.
  - rewrite (bind_ok _ _ _ _ _ (E3 NVME_NIDT_NGUID_LEN _ ltac:(by rewrite Hd))). by rewrite Hd.
  - rewrite (bind_ok _ _ _ _ _ (E3 NVME_NIDT_UUID_LEN _ ltac:(by rewrite Hd))). by rewrite Hd.
  - unfold read_byte at 1, mbind, M_bind. by rewrite (E3 1).
  - destruct Hd as [Hn Hl]. unfold NVME_NIDT_EUI64, NVME_NIDT_NGUID, NVME_NIDT_UUID, NVME_NIDT_CSI.
    rewrite !bool_decide_false by lia. done.
Qed.

Lemma desc_loop_encode c data ds pre post fuel st :
  data = pre ++ encode_descs ds ++ post → Forall desc_ok ds →
  (length pre + length (encode_descs ds) ≤ Z.to_nat NVME_IDENTIFY_DATA_SIZE)%nat →
  ((length pre + length (encode_descs ds))%nat = Z.to_nat NVME_IDENTIFY_DATA_SIZE ∨ post !! 1%nat = Some 0) →
  (length ds < fuel)%nat →
  desc_loop c data fuel (Z.of_nat (length pre)) st = (Ok tt, foldl (apply_desc c) st ds).
Proof.
  revert pre fuel st. induction ds as [|d ds IH]; intros pre fuel st -> Hok Hle Hend Hf; (destruct fuel as [|fuel]; [lia|]); cbn [desc_loop foldl].
  - cbn in *. case_bool_decide as Hp; cbn [negb]; [|done].
    destruct Hend as [?|Hz]; [unfold NVME_IDENTIFY_DATA_SIZE in *; lia|].
    destruct post as [|b0 [|b1 post]]; try discriminate Hz. cbn in Hz. simplify_eq.
    pose proof (read_byte_at (pre ++ [b0]) 0 post st) as E. rewrite <- app_assoc, length_app in E. cbn in E. rewrite Nat2Z.inj_add in E.
    rewrite (bind_ok _ _ _ _ _ E). done.
  - apply Forall_cons in Hok as [Hd Hok]. rewrite encode_descs_cons in *.
    rewrite length_app, encode_desc_length in *. rewrite <- app_assoc in *.
    rewrite bool_decide_true by (unfold NVME_IDENTIFY_DATA_SIZE in *; lia). cbn [negb].
    set (rest := encode_descs ds ++ post) in *.
    pose proof (read_byte_at (pre ++ [desc_nidt d]) (Z.of_nat (length (desc_payload d))) ([0; 0] ++ desc_payload d ++ rest) st) as E.
    rewrite <- app_assoc, length_app in E. cbn [length] in E. rewrite Nat2Z.inj_add in E.
    change ([desc_nidt d] ++ Z.of_nat (length (desc_payload d)) :: [0; 0] ++ desc_payload d ++ rest) with (encode_desc d ++ rest) in E.
    rewrite (bind_ok _ _ _ _ _ E).
    assert (0 < length (desc_payload d))%nat by (destruct d; cbn in *; lia).
    rewrite bool_decide_false by lia. rewrite (bind_ok _ _ _ _ _ (process_desc_at c pre d rest st Hd)).
    rewrite bool_decide_false by lia.
    replace (Z.of_nat (length pre) + (Z.of_nat (length (desc_payload d)) + NS_DESC_SIZE))
      with (Z.of_nat (length (pre ++ encode_desc d))) by (rewrite length_app, encode_desc_length; unfold NS_DESC_SIZE; lia).
    apply IH; [by rewrite <- !app_assoc|done|rewrite length_app, encode_desc_length; lia| |cbn in Hf; lia].
    destruct Hend as [?|?]; [left; rewrite length_app, encode_desc_length; lia|by right].
Qed.

(** Every descriptor takes five bytes at least. *)
Lemma encode_descs_length ds : Forall desc_ok ds → (5 * length ds ≤ length (encode_descs ds))%nat.
Proof.
  induction 1 as [|d ds Hd _ IH]; [cbn; lia|]. rewrite encode_descs_cons. cbn [length].
  rewrite length_app, encode_desc_length. assert (0 < length (desc_payload d))%nat by (destruct d; cbn in *; lia). lia.
Qed.

(** ** How far the parser reads *)

Lemma process_desc_total c data pos st :
  Forall (fits 8) data → 0 ≤ pos → pos + 20 ≤ Z.of_nat (length data) →
  ∃ len st', nvme_process_ns_desc c data pos st = (Ok len, st')
    ∧ (0 ≤ len → ∃ nidl, read_byte data (pos + 1) st = (Ok nidl, st) ∧ len = nidl).
Proof.
  intros Hb Hp Hl. unfold nvme_process_ns_desc, NS_DESC_SIZE.
  destruct (read_byte_total data pos st) as (t & _ & Et); [lia|]. destruct (read_byte_total data (pos + 1) st) as (l & _ & El); [lia|].
  rewrite (bind_ok _ _ _ _ _ Et), (bind_ok _ _ _ _ _ El).
  assert (∀ n st, 0 ≤ n ≤ 16 → ∃ x, read_bytes data (pos + 4) n st = (Ok x, st)) as Hx
    by (intros n st' Hn; eexists; apply read_bytes_eq; lia).
  unfold NVME_NIDT_EUI64_LEN, NVME_NIDT_NGUID_LEN, NVME_NIDT_UUID_LEN, NVME_NIDT_CSI_LEN.
  repeat case_bool_decide; cbn [negb]; try (destruct (quirk_bogus_nid c));
    try (eexists _, st; split; [done|]; intros ?; solve [lia|exists l; split; [done|lia]]).
  all: destruct (Hx 8 st) as [x8 E8], (Hx 16 st) as [x16 E16]; [lia..|].
  all: destruct (read_byte_total data (pos + 4) st) as (x1 & _ & E1); [lia|].
  all: first [rewrite (bind_ok _ _ _ _ _ E8)|rewrite (bind_ok _ _ _ _ _ E16)|rewrite (bind_ok _ _ _ _ _ E1)].
  all: destruct st; eexists _, _; (split; [reflexivity|]); intros ?; exists l; (split; [done|lia]).
Qed.

Lemma desc_loop_total c data fuel pos st :
  Forall (fits 8) data → NVME_IDENTIFY_DATA_SIZE + 19 ≤ Z.of_nat (length data) →
  0 ≤ pos → NVME_IDENTIFY_DATA_SIZE ≤ pos + 5 * Z.of_nat fuel →
  ∃ st', desc_loop c data fuel pos st = (Ok tt, st').
Proof.
  intros Hb Hl. revert pos st. induction fuel as [|fuel IH]; intros pos st Hp Hf; cbn [desc_loop].
  - rewrite bool_decide_false by lia. by eexists.
  - case_bool_decide as Hlt; cbn [negb]; [|by eexists].
    destruct (read_byte_total data (pos + 1) st) as (l & Hin & El); [lia|]. rewrite (bind_ok _ _ _ _ _ El).
    rewrite Forall_forall in Hb. pose proof (Hb l Hin) as Hfit. unfold fits in Hfit. rewrite <- Forall_forall in Hb.
    case_bool_decide; [by eexists|].
    destruct (process_desc_total c data pos st Hb Hp) as (len & st' & E & Hlen); [lia|]. rewrite (bind_ok _ _ _ _ _ E).
    case_bool_decide; [by eexists|]. destruct Hlen as (nidl & E' & ->); [lia|]. rewrite El in E'. simplify_eq.
    apply IH; unfold NS_DESC_SIZE; lia.
Qed.
