(* ===== verification/CoreScan.v ===== *)
(** * CoreScan: the namespaces of a controller (baseline/6.8/core.c)

    The list of namespaces, ordered by identifier, with their reference
    counts; finding, adding and removing one; validating or creating the
    namespace behind an identifier; scanning the controller's list of active
    namespaces.  Namespaces are objects of a heap, so a reference dropped too
    early is a use after free.  Disks, sysfs and multipath are answers. *)
From S2P Require Import Prelude.
From S2P Require Import CoreCtrl.
From S2P Require Import CoreIdent.

Definition NVME_SC_INVALID_NS : Z := 11.
(** NVME_IDENTIFY_DATA_SIZE / sizeof(__le32) *)
Definition NS_LIST_ENTRIES : nat := 1024.

(** struct nvme_ns with the identity its head carries. *)
Record nvme_ns : Type := mk_ns {
  n_nsid : Z;
  n_ids : nvme_ns_ids;
  n_kref : Z;
  n_removing : bool;      (* NVME_NS_REMOVING *)
}.

(** [sc_list] is ctrl->namespaces, [sc_refs] the controller's references,
    [sc_frozen] NVME_CTRL_FROZEN. *)
Record scan_state : Type := mk_scan {
  sc_heap : gmap nat nvme_ns;
  sc_list : list nat;
  sc_fresh : nat;
  sc_refs : Z;
  sc_frozen : bool;
}.

#[export] Instance set_n_kref : Setter n_kref := λ f r, mk_ns (n_nsid r) (n_ids r) (f (n_kref r)) (n_removing r).
#[export] Instance set_n_removing : Setter n_removing := λ f r, mk_ns (n_nsid r) (n_ids r) (n_kref r) (f (n_removing r)).
#[export] Instance set_sc_heap : Setter sc_heap := λ f r,
  mk_scan (f (sc_heap r)) (sc_list r) (sc_fresh r) (sc_refs r) (sc_frozen r).
#[export] Instance set_sc_list : Setter sc_list := λ f r,
  mk_scan (sc_heap r) (f (sc_list r)) (sc_fresh r) (sc_refs r) (sc_frozen r).
#[export] Instance set_sc_fresh : Setter sc_fresh := λ f r,
  mk_scan (sc_heap r) (sc_list r) (f (sc_fresh r)) (sc_refs r) (sc_frozen r).
#[export] Instance set_sc_refs : Setter sc_refs := λ f r,
  mk_scan (sc_heap r) (sc_list r) (sc_fresh r) (f (sc_refs r)) (sc_frozen r).

Notation SM := (M scan_state).

Definition deref_ns (p : nat) : SM nvme_ns := s ← gets id; from_opt UseAfterFree (sc_heap s !! p).
Definition upd_ns (p : nat) (f : nvme_ns → nvme_ns) : SM unit :=
  n ← deref_ns p; modify (λ s, s <| sc_heap ::= <[p := f n]> |>).

(** ** References *)

(** kref_get_unless_zero *)
Definition nvme_get_ns (p : nat) : SM bool :=
  n ← deref_ns p;
  if bool_decide (n_kref n = 0) then mret false
  else upd_ns p (λ n, n <| n_kref ::= λ k, k + 1 |>);; mret true.

Definition nvme_free_ns (p : nat) : SM unit :=
  modify (λ s, s <| sc_refs ::= λ k, k - 1 |>);;
  modify (λ s, s <| sc_heap ::= delete p |>).

Definition snvme_put_ns (p : nat) : SM unit :=
  upd_ns p (λ n, n <| n_kref ::= λ k, k - 1 |>);;
  n ← deref_ns p;
  when (bool_decide (n_kref n = 0)) (nvme_free_ns p).

(** ** The list *)

Fixpoint find_get_loop (nsid : Z) (l : list nat) : SM (option nat) :=
  match l with
  | [] => mret None
  | p :: l =>
      n ← deref_ns p;
      if bool_decide (n_nsid n = nsid) then
        ok ← nvme_get_ns p;
        if (ok : bool) then mret (Some p) else find_get_loop nsid l
      else if bool_decide (nsid < n_nsid n) then mret None
      else find_get_loop nsid l
  end.

Definition snvme_find_get_ns (nsid : Z) : SM (option nat) :=
  s ← gets id; find_get_loop nsid (sc_list s).

(** list_for_each_entry_reverse: behind the last namespace with a smaller
    identifier, else at the front; [rl] is the list from its end, [suffix]
    what has been passed. *)
Fixpoint add_reverse (h : gmap nat nvme_ns) (nsid : Z) (p : nat) (rl suffix : list nat) : outcome (list nat) :=
  match rl with
  | [] => Ok (p :: suffix)
  | q :: rl =>
      match h !! q with
      | None => Fault UseAfterFree
      | Some n =>
          if bool_decide (n_nsid n < nsid) then Ok (rev rl ++ q :: p :: suffix)
          else add_reverse h nsid p rl (q :: suffix)
      end
  end.

Definition nvme_ns_add_to_ctrl_list (p : nat) : SM unit :=
  n ← deref_ns p;
  s ← gets id;
  match add_reverse (sc_heap s) (n_nsid n) p (rev (sc_list s)) [] with
  | Ok l => modify (λ s, s <| sc_list := l |>)
  | Err e => fail e
  | Fault f => crash f
  end.

(** Answers while a namespace is created: the allocations, nvme_init_ns_head,
    nvme_update_ns_info and device_add_disk. *)
Record alloc_answers : Set := mk_alloc {
  al_ns : bool;
  al_disk : bool;
  al_init_head : Z;
  al_update : Z;
  al_add_disk : Z;
}.

(** [out_unlink_ns], [out_cleanup_disk] and [out_free_ns] undo what is
    outside this state, then free the object. *)
Definition kfree_ns (p : nat) : SM unit :=
  _ ← deref_ns p; modify (λ s, s <| sc_heap ::= delete p |>).

Definition nvme_alloc_ns (al : alloc_answers) (info : nvme_ns_info) : SM unit :=
  if negb (al_ns al) then mret tt
  else
    s ← gets id;
    let p := sc_fresh s in
    modify (λ s, s <| sc_heap ::= <[p := mk_ns (info_nsid info) (info_ids info) 1 false]> |> <| sc_fresh ::= S |>);;
    if negb (al_disk al) then kfree_ns p
    else if negb (bool_decide (al_init_head al = 0)) then kfree_ns p
    else if negb (bool_decide (al_update al = 0)) then kfree_ns p
    else if sc_frozen s then kfree_ns p
    else
      nvme_ns_add_to_ctrl_list p;;
      modify (λ s, s <| sc_refs ::= λ k, k + 1 |>);;
      if negb (bool_decide (al_add_disk al = 0)) then
        modify (λ s, s <| sc_refs ::= λ k, k - 1 |>);;
        modify (λ s, s <| sc_list ::= without p |>);;
        kfree_ns p
      else mret tt.

(** list_del_init works on whichever list the namespace is on: the
    controller's, or a local one that only its caller reads. *)
Definition nvme_ns_remove (p : nat) : SM unit :=
  n ← deref_ns p;
  if n_removing n then mret tt
  else
    upd_ns p (λ n, n <| n_removing := true |>);;
    modify (λ s, s <| sc_list ::= without p |>);;
    snvme_put_ns p.

Definition nvme_ns_remove_by_nsid (nsid : Z) : SM unit :=
  o ← snvme_find_get_ns nsid;
  match o with
  | Some p => nvme_ns_remove p;; snvme_put_ns p
  | None => mret tt
  end.

(** [upd]: the result of nvme_update_ns_info. *)
Definition nvme_validate_ns (p : nat) (info : nvme_ns_info) (upd : Z) : SM unit :=
  n ← deref_ns p;
  let ret := if negb (nvme_ns_ids_equal (n_ids n) (info_ids info))
             then Z.lor NVME_SC_INVALID_NS NVME_STATUS_DNR else upd in
  when (bool_decide (0 < ret) && negb (bool_decide (Z.land ret NVME_STATUS_DNR = 0))) (nvme_ns_remove p).

Fixpoint move_above (nsid : Z) (l : list nat) : SM (list nat * list nat) :=
  match l with
  | [] => mret ([], [])
  | p :: l =>
      n ← deref_ns p;
      '(kept, moved) ← move_above nsid l;
      mret (if bool_decide (nsid < n_nsid n) then (kept, p :: moved) else (p :: kept, moved))
  end.

Definition nvme_remove_invalid_namespaces (nsid : Z) : SM unit :=
  s ← gets id;
  '(kept, moved) ← move_above nsid (sc_list s);
  modify (λ s, s <| sc_list := kept |>);;
  for_each nvme_ns_remove moved.

(** ** Scanning *)

(** Everything the controller and the allocators answer about one
    identifier. *)
Record ns_answers : Type := mk_nsans {
  na_desc_alloc : bool;
  na_desc_status : Z;
  na_desc_data : list Z;
  na_indep_alloc : bool;
  na_indep_ret : Z;
  na_indep : nvme_id_ns_cs_indep;
  na_ident_ret : Z;
  na_ident : nvme_id_ns;
  na_update : Z;
  na_alloc : alloc_answers;
}.

Section scan.
Context (c : ident_ctrl) (env : Z → ns_answers).

(** The part of nvme_scan_ns that asks the controller: [None] when the scan
    of this identifier stops before any namespace is looked at. *)
Definition gather_info (nsid : Z) : outcome (option (Z * nvme_ns_info)) :=
  let a := env nsid in
  match nvme_identify_ns_descs c (na_desc_alloc a) (na_desc_status a) (na_desc_data a) (zero_ids, false) with
  | (Ok ret, (ids, _)) =>
      if negb (bool_decide (ret = 0)) then Ok None
      else if negb (bool_decide (ids_csi ids = NVME_CSI_NVM)) && negb (ic_multi_css c) then Ok None
      else
        let info := mk_info ids nsid 0 false false false false in
        if ic_crims c || (negb (bool_decide (ids_csi ids = NVME_CSI_NVM))
                          && negb (bool_decide (ids_csi ids = NVME_CSI_ZNS)))
        then Ok (Some (nvme_ns_info_from_id_cs_indep (na_indep_alloc a) (na_indep_ret a) (na_indep a) info))
        else Ok (Some (nvme_ns_info_from_identify c (na_ident_ret a) (na_ident a) info))
  | (Err e, _) => Err e
  | (Fault f, _) => Fault f
  end.

Definition nvme_scan_ns (nsid : Z) : SM unit :=
  match gather_info nsid with
  | Ok None => mret tt
  | Ok (Some (ret, info)) =>
      when (is_removed info) (nvme_ns_remove_by_nsid nsid);;
      if negb (bool_decide (ret = 0)) || negb (is_ready info) then mret tt
      else
        o ← snvme_find_get_ns nsid;
        match o with
        | Some p => nvme_validate_ns p info (na_update (env nsid));; snvme_put_ns p
        | None => nvme_alloc_ns (na_alloc (env nsid)) info
        end
  | Err e => fail e
  | Fault f => crash f
  end.

(** [while (++prev < nsid)]: the identifiers passed over, and the final
    [prev]. *)
Definition remove_gap (prev nsid : Z) : SM Z :=
  let prev := u32 (prev + 1) in
  for_each nvme_ns_remove_by_nsid (seqZ prev (nsid - prev));;
  mret (Z.max prev nsid).

(** The entries of one list: [inl prev] when the list was full, [inr prev]
    at its end. *)
Fixpoint scan_entries (prev : Z) (l : list Z) : SM (Z + Z) :=
  match l with
  | [] => mret (inl prev)
  | nsid :: l =>
      if bool_decide (nsid = 0) then mret (inr prev)
      else
        nvme_scan_ns nsid;;
        prev ← remove_gap prev nsid;
        scan_entries prev l
  end.

Context (active_list : Z → Z * list Z).  (* Identify, CNS 02h: status and data *)

Fixpoint scan_lists (fuel : nat) (prev : Z) : SM Z :=
  match fuel with
  | O => crash OutOfFuel
  | S fuel =>
      let '(ret, ns_list) := active_list prev in
      if negb (bool_decide (ret = 0)) then mret ret
      else
        r ← scan_entries prev ns_list;
        match r with
        | inl prev => scan_lists fuel prev
        | inr prev => nvme_remove_invalid_namespaces prev;; mret 0
        end
  end.

Definition nvme_scan_ns_list (fuel : nat) (alloc : bool) : SM Z :=
  if negb alloc then mret (- ENOMEM) else scan_lists fuel 0.

(** [ident]: result of nvme_identify_ctrl with the number of namespaces.
    The loop counter is a u32, so [i <= nn] never fails for the largest one. *)
Definition nvme_scan_ns_sequential (ident : Z * Z) : SM unit :=
  let '(ret, nn) := ident in
  if negb (bool_decide (ret = 0)) then mret tt
  else
    for_each nvme_scan_ns (seqZ 1 nn);;
    when (bool_decide (nn = 2 ^ 32 - 1)) (crash OutOfFuel);;
    nvme_remove_invalid_namespaces nn.

Definition nvme_ctrl_limited_cns (quirk_identify_cns : bool) : bool :=
  if quirk_identify_cns then bool_decide (ic_vs c < NVME_VS 1 2 0) else bool_decide (ic_vs c < NVME_VS 1 1 0).

(** [limits]: the result of nvme_init_non_mdts_limits. *)
Definition nvme_scan_work (k : nvme_ctrl) (limits : Z) (quirk_identify_cns : bool) (fuel : nat) (alloc : bool)
    (ident : Z * Z) : SM unit :=
  if negb (bool_decide (nc_state k = NVME_CTRL_LIVE)) || negb (nc_tagset k) then mret tt
  else if bool_decide (limits < 0) then mret tt
  else if nvme_ctrl_limited_cns quirk_identify_cns then nvme_scan_ns_sequential ident
  else
    ret ← nvme_scan_ns_list fuel alloc;
    when (bool_decide (0 < ret) && negb (bool_decide (Z.land ret NVME_STATUS_DNR = 0)))
      (nvme_scan_ns_sequential ident).

End scan.

(** The whole list goes; queues are unquiesced and the state changed by the
    caller's other calls. *)
Definition remove_all_namespaces : SM unit :=
  s ← gets id;
  modify (λ s, s <| sc_list := [] |>);;
  for_each nvme_ns_remove (sc_list s).
