(* ===== verification/CoreScanSpec.v ===== *)
(** * CoreScanSpec: scanning refines a map from identifiers to namespaces

    [rep base l s]: the state's list holds the namespaces of [l] in order of
    their identifiers, each with one reference and none being removed, and
    nothing else is allocated.  Every operation is specified as a function on
    such lists, and a scan as a function of the map [ns_map l]. *)
From stdpp Require Import sorting.
From S2P Require Import Prelude.
From S2P Require Import CoreCtrl.
From S2P Require Import CoreIdent.
From S2P Require Import CoreScan.

Notation entry := (nat * nvme_ns)%type.
Implicit Types (l : list entry) (e : entry) (p : nat).

Definition entry_nsid e : Z := n_nsid e.2.

Record rep (base : Z) l (s : scan_state) : Prop := {
  rp_list : sc_list s = l.*1;
  rp_heap : sc_heap s = list_to_map l;
  rp_nodup : NoDup l.*1;
  rp_fresh : Forall (λ p, (p < sc_fresh s)%nat) l.*1;
  rp_sorted : StronglySorted Z.lt (entry_nsid <$> l);
  rp_one : Forall (λ e, n_kref e.2 = 1 ∧ n_removing e.2 = false) l;
  rp_refs : sc_refs s = base + Z.of_nat (length l);
}.

(** The abstract state of a controller. *)
Definition ns_map l : gmap Z nvme_ns_ids := list_to_map ((λ e, (entry_nsid e, n_ids e.2)) <$> l).

(** ** Lists of entries *)

Lemma list_filter_all {A} (P : A → Prop) `{∀ x, Decision (P x)} (l : list A) : Forall P l → filter P l = l.
Proof. induction 1 as [|x l Hx _ IH]; [done|]. by rewrite filter_cons_True, IH. Qed.

Lemma list_filter_none {A} (P : A → Prop) `{∀ x, Decision (P x)} (l : list A) : Forall (λ x, ¬ P x) l → filter P l = [].
Proof. induction 1 as [|x l Hx _ IH]; [done|]. by rewrite filter_cons_False. Qed.

Lemma heap_at l1 p n l2 : NoDup (l1 ++ (p, n) :: l2).*1 → (list_to_map (l1 ++ (p, n) :: l2) : gmap nat nvme_ns) !! p = Some n.
Proof.
  intros Hnd. apply elem_of_list_to_map; [done|]. apply elem_of_app. right. by left.
Qed.

Lemma heap_delete l1 p n l2 :
  NoDup (l1 ++ (p, n) :: l2).*1 →
  delete p (list_to_map (l1 ++ (p, n) :: l2) : gmap nat nvme_ns) = list_to_map (l1 ++ l2).
Proof.
  intros Hnd. rewrite !list_to_map_app. cbn. rewrite fmap_app in Hnd. cbn in Hnd.
  apply NoDup_app in Hnd as (_ & Hd & [Hp _]%NoDup_cons).
  rewrite delete_union. f_equal.
  - apply delete_id. apply not_elem_of_list_to_map_1. intros Hin. apply (Hd p Hin). by left.
  - rewrite delete_insert_id; [done|]. by apply not_elem_of_list_to_map_1.
Qed.

Lemma heap_insert l1 p n n' l2 :
  NoDup (l1 ++ (p, n) :: l2).*1 →
  <[p := n']> (list_to_map (l1 ++ (p, n) :: l2) : gmap nat nvme_ns) = list_to_map (l1 ++ (p, n') :: l2).
Proof.
  intros Hnd. rewrite !list_to_map_app. cbn. rewrite fmap_app in Hnd. cbn in Hnd.
  apply NoDup_app in Hnd as (_ & Hd & [Hp _]%NoDup_cons).
  rewrite insert_union_r by (apply not_elem_of_list_to_map_1; intros Hin; apply (Hd p Hin); by left).
  by rewrite insert_insert_eq.
Qed.

Lemma sorted_app_lt (l1 l2 : list Z) x y :
  StronglySorted Z.lt (l1 ++ l2) → x ∈ l1 → y ∈ l2 → x < y.
Proof.
  induction l1 as [|z l1 IH]; intros Hs Hx Hy; [by apply elem_of_nil in Hx|].
  apply StronglySorted_inv in Hs as [Hs Hall]. apply elem_of_cons in Hx as [->|Hx]; [|by apply IH].
  rewrite Forall_forall in Hall. apply Hall. apply elem_of_app. by right.
Qed.

Lemma sorted_remove (l1 l2 : list Z) x : StronglySorted Z.lt (l1 ++ x :: l2) → StronglySorted Z.lt (l1 ++ l2).
Proof.
  induction l1 as [|z l1 IH]; cbn; intros Hs; apply StronglySorted_inv in Hs as [Hs Hall]; [done|].
  constructor; [by apply IH|]. apply Forall_app in Hall as [H1 H2]. apply Forall_app. split; [done|]. by inversion H2.
Qed.

Lemma sorted_insert (l1 l2 : list Z) x :
  StronglySorted Z.lt (l1 ++ l2) → Forall (λ y, y < x) l1 → Forall (λ y, x < y) l2 →
  StronglySorted Z.lt (l1 ++ x :: l2).
Proof.
  induction l1 as [|z l1 IH]; cbn; intros Hs H1 H2; [by constructor|].
  apply StronglySorted_inv in Hs as [Hs Hall]. inversion H1; subst. constructor; [by apply IH|].
  apply Forall_app in Hall as [? ?]. apply Forall_app. split; [done|]. by constructor.
Qed.

Lemma sorted_nodup (l : list Z) : StronglySorted Z.lt l → NoDup l.
Proof.
  induction 1 as [|x l _ IH Hall]; constructor; [|done]. intros Hin. rewrite Forall_forall in Hall.
  specialize (Hall x Hin). lia.
Qed.

Lemma rep_remove base l1 p n l2 s s' :
  rep base (l1 ++ (p, n) :: l2) s →
  sc_list s' = (l1 ++ l2).*1 → sc_heap s' = list_to_map (l1 ++ l2) → sc_fresh s' = sc_fresh s →
  sc_refs s' = sc_refs s - 1 → rep base (l1 ++ l2) s'.
Proof.
  intros [_ _ Hnd Hfr Hs Ho Hr] E1 E2 E3 E4. split; [done|done| | | | |].
  - rewrite fmap_app in Hnd |- *. cbn in Hnd. apply NoDup_app in Hnd as (? & Hd & [? ?]%NoDup_cons).
    apply NoDup_app. split_and!; [done| |done]. intros x Hx Hx2. apply (Hd x Hx). by right.
  - rewrite E3, fmap_app. rewrite fmap_app in Hfr. apply Forall_app in Hfr as [? Hc]. apply Forall_app.
    split; [done|]. by inversion Hc.
  - rewrite fmap_app in Hs |- *. by eapply sorted_remove.
  - apply Forall_app in Ho as [? Hc]. apply Forall_app. split; [done|]. by inversion Hc.
  - rewrite E4, Hr, !length_app. cbn. lia.
Qed.

(** ** The abstract map *)

Lemma ns_map_nodup l : StronglySorted Z.lt (entry_nsid <$> l) → NoDup (((λ e, (entry_nsid e, n_ids e.2)) <$> l).*1).
Proof. intros Hs. rewrite <- list_fmap_compose. by apply sorted_nodup. Qed.

Lemma ns_map_remove l1 p n l2 :
  StronglySorted Z.lt (entry_nsid <$> l1 ++ (p, n) :: l2) →
  ns_map (l1 ++ l2) = delete (n_nsid n) (ns_map (l1 ++ (p, n) :: l2)).
Proof.
  intros Hs. pose proof (ns_map_nodup _ Hs) as Hnd. unfold ns_map. rewrite !fmap_app, !list_to_map_app. cbn.
  rewrite !fmap_app in Hnd. cbn in Hnd. apply NoDup_app in Hnd as (_ & Hd & [Hp _]%NoDup_cons).
  rewrite delete_union. f_equal.
  - symmetry. apply delete_id. apply not_elem_of_list_to_map_1. intros Hin. apply (Hd _ Hin). by left.
  - rewrite delete_insert_id; [done|]. by apply not_elem_of_list_to_map_1.
Qed.

Lemma ns_map_insert l1 p n l2 :
  StronglySorted Z.lt (entry_nsid <$> l1 ++ (p, n) :: l2) →
  ns_map (l1 ++ (p, n) :: l2) = <[n_nsid n := n_ids n]> (ns_map (l1 ++ l2)).
Proof.
  intros Hs. pose proof (ns_map_nodup _ Hs) as Hnd. unfold ns_map. rewrite !fmap_app, !list_to_map_app. cbn.
  rewrite !fmap_app in Hnd. cbn in Hnd. apply NoDup_app in Hnd as (_ & Hd & [Hp _]%NoDup_cons).
  rewrite insert_union_r; [done|]. apply not_elem_of_list_to_map_1. intros Hin. apply (Hd _ Hin). by left.
Qed.

Lemma ns_map_at l1 p n l2 :
  StronglySorted Z.lt (entry_nsid <$> l1 ++ (p, n) :: l2) → ns_map (l1 ++ (p, n) :: l2) !! n_nsid n = Some (n_ids n).
Proof. intros Hs. rewrite ns_map_insert by done. apply lookup_insert_eq. Qed.

Lemma ns_map_none l nsid : nsid ∉ (entry_nsid <$> l) → ns_map l !! nsid = None.
Proof. intros H. apply not_elem_of_list_to_map_1. by rewrite <- list_fmap_compose. Qed.

(** ** References *)

Lemma deref_eq p n s : sc_heap s !! p = Some n → deref_ns p s = (Ok n, s).
Proof. intros E. unfold deref_ns, mbind, M_bind, gets. cbn. by rewrite E. Qed.

Lemma upd_ns_eq p n f s : sc_heap s !! p = Some n → upd_ns p f s = (Ok tt, s <| sc_heap ::= <[p := f n]> |>).
Proof. intros E. unfold upd_ns. by rewrite (bind_ok _ _ _ _ _ (deref_eq p n s E)). Qed.

(** The last reference frees the namespace and drops its hold on the
    controller. *)
Lemma put_ns_last p n s :
  sc_heap s !! p = Some n → n_kref n = 1 →
  snvme_put_ns p s = (Ok tt, s <| sc_heap ::= delete p |> <| sc_refs ::= λ k, k - 1 |>).
Proof.
  intros E Hk. unfold snvme_put_ns. rewrite (bind_ok _ _ _ _ _ (upd_ns_eq p n _ s E)).
  erewrite bind_ok; [|apply deref_eq, lookup_insert_eq].
  rewrite bool_decide_true by (cbn; lia). unfold nvme_free_ns, when, mbind, M_bind, modify, set, set_sc_heap, set_sc_refs. cbn.
  by rewrite delete_insert_eq.
Qed.

Lemma put_ns_not_last p n s :
  sc_heap s !! p = Some n → n_kref n ≠ 1 →
  snvme_put_ns p s = (Ok tt, s <| sc_heap ::= <[p := n <| n_kref ::= λ k, k - 1 |>]> |>).
Proof.
  intros E Hk. unfold snvme_put_ns. rewrite (bind_ok _ _ _ _ _ (upd_ns_eq p n _ s E)).
  erewrite bind_ok; [|apply deref_eq, lookup_insert_eq].
  by rewrite bool_decide_false by (cbn; lia).
Qed.

(** The state while a found namespace is held. *)
Definition held p n (s : scan_state) : scan_state := s <| sc_heap ::= <[p := n <| n_kref := 2 |>]> |>.

Lemma put_held p n s : sc_heap s !! p = Some n → n_kref n = 1 → snvme_put_ns p (held p n s) = (Ok tt, s).
Proof.
  intros E Hk. rewrite (put_ns_not_last p (n <| n_kref := 2 |>)) by (by apply lookup_insert_eq || done).
  f_equal. unfold held, set, set_sc_heap. destruct s; cbn in *. rewrite insert_insert_eq, insert_id; [done|].
  rewrite E. destruct n; cbn in *. by subst.
Qed.

Lemma get_ns_eq p n s : sc_heap s !! p = Some n → n_kref n = 1 → nvme_get_ns p s = (Ok true, held p n s).
Proof.
  intros E Hk. unfold nvme_get_ns. rewrite (bind_ok _ _ _ _ _ (deref_eq p n s E)), bool_decide_false by lia.
  rewrite (bind_ok _ _ _ _ _ (upd_ns_eq p n _ s E)). unfold held, set, set_n_kref. cbn. by rewrite Hk.
Qed.

(** Up to its last call, whoever else holds the namespace. *)
Lemma remove_start p n s :
  sc_heap s !! p = Some n → n_removing n = false →
  nvme_ns_remove p s
    = snvme_put_ns p (s <| sc_heap ::= <[p := n <| n_removing := true |>]> |> <| sc_list ::= without p |>).
Proof.
  intros E Hr. unfold nvme_ns_remove. rewrite (bind_ok _ _ _ _ _ (deref_eq p n s E)), Hr.
  rewrite (bind_ok _ _ _ _ _ (upd_ns_eq p n _ s E)). by rewrite bind_modify.
Qed.

Lemma remove_held p n s :
  sc_heap s !! p = Some n → n_removing n = false →
  (nvme_ns_remove p;; snvme_put_ns p) (held p n s)
    = (Ok tt, s <| sc_heap ::= delete p |> <| sc_list ::= without p |> <| sc_refs ::= λ k, k - 1 |>).
Proof.
  intros E Hr.
  assert (sc_heap (held p n s) !! p = Some (n <| n_kref := 2 |>)) as Eh by apply lookup_insert_eq.
  pose proof (remove_start p _ (held p n s) Eh Hr) as Em.
  rewrite (put_ns_not_last p (n <| n_kref := 2 |> <| n_removing := true |>)) in Em by (apply lookup_insert_eq || done).
  rewrite (bind_ok _ _ _ _ _ Em).
  rewrite (put_ns_last p (n <| n_kref := 1 |> <| n_removing := true |>)) by (apply lookup_insert_eq || done).
  f_equal. unfold held, set, set_sc_heap, set_sc_list, set_sc_refs. cbn. by rewrite !insert_insert_eq, delete_insert_eq.
Qed.

(** A namespace already off the list. *)
Lemma remove_unlisted p n s :
  sc_heap s !! p = Some n → n_removing n = false → n_kref n = 1 → p ∉ sc_list s →
  nvme_ns_remove p s = (Ok tt, s <| sc_heap ::= delete p |> <| sc_refs ::= λ k, k - 1 |>).
Proof.
  intros E Hr Hk Hp. rewrite (remove_start p n s E Hr).
  rewrite (put_ns_last p (n <| n_removing := true |>)) by (apply lookup_insert_eq || done).
  f_equal. unfold set, set_sc_heap, set_sc_list, set_sc_refs. cbn. rewrite without_notin by done.
  destruct s; cbn. by rewrite delete_insert_eq.
Qed.

(** ** Refinement of the abstract map *)

Section refine.
Context (base : Z) (frozen : bool).

Definition refines {A} (m : SM A) (a : A) (f : gmap Z nvme_ns_ids → gmap Z nvme_ns_ids) : Prop :=
  ∀ l s, rep base l s → sc_frozen s = frozen →
  ∃ l' s', m s = (Ok a, s') ∧ rep base l' s' ∧ sc_frozen s' = frozen ∧ ns_map l' = f (ns_map l).

Lemma refines_ret {A} (a : A) : refines (mret a) a id.
Proof. intros l s Hr Hf. by exists l, s. Qed.

Lemma refines_bind {A B} (m : SM A) (k : A → SM B) a b f g :
  refines m a f → refines (k a) b g → refines (m ≫= k) b (g ∘ f).
Proof.
  intros Hm Hk l s Hr Hf. destruct (Hm l s Hr Hf) as (l1 & s1 & E1 & Hr1 & Hf1 & Em1).
  destruct (Hk l1 s1 Hr1 Hf1) as (l2 & s2 & E2 & Hr2 & Hf2 & Em2). exists l2, s2.
  rewrite (bind_ok _ _ _ _ _ E1). split_and!; [done..|]. cbn. by rewrite Em2, Em1.
Qed.

Lemma refines_for_each {A} (F : A → SM unit) (f : A → gmap Z nvme_ns_ids → gmap Z nvme_ns_ids) xs :
  (∀ x, x ∈ xs → refines (F x) tt (f x)) → refines (for_each F xs) tt (λ m, foldl (λ m x, f x m) m xs).
Proof.
  induction xs as [|x xs IH]; intros HF; cbn; [by apply refines_ret|].
  refine (refines_bind _ _ tt tt (f x) (λ m, foldl (λ m x, f x m) m xs) _ _); [apply HF; by left|].
  apply IH. intros y Hy. apply HF. by right.
Qed.

Lemma refines_ext {A} (m : SM A) a f g : refines m a f → (∀ x, f x = g x) → refines m a g.
Proof. intros Hm E l s Hr Hf. destruct (Hm l s Hr Hf) as (l' & s' & ? & ? & ? & ?). exists l', s'. by rewrite <- E. Qed.

Lemma rep_at l1 p n l2 s : rep base (l1 ++ (p, n) :: l2) s → sc_heap s !! p = Some n ∧ n_kref n = 1 ∧ n_removing n = false.
Proof.
  intros [_ Eh Hnd _ _ Ho _]. rewrite Eh. split; [by apply heap_at|].
  apply Forall_app in Ho as [_ Ho]. by inversion Ho.
Qed.

Lemma rep_removed l1 p n l2 s :
  rep base (l1 ++ (p, n) :: l2) s →
  rep base (l1 ++ l2) (s <| sc_heap ::= delete p |> <| sc_list ::= without p |> <| sc_refs ::= λ k, k - 1 |>).
Proof.
  intros Hr. pose proof Hr as [El Eh Hnd _ _ _ _].
  eapply rep_remove; [exact Hr| | |done|done]; cbn.
  - rewrite El, !fmap_app. cbn. apply without_split. rewrite fmap_app in Hnd. done.
  - rewrite Eh. by apply heap_delete.
Qed.

(** Finding a namespace. *)
Lemma find_get_spec l s nsid :
  rep base l s →
  (∃ l1 p n l2, l = l1 ++ (p, n) :: l2 ∧ n_nsid n = nsid ∧ snvme_find_get_ns nsid s = (Ok (Some p), held p n s))
  ∨ (ns_map l !! nsid = None ∧ nsid ∉ (entry_nsid <$> l) ∧ snvme_find_get_ns nsid s = (Ok None, s)).
Proof.
  intros Hr. pose proof Hr as [El Eh Hnd _ Hs Ho _].
  assert (∀ l1 l2, l = l1 ++ l2 → nsid ∉ (entry_nsid <$> l1) →
    (∃ k1 p n k2, l = k1 ++ (p, n) :: k2 ∧ n_nsid n = nsid ∧ find_get_loop nsid l2.*1 s = (Ok (Some p), held p n s))
    ∨ (nsid ∉ (entry_nsid <$> l) ∧ find_get_loop nsid l2.*1 s = (Ok None, s))) as Hloop.
  { intros l1 l2. revert l1. induction l2 as [|[p n] l2 IH]; intros l1 E Hn; cbn [find_get_loop fmap list_fmap fst].
    - right. rewrite app_nil_r in E. by subst.
    - subst l. destruct (rep_at l1 p n l2 s Hr) as (Ep & Hk & _). rewrite (bind_ok _ _ _ _ _ (deref_eq p n s Ep)).
      case_bool_decide as Hd; [|case_bool_decide as Hlt].
      + left. exists l1, p, n, l2. split_and!; [done..|].
        rewrite (bind_ok _ _ _ _ _ (get_ns_eq p n s Ep Hk)). done.
      + right. split; [|done]. rewrite fmap_app. intros [Hin|Hin]%elem_of_app; [done|]. cbn in Hin.
        apply elem_of_cons in Hin as [->|Hin]; [by apply Hd|].
        rewrite fmap_app in Hs. apply StronglySorted_app_1_r in Hs. cbn in Hs. apply StronglySorted_inv in Hs as [_ Hall].
        rewrite Forall_forall in Hall. specialize (Hall nsid Hin). unfold entry_nsid in Hall. cbn in Hall. lia.
      + destruct (IH (l1 ++ [(p, n)])) as [(l1' & p' & n' & l2' & E' & ? & ?)|[? ?]].
        * by rewrite <- app_assoc.
        * rewrite fmap_app. intros [?|Hin]%elem_of_app; [done|]. cbn in Hin. apply list_elem_of_singleton in Hin. by apply Hd.
        * left. by exists l1', p', n', l2'.
        * by right. }
  unfold snvme_find_get_ns. rewrite (bind_ok _ _ s s s) by done. rewrite El.
  destruct (Hloop [] l eq_refl) as [?|[? ?]]; [by apply not_elem_of_nil|by left|right].
  split_and!; [by apply ns_map_none|done..].
Qed.

Lemma remove_by_nsid_refines nsid : refines (nvme_ns_remove_by_nsid nsid) tt (delete nsid).
Proof.
  intros l s Hr Hf. unfold nvme_ns_remove_by_nsid.
  destruct (find_get_spec l s nsid Hr) as [(l1 & p & n & l2 & -> & <- & E)|(Hn & _ & E)]; rewrite (bind_ok _ _ _ _ _ E).
  - destruct (rep_at _ _ _ _ _ Hr) as (Ep & Hk & Hrm). rewrite remove_held by done.
    eexists (l1 ++ l2), _. split_and!; [done|by apply (rep_removed _ _ n)|done|]. apply ns_map_remove, Hr.
  - exists l, s. split_and!; [done..|]. by rewrite delete_id.
Qed.

(** ** Removing everything above an identifier *)

(** A sorted list splits at an identifier. *)
Lemma split_at l nsid :
  StronglySorted Z.lt (entry_nsid <$> l) →
  ∃ lo hi, l = lo ++ hi ∧ Forall (λ e, entry_nsid e ≤ nsid) lo ∧ Forall (λ e, nsid < entry_nsid e) hi.
Proof.
  induction l as [|e l IH]; intros Hs; [by exists [], []|]. cbn in Hs. apply StronglySorted_inv in Hs as [Hs Hall].
  destruct (decide (entry_nsid e ≤ nsid)) as [Hle|Hgt].
  - destruct (IH Hs) as (lo & hi & -> & H1 & H2). exists (e :: lo), hi. split_and!; [done|by constructor|done].
  - exists [], (e :: l). split_and!; [done|done|]. constructor; [lia|]. rewrite Forall_fmap in Hall.
    eapply Forall_impl; [exact Hall|]. cbn. intros x Hx. lia.
Qed.

Lemma move_above_eq nsid l s :
  Forall (λ e, sc_heap s !! e.1 = Some e.2) l →
  move_above nsid l.*1 s = (Ok ((filter (λ e, entry_nsid e ≤ nsid) l).*1, (filter (λ e, nsid < entry_nsid e) l).*1), s).
Proof.
  induction 1 as [|[p n] l He _ IH]; [done|]. cbn [move_above fmap list_fmap fst]. cbn in He.
  rewrite (bind_ok _ _ _ _ _ (deref_eq p n s He)). rewrite (bind_ok _ _ _ _ _ IH). rewrite !filter_cons.
  change (entry_nsid (p, n)) with (n_nsid n).
  destruct (decide (nsid < n_nsid n)); [rewrite bool_decide_true, decide_False by lia|rewrite bool_decide_false, decide_True by lia]; done.
Qed.

Lemma remove_moved lo hi s :
  sc_list s = lo.*1 → sc_heap s = list_to_map (lo ++ hi) → NoDup (lo ++ hi).*1 →
  Forall (λ e, n_kref e.2 = 1 ∧ n_removing e.2 = false) hi →
  for_each nvme_ns_remove hi.*1 s
    = (Ok tt, s <| sc_heap := list_to_map lo |> <| sc_refs ::= λ k, k - Z.of_nat (length hi) |>).
Proof.
  revert s. induction hi as [|[p n] hi IH]; intros s El Eh Hnd Ho; cbn [for_each fmap list_fmap fst].
  - rewrite app_nil_r in Eh. unfold mret, M_ret. f_equal. destruct s; cbn in *. subst. unfold set, set_sc_heap, set_sc_refs. cbn.
    f_equal. lia.
  - apply Forall_cons in Ho as [[Hk Hrm] Ho]. cbn in Hk, Hrm.
    assert (sc_heap s !! p = Some n) as Ep by (rewrite Eh; by apply heap_at).
    assert (p ∉ sc_list s) as Hp.
    { rewrite El. intros Hin. rewrite fmap_app in Hnd. apply NoDup_app in Hnd as (_ & Hd & _). apply (Hd p Hin). by left. }
    rewrite (bind_ok _ _ _ _ _ (remove_unlisted p n s Ep Hrm Hk Hp)). rewrite IH; [|done| | |done].
    + f_equal. unfold set, set_sc_heap, set_sc_refs. destruct s; cbn. f_equal. lia.
    + cbn. rewrite Eh. by apply heap_delete.
    + rewrite fmap_app in Hnd |- *. cbn in Hnd. apply NoDup_app in Hnd as (? & Hd & [? ?]%NoDup_cons).
      apply NoDup_app. split_and!; [done| |done]. intros x Hx Hx2. apply (Hd x Hx). by right.
Qed.

Definition below (nsid : Z) (m : gmap Z nvme_ns_ids) : gmap Z nvme_ns_ids := filter (λ '(k, _), k ≤ nsid) m.

Lemma ns_map_app lo hi : ns_map (lo ++ hi) = ns_map lo ∪ ns_map hi.
Proof. unfold ns_map. by rewrite fmap_app, list_to_map_app. Qed.

Lemma ns_map_key l k i : ns_map l !! k = Some i → ∃ e, e ∈ l ∧ entry_nsid e = k.
Proof.
  intros H. apply elem_of_list_to_map_2, list_elem_of_fmap in H as (e & E & He). exists e. by simplify_eq/=.
Qed.

Lemma remove_invalid_refines nsid : refines (nvme_remove_invalid_namespaces nsid) tt (below nsid).
Proof.
  intros l s Hr Hf. pose proof Hr as [El Eh Hnd Hfr Hs Ho Href].
  destruct (split_at l nsid Hs) as (lo & hi & -> & Hlo & Hhi).
  assert (filter (λ e, entry_nsid e ≤ nsid) (lo ++ hi) = lo) as Elo.
  { rewrite filter_app, list_filter_all by done. rewrite list_filter_none; [apply app_nil_r|].
    eapply Forall_impl; [exact Hhi|]. cbn. lia. }
  assert (filter (λ e, nsid < entry_nsid e) (lo ++ hi) = hi) as Ehi.
  { rewrite filter_app. rewrite list_filter_none; [by rewrite list_filter_all|].
    eapply Forall_impl; [exact Hlo|]. cbn. lia. }
  apply Forall_app in Ho as [Ho1 Ho2]. exists lo. eexists. split.
  { unfold nvme_remove_invalid_namespaces. rewrite (bind_ok _ _ s s s) by done. rewrite El.
    erewrite (bind_ok (S := scan_state)); [|apply move_above_eq].
    - rewrite Elo, Ehi. rewrite bind_modify. apply remove_moved; [done|done|done|done].
    - rewrite Forall_forall. intros [p n] Hin. rewrite Eh. by apply elem_of_list_to_map. }
  split_and!; [|done|].
  - split; [done|done| | | |done|].
    + rewrite fmap_app in Hnd. by apply NoDup_app in Hnd as (? & _).
    + rewrite fmap_app in Hfr. by apply Forall_app in Hfr as [? _].
    + rewrite fmap_app in Hs. by eapply StronglySorted_app_1_l.
    + cbn. rewrite Href, length_app. lia.
  - rewrite ns_map_app. unfold below. apply map_eq. intros k. rewrite map_lookup_filter.
    destruct (ns_map lo !! k) as [i|] eqn:E.
    + rewrite (lookup_union_Some_l _ _ _ _ E). cbn.
      destruct (ns_map_key _ _ _ E) as (e & He & <-). rewrite Forall_forall in Hlo. specialize (Hlo e He).
      by rewrite option_guard_True.
    + rewrite lookup_union_r by done. destruct (ns_map hi !! k) as [i|] eqn:E2; [|done]. cbn.
      destruct (ns_map_key _ _ _ E2) as (e & He & <-). rewrite Forall_forall in Hhi. specialize (Hhi e He).
      rewrite option_guard_False; [done|]. lia.
Qed.

(** ** Adding a namespace *)

Lemma add_reverse_eq h nsid p l1 l2 :
  Forall (λ e, h !! e.1 = Some e.2) (l1 ++ l2) → Forall (λ e, entry_nsid e < nsid) l1 → Forall (λ e, nsid < entry_nsid e) l2 →
  add_reverse h nsid p (rev (l1 ++ l2).*1) [] = Ok (l1.*1 ++ p :: l2.*1).
Proof.
  intros Hh H1 H2.
  assert (∀ l2 suffix, Forall (λ e, h !! e.1 = Some e.2) (l1 ++ l2) → Forall (λ e, nsid < entry_nsid e) l2 →
    add_reverse h nsid p (rev (l1 ++ l2).*1) suffix = Ok (l1.*1 ++ p :: l2.*1 ++ suffix)) as Hgen.
  { clear l2 Hh H2. intros l2. induction l2 as [|[q n] l2 IH] using rev_ind; intros suffix Hh H2.
    - rewrite app_nil_r in *. destruct l1 as [|[q n] l1 _] using rev_ind; [done|].
      rewrite fmap_app, rev_app_distr. cbn. apply Forall_app in Hh as [_ Hq]. inversion Hq as [|? ? Hq' _]; subst. cbn in Hq'. rewrite Hq'.
      apply Forall_app in H1 as [_ Hlt]. inversion Hlt; subst. rewrite bool_decide_true by done.
      rewrite rev_involutive. cbn. by rewrite <- app_assoc.
    - rewrite app_assoc, fmap_app, rev_app_distr. cbn. rewrite app_assoc in Hh. apply Forall_app in Hh as [Hh Hq].
      inversion Hq as [|? ? Hq' _]; subst. cbn in Hq'. rewrite Hq'. apply Forall_app in H2 as [H2 Hgt]. inversion Hgt as [|? ? Hgt' _]; subst.
      unfold entry_nsid in Hgt'. cbn in Hgt'. rewrite bool_decide_false by lia. rewrite IH by done. rewrite fmap_app. cbn.
      by rewrite <- app_assoc. }
  rewrite Hgen by done. by rewrite app_nil_r.
Qed.

Definition alloc_ok (al : alloc_answers) : bool :=
  al_ns al && al_disk al && bool_decide (al_init_head al = 0) && bool_decide (al_update al = 0)
  && negb frozen && bool_decide (al_add_disk al = 0).

Lemma rep_more_fresh l s s' :
  rep base l s → sc_list s' = sc_list s → sc_heap s' = sc_heap s → sc_refs s' = sc_refs s →
  sc_fresh s' = S (sc_fresh s) → rep base l s'.
Proof.
  intros [? ? ? Hfr ? ? ?] E1 E2 E3 E4. split; try congruence.
  rewrite E4. eapply Forall_impl; [exact Hfr|]. cbn. lia.
Qed.

Lemma rep_insert l1 p n l2 s s' :
  rep base (l1 ++ l2) s → p = sc_fresh s → n_kref n = 1 → n_removing n = false →
  Forall (λ e, entry_nsid e < n_nsid n) l1 → Forall (λ e, n_nsid n < entry_nsid e) l2 →
  sc_list s' = l1.*1 ++ p :: l2.*1 → sc_heap s' = <[p := n]> (sc_heap s) → sc_fresh s' = S (sc_fresh s) →
  sc_refs s' = sc_refs s + 1 → rep base (l1 ++ (p, n) :: l2) s'.
Proof.
  intros [El Eh Hnd Hfr Hs Ho Hr] -> Hk Hrm H1 H2 E1 E2 E3 E4.
  assert (sc_fresh s ∉ (l1 ++ l2).*1) as Hp.
  { intros Hin. rewrite Forall_forall in Hfr. specialize (Hfr _ Hin). lia. }
  rewrite fmap_app in Hp, Hnd, Hfr. apply not_elem_of_app in Hp as [Hp1 Hp2].
  apply NoDup_app in Hnd as (Hn1 & Hd & Hn2). apply Forall_app in Hfr as [Hf1 Hf2]. apply Forall_app in Ho as [Ho1 Ho2]. split.
  - by rewrite E1, fmap_app.
  - rewrite E2, Eh, !list_to_map_app. cbn. rewrite insert_union_r; [done|by apply not_elem_of_list_to_map_1].
  - rewrite fmap_app. cbn. apply NoDup_app. split_and!; [done| |by constructor].
    intros x Hx [->|Hx2]%elem_of_cons; [done|]. by apply (Hd x).
  - rewrite E3, fmap_app. cbn. apply Forall_app. split; [eapply Forall_impl; [exact Hf1|cbn; lia]|].
    constructor; [lia|]. eapply Forall_impl; [exact Hf2|cbn; lia].
  - rewrite fmap_app in Hs |- *. cbn. apply sorted_insert; [done|by rewrite Forall_fmap|by rewrite Forall_fmap].
  - apply Forall_app. split; [done|]. by constructor.
  - rewrite E4, Hr, !length_app. cbn. lia.
Qed.

Lemma kfree_fresh p n s s1 :
  sc_heap s !! p = None → sc_heap s1 = <[p := n]> (sc_heap s) →
  kfree_ns p s1 = (Ok tt, s1 <| sc_heap := sc_heap s |>).
Proof.
  intros Hp E. unfold kfree_ns. rewrite (bind_ok _ _ _ n s1) by (apply deref_eq; rewrite E; apply lookup_insert_eq).
  unfold modify, set, set_sc_heap. destruct s1; cbn in *. by rewrite E, delete_insert_id.
Qed.

(** Split a list around an identifier it does not hold. *)
Lemma split_around l nsid :
  StronglySorted Z.lt (entry_nsid <$> l) → nsid ∉ (entry_nsid <$> l) →
  ∃ lo hi, l = lo ++ hi ∧ Forall (λ e, entry_nsid e < nsid) lo ∧ Forall (λ e, nsid < entry_nsid e) hi.
Proof.
  intros Hs Hn. destruct (split_at l nsid Hs) as (lo & hi & -> & Hlo & Hhi). exists lo, hi. split_and!; [done| |done].
  rewrite Forall_forall in Hlo |- *. intros e He. assert (entry_nsid e ≠ nsid); [|specialize (Hlo e He); lia].
  intros <-. apply Hn. rewrite fmap_app. apply elem_of_app. left. by apply list_elem_of_fmap_2.
Qed.

Lemma alloc_ns_spec al info l s :
  rep base l s → sc_frozen s = frozen → info_nsid info ∉ (entry_nsid <$> l) →
  ∃ l' s', nvme_alloc_ns al info s = (Ok tt, s') ∧ rep base l' s' ∧ sc_frozen s' = frozen
    ∧ ns_map l' = if alloc_ok al then <[info_nsid info := info_ids info]> (ns_map l) else ns_map l.
Proof.
  intros Hr Hf Hn. pose proof Hr as [El Eh Hnd Hfr Hs Ho Href]. unfold nvme_alloc_ns, alloc_ok.
  destruct (al_ns al); cbn [negb andb]; [|by exists l, s].
  rewrite (bind_ok _ _ s s s) by done. cbv zeta. set (p := sc_fresh s). set (n := mk_ns (info_nsid info) (info_ids info) 1 false).
  rewrite bind_modify. set (s1 := s <| sc_heap ::= <[p := n]> |> <| sc_fresh ::= S |>).
  assert (sc_heap s !! p = None) as Hp.
  { rewrite Eh. apply not_elem_of_list_to_map_1. intros Hin. rewrite Forall_forall in Hfr. specialize (Hfr _ Hin). unfold p in Hfr. lia. }
  assert (∀ s2, sc_heap s2 = <[p := n]> (sc_heap s) → sc_list s2 = sc_list s → sc_refs s2 = sc_refs s → sc_fresh s2 = S (sc_fresh s) →
    sc_frozen s2 = frozen →
    ∃ l' s', kfree_ns p s2 = (Ok tt, s') ∧ rep base l' s' ∧ sc_frozen s' = frozen ∧ ns_map l' = ns_map l) as Hfree.
  { intros s2 E1 E2 E3 E4 E5. exists l. eexists. split; [by apply (kfree_fresh p n s)|]. split_and!; [|done|done].
    by eapply rep_more_fresh. }
  destruct (al_disk al); cbn [negb andb]; [|by apply Hfree].
  case_bool_decide; cbn [negb andb]; [|by apply Hfree]. case_bool_decide; cbn [negb andb]; [|by apply Hfree].
  rewrite Hf. destruct frozen eqn:Hfz; cbn [negb andb]; [by apply Hfree|].
  destruct (split_around l _ Hs Hn) as (lo & hi & -> & Hlo & Hhi).
  assert (nvme_ns_add_to_ctrl_list p s1 = (Ok tt, s1 <| sc_list := lo.*1 ++ p :: hi.*1 |>)) as Eadd.
  { unfold nvme_ns_add_to_ctrl_list. rewrite (bind_ok _ _ _ n s1) by (apply deref_eq, lookup_insert_eq).
    rewrite (bind_ok _ _ s1 s1 s1) by done. cbn [sc_list]. change (sc_list s1) with (sc_list s). rewrite El.
    rewrite add_reverse_eq; [done| |done|done]. rewrite Forall_forall. intros [q m] Hin. cbn.
    rewrite lookup_insert_ne.
    - rewrite Eh. by apply elem_of_list_to_map.
    - intros Hq. apply (list_elem_of_fmap_2 fst) in Hin. cbn in Hin. rewrite Forall_forall in Hfr. specialize (Hfr _ Hin). unfold p in Hq. lia. }
  rewrite (bind_ok _ _ _ _ _ Eadd). rewrite bind_modify. case_bool_decide; cbn [negb andb].
  - exists (lo ++ (p, n) :: hi). eexists. split; [done|]. split_and!; [|done|].
    + by eapply (rep_insert lo p n hi s).
    + assert (StronglySorted Z.lt (entry_nsid <$> lo ++ (p, n) :: hi)) as Hs'.
      { rewrite fmap_app in Hs |- *. cbn. apply sorted_insert; [done|by rewrite Forall_fmap|by rewrite Forall_fmap]. }
      by rewrite (ns_map_insert _ _ _ _ Hs').
  - rewrite !bind_modify. apply Hfree; try done.
    + cbn. rewrite El, fmap_app. apply without_split.
      rewrite fmap_app in Hnd, Hfr. apply NoDup_app in Hnd as (Hn1 & Hd & Hn2). apply Forall_app in Hfr as [Hf1 Hf2].
      rewrite Forall_forall in Hf1, Hf2.
      apply NoDup_app. split_and!; [done| |constructor; [|done]].
      * intros x Hx [->|Hx2]%elem_of_cons; [specialize (Hf1 _ Hx); unfold p in Hf1; lia|]. by apply (Hd x).
      * intros Hin. specialize (Hf2 _ Hin). unfold p in Hf2. lia.
    + cbn. lia.
Qed.

(** ** One identifier *)

Section scan_one.
Context (c : ident_ctrl) (env : Z → ns_answers).

(** Does validation remove a namespace that carries [i]? *)
Definition fatal (i : nvme_ns_ids) (info : nvme_ns_info) (upd : Z) : bool :=
  let ret := if nvme_ns_ids_equal i (info_ids info) then upd else Z.lor NVME_SC_INVALID_NS NVME_STATUS_DNR in
  bool_decide (0 < ret) && negb (bool_decide (Z.land ret NVME_STATUS_DNR = 0)).

(** What a scan makes of the namespace behind an identifier. *)
Definition settle (nsid ret : Z) (info : nvme_ns_info) (old : option nvme_ns_ids) : option nvme_ns_ids :=
  if negb (bool_decide (ret = 0)) || negb (is_ready info) then old
  else match old with
       | Some i => if fatal i info (na_update (env nsid)) then None else Some i
       | None => if alloc_ok (na_alloc (env nsid)) then Some (info_ids info) else None
       end.

Definition after_scan (nsid : Z) (old : option nvme_ns_ids) : option nvme_ns_ids :=
  match gather_info c env nsid with
  | Ok (Some (ret, info)) => settle nsid ret info (if is_removed info then None else old)
  | _ => old
  end.

Lemma gather_nsid nsid ret info : gather_info c env nsid = Ok (Some (ret, info)) → info_nsid info = nsid.
Proof.
  unfold gather_info, nvme_ns_info_from_id_cs_indep, nvme_ns_info_from_identify. intros E.
  repeat (case_match; simplify_eq/=; try done).
Qed.

Lemma validate_refines l s l1 p n l2 info upd :
  rep base l s → sc_frozen s = frozen → l = l1 ++ (p, n) :: l2 →
  ∃ l' s', (nvme_validate_ns p info upd;; snvme_put_ns p) (held p n s) = (Ok tt, s') ∧ rep base l' s' ∧ sc_frozen s' = frozen
    ∧ ns_map l' = if fatal (n_ids n) info upd then delete (n_nsid n) (ns_map l) else ns_map l.
Proof.
  intros Hr Hf ->. destruct (rep_at _ _ _ _ _ Hr) as (Ep & Hk & Hrm).
  assert (nvme_validate_ns p info upd (held p n s)
    = when (fatal (n_ids n) info upd) (nvme_ns_remove p) (held p n s)) as Ev.
  { unfold nvme_validate_ns. rewrite (bind_ok _ _ _ (n <| n_kref := 2 |>) (held p n s)) by (apply deref_eq, lookup_insert_eq).
    unfold fatal. cbn [n_ids set set_n_kref]. by destruct (nvme_ns_ids_equal _ _). }
  destruct (fatal (n_ids n) info upd) eqn:Ef; cbn [when] in Ev.
  - pose proof (remove_held p n s Ep Hrm) as E. unfold mbind, M_bind in E |- *. rewrite Ev, E.
    eexists (l1 ++ l2), _. split_and!; [done|by apply (rep_removed _ _ n)|done|]. apply ns_map_remove, Hr.
  - unfold mbind, M_bind. rewrite Ev. cbn. rewrite put_held by done. by eexists _, s.
Qed.

Lemma scan_ns_refines nsid :
  (∃ o, gather_info c env nsid = Ok o) →
  refines (nvme_scan_ns c env nsid) tt (partial_alter (after_scan nsid) nsid).
Proof.
  intros [o Eg] l s Hr Hf. unfold nvme_scan_ns, after_scan. rewrite Eg.
  destruct o as [[ret info]|].
  2: { exists l, s. split_and!; [done..|]. symmetry. apply map_eq. intros k.
    destruct (decide (k = nsid)) as [->|Hne]; [by rewrite lookup_partial_alter_eq|by rewrite lookup_partial_alter_ne]. }
  pose proof (gather_nsid _ _ _ Eg) as Ensid.
  assert (∃ l1 s1, when (is_removed info) (nvme_ns_remove_by_nsid nsid) s = (Ok tt, s1) ∧ rep base l1 s1 ∧ sc_frozen s1 = frozen
    ∧ ns_map l1 = if is_removed info then delete nsid (ns_map l) else ns_map l) as (l1 & s1 & E1 & Hr1 & Hf1 & Em1).
  { destruct (is_removed info); [by apply remove_by_nsid_refines|by exists l, s]. }
  rewrite (bind_ok _ _ _ _ _ E1).
  assert (ns_map l1 !! nsid = if is_removed info then None else ns_map l !! nsid) as Elk
    by (rewrite Em1; destruct (is_removed info); [by rewrite lookup_delete_eq|done]).
  assert (∀ l' s', rep base l' s' → sc_frozen s' = frozen → ns_map l' !! nsid = settle nsid ret info (ns_map l1 !! nsid) →
    (∀ k, k ≠ nsid → ns_map l' !! k = ns_map l1 !! k) →
    ∃ l'' s'', (Ok tt, s') = (Ok tt, s'') ∧ rep base l'' s'' ∧ sc_frozen s'' = frozen
      ∧ ns_map l'' = partial_alter (λ old, settle nsid ret info (if is_removed info then None else old)) nsid (ns_map l)) as Hdone.
  { intros l' s' Hr' Hf' Ev Hk. exists l', s'. split_and!; [done..|]. apply map_eq. intros k.
    destruct (decide (k = nsid)) as [->|Hne]; [by rewrite lookup_partial_alter_eq, Ev, Elk|].
    rewrite lookup_partial_alter_ne, (Hk k Hne), Em1 by done. destruct (is_removed info); [by rewrite lookup_delete_ne|done]. }
  unfold settle in Hdone at 1. destruct (negb (bool_decide (ret = 0)) || negb (is_ready info)); [by apply (Hdone l1 s1)|].
  destruct (find_get_spec l1 s1 nsid Hr1) as [(k1 & p & n & k2 & El1 & Enn & E)|(Hnone & Hnin & E)]; rewrite (bind_ok _ _ _ _ _ E).
  - destruct (validate_refines l1 s1 k1 p n k2 info (na_update (env nsid)) Hr1 Hf1 El1) as (l2 & s2 & E2 & Hr2 & Hf2 & Em2).
    assert (ns_map l1 !! nsid = Some (n_ids n)) as Ei by (rewrite El1, <- Enn; apply ns_map_at; subst l1; apply Hr1).
    rewrite E2. apply (Hdone l2 s2); [done|done| |]; rewrite ?Ei.
    + rewrite Em2, Enn. destruct (fatal _ _ _); [by rewrite lookup_delete_eq|done].
    + intros k Hk. rewrite Em2, Enn. destruct (fatal _ _ _); [by rewrite lookup_delete_ne|done].
  - destruct (alloc_ns_spec (na_alloc (env nsid)) info l1 s1 Hr1 Hf1) as (l2 & s2 & E2 & Hr2 & Hf2 & Em2); [by rewrite Ensid|].
    rewrite E2. apply (Hdone l2 s2); [done|done| |]; rewrite ?Hnone.
    + rewrite Em2, Ensid. destruct (alloc_ok _); [by rewrite lookup_insert_eq|done].
    + intros k Hk. rewrite Em2, Ensid. destruct (alloc_ok _); [by rewrite lookup_insert_ne|done].
Qed.

(** ** Lists of identifiers *)

(** The identifiers of [xs] scanned in turn, those passed over removed. *)
Fixpoint scan_map (prev : Z) (xs : list Z) (m : gmap Z nvme_ns_ids) : gmap Z nvme_ns_ids :=
  match xs with
  | [] => m
  | x :: xs =>
      scan_map x xs (foldl (λ m y, delete y m) (partial_alter (after_scan x) x m) (seqZ (prev + 1) (x - (prev + 1))))
  end.

Fixpoint last_of (prev : Z) (xs : list Z) : Z := match xs with [] => prev | x :: xs => last_of x xs end.

Lemma lookup_delete_all ys (m : gmap Z nvme_ns_ids) k :
  foldl (λ m y, delete y m) m ys !! k = if decide (k ∈ ys) then None else m !! k.
Proof.
  revert m. induction ys as [|y ys IH]; intros m; cbn; [done|]. rewrite IH.
  destruct (decide (k ∈ ys)); [by rewrite decide_True by (by right)|].
  destruct (decide (k = y)) as [->|Hne]; [rewrite lookup_delete_eq, decide_True; [done|by left]|].
  rewrite lookup_delete_ne, decide_False by (done || set_solver). done.
Qed.

Lemma last_of_ge prev xs : StronglySorted Z.lt (prev :: xs) → prev ≤ last_of prev xs ∧ Forall (λ x, x ≤ last_of prev xs) xs.
Proof.
  revert prev. induction xs as [|x xs IH]; intros prev Hs; cbn; [split; [lia|done]|].
  apply StronglySorted_inv in Hs as [Hs Hall]. inversion Hall; subst. destruct (IH x Hs). split; [lia|]. by constructor.
Qed.

Lemma last_of_elem prev xs : last_of prev xs = prev ∨ last_of prev xs ∈ xs.
Proof. revert prev. induction xs as [|x xs IH]; intros prev; cbn; [by left|]. right. destruct (IH x) as [->|?]; [by left|by right]. Qed.

Lemma scan_map_lookup prev xs m k :
  StronglySorted Z.lt (prev :: xs) →
  scan_map prev xs m !! k
    = if decide (k ∈ xs) then after_scan k (m !! k)
      else if decide (prev < k < last_of prev xs) then None else m !! k.
Proof.
  revert prev m. induction xs as [|x xs IH]; intros prev m Hs; cbn [scan_map last_of].
  - rewrite decide_False by set_solver. by rewrite decide_False by lia.
  - apply StronglySorted_inv in Hs as [Hs Hall]. inversion Hall as [|? ? Hlt _]; subst. rewrite IH by done.
    destruct (last_of_ge x xs Hs) as [Hlast Hle]. pose proof Hs as Hs'. apply StronglySorted_inv in Hs' as [_ Hx].
    rewrite Forall_forall in Hx, Hle.
    assert (foldl (λ m y, delete y m) (partial_alter (after_scan x) x m) (seqZ (prev + 1) (x - (prev + 1))) !! k
      = if decide (prev < k < x) then None else if decide (k = x) then after_scan x (m !! x) else m !! k) as El.
    { rewrite lookup_delete_all. destruct (decide (prev < k < x)).
      - rewrite decide_True; [done|]. apply elem_of_seqZ. lia.
      - rewrite decide_False by (rewrite elem_of_seqZ; lia).
        destruct (decide (k = x)) as [->|]; [by rewrite lookup_partial_alter_eq|by rewrite lookup_partial_alter_ne]. }
    destruct (decide (k ∈ xs)) as [Hin|Hin].
    + rewrite decide_True by (by right). specialize (Hx k Hin). rewrite El. by rewrite !decide_False by lia.
    + destruct (decide (k = x)) as [->|Hne].
      * rewrite (decide_True (P := x ∈ x :: xs)) by (by left). rewrite El.
        repeat case_decide; (done || lia || congruence).
      * rewrite (decide_False (P := k ∈ x :: xs)) by set_solver. rewrite El.
        repeat case_decide; (done || lia).
Qed.

Lemma scan_map_app prev xs ys m : scan_map prev (xs ++ ys) m = scan_map (last_of prev xs) ys (scan_map prev xs m).
Proof. revert prev m. induction xs as [|x xs IH]; intros prev m; cbn; [done|]. apply IH. Qed.

Lemma last_of_app prev xs ys : last_of prev (xs ++ ys) = last_of (last_of prev xs) ys.
Proof. revert prev. induction xs as [|x xs IH]; intros prev; cbn; [done|]. apply IH. Qed.

Context (Henv : ∀ nsid, ∃ o, gather_info c env nsid = Ok o).

(** Identifiers the controller may list. *)
Definition nsid_ok (x : Z) : Prop := 1 ≤ x < 2 ^ 32.

Lemma scan_entries_refines prev xs rest :
  0 ≤ prev → StronglySorted Z.lt (prev :: xs) → Forall nsid_ok xs → (rest = [] ∨ ∃ r, rest = 0 :: r) →
  refines (scan_entries c env prev (xs ++ rest))
    (match rest with [] => inl (last_of prev xs) | _ => inr (last_of prev xs) end) (scan_map prev xs).
Proof.
  revert prev. induction xs as [|x xs IH]; intros prev Hp Hs Hx Hrest; cbn [app scan_entries last_of scan_map].
  - destruct Hrest as [->|[r ->]]; cbn; apply refines_ret.
  - apply Forall_cons in Hx as [Hx1 Hx]. apply StronglySorted_inv in Hs as [Hs Hall]. inversion Hall as [|? ? Hlt _]; subst.
    unfold nsid_ok in Hx1. rewrite bool_decide_false by lia.
    set (gap := λ m : gmap Z nvme_ns_ids, foldl (λ m y, delete y m) m (seqZ (prev + 1) (x - (prev + 1)))).
    assert (refines (remove_gap prev x) x gap) as Hgap.
    { unfold remove_gap. rewrite (wrap_small 32 (prev + 1)) by lia.
      apply (refines_bind _ _ tt x gap id); [apply (refines_for_each _ delete); intros y _; apply remove_by_nsid_refines|].
      rewrite Z.max_r by lia. apply refines_ret. }
    apply (refines_bind _ _ tt _ (partial_alter (after_scan x) x) (scan_map x xs ∘ gap)); [by apply scan_ns_refines|].
    apply (refines_bind _ _ x _ gap (scan_map x xs)); [done|]. apply (IH x); [lia|done|done|done].
Qed.

(** A controller that lists its active namespaces in order, at most
    NS_LIST_ENTRIES of them above a given one at a time. *)
Definition list_data (ids : list Z) : list Z :=
  take NS_LIST_ENTRIES ids ++ replicate (NS_LIST_ENTRIES - length ids) 0.

Definition lists_active (active : list Z) (active_list : Z → Z * list Z) : Prop :=
  ∀ prev, active_list prev = (0, list_data (filter (λ x, prev < x) active)).

Lemma filter_suffix (done rest : list Z) :
  StronglySorted Z.lt (done ++ rest) →
  Forall (λ x, 0 < x) (done ++ rest) → filter (λ x, last_of 0 done < x) (done ++ rest) = rest.
Proof.
  intros Hs Hpos. rewrite filter_app, list_filter_none, list_filter_all; [done| |].
  - rewrite Forall_forall. intros x Hx. destruct done as [|d done] using rev_ind; [cbn|].
    + rewrite Forall_forall in Hpos. by apply Hpos.
    + rewrite last_of_app. cbn. eapply sorted_app_lt; [exact Hs| |done]. apply elem_of_app. right. by left.
  - apply Forall_app in Hpos as [Hpos _]. assert (StronglySorted Z.lt (0 :: done)) as Hs0.
    { constructor; [by eapply StronglySorted_app_1_l|done]. }
    destruct (last_of_ge 0 done Hs0) as [_ Hle]. eapply Forall_impl; [exact Hle|]. cbn. lia.
Qed.

Lemma scan_lists_refines active active_list fuel before rest :
  lists_active active active_list → StronglySorted Z.lt active → Forall nsid_ok active →
  active = before ++ rest → (length rest < fuel * NS_LIST_ENTRIES)%nat →
  refines (scan_lists c env active_list fuel (last_of 0 before)) 0
    (λ m, below (last_of 0 active) (scan_map (last_of 0 before) rest m)).
Proof.
  intros Hl Hs Hok. revert before rest. induction fuel as [|fuel IH]; intros before rest -> Hf; [lia|]. cbn [scan_lists].
  assert (Forall (λ x, 0 < x) (before ++ rest)) as Hpos by (eapply Forall_impl; [exact Hok|unfold nsid_ok; cbn; lia]).
  rewrite Hl, (filter_suffix before rest) by done. rewrite bool_decide_true by done. cbn [negb].
  assert (StronglySorted Z.lt (0 :: before)) as Hs0.
  { apply Forall_app in Hpos as [? _]. constructor; [by eapply StronglySorted_app_1_l|done]. }
  destruct (last_of_ge 0 before Hs0) as [Hge _].
  assert (StronglySorted Z.lt (last_of 0 before :: rest)) as Hsr.
  { constructor; [by eapply StronglySorted_app_1_r|]. rewrite Forall_forall. intros x Hx.
    destruct before as [|d before] using rev_ind; [cbn|].
    - rewrite Forall_forall in Hpos. by apply Hpos.
    - rewrite last_of_app. cbn. eapply sorted_app_lt; [exact Hs| |done]. apply elem_of_app. right. by left. }
  apply Forall_app in Hok as Hok'. destruct Hok' as [_ Hokr]. unfold list_data.
  destruct (decide (length rest < NS_LIST_ENTRIES)%nat) as [Hlt|Hge'].
  - rewrite take_ge by lia. eapply refines_ext.
    + eapply refines_bind; [apply scan_entries_refines; [done|done|done|right]|].
      { destruct (NS_LIST_ENTRIES - length rest)%nat eqn:E; [lia|]. by eexists. }
      destruct (NS_LIST_ENTRIES - length rest)%nat eqn:E; [lia|]. cbn [replicate].
      eapply refines_bind; [apply remove_invalid_refines|apply refines_ret].
    + intros m. cbn. by rewrite last_of_app.
  - replace (NS_LIST_ENTRIES - length rest)%nat with 0%nat by lia. cbn [replicate].
    rewrite <- (take_drop NS_LIST_ENTRIES rest) in Hsr, Hokr.
    set (r1 := take NS_LIST_ENTRIES rest) in *. set (r2 := drop NS_LIST_ENTRIES rest) in *.
    assert (StronglySorted Z.lt (last_of 0 before :: r1)) as Hs1 by (by eapply (StronglySorted_app_1_l _ _ r2)).
    apply Forall_app in Hokr as [Hok1 _].
    assert (rest = r1 ++ r2) as Er by (symmetry; apply take_drop).
    eapply refines_ext.
    + eapply refines_bind; [apply (scan_entries_refines _ r1 []); [done|done|done|by left]|]. cbv beta iota.
      rewrite <- last_of_app. apply (IH (before ++ r1) r2); [rewrite Er, app_assoc; done|].
      unfold r2. rewrite length_drop. lia.
    + intros m. cbn. f_equal. rewrite last_of_app, <- scan_map_app. f_equal. done.
Qed.

End scan_one.

End refine.
