(* ===== verification/CoreTheorems.v ===== *)
(** * CoreTheorems: the NVMe core's properties (baseline/6.8/core.c)

    The controller's life cycle, the commands built for block requests, the
    memory and the retries of requests in flight, and the scan of a
    controller's namespaces. *)
From stdpp Require Import sorting.
From S2P Require Import Prelude.
From S2P Require Import PciData.
From S2P Require Import PciQueue.
From S2P Require Import CoreCtrl.
From S2P Require Import CoreCtrlSpec.
From S2P Require Import CoreCmd.
From S2P Require Import CoreCmdSpec.
From S2P Require Import CoreRun.
From S2P Require Import CoreSqe.
From S2P Require Import CoreIdent.
From S2P Require Import CoreIdentSpec.
From S2P Require Import CoreScan.
From S2P Require Import CoreScanSpec.

(** ** Samples *)

Definition demo_conc : conc :=
  mk_conc (mk_nctrl NVME_CTRL_NEW (Some 5) true false false false false 1 []) ∅ TimerIdle.

(** A reconnect during which the timer fires after its test, while the state
    changes to live. *)
Definition demo_run : list conc_act :=
  [ActChange 0 NVME_CTRL_RESETTING; ActChange 0 NVME_CTRL_CONNECTING; ActThread 0; ActTimer;
   ActChange 0 NVME_CTRL_LIVE; ActTimer; ActTimer; ActThread 0; ActThread 0; ActThread 0].

Definition demo_ctrl : nvme_ctrl := mk_nctrl NVME_CTRL_LIVE None true false false false false 1 [].
Definition demo_head : nvme_ns_head := mk_head 1 12 0 0 0 0 false.
Definition demo_cfg : core_cfg := mk_cfg demo_head 2 [1; 2; 3] false 256 false false 0 0 false.
Definition demo_flags : req_flags := mk_rflags true false false false false false false.
Definition demo_answers : core_answers := mk_ans true 0 0 false.
Definition demo_rq (op : req_op) (pos bytes : Z) (bios : list cbio) : core_request :=
  mk_creq op demo_flags pos bytes (Z.of_nat (length bios)) bios false 7 (mk_nvmerq 3 0 0) 0 false false false
    None zero_sqe 0 0 RqIdle.
Definition demo_core : core_state :=
  mk_core ∅ ∅ 0 false (replicate NVME_DSM_MAX_RANGES (mk_range 0 0 0)) [] false [].
Definition demo_bios : list cbio := [mk_cbio 16 8192 false false false; mk_cbio 80 4096 false false false].
Definition demo_write : core_state :=
  demo_core <| k_reqs := {[ 0%nat := demo_rq REQ_OP_WRITE 4096 16384 [] ]} |>.

(** A discard new, sent, and answered with a retryable status. *)
Definition demo_new : core_act := ANew 0 (demo_rq REQ_OP_DISCARD 16 12288 demo_bios).
Definition demo_send : core_act := ADispatch 0 demo_answers demo_ctrl BLK_STS_OK.
Definition demo_answer : core_act := AComplete 0 demo_answers 6 0.
Definition demo_after (l : list core_act) : core_state := foldl (λ s a, (core_step demo_cfg a s).2) demo_core l.

Lemma conc_run_reach opts l s s' : conc_reach opts s → conc_run l s = Some s' → conc_reach opts s'.
Proof.
  revert s. induction l as [|a l IH]; intros s Hr E; cbn in E; [by simplify_eq|].
  destruct (conc_step a s) as [s1|] eqn:E1; [|done]. apply (IH s1); [|done]. by eapply conc_next.
Qed.

(** ** The controller's life cycle *)

(** C27: Whatever the interleaving of state changes and of the fast-fail
    timer's handler, once no state change is under way a controller that is
    neither reconnecting nor being deleted is not marked for fast failure and
    no handler is about to mark it. *)
Theorem failfast_settles opts s :
  conc_reach opts s → cc_threads s = ∅ → nc_state (cc_ctrl s) ≠ NVME_CTRL_CONNECTING →
  nvme_state_terminal (nc_state (cc_ctrl s)) = false →
  nc_failfast_expired (cc_ctrl s) = false ∧ cc_timer s ≠ TimerChecked.
Proof.
  intros Hr Ht Hc Hd. destruct (conc_reach_ok opts s Hr) as [_ _ Htm Hfl]. rewrite Ht in *. split.
  - apply not_true_iff_false. intros E. destruct (Hfl E) as [[?|?]|[t [E'|E']]]; try congruence; by rewrite lookup_empty in E'.
  - intros E. destruct (Htm E) as [[?|?]|[t E']]; try congruence. by rewrite lookup_empty in E'.
Qed.

(** Witness of [failfast_settles]. *)
Lemma failfast_settles_witness :
  ∃ s, conc_run demo_run demo_conc = Some s ∧ nc_state (cc_ctrl s) = NVME_CTRL_LIVE
    ∧ (nc_failfast_expired (cc_ctrl s) = false ∧ cc_timer s ≠ TimerChecked).
Proof.
  eexists. split; [vm_compute; reflexivity|]. split; [reflexivity|].
  apply (failfast_settles (Some 5)); [|reflexivity|discriminate|reflexivity].
  eapply (conc_run_reach (Some 5) demo_run demo_conc); [apply conc_fresh|vm_compute; reflexivity].
Defined.

(** Requested state changes make exactly the allowed transitions; a
    controller being deleted stays so and changes at most twice more; between
    two resets it has been live. *)
Theorem deletion_is_final c changes :
  wp (change_all changes) (λ r c', r = Ok tt ∧ nc_state c' = foldl next_state (nc_state c) changes) c
  ∧ (nvme_state_terminal (nc_state c) = true →
     Forall (λ st, nvme_state_terminal st = true) (trajectory (nc_state c) changes)
     ∧ (length (granted (nc_state c) changes) ≤ 2)%nat)
  ∧ (count_state NVME_CTRL_RESETTING (granted (nc_state c) changes)
      ≤ count_state NVME_CTRL_LIVE (granted (nc_state c) changes) + 1)%nat.
Proof.
  split_and!.
  - destruct (change_all_state changes c) as (c' & E & Hst & _). by eapply wp_eq.
  - intros Ht. split; [by apply trajectory_terminal|]. pose proof (granted_after_deletion _ changes Ht).
    destruct (nc_state c); cbn in *; lia || done.
  - pose proof (resets_bounded (nc_state c) changes). by destruct (state_change_allowed _ _); lia.
Qed.

(** A waiter for a reset returns as soon as the controller reaches a
    state that is neither resetting nor reconnecting: with true, the
    controller in the resetting state by its own doing, or with false, the
    controller being deleted.  It sleeps exactly as long as none is reached. *)
Theorem wait_reset_decides others c :
  wp (snvme_wait_reset others) (λ r c',
    match list_find (λ st, busy st = false) (trajectory (nc_state c) others) with
    | Some (_, st) =>
        r = Ok (Some (negb (nvme_state_terminal st)))
        ∧ nc_state c' = if nvme_state_terminal st then st else NVME_CTRL_RESETTING
    | None => r = Ok None ∧ busy (nc_state c') = true
    end) c.
Proof.
  destruct (wait_reset_exact others c) as (c' & E & Hc). eapply wp_eq; [exact E|].
  by destruct (list_find _ _) as [[? ?]|].
Qed.

(** ** Requests *)

(** C25: A read, write, zone append or Write Zeroes command names exactly the
    bytes of its request, with its tag and generation as command identifier,
    forced unit access, limited retry and the protection checks the request
    and the format ask for; a format the host cannot handle is refused. *)
Theorem command_addresses_blocks cfg ans t r s op :
  9 ≤ lba_shift (cfg_head cfg) → io_aligned (cfg_head cfg) (q_pos r) (q_bytes r) →
  k_reqs s !! t = Some r → block_op cfg (q_op r) = Some op →
  ∃ c, snvme_setup_cmd cfg ans t s
      = (Ok (if block_supported cfg r then BLK_STS_OK else BLK_STS_NOTSUPP), put_cmd t (cleared r) c s)
    ∧ e_command_id c = nvme_cid (q_nvme (cleared r)) (q_tag r)
    ∧ (block_supported cfg r = true →
       e_opcode c = op ∧ e_nsid c = ns_id (cfg_head cfg)
       ∧ sqe_bytes (cfg_head cfg) c = (q_pos r * 512, q_bytes r)
       ∧ sqe_control c = u16 (block_control cfg r op)).
Proof. apply setup_block_cmd. Qed.

(** Witness of [command_addresses_blocks]. *)
Lemma command_addresses_blocks_witness :
  ∃ c, snvme_setup_cmd demo_cfg demo_answers 0 demo_write
      = (Ok BLK_STS_OK, put_cmd 0 (cleared (demo_rq REQ_OP_WRITE 4096 16384 [])) c demo_write)
    ∧ sqe_bytes demo_head c = (2097152, 16384).
Proof.
  destruct (command_addresses_blocks demo_cfg demo_answers 0 (demo_rq REQ_OP_WRITE 4096 16384 []) demo_write nvme_cmd_write)
    as (c & E & _ & H).
  - cbn. lia.
  - unfold io_aligned. cbn. split_and!; [by exists 512|by exists 4|lia..].
  - reflexivity.
  - reflexivity.
  - exists c. split; [exact E|]. destruct (H eq_refl) as (_ & _ & Hb & _). exact Hb.
Defined.

(** C24: Under any interleaving of requests on a PCI controller no step
    faults; a discard in flight points to live memory that no other request
    holds and whose entries name exactly the bytes to discard; when nothing is
    in flight no range memory is allocated and the controller's page is free. *)
Theorem discard_ranges_private cfg s :
  9 ≤ lba_shift (cfg_head cfg) → length (crdt cfg) = 3%nat → core_reach cfg s →
  (∀ a, act_ok a s → (core_step cfg a s).1 = Ok tt)
  ∧ (∀ t r, k_reqs s !! t = Some r → q_phase r = RqInFlight → discards cfg r = true →
     Forall (bio_aligned (cfg_head cfg)) (discard_bytes cfg r) →
     ∃ p m, q_special r = Some p ∧ range_mem s p = Some m
       ∧ map (range_bytes (cfg_head cfg)) (take (length (discard_bytes cfg r)) m) = discard_bytes cfg r)
  ∧ (∀ t t' r r', k_reqs s !! t = Some r → k_reqs s !! t' = Some r' →
     q_phase r = RqInFlight → q_phase r' = RqInFlight → discards cfg r = true →
     q_special r = q_special r' → t = t')
  ∧ ((∀ t, ¬ in_phase s t RqInFlight) → k_ranges s = ∅ ∧ k_discard_busy s = false).
Proof.
  intros Hs Hc Hr. destruct (reach_inv cfg Hc s Hr) as [H HI]. pose proof HI as [Hm Hq Hn]. split_and!.
  - intros a Ha. by destruct (step_ok cfg Hc H s a HI Ha) as (? & _).
  - intros t r E Hp Hd Hal. destruct (Hq t r E) as (_ & _ & Hh). destruct (Hh Hp Hd) as (p & Hsp & m & Em & Ht).
    exists p, m. split_and!; [done..|]. rewrite <- (wanted_ranges_bytes cfg r Hs Hal). by rewrite length_map, Ht.
  - intros t t' r r' E E' Hp Hp' Hd Heq. destruct (Hq t r E) as (_ & Ht & Hh). destruct (Hq t' r' E') as (_ & Ht' & _).
    rewrite bool_decide_true in Ht, Ht' by done. destruct (Hh Hp Hd) as (p & Hsp & _).
    apply (mo_inj H s Hm t t' p); congruence.
  - intros Hno. assert (∀ t, H !! t = None) as He.
    { intros t. destruct (k_reqs s !! t) as [r|] eqn:E; [|by apply Hn]. destruct (Hq t r E) as (_ & -> & _).
      rewrite bool_decide_false; [done|]. intros Hp. apply (Hno t). by exists r. }
    split.
    + apply map_empty. intros h. destruct (k_ranges s !! h) as [l|] eqn:E; [|done].
      destruct (mo_ranges H s Hm h l E) as (_ & _ & t & Et). by rewrite He in Et.
    + apply not_true_iff_false. intros E. apply (mo_busy H s Hm) in E as [t Et]. by rewrite He in Et.
Qed.

Lemma demo_fresh op pos bytes bios :
  (length bios ≤ 256)%nat → fresh_request (demo_rq op pos bytes bios).
Proof.
  intros Hl. split_and!; [done..|]. unfold rq_wf, blk_rq_nr_discard_segments. cbn [q_segs q_bios demo_rq].
  unfold NVME_DSM_MAX_RANGES. pose proof (wrap_small 16 (Z.of_nat (length bios))). lia.
Qed.

Lemma core_demo_start : core_reach demo_cfg demo_core.
Proof. apply core_init. split_and!; reflexivity. Qed.

(** After the discard is sent. *)
Lemma demo_sent : core_reach demo_cfg (demo_after [demo_new; demo_send]).
Proof.
  eapply core_next; [eapply core_next; [apply core_demo_start| |reflexivity]| |reflexivity].
  - split; [apply demo_fresh; cbn; lia|by left].
  - eexists. split; [vm_compute; reflexivity|reflexivity].
Qed.

(** Witness of [discard_ranges_private]. *)
Lemma discard_ranges_private_witness :
  ∃ r p m, k_reqs (demo_after [demo_new; demo_send]) !! 0%nat = Some r ∧ q_special r = Some p
    ∧ range_mem (demo_after [demo_new; demo_send]) p = Some m
    ∧ map (range_bytes demo_head) (take 2 m) = [(8192, 8192); (40960, 4096)].
Proof.
  destruct (discard_ranges_private demo_cfg (demo_after [demo_new; demo_send])) as (_ & H & _);
    [cbn; lia|reflexivity|apply demo_sent|].
  eexists. edestruct (H 0%nat) as (p & m & Hp & Hm & Hb); [vm_compute; reflexivity|reflexivity|reflexivity| |].
  - repeat constructor; cbn; try lia; [by exists 2|by exists 2|by exists 10|by exists 1].
  - exists p, m. split_and!; [vm_compute; reflexivity|exact Hp|exact Hm|exact Hb].
Defined.

(** Without in-band authentication the controller's answers send a
    request back to the block layer at most [s_nvme_max_retries] times,
    whatever else happens meanwhile; the next answer after that ends it. *)
Theorem retries_bounded cfg t n s :
  length (crdt cfg) = 3%nat → config_nvme_host_auth cfg = false → 0 ≤ s_nvme_max_retries cfg < 2 ^ 8 →
  core_life cfg t n s →
  Z.of_nat n ≤ s_nvme_max_retries cfg
  ∧ (Z.of_nat n = s_nvme_max_retries cfg → in_phase s t RqInFlight →
     ∀ ans status result, in_phase (core_step cfg (AComplete t ans status result) s).2 t RqEnded
       ∧ in_phase (core_step cfg (ACancel t ans) s).2 t RqEnded).
Proof.
  intros Hc Ha Hm Hl. destruct (life_counts cfg Hc Ha Hm t n s Hl) as (r & E & _ & Hn). split; [done|].
  intros Hmax Hp ans status result.
  split; (eapply (last_answer_ends cfg Hc Ha Hm t n); [done|lia|done| |]).
  - exact Hp.
  - left. by exists ans, status, result.
  - by exists r.
  - right. by exists ans.
Qed.

Lemma phase_of s t ph : q_phase <$> k_reqs s !! t = Some ph → in_phase s t ph.
Proof. intros E. apply fmap_Some in E as (r & Er & ->). by exists r. Qed.

Lemma demo_after_snoc l a : (core_step demo_cfg a (demo_after l)).2 = demo_after (l ++ [a]).
Proof. unfold demo_after. by rewrite foldl_app. Qed.

Lemma demo_life_sent n l :
  core_life demo_cfg 0 n (demo_after l) → q_phase <$> k_reqs (demo_after l) !! 0%nat = Some RqIdle →
  q_phase <$> k_reqs (demo_after (l ++ [demo_send])) !! 0%nat = Some RqInFlight →
  core_life demo_cfg 0 n (demo_after (l ++ [demo_send])).
Proof.
  intros Hl Hp Hp'. eapply life_sent; [exact Hl|by apply phase_of|apply demo_after_snoc|].
  intros (r & E & Hr). rewrite E in Hp'. cbn in Hp'. congruence.
Qed.

Lemma demo_life_back n l :
  core_life demo_cfg 0 n (demo_after l) → q_phase <$> k_reqs (demo_after l) !! 0%nat = Some RqInFlight →
  q_phase <$> k_reqs (demo_after (l ++ [demo_answer])) !! 0%nat = Some RqIdle →
  core_life demo_cfg 0 (S n) (demo_after (l ++ [demo_answer])).
Proof.
  intros Hl Hp Hp'. eapply (life_back demo_cfg 0 n (demo_after l) demo_answer);
    [exact Hl|by apply phase_of|by apply phase_of| |apply demo_after_snoc|by apply phase_of].
  left. by exists demo_answers, 6, 0.
Qed.

(** Witness of [retries_bounded]: two retries, then the end. *)
Lemma retries_bounded_witness :
  core_life demo_cfg 0 2 (demo_after [demo_new; demo_send; demo_answer; demo_send; demo_answer; demo_send])
  ∧ in_phase (core_step demo_cfg demo_answer
      (demo_after [demo_new; demo_send; demo_answer; demo_send; demo_answer; demo_send])).2 0 RqEnded.
Proof.
  assert (core_life demo_cfg 0 2 (demo_after [demo_new; demo_send; demo_answer; demo_send; demo_answer; demo_send])) as Hl.
  { apply (demo_life_sent 2 [demo_new; demo_send; demo_answer; demo_send; demo_answer]); [|vm_compute; reflexivity..].
    apply (demo_life_back 1 [demo_new; demo_send; demo_answer; demo_send]); [|vm_compute; reflexivity..].
    apply (demo_life_sent 1 [demo_new; demo_send; demo_answer]); [|vm_compute; reflexivity..].
    apply (demo_life_back 0 [demo_new; demo_send]); [|vm_compute; reflexivity..].
    apply (demo_life_sent 0 [demo_new]); [|vm_compute; reflexivity..].
    eapply life_new; [apply core_demo_start| |reflexivity]. split; [apply demo_fresh; cbn; lia|by left]. }
  split; [exact Hl|].
  destruct (retries_bounded demo_cfg 0 2 (demo_after [demo_new; demo_send; demo_answer; demo_send; demo_answer; demo_send])) as [_ H];
    [reflexivity|reflexivity|cbn; lia|exact Hl|].
  assert (in_phase (demo_after [demo_new; demo_send; demo_answer; demo_send; demo_answer; demo_send]) 0 RqInFlight) as Hp
    by (apply phase_of; vm_compute; reflexivity).
  exact (proj1 (H eq_refl Hp demo_answers 6 0)).
Defined.

(** On a fabrics transport a retried discard is freed twice: its range
    memory was released by the completion that sent it back, the request
    still points to it, and a dispatch that finds the controller being
    deleted completes the request and releases the memory again. *)
Theorem stale_payload_double_free cfg ans ans' H s t r h status result c :
  length (crdt cfg) = 3%nat → mem_ok H s → k_reqs s !! t = Some r → q_special r = Some (PHeap h) →
  H !! t = Some (PHeap h) → retried cfg ans (with_status status result r) = true → nc_state c = NVME_CTRL_DELETING →
  wp (complete_with cfg ans t status result) (λ res s', res = Ok tt ∧
    (queue_rq cfg ans' false true false false c BLK_STS_OK t s').1 = Fault UseAfterFree) s.
Proof.
  intros Hc Hm E Hsp Ht Hre Hdel. unfold complete_with. apply wp_bind. eapply wp_upd_rq; [exact E|].
  eapply wp_mono; [eapply (complete_rq_ok cfg ans Hc H t (with_status status result r)); [by eapply mem_eq_ok, Hm|apply lookup_insert_eq|]|].
  { cbn. congruence. }
  intros res s' (-> & r' & Er & Hm' & _ & _ & Hr'). split; [done|]. rewrite Hre in Hr'.
  assert (k_ranges s' !! h = None) as Hfree.
  { destruct (k_ranges s' !! h) as [l|] eqn:El; [|done]. destruct (mo_ranges _ _ Hm' h l El) as (_ & _ & t' & Et').
    apply lookup_delete_Some in Et' as [Hne Et']. exfalso. apply Hne. by apply (mo_inj H s Hm t t' (PHeap h)). }
  assert (k_reqs s' !! t = Some r') as Er' by (rewrite Er; apply lookup_insert_eq).
  assert (q_special r' = Some (PHeap h)) as Hsp' by (subst r'; exact Hsp).
  unfold queue_rq. rewrite (bind_ok _ _ _ _ _ (get_rq_eq t r' s' Er')). unfold nvme_check_ready. rewrite Hdel. cbn [negb andb].
  change (bool_decide (NVME_CTRL_DELETING = NVME_CTRL_LIVE)) with false. cbn iota. rewrite bool_decide_true by done. cbn [negb].
  unfold snvme_fail_nonready_command. rewrite (bind_ok _ _ _ _ _ (get_rq_eq t r' s' Er')). cbv zeta. rewrite Hdel.
  rewrite (bool_decide_true (NVME_CTRL_DELETING = NVME_CTRL_DELETING)) by done. cbn [negb]. rewrite andb_false_r. cbn [andb].
  unfold nvme_host_path_error. rewrite (bind_ok _ _ _ _ _ (upd_rq_eq t r' _ s' Er')).
  unfold snvme_complete_rq, snvme_cleanup_cmd, mbind, M_bind. erewrite (get_rq_eq t _ _); [|apply lookup_insert_eq].
  cbn [q_special set set_q_nvme]. rewrite Hsp'. unfold free_range, mbind, M_bind, gets. cbn. by rewrite Hfree.
Qed.

Definition demo_heap : core_state :=
  demo_core <| k_reqs := {[ 0%nat := (demo_rq REQ_OP_DISCARD 16 12288 demo_bios) <| q_special := Some (PHeap 0) |>
                                       <| q_phase := RqInFlight |> ]} |>
            <| k_ranges := {[ 0%nat := replicate NVME_DSM_MAX_RANGES (mk_range 0 0 0) ]} |> <| k_fresh := 1%nat |>.

Lemma demo_heap_ok : mem_ok {[ 0%nat := PHeap 0 ]} demo_heap.
Proof.
  split.
  - reflexivity.
  - intros h l E. change (k_ranges demo_heap) with ({[ 0%nat := replicate NVME_DSM_MAX_RANGES (mk_range 0 0 0) ]} : gmap nat (list nvme_dsm_range)) in E.
    apply lookup_singleton_Some in E as [<- <-]. split_and!; [reflexivity|cbn; lia|].
    exists 0%nat. apply lookup_singleton_eq.
  - intros t h E. apply lookup_singleton_Some in E as [<- [= <-]]. eexists. apply (lookup_singleton_eq 0%nat).
  - intros t t' p E E'. apply lookup_singleton_Some in E as [<- _]. by apply lookup_singleton_Some in E' as [<- _].
  - split; [done|]. intros [t E]. by apply lookup_singleton_Some in E as [_ ?].
Qed.

(** Witness of [stale_payload_double_free]. *)
Lemma stale_payload_double_free_witness :
  wp (complete_with demo_cfg demo_answers 0 6 0) (λ res s', res = Ok tt ∧
    (queue_rq demo_cfg demo_answers false true false false (demo_ctrl <| nc_state := NVME_CTRL_DELETING |>)
       BLK_STS_OK 0 s').1 = Fault UseAfterFree) demo_heap.
Proof.
  eapply (stale_payload_double_free demo_cfg demo_answers demo_answers {[ 0%nat := PHeap 0 ]} demo_heap 0 _ 0 6 0
    (demo_ctrl <| nc_state := NVME_CTRL_DELETING |>)).
  - reflexivity.
  - apply demo_heap_ok.
  - apply lookup_singleton_eq.
  - reflexivity.
  - apply lookup_singleton_eq.
  - reflexivity.
  - reflexivity.
Defined.

(** ** Namespace identification *)

(** The list is read at all. *)
Definition reads_descs (c : ident_ctrl) : bool :=
  (bool_decide (NVME_VS 1 3 0 ≤ ic_vs c) || ic_multi_css c) && negb (quirk_no_ns_desc_list c).

Lemma identify_reads c status data st :
  reads_descs c = true → status = 0 →
  nvme_identify_ns_descs c true status data st
    = (desc_loop c data desc_fuel 0;; p ← gets id; if ic_multi_css c && negb p.2 then mret (- EINVAL) else mret 0) st.
Proof.
  intros Hr ->. unfold nvme_identify_ns_descs, reads_descs in *. apply andb_true_iff in Hr as [Hv Hq].
  assert (bool_decide (ic_vs c < NVME_VS 1 3 0) && negb (ic_multi_css c) = false) as ->.
  { destruct (ic_multi_css c); [apply andb_false_r|]. rewrite orb_false_r in Hv. apply bool_decide_eq_true in Hv.
    by rewrite bool_decide_false by lia. }
  by destruct (quirk_no_ns_desc_list c).
Qed.

Lemma desc_fuel_eq : Z.of_nat desc_fuel = 820.
Proof. by vm_compute. Qed.

(** A page that holds [ds] and zeroes behind it. *)
Definition desc_page (ds : list ns_desc) : list Z :=
  encode_descs ds ++ replicate (Z.to_nat NVME_IDENTIFY_DATA_SIZE - length (encode_descs ds)) 0.

(** Reading back a descriptor list that a controller encoded into its
    4096-byte page yields exactly what the descriptors say, whatever their
    number and order, unknown types included; with several command sets a
    list without a command set identifier is refused. *)
Theorem ns_descs_roundtrip c ds :
  reads_descs c = true → Forall desc_ok ds →
  Z.of_nat (length (encode_descs ds)) ≤ NVME_IDENTIFY_DATA_SIZE → Z.of_nat (length (encode_descs ds)) ≠ NVME_IDENTIFY_DATA_SIZE - 1 →
  let st := foldl (apply_desc c) (zero_ids, false) ds in
  nvme_identify_ns_descs c true 0 (desc_page ds) (zero_ids, false)
    = (Ok (if ic_multi_css c && negb st.2 then - EINVAL else 0), st).
Proof.
  intros Hr Hok Hle Hne st. rewrite identify_reads by done. pose proof (encode_descs_length ds Hok) as Hlen.
  assert (desc_loop c (desc_page ds) desc_fuel 0 (zero_ids, false) = (Ok tt, st)) as E.
  { unfold desc_page. set (k := (Z.to_nat NVME_IDENTIFY_DATA_SIZE - _)%nat).
    eapply (desc_loop_encode c _ ds []); [reflexivity|done|cbn [length]; lia| |].
    - cbn [length]. destruct (decide (k = 0)%nat); [left; lia|right]. apply lookup_replicate_2. lia.
    - apply Nat2Z.inj_lt. rewrite desc_fuel_eq. unfold NVME_IDENTIFY_DATA_SIZE in Hle. lia. }
  rewrite (bind_ok _ _ _ _ _ E). unfold mbind, M_bind, gets. cbn [id]. by destruct (ic_multi_css c && negb st.2).
Qed.

Definition demo_ident : ident_ctrl := mk_ictrl (NVME_VS 1 4 0) false false false false.
Definition demo_descs : list ns_desc := [DescOther 9 [7; 7]; DescNguid (replicate 16 5); DescCsi 0; DescUuid (replicate 16 6)].

(** Witness of [ns_descs_roundtrip]. *)
Lemma ns_descs_roundtrip_witness :
  nvme_identify_ns_descs demo_ident true 0 (desc_page demo_descs) (zero_ids, false)
    = (Ok 0, (mk_ids (replicate 8 0) (replicate 16 5) (replicate 16 6) 0, true)).
Proof.
  refine (ns_descs_roundtrip demo_ident demo_descs _ _ _ _).
  - reflexivity.
  - repeat constructor; cbn; lia.
  - by vm_compute.
  - by vm_compute.
Defined.

(** Sixteen vendor descriptors that end at byte 4080, then an NGUID
    descriptor whose sixteen bytes start at 4084. *)
Definition overrun_page : list Z :=
  mjoin (replicate 16 ([5; 251; 0; 0] ++ replicate 251 1)) ++ [2; 16; 0; 0] ++ replicate 12 1.

(** The parser trusts the descriptors' lengths: whatever bytes the
    controller returns it stops after at most 820 descriptors and never reads
    more than 19 bytes past the 4096-byte page, but it does read past it. *)
Theorem ns_descs_overrun :
  (∀ c data st, reads_descs c = true → Forall (fits 8) data → length data = (4096 + 19)%nat →
     ∃ ret st', nvme_identify_ns_descs c true 0 data st = (Ok ret, st'))
  ∧ ∃ c data st, reads_descs c = true ∧ Forall (fits 8) data ∧ length data = 4096%nat
     ∧ (nvme_identify_ns_descs c true 0 data st).1 = Fault OutOfBounds.
Proof.
  split.
  - intros c data st Hr Hb Hl. rewrite identify_reads by done.
    destruct (desc_loop_total c data desc_fuel 0 st Hb) as [st' E]; [unfold NVME_IDENTIFY_DATA_SIZE; lia|lia|rewrite desc_fuel_eq; unfold NVME_IDENTIFY_DATA_SIZE; lia|].
    rewrite (bind_ok _ _ _ _ _ E). unfold mbind, M_bind, gets. destruct (ic_multi_css c && negb (id st').2); by eexists _, _.
  - exists demo_ident, overrun_page, (zero_ids, false). split_and!; [reflexivity| |reflexivity|by vm_compute].
    assert (Forall (λ x, 0 ≤ x < 256) overrun_page) as H; [|exact H].
    apply Forall_forall. intros x Hx. assert (forallb (λ x, bool_decide (0 ≤ x < 256)) overrun_page = true) as Hf by reflexivity.
    rewrite forallb_forall in Hf. specialize (Hf x ltac:(by apply list_elem_of_In)). by apply bool_decide_eq_true in Hf.
Qed.

(** ** The namespace scan *)

(** C23: A scan of a controller that lists its active namespaces brings the
    driver's list in step with the controller: afterwards an identifier has a
    namespace exactly if the controller lists it and identification,
    validation or creation left one there, every other namespace is gone, the
    list is still ordered, every namespace has one reference and nothing else
    is allocated. *)
Theorem scan_list_refines_active c env active active_list base l s fuel :
  (∀ nsid, ∃ o, gather_info c env nsid = Ok o) →
  lists_active active active_list → StronglySorted Z.lt active → Forall nsid_ok active →
  (length active < fuel * NS_LIST_ENTRIES)%nat →
  rep base l s → Forall (λ e, 1 ≤ entry_nsid e) l →
  ∃ l' s', nvme_scan_ns_list c env active_list fuel true s = (Ok 0, s') ∧ rep base l' s'
    ∧ ∀ k, ns_map l' !! k = if decide (k ∈ active) then after_scan (sc_frozen s) c env k (ns_map l !! k) else None.
Proof.
  intros Henv Hl Hs Hok Hf Hr Hpos. unfold nvme_scan_ns_list. cbn [negb].
  destruct (scan_lists_refines base (sc_frozen s) c env Henv active active_list fuel [] active Hl Hs Hok eq_refl Hf l s Hr eq_refl)
    as (l' & s' & E & Hr' & _ & Em).
  exists l', s'. split_and!; [exact E|done|]. intros k. rewrite Em. cbn [last_of].
  assert (StronglySorted Z.lt (0 :: active)) as Hs0.
  { constructor; [done|]. eapply Forall_impl; [exact Hok|]. unfold nsid_ok. cbn. lia. }
  destruct (last_of_ge 0 active Hs0) as [_ Hle]. rewrite Forall_forall in Hle.
  unfold below. rewrite map_lookup_filter, scan_map_lookup by done. destruct (decide (k ∈ active)) as [Hin|Hin].
  - destruct (after_scan _ _ _ _ _); [|done]. cbn. rewrite option_guard_True by (by apply Hle). done.
  - destruct (decide (0 < k < last_of 0 active)); [done|]. destruct (ns_map l !! k) as [i|] eqn:Ek; [|done]. cbn.
    rewrite option_guard_False; [done|]. intros Hk.
    assert (1 ≤ k) as Hk1.
    { apply elem_of_list_to_map_2, list_elem_of_fmap in Ek as (e & [= -> _] & Hin'). rewrite Forall_forall in Hpos. by apply (Hpos e). }
    assert (k = last_of 0 active) as -> by lia. destruct (last_of_elem 0 active); [lia|done].
Qed.

Definition scan_ident : ident_ctrl := mk_ictrl (NVME_VS 1 2 0) false false false false.
Definition scan_answers : Z → ns_answers := λ nsid,
  mk_nsans true 0 [] true 0 (mk_id_indep 0 0 0 0) 0 (mk_id_ns 8 0 0 0 (replicate 8 nsid) (replicate 16 nsid)) 0
    (mk_alloc true true 0 0 0).
Definition scan_ids (nsid : Z) : nvme_ns_ids := mk_ids (replicate 8 nsid) (replicate 16 nsid) (replicate 16 0) 0.
Definition scan_active (active : list Z) (prev : Z) : Z * list Z := (0, list_data (filter (λ x, prev < x) active)).
Definition scan_before : list (nat * nvme_ns) :=
  [(0%nat, mk_ns 2 (scan_ids 2) 1 false); (1%nat, mk_ns 3 (scan_ids 9) 1 false); (2%nat, mk_ns 7 (scan_ids 7) 1 false)].
Definition scan_start : scan_state := mk_scan (list_to_map scan_before) [0%nat; 1%nat; 2%nat] 3 4 false.

Lemma scan_start_rep : rep 1 scan_before scan_start.
Proof. split; [reflexivity|reflexivity|repeat constructor; set_solver|repeat constructor|repeat constructor|repeat constructor|reflexivity]. Qed.

(** Witness of [scan_list_refines_active]: of the namespaces 2, 3 and 7, the
    first is kept, the second carries other identifiers and the third is not
    listed; namespace 5 is new. *)
Lemma scan_list_refines_active_witness :
  ∃ l' s', nvme_scan_ns_list scan_ident scan_answers (scan_active [2; 3; 5]) 1 true scan_start = (Ok 0, s') ∧ rep 1 l' s'
    ∧ ns_map l' !! 2 = Some (scan_ids 2) ∧ ns_map l' !! 3 = None
    ∧ ns_map l' !! 5 = Some (scan_ids 5) ∧ ns_map l' !! 7 = None.
Proof.
  destruct (scan_list_refines_active scan_ident scan_answers [2; 3; 5] (scan_active [2; 3; 5]) 1 scan_before scan_start 1)
    as (l' & s' & E & Hr & H).
  - intros nsid. eexists. vm_compute. reflexivity.
  - intros prev. reflexivity.
  - repeat constructor.
  - unfold nsid_ok. repeat constructor; lia.
  - rewrite Nat.mul_1_l. apply Nat.ltb_lt. reflexivity.
  - apply scan_start_rep.
  - repeat constructor; cbn; lia.
  - exists l', s'. split_and!; [exact E|exact Hr|..]; rewrite H; vm_compute; reflexivity.
Defined.
