(* ===== verification/PciHmb.v ===== *)
(** * PciHmb: the host memory buffer (baseline/6.8/pci.c)

    Memory the driver lends to the controller: a table of descriptors, an
    array of kernel pointers and one DMA buffer per descriptor, sized between
    what the controller needs and what it prefers, offered with Set Features
    and taken back through sysfs, a reset or removal.  The three kinds of
    allocation are heaps of their own; the DMA allocator and the controller
    are answers indexed by a call counter.  [hm_view] is what the controller
    was last told to use. *)
From S2P Require Import Prelude.
From S2P Require Import PciData.

Definition NVME_HOST_MEM_ENABLE : Z := 1.
Definition NVME_HOST_MEM_RETURN : Z := 2.
Definition HMB_PAGE_SIZE : Z := 4096.
(** PAGE_SIZE * MAX_ORDER_NR_PAGES *)
Definition HMB_MAX_CHUNK : Z := HMB_PAGE_SIZE * 1024.
Definition SZ_1M : Z := 2 ^ 20.
(** sizeof(struct nvme_host_mem_buf_desc) *)
Definition HMB_DESC_BYTES : Z := 16.

Record hmb_desc : Set := mk_hdesc {
  hd_addr : Z;
  hd_size : Z;   (* in controller pages *)
}.

(** A descriptor table: the bytes it was allocated with, its bus address and
    its entries. *)
Record hmb_table : Type := mk_htable {
  ht_bytes : Z;
  ht_dma : Z;
  ht_descs : list hmb_desc;
}.

(** A DMA buffer: its bytes and its bus address. *)
Record dma_buf : Set := mk_dbuf {
  bf_bytes : Z;
  bf_addr : Z;
}.

Record hmb_view : Set := mk_hview {
  hv_pages : Z;
  hv_table : Z;
  hv_count : Z;
}.

(** Bytes of a buffer or of a table that a free with too small a size left
    allocated. *)
Inductive hmb_rest : Set :=
  | RestBuf (n : Z)
  | RestTable (n : Z).

Record hmb_state : Type := mk_hmb {
  hmb : bool;
  host_mem_size : Z;
  nr_host_mem_descs : Z;
  host_mem_descs_dma : Z;
  host_mem_descs : option nat;
  host_mem_desc_bufs : option nat;
  hm_tables : gmap nat hmb_table;
  hm_arrays : gmap nat (list (option nat));
  hm_bufs : gmap nat dma_buf;
  hm_next : nat;
  hm_clock : nat;
  hm_view : option hmb_view;
  hm_rest : list hmb_rest;
}.

#[export] Instance set_hmb : Setter hmb := λ f r,
  mk_hmb (f (hmb r)) (host_mem_size r) (nr_host_mem_descs r) (host_mem_descs_dma r)
    (host_mem_descs r) (host_mem_desc_bufs r) (hm_tables r) (hm_arrays r) (hm_bufs r)
    (hm_next r) (hm_clock r) (hm_view r) (hm_rest r).
#[export] Instance set_host_mem_size : Setter host_mem_size := λ f r,
  mk_hmb (hmb r) (f (host_mem_size r)) (nr_host_mem_descs r) (host_mem_descs_dma r)
    (host_mem_descs r) (host_mem_desc_bufs r) (hm_tables r) (hm_arrays r) (hm_bufs r)
    (hm_next r) (hm_clock r) (hm_view r) (hm_rest r).
#[export] Instance set_nr_host_mem_descs : Setter nr_host_mem_descs := λ f r,
  mk_hmb (hmb r) (host_mem_size r) (f (nr_host_mem_descs r)) (host_mem_descs_dma r)
    (host_mem_descs r) (host_mem_desc_bufs r) (hm_tables r) (hm_arrays r) (hm_bufs r)
    (hm_next r) (hm_clock r) (hm_view r) (hm_rest r).
#[export] Instance set_host_mem_descs_dma : Setter host_mem_descs_dma := λ f r,
  mk_hmb (hmb r) (host_mem_size r) (nr_host_mem_descs r) (f (host_mem_descs_dma r))
    (host_mem_descs r) (host_mem_desc_bufs r) (hm_tables r) (hm_arrays r) (hm_bufs r)
    (hm_next r) (hm_clock r) (hm_view r) (hm_rest r).
#[export] Instance set_host_mem_descs : Setter host_mem_descs := λ f r,
  mk_hmb (hmb r) (host_mem_size r) (nr_host_mem_descs r) (host_mem_descs_dma r)
    (f (host_mem_descs r)) (host_mem_desc_bufs r) (hm_tables r) (hm_arrays r) (hm_bufs r)
    (hm_next r) (hm_clock r) (hm_view r) (hm_rest r).
#[export] Instance set_host_mem_desc_bufs : Setter host_mem_desc_bufs := λ f r,
  mk_hmb (hmb r) (host_mem_size r) (nr_host_mem_descs r) (host_mem_descs_dma r)
    (host_mem_descs r) (f (host_mem_desc_bufs r)) (hm_tables r) (hm_arrays r) (hm_bufs r)
    (hm_next r) (hm_clock r) (hm_view r) (hm_rest r).
#[export] Instance set_hm_tables : Setter hm_tables := λ f r,
  mk_hmb (hmb r) (host_mem_size r) (nr_host_mem_descs r) (host_mem_descs_dma r)
    (host_mem_descs r) (host_mem_desc_bufs r) (f (hm_tables r)) (hm_arrays r) (hm_bufs r)
    (hm_next r) (hm_clock r) (hm_view r) (hm_rest r).
#[export] Instance set_hm_arrays : Setter hm_arrays := λ f r,
  mk_hmb (hmb r) (host_mem_size r) (nr_host_mem_descs r) (host_mem_descs_dma r)
    (host_mem_descs r) (host_mem_desc_bufs r) (hm_tables r) (f (hm_arrays r)) (hm_bufs r)
    (hm_next r) (hm_clock r) (hm_view r) (hm_rest r).
#[export] Instance set_hm_bufs : Setter hm_bufs := λ f r,
  mk_hmb (hmb r) (host_mem_size r) (nr_host_mem_descs r) (host_mem_descs_dma r)
    (host_mem_descs r) (host_mem_desc_bufs r) (hm_tables r) (hm_arrays r) (f (hm_bufs r))
    (hm_next r) (hm_clock r) (hm_view r) (hm_rest r).
#[export] Instance set_hm_next : Setter hm_next := λ f r,
  mk_hmb (hmb r) (host_mem_size r) (nr_host_mem_descs r) (host_mem_descs_dma r)
    (host_mem_descs r) (host_mem_desc_bufs r) (hm_tables r) (hm_arrays r) (hm_bufs r)
    (f (hm_next r)) (hm_clock r) (hm_view r) (hm_rest r).
#[export] Instance set_hm_clock : Setter hm_clock := λ f r,
  mk_hmb (hmb r) (host_mem_size r) (nr_host_mem_descs r) (host_mem_descs_dma r)
    (host_mem_descs r) (host_mem_desc_bufs r) (hm_tables r) (hm_arrays r) (hm_bufs r)
    (hm_next r) (f (hm_clock r)) (hm_view r) (hm_rest r).
#[export] Instance set_hm_view : Setter hm_view := λ f r,
  mk_hmb (hmb r) (host_mem_size r) (nr_host_mem_descs r) (host_mem_descs_dma r)
    (host_mem_descs r) (host_mem_desc_bufs r) (hm_tables r) (hm_arrays r) (hm_bufs r)
    (hm_next r) (hm_clock r) (f (hm_view r)) (hm_rest r).
#[export] Instance set_hm_rest : Setter hm_rest := λ f r,
  mk_hmb (hmb r) (host_mem_size r) (nr_host_mem_descs r) (host_mem_descs_dma r)
    (host_mem_descs r) (host_mem_desc_bufs r) (hm_tables r) (hm_arrays r) (hm_bufs r)
    (hm_next r) (hm_clock r) (hm_view r) (f (hm_rest r)).

(** struct nvme_ctrl's limits and the module parameter. *)
Record hmb_limits : Set := mk_hlim {
  hmpre : Z;
  hmmin : Z;
  hmminds : Z;
  hmmaxd : Z;
  max_host_mem_size_mb : Z;
}.

(** The answers: bus addresses of DMA allocations, kcalloc and the status of
    Set Features. *)
Record hmb_env : Type := mk_henv {
  he_coherent : nat → option Z;
  he_kcalloc : nat → bool;
  he_buf : nat → option Z;
  he_set_features : nat → Z;
}.

Notation HM := (M hmb_state).

Definition hm_ask {A} (f : nat → A) : HM A :=
  s ← gets id;
  modify (λ s, s <| hm_clock ::= S |>);;
  mret (f (hm_clock s)).
Definition hm_fresh : HM nat :=
  s ← gets id;
  modify (λ s, s <| hm_next ::= S |>);;
  mret (hm_next s).

Definition deref_table (t : nat) : HM hmb_table := s ← gets id; from_opt UseAfterFree (hm_tables s !! t).
Definition deref_array (a : nat) : HM (list (option nat)) := s ← gets id; from_opt UseAfterFree (hm_arrays s !! a).

Definition write_desc (t : nat) (i : Z) (d : hmb_desc) : HM unit :=
  x ← deref_table t;
  if bool_decide (0 ≤ i < Z.of_nat (length (ht_descs x)))
  then modify (λ s, s <| hm_tables ::= <[t := mk_htable (ht_bytes x) (ht_dma x) (<[Z.to_nat i := d]> (ht_descs x))]> |>)
  else crash OutOfBounds.
Definition write_buf (a : nat) (i : Z) (p : option nat) : HM unit :=
  l ← deref_array a;
  if bool_decide (0 ≤ i < Z.of_nat (length l))
  then modify (λ s, s <| hm_arrays ::= <[a := <[Z.to_nat i := p]> l]> |>)
  else crash OutOfBounds.
Definition read_desc (t : nat) (i : nat) : HM hmb_desc :=
  x ← deref_table t; from_opt OutOfBounds (ht_descs x !! i).
Definition read_buf (a : nat) (i : nat) : HM nat :=
  l ← deref_array a; o ← from_opt OutOfBounds (l !! i); from_opt NullDeref o.

(** dma_free_attrs and dma_free_coherent free as many bytes as the caller says:
    more than were allocated is an error, and what fewer leave stays
    allocated with nothing to reach it by.  (Byte for byte; an allocator that
    rounds both sizes up to pages may take the rest back too.) *)
Definition leftover (rest : Z → hmb_rest) (n : Z) : list hmb_rest := if bool_decide (n = 0) then [] else [rest n].
Definition dma_free_buf (p : nat) (size : Z) : HM unit :=
  s ← gets id;
  b ← from_opt UseAfterFree (hm_bufs s !! p);
  if bool_decide (bf_bytes b < size) then crash OutOfBounds
  else modify (λ s, s <| hm_bufs ::= delete p |> <| hm_rest ::= λ l, l ++ leftover RestBuf (bf_bytes b - size) |>).
Definition dma_free_table (t : nat) (size : Z) : HM unit :=
  x ← deref_table t;
  if bool_decide (ht_bytes x < size) then crash OutOfBounds
  else modify (λ s, s <| hm_tables ::= delete t |> <| hm_rest ::= λ l, l ++ leftover RestTable (ht_bytes x - size) |>).
Definition kfree_array (a : nat) : HM unit :=
  _ ← deref_array a;
  modify (λ s, s <| hm_arrays ::= delete a |>).

(** The buffer behind entry [i]: its size is recomputed from the descriptor. *)
Definition free_entry (t a i : nat) : HM unit :=
  d ← read_desc t i;
  p ← read_buf a i;
  dma_free_buf p (u32 (hd_size d * NVME_CTRL_PAGE_SIZE)).

Section hmb.
Context (lim : hmb_limits) (env : hmb_env).

Definition nvme_set_host_mem (bits : Z) : HM Z :=
  s ← gets id;
  ret ← hm_ask (he_set_features env);
  if negb (bool_decide (ret = 0)) then mret ret
  else
    let enable := negb (bool_decide (Z.land bits NVME_HOST_MEM_ENABLE = 0)) in
    modify (λ s, s <| hmb := enable |>
                   <| hm_view := if enable
                                 then Some (mk_hview (u32 (Z.shiftr (host_mem_size s) 12)) (host_mem_descs_dma s)
                                              (nr_host_mem_descs s))
                                 else None |>);;
    mret ret.

Definition nvme_free_host_mem : HM unit :=
  s ← gets id;
  for_each (λ i, t ← from_opt NullDeref (host_mem_descs s); a ← from_opt NullDeref (host_mem_desc_bufs s); free_entry t a i)
    (seq 0 (Z.to_nat (nr_host_mem_descs s)));;
  match host_mem_desc_bufs s with Some a => kfree_array a | None => mret tt end;;
  modify (λ s, s <| host_mem_desc_bufs := None |>);;
  match host_mem_descs s with
  | Some t => dma_free_table t (nr_host_mem_descs s * HMB_DESC_BYTES)
  | None => mret tt
  end;;
  modify (λ s, s <| host_mem_descs := None |> <| nr_host_mem_descs := 0 |>).

(** The allocation loop: [room] entries of the table are left; returns the
    number of entries filled and the bytes they hold. *)
Fixpoint fill_host_mem (t a room : nat) (i size preferred chunk_size : Z) : HM (Z * Z) :=
  match room with
  | O => mret (i, size)
  | S room =>
      if negb (bool_decide (size < preferred)) then mret (i, size)
      else
        let len := u32 (Z.min chunk_size (preferred - size)) in
        o ← hm_ask (he_buf env);
        match o with
        | None => write_buf a i None;; mret (i, size)
        | Some addr =>
            p ← hm_fresh;
            modify (λ s, s <| hm_bufs ::= <[p := mk_dbuf len addr]> |>);;
            write_buf a i (Some p);;
            write_desc t i (mk_hdesc addr (len / NVME_CTRL_PAGE_SIZE));;
            fill_host_mem t a room (i + 1) (size + len) preferred chunk_size
        end
  end.

Definition max_entries (preferred chunk_size : Z) : Z :=
  let n := u32 (u64 (preferred + chunk_size - 1) / chunk_size) in
  if negb (bool_decide (hmmaxd lim = 0)) && bool_decide (hmmaxd lim < n) then hmmaxd lim else n.

Definition __nvme_alloc_host_mem (preferred chunk_size : Z) : HM Z :=
  let n := max_entries preferred chunk_size in
  o ← hm_ask (he_coherent env);
  match o with
  | None => modify (λ s, s <| host_mem_descs := None |>);; mret (- ENOMEM)
  | Some descs_dma =>
      t ← hm_fresh;
      modify (λ s, s <| hm_tables ::= <[t := mk_htable (n * HMB_DESC_BYTES) descs_dma (replicate (Z.to_nat n) (mk_hdesc 0 0))]> |>);;
      ok ← hm_ask (he_kcalloc env);
      if negb ok then
        dma_free_table t (n * HMB_DESC_BYTES);;
        modify (λ s, s <| host_mem_descs := None |>);;
        mret (- ENOMEM)
      else
        a ← hm_fresh;
        modify (λ s, s <| hm_arrays ::= <[a := replicate (Z.to_nat n) None]> |>);;
        '(i, size) ← fill_host_mem t a (Z.to_nat n) 0 0 preferred chunk_size;
        if bool_decide (size = 0) then
          for_each (free_entry t a) (rev (seq 0 (Z.to_nat i)));;
          kfree_array a;;
          dma_free_table t (n * HMB_DESC_BYTES);;
          modify (λ s, s <| host_mem_descs := None |>);;
          mret (- ENOMEM)
        else
          modify (λ s, s <| nr_host_mem_descs := i |> <| host_mem_size := size |> <| host_mem_descs := Some t |>
                         <| host_mem_descs_dma := descs_dma |> <| host_mem_desc_bufs := Some a |>);;
          mret 0
  end.

(** Ever smaller chunks; [fuel] bounds the halvings. *)
Fixpoint alloc_chunks (fuel : nat) (least preferred chunk_size min : Z) : HM Z :=
  if negb (bool_decide (least ≤ chunk_size)) then mret (- ENOMEM)
  else match fuel with
       | O => crash OutOfFuel
       | S fuel =>
           ret ← __nvme_alloc_host_mem preferred (u32 chunk_size);
           if bool_decide (ret = 0) then
             s ← gets id;
             if bool_decide (min = 0) || bool_decide (min ≤ host_mem_size s) then mret 0
             else nvme_free_host_mem;; alloc_chunks fuel least preferred (chunk_size / 2) min
           else alloc_chunks fuel least preferred (chunk_size / 2) min
       end.

Definition least_chunk : Z := Z.max (u32 (hmminds lim * 4096)) (HMB_PAGE_SIZE * 2).

Definition nvme_alloc_host_mem (min preferred : Z) : HM Z :=
  alloc_chunks 32 least_chunk preferred (Z.min preferred HMB_MAX_CHUNK) min.

Definition hmb_preferred : Z := Z.min (hmpre lim * 4096) (max_host_mem_size_mb lim * SZ_1M).
Definition hmb_min : Z := hmmin lim * 4096.

Definition nvme_setup_host_mem : HM Z :=
  if bool_decide (hmpre lim = 0) then mret 0
  else if bool_decide (max_host_mem_size_mb lim * SZ_1M < hmb_min) then nvme_free_host_mem;; mret 0
  else
    s ← gets id;
    bits ← match host_mem_descs s with
           | Some _ =>
               if bool_decide (hmb_min ≤ host_mem_size s)
               then mret (Z.lor NVME_HOST_MEM_ENABLE NVME_HOST_MEM_RETURN)
               else nvme_free_host_mem;; mret NVME_HOST_MEM_ENABLE
           | None => mret NVME_HOST_MEM_ENABLE
           end;
    s ← gets id;
    rc ← match host_mem_descs s with
         | None => nvme_alloc_host_mem hmb_min hmb_preferred
         | Some _ => mret 0
         end;
    if negb (bool_decide (rc = 0)) then mret 0
    else
      ret ← nvme_set_host_mem bits;
      when (negb (bool_decide (ret = 0))) nvme_free_host_mem;;
      mret ret.

(** sysfs: [input] is what kstrtobool reads, [count] the bytes written. *)
Definition hmb_store (input : option bool) (count : Z) : HM Z :=
  match input with
  | None => mret (- EINVAL)
  | Some new =>
      s ← gets id;
      if bool_decide (new = hmb s) then mret count
      else
        ret ← (if (new : bool) then nvme_setup_host_mem
               else
                 ret ← nvme_set_host_mem 0;
                 when (bool_decide (ret = 0)) nvme_free_host_mem;;
                 mret ret);
        mret (if bool_decide (ret < 0) then ret else count)
  end.

(** ** The buffer's life

    A controller reset makes the controller forget the buffer; set-up runs
    after one, the attribute is written at any time, and removal frees the
    buffer after the controller was disabled. *)
Inductive hmb_act : Set :=
  | HmbReset
  | HmbSetup
  | HmbStore (input : option bool) (count : Z)
  | HmbRemove.

Definition hmb_act_ok (a : hmb_act) (s : hmb_state) : Prop :=
  match a with
  | HmbSetup | HmbRemove => hm_view s = None
  | HmbReset | HmbStore _ _ => True
  end.

Definition hmb_step (a : hmb_act) : HM unit :=
  match a with
  | HmbReset => modify (λ s, s <| hm_view := None |>)
  | HmbSetup => nvme_setup_host_mem;; mret tt
  | HmbStore input count => hmb_store input count;; mret tt
  | HmbRemove => nvme_free_host_mem
  end.

End hmb.

Definition hmb_init : hmb_state := mk_hmb false 0 0 0 None None ∅ ∅ ∅ 0 0 None [].

(** States reachable with one set of limits; every step asks its own
    environment. *)
Inductive hmb_reach (lim : hmb_limits) : hmb_state → Prop :=
  | hmb_start : hmb_reach lim hmb_init
  | hmb_next env a s s' : hmb_reach lim s → hmb_act_ok a s → (hmb_step lim env a s).2 = s' → hmb_reach lim s'.
