(* ===== verification/PciHmbSpec.v ===== *)
(** * PciHmbSpec: what the host memory buffer's memory looks like

    [hmb_rep lim l s]: the device holds exactly the buffers of [l] with one
    table and one array that describe them in order, or nothing at all.  Every
    operation keeps such a description; a loan to the controller is always of
    memory that is described. *)
From S2P Require Import Prelude.
From S2P Require Import PciData.
From S2P Require Import PciHmb.

Record hbuf : Set := mk_hbuf {
  hb_ptr : nat;
  hb_mem : dma_buf;
}.

Implicit Types (l : list hbuf) (b : hbuf) (s : hmb_state).

Definition hb_bytes b : Z := bf_bytes (hb_mem b).
Definition hb_desc b : hmb_desc := mk_hdesc (bf_addr (hb_mem b)) (hb_bytes b / NVME_CTRL_PAGE_SIZE).
Definition hb_map l : gmap nat dma_buf := list_to_map ((λ b, (hb_ptr b, hb_mem b)) <$> l).
Definition total l : Z := foldr (λ b n, hb_bytes b + n) 0 l.

Definition lim_ok (lim : hmb_limits) : Prop :=
  0 ≤ hmpre lim < 2 ^ 32 ∧ 0 ≤ hmmin lim < 2 ^ 32 ∧ 0 ≤ hmmaxd lim < 2 ^ 16
  ∧ 0 ≤ max_host_mem_size_mb lim < 2 ^ 32.

(** Large buffers are cut into page multiples. *)
Definition page_cut (lim : hmb_limits) : Prop := HMB_MAX_CHUNK ≤ hmb_preferred lim.

(** A buffer, or a chunk size: positive, at most one maximal block. *)
Definition len_ok (lim : hmb_limits) (n : Z) : Prop :=
  0 < n ≤ HMB_MAX_CHUNK ∧ (page_cut lim → (NVME_CTRL_PAGE_SIZE | n)).

Definition count_ok (lim : hmb_limits) (n : Z) : Prop := hmmaxd lim ≠ 0 → n ≤ hmmaxd lim.

(** What frees may leave behind: less than a page of a buffer, and only of one
    that was not cut into pages, or entries of a table. *)
Definition rest_ok (lim : hmb_limits) (e : hmb_rest) : Prop :=
  match e with
  | RestBuf n => 0 < n < NVME_CTRL_PAGE_SIZE ∧ ¬ page_cut lim
  | RestTable n => 0 < n ∧ (HMB_DESC_BYTES | n)
  end.

(** One table and one array of [n] entries, the first of them filled. *)
Record described (lim : hmb_limits) (t a : nat) (n dma : Z) l s : Prop := {
  de_tables : ∃ ds, hm_tables s = {[ t := mk_htable (n * HMB_DESC_BYTES) dma ds ]}
    ∧ Z.of_nat (length ds) = n ∧ take (length l) ds = hb_desc <$> l;
  de_arrays : ∃ ps, hm_arrays s = {[ a := ps ]}
    ∧ Z.of_nat (length ps) = n ∧ take (length l) ps = (Some ∘ hb_ptr) <$> l;
  de_bufs : hm_bufs s = hb_map l;
  de_nodup : NoDup (hb_ptr <$> l);
  de_fresh : Forall (λ b, (hb_ptr b < hm_next s)%nat) l;
  de_len : Forall (len_ok lim ∘ hb_bytes) l;
  de_count : count_ok lim n;
  de_log : Forall (rest_ok lim) (hm_rest s);
}.

(** No memory. *)
Record cleared (lim : hmb_limits) s : Prop := {
  cl_tables : hm_tables s = ∅;
  cl_arrays : hm_arrays s = ∅;
  cl_bufs : hm_bufs s = ∅;
  cl_log : Forall (rest_ok lim) (hm_rest s);
}.

Definition hmb_rep (lim : hmb_limits) l s : Prop :=
  match host_mem_descs s with
  | None => l = [] ∧ cleared lim s ∧ host_mem_desc_bufs s = None ∧ nr_host_mem_descs s = 0
  | Some t => ∃ a n, described lim t a n (host_mem_descs_dma s) l s ∧ host_mem_desc_bufs s = Some a
      ∧ nr_host_mem_descs s = Z.of_nat (length l) ∧ host_mem_size s = total l ∧ total l ≤ hmb_preferred lim
  end.

(** The registers and pointers the memory operations leave alone. *)
Definition same_ctl s s' : Prop := hmb s' = hmb s ∧ hm_view s' = hm_view s.

#[export] Instance same_ctl_refl : Reflexive same_ctl.
Proof. by intros s. Qed.
#[export] Instance same_ctl_trans : Transitive same_ctl.
Proof. intros s1 s2 s3 [] []. split; congruence. Qed.

(** Nor what the device refers to. *)
Definition quiet s s' : Prop :=
  same_ctl s s' ∧ host_mem_descs s' = host_mem_descs s ∧ host_mem_desc_bufs s' = host_mem_desc_bufs s
  ∧ nr_host_mem_descs s' = nr_host_mem_descs s.

#[export] Instance quiet_refl : Reflexive quiet.
Proof. by intros s. Qed.
#[export] Instance quiet_trans : Transitive quiet.
Proof. intros s1 s2 s3 (Ha & ? & ? & ?) (Hb & ? & ? & ?). split_and!; [by etrans|congruence..]. Qed.

(** ** Freeing *)

Lemma page_size_eq : NVME_CTRL_PAGE_SIZE = 4096.
Proof. done. Qed.

Lemma hb_map_cons b l : hb_map (b :: l) = <[hb_ptr b := hb_mem b]> (hb_map l).
Proof. done. Qed.

Lemma hb_map_fresh p l : p ∉ (hb_ptr <$> l) → hb_map l !! p = None.
Proof. intros Hp. apply not_elem_of_list_to_map_1. rewrite <- list_fmap_compose. exact Hp. Qed.

Lemma freed_size lim n :
  len_ok lim n → let f := u32 (n / NVME_CTRL_PAGE_SIZE * NVME_CTRL_PAGE_SIZE) in
  f ≤ n < f + NVME_CTRL_PAGE_SIZE ∧ (page_cut lim → f = n).
Proof.
  unfold len_ok, HMB_MAX_CHUNK, HMB_PAGE_SIZE. rewrite page_size_eq. intros [Hn Hp]. cbn zeta.
  pose proof (Z.div_mod n 4096). pose proof (Z.mod_pos_bound n 4096).
  rewrite wrap_small by lia. split; [lia|]. intros Hc. destruct (Hp Hc) as [k ->]. by rewrite Z.div_mul.
Qed.

Lemma leftover_ok lim f n : (n ≠ 0 → rest_ok lim (f n)) → Forall (rest_ok lim) (leftover f n).
Proof. intros H. unfold leftover. case_bool_decide; [done|]. constructor; [by apply H|done]. Qed.

Lemma free_table_ok t size tb s :
  hm_tables s !! t = Some tb → size ≤ ht_bytes tb →
  dma_free_table t size s
    = (Ok tt, s <| hm_tables ::= delete t |> <| hm_rest ::= λ es, es ++ leftover RestTable (ht_bytes tb - size) |>).
Proof.
  intros Et Hs. unfold dma_free_table, deref_table, mbind, M_bind, gets, modify, from_opt. cbn. rewrite Et. cbn.
  by rewrite bool_decide_false by lia.
Qed.

(** One entry goes: the table and the array still describe it, the buffers
    left are those of [rest]. *)
Lemma free_entry_ok lim t a s tb ps i b rest :
  hm_tables s !! t = Some tb → hm_arrays s !! a = Some ps →
  ht_descs tb !! i = Some (hb_desc b) → ps !! i = Some (Some (hb_ptr b)) →
  hm_bufs s = hb_map (b :: rest) → NoDup (hb_ptr <$> b :: rest) → len_ok lim (hb_bytes b) →
  ∃ e, Forall (rest_ok lim) e ∧ free_entry t a i s
    = (Ok tt, s <| hm_bufs := hb_map rest |> <| hm_rest ::= λ es, es ++ e |>).
Proof.
  intros Et Ea Ed Ep Hb Hnd Hl. destruct (freed_size lim _ Hl) as [Hf1 Hf2]. unfold hb_bytes in *.
  eexists. split; [|].
  2: { unfold free_entry, read_desc, read_buf, deref_table, deref_array, dma_free_buf, mbind, M_bind, gets, modify, from_opt.
    cbn. rewrite Et. cbn. rewrite Ed. cbn. rewrite Ea. cbn. rewrite Ep. cbn. rewrite Hb, hb_map_cons, lookup_insert_eq. cbn.
    rewrite bool_decide_false by (unfold hb_bytes; lia).
    do 2 f_equal. unfold set, set_hm_bufs, set_hm_rest. cbn. do 2 f_equal.
    rewrite Hb, hb_map_cons. apply NoDup_cons in Hnd as [Hp _]. rewrite delete_insert_id; [done|]. by apply hb_map_fresh. }
  apply leftover_ok. intros Hne. cbn. unfold hb_bytes in *. split; [lia|]. intros Hc. specialize (Hf2 Hc). lia.
Qed.

Lemma free_loop_ok lim t a tb ps l :
  take (length l) (ht_descs tb) = hb_desc <$> l → take (length l) ps = (Some ∘ hb_ptr) <$> l →
  Forall (len_ok lim ∘ hb_bytes) l → NoDup (hb_ptr <$> l) →
  ∀ rest before s, l = before ++ rest → hm_tables s !! t = Some tb → hm_arrays s !! a = Some ps → hm_bufs s = hb_map rest →
  ∃ es, Forall (rest_ok lim) es ∧ for_each (free_entry t a) (seq (length before) (length rest)) s
    = (Ok tt, s <| hm_bufs := ∅ |> <| hm_rest ::= λ es', es' ++ es |>).
Proof.
  intros Hds Hps Hlen Hnd. induction rest as [|b rest IH]; intros before s El Et Ea Hb.
  - exists []. split; [done|]. cbn. destruct s. unfold set, set_hm_bufs, set_hm_rest. cbn in *. rewrite Hb, app_nil_r. done.
  - assert (l !! length before = Some b) as Eb by (subst l; rewrite lookup_app_r, Nat.sub_diag by lia; done).
    assert (length before < length l)%nat as Hlt by (by eapply lookup_lt_Some).
    assert (ht_descs tb !! length before = Some (hb_desc b)) as Ed.
    { rewrite <- (lookup_take_lt _ (length l)), Hds, list_lookup_fmap, Eb by lia. done. }
    assert (ps !! length before = Some (Some (hb_ptr b))) as Ep.
    { rewrite <- (lookup_take_lt _ (length l)), Hps, list_lookup_fmap, Eb by lia. done. }
    rewrite Forall_forall in Hlen.
    destruct (free_entry_ok lim t a s tb ps (length before) b rest) as (e & He & E); try done.
    { subst l. rewrite fmap_app in Hnd. by apply NoDup_app in Hnd as (_ & _ & ?). }
    { apply Hlen. by eapply list_elem_of_lookup_2. }
    destruct (IH (before ++ [b]) (s <| hm_bufs := hb_map rest |> <| hm_rest ::= λ es, es ++ e |>)) as (es & Hes & E');
      [by rewrite El, <- app_assoc|done|done|done|].
    exists (e ++ es). split; [by apply Forall_app|]. cbn [length seq for_each]. rewrite (bind_ok _ _ _ _ _ E).
    rewrite length_app, Nat.add_1_r in E'. rewrite E'. unfold set, set_hm_bufs, set_hm_rest. cbn. by rewrite <- app_assoc.
Qed.

(** Freeing what the device holds leaves nothing. *)
Lemma free_ok lim l s :
  hmb_rep lim l s →
  ∃ s', nvme_free_host_mem s = (Ok tt, s') ∧ hmb_rep lim [] s' ∧ host_mem_descs s' = None ∧ same_ctl s s'.
Proof.
  unfold hmb_rep at 1, nvme_free_host_mem. intros Hr. rewrite bind_gets. cbn [id].
  destruct (host_mem_descs s) as [t|] eqn:Et.
  - destruct Hr as (a & n & [(ds & Ets & Hdl & Hds) (ps & Eas & Hpl & Hps) Hb Hnd _ Hlen Hc Hlog] & -> & -> & _ & _).
    rewrite Nat2Z.id.
    destruct (free_loop_ok lim t a (mk_htable (n * HMB_DESC_BYTES) (host_mem_descs_dma s) ds) ps l Hds Hps Hlen Hnd l [] s) as (es & Hes & E);
      [done|by rewrite Ets, lookup_singleton_eq|by rewrite Eas, lookup_singleton_eq|done|].
    cbn [length] in E. rewrite (bind_ok _ _ _ _ _ E).
    assert (length l ≤ length ds)%nat as Hle by (rewrite <- (length_fmap hb_desc l), <- Hds; rewrite length_take; lia).
    unfold kfree_array, deref_array, mbind, M_bind, gets, modify, from_opt. cbn.
    rewrite Eas, lookup_singleton_eq. cbn.
    erewrite free_table_ok; [|cbn; by rewrite Ets, lookup_singleton_eq|cbn; unfold HMB_DESC_BYTES; lia]. cbn.
    eexists. split; [reflexivity|]. split; [|done]. cbn. split_and!; try done.
    split; cbn; [by rewrite Ets, delete_singleton_eq|by rewrite Eas, delete_singleton_eq|done|].
    rewrite !Forall_app. split_and!; [done..|]. apply leftover_ok. unfold rest_ok, HMB_DESC_BYTES. intros Hne.
    split; [lia|]. exists (n - Z.of_nat (length l)). lia.
  - destruct Hr as (-> & [] & -> & ->). cbn. eexists. split; [reflexivity|]. split_and!; try done.
Qed.

(** ** Allocating *)

Lemma total_app l l' : total (l ++ l') = total l + total l'.
Proof. unfold total. induction l as [|b l IH]; cbn; [done|]. rewrite IH. lia. Qed.

Lemma total_pos lim l : Forall (len_ok lim ∘ hb_bytes) l → 0 ≤ total l ∧ (total l = 0 → l = []).
Proof.
  unfold total. induction 1 as [|b l [Hb _] _ IH]; cbn; [done|]. cbn in Hb. destruct IH. split; [lia|]. intros. lia.
Qed.

Lemma take_insert_snoc {A} (xs : list A) (ys : list A) n y :
  (n < length xs)%nat → take n xs = ys → take (S n) (<[n := y]> xs) = ys ++ [y].
Proof.
  intros Hn <-. rewrite (take_S_r _ _ y); [|by apply list_lookup_insert_eq]. by rewrite take_insert_ge by lia.
Qed.

(** One more buffer. *)
Lemma described_snoc lim t a n dma l s addr len :
  described lim t a n dma l s → Z.of_nat (length l) < n → len_ok lim len →
  let p := hm_next s in let b := mk_hbuf p (mk_dbuf len addr) in
  ∃ s', (p ← hm_fresh;
         modify (λ s, s <| hm_bufs ::= <[p := mk_dbuf len addr]> |>);;
         write_buf a (Z.of_nat (length l)) (Some p);;
         write_desc t (Z.of_nat (length l)) (mk_hdesc addr (len / NVME_CTRL_PAGE_SIZE))) s = (Ok tt, s')
    ∧ described lim t a n dma (l ++ [b]) s' ∧ quiet s s'.
Proof.
  intros [(ds & Ets & Hdl & Hds) (ps & Eas & Hpl & Hps) Hb Hnd Hfr Hlen Hc Hlog] Hlt Hok p b.
  unfold hm_fresh, write_buf, write_desc, deref_array, deref_table, mbind, M_bind, gets, modify, from_opt. cbn.
  rewrite Eas, lookup_singleton_eq. cbn. rewrite bool_decide_true by lia. cbn. rewrite Ets, lookup_singleton_eq. cbn.
  rewrite bool_decide_true by lia. cbn. rewrite !Nat2Z.id. eexists. split; [reflexivity|]. split; [|done].
  assert (p ∉ (hb_ptr <$> l)) as Hp.
  { intros (b' & Eb & Hin)%list_elem_of_fmap. rewrite Forall_forall in Hfr. specialize (Hfr b' Hin). subst p. rewrite <- Eb in Hfr. lia. }
  split; cbn.
  - rewrite Ets. exists (<[length l := hb_desc b]> ds). split_and!; [by rewrite insert_singleton_eq|by rewrite length_insert|].
    rewrite length_app, Nat.add_1_r, fmap_app. apply take_insert_snoc; [lia|done].
  - rewrite Eas. exists (<[length l := Some p]> ps). split_and!; [by rewrite insert_singleton_eq|by rewrite length_insert|].
    rewrite length_app, Nat.add_1_r, fmap_app. apply take_insert_snoc; [lia|done].
  - rewrite Hb. unfold hb_map. rewrite fmap_app, list_to_map_app. cbn.
    rewrite insert_empty, <- insert_union_singleton_r; [done|]. by apply hb_map_fresh.
  - rewrite fmap_app. apply NoDup_app. split_and!; [done| |apply NoDup_singleton].
    intros x Hx ->%list_elem_of_singleton. by apply Hp.
  - apply Forall_app. split; [eapply Forall_impl; [exact Hfr|]; cbn; lia|]. constructor; [cbn; lia|done].
  - apply Forall_app. split; [done|]. by constructor.
  - done.
  - done.
Qed.

(** The array entry of a failed allocation is cleared. *)
Lemma described_clear lim t a n dma l s :
  described lim t a n dma l s → Z.of_nat (length l) < n →
  ∃ s', write_buf a (Z.of_nat (length l)) None s = (Ok tt, s') ∧ described lim t a n dma l s' ∧ quiet s s'.
Proof.
  intros [Hts (ps & Eas & Hpl & Hps) Hb Hnd Hfr Hlen Hc Hlog] Hlt.
  unfold write_buf, deref_array, mbind, M_bind, gets, modify, from_opt. cbn. rewrite Eas, lookup_singleton_eq. cbn.
  rewrite bool_decide_true by lia. cbn. rewrite Nat2Z.id. eexists. split; [reflexivity|]. split; [|done].
  split; cbn; try done. rewrite Eas. exists (<[length l := None]> ps).
  split_and!; [by rewrite insert_singleton_eq|by rewrite length_insert|]. by rewrite take_insert_ge by lia.
Qed.

(** The clock is not part of the description. *)
Lemma described_ask {A} lim t a n dma l s (f : nat → A) :
  described lim t a n dma l s → ∃ s', hm_ask f s = (Ok (f (hm_clock s)), s') ∧ described lim t a n dma l s' ∧ quiet s s'.
Proof. intros []. eexists. split; [reflexivity|]. split; [by split|done]. Qed.

Section alloc.
Context (lim : hmb_limits) (env : hmb_env) (preferred : Z).
Context (Hpref : 0 ≤ preferred ≤ hmb_preferred lim) (Hpage : (NVME_CTRL_PAGE_SIZE | preferred)).

Lemma next_len chunk size :
  len_ok lim chunk → 0 ≤ size < preferred → (page_cut lim → (NVME_CTRL_PAGE_SIZE | size)) →
  let len := u32 (Z.min chunk (preferred - size)) in
  len_ok lim len ∧ size + len ≤ preferred ∧ (page_cut lim → (NVME_CTRL_PAGE_SIZE | size + len)).
Proof.
  intros [Hc Hcp] Hs Hsp len. assert (len = Z.min chunk (preferred - size)) as ->.
  { apply wrap_small. unfold HMB_MAX_CHUNK, HMB_PAGE_SIZE in Hc. lia. }
  assert (page_cut lim → (NVME_CTRL_PAGE_SIZE | Z.min chunk (preferred - size))) as Hm.
  { intros Hp. destruct (Z.min_spec chunk (preferred - size)) as [[_ ->]|[_ ->]]; [by apply Hcp|].
    apply Z.divide_sub_r; [done|by apply Hsp]. }
  split_and!; [split; [lia|done]|lia|]. intros Hp. apply Z.divide_add_r; [by apply Hsp|by apply Hm].
Qed.

Lemma total_page l : Forall (len_ok lim ∘ hb_bytes) l → page_cut lim → (NVME_CTRL_PAGE_SIZE | total l).
Proof.
  intros Hl Hp. unfold total. induction Hl as [|b l [_ Hb] _ IH]; cbn; [by exists 0|]. by apply Z.divide_add_r; [apply Hb|].
Qed.

Lemma fill_ok t a n dma chunk room l s :
  len_ok lim chunk → described lim t a n dma l s → Z.of_nat (length l + room) = n → total l ≤ preferred →
  ∃ l' s', fill_host_mem env t a room (Z.of_nat (length l)) (total l) preferred chunk s
      = (Ok (Z.of_nat (length l'), total l'), s')
    ∧ described lim t a n dma l' s' ∧ total l' ≤ preferred ∧ quiet s s'.
Proof.
  intros Hchunk. revert l s. induction room as [|room IH]; intros l s Hd Hn Hle; cbn [fill_host_mem]; [by exists l, s|].
  case_bool_decide as Hlt; cbn [negb]; [|by exists l, s].
  pose proof (de_len _ _ _ _ _ _ _ Hd) as Hlens. destruct (total_pos lim l Hlens) as [Hpos _].
  destruct (next_len chunk (total l) Hchunk) as (Hok & Hle' & _); [lia|by apply total_page|].
  destruct (described_ask lim t a n dma l s (he_buf env) Hd) as (s1 & E1 & Hd1 & Hq1). rewrite (bind_ok _ _ _ _ _ E1).
  destruct (he_buf env (hm_clock s)) as [addr|].
  - destruct (described_snoc lim t a n dma l s1 addr _ Hd1 ltac:(lia) Hok) as (s2 & E2 & Hd2 & Hq2).
    destruct (IH _ s2 Hd2) as (l' & s3 & E3 & Hd3 & Hle3 & Hq3); [rewrite length_app; cbn; lia|rewrite total_app; cbn; lia|].
    exists l', s3. split_and!; [|done|done|by etrans; [exact Hq1|etrans]].
    rewrite length_app, total_app in E3. cbn [length total foldr] in E3. rewrite Nat2Z.inj_add, Z.add_0_r in E3.
    rewrite <- E3. revert E2. unfold mbind, M_bind. clear.
    destruct (hm_fresh s1) as [[p|?|?] s']; cbn; try done.
    destruct (write_buf a _ _ _) as [[[]|?|?] s'']; cbn; try done. by intros ->.
  - destruct (described_clear lim t a n dma l s1 Hd1 ltac:(lia)) as (s2 & E2 & Hd2 & Hq2). rewrite (bind_ok _ _ _ _ _ E2).
    exists l, s2. split_and!; [done..|by etrans].
Qed.

(** An allocation that fails leaves nothing behind. *)
Definition alloc_post (ret : Z) s s' : Prop :=
  same_ctl s s' ∧
  ((ret = - ENOMEM ∧ hmb_rep lim [] s' ∧ host_mem_descs s' = None)
   ∨ (ret = 0 ∧ ∃ l, hmb_rep lim l s' ∧ is_Some (host_mem_descs s'))).

Lemma max_entries_ok chunk :
  lim_ok lim → len_ok lim chunk → 0 ≤ max_entries lim preferred chunk ∧ count_ok lim (max_entries lim preferred chunk).
Proof.
  intros (_ & _ & Hd & _) _. unfold max_entries, count_ok. pose proof (wrap_fits 32 (u64 (preferred + chunk - 1) / chunk) ltac:(lia)) as Hw. unfold fits in Hw.
  repeat case_bool_decide; cbn [negb andb]; lia.
Qed.

Lemma alloc_once_ok chunk s :
  lim_ok lim → len_ok lim chunk → hmb_rep lim [] s → host_mem_descs s = None →
  ∃ ret s', __nvme_alloc_host_mem lim env preferred chunk s = (Ok ret, s') ∧ alloc_post ret s s'.
Proof.
  intros Hlim Hchunk Hr Hnone. unfold hmb_rep in Hr. rewrite Hnone in Hr. destruct Hr as (_ & [Ht Ha Hb Hlog] & Hda & Hnr).
  destruct (max_entries_ok chunk Hlim Hchunk) as [Hn Hcnt]. unfold __nvme_alloc_host_mem.
  set (n := max_entries lim preferred chunk) in *.
  unfold hm_ask, hm_fresh, mbind, M_bind, gets, modify. cbn.
  assert (∀ s', hm_tables s' = ∅ → hm_arrays s' = ∅ → hm_bufs s' = ∅ → Forall (rest_ok lim) (hm_rest s') → quiet s s' →
    alloc_post (- ENOMEM) s s') as Hfail.
  { intros s' ? ? ? ? (? & E1 & E2 & E3). split; [done|]. left. split; [done|]. unfold hmb_rep. rewrite E1, E2, E3, Hnone. by split_and!. }
  destruct (he_coherent env (hm_clock s)) as [dma|]; cbn.
  2: { eexists _, _. split; [reflexivity|]. apply Hfail; done. }
  destruct (he_kcalloc env (S (hm_clock s))); cbn.
  2: { erewrite free_table_ok; [|apply lookup_insert_eq|cbn; lia]. cbn. eexists _, _. split; [reflexivity|].
    apply Hfail; cbn; [by rewrite Ht, insert_empty, delete_singleton_eq|done|done| |by split_and!].
    rewrite Z.sub_diag. by rewrite app_nil_r. }
  match goal with |- context [fill_host_mem env ?t ?a _ _ _ _ _ ?x] => set (s1 := x); set (a1 := a); set (t1 := t) end.
  assert (described lim t1 a1 n dma [] s1) as Hd.
  { split; cbn.
    - rewrite Ht, insert_empty. eexists. split; [reflexivity|]. rewrite length_replicate. split; [lia|done].
    - rewrite Ha, insert_empty. eexists. split; [reflexivity|]. rewrite length_replicate. split; [lia|done].
    - done.
    - constructor.
    - constructor.
    - constructor.
    - done.
    - done. }
  destruct (fill_ok t1 a1 n dma chunk (Z.to_nat n) [] s1 Hchunk Hd) as (l & s2 & E & Hd2 & Hle & Hq); [cbn; lia|cbn; lia|].
  cbn [length total foldr] in E. change (Z.of_nat 0) with 0 in E. rewrite E. clear E.
  pose proof Hd2 as [(ds & Ets & _ & _) (ps & Eas & _ & _) Hb2 Hnd2 Hfr2 Hlen2 _ Hlog2].
  destruct (total_pos lim l Hlen2) as [Hpos Hz]. case_bool_decide as Hsz.
  - rewrite (Hz Hsz) in *. cbn [length]. change (seq 0 (Z.to_nat (Z.of_nat 0))) with (@nil nat). cbn [rev for_each].
    unfold mret, M_ret, kfree_array, deref_array, mbind, M_bind, gets, modify. cbn. rewrite Eas, lookup_singleton_eq. cbn.
    erewrite free_table_ok; [|cbn; by rewrite Ets, lookup_singleton_eq|cbn; lia]. cbn. eexists _, _. split; [reflexivity|].
    apply Hfail; cbn; [by rewrite Ets, delete_singleton_eq|by rewrite Eas, delete_singleton_eq|done| |].
    + by rewrite Z.sub_diag, app_nil_r.
    + destruct Hq as ([Hq1 Hq2] & _ & Hq3 & Hq4). split_and!; [split; [exact Hq1|exact Hq2]|done|exact Hq3|exact Hq4].
  - eexists _, _. split; [reflexivity|]. split; [split; apply Hq|]. right. split; [done|]. exists l. split; [|by eexists].
    unfold hmb_rep. cbn. exists a1, n. split_and!; [|done..|lia]. destruct Hd2. by split.
Qed.

(** The chunk sizes that are tried. *)
Definition chunk_ok (chunk : Z) : Prop := 0 ≤ chunk ≤ HMB_MAX_CHUNK ∧ (page_cut lim → ∃ k, 0 ≤ k ∧ chunk = 2 ^ k).

Lemma chunk_len chunk : chunk_ok chunk → HMB_PAGE_SIZE * 2 ≤ chunk → len_ok lim chunk.
Proof.
  unfold HMB_PAGE_SIZE. intros [Hc Hp] Hge. split; [lia|]. intros Hcut. destruct (Hp Hcut) as (k & Hk & ->).
  exists (2 ^ (k - 12)). rewrite page_size_eq. change 4096 with (2 ^ 12). rewrite <- Z.pow_add_r; [f_equal; lia| |lia].
  destruct (Z.le_gt_cases 12 k); [lia|]. assert (2 ^ k ≤ 2 ^ 12) by (apply Z.pow_le_mono_r; lia). lia.
Qed.

Lemma chunk_half chunk : chunk_ok chunk → HMB_PAGE_SIZE * 2 ≤ chunk → chunk_ok (chunk / 2).
Proof.
  unfold HMB_PAGE_SIZE. intros [Hc Hp] Hge. split.
  - split; [apply Z.div_pos; lia|]. apply Z.div_le_upper_bound; [lia|]. unfold HMB_MAX_CHUNK, HMB_PAGE_SIZE in *. lia.
  - intros Hcut. destruct (Hp Hcut) as (k & Hk & ->). assert (1 ≤ k) as Hk1.
    { destruct (Z.le_gt_cases 1 k); [done|]. replace k with 0 in Hge by lia. cbn in Hge. lia. }
    exists (k - 1). split; [lia|]. replace k with (k - 1 + 1) at 1 by lia. rewrite Z.pow_add_r, Z.pow_1_r by lia. by rewrite Z.div_mul.
Qed.

Lemma alloc_chunks_ok fuel least chunk mn s :
  lim_ok lim → chunk_ok chunk → HMB_PAGE_SIZE * 2 ≤ least → chunk < HMB_PAGE_SIZE * 2 * 2 ^ Z.of_nat fuel → 0 ≤ mn →
  hmb_rep lim [] s → host_mem_descs s = None →
  ∃ ret s', alloc_chunks lim env fuel least preferred chunk mn s = (Ok ret, s') ∧ alloc_post ret s s'
    ∧ (ret = 0 → mn ≤ host_mem_size s').
Proof.
  intros Hlim Hc Hl Hf Hmn. revert chunk Hc Hf s. induction fuel as [|fuel IH]; intros chunk Hc Hf s Hr Hn; cbn [alloc_chunks].
  - rewrite Z.pow_0_r in Hf. rewrite bool_decide_false by lia. cbn [negb]. eexists _, _. split; [reflexivity|]. split; [|done].
    split; [done|]. by left.
  - case_bool_decide as Hle; cbn [negb].
    2: { eexists _, _. split; [reflexivity|]. split; [|done]. split; [done|]. by left. }
    assert (HMB_PAGE_SIZE * 2 ≤ chunk) as Hge by lia. pose proof (chunk_len chunk Hc Hge) as Hlen.
    assert (u32 chunk = chunk) as -> by (apply wrap_small; destruct Hlen; unfold HMB_MAX_CHUNK, HMB_PAGE_SIZE in *; lia).
    assert (chunk / 2 < HMB_PAGE_SIZE * 2 * 2 ^ Z.of_nat fuel) as Hf'.
    { apply Z.div_lt_upper_bound; [lia|]. rewrite Nat2Z.inj_succ, Z.pow_succ_r in Hf by lia. lia. }
    pose proof (chunk_half chunk Hc Hge) as Hc'.
    destruct (alloc_once_ok chunk s Hlim Hlen Hr Hn) as (ret & s1 & E & Hs1 & [(-> & Hr1 & Hn1)|(-> & l & Hr1 & Hs)]);
      rewrite (bind_ok _ _ _ _ _ E).
    + rewrite bool_decide_false by done. destruct (IH _ Hc' Hf' s1 Hr1 Hn1) as (ret & s2 & E2 & [Hs2 Hp2] & Hm2).
      eexists _, _. split; [exact E2|]. split; [|done]. split; [by etrans|done].
    + rewrite bool_decide_true by done. rewrite bind_gets. cbn [id].
      destruct (bool_decide (mn = 0) || bool_decide (mn ≤ host_mem_size s1)) eqn:Em.
      * eexists _, _. split; [reflexivity|]. split; [split; [done|]; right; split; [done|]; by exists l|]. intros _.
        unfold hmb_rep in Hr1. destruct Hs as [t Et]. rewrite Et in Hr1. destruct Hr1 as (a & n & Hd & _ & _ & Hsz & _).
        destruct (total_pos lim l (de_len _ _ _ _ _ _ _ Hd)). rewrite orb_true_iff, !bool_decide_eq_true in Em. lia.
      * destruct (free_ok lim l s1 Hr1) as (s2 & E2 & Hr2 & Hn2 & Hs2). rewrite (bind_ok _ _ _ _ _ E2).
        destruct (IH _ Hc' Hf' s2 Hr2 Hn2) as (ret & s3 & E3 & [Hs3 Hp3] & Hm3).
        eexists _, _. split; [exact E3|]. split; [|done]. split; [by etrans; [|etrans]|done].
Qed.

End alloc.

(** ** The whole device *)

Definition current_view s : hmb_view :=
  mk_hview (u32 (Z.shiftr (host_mem_size s) 12)) (host_mem_descs_dma s) (nr_host_mem_descs s).

Record hmb_inv (lim : hmb_limits) s : Prop := {
  hi_rep : ∃ l, hmb_rep lim l s;
  hi_off : hmb s = false → hm_view s = None;
  hi_view : ∀ v, hm_view s = Some v → v = current_view s ∧ is_Some (host_mem_descs s) ∧ hmb_min lim ≤ host_mem_size s;
}.

Lemma inv_no_view lim l s : hmb_rep lim l s → hm_view s = None → hmb_inv lim s.
Proof. intros Hr Hv. split; [by exists l|done|]. rewrite Hv. done. Qed.

Lemma rep_clock lim l s s' :
  hmb_rep lim l s → hm_tables s' = hm_tables s → hm_arrays s' = hm_arrays s → hm_bufs s' = hm_bufs s → hm_next s' = hm_next s →
  hm_rest s' = hm_rest s → host_mem_descs s' = host_mem_descs s → host_mem_desc_bufs s' = host_mem_desc_bufs s →
  host_mem_descs_dma s' = host_mem_descs_dma s → host_mem_size s' = host_mem_size s → nr_host_mem_descs s' = nr_host_mem_descs s →
  hmb_rep lim l s'.
Proof.
  unfold hmb_rep. intros Hr E1 E2 E3 E4 E5 -> -> -> -> ->. destruct (host_mem_descs s) as [t|].
  - destruct Hr as (a & n & [] & Hrest). exists a, n. split; [|done]. by split; rewrite ?E1, ?E2, ?E3, ?E4, ?E5.
  - destruct Hr as (-> & [] & Hrest). split_and!; [done| |by destruct Hrest..]. by split; rewrite ?E1, ?E2, ?E3, ?E5.
Qed.

(** Set Features keeps the memory; the controller's view follows it. *)
Lemma set_host_mem_ok lim env l bits s :
  hmb_rep lim l s →
  ∃ ret s', nvme_set_host_mem env bits s = (Ok ret, s') ∧ hmb_rep lim l s'
    ∧ host_mem_descs s' = host_mem_descs s ∧ host_mem_size s' = host_mem_size s ∧ current_view s' = current_view s
    ∧ (ret ≠ 0 → same_ctl s s')
    ∧ (ret = 0 → hmb s' = negb (bool_decide (Z.land bits NVME_HOST_MEM_ENABLE = 0))
                 ∧ hm_view s' = if hmb s' then Some (current_view s) else None).
Proof.
  intros Hr. unfold nvme_set_host_mem, hm_ask, mbind, M_bind, gets, modify. cbn.
  case_bool_decide as He; cbn; eexists _, _; (split; [reflexivity|]); (split; [by eapply rep_clock|]); by split_and!.
Qed.

Lemma preferred_page lim : (NVME_CTRL_PAGE_SIZE | hmb_preferred lim).
Proof.
  unfold hmb_preferred, SZ_1M. rewrite page_size_eq. destruct (Z.min_spec (hmpre lim * 4096) (max_host_mem_size_mb lim * 2 ^ 20)) as [[_ ->]|[_ ->]].
  - by exists (hmpre lim).
  - exists (max_host_mem_size_mb lim * 256). lia.
Qed.

Lemma alloc_host_mem_ok lim env s :
  lim_ok lim → hmb_rep lim [] s → host_mem_descs s = None →
  ∃ ret s', nvme_alloc_host_mem lim env (hmb_min lim) (hmb_preferred lim) s = (Ok ret, s') ∧ alloc_post lim ret s s'
    ∧ (ret = 0 → hmb_min lim ≤ host_mem_size s').
Proof.
  intros Hlim Hr Hn. pose proof Hlim as (Hp & Hm & _ & Hmb). apply alloc_chunks_ok; try done.
  - unfold hmb_preferred, SZ_1M. lia.
  - apply preferred_page.
  - split; [unfold hmb_preferred, SZ_1M, HMB_MAX_CHUNK, HMB_PAGE_SIZE; lia|]. unfold page_cut. intros Hc. exists 22. split; [lia|].
    rewrite Z.min_r by done. done.
  - unfold least_chunk. lia.
  - unfold HMB_MAX_CHUNK, HMB_PAGE_SIZE. change (Z.of_nat 32) with 32. lia.
  - unfold hmb_min. lia.
Qed.

(** Before the controller is told, there is no view; afterwards there is one
    of the memory held, or none. *)
Lemma offer_ok lim env l bits s :
  hmb_rep lim l s → hm_view s = None → is_Some (host_mem_descs s) → hmb_min lim ≤ host_mem_size s →
  ∃ ret s', (ret ← nvme_set_host_mem env bits; when (negb (bool_decide (ret = 0))) nvme_free_host_mem;; mret ret) s = (Ok ret, s')
    ∧ hmb_inv lim s'.
Proof.
  intros Hr Hv Hs Hmin. destruct (set_host_mem_ok lim env l bits s Hr) as (ret & s1 & E & Hr1 & Hd1 & Hsz1 & Hcv1 & Hne & Heq).
  rewrite (bind_ok _ _ _ _ _ E).
  destruct (decide (ret = 0)) as [Hret|Hret]; [rewrite bool_decide_true by done|rewrite bool_decide_false by done]; cbn [negb when].
  - exists ret, s1. split; [done|]. destruct (Heq Hret) as [Hb Hview]. split; [by exists l| |].
    + intros Hoff. by rewrite Hview, Hoff.
    + intros v. rewrite Hview. destruct (hmb s1); [|done]. intros [= <-]. by rewrite Hd1, Hsz1, Hcv1.
  - destruct (free_ok lim l s1 Hr1) as (s2 & E2 & Hr2 & _ & [_ Hv2]). rewrite (bind_ok _ _ _ _ _ E2). exists ret, s2. split; [done|].
    eapply inv_no_view; [done|]. destruct (Hne Hret) as [_ Hv1]. congruence.
Qed.

Lemma setup_ok lim env s :
  lim_ok lim → hmb_inv lim s → hm_view s = None →
  ∃ ret s', nvme_setup_host_mem lim env s = (Ok ret, s') ∧ hmb_inv lim s'.
Proof.
  intros Hlim [[l Hr] Hoff Hview] Hv. unfold nvme_setup_host_mem. case_bool_decide; [exists 0, s; split; [done|]; by apply (inv_no_view lim l)|].
  destruct (free_ok lim l s Hr) as (sf & Ef & Hrf & Hnf & [_ Hvf]).
  case_bool_decide; [rewrite (bind_ok _ _ _ _ _ Ef); exists 0, sf; split; [done|]; eapply inv_no_view; [done|congruence]|].
  rewrite bind_gets. cbn [id].
  assert (∀ s1 bits, hmb_rep lim [] s1 → host_mem_descs s1 = None → hm_view s1 = None →
    ∃ ret s', (s ← gets id;
      rc ← match host_mem_descs s with None => nvme_alloc_host_mem lim env (hmb_min lim) (hmb_preferred lim) | Some _ => mret 0 end;
      if negb (bool_decide (rc = 0)) then mret 0
      else ret ← nvme_set_host_mem env bits; when (negb (bool_decide (ret = 0))) nvme_free_host_mem;; mret ret) s1 = (Ok ret, s')
      ∧ hmb_inv lim s') as Hfresh.
  { intros s1 bits Hr1 Hn1 Hv1. rewrite bind_gets. cbn [id]. rewrite Hn1.
    destruct (alloc_host_mem_ok lim env s1 Hlim Hr1 Hn1) as (rc & s2 & E2 & [[_ Hv2] Hp] & Hmin). rewrite (bind_ok _ _ _ _ _ E2).
    destruct Hp as [(-> & Hr2 & _)|(-> & l2 & Hr2 & Hs2)].
    - rewrite bool_decide_false by done. exists 0, s2. split; [done|]. eapply inv_no_view; [done|congruence].
    - rewrite bool_decide_true by done. cbn [negb]. apply (offer_ok lim env l2); [done|congruence|done|by apply Hmin]. }
  destruct (host_mem_descs s) as [t|] eqn:Ed.
  - case_bool_decide as Hmin.
    + rewrite (bind_ok (mret _) _ s _ s eq_refl). rewrite bind_gets. cbn [id]. rewrite Ed. rewrite (bind_ok (mret 0) _ s 0 s eq_refl).
      rewrite bool_decide_true by done. cbn [negb]. apply (offer_ok lim env l); [done|done|by rewrite Ed|done].
    + rewrite (bind_ok _ _ s NVME_HOST_MEM_ENABLE sf); [by apply Hfresh; [..|congruence]|]. by rewrite (bind_ok _ _ _ _ _ Ef).
  - rewrite (bind_ok (mret _) _ s _ s eq_refl). apply Hfresh; [|done|done]. unfold hmb_rep in Hr |- *. rewrite Ed in *. by destruct Hr as (-> & Hr).
Qed.

Lemma hmb_store_ok lim env input count s :
  lim_ok lim → hmb_inv lim s → ∃ ret s', hmb_store lim env input count s = (Ok ret, s') ∧ hmb_inv lim s'.
Proof.
  intros Hlim Hi. unfold hmb_store. destruct input as [new|]; [|by eexists _, s]. rewrite bind_gets. cbn [id].
  case_bool_decide as Hnew; [by eexists _, s|]. destruct new.
  - destruct (setup_ok lim env s Hlim Hi) as (ret & s' & E & Hi').
    { apply (hi_off lim s Hi). by destruct (hmb s). }
    rewrite (bind_ok _ _ _ _ _ E). by eexists _, s'.
  - destruct Hi as [[l Hr] Hoff Hview].
    destruct (set_host_mem_ok lim env l 0 s Hr) as (ret & s1 & E & Hr1 & Hd1 & Hsz1 & Hcv1 & Hne & Heq).
    destruct (decide (ret = 0)) as [->|Hret].
    + destruct (free_ok lim l s1 Hr1) as (s2 & E2 & Hr2 & _ & [Hh2 Hv2]). destruct (Heq eq_refl) as [Hb Hvw].
      rewrite (bind_ok _ _ _ 0 s2); [eexists _, s2; split; [done|]; eapply inv_no_view; [done|]|].
      * rewrite Hv2, Hvw, Hb. done.
      * rewrite (bind_ok _ _ _ _ _ E). by rewrite (bind_ok _ _ _ _ _ E2).
    + rewrite (bind_ok _ _ _ ret s1); [eexists _, s1; split; [done|]|].
      * destruct (Hne Hret) as [Hh1 Hv1]. split; [by exists l|by rewrite Hh1, Hv1|]. rewrite Hv1, Hcv1, Hd1, Hsz1. done.
      * rewrite (bind_ok _ _ _ _ _ E). by rewrite bool_decide_false.
Qed.

Lemma hmb_step_ok lim env a s :
  lim_ok lim → hmb_inv lim s → hmb_act_ok a s → ∃ s', hmb_step lim env a s = (Ok tt, s') ∧ hmb_inv lim s'.
Proof.
  intros Hlim Hi Ha. destruct a as [| |input count|]; cbn in *.
  - eexists. split; [done|]. destruct Hi as [[l Hr] _ _]. eapply inv_no_view; [|done]. by eapply rep_clock.
  - destruct (setup_ok lim env s Hlim Hi Ha) as (ret & s' & E & Hi'). rewrite (bind_ok _ _ _ _ _ E). by eexists.
  - destruct (hmb_store_ok lim env input count s Hlim Hi) as (ret & s' & E & Hi'). rewrite (bind_ok _ _ _ _ _ E). by eexists.
  - destruct Hi as [[l Hr] _ _]. destruct (free_ok lim l s Hr) as (s' & E & Hr' & _ & [_ Hv']). exists s'. split; [done|].
    eapply inv_no_view; [done|congruence].
Qed.

Lemma hmb_reach_inv lim s : lim_ok lim → hmb_reach lim s → hmb_inv lim s.
Proof.
  intros Hlim. induction 1 as [|env a s s' _ IH Ha <-].
  - apply (inv_no_view lim []); [|done]. unfold hmb_rep. cbn. by split_and!.
  - by destruct (hmb_step_ok lim env a s Hlim IH Ha) as (s' & -> & ?).
Qed.
