(* ===== verification/PciBatch.v ===== *)
(** * PciBatch: a list of requests submitted in batches (baseline/6.8/pci.c)

    nvme_queue_rqs walks a linked list of requests for several hardware
    queues, unlinks the ones that cannot be prepared, and hands every run of
    requests for one queue to nvme_submit_cmds with one doorbell write.  The
    list is modelled with its pointers: the walk cuts it while it runs. *)
From S2P Require Import Prelude.
From S2P Require Import PciData.

Record batch_rq : Set := mk_brq {
  rq_next : option nat;
  rq_hctx : nat;            (* mq_hctx, which stands for its queue *)
}.

(** [bt_sent]: the queue and the requests of every call of nvme_submit_cmds,
    whose doorbell write follows the copies. *)
Record batch_state : Type := mk_batch {
  bt_rqs : gmap nat batch_rq;
  bt_sent : list (nat * list nat);
}.

#[export] Instance set_rq_next : Setter rq_next := λ f r, mk_brq (f (rq_next r)) (rq_hctx r).
#[export] Instance set_bt_rqs : Setter bt_rqs := λ f r, mk_batch (f (bt_rqs r)) (bt_sent r).
#[export] Instance set_bt_sent : Setter bt_sent := λ f r, mk_batch (bt_rqs r) (f (bt_sent r)).

Notation BM := (M batch_state).

Definition get_brq (p : nat) : BM batch_rq := s ← gets id; from_opt NullDeref (bt_rqs s !! p).
Definition set_next (p : nat) (n : option nat) : BM unit :=
  r ← get_brq p; modify (λ s, s <| bt_rqs ::= <[p := r <| rq_next := n |>]> |>).

(** rq_list_move: [src] and [dst] are the two list heads. *)
Definition rq_list_move (src dst : option nat) (rq : nat) (prev : option nat) : BM (option nat * option nat) :=
  r ← get_brq rq;
  src ← match prev with
        | Some p => set_next p (rq_next r);; mret src
        | None => mret (rq_next r)
        end;
  set_next rq dst;;
  mret (src, Some rq).

(** The pops of nvme_submit_cmds. *)
Fixpoint pop_all (fuel : nat) (hd : option nat) : BM (list nat) :=
  match hd with
  | None => mret []
  | Some p =>
      match fuel with
      | O => crash OutOfFuel
      | S fuel => r ← get_brq p; l ← pop_all fuel (rq_next r); mret (p :: l)
      end
  end.

Section batch.
Context (enabled : nat → bool).        (* NVMEQ_ENABLED of a queue *)
Context (ready : nat → bool).          (* nvme_check_ready for a request *)
Context (prep : nat → blk_status).     (* nvme_prep_rq for a request *)
Context (fuel : nat).                  (* as long as the longest list *)

Definition nvme_prep_rq_batch (nvmeq req : nat) : bool :=
  if negb (enabled nvmeq) then false
  else if negb (ready req) then false
  else bool_decide (prep req = BLK_STS_OK).

Definition submit_batch (nvmeq : nat) (rqlist : option nat) : BM unit :=
  l ← pop_all fuel rqlist;
  modify (λ s, s <| bt_sent ::= λ x, x ++ [(nvmeq, l)] |>).

Definition next_of (pos : option nat) : BM (option nat) :=
  match pos with Some p => r ← get_brq p; mret (rq_next r) | None => mret None end.

(** The second half of the loop's body, after the request has been prepared
    or moved: returns the new list head and [prev]. *)
Definition end_run (nvmeq : nat) (rqlist prev nxt req : option nat) : BM (option nat * option nat) :=
  match req with
  | None => mret (rqlist, prev)
  | Some req =>
      c ← get_brq req;
      last ← match nxt with
             | None => mret true
             | Some x => d ← get_brq x; mret (negb (bool_decide (rq_hctx c = rq_hctx d)))
             end;
      if (last : bool) then set_next req None;; submit_batch nvmeq rqlist;; mret (nxt, None)
      else mret (rqlist, Some req)
  end.

(** The walk: [pos] and [nxt] are the loop variables of
    rq_list_for_each_safe; returns the final [requeue_list]. *)
Fixpoint queue_rqs_loop (n : nat) (rqlist requeue pos nxt prev : option nat) : BM (option nat) :=
  match pos with
  | None => mret requeue
  | Some rq =>
      match n with
      | O => crash OutOfFuel
      | S n =>
          r ← get_brq rq;
          let nvmeq := rq_hctx r in
          '(rqlist, requeue, req) ←
            (if nvme_prep_rq_batch nvmeq rq then mret (rqlist, requeue, Some rq)
             else '(rqlist, requeue) ← rq_list_move rqlist requeue rq prev; mret (rqlist, requeue, prev));
          '(rqlist, prev) ← end_run nvmeq rqlist prev nxt req;
          nxt' ← next_of nxt;
          queue_rqs_loop n rqlist requeue nxt nxt' prev
      end
  end.

(** The macro reads the first request's successor, so the list may not be
    empty; returns the list of requests not submitted. *)
Definition nvme_queue_rqs (rqlist : option nat) : BM (option nat) :=
  p ← from_opt NullDeref rqlist;
  r ← get_brq p;
  queue_rqs_loop fuel rqlist None rqlist (rq_next r) None.

(** ** What the walk sends *)

Context (hctx : nat → nat).

Definition goes (p : nat) : bool := nvme_prep_rq_batch (hctx p) p.

(** The runs of requests for one queue. *)
Fixpoint runs (l : list nat) : list (nat * list nat) :=
  match l with
  | [] => []
  | p :: l =>
      match runs l with
      | (h, g) :: rs => if bool_decide (hctx p = h) then (h, p :: g) :: rs else (hctx p, [p]) :: (h, g) :: rs
      | [] => [(hctx p, [p])]
      end
  end.

Definition sendable (run : nat * list nat) : nat * list nat := (run.1, filter goes run.2).
Definition sent_batches (l : list nat) : list (nat * list nat) := filter (λ b, b.2 ≠ []) (sendable <$> runs l).

(** The same as the walk sees it: [seg] is waiting for the end of its run. *)
Fixpoint batches (seg l : list nat) : list (nat * list nat) :=
  match l with
  | [] => []
  | p :: l =>
      let seg := if goes p then seg ++ [p] else seg in
      match seg with
      | [] => batches [] l
      | _ => match l with
             | [] => [(hctx p, seg)]
             | q :: _ => if bool_decide (hctx p = hctx q) then batches seg l else (hctx p, seg) :: batches [] l
             end
      end
  end.

Lemma runs_head p l : ∃ g rs, runs (p :: l) = (hctx p, p :: g) :: rs.
Proof.
  cbn. destruct (runs l) as [|[h g] rs]; [by eexists _, _|]. case_bool_decide as E; [subst h|]; by eexists _, _.
Qed.

Lemma filter_batch h (x : list nat) rest :
  filter (λ b : nat * list nat, b.2 ≠ []) ((h, x) :: rest)
    = match x with [] => [] | _ => [(h, x)] end ++ filter (λ b : nat * list nat, b.2 ≠ []) rest.
Proof. destruct x; [rewrite filter_cons_False by (cbn; congruence)|rewrite filter_cons_True by done]; done. Qed.

Lemma goes_snoc seg p g : (if goes p then seg ++ [p] else seg) ++ filter goes g = seg ++ filter goes (p :: g).
Proof.
  destruct (goes p) eqn:Eg; [|rewrite filter_cons_False by (rewrite Eg; tauto); done].
  rewrite filter_cons_True by (by rewrite Eg). by rewrite <- app_assoc.
Qed.

Lemma batches_cons seg p l :
  batches seg (p :: l) = match (if goes p then seg ++ [p] else seg) with
    | [] => batches [] l
    | seg' => match l with
             | [] => [(hctx p, seg')]
             | q :: _ => if bool_decide (hctx p = hctx q) then batches seg' l else (hctx p, seg') :: batches [] l
             end
    end.
Proof. cbn. by destruct (if goes p then _ else _). Qed.

Lemma batches_runs seg p l g rs :
  runs (p :: l) = (hctx p, g) :: rs →
  batches seg (p :: l) = filter (λ b, b.2 ≠ []) ((hctx p, seg ++ filter goes g) :: (sendable <$> rs)).
Proof.
  revert seg p g rs. induction l as [|q l IH]; intros seg p g rs E; rewrite batches_cons.
  - cbn in E. simplify_eq. rewrite filter_batch, <- goes_snoc, !filter_nil, !app_nil_r. by destruct (if goes p then _ else _).
  - destruct (runs_head q l) as (g' & rs' & Eq). assert (runs (p :: q :: l)
      = if bool_decide (hctx p = hctx q) then (hctx q, p :: q :: g') :: rs' else (hctx p, [p]) :: (hctx q, q :: g') :: rs') as E'
      by (cbn [runs] in Eq |- *; by rewrite Eq).
    rewrite E in E'. case_bool_decide as Eh; simplify_eq.
    + rewrite <- goes_snoc. rewrite Eh. destruct (if goes p then _ else _) as [|z zs]; [by rewrite (IH _ q _ _ Eq)|].
      by rewrite (IH _ q _ _ Eq).
    + rewrite filter_batch, <- goes_snoc, !filter_nil, !app_nil_r. cbn [fmap list_fmap]. rewrite (IH [] q _ _ Eq).
      destruct (if goes p then _ else _); done.
Qed.

(** Nothing is lost, repeated or reordered. *)
Lemma batches_join seg l : (l = [] → seg = []) → mjoin (batches seg l).*2 = seg ++ filter goes l.
Proof.
  revert seg. induction l as [|p l IH]; intros seg Hseg; [by rewrite Hseg|].
  rewrite batches_cons, <- goes_snoc. destruct (if goes p then _ else _) as [|z zs]; [by apply IH|].
  destruct l as [|q l]; [done|]. case_bool_decide; [by apply IH|]. rewrite fmap_cons. cbn [snd].
  change (mjoin ((z :: zs) :: ?x)) with ((z :: zs) ++ mjoin x). by rewrite IH.
Qed.

Lemma batches_sent l : batches [] l = sent_batches l.
Proof.
  destruct l as [|p l]; [done|]. destruct (runs_head p l) as (g & rs & E). rewrite (batches_runs [] p l _ rs E).
  unfold sent_batches. by rewrite E.
Qed.

(** ** Linked requests *)

(** From [hd] through the requests of [l] to [tl]. *)
Fixpoint rq_seg (h : gmap nat batch_rq) (hd : option nat) (l : list nat) (tl : option nat) : Prop :=
  match l with
  | [] => hd = tl
  | p :: l => hd = Some p ∧ ∃ n, h !! p = Some (mk_brq n (hctx p)) ∧ rq_seg h n l tl
  end.

Lemma seg_app h hd l1 l2 tl : rq_seg h hd (l1 ++ l2) tl ↔ ∃ mid, rq_seg h hd l1 mid ∧ rq_seg h mid l2 tl.
Proof.
  revert hd. induction l1 as [|p l1 IH]; intros hd; cbn; [naive_solver|]. setoid_rewrite IH. naive_solver.
Qed.

Lemma seg_frame h hd l tl p r : p ∉ l → rq_seg h hd l tl → rq_seg (<[p := r]> h) hd l tl.
Proof.
  revert hd. induction l as [|q l IH]; intros hd Hp; cbn; [done|]. intros (-> & n & E & Hs). split; [done|]. exists n.
  rewrite lookup_insert_ne by (intros ->; apply Hp; by left). split; [done|]. apply IH; [|done]. intros ?. apply Hp. by right.
Qed.

Lemma seg_set_last h hd l p tl n :
  p ∉ l → rq_seg h hd (l ++ [p]) tl → rq_seg (<[p := mk_brq n (hctx p)]> h) hd (l ++ [p]) n.
Proof.
  intros Hp (mid & H1 & -> & m & E & _)%seg_app. apply seg_app. exists (Some p). split; [by apply seg_frame|].
  split; [done|]. exists n. by rewrite lookup_insert_eq.
Qed.

Lemma seg_head h hd l : rq_seg h hd l None → hd = head l.
Proof. destruct l; cbn; [done|by intros [-> _]]. Qed.

Lemma pop_all_ok n hd l s : rq_seg (bt_rqs s) hd l None → (length l ≤ n)%nat → pop_all n hd s = (Ok l, s).
Proof.
  revert n hd. induction l as [|p l IH]; intros n hd; cbn; [by intros ->; destruct n|].
  intros (-> & m & E & Hs) Hn. destruct n as [|n]; [lia|]. cbn [pop_all]. unfold get_brq, mbind, M_bind, gets. cbn. rewrite E. cbn.
  rewrite (IH n m Hs) by lia. done.
Qed.

Lemma get_brq_eq p r s : bt_rqs s !! p = Some r → get_brq p s = (Ok r, s).
Proof. intros E. unfold get_brq, mbind, M_bind, gets. cbn. by rewrite E. Qed.

Lemma set_next_eq p n s m :
  bt_rqs s !! p = Some (mk_brq m (hctx p)) → set_next p n s = (Ok tt, s <| bt_rqs ::= <[p := mk_brq n (hctx p)]> |>).
Proof. intros E. unfold set_next. by rewrite (bind_ok _ _ _ _ _ (get_brq_eq _ _ _ E)). Qed.

Lemma next_of_eq h l s : bt_rqs s = h → rq_seg h (head l) l None → next_of (head l) s = (Ok (head (tail l)), s).
Proof.
  intros <-. destruct l as [|p l]; cbn; [done|]. intros (_ & n & E & Hs). rewrite (bind_ok _ _ _ _ _ (get_brq_eq _ _ _ E)).
  by rewrite (seg_head _ _ _ Hs).
Qed.

(** ** The walk *)

Definition refused (p : nat) : bool := negb (goes p).

(** Where the walk stands: [seg] prepared and not sent, [rem] to visit,
    [failed] on the other list. *)
Record walk (rqlist requeue prev : option nat) (seg rem failed : list nat) (s : batch_state) : Prop := {
  wk_list : rq_seg (bt_rqs s) rqlist (seg ++ rem) None;
  wk_requeue : rq_seg (bt_rqs s) requeue failed None;
  wk_nodup : NoDup (seg ++ rem ++ failed);
  wk_prev : prev = last seg;
  wk_len : (length (seg ++ rem) ≤ fuel)%nat;
}.

(** [seg] belongs to the run that [rem] starts with. *)
Definition same_run (seg rem : list nat) : Prop :=
  match rem with [] => seg = [] | p :: _ => Forall (λ x, hctx x = hctx p) seg end.

(** Is [seg] complete before [rem]? *)
Definition run_ends (hp : nat) (rem : list nat) : bool :=
  match rem with [] => true | q :: _ => negb (bool_decide (hp = hctx q)) end.

Lemma end_run_ok rqlist requeue prev seg rem failed s hp :
  walk rqlist requeue (last seg) seg rem failed s → Forall (λ x, hctx x = hp) seg → (seg = [] → prev = None) →
  ∃ rqlist' s', end_run hp rqlist prev (head rem) (last seg) s
      = (Ok (rqlist', if run_ends hp rem then None else last seg), s')
    ∧ (if run_ends hp rem
       then walk rqlist' requeue None [] rem failed s'
            ∧ bt_sent s' = bt_sent s ++ match seg with [] => [] | _ => [(hp, seg)] end
       else walk rqlist' requeue (last seg) seg rem failed s' ∧ bt_sent s' = bt_sent s).
Proof.
  intros [Hl Hr Hnd _ Hlen] Hh Hp. destruct seg as [|q sg _] using rev_ind.
  - cbn. rewrite (Hp eq_refl). exists rqlist, s. rewrite app_nil_r. destruct (run_ends hp rem); (split; [done|]); by split_and!.
  - rewrite last_snoc. unfold end_run. apply Forall_app in Hh as [_ [Hq _]%Forall_cons].
    pose proof Hl as (mid & Hseg & Hrem)%seg_app. pose proof Hseg as (m' & _ & -> & m & Eq & ->)%seg_app.
    rewrite (bind_ok _ _ _ _ _ (get_brq_eq _ _ _ Eq)).
    assert (match head rem with None => mret true | Some x => d ← get_brq x; mret (negb (bool_decide (hctx q = rq_hctx d))) end s
      = (Ok (run_ends hp rem), s)) as Elast.
    { destruct rem as [|x rem]; [done|]. cbn. destruct Hrem as (_ & n & Ex & _). rewrite (bind_ok _ _ _ _ _ (get_brq_eq _ _ _ Ex)). cbn. by rewrite Hq. }
    rewrite (bind_ok _ _ _ _ _ Elast). rewrite <- app_assoc in Hnd. apply NoDup_app in Hnd as (Hn1 & Hn2 & Hn3).
    destruct (run_ends hp rem) eqn:Er.
    + apply NoDup_cons in Hn3 as [Hq3 Hn3].
      assert (q ∉ sg) as Hqs by (intros Hin; apply (Hn2 q Hin); by left).
      pose proof (seg_set_last _ _ _ _ _ None Hqs Hseg) as Hseg'.
      set (s1 := s <| bt_rqs ::= <[q := mk_brq None (hctx q)]> |>).
      assert (submit_batch hp rqlist s1 = (Ok tt, s1 <| bt_sent ::= λ x, x ++ [(hp, sg ++ [q])] |>)) as Es.
      { unfold submit_batch. rewrite (bind_ok _ _ _ _ _ (pop_all_ok fuel _ (sg ++ [q]) s1 Hseg' ltac:(rewrite !length_app in *; lia))). done. }
      rewrite (bind_ok _ _ _ _ _ (set_next_eq q None s _ Eq)), (bind_ok _ _ _ _ _ Es).
      eexists _, _. split; [reflexivity|]. split; [|cbn; by destruct sg].
      split; cbn; [|by apply seg_frame; [set_solver|]|done|done|rewrite !length_app in *; lia].
      apply seg_frame; [set_solver|]. by rewrite <- (seg_head _ _ _ Hrem).
    + exists rqlist, s. split; [done|]. split; [|done]. split; [done|done| |by rewrite last_snoc|done].
      rewrite <- app_assoc. by apply NoDup_app.
Qed.

Lemma prep_or_move rqlist requeue prev seg rem failed s p :
  walk rqlist requeue prev seg (p :: rem) failed s → bt_rqs s !! p = Some (mk_brq (head rem) (hctx p)) →
  let seg' := if goes p then seg ++ [p] else seg in
  ∃ rqlist' requeue' s',
    (if nvme_prep_rq_batch (hctx p) p then mret (rqlist, requeue, Some p)
     else '(rqlist, requeue) ← rq_list_move rqlist requeue p prev; mret (rqlist, requeue, prev)) s
      = (Ok (rqlist', requeue', last seg'), s')
    ∧ walk rqlist' requeue' (last seg') seg' rem (if goes p then failed else p :: failed) s' ∧ bt_sent s' = bt_sent s
    ∧ (seg' = [] → prev = None).
Proof.
  intros [Hl Hr Hnd Hp Hlen] Ep. unfold goes. destruct (nvme_prep_rq_batch (hctx p) p); cbn zeta.
  - exists rqlist, requeue, s. rewrite last_snoc. split_and!; [done| |done|by intros []%app_eq_nil].
    split; [by rewrite <- app_assoc|done|by rewrite <- app_assoc|by rewrite last_snoc|by rewrite <- app_assoc].
  - unfold rq_list_move. apply NoDup_app in Hnd as (Hn1 & Hn2 & [Hp1 Hn3]%NoDup_cons). rewrite not_elem_of_app in Hp1.
    assert (NoDup (seg ++ rem ++ p :: failed)) as Hnd'.
    { apply NoDup_app. split_and!; [done|set_solver|]. rewrite Permutation_app_comm. cbn. constructor; [set_solver|].
      by rewrite Permutation_app_comm. }
    destruct seg as [|q sg _] using rev_ind; rewrite ?last_snoc in *; subst prev.
    + exists (head rem), (Some p), (s <| bt_rqs ::= <[p := mk_brq requeue (hctx p)]> |>). split_and!; [| |done|done].
      * cbn [last]. unfold mbind, M_bind. rewrite (get_brq_eq _ _ _ Ep). cbn -[set_next].
        by rewrite (set_next_eq p requeue s _ Ep).
      * destruct Hl as (_ & m & Ep' & Hrem). rewrite Ep in Ep'. simplify_eq.
        split; cbn; [by apply seg_frame; [tauto|]| |done|done|cbn in Hlen; lia].
        split; [done|]. exists requeue. rewrite lookup_insert_eq. split; [done|]. by apply seg_frame; [tauto|].
    + assert (p ∉ sg ++ [q]) as Hps by (intros Hin; apply (Hn2 p Hin); by left). assert (p ≠ q) as Hpq by set_solver.
      pose proof Hl as (mid & Hseg & -> & m & Ep' & Hrem)%seg_app. rewrite Ep in Ep'. simplify_eq.
      pose proof Hseg as (m' & _ & -> & m & Eq & ->)%seg_app.
      assert (q ∉ sg) as Hqs by (apply NoDup_app in Hn1 as (_ & Hx & _); intros Hin; apply (Hx q Hin); by left).
      set (s1 := s <| bt_rqs ::= <[q := mk_brq (head rem) (hctx q)]> |>).
      assert (bt_rqs s1 !! p = Some (mk_brq (head rem) (hctx p))) as Ep1 by (cbn; by rewrite lookup_insert_ne).
      exists rqlist, (Some p), (s1 <| bt_rqs ::= <[p := mk_brq requeue (hctx p)]> |>). split_and!; [| |done|by intros []%app_eq_nil].
      * unfold mbind, M_bind. rewrite (get_brq_eq _ _ _ Ep). cbn [rq_next].
        rewrite (set_next_eq q (head rem) s _ Eq). fold s1. unfold mret, M_ret. by rewrite (set_next_eq p requeue s1 _ Ep1).
      * split; [|split; [done|]|done|by rewrite last_snoc|rewrite !length_app in *; cbn in *; lia]; cbn.
        -- apply seg_frame; [set_solver|]. apply seg_app. exists (head rem). split; [by eapply seg_set_last|].
           apply seg_frame; [set_solver|done].
        -- exists requeue. rewrite lookup_insert_eq. split; [done|]. apply seg_frame; [tauto|]. by apply seg_frame; [set_solver|].
Qed.

Lemma walk_ok n rqlist requeue prev seg rem failed s :
  walk rqlist requeue prev seg rem failed s → same_run seg rem → (length rem ≤ n)%nat →
  ∃ requeue' s', queue_rqs_loop n rqlist requeue (head rem) (head (tail rem)) prev s = (Ok requeue', s')
    ∧ rq_seg (bt_rqs s') requeue' (rev (filter refused rem) ++ failed) None
    ∧ bt_sent s' = bt_sent s ++ batches seg rem.
Proof.
  revert n rqlist requeue prev seg failed s. induction rem as [|p rem IH]; intros n rqlist requeue prev seg failed s Hw Hrun Hn.
  - destruct n; cbn; exists requeue, s; (split_and!; [done|by apply Hw|by rewrite app_nil_r]).
  - destruct n as [|n]; cbn in Hn; [lia|]. pose proof Hw as [Hl Hr Hnd Hp Hlen]. cbn in Hrun.
    pose proof Hl as (mid & Hseg & -> & m & Ep & Hrem)%seg_app. pose proof (seg_head _ _ _ Hrem) as ->.
    set (seg' := if goes p then seg ++ [p] else seg).
    (* prepared or moved *)
    assert (∃ rqlist1 requeue1 s1,
      (if nvme_prep_rq_batch (hctx p) p then mret (rqlist, requeue, Some p)
       else '(rqlist, requeue) ← rq_list_move rqlist requeue p prev; mret (rqlist, requeue, prev)) s
        = (Ok (rqlist1, requeue1, last seg'), s1)
      ∧ walk rqlist1 requeue1 (last seg') seg' rem (if goes p then failed else p :: failed) s1 ∧ bt_sent s1 = bt_sent s
      ∧ (seg' = [] → prev = None))
      as (rqlist1 & requeue1 & s1 & E1 & Hw1 & Es1 & Hp1).
    { apply (prep_or_move rqlist requeue prev seg rem failed s p Hw Ep). }
    cbn [head tail queue_rqs_loop]. rewrite (bind_ok _ _ _ _ _ (get_brq_eq _ _ _ Ep)). cbn [rq_hctx].
    rewrite (bind_ok _ _ _ _ _ E1).
    assert (Forall (λ x, hctx x = hctx p) seg') as Hh by (unfold seg'; destruct (goes p); [apply Forall_app; split; [done|by constructor]|done]).
    destruct (end_run_ok _ _ prev seg' rem _ s1 (hctx p) Hw1 Hh Hp1) as (rqlist2 & s2 & E2 & Hw2).
    rewrite (bind_ok _ _ _ _ _ E2).
    assert (rq_seg (bt_rqs s2) (head rem) rem None) as Hrem2.
    { destruct (run_ends (hctx p) rem), Hw2 as [[Hl2 _ _ _ _] _]; [cbn in Hl2; by rewrite <- (seg_head _ _ _ Hl2)|].
      apply seg_app in Hl2 as (mid & _ & Hm). by rewrite <- (seg_head _ _ _ Hm). }
    rewrite (bind_ok _ _ _ _ _ (next_of_eq _ _ _ eq_refl Hrem2)).
    assert (∀ failed', rev (filter refused (p :: rem)) ++ failed' = rev (filter refused rem) ++ if goes p then failed' else p :: failed') as Hrev.
    { intros x. destruct (goes p) eqn:Eg; [rewrite filter_cons_False by (unfold refused; rewrite Eg; cbn; tauto); done|].
      rewrite filter_cons_True by (unfold refused; by rewrite Eg). cbn [rev]. by rewrite <- app_assoc. }
    rewrite Hrev, batches_cons. fold seg'. destruct (run_ends (hctx p) rem) eqn:Er; destruct Hw2 as [Hw2 Es2].
    + destruct (IH n _ _ _ _ _ _ Hw2) as (rq' & s' & E' & Hs' & Est); [destruct rem; constructor|lia|].
      exists rq', s'. split_and!; [exact E'|exact Hs'|]. rewrite Est, Es2, Es1, <- app_assoc. f_equal.
      destruct seg' as [|z zs]; [done|]. destruct rem as [|x rem]; [done|]. cbn in Er. by destruct (bool_decide (hctx p = hctx x)).
    + destruct rem as [|x rem]; [done|]. cbn in Er. apply negb_false_iff in Er. pose proof Er as Ex%bool_decide_eq_true.
      destruct (IH n _ _ _ _ _ _ Hw2) as (rq' & s' & E' & Hs' & Est); [cbn; by rewrite <- Ex|lia|].
      exists rq', s'. split_and!; [exact E'|exact Hs'|]. rewrite Est, Es2, Es1. f_equal. rewrite Er. by destruct seg'.
Qed.

End batch.
