(* ===== verification/DeviceTheorems.v ===== *)
(** * DeviceTheorems: the PCI device's properties (baseline/6.8/pci.c)

    The memory lent to the controller and the submission of request lists. *)
From S2P Require Import Prelude.
From S2P Require Import PciData.
From S2P Require Import PciBatch.
From S2P Require Import PciHmb.
From S2P Require Import PciHmbSpec.

(** ** Request lists *)

(** The requests of [l] linked in order, each for its queue. *)
Definition rqs_of (hctx : nat → nat) (l : list nat) : gmap nat batch_rq :=
  list_to_map (imap (λ i p, (p, mk_brq (l !! S i) (hctx p))) l).

Definition batch_hctx (p : nat) : nat := if bool_decide (p = 4 ∨ p = 5)%nat then 1 else 0.
Definition batch_prep (p : nat) : blk_status := if bool_decide (p = 2 ∨ p = 6)%nat then BLK_STS_IOERR else BLK_STS_OK.
Definition batch_start : batch_state := mk_batch (rqs_of batch_hctx [1; 2; 3; 4; 5; 6]%nat) [].

(** C39: Walking a list of requests submits exactly the ones that can be
    prepared, each once, in order, to its own queue, with one doorbell write
    for every run of consecutive requests for a queue that has one; the others
    come back linked in reverse order. *)
Theorem queue_rqs_exact enabled ready prep fuel hctx s p l :
  rq_seg hctx (bt_rqs s) (Some p) (p :: l) None → NoDup (p :: l) → (length (p :: l) ≤ fuel)%nat → bt_sent s = [] →
  let goes := goes enabled ready prep hctx in
  ∃ rest s', nvme_queue_rqs enabled ready prep fuel (Some p) s = (Ok rest, s')
    ∧ rq_seg hctx (bt_rqs s') rest (rev (filter (λ x, goes x = false) (p :: l))) None
    ∧ bt_sent s' = sent_batches enabled ready prep hctx (p :: l)
    ∧ mjoin (bt_sent s').*2 = filter (λ x, goes x = true) (p :: l).
Proof.
  intros Hl Hnd Hf Hs g. unfold nvme_queue_rqs. rewrite (bind_ok (from_opt NullDeref (Some p)) _ s p s eq_refl).
  pose proof Hl as (_ & n & Ep & Hrest). rewrite (bind_ok _ _ _ _ _ (get_brq_eq _ _ _ Ep)). cbn [rq_next].
  rewrite (seg_head hctx _ _ _ Hrest).
  destruct (walk_ok enabled ready prep fuel hctx fuel (Some p) None None [] (p :: l) [] s) as (rest & s' & E & Hr & Hsent).
  { split; [exact Hl|done|by rewrite app_nil_r|done|exact Hf]. }
  { constructor. }
  { exact Hf. }
  exists rest, s'. rewrite Hs in Hsent. cbn [app] in Hsent. split_and!; [exact E| | |].
  - rewrite app_nil_r in Hr. erewrite (list_filter_iff (λ x, g x = false)); [exact Hr|]. intros x. unfold refused. fold g. by destruct (g x).
  - by rewrite Hsent, batches_sent.
  - rewrite Hsent, batches_join by done. cbn [app]. apply list_filter_iff. intros x. fold g. by destruct (g x).
Qed.

(** Witness of [queue_rqs_exact]: two queues, two requests refused. *)
Lemma queue_rqs_exact_witness :
  ∃ rest s', nvme_queue_rqs (λ _, true) (λ _, true) batch_prep 6 (Some 1%nat) batch_start = (Ok rest, s')
    ∧ rq_seg batch_hctx (bt_rqs s') rest [6; 2]%nat None
    ∧ bt_sent s' = [(0, [1; 3]); (1, [4; 5])]%nat.
Proof.
  destruct (queue_rqs_exact (λ _, true) (λ _, true) batch_prep 6 batch_hctx batch_start 1%nat [2; 3; 4; 5; 6]%nat)
    as (rest & s' & E & Hr & Hs & _).
  - repeat (split; [reflexivity|]; eexists; split; [vm_compute; reflexivity|]). reflexivity.
  - repeat constructor; set_solver.
  - cbn. lia.
  - reflexivity.
  - exists rest, s'. split_and!; [exact E|exact Hr|]. rewrite Hs. vm_compute. reflexivity.
Defined.

(** ** The host memory buffer *)

(** Entry [i] of the table the controller was given names live memory. *)
Definition entry_live (s : hmb_state) (tb : hmb_table) (a : nat) (i : nat) : Prop :=
  ∃ d p b, ht_descs tb !! i = Some d ∧ (hm_arrays s !! a ≫= (.!! i)) = Some (Some p) ∧ hm_bufs s !! p = Some b
    ∧ hd_addr d = bf_addr b ∧ hd_size d * NVME_CTRL_PAGE_SIZE ≤ bf_bytes b.

Lemma described_entry lim t a n dma l s tb i :
  described lim t a n dma l s → hm_tables s !! t = Some tb → (i < length l)%nat → entry_live s tb a i.
Proof.
  intros [(ds & Ets & _ & Hds) (ps & Eas & _ & Hps) Hb Hnd _ Hlen _ _] Et Hi.
  rewrite Ets, lookup_singleton_eq in Et. injection Et as <-.
  destruct (lookup_lt_is_Some_2 l i Hi) as [b Eb]. exists (hb_desc b), (hb_ptr b), (hb_mem b). split_and!.
  - cbn. rewrite <- (lookup_take_lt _ (length l)), Hds, list_lookup_fmap, Eb by done. done.
  - rewrite Eas, lookup_singleton_eq. cbn. rewrite <- (lookup_take_lt _ (length l)), Hps, list_lookup_fmap, Eb by done. done.
  - rewrite Hb. apply elem_of_list_to_map_1; [by rewrite <- list_fmap_compose|].
    apply list_elem_of_fmap. exists b. split; [done|]. by eapply list_elem_of_lookup_2.
  - done.
  - cbn. rewrite page_size_eq. pose proof (Z.mul_div_le (hb_bytes b) 4096). unfold hb_bytes in *. lia.
Qed.

(** C26: In every history of resets, set-ups, writes to the attribute and
    removal, with any answers of allocators and controller, no operation
    faults (no free names more bytes than were allocated) and the controller
    is never left with a table or a buffer that was freed; after removal the
    device holds no table, array or buffer.  What frees with too small a size
    leave allocated in bytes is less than a page of a buffer, nothing of any
    buffer when the preferred size is a maximal block or more, and unfilled
    entries of a table whose buffer was only partly obtained. *)
Theorem hmb_never_dangles lim s :
  lim_ok lim → hmb_reach lim s →
  (∀ env a, hmb_act_ok a s → (hmb_step lim env a s).1 = Ok tt)
  ∧ (∀ v, hm_view s = Some v → ∃ t tb a, host_mem_descs s = Some t ∧ hm_tables s !! t = Some tb ∧ ht_dma tb = hv_table v
       ∧ 0 ≤ hv_count v ≤ Z.of_nat (length (ht_descs tb)) ∧ ∀ i, Z.of_nat i < hv_count v → entry_live s tb a i)
  ∧ ∀ env, let s' := (hmb_step lim env HmbRemove s).2 in hm_tables s' = ∅ ∧ hm_arrays s' = ∅ ∧ hm_bufs s' = ∅
       ∧ ∀ e, e ∈ hm_rest s' → rest_ok lim e.
Proof.
  intros Hlim Hr. pose proof (hmb_reach_inv lim s Hlim Hr) as Hi. split_and!.
  - intros env a Ha. by destruct (hmb_step_ok lim env a s Hlim Hi Ha) as (s' & -> & _).
  - intros v Hv. destruct (hi_view lim s Hi v Hv) as (-> & [t Et] & _). destruct (hi_rep lim s Hi) as [l Hl].
    unfold hmb_rep in Hl. rewrite Et in Hl. destruct Hl as (a & n & Hd & _ & Hnr & _).
    pose proof (de_tables _ _ _ _ _ _ _ Hd) as (ds & Ets & _ & Hds).
    assert (length l ≤ length ds)%nat as Hle by (rewrite <- (length_fmap hb_desc l), <- Hds, length_take; lia).
    eexists t, _, a. split; [done|]. split; [by rewrite Ets, lookup_singleton_eq|]. cbn [current_view hv_table hv_count ht_dma ht_descs].
    rewrite Hnr. split_and!; [done|lia|lia|]. intros i Hlt. eapply (described_entry lim t a n); [exact Hd| |lia].
    by rewrite Ets, lookup_singleton_eq.
  - intros env. destruct (hi_rep lim s Hi) as [l Hl]. destruct (free_ok lim l s Hl) as (s' & E & Hr' & Hn' & _). cbn [hmb_step]. rewrite E.
    unfold hmb_rep in Hr'. rewrite Hn' in Hr'. destruct Hr' as (_ & [H1 H2 H3 H4] & _). rewrite Forall_forall in H4. by split_and!.
Qed.

Definition hmb_big : hmb_limits := mk_hlim 4096 1024 0 8 128.
Definition hmb_env_ok : hmb_env := mk_henv (λ n, Some (Z.of_nat n)) (λ _, true) (λ n, if bool_decide (n = 4)%nat then None else Some (65536 * Z.of_nat n)) (λ _, 0).
Definition hmb_state_on : hmb_state := (hmb_step hmb_big hmb_env_ok HmbSetup hmb_init).2.

Lemma hmb_on_reach : hmb_reach hmb_big hmb_state_on.
Proof. exact (hmb_next hmb_big hmb_env_ok HmbSetup hmb_init hmb_state_on (hmb_start hmb_big) eq_refl eq_refl). Qed.

(** Witness of [hmb_never_dangles]. *)
Lemma hmb_never_dangles_witness :
  hm_view hmb_state_on = Some (mk_hview 2048 0 2)
  ∧ (hmb_step hmb_big hmb_env_ok (HmbStore (Some false) 2) hmb_state_on).1 = Ok tt.
Proof.
  split; [vm_compute; reflexivity|].
  destruct (hmb_never_dangles hmb_big hmb_state_on) as (H & _).
  - unfold lim_ok. cbn. lia.
  - apply hmb_on_reach.
  - apply H. exact I.
Defined.

(** The pages the controller's table describes. *)
Definition pages_described (s : hmb_state) (v : hmb_view) : Z :=
  match host_mem_descs s ≫= (hm_tables s !!.) with
  | Some tb => foldr (λ d n, hd_size d + n) 0 (take (Z.to_nat (hv_count v)) (ht_descs tb))
  | None => 0
  end.

Lemma pages_total lim l :
  Forall (len_ok lim ∘ hb_bytes) l → page_cut lim →
  foldr (λ d n, hd_size d + n) 0 (hb_desc <$> l) * NVME_CTRL_PAGE_SIZE = total l.
Proof.
  intros Hl Hp. unfold total. induction Hl as [|b l [_ Hb] _ IH]; cbn -[Z.mul Z.add]; [done|].
  rewrite Z.mul_add_distr_r, IH. f_equal. destruct (Hb Hp) as [k Ek]. cbn in Ek |- *. rewrite Ek, Z.div_mul; done.
Qed.

(** The buffer the controller uses holds at least what the controller
    needs and at most what it prefers and the module allows, in at most as
    many pieces as the controller accepts; for a preferred size of one maximal
    block or more the size announced is exactly what the table describes and
    no free leaves a byte of a buffer behind. *)
Theorem hmb_within_limits lim s v :
  lim_ok lim → hmb_reach lim s → hm_view s = Some v →
  hmb_min lim ≤ host_mem_size s ≤ Z.min (hmpre lim * 4096) (max_host_mem_size_mb lim * SZ_1M)
  ∧ (hmmaxd lim ≠ 0 → hv_count v ≤ hmmaxd lim)
  ∧ (page_cut lim → hv_pages v = pages_described s v ∧ pages_described s v * NVME_CTRL_PAGE_SIZE = host_mem_size s
       ∧ ∀ n, RestBuf n ∉ hm_rest s).
Proof.
  intros Hlim Hr Hv. pose proof (hmb_reach_inv lim s Hlim Hr) as Hi.
  destruct (hi_view lim s Hi v Hv) as (-> & [t Et] & Hmin). destruct (hi_rep lim s Hi) as [l Hl].
  unfold hmb_rep in Hl. rewrite Et in Hl. destruct Hl as (a & n & Hd & _ & Hnr & Hsz & Hle).
  pose proof (de_tables _ _ _ _ _ _ _ Hd) as (ds & Ets & Hdl & Hds). pose proof (de_len _ _ _ _ _ _ _ Hd) as Hlen.
  assert (length l ≤ length ds)%nat as Hll by (rewrite <- (length_fmap hb_desc l), <- Hds, length_take; lia).
  split_and!; [done|rewrite Hsz; exact Hle| |].
  - intros Hm. cbn. pose proof (de_count _ _ _ _ _ _ _ Hd Hm). lia.
  - intros Hp. assert (pages_described s (current_view s) = foldr (λ d n, hd_size d + n) 0 (hb_desc <$> l)) as Epd.
    { unfold pages_described. rewrite Et. cbn. rewrite Ets, lookup_singleton_eq. cbn. rewrite Hnr, Nat2Z.id. by rewrite Hds. }
    pose proof (pages_total lim l Hlen Hp) as Ht. rewrite Epd, Ht, Hsz. split_and!; [|done|].
    + cbn. rewrite Hsz, <- Ht, Z.shiftr_div_pow2, page_size_eq by lia. change (2 ^ 12) with 4096. rewrite Z.div_mul by done.
      apply wrap_small. destruct (total_pos lim l Hlen) as [Hpos _]. rewrite page_size_eq in Ht.
      unfold hmb_preferred, SZ_1M in Hle. destruct Hlim as (? & _). lia.
    + intros k Hin. pose proof (de_log _ _ _ _ _ _ _ Hd) as Hlog. rewrite Forall_forall in Hlog. by apply (Hlog _ Hin).
Qed.

(** Witness of [hmb_within_limits]: 16 MiB preferred, 8 MiB obtained. *)
Lemma hmb_within_limits_witness : hv_pages (mk_hview 2048 0 2) = pages_described hmb_state_on (mk_hview 2048 0 2).
Proof.
  destruct (hmb_within_limits hmb_big hmb_state_on (mk_hview 2048 0 2)) as (_ & _ & H).
  - unfold lim_ok. cbn. lia.
  - apply hmb_on_reach.
  - vm_compute. reflexivity.
  - assert (page_cut hmb_big) as Hc by (by vm_compute). exact (proj1 (H Hc)).
Defined.

Definition hmb_small : hmb_limits := mk_hlim 5 0 0 0 128.
Definition hmb_env_small : hmb_env :=
  mk_henv (λ n, Some (Z.of_nat n)) (λ _, true) (λ n, if bool_decide (n = 2)%nat then None else Some (65536 * Z.of_nat n)) (λ _, 0).
Definition hmb_removed (lim : hmb_limits) (env : hmb_env) : hmb_state :=
  (hmb_step lim env HmbRemove (hmb_step lim env HmbReset (hmb_step lim env HmbSetup hmb_init).2).2).2.

(** Sizes are lost on the way.  A small buffer cut into halves that are no
    page multiples is announced as larger than its table says and freed with
    fewer bytes than were allocated; a buffer that was only partly obtained is
    freed with a smaller table than was allocated. *)
Theorem hmb_sizes_disagree :
  (∃ v, hm_view (hmb_step hmb_small hmb_env_small HmbSetup hmb_init).2 = Some v
     ∧ hv_pages v = 5 ∧ pages_described (hmb_step hmb_small hmb_env_small HmbSetup hmb_init).2 v = 4)
  ∧ RestBuf 2048 ∈ hm_rest (hmb_removed hmb_small hmb_env_small)
  ∧ RestTable 32 ∈ hm_rest (hmb_removed hmb_big hmb_env_ok).
Proof.
  split_and!.
  - eexists. split; [vm_compute; reflexivity|]. split; vm_compute; reflexivity.
  - apply list_elem_of_In. vm_compute. tauto.
  - apply list_elem_of_In. vm_compute. tauto.
Qed.
