(* ===== verification/PciLife.v ===== *)
(** * PciLife: a controller bound, reset and removed (baseline/6.8/pci.c)

    nvme_probe, nvme_reset_work and nvme_remove with everything they take and
    give back: PCI resources, pools, tag sets, doorbell buffers, the admin
    queue, the host memory buffer, the I/O queues and the controller's state.
    The queue operations are those of [PciSetup], the host memory buffer that
    of [PciHmb], the state machine that of [CoreCtrl]; a state change other
    threads ask for may come before each of the driver's own.  Answers of the
    PCI core, the allocators and the controller are indexed by a counter. *)
From S2P Require Import Prelude.
From S2P Require Import Uapi.
From S2P Require Import Kernel.
From S2P Require Import PciData.
From S2P Require Import PciSetup.
From S2P Require Import PciHmb.
From S2P Require Import CoreCtrl.

Definition NVME_AQ_DEPTH : Z := 32.
Definition CSTS_GONE : Z := 2 ^ 32 - 1.

(** What a bound device holds. *)
Inductive resource : Set :=
  | RDev | RQueues | RDevice | RCtrl        (* nvme_dev, its queue array, the struct device, the controller *)
  | RRegions | RPrpPage | RPrpSmall | RIod  (* memory regions, DMA pools, mempool *)
  | RPci                                    (* pci_enable_device_mem *)
  | RAdminTags | RIoTags                    (* tag sets *)
  | RDbs | REis                             (* shadow doorbells, event indices *)
  | RDrvdata.

#[export] Instance resource_eq_dec : EqDecision resource.
Proof. solve_decision. Defined.

Definition resource_code (r : resource) : nat :=
  match r with
  | RDev => 0 | RQueues => 1 | RDevice => 2 | RCtrl => 3 | RRegions => 4 | RPrpPage => 5 | RPrpSmall => 6
  | RIod => 7 | RPci => 8 | RAdminTags => 9 | RIoTags => 10 | RDbs => 11 | REis => 12 | RDrvdata => 13
  end.
Definition resource_of (n : nat) : resource :=
  match n with
  | 0 => RDev | 1 => RQueues | 2 => RDevice | 3 => RCtrl | 4 => RRegions | 5 => RPrpPage | 6 => RPrpSmall
  | 7 => RIod | 8 => RPci | 9 => RAdminTags | 10 => RIoTags | 11 => RDbs | 12 => REis | _ => RDrvdata
  end%nat.

#[export] Instance resource_countable : Countable resource.
Proof. refine (inj_countable' resource_code resource_of _). by intros []. Defined.

(** ctrl.admin_q: not made, alive, or dying after snvme_remove_admin_tag_set. *)
Inductive admin_queue : Set := NoAdmin | AdminLive | AdminDying.

#[export] Instance admin_queue_eq_dec : EqDecision admin_queue.
Proof. solve_decision. Defined.

(** [lf_cc_enable], [lf_cc_shn]: the bits of ctrl_config; [lf_io_stopped],
    [lf_admin_stopped], [lf_frozen]: NVME_CTRL_STOPPED,
    NVME_CTRL_ADMIN_Q_STOPPED and NVME_CTRL_FROZEN. *)
Record life : Type := mk_life {
  lf_io : iostate;
  lf_ctrl : nvme_ctrl;
  lf_hmb : hmb_state;
  lf_held : gset resource;
  lf_admin : admin_queue;
  lf_cc_enable : bool;
  lf_cc_shn : bool;
  lf_io_stopped : bool;
  lf_admin_stopped : bool;
  lf_frozen : bool;
  lf_clock : nat;
}.

#[export] Instance set_lf_io : Setter lf_io := λ f r,
  mk_life (f (lf_io r)) (lf_ctrl r) (lf_hmb r) (lf_held r) (lf_admin r) (lf_cc_enable r)
    (lf_cc_shn r) (lf_io_stopped r) (lf_admin_stopped r) (lf_frozen r) (lf_clock r).
#[export] Instance set_lf_ctrl : Setter lf_ctrl := λ f r,
  mk_life (lf_io r) (f (lf_ctrl r)) (lf_hmb r) (lf_held r) (lf_admin r) (lf_cc_enable r)
    (lf_cc_shn r) (lf_io_stopped r) (lf_admin_stopped r) (lf_frozen r) (lf_clock r).
#[export] Instance set_lf_hmb : Setter lf_hmb := λ f r,
  mk_life (lf_io r) (lf_ctrl r) (f (lf_hmb r)) (lf_held r) (lf_admin r) (lf_cc_enable r)
    (lf_cc_shn r) (lf_io_stopped r) (lf_admin_stopped r) (lf_frozen r) (lf_clock r).
#[export] Instance set_lf_held : Setter lf_held := λ f r,
  mk_life (lf_io r) (lf_ctrl r) (lf_hmb r) (f (lf_held r)) (lf_admin r) (lf_cc_enable r)
    (lf_cc_shn r) (lf_io_stopped r) (lf_admin_stopped r) (lf_frozen r) (lf_clock r).
#[export] Instance set_lf_admin : Setter lf_admin := λ f r,
  mk_life (lf_io r) (lf_ctrl r) (lf_hmb r) (lf_held r) (f (lf_admin r)) (lf_cc_enable r)
    (lf_cc_shn r) (lf_io_stopped r) (lf_admin_stopped r) (lf_frozen r) (lf_clock r).
#[export] Instance set_lf_cc_enable : Setter lf_cc_enable := λ f r,
  mk_life (lf_io r) (lf_ctrl r) (lf_hmb r) (lf_held r) (lf_admin r) (f (lf_cc_enable r))
    (lf_cc_shn r) (lf_io_stopped r) (lf_admin_stopped r) (lf_frozen r) (lf_clock r).
#[export] Instance set_lf_cc_shn : Setter lf_cc_shn := λ f r,
  mk_life (lf_io r) (lf_ctrl r) (lf_hmb r) (lf_held r) (lf_admin r) (lf_cc_enable r)
    (f (lf_cc_shn r)) (lf_io_stopped r) (lf_admin_stopped r) (lf_frozen r) (lf_clock r).
#[export] Instance set_lf_io_stopped : Setter lf_io_stopped := λ f r,
  mk_life (lf_io r) (lf_ctrl r) (lf_hmb r) (lf_held r) (lf_admin r) (lf_cc_enable r)
    (lf_cc_shn r) (f (lf_io_stopped r)) (lf_admin_stopped r) (lf_frozen r) (lf_clock r).
#[export] Instance set_lf_admin_stopped : Setter lf_admin_stopped := λ f r,
  mk_life (lf_io r) (lf_ctrl r) (lf_hmb r) (lf_held r) (lf_admin r) (lf_cc_enable r)
    (lf_cc_shn r) (lf_io_stopped r) (f (lf_admin_stopped r)) (lf_frozen r) (lf_clock r).
#[export] Instance set_lf_frozen : Setter lf_frozen := λ f r,
  mk_life (lf_io r) (lf_ctrl r) (lf_hmb r) (lf_held r) (lf_admin r) (lf_cc_enable r)
    (lf_cc_shn r) (lf_io_stopped r) (lf_admin_stopped r) (f (lf_frozen r)) (lf_clock r).
#[export] Instance set_lf_clock : Setter lf_clock := λ f r,
  mk_life (lf_io r) (lf_ctrl r) (lf_hmb r) (lf_held r) (lf_admin r) (lf_cc_enable r)
    (lf_cc_shn r) (lf_io_stopped r) (lf_admin_stopped r) (lf_frozen r) (f (lf_clock r)).

#[export] Instance set_nc_tagset : Setter nc_tagset := λ f r,
  mk_nctrl (nc_state r) (nc_opts r) (f (nc_tagset r)) (nc_failfast_expired r)
    (nc_failfast_queued r) (nc_reset_queued r) (nc_delete_queued r) (nc_refs r) (nc_log r).

Record life_env : Type := mk_lenv {
  le_io : io_env;
  le_hmb : hmb_env;
  le_mem : nat → bool;               (* an allocation succeeds *)
  le_regions : nat → bool;           (* pci_request_mem_regions *)
  le_ioremap : nat → bool;           (* the first mapping; [le_io] has those that extend it *)
  le_enable_dev : nat → bool;        (* pci_enable_device_mem *)
  le_csts : nat → Z;
  le_vectors : nat → Z;              (* pci_alloc_irq_vectors(1, 1) *)
  le_cap : nat → Z * Z;              (* CAP.MQES + 1, CAP.DSTRD *)
  le_cmbsz : nat → Z;                (* CMBSZ *)
  le_cmbloc : nat → Z;               (* CMBLOC *)
  le_bar_size : Z → Z;               (* pci_resource_len *)
  le_p2pdma : nat → bool;            (* pci_p2pdma_add_resource *)
  le_init_ctrl : nat → Z;
  le_disable : nat → Z;              (* snvme_disable_ctrl *)
  le_enable : nat → Z * bool;        (* snvme_enable_ctrl; CC.EN was written *)
  le_admin_tags : nat → Z;
  le_io_tags : nat → Z;
  le_init_finish : nat → Z;
  le_dbbuf_supp : nat → bool;
  le_dbbuf_set : nat → Z;
  le_gone : nat → bool;              (* absent from the bus or in error *)
  le_present : nat → bool;           (* pci_device_is_present *)
  le_others : nat → list nvme_ctrl_state;   (* state changes asked for by others *)
}.

(** What does not change while a device is bound. *)
Record life_cfg : Type := mk_lcfg {
  lc_setup : option snvm_queue_setup;    (* ctrl->setup of the registered controller *)
  lc_write_queues : Z;
  lc_poll_queues : Z;
  lc_cpus : Z;                           (* num_possible_cpus *)
  lc_shared_tags : bool;
  lc_single_vector : bool;
  lc_use_cmb_sqes : bool;
  lc_io_queue_depth : Z;
  lc_apple_2001 : bool;                  (* the two controllers with a fixed depth *)
  lc_samsung_pm1725 : bool;
  lc_dma_opt : Z;                        (* dma_opt_mapping_size *)
  lc_hmb : hmb_limits;
}.

Abbreviation LM := (M life).

Definition in_io {A} (m : M iostate A) : LM A := λ s, let '(r, x) := m (lf_io s) in (r, s <| lf_io := x |>).
Definition in_ctrl {A} (m : CM A) : LM A := λ s, let '(r, x) := m (lf_ctrl s) in (r, s <| lf_ctrl := x |>).
Definition in_hmb {A} (m : M hmb_state A) : LM A := λ s, let '(r, x) := m (lf_hmb s) in (r, s <| lf_hmb := x |>).

Definition lask {A} (f : nat → A) : LM A :=
  s ← gets id;
  modify (λ s, s <| lf_clock ::= S |>);;
  mret (f (lf_clock s)).

(** Taking what is already held would lose the first. *)
Definition acquire (r : resource) : LM unit :=
  s ← gets id;
  if bool_decide (r ∈ lf_held s) then crash TakenTwice else modify (λ s, s <| lf_held ::= ({[r]} ∪.) |>).
Definition release (r : resource) : LM unit :=
  s ← gets id;
  if bool_decide (r ∈ lf_held s) then modify (λ s, s <| lf_held ::= (.∖ {[r]}) |>) else crash UseAfterFree.
(** A register read through dev->bar. *)
Definition reg_read {A} (f : nat → A) : LM A :=
  s ← gets id;
  if bar_mapped (the_dev (lf_io s)) then lask f else crash NullDeref.

Definition holds (r : resource) : LM bool := s ← gets id; mret (bool_decide (r ∈ lf_held s)).
Definition release_held (r : resource) : LM unit := b ← holds r; when b (release r).

Section life.
Context (cfg : life_cfg) (env : life_env).

(** ** State and queues of the controller *)

(** Other threads change the state before this one does. *)
Definition change_state (new_state : nvme_ctrl_state) : LM bool :=
  others ← lask (le_others env);
  in_ctrl (for_each (λ st, snvme_change_ctrl_state st;; mret tt) others);;
  in_ctrl (snvme_change_ctrl_state new_state).

Definition quiesce_io : LM unit :=
  s ← gets id; when (nc_tagset (lf_ctrl s)) (modify (λ s, s <| lf_io_stopped := true |>)).
Definition unquiesce_io : LM unit :=
  s ← gets id; when (nc_tagset (lf_ctrl s)) (modify (λ s, s <| lf_io_stopped := false |>)).
Definition quiesce_admin : LM unit := modify (λ s, s <| lf_admin_stopped := true |>).
Definition unquiesce_admin : LM unit := modify (λ s, s <| lf_admin_stopped := false |>).

(** A controller that is disabled, or cut off the bus, no longer uses the
    host memory buffer. *)
Definition forget_buffer : LM unit := in_hmb (modify (λ h, h <| hm_view := None |>)).

Definition disable_ctrl (shutdown : bool) : LM Z :=
  modify (λ s, if shutdown then s <| lf_cc_shn := true |>
               else s <| lf_cc_shn := false |> <| lf_cc_enable := false |>);;
  forget_buffer;;
  reg_read (le_disable env).

Definition enable_ctrl : LM Z :=
  '(ret, written) ← reg_read (le_enable env);
  modify (λ s, s <| lf_cc_shn := false |> <| lf_cc_enable := bool_decide (ret = 0) || written |>);;
  mret ret.

(** ** Taking and giving back *)

(** [le_io] with the answers for the first mapping of the registers. *)
Definition first_map : io_env :=
  let e := le_io env in
  mk_ioenv (ie_set_features e) (ie_trylock e) (ie_connecting e) (ie_bar_len e) (le_ioremap env) (ie_irq_vectors e)
    (ie_request_irq e) (ie_cq_mem e) (ie_p2pmem e) (ie_sq_mem e) (ie_create_cq e) (ie_create_sq e) (ie_delete_req e)
    (ie_delete_done e).

Definition nvme_dev_map : LM Z :=
  ok ← lask (le_regions env);
  if negb ok then mret (- ENODEV)
  else
    acquire RRegions;;
    rc ← in_io (nvme_remap_bar first_map (NVME_REG_DBS + 4096 * 3));
    if bool_decide (rc = 0) then mret 0
    else release RRegions;; mret (- ENODEV).

Definition nvme_dev_unmap : LM unit :=
  in_io (upd_dev (λ d, d <| bar_mapped := false |>));;
  release RRegions.

Definition nvme_setup_prp_pools : LM Z :=
  ok ← lask (le_mem env);
  if negb ok then mret (- ENOMEM)
  else
    acquire RPrpPage;;
    ok ← lask (le_mem env);
    if negb ok then release RPrpPage;; mret (- ENOMEM)
    else acquire RPrpSmall;; mret 0.

Definition nvme_release_prp_pools : LM unit := release RPrpPage;; release RPrpSmall.

Definition nvme_pci_alloc_iod_mempool : LM Z :=
  ok ← lask (le_mem env);
  if negb ok then mret (- ENOMEM) else acquire RIod;; mret 0.

Definition nvme_dbbuf_dma_free : LM unit := release_held RDbs;; release_held REis.

Definition nvme_dbbuf_dma_alloc : LM unit :=
  supp ← lask (le_dbbuf_supp env);
  have ← holds RDbs;
  if negb supp then mret tt
  else if (have : bool) then mret tt
  else
    ok ← lask (le_mem env);
    if negb ok then mret tt
    else
      acquire RDbs;;
      ok ← lask (le_mem env);
      if negb ok then release RDbs else acquire REis.

(** The memory of the Doorbell Buffer Config command; its effect on the
    queues is in [PciQueue]. *)
Definition dbbuf_set : LM unit :=
  have ← holds RDbs;
  when have (rc ← lask (le_dbbuf_set env); when (negb (bool_decide (rc = 0))) nvme_dbbuf_dma_free).

Definition nvme_free_tagset : LM unit :=
  release_held RIoTags;;
  in_ctrl (modify (λ c, c <| nc_tagset := false |>)).

Definition nvme_pci_free_ctrl : LM unit :=
  nvme_free_tagset;;
  release RDevice;;
  release RQueues;;
  release RDev.

(** nvme_put_ctrl: the last reference frees the controller. *)
Definition put_ctrl : LM unit :=
  in_ctrl (modify (λ c, c <| nc_refs ::= λ n, n - 1 |>));;
  s ← gets id;
  when (bool_decide (nc_refs (lf_ctrl s) = 0)) (release RCtrl;; nvme_pci_free_ctrl).

(** snvme_uninit_ctrl drops the character device's reference. *)
Definition uninit_ctrl : LM unit := put_ctrl.

Definition nvme_free_queue (i : nat) : M iostate unit :=
  q ← get_ioq (Z.of_nat i);
  if ioq_allocated q then upd_ioq (Z.of_nat i) (λ q, q <| ioq_allocated := false |> <| ioq_sq_cmb := false |>)
  else crash UseAfterFree.

Definition nvme_free_queues (lowest : Z) : M iostate unit :=
  s ← gets id;
  let n := queue_count (the_dev s) in
  for_each (λ i, upd_dev (λ d, d <| queue_count ::= λ n, n - 1 |>);; nvme_free_queue i)
    (rev (seq (Z.to_nat lowest) (Z.to_nat n - Z.to_nat lowest))).

Definition nvme_dev_remove_admin : LM unit :=
  s ← gets id;
  match lf_admin s with
  | AdminLive =>
      unquiesce_admin;;
      release RAdminTags;;
      modify (λ s, s <| lf_admin := AdminDying |>)
  | _ => mret tt
  end.

(** ** Enabling and disabling *)

(** The end of nvme_pci_configure_admin_queue: the queue is initialised,
    counted, and enabled once it has its interrupt. *)
Definition admin_online : M iostate Z :=
  upd_ioq 0 (λ q, q <| ioq_vector := 0 |>);;
  upd_nd (λ nd, nd <| online_queues ::= Z.add 1 |>);;
  rc ← queue_request_irq (le_io env) 0;
  if negb (bool_decide (rc = 0)) then
    upd_nd (λ nd, nd <| online_queues ::= λ n, n - 1 |>);; mret rc
  else upd_ioq 0 (λ q, q <| ioq_enabled := true |>);; mret rc.

Definition nvme_pci_configure_admin_queue : LM Z :=
  s ← gets id;
  rc ← in_io (nvme_remap_bar (le_io env) (db_bar_size (db_stride (io_ndev (the_dev (lf_io s)))) 0));
  if bool_decide (rc < 0) then mret rc
  else
    rc ← disable_ctrl false;
    if bool_decide (rc < 0) then mret rc
    else
      rc ← in_io (nvme_alloc_queue (le_io env) 0 NVME_AQ_DEPTH);
      if negb (bool_decide (rc = 0)) then mret rc
      else
        rc ← enable_ctrl;
        if negb (bool_decide (rc = 0)) then mret rc
        else
          in_io admin_online.

Definition nvme_cmb_size_unit (cmbsz : Z) : Z := Z.shiftl 1 (12 + 4 * Z.land (Z.shiftr cmbsz 8) 15).
Definition nvme_cmb_size (cmbsz : Z) : Z := Z.land (Z.shiftr cmbsz 12) (2 ^ 20 - 1).

(** The part of the BAR the controller memory buffer covers. *)
Definition nvme_map_cmb : LM unit :=
  s ← gets id;
  if negb (bool_decide (cmb_size (the_dev (lf_io s)) = 0)) then mret tt
  else
    cmbsz ← reg_read (le_cmbsz env);
    in_io (upd_dev (λ d, d <| cmbsz_sqs := Z.testbit cmbsz 0 |>));;
    if bool_decide (cmbsz = 0) then mret tt
    else
      cmbloc ← reg_read (le_cmbloc env);
      let size := wrap 64 (nvme_cmb_size_unit cmbsz * nvme_cmb_size cmbsz) in
      let offset := wrap 64 (nvme_cmb_size_unit cmbsz * Z.land (Z.shiftr cmbloc 12) (2 ^ 20 - 1)) in
      let bar_size := le_bar_size env (Z.land cmbloc 7) in
      if bool_decide (bar_size < offset) then mret tt
      else
        let size := if bool_decide (bar_size - offset < size) then bar_size - offset else size in
        ok ← lask (le_p2pdma env);
        if negb ok then mret tt
        else in_io (upd_dev (λ d, d <| cmb_size := size |> <| cmb_use_sqes := lc_use_cmb_sqes cfg && Z.testbit cmbsz 0 |>)).

Definition nvme_pci_enable : LM Z :=
  ok ← lask (le_enable_dev env);
  if negb ok then mret (- ENOMEM)
  else
    acquire RPci;;
    csts ← reg_read (le_csts env);
    if bool_decide (csts = CSTS_GONE) then release RPci;; mret (- ENODEV)
    else
      rc ← lask (le_vectors env);
      if bool_decide (rc < 0) then release RPci;; mret rc
      else
        in_io (upd_dev (λ d, d <| irq_vectors := true |>));;
        '(mqes, dstrd) ← reg_read (le_cap env);
        let depth := Z.min mqes (lc_io_queue_depth cfg) in
        let depth := if lc_apple_2001 cfg then 2
                     else if lc_samsung_pm1725 cfg && bool_decide (mqes = 1) then 64 else depth in
        let depth := if lc_shared_tags cfg && bool_decide (depth < NVME_AQ_DEPTH + 2) then NVME_AQ_DEPTH + 2 else depth in
        in_io (upd_nd (λ nd, nd <| q_depth := depth |> <| db_stride := Z.shiftl 1 dstrd |>));;
        in_io (upd_dev (λ d, d <| sqsize := u16 (depth - 1) |>));;
        nvme_map_cmb;;
        rc ← nvme_pci_configure_admin_queue;
        if negb (bool_decide (rc = 0)) then
          in_io (upd_dev (λ d, d <| irq_vectors := false |>));;
          release RPci;;
          mret rc
        else mret rc.

Definition nvme_pci_ctrl_is_dead : LM bool :=
  enabled ← holds RPci;
  if negb enabled then mret true
  else
    gone ← lask (le_gone env);
    if (gone : bool) then mret true
    else
      csts ← reg_read (le_csts env);
      mret (Z.testbit csts 1 || negb (Z.testbit csts 0)).

Definition nvme_dev_disable (shutdown : bool) : LM unit :=
  s ← gets id;
  let state := nc_state (lf_ctrl s) in
  dead ← nvme_pci_ctrl_is_dead;
  enabled ← holds RPci;
  when ((bool_decide (state = NVME_CTRL_LIVE) || bool_decide (state = NVME_CTRL_RESETTING)) && enabled)
    (modify (λ s, s <| lf_frozen := true |>));;
  quiesce_io;;
  s ← gets id;
  when (negb dead && bool_decide (0 < queue_count (the_dev (lf_io s))))
    (in_io (nvme_delete_io_queues (le_io env));; disable_ctrl shutdown;; mret tt);;
  in_io nvme_suspend_io_queues;;
  q ← in_io (get_ioq 0);
  in_io (nvme_suspend_queue 0);;
  s ← gets id;
  when (ioq_enabled q && negb (bool_decide (lf_admin s = NoAdmin))) quiesce_admin;;
  in_io (upd_dev (λ d, d <| irq_vectors := false |>));;
  release_held RPci;;
  forget_buffer;;
  when shutdown
    (unquiesce_io;;
     s ← gets id;
     when (bool_decide (lf_admin s = AdminLive)) unquiesce_admin).

(** ** Binding *)

(** The queue counts of nvme_pci_alloc_dev: module parameters, overridden by
    what user space asked for on the registered controller. *)
Definition dev_budget : Z * Z * Z :=
  match lc_setup cfg with
  | Some st =>
      if negb (bool_decide (setup_valid st = 0)) then
        (if negb (bool_decide (setup_nr_write st = 0)) then setup_nr_write st else lc_write_queues cfg,
         if negb (bool_decide (setup_nr_poll st = 0)) then setup_nr_poll st else lc_poll_queues cfg,
         setup_cap_kernel_ioq st)
      else (lc_write_queues cfg, lc_poll_queues cfg, 0)
  | None => (lc_write_queues cfg, lc_poll_queues cfg, 0)
  end.

Definition fresh_dev : io_dev :=
  let '(w, p, cap) := dev_budget in
  let nd := mk_ndev 0 0 0 0 w p 0 cap 0 0 false 0 0 in
  let n := nvme_max_io_queues (lc_shared_tags cfg) (lc_cpus cfg) nd + 1 in
  mk_iodev (nd <| nr_allocated_queues := n |> <| max_hw_sectors := Z.min (NVME_MAX_KB_SZ * 2) (lc_dma_opt cfg / 512) |>) (replicate (Z.to_nat n) fresh_ioq) 0 0 0 0 0 0 0 0 false false false 0
    (lc_shared_tags cfg) (lc_single_vector cfg) false false.

(** The result is an errno, 0 when the device was made. *)
Definition nvme_pci_alloc_dev : LM Z :=
  ok ← lask (le_mem env);
  if negb ok then mret (- ENOMEM)
  else
    acquire RDev;;
    ok ← lask (le_mem env);
    if negb ok then release RDev;; mret (- ENOMEM)
    else
      acquire RQueues;;
      in_io (modify (λ s, s <| the_dev := fresh_dev |> <| io_log := [] |>));;
      in_hmb (modify (λ _, hmb_init));;
      acquire RDevice;;
      rc ← lask (le_init_ctrl env);
      if negb (bool_decide (rc = 0)) then release RDevice;; release RQueues;; release RDev;; mret rc
      else
        acquire RCtrl;;
        in_ctrl (modify (λ c, mk_nctrl NVME_CTRL_NEW None false false false false false 2 []));;
        modify (λ s, s <| lf_admin := NoAdmin |> <| lf_cc_enable := false |> <| lf_cc_shn := false |> <| lf_io_stopped := false |>
                       <| lf_admin_stopped := false |> <| lf_frozen := false |>);;
        mret 0.

(** From CONNECTING to the I/O queues, the part probe and reset share. *)
Definition connect : LM Z :=
  ok ← change_state NVME_CTRL_CONNECTING;
  if negb ok then mret (- EBUSY)
  else
    rc ← lask (le_init_finish env);
    if negb (bool_decide (rc = 0)) then mret rc
    else
      nvme_dbbuf_dma_alloc;;
      rc ← in_hmb (nvme_setup_host_mem (lc_hmb cfg) (le_hmb env));
      if bool_decide (rc < 0) then mret rc
      else
        in_io (modify (λ s, s <| io_log := [] |>));;
        in_io (s_nvme_setup_io_queues (le_io env) (lc_write_queues cfg) (lc_poll_queues cfg)).

(** The end of snvme_start_ctrl that concerns the queues. *)
Definition start_ctrl : LM unit :=
  s ← gets id;
  when (bool_decide (1 < queue_count (the_dev (lf_io s)))) (in_ctrl nvme_queue_scan;; unquiesce_io).

(** [out_disable] and the labels below it. *)
Definition undo_map : LM unit := nvme_dev_unmap;; uninit_ctrl;; put_ctrl.
Definition undo_pools : LM unit := nvme_release_prp_pools;; undo_map.
Definition undo_iod : LM unit := release RIod;; undo_pools.
Definition undo_enable : LM unit :=
  change_state NVME_CTRL_DELETING;;
  nvme_dev_disable true;;
  in_hmb nvme_free_host_mem;;
  nvme_dev_remove_admin;;
  nvme_dbbuf_dma_free;;
  in_io (nvme_free_queues 0);;
  undo_iod.

(** After nvme_pci_enable: tag sets, the connection and the switch to live. *)
Definition probe_bring_up : LM Z :=
  rc ← lask (le_admin_tags env);
  if negb (bool_decide (rc = 0)) then mret rc
  else
    acquire RAdminTags;;
    modify (λ s, s <| lf_admin := AdminLive |>);;
    rc ← connect;
    if negb (bool_decide (rc = 0)) then mret rc
    else
      s ← gets id;
      when (bool_decide (1 < online_queues (io_ndev (the_dev (lf_io s)))))
        (rc ← lask (le_io_tags env);
         when (bool_decide (rc = 0)) (acquire RIoTags;; in_ctrl (modify (λ c, c <| nc_tagset := true |>)));;
         dbbuf_set);;
      ok ← change_state NVME_CTRL_LIVE;
      mret (if (ok : bool) then 0 else - ENODEV).

(** [registered]: ctrl_find_by_pci_dev found a controller. *)
Definition nvme_probe (registered : bool) : LM Z :=
  if negb registered then mret (- ENODEV)
  else
    rc ← nvme_pci_alloc_dev;
    if negb (bool_decide (rc = 0)) then mret rc
    else
      rc ← nvme_dev_map;
      if negb (bool_decide (rc = 0)) then uninit_ctrl;; put_ctrl;; mret rc
      else
        rc ← nvme_setup_prp_pools;
        if negb (bool_decide (rc = 0)) then undo_map;; mret rc
        else
          rc ← nvme_pci_alloc_iod_mempool;
          if negb (bool_decide (rc = 0)) then undo_pools;; mret rc
          else
            rc ← nvme_pci_enable;
            if negb (bool_decide (rc = 0)) then undo_iod;; mret rc
            else
              rc ← probe_bring_up;
              if negb (bool_decide (rc = 0)) then undo_enable;; mret rc
              else
                acquire RDrvdata;;
                start_ctrl;;
                put_ctrl;;
                mret 0.

(** ** Reset and removal *)

(** What snvme_remove_namespaces does besides the namespaces. *)
Definition remove_namespaces : LM unit := unquiesce_io;; change_state NVME_CTRL_DELETING_NOIO;; mret tt.

(** blk-mq is told the number, and the queues beyond it are freed. *)
Definition nvme_pci_update_nr_queues : LM unit :=
  s ← gets id; in_io (nvme_free_queues (online_queues (io_ndev (the_dev (lf_io s))))).

Definition reset_bring_up : LM Z :=
  rc ← nvme_pci_enable;
  if negb (bool_decide (rc = 0)) then mret rc
  else
    unquiesce_admin;;
    rc ← connect;
    if negb (bool_decide (rc = 0)) then mret rc
    else
      s ← gets id;
      let online := online_queues (io_ndev (the_dev (lf_io s))) in
      (if bool_decide (1 < online) then
         dbbuf_set;;
         unquiesce_io;;
         nvme_pci_update_nr_queues;;
         modify (λ s, s <| lf_frozen := false |>)
       else
         unquiesce_io;;
         remove_namespaces;;
         nvme_free_tagset);;
      ok ← change_state NVME_CTRL_LIVE;
      mret (if (ok : bool) then 0 else - ENODEV).

Definition reset_failed : LM unit :=
  change_state NVME_CTRL_DELETING;;
  nvme_dev_disable true;;
  unquiesce_io;;
  change_state NVME_CTRL_DEAD;;
  mret tt.

Definition nvme_reset_work : LM unit :=
  s ← gets id;
  if negb (bool_decide (nc_state (lf_ctrl s) = NVME_CTRL_RESETTING)) then reset_failed
  else
    when (lf_cc_enable s) (nvme_dev_disable false);;
    rc ← reset_bring_up;
    if negb (bool_decide (rc = 0)) then reset_failed else start_ctrl.

(** nvme_reset_prepare and nvme_shutdown; [None] while another reset keeps
    this one waiting. *)
Definition nvme_disable_prepare_reset (shutdown : bool) : LM (option Z) :=
  others ← lask (le_others env);
  o ← in_ctrl (snvme_wait_reset others);
  match o with
  | None => mret None
  | Some false => mret (Some (- EBUSY))
  | Some true => nvme_dev_disable shutdown;; mret (Some 0)
  end.

Definition nvme_reset_done : LM unit :=
  rc ← in_ctrl snvme_try_sched_reset;
  when (bool_decide (rc = 0)) (in_ctrl (modify (λ c, c <| nc_reset_queued := false |>));; nvme_reset_work).

Definition nvme_remove : LM unit :=
  change_state NVME_CTRL_DELETING;;
  release RDrvdata;;
  present ← lask (le_present env);
  when (negb present) (change_state NVME_CTRL_DEAD;; nvme_dev_disable true);;
  remove_namespaces;;
  nvme_dev_disable true;;
  in_hmb nvme_free_host_mem;;
  nvme_dev_remove_admin;;
  nvme_dbbuf_dma_free;;
  in_io (nvme_free_queues 0);;
  release RIod;;
  nvme_release_prp_pools;;
  nvme_dev_unmap;;
  uninit_ctrl.

End life.

(** ** A bound device *)

(** What can happen between nvme_probe and nvme_remove: the reset work, the
    PCI core's reset callbacks, a shutdown, a change of state by anyone, the
    hmb attribute.  Every step has its own environment. *)
Inductive life_act : Type :=
  | ActReset
  | ActPrepare (shutdown : bool)
  | ActResetDone
  | ActState (new_state : nvme_ctrl_state)
  | ActHmb (input : option bool) (count : Z).

Definition life_step (cfg : life_cfg) (env : life_env) (a : life_act) : LM unit :=
  match a with
  | ActReset => nvme_reset_work cfg env
  | ActPrepare shutdown => nvme_disable_prepare_reset env shutdown;; mret tt
  | ActResetDone => nvme_reset_done cfg env
  | ActState new_state => in_ctrl (snvme_change_ctrl_state new_state);; mret tt
  | ActHmb input count => in_hmb (hmb_store (lc_hmb cfg) (le_hmb env) input count);; mret tt
  end.
