(* ===== verification/PciLifeIo.v ===== *)
(** * PciLifeIo: queue memory and the admin queue across set-up and tear-down

    Facts of [PciSetup]'s operations that binding, resetting and removing a
    device need and that hold on every path: a queue has memory exactly if it
    is counted, set-up that succeeds leaves the admin queue enabled, and
    disabling a device whose online queues are tracked leaves none. *)
From S2P Require Import Prelude.
From S2P Require Import Uapi.
From S2P Require Import Kernel.
From S2P Require Import PciData.
From S2P Require Import PciSetup.
From S2P Require Import PciSetupSpec.
From S2P Require Import PciHmb.
From S2P Require Import CoreCtrl.
From S2P Require Import PciLife.

Implicit Types s : iostate.

(** ** Memory follows the count *)

Record mem_wf s : Prop := {
  mw_len : Z.of_nat (length (io_queues (the_dev s))) = nr_allocated_queues (nd_of s);
  mw_count : 0 ≤ queue_count (the_dev s) ≤ nr_allocated_queues (nd_of s);
  mw_poll : 0 ≤ nr_poll_queues (nd_of s);
  mw_alloc i q : io_queues (the_dev s) !! i = Some q → ioq_allocated q = bool_decide (Z.of_nat i < queue_count (the_dev s));
}.

(** The queue share, the memory and a mapped BAR are kept. *)
Definition mem_kept s s' : Prop :=
  (mem_wf s → mem_wf s') ∧ nr_allocated_queues (nd_of s') = nr_allocated_queues (nd_of s)
  ∧ nd_cap_kernel_ioq (nd_of s') = nd_cap_kernel_ioq (nd_of s)
  ∧ (bar_mapped (the_dev s) = true → bar_mapped (the_dev s') = true).

#[export] Instance mem_kept_preorder : PreOrder mem_kept.
Proof.
  split; [by intros s|]. intros s1 s2 s3 (H1 & E1 & F1 & G1) (H2 & E2 & F2 & G2). split_and!; [auto|congruence|congruence|auto].
Qed.

(** The admin queue stays enabled. *)
Definition admin_on s : Prop := ∃ q, io_queues (the_dev s) !! 0%nat = Some q ∧ ioq_enabled q = true.
Definition admin_kept s s' : Prop := admin_on s → admin_on s'.

#[export] Instance admin_kept_preorder : PreOrder admin_kept.
Proof. split; [by intros s ?|]. intros s1 s2 s3 H1 H2 H. by apply H2, H1. Qed.

(** Both at once. *)
Definition io_kept s s' : Prop := mem_kept s s' ∧ admin_kept s s'.
#[export] Instance io_kept_preorder : PreOrder io_kept.
Proof. split; [intros s; split; reflexivity|]. intros s1 s2 s3 [H1 G1] [H2 G2]. split; by etrans. Qed.

Lemma mem_wf_upd s i q q' :
  mem_wf s → io_queues (the_dev s) !! i = Some q → ioq_allocated q' = ioq_allocated q →
  mem_wf (s <| the_dev ::= λ d, d <| io_queues ::= <[i := q']> |> |>).
Proof.
  intros [Hl Hc Hp Ha] Hi Hq. split; [cbn; rewrite length_insert; exact Hl|exact Hc|exact Hp|].
  intros j x Hj. cbn in Hj. change (queue_count _) with (queue_count (the_dev s)).
  destruct (decide (i = j)) as [->|Hne]; [|rewrite list_lookup_insert_ne in Hj by done; by apply Ha].
  rewrite list_lookup_insert_eq in Hj by (by eapply lookup_lt_Some). simplify_eq. rewrite Hq. by apply Ha.
Qed.

Lemma kept_same s s' : the_dev s' = the_dev s → io_kept s s'.
Proof.
  intros E. unfold io_kept, mem_kept, admin_kept, admin_on, nd_of. rewrite E. split; [|done]. split; [|done].
  intros [Hl Hc Hp Ha]. split; unfold nd_of in *; by rewrite E.
Qed.

Lemma kept_ask {A} (f : nat → A) : frames io_kept (ask f).
Proof. intros s. by apply kept_same. Qed.
Lemma kept_emit e : frames io_kept (emit_io e).
Proof. intros s. by apply kept_same. Qed.
Lemma kept_nd f :
  (∀ nd, nr_allocated_queues (f nd) = nr_allocated_queues nd ∧ nd_cap_kernel_ioq (f nd) = nd_cap_kernel_ioq nd
    ∧ (0 ≤ nr_poll_queues nd → 0 ≤ nr_poll_queues (f nd))) →
  frames io_kept (upd_nd f).
Proof.
  intros Hf s. destruct (Hf (nd_of s)) as (E1 & E2 & E3). split; [|exact id]. split_and!; [|exact E1|exact E2|exact id].
  intros [Hl Hc Hp Ha]. split; [..|exact Ha]; unfold nd_of in *; cbn; rewrite ?E1; [exact Hl|exact Hc|by apply E3].
Qed.
Lemma kept_dev f :
  (∀ d, io_queues (f d) = io_queues d ∧ queue_count (f d) = queue_count d ∧ io_ndev (f d) = io_ndev d
    ∧ (bar_mapped d = true → bar_mapped (f d) = true)) →
  frames io_kept (upd_dev f).
Proof.
  intros Hf s. destruct (Hf (the_dev s)) as (E1 & E2 & E3 & E4). unfold io_kept, mem_kept, admin_kept, admin_on, nd_of. cbn.
  rewrite E1, E3. split; [|done]. split; [|done]. intros [Hl Hc Hp Ha]. split; unfold nd_of in *; cbn; rewrite ?E1, ?E2, ?E3; done.
Qed.

Lemma kept_get_ioq qid : frames io_kept (get_ioq qid).
Proof.
  intros s. apply kept_same. unfold get_ioq, mbind, M_bind, gets. cbn. case_bool_decide; [|done]. by destruct (io_queues _ !! _).
Qed.

Lemma kept_upd_ioq qid f :
  (∀ q, ioq_allocated (f q) = ioq_allocated q ∧ (ioq_enabled q = true → ioq_enabled (f q) = true)) → frames io_kept (upd_ioq qid f).
Proof.
  intros Hf s. unfold upd_ioq, get_ioq, upd_dev, modify, mbind, M_bind, gets. cbn. case_bool_decide; [|by apply kept_same].
  destruct (io_queues (the_dev s) !! Z.to_nat qid) as [q|] eqn:E; [|by apply kept_same]. cbn. destruct (Hf q) as [Hf1 Hf2]. split.
  - split; [|done]. intros Hw. by eapply mem_wf_upd.
  - intros (q0 & E0 & Hon). unfold admin_on. cbn. destruct (decide (Z.to_nat qid = 0%nat)) as [Hz|Hz].
    + rewrite Hz in E |- *. rewrite E in E0. simplify_eq. exists (f q0). rewrite list_lookup_insert_eq by (by eapply lookup_lt_Some). auto.
    + exists q0. by rewrite list_lookup_insert_ne.
Qed.

Lemma frames_if {R : iostate → iostate → Prop} {A} (b : bool) (m1 m2 : M iostate A) :
  frames R m1 → frames R m2 → frames R (if b then m1 else m2).
Proof. by destruct b. Qed.

(** One step of a framing proof. *)
Ltac kept_step :=
  match goal with
  | |- frames _ (mbind _ _) => apply frames_bind; [apply _| |intros ?]
  | |- frames _ (mret _) => apply frames_ret; apply _
  | |- frames _ (gets _) => apply frames_gets; apply _
  | |- frames _ (crash _) => apply frames_crash; apply _
  | |- frames _ (from_opt _ _) => apply frames_from_opt; apply _
  | |- frames _ (ask _) => apply kept_ask
  | |- frames _ (emit_io _) => apply kept_emit
  | |- frames _ (get_ioq _) => apply kept_get_ioq
  | |- frames _ (upd_nd _) => apply kept_nd; by intros []
  | |- frames _ (upd_dev _) => apply kept_dev; by intros []
  | |- frames _ (upd_ioq _ _) => apply kept_upd_ioq; by intros []
  | |- frames _ (when _ _) => apply frames_when; [apply _|]
  | |- frames _ (if _ then _ else _) => apply frames_if
  | |- frames _ (let '_ := ?x in _) => destruct x
  | |- frames _ (match ?x with _ => _ end) => destruct x
  end; cbv beta zeta.
Ltac kept := repeat kept_step.

Section frames.
Context (env : io_env) (Hmap : ∀ n, ie_ioremap env n = true).

Lemma kept_unlock : frames io_kept unlock.
Proof. unfold unlock. kept. Qed.
Lemma kept_trylock : frames io_kept (nvme_setup_io_queues_trylock env).
Proof. unfold nvme_setup_io_queues_trylock. kept. Qed.
Lemma kept_remap size : frames io_kept (nvme_remap_bar env size).
Proof.
  unfold nvme_remap_bar. apply frames_bind; [apply _|apply frames_gets; apply _|]. intros s0.
  apply frames_if; [apply frames_ret; apply _|]. apply frames_if; [apply frames_ret; apply _|].
  intros s. unfold ask, mbind, M_bind, gets, modify, mret, M_ret. cbn. rewrite Hmap. cbn.
  etrans; [by apply (kept_same s (s <| io_clock ::= S |>))|]. apply (kept_dev (λ d, d <| bar_mapped := true |> <| bar_mapped_size := size |>)).
  by intros [].
Qed.
Lemma kept_fit_bar nr : frames io_kept (fit_bar env nr).
Proof. induction nr as [|nr IH]; cbn [fit_bar]; kept; [apply kept_remap|apply IH]. Qed.
Lemma kept_request_irq qid : frames io_kept (queue_request_irq env qid).
Proof. unfold queue_request_irq. kept. Qed.
Lemma kept_setup_irqs nr : frames io_kept (nvme_setup_irqs env nr).
Proof. unfold nvme_setup_irqs. kept. Qed.
Lemma kept_alloc_sq qid : frames io_kept (nvme_alloc_sq_cmds env qid).
Proof. unfold nvme_alloc_sq_cmds. kept. Qed.
Lemma kept_create_queue qid polled : frames io_kept (nvme_create_queue env qid polled).
Proof.
  unfold nvme_create_queue, adapter_alloc_cq, adapter_alloc_sq. kept;
    auto using kept_trylock, kept_unlock, kept_request_irq.
Qed.
Lemma kept_create_loop n i rw ret : frames io_kept (create_queues_loop env n i rw ret).
Proof. revert i ret. induction n as [|n IH]; intros i ret; cbn [create_queues_loop]; kept; [apply kept_create_queue|apply IH]. Qed.
Lemma kept_set_queue_count count : frames io_kept (snvme_set_queue_count env count).
Proof. unfold snvme_set_queue_count. kept. Qed.
Lemma kept_setup_cmb nr : frames io_kept (setup_cmb nr).
Proof. unfold setup_cmb. kept. Qed.
Lemma kept_delete_send nr sent ev : frames io_kept (delete_send env nr sent ev).
Proof. revert sent. induction nr as [|nr IH]; intros sent; cbn [delete_send]; kept. apply IH. Qed.

Lemma mem_of {A} (m : M iostate A) : frames io_kept m → frames mem_kept m.
Proof. intros H s. apply H. Qed.

Lemma mem_upd_ioq qid f : (∀ q, ioq_allocated (f q) = ioq_allocated q) → frames mem_kept (upd_ioq qid f).
Proof.
  intros Hf s. unfold upd_ioq, get_ioq, upd_dev, modify, mbind, M_bind, gets. cbn. case_bool_decide; [|by apply kept_same].
  destruct (io_queues (the_dev s) !! Z.to_nat qid) as [q|] eqn:E; [|by apply kept_same]. cbn.
  split; [|done]. intros Hw. by eapply mem_wf_upd.
Qed.

Lemma mem_release_admin : frames mem_kept release_admin_irq.
Proof.
  unfold release_admin_irq. apply frames_bind; [apply _|apply mem_of, kept_get_ioq|]. intros q. apply frames_when; [apply _|].
  apply frames_bind; [apply _|by apply mem_upd_ioq|]. intros _. apply mem_of, kept_emit.
Qed.

Lemma mem_suspend_queue qid : frames mem_kept (nvme_suspend_queue qid).
Proof.
  unfold nvme_suspend_queue. apply frames_bind; [apply _|apply mem_of, kept_get_ioq|]. intros q. apply frames_if; [apply frames_ret; apply _|].
  apply frames_bind; [apply _|by apply mem_upd_ioq|]. intros _. apply frames_bind; [apply _|apply mem_of, kept_nd; by intros []|]. intros _.
  apply frames_if; [by apply mem_upd_ioq|apply mem_of, kept_emit].
Qed.

Lemma mem_suspend_io : frames mem_kept nvme_suspend_io_queues.
Proof.
  unfold nvme_suspend_io_queues. apply frames_bind; [apply _|apply frames_gets; apply _|]. intros s.
  apply frames_for_each; [apply _|]. intros i. apply mem_suspend_queue.
Qed.

(** ** Deleting queues only talks to the controller *)

Lemma delete_send_dev nr sent ev s :
  0 ≤ sent → wp (delete_send env nr sent ev) (λ r s', the_dev s' = the_dev s
    ∧ ∃ nr' sent', r = Ok (nr', sent') ∧ 0 ≤ nr' ≤ Z.of_nat nr ∧ nr' + sent' = Z.of_nat nr + sent) s.
Proof.
  revert sent s. induction nr as [|nr IH]; intros sent s Hs; cbn [delete_send].
  { apply wp_ret. split; [done|]. exists 0, sent. split_and!; [done|lia..]. }
  apply wp_bind, wp_ask. intros []; cbn [negb].
  2: { apply wp_ret. split; [done|]. exists (Z.of_nat (S nr)), sent. split_and!; [done|lia..]. }
  apply wp_bind, wp_modify. eapply wp_mono; [apply IH; lia|]. intros r s' (E & nr' & sent' & -> & Hr & Hsum).
  split; [exact E|]. exists nr', sent'. split_and!; [done|lia..].
Qed.

Lemma delete_loop_dev fuel nr sent ev s :
  0 ≤ nr → 0 ≤ sent → nr + sent < Z.of_nat fuel →
  wp (delete_loop env fuel nr sent ev) (λ r s', the_dev s' = the_dev s ∧ ∃ b, r = Ok b) s.
Proof.
  revert nr sent s. induction fuel as [|fuel IH]; intros nr sent s Hn Hs Hf; [lia|]. cbn [delete_loop].
  apply wp_bind. eapply wp_mono; [by apply delete_send_dev|]. intros r s1 (E1 & nr' & sent' & -> & Hr & Hsum).
  rewrite Z2Nat.id in Hr, Hsum by done.
  assert (∀ (w : nat) s2 x, Z.of_nat w = x → x ≤ sent' → the_dev s2 = the_dev s →
    wp ((fix wait (w : nat) (sent : Z) : M iostate bool :=
         match w with
         | O => mret true
         | S w =>
             done ← ask (ie_delete_done env);
             if negb done then mret false
             else if bool_decide (nr' ≠ 0) then delete_loop env fuel nr' (sent - 1) ev
             else wait w (sent - 1)
         end) w x) (λ r s', the_dev s' = the_dev s ∧ ∃ b, r = Ok b) s2) as Hw.
  { intros w. induction w as [|w IHw]; intros s2 x Hx Hle E2; [apply wp_ret; by split; [|eexists]|].
    apply wp_bind, wp_ask. intros []; cbn [negb]; [|apply wp_ret; by split; [|eexists]].
    case_bool_decide.
    - eapply wp_mono; [apply IH; lia|]. intros r s3 [E3 Hb]. split; [cbn in E3; congruence|done].
    - apply IHw; [lia|lia|done]. }
  apply Hw; [lia|lia|done].
Qed.

Lemma delete_io_dev s :
  wp (nvme_delete_io_queues env) (λ r s', r = Ok tt ∧ the_dev s' = the_dev s) s.
Proof.
  assert (∀ ev s1, the_dev s1 = the_dev s → wp (__nvme_delete_io_queues env ev) (λ r s', the_dev s' = the_dev s ∧ ∃ b, r = Ok b) s1) as Hd.
  { intros ev s1 E1. unfold __nvme_delete_io_queues. apply wp_bind, wp_gets. cbn [id]. set (nr := online_queues _ - 1).
    destruct (decide (0 ≤ nr)).
    - eapply wp_mono; [apply delete_loop_dev; lia|]. intros r s2 [E2 Hb]. split; [congruence|done].
    - replace (Z.to_nat nr) with 0%nat by lia. unfold wp. cbn [Nat.mul delete_loop].
      replace (Z.to_nat nr) with 0%nat by lia. cbn. by split; [|eexists]. }
  unfold nvme_delete_io_queues. apply wp_bind. eapply wp_mono; [by apply Hd|]. intros r s1 [E1 [b ->]].
  apply wp_when; [intros _|done]. apply wp_bind. eapply wp_mono; [by apply Hd|]. by intros r s2 [E2 [b' ->]].
Qed.

(** ** Queue memory *)

(** The enabled bits. *)
Definition enab s : list bool := ioq_enabled <$> io_queues (the_dev s).

Lemma get_ioq_eq i q s : io_queues (the_dev s) !! i = Some q → get_ioq (Z.of_nat i) s = (Ok q, s).
Proof.
  intros E. unfold get_ioq, mbind, M_bind, gets. cbn. rewrite bool_decide_true by lia. by rewrite Nat2Z.id, E.
Qed.

Lemma upd_ioq_eq i q f s :
  io_queues (the_dev s) !! i = Some q →
  upd_ioq (Z.of_nat i) f s = (Ok tt, s <| the_dev ::= λ d, d <| io_queues ::= <[i := f q]> |> |>).
Proof. intros E. unfold upd_ioq. rewrite (bind_ok _ _ _ _ _ (get_ioq_eq _ _ _ E)). by rewrite Nat2Z.id. Qed.

(** Neither the bits nor the count move. *)
Record steady s s' : Prop := {
  sy_mem : mem_wf s → mem_wf s';
  sy_enab : enab s' = enab s;
  sy_nd : nd_of s' = nd_of s;
  sy_count : queue_count (the_dev s') = queue_count (the_dev s);
  sy_lock : shutdown_locked (the_dev s') = shutdown_locked (the_dev s);
  sy_bar : bar_mapped (the_dev s') = bar_mapped (the_dev s);
}.

#[export] Instance steady_preorder : PreOrder steady.
Proof. split; [by intros s|]. intros s1 s2 s3 [] []. split; [auto|congruence..]. Qed.

Lemma steady_same s s' : the_dev s' = the_dev s → steady s s'.
Proof.
  intros E. destruct (kept_same s s' E) as [[Hm _] _]. split; [done|..]; unfold enab, nd_of; by rewrite E.
Qed.

Lemma steady_upd s i q q' :
  io_queues (the_dev s) !! i = Some q → ioq_allocated q' = ioq_allocated q → ioq_enabled q' = ioq_enabled q →
  steady s (s <| the_dev ::= λ d, d <| io_queues ::= <[i := q']> |> |>).
Proof.
  intros E Ha He. split; [intros Hw; by eapply mem_wf_upd| |done..]. unfold enab. cbn. rewrite list_fmap_insert, He.
  apply list_insert_id. by rewrite list_lookup_fmap, E.
Qed.

Lemma alloc_sq_steady i s :
  is_Some (io_queues (the_dev s) !! i) →
  wp (nvme_alloc_sq_cmds env (Z.of_nat i)) (λ r s', steady s s' ∧ ∃ rc, r = Ok rc ∧ rc ≤ 0) s.
Proof.
  intros [q E]. unfold nvme_alloc_sq_cmds. apply wp_bind, wp_gets. cbn [id]. apply wp_bind.
  assert (∀ s1, the_dev s1 = the_dev s → wp (ok ← ask (ie_sq_mem env); mret (if (ok : bool) then 0 else - ENOMEM))
    (λ r s', steady s s' ∧ ∃ rc, r = Ok rc ∧ rc ≤ 0) s1) as Hsq.
  { intros s1 E1. apply wp_bind, wp_ask. intros b. apply wp_ret. split; [by apply steady_same|]. eexists. split; [done|]. by destruct b. }
  destruct (_ && _); [|by apply wp_ret, Hsq]. apply wp_ask. intros []; [|by apply Hsq].
  apply wp_bind. eapply wp_eq; [by apply upd_ioq_eq|]. apply wp_ret. split; [|by exists 0].
  etrans; [by apply (steady_same s (s <| io_clock ::= S |>))|]. by eapply steady_upd.
Qed.

Lemma alloc_queue_mem i depth s :
  mem_wf s → Z.of_nat i < nr_allocated_queues (nd_of s) → queue_count (the_dev s) = Z.of_nat i →
  wp (nvme_alloc_queue env (Z.of_nat i) depth) (λ r s', mem_wf s' ∧ enab s' = enab s ∧ nd_of s' = nd_of s
    ∧ shutdown_locked (the_dev s') = shutdown_locked (the_dev s) ∧ bar_mapped (the_dev s') = bar_mapped (the_dev s)
    ∧ ∃ rc, r = Ok rc ∧ rc ≤ 0 ∧ queue_count (the_dev s') = if bool_decide (rc = 0) then Z.of_nat i + 1 else Z.of_nat i) s.
Proof.
  intros Hw Hi Hc. destruct (lookup_lt_is_Some_2 (io_queues (the_dev s)) i) as [q E]; [pose proof (mw_len s Hw); lia|].
  unfold nvme_alloc_queue. apply wp_bind. eapply wp_eq; [by apply get_ioq_eq|]. apply wp_bind, wp_gets. cbn [id].
  rewrite bool_decide_false by lia.
  set (s1 := s <| the_dev ::= λ d, d <| io_queues ::= <[i := q <| ioq_depth := depth |>]> |> |>).
  assert (steady s s1) as Hs1 by (by eapply steady_upd).
  apply wp_bind. eapply wp_eq; [by apply upd_ioq_eq|]. fold s1. apply wp_bind, wp_ask.
  assert (∀ s2 rc, steady s s2 → rc ≤ 0 → rc ≠ 0 → mem_wf s2 ∧ enab s2 = enab s ∧ nd_of s2 = nd_of s
    ∧ shutdown_locked (the_dev s2) = shutdown_locked (the_dev s) ∧ bar_mapped (the_dev s2) = bar_mapped (the_dev s)
    ∧ ∃ rc', Ok rc = Ok rc' ∧ rc' ≤ 0 ∧ queue_count (the_dev s2) = if bool_decide (rc' = 0) then Z.of_nat i + 1 else Z.of_nat i) as Hfail.
  { intros s2 rc [] ? ?. split_and!; [auto|done..|]. exists rc. split_and!; [done..|]. rewrite bool_decide_false by done. congruence. }
  assert (steady s (s1 <| io_clock ::= S |>)) as Hs2 by (etrans; [exact Hs1|by apply steady_same]).
  intros []; cbn [negb]; [|apply wp_ret; by apply Hfail].
  apply wp_bind. eapply wp_mono; [apply alloc_sq_steady|].
  { cbn. rewrite list_lookup_insert_eq by (by eapply lookup_lt_Some). by eexists. }
  intros r s3 (Hs3 & rc & -> & Hrc). assert (steady s s3) as Hs by (by etrans).
  case_bool_decide; cbn [negb]; [|apply wp_ret; by apply Hfail]. destruct Hs as [Hm He Hn Hcn Hlk Hbr].
  destruct (Hm Hw) as [Hl3 Hc3 Hp3 Ha3]. destruct (lookup_lt_is_Some_2 (io_queues (the_dev s3)) i) as [q3 E3]; [rewrite Hn in Hl3; lia|].
  apply wp_bind. eapply wp_eq; [by apply upd_ioq_eq|]. apply wp_bind, wp_modify, wp_ret. split_and!; [split| |exact Hn|exact Hlk|exact Hbr|].
  - cbn. rewrite length_insert. exact Hl3.
  - change (0 ≤ 1 + queue_count (the_dev s3) ≤ nr_allocated_queues (nd_of s3)). rewrite Hn in *. lia.
  - exact Hp3.
  - intros j x Hj. cbn in Hj |- *. rewrite Hcn. destruct (decide (i = j)) as [->|Hne].
    + rewrite list_lookup_insert_eq in Hj by (by eapply lookup_lt_Some). simplify_eq. cbn. by rewrite bool_decide_true by lia.
    + rewrite list_lookup_insert_ne in Hj by done. rewrite (Ha3 j x Hj), Hcn. apply bool_decide_ext. lia.
  - rewrite <- He. unfold enab. cbn. rewrite list_fmap_insert. apply list_insert_id. by rewrite list_lookup_fmap, E3.
  - exists 0. split_and!; [done|lia|]. rewrite bool_decide_true by done. cbn. rewrite Hcn, Hc. lia.
Qed.

Lemma alloc_queues_mem n i s :
  mem_wf s → queue_count (the_dev s) = Z.of_nat i → Z.of_nat (i + n) ≤ nr_allocated_queues (nd_of s) →
  wp (alloc_queues env n (Z.of_nat i)) (λ _ s', mem_wf s' ∧ enab s' = enab s ∧ nd_of s' = nd_of s
    ∧ bar_mapped (the_dev s') = bar_mapped (the_dev s)) s.
Proof.
  revert i s. induction n as [|n IH]; intros i s Hw Hc Hn; cbn [alloc_queues]; [by apply wp_ret|].
  apply wp_bind, wp_gets. cbn [id]. apply wp_bind. eapply wp_mono; [apply alloc_queue_mem; [done|lia|done]|].
  intros r s1 (Hw1 & He1 & Hn1 & _ & Hb1 & rc & -> & _ & Hc1). case_bool_decide; cbn [negb]; [|apply wp_ret; by split_and!].
  replace (Z.of_nat i + 1) with (Z.of_nat (S i)) in * by lia.
  eapply wp_mono; [apply IH; [done|done|rewrite Hn1; lia]|]. intros r s2 (Hw2 & He2 & Hn2 & Hb2). split_and!; congruence.
Qed.

Lemma admin_on_enab s : admin_on s ↔ enab s !! 0%nat = Some true.
Proof.
  unfold admin_on, enab. rewrite list_lookup_fmap. destruct (io_queues (the_dev s) !! 0%nat) as [q|]; cbn; [|naive_solver].
  split; [by intros (q' & [= <-] & ->)|]. intros [= E]. by exists q.
Qed.

Lemma kept_create_io s :
  mem_wf s → max_qid (the_dev s) < nr_allocated_queues (nd_of s) → io_kept s (nvme_create_io_queues env s).2.
Proof.
  intros Hw Hm. unfold nvme_create_io_queues. rewrite bind_gets. cbn [id]. pose proof (mw_count s Hw) as Hc.
  pose proof (alloc_queues_mem (Z.to_nat (max_qid (the_dev s) - queue_count (the_dev s) + 1)) (Z.to_nat (queue_count (the_dev s))) s Hw) as Ha.
  rewrite Z2Nat.id in Ha by lia. unfold wp in Ha. unfold mbind at 1, M_bind.
  destruct (alloc_queues env _ _ s) as [r s1]. cbn in Ha. destruct Ha as (Hw1 & He1 & Hn1 & Hb1); [done|lia|].
  assert (io_kept s s1) as Hk1.
  { split; [split_and!; [done|by rewrite Hn1|by rewrite Hn1|by rewrite Hb1]|]. unfold admin_kept. by rewrite !admin_on_enab, He1. }
  destruct r; [|done|done]. etrans; [exact Hk1|].
  match goal with |- io_kept s1 (?m s1).2 => assert (frames io_kept m) as Hf; [|apply Hf] end.
  kept. apply kept_create_loop.
Qed.

(** ** Set-up *)

(** A specification together with a frame. *)
Lemma wp_with {A} (R : iostate → iostate → Prop) (m : M iostate A) (Q : outcome A → iostate → Prop) s :
  wp m Q s → R s (m s).2 → wp m (λ r s', Q r s' ∧ R s s') s.
Proof. by split. Qed.

(** What set-up does to the memory and, when it succeeds, to the admin queue. *)
Definition share_post s (r : outcome Z) s' : Prop := mem_kept s s' ∧ (r = Ok 0 → admin_on s').

Lemma share_post_trans s s1 r s' : mem_kept s s1 → share_post s1 r s' → share_post s r s'.
Proof. intros H1 [H2 Ha]. split; [by etrans|done]. Qed.

Lemma share_post_fail s s' rc : mem_kept s s' → rc ≠ 0 → share_post s (Ok rc) s'.
Proof. intros H Hne. split; [done|]. by intros [= ->]. Qed.

Context (K G : Z) (Hvec : ∀ k m, ie_irq_vectors env k m ≤ m).

(** The admin queue comes up again. *)
Lemma admin_up_ok s L :
  io_ok K G L s →
  wp (upd_ioq 0 (λ q, q <| ioq_enabled := true |>)) (λ r s', r = Ok tt ∧ io_ok K G L s' ∧ keeps s s' ∧ mem_kept s s' ∧ admin_on s') s.
Proof.
  intros H. pose proof (io_share _ _ _ _ H). pose proof (io_len _ _ _ _ H).
  destruct (lookup_lt_is_Some_2 (io_queues (the_dev s)) 0) as [q E]; [lia|].
  change 0 with (Z.of_nat 0). eapply wp_eq; [by apply upd_ioq_eq|]. split_and!; [done| |done| |].
  - apply (io_ok_upd_ioq K G L s 0 q (λ q, q <| ioq_enabled := true |>)); [done|done|lia].
  - split_and!; [|done..]. intros Hw. by eapply mem_wf_upd.
  - eexists. split; [apply list_lookup_insert_eq; by eapply lookup_lt_Some|done].
Qed.

Lemma mem_delete_io : frames mem_kept (nvme_delete_io_queues env).
Proof. intros s. destruct (delete_io_dev s) as [_ E]. by apply kept_same. Qed.

(** Updates of the device's other fields. *)
Lemma mem_dev s f :
  (∀ d, io_queues (f d) = io_queues d ∧ queue_count (f d) = queue_count d ∧ io_ndev (f d) = io_ndev d
    ∧ (bar_mapped d = true → bar_mapped (f d) = true)) →
  mem_kept s (s <| the_dev ::= f |>).
Proof. intros Hf. exact (mem_of _ (kept_dev f Hf) s). Qed.

Lemma setup_retry_mem fuel : ∀ s nr,
  io_ok K G true s → mem_wf s → online_queues (nd_of s) = 1 → 1 ≤ nr ≤ K → nr < 2 ^ 16 → nr ≤ Z.of_nat fuel →
  wp (setup_retry env fuel nr) (share_post s) s.
Proof.
  induction fuel as [|fuel IH]; intros s nr H Hw Ho Hnr H16 Hf; [lia|]. cbn [setup_retry].
  apply wp_bind. eapply wp_mono; [apply (wp_with mem_kept); [apply (release_admin_irq_ok _ _ _ _ H)|apply mem_release_admin]|].
  intros r s1 [(-> & (A1 & _) & H1) W1]. apply wp_bind, wp_modify.
  set (s1' := s1 <| the_dev ::= _ |>). assert (mem_kept s s1') as W1' by (etrans; [exact W1|by apply mem_dev]).
  apply wp_bind. eapply wp_mono; [apply (wp_with mem_kept); [apply (setup_irqs_ok env K G Hvec _ true nr); [io_frame H1|done|done]|apply (mem_of _ (kept_setup_irqs nr))]|].
  intros r s2 [(n & -> & (B1 & _) & H2 & Hn) W2]. assert (mem_kept s s2) as W02 by (by etrans).
  case_bool_decide as Hz.
  { apply wp_bind, wp_modify, wp_ret. apply share_post_fail; [|done]. etrans; [exact W02|]. apply (mem_of _ kept_unlock). }
  destruct Hn as [Hp Hmax]; [lia|].
  apply wp_bind, wp_modify. set (s3 := s2 <| the_dev ::= _ |>).
  assert (mem_kept s s3) as W03 by (etrans; [exact W02|by apply mem_dev]).
  assert (H3 : io_ok K G true s3) by io_frame H2.
  assert (O3 : online_queues (nd_of s3) = 1) by (change (nd_of s3) with (nd_of s2); rewrite B1, <- Ho, <- A1; done).
  assert (M3 : 1 ≤ max_qid (the_dev s3) ≤ nr) by (change (max_qid (the_dev s3)) with (Z.max (n - 1) 1 + hctx_poll (the_dev s2)); lia).
  apply wp_bind. eapply wp_mono; [apply (wp_with mem_kept); [apply (request_irq_ok env K G _ _ 0 H3)|apply (mem_of _ (kept_request_irq 0))]|].
  intros r s4 [(rc & -> & (C1 & C2 & C3) & H4) W4]. assert (mem_kept s s4) as W04 by (by etrans).
  case_bool_decide as Hrc; cbn [negb].
  2:{ apply wp_bind, wp_modify, wp_ret. apply share_post_fail; [|done]. etrans; [exact W04|]. apply (mem_of _ kept_unlock). }
  apply wp_bind. eapply wp_mono; [apply (admin_up_ok _ _ H4)|]. intros r s5 (-> & H5 & (D1 & D2 & D3) & W5 & A5).
  assert (mem_kept s s5) as W05 by (by etrans).
  apply wp_bind. eapply wp_mono; [apply (wp_with io_kept); [apply (unlock_ok _ _ _ _ H5)|apply kept_unlock]|].
  intros r s6 [(-> & (E1 & E2 & E3) & H6) [W6 A6]]. assert (mem_kept s s6) as W06 by (by etrans).
  assert (O6 : online_queues (nd_of s6) = 1) by congruence.
  assert (M6 : max_qid (the_dev s6) = max_qid (the_dev s3)) by congruence. pose proof (io_share _ _ _ _ H6).
  apply wp_bind. eapply wp_mono; [apply (wp_with io_kept); [apply (create_io_queues_ok env K G _ H6); lia|apply kept_create_io; [by apply W06|lia]]|].
  intros r s7 [(res & -> & H7 & F1 & F2) [W7 A7]]. assert (mem_kept s s7) as W07 by (by etrans).
  apply wp_bind, wp_gets. cbn [id]. change (io_ndev (the_dev s7)) with (nd_of s7). pose proof (io_online _ _ _ _ H7) as O7.
  destruct (negb (bool_decide (res = 0)) || bool_decide (online_queues (nd_of s7) < 2)) eqn:Hend; [apply wp_ret; by split; [|auto]|].
  apply orb_false_iff in Hend as [_ Hge%bool_decide_eq_false].
  case_bool_decide as Hless; [|apply wp_ret; by split; [|auto]].
  apply wp_bind. eapply wp_mono; [apply (wp_with mem_kept); [apply (delete_io_queues_ok env K G _ _ H7)|apply mem_delete_io]|].
  intros r s8 [(-> & (I1 & I2 & I3) & H8) W8].
  apply wp_bind. eapply wp_mono; [apply (wp_with mem_kept); [apply (trylock_ok env K G _ H8)|apply (mem_of _ kept_trylock)]|].
  intros r s9 [(rc9 & -> & _ & H9 & Hle) W9]. assert (mem_kept s s9) as W09 by (by etrans; [exact W07|etrans]).
  case_bool_decide as Hrc9; cbn [negb]; [|apply wp_ret; by apply share_post_fail].
  apply wp_bind. eapply wp_mono; [apply (wp_with mem_kept); [apply (suspend_io_queues_ok _ _ _ _ H9)|apply mem_suspend_io]|].
  intros r s10 [(-> & H10 & _ & O10) W10]. assert (mem_kept s s10) as W010 by (by etrans).
  eapply wp_mono; [apply (IH s10 (online_queues (nd_of s7) - 1) H10); [by apply W010|done|lia..]|].
  intros r s11. by apply share_post_trans.
Qed.

End frames.
