(* ===== verification/PciOnline.v ===== *)
(** * PciOnline: which queues are online, across set-up and tear-down

    The whole of queue set-up, suspension and release at the level [PciLife]
    uses them: besides the memory, the enabled queues are exactly those below
    [online_queues], from the admin queue on, and none after suspension. *)
From S2P Require Import Prelude.
From S2P Require Import Uapi.
From S2P Require Import Kernel.
From S2P Require Import PciData.
From S2P Require Import PciSetup.
From S2P Require Import PciSetupSpec.
From S2P Require Import PciHmb.
From S2P Require Import CoreCtrl.
From S2P Require Import PciLife.
From S2P Require Import PciLifeIo.

Implicit Types s : iostate.

Record tracked s : Prop := {
  tr_online : 0 ≤ online_queues (nd_of s) ≤ queue_count (the_dev s);
  tr_enabled i q : io_queues (the_dev s) !! i = Some q → ioq_enabled q = bool_decide (Z.of_nat i < online_queues (nd_of s));
  tr_lock : shutdown_locked (the_dev s) = false;
}.

(** The share of the controller's queues a device was made for. *)
Definition shares s : Prop := 2 ≤ nr_allocated_queues (nd_of s) ≤ 2 ^ 16 ∧ 0 ≤ nd_cap_kernel_ioq (nd_of s).

Lemma shares_kept s s' : mem_kept s s' → shares s → shares s'.
Proof. intros (_ & E1 & E2 & _). unfold shares. by rewrite E1, E2. Qed.

Lemma tracked_admin s : tracked s → mem_wf s → shares s → 1 ≤ online_queues (nd_of s) → admin_on s.
Proof.
  intros [Ho He _] Hw [Hn _] H1. destruct (lookup_lt_is_Some_2 (io_queues (the_dev s)) 0) as [q E]; [pose proof (mw_len s Hw); lia|].
  exists q. split; [done|]. rewrite (He 0%nat q E). apply bool_decide_true. lia.
Qed.

Section online.
Context (env : io_env) (Henv : io_env_ok env) (Hmap : ∀ n, ie_ioremap env n = true).

(** ** Set-up *)

Lemma setup_share_mem K g s :
  io_ok K g false s → mem_wf s → online_queues (nd_of s) = 1 → K < 2 ^ 16 →
  wp (rc ← nvme_setup_io_queues_trylock env;
      if negb (bool_decide (rc = 0)) then mret rc
      else
        release_admin_irq;;
        setup_cmb K;;
        o ← fit_bar env (Z.to_nat K);
        match o with
        | None => unlock;; mret (- ENOMEM)
        | Some nr_io_queues => setup_retry env (Z.to_nat nr_io_queues) nr_io_queues
        end) (share_post s) s.
Proof.
  intros H Hw Ho H16. pose proof (io_share _ _ _ _ H) as Hsh.
  apply wp_bind. eapply wp_mono; [apply (wp_with mem_kept); [apply (trylock_ok env _ _ _ H)|apply (mem_of _ (kept_trylock env))]|].
  intros r s4 [(rc & -> & (A1 & _) & H4 & _) W4].
  case_bool_decide as Hrc; cbn [negb]; [|apply wp_ret; by apply share_post_fail].
  apply wp_bind. eapply wp_mono; [apply (wp_with mem_kept); [apply (release_admin_irq_ok _ _ _ _ H4)|apply mem_release_admin]|].
  intros r s5 [(-> & (B1 & _) & H5) W5].
  apply wp_bind. eapply wp_mono; [apply (wp_with mem_kept); [apply (setup_cmb_ok _ _ _ _ _ H5)|apply (mem_of _ (kept_setup_cmb K))]|].
  intros r s6 [(-> & H6 & O6) W6].
  apply wp_bind. eapply wp_mono; [apply (wp_with mem_kept); [apply (fit_bar_ok env _ _ _ _ _ H6)|apply (mem_of _ (kept_fit_bar env Hmap _))]|].
  intros r s7 [(o & -> & (C1 & _) & H7 & Hm) W7].
  assert (mem_kept s s7) as W07 by (do 3 (etrans; [eassumption|]); done).
  destruct o as [m|].
  - specialize (Hm m eq_refl). eapply wp_mono; [apply (setup_retry_mem env K g (ieo_vectors _ Henv) _ s7 m H7)|]; [by apply W07|congruence|lia..|].
    intros r s8. by apply share_post_trans.
  - apply wp_bind, wp_modify, wp_ret. apply share_post_fail; [|done]. etrans; [exact W07|]. apply (mem_of _ kept_unlock).
Qed.

Lemma setup_io_mem wq pq s :
  0 ≤ pq → setup_start s → mem_wf s → admin_on s → wp (s_nvme_setup_io_queues env wq pq) (share_post s) s.
Proof.
  intros Hpq Hs Hw Hon. unfold s_nvme_setup_io_queues. apply wp_bind, wp_gets. cbn [id].
  change (io_ndev (the_dev s)) with (nd_of s). apply wp_bind.
  destruct (sample_ok s wq pq Hs Hpq) as (s1 & Hrun & Hs1 & En & Em & Hkept).
  pose proof (ss_cap _ Hs) as Hcap. pose proof (ss_nr _ Hs) as Hnr.
  eapply wp_mono; [apply (wp_with io_kept); [exact Hrun|]|].
  { apply frames_when; [apply _|]. apply kept_nd. by intros []. }
  intros r s1' [[-> ->] [W1 A1]]. apply wp_bind.
  eapply wp_mono; [apply (set_queue_count_ok env s1 _ Henv); lia|].
  intros r s2 [-> [(rc & Hrc & ->)|(g & -> & Hg)]]; cbv beta iota.
  { rewrite (bool_decide_false (rc = 0)) by lia. apply wp_bind, wp_ret. rewrite bool_decide_true by done.
    apply wp_ret. apply share_post_fail; [|lia]. etrans; [exact W1|]. by apply kept_same. }
  rewrite (bool_decide_true (0 = 0)) by done. apply wp_bind, wp_modify.
  rewrite (bool_decide_false (0 < 0)) by done. set (s3 := _ <| the_dev ::= _ |>).
  assert (io_kept s1 s3) as [W3 A3].
  { etrans; [by apply (kept_same s1 (s1 <| io_clock ::= S |>))|].
    apply (kept_nd (λ nd, nd <| ctrl_max_io_queues := g |>)). by intros []. }
  assert (mem_kept s s3) as W03 by (by etrans). assert (admin_on s3) as A03 by (by apply A3, A1).
  destruct (decide (g = 0)) as [Hg0|Hg0].
  { rewrite (bool_decide_true (g = 0)) by done. apply wp_ret. by split. }
  rewrite (bool_decide_false (g = 0)) by done.
  destruct (cap_queues_ok (nd_cap_kernel_ioq (nd_of s)) g) as [HK _]; [done|lia|].
  assert (H3 : io_ok (cap_queues (nd_cap_kernel_ioq (nd_of s)) g) g false s3).
  { eapply io_ok_core; [|apply (start_ok s1 _ g Hs1 HK); lia]. done. }
  eapply wp_mono; [apply (setup_share_mem _ g s3 H3); [by apply W03|apply Hs1|lia]|].
  intros r s4. by apply share_post_trans.
Qed.

(** Set-up from a tracked device with only the admin queue online never
    crashes; when it succeeds the device is tracked again. *)
Lemma setup_tracked wq pq s :
  0 ≤ pq → tracked s → mem_wf s → shares s → online_queues (nd_of s) = 1 → io_log s = [] →
  wp (s_nvme_setup_io_queues env wq pq) (λ r s', mem_kept s s'
    ∧ ∃ rc, r = Ok rc ∧ (rc = 0 → tracked s' ∧ 1 ≤ online_queues (nd_of s'))) s.
Proof.
  intros Hpq Ht Hw Hsh Ho Hlog. assert (admin_on s) as Hadm by (apply tracked_admin; [done..|lia]).
  assert (setup_start s) as Hss.
  { destruct Ht as [Hto Hte Htl], Hsh as [Hn Hcap], Hw as [Hl Hc Hp Ha]. split; try done; [lia|].
    intros i q Hi Hq. rewrite (Hte i q Hq). apply bool_decide_false. lia. }
  pose proof (setup_io_queues_ok env wq pq s Henv Hpq Hss) as Hp. pose proof (setup_io_mem wq pq s Hpq Hss Hw Hadm) as Hm.
  unfold wp in *. destruct (s_nvme_setup_io_queues env wq pq s) as [r s']. cbn [fst snd] in *. destruct Hp as (rc & -> & Hp), Hm as [Hm Ha].
  split; [done|]. exists rc. split; [done|]. intros ->. specialize (Ha eq_refl).
  destruct Hp as [(Hneg & _)|[(_ & _ & Hlk & _ & Ho' & (E1 & E2 & E3))|(Hok & _)]]; [lia| |].
  - destruct Ht as [Hto Hte Htl]. split; [|lia]. split; [rewrite E2, E3; lia| |done]. rewrite E1, E3. done.
  - pose proof (io_online _ _ _ _ Hok) as Hon. pose proof (io_count _ _ _ _ Hok) as Hct. split; [|lia]. split; [lia| |by apply Hok].
    intros [|i] q Hq; [|by apply (io_enabled _ _ _ _ Hok); [lia|]].
    destruct Ha as (q0 & E0 & Hen). rewrite E0 in Hq. simplify_eq. rewrite Hen. symmetry. apply bool_decide_true. lia.
Qed.

(** ** The admin queue *)

Lemma tracked_enab s s' :
  tracked s → enab s' = enab s → nd_of s' = nd_of s → shutdown_locked (the_dev s') = shutdown_locked (the_dev s) →
  queue_count (the_dev s) ≤ queue_count (the_dev s') → tracked s'.
Proof.
  intros [Ho He Hl] Ee En El Hc. split; [rewrite En; lia| |congruence]. intros i q Hq. rewrite En.
  assert (enab s !! i = Some (ioq_enabled q)) as Hi by (rewrite <- Ee; unfold enab; by rewrite list_lookup_fmap, Hq).
  unfold enab in Hi. rewrite list_lookup_fmap in Hi. destruct (io_queues (the_dev s) !! i) as [q0|] eqn:E0; [|done].
  injection Hi as <-. by apply He.
Qed.

(** Its memory is taken the first time only. *)
Lemma alloc_first depth s :
  mem_wf s → shares s → tracked s →
  wp (nvme_alloc_queue env 0 depth) (λ r s', mem_kept s s' ∧ tracked s' ∧ nd_of s' = nd_of s
    ∧ queue_count (the_dev s') ≤ Z.max 1 (queue_count (the_dev s))
    ∧ ∃ rc, r = Ok rc ∧ (rc = 0 → 1 ≤ queue_count (the_dev s'))) s.
Proof.
  intros Hw [Hn _] Ht. pose proof (mw_count s Hw) as Hc. destruct (decide (queue_count (the_dev s) = 0)) as [E0|E0].
  - change 0 with (Z.of_nat 0) at 1. eapply wp_mono; [apply alloc_queue_mem; [done|lia|done]|].
    intros r s' (Hw' & He & En & El & Eb & rc & -> & _ & Ec). split_and!; [|by apply (tracked_enab s); try done; case_bool_decide; lia|done|case_bool_decide; lia|].
    + split_and!; [done|by rewrite En|by rewrite En|by rewrite Eb].
    + exists rc. split; [done|]. intros ->. rewrite bool_decide_true in Ec by done. lia.
  - destruct (lookup_lt_is_Some_2 (io_queues (the_dev s)) 0) as [q E]; [pose proof (mw_len s Hw); lia|].
    unfold nvme_alloc_queue. apply wp_bind. change 0 with (Z.of_nat 0) at 1. eapply wp_eq; [by apply get_ioq_eq|].
    apply wp_bind, wp_gets. cbn [id]. rewrite bool_decide_true by lia. apply wp_ret. split_and!; [reflexivity|done|done|lia|].
    exists 0. split; [done|lia].
Qed.

Lemma admin_online_ok (lenv : life_env) s :
  mem_wf s → shares s → tracked s → online_queues (nd_of s) = 0 → 1 ≤ queue_count (the_dev s) →
  wp (admin_online lenv) (λ r s', mem_kept s s' ∧ queue_count (the_dev s') = queue_count (the_dev s)
    ∧ ∃ rc, r = Ok rc ∧ (rc = 0 → tracked s' ∧ online_queues (nd_of s') = 1)) s.
Proof.
  intros Hw [Hn _] Ht Ho Hc. destruct (lookup_lt_is_Some_2 (io_queues (the_dev s)) 0) as [q E]; [pose proof (mw_len s Hw); lia|].
  unfold admin_online. change 0 with (Z.of_nat 0) at 1 3 5. apply wp_bind. eapply wp_eq; [by apply upd_ioq_eq|].
  set (s1 := s <| the_dev ::= _ |>). assert (mem_kept s s1) as W1.
  { split_and!; [|done..]. intros _. by eapply mem_wf_upd. }
  apply wp_bind, wp_modify. set (s2 := s1 <| the_dev ::= _ |>).
  assert (mem_kept s s2) as W2.
  { etrans; [exact W1|]. refine (mem_of _ (kept_nd (λ nd, nd <| online_queues ::= Z.add 1 |>) _) s1). by intros []. }
  unfold queue_request_irq. apply wp_bind, wp_bind, wp_ask. intros rc. apply wp_bind, wp_modify, wp_ret.
  set (s3 := s2 <| io_clock ::= S |> <| io_log ::= _ |>). assert (mem_kept s s3) as W3 by (etrans; [exact W2|by apply kept_same]).
  case_bool_decide as Hrc; cbn [negb].
  - apply wp_bind. eapply wp_eq.
    { apply (upd_ioq_eq 0 (q <| ioq_vector := 0 |>)). cbn. apply list_lookup_insert_eq. by eapply lookup_lt_Some. }
    apply wp_ret. split_and!; [|done|].
    + etrans; [exact W3|]. split_and!; [|done..]. intros Hw3. eapply mem_wf_upd; [exact Hw3| |].
      * cbn. apply list_lookup_insert_eq. by eapply lookup_lt_Some.
      * done.
    + exists rc. split; [done|]. intros _. assert (online_queues (nd_of s3) = 1) as O3 by (change (1 + online_queues (nd_of s) = 1); lia).
      destruct Ht as [Hto Hte Htl]. split; [|exact O3]. split; [change (0 ≤ online_queues (nd_of s3) ≤ queue_count (the_dev s)); lia| |exact Htl].
      intros i x Hi. change (nd_of _) with (nd_of s3). rewrite O3. cbn in Hi. rewrite list_insert_insert_eq in Hi. destruct i as [|i].
      * rewrite list_lookup_insert_eq in Hi by (by eapply lookup_lt_Some). by simplify_eq.
      * rewrite list_lookup_insert_ne in Hi by done. rewrite (Hte _ _ Hi), Ho. apply bool_decide_ext. lia.
  - apply wp_bind, wp_modify, wp_ret. split_and!; [|done|by exists rc].
    etrans; [exact W3|]. refine (mem_of _ (kept_nd (λ nd, nd <| online_queues ::= λ n, n - 1 |>) _) s3). by intros [].
Qed.

(** ** Suspension *)

Lemma suspend_one i s :
  mem_wf s → Z.of_nat i < nr_allocated_queues (nd_of s) →
  wp (nvme_suspend_queue (Z.of_nat i)) (λ r s', r = Ok tt ∧ mem_kept s s' ∧ queue_count (the_dev s') = queue_count (the_dev s)
    ∧ (tracked s → online_queues (nd_of s) ≤ Z.of_nat i + 1 → tracked s' ∧ online_queues (nd_of s') ≤ Z.of_nat i)) s.
Proof.
  intros Hw Hi. pose proof (mem_suspend_queue (Z.of_nat i) s) as Hk. unfold wp.
  destruct (lookup_lt_is_Some_2 (io_queues (the_dev s)) i) as [q E]; [pose proof (mw_len s Hw); lia|].
  unfold nvme_suspend_queue in *. rewrite (bind_ok _ _ _ _ _ (get_ioq_eq _ _ _ E)) in Hk |- *.
  destruct (ioq_enabled q) eqn:Hq; cbn [negb] in *.
  - assert (∀ s', (∃ q', ioq_enabled q' = false ∧ io_queues (the_dev s') = <[i := q']> (io_queues (the_dev s)))
      → online_queues (nd_of s') = online_queues (nd_of s) - 1 → queue_count (the_dev s') = queue_count (the_dev s)
      → shutdown_locked (the_dev s') = shutdown_locked (the_dev s)
      → tracked s → online_queues (nd_of s) ≤ Z.of_nat i + 1 → tracked s' ∧ online_queues (nd_of s') ≤ Z.of_nat i) as Hend.
    { intros s' (q' & Hq' & Eq) Eo Ec El [Hto Hte Htl] Hle. pose proof (Hte i q E) as Hi'. rewrite Hq in Hi'.
      symmetry in Hi'. apply bool_decide_eq_true in Hi'. split; [|lia]. split; [lia| |congruence]. rewrite Eq, Eo. intros j x Hj.
      destruct (decide (i = j)) as [->|Hne].
      - rewrite list_lookup_insert_eq in Hj by (by eapply lookup_lt_Some). simplify_eq. rewrite Hq'. symmetry. apply bool_decide_false. lia.
      - rewrite list_lookup_insert_ne in Hj by done. rewrite (Hte j x Hj). apply bool_decide_ext. lia. }
    rewrite (bind_ok _ _ _ _ _ (upd_ioq_eq i q _ s E)) in Hk |- *. unfold upd_nd, upd_dev in Hk |- *. rewrite bind_modify in Hk |- *. destruct (ioq_polled q).
    + rewrite (upd_ioq_eq i (q <| ioq_enabled := false |>)) in Hk |- * by (apply list_lookup_insert_eq; by eapply lookup_lt_Some).
      split_and!; [done|exact Hk|done|]. apply Hend; try done. eexists. split; [|cbn; by rewrite list_insert_insert_eq]. done.
    + split_and!; [done|exact Hk|done|]. apply Hend; try done. eexists. split; [|reflexivity]. done.
  - split_and!; [done|exact Hk|done|]. intros Ht Hle. split; [done|]. pose proof (tr_enabled s Ht i q E) as Hi'. rewrite Hq in Hi'.
    symmetry in Hi'. apply bool_decide_eq_false in Hi'. change (online_queues (nd_of s) ≤ Z.of_nat i). lia.
Qed.

Lemma suspend_many n s :
  mem_wf s → Z.of_nat n < nr_allocated_queues (nd_of s) →
  wp (for_each (λ i, nvme_suspend_queue (Z.of_nat i)) (rev (seq 1 n))) (λ r s', r = Ok tt ∧ mem_kept s s'
    ∧ queue_count (the_dev s') = queue_count (the_dev s)
    ∧ (tracked s → online_queues (nd_of s) ≤ Z.of_nat n + 1 → tracked s' ∧ online_queues (nd_of s') ≤ 1)) s.
Proof.
  revert s. induction n as [|n IH]; intros s Hw Hn.
  { apply wp_ret. split_and!; [done|reflexivity|done|]. intros Ht Ho. split; [done|lia]. }
  rewrite seq_S, rev_app_distr. cbn [rev app for_each]. apply wp_bind. eapply wp_mono; [apply (suspend_one (1 + n) s Hw); lia|].
  intros r s1 (-> & W1 & C1 & T1). pose proof W1 as (Hw1 & E1 & _).
  eapply wp_mono; [apply (IH s1 (Hw1 Hw)); rewrite E1; lia|]. intros r s2 (-> & W2 & C2 & T2).
  split_and!; [done|by etrans|congruence|]. intros Ht Ho. destruct (T1 Ht) as [Ht1 Ho1]; [lia|]. apply T2; [done|lia].
Qed.

Lemma suspend_io s :
  mem_wf s → shares s →
  wp nvme_suspend_io_queues (λ r s', r = Ok tt ∧ mem_kept s s' ∧ queue_count (the_dev s') = queue_count (the_dev s)
    ∧ (tracked s → tracked s' ∧ online_queues (nd_of s') ≤ 1)) s.
Proof.
  intros Hw [Hn _]. pose proof (mw_count s Hw). unfold nvme_suspend_io_queues. apply wp_bind, wp_gets. cbn [id].
  eapply wp_mono; [apply suspend_many; [done|lia]|]. intros r s' (-> & W & C & T). split_and!; [done..|].
  intros Ht. apply T; [done|]. pose proof (tr_online s Ht). lia.
Qed.

(** ** Release *)

Lemma free_queue_one i s :
  mem_wf s → queue_count (the_dev s) = Z.of_nat i + 1 →
  ∃ s', (upd_dev (λ d, d <| queue_count ::= λ n, n - 1 |>);; nvme_free_queue i) s = (Ok tt, s') ∧ mem_wf s'
    ∧ queue_count (the_dev s') = Z.of_nat i ∧ nd_of s' = nd_of s
    ∧ irq_vectors (the_dev s') = irq_vectors (the_dev s) ∧ bar_mapped (the_dev s') = bar_mapped (the_dev s)
    ∧ (tracked s → online_queues (nd_of s) ≤ Z.of_nat i → tracked s').
Proof.
  intros [Hl Hc Hp Ha] Hi. destruct (lookup_lt_is_Some_2 (io_queues (the_dev s)) i) as [q E]; [lia|].
  pose proof (Ha i q E) as Hq. rewrite bool_decide_true in Hq by lia. unfold upd_dev. rewrite bind_modify. unfold nvme_free_queue.
  set (s1 := s <| the_dev ::= _ |>). assert (io_queues (the_dev s1) !! i = Some q) as E1 by done.
  rewrite (bind_ok _ _ _ _ _ (get_ioq_eq _ _ _ E1)), Hq, (upd_ioq_eq _ _ _ _ E1). eexists. split; [done|].
  assert (queue_count (the_dev s1) = Z.of_nat i) as Ec by (change (queue_count (the_dev s1)) with (queue_count (the_dev s) - 1); lia).
  split_and!; [split|exact Ec|done|done|done|].
  - cbn. rewrite length_insert. exact Hl.
  - change (0 ≤ queue_count (the_dev s1) ≤ nr_allocated_queues (nd_of s)). lia.
  - exact Hp.
  - intros j x Hj. change (queue_count _) with (queue_count (the_dev s1)). rewrite Ec. cbn in Hj. destruct (decide (i = j)) as [->|Hne].
    + rewrite list_lookup_insert_eq in Hj by (by eapply lookup_lt_Some). simplify_eq. cbn. by rewrite bool_decide_false by lia.
    + rewrite list_lookup_insert_ne in Hj by done. rewrite (Ha j x Hj). apply bool_decide_ext. lia.
  - intros [Hto Hte Htl] Ho. split; [change (queue_count _) with (queue_count (the_dev s1)); rewrite Ec; cbn; unfold nd_of in *; lia| |exact Htl].
    intros j x Hj. cbn in Hj. destruct (decide (i = j)) as [->|Hne].
    + rewrite list_lookup_insert_eq in Hj by (by eapply lookup_lt_Some). simplify_eq. apply (Hte j q E).
    + rewrite list_lookup_insert_ne in Hj by done. apply (Hte j x Hj).
Qed.

Lemma free_many n lo s :
  mem_wf s → queue_count (the_dev s) = Z.of_nat (lo + n) →
  ∃ s', for_each (λ i, upd_dev (λ d, d <| queue_count ::= λ n, n - 1 |>);; nvme_free_queue i) (rev (seq lo n)) s = (Ok tt, s')
    ∧ mem_wf s' ∧ queue_count (the_dev s') = Z.of_nat lo ∧ nd_of s' = nd_of s
    ∧ irq_vectors (the_dev s') = irq_vectors (the_dev s) ∧ bar_mapped (the_dev s') = bar_mapped (the_dev s)
    ∧ (tracked s → online_queues (nd_of s) ≤ Z.of_nat lo → tracked s').
Proof.
  revert s. induction n as [|n IH]; intros s Hw Hc; [exists s; split_and!; try done; lia|].
  rewrite seq_S, rev_app_distr. cbn [rev app for_each]. destruct (free_queue_one (lo + n) s Hw) as (s1 & E1 & W1 & C1 & N1 & I1 & B1 & T1); [lia|].
  rewrite (bind_ok _ _ _ _ _ E1). destruct (IH s1 W1 C1) as (s2 & E2 & W2 & C2 & N2 & I2 & B2 & T2). exists s2.
  split_and!; [done..|congruence|congruence|congruence|]. intros Ht Ho. apply T2; [apply T1; [done|lia]|by rewrite N1].
Qed.

(** Everything from [lowest] on is given back. *)
Lemma free_queues_ok lowest s :
  mem_wf s → 0 ≤ lowest ≤ queue_count (the_dev s) →
  ∃ s', nvme_free_queues lowest s = (Ok tt, s') ∧ mem_wf s' ∧ queue_count (the_dev s') = lowest ∧ nd_of s' = nd_of s
    ∧ irq_vectors (the_dev s') = irq_vectors (the_dev s) ∧ bar_mapped (the_dev s') = bar_mapped (the_dev s)
    ∧ (tracked s → online_queues (nd_of s) ≤ lowest → tracked s').
Proof.
  intros Hw Hl. unfold nvme_free_queues. rewrite bind_gets. cbn [id].
  destruct (free_many (Z.to_nat (queue_count (the_dev s)) - Z.to_nat lowest) (Z.to_nat lowest) s Hw) as (s' & E & W & C & N & I & B & T); [lia|].
  exists s'. rewrite Z2Nat.id in C by lia. rewrite Z2Nat.id in T by lia. by split_and!.
Qed.

End online.
