(* ===== verification/PciLifeSpec.v ===== *)
(** * PciLifeSpec: what a device holds at every point of its life

    The invariant of a bound device and, for each operation of [PciLife], the
    change it makes to what is held: operations never release what they do
    not hold, never take a thing twice and never read a register through an
    unmapped BAR. *)
From S2P Require Import Prelude.
From S2P Require Import Uapi.
From S2P Require Import Kernel.
From S2P Require Import PciData.
From S2P Require Import PciSetup.
From S2P Require Import PciSetupSpec.
From S2P Require Import PciHmb.
From S2P Require Import PciHmbSpec.
From S2P Require Import CoreCtrl.
From S2P Require Import CoreCtrlSpec.
From S2P Require Import PciLife.
From S2P Require Import PciLifeIo.
From S2P Require Import PciOnline.

Implicit Types s : life.

(** ** What is held *)

Definition opt_res (b : bool) (X : gset resource) : gset resource := if b then X else ∅.

Definition dev_set : gset resource := {[RDev; RQueues; RDevice; RCtrl]}.
Definition base_set : gset resource := dev_set ∪ {[RRegions; RPrpPage; RPrpSmall; RIod]}.

(** [p]: enabled on the bus; [a], [t]: admin and I/O tag sets; [d]: doorbell
    buffers; [v]: driver data. *)
Definition hset (p a t d v : bool) : gset resource :=
  base_set ∪ opt_res p {[RPci]} ∪ opt_res a {[RAdminTags]} ∪ opt_res t {[RIoTags]}
    ∪ opt_res d {[RDbs; REis]} ∪ opt_res v {[RDrvdata]}.

(** Facts of the sixteen-odd sets, by evaluation. *)
Ltac sets := repeat match goal with b : bool |- _ => destruct b end; vm_compute; first [done|reflexivity].

Lemma hset_pci p a t d v : bool_decide (RPci ∈ hset p a t d v) = p.
Proof. sets. Qed.
Lemma hset_tags p a t d v : bool_decide (RIoTags ∈ hset p a t d v) = t.
Proof. sets. Qed.
Lemma hset_dbs p a t d v : bool_decide (RDbs ∈ hset p a t d v) = d.
Proof. sets. Qed.
Lemma hset_drop_pci a t d v : hset true a t d v ∖ {[RPci]} = hset false a t d v.
Proof. sets. Qed.
Lemma hset_add_pci a t d v : {[RPci]} ∪ hset false a t d v = hset true a t d v.
Proof. sets. Qed.
Lemma hset_drop_tags p a d v : hset p a true d v ∖ {[RIoTags]} = hset p a false d v.
Proof. sets. Qed.
Lemma hset_drop_dbs p a t v : hset p a t true v ∖ {[RDbs]} ∖ {[REis]} = hset p a t false v.
Proof. sets. Qed.
Lemma hset_add_dbs p a t v : {[REis]} ∪ ({[RDbs]} ∪ hset p a t false v) = hset p a t true v.
Proof. sets. Qed.
Lemma hset_drop_admin p t d v : hset p true t d v ∖ {[RAdminTags]} = hset p false t d v.
Proof. sets. Qed.

(** ** Steps *)

Lemma wp_in_io {A} (m : M iostate A) (Q : outcome A → life → Prop) s :
  wp m (λ r x, Q r (s <| lf_io := x |>)) (lf_io s) → wp (in_io m) Q s.
Proof. unfold wp, in_io. by destruct (m (lf_io s)). Qed.
Lemma wp_in_ctrl {A} (m : CM A) (Q : outcome A → life → Prop) s :
  wp m (λ r x, Q r (s <| lf_ctrl := x |>)) (lf_ctrl s) → wp (in_ctrl m) Q s.
Proof. unfold wp, in_ctrl. by destruct (m (lf_ctrl s)). Qed.
Lemma wp_in_hmb {A} (m : M hmb_state A) (Q : outcome A → life → Prop) s :
  wp m (λ r x, Q r (s <| lf_hmb := x |>)) (lf_hmb s) → wp (in_hmb m) Q s.
Proof. unfold wp, in_hmb. by destruct (m (lf_hmb s)). Qed.

Lemma wp_lask {A} (f : nat → A) (Q : outcome A → life → Prop) s :
  (∀ a, Q (Ok a) (s <| lf_clock ::= S |>)) → wp (lask f) Q s.
Proof. intros H. apply H. Qed.
Lemma wp_acquire r (Q : outcome unit → life → Prop) s :
  bool_decide (r ∈ lf_held s) = false → Q (Ok tt) (s <| lf_held ::= ({[r]} ∪.) |>) → wp (acquire r) Q s.
Proof. intros E H. unfold acquire. apply wp_bind, wp_gets. cbn [id]. rewrite E. by apply wp_modify. Qed.
Lemma wp_release r (Q : outcome unit → life → Prop) s :
  bool_decide (r ∈ lf_held s) = true → Q (Ok tt) (s <| lf_held ::= (.∖ {[r]}) |>) → wp (release r) Q s.
Proof. intros E H. unfold release. apply wp_bind, wp_gets. cbn [id]. rewrite E. by apply wp_modify. Qed.
Lemma wp_holds r (Q : outcome bool → life → Prop) s : Q (Ok (bool_decide (r ∈ lf_held s))) s → wp (holds r) Q s.
Proof. intros H. exact H. Qed.
Lemma wp_release_held r (Q : outcome unit → life → Prop) s :
  Q (Ok tt) (if bool_decide (r ∈ lf_held s) then s <| lf_held ::= (.∖ {[r]}) |> else s) → wp (release_held r) Q s.
Proof.
  intros H. unfold release_held. apply wp_bind, wp_holds. destruct (bool_decide (r ∈ lf_held s)) eqn:E; [|by apply wp_ret].
  cbn [when]. by apply wp_release.
Qed.
Lemma wp_reg_read {A} (f : nat → A) (Q : outcome A → life → Prop) s :
  bar_mapped (the_dev (lf_io s)) = true → (∀ a, Q (Ok a) (s <| lf_clock ::= S |>)) → wp (reg_read f) Q s.
Proof. intros E H. unfold reg_read. apply wp_bind, wp_gets. cbn [id]. rewrite E. by apply wp_lask. Qed.

(** Releases and acquisitions on a known set. *)
Ltac held_sets := cbn; repeat match goal with H : lf_held _ = _ |- _ => rewrite H end; clear; sets.
Ltac give := apply wp_release; [held_sets|].
Ltac take := apply wp_acquire; [held_sets|].

(** ** The invariant *)

Record bound_ok (lim : hmb_limits) (p a t d v : bool) (n : Z) s : Prop := {
  bo_held : lf_held s = hset p a t d v;
  bo_admin : bool_decide (lf_admin s = AdminLive) = a;
  bo_tags : nc_tagset (lf_ctrl s) = t;
  bo_refs : nc_refs (lf_ctrl s) = n;
  bo_mem : mem_wf (lf_io s);
  bo_shares : shares (lf_io s);
  bo_bar : p = true → bar_mapped (the_dev (lf_io s)) = true;
  bo_hmb : hmb_inv lim (lf_hmb s);
}.

Definition core s :=
  (lf_held s, lf_admin s, (nc_tagset (lf_ctrl s), nc_refs (lf_ctrl s)), lf_io s, lf_hmb s).

Lemma bound_core lim p a t d v n s s' : core s' = core s → bound_ok lim p a t d v n s → bound_ok lim p a t d v n s'.
Proof. intros [= E1 E2 E3 E4 E5 E6] []. split; by rewrite ?E1, ?E2, ?E3, ?E4, ?E5, ?E6. Qed.

(** Changes outside what the invariant is about. *)
Ltac bframe H := eapply bound_core; [|exact H]; reflexivity.

(** The state machine: deletion is final, and no controller is new again. *)
Definition st_step (c c' : nvme_ctrl) : Prop :=
  nc_tagset c' = nc_tagset c ∧ nc_refs c' = nc_refs c
  ∧ (nc_state c ≠ NVME_CTRL_NEW → nc_state c' ≠ NVME_CTRL_NEW)
  ∧ (nvme_state_terminal (nc_state c) = true → nvme_state_terminal (nc_state c') = true).

#[export] Instance st_step_preorder : PreOrder st_step.
Proof.
  split; [by intros c|]. intros c1 c2 c3 (A1 & B1 & C1 & D1) (A2 & B2 & C2 & D2). split_and!; [congruence|congruence|auto..].
Qed.

(** Every call of the state machine ends, and is such a step. *)
Lemma change_wp st c :
  wp (snvme_change_ctrl_state st) (λ r c', st_step c c' ∧ r = Ok (state_change_allowed (nc_state c) st)
    ∧ nc_state c' = next_state (nc_state c) st) c.
Proof.
  destruct (change_ctrl_state_result st c) as (c' & E & Hs & _ & _ & Hr & _ & Ht). eapply wp_eq; [exact E|]. split; [|done].
  split_and!; [done..| |].
  - rewrite Hs. by destruct (nc_state c), st.
  - rewrite Hs. apply terminal_next.
Qed.

Lemma changes_wp l c : wp (for_each (λ st, snvme_change_ctrl_state st;; mret tt) l) (λ r c', st_step c c' ∧ r = Ok tt) c.
Proof.
  revert c. induction l as [|st l IH]; intros c; [by apply wp_ret|]. cbn [for_each]. apply wp_bind, wp_bind.
  eapply wp_mono; [apply change_wp|]. intros r c1 (H1 & -> & _). apply wp_ret. eapply wp_mono; [apply IH|].
  intros r c2 [H2 ->]. split; [by etrans|done].
Qed.

Lemma wait_reset_wp l c :
  wp (snvme_wait_reset l) (λ r c', st_step c c' ∧ ∃ o, r = Ok o ∧ (o = Some true → nc_state c' = NVME_CTRL_RESETTING)) c.
Proof.
  revert c. induction l as [|st l IH]; intros c; cbn [snvme_wait_reset].
  all: apply wp_bind; eapply wp_mono; [apply change_wp|]; intros r c1 (H1 & -> & _); apply wp_bind, wp_gets; cbn [id].
  all: destruct (_ || _); [apply wp_ret; split; [done|]; eexists; split; [done|]; intros [= E%bool_decide_eq_true]; done|].
  - apply wp_ret. split; [done|]. by exists None.
  - apply wp_bind. eapply wp_mono; [apply change_wp|]. intros r c2 (H2 & -> & _). eapply wp_mono; [apply IH|].
    intros r c3 (H3 & Ho). split; [|done]. do 2 (etrans; [eassumption|]). done.
Qed.

(** What a change of state by this thread leaves alone: everything but the
    state. *)
Definition quiet_life s s' : Prop :=
  lf_held s' = lf_held s ∧ lf_admin s' = lf_admin s ∧ lf_io s' = lf_io s ∧ lf_hmb s' = lf_hmb s ∧ lf_cc_enable s' = lf_cc_enable s
  ∧ st_step (lf_ctrl s) (lf_ctrl s').

#[export] Instance quiet_life_preorder : PreOrder quiet_life.
Proof.
  split; [by intros s|]. intros s1 s2 s3 (A1 & B1 & C1 & D1 & E1 & F1) (A2 & B2 & C2 & D2 & E2 & F2).
  split_and!; [congruence..|by etrans].
Qed.

Lemma bound_quiet lim p a t d v n s s' : quiet_life s s' → bound_ok lim p a t d v n s → bound_ok lim p a t d v n s'.
Proof.
  intros (E1 & E2 & E3 & E4 & _ & (E5 & E6 & _)). apply bound_core. unfold core. by rewrite E1, E2, E3, E4, E5, E6.
Qed.

Section ops.
Context (cfg : life_cfg) (env : life_env).
Abbreviation lim := (lc_hmb cfg).

Lemma change_state_ok st s :
  wp (change_state env st) (λ r s', quiet_life s s' ∧ ∃ old, r = Ok (state_change_allowed old st)
    ∧ nc_state (lf_ctrl s') = next_state old st
    ∧ (nc_state (lf_ctrl s) ≠ NVME_CTRL_NEW → old ≠ NVME_CTRL_NEW)
    ∧ (nvme_state_terminal (nc_state (lf_ctrl s)) = true → nvme_state_terminal old = true)) s.
Proof.
  unfold change_state. apply wp_bind, wp_lask. intros l. apply wp_bind, wp_in_ctrl. eapply wp_mono; [apply changes_wp|].
  intros r c1 [H1 ->]. apply wp_in_ctrl. eapply wp_mono; [apply change_wp|]. intros r c2 (H2 & -> & E2).
  split; [split_and!; [done..|]; by etrans|]. exists (nc_state c1). split_and!; [done|done|apply H1|apply H1].
Qed.

(** Flags and the clock aside, nothing changes. *)
Definition still s s' : Prop :=
  lf_held s' = lf_held s ∧ lf_admin s' = lf_admin s ∧ lf_io s' = lf_io s ∧ lf_hmb s' = lf_hmb s ∧ lf_cc_enable s' = lf_cc_enable s
  ∧ lf_ctrl s' = lf_ctrl s.

Lemma still_core s s' : still s s' → core s' = core s.
Proof. intros (E1 & E2 & E3 & E4 & _ & E6). unfold core. by rewrite E1, E2, E3, E4, E6. Qed.

Lemma quiesce_io_still s : wp quiesce_io (λ r s', r = Ok tt ∧ still s s') s.
Proof. unfold quiesce_io. apply wp_bind, wp_gets. apply wp_when; [intros _; by apply wp_modify|done]. Qed.
Lemma unquiesce_io_still s : wp unquiesce_io (λ r s', r = Ok tt ∧ still s s') s.
Proof. unfold unquiesce_io. apply wp_bind, wp_gets. apply wp_when; [intros _; by apply wp_modify|done]. Qed.

Lemma inv_forget h : hmb_inv lim h → hmb_inv lim (h <| hm_view := None |>).
Proof. intros [[l Hr] _ _]. apply (inv_no_view lim l); [|done]. by eapply rep_clock. Qed.

Lemma is_dead_ok p a t d v n s :
  bound_ok lim p a t d v n s →
  wp (nvme_pci_ctrl_is_dead env) (λ r s', still s s' ∧ ∃ dead, r = Ok dead ∧ (dead = false → p = true)) s.
Proof.
  intros H. unfold nvme_pci_ctrl_is_dead. apply wp_bind, wp_holds. rewrite (bo_held _ _ _ _ _ _ _ _ H), hset_pci.
  pose proof (bo_bar _ _ _ _ _ _ _ _ H) as Hb. destruct p; cbn [negb]; [|apply wp_ret; split; [done|]; by exists true].
  apply wp_bind, wp_lask. intros []; [apply wp_ret; split; [done|]; by exists true|].
  apply wp_bind, wp_reg_read; [by apply Hb|]. intros csts. apply wp_ret. split; [done|]. by eexists.
Qed.

(** The controller is told to stop; it no longer uses the host memory buffer. *)
Lemma disable_ctrl_ok p a t d v n sh s :
  bound_ok lim p a t d v n s → bar_mapped (the_dev (lf_io s)) = true →
  wp (disable_ctrl env sh) (λ r s', (∃ rc, r = Ok rc) ∧ bound_ok lim p a t d v n s' ∧ lf_ctrl s' = lf_ctrl s
    ∧ lf_io s' = lf_io s ∧ hm_view (lf_hmb s') = None) s.
Proof.
  intros [] Hb. unfold disable_ctrl, forget_buffer. apply wp_bind, wp_modify, wp_bind, wp_in_hmb, wp_modify.
  apply wp_reg_read; [by destruct sh|]. intros rc. split; [by exists rc|].
  destruct sh; (split_and!; [split; [done..|by apply inv_forget]|done..]).
Qed.

(** Replacing the queue state by one it may become. *)
Lemma bound_io p a t d v n s x :
  bound_ok lim p a t d v n s → mem_kept (lf_io s) x → bound_ok lim p a t d v n (s <| lf_io := x |>).
Proof.
  intros [] Hk. split; try done; [by apply Hk|by eapply shares_kept|]. intros Hp. by apply Hk, bo_bar0.
Qed.

Lemma tracked_same (x y : iostate) : the_dev y = the_dev x → tracked x ↔ tracked y.
Proof. intros E. split; intros []; split; unfold nd_of in *; first [rewrite E|rewrite <- E]; done. Qed.

(** How nvme_dev_disable ends. *)
Definition disabled p a t d v n s s' : Prop :=
  bound_ok lim p a t d v n s' ∧ lf_ctrl s' = lf_ctrl s ∧ mem_kept (lf_io s) (lf_io s')
  ∧ queue_count (the_dev (lf_io s')) = queue_count (the_dev (lf_io s)).

Lemma disabled_still p a t d v n s s1 s2 : disabled p a t d v n s s1 → still s1 s2 → disabled p a t d v n s s2.
Proof.
  intros (H & Ec & Hm & Hq) Hs. pose proof (still_core _ _ Hs) as Hc. destruct Hs as (_ & _ & Ei & _ & _ & El).
  unfold disabled. rewrite Ei, El. split_and!; try done. by eapply bound_core.
Qed.

Lemma disabled_refl p a t d v n s : bound_ok lim p a t d v n s → disabled p a t d v n s s.
Proof. intros H. unfold disabled. split_and!; [done|done|reflexivity|done]. Qed.

Lemma get_admin_ok s :
  mem_wf (lf_io s) → shares (lf_io s) → wp (in_io (get_ioq 0)) (λ r s', ∃ q, r = Ok q ∧ s' = s <| lf_io := lf_io s |>) s.
Proof.
  intros Hw [Hn _]. destruct (lookup_lt_is_Some_2 (io_queues (the_dev (lf_io s))) 0) as [q E]; [pose proof (mw_len _ Hw); lia|].
  apply wp_in_io. change 0 with (Z.of_nat 0). eapply wp_eq; [by apply get_ioq_eq|]. by exists q.
Qed.

(** Up to the suspension of the queues. *)
Lemma stop_io_ok p a t d v n (dead sh : bool) s :
  bound_ok lim p a t d v n s → (dead = false → p = true) →
  wp (when (negb dead && bool_decide (0 < queue_count (the_dev (lf_io s))))
        (in_io (nvme_delete_io_queues (le_io env));; disable_ctrl env sh;; mret tt))
    (λ r s', r = Ok tt ∧ disabled p a t d v n s s' ∧ the_dev (lf_io s') = the_dev (lf_io s)) s.
Proof.
  intros H Hd. apply wp_when; [intros E%andb_true_iff|intros _; split_and!; [done|by apply disabled_refl|done]].
  assert (bar_mapped (the_dev (lf_io s)) = true) as Hb by (apply (bo_bar _ _ _ _ _ _ _ _ H), Hd; by destruct dead, E).
  apply wp_bind, wp_in_io. eapply wp_mono; [apply delete_io_dev|]. intros r x [-> Ex].
  assert (mem_kept (lf_io s) x) as Hk by (by apply kept_same). pose proof (bound_io _ _ _ _ _ _ _ _ H Hk) as H1.
  apply wp_bind. eapply wp_mono; [apply (disable_ctrl_ok _ _ _ _ _ _ sh _ H1); cbn; by rewrite Ex|].
  intros r s2 ([rc ->] & H2 & Ec & Ei & _). apply wp_ret.
  split_and!; [done| |by rewrite Ei]. unfold disabled. rewrite Ei, Ec. cbn. by rewrite Ex.
Qed.

Lemma suspend_first x :
  mem_wf x → shares x →
  wp (nvme_suspend_queue 0) (λ r x', r = Ok tt ∧ mem_kept x x' ∧ queue_count (the_dev x') = queue_count (the_dev x)
    ∧ (tracked x → online_queues (nd_of x) ≤ 1 → tracked x' ∧ online_queues (nd_of x') = 0)) x.
Proof.
  intros Hw [Hn _]. change 0 with (Z.of_nat 0) at 1. eapply wp_mono; [apply suspend_one; [done|lia]|].
  intros r x' (-> & Hm & Hq & Ht). split_and!; [done..|]. intros H1 H2. destruct (Ht H1) as [H3 H4]; [lia|].
  split; [done|]. pose proof (tr_online x' H3). lia.
Qed.

(** The device is taken off the bus. *)
Lemma cut_off_ok p a t d v n s :
  bound_ok lim p a t d v n s →
  wp (in_io (upd_dev (λ d, d <| irq_vectors := false |>));; release_held RPci;; forget_buffer)
    (λ r s', r = Ok tt ∧ disabled false a t d v n s s' ∧ hm_view (lf_hmb s') = None
      ∧ irq_vectors (the_dev (lf_io s')) = false
      ∧ (tracked (lf_io s) → tracked (lf_io s')) ∧ nd_of (lf_io s') = nd_of (lf_io s)) s.
Proof.
  intros H. apply wp_bind, wp_in_io, wp_modify. set (s1 := s <| lf_io := _ |>).
  assert (mem_kept (lf_io s) (lf_io s1)) as Hk by (by apply (mem_dev (lf_io s) (λ d, d <| irq_vectors := false |>))).
  assert (bound_ok lim p a t d v n s1) as H1 by (exact (bound_io _ _ _ _ _ _ _ _ H Hk)).
  assert (tracked (lf_io s) → tracked (lf_io s1)) as Ht by (intros []; by split).
  apply wp_bind, wp_release_held. rewrite (bo_held _ _ _ _ _ _ _ _ H1), hset_pci.
  assert (∀ s2, bound_ok lim false a t d v n s2 → lf_ctrl s2 = lf_ctrl s1 → lf_io s2 = lf_io s1 →
    wp forget_buffer (λ r s', r = Ok tt ∧ disabled false a t d v n s s' ∧ hm_view (lf_hmb s') = None
      ∧ irq_vectors (the_dev (lf_io s')) = false
      ∧ (tracked (lf_io s) → tracked (lf_io s')) ∧ nd_of (lf_io s') = nd_of (lf_io s)) s2) as Hend.
  { intros s2 H2 E2 F2. apply wp_in_hmb, wp_modify. cbn. split; [done|]. unfold disabled. cbn. rewrite E2, F2.
    destruct H2. split_and!; try done. split; try done. by apply inv_forget. }
  destruct p; [|by apply Hend]. apply Hend; [|done|done]. destruct H1. split; try done. change (lf_held s1 ∖ {[RPci]} = hset false a t d v). by rewrite bo_held0, hset_drop_pci.
Qed.

Lemma wp_assoc3 {A B C} (m1 : LM A) (m2 : LM B) (m3 : LM unit) (k : LM C) Q s :
  wp ((m1;; m2;; m3);; k) Q s → wp (m1;; m2;; m3;; k) Q s.
Proof.
  unfold wp, mbind, M_bind. destruct (m1 s) as [[x|e|f] s1]; [|done..]. by destruct (m2 s1) as [[y|e|f] s2].
Qed.

Lemma dev_disable_ok p a t d v n sh s :
  bound_ok lim p a t d v n s →
  wp (nvme_dev_disable env sh) (λ r s', r = Ok tt ∧ disabled false a t d v n s s' ∧ hm_view (lf_hmb s') = None
    ∧ irq_vectors (the_dev (lf_io s')) = false
    ∧ (tracked (lf_io s) → tracked (lf_io s') ∧ online_queues (nd_of (lf_io s')) = 0)) s.
Proof.
  intros H. unfold nvme_dev_disable. apply wp_bind, wp_gets. cbn [id]. apply wp_bind. eapply wp_mono; [by apply (is_dead_ok p a t d v n)|].
  intros r s1 (Hs1 & dead & -> & Hdead). assert (disabled p a t d v n s s1) as D1 by (by eapply disabled_still; [by apply disabled_refl|]).
  apply wp_bind, wp_holds, wp_bind. set (b := _ && _).
  assert (wp (when b (modify (λ s, s <| lf_frozen := true |>))) (λ r s', r = Ok tt ∧ still s1 s') s1) as Hfr.
  { apply wp_when; [intros _; by apply wp_modify|done]. }
  eapply wp_mono; [exact Hfr|]. intros r s2 [-> Hs2]. pose proof (disabled_still _ _ _ _ _ _ _ _ _ D1 Hs2) as D2.
  apply wp_bind. eapply wp_mono; [apply quiesce_io_still|]. intros r s3 [-> Hs3].
  pose proof (disabled_still _ _ _ _ _ _ _ _ _ D2 Hs3) as D3. assert (lf_io s3 = lf_io s) as E3.
  { destruct Hs1 as (_ & _ & E1 & _), Hs2 as (_ & _ & E2 & _), Hs3 as (_ & _ & E3 & _). congruence. }
  apply wp_bind, wp_gets. cbn [id]. apply wp_bind. eapply wp_mono; [apply (stop_io_ok _ _ _ _ _ _ dead sh s3 (proj1 D3) Hdead)|].
  intros r s4 (-> & (H4 & Ec4 & Hm4 & Hq4) & E4).
  pose proof H4 as [_ _ _ _ Hw4 Hsh4 _ _].
  apply wp_bind, wp_in_io. eapply wp_mono; [by apply suspend_io|]. intros r x5 (-> & Hm5 & Hq5 & Ht5).
  pose proof (bound_io _ _ _ _ _ _ _ _ H4 Hm5) as H5. set (s5 := s4 <| lf_io := x5 |>) in *. pose proof H5 as [_ _ _ _ Hw5 Hsh5 _ _].
  apply wp_bind. eapply wp_mono; [by apply get_admin_ok|]. intros r s5' (q & -> & ->). change (s5 <| lf_io := lf_io s5 |>) with s5.
  apply wp_bind, wp_in_io. eapply wp_mono; [by apply suspend_first|]. intros r x6 (-> & Hm6 & Hq6 & Ht6).
  pose proof (bound_io _ _ _ _ _ _ _ _ H5 Hm6) as H6. set (s6 := s5 <| lf_io := x6 |>) in *.
  apply wp_bind, wp_gets, wp_bind. cbn [id]. set (b' := _ && _).
  assert (wp (when b' quiesce_admin) (λ r s', r = Ok tt ∧ still s6 s') s6) as Hqa.
  { apply wp_when; [intros _; by apply wp_modify|done]. }
  eapply wp_mono; [exact Hqa|]. intros r s7 [-> Hs7].
  assert (bound_ok lim p a t d v n s7) as H7 by (eapply bound_core; [by apply still_core|done]).
  assert (disabled p a t d v n s s7) as D7.
  { destruct Hs7 as (_ & _ & E7 & _ & _ & F7). unfold disabled. rewrite E7, F7. split_and!; [done| | |]; cbn.
    - rewrite Ec4. apply D3.
    - rewrite <- E3. etrans; [exact Hm4|]. etrans; [exact Hm5|exact Hm6].
    - rewrite Hq6. change (lf_io s5) with x5. by rewrite Hq5, Hq4, E3. }
  apply wp_assoc3, wp_bind. eapply wp_mono; [apply (cut_off_ok _ _ _ _ _ _ _ H7)|].
  intros r s8 (-> & (H8 & Ec8 & Hm8 & Hq8) & Hv8 & Hi8 & Ht8 & Hn8).
  assert (disabled false a t d v n s s8 ∧ hm_view (lf_hmb s8) = None ∧ irq_vectors (the_dev (lf_io s8)) = false
    ∧ (tracked (lf_io s) → tracked (lf_io s8) ∧ online_queues (nd_of (lf_io s8)) = 0)) as Hend.
  { destruct D7 as (_ & Ec7 & Hm7 & Hq7). split_and!; [unfold disabled; split_and!; [done|congruence|by etrans|congruence]|done|done|].
    destruct Hs7 as (_ & _ & E7 & _). rewrite Hn8, E7. intros Ht. destruct Ht5 as [Ht5a Ht5b].
    { destruct (tracked_same (lf_io s) (lf_io s4)) as [Ha _]; [congruence|]. by apply Ha. }
    destruct (Ht6 Ht5a Ht5b) as [Ht6a Ht6b]. split; [|done]. apply Ht8. by rewrite E7. }
  apply wp_when; [intros _|done]. apply wp_bind. eapply wp_mono; [apply unquiesce_io_still|]. intros r s9 [-> Hs9].
  apply wp_bind, wp_gets. cbn [id]. set (b9 := bool_decide _).
  assert (wp (when b9 unquiesce_admin) (λ r s', r = Ok tt ∧ still s9 s') s9) as Hua.
  { apply wp_when; [intros _; by apply wp_modify|done]. }
  eapply wp_mono; [exact Hua|]. intros r s10 [-> Hs10]. split; [done|].
  destruct Hend as (D8 & V8 & I8 & T8). pose proof Hs9 as (_ & _ & E9 & F9 & _). pose proof Hs10 as (_ & _ & E10 & F10 & _).
  rewrite E10, F10, E9, F9. split_and!; [|done..]. eapply disabled_still; [|exact Hs10]. by eapply disabled_still.
Qed.

(** ** Enabling *)

Context (Hio : io_env_ok (le_io env)) (Hmap : ∀ n, ie_ioremap (le_io env) n = true).

Lemma remap_ok size x :
  wp (nvme_remap_bar (le_io env) size) (λ r x', mem_kept x x' ∧ (tracked x → tracked x') ∧ nd_of x' = nd_of x
    ∧ queue_count (the_dev x') = queue_count (the_dev x) ∧ irq_vectors (the_dev x') = irq_vectors (the_dev x)
    ∧ io_queues (the_dev x') = io_queues (the_dev x)
    ∧ ∃ rc, r = Ok rc ∧ (rc = 0 → bar_mapped_size (the_dev x) < size → bar_mapped (the_dev x') = true)
        ∧ (rc ≠ 0 → the_dev x' = the_dev x)) x.
Proof.
  pose proof (mem_of _ (kept_remap _ Hmap size) x) as Hk. unfold nvme_remap_bar in *. unfold wp. rewrite bind_gets in *. cbn [id] in *.
  case_bool_decide; [split_and!; try done; exists 0; split_and!; [done|lia|done]|].
  case_bool_decide; [split_and!; try done; by exists (- ENOMEM)|].
  revert Hk. unfold ask, mbind, M_bind, gets, modify, mret, M_ret, upd_dev. cbn. rewrite Hmap. cbn. intros Hk.
  split_and!; try done; [intros []; by split|]. by exists 0.
Qed.

Definition raised_to (o : Z) s s' : Prop :=
  tracked (lf_io s') ∧ online_queues (nd_of (lf_io s')) = o ∧ lf_cc_enable s' = true ∧ hm_view (lf_hmb s') = None.

(** Same device, same state machine; the admin queue's memory at most. *)
Definition onward p a t d v n s s' : Prop :=
  bound_ok lim p a t d v n s' ∧ lf_ctrl s' = lf_ctrl s ∧ mem_kept (lf_io s) (lf_io s')
  ∧ queue_count (the_dev (lf_io s')) ≤ Z.max 1 (queue_count (the_dev (lf_io s))).

Lemma onward_trans p a t d v n p' a' t' d' v' n' s s1 s2 :
  onward p a t d v n s s1 → onward p' a' t' d' v' n' s1 s2 → onward p' a' t' d' v' n' s s2.
Proof. intros (_ & E1 & M1 & Q1) (H2 & E2 & M2 & Q2). split; [done|]. split_and!; [congruence|by etrans|lia]. Qed.

Lemma onward_io p a t d v n s x :
  bound_ok lim p a t d v n s → mem_kept (lf_io s) x → queue_count (the_dev x) ≤ Z.max 1 (queue_count (the_dev (lf_io s))) →
  onward p a t d v n s (s <| lf_io := x |>).
Proof. intros H Hk Hq. split; [by apply bound_io|]. by split_and!. Qed.

Lemma configure_ok a t d v n s :
  bound_ok lim true a t d v n s → tracked (lf_io s) → online_queues (nd_of (lf_io s)) = 0 →
  wp (nvme_pci_configure_admin_queue env) (λ r s', onward true a t d v n s s' ∧ ∃ rc, r = Ok rc ∧ (rc = 0 → raised_to 1 s s')) s.
Proof.
  intros H Ht Ho. unfold nvme_pci_configure_admin_queue. apply wp_bind, wp_gets, wp_bind, wp_in_io. cbn [id].
  eapply wp_mono; [apply remap_ok|]. intros r x1 (Hk1 & Ht1 & En1 & Eq1 & _ & _ & rc1 & -> & _ & _).
  assert (onward true a t d v n s (s <| lf_io := x1 |>)) as W1 by (apply onward_io; [done|done|lia]).
  case_bool_decide; [apply wp_ret; split; [done|]; exists rc1; split; [done|lia]|].
  apply wp_bind. eapply wp_mono; [apply (disable_ctrl_ok _ _ _ _ _ _ false _ (proj1 W1)), (bo_bar _ _ _ _ _ _ _ _ (proj1 W1)); done|].
  intros r s2 ([rc2 ->] & H2 & Ec2 & Ei2 & Hv2).
  assert (onward true a t d v n s s2) as W2.
  { split; [done|]. rewrite Ec2, Ei2. split_and!; [done|exact Hk1|cbn; lia]. }
  case_bool_decide; [apply wp_ret; split; [done|]; exists rc2; split; [done|lia]|].
  pose proof H2 as [_ _ _ _ Hw2 Hs2 _ _]. rewrite Ei2 in Hw2, Hs2. cbn in Hw2, Hs2.
  apply wp_bind, wp_in_io. rewrite Ei2. cbn. eapply wp_mono; [apply alloc_first; [done|done|by apply Ht1]|].
  intros r x3 (Hk3 & Ht3 & En3 & Eq3 & rc3 & -> & Hc3).
  assert (onward true a t d v n s (s2 <| lf_io := x3 |>)) as W3.
  { eapply onward_trans; [exact W2|]. apply onward_io; [done|by rewrite Ei2|by rewrite Ei2]. }
  case_bool_decide as Hrc3; cbn [negb]; [|apply wp_ret; split; [done|]; by exists rc3].
  unfold enable_ctrl. apply wp_bind, wp_bind, wp_reg_read; [by apply (bo_bar _ _ _ _ _ _ _ _ (proj1 W3))|]. intros [ret written].
  apply wp_bind, wp_modify, wp_ret. set (s4 := _ <| lf_cc_enable := _ |>).
  assert (onward true a t d v n s s4) as W4.
  { destruct W3 as (H3 & E3 & M3 & Q3). split; [bframe H3|]. by split_and!. }
  case_bool_decide as Hret; cbn [negb]; [|apply wp_ret; split; [done|]; by exists ret].
  destruct W4 as (H4 & W4). pose proof H4 as [_ _ _ _ Hw4 Hs4 _ _].
  apply wp_in_io. eapply wp_mono; [apply admin_online_ok; [done|done|exact Ht3| |by apply Hc3]|].
  { change (lf_io s4) with x3. rewrite En3, En1. done. }
  intros r x5 (Hk5 & Eq5 & rc5 & -> & H5). split.
  - eapply onward_trans; [exact (conj H4 W4)|]. apply onward_io; [done|done|]. rewrite Eq5. lia.
  - exists rc5. split; [done|]. intros Hrc5. destruct (H5 Hrc5) as [Ht5 Ho5]. by split_and!.
Qed.

(** Updates that do not concern the queues. *)
Definition aside (x x' : iostate) : Prop :=
  mem_kept x x' ∧ (tracked x → tracked x') ∧ online_queues (nd_of x') = online_queues (nd_of x)
  ∧ queue_count (the_dev x') = queue_count (the_dev x).

#[local] Instance aside_preorder : PreOrder aside.
Proof.
  split; [intros x; split_and!; [reflexivity|done..]|]. intros x y z (A1 & B1 & C1 & D1) (A2 & B2 & C2 & D2).
  split_and!; [by etrans|auto|congruence..].
Qed.

Lemma aside_dev f x :
  (∀ d, io_queues (f d) = io_queues d ∧ queue_count (f d) = queue_count d ∧ io_ndev (f d) = io_ndev d
    ∧ bar_mapped (f d) = bar_mapped d ∧ shutdown_locked (f d) = shutdown_locked d) → aside x (x <| the_dev ::= f |>).
Proof.
  intros Hf. destruct (Hf (the_dev x)) as (E1 & E2 & E3 & E4 & E5). split_and!; [|..|by rewrite <- E2].
  - apply mem_dev. intros d. destruct (Hf d) as (F1 & F2 & F3 & F4 & _). split_and!; [done..|by rewrite F4].
  - intros []. split; unfold nd_of in *; cbn; by rewrite ?E1, ?E2, ?E3, ?E5.
  - unfold nd_of. cbn. by rewrite E3.
Qed.

Lemma aside_nd f x :
  (∀ nd, nr_allocated_queues (f nd) = nr_allocated_queues nd ∧ nd_cap_kernel_ioq (f nd) = nd_cap_kernel_ioq nd
    ∧ nr_poll_queues (f nd) = nr_poll_queues nd ∧ online_queues (f nd) = online_queues nd) →
  aside x (x <| the_dev ::= λ d, d <| io_ndev ::= f |> |>).
Proof.
  intros Hf. destruct (Hf (nd_of x)) as (E1 & E2 & E3 & E4). split_and!; [|..|done].
  - refine (mem_of _ (kept_nd f _) x). intros nd. destruct (Hf nd) as (F1 & F2 & F3 & _). split_and!; [done..|by rewrite F3].
  - intros []. split; unfold nd_of in *; cbn; by rewrite ?E4.
  - exact E4.
Qed.

Definition along p a t d v n s s' : Prop :=
  bound_ok lim p a t d v n s' ∧ lf_ctrl s' = lf_ctrl s ∧ aside (lf_io s) (lf_io s').

Lemma along_onward p a t d v n s s' : along p a t d v n s s' → onward p a t d v n s s'.
Proof. intros (H & E & Hm & _ & _ & Hq). split; [done|]. split_and!; [done|done|lia]. Qed.

Lemma along_io p a t d v n s s1 x :
  along p a t d v n s s1 → aside (lf_io s1) x → along p a t d v n s (s1 <| lf_io := x |>).
Proof.
  intros (H & E & Ha) Hx. split; [|split; [done|by etrans]]. apply bound_io; [done|by apply Hx].
Qed.

Lemma along_core p a t d v n s s1 s2 :
  along p a t d v n s s1 → core s2 = core s1 → lf_ctrl s2 = lf_ctrl s1 → along p a t d v n s s2.
Proof.
  intros (H & E & Ha) Hc El. split; [by eapply bound_core|]. injection Hc as _ _ _ _ Ei _. by rewrite El, Ei.
Qed.

Lemma map_cmb_ok a t d v n s s1 :
  along true a t d v n s s1 → wp (nvme_map_cmb cfg env) (λ r s', r = Ok tt ∧ along true a t d v n s s') s1.
Proof.
  intros H. unfold nvme_map_cmb. apply wp_bind, wp_gets. case_bool_decide; cbn [negb]; [|by apply wp_ret].
  apply wp_bind, wp_reg_read; [by apply (bo_bar _ _ _ _ _ _ _ _ (proj1 H))|]. intros cmbsz.
  apply wp_bind, wp_in_io, wp_modify. set (s2 := _ <| lf_io := _ |>).
  assert (along true a t d v n s s2) as H2.
  { apply (along_io _ _ _ _ _ _ _ (s1 <| lf_clock ::= S |>)); [by eapply along_core|]. by apply aside_dev. }
  case_bool_decide; [by apply wp_ret|].
  apply wp_bind, wp_reg_read; [by apply (bo_bar _ _ _ _ _ _ _ _ (proj1 H2))|]. intros cmbloc. cbv zeta.
  case_bool_decide; [apply wp_ret; split; [done|by eapply along_core]|].
  apply wp_bind, wp_lask. intros []; cbn [negb]; [|apply wp_ret; split; [done|by eapply along_core]].
  apply wp_in_io, wp_modify. split; [done|].
  apply (along_io _ _ _ _ _ _ _ (s2 <| lf_clock ::= S |> <| lf_clock ::= S |>)); [by eapply along_core|]. by apply aside_dev.
Qed.

(** What comes before the admin queue. *)
Lemma release_pci_ok a t d v n s s1 (rc : Z) :
  onward true a t d v n s s1 → rc ≠ 0 → 
  wp (release RPci;; mret rc) (λ r s', ∃ rc', r = Ok rc' ∧ rc' ≠ 0 ∧ onward false a t d v n s s' ∧ lf_io s' = lf_io s1) s1.
Proof.
  intros ([] & E & M & Q) Hrc. apply wp_bind, wp_release; [by rewrite bo_held0, hset_pci|]. apply wp_ret. exists rc. split_and!; try done.
  split; [|by split_and!]. split; try done. change (lf_held s1 ∖ {[RPci]} = hset false a t d v). by rewrite bo_held0, hset_drop_pci.
Qed.

Lemma pci_enable_ok a t d v n s :
  bound_ok lim false a t d v n s → bar_mapped (the_dev (lf_io s)) = true → irq_vectors (the_dev (lf_io s)) = false →
  tracked (lf_io s) → online_queues (nd_of (lf_io s)) = 0 →
  wp (nvme_pci_enable cfg env) (λ r s', ∃ rc, r = Ok rc
    ∧ (rc = 0 → onward true a t d v n s s' ∧ raised_to 1 s s')
    ∧ (rc ≠ 0 → onward false a t d v n s s' ∧ irq_vectors (the_dev (lf_io s')) = false)) s.
Proof.
  intros H Hb Hi Ht Ho. unfold nvme_pci_enable. apply wp_bind, wp_lask. intros []; cbn [negb].
  2:{ apply wp_ret. exists (- ENOMEM). split_and!; [done|done|]. intros _. split; [|done]. apply along_onward.
      split; [bframe H|]. split; [done|reflexivity]. }
  apply wp_bind, wp_acquire; [cbn; by rewrite (bo_held _ _ _ _ _ _ _ _ H), hset_pci|]. set (s1 := _ <| lf_held ::= _ |>).
  assert (along true a t d v n s s1) as W1.
  { split; [|split; [done|reflexivity]]. destruct H. split; try done. change ({[RPci]} ∪ lf_held s = hset true a t d v). by rewrite bo_held0, hset_add_pci. }
  assert (∀ s2 rc, along true a t d v n s s2 → rc ≠ 0 → lf_io s2 = lf_io s →
    wp (release RPci;; mret rc) (λ r s', ∃ rc, r = Ok rc ∧ (rc = 0 → onward true a t d v n s s' ∧ raised_to 1 s s')
      ∧ (rc ≠ 0 → onward false a t d v n s s' ∧ irq_vectors (the_dev (lf_io s')) = false)) s2) as Hfail.
  { intros s2 rc W2 Hrc E2. eapply wp_mono; [apply (release_pci_ok a t d v n s); [by apply along_onward|done]|].
    intros r s' (rc' & -> & Hne & W & E). exists rc'. split_and!; [done|done|]. intros _. split; [done|]. by rewrite E, E2. }
  apply wp_bind, wp_reg_read; [done|]. intros csts. case_bool_decide; [apply Hfail; [by eapply along_core|done|done]|].
  apply wp_bind, wp_lask. intros nv. case_bool_decide; [apply Hfail; [by eapply along_core|lia|done]|].
  apply wp_bind, wp_in_io, wp_modify. set (s2 := _ <| lf_io := _ |>).
  assert (along true a t d v n s s2) as W2.
  { apply (along_io _ _ _ _ _ _ _ (s1 <| lf_clock ::= S |> <| lf_clock ::= S |>)); [by eapply along_core|]. by apply aside_dev. }
  apply wp_bind, wp_reg_read; [by apply (bo_bar _ _ _ _ _ _ _ _ (proj1 W2))|]. intros [mqes dstrd]. cbv zeta.
  apply wp_bind, wp_in_io, wp_modify. set (s3 := _ <| lf_io := _ |>).
  assert (along true a t d v n s s3) as W3.
  { apply (along_io _ _ _ _ _ _ _ (s2 <| lf_clock ::= S |>)); [by eapply along_core|]. by apply aside_nd. }
  apply wp_bind, wp_in_io, wp_modify. set (s4 := _ <| lf_io := _ |>).
  assert (along true a t d v n s s4) as W4 by (apply (along_io _ _ _ _ _ _ _ _ _ W3); by apply aside_dev).
  apply wp_bind. eapply wp_mono; [exact (map_cmb_ok _ _ _ _ _ _ _ W4)|]. intros r s5 [-> W5].
  pose proof W5 as (H5 & E5 & (M5 & T5 & O5 & Q5)).
  apply wp_bind. eapply wp_mono; [apply configure_ok; [exact H5|by apply T5|congruence]|].
  intros r s6 (W6 & rc & -> & Hr). assert (onward true a t d v n s s6) as W06 by (eapply onward_trans; [by apply along_onward|done]).
  case_bool_decide as Hrc; cbn [negb].
  - apply wp_ret. exists rc. split_and!; [done| |done]. intros _. split; [done|]. by apply Hr.
  - apply wp_bind, wp_in_io, wp_modify. eapply wp_mono; [apply (release_pci_ok a t d v n s); [|done]|].
    + eapply onward_trans; [exact W06|]. apply onward_io; [apply W06|by apply mem_dev|cbn; lia].
    + intros r s' (rc' & -> & Hne & W & E). exists rc'. split_and!; [done|done|]. intros _. split; [done|]. by rewrite E.
Qed.

(** ** Connecting *)

Definition beside s s' : Prop :=
  lf_io s' = lf_io s ∧ lf_ctrl s' = lf_ctrl s ∧ lf_hmb s' = lf_hmb s ∧ lf_cc_enable s' = lf_cc_enable s.

Lemma bound_held p a t d v n p' a' t' d' v' s X :
  bound_ok lim p a t d v n s → lf_held X = hset p' a' t' d' v' → bool_decide (lf_admin X = AdminLive) = a' →
  nc_tagset (lf_ctrl X) = t' → nc_refs (lf_ctrl X) = n → lf_io X = lf_io s → lf_hmb X = lf_hmb s → (p' = true → p = true) →
  bound_ok lim p' a' t' d' v' n X.
Proof. intros [] E1 E2 E3 E4 E5 E6 Hp. split; rewrite ?E5, ?E6; try done. intros ?. by apply bo_bar0, Hp. Qed.

Lemma dbbuf_alloc_ok p a t d v n s :
  bound_ok lim p a t d v n s →
  wp (nvme_dbbuf_dma_alloc env) (λ r s', r = Ok tt ∧ beside s s' ∧ ∃ d', bound_ok lim p a t d' v n s') s.
Proof.
  intros H. pose proof (bo_held _ _ _ _ _ _ _ _ H) as Hh. pose proof (bo_admin _ _ _ _ _ _ _ _ H) as Ha.
  pose proof (bo_tags _ _ _ _ _ _ _ _ H) as Htg. pose proof (bo_refs _ _ _ _ _ _ _ _ H) as Hn.
  unfold nvme_dbbuf_dma_alloc. apply wp_bind, wp_lask. intros supp. apply wp_bind, wp_holds. cbn. rewrite Hh, hset_dbs.
  assert (∀ s1, still s s1 → wp (mret tt : LM unit) (λ r s', r = Ok tt ∧ beside s s' ∧ ∃ d', bound_ok lim p a t d' v n s') s1) as Hret.
  { intros s1 E1. apply wp_ret. split_and!; [done| |exists d; by eapply bound_core; [apply still_core|]]. by destruct E1 as (? & ? & ? & ? & ? & ?). }
  destruct supp; cbn [negb]; [|by apply Hret]. destruct d; [by apply Hret|].
  apply wp_bind, wp_lask. intros []; cbn [negb]; [|by apply Hret].
  apply wp_bind, wp_acquire; [cbn; by rewrite Hh, hset_dbs|]. apply wp_bind, wp_lask. intros []; cbn [negb].
  - apply wp_acquire; [cbn; rewrite Hh; clear; sets|]. split_and!; [done|done|]. exists true.
    apply (bound_held p a t false v n _ _ _ _ _ s); try done. cbn. by rewrite Hh, hset_add_dbs.
  - apply wp_release; [cbn; rewrite Hh; clear; sets|]. split_and!; [done|done|]. exists false.
    apply (bound_held p a t false v n _ _ _ _ _ s); try done. cbn. rewrite Hh. clear. sets.
Qed.

Lemma dbbuf_free_ok p a t d v n s :
  bound_ok lim p a t d v n s →
  wp nvme_dbbuf_dma_free (λ r s', r = Ok tt ∧ beside s s' ∧ bound_ok lim p a t false v n s') s.
Proof.
  intros H. pose proof (bo_held _ _ _ _ _ _ _ _ H) as Hh. pose proof (bo_admin _ _ _ _ _ _ _ _ H) as Ha.
  pose proof (bo_tags _ _ _ _ _ _ _ _ H) as Htg. pose proof (bo_refs _ _ _ _ _ _ _ _ H) as Hn.
  unfold nvme_dbbuf_dma_free. apply wp_bind, wp_release_held. rewrite Hh, hset_dbs. apply wp_release_held.
  assert (bool_decide (REis ∈ lf_held (if d then s <| lf_held ::= (.∖ {[RDbs]}) |> else s)) = d) as ->.
  { destruct d; cbn; rewrite Hh; clear; sets. }
  split; [done|]. destruct d; [|done]. split; [done|].
  apply (bound_held p a t true v n _ _ _ _ _ s); try done. cbn. by rewrite Hh, hset_drop_dbs.
Qed.

Lemma life_dbbuf_set_ok p a t d v n s :
  bound_ok lim p a t d v n s → wp (dbbuf_set env) (λ r s', r = Ok tt ∧ beside s s' ∧ ∃ d', bound_ok lim p a t d' v n s') s.
Proof.
  intros H. unfold dbbuf_set. apply wp_bind, wp_holds. apply wp_when; [intros _|intros _; split_and!; [done|done|by exists d]].
  apply wp_bind, wp_lask. intros rc. apply wp_when; [intros _|intros _; split_and!; [done|done|exists d; bframe H]].
  eapply wp_mono; [apply (dbbuf_free_ok p a t d v n); bframe H|]. intros r s' (-> & Hb & H'). split_and!; [done|done|by exists false].
Qed.

Context (Hlim : lim_ok lim) (Hpoll : 0 ≤ lc_poll_queues cfg).

Lemma connect_ok a t d v n s :
  bound_ok lim true a t d v n s → raised_to 1 s s →
  wp (connect cfg env) (λ r s', ∃ rc d', r = Ok rc ∧ bound_ok lim true a t d' v n s' ∧ st_step (lf_ctrl s) (lf_ctrl s')
    ∧ (rc = 0 → tracked (lf_io s') ∧ 1 ≤ online_queues (nd_of (lf_io s')) ∧ lf_cc_enable s' = true)) s.
Proof.
  intros H (Ht & Ho & Hcc & Hv). unfold connect. apply wp_bind. eapply wp_mono; [apply change_state_ok|].
  intros r s1 (Q1 & old & -> & _). pose proof (bound_quiet _ _ _ _ _ _ _ _ _ Q1 H) as H1. destruct Q1 as (_ & _ & Ei & Eh & Ecc & Hst).
  destruct (state_change_allowed old _); cbn [negb]; [|apply wp_ret; by exists (- EBUSY), d].
  apply wp_bind, wp_lask. intros rc. case_bool_decide as Hrc; cbn [negb].
  2:{ apply wp_ret. exists rc, d. split_and!; [done|bframe H1|done|done]. }
  apply wp_bind. eapply wp_mono; [apply (dbbuf_alloc_ok true a t d v n); bframe H1|]. intros r s2 (-> & (F1 & F2 & F3 & F4) & d2 & H2).
  cbn in F1, F2, F3, F4.
  destruct (setup_ok lim (le_hmb env) (lf_hmb s2) Hlim (bo_hmb _ _ _ _ _ _ _ _ H2)) as (ret & h3 & E3 & Hi3); [congruence|].
  apply wp_bind, wp_in_hmb. eapply wp_eq; [exact E3|].
  assert (bound_ok lim true a t d2 v n (s2 <| lf_hmb := h3 |>)) as H3 by (destruct H2; by split).
  cbv beta iota. case_bool_decide as Hneg.
  { apply wp_ret. exists ret, d2. split_and!; [done|done|cbn; by rewrite F2|lia]. }
  apply wp_bind, wp_in_io, wp_modify. apply wp_in_io.
  assert (∀ x, x = (lf_io s) <| io_log := [] |> → tracked x ∧ mem_wf x ∧ shares x) as Hx.
  { intros x ->. destruct H, Ht as [T1 T2 T3]. split_and!; [by split| |done]. destruct bo_mem0. by split. }
  cbn. rewrite F1, Ei. destruct (Hx _ eq_refl) as (Htx & Hwx & Hsx).
  eapply wp_mono; [apply (setup_tracked _ Hio Hmap); done|].
  intros r x (Hk & rc' & -> & Hr). exists rc', d2. split_and!; [done| |cbn; by rewrite F2|].
  - destruct H3. split; try done; cbn in *; [by apply Hk|by eapply shares_kept|].
    intros _. apply Hk. cbn. rewrite <- Ei, <- F1. by apply bo_bar0.
  - intros Hz. destruct (Hr Hz) as [Htr Hon]. split_and!; [done|done|]. cbn. by rewrite F4, Ecc.
Qed.

(** ** Letting go *)

(** Nothing is left: no resource, mapping, interrupt vector, host memory
    buffer, nor a view of one; of freed buffers at most what [rest_ok] allows. *)
Record released s : Prop := {
  re_held : lf_held s = ∅;
  re_bar : bar_mapped (the_dev (lf_io s)) = false;
  re_irq : irq_vectors (the_dev (lf_io s)) = false;
  re_tables : hm_tables (lf_hmb s) = ∅;
  re_arrays : hm_arrays (lf_hmb s) = ∅;
  re_bufs : hm_bufs (lf_hmb s) = ∅;
  re_view : hm_view (lf_hmb s) = None;
  re_rest : Forall (rest_ok lim) (hm_rest (lf_hmb s));
}.

(** The queues with memory are those below [n]. *)
Definition mem_below (n : Z) s : Prop :=
  ∀ i q, io_queues (the_dev (lf_io s)) !! i = Some q → ioq_allocated q = bool_decide (Z.of_nat i < n).

Lemma mem_below_wf s : mem_wf (lf_io s) → mem_below (queue_count (the_dev (lf_io s))) s.
Proof. intros Hw i q. apply Hw. Qed.

(** No host memory buffer, no vectors. *)
Definition bare s : Prop :=
  irq_vectors (the_dev (lf_io s)) = false ∧ hm_tables (lf_hmb s) = ∅ ∧ hm_arrays (lf_hmb s) = ∅
  ∧ hm_bufs (lf_hmb s) = ∅ ∧ hm_view (lf_hmb s) = None ∧ Forall (rest_ok lim) (hm_rest (lf_hmb s)).

Lemma free_tagset_ok p a t d v n s :
  bound_ok lim p a t d v n s →
  wp nvme_free_tagset (λ r s', r = Ok tt ∧ bound_ok lim p a false d v n s' ∧ lf_io s' = lf_io s ∧ lf_hmb s' = lf_hmb s
    ∧ lf_cc_enable s' = lf_cc_enable s ∧ nc_state (lf_ctrl s') = nc_state (lf_ctrl s)) s.
Proof.
  intros H. pose proof (bo_held _ _ _ _ _ _ _ _ H) as Hh. pose proof (bo_admin _ _ _ _ _ _ _ _ H) as Ha.
  pose proof (bo_refs _ _ _ _ _ _ _ _ H) as Hn.
  unfold nvme_free_tagset. apply wp_bind, wp_release_held. rewrite Hh, hset_tags. apply wp_in_ctrl, wp_modify.
  split_and!; [done| |by destruct t..]. apply (bound_held p a t d v n _ _ _ _ _ s); try by destruct t.
  destruct t; cbn; rewrite Hh; [by rewrite hset_drop_tags|done].
Qed.

(** The last reference. *)
Lemma free_ctrl_ok s (t : bool) (X : gset resource) :
  X = dev_set ∪ opt_res t {[RIoTags]} → lf_held s = X → nc_refs (lf_ctrl s) = 1 →
  wp put_ctrl (λ r s', r = Ok tt ∧ lf_held s' = ∅ ∧ lf_io s' = lf_io s ∧ lf_hmb s' = lf_hmb s) s.
Proof.
  intros -> Hh Hn. unfold put_ctrl. apply wp_bind, wp_in_ctrl, wp_modify, wp_bind, wp_gets. cbn -[release nvme_pci_free_ctrl].
  rewrite Hn, bool_decide_true by done. cbn [when]. apply wp_bind. give.
  unfold nvme_pci_free_ctrl, nvme_free_tagset. apply wp_bind, wp_bind, wp_release_held.
  match goal with |- context [bool_decide (RIoTags ∈ ?X)] => assert (bool_decide (RIoTags ∈ X) = t) as -> end.
  { cbn. rewrite Hh. clear. sets. }
  apply wp_in_ctrl, wp_modify. destruct t.
  all: apply wp_bind; give; apply wp_bind; give; give; (split_and!; [done| |done..]); cbn; rewrite Hh; clear; sets.
Qed.

(** A reference that is not the last. *)
Lemma put_ref_ok n s : nc_refs (lf_ctrl s) = n → n ≠ 1 →
  wp put_ctrl (λ r s', r = Ok tt ∧ lf_held s' = lf_held s ∧ lf_io s' = lf_io s ∧ lf_hmb s' = lf_hmb s
    ∧ nc_refs (lf_ctrl s') = n - 1 ∧ nc_tagset (lf_ctrl s') = nc_tagset (lf_ctrl s) ∧ lf_admin s' = lf_admin s
    ∧ lf_cc_enable s' = lf_cc_enable s ∧ nc_state (lf_ctrl s') = nc_state (lf_ctrl s)) s.
Proof.
  intros <- Hn. unfold put_ctrl. apply wp_bind, wp_in_ctrl, wp_modify, wp_bind, wp_gets. cbn.
  rewrite bool_decide_false by lia. by apply wp_ret.
Qed.

Lemma two_refs_ok s (t : bool) :
  lf_held s = dev_set ∪ opt_res t {[RIoTags]} → nc_refs (lf_ctrl s) = 2 →
  wp (uninit_ctrl;; put_ctrl) (λ r s', r = Ok tt ∧ lf_held s' = ∅ ∧ lf_io s' = lf_io s ∧ lf_hmb s' = lf_hmb s) s.
Proof.
  intros Hh Hn. unfold uninit_ctrl. apply wp_bind. eapply wp_mono; [by apply (put_ref_ok 2)|].
  intros r s1 (-> & E1 & E2 & E3 & E4 & _). eapply wp_mono; [apply (free_ctrl_ok s1 t _ eq_refl); [congruence|lia]|].
  intros r s2 (-> & F1 & F2 & F3). split_and!; [done|done|congruence..].
Qed.

(** The labels of nvme_probe, innermost last. *)
Definition gone s s' : Prop :=
  lf_held s' = ∅ ∧ lf_hmb s' = lf_hmb s ∧ lf_io s' = (lf_io s) <| the_dev ::= λ d, d <| bar_mapped := false |> |>.

Lemma undo_map_ok s (t : bool) :
  lf_held s = dev_set ∪ {[RRegions]} ∪ opt_res t {[RIoTags]} → nc_refs (lf_ctrl s) = 2 → wp undo_map (λ r s', r = Ok tt ∧ gone s s') s.
Proof.
  intros Hh Hn. unfold undo_map, nvme_dev_unmap. apply wp_bind, wp_bind, wp_in_io, wp_modify. give.
  eapply wp_mono; [apply (two_refs_ok _ t); [cbn; rewrite Hh; clear; sets|done]|].
  intros r s' (-> & E1 & E2 & E3). split; [done|]. by split_and!.
Qed.

Lemma undo_pools_ok s (t : bool) :
  lf_held s = dev_set ∪ {[RRegions; RPrpPage; RPrpSmall]} ∪ opt_res t {[RIoTags]} → nc_refs (lf_ctrl s) = 2 →
  wp undo_pools (λ r s', r = Ok tt ∧ gone s s') s.
Proof.
  intros Hh Hn. unfold undo_pools, nvme_release_prp_pools. apply wp_bind, wp_bind. give. give.
  eapply wp_mono; [apply (undo_map_ok _ t); [cbn; rewrite Hh; clear; sets|done]|]. done.
Qed.

Lemma undo_iod_ok s (t : bool) :
  lf_held s = hset false false t false false → nc_refs (lf_ctrl s) = 2 → wp undo_iod (λ r s', r = Ok tt ∧ gone s s') s.
Proof.
  intros Hh Hn. unfold undo_iod. apply wp_bind. give.
  eapply wp_mono; [apply (undo_pools_ok _ t); [cbn; rewrite Hh; clear; sets|done]|]. done.
Qed.

Lemma remove_admin_ok p a t d v n s :
  bound_ok lim p a t d v n s → wp nvme_dev_remove_admin (λ r s', r = Ok tt ∧ beside s s' ∧ bound_ok lim p false t d v n s') s.
Proof.
  intros H. pose proof (bo_held _ _ _ _ _ _ _ _ H) as Hh. pose proof (bo_admin _ _ _ _ _ _ _ _ H) as Ha.
  pose proof (bo_tags _ _ _ _ _ _ _ _ H) as Htg. pose proof (bo_refs _ _ _ _ _ _ _ _ H) as Hn.
  unfold nvme_dev_remove_admin. apply wp_bind, wp_gets. cbn [id].
  destruct (lf_admin s) eqn:E; cbn in Ha; rewrite ?bool_decide_true in Ha by done; rewrite ?bool_decide_false in Ha by done; subst a.
  - by apply wp_ret.
  - apply wp_bind, wp_modify, wp_bind. apply wp_release; [cbn; rewrite Hh; clear; sets|]. apply wp_modify. split_and!; [done|done|].
    apply (bound_held p true t d v n _ _ _ _ _ s); try done. cbn. by rewrite Hh, hset_drop_admin.
  - by apply wp_ret.
Qed.

(** What probe's clean-up and removal share. *)
Lemma wp_teardown a t d v n {A} (k : LM A) (Q : outcome A → life → Prop) s :
  bound_ok lim false a t d v n s → hm_view (lf_hmb s) = None → irq_vectors (the_dev (lf_io s)) = false →
  (∀ s', bound_ok lim false false t false v n s' → bare s' → queue_count (the_dev (lf_io s')) = 0 → wp k Q s') →
  wp (in_hmb nvme_free_host_mem;; nvme_dev_remove_admin;; nvme_dbbuf_dma_free;; in_io (nvme_free_queues 0);; k) Q s.
Proof.
  intros H Hv Hi Hk. destruct (bo_hmb _ _ _ _ _ _ _ _ H) as [[l Hr] _ _].
  destruct (free_ok lim l (lf_hmb s) Hr) as (h & E & Hr' & Hn & [_ Hv']). apply wp_bind, wp_in_hmb. eapply wp_eq; [exact E|].
  assert (bound_ok lim false a t d v n (s <| lf_hmb := h |>)) as H1.
  { destruct H. split; try done. apply (inv_no_view lim []); [done|cbn; congruence]. }
  apply wp_bind. eapply wp_mono; [apply (remove_admin_ok _ _ _ _ _ _ _ H1)|]. intros r s2 (-> & (A1 & _ & A3 & _) & H2).
  apply wp_bind. eapply wp_mono; [apply (dbbuf_free_ok _ _ _ _ _ _ _ H2)|]. intros r s3 (-> & (B1 & _ & B3 & _) & H3).
  destruct (free_queues_ok 0 (lf_io s3)) as (x & E4 & W4 & C4 & N4 & I4 & _ & _); [apply H3|split; [lia|apply H3]|].
  apply wp_bind, wp_in_io. eapply wp_eq; [exact E4|]. apply Hk.
  - destruct H3. split; try done. unfold shares. cbn. rewrite N4. done.
  - split_and!; cbn; rewrite ?I4, ?B1, ?A1, ?B3, ?A3; cbn; [done| | | |congruence|].
    all: unfold hmb_rep in Hr'; rewrite Hn in Hr'; by destruct Hr' as (_ & [] & _).
  - exact C4.
Qed.
End ops.
