(* ===== verification/PciLifeRun.v ===== *)
(** * PciLifeRun: binding, resetting and removing a device

    nvme_probe, nvme_reset_work, the other callbacks and nvme_remove as a
    whole: an invariant of bound devices that every callback keeps, under any
    interleaving with state changes by other threads, and from which removal
    gives everything back. *)
From S2P Require Import Prelude.
From S2P Require Import Uapi.
From S2P Require Import Kernel.
From S2P Require Import PciData.
From S2P Require Import PciSetup.
From S2P Require Import PciSetupSpec.
From S2P Require Import PciHmb.
From S2P Require Import PciHmbSpec.
From S2P Require Import CoreCtrl.
From S2P Require Import CoreCtrlSpec.
From S2P Require Import PciLife.
From S2P Require Import PciLifeIo.
From S2P Require Import PciOnline.
From S2P Require Import PciLifeSpec.

Implicit Types s : life.

(** Module parameters and what user space asked for, in range. *)
Record life_cfg_ok (cfg : life_cfg) : Prop := {
  lco_hmb : lim_ok (lc_hmb cfg);
  lco_poll : 0 ≤ lc_poll_queues cfg;
  lco_cpus : 1 ≤ lc_cpus cfg;
  lco_budget : let '(w, p, cap) := dev_budget cfg in 0 ≤ w ∧ 0 ≤ p ∧ 0 ≤ cap ∧ lc_cpus cfg + w + p < 2 ^ 16;
}.

(** The interrupt core and the controller answer as documented, and no ioremap
    that extends the register window for the doorbells fails.  The last is a
    condition, not a promise of the kernel: when such an ioremap fails,
    nvme_remap_bar leaves dev->bar null and the clean-up reads through it
    ([bind_failures]).  The first mapping of the window may fail. *)
Record life_env_ok (env : life_env) : Prop := {
  leo_io : io_env_ok (le_io env);
  leo_map n : ie_ioremap (le_io env) n = true;
}.

(** A device whose queues are up, or that is off and can be brought up. *)
Definition ready (p : bool) s : Prop :=
  tracked (lf_io s) ∧ bar_mapped (the_dev (lf_io s)) = true
  ∧ (lf_cc_enable s = false → p = false ∧ online_queues (nd_of (lf_io s)) = 0 ∧ irq_vectors (the_dev (lf_io s)) = false).

(** A device between probe and remove. *)
Definition live_inv (cfg : life_cfg) s : Prop :=
  ∃ p a t d, bound_ok (lc_hmb cfg) p a t d true 1 s ∧ nc_state (lf_ctrl s) ≠ NVME_CTRL_NEW
    ∧ (nvme_state_terminal (nc_state (lf_ctrl s)) = true ∨ ready p s).

Section run.
Context (cfg : life_cfg) (env : life_env) (Hcfg : life_cfg_ok cfg) (Henv : life_env_ok env).
Abbreviation lim := (lc_hmb cfg).

(** ** Reset *)

Lemma remove_namespaces_ok s : wp (remove_namespaces env) (λ r s', r = Ok tt ∧ quiet_life s s') s.
Proof.
  unfold remove_namespaces. apply wp_bind. eapply wp_mono; [apply unquiesce_io_still|].
  intros r s1 [-> (E1 & E2 & E3 & E4 & E5 & E6)]. apply wp_bind. eapply wp_mono; [apply change_state_ok|].
  intros r s2 (Q2 & old & -> & _). apply wp_ret. split; [done|]. etrans; [|exact Q2].
  split_and!; try done. rewrite E6. reflexivity.
Qed.

Lemma terminal_deleting st : st ≠ NVME_CTRL_NEW → nvme_state_terminal (next_state st NVME_CTRL_DELETING) = true.
Proof. by destruct st. Qed.
Lemma terminal_dead st : nvme_state_terminal st = true → nvme_state_terminal (next_state st NVME_CTRL_DEAD) = true.
Proof. by destruct st. Qed.

(** A failed reset leaves the device off the bus and its deletion final. *)
Lemma reset_failed_ok p a t d n s :
  bound_ok lim p a t d true n s → nc_state (lf_ctrl s) ≠ NVME_CTRL_NEW →
  wp (reset_failed env) (λ r s', r = Ok tt ∧ bound_ok lim false a t d true n s' ∧ nc_state (lf_ctrl s') ≠ NVME_CTRL_NEW
    ∧ nvme_state_terminal (nc_state (lf_ctrl s')) = true) s.
Proof.
  intros H Hn. unfold reset_failed. apply wp_bind. eapply wp_mono; [apply change_state_ok|].
  intros r s1 (Q1 & old & -> & E1 & Hold & _). pose proof (bound_quiet _ _ _ _ _ _ _ _ _ Q1 H) as H1.
  assert (nvme_state_terminal (nc_state (lf_ctrl s1)) = true) as T1 by (rewrite E1; by apply terminal_deleting, Hold).
  apply wp_bind. eapply wp_mono; [apply (dev_disable_ok cfg env _ _ _ _ _ _ true _ H1)|].
  intros r s2 (-> & (H2 & Ec2 & _) & _). apply wp_bind. eapply wp_mono; [apply unquiesce_io_still|].
  intros r s3 [-> Hs3]. assert (bound_ok lim false a t d true n s3) as H3 by (eapply bound_core; [by apply still_core|done]).
  destruct Hs3 as (_ & _ & _ & _ & _ & Ec3).
  apply wp_bind. eapply wp_mono; [apply change_state_ok|]. intros r s4 (Q4 & old4 & -> & E4 & _ & Ht4).
  apply wp_ret. rewrite Ec3, Ec2 in Ht4. specialize (Ht4 T1).
  split_and!; [done|by eapply bound_quiet| |rewrite E4; by apply terminal_dead]. rewrite E4. by destruct old4.
Qed.

(** From enabling to the switch to live. *)
Lemma reset_bring_up_ok a t d n s :
  bound_ok lim false a t d true n s → ready false s → online_queues (nd_of (lf_io s)) = 0 →
  irq_vectors (the_dev (lf_io s)) = false → nc_state (lf_ctrl s) ≠ NVME_CTRL_NEW →
  wp (reset_bring_up cfg env) (λ r s', ∃ rc p' t' d', r = Ok rc ∧ bound_ok lim p' a t' d' true n s'
    ∧ nc_state (lf_ctrl s') ≠ NVME_CTRL_NEW ∧ (rc = 0 → ready p' s' ∧ nc_state (lf_ctrl s') = NVME_CTRL_LIVE)) s.
Proof.
  intros H (Ht & Hb & _) Ho Hi Hn. destruct Henv as [Hio Hmap]. unfold reset_bring_up.
  apply wp_bind. eapply wp_mono; [by apply (pci_enable_ok cfg env Hmap a t d true n)|].
  intros r s1 (rc & -> & Hok & Hko). case_bool_decide as Hrc; cbn [negb].
  2:{ destruct (Hko Hrc) as [(H1 & E1 & _) _]. apply wp_ret. exists rc, false, t, d. split_and!; [done|done|by rewrite E1|done]. }
  destruct (Hok Hrc) as [(H1 & E1 & _) R1]. apply wp_bind, wp_modify. set (s2 := s1 <| lf_admin_stopped := false |>).
  assert (bound_ok lim true a t d true n s2) as H2 by (bframe H1).
  apply wp_bind. eapply wp_mono; [apply (connect_ok cfg env Hio Hmap (lco_hmb _ Hcfg) (lco_poll _ Hcfg) _ _ _ _ _ _ H2 R1)|].
  intros r s3 (rc3 & d3 & -> & H3 & (_ & _ & Hn3 & _) & Hok3). assert (nc_state (lf_ctrl s3) ≠ NVME_CTRL_NEW) as N3.
  { apply Hn3. change (lf_ctrl s2) with (lf_ctrl s1). by rewrite E1. }
  case_bool_decide as Hrc3; cbn [negb]; [|apply wp_ret; by exists rc3, true, t, d3].
  destruct (Hok3 Hrc3) as (T3 & O3 & C3). apply wp_bind, wp_gets. cbn [id].
  assert (∀ s4 t4 d4, bound_ok lim true a t4 d4 true n s4 → nc_state (lf_ctrl s4) ≠ NVME_CTRL_NEW → tracked (lf_io s4) →
    lf_cc_enable s4 = true → wp (ok ← change_state env NVME_CTRL_LIVE; mret (if (ok : bool) then 0 else - ENODEV))
    (λ r s', ∃ rc p' t' d', r = Ok rc ∧ bound_ok lim p' a t' d' true n s'
    ∧ nc_state (lf_ctrl s') ≠ NVME_CTRL_NEW ∧ (rc = 0 → ready p' s' ∧ nc_state (lf_ctrl s') = NVME_CTRL_LIVE)) s4) as Hend.
  { intros s4 t4 d4 H4 N4 T4 C4. apply wp_bind. eapply wp_mono; [apply change_state_ok|]. intros r s5 (Q5 & old & -> & E5 & _).
    apply wp_ret. pose proof (bound_quiet _ _ _ _ _ _ _ _ _ Q5 H4) as H5. destruct Q5 as (_ & _ & Ei & _ & Ecc & (_ & _ & Hn5 & _)).
    eexists _, true, t4, d4. split_and!; [done|done|by apply Hn5|].
    destruct (state_change_allowed old NVME_CTRL_LIVE) eqn:Ea; [intros _|done]. split.
    - split_and!; [by rewrite Ei|by apply (bo_bar _ _ _ _ _ _ _ _ H5)|by rewrite Ecc, C4].
    - rewrite E5. unfold next_state. by rewrite Ea. }
  change (io_ndev (the_dev (lf_io s3))) with (nd_of (lf_io s3)). case_bool_decide as Hon; apply wp_bind.
  - apply wp_bind. eapply wp_mono; [apply (life_dbbuf_set_ok cfg env _ _ _ _ _ _ _ H3)|]. intros r s4 (-> & (A1 & A2 & A3 & A4) & d4 & H4).
    apply wp_bind. eapply wp_mono; [apply unquiesce_io_still|]. intros r s5 [-> Hs5].
    assert (bound_ok lim true a t d4 true n s5) as H5 by (eapply bound_core; [by apply still_core|done]).
    destruct Hs5 as (_ & _ & B1 & _ & B5 & B6). assert (lf_io s5 = lf_io s3) as E5 by congruence.
    unfold nvme_pci_update_nr_queues. apply wp_bind, wp_bind, wp_gets. cbn [id]. rewrite E5.
    destruct (free_queues_ok (online_queues (nd_of (lf_io s3))) (lf_io s3)) as (x & E6 & W6 & _ & N6 & _ & B6' & T6); [apply H3|apply T3|].
    apply wp_in_io. rewrite E5. eapply wp_eq; [exact E6|]. apply wp_modify. apply (Hend _ t d4).
    + pose proof (bo_bar _ _ _ _ _ _ _ _ H3) as Hb3. destruct H5. split; try done; cbn; [unfold shares; rewrite N6; apply H3|]. intros _. rewrite B6'. by apply Hb3.
    + cbn. congruence.
    + cbn. apply T6; [done|lia].
    + cbn. congruence.
  - apply wp_bind. eapply wp_mono; [apply unquiesce_io_still|]. intros r s4 [-> Hs4].
    assert (bound_ok lim true a t d3 true n s4) as H4 by (eapply bound_core; [by apply still_core|done]).
    destruct Hs4 as (_ & _ & B1 & _ & B5 & B6).
    apply wp_bind. eapply wp_mono; [apply remove_namespaces_ok|]. intros r s5 [-> Q5].
    pose proof (bound_quiet _ _ _ _ _ _ _ _ _ Q5 H4) as H5. destruct Q5 as (_ & _ & Ei & _ & Ecc & (_ & _ & Hn5 & _)).
    eapply wp_mono; [apply (free_tagset_ok cfg _ _ _ _ _ _ _ H5)|]. intros r s6 (-> & H6 & F1 & F2 & F3 & F4).
    apply (Hend _ false d3); [done|rewrite F4; apply Hn5; by rewrite B6|congruence|congruence].
Qed.

Lemma start_ctrl_ok s :
  wp start_ctrl (λ r s', r = Ok tt ∧ lf_held s' = lf_held s ∧ lf_admin s' = lf_admin s ∧ lf_io s' = lf_io s ∧ lf_hmb s' = lf_hmb s
    ∧ lf_cc_enable s' = lf_cc_enable s ∧ nc_state (lf_ctrl s') = nc_state (lf_ctrl s)
    ∧ nc_tagset (lf_ctrl s') = nc_tagset (lf_ctrl s) ∧ nc_refs (lf_ctrl s') = nc_refs (lf_ctrl s)) s.
Proof.
  unfold start_ctrl. apply wp_bind, wp_gets. apply wp_when; [intros _|done]. apply wp_bind, wp_in_ctrl.
  unfold nvme_queue_scan. apply (wp_bind (S := nvme_ctrl)), wp_gets. apply wp_when.
  - intros _. apply wp_modify. eapply wp_mono; [apply unquiesce_io_still|]. intros r s' (-> & E1 & E2 & E3 & E4 & E5 & E6).
    rewrite E6. by split_and!.
  - intros _. eapply wp_mono; [apply unquiesce_io_still|]. intros r s' (-> & E1 & E2 & E3 & E4 & E5 & E6).
    rewrite E6. by split_and!.
Qed.

(** The reset work keeps the invariant and decides: the controller is live,
    or deleted for good and off the bus. *)
Lemma reset_work_ok s :
  live_inv cfg s →
  wp (nvme_reset_work cfg env) (λ r s', r = Ok tt ∧ live_inv cfg s'
    ∧ (nc_state (lf_ctrl s') = NVME_CTRL_LIVE ∨ nvme_state_terminal (nc_state (lf_ctrl s')) = true ∧ RPci ∉ lf_held s')) s.
Proof.
  intros (p & a & t & d & H & Hn & Hr). unfold nvme_reset_work. apply wp_bind, wp_gets. cbn [id].
  assert (∀ s1 p1 t1 d1, bound_ok lim p1 a t1 d1 true 1 s1 → nc_state (lf_ctrl s1) ≠ NVME_CTRL_NEW →
    wp (reset_failed env) (λ r s', r = Ok tt ∧ live_inv cfg s'
    ∧ (nc_state (lf_ctrl s') = NVME_CTRL_LIVE ∨ nvme_state_terminal (nc_state (lf_ctrl s')) = true ∧ RPci ∉ lf_held s')) s1) as Hfail.
  { intros s1 p1 t1 d1 H1 N1. eapply wp_mono; [by apply (reset_failed_ok p1 a t1 d1 1)|]. intros r s' (-> & H' & N' & T').
    split_and!; [done|exists false, a, t1, d1; split_and!; [done|done|by left]|right; split; [done|]].
    rewrite (bo_held _ _ _ _ _ _ _ _ H'). apply (bool_decide_eq_false (RPci ∈ _)), hset_pci. }
  case_bool_decide as Hst; cbn [negb]; [|by eapply Hfail].
  destruct Hr as [Hr|Hr]; [by rewrite Hst in Hr|]. apply wp_bind.
  assert (wp (when (lf_cc_enable s) (nvme_dev_disable env false)) (λ r s', r = Ok tt ∧ bound_ok lim false a t d true 1 s'
    ∧ ready false s' ∧ online_queues (nd_of (lf_io s')) = 0 ∧ irq_vectors (the_dev (lf_io s')) = false
    ∧ nc_state (lf_ctrl s') ≠ NVME_CTRL_NEW) s) as Hoff.
  { destruct Hr as (T & B & Hcc). apply wp_when.
    - intros _. eapply wp_mono; [apply (dev_disable_ok cfg env _ _ _ _ _ _ false _ H)|].
      intros r s' (-> & (H' & Ec & (_ & _ & _ & Hbar) & _) & _ & Hi & Ht). destruct (Ht T) as [T' O'].
      split_and!; [done|done|split_and!; [done|by apply Hbar|done]|done|done|by rewrite Ec].
    - intros Hc. destruct (Hcc Hc) as (-> & O & I). by split_and!. }
  eapply wp_mono; [exact Hoff|]. intros r s1 (-> & H1 & R1 & O1 & I1 & N1).
  apply wp_bind. eapply wp_mono; [by apply (reset_bring_up_ok a t d 1)|].
  intros r s2 (rc & p2 & t2 & d2 & -> & H2 & N2 & Hok). case_bool_decide as Hrc; cbn [negb]; [|by eapply Hfail].
  destruct (Hok Hrc) as [R2 L2]. eapply wp_mono; [apply start_ctrl_ok|]. intros r s3 (-> & E1 & E2 & E3 & E4 & E5 & E6 & E7 & E8).
  split_and!; [done| |left; by rewrite E6]. exists p2, a, t2, d2. split_and!.
  - eapply bound_core; [|exact H2]. unfold core. by rewrite E1, E2, E3, E4, E7, E8.
  - by rewrite E6.
  - right. destruct R2 as (? & ? & ?). split_and!; rewrite ?E3, ?E5; done.
Qed.

(** ** The other callbacks *)

Lemma prepare_ok sh s :
  live_inv cfg s → wp (nvme_disable_prepare_reset env sh) (λ r s', (∃ o, r = Ok o) ∧ live_inv cfg s') s.
Proof.
  intros (p & a & t & d & H & Hn & Hr). unfold nvme_disable_prepare_reset. apply wp_bind, wp_lask. intros l.
  apply wp_bind, wp_in_ctrl. eapply wp_mono; [apply wait_reset_wp|]. intros r c (St & o & -> & Ho).
  set (s1 := s <| lf_clock ::= S |> <| lf_ctrl := c |>).
  assert (bound_ok lim p a t d true 1 s1) as H1.
  { eapply bound_quiet; [|exact H]. by split_and!. }
  assert (nc_state (lf_ctrl s1) ≠ NVME_CTRL_NEW) as N1 by (by apply St).
  assert (live_inv cfg s1) as L1.
  { exists p, a, t, d. split_and!; [done|done|]. destruct Hr as [Hr|Hr]; [left; by apply St|by right]. }
  destruct o as [[]|]; [|apply wp_ret; split; [by eexists|done]..].
  apply wp_bind. eapply wp_mono; [apply (dev_disable_ok cfg env _ _ _ _ _ _ sh _ H1)|].
  intros r s2 (-> & (H2 & Ec & (_ & _ & _ & Hbar) & _) & _ & Hi & Ht). apply wp_ret. split; [by eexists|].
  exists false, a, t, d. split_and!; [done|by rewrite Ec|]. right. specialize (Ho eq_refl).
  destruct Hr as [Hr|(T & B & _)]; [|destruct (Ht T) as [T' O']; split_and!; [done|by apply Hbar|done]].
  destruct St as (_ & _ & _ & Hterm). specialize (Hterm Hr). by rewrite Ho in Hterm.
Qed.

Lemma life_step_ok a s : live_inv cfg s → wp (life_step cfg env a) (λ r s', r = Ok tt ∧ live_inv cfg s') s.
Proof.
  intros Hl. destruct a as [|sh| |st|input count]; cbn [life_step].
  - eapply wp_mono; [by apply reset_work_ok|]. intros r s' (-> & H' & _). done.
  - apply wp_bind. eapply wp_mono; [by apply prepare_ok|]. intros r s' [[o ->] H']. by apply wp_ret.
  - unfold nvme_reset_done. apply wp_bind, wp_in_ctrl.
    assert (∀ c, wp snvme_try_sched_reset (λ r c', (∃ rc, r = Ok rc) ∧ st_step c c' ∧ nc_state c' = nc_state c) c) as Htry.
    { intros c. unfold snvme_try_sched_reset. apply (wp_bind (S := nvme_ctrl)), wp_gets.
      case_bool_decide; cbn [negb]; [|apply wp_ret; by split_and!; [eexists|..]].
      unfold queue_reset_work. apply (wp_bind (S := nvme_ctrl)), (wp_bind (S := nvme_ctrl)), wp_gets. cbn [id].
      destruct (nc_reset_queued c); [apply wp_ret, wp_ret; by split_and!; [eexists|..]|].
      apply (wp_bind (S := nvme_ctrl)), wp_modify, wp_ret, wp_ret. by split_and!; [eexists|..]. }
    eapply wp_mono; [apply Htry|]. intros r c ([rc ->] & St & Est).
    assert (∀ c', st_step (lf_ctrl s) c' → nc_state c' = nc_state (lf_ctrl s) → live_inv cfg (s <| lf_ctrl := c' |>)) as Hc.
    { intros c' St' Est'. destruct Hl as (p & a & t & d & H & Hn & Hr). exists p, a, t, d. cbn. rewrite Est'. split_and!; [|done|done].
      eapply bound_quiet; [|exact H]. by split_and!. }
    apply wp_when; [intros _|intros _; split; [done|by apply Hc]]. apply wp_bind, wp_in_ctrl, wp_modify.
    eapply wp_mono; [apply reset_work_ok|]; [|by intros r s' (-> & H' & _)]. apply (Hc (c <| nc_reset_queued := false |>)); [|done].
    etrans; [exact St|]. by split_and!.
  - apply wp_bind, wp_in_ctrl. eapply wp_mono; [apply change_wp|]. intros r c (St & -> & _). apply wp_ret. split; [done|].
    destruct Hl as (p & a & t & d & H & Hn & Hr). exists p, a, t, d. split_and!; [|by apply St|].
    + eapply bound_quiet; [|exact H]. by split_and!.
    + destruct Hr as [Hr|Hr]; [left; by apply St|by right].
  - destruct Hl as (p & a & t & d & H & Hn & Hr).
    destruct (hmb_store_ok lim (le_hmb env) input count (lf_hmb s) (lco_hmb _ Hcfg) (bo_hmb _ _ _ _ _ _ _ _ H)) as (ret & h & E & Hi).
    apply wp_bind, wp_in_hmb. eapply wp_eq; [exact E|]. apply wp_ret. split; [done|]. exists p, a, t, d. split_and!; [|done|done].
    destruct H. by split.
Qed.

(** ** Removal *)

(** The end of nvme_remove, with one reference left. *)
Lemma drop_dev_ok (t : bool) s :
  lf_held s = hset false false t false false → nc_refs (lf_ctrl s) = 1 →
  wp (release RIod;; nvme_release_prp_pools;; nvme_dev_unmap;; uninit_ctrl) (λ r s', r = Ok tt ∧ gone s s') s.
Proof.
  intros Hh Hn. unfold nvme_release_prp_pools, nvme_dev_unmap, uninit_ctrl. apply wp_bind. give. apply wp_bind, wp_bind. give. give.
  apply wp_bind, wp_bind, wp_in_io, wp_modify. give.
  eapply wp_mono; [apply (free_ctrl_ok _ t _ eq_refl); [cbn; rewrite Hh; clear; sets|done]|].
  intros r s' (-> & E1 & E2 & E3). split; [done|]. by split_and!.
Qed.

Lemma gone_released s s' n : gone s s' → bare cfg s → mem_below n s → released cfg s' ∧ mem_below n s'.
Proof.
  intros (E1 & E2 & E3) (B1 & B2 & B3 & B4 & B5 & B6) Hm. unfold mem_below. rewrite E3. split; [|exact Hm]. by split; rewrite ?E2, ?E3.
Qed.

(** From any state the callbacks can reach, removal gives everything back. *)
Lemma remove_ok s : live_inv cfg s → wp (nvme_remove env) (λ r s', r = Ok tt ∧ released cfg s' ∧ mem_below 0 s') s.
Proof.
  intros (p & a & t & d & H & _ & _). unfold nvme_remove. apply wp_bind. eapply wp_mono; [apply change_state_ok|].
  intros r s1 (Q1 & old & -> & _). pose proof (bound_quiet _ _ _ _ _ _ _ _ _ Q1 H) as H1. pose proof (bo_held _ _ _ _ _ _ _ _ H1) as Hh1.
  apply wp_bind, wp_release; [rewrite Hh1; clear; sets|]. set (s2 := s1 <| lf_held ::= _ |>).
  assert (bound_ok lim p a t d false 1 s2) as H2.
  { pose proof H1 as [_ Ha Ht Hr _ _ _ _]. apply (bound_held cfg p a t d true 1 p a t d false s1); try done. cbn. rewrite Hh1. clear. sets. }
  apply wp_bind, wp_lask. intros present. apply wp_bind.
  assert (wp (when (negb present) (change_state env NVME_CTRL_DEAD;; nvme_dev_disable env true))
    (λ r s', r = Ok tt ∧ ∃ p', bound_ok lim p' a t d false 1 s') (s2 <| lf_clock ::= S |>)) as Habs.
  { assert (bound_ok lim p a t d false 1 (s2 <| lf_clock ::= S |>)) as H3 by (bframe H2).
    apply wp_when; [intros _|intros _; split; [done|by exists p]]. apply wp_bind. eapply wp_mono; [apply change_state_ok|].
    intros r s4 (Q4 & old4 & -> & _). pose proof (bound_quiet _ _ _ _ _ _ _ _ _ Q4 H3) as H4.
    eapply wp_mono; [apply (dev_disable_ok cfg env _ _ _ _ _ _ true _ H4)|]. intros r s5 (-> & (H5 & _) & _). split; [done|by exists false]. }
  eapply wp_mono; [exact Habs|]. intros r s3 (-> & p3 & H3). apply wp_bind. eapply wp_mono; [apply remove_namespaces_ok|].
  intros r s4 [-> Q4]. pose proof (bound_quiet _ _ _ _ _ _ _ _ _ Q4 H3) as H4.
  apply wp_bind. eapply wp_mono; [apply (dev_disable_ok cfg env _ _ _ _ _ _ true _ H4)|].
  intros r s5 (-> & (H5 & _) & V5 & I5 & _). apply (wp_teardown cfg a t d false 1); [done..|]. intros s6 H6 B6 C6.
  pose proof H6 as [Hh6 _ _ Hr6 Hw6 _ _ _]. eapply wp_mono; [by apply (drop_dev_ok t)|]. intros r s7 [-> G7]. split; [done|].
  apply (gone_released s6); [done..|]. rewrite <- C6. by apply mem_below_wf.
Qed.

(** ** Binding *)

End run.
