(* ===== verification/PciLifeBind.v ===== *)
(** * PciLifeBind: nvme_probe is all or nothing

    Every exit of nvme_probe: success leaves a live device that satisfies the
    invariant of [PciLifeRun]; each of the labels of its clean-up gives back
    what was taken before the jump. *)
From S2P Require Import Prelude.
From S2P Require Import Uapi.
From S2P Require Import Kernel.
From S2P Require Import PciData.
From S2P Require Import PciSetup.
From S2P Require Import PciSetupSpec.
From S2P Require Import PciHmb.
From S2P Require Import PciHmbSpec.
From S2P Require Import CoreCtrl.
From S2P Require Import CoreCtrlSpec.
From S2P Require Import PciLife.
From S2P Require Import PciLifeIo.
From S2P Require Import PciOnline.
From S2P Require Import PciLifeSpec.
From S2P Require Import PciLifeRun.

Implicit Types s : life.

(** ** Enabling does not touch the host memory buffer *)

Definition calm s s' : Prop :=
  hm_tables (lf_hmb s') = hm_tables (lf_hmb s) ∧ hm_arrays (lf_hmb s') = hm_arrays (lf_hmb s) ∧ hm_bufs (lf_hmb s') = hm_bufs (lf_hmb s)
  ∧ hm_rest (lf_hmb s') = hm_rest (lf_hmb s) ∧ (hm_view (lf_hmb s) = None → hm_view (lf_hmb s') = None).

#[export] Instance calm_preorder : PreOrder calm.
Proof.
  split; [by intros s|]. intros s1 s2 s3 (A1 & B1 & C1 & R1 & D1) (A2 & B2 & C2 & R2 & D2). split_and!; [congruence..|auto].
Qed.

Lemma calm_in_io {A} (m : M iostate A) : frames calm (in_io m).
Proof. intros s. unfold in_io. by destruct (m (lf_io s)). Qed.
Lemma calm_lask {A} (f : nat → A) : frames calm (lask f).
Proof. by intros s. Qed.
Lemma calm_reg_read {A} (f : nat → A) : frames calm (reg_read f).
Proof. intros s. unfold reg_read. rewrite bind_gets. cbn [id]. by destruct (bar_mapped _). Qed.
Lemma calm_acquire r : frames calm (acquire r).
Proof. intros s. unfold acquire. rewrite bind_gets. cbn [id]. by case_bool_decide. Qed.
Lemma calm_release r : frames calm (release r).
Proof. intros s. unfold release. rewrite bind_gets. cbn [id]. by case_bool_decide. Qed.
Lemma calm_forget : frames calm forget_buffer.
Proof. by intros s. Qed.

Lemma frames_cond {A} (b : bool) (m1 m2 : LM A) : frames calm m1 → frames calm m2 → frames calm (if b then m1 else m2).
Proof. by destruct b. Qed.

Ltac calm_step :=
  match goal with
  | |- frames _ (mbind _ _) => apply frames_bind; [apply _| |intros ?]
  | |- frames _ (mret _) => apply frames_ret; apply _
  | |- frames _ (gets _) => apply frames_gets; apply _
  | |- frames _ (in_io _) => apply calm_in_io
  | |- frames _ (lask _) => apply calm_lask
  | |- frames _ (reg_read _) => apply calm_reg_read
  | |- frames _ (acquire _) => apply calm_acquire
  | |- frames _ (release _) => apply calm_release
  | |- frames _ forget_buffer => apply calm_forget
  | |- frames _ (modify _) => apply frames_modify; intros []; repeat case_match; done
  | |- frames _ (if _ then _ else _) => apply frames_cond
  | |- frames _ (let '_ := ?x in _) => destruct x
  | |- frames _ (match ?x with _ => _ end) => destruct x
  end; cbv beta zeta.

Lemma calm_enable cfg env : frames calm (nvme_pci_enable cfg env).
Proof.
  unfold nvme_pci_enable, nvme_map_cmb, nvme_pci_configure_admin_queue, disable_ctrl, enable_ctrl. repeat calm_step.
Qed.

Lemma wp_and_frame {A} (R : life → life → Prop) (m : LM A) (Q : outcome A → life → Prop) s :
  wp m Q s → frames R m → wp m (λ r s', Q r s' ∧ R s s') s.
Proof. intros H Hf. split; [exact H|apply Hf]. Qed.

Lemma wp_assoc2 {A B C} (m1 : LM A) (m2 : LM B) (k : LM C) Q s : wp ((m1;; m2);; k) Q s → wp (m1;; m2;; k) Q s.
Proof. unfold wp, mbind, M_bind. by destruct (m1 s) as [[x|e|f] s1]. Qed.

Section bind.
Context (cfg : life_cfg) (env : life_env) (Hcfg : life_cfg_ok cfg) (Henv : life_env_ok env).
Abbreviation lim := (lc_hmb cfg).

(** ** The device structure *)

Lemma fresh_ok (x : iostate) :
  the_dev x = fresh_dev cfg → mem_wf x ∧ shares x ∧ tracked x ∧ online_queues (nd_of x) = 0 ∧ queue_count (the_dev x) = 0
    ∧ bar_mapped (the_dev x) = false ∧ irq_vectors (the_dev x) = false ∧ bar_mapped_size (the_dev x) = 0.
Proof.
  intros E. pose proof (lco_budget _ Hcfg) as Hb. pose proof (lco_cpus _ Hcfg) as Hc. unfold fresh_dev in E.
  destruct (dev_budget cfg) as [[w p] cap]. destruct Hb as (Hw & Hp & Hcap & Hsum).
  set (n := nvme_max_io_queues _ _ _ + 1) in E. assert (2 ≤ n ≤ 2 ^ 16) as Hn.
  { subst n. unfold nvme_max_io_queues. destruct (lc_shared_tags cfg); [lia|]. cbn. rewrite wrap_small by lia. lia. }
  assert (∀ i q, io_queues (the_dev x) !! i = Some q → q = fresh_ioq) as Hq.
  { rewrite E. cbn. intros i q [-> _]%lookup_replicate. done. }
  split_and!; [split|split|split| | | | |]; unfold nd_of; rewrite ?E; cbn; try done; try lia.
  - rewrite length_replicate. lia.
  - intros i q H. rewrite E in Hq. rewrite (Hq i q H). cbn. symmetry. apply bool_decide_false. lia.
  - intros i q H. rewrite E in Hq. rewrite (Hq i q H). cbn. symmetry. apply bool_decide_false. lia.
Qed.

(** What a new device structure looks like; [X] is held. *)
Record newborn (X : gset resource) s : Prop := {
  nb_held : lf_held s = X;
  nb_hmb : lf_hmb s = hmb_init;
  nb_refs : nc_refs (lf_ctrl s) = 2;
  nb_tags : nc_tagset (lf_ctrl s) = false;
  nb_admin : lf_admin s = NoAdmin;
}.

Lemma newborn_still X s s' : still s s' → newborn X s → newborn X s'.
Proof. intros (E1 & E2 & E3 & E4 & E5 & E6) []. split; by rewrite ?E1, ?E2, ?E4, ?E6. Qed.

(** A failure that leaves nothing. *)
Definition nothing s : Prop := released cfg s ∧ mem_below 0 s.

Lemma nothing_of s :
  lf_held s = ∅ → lf_hmb s = hmb_init → bar_mapped (the_dev (lf_io s)) = false → irq_vectors (the_dev (lf_io s)) = false →
  mem_wf (lf_io s) → queue_count (the_dev (lf_io s)) = 0 → nothing s.
Proof.
  intros E1 E2 E3 E4 Hw E5. split; [by split; rewrite ?E2|]. rewrite <- E5. by apply mem_below_wf.
Qed.

Lemma alloc_dev_ok s :
  nothing s →
  wp (nvme_pci_alloc_dev cfg env) (λ r s', ∃ rc, r = Ok rc ∧ (rc ≠ 0 → nothing s')
    ∧ (rc = 0 → newborn dev_set s' ∧ the_dev (lf_io s') = fresh_dev cfg)) s.
Proof.
  intros [[Hh] Hm]. unfold nvme_pci_alloc_dev. apply wp_bind, wp_lask. intros []; cbn [negb].
  2:{ apply wp_ret. exists (- ENOMEM). split_and!; [done| |done]. intros _. split; [by split|done]. }
  apply wp_bind. take. apply wp_bind, wp_lask. intros []; cbn [negb].
  2:{ apply wp_bind. give. apply wp_ret. exists (- ENOMEM). split_and!; [done| |done]. intros _. split; [split; try done|done]. held_sets. }
  apply wp_bind. take. apply wp_bind, wp_in_io, wp_modify, wp_bind, wp_in_hmb, wp_modify, wp_bind. take.
  apply wp_bind, wp_lask. intros rc. case_bool_decide as Hrc; cbn [negb].
  - apply wp_bind. take. apply wp_bind, wp_in_ctrl, wp_modify, wp_bind, wp_modify, wp_ret. exists 0. split_and!; [done|done|].
    intros _. split; [|done]. split; try done. held_sets.
  - apply wp_bind. give. apply wp_bind. give. apply wp_bind. give. apply wp_ret. exists rc. split_and!; [done| |done]. intros _.
    destruct (fresh_ok (mk_iostate (fresh_dev cfg) (io_clock (lf_io s)) []) eq_refl) as (Hw & _ & _ & _ & Hc & Hb & Hi & _).
    apply nothing_of; try done. held_sets.
Qed.

(** Mapped, but not yet enabled. *)
Definition mapped s : Prop :=
  mem_wf (lf_io s) ∧ shares (lf_io s) ∧ tracked (lf_io s) ∧ online_queues (nd_of (lf_io s)) = 0
  ∧ queue_count (the_dev (lf_io s)) = 0 ∧ bar_mapped (the_dev (lf_io s)) = true ∧ irq_vectors (the_dev (lf_io s)) = false.

(** The first mapping, which may fail. *)
Lemma first_map_ok size x :
  the_dev x = fresh_dev cfg →
  wp (nvme_remap_bar (first_map env) size) (λ r x', mem_kept x x' ∧ (tracked x → tracked x') ∧ nd_of x' = nd_of x
    ∧ queue_count (the_dev x') = queue_count (the_dev x) ∧ irq_vectors (the_dev x') = irq_vectors (the_dev x)
    ∧ io_queues (the_dev x') = io_queues (the_dev x)
    ∧ ∃ rc, r = Ok rc ∧ (rc = 0 → bar_mapped_size (the_dev x) < size → bar_mapped (the_dev x') = true)
        ∧ (rc ≠ 0 → the_dev x' = the_dev x)) x.
Proof.
  intros Hd. destruct (le_ioremap env (io_clock x)) eqn:Em.
  - pose proof (remap_ok env (leo_map _ Henv) size x) as H. revert H. unfold nvme_remap_bar, wp. rewrite !bind_gets. cbn [id first_map ie_bar_len].
    case_bool_decide; [done|]. case_bool_decide; [done|].
    unfold ask, mbind, M_bind, gets, modify, mret, M_ret, upd_dev. cbn. by rewrite Em, (leo_map _ Henv).
  - assert (∀ c l, mem_kept x (mk_iostate (the_dev x) c l)) as Hk by (intros c l; by apply kept_same).
    unfold nvme_remap_bar, wp. rewrite bind_gets. cbn [id first_map ie_bar_len].
    case_bool_decide; [split_and!; try done; exists 0; split_and!; [done|lia|done]|].
    case_bool_decide; [split_and!; try done; by exists (- ENOMEM)|].
    unfold ask, mbind, M_bind, gets, modify, mret, M_ret, upd_dev. cbn. rewrite Em. cbn.
    assert ((the_dev x) <| bar_mapped := false |> <| bar_mapped_size := 0 |> = the_dev x) as Eq.
    { rewrite Hd. unfold fresh_dev. by destruct (dev_budget cfg) as [[w p] cap]. }
    unfold set, set_the_dev, set_io_clock in *. cbn in *. rewrite Eq. split_and!; try done; [intros []; by split|]. by exists (- ENOMEM).
Qed.

Lemma dev_map_ok s :
  newborn dev_set s → the_dev (lf_io s) = fresh_dev cfg →
  wp (nvme_dev_map env) (λ r s', ∃ rc, r = Ok rc
    ∧ (rc ≠ 0 → newborn dev_set s' ∧ the_dev (lf_io s') = fresh_dev cfg)
    ∧ (rc = 0 → newborn (dev_set ∪ {[RRegions]}) s' ∧ mapped s')) s.
Proof.
  intros [Hh] Hd. destruct (fresh_ok (lf_io s) Hd) as (Hw & Hsh & Ht & Ho & Hc & Hb & Hi & Hz).
  unfold nvme_dev_map. apply wp_bind, wp_lask. intros []; cbn [negb]; [|apply wp_ret; by exists (- ENODEV)].
  apply wp_bind. take. apply wp_bind, wp_in_io. eapply wp_mono; [by apply first_map_ok|].
  intros r x (Hk & Ht' & En & Eq & Ei & _ & rc & -> & Hok & Hko). cbn in *. case_bool_decide as Hrc.
  - apply wp_ret. exists 0. split_and!; [done|done|]. intros _. split; [split; try done; held_sets|].
    split_and!; cbn; [by apply Hk|by eapply shares_kept|by apply Ht'|congruence|congruence| |congruence].
    apply Hok; [done|]. rewrite Hz. unfold NVME_REG_DBS. lia.
  - apply wp_bind. give. apply wp_ret. exists (- ENODEV). split_and!; [done| |done]. intros _. split; [split; try done; held_sets|].
    cbn. rewrite (Hko Hrc). done.
Qed.

Lemma pools_ok s :
  newborn (dev_set ∪ {[RRegions]}) s →
  wp (nvme_setup_prp_pools env) (λ r s', lf_io s' = lf_io s ∧ ∃ rc, r = Ok rc
    ∧ (rc ≠ 0 → newborn (dev_set ∪ {[RRegions]}) s') ∧ (rc = 0 → newborn (dev_set ∪ {[RRegions; RPrpPage; RPrpSmall]}) s')) s.
Proof.
  intros [Hh]. unfold nvme_setup_prp_pools. apply wp_bind, wp_lask. intros []; cbn [negb].
  2:{ apply wp_ret. split; [done|]. exists (- ENOMEM). split_and!; [done| |done]. intros _. by split. }
  apply wp_bind. take. apply wp_bind, wp_lask. intros []; cbn [negb].
  - apply wp_bind. take. apply wp_ret. split; [done|]. exists 0. split_and!; [done|done|]. intros _. split; try done. held_sets.
  - apply wp_bind. give. apply wp_ret. split; [done|]. exists (- ENOMEM). split_and!; [done| |done]. intros _. split; try done. held_sets.
Qed.

Lemma iod_ok s :
  newborn (dev_set ∪ {[RRegions; RPrpPage; RPrpSmall]}) s →
  wp (nvme_pci_alloc_iod_mempool env) (λ r s', lf_io s' = lf_io s ∧ ∃ rc, r = Ok rc
    ∧ (rc ≠ 0 → newborn (dev_set ∪ {[RRegions; RPrpPage; RPrpSmall]}) s')
    ∧ (rc = 0 → newborn (hset false false false false false) s')) s.
Proof.
  intros [Hh]. unfold nvme_pci_alloc_iod_mempool. apply wp_bind, wp_lask. intros []; cbn [negb].
  - apply wp_bind. take. apply wp_ret. split; [done|]. exists 0. split_and!; [done|done|]. intros _. split; try done. held_sets.
  - apply wp_ret. split; [done|]. exists (- ENOMEM). split_and!; [done| |done]. intros _. by split.
Qed.

Lemma newborn_bound s : newborn (hset false false false false false) s → mapped s → bound_ok lim false false false false false 2 s.
Proof.
  intros [] (Hw & Hsh & _). split; try done.
  - by rewrite nb_admin0.
  - rewrite nb_hmb0. apply (inv_no_view lim []); [|done]. unfold hmb_rep. cbn. by split_and!.
Qed.

Lemma gone_nothing X s s' : newborn X s → mapped s → gone s s' → nothing s'.
Proof.
  intros [] (Hw & _ & _ & _ & Hc & _ & Hi) G. apply (gone_released cfg s s' 0 G).
  - unfold bare. rewrite nb_hmb0. by split_and!.
  - rewrite <- Hc. by apply mem_below_wf.
Qed.

(** ** Bringing it up *)

Lemma bring_up_ok s :
  bound_ok lim true false false false false 2 s → raised_to 1 s s →
  wp (probe_bring_up cfg env) (λ r s', ∃ rc a t d, r = Ok rc ∧ bound_ok lim true a t d false 2 s'
    ∧ (rc = 0 → a = true ∧ ready true s' ∧ nc_state (lf_ctrl s') = NVME_CTRL_LIVE)) s.
Proof.
  intros H R. destruct Henv as [Hio Hmap]. unfold probe_bring_up. apply wp_bind, wp_lask. intros rc. case_bool_decide as Hrc; cbn [negb].
  2:{ apply wp_ret. exists rc, false, false, false. split_and!; [done|bframe H|done]. }
  pose proof H as [Hh _ Htg Hn _ _ _ _]. apply wp_bind. take. apply wp_bind, wp_modify. set (s1 := _ <| lf_admin := AdminLive |>).
  assert (bound_ok lim true true false false false 2 s1) as H1.
  { apply (bound_held cfg true false false false false 2 _ _ _ _ _ s); try done. held_sets. }
  apply wp_bind. eapply wp_mono; [apply (connect_ok cfg env Hio Hmap (lco_hmb _ Hcfg) (lco_poll _ Hcfg) _ _ _ _ _ _ H1 R)|].
  intros r s2 (rc2 & d2 & -> & H2 & _ & Hok2). case_bool_decide as Hrc2; cbn [negb]; [|apply wp_ret; by exists rc2, true, false, d2].
  destruct (Hok2 Hrc2) as (T2 & O2 & C2). apply wp_bind, wp_gets, wp_bind. cbn [id].
  assert (wp (when (bool_decide (1 < online_queues (io_ndev (the_dev (lf_io s2)))))
      (rc ← lask (le_io_tags env);
       when (bool_decide (rc = 0)) (acquire RIoTags;; in_ctrl (modify (λ c, c <| nc_tagset := true |>)));;
       dbbuf_set env)) (λ r s', r = Ok tt ∧ ∃ t d, bound_ok lim true true t d false 2 s' ∧ lf_io s' = lf_io s2
         ∧ lf_cc_enable s' = lf_cc_enable s2) s2) as Htags.
  { apply wp_when; [intros _|intros _; split; [done|by exists false, d2]]. apply wp_bind, wp_lask. intros rc'. apply wp_bind.
    assert (∀ s3 t3, bound_ok lim true true t3 d2 false 2 s3 → lf_io s3 = lf_io s2 → lf_cc_enable s3 = lf_cc_enable s2 →
      wp (dbbuf_set env) (λ r s', r = Ok tt ∧ ∃ t d, bound_ok lim true true t d false 2 s' ∧ lf_io s' = lf_io s2
         ∧ lf_cc_enable s' = lf_cc_enable s2) s3) as Hset.
    { intros s3 t3 H3 E3 F3. eapply wp_mono; [apply (life_dbbuf_set_ok cfg env _ _ _ _ _ _ _ H3)|].
      intros r s4 (-> & (A1 & _ & _ & A4) & d4 & H4). split; [done|]. exists t3, d4. split_and!; [done|congruence..]. }
    apply wp_when; [intros _|intros _; apply (Hset _ false); [bframe H2|done|done]].
    pose proof H2 as [Hh2 Ha2 _ Hn2 _ _ _ _]. apply wp_bind. take. apply wp_in_ctrl, wp_modify. apply (Hset _ true); [|done|done].
    apply (bound_held cfg true true false d2 false 2 _ _ _ _ _ s2); try done. held_sets. }
  eapply wp_mono; [exact Htags|]. intros r s3 (-> & t3 & d3 & H3 & E3 & F3).
  apply wp_bind. eapply wp_mono; [apply change_state_ok|]. intros r s4 (Q4 & old & -> & E4 & _). apply wp_ret.
  pose proof (bound_quiet _ _ _ _ _ _ _ _ _ Q4 H3) as H4. destruct Q4 as (_ & _ & Ei & _ & Ecc & _).
  eexists _, true, t3, d3. split_and!; [done|done|]. destruct (state_change_allowed old NVME_CTRL_LIVE) eqn:Ea; [intros _|done].
  split_and!; [done| |rewrite E4; unfold next_state; by rewrite Ea].
  split_and!; [by rewrite Ei, E3|by apply (bo_bar _ _ _ _ _ _ _ _ H4)|by rewrite Ecc, F3, C2].
Qed.

(** The label [out_disable]. *)
Lemma undo_enable_ok p a t d s : bound_ok lim p a t d false 2 s → wp (undo_enable env) (λ r s', r = Ok tt ∧ nothing s') s.
Proof.
  intros H. unfold undo_enable. apply wp_bind. eapply wp_mono; [apply change_state_ok|]. intros r s1 (Q1 & old & -> & _).
  pose proof (bound_quiet _ _ _ _ _ _ _ _ _ Q1 H) as H1.
  apply wp_bind. eapply wp_mono; [apply (dev_disable_ok cfg env _ _ _ _ _ _ true _ H1)|].
  intros r s2 (-> & (H2 & _) & V2 & I2 & _). apply (wp_teardown cfg a t d false 2); [done..|]. intros s3 H3 B3 C3.
  pose proof H3 as [Hh3 _ _ Hr3 Hw3 _ _ _]. eapply wp_mono; [by apply (undo_iod_ok s3 t)|]. intros r s4 [-> G]. split; [done|].
  apply (gone_released cfg s3 s4 0 G B3). rewrite <- C3. by apply mem_below_wf.
Qed.

(** The device is the PCI core's; one reference remains. *)
Lemma finish_ok t d s :
  bound_ok lim true true t d false 2 s → ready true s → nc_state (lf_ctrl s) = NVME_CTRL_LIVE →
  wp (acquire RDrvdata;; start_ctrl;; put_ctrl;; mret 0) (λ r s', r = Ok 0 ∧ bound_ok lim true true t d true 1 s' ∧ ready true s'
    ∧ nc_state (lf_ctrl s') = NVME_CTRL_LIVE) s.
Proof.
  intros H R L. pose proof H as [Hh Ha Htg Hn _ _ _ _]. apply wp_bind. take. set (s1 := s <| lf_held ::= _ |>).
  assert (bound_ok lim true true t d true 2 s1) as H1.
  { apply (bound_held cfg true true t d false 2 _ _ _ _ _ s); try done. held_sets. }
  apply wp_bind. eapply wp_mono; [apply start_ctrl_ok|]. intros r s2 (-> & E1 & E2 & E3 & E4 & E5 & E6 & E7 & E8).
  apply wp_bind. eapply wp_mono; [apply (put_ref_ok 2); [by rewrite E8|done]|].
  intros r s3 (-> & F1 & F2 & F3 & F4 & F5 & F6 & F7 & F8). apply wp_ret. destruct H1.
  split_and!; [done| | |by rewrite F8, E6].
  - split; rewrite ?F1, ?F2, ?F3, ?F5, ?F6, ?E1, ?E2, ?E3, ?E4, ?E7; done.
  - destruct R as (T & B & C). split_and!; rewrite ?F2, ?F7, ?E3, ?E5; done.
Qed.

(** ** nvme_probe *)

(** On failure at most the admin queue's memory stays behind. *)
Definition probe_post (r : outcome Z) s' : Prop :=
  ∃ rc, r = Ok rc
    ∧ (rc = 0 → (∃ t d, bound_ok lim true true t d true 1 s') ∧ ready true s' ∧ nc_state (lf_ctrl s') = NVME_CTRL_LIVE)
    ∧ (rc ≠ 0 → released cfg s' ∧ (mem_below 0 s' ∨ mem_below 1 s')).

Lemma probe_fail rc s : rc ≠ 0 → nothing s → probe_post (Ok rc) s.
Proof. intros Hrc [Hr Hm]. exists rc. split_and!; [done|done|]. intros _. split; [done|by left]. Qed.

Lemma enable_failed s s1 :
  newborn (hset false false false false false) s → mapped s → calm s s1 →
  onward cfg false false false false false 2 s s1 → irq_vectors (the_dev (lf_io s1)) = false →
  wp undo_iod (λ r s', r = Ok tt ∧ released cfg s' ∧ (mem_below 0 s' ∨ mem_below 1 s')) s1.
Proof.
  intros [] (_ & _ & _ & _ & Hc & _) (C1 & C2 & C3 & C5 & C4) (H1 & _ & _ & Hq) Hi. pose proof H1 as [Hh _ _ Hn Hw _ _ _].
  eapply wp_mono; [by apply (undo_iod_ok s1 false)|]. intros r s2 [-> G]. split; [done|].
  assert (bare cfg s1) as B.
  { rewrite nb_hmb0 in *. split_and!; [done|by rewrite C1|by rewrite C2|by rewrite C3|by apply C4|by rewrite C5]. }
  destruct (gone_released cfg s1 s2 _ G B (mem_below_wf s1 Hw)) as [Hr Hm]. split; [done|]. pose proof (mw_count _ Hw).
  destruct (decide (queue_count (the_dev (lf_io s1)) = 0)) as [E|E]; [left; by rewrite <- E|].
  right. replace 1 with (queue_count (the_dev (lf_io s1))) by lia. done.
Qed.

Lemma probe_ok s : nothing s → wp (nvme_probe cfg env true) probe_post s.
Proof.
  intros Hs. unfold nvme_probe. cbn [negb]. apply wp_bind. eapply wp_mono; [by apply alloc_dev_ok|].
  intros r s1 (rc1 & -> & Hko1 & Hok1). case_bool_decide as Hrc1; cbn [negb]; [|apply wp_ret; apply probe_fail; auto].
  destruct (Hok1 Hrc1) as [N1 D1]. apply wp_bind. eapply wp_mono; [by apply dev_map_ok|].
  intros r s2 (rc2 & -> & Hko2 & Hok2). case_bool_decide as Hrc2; cbn [negb].
  2:{ destruct (Hko2 Hrc2) as [[Hh Hm Hr _ _] D2]. destruct (fresh_ok (lf_io s2) D2) as (Hw & _ & _ & _ & Hc & Hb & Hi & _).
      apply wp_assoc2, wp_bind. eapply wp_mono; [apply (two_refs_ok s2 false); [rewrite Hh; sets|done]|].
      intros r s3 (-> & E1 & E2 & E3). apply wp_ret, probe_fail; [done|]. by apply nothing_of; rewrite ?E2, ?E3. }
  destruct (Hok2 Hrc2) as [N2 M2]. apply wp_bind. eapply wp_mono; [by apply pools_ok|].
  intros r s3 (E3 & rc3 & -> & Hko3 & Hok3). assert (mapped s3) as M3 by (unfold mapped; by rewrite E3).
  case_bool_decide as Hrc3; cbn [negb].
  2:{ pose proof (Hko3 Hrc3) as N3. destruct (N3) as [Hh _ Hr _ _]. apply wp_bind.
      eapply wp_mono; [apply (undo_map_ok s3 false); [rewrite Hh; sets|done]|]. intros r s4 [-> G]. apply wp_ret, probe_fail; [done|].
      by eapply gone_nothing. }
  apply wp_bind. eapply wp_mono; [by apply iod_ok, Hok3|].
  intros r s4 (E4 & rc4 & -> & Hko4 & Hok4). assert (mapped s4) as M4 by (unfold mapped; by rewrite E4).
  case_bool_decide as Hrc4; cbn [negb].
  2:{ pose proof (Hko4 Hrc4) as N4. destruct (N4) as [Hh _ Hr _ _]. apply wp_bind.
      eapply wp_mono; [apply (undo_pools_ok s4 false); [rewrite Hh; sets|done]|]. intros r s5 [-> G]. apply wp_ret, probe_fail; [done|].
      by eapply gone_nothing. }
  pose proof (Hok4 Hrc4) as N4. pose proof (newborn_bound s4 N4 M4) as H4. pose proof M4 as (_ & _ & T4 & O4 & _ & B4 & I4).
  apply wp_bind. eapply wp_mono; [apply (wp_and_frame calm); [by apply (pci_enable_ok cfg env (leo_map _ Henv) _ _ _ _ _ _ H4)|apply calm_enable]|].
  intros r s5 [(rc5 & -> & Hok5 & Hko5) K5]. case_bool_decide as Hrc5; cbn [negb].
  2:{ destruct (Hko5 Hrc5) as [W5 I5]. apply wp_bind. eapply wp_mono; [by apply (enable_failed s4)|]. intros r s6 (-> & Hrel).
      apply wp_ret. by exists rc5. }
  destruct (Hok5 Hrc5) as [(H5 & _) R5]. apply wp_bind. eapply wp_mono; [by apply bring_up_ok|].
  intros r s6 (rc6 & a & t & d & -> & H6 & Hok6). case_bool_decide as Hrc6; cbn [negb].
  - destruct (Hok6 Hrc6) as (-> & R6 & L6). eapply wp_mono; [by apply (finish_ok t d)|]. intros r s7 (-> & H7 & R7 & L7).
    exists 0. split_and!; [done| |done]. intros _. split_and!; [by exists t, d|done..].
  - apply wp_bind. eapply wp_mono; [by apply (undo_enable_ok true a t d)|]. intros r s7 [-> N7]. apply wp_ret. by apply probe_fail.
Qed.

End bind.
