(* ===== verification/LifeTheorems.v ===== *)
(** * LifeTheorems: what binding, resetting and removing a device promise

    Theorems over PciLife with concrete devices: success and failure of
    nvme_probe, resets, removal after any history of callbacks, and two
    failures of the clean-up. *)
From S2P Require Import Prelude.
From S2P Require Import Uapi.
From S2P Require Import Kernel.
From S2P Require Import PciData.
From S2P Require Import PciSetup.
From S2P Require Import PciSetupSpec.
From S2P Require Import PciHmb.
From S2P Require Import PciHmbSpec.
From S2P Require Import CoreCtrl.
From S2P Require Import PciLife.
From S2P Require Import PciLifeIo.
From S2P Require Import PciOnline.
From S2P Require Import PciLifeSpec.
From S2P Require Import PciLifeRun.
From S2P Require Import PciLifeBind.






(** ** Concrete devices *)

Definition life_cfg0 : life_cfg := mk_lcfg None 0 0 2 false false false 1024 false false (2 ^ 20) (mk_hlim 2048 64 0 0 128).
Definition io_env0 (status : Z) (mapping : nat → bool) (irq : nat → Z) : io_env :=
  mk_ioenv (λ _ _, (status, 1 + 1 * 65536)) (λ _, true) (λ _, true) 65536 mapping (λ _ m, m) irq (λ _, true) (λ _, false) (λ _, true)
    (λ _, 0) (λ _, 0) (λ _, true) (λ _, true).
Definition hmb_env0 : hmb_env := mk_henv (λ n, Some (Z.of_nat n)) (λ _, true) (λ n, Some (65536 * Z.of_nat n)) (λ _, 0).
Definition life_env0 (first : nat → bool) (dstrd : Z) (io : io_env) : life_env :=
  mk_lenv io hmb_env0 (λ _, true) (λ _, true) first (λ _, true) (λ _, 1) (λ _, 1) (λ _, (64, dstrd)) (λ _, 0) (λ _, 0) (λ _, 0) (λ _, true) (λ _, 0) (λ _, 0)
    (λ _, (0, true)) (λ _, 0) (λ _, 0) (λ _, 0) (λ _, true) (λ _, 0) (λ _, false) (λ _, true) (λ _, []).
Definition unbound : life :=
  mk_life (mk_iostate (mk_iodev (mk_ndev 0 0 0 0 0 0 0 0 0 0 false 0 0) [] 0 0 0 0 0 0 0 0 false false false 0 false false false false) 0 [])
    (mk_nctrl NVME_CTRL_NEW None false false false false false 0 []) hmb_init ∅ NoAdmin false false false false false 0.

Definition env_ok0 : life_env := life_env0 (λ _, true) 0 (io_env0 0 (λ _, true) (λ _, 0)).
(** No interrupt for the admin queue. *)
Definition env_no_irq : life_env := life_env0 (λ _, true) 0 (io_env0 0 (λ _, true) (λ _, - ENOMEM)).
(** Doorbells far apart, and ioremap works once, for the first window. *)
Definition env_one_map : life_env := life_env0 (λ _, true) 10 (io_env0 0 (λ _, false) (λ _, 0)).
(** The controller refuses I/O queues. *)
Definition env_no_ioq : life_env := life_env0 (λ _, true) 0 (io_env0 2 (λ _, true) (λ _, 0)).












(** ** Where the clean-up falls short *)

(** A failure of nvme_pci_enable after nvme_alloc_queue leaves the admin
    queue's DMA memory allocated although the device structure is freed; a
    register window that cannot be extended for the doorbells makes the
    clean-up read the status register through a null pointer; and a reset that
    obtains the I/O queues the probe did not get leaves a live controller with
    queues online and no tag set. *)
Theorem bind_failures :
  (let '(r, s) := nvme_probe life_cfg0 env_no_irq true unbound in
   r = Ok (- ENOMEM) ∧ lf_held s = ∅ ∧ (ioq_allocated <$> io_queues (the_dev (lf_io s))) = [true; false; false])
  ∧ (nvme_probe life_cfg0 env_one_map true unbound).1 = Fault NullDeref
  ∧ (let s := (nvme_probe life_cfg0 env_no_ioq true unbound).2 in
     let s' := (nvme_reset_work life_cfg0 env_ok0 (life_step life_cfg0 env_ok0 (ActState NVME_CTRL_RESETTING) s).2).2 in
     nc_state (lf_ctrl s) = NVME_CTRL_LIVE ∧ nc_state (lf_ctrl s') = NVME_CTRL_LIVE ∧ online_queues (io_ndev (the_dev (lf_io s'))) = 3
     ∧ nc_tagset (lf_ctrl s') = false).
Proof. vm_compute. repeat split. Qed.
