(* ===== verification/SpaceAlloc.v ===== *)
(** * Slot numbers (csrc/storage_objects/space_allocator.h, space_allocator.cpp)

    The allocator of the storage-object layer hands out slot numbers.  The
    state is the class's members; every operation is a function on it (the
    code runs each one under the allocator's lock).  The vectors [states_] and
    [generations_] are lists indexed by slot, the deques are lists, the set of
    scrubs in flight is a finite set.  The second half is the invariant that
    ties the queues to the states, its preservation by every operation, and
    what each operation does. *)
From S2P Require Import Prelude.

(** ** Data *)
Inductive SlotState : Set := kFree | kReserved | kCommitted | kReclaiming.

#[export] Instance SlotState_eq_dec : EqDecision SlotState.
Proof. solve_decision. Defined.

Record SpaceAllocatorConfig := {
  cfg_capacity_bytes : Z;
  cfg_slot_bytes : Z;
}.

Record SpaceAllocatorStats := {
  st_total_slots : Z;
  st_free_slots : Z;
  st_reserved_slots : Z;
  st_committed_slots : Z;
  st_reclaiming_slots : Z;
  st_unmaterialised_slots : Z;
}.

Record SlotReservation := {
  rs_slots : list Z;
  rs_generations : list Z;
  rs_rejected : Z;
}.

Record SpaceAllocator := {
  total_slots : Z;
  slot_bytes : Z;
  high_water : Z;
  ready_limit : Z;
  states : list SlotState;
  generations : list Z;
  free_list : list Z;
  reclaim_queue : list Z;
  reclaim_in_flight : gset Z;
}.

#[export] Instance set_total_slots : Setter total_slots := λ f r,
  {| total_slots := f (total_slots r); slot_bytes := slot_bytes r; high_water := high_water r; ready_limit := ready_limit r;
     states := states r; generations := generations r; free_list := free_list r; reclaim_queue := reclaim_queue r;
     reclaim_in_flight := reclaim_in_flight r |}.
#[export] Instance set_high_water : Setter high_water := λ f r,
  {| total_slots := total_slots r; slot_bytes := slot_bytes r; high_water := f (high_water r); ready_limit := ready_limit r;
     states := states r; generations := generations r; free_list := free_list r; reclaim_queue := reclaim_queue r;
     reclaim_in_flight := reclaim_in_flight r |}.
#[export] Instance set_ready : Setter ready_limit := λ f r,
  {| total_slots := total_slots r; slot_bytes := slot_bytes r; high_water := high_water r; ready_limit := f (ready_limit r);
     states := states r; generations := generations r; free_list := free_list r; reclaim_queue := reclaim_queue r;
     reclaim_in_flight := reclaim_in_flight r |}.
#[export] Instance set_states : Setter states := λ f r,
  {| total_slots := total_slots r; slot_bytes := slot_bytes r; high_water := high_water r; ready_limit := ready_limit r;
     states := f (states r); generations := generations r; free_list := free_list r; reclaim_queue := reclaim_queue r;
     reclaim_in_flight := reclaim_in_flight r |}.
#[export] Instance set_generations : Setter generations := λ f r,
  {| total_slots := total_slots r; slot_bytes := slot_bytes r; high_water := high_water r; ready_limit := ready_limit r;
     states := states r; generations := f (generations r); free_list := free_list r; reclaim_queue := reclaim_queue r;
     reclaim_in_flight := reclaim_in_flight r |}.
#[export] Instance set_free_list : Setter free_list := λ f r,
  {| total_slots := total_slots r; slot_bytes := slot_bytes r; high_water := high_water r; ready_limit := ready_limit r;
     states := states r; generations := generations r; free_list := f (free_list r); reclaim_queue := reclaim_queue r;
     reclaim_in_flight := reclaim_in_flight r |}.
#[export] Instance set_reclaim_queue : Setter reclaim_queue := λ f r,
  {| total_slots := total_slots r; slot_bytes := slot_bytes r; high_water := high_water r; ready_limit := ready_limit r;
     states := states r; generations := generations r; free_list := free_list r; reclaim_queue := f (reclaim_queue r);
     reclaim_in_flight := reclaim_in_flight r |}.
#[export] Instance set_in_flight : Setter reclaim_in_flight := λ f r,
  {| total_slots := total_slots r; slot_bytes := slot_bytes r; high_water := high_water r; ready_limit := ready_limit r;
     states := states r; generations := generations r; free_list := free_list r; reclaim_queue := reclaim_queue r;
     reclaim_in_flight := f (reclaim_in_flight r) |}.

Definition UINT64_MAX : Z := 2 ^ 64 - 1.

(** The default member initialisers: nothing configured, no ready limit. *)
Definition new_allocator : SpaceAllocator :=
  {| total_slots := 0; slot_bytes := 0; high_water := 0; ready_limit := UINT64_MAX;
     states := []; generations := []; free_list := []; reclaim_queue := []; reclaim_in_flight := ∅ |}.

(** ** Operations *)
Definition configure (config : SpaceAllocatorConfig) (a : SpaceAllocator) : bool * SpaceAllocator :=
  if bool_decide (cfg_slot_bytes config = 0) then (false, a) else
  let derived := cfg_capacity_bytes config / cfg_slot_bytes config in
  if bool_decide (derived = 0) then (false, a) else
  (true, {| total_slots := derived; slot_bytes := cfg_slot_bytes config; high_water := 0;
            ready_limit := ready_limit a;
            states := replicate (Z.to_nat derived) kFree;
            generations := replicate (Z.to_nat derived) 0;
            free_list := []; reclaim_queue := []; reclaim_in_flight := ∅ |}).

Definition set_ready_limit (limit : Z) (a : SpaceAllocator) : SpaceAllocator :=
  a <| ready_limit := limit |>.

Definition take_free_slot_locked (a : SpaceAllocator) : Z * SpaceAllocator :=
  match free_list a with
  | slot :: rest => (slot, a <| free_list := rest |>)
  | [] =>
      if bool_decide (high_water a < Z.min (total_slots a) (ready_limit a))
      then (high_water a, a <| high_water ::= λ h, u64 (h + 1) |>)
      else (total_slots a, a)
  end.

(** Vector reads and writes at an index the callers have compared with
    [total_slots_], the length of both vectors. *)
Definition state_at (a : SpaceAllocator) (slot : Z) : SlotState := default kFree (states a !! Z.to_nat slot).
Definition generation_at (a : SpaceAllocator) (slot : Z) : Z := default 0 (generations a !! Z.to_nat slot).
Definition put_state (slot : Z) (st : SlotState) (a : SpaceAllocator) : SpaceAllocator :=
  a <| states ::= <[Z.to_nat slot := st]> |>.

(** The loop of [reserve], [n] iterations left. *)
Fixpoint reserve_loop (n : nat) (a : SpaceAllocator) : SlotReservation * SpaceAllocator :=
  match n with
  | O => ({| rs_slots := []; rs_generations := []; rs_rejected := 0 |}, a)
  | S n' =>
      let '(slot, a1) := take_free_slot_locked a in
      if bool_decide (total_slots a1 ≤ slot)
      then ({| rs_slots := []; rs_generations := []; rs_rejected := Z.of_nat n |}, a1)
      else
        let a2 := put_state slot kReserved a1 in
        let '(out, a3) := reserve_loop n' a2 in
        ({| rs_slots := slot :: rs_slots out;
            rs_generations := generation_at a2 slot :: rs_generations out;
            rs_rejected := rs_rejected out |}, a3)
  end.
Definition reserve (count : Z) (a : SpaceAllocator) : SlotReservation * SpaceAllocator :=
  reserve_loop (Z.to_nat count) a.

Definition commit_slot (a : SpaceAllocator) (slot : Z) : SpaceAllocator :=
  if bool_decide (total_slots a ≤ slot) then a else
  if bool_decide (state_at a slot = kReserved) then put_state slot kCommitted a else a.
Definition commit (slots : list Z) (a : SpaceAllocator) : SpaceAllocator := foldl commit_slot a slots.

Definition abort_slot (a : SpaceAllocator) (slot : Z) : SpaceAllocator :=
  if bool_decide (total_slots a ≤ slot) then a else
  if bool_decide (state_at a slot ≠ kReserved) then a else
  (put_state slot kReclaiming a) <| reclaim_queue ::= λ q, q ++ [slot] |>.
Definition abort (slots : list Z) (a : SpaceAllocator) : SpaceAllocator := foldl abort_slot a slots.

Definition release_slot (r : Z * SpaceAllocator) (slot : Z) : Z * SpaceAllocator :=
  let '(released, a) := r in
  if bool_decide (total_slots a ≤ slot) then r else
  if bool_decide (state_at a slot ≠ kCommitted) then r else
  (released + 1, (put_state slot kReclaiming a) <| reclaim_queue ::= λ q, q ++ [slot] |>).
Definition release (slots : list Z) (a : SpaceAllocator) : Z * SpaceAllocator :=
  foldl release_slot (0, a) slots.

(** [take_reclaimable]: one iteration per entry taken off the queue. *)
Fixpoint take_reclaimable_loop (queue : list Z) (max : Z) (a : SpaceAllocator) : list Z * SpaceAllocator :=
  match queue with
  | [] => ([], a)
  | slot :: rest =>
      if bool_decide (0 < max) then
        let a1 := a <| reclaim_queue := rest |> <| reclaim_in_flight ::= λ s, {[slot]} ∪ s |> in
        let '(out, a2) := take_reclaimable_loop rest (max - 1) a1 in
        (slot :: out, a2)
      else ([], a)
  end.
Definition take_reclaimable (max : Z) (a : SpaceAllocator) : list Z * SpaceAllocator :=
  take_reclaimable_loop (reclaim_queue a) max a.

Definition finish_slot (a : SpaceAllocator) (slot : Z) : SpaceAllocator :=
  if bool_decide (total_slots a ≤ slot) then a else
  if bool_decide (slot ∉ reclaim_in_flight a) then a else
  (put_state slot kFree a) <| reclaim_in_flight ::= λ s, s ∖ {[slot]} |>
    <| generations ::= alter (λ g, u64 (g + 1)) (Z.to_nat slot) |>
    <| free_list ::= λ q, q ++ [slot] |>.
Definition finish_reclaim (slots : list Z) (a : SpaceAllocator) : SpaceAllocator := foldl finish_slot a slots.

Definition requeue_slot (a : SpaceAllocator) (slot : Z) : SpaceAllocator :=
  if bool_decide (total_slots a ≤ slot) then a else
  if bool_decide (slot ∉ reclaim_in_flight a) then a else
  a <| reclaim_in_flight ::= λ s, s ∖ {[slot]} |> <| reclaim_queue ::= λ q, q ++ [slot] |>.
Definition requeue_reclaim (slots : list Z) (a : SpaceAllocator) : SpaceAllocator := foldl requeue_slot a slots.

Definition state_of (a : SpaceAllocator) (slot : Z) : SlotState :=
  if bool_decide (total_slots a ≤ slot) then kFree else state_at a slot.
Definition generation_of (a : SpaceAllocator) (slot : Z) : Z :=
  if bool_decide (total_slots a ≤ slot) then 0 else generation_at a slot.

(** [stats] walks the slots below the high-water mark. *)
Definition count_state (st : SlotState) (a : SpaceAllocator) : Z :=
  Z.of_nat (length (filter (λ s, state_at a s = st) (seqZ 0 (high_water a)))).
Definition stats (a : SpaceAllocator) : SpaceAllocatorStats :=
  {| st_total_slots := total_slots a;
     st_free_slots := count_state kFree a;
     st_reserved_slots := count_state kReserved a;
     st_committed_slots := count_state kCommitted a;
     st_reclaiming_slots := count_state kReclaiming a;
     st_unmaterialised_slots := total_slots a - high_water a |}.

(** ** The invariant

    Exactly the free slots below the high-water mark are on the free list,
    exactly the reclaiming ones are queued or in flight, never twice, and
    nothing above the mark has been touched. *)
Record alloc_inv (a : SpaceAllocator) : Prop := {
  ai_bounds : 0 ≤ high_water a ≤ total_slots a ∧ total_slots a < 2 ^ 64;
  ai_states : length (states a) = Z.to_nat (total_slots a);
  ai_gens : length (generations a) = Z.to_nat (total_slots a);
  ai_free_nodup : NoDup (free_list a);
  ai_queue_nodup : NoDup (reclaim_queue a);
  ai_free : ∀ s, s ∈ free_list a ↔ 0 ≤ s < high_water a ∧ state_at a s = kFree;
  ai_reclaim : ∀ s, s ∈ reclaim_queue a ∨ s ∈ reclaim_in_flight a ↔ 0 ≤ s < high_water a ∧ state_at a s = kReclaiming;
  ai_disjoint : ∀ s, s ∈ reclaim_queue a → s ∈ reclaim_in_flight a → False;
  ai_above : ∀ s, high_water a ≤ s → state_at a s = kFree;
}.

(** The slots in use: handed out and not given back. *)
Definition in_use (a : SpaceAllocator) (s : Z) : Prop := 0 ≤ s ∧ state_at a s ∈ [kReserved; kCommitted].

#[export] Instance in_use_dec a s : Decision (in_use a s).
Proof. unfold in_use. apply _. Defined.

Lemma state_at_put_eq a s st : 0 ≤ s → (Z.to_nat s < length (states a))%nat → state_at (put_state s st a) s = st.
Proof. intros Hs Hl. unfold state_at, put_state. cbn. by rewrite list_lookup_insert_eq. Qed.

Lemma state_at_put_ne a s s' st : 0 ≤ s → 0 ≤ s' → s ≠ s' → state_at (put_state s st a) s' = state_at a s'.
Proof. intros. unfold state_at, put_state. cbn. rewrite list_lookup_insert_ne by lia. done. Qed.

(** A non-free slot lies below the mark. *)
Lemma used_below a s : alloc_inv a → 0 ≤ s → state_at a s ≠ kFree → s < high_water a.
Proof. intros Ha Hs Hne. destruct (Z.lt_ge_cases s (high_water a)); [done|]. by destruct Hne; apply (ai_above a). Qed.

(** Case analysis on the state of every slot after one [put_state]. *)
Ltac put_cases s0 :=
  let s := fresh "s" in intros s;
  destruct (decide (0 ≤ s)); [|try (split; [intros; exfalso|lia])];
  [destruct (decide (s0 = s)); [subst s; rewrite ?state_at_put_eq by lia|rewrite ?state_at_put_ne by lia]|..].

Lemma alloc_inv_new : alloc_inv new_allocator.
Proof.
  split; cbn; try done; try constructor; try lia; try set_solver.
  all: intros; unfold state_at; cbn; try set_solver by lia.
Qed.

Lemma alloc_configure_ok config a ok a' :
  fits 64 (cfg_capacity_bytes config) → 0 ≤ cfg_slot_bytes config →
  configure config a = (ok, a') → (alloc_inv a → alloc_inv a') ∧
    (ok = true → alloc_inv a' ∧ total_slots a' = cfg_capacity_bytes config / cfg_slot_bytes config ∧ 0 < total_slots a' ∧
                 high_water a' = 0 ∧ ready_limit a' = ready_limit a).
Proof.
  unfold configure, fits. intros Hc Hs. case_bool_decide; [intros [= <- <-]; by split|].
  case_bool_decide as Hd; [intros [= <- <-]; by split|]. intros [= <- <-].
  assert (0 ≤ cfg_capacity_bytes config / cfg_slot_bytes config) by (apply Z.div_pos; lia).
  assert (cfg_capacity_bytes config / cfg_slot_bytes config < 2 ^ 64) by (apply Z.div_lt_upper_bound; nia).
  assert (Hinv : alloc_inv (configure config a).2).
  { unfold configure. rewrite !bool_decide_eq_false_2 by done. cbn.
    assert (Hst : ∀ s n, default kFree (replicate n kFree !! s) = kFree).
    { intros s n. destruct (replicate n kFree !! s) eqn:E; [|done]. by apply lookup_replicate in E as [-> _]. }
    split; cbn; rewrite ?length_replicate; try done; try constructor; try lia; try set_solver.
    all: intros; unfold state_at; cbn; rewrite ?Hst; try done; split; [set_solver|]; intros [??]; lia. }
  unfold configure in Hinv. rewrite !bool_decide_eq_false_2 in Hinv by done. cbn in Hinv.
  split; [done|]. intros _. cbn. split_and!; try done; lia.
Qed.

(** *** One slot at a time *)

Lemma commit_slot_inv a s : 0 ≤ s → alloc_inv a → alloc_inv (commit_slot a s).
Proof.
  intros Hs Ha. unfold commit_slot. case_bool_decide; [done|]. case_bool_decide as Hr; [|done].
  pose proof (used_below a s Ha Hs ltac:(congruence)) as Hb. destruct Ha as [? Hl ? ? ? Hf Hq ? Hab].
  split; cbn; rewrite ?length_insert; try done.
  - intros s'. rewrite Hf. destruct (decide (s = s')) as [<-|]; [rewrite state_at_put_eq by lia; intuition congruence|].
    destruct (decide (0 ≤ s')); [by rewrite state_at_put_ne|lia].
  - intros s'. rewrite Hq. destruct (decide (s = s')) as [<-|]; [rewrite state_at_put_eq by lia; intuition congruence|].
    destruct (decide (0 ≤ s')); [by rewrite state_at_put_ne|lia].
  - intros s' ?. rewrite state_at_put_ne by lia. by apply Hab.
Qed.

(** A used slot sent to reclamation. *)
Definition send_reclaim (s : Z) (a : SpaceAllocator) : SpaceAllocator :=
  (put_state s kReclaiming a) <| reclaim_queue ::= λ q, q ++ [s] |>.

Lemma send_reclaim_inv a s : alloc_inv a → in_use a s → alloc_inv (send_reclaim s a).
Proof.
  intros Ha [Hs Hu]. assert (Hn : state_at a s ≠ kFree ∧ state_at a s ≠ kReclaiming) by (split; intros E; rewrite E in Hu; set_solver).
  pose proof (used_below a s Ha Hs ltac:(tauto)) as Hb. destruct Ha as [? Hl ? ? Hqn Hf Hq Hd Hab].
  assert (Hnq : s ∉ reclaim_queue a ∧ s ∉ reclaim_in_flight a) by (split; intros E; destruct (proj1 (Hq s)); [tauto|tauto|tauto|tauto]).
  split; cbn; rewrite ?length_insert; try done.
  - apply NoDup_app. split_and!; [done| |apply NoDup_singleton]. set_solver.
  - intros s'. rewrite Hf. change (state_at (send_reclaim s a) s') with (state_at (put_state s kReclaiming a) s').
    destruct (decide (s = s')) as [<-|]; [rewrite state_at_put_eq by lia; intuition congruence|].
    destruct (decide (0 ≤ s')); [by rewrite state_at_put_ne|lia].
  - intros s'. change (state_at (send_reclaim s a) s') with (state_at (put_state s kReclaiming a) s').
    destruct (decide (s = s')) as [<-|]; [rewrite state_at_put_eq by lia; set_solver by lia|].
    destruct (decide (0 ≤ s')); [rewrite state_at_put_ne by done; rewrite <- Hq; set_solver|].
    rewrite elem_of_app. specialize (Hq s'). split; [|lia]. intros [[?|?%list_elem_of_singleton]|?]; [tauto|congruence|tauto].
  - intros s'. rewrite elem_of_app. intros [?|E%list_elem_of_singleton]; [by apply Hd|subst; tauto].
  - intros s' ?. change (state_at (send_reclaim s a) s') with (state_at (put_state s kReclaiming a) s').
    rewrite state_at_put_ne by lia. by apply Hab.
Qed.

Lemma abort_slot_inv a s : 0 ≤ s → alloc_inv a → alloc_inv (abort_slot a s).
Proof.
  intros Hs Ha. unfold abort_slot. case_bool_decide; [done|]. case_bool_decide as Hr; [done|].
  apply (send_reclaim_inv a s Ha). split; [done|]. rewrite Hr. by left.
Qed.

Lemma release_slot_inv r s : 0 ≤ s → alloc_inv r.2 → alloc_inv (release_slot r s).2.
Proof.
  destruct r as [n a]. cbn. intros Hs Ha. case_bool_decide; [done|]. case_bool_decide as Hr; [done|].
  apply (send_reclaim_inv a s Ha). split; [done|]. rewrite Hr. by right; left.
Qed.

(** What the deque and the set of scrubs in flight say of a slot in flight. *)
Lemma in_flight_reclaiming a s : alloc_inv a → s ∈ reclaim_in_flight a →
  0 ≤ s < high_water a ∧ state_at a s = kReclaiming ∧ s ∉ reclaim_queue a.
Proof. intros Ha Hs. destruct (proj1 (ai_reclaim a Ha s) (or_intror Hs)). split_and!; try lia; [done|]. intros Hq. by apply (ai_disjoint a Ha s). Qed.

Lemma finish_slot_inv a s : 0 ≤ s → alloc_inv a → alloc_inv (finish_slot a s).
Proof.
  intros Hs Ha. unfold finish_slot. case_bool_decide; [done|]. case_bool_decide as Hr; [done|].
  destruct (in_flight_reclaiming a s Ha Hr) as (Hb & Hst & Hnq).
  assert (Hstate : ∀ s', state_at (finish_slot a s) s' = state_at (put_state s kFree a) s').
  { intros s'. unfold finish_slot. by rewrite !bool_decide_eq_false_2 by tauto. }
  unfold finish_slot in Hstate. rewrite !bool_decide_eq_false_2 in Hstate by tauto.
  destruct Ha as [? Hl ? Hfn ? Hf Hq Hd Hab].
  split; cbn -[state_at]; rewrite ?length_insert, ?length_alter; try done.
  - apply NoDup_app. split_and!; [done| |apply NoDup_singleton]. intros s' [_ ?]%Hf E%list_elem_of_singleton. congruence.
  - intros s'. rewrite Hstate, elem_of_app, Hf, list_elem_of_singleton.
    destruct (decide (s = s')) as [<-|]; [rewrite state_at_put_eq by lia; intuition lia|].
    destruct (decide (0 ≤ s')); [rewrite state_at_put_ne by done; intuition congruence|intuition (congruence || lia)].
  - intros s'. rewrite Hstate. destruct (decide (s = s')) as [<-|]; [rewrite state_at_put_eq by lia; set_solver|].
    specialize (Hq s'). destruct (decide (0 ≤ s')); [rewrite state_at_put_ne by done; rewrite <- Hq; set_solver|].
    split; [|lia]. set_solver by lia.
  - intros s' ??. apply (Hd s'); set_solver.
  - intros s' ?. rewrite Hstate, state_at_put_ne by lia. by apply Hab.
Qed.

Lemma requeue_slot_inv a s : 0 ≤ s → alloc_inv a → alloc_inv (requeue_slot a s).
Proof.
  intros Hs Ha. unfold requeue_slot. case_bool_decide; [done|]. case_bool_decide as Hr; [done|].
  destruct (in_flight_reclaiming a s Ha Hr) as (Hb & Hst & Hnq).
  destruct Ha as [? Hl ? Hfn ? Hf Hq Hd Hab]. split; cbn; try done.
  - apply NoDup_app. split_and!; [done| |apply NoDup_singleton]. set_solver.
  - intros s'. change (state_at _ s') with (state_at a s'). rewrite <- Hq.
    destruct (decide (s = s')) as [<-|]; set_solver.
  - intros s'. specialize (Hd s'). set_solver.
Qed.

Lemma take_free_inv a s a' : alloc_inv a → take_free_slot_locked a = (s, a') →
  (s = total_slots a ∧ a' = a ∧ free_list a = [] ∧ Z.min (total_slots a) (ready_limit a) ≤ high_water a) ∨
  (0 ≤ s < total_slots a ∧ state_at a s = kFree ∧ total_slots a' = total_slots a ∧ states a' = states a ∧
   generations a' = generations a ∧ ready_limit a' = ready_limit a ∧ high_water a ≤ high_water a' ≤ Z.max (high_water a) (ready_limit a) ∧
   (s < high_water a ∨ s < ready_limit a) ∧ alloc_inv (put_state s kReserved a')).
Proof.
  intros Ha. unfold take_free_slot_locked. destruct (free_list a) as [|s0 rest] eqn:Ef.
  - case_bool_decide as Hw; intros [= <- <-]; [|left; split_and!; try done; lia]. right.
    pose proof (ai_bounds a Ha) as [Hb1 Hb2].
    assert (Hu : u64 (high_water a + 1) = high_water a + 1) by (apply wrap_small; lia). pose proof (ai_above a Ha (high_water a) ltac:(lia)) as Hst.
    split_and!; cbn; rewrite ?Hu; try done; try lia. destruct Ha as [? Hl ? Hfn ? Hf Hq Hd Hab].
    split; cbn; rewrite ?length_insert, ?Hu; try done; try lia.
    + intros s'. rewrite Hf. destruct (decide (high_water a = s')) as [<-|]; [rewrite state_at_put_eq by (cbn; lia); intuition (lia || congruence)|].
      destruct (decide (0 ≤ s')); [rewrite state_at_put_ne by lia; change (state_at (a <| high_water ::= _ |>) s') with (state_at a s'); intuition lia|lia].
    + intros s'. rewrite Hq. destruct (decide (high_water a = s')) as [<-|]; [rewrite state_at_put_eq by (cbn; lia); intuition (lia || congruence)|].
      destruct (decide (0 ≤ s')); [rewrite state_at_put_ne by lia; change (state_at (a <| high_water ::= _ |>) s') with (state_at a s'); intuition lia|lia].
    + intros s' ?. rewrite state_at_put_ne by lia. apply Hab. lia.
  - intros [= <- <-]. right. destruct (proj1 (ai_free a Ha s0)) as [Hb Hst]; [rewrite Ef; by left|].
    pose proof (ai_bounds a Ha). split_and!; cbn; try done; try lia. destruct Ha as [? Hl ? Hfn ? Hf Hq Hd Hab].
    rewrite Ef in Hfn, Hf. apply NoDup_cons in Hfn as [Hn Hfn].
    split; cbn; rewrite ?length_insert; try done.
    + intros s'. destruct (decide (s0 = s')) as [<-|]; [rewrite state_at_put_eq by (cbn; lia); intuition congruence|].
      specialize (Hf s'). rewrite elem_of_cons in Hf.
      destruct (decide (0 ≤ s')); [rewrite state_at_put_ne by lia; change (state_at (a <| free_list := _ |>) s') with (state_at a s'); intuition congruence|intuition (lia || congruence)].
    + intros s'. rewrite Hq. destruct (decide (s0 = s')) as [<-|]; [rewrite state_at_put_eq by (cbn; lia); intuition congruence|].
      destruct (decide (0 ≤ s')); [by rewrite state_at_put_ne by lia|lia].
    + intros s' ?. rewrite state_at_put_ne by lia. by apply Hab.
Qed.

(** *** Whole operations *)

Lemma foldl_inv {A B} (P : A → Prop) (Q : B → Prop) (f : A → B → A) l a :
  (∀ a x, Q x → P a → P (f a x)) → Forall Q l → P a → P (foldl f a l).
Proof. intros Hf Hl. revert a. induction Hl as [|x l Hx _ IH]; intros a Ha; [done|]. apply IH. by apply Hf. Qed.

Abbreviation u64s := (Forall (λ s : Z, 0 ≤ s)).

Lemma commit_inv a l : u64s l → alloc_inv a → alloc_inv (commit l a).
Proof. apply foldl_inv. intros. by apply commit_slot_inv. Qed.
Lemma abort_inv a l : u64s l → alloc_inv a → alloc_inv (abort l a).
Proof. apply foldl_inv. intros. by apply abort_slot_inv. Qed.
Lemma release_inv a l : u64s l → alloc_inv a → alloc_inv (release l a).2.
Proof.
  intros Hl Ha. unfold release.
  apply (foldl_inv (λ r, alloc_inv r.2) (λ s, 0 ≤ s)); [|done|done]. intros. by apply release_slot_inv.
Qed.
Lemma finish_inv a l : u64s l → alloc_inv a → alloc_inv (finish_reclaim l a).
Proof. apply foldl_inv. intros. by apply finish_slot_inv. Qed.
Lemma requeue_inv a l : u64s l → alloc_inv a → alloc_inv (requeue_reclaim l a).
Proof. apply foldl_inv. intros. by apply requeue_slot_inv. Qed.

(** Everything [reserve] does, on every outcome. *)
Record reserved (n : Z) (a : SpaceAllocator) (out : SlotReservation) (a' : SpaceAllocator) : Prop := {
  rv_inv : alloc_inv a';
  rv_count : Z.of_nat (length (rs_slots out)) + rs_rejected out = n ∧ 0 ≤ rs_rejected out;
  rv_nodup : NoDup (rs_slots out);
  rv_taken : ∀ s, s ∈ rs_slots out →
    0 ≤ s < total_slots a ∧ state_at a s = kFree ∧ state_at a' s = kReserved ∧ (s < high_water a ∨ s < ready_limit a);
  rv_gens : rs_generations out = map (generation_at a) (rs_slots out);
  rv_others : ∀ s, 0 ≤ s → s ∉ rs_slots out → state_at a' s = state_at a s;
  rv_frame : total_slots a' = total_slots a ∧ generations a' = generations a ∧ ready_limit a' = ready_limit a ∧
             high_water a ≤ high_water a';
  rv_full : 0 < rs_rejected out → free_list a' = [] ∧ Z.min (total_slots a) (ready_limit a) ≤ high_water a';
}.

Lemma reserve_loop_ok n a : alloc_inv a → reserved (Z.of_nat n) a (reserve_loop n a).1 (reserve_loop n a).2.
Proof.
  revert a. induction n as [|n IH]; intros a Ha.
  - split; cbn; try done; try lia; try constructor; try set_solver.
  - cbn [reserve_loop]. destruct (take_free_slot_locked a) as [s a1] eqn:Et.
    destruct (take_free_inv a s a1 Ha Et) as [(-> & -> & Hfl & Hw)|(Hb & Hf & Ht & Hs & Hg & Hr & Hh & Hlim & Hi)].
    + rewrite bool_decide_eq_true_2 by lia. split; cbn; try done; try lia; try constructor; set_solver.
    + rewrite bool_decide_eq_false_2 by lia. specialize (IH _ Hi).
      destruct (reserve_loop n (put_state s kReserved a1)) as [out a3]. cbn in IH |- *. destruct IH as [Ii Ic Id It Ig Io If Iz].
      assert (Hsa : ∀ s', 0 ≤ s' → state_at (put_state s kReserved a1) s' = if decide (s' = s) then kReserved else state_at a s').
      { intros s' ?. case_decide; [subst; apply state_at_put_eq; [lia|]|rewrite state_at_put_ne by lia; unfold state_at; by rewrite Hs].
        rewrite Hs. pose proof (ai_states a Ha). lia. }
      assert (Hns : s ∉ rs_slots out).
      { intros Hin. destruct (It s Hin) as (_ & Hfree & _). rewrite Hsa in Hfree by lia. by rewrite decide_True in Hfree. }
      cbn in *. split; cbn; try done.
      * lia.
      * by constructor.
      * intros s' [->|Hin]%elem_of_cons.
        -- split_and!; try done; try lia. rewrite (Io s) by (done || lia). rewrite Hsa by lia. by rewrite decide_True.
        -- destruct (It s' Hin) as (? & Hf' & ? & ?). rewrite Hsa in Hf' by lia. case_decide; [done|]. split_and!; try done; lia.
      * rewrite Ig. unfold generation_at. cbn. by rewrite Hg.
      * intros s' ? [Hne Hn]%not_elem_of_cons. rewrite Io by done. rewrite Hsa by done. by rewrite decide_False.
      * destruct If as (-> & -> & -> & ?). repeat split; try done. lia.
      * intros Hz. destruct (Iz Hz) as [-> ?]. rewrite Ht, Hr in *. done.
Qed.

Lemma reserve_ok n a : 0 ≤ n → alloc_inv a → reserved n a (reserve n a).1 (reserve n a).2.
Proof. intros Hn Ha. unfold reserve. rewrite <- (Z2Nat.id n) at 1 by done. by apply reserve_loop_ok. Qed.

(** Taking slots off the queue: the leading [max], all of them reclaiming. *)
Lemma take_reclaimable_loop_ok queue max a : reclaim_queue a = queue → alloc_inv a →
  let '(out, a') := take_reclaimable_loop queue max a in
  alloc_inv a' ∧ out = take (Z.to_nat max) queue ∧ reclaim_queue a' = drop (Z.to_nat max) queue ∧
  reclaim_in_flight a' = list_to_set out ∪ reclaim_in_flight a ∧
  states a' = states a ∧ generations a' = generations a ∧ total_slots a' = total_slots a ∧ high_water a' = high_water a ∧
  ready_limit a' = ready_limit a.
Proof.
  revert max a. induction queue as [|s rest IH]; intros max a Hq Ha; cbn [take_reclaimable_loop].
  - rewrite take_nil, drop_nil. split_and!; try done. set_solver.
  - case_bool_decide as Hm; [|replace (Z.to_nat max) with O by lia; cbn; split_and!; try done; set_solver].
    set (a1 := a <| reclaim_queue := rest |> <| reclaim_in_flight ::= λ s0, {[s]} ∪ s0 |>).
    assert (Ha1 : alloc_inv a1).
    { destruct Ha as [? Hl ? Hfn Hqn Hf Hqr Hd Hab]. rewrite Hq in Hqn, Hqr, Hd. apply NoDup_cons in Hqn as [Hs Hqn].
      split; cbn; try done.
      - intros s'. change (state_at a1 s') with (state_at a s'). rewrite <- Hqr. set_solver.
      - intros s'. specialize (Hd s'). set_solver. }
    specialize (IH (max - 1) a1 eq_refl Ha1). destruct (take_reclaimable_loop rest (max - 1) a1) as [out a2].
    destruct IH as (? & -> & ? & -> & ?). replace (Z.to_nat max) with (S (Z.to_nat (max - 1))) by lia. cbn.
    split_and!; try done; try tauto. set_solver.
Qed.

Lemma take_reclaimable_inv max a : alloc_inv a → alloc_inv (take_reclaimable max a).2.
Proof.
  intros Ha. pose proof (take_reclaimable_loop_ok (reclaim_queue a) max a eq_refl Ha) as H. unfold take_reclaimable.
  destruct (take_reclaimable_loop _ _ _). apply H.
Qed.

(** ** Histories of the allocator *)
Inductive alloc_op :=
  | OpConfigure (config : SpaceAllocatorConfig)
  | OpReadyLimit (limit : Z)
  | OpReserve (count : Z)
  | OpCommit (slots : list Z)
  | OpAbort (slots : list Z)
  | OpRelease (slots : list Z)
  | OpTake (max : Z)
  | OpFinish (slots : list Z)
  | OpRequeue (slots : list Z).

Definition alloc_apply (a : SpaceAllocator) (op : alloc_op) : SpaceAllocator :=
  match op with
  | OpConfigure config => (configure config a).2
  | OpReadyLimit limit => set_ready_limit limit a
  | OpReserve count => (reserve count a).2
  | OpCommit slots => commit slots a
  | OpAbort slots => abort slots a
  | OpRelease slots => (release slots a).2
  | OpTake max => (take_reclaimable max a).2
  | OpFinish slots => finish_reclaim slots a
  | OpRequeue slots => requeue_reclaim slots a
  end.

(** Arguments are 64-bit unsigned. *)
Definition alloc_op_ok (op : alloc_op) : Prop :=
  match op with
  | OpConfigure config => fits 64 (cfg_capacity_bytes config) ∧ 0 ≤ cfg_slot_bytes config
  | OpReadyLimit limit => 0 ≤ limit
  | OpReserve n | OpTake n => 0 ≤ n
  | OpCommit l | OpAbort l | OpRelease l | OpFinish l | OpRequeue l => u64s l
  end.

#[export] Instance alloc_op_ok_dec op : Decision (alloc_op_ok op).
Proof. destruct op; cbn; apply _. Defined.

Lemma alloc_apply_inv a op : alloc_op_ok op → alloc_inv a → alloc_inv (alloc_apply a op).
Proof.
  destruct op; cbn; intros Hop Ha.
  - destruct (configure config a) as [ok a'] eqn:E. destruct Hop as [H1 H2]. exact (proj1 (alloc_configure_ok config a ok a' H1 H2 E) Ha).
  - by destruct Ha; split.
  - by apply (reserve_ok count a Hop Ha).
  - by apply commit_inv.
  - by apply abort_inv.
  - by apply release_inv.
  - by apply take_reclaimable_inv.
  - by apply finish_inv.
  - by apply requeue_inv.
Qed.

Lemma alloc_run_inv a ops : Forall alloc_op_ok ops → alloc_inv a → alloc_inv (foldl alloc_apply a ops).
Proof. apply foldl_inv. intros. by apply alloc_apply_inv. Qed.

(** The five figures of [stats] partition the slots. *)
Lemma count_partition a :
  count_state kFree a + count_state kReserved a + count_state kCommitted a + count_state kReclaiming a = Z.of_nat (Z.to_nat (high_water a)).
Proof.
  unfold count_state. rewrite <- (length_seqZ 0 (high_water a)).
  induction (seqZ 0 (high_water a)) as [|s l IH]; [done|]. cbn [length]. rewrite Nat2Z.inj_succ, <- IH.
  rewrite !filter_cons. destruct (state_at a s); repeat case_decide; try done; cbn [length]; lia.
Qed.

Lemma stats_partition a : alloc_inv a →
  st_free_slots (stats a) + st_reserved_slots (stats a) + st_committed_slots (stats a) + st_reclaiming_slots (stats a)
    + st_unmaterialised_slots (stats a) = total_slots a.
Proof.
  intros Ha. pose proof (ai_bounds a Ha). pose proof (count_partition a) as E. unfold stats. cbn [st_free_slots st_reserved_slots
    st_committed_slots st_reclaiming_slots st_unmaterialised_slots]. lia.
Qed.

(** ** Generations

    Along a history without reconfiguration the generation of a slot never
    falls, and it has risen whenever the slot was given back in between.  The
    counter is 64 bits wide; [scrubs] bounds how often it can have moved. *)
Definition scrubs (op : alloc_op) : Z := match op with OpFinish l => Z.of_nat (length l) | _ => 0 end.
Definition no_configure (op : alloc_op) : bool := match op with OpConfigure _ => false | _ => true end.

Record aged (s n : Z) (a a' : SpaceAllocator) : Prop := {
  ag_total : total_slots a' = total_slots a;
  ag_mono : generation_at a s ≤ generation_at a' s ≤ generation_at a s + n;
  ag_recycled : state_at a s ≠ kFree → state_at a' s = kFree → generation_at a s < generation_at a' s;
}.

Lemma aged_refl s n a : 0 ≤ n → aged s n a a.
Proof. intros. split; try done; lia. Qed.

Lemma aged_trans s n1 n2 a b c : aged s n1 a b → aged s n2 b c → aged s (n1 + n2) a c.
Proof.
  intros [? ? H1] [? ? H2]. split; [congruence|lia|]. intros Ha Hc.
  destruct (decide (state_at b s = kFree)) as [Hb|Hb]; [specialize (H1 Ha Hb)|specialize (H2 Hb Hc)]; lia.
Qed.

Lemma aged_put s s' st a : 0 ≤ s → 0 ≤ s' → alloc_inv a → s' < total_slots a →
  (state_at a s' = kFree ∨ st ≠ kFree) → aged s 0 a (put_state s' st a).
Proof.
  intros Hs Hs' Ha Hb Hst. split; [done|unfold generation_at; cbn; lia|].
  destruct (decide (s' = s)) as [->|]; [|by rewrite state_at_put_ne].
  rewrite state_at_put_eq; [|done|pose proof (ai_states a Ha); lia]. intros; intuition.
Qed.

(** Same states and generations. *)
Lemma aged_same s a b c : states c = states b → generations c = generations b → total_slots c = total_slots b →
  aged s 0 a b → aged s 0 a c.
Proof. intros E1 E2 E3 [? ? H]. split; unfold state_at, generation_at in *; rewrite ?E1, ?E2, ?E3; done. Qed.

Lemma finish_slot_aged s s' a : 0 ≤ s → 0 ≤ s' → alloc_inv a → generation_at a s + 1 < 2 ^ 64 → 0 ≤ generation_at a s →
  aged s 1 a (finish_slot a s').
Proof.
  intros Hs Hs' Ha Hg Hg0. unfold finish_slot. case_bool_decide; [by apply aged_refl|]. case_bool_decide as Hr; [by apply aged_refl|].
  destruct (in_flight_reclaiming a s' Ha Hr) as (Hb & _). pose proof (ai_gens a Ha). pose proof (ai_bounds a Ha).
  assert (Hgen : ∀ f, generation_at (a <| generations ::= alter f (Z.to_nat s') |>) s =
                 if decide (s' = s) then f (generation_at a s) else generation_at a s).
  { intros f. unfold generation_at. cbn. case_decide as E.
    - subst s'. destruct (lookup_lt_is_Some_2 (generations a) (Z.to_nat s)) as [g Hgl]; [lia|]. rewrite list_lookup_alter_eq, Hgl. done.
    - rewrite list_lookup_alter_ne by lia. done. }
  set (g' := generation_at (a <| generations ::= alter (λ g, u64 (g + 1)) (Z.to_nat s') |>) s).
  assert (Hg' : g' = if decide (s' = s) then generation_at a s + 1 else generation_at a s).
  { unfold g'. rewrite Hgen. case_decide; [|done]. apply wrap_small. lia. }
  split; [done|change (generation_at a s ≤ g' ≤ generation_at a s + 1); rewrite Hg'; case_decide; lia|].
  change (state_at a s ≠ kFree → state_at (put_state s' kFree a) s = kFree → generation_at a s < g').
  intros Hne Hfree. rewrite Hg'. case_decide; [lia|]. by rewrite state_at_put_ne in Hfree by lia.
Qed.

Lemma foldl_aged {B} s (P : B → Prop) (f : SpaceAllocator → B → SpaceAllocator) l a :
  (∀ a x, P x → alloc_inv a → alloc_inv (f a x) ∧ aged s 0 a (f a x)) → Forall P l → alloc_inv a → aged s 0 a (foldl f a l).
Proof.
  intros Hf Hl. revert a. induction Hl as [|x l Hx _ IH]; intros a Ha; [by apply aged_refl|].
  destruct (Hf a x Hx Ha) as [Hi Hs]. apply (aged_trans s 0 0 a (f a x)); [done|]. by apply IH.
Qed.

Lemma commit_aged s l a : 0 ≤ s → u64s l → alloc_inv a → aged s 0 a (commit l a).
Proof.
  intros Hs. apply foldl_aged. clear a. intros a s' Hs' Ha. split; [by apply commit_slot_inv|]. unfold commit_slot.
  case_bool_decide; [by apply aged_refl|]. case_bool_decide; [|by apply aged_refl]. apply aged_put; try done; [lia|by right].
Qed.

Lemma send_reclaim_aged s s' a : 0 ≤ s → alloc_inv a → in_use a s' → aged s 0 a (send_reclaim s' a).
Proof.
  intros Hs Ha Hu. destruct Hu as [Hs' Hu]. apply (aged_same s a (put_state s' kReclaiming a)); [done..|].
  apply aged_put; try done; [|by right]. pose proof (ai_bounds a Ha).
  assert (s' < high_water a); [|lia]. apply used_below; [done..|]. intros E. rewrite E in Hu. set_solver.
Qed.

Lemma abort_aged s l a : 0 ≤ s → u64s l → alloc_inv a → aged s 0 a (abort l a).
Proof.
  intros Hs. apply foldl_aged. clear a. intros a s' Hs' Ha. split; [by apply abort_slot_inv|]. unfold abort_slot.
  case_bool_decide; [by apply aged_refl|]. case_bool_decide as Hr; [by apply aged_refl|].
  apply send_reclaim_aged; [done..|]. split; [done|]. rewrite Hr. by left.
Qed.

Lemma release_aged s l a : 0 ≤ s → u64s l → alloc_inv a → aged s 0 a (release l a).2.
Proof.
  intros Hs Hl Ha. unfold release. assert (H : ∀ n, aged s 0 a (foldl release_slot (n, a) l).2); [|apply H].
  induction l as [|s' l IH] in a, Hl, Ha |- *; intros n; [by apply aged_refl|].
  apply Forall_cons in Hl as [Hs' Hl]. cbn [foldl]. pose proof (release_slot_inv (n, a) s' Hs' Ha) as Hi.
  assert (Hst : aged s 0 a (release_slot (n, a) s').2).
  { unfold release_slot. case_bool_decide; [by apply aged_refl|]. case_bool_decide as Hr; [by apply aged_refl|].
    apply send_reclaim_aged; [done..|]. split; [done|]. rewrite Hr. by right; left. }
  destruct (release_slot (n, a) s') as [n' a']. apply (aged_trans s 0 0 a a'); [done|]. by apply IH.
Qed.

Lemma finish_aged s l a : 0 ≤ s → u64s l → alloc_inv a → 0 ≤ generation_at a s → generation_at a s + Z.of_nat (length l) < 2 ^ 64 →
  aged s (Z.of_nat (length l)) a (finish_reclaim l a).
Proof.
  intros Hs Hl. unfold finish_reclaim. revert a. induction Hl as [|s' l Hs' _ IH]; intros a Ha Hg0 Hg; [by apply aged_refl|].
  cbn [length foldl] in *. assert (H1 : aged s 1 a (finish_slot a s')) by (apply finish_slot_aged; (done || lia)).
  replace (Z.of_nat (S (length l))) with (1 + Z.of_nat (length l)) by lia. apply (aged_trans s 1 _ a (finish_slot a s')); [done|].
  pose proof (ag_mono _ _ _ _ H1). apply IH; [by apply finish_slot_inv|lia|lia].
Qed.

Lemma requeue_aged s l a : 0 ≤ s → u64s l → alloc_inv a → aged s 0 a (requeue_reclaim l a).
Proof.
  intros Hs. apply foldl_aged. clear a. intros a s' Hs' Ha. split; [by apply requeue_slot_inv|]. unfold requeue_slot.
  repeat case_bool_decide; [by apply aged_refl..|]. apply (aged_same s a a); [done..|by apply aged_refl].
Qed.

Lemma reserve_aged s n a : 0 ≤ s → 0 ≤ n → alloc_inv a → aged s 0 a (reserve n a).2.
Proof.
  intros Hs Hn Ha. destruct (reserve_ok n a Hn Ha) as [_ _ _ Ht _ Ho (E1 & E2 & E3 & _) _]. split; [done|unfold generation_at; rewrite E2; lia|].
  intros Hne Hf. destruct (decide (s ∈ rs_slots (reserve n a).1)) as [Hin|Hin].
  - destruct (Ht s Hin) as (_ & _ & Hr & _). congruence.
  - rewrite (Ho s Hs Hin) in Hf. congruence.
Qed.

Lemma alloc_apply_aged s a op : 0 ≤ s → alloc_op_ok op → no_configure op = true → alloc_inv a →
  0 ≤ generation_at a s → generation_at a s + scrubs op < 2 ^ 64 → aged s (scrubs op) a (alloc_apply a op).
Proof.
  destruct op; cbn; intros Hs Hop Hn Ha Hg0 Hg; try done.
  - apply (aged_same s a a); [done..|by apply aged_refl].
  - by apply reserve_aged.
  - by apply commit_aged.
  - by apply abort_aged.
  - by apply release_aged.
  - pose proof (take_reclaimable_loop_ok (reclaim_queue a) max a eq_refl Ha) as H. unfold take_reclaimable.
    destruct (take_reclaimable_loop _ _ _) as [out a']. cbn. destruct H as (_ & _ & _ & _ & E1 & E2 & E3 & _).
    apply (aged_same s a a); [done..|by apply aged_refl].
  - by apply finish_aged.
  - by apply requeue_aged.
Qed.

Definition total_scrubs (ops : list alloc_op) : Z := foldr (λ op n, scrubs op + n) 0 ops.

Lemma scrubs_nonneg op : 0 ≤ scrubs op.
Proof. destruct op; cbn; lia. Qed.
Lemma total_scrubs_nonneg ops : 0 ≤ total_scrubs ops.
Proof. induction ops as [|op ops IH]; [done|]. unfold total_scrubs in *. cbn [foldr]. pose proof (scrubs_nonneg op). lia. Qed.

Lemma alloc_run_aged s a ops : 0 ≤ s → Forall alloc_op_ok ops → forallb no_configure ops = true → alloc_inv a →
  0 ≤ generation_at a s → generation_at a s + total_scrubs ops < 2 ^ 64 → aged s (total_scrubs ops) a (foldl alloc_apply a ops).
Proof.
  intros Hs Hops. revert a. induction Hops as [|op ops Hop _ IH]; intros a Hn Ha Hg0 Hg; [by apply aged_refl|].
  change (total_scrubs (op :: ops)) with (scrubs op + total_scrubs ops) in *. cbn [forallb foldl] in *. apply andb_prop in Hn as [Hn1 Hn2]. pose proof (scrubs_nonneg op). pose proof (total_scrubs_nonneg ops).
  assert (H1 : aged s (scrubs op) a (alloc_apply a op)) by (apply alloc_apply_aged; (done || lia)).
  pose proof (ag_mono _ _ _ _ H1). apply (aged_trans s _ _ a (alloc_apply a op)); [done|]. apply IH; (done || lia || by apply alloc_apply_inv).
Qed.

(** ** What commit, abort and release do to each slot

    One pattern: the listed slots in state [from] move to state [to], every
    other slot keeps its state. *)
Definition moved (from to : SlotState) (l : list Z) (a : SpaceAllocator) (s : Z) : SlotState :=
  if decide (s ∈ l ∧ state_at a s = from) then to else state_at a s.

(** A step that moves one slot of state [from] to state [to]. *)
Definition moves (from to : SlotState) (f : SpaceAllocator → Z → SpaceAllocator) : Prop :=
  ∀ a x, 0 ≤ x → alloc_inv a → alloc_inv (f a x) ∧ total_slots (f a x) = total_slots a ∧ generations (f a x) = generations a ∧
    ready_limit (f a x) = ready_limit a ∧ high_water (f a x) = high_water a ∧
    ∀ s, 0 ≤ s → state_at (f a x) s = if decide (s = x ∧ state_at a s = from) then to else state_at a s.

Lemma foldl_moves from to f l a : from ≠ to → moves from to f → u64s l → alloc_inv a →
  (∀ s, 0 ≤ s → state_at (foldl f a l) s = moved from to l a s) ∧
  total_slots (foldl f a l) = total_slots a ∧ generations (foldl f a l) = generations a ∧
  ready_limit (foldl f a l) = ready_limit a ∧ high_water (foldl f a l) = high_water a.
Proof.
  intros Hne Hf Hl. revert a. induction Hl as [|x l Hx _ IH]; intros a Ha.
  { by split_and!. }
  destruct (Hf a x Hx Ha) as (Hi & E1 & E2 & E3 & E4 & Hst). destruct (IH _ Hi) as (IHs & F1 & F2 & F3 & F4).
  cbn [foldl]. split_and!; [|congruence..]. intros s Hs. rewrite (IHs s Hs). unfold moved. rewrite !Hst by done.
  destruct (decide (s = x ∧ state_at a s = from)) as [[-> E]|Hn].
  - rewrite decide_False by (intros [_ ?]; congruence). rewrite decide_True; [done|]. split; [by left|done].
  - destruct (decide (s ∈ l ∧ state_at a s = from)) as [[Hin E]|Hn']; [rewrite decide_True by set_solver; done|].
    rewrite decide_False; [done|]. intros [[->|?]%elem_of_cons E]; tauto.
Qed.

(** Writing a state is seen at that slot only. *)
Lemma state_at_put a x st s : 0 ≤ x < total_slots a → 0 ≤ s → alloc_inv a →
  state_at (put_state x st a) s = if decide (s = x) then st else state_at a s.
Proof.
  intros Hx Hs Ha. pose proof (ai_states a Ha). case_decide as E; [subst; apply state_at_put_eq; lia|]. apply state_at_put_ne; lia.
Qed.

Lemma below_total a s : alloc_inv a → 0 ≤ s → state_at a s ≠ kFree → s < total_slots a.
Proof. intros Ha Hs Hn. pose proof (used_below a s Ha Hs Hn). pose proof (ai_bounds a Ha). lia. Qed.

Lemma state_at_above a s : alloc_inv a → total_slots a ≤ s → state_at a s = kFree.
Proof. intros Ha Hs. pose proof (ai_bounds a Ha). apply (ai_above a Ha). lia. Qed.

Lemma commit_slot_moves : moves kReserved kCommitted commit_slot.
Proof.
  intros a x Hx Ha. split; [by apply commit_slot_inv|]. unfold commit_slot. case_bool_decide as Ht.
  { split_and!; try done. intros s Hs. rewrite decide_False; [done|]. intros [-> E]. rewrite state_at_above in E by done. done. }
  case_bool_decide as Hr; [|split_and!; try done; intros s Hs; rewrite decide_False; [done|]; intros [-> ?]; done].
  split_and!; try done. intros s Hs. rewrite state_at_put by (done || lia). repeat case_decide; try done; subst; tauto.
Qed.

Lemma abort_slot_moves : moves kReserved kReclaiming abort_slot.
Proof.
  intros a x Hx Ha. split; [by apply abort_slot_inv|]. unfold abort_slot. case_bool_decide as Ht.
  { split_and!; try done. intros s Hs. rewrite decide_False; [done|]. intros [-> E]. rewrite state_at_above in E by done. done. }
  case_bool_decide as Hr; [split_and!; try done; intros s Hs; rewrite decide_False; [done|]; intros [-> ?]; done|].
  split_and!; try done. intros s Hs. trans (state_at (put_state x kReclaiming a) s); [done|].
  rewrite state_at_put by (done || lia). repeat case_decide; try done; subst; tauto.
Qed.

Lemma release_slot_moves n : moves kCommitted kReclaiming (λ a x, (release_slot (n, a) x).2).
Proof.
  intros a x Hx Ha. split; [by apply (release_slot_inv (n, a))|]. cbn. case_bool_decide as Ht.
  { split_and!; try done. intros s Hs. rewrite decide_False; [done|]. intros [-> E]. rewrite state_at_above in E by done. done. }
  case_bool_decide as Hr; [split_and!; try done; intros s Hs; rewrite decide_False; [done|]; intros [-> ?]; done|].
  split_and!; try done. intros s Hs. trans (state_at (put_state x kReclaiming a) s); [done|].
  rewrite state_at_put by (done || lia). repeat case_decide; try done; subst; tauto.
Qed.

Lemma commit_moves l a : u64s l → alloc_inv a → (∀ s, 0 ≤ s → state_at (commit l a) s = moved kReserved kCommitted l a s) ∧
  total_slots (commit l a) = total_slots a ∧ generations (commit l a) = generations a ∧ ready_limit (commit l a) = ready_limit a ∧
  high_water (commit l a) = high_water a.
Proof. apply foldl_moves; [done|apply commit_slot_moves]. Qed.

Lemma abort_moves l a : u64s l → alloc_inv a → (∀ s, 0 ≤ s → state_at (abort l a) s = moved kReserved kReclaiming l a s) ∧
  total_slots (abort l a) = total_slots a ∧ generations (abort l a) = generations a ∧ ready_limit (abort l a) = ready_limit a ∧
  high_water (abort l a) = high_water a.
Proof. apply foldl_moves; [done|apply abort_slot_moves]. Qed.

Lemma release_snd l n a : (foldl release_slot (n, a) l).2 = foldl (λ a x, (release_slot (0, a) x).2) a l.
Proof.
  revert n a. induction l as [|x l IH]; intros n a; [done|]. cbn [foldl].
  assert (E : (release_slot (n, a) x).2 = (release_slot (0, a) x).2) by (cbn; by repeat case_bool_decide).
  rewrite <- E. destruct (release_slot (n, a) x) as [n' a']. apply IH.
Qed.

Lemma release_moves l a : u64s l → alloc_inv a → (∀ s, 0 ≤ s → state_at (release l a).2 s = moved kCommitted kReclaiming l a s) ∧
  total_slots (release l a).2 = total_slots a ∧ generations (release l a).2 = generations a ∧
  ready_limit (release l a).2 = ready_limit a ∧ high_water (release l a).2 = high_water a.
Proof. unfold release. rewrite release_snd. apply foldl_moves; [done|apply release_slot_moves]. Qed.
