(* ===== verification/SlotPlace.v ===== *)
(** * Where a slot lives (csrc/storage_objects/slot_placement_policy.cpp)

    Placement is a function of the slot number: slots rotate over the mounts
    and each mount packs its slots into fixed-size segment files.  Two slots
    never share a byte as long as no two mounts name the same directory. *)
From S2P Require Import Prelude.
From stdpp Require Import pretty.
Open Scope Z_scope.

(** ** Paths *)
Definition slash : Ascii.ascii := Ascii.ascii_of_N 47.

Definition ends_with_slash (dir : string) : bool :=
  bool_decide (last (String.list_ascii_of_string dir) = Some slash).

Definition join (dir leaf : string) : string :=
  if bool_decide (dir = EmptyString) then leaf
  else if ends_with_slash dir then String.append dir leaf
  else String.append dir (String slash leaf).

(** ** The placement *)
Record FixedSegmentFilePlacement := {
  mounts_ : list string;
  subdir_ : string;
  fp_slot_bytes : Z;
  fp_file_bytes : Z;
  fp_header_bytes : Z;
  slots_per_file_ : Z;
}.

Definition make_placement (mounts : list string) (subdir : string) (slot_bytes file_bytes header_bytes : Z) : FixedSegmentFilePlacement :=
  {| mounts_ := mounts; subdir_ := subdir; fp_slot_bytes := slot_bytes; fp_file_bytes := file_bytes;
     fp_header_bytes := header_bytes;
     slots_per_file_ := if bool_decide (slot_bytes = 0) then 0 else file_bytes / slot_bytes |}.

Definition mount_count (p : FixedSegmentFilePlacement) : Z := Z.of_nat (length (mounts_ p)).

Definition geometry_valid (p : FixedSegmentFilePlacement) : bool :=
  negb (bool_decide (mounts_ p = [])) && bool_decide (0 < slots_per_file_ p).

Definition device_for_slot (p : FixedSegmentFilePlacement) (slot : Z) : Z := slot `mod` mount_count p.
Definition file_id_for_slot (p : FixedSegmentFilePlacement) (slot : Z) : Z := slot / mount_count p / slots_per_file_ p.

Definition segment_name (file_id : Z) : string := String.append (pretty (Z.to_N file_id)) ".seg".

Definition path_for_slot (p : FixedSegmentFilePlacement) (slot : Z) : string :=
  join (join (default EmptyString (mounts_ p !! Z.to_nat (device_for_slot p slot))) (subdir_ p))
       (segment_name (file_id_for_slot p slot)).

Definition uri_for_slot (p : FixedSegmentFilePlacement) (slot : Z) : string :=
  String.append "file://" (path_for_slot p slot).

Definition header_offset_for_slot (p : FixedSegmentFilePlacement) (slot : Z) : Z :=
  u64 ((slot / mount_count p) `mod` slots_per_file_ p * fp_slot_bytes p).

Definition payload_offset_for_slot (p : FixedSegmentFilePlacement) (slot : Z) : Z :=
  u64 (header_offset_for_slot p slot + fp_header_bytes p).

(** ** File names

    A decimal number holds no slash, so the last slash of a path separates
    the directory from the file name. *)
Abbreviation chars := String.list_ascii_of_string.

Lemma chars_app s t : chars (String.append s t) = chars s ++ chars t.
Proof. induction s as [|c s IH]; [done|]. change (c :: chars (String.append s t) = c :: chars s ++ chars t). by rewrite IH. Qed.

Lemma chars_inj s t : chars s = chars t → s = t.
Proof. intros H. by rewrite <- (String.string_of_list_ascii_of_string s), H, String.string_of_list_ascii_of_string. Qed.

Lemma split_last {A} (c : A) l1 r1 l2 r2 :
  c ∉ r1 → c ∉ r2 → l1 ++ c :: r1 = l2 ++ c :: r2 → l1 = l2 ∧ r1 = r2.
Proof.
  intros H1 H2 [[k [-> Hk]]|[k [-> Hk]]]%app_eq_inv; destruct k as [|x k]; cbn in Hk; rewrite ?app_nil_r.
  - by injection Hk as ->.
  - injection Hk as -> ->. set_solver.
  - by injection Hk as ->.
  - injection Hk as -> ->. set_solver.
Qed.

Lemma digit_not_slash x : pretty_N_char x ≠ slash.
Proof. unfold pretty_N_char. repeat case_match; by intros [=]. Qed.

Lemma pretty_go_no_slash x s : slash ∉ chars s → slash ∉ chars (pretty_N_go x s).
Proof.
  revert s. induction (N.lt_wf_0 x) as [x _ IH]; intros s Hs.
  destruct (decide (0 < x)%N) as [Hx|Hx].
  - rewrite pretty_N_go_step by done. apply IH; [apply N.div_lt; lia|]. cbn. apply not_elem_of_cons.
    split; [apply not_eq_sym, digit_not_slash|done].
  - replace x with 0%N by lia. by rewrite pretty_N_go_0.
Qed.

Lemma segment_name_no_slash f : slash ∉ chars (segment_name f).
Proof.
  unfold segment_name. rewrite chars_app, elem_of_app. intros [H|H].
  - revert H. unfold pretty, pretty_N. case_decide; [by vm_compute; set_solver|]. apply pretty_go_no_slash, not_elem_of_nil.
  - revert H. vm_compute. set_solver.
Qed.

Lemma segment_name_inj f g : 0 ≤ f → 0 ≤ g → segment_name f = segment_name g → f = g.
Proof.
  unfold segment_name. intros Hf Hg E. apply (f_equal chars) in E. rewrite !chars_app in E. apply app_inj_2 in E as [E _]; [|done].
  apply chars_inj, (inj pretty) in E. lia.
Qed.

(** A directory name without trailing slash, as [join] builds it from a mount
    and a subdirectory. *)
Definition plain_dir (d : string) : Prop := d ≠ EmptyString ∧ ends_with_slash d = false.

#[export] Instance plain_dir_dec d : Decision (plain_dir d).
Proof. unfold plain_dir. apply _. Defined.

Lemma chars_join_plain d leaf : plain_dir d → chars (join d leaf) = chars d ++ slash :: chars leaf.
Proof.
  intros [Hd He]. unfold join. rewrite bool_decide_eq_false_2, He by done. by rewrite chars_app.
Qed.

Lemma join_file_inj d1 d2 f g : plain_dir d1 → plain_dir d2 → 0 ≤ f → 0 ≤ g →
  join d1 (segment_name f) = join d2 (segment_name g) → d1 = d2 ∧ f = g.
Proof.
  intros H1 H2 Hf Hg E. apply (f_equal chars) in E. rewrite !chars_join_plain in E by done.
  apply split_last in E as [Ed En]; [|apply segment_name_no_slash..].
  split; [by apply chars_inj|]. apply segment_name_inj; [done..|]. by apply chars_inj.
Qed.

(** ** Geometry *)

(** A geometry whose files do not overflow, which [open] checks, on mounts whose
    segment directories have distinct names.  The latter is a condition: the
    code drops repeated mount strings only, so that "/a" and "/a/" count as
    two mounts. *)
Record placement_ok (p : FixedSegmentFilePlacement) : Prop := {
  po_mounts : mounts_ p ≠ [];
  po_slot : 0 < fp_slot_bytes p;
  po_header : 0 ≤ fp_header_bytes p ≤ fp_slot_bytes p;
  po_per_file : 0 < slots_per_file_ p;
  po_file : slots_per_file_ p * fp_slot_bytes p ≤ fp_file_bytes p < 2 ^ 64;
  po_plain : Forall (λ m, plain_dir (join m (subdir_ p))) (mounts_ p);
  po_distinct : NoDup (map (λ m, join m (subdir_ p)) (mounts_ p));
}.

Section geometry.
Context (p : FixedSegmentFilePlacement) (Hp : placement_ok p).

Lemma mount_count_pos : 0 < mount_count p.
Proof using Hp. unfold mount_count. pose proof (po_mounts p Hp). destruct (mounts_ p); [done|cbn; lia]. Qed.

Lemma device_bounds s : 0 ≤ device_for_slot p s < mount_count p.
Proof using Hp. apply Z.mod_pos_bound, mount_count_pos. Qed.

Lemma mount_lookup s : ∃ m, mounts_ p !! Z.to_nat (device_for_slot p s) = Some m.
Proof using Hp. apply lookup_lt_is_Some_2. pose proof (device_bounds s). unfold mount_count in *. lia. Qed.

Lemma file_id_nonneg s : 0 ≤ s → 0 ≤ file_id_for_slot p s.
Proof using Hp.
  intros. unfold file_id_for_slot. pose proof mount_count_pos. pose proof (po_per_file p Hp).
  apply Z.div_pos; [apply Z.div_pos; lia|lia].
Qed.

(** The region of a slot lies inside its file. *)
Lemma header_offset_exact s : 0 ≤ s →
  header_offset_for_slot p s = (s / mount_count p) `mod` slots_per_file_ p * fp_slot_bytes p ∧
  0 ≤ header_offset_for_slot p s ∧ header_offset_for_slot p s + fp_slot_bytes p ≤ fp_file_bytes p.
Proof using Hp.
  intros Hs. pose proof (po_per_file p Hp) as Hf. pose proof (po_slot p Hp). pose proof (po_file p Hp).
  pose proof (Z.mod_pos_bound (s / mount_count p) (slots_per_file_ p) Hf) as Hm.
  assert (E : header_offset_for_slot p s = (s / mount_count p) `mod` slots_per_file_ p * fp_slot_bytes p)
    by (apply wrap_small; nia).
  rewrite E. split; [done|nia].
Qed.

(** Equal paths mean the same mount and the same file of it. *)
Lemma path_inj s t : 0 ≤ s → 0 ≤ t → path_for_slot p s = path_for_slot p t →
  device_for_slot p s = device_for_slot p t ∧ file_id_for_slot p s = file_id_for_slot p t.
Proof using Hp.
  intros Hs Ht E. unfold path_for_slot in E. destruct (mount_lookup s) as [m Hm], (mount_lookup t) as [m' Hm']. rewrite Hm, Hm' in E. cbn in E.
  pose proof (po_plain p Hp) as Hpl. apply join_file_inj in E as [Ed Ef];
    [|by eapply Forall_lookup_1 in Hpl|by eapply Forall_lookup_1 in Hpl|by apply file_id_nonneg..].
  split; [|done]. pose proof (device_bounds s). pose proof (device_bounds t).
  assert (Z.to_nat (device_for_slot p s) = Z.to_nat (device_for_slot p t)); [|lia].
  eapply (NoDup_lookup _ _ _ (join m (subdir_ p)) (po_distinct p Hp)); rewrite list_lookup_fmap.
  - by rewrite Hm.
  - by rewrite Hm', Ed.
Qed.

(** Two slots never share a byte of a file. *)
Lemma slots_disjoint s t : 0 ≤ s → 0 ≤ t → s ≠ t → path_for_slot p s = path_for_slot p t →
  header_offset_for_slot p s + fp_slot_bytes p ≤ header_offset_for_slot p t ∨
  header_offset_for_slot p t + fp_slot_bytes p ≤ header_offset_for_slot p s.
Proof using Hp.
  intros Hs Ht Hne E. destruct (path_inj s t Hs Ht E) as [Ed Ef].
  destruct (header_offset_exact s Hs) as [-> _], (header_offset_exact t Ht) as [-> _].
  pose proof mount_count_pos. pose proof (po_per_file p Hp). pose proof (po_slot p Hp).
  unfold device_for_slot, file_id_for_slot in *.
  pose proof (Z.div_mod s (mount_count p)). pose proof (Z.div_mod t (mount_count p)).
  pose proof (Z.div_mod (s / mount_count p) (slots_per_file_ p)). pose proof (Z.div_mod (t / mount_count p) (slots_per_file_ p)).
  set (x := (s / mount_count p) `mod` slots_per_file_ p) in *. set (y := (t / mount_count p) `mod` slots_per_file_ p) in *.
  assert (x ≠ y). { intros Exy. apply Hne. assert (s / mount_count p = t / mount_count p) by nia. nia. }
  assert (x + 1 ≤ y ∨ y + 1 ≤ x) as [|] by lia; [left|right]; nia.
Qed.

Lemma payload_offset_exact s : 0 ≤ s →
  payload_offset_for_slot p s = header_offset_for_slot p s + fp_header_bytes p.
Proof using Hp.
  intros Hs. destruct (header_offset_exact s Hs) as (_ & H1 & H2). apply wrap_small.
  pose proof (po_header p Hp). pose proof (po_file p Hp). lia.
Qed.
End geometry.

(** A placement built the way [build_backend_locked] builds it. *)
Lemma make_placement_ok mounts subdir slot_bytes n header_bytes :
  mounts ≠ [] → 0 < slot_bytes → 0 < n → slot_bytes * n < 2 ^ 64 → 0 ≤ header_bytes ≤ slot_bytes →
  Forall (λ m, plain_dir (join m subdir)) mounts → NoDup (map (λ m, join m subdir) mounts) →
  placement_ok (make_placement mounts subdir slot_bytes (slot_bytes * n) header_bytes).
Proof.
  intros. assert (E : slot_bytes * n / slot_bytes = n) by (rewrite Z.mul_comm; apply Z.div_mul; lia).
  split; cbn; rewrite ?bool_decide_eq_false_2, ?E by lia; try done; lia.
Qed.
