(* ===== verification/Digest.v ===== *)
(** * On-media digests (csrc/include/tutti/spi/object_digest.h)

    CRC-32C with its lookup table, and the 64-bit object identity.  The proofs
    show that the table computes the bit-serial CRC, that a buffer may be fed
    in pieces, and that damage confined to four neighbouring bytes always
    changes the checksum. *)
From S2P Require Import Prelude.

Abbreviation bytes := (list Z).
Definition wf_bytes (l : bytes) : Prop := Forall (λ b, 0 ≤ b < 256) l.

#[export] Instance wf_bytes_dec l : Decision (wf_bytes l).
Proof. unfold wf_bytes. apply _. Defined.

(** ** CRC-32C *)
Definition kCrc32cPolynomial : Z := 0x82F63B78.

(** One round of the table generator's inner loop. *)
Definition crc_bit (crc : Z) : Z :=
  if bool_decide (Z.land crc 1 ≠ 0) then Z.lxor (Z.shiftr crc 1) kCrc32cPolynomial else Z.shiftr crc 1.

Definition make_crc32c_table : list Z := map (λ i, Nat.iter 8 crc_bit i) (seqZ 0 256).

Definition kCrc32cTable : list Z := Eval vm_compute in make_crc32c_table.

Definition crc32c_init : Z := 0xFFFFFFFF.
Definition crc32c_final (state : Z) : Z := Z.lxor state 0xFFFFFFFF.

Definition crc32c_step (state b : Z) : Z :=
  Z.lxor (default 0 (kCrc32cTable !! Z.to_nat (Z.land (Z.lxor state b) 0xFF))) (Z.shiftr state 8).

Definition crc32c_update (state : Z) (data : bytes) : Z := foldl crc32c_step state data.

Definition crc32c (data : bytes) : Z :=
  if bool_decide (data = []) then 0 else crc32c_final (crc32c_update crc32c_init data).

(** ** Object identity: FNV-1a, then the SplitMix64 finaliser *)
Definition kFnvOffsetBasis : Z := 0xCBF29CE484222325.
Definition kFnvPrime : Z := 0x00000100000001B3.

Definition fnv_step (hash b : Z) : Z := u64 (Z.lxor hash b * kFnvPrime).

Definition splitmix_finalise (hash : Z) : Z :=
  let h1 := u64 (Z.lxor hash (Z.shiftr hash 30) * 0xBF58476D1CE4E5B9) in
  let h2 := u64 (Z.lxor h1 (Z.shiftr h1 27) * 0x94D049BB133111EB) in
  Z.lxor h2 (Z.shiftr h2 31).

Definition object_identity (data : bytes) : Z := splitmix_finalise (foldl fnv_step kFnvOffsetBasis data).

(** ** The bit-serial reference

    The shift register of the standard: one message bit at a time, least
    significant bit of each byte first. *)
Definition lfsr (state bit : Z) : Z := crc_bit (Z.lxor state bit).
Fixpoint low_bits (n : nat) (b : Z) : list Z :=
  match n with O => [] | S n => Z.land b 1 :: low_bits n (Z.shiftr b 1) end.
Definition message_bits (data : bytes) : list Z := data ≫= low_bits 8.
Definition crc32c_bitwise (data : bytes) : Z := crc32c_final (foldl lfsr crc32c_init (message_bits data)).

(** ** Algebra of one round *)

Lemma land_1 x : Z.land x 1 = Z.b2z (Z.testbit x 0).
Proof. change 1 with (Z.ones 1). rewrite Z.land_ones by lia. rewrite Z.bit0_mod. done. Qed.

Lemma crc_bit_spec x : crc_bit x = Z.lxor (Z.shiftr x 1) (if Z.testbit x 0 then kCrc32cPolynomial else 0).
Proof.
  unfold crc_bit. rewrite land_1. destruct (Z.testbit x 0); cbn [Z.b2z].
  - by rewrite bool_decide_eq_true_2.
  - rewrite bool_decide_eq_false_2 by (intros []; done). by rewrite Z.lxor_0_r.
Qed.

Lemma crc_bit_lxor x y : crc_bit (Z.lxor x y) = Z.lxor (crc_bit x) (crc_bit y).
Proof.
  rewrite !crc_bit_spec, Z.shiftr_lxor, Z.lxor_spec.
  apply Z.bits_inj'. intros n _. rewrite !Z.lxor_spec.
  destruct (Z.testbit x 0), (Z.testbit y 0); cbn; rewrite ?Z.bits_0;
    destruct (Z.testbit (Z.shiftr x 1) n), (Z.testbit (Z.shiftr y 1) n), (Z.testbit kCrc32cPolynomial n); done.
Qed.

Lemma crc_bit_shiftl x : crc_bit (Z.shiftl x 1) = x.
Proof.
  rewrite crc_bit_spec, Z.shiftl_spec_low by lia. rewrite Z.lxor_0_r, Z.shiftr_shiftl_l by lia. apply Z.shiftl_0_r.
Qed.

Lemma crc_iter_lxor n x y : Nat.iter n crc_bit (Z.lxor x y) = Z.lxor (Nat.iter n crc_bit x) (Nat.iter n crc_bit y).
Proof. induction n as [|n IH]; [done|]. rewrite !Nat.iter_succ, IH. apply crc_bit_lxor. Qed.

Lemma crc_iter_S n x : Nat.iter (S n) crc_bit x = Nat.iter n crc_bit (crc_bit x).
Proof. apply Nat.iter_succ_r. Qed.

Lemma crc_iter_shiftl n x : Nat.iter n crc_bit (Z.shiftl x (Z.of_nat n)) = x.
Proof.
  revert x. induction n as [|n IH]; intros x; [apply Z.shiftl_0_r|].
  rewrite crc_iter_S. replace (Z.of_nat (S n)) with (Z.of_nat n + 1) by lia.
  rewrite <- Z.shiftl_shiftl by lia. rewrite crc_bit_shiftl. apply IH.
Qed.

(** Rounds commute with taking in higher bits later. *)
Lemma crc_iter_absorb n x y : Z.lxor (Nat.iter n crc_bit x) y = Nat.iter n crc_bit (Z.lxor x (Z.shiftl y (Z.of_nat n))).
Proof. by rewrite crc_iter_lxor, crc_iter_shiftl. Qed.

Lemma split_low n x : 0 ≤ n → Z.lxor (Z.land x (Z.ones n)) (Z.shiftl (Z.shiftr x n) n) = x.
Proof.
  intros Hn. apply Z.bits_inj'. intros i Hi. rewrite Z.lxor_spec, Z.land_spec, Z.shiftl_spec by lia.
  destruct (Z.lt_ge_cases i n).
  - rewrite Z.ones_spec_low by lia. rewrite (Z.testbit_neg_r _ (i - n)) by lia. by rewrite andb_true_r, xorb_false_r.
  - rewrite Z.ones_spec_high by lia. rewrite Z.shiftr_spec by lia. rewrite andb_false_r, xorb_false_l. f_equal. lia.
Qed.

Lemma table_lookup i : 0 ≤ i < 256 → kCrc32cTable !! Z.to_nat i = Some (Nat.iter 8 crc_bit i).
Proof.
  intros Hi. assert (E : kCrc32cTable = make_crc32c_table) by (by vm_compute). rewrite E. unfold make_crc32c_table.
  rewrite list_lookup_fmap, lookup_seqZ_lt by lia. cbn [fmap option_fmap option_map]. f_equal. f_equal. lia.
Qed.

(** The table step is eight rounds. *)
Lemma crc32c_step_rounds s b : 0 ≤ b < 256 → crc32c_step s b = Nat.iter 8 crc_bit (Z.lxor s b).
Proof.
  intros Hb. unfold crc32c_step. set (x := Z.lxor s b).
  assert (Hx : 0 ≤ Z.land x 255 < 256). { change 255 with (Z.ones 8). rewrite Z.land_ones by lia. apply Z.mod_pos_bound. lia. }
  rewrite table_lookup by done. cbn [from_option]. unfold id.
  assert (E : Z.shiftr s 8 = Z.shiftr x 8).
  { unfold x. rewrite Z.shiftr_lxor, (Z.shiftr_div_pow2 b) by lia. rewrite Z.div_small by (cbn; lia). by rewrite Z.lxor_0_r. }
  rewrite E, crc_iter_absorb. f_equal. change 255 with (Z.ones 8). change (Z.of_nat 8) with 8. by apply split_low.
Qed.

Lemma low_bits_rounds n s b : 0 ≤ b < 2 ^ Z.of_nat n → foldl lfsr s (low_bits n b) = Nat.iter n crc_bit (Z.lxor s b).
Proof.
  revert s b. induction n as [|n IH]; intros s b Hb; cbn [low_bits foldl].
  - replace b with 0 by lia. cbn. by rewrite Z.lxor_0_r.
  - rewrite IH.
    2:{ rewrite Z.shiftr_div_pow2 by lia. rewrite Nat2Z.inj_succ, Z.pow_succ_r in Hb by lia.
        split; [apply Z.div_pos; lia|apply Z.div_lt_upper_bound; lia]. }
    rewrite crc_iter_S. f_equal. unfold lfsr. rewrite (crc_iter_absorb 1). cbn [Nat.iter nat_rect]. f_equal.
    rewrite Z.lxor_assoc. f_equal. change (Z.of_nat 1) with 1. apply (split_low 1 b). lia.
Qed.

Lemma update_bitwise s data : wf_bytes data → crc32c_update s data = foldl lfsr s (message_bits data).
Proof.
  intros Hd. revert s. unfold message_bits. induction Hd as [|b data Hb _ IH]; intros s; [done|].
  cbn [mbind list_bind]. rewrite foldl_app. cbn [crc32c_update foldl].
  change (foldl crc32c_step (crc32c_step s b) data) with (crc32c_update (crc32c_step s b) data). rewrite IH.
  f_equal. rewrite crc32c_step_rounds by done. by rewrite low_bits_rounds.
Qed.

Lemma crc32c_update_app s d1 d2 : crc32c_update s (d1 ++ d2) = crc32c_update (crc32c_update s d1) d2.
Proof. apply foldl_app. Qed.

(** ** Width and injectivity *)
Lemma lxor_fits w x y : 0 ≤ w → fits w x → fits w y → fits w (Z.lxor x y).
Proof.
  unfold fits. intros Hw Hx Hy.
  assert (Hh : ∀ z i, 0 ≤ z < 2 ^ w → w ≤ i → Z.testbit z i = false).
  { intros z i Hz Hi. rewrite <- (Z.mod_small z (2 ^ w)) by lia. apply Z.mod_pow2_bits_high. lia. }
  assert (E : Z.lxor x y = Z.lxor x y `mod` 2 ^ w); [|rewrite E; apply Z.mod_pos_bound; lia].
  apply Z.bits_inj'. intros i Hi. destruct (Z.lt_ge_cases i w); [by rewrite Z.mod_pow2_bits_low|].
  rewrite Z.mod_pow2_bits_high by lia. rewrite Z.lxor_spec, !Hh by lia. done.
Qed.

Lemma fits_lxor x y : fits 32 x → fits 32 y → fits 32 (Z.lxor x y).
Proof. by apply lxor_fits. Qed.

Lemma shiftr_half x : fits 32 x → 0 ≤ Z.shiftr x 1 < 2 ^ 31.
Proof. unfold fits. intros. rewrite Z.shiftr_div_pow2 by lia. split; [apply Z.div_pos; lia|apply Z.div_lt_upper_bound; lia]. Qed.

Lemma crc_bit_fits x : fits 32 x → fits 32 (crc_bit x).
Proof.
  intros Hx. rewrite crc_bit_spec. pose proof (shiftr_half x Hx). apply fits_lxor; [unfold fits; lia|].
  destruct (Z.testbit x 0); by vm_compute.
Qed.

Lemma crc_iter_fits n x : fits 32 x → fits 32 (Nat.iter n crc_bit x).
Proof. intros Hx. induction n as [|n IH]; [done|]. rewrite Nat.iter_succ. by apply crc_bit_fits. Qed.

(** The top bit of the result shows which branch was taken. *)
Lemma crc_bit_top x : fits 32 x → Z.testbit (crc_bit x) 31 = Z.testbit x 0.
Proof.
  intros Hx. rewrite crc_bit_spec, Z.lxor_spec. pose proof (shiftr_half x Hx) as Hh.
  replace (Z.testbit (Z.shiftr x 1) 31) with false.
  - destruct (Z.testbit x 0); by vm_compute.
  - symmetry. rewrite <- (Z.mod_small (Z.shiftr x 1) (2 ^ 31)) by lia. apply Z.mod_pow2_bits_high. lia.
Qed.

Lemma crc_bit_inj x y : fits 32 x → fits 32 y → crc_bit x = crc_bit y → x = y.
Proof.
  intros Hx Hy E. pose proof (crc_bit_top x Hx) as Tx. pose proof (crc_bit_top y Hy) as Ty. rewrite E, Ty in Tx.
  rewrite !crc_bit_spec, Tx in E.
  assert (Eh : Z.shiftr x 1 = Z.shiftr y 1).
  { apply (f_equal (λ z, Z.lxor z (if Z.testbit x 0 then kCrc32cPolynomial else 0))) in E.
    by rewrite !Z.lxor_assoc, Z.lxor_nilpotent, !Z.lxor_0_r in E. }
  rewrite <- (split_low 1 x), <- (split_low 1 y) by lia. rewrite Eh. f_equal. change (Z.ones 1) with 1. rewrite !land_1. by rewrite Tx.
Qed.

Lemma crc_iter_inj n x y : fits 32 x → fits 32 y → Nat.iter n crc_bit x = Nat.iter n crc_bit y → x = y.
Proof.
  intros Hx Hy. induction n as [|n IH]; [done|]. rewrite !Nat.iter_succ. intros E. apply IH. apply crc_bit_inj; [by apply crc_iter_fits..|done].
Qed.

Lemma byte_fits b : 0 ≤ b < 256 → fits 32 b.
Proof. unfold fits. lia. Qed.

Lemma crc32c_step_fits s b : fits 32 s → 0 ≤ b < 256 → fits 32 (crc32c_step s b).
Proof. intros Hs Hb. rewrite crc32c_step_rounds by done. apply crc_iter_fits, fits_lxor; [done|by apply byte_fits]. Qed.

Lemma crc32c_update_fits s data : fits 32 s → wf_bytes data → fits 32 (crc32c_update s data).
Proof. intros Hs Hd. revert s Hs. induction Hd as [|b data Hb _ IH]; intros s Hs; [done|]. apply IH. by apply crc32c_step_fits. Qed.

Lemma crc32c_fits data : wf_bytes data → fits 32 (crc32c data).
Proof.
  intros Hd. unfold crc32c. case_bool_decide; [by vm_compute|]. apply fits_lxor; [|by vm_compute].
  apply crc32c_update_fits; [by vm_compute|done].
Qed.

(** A common tail keeps different states different. *)
Lemma crc32c_update_inj s t data : fits 32 s → fits 32 t → wf_bytes data → crc32c_update s data = crc32c_update t data → s = t.
Proof.
  intros Hs Ht Hd. revert s t Hs Ht. induction Hd as [|b data Hb _ IH]; intros s t Hs Ht E; [done|]. cbn in E.
  apply IH in E; [|by apply crc32c_step_fits..]. rewrite !crc32c_step_rounds in E by done.
  apply crc_iter_inj in E; [|apply fits_lxor; [done|by apply byte_fits]..].
  apply (f_equal (λ z, Z.lxor z b)) in E. by rewrite !Z.lxor_assoc, Z.lxor_nilpotent, !Z.lxor_0_r in E.
Qed.

(** ** Bursts *)

(** Up to four bytes enter the register like one word. *)
Fixpoint le_word (l : bytes) : Z := match l with [] => 0 | b :: l => Z.lxor b (Z.shiftl (le_word l) 8) end.

Lemma update_word s l : wf_bytes l → crc32c_update s l = Nat.iter (8 * length l) crc_bit (Z.lxor s (le_word l)).
Proof.
  intros Hl. revert s. induction Hl as [|b l Hb Hl IH]; intros s; [cbn; by rewrite Z.lxor_0_r|].
  cbn [crc32c_update foldl]. change (foldl crc32c_step (crc32c_step s b) l) with (crc32c_update (crc32c_step s b) l). rewrite IH.
  rewrite crc32c_step_rounds by done. rewrite crc_iter_absorb. cbn [length le_word].
  replace (8 * S (length l))%nat with (8 * length l + 8)%nat by lia. rewrite Nat.iter_add. do 2 f_equal.
  by rewrite Z.lxor_assoc.
Qed.

Lemma le_word_add l : wf_bytes l → le_word l = little_endian_to_Z 8 l ∧ 0 ≤ le_word l < 2 ^ (8 * Z.of_nat (length l)).
Proof.
  induction 1 as [|b l Hb _ [IH IHb]]; [split; [done|cbn; lia]|]. cbn [le_word little_endian_to_Z length].
  assert (E : Z.lxor b (Z.shiftl (le_word l) 8) = Z.lor b (Z.shiftl (le_word l) 8)).
  { apply Z.lxor_lor, Z.bits_inj'. intros i Hi. rewrite Z.land_spec, Z.bits_0, Z.shiftl_spec by lia.
    destruct (Z.lt_ge_cases i 8); [rewrite (Z.testbit_neg_r _ (i - 8)) by lia; apply andb_false_r|].
    rewrite <- (Z.mod_small b (2 ^ 8)) by lia. by rewrite Z.mod_pow2_bits_high by lia. }
  split; [by rewrite E, IH|]. rewrite E, lor_shiftl by lia.
  replace (8 * Z.of_nat (S (length l))) with (8 * Z.of_nat (length l) + 8) by lia. rewrite Z.pow_add_r by lia. lia.
Qed.

Lemma le_word_inj l1 l2 : wf_bytes l1 → wf_bytes l2 → length l1 = length l2 → le_word l1 = le_word l2 → l1 = l2.
Proof.
  intros H1. revert l2. induction H1 as [|b l1 Hb H1 IH]; intros [|b' l2] H2 Hl E; [done..|].
  apply Forall_cons in H2 as [Hb' H2]. cbn in Hl. pose proof (le_word_add (b :: l1) ltac:(by constructor)) as [E1 _].
  pose proof (le_word_add (b' :: l2) ltac:(by constructor)) as [E2 _].
  pose proof (le_word_add l1 H1) as [F1 G1]. pose proof (le_word_add l2 H2) as [F2 G2].
  rewrite E1, E2 in E. cbn [little_endian_to_Z] in E. rewrite <- F1, <- F2, !lor_shiftl in E by lia.
  assert (b = b' ∧ le_word l1 = le_word l2) as [-> Ew] by lia. f_equal. apply IH; [done|lia|done].
Qed.

(** Two buffers that differ inside a window of at most four bytes, and nowhere
    else, have different checksums. *)
Lemma crc32c_burst pre mid mid' post :
  wf_bytes pre → wf_bytes mid → wf_bytes mid' → wf_bytes post → length mid = length mid' → (length mid ≤ 4)%nat → mid ≠ mid' →
  crc32c (pre ++ mid ++ post) ≠ crc32c (pre ++ mid' ++ post).
Proof.
  intros Hpre Hm Hm' Hpost Hl Hle Hne E. apply Hne. unfold crc32c in E.
  assert (Hd : ∀ m, length m = length mid → m = mid ∨ m = mid' → pre ++ m ++ post ≠ []).
  { intros m Hlm Hor Hnil. apply app_eq_nil in Hnil as [-> [-> ->]%app_eq_nil]. cbn in Hlm. symmetry in Hlm. apply nil_length_inv in Hlm.
    subst mid. symmetry in Hl. apply nil_length_inv in Hl. congruence. }
  rewrite !bool_decide_eq_false_2 in E by (apply Hd; auto).
  apply (f_equal (λ z, Z.lxor z 0xFFFFFFFF)) in E. unfold crc32c_final in E. rewrite !Z.lxor_assoc, Z.lxor_nilpotent, !Z.lxor_0_r in E.
  rewrite !crc32c_update_app in E. set (s := crc32c_update crc32c_init pre) in E.
  assert (Hs : fits 32 s) by (apply crc32c_update_fits; [by vm_compute|done]).
  apply crc32c_update_inj in E; [|by apply crc32c_update_fits..|done]. rewrite !update_word, <- Hl in E by done.
  assert (Hw : ∀ m, wf_bytes m → (length m ≤ 4)%nat → fits 32 (le_word m)).
  { intros m Hwm Hlm. destruct (le_word_add m Hwm) as [_ H]. unfold fits. split; [lia|]. eapply Z.lt_le_trans; [apply H|].
    apply Z.pow_le_mono_r; lia. }
  apply crc_iter_inj in E; [|apply fits_lxor; [done|apply Hw; (done || lia)]..].
  apply (f_equal (Z.lxor s)) in E. rewrite <- !Z.lxor_assoc, Z.lxor_nilpotent, !Z.lxor_0_l in E. by apply le_word_inj.
Qed.

(** ** Identity width *)
Lemma object_identity_fits data : fits 64 (object_identity data).
Proof.
  unfold object_identity, splitmix_finalise. set (h2 := u64 (_ * 0x94D049BB133111EB)).
  assert (Hf : fits 64 h2) by (apply wrap_fits; lia). apply lxor_fits; [done..|]. unfold fits in *.
  rewrite Z.shiftr_div_pow2 by lia. split; [apply Z.div_pos; lia|]. apply Z.div_lt_upper_bound; lia.
Qed.

(** The published check values of the two digests. *)
Example crc32c_check_value : crc32c [0x31; 0x32; 0x33; 0x34; 0x35; 0x36; 0x37; 0x38; 0x39] = 0xE3069283.
Proof. by vm_compute. Qed.
Example crc32c_zeros : crc32c (replicate 32 0) = 0x8A9136AA.
Proof. by vm_compute. Qed.
Example identity_empty : object_identity [] = 0xF52A15E9A9B5E89B.
Proof. by vm_compute. Qed.
Example identity_chunk : object_identity (replicate 16 0xA1) = 0x7ECB9653ACAF738B.
Proof. by vm_compute. Qed.
