(* ===== verification/Bytes.v ===== *)
(** * Little-endian fields in byte buffers

    The four codecs of the storage-object layer (object_header_codec.cpp,
    checkpoint_region.cpp, residency_bitmap.cpp) share their field accessors
    [store_u32], [store_u64], [load_u32], [load_u64].  A buffer is its list of
    bytes; a read that would leave the buffer is [None]. *)
From S2P Require Import Prelude Digest.

(** ** Accessors *)

(** Byte [i] of the encoding is [v >> (8 * i)], truncated. *)
Definition le_bytes (n : nat) (v : Z) : bytes := map (λ i, u8 (Z.shiftr v (8 * Z.of_nat i))) (seq 0 n).

Definition store_u32 (p : nat) (v : Z) (buf : bytes) : bytes := list_inserts p (le_bytes 4 v) buf.
Definition store_u64 (p : nat) (v : Z) (buf : bytes) : bytes := list_inserts p (le_bytes 8 v) buf.

(** [v |= p[i] << (8 * i)] for [n] bytes from index [i]. *)
Fixpoint load_loop (i n : nat) (v : Z) (p : nat) (buf : bytes) : option Z :=
  match n with
  | O => Some v
  | S n => b ← buf !! (p + i)%nat; load_loop (S i) n (Z.lor v (Z.shiftl b (8 * Z.of_nat i))) p buf
  end.
Definition load_u32 (p : nat) (buf : bytes) : option Z := load_loop 0 4 0 p buf.
Definition load_u64 (p : nat) (buf : bytes) : option Z := load_loop 0 8 0 p buf.

(** [memcpy(out, buf + p, n)]. *)
Definition read_bytes (p n : nat) (buf : bytes) : option bytes :=
  if bool_decide (p + n ≤ length buf)%nat then Some (take n (drop p buf)) else None.

(** ** Slices *)
Definition slice (p n : nat) (buf : bytes) : bytes := take n (drop p buf).

Lemma lookup_slice p n buf i : slice p n buf !! i = if decide (i < n)%nat then buf !! (p + i)%nat else None.
Proof.
  unfold slice. case_decide; [rewrite lookup_take_lt by done; by rewrite lookup_drop|]. apply lookup_take_ge. lia.
Qed.

Lemma slice_inserts_same p l buf : (p + length l ≤ length buf)%nat → slice p (length l) (list_inserts p l buf) = l.
Proof.
  intros H. apply list_eq. intros i. rewrite lookup_slice. case_decide as Hi; [|symmetry; apply lookup_ge_None_2; lia].
  rewrite list_lookup_inserts by lia. f_equal. lia.
Qed.

Lemma slice_inserts_other p n q l buf : (p + n ≤ q ∨ q + length l ≤ p)%nat → slice p n (list_inserts q l buf) = slice p n buf.
Proof.
  intros H. apply list_eq. intros i. rewrite !lookup_slice. case_decide; [|done]. destruct H.
  - apply list_lookup_inserts_lt. lia.
  - apply list_lookup_inserts_ge. lia.
Qed.

Lemma slice_app_l p n l k : (p + n ≤ length l)%nat → slice p n (l ++ k) = slice p n l.
Proof.
  intros H. apply list_eq. intros i. rewrite !lookup_slice. case_decide; [|done]. apply lookup_app_l. lia.
Qed.

Lemma slice_app_r p n l k : (length l ≤ p)%nat → slice p n (l ++ k) = slice (p - length l) n k.
Proof.
  intros H. apply list_eq. intros i. rewrite !lookup_slice. case_decide; [|done]. rewrite lookup_app_r by lia. f_equal. lia.
Qed.

Lemma length_slice p n (buf : bytes) : (p + n ≤ length buf)%nat → length (slice p n buf) = n.
Proof. intros H. unfold slice. rewrite length_take, length_drop. lia. Qed.

Lemma wf_slice p n buf : wf_bytes buf → wf_bytes (slice p n buf).
Proof. intros H. by apply Forall_take, Forall_drop. Qed.

Lemma wf_inserts p l buf : wf_bytes l → wf_bytes buf → wf_bytes (list_inserts p l buf).
Proof. intros Hl Hb. by apply Forall_inserts. Qed.

(** [memset] or [std::copy] over the front of a buffer. *)
Definition fill (data buf : bytes) : bytes := data ++ drop (length data) buf.

Lemma length_fill data buf : (length data ≤ length buf)%nat → length (fill data buf) = length buf.
Proof. intros H. unfold fill. rewrite length_app, length_drop. lia. Qed.
Lemma wf_fill data buf : wf_bytes data → wf_bytes buf → wf_bytes (fill data buf).
Proof. intros Hd Hb. apply Forall_app_2; [done|by apply Forall_drop]. Qed.

(** ** Fields *)
Abbreviation le_value := (little_endian_to_Z 8).

Lemma length_le_bytes n v : length (le_bytes n v) = n.
Proof. unfold le_bytes. by rewrite length_map, length_seq. Qed.

Lemma le_bytes_S n v : le_bytes (S n) v = u8 v :: le_bytes n (Z.shiftr v 8).
Proof.
  unfold le_bytes. cbn [seq map]. f_equal.
  rewrite <- seq_shift, map_map. apply map_ext. intros i. f_equal. rewrite Z.shiftr_shiftr by lia. f_equal. lia.
Qed.

Lemma wf_le_bytes n v : wf_bytes (le_bytes n v).
Proof. apply Forall_map, Forall_true. intros i. cbv beta. apply (wrap_fits 8). lia. Qed.

Lemma le_value_bytes n v : le_value (le_bytes n v) = v `mod` 2 ^ (8 * Z.of_nat n).
Proof.
  revert v. induction n as [|n IH]; intros v; [cbn; by rewrite Z.mod_1_r|].
  rewrite le_bytes_S. cbn [little_endian_to_Z]. rewrite IH.
  pose proof (Z.mod_pos_bound v (2 ^ 8) ltac:(lia)) as Hb. rewrite lor_shiftl by (unfold wrap; lia). unfold wrap.
  rewrite Z.shiftr_div_pow2 by lia. replace (8 * Z.of_nat (S n)) with (8 + 8 * Z.of_nat n) by lia.
  rewrite Z.pow_add_r by lia. rewrite Z.rem_mul_r by lia. lia.
Qed.

Lemma le_value_small n v : 0 ≤ v < 2 ^ (8 * Z.of_nat n) → le_value (le_bytes n v) = v.
Proof. intros H. rewrite le_value_bytes. by apply Z.mod_small. Qed.

Lemma le_value_bound l : wf_bytes l → 0 ≤ le_value l < 2 ^ (8 * Z.of_nat (length l)).
Proof. intros H. destruct (le_word_add l H) as [<- ?]. done. Qed.

Lemma load_loop_value i n v p buf : (p + i + n ≤ length buf)%nat →
  load_loop i n v p buf = Some (Z.lor v (Z.shiftl (le_value (slice (p + i) n buf)) (8 * Z.of_nat i))).
Proof.
  revert i v. induction n as [|n IH]; intros i v H; cbn [load_loop].
  - unfold slice. rewrite take_0. cbn. by rewrite Z.shiftl_0_l, Z.lor_0_r.
  - destruct (lookup_lt_is_Some_2 buf (p + i)%nat) as [b Hb]; [lia|]. rewrite Hb. cbn [mbind option_bind]. rewrite IH by lia.
    unfold slice. rewrite (drop_S buf b (p + i)) by done. cbn [take little_endian_to_Z].
    replace (p + S i)%nat with (S (p + i)) by lia. rewrite Z.shiftl_lor, Z.shiftl_shiftl by lia.
    replace (8 * Z.of_nat (S i)) with (8 + 8 * Z.of_nat i) by lia. by rewrite Z.lor_assoc.
Qed.

Lemma load_u32_value p buf : (p + 4 ≤ length buf)%nat → load_u32 p buf = Some (le_value (slice p 4 buf)).
Proof. intros H. unfold load_u32. rewrite load_loop_value by lia. rewrite Nat.add_0_r. by rewrite Z.shiftl_0_r, Z.lor_0_l. Qed.

Lemma load_u64_value p buf : (p + 8 ≤ length buf)%nat → load_u64 p buf = Some (le_value (slice p 8 buf)).
Proof. intros H. unfold load_u64. rewrite load_loop_value by lia. rewrite Nat.add_0_r. by rewrite Z.shiftl_0_r, Z.lor_0_l. Qed.

Lemma load_loop_short i n v p buf : (length buf < p + i + n)%nat → n ≠ O → load_loop i n v p buf = None.
Proof.
  revert i v. induction n as [|n IH]; intros i v H Hn; [done|]. cbn [load_loop].
  destruct (buf !! (p + i)%nat) as [b|] eqn:Hb; [|done]. cbn [mbind option_bind]. apply lookup_lt_Some in Hb. apply IH; lia.
Qed.
Lemma load_u32_short p buf : (length buf < p + 4)%nat → load_u32 p buf = None.
Proof. intros H. apply load_loop_short; lia. Qed.
Lemma load_u64_short p buf : (length buf < p + 8)%nat → load_u64 p buf = None.
Proof. intros H. apply load_loop_short; lia. Qed.

Lemma read_bytes_slice p n buf : (p + n ≤ length buf)%nat → read_bytes p n buf = Some (slice p n buf).
Proof. intros H. unfold read_bytes. by rewrite bool_decide_eq_true_2. Qed.

(** Reading a field back: what was stored there last. *)
Lemma slice_store_u32 p v buf : (p + 4 ≤ length buf)%nat → slice p 4 (store_u32 p v buf) = le_bytes 4 v.
Proof. intros H. unfold store_u32. rewrite <- (length_le_bytes 4 v) at 1. apply slice_inserts_same. by rewrite length_le_bytes. Qed.
Lemma slice_store_u64 p v buf : (p + 8 ≤ length buf)%nat → slice p 8 (store_u64 p v buf) = le_bytes 8 v.
Proof. intros H. unfold store_u64. rewrite <- (length_le_bytes 8 v) at 1. apply slice_inserts_same. by rewrite length_le_bytes. Qed.
Lemma slice_store_u32_ne p n q v buf : (p + n ≤ q ∨ q + 4 ≤ p)%nat → slice p n (store_u32 q v buf) = slice p n buf.
Proof. intros H. apply slice_inserts_other. by rewrite length_le_bytes. Qed.
Lemma slice_store_u64_ne p n q v buf : (p + n ≤ q ∨ q + 8 ≤ p)%nat → slice p n (store_u64 q v buf) = slice p n buf.
Proof. intros H. apply slice_inserts_other. by rewrite length_le_bytes. Qed.
Lemma length_store_u32 p v buf : length (store_u32 p v buf) = length buf.
Proof. apply length_inserts. Qed.
Lemma length_store_u64 p v buf : length (store_u64 p v buf) = length buf.
Proof. apply length_inserts. Qed.

Create Rewrite HintDb codec.
#[export] Hint Rewrite length_store_u32 length_store_u64 (@length_inserts Z) (@length_replicate Z) : codec.

(** Evaluate a slice of a buffer that was filled field by field: drop the
    stores that do not touch it, then read the one that wrote it. *)
Ltac slice_field :=
  repeat first
    [ rewrite slice_store_u32 by (autorewrite with codec; lia)
    | rewrite slice_store_u64 by (autorewrite with codec; lia)
    | rewrite slice_store_u32_ne by lia
    | rewrite slice_store_u64_ne by lia ].
