(* ===== verification/ObjHeader.v ===== *)
(** * Object headers (csrc/storage_objects/object_header_codec.cpp,
      ObjectKey and ObjectHeaderLayout of storage_object_store.h)

    A slot proves what it holds by a 4096-byte header.  [encode_object_header]
    and [decode_object_header] follow the source; a read outside the buffer is
    [None], and no decoder ever produces it.  A rejected header is a value of
    [HeaderRejection]. *)
From S2P Require Import Prelude Digest Bytes.

(** ** Keys *)
Abbreviation ObjectKey := bytes.
Definition key_identity (key : ObjectKey) : Z := object_identity key.
Definition key_crc32 (key : ObjectKey) : Z := crc32c key.

(** ** Layout *)
Definition kHeaderBytes : nat := Z.to_nat 4096.
Definition kObjMagic : bytes := [0x54; 0x55; 0x54; 0x54; 0x49; 0x4F; 0x42; 0x4A].
Definition kObjVersion : Z := 1.
Definition kMagicOffset : nat := 0.
Definition kVersionOffset : nat := 8.
Definition kIdentityOffset : nat := 16.
Definition kPayloadBytesOffset : nat := 24.
Definition kGenerationOffset : nat := 32.
Definition kKeyLenOffset : nat := 40.
Definition kKeyCrc32Offset : nat := 44.
Definition kCommitSeqOffset : nat := 48.
Definition kHeaderCrc32Offset : nat := 56.
Definition kCrcCoveredBytes : nat := kHeaderCrc32Offset.

Inductive HeaderRejection : Set :=
  | kEmptySlot | kBadMagic | kUnsupportedVersion | kBadHeaderCrc | kIdentityMismatch | kKeyCrcMismatch
  | kPayloadBytesMismatch | kGenerationMismatch | kTruncatedBuffer.

#[export] Instance HeaderRejection_eq_dec : EqDecision HeaderRejection.
Proof. solve_decision. Defined.

Record ObjectHeaderFields := {
  hf_identity : Z;
  hf_payload_bytes : Z;
  hf_generation : Z;
  hf_commit_seq : Z;
  hf_key_len : Z;
  hf_key_crc32 : Z;
}.

#[export] Instance ObjectHeaderFields_eq_dec : EqDecision ObjectHeaderFields.
Proof. solve_decision. Defined.

Record HeaderExpectation := {
  ex_key : ObjectKey;
  ex_payload_bytes : Z;
  ex_generation : Z;
  ex_check_generation : bool;
}.

(** ** Encoding *)
Definition encode_object_header (out : bytes) (key : ObjectKey) (payload_bytes generation commit_seq : Z) : bool * bytes :=
  if bool_decide (length out < kHeaderBytes)%nat then (false, out) else
  if bool_decide (key = []) || bool_decide (payload_bytes = 0) then (false, out) else
  let out := fill (replicate kHeaderBytes 0) out in
  let out := list_inserts kMagicOffset kObjMagic out in
  let out := store_u32 kVersionOffset kObjVersion out in
  let out := store_u64 kIdentityOffset (key_identity key) out in
  let out := store_u64 kPayloadBytesOffset payload_bytes out in
  let out := store_u64 kGenerationOffset generation out in
  let out := store_u32 kKeyLenOffset (u32 (Z.of_nat (length key))) out in
  let out := store_u32 kKeyCrc32Offset (key_crc32 key) out in
  let out := store_u64 kCommitSeqOffset commit_seq out in
  let out := store_u32 kHeaderCrc32Offset (crc32c (take kCrcCoveredBytes out)) out in
  (true, out).

(** ** Decoding *)
Definition magic_is_zero (p : nat) (data : bytes) : option bool :=
  m ← read_bytes p 8 data; Some (forallb (λ b, bool_decide (b = 0)) m).
Definition magic_matches (p : nat) (magic data : bytes) : option bool :=
  m ← read_bytes p 8 data; Some (bool_decide (m = magic)).

Definition validate_structure (data : bytes) : option (HeaderRejection + ObjectHeaderFields) :=
  if bool_decide (length data < kHeaderBytes)%nat then Some (inl kTruncatedBuffer) else
  zero ← magic_is_zero kMagicOffset data;
  if (zero : bool) then Some (inl kEmptySlot) else
  matches ← magic_matches kMagicOffset kObjMagic data;
  if negb matches then Some (inl kBadMagic) else
  version ← load_u32 kVersionOffset data;
  if bool_decide (version ≠ kObjVersion) then Some (inl kUnsupportedVersion) else
  stored_crc ← load_u32 kHeaderCrc32Offset data;
  covered ← read_bytes 0 kCrcCoveredBytes data;
  if bool_decide (stored_crc ≠ crc32c covered) then Some (inl kBadHeaderCrc) else
  identity ← load_u64 kIdentityOffset data;
  payload_bytes ← load_u64 kPayloadBytesOffset data;
  generation ← load_u64 kGenerationOffset data;
  commit_seq ← load_u64 kCommitSeqOffset data;
  key_len ← load_u32 kKeyLenOffset data;
  key_crc ← load_u32 kKeyCrc32Offset data;
  Some (inr {| hf_identity := identity; hf_payload_bytes := payload_bytes; hf_generation := generation;
               hf_commit_seq := commit_seq; hf_key_len := key_len; hf_key_crc32 := key_crc |}).

(** The comparison with what the caller expects. *)
Definition check_expectation (e : HeaderExpectation) (decoded : ObjectHeaderFields) : HeaderRejection + ObjectHeaderFields :=
  if bool_decide (hf_identity decoded ≠ key_identity (ex_key e)) then inl kIdentityMismatch else
  if bool_decide (hf_key_len decoded ≠ Z.of_nat (length (ex_key e))) || bool_decide (hf_key_crc32 decoded ≠ key_crc32 (ex_key e))
  then inl kKeyCrcMismatch else
  if bool_decide (hf_payload_bytes decoded ≠ ex_payload_bytes e) then inl kPayloadBytesMismatch else
  if ex_check_generation e && bool_decide (hf_generation decoded ≠ ex_generation e) then inl kGenerationMismatch else
  inr decoded.

Definition decode_object_header (data : bytes) (e : HeaderExpectation) : option (HeaderRejection + ObjectHeaderFields) :=
  if bool_decide (ex_key e = []) || bool_decide (ex_payload_bytes e = 0) then Some (inl kTruncatedBuffer) else
  structural ← validate_structure data;
  match structural with
  | inl r => Some (inl r)
  | inr decoded => Some (check_expectation e decoded)
  end.

Definition peek_object_header (data : bytes) : option (HeaderRejection + ObjectHeaderFields) := validate_structure data.

(** ** What the decoder checks, field by field *)
Definition fields_of (d : bytes) : ObjectHeaderFields :=
  {| hf_identity := le_value (slice kIdentityOffset 8 d); hf_payload_bytes := le_value (slice kPayloadBytesOffset 8 d);
     hf_generation := le_value (slice kGenerationOffset 8 d); hf_commit_seq := le_value (slice kCommitSeqOffset 8 d);
     hf_key_len := le_value (slice kKeyLenOffset 4 d); hf_key_crc32 := le_value (slice kKeyCrc32Offset 4 d) |}.

Definition structure_of (d : bytes) : HeaderRejection + ObjectHeaderFields :=
  if bool_decide (length d < kHeaderBytes)%nat then inl kTruncatedBuffer else
  if forallb (λ b, bool_decide (b = 0)) (slice kMagicOffset 8 d) then inl kEmptySlot else
  if negb (bool_decide (slice kMagicOffset 8 d = kObjMagic)) then inl kBadMagic else
  if bool_decide (le_value (slice kVersionOffset 4 d) ≠ kObjVersion) then inl kUnsupportedVersion else
  if bool_decide (le_value (slice kHeaderCrc32Offset 4 d) ≠ crc32c (slice 0 kCrcCoveredBytes d)) then inl kBadHeaderCrc else
  inr (fields_of d).

Ltac header_bounds := unfold kHeaderBytes, kMagicOffset, kVersionOffset, kIdentityOffset, kPayloadBytesOffset, kGenerationOffset,
  kKeyLenOffset, kKeyCrc32Offset, kCommitSeqOffset, kCrcCoveredBytes, kHeaderCrc32Offset in *.

Lemma validate_structure_total d : validate_structure d = Some (structure_of d).
Proof.
  unfold validate_structure, structure_of. case_bool_decide as Hl; [done|]. unfold magic_is_zero, magic_matches.
  rewrite !read_bytes_slice, !load_u32_value, !load_u64_value by (header_bounds; lia).
  cbn [mbind option_bind]. by repeat case_match.
Qed.

Definition accepted (d : bytes) (e : HeaderExpectation) : HeaderRejection + ObjectHeaderFields :=
  if bool_decide (ex_key e = []) || bool_decide (ex_payload_bytes e = 0) then inl kTruncatedBuffer else
  match structure_of d with inl r => inl r | inr f => check_expectation e f end.

Lemma decode_total d e : decode_object_header d e = Some (accepted d e).
Proof.
  unfold decode_object_header, accepted. case_match; [done|]. rewrite validate_structure_total. cbn [mbind option_bind]. by case_match.
Qed.

(** An accepted header names exactly the expected object. *)
Lemma accepted_fields d e f : accepted d e = inr f →
  f = fields_of d ∧ structure_of d = inr f ∧ ex_key e ≠ [] ∧ ex_payload_bytes e ≠ 0 ∧
  hf_identity f = key_identity (ex_key e) ∧ hf_key_len f = Z.of_nat (length (ex_key e)) ∧ hf_key_crc32 f = key_crc32 (ex_key e) ∧
  hf_payload_bytes f = ex_payload_bytes e ∧ (ex_check_generation e = true → hf_generation f = ex_generation e).
Proof.
  unfold accepted. destruct (_ || _) eqn:E0; [done|]. apply orb_false_elim in E0 as [E1%bool_decide_eq_false E2%bool_decide_eq_false].
  destruct (structure_of d) as [r|f'] eqn:Es; [done|]. unfold check_expectation.
  case_bool_decide as H1; [done|]. destruct (_ || _) eqn:E3; [done|]. apply orb_false_elim in E3 as [H2%bool_decide_eq_false H3%bool_decide_eq_false].
  case_bool_decide as H4; [done|]. destruct (_ && _) eqn:E5; [done|]. intros [= <-].
  assert (Ef : f' = fields_of d). { unfold structure_of in Es. repeat case_match; congruence. }
  split_and!; try done; try (by apply dec_stable). intros Hg. rewrite Hg in E5. cbn in E5. by apply bool_decide_eq_false, dec_stable in E5.
Qed.

(** ** Encoding, field by field *)
Record encoded (key : ObjectKey) (payload_bytes generation commit_seq : Z) (d : bytes) : Prop := {
  en_length : (kHeaderBytes ≤ length d)%nat;
  en_magic : slice kMagicOffset 8 d = kObjMagic;
  en_version : slice kVersionOffset 4 d = le_bytes 4 kObjVersion;
  en_crc : slice kHeaderCrc32Offset 4 d = le_bytes 4 (crc32c (slice 0 kCrcCoveredBytes d));
  en_identity : slice kIdentityOffset 8 d = le_bytes 8 (key_identity key);
  en_payload : slice kPayloadBytesOffset 8 d = le_bytes 8 payload_bytes;
  en_generation : slice kGenerationOffset 8 d = le_bytes 8 generation;
  en_seq : slice kCommitSeqOffset 8 d = le_bytes 8 commit_seq;
  en_key_len : slice kKeyLenOffset 4 d = le_bytes 4 (u32 (Z.of_nat (length key)));
  en_key_crc : slice kKeyCrc32Offset 4 d = le_bytes 4 (key_crc32 key);
}.

Lemma encode_ok out key payload_bytes generation commit_seq :
  (kHeaderBytes ≤ length out)%nat → key ≠ [] → payload_bytes ≠ 0 →
  ∃ d, encode_object_header out key payload_bytes generation commit_seq = (true, d) ∧ length d = length out ∧
       encoded key payload_bytes generation commit_seq d ∧ (wf_bytes out → wf_bytes d).
Proof.
  intros Hl Hk Hp. unfold encode_object_header. rewrite bool_decide_eq_false_2 by lia.
  rewrite !bool_decide_eq_false_2 by done. cbn [orb]. set (z := fill (replicate kHeaderBytes 0) out).
  assert (Hz : length z = length out) by (apply length_fill; by rewrite length_replicate).
  assert (Hwz : wf_bytes out → wf_bytes z) by (intros Hw; apply wf_fill; [apply Forall_replicate; lia|done]). clearbody z. eexists. split; [reflexivity|].
  split; [by autorewrite with codec|]. split.
  - split; header_bounds; autorewrite with codec; [lia|..]; slice_field;
      [|reflexivity|unfold slice; rewrite drop_0; reflexivity|reflexivity..].
    apply (slice_inserts_same 0 kObjMagic). change (length kObjMagic) with 8%nat. lia.
  - intros Hw. repeat apply wf_inserts; try apply wf_le_bytes; [by apply (bool_decide_unpack _)|by apply Hwz].
Qed.

(** Round trip: an encoded header is accepted for its own key, size and
    generation and gives back its fields. *)
Lemma encoded_structure key p g s d : encoded key p g s d → wf_bytes d → fits 64 p → fits 64 g → fits 64 s → wf_bytes key →
  structure_of d = inr {| hf_identity := key_identity key; hf_payload_bytes := p; hf_generation := g; hf_commit_seq := s;
                          hf_key_len := u32 (Z.of_nat (length key)); hf_key_crc32 := key_crc32 key |}.
Proof.
  intros [Hl Hm Hv Hc Hi Hp Hg Hs Hn Hk] Hw Fp Fg Fs Fk. unfold structure_of. rewrite bool_decide_eq_false_2 by lia.
  rewrite Hm, bool_decide_eq_true_2 by done. cbn [negb]. replace (forallb _ kObjMagic) with false by reflexivity.
  rewrite Hv, Hc, !le_value_small; [|apply (crc32c_fits _ (wf_slice _ _ _ Hw))|by vm_compute].
  rewrite !bool_decide_eq_false_2 by (intros []; done). unfold fields_of. rewrite Hi, Hp, Hg, Hs, Hn, Hk.
  rewrite !le_value_small; try done; [apply (crc32c_fits _ Fk)|apply (wrap_fits 32); lia|apply object_identity_fits].
Qed.

Lemma structure_crc d f : structure_of d = inr f → le_value (slice kHeaderCrc32Offset 4 d) = crc32c (slice 0 kCrcCoveredBytes d).
Proof. unfold structure_of. repeat case_match; try done. intros _. apply dec_stable. by eapply bool_decide_eq_false_1. Qed.

Lemma take_window n pre mid post : (length pre + length mid ≤ n)%nat →
  slice 0 n (pre ++ mid ++ post) = pre ++ mid ++ take (n - length pre - length mid) post.
Proof. intros H. unfold slice. rewrite drop_0, take_app_ge, take_app_ge by lia. done. Qed.

(** Damage inside four neighbouring bytes of the covered part never goes
    unnoticed. *)
Lemma header_burst pre mid mid' post f :
  wf_bytes pre → wf_bytes mid → wf_bytes mid' → wf_bytes post → length mid = length mid' → (length mid ≤ 4)%nat → mid ≠ mid' →
  (length pre + length mid ≤ kCrcCoveredBytes)%nat → structure_of (pre ++ mid ++ post) = inr f →
  ∃ r, structure_of (pre ++ mid' ++ post) = inl r.
Proof.
  intros H1 H2 H3 H4 Hl Hle Hne Hcov Hs. destruct (structure_of (pre ++ mid' ++ post)) as [r|f'] eqn:E; [by exists r|]. exfalso.
  apply structure_crc in Hs, E. rewrite take_window in Hs by done. rewrite take_window in E by lia.
  rewrite (app_assoc pre mid post), slice_app_r, length_app in Hs by (rewrite length_app; header_bounds; lia).
  rewrite (app_assoc pre mid' post), slice_app_r, length_app, <- Hl in E by (rewrite length_app; header_bounds; lia).
  rewrite Hs in E. revert E. apply crc32c_burst; try done. by apply Forall_take.
Qed.

(** A zeroed header reads as space that was never written. *)
Lemma zero_header_empty d : (kHeaderBytes ≤ length d)%nat → Forall (λ b, b = 0) (slice 0 8 d) → structure_of d = inl kEmptySlot.
Proof.
  intros Hl Hz. unfold structure_of. rewrite bool_decide_eq_false_2 by lia.
  rewrite (proj2 (forallb_forall _ _)); [done|]. intros x Hx%list_elem_of_In. rewrite Forall_forall in Hz.
  by apply bool_decide_eq_true_2, Hz.
Qed.
