(* ===== verification/Checkpoint.v ===== *)
(** * The checkpoint region (csrc/storage_objects/checkpoint_region.cpp,
      CheckpointLayout of storage_object_store.h)

    Two containers hold copies of the index, written in turn.  Encoding and
    decoding of a container, its size and place, and the choice of the
    container to write and to read.  A read outside the buffer is [None]. *)
From S2P Require Import Prelude Digest Bytes ObjHeader.

(** ** Data *)
Definition kCkptMagic : bytes := [0x54; 0x55; 0x54; 0x54; 0x49; 0x49; 0x44; 0x58].
Definition kCkptVersion : Z := 1.
Definition kContainerCount : nat := 2.
Definition kContainerHeaderBytes : nat := Z.to_nat 4096.
Definition kCkptVersionOffset : nat := 8.
Definition kSequenceOffset : nat := 12.
Definition kBodyBytesOffset : nat := 20.
Definition kBodyCrc32Offset : nat := 28.
Definition kAlignment : Z := 4096.
Definition kEntryFixedBytes : Z := 4 + 8 + 8 + 8 + 8.
Definition kEntryCountBytes : Z := 8.

Record CheckpointEntry := {
  ce_key : ObjectKey;
  ce_slot : Z;
  ce_payload_bytes : Z;
  ce_generation : Z;
  ce_commit_seq : Z;
}.

#[export] Instance CheckpointEntry_eq_dec : EqDecision CheckpointEntry.
Proof. solve_decision. Defined.

Inductive CheckpointRejection : Set :=
  | kEmptyContainer | kCkptBadMagic | kCkptUnsupportedVersion | kCkptTruncatedBuffer | kBadBodyCrc | kMalformedBody.

#[export] Instance CheckpointRejection_eq_dec : EqDecision CheckpointRejection.
Proof. solve_decision. Defined.

Definition round_up (value multiple : Z) : Z :=
  if bool_decide (multiple = 0) then value else u64 (u64 (value + multiple - 1) / multiple * multiple).

(** ** Encoding *)
Definition entry_bytes (e : CheckpointEntry) : bytes :=
  le_bytes 4 (u32 (Z.of_nat (length (ce_key e)))) ++ le_bytes 8 (ce_slot e) ++ le_bytes 8 (ce_payload_bytes e) ++
  le_bytes 8 (ce_generation e) ++ le_bytes 8 (ce_commit_seq e) ++ ce_key e.

Definition checkpoint_body (entries : list CheckpointEntry) : bytes :=
  le_bytes 8 (Z.of_nat (length entries)) ++ concat (map entry_bytes entries).

Definition encode_checkpoint (entries : list CheckpointEntry) (sequence : Z) : bytes :=
  let body := checkpoint_body entries in
  let total := round_up (Z.of_nat kContainerHeaderBytes + Z.of_nat (length body)) kAlignment in
  let image := replicate (Z.to_nat total) 0 in
  let image := list_inserts kMagicOffset kCkptMagic image in
  let image := store_u32 kCkptVersionOffset kCkptVersion image in
  let image := store_u64 kSequenceOffset sequence image in
  let image := store_u64 kBodyBytesOffset (Z.of_nat (length body)) image in
  let image := store_u32 kBodyCrc32Offset (crc32c body) image in
  list_inserts kContainerHeaderBytes body image.

(** ** Decoding *)

(** The parse loop, [n] entries left; [body_bytes] is the length of [body]. *)
Fixpoint parse_entries (n : nat) (body_bytes cursor : Z) (body : bytes) : option (CheckpointRejection + list CheckpointEntry) :=
  match n with
  | O => Some (inr [])
  | S n =>
      if bool_decide (u64 (body_bytes - cursor) < kEntryFixedBytes) then Some (inl kMalformedBody) else
      key_len ← load_u32 (Z.to_nat cursor) body;
      slot ← load_u64 (Z.to_nat (cursor + 4)) body;
      payload_bytes ← load_u64 (Z.to_nat (cursor + 12)) body;
      generation ← load_u64 (Z.to_nat (cursor + 20)) body;
      commit_seq ← load_u64 (Z.to_nat (cursor + 28)) body;
      let cursor := cursor + 36 in
      if bool_decide (key_len = 0) || bool_decide (u64 (body_bytes - cursor) < key_len) then Some (inl kMalformedBody) else
      key ← read_bytes (Z.to_nat cursor) (Z.to_nat key_len) body;
      rest ← parse_entries n body_bytes (cursor + key_len) body;
      match rest with
      | inl r => Some (inl r)
      | inr entries =>
          Some (inr ({| ce_key := key; ce_slot := slot; ce_payload_bytes := payload_bytes; ce_generation := generation;
                        ce_commit_seq := commit_seq |} :: entries))
      end
  end.

Definition decode_checkpoint (data : bytes) : option (CheckpointRejection + Z * list CheckpointEntry) :=
  if bool_decide (length data < kContainerHeaderBytes)%nat then Some (inl kCkptTruncatedBuffer) else
  zero ← magic_is_zero kMagicOffset data;
  if (zero : bool) then Some (inl kEmptyContainer) else
  matches ← magic_matches kMagicOffset kCkptMagic data;
  if negb matches then Some (inl kCkptBadMagic) else
  version ← load_u32 kCkptVersionOffset data;
  if bool_decide (version ≠ kCkptVersion) then Some (inl kCkptUnsupportedVersion) else
  seq ← load_u64 kSequenceOffset data;
  body_bytes ← load_u64 kBodyBytesOffset data;
  stored_crc ← load_u32 kBodyCrc32Offset data;
  if bool_decide (u64 (Z.of_nat (length data) - Z.of_nat kContainerHeaderBytes) < body_bytes)
  then Some (inl kCkptTruncatedBuffer) else
  body ← read_bytes kContainerHeaderBytes (Z.to_nat body_bytes) data;
  if bool_decide (crc32c body ≠ stored_crc) then Some (inl kBadBodyCrc) else
  if bool_decide (body_bytes < kEntryCountBytes) then Some (inl kMalformedBody) else
  count ← load_u64 0 body;
  if bool_decide (u64 (body_bytes - kEntryCountBytes) / kEntryFixedBytes < count) then Some (inl kMalformedBody) else
  parsed ← parse_entries (Z.to_nat count) body_bytes kEntryCountBytes body;
  match parsed with
  | inl r => Some (inl r)
  | inr entries => Some (inr (seq, entries))
  end.

(** ** Container placement *)
Definition checkpoint_container_bytes (max_entries max_key_bytes : Z) : Z :=
  let body := u64 (kEntryCountBytes + max_entries * (kEntryFixedBytes + max_key_bytes)) in
  round_up (u64 (Z.of_nat kContainerHeaderBytes + body)) kAlignment.

Definition checkpoint_container_offset (index container_bytes : Z) : Z := u64 (index * container_bytes).

(** The first empty container, or else the first with the least sequence. *)
Fixpoint first_empty (i : nat) (sequences : list Z) : option nat :=
  match sequences with
  | [] => None
  | s :: rest => if bool_decide (s = 0) then Some i else first_empty (S i) rest
  end.

Fixpoint oldest_from (i : nat) (rest : list Z) (oldest : nat) (oldest_seq : Z) : nat :=
  match rest with
  | [] => oldest
  | s :: rest => if bool_decide (s < oldest_seq) then oldest_from (S i) rest i s else oldest_from (S i) rest oldest oldest_seq
  end.

Definition next_checkpoint_container (sequences : list Z) : nat :=
  match sequences with
  | [] => 0
  | s0 :: rest => match first_empty 0 sequences with Some i => i | None => oldest_from 1 rest 0 s0 end
  end.

(** The newest readable container: [best] and its sequence so far. *)
Fixpoint select_from (i : nat) (sequences : list Z) (best : option (nat * Z)) : option (nat * Z) :=
  match sequences with
  | [] => best
  | s :: rest =>
      if bool_decide (s = 0) then select_from (S i) rest best else
      match best with
      | None => select_from (S i) rest (Some (i, s))
      | Some (b, bs) => if bool_decide (bs < s) then select_from (S i) rest (Some (i, s)) else select_from (S i) rest best
      end
  end.

Definition select_checkpoint_container (sequences : list Z) : option nat := fst <$> select_from 0 sequences None.

(** ** No read leaves the buffer *)
Ltac ckpt_bounds := unfold kContainerHeaderBytes, kMagicOffset, kCkptVersionOffset, kSequenceOffset, kBodyBytesOffset,
  kBodyCrc32Offset, kAlignment, kEntryFixedBytes, kEntryCountBytes in *.

Lemma wrap_sub64 x y : 0 ≤ y ≤ x → x < 2 ^ 64 → u64 (x - y) = x - y.
Proof. intros. apply wrap_small. lia. Qed.

Lemma parse_entries_total n body cursor : wf_bytes body → Z.of_nat (length body) < 2 ^ 64 → 0 ≤ cursor ≤ Z.of_nat (length body) →
  ∃ r, parse_entries n (Z.of_nat (length body)) cursor body = Some r.
Proof.
  intros Hw Hl. revert cursor. induction n as [|n IH]; intros cursor Hc; cbn [parse_entries]; [by eexists|].
  rewrite wrap_sub64 by lia. case_bool_decide as Hf; [by eexists|]. ckpt_bounds.
  rewrite load_u32_value by lia. rewrite !load_u64_value by lia. cbn [mbind option_bind].
  pose proof (le_value_bound _ (wf_slice (Z.to_nat cursor) 4 body Hw)) as Hk.
  set (key_len := le_value (slice (Z.to_nat cursor) 4 body)) in *.
  rewrite wrap_sub64 by lia. destruct (_ || _) eqn:E; [by eexists|].
  apply orb_false_elim in E as [E1%bool_decide_eq_false E2%bool_decide_eq_false].
  rewrite read_bytes_slice by lia. cbn [mbind option_bind].
  destruct (IH (cursor + 36 + key_len)) as [r ->]; [lia|]. cbn. destruct r; by eexists.
Qed.

Lemma decode_checkpoint_total data : wf_bytes data → Z.of_nat (length data) < 2 ^ 64 → ∃ r, decode_checkpoint data = Some r.
Proof.
  intros Hw Hl. unfold decode_checkpoint. case_bool_decide as H0; [by eexists|]. unfold magic_is_zero, magic_matches. ckpt_bounds.
  rewrite !read_bytes_slice, !load_u32_value, !load_u64_value by lia. cbn [mbind option_bind].
  destruct (forallb _ _); [by eexists|]. destruct (negb _); [by eexists|]. case_bool_decide; [by eexists|].
  rewrite wrap_sub64 by lia. pose proof (le_value_bound _ (wf_slice 20 8 data Hw)) as Hb.
  set (body_bytes := le_value (slice 20 8 data)) in *. case_bool_decide as H1; [by eexists|].
  rewrite read_bytes_slice by lia. cbn [mbind option_bind]. case_bool_decide; [by eexists|]. case_bool_decide as Hmin; [by eexists|].
  set (body := slice (Z.to_nat 4096) (Z.to_nat body_bytes) data).
  assert (Hlen : Z.of_nat (length body) = body_bytes) by (unfold body, slice; rewrite length_take, length_drop; lia).
  assert (Hwb : wf_bytes body) by by apply wf_slice.
  rewrite load_u64_value by lia. cbn [mbind option_bind]. case_bool_decide; [by eexists|].
  rewrite <- Hlen. destruct (parse_entries_total (Z.to_nat (le_value (slice 0 8 body))) body 8) as [r ->]; [done|lia|lia|].
  cbn. destruct r; by eexists.
Qed.

(** ** Round trip *)
Record entry_ok (e : CheckpointEntry) : Prop := {
  eo_key : ce_key e ≠ [];
  eo_key_bytes : wf_bytes (ce_key e);
  eo_key_len : Z.of_nat (length (ce_key e)) < 2 ^ 32;
  eo_slot : fits 64 (ce_slot e);
  eo_payload : fits 64 (ce_payload_bytes e);
  eo_generation : fits 64 (ce_generation e);
  eo_seq : fits 64 (ce_commit_seq e);
}.

Lemma slice_at (pre l post : bytes) p n : p = length pre → n = length l → slice p n (pre ++ l ++ post) = l.
Proof.
  intros -> ->. rewrite slice_app_r by done. rewrite Nat.sub_diag, slice_app_l by lia. unfold slice. by rewrite drop_0, firstn_all.
Qed.

Lemma length_entry_bytes e : Z.of_nat (length (entry_bytes e)) = kEntryFixedBytes + Z.of_nat (length (ce_key e)).
Proof. unfold entry_bytes. rewrite !length_app, !length_le_bytes. ckpt_bounds. lia. Qed.

Lemma wf_entry_bytes e : entry_ok e → wf_bytes (entry_bytes e).
Proof. intros He. unfold entry_bytes. repeat apply Forall_app_2; try apply wf_le_bytes. apply (eo_key_bytes e He). Qed.

(** Reading the fields of an entry that starts at the cursor. *)
Lemma load_u32_at (pre post : bytes) v p : p = Z.of_nat (length pre) → fits 32 v →
  load_u32 (Z.to_nat p) (pre ++ le_bytes 4 v ++ post) = Some v.
Proof.
  intros -> Hv. rewrite Nat2Z.id, load_u32_value by (rewrite !length_app, length_le_bytes; lia).
  rewrite slice_at by (done || by rewrite length_le_bytes). by rewrite le_value_small.
Qed.

Lemma load_u64_at (pre post : bytes) v p : p = Z.of_nat (length pre) → fits 64 v →
  load_u64 (Z.to_nat p) (pre ++ le_bytes 8 v ++ post) = Some v.
Proof.
  intros -> Hv. rewrite Nat2Z.id, load_u64_value by (rewrite !length_app, length_le_bytes; lia).
  rewrite slice_at by (done || by rewrite length_le_bytes). by rewrite le_value_small.
Qed.

(** The fields of an entry at its place in the body. *)
Lemma entry_fields e pre tail : entry_ok e →
  let body := pre ++ entry_bytes e ++ tail in let c := Z.of_nat (length pre) in let k := Z.of_nat (length (ce_key e)) in
  load_u32 (Z.to_nat c) body = Some k ∧ load_u64 (Z.to_nat (c + 4)) body = Some (ce_slot e) ∧
  load_u64 (Z.to_nat (c + 12)) body = Some (ce_payload_bytes e) ∧ load_u64 (Z.to_nat (c + 20)) body = Some (ce_generation e) ∧
  load_u64 (Z.to_nat (c + 28)) body = Some (ce_commit_seq e) ∧ read_bytes (Z.to_nat (c + 36)) (Z.to_nat k) body = Some (ce_key e).
Proof.
  intros [Hk Hkb Hkl Hs Hp Hg Hq] body c k. subst body. unfold entry_bytes.
  assert (Hu : u32 k = k) by (apply wrap_small; unfold k; lia). fold k. rewrite Hu.
  set (a := le_bytes 4 k). set (b := le_bytes 8 (ce_slot e)). set (p := le_bytes 8 (ce_payload_bytes e)).
  set (g := le_bytes 8 (ce_generation e)). set (q := le_bytes 8 (ce_commit_seq e)).
  assert (length a = 4%nat ∧ length b = 8%nat ∧ length p = 8%nat ∧ length g = 8%nat ∧ length q = 8%nat) as (La & Lb & Lp & Lg & Lq)
    by (unfold a, b, p, g, q; by rewrite !length_le_bytes).
  split_and!.
  - rewrite <- !app_assoc. apply load_u32_at; [done|unfold fits; lia].
  - rewrite <- !app_assoc, (app_assoc pre a). apply load_u64_at; [rewrite length_app; lia|done].
  - rewrite <- !app_assoc, (app_assoc pre a), (app_assoc _ b). apply load_u64_at; [rewrite !length_app; lia|done].
  - rewrite <- !app_assoc, (app_assoc pre a), (app_assoc _ b), (app_assoc _ p). apply load_u64_at; [rewrite !length_app; lia|done].
  - rewrite <- !app_assoc, (app_assoc pre a), (app_assoc _ b), (app_assoc _ p), (app_assoc _ g).
    apply load_u64_at; [rewrite !length_app; lia|done].
  - rewrite <- !app_assoc, (app_assoc pre a), (app_assoc _ b), (app_assoc _ p), (app_assoc _ g), (app_assoc _ q).
    rewrite read_bytes_slice by (rewrite !length_app; unfold k in *; lia). f_equal. apply slice_at; [rewrite !length_app; lia|unfold k; lia].
Qed.

Lemma parse_entries_roundtrip es pre post :
  Forall entry_ok es → let body := pre ++ concat (map entry_bytes es) ++ post in Z.of_nat (length body) < 2 ^ 64 →
  parse_entries (length es) (Z.of_nat (length body)) (Z.of_nat (length pre)) body = Some (inr es).
Proof.
  intros Hes. revert pre. induction Hes as [|e es He _ IH]; intros pre body Hlen; [done|].
  set (tail := concat (map entry_bytes es) ++ post).
  assert (Hb : body = pre ++ entry_bytes e ++ tail) by (unfold body, tail; cbn; by rewrite <- app_assoc). clearbody body. subst body.
  pose proof (length_entry_bytes e) as Hle. pose proof (eo_key_len e He). pose proof (eo_key e He) as Hk.
  set (k := Z.of_nat (length (ce_key e))) in *. assert (Hk0 : 0 < k) by (unfold k; destruct (ce_key e); [done|cbn; lia]).
  set (body := pre ++ entry_bytes e ++ tail) in *.
  assert (Hbl : Z.of_nat (length body) = Z.of_nat (length pre) + (kEntryFixedBytes + k) + Z.of_nat (length tail))
    by (unfold body; rewrite !length_app; lia). ckpt_bounds.
  destruct (entry_fields e pre tail He) as (F1 & F2 & F3 & F4 & F5 & F6). fold body k in F1, F2, F3, F4, F5, F6.
  cbn [length parse_entries]. rewrite wrap_sub64, bool_decide_eq_false_2 by (ckpt_bounds; lia).
  rewrite F1, F2, F3, F4, F5. cbn [mbind option_bind]. rewrite wrap_sub64, !bool_decide_eq_false_2 by lia. cbn [orb].
  rewrite F6. cbn [mbind option_bind].
  replace (Z.of_nat (length pre) + 36 + k) with (Z.of_nat (length (pre ++ entry_bytes e))) by (rewrite length_app; lia).
  specialize (IH (pre ++ entry_bytes e)). rewrite <- app_assoc in IH. cbv zeta in IH. fold tail body in IH.
  rewrite IH by lia. cbn. by destruct e.
Qed.

Lemma round_up_spec v : 0 ≤ v → v + 4096 ≤ 2 ^ 64 → round_up v kAlignment `mod` 4096 = 0 ∧ v ≤ round_up v kAlignment < v + 4096.
Proof.
  intros Hv Hb. unfold round_up, kAlignment. rewrite bool_decide_eq_false_2 by done.
  pose proof (Z.div_mod (v + 4096 - 1) 4096 ltac:(lia)). pose proof (Z.mod_pos_bound (v + 4096 - 1) 4096 ltac:(lia)).
  rewrite (wrap_small 64 (v + 4096 - 1)) by lia. rewrite wrap_small by lia. split; [apply Z.mod_mul; lia|lia].
Qed.

Lemma length_concat_entries es : Z.of_nat (length (concat (map entry_bytes es))) =
  foldr (λ e n, kEntryFixedBytes + Z.of_nat (length (ce_key e)) + n) 0 es.
Proof. induction es as [|e es IH]; [done|]. cbn [map concat foldr]. rewrite length_app, Nat2Z.inj_add, IH. by rewrite length_entry_bytes. Qed.

Lemma wf_checkpoint_body es : Forall entry_ok es → wf_bytes (checkpoint_body es).
Proof.
  intros H. apply Forall_app_2; [apply wf_le_bytes|]. induction H as [|e es He _ IH]; [constructor|].
  cbn [map concat]. apply Forall_app_2; [by apply wf_entry_bytes|done].
Qed.

Lemma wf_encode es seq : Forall entry_ok es → wf_bytes (encode_checkpoint es seq).
Proof.
  intros H. unfold encode_checkpoint. apply wf_inserts; [by apply wf_checkpoint_body|]. unfold store_u32, store_u64.
  do 5 (apply wf_inserts; [apply wf_le_bytes || (repeat constructor; lia)|]). apply Forall_replicate. lia.
Qed.

(** The header fields and the body of an image. *)
Lemma encode_checkpoint_layout es seq : let body := checkpoint_body es in let image := encode_checkpoint es seq in
  Z.of_nat (length body) + 8192 ≤ 2 ^ 64 →
  Z.of_nat (length image) = round_up (4096 + Z.of_nat (length body)) kAlignment ∧
  slice kMagicOffset 8 image = kCkptMagic ∧ slice kCkptVersionOffset 4 image = le_bytes 4 kCkptVersion ∧
  slice kSequenceOffset 8 image = le_bytes 8 seq ∧ slice kBodyBytesOffset 8 image = le_bytes 8 (Z.of_nat (length body)) ∧
  slice kBodyCrc32Offset 4 image = le_bytes 4 (crc32c body) ∧ slice kContainerHeaderBytes (length body) image = body.
Proof.
  intros body image Hb. unfold image, encode_checkpoint. fold body.
  destruct (round_up_spec (Z.of_nat kContainerHeaderBytes + Z.of_nat (length body))) as [_ Hr]; [lia|ckpt_bounds; lia|].
  set (total := round_up _ kAlignment) in *. set (z := replicate (Z.to_nat total) 0).
  assert (Hz : length z = Z.to_nat total) by apply length_replicate.
  assert (Hm : slice 0 8 (list_inserts 0 kCkptMagic z) = kCkptMagic).
  { apply (slice_inserts_same 0 kCkptMagic). change (length kCkptMagic) with 8%nat. ckpt_bounds. lia. }
  ckpt_bounds. split_and!.
  - autorewrite with codec. rewrite Hz. lia.
  - rewrite slice_inserts_other by lia. by slice_field.
  - rewrite slice_inserts_other by lia. by slice_field.
  - rewrite slice_inserts_other by lia. by slice_field.
  - rewrite slice_inserts_other by lia. by slice_field.
  - rewrite slice_inserts_other by lia. by slice_field.
  - apply slice_inserts_same. autorewrite with codec. lia.
Qed.

(** Whatever follows the image in its container, decoding gives back the
    sequence number and the entries. *)
Lemma decode_encode es seq pad : Forall entry_ok es → fits 64 seq →
  Z.of_nat (length (encode_checkpoint es seq ++ pad)) < 2 ^ 64 → Z.of_nat (length (checkpoint_body es)) + 8192 ≤ 2 ^ 64 →
  decode_checkpoint (encode_checkpoint es seq ++ pad) = Some (inr (seq, es)).
Proof.
  intros Hes Hseq Hlen Hb. destruct (encode_checkpoint_layout es seq Hb) as (Hl & Hm & Hv & Hs & Hn & Hc & Hbody).
  destruct (round_up_spec (4096 + Z.of_nat (length (checkpoint_body es)))) as [_ Hr]; [lia..|]. rewrite <- Hl in Hr.
  set (image := encode_checkpoint es seq) in *. set (body := checkpoint_body es) in *.
  assert (Hlb : Z.of_nat (length body) = 8 + Z.of_nat (length (concat (map entry_bytes es))))
    by (unfold body, checkpoint_body; rewrite length_app, length_le_bytes; lia).
  assert (Hcount : 36 * Z.of_nat (length es) ≤ Z.of_nat (length (concat (map entry_bytes es)))).
  { clear. induction es as [|e es IH]; [done|]. cbn [map concat length]. rewrite length_app. pose proof (length_entry_bytes e). ckpt_bounds. lia. }
  assert (Hwb : wf_bytes body) by by apply wf_checkpoint_body.
  unfold decode_checkpoint. rewrite length_app in *. rewrite bool_decide_eq_false_2 by (ckpt_bounds; lia).
  unfold magic_is_zero, magic_matches. ckpt_bounds.
  rewrite (read_bytes_slice 0), !load_u32_value, !load_u64_value by (rewrite length_app; lia). cbn [mbind option_bind].
  rewrite !slice_app_l by lia. rewrite Hm, Hv, Hs, Hn, Hc. replace (forallb _ kCkptMagic) with false by reflexivity.
  rewrite bool_decide_eq_true_2 by done. cbn [negb].
  rewrite !le_value_small by (unfold fits in *; try done; try lia; apply (crc32c_fits _ Hwb)).
  rewrite bool_decide_eq_false_2 by (intros []; done).
  rewrite (wrap_sub64 _ (Z.of_nat (Z.to_nat 4096))), bool_decide_eq_false_2 by lia.
  rewrite read_bytes_slice by (rewrite length_app; lia). cbn [mbind option_bind]. rewrite slice_app_l by lia.
  rewrite Nat2Z.id, Hbody. rewrite bool_decide_eq_false_2 by (intros []; done). rewrite bool_decide_eq_false_2 by lia.
  assert (Hcnt : load_u64 0 body = Some (Z.of_nat (length es))).
  { apply (load_u64_at [] (concat (map entry_bytes es)) (Z.of_nat (length es)) 0); [done|]. unfold fits. lia. }
  rewrite Hcnt. cbn [mbind option_bind]. rewrite wrap_sub64, bool_decide_eq_false_2 by (try apply Z.le_ngt, Z.div_le_lower_bound; lia).
  rewrite Nat2Z.id. pose proof (parse_entries_roundtrip es (le_bytes 8 (Z.of_nat (length es))) [] Hes) as P. cbv zeta in P.
  rewrite app_nil_r, length_le_bytes in P. change (le_bytes 8 _ ++ concat _) with body in P. change (Z.of_nat 8) with 8 in P.
  rewrite P by lia. done.
Qed.

(** What a decoded container holds is within the widths of its fields. *)
Lemma load_u32_fits p buf v : wf_bytes buf → load_u32 p buf = Some v → fits 32 v.
Proof.
  intros Hw H. destruct (decide (p + 4 ≤ length buf)%nat) as [Hp|Hp]; [|by rewrite load_u32_short in H by lia].
  rewrite load_u32_value in H by done. injection H as <-. pose proof (le_value_bound _ (wf_slice p 4 buf Hw)) as Hb. rewrite length_slice in Hb by done. done.
Qed.
Lemma load_u64_fits p buf v : wf_bytes buf → load_u64 p buf = Some v → fits 64 v.
Proof.
  intros Hw H. destruct (decide (p + 8 ≤ length buf)%nat) as [Hp|Hp]; [|by rewrite load_u64_short in H by lia].
  rewrite load_u64_value in H by done. injection H as <-. pose proof (le_value_bound _ (wf_slice p 8 buf Hw)) as Hb. rewrite length_slice in Hb by done. done.
Qed.
Lemma read_bytes_some p n buf v : read_bytes p n buf = Some v → length v = n ∧ v = slice p n buf.
Proof. unfold read_bytes. case_bool_decide as H; [|done]. intros [= <-]. split; [by apply (length_slice p n buf)|done]. Qed.

Lemma parse_entries_ok n size cursor body es : wf_bytes body → parse_entries n size cursor body = Some (inr es) → Forall entry_ok es.
Proof.
  intros Hw. revert cursor es. induction n as [|n IH]; intros cursor es; cbn [parse_entries]; [by intros [= <-]|]. case_bool_decide as Hcond; [done|clear Hcond].
  intros (kl & E1 & H)%bind_Some. apply bind_Some in H as (sl & E2 & H). apply bind_Some in H as (pb & E3 & H).
  apply bind_Some in H as (gn & E4 & H). apply bind_Some in H as (cs & E5 & H). revert H.
  destruct (_ || _) eqn:Ek; [done|]. apply orb_false_elim in Ek as [Hk%bool_decide_eq_false _].
  intros (key & E6 & H)%bind_Some. apply bind_Some in H as ([|rest] & E7 & H); [done|]. injection H as <-. apply read_bytes_some in E6 as [Hl ->].
  pose proof (load_u32_fits _ _ _ Hw E1) as Hkl. constructor; [|by eapply IH]. split; cbn; try by eapply load_u64_fits.
  - intros E. rewrite E in Hl. cbn in Hl. unfold fits in Hkl. lia.
  - by apply wf_slice.
  - unfold fits in Hkl. lia.
Qed.

Lemma decode_ok data seq es : wf_bytes data → decode_checkpoint data = Some (inr (seq, es)) → Forall entry_ok es ∧ fits 64 seq.
Proof.
  intros Hw. unfold decode_checkpoint. case_bool_decide as Hcond; [done|clear Hcond]. intros ([] & _ & H)%bind_Some; [done|]. apply bind_Some in H as ([] & _ & H); [|done].
  apply bind_Some in H as (v & _ & H). revert H. case_bool_decide as Hcond; [done|clear Hcond]. intros (q & Eq & H)%bind_Some. apply bind_Some in H as (bb & _ & H).
  apply bind_Some in H as (cr & _ & H). revert H. case_bool_decide as Hcond; [done|clear Hcond]. intros (body & Eb & H)%bind_Some. revert H. do 2 (case_bool_decide as Hcond; [done|clear Hcond]).
  intros (n & _ & H)%bind_Some. revert H. case_bool_decide as Hcond; [done|clear Hcond]. intros ([|rest] & Ep & H)%bind_Some; [done|]. injection H as <- <-.
  apply read_bytes_some in Eb as [_ ->]. split; [eapply parse_entries_ok, Ep; by apply wf_slice|by eapply load_u64_fits].
Qed.

(** ** A full index fits its container *)
Lemma checkpoint_body_bound es max_entries max_key :
  Z.of_nat (length es) ≤ max_entries → Forall (λ e, Z.of_nat (length (ce_key e)) ≤ max_key) es → 0 ≤ max_key →
  Z.of_nat (length (checkpoint_body es)) ≤ 8 + max_entries * (36 + max_key).
Proof.
  intros Hn Hk Hm. assert (Hc : Z.of_nat (length (concat (map entry_bytes es))) ≤ Z.of_nat (length es) * (36 + max_key)).
  { clear Hn. induction Hk as [|e es He _ IH]; [done|]. cbn [map concat length]. rewrite length_app. pose proof (length_entry_bytes e).
    ckpt_bounds. lia. }
  unfold checkpoint_body. rewrite length_app, length_le_bytes. nia.
Qed.

Lemma image_fits_container es seq max_entries max_key :
  Z.of_nat (length es) ≤ max_entries → Forall (λ e, Z.of_nat (length (ce_key e)) ≤ max_key) es → 0 ≤ max_key →
  8 + max_entries * (36 + max_key) + 8192 ≤ 2 ^ 64 →
  Z.of_nat (length (encode_checkpoint es seq)) ≤ checkpoint_container_bytes max_entries max_key.
Proof.
  intros Hn Hk Hm Hb.
  pose proof (checkpoint_body_bound es max_entries max_key Hn Hk Hm) as Hbody.
  destruct (encode_checkpoint_layout es seq ltac:(lia)) as (-> & _).
  destruct (round_up_spec (4096 + Z.of_nat (length (checkpoint_body es)))) as [M1 R1]; [lia..|].
  unfold checkpoint_container_bytes. ckpt_bounds. change (4 + 8 + 8 + 8 + 8) with 36.
  rewrite (wrap_small 64 (8 + _)) by nia. rewrite (wrap_small 64 (Z.of_nat _ + _)) by nia.
  set (b := 8 + max_entries * (36 + max_key)) in *.
  destruct (round_up_spec (Z.of_nat (Z.to_nat 4096) + b)) as [M2 R2]; [nia..|]. ckpt_bounds.
  set (x := round_up (4096 + _) 4096) in *. set (y := round_up (_ + b) 4096) in *.
  pose proof (Z.div_mod x 4096 ltac:(lia)). pose proof (Z.div_mod y 4096 ltac:(lia)). lia.
Qed.

(** ** The two choices *)
Definition newest (sequences : list Z) (i : nat) : Prop :=
  ∃ s, sequences !! i = Some s ∧ s ≠ 0 ∧ ∀ j t, sequences !! j = Some t → t ≤ s.

Lemma select_from_spec i l best r : Forall (λ s, 0 ≤ s) l → select_from i l best = r →
  match r with
  | None => best = None ∧ Forall (λ s, s = 0) l
  | Some (b, s) =>
      (best = Some (b, s) ∨ (∃ k, l !! k = Some s ∧ b = (i + k)%nat ∧ s ≠ 0)) ∧
      (∀ k t, l !! k = Some t → t ≤ s ∨ t = 0) ∧ (∀ b' s', best = Some (b', s') → s' ≤ s)
  end.
Proof.
  intros Hl. revert i best r. induction Hl as [|s l Hs _ IH]; intros i best r; cbn [select_from].
  { intros <-. destruct best as [[b s]|]; [|done]. split_and!; [by left|set_solver|]. intros b' s' [= -> ->]. lia. }
  assert (Hshift : ∀ (t : Z) k, l !! k = Some t → (s :: l) !! S k = Some t) by done.
  case_bool_decide as H0; [|destruct best as [[b bs]|]; [case_bool_decide as H1|]]; intros Hr; specialize (IH _ _ _ Hr); destruct r as [[b' s']|].
  - destruct IH as (IH1 & IH2 & IH3). split_and!; [|intros [|k] t; [intros [= <-]; by right|apply IH2]|done].
    destruct IH1 as [?|(k & ? & -> & ?)]; [by left|]. right. exists (S k). split_and!; [done|lia|done].
  - destruct IH as [-> IH]. split; [done|]. by constructor.
  - destruct IH as (IH1 & IH2 & IH3). specialize (IH3 _ _ eq_refl).
    split_and!; [|intros [|k] t; [intros [= <-]; left; lia|apply IH2]|intros ? ? [= <- <-]; lia].
    destruct IH1 as [[= <- <-]|(k & ? & -> & ?)]; right; [exists O|exists (S k)]; split_and!; try done; lia.
  - by destruct IH.
  - destruct IH as (IH1 & IH2 & IH3). pose proof (IH3 _ _ eq_refl).
    split_and!; [|intros [|k] t; [intros [= <-]; left; lia|apply IH2]|done].
    destruct IH1 as [?|(k & ? & -> & ?)]; [by left|]. right. exists (S k). split_and!; [done|lia|done].
  - by destruct IH.
  - destruct IH as (IH1 & IH2 & IH3). specialize (IH3 _ _ eq_refl).
    split_and!; [|intros [|k] t; [intros [= <-]; left; lia|apply IH2]|done].
    destruct IH1 as [[= <- <-]|(k & ? & -> & ?)]; right; [exists O|exists (S k)]; split_and!; try done; lia.
  - by destruct IH.
Qed.

Lemma select_newest sequences : Forall (λ s, 0 ≤ s) sequences →
  match select_checkpoint_container sequences with
  | Some i => newest sequences i
  | None => Forall (λ s, s = 0) sequences
  end.
Proof.
  intros H. unfold select_checkpoint_container. pose proof (select_from_spec 0 sequences None _ H eq_refl) as P.
  destruct (select_from 0 sequences None) as [[b s]|]; cbn; [|tauto].
  destruct P as ([?|(k & Hk & -> & Hs)] & Hmax & _); [done|]. exists s. split_and!; [done..|]. intros j t Hj.
  destruct (Hmax j t Hj); [done|]. rewrite Forall_forall in H. subst. apply (H s). by eapply list_elem_of_lookup_2.
Qed.

Lemma first_empty_spec i l : match first_empty i l with
  | Some j => ∃ k, j = (i + k)%nat ∧ l !! k = Some 0
  | None => Forall (λ s, s ≠ 0) l end.
Proof.
  revert i. induction l as [|s l IH]; intros i; cbn [first_empty]; [constructor|]. case_bool_decide as H0.
  - exists O. subst. split; [lia|done].
  - specialize (IH (S i)). destruct (first_empty (S i) l) as [j|]; [|by constructor].
    destruct IH as (k & -> & ?). exists (S k). split; [lia|done].
Qed.

Lemma oldest_from_spec pre l o os : pre !! o = Some os → (∀ j t, pre !! j = Some t → os ≤ t) →
  let r := oldest_from (length pre) l o os in ∃ s, (pre ++ l) !! r = Some s ∧ ∀ j t, (pre ++ l) !! j = Some t → s ≤ t.
Proof.
  revert pre o os. induction l as [|s l IH]; intros pre o os Ho Hmin; cbn [oldest_from].
  { rewrite app_nil_r. by exists os. }
  replace (pre ++ s :: l) with ((pre ++ [s]) ++ l) by (by rewrite <- app_assoc).
  replace (S (length pre)) with (length (pre ++ [s])) by (rewrite length_app; cbn; lia).
  case_bool_decide; apply IH.
  - rewrite lookup_app_r by done. by rewrite Nat.sub_diag.
  - intros j t [Hj|[_ [_ <-]%list_lookup_singleton_Some]]%lookup_app_Some; [|done]. specialize (Hmin j t Hj). lia.
  - by apply lookup_app_l_Some.
  - intros j t [Hj|[_ [_ <-]%list_lookup_singleton_Some]]%lookup_app_Some; [by apply (Hmin j)|lia].
Qed.

(** The container written next is never the one that would be read, as long
    as readable containers carry different sequence numbers. *)
Lemma next_spares_newest sequences i : (2 ≤ length sequences)%nat → Forall (λ s, 0 ≤ s) sequences →
  (∀ j k s, sequences !! j = Some s → sequences !! k = Some s → s ≠ 0 → j = k) →
  select_checkpoint_container sequences = Some i →
  (next_checkpoint_container sequences < length sequences)%nat ∧ next_checkpoint_container sequences ≠ i.
Proof.
  intros Hlen Hnn Hinj Hsel. pose proof (select_newest sequences Hnn) as Hnew. rewrite Hsel in Hnew.
  destruct Hnew as (s & Hs & Hs0 & Hmax). unfold next_checkpoint_container. destruct sequences as [|s0 rest]; [cbn in Hlen; lia|].
  pose proof (first_empty_spec 0 (s0 :: rest)) as He. destruct (first_empty 0 (s0 :: rest)) as [j|].
  - destruct He as (k & -> & Hk). split; [by apply lookup_lt_Some in Hk|]. cbn. intros ->. congruence.
  - destruct (oldest_from_spec [s0] rest 0 s0) as (m & Hm & Hmin); [done|by intros j t [_ <-]%list_lookup_singleton_Some|]. cbn [app length] in *.
    split; [by apply lookup_lt_Some in Hm|]. intros E. rewrite E in Hm.
    destruct rest as [|s1 rest]; [cbn in Hlen; lia|].
    assert (m = s) by congruence. subst m.
    assert (s0 = s) by (apply Z.le_antisymm; [apply (Hmax 0%nat)|apply (Hmin 0%nat)]; done).
    assert (s1 = s) by (apply Z.le_antisymm; [apply (Hmax 1%nat)|apply (Hmin 1%nat)]; done). subst.
    by assert (0%nat = 1%nat) by (by apply (Hinj _ _ s)).
Qed.
