(* ===== verification/Media.v ===== *)
(** * Files and slot media (csrc/storage_objects/slot_media.cpp)

    A small file system (sizes, bytes, what has not been synced, the identity
    of the inode) and the synchronous I/O the object store performs on it:
    creating and verifying segment files, zeroing a slot, headers and
    checkpoint containers.

    Every system call takes one answer from a list: success (for a transfer,
    with the number of bytes moved), an interruption, or an error.  A program
    whose answers run out has not returned; the state it leaves is the state a
    crash at that point finds ([Fault OutOfFuel]).  A [Status] other than OK is
    [Err] with its code. *)
From S2P Require Import Prelude Digest Bytes SlotPlace.

(** ** Status codes *)
Definition INVALID_ARGUMENT : Z := 1.
Definition NOT_FOUND : Z := 3.
Definition UNSUPPORTED : Z := 4.
Definition NOT_READY : Z := 5.
Definition RESOURCE_EXHAUSTED : Z := 7.
Definition DATA_LOSS : Z := 10.
Definition INTERNAL : Z := 11.

(** ** Files *)
Record file := {
  f_size : Z;
  f_data : gmap Z Z;
  f_dirty : list (Z * Z);
  f_dev : Z;
  f_ino : Z;
}.

Record fiemap_extent := {
  fe_logical : Z;
  fe_physical : Z;
  fe_length : Z;
  fe_bad : bool;
}.

Inductive answer :=
  | Done (n : Z)
  | Interrupted
  | Failed
  | Extents (l : list fiemap_extent)
  | Space (free_bytes : Z).

Record disk := {
  files : gmap string file;
  next_ino : Z;
  answers : list answer;
}.

#[export] Instance set_f_size : Setter f_size := λ f r,
  {| f_size := f (f_size r); f_data := f_data r; f_dirty := f_dirty r; f_dev := f_dev r; f_ino := f_ino r |}.
#[export] Instance set_f_data : Setter f_data := λ f r,
  {| f_size := f_size r; f_data := f (f_data r); f_dirty := f_dirty r; f_dev := f_dev r; f_ino := f_ino r |}.
#[export] Instance set_f_dirty : Setter f_dirty := λ f r,
  {| f_size := f_size r; f_data := f_data r; f_dirty := f (f_dirty r); f_dev := f_dev r; f_ino := f_ino r |}.
#[export] Instance set_files : Setter files := λ f r,
  {| files := f (files r); next_ino := next_ino r; answers := answers r |}.
#[export] Instance set_next_ino : Setter next_ino := λ f r,
  {| files := files r; next_ino := f (next_ino r); answers := answers r |}.
#[export] Instance set_answers : Setter answers := λ f r,
  {| files := files r; next_ino := next_ino r; answers := f (answers r) |}.

(** Bytes never written read as zero. *)
Definition fbyte (f : file) (i : Z) : Z := default 0 (f_data f !! i).
Fixpoint read_loop (f : file) (off : Z) (n : nat) : bytes := match n with O => [] | S n => fbyte f off :: read_loop f (off + 1) n end.
Definition fread (f : file) (off n : Z) : bytes := read_loop f off (Z.to_nat n).

Definition fwrite (off : Z) (data : bytes) (f : file) : file :=
  f <| f_data ::= λ m, map_seqZ off data ∪ m |>
    <| f_size ::= Z.max (off + Z.of_nat (length data)) |>
    <| f_dirty ::= cons (off, Z.of_nat (length data)) |>.

Definition fzero (off n : Z) (f : file) : file :=
  f <| f_data ::= filter (λ kv, ¬ (off ≤ kv.1 < off + n)) |>
    <| f_size ::= Z.max (off + n) |>
    <| f_dirty ::= cons (off, n) |>.

Definition empty_file (dev ino : Z) : file := {| f_size := 0; f_data := ∅; f_dirty := []; f_dev := dev; f_ino := ino |}.

(** ** System calls *)
Definition next_answer : M disk answer := λ d,
  match answers d with
  | [] => (Fault OutOfFuel, d)
  | a :: rest => (Ok a, d <| answers := rest |>)
  end.

(** A call that succeeds or fails. *)
Definition sys_call : M disk bool :=
  a ← next_answer; mret match a with Failed => false | _ => true end.

(** [open] without [O_CREAT]: the file, or why there is none. *)
Definition sys_open (path : string) : M disk (option file + unit) :=
  ok ← sys_call;
  f ← gets (λ d, files d !! path);
  mret (if negb ok then inr tt else inl f).

Definition sys_create (path : string) : M disk bool :=
  ok ← sys_call;
  if negb ok then mret false else
  f ← gets (λ d, files d !! path);
  (match f with
   | Some _ => mret tt
   | None => modify (λ d, d <| files ::= <[path := empty_file 0 (next_ino d)]> |> <| next_ino ::= Z.succ |>)
   end);;
  mret true.

Definition update_file (path : string) (g : file → file) : M disk unit :=
  modify (λ d, d <| files ::= alter g path |>).

(** [ftruncate]: a longer file reads zeros, a shorter one loses its tail. *)
Definition ftruncate_to (size : Z) (f : file) : file := f <| f_size := size |> <| f_data ::= filter (λ kv, kv.1 < size) |>.

Definition sys_fsync (path : string) : M disk bool :=
  ok ← sys_call;
  when ok (update_file path (λ f, f <| f_dirty := [] |>));;
  mret ok.

(** The bytes a transfer of at most [len] bytes moves, as the call reports. *)
Definition moved_bytes (n len : Z) : Z := Z.max 0 (Z.min n len).

(** A read returns nothing only at the end of the file. *)
Definition available_bytes (n len avail : Z) : Z :=
  if bool_decide (avail ≤ 0) then 0 else Z.max 1 (Z.min n (Z.min len avail)).

(** ** Transfer loops, one answer per system call *)

(** [pwrite] until [data] is on the file; the code retries interruptions. *)
Fixpoint pwrite_loop (ans : list answer) (path : string) (off : Z) (data : bytes) (d : disk) : outcome unit * disk :=
  match data, ans with
  | [], _ => (Ok tt, d <| answers := ans |>)
  | _, [] => (Fault OutOfFuel, d <| answers := [] |>)
  | _, Interrupted :: ans => pwrite_loop ans path off data d
  | _, Done n :: ans =>
      let m := Z.to_nat (moved_bytes n (Z.of_nat (length data))) in
      if bool_decide (m = O) then (Err INTERNAL, d <| answers := ans |>)
      else pwrite_loop ans path (off + Z.of_nat m) (drop m data) (d <| files ::= alter (fwrite off (take m data)) path |>)
  | _, _ :: ans => (Err INTERNAL, d <| answers := ans |>)
  end.
Definition pwrite_all (path : string) (off : Z) (data : bytes) : M disk unit := λ d, pwrite_loop (answers d) path off data d.

(** [pread] until [len] bytes are in, or the end of the file. *)
Fixpoint pread_loop (ans : list answer) (f : file) (off len : Z) (d : disk) : outcome bytes * disk :=
  if bool_decide (len ≤ 0) then (Ok [], d <| answers := ans |>) else
  match ans with
  | [] => (Fault OutOfFuel, d <| answers := [] |>)
  | Interrupted :: ans => pread_loop ans f off len d
  | Done n :: ans =>
      let m := available_bytes n len (f_size f - off) in
      if bool_decide (m = 0) then (Ok [], d <| answers := ans |>)
      else
        let '(r, d') := pread_loop ans f (off + m) (len - m) d in
        (match r with Ok rest => Ok (fread f off m ++ rest) | Err e => Err e | Fault x => Fault x end, d')
  | _ :: ans => (Err INTERNAL, d <| answers := ans |>)
  end.
Definition pread_all (f : file) (off len : Z) : M disk bytes := λ d, pread_loop (answers d) f off len d.

Definition kMediaAlignment : Z := 4096.
Definition kZeroChunkBytes : Z := 4 * 1024 * 1024.
Definition is_aligned (value : Z) : bool := bool_decide (value `mod` kMediaAlignment = 0).

(** The loop of [write_zeros], [left] bytes to go. *)
Fixpoint write_zeros_loop (ans : list answer) (path : string) (off left : Z) (d : disk) : outcome unit * disk :=
  if bool_decide (left ≤ 0) then (Ok tt, d <| answers := ans |>) else
  let chunk := if bool_decide (left < kZeroChunkBytes) then left else kZeroChunkBytes in
  if negb (is_aligned chunk) then (Err INVALID_ARGUMENT, d <| answers := ans |>) else
  match ans with
  | [] => (Fault OutOfFuel, d <| answers := [] |>)
  | Interrupted :: ans => write_zeros_loop ans path off left d
  | Done n :: ans =>
      let m := moved_bytes n chunk in
      if bool_decide (m = 0) then (Err INTERNAL, d <| answers := ans |>)
      else write_zeros_loop ans path (off + m) (left - m) (d <| files ::= alter (fzero off m) path |>)
  | _ :: ans => (Err INTERNAL, d <| answers := ans |>)
  end.
Definition zero_all (path : string) (off count : Z) : M disk unit := λ d, write_zeros_loop (answers d) path off count d.

(** [posix_memalign] of a staging buffer. *)
Definition aligned_buffer : M disk unit := ok ← sys_call; guard_err (negb ok) INTERNAL.

Definition write_zeros (path : string) (off count : Z) : M disk unit :=
  if bool_decide (count = 0) then mret tt else
  aligned_buffer;; zero_all path off count.

(** ** Directories *)
Definition check_call : M disk unit := ok ← sys_call; guard_err (negb ok) INTERNAL.

Definition parent_of (path : string) : string :=
  let rev_chars := rev (chars path) in
  match list_find (λ c, c = slash) rev_chars with
  | None => "."
  | Some (i, _) =>
      let keep := rev (drop (S i) rev_chars) in
      if bool_decide (keep = []) then "/" else String.string_of_list_ascii keep
  end.

(** The directories [ensure_directory] makes, in order. *)
Fixpoint dir_prefixes (partial : list Ascii.ascii) (rest : list Ascii.ascii) : list (list Ascii.ascii) :=
  match rest with
  | [] => []
  | c :: rest =>
      let partial := partial ++ [c] in
      let is_last := bool_decide (rest = []) in
      if bool_decide (c ≠ slash) && negb is_last then dir_prefixes partial rest else
      if bool_decide (partial = [slash]) then dir_prefixes partial rest else
      let dir := if bool_decide (1 < length partial)%nat && bool_decide (c = slash) then take (length partial - 1) partial else partial in
      dir :: dir_prefixes partial rest
  end.

(** [mkdir] that treats an existing directory as success is one call. *)
Definition ensure_directory (path : string) : M disk unit :=
  guard_err (bool_decide (path = EmptyString)) INVALID_ARGUMENT;;
  for_each (λ _, check_call) (dir_prefixes [] (chars path)).

Definition sync_directory (path : string) : M disk unit := check_call;; check_call.

(** The walk of [filesystem_lock_root] up to the mount point: a [stat] reports
    the device number. *)
Fixpoint lock_root_loop (ans : list answer) (dir : string) (current : Z) (d : disk) : outcome string * disk :=
  if bool_decide (dir = "/") then (Ok dir, d <| answers := ans |>) else
  match ans with
  | [] => (Fault OutOfFuel, d <| answers := [] |>)
  | Done above :: ans =>
      if bool_decide (above ≠ current) then (Ok dir, d <| answers := ans |>)
      else lock_root_loop ans (parent_of dir) above d
  | _ :: ans => (Err INTERNAL, d <| answers := ans |>)
  end.
Definition lock_root_from (dir : string) (current : Z) : M disk string := λ d, lock_root_loop (answers d) dir current d.
Definition filesystem_lock_root (path : string) : M disk string :=
  a ← next_answer;
  match a with
  | Done current => lock_root_from (parent_of path) current
  | _ => fail INTERNAL
  end.

(** ** The ready marker of a segment file *)
Definition ready_path (path : string) : string := String.append path ".ready".
Definition pending_path (path : string) : string := String.append path ".ready.pending".

Record SegmentReadyRecord := { sr_file_bytes : Z; sr_device : Z; sr_inode : Z }.

Definition ready_bytes (r : SegmentReadyRecord) : bytes :=
  le_bytes 8 (sr_file_bytes r) ++ le_bytes 8 (sr_device r) ++ le_bytes 8 (sr_inode r).

Definition read_ready_record (path : string) (st : file) : M disk (option SegmentReadyRecord) :=
  o ← sys_open (ready_path path);
  match o with
  | inl (Some f) =>
      a ← next_answer;
      mret match a with
           | Done n =>
               let m := moved_bytes n (Z.min 24 (f_size f)) in
               let r := {| sr_file_bytes := le_value (fread f 0 8); sr_device := le_value (fread f 8 8); sr_inode := le_value (fread f 16 8) |} in
               if bool_decide (m = 24) && bool_decide (sr_device r = f_dev st) && bool_decide (sr_inode r = f_ino st) then Some r else None
           | _ => None
           end
  | _ => mret None
  end.

Definition segment_ready (path : string) (st : file) (file_bytes : Z) : M disk bool :=
  r ← read_ready_record path st;
  mret match r with Some r => bool_decide (sr_file_bytes r = file_bytes) | None => false end.

Definition publish_segment_ready (path : string) (st : file) (file_bytes : Z) : M disk unit :=
  ok ← sys_create (pending_path path);
  guard_err (negb ok) INTERNAL;;
  update_file (pending_path path) (λ f, f <| f_size := 0 |> <| f_data := ∅ |>);;
  a ← next_answer;
  let record := ready_bytes {| sr_file_bytes := file_bytes; sr_device := f_dev st; sr_inode := f_ino st |} in
  match a with
  | Done n =>
      let m := Z.to_nat (moved_bytes n 24) in
      update_file (pending_path path) (fwrite 0 (take m record));;
      guard_err (bool_decide (m ≠ 24%nat)) INTERNAL
  | _ => fail INTERNAL
  end;;
  ok ← sys_fsync (pending_path path);
  guard_err (negb ok) INTERNAL;;
  check_call;;
  modify (λ d, d <| files ::= λ m, match m !! pending_path path with
                                    | Some f => <[ready_path path := f]> (delete (pending_path path) m)
                                    | None => m
                                    end |>);;
  sync_directory (parent_of path).

(** ** Extents *)
Definition kMaxExtents : Z := 124.

(** The inner loop over one batch: the cursor, the end of the last extent and
    the number of runs so far. *)
Fixpoint check_extents (l : list fiemap_extent) (file_bytes cursor physical_end extents : Z) : Z + Z * Z * Z :=
  match l with
  | [] => inr (cursor, physical_end, extents)
  | e :: l =>
      if fe_bad e || bool_decide (fe_logical e ≠ cursor) || bool_decide (fe_length e = 0) || bool_decide (file_bytes - cursor < fe_length e)
         || negb (is_aligned (fe_physical e)) || negb (is_aligned (fe_length e)) || bool_decide (2 ^ 64 - 1 - fe_length e < fe_physical e)
      then inl DATA_LOSS else
      let extents := if bool_decide (extents = 0) || bool_decide (fe_physical e ≠ physical_end) then extents + 1 else extents in
      if bool_decide (kMaxExtents < extents) then inl RESOURCE_EXHAUSTED else
      check_extents l file_bytes (cursor + fe_length e) (u64 (fe_physical e + fe_length e)) extents
  end.

Fixpoint verify_extents_loop (ans : list answer) (file_bytes cursor physical_end extents : Z) (d : disk) : outcome unit * disk :=
  if bool_decide (file_bytes ≤ cursor) then (Ok tt, d <| answers := ans |>) else
  match ans with
  | [] => (Fault OutOfFuel, d <| answers := [] |>)
  | Extents [] :: ans => (Err DATA_LOSS, d <| answers := ans |>)
  | Extents l :: ans =>
      match check_extents l file_bytes cursor physical_end extents with
      | inl e => (Err e, d <| answers := ans |>)
      | inr (cursor, physical_end, extents) => verify_extents_loop ans file_bytes cursor physical_end extents d
      end
  | _ :: ans => (Err INTERNAL, d <| answers := ans |>)
  end.
Definition verify_segment_extents (file_bytes : Z) : M disk unit := λ d, verify_extents_loop (answers d) file_bytes 0 0 0 d.

(** ** Segment files *)
Definition lock_path (mount : string) : string := String.append mount "/.tutti_segment_precreate.lock".

Definition stat_file (path : string) : M disk file :=
  check_call;;
  f ← gets (λ d, files d !! path);
  from_opt NullDeref f.

(** Grow the file to its full size with real zeros. *)
Definition extend_segment (path : string) (old_size file_bytes : Z) : M disk unit :=
  a ← next_answer;
  match a with
  | Space free_bytes =>
      guard_err (bool_decide (free_bytes < file_bytes - old_size)) RESOURCE_EXHAUSTED;;
      write_zeros path old_size (file_bytes - old_size)
  | _ => fail INTERNAL
  end.

Definition materialise_segment_file (path : string) (file_bytes : Z) : M disk unit :=
  guard_err (bool_decide (file_bytes = 0) || negb (is_aligned file_bytes)) INVALID_ARGUMENT;;
  ensure_directory (parent_of path);;
  mount ← filesystem_lock_root path;
  ok ← sys_create (lock_path mount);
  guard_err (negb ok) INTERNAL;;
  check_call;;
  ok ← sys_create path;
  guard_err (negb ok) INTERNAL;;
  check_call;;
  st ← stat_file path;
  let old_size := f_size st in
  guard_err (bool_decide (file_bytes < old_size)) INVALID_ARGUMENT;;
  recorded ← read_ready_record path st;
  match recorded with
  | Some r =>
      if bool_decide (sr_file_bytes r = file_bytes) && bool_decide (old_size = file_bytes) then mret true else
      guard_err (bool_decide (sr_file_bytes r ≠ file_bytes)) INVALID_ARGUMENT;; mret false
  | None => mret false
  end ≫= λ is_ready : bool,
  if is_ready then mret tt else
  when (bool_decide (old_size < file_bytes)) (extend_segment path old_size file_bytes);;
  ok ← sys_fsync path;
  guard_err (negb ok) INTERNAL;;
  verify_segment_extents file_bytes;;
  publish_segment_ready path st file_bytes.

Definition segment_file_is_ready (path : string) (file_bytes : Z) : M disk bool :=
  guard_err (bool_decide (file_bytes = 0) || negb (is_aligned file_bytes)) INVALID_ARGUMENT;;
  o ← sys_open path;
  match o with
  | inr _ => fail INTERNAL
  | inl None => mret false
  | inl (Some _) =>
      check_call;;
      st ← stat_file path;
      if bool_decide (f_size st ≠ file_bytes) then mret false else segment_ready path st file_bytes
  end.

Definition zero_file_range (path : string) (off count : Z) : M disk unit :=
  guard_err (negb (is_aligned off) || negb (is_aligned count)) INVALID_ARGUMENT;;
  o ← sys_open path;
  match o with
  | inl (Some _) =>
      write_zeros path off count;;
      ok ← sys_fsync path;
      guard_err (negb ok) INTERNAL
  | _ => fail INTERNAL
  end.

(** ** Headers and checkpoint containers

    [write_object_header] and [write_checkpoint_container] are the same code
    up to their messages, and so are the two readers except that a header at
    the end of the file is absent while a container is padded with zeros. *)
Definition write_block (path : string) (off : Z) (data : bytes) : M disk unit :=
  guard_err (bool_decide (data = []) || negb (is_aligned (Z.of_nat (length data)))) INVALID_ARGUMENT;;
  guard_err (negb (is_aligned off)) INVALID_ARGUMENT;;
  aligned_buffer;;
  o ← sys_open path;
  match o with
  | inl (Some _) =>
      pwrite_all path off data;;
      ok ← sys_fsync path;
      guard_err (negb ok) INTERNAL
  | _ => fail INTERNAL
  end.
Definition write_object_header (path : string) (off : Z) (header : bytes) : M disk unit := write_block path off header.
Definition write_checkpoint_container (path : string) (off : Z) (image : bytes) : M disk unit := write_block path off image.

Definition read_block (absent_at_eof : bool) (path : string) (off out_bytes : Z) : M disk bytes :=
  guard_err (bool_decide (out_bytes = 0) || negb (is_aligned out_bytes)) INVALID_ARGUMENT;;
  guard_err (negb (is_aligned off)) INVALID_ARGUMENT;;
  o ← sys_open path;
  match o with
  | inr _ => fail INTERNAL
  | inl None => fail NOT_FOUND
  | inl (Some f) =>
      aligned_buffer;;
      got ← pread_all f off out_bytes;
      guard_err (absent_at_eof && bool_decide (got = [])) NOT_FOUND;;
      mret (got ++ replicate (Z.to_nat (out_bytes - Z.of_nat (length got))) 0)
  end.
Definition read_object_header (path : string) (off out_bytes : Z) : M disk bytes := read_block true path off out_bytes.
Definition read_checkpoint_container (path : string) (off out_bytes : Z) : M disk bytes := read_block false path off out_bytes.

Definition ensure_metadata_file (path : string) (size : Z) : M disk unit :=
  guard_err (bool_decide (size = 0) || negb (is_aligned size)) INVALID_ARGUMENT;;
  let dir := parent_of path in
  ensure_directory dir;;
  ok ← sys_create path;
  guard_err (negb ok) INTERNAL;;
  st ← stat_file path;
  if bool_decide (size ≤ f_size st) then mret tt else
  check_call;;
  update_file path (ftruncate_to size);;
  write_zeros path 0 size;;
  ok ← sys_fsync path;
  guard_err (negb ok) INTERNAL;;
  sync_directory dir.
