(* ===== verification/MediaSpec.v ===== *)
(** * What media operations change

    [touches W R d d']: between two states of the file system every file keeps
    its inode and does not shrink, and outside the whole files [W] and the
    regions [R] no byte changes and none becomes unsynced.  Every operation of
    [Media] is framed by such a relation on each of its outcomes, errors and
    crashes included; the successful outcomes also say what is on the media. *)
From S2P Require Import Prelude Digest Bytes SlotPlace Media.

Definition dirty_at (f : file) (i : Z) : Prop := ∃ r, r ∈ f_dirty f ∧ r.1 ≤ i < r.1 + r.2.

Record file_touched (R : Z → Prop) (f f' : file) : Prop := {
  ft_dev : f_dev f' = f_dev f;
  ft_ino : f_ino f' = f_ino f;
  ft_size : f_size f ≤ f_size f';
  ft_bytes : ∀ i, ¬ R i → fbyte f' i = fbyte f i;
  ft_dirty : ∀ i, ¬ R i → dirty_at f' i → dirty_at f i;
}.

Definition touches (W : string → Prop) (R : string → Z → Prop) (d d' : disk) : Prop :=
  ∀ p f, ¬ W p → files d !! p = Some f → ∃ f', files d' !! p = Some f' ∧ file_touched (R p) f f'.

#[export] Instance file_touched_preorder R : PreOrder (file_touched R).
Proof.
  split; [intros f; by split|]. intros f g h [A1 A2 A3 A4 A5] [B1 B2 B3 B4 B5]. split; try congruence; try lia.
  - intros i Hi. rewrite B4, A4; done.
  - intros i Hi Hd. by apply A5, B5.
Qed.

#[export] Instance touches_preorder W R : PreOrder (touches W R).
Proof.
  split.
  - intros d p f _ Hf. exists f. by split.
  - intros d e h H1 H2 p f Hw Hf. destruct (H1 p f Hw Hf) as (g & Hg & Hfg). destruct (H2 p g Hw Hg) as (f' & Hf' & Hgf).
    exists f'. split; [done|]. by etrans.
Qed.

Lemma touches_mono (W W' : string → Prop) (R R' : string → Z → Prop) d d' :
  (∀ p, W p → W' p) → (∀ p i, ¬ W' p → R p i → R' p i) → touches W R d d' → touches W' R' d d'.
Proof.
  intros HW HR H p f Hw Hf. destruct (H p f) as (f' & Hf' & [A1 A2 A3 A4 A5]); [naive_solver|done|].
  exists f'. split; [done|]. split; try done; intros i Hi; [apply A4|apply A5]; naive_solver.
Qed.

Lemma touches_files W R d d' : files d' = files d → touches W R d d'.
Proof. intros E p f _ Hf. exists f. rewrite E. by split. Qed.

Lemma touches_same_files W R d e h : files h = files e → touches W R d e → touches W R d h.
Proof. intros E H p f. rewrite E. apply H. Qed.

(** ** Elementary file operations *)
Definition region (path : string) (lo hi : Z) (p : string) (i : Z) : Prop := p = path ∧ lo ≤ i < hi.
Definition nothing (p : string) : Prop := False.

Lemma fbyte_fwrite off data f i : fbyte (fwrite off data f) i =
  if decide (off ≤ i < off + Z.of_nat (length data)) then default 0 (data !! Z.to_nat (i - off)) else fbyte f i.
Proof.
  unfold fbyte, fwrite. cbn. case_decide as H.
  - destruct (lookup_lt_is_Some_2 data (Z.to_nat (i - off))) as [b Hb]; [lia|]. rewrite Hb.
    rewrite (lookup_union_Some_l _ _ _ b); [done|]. apply lookup_map_seqZ_Some. by split; [lia|].
  - rewrite lookup_union_r; [done|]. apply lookup_map_seqZ_None. lia.
Qed.

Lemma fbyte_fzero off n f i : fbyte (fzero off n f) i = if decide (off ≤ i < off + n) then 0 else fbyte f i.
Proof.
  unfold fbyte, fzero. cbn. case_decide as H.
  - rewrite map_lookup_filter_None_2; [done|]. right. intros v _ Hv. apply Hv. done.
  - destruct (f_data f !! i) as [v|] eqn:E; [|by rewrite map_lookup_filter_None_2 by (by left)].
    by rewrite (map_lookup_filter_Some_2 _ _ _ v).
Qed.

Lemma fwrite_touched off data f : file_touched (λ i, off ≤ i < off + Z.of_nat (length data)) f (fwrite off data f).
Proof.
  split; [done|done|cbn; lia|intros i Hi; rewrite fbyte_fwrite; by rewrite decide_False|].
  intros i Hi (r & Hr & Hir). cbn in Hr. apply elem_of_cons in Hr as [->|Hr]; [done|]. by exists r.
Qed.

Lemma fzero_touched off n f : file_touched (λ i, off ≤ i < off + n) f (fzero off n f).
Proof.
  split; [done|done|cbn; lia|intros i Hi; rewrite fbyte_fzero; by rewrite decide_False|].
  intros i Hi (r & Hr & Hir). cbn in Hr. apply elem_of_cons in Hr as [->|Hr]; [done|]. by exists r.
Qed.

Lemma alter_touches W R path g d : (∀ f, file_touched (R path) f (g f)) → touches W R d (d <| files ::= alter g path |>).
Proof.
  intros Hg p f _ Hf. cbn. destruct (decide (p = path)) as [->|Hne].
  - rewrite lookup_alter_eq, Hf. exists (g f). by split.
  - rewrite lookup_alter_ne by done. exists f. by split.
Qed.

Lemma file_touched_mono (R R' : Z → Prop) f f' : (∀ i, R i → R' i) → file_touched R f f' → file_touched R' f f'.
Proof. intros H [A1 A2 A3 A4 A5]. split; try done; naive_solver. Qed.

(** ** Framing of the calls

    A relation on disks that ignores answers, new empty files and syncing is
    kept by every call that only does that. *)
Class DiskRel (Rel : disk → disk → Prop) := {
  dr_preorder :: PreOrder Rel;
  dr_files : ∀ d d', files d' = files d → Rel d d';
  dr_new : ∀ d d' path ino, files d !! path = None → files d' = <[path := empty_file 0 ino]> (files d) → Rel d d';
  dr_sync : ∀ d path, Rel d (d <| files ::= alter (λ f, f <| f_dirty := [] |>) path |>);
}.

#[export] Instance touches_rel W R : DiskRel (touches W R).
Proof.
  split; [apply _|intros; by apply touches_files| |].
  - intros d d' path ino Hn E p f _ Hf. exists f. rewrite E, lookup_insert_ne by congruence. by split.
  - intros d path. apply alter_touches. intros f. split; try done. intros i _ (r & Hr & _). cbn in Hr. by apply elem_of_nil in Hr.
Qed.

Lemma pread_files ans f off len d : files (pread_loop ans f off len d).2 = files d.
Proof.
  revert off len d. induction ans as [|a ans IH]; intros off len d; cbn; case_bool_decide; try done.
  destruct a; try done. case_bool_decide; [done|]. specialize (IH (off + available_bytes n len (f_size f - off)) (len - available_bytes n len (f_size f - off)) d).
  destruct (pread_loop _ _ _ _ _). done.
Qed.

Section frame.
Context (Rel : disk → disk → Prop) `{!DiskRel Rel}.

Lemma next_answer_frames : frames Rel next_answer.
Proof. intros d. unfold next_answer. destruct (answers d); by apply dr_files. Qed.
Lemma sys_call_frames : frames Rel sys_call.
Proof. apply frames_bind; [apply _|apply next_answer_frames|]. intros a. apply frames_ret, _. Qed.
Lemma check_call_frames : frames Rel check_call.
Proof. apply frames_bind; [apply _|apply sys_call_frames|]. intros ok. apply frames_guard, _. Qed.
Lemma aligned_buffer_frames : frames Rel aligned_buffer.
Proof. apply check_call_frames. Qed.
Lemma sys_open_frames path : frames Rel (sys_open path).
Proof.
  apply frames_bind; [apply _|apply sys_call_frames|]. intros ok. apply frames_bind; [apply _|apply frames_gets, _|].
  intros f. apply frames_ret, _.
Qed.
Lemma sys_create_frames path : frames Rel (sys_create path).
Proof.
  apply frames_bind; [apply _|apply sys_call_frames|]. intros ok. destruct (negb ok); [apply frames_ret, _|].
  intros d. unfold mbind, M_bind, gets. destruct (files d !! path) as [f|] eqn:E; [by apply dr_files|].
  by apply (dr_new d _ path (next_ino d)).
Qed.
Lemma sys_fsync_frames path : frames Rel (sys_fsync path).
Proof.
  apply frames_bind; [apply _|apply sys_call_frames|]. intros ok. apply frames_bind; [apply _| |intros; apply frames_ret, _].
  apply frames_when; [apply _|]. intros d. apply dr_sync.
Qed.
Lemma pread_all_frames f off len : frames Rel (pread_all f off len).
Proof. intros d. apply dr_files, pread_files. Qed.
End frame.

#[export] Hint Resolve next_answer_frames sys_call_frames check_call_frames aligned_buffer_frames sys_open_frames sys_create_frames
  sys_fsync_frames pread_all_frames touches_rel dr_preorder : snvme.

(** Walk through a program, closing every call whose framing is generic; what
    remains are the calls with effects of their own. *)
Ltac frame_call := first
  [ apply frames_guard, _ | apply frames_ret, _ | apply frames_fail, _ | apply frames_gets, _ | apply frames_from_opt, _
  | apply check_call_frames, _ | apply next_answer_frames, _ | apply sys_create_frames, _ | apply sys_open_frames, _
  | apply sys_fsync_frames, _ | apply aligned_buffer_frames, _ ].
Ltac frame_calls := repeat first
  [ frame_call
  | lazymatch goal with
    | |- frames _ (mbind _ (stat_file _)) => fail
    | |- frames _ (mbind _ _) => apply frames_bind; [apply _| |intros ?]
    end ].

(** ** Transfers *)
Lemma region_sub W path lo hi lo' hi' d d' : lo' ≤ lo → hi ≤ hi' → touches W (region path lo hi) d d' → touches W (region path lo' hi') d d'.
Proof. intros H1 H2. apply touches_mono; [done|]. intros p i _ [-> ?]. split; [done|lia]. Qed.

(** The written bytes are on the file when the loop returns. *)
Lemma pwrite_loop_ok ans path off data d :
  touches nothing (region path off (off + Z.of_nat (length data))) d (pwrite_loop ans path off data d).2 ∧
  ((pwrite_loop ans path off data d).1 = Ok tt → ∀ f, files d !! path = Some f →
   ∃ f', files (pwrite_loop ans path off data d).2 !! path = Some f' ∧
         (∀ i, (i < length data)%nat → fbyte f' (off + Z.of_nat i) = default 0 (data !! i)) ∧
         (data ≠ [] → off + Z.of_nat (length data) ≤ f_size f')).
Proof.
  revert off data d. induction ans as [|a ans IH]; intros off data d; (destruct data as [|b data]; cbn [pwrite_loop];
    [split; [by apply touches_files|]; intros _ f Hf; exists f; split_and!; [done|cbn; lia|done]|]).
  { split; [by apply touches_files|done]. }
  destruct a as [n| | | |]; try (split; [by apply touches_files|done]); [|apply IH].
  set (l := b :: data) in *. set (m := Z.to_nat (moved_bytes n (Z.of_nat (length l)))).
  assert (Hm : (m ≤ length l)%nat) by (unfold m, moved_bytes; lia).
  case_bool_decide as H0; [split; [by apply touches_files|done]|].
  specialize (IH (off + Z.of_nat m) (drop m l) (d <| files ::= alter (fwrite off (take m l)) path |>)).
  destruct (pwrite_loop _ _ _ _ _) as [r d']. cbn [fst snd] in IH |- *. destruct IH as [IHt IHo].
  rewrite length_drop in IHt, IHo. split.
  - trans (d <| files ::= alter (fwrite off (take m l)) path |>).
    + apply alter_touches. intros f. eapply file_touched_mono; [|apply fwrite_touched]. intros i. cbv beta. rewrite length_take. intros ?. split; [done|lia].
    + eapply region_sub; [| |exact IHt]; lia.
  - intros -> f Hf. destruct (IHo eq_refl (fwrite off (take m l) f)) as (f' & Hf' & Hb & Hz).
    { cbn. by rewrite lookup_alter_eq, Hf. }
    destruct (IHt path (fwrite off (take m l) f)) as (f'' & Hf'' & Htouch); [by intros []|cbn; by rewrite lookup_alter_eq, Hf|].
    assert (f'' = f') by congruence. subst f''. exists f'. split_and!; [done| |].
    2:{ intros _. pose proof (ft_size _ _ _ Htouch) as Hsz.
        change (f_size (fwrite off (take m l) f)) with (Z.max (off + Z.of_nat (length (take m l))) (f_size f)) in Hsz. rewrite length_take in Hsz.
        destruct (decide (m = length l)); [lia|]. specialize (Hz ltac:(intros E; apply (f_equal length) in E; rewrite length_drop in E; change (length (@nil Z)) with O in E; lia)). lia. }
    intros i Hi. destruct (decide (i < m)%nat) as [Him|Him].
    + rewrite (ft_bytes _ _ _ Htouch) by (intros [_ ?]; lia).
      rewrite fbyte_fwrite, length_take, decide_True by lia. f_equal. rewrite lookup_take_lt by lia. f_equal. lia.
    + specialize (Hb (i - m)%nat ltac:(lia)). rewrite lookup_drop in Hb.
      replace (off + Z.of_nat m + Z.of_nat (i - m)) with (off + Z.of_nat i) in Hb by lia.
      by replace (m + (i - m))%nat with i in Hb by lia.
Qed.

Lemma pwrite_all_ok path off data d :
  touches nothing (region path off (off + Z.of_nat (length data))) d (pwrite_all path off data d).2 ∧
  ((pwrite_all path off data d).1 = Ok tt → ∀ f, files d !! path = Some f →
   ∃ f', files (pwrite_all path off data d).2 !! path = Some f' ∧
         (∀ i, (i < length data)%nat → fbyte f' (off + Z.of_nat i) = default 0 (data !! i)) ∧
         (data ≠ [] → off + Z.of_nat (length data) ≤ f_size f')).
Proof. apply pwrite_loop_ok. Qed.

Lemma write_zeros_loop_ok ans path off left d :
  touches nothing (region path off (off + left)) d (write_zeros_loop ans path off left d).2 ∧
  ((write_zeros_loop ans path off left d).1 = Ok tt → ∀ f, files d !! path = Some f →
   ∃ f', files (write_zeros_loop ans path off left d).2 !! path = Some f' ∧ (∀ i, off ≤ i < off + left → fbyte f' i = 0) ∧
         (0 < left → off + left ≤ f_size f')).
Proof.
  revert off left d. induction ans as [|a ans IH]; intros off left d; cbn [write_zeros_loop];
    (case_bool_decide as Hl; [split; [by apply touches_files|]; intros _ f Hf; exists f; split_and!; [done|lia|lia]|]).
  { destruct (negb _); (split; [by apply touches_files|done]). }
  set (chunk := if bool_decide (left < kZeroChunkBytes) then left else kZeroChunkBytes).
  assert (Hc : chunk ≤ left) by (unfold chunk; case_bool_decide; unfold kZeroChunkBytes in *; lia).
  destruct (negb _); [split; [by apply touches_files|done]|].
  destruct a as [n| | | |]; try (split; [by apply touches_files|done]); [|apply IH].
  set (m := moved_bytes n chunk). assert (Hm : 0 ≤ m ≤ left) by (unfold m, moved_bytes; lia).
  case_bool_decide as H0; [split; [by apply touches_files|done]|].
  specialize (IH (off + m) (left - m) (d <| files ::= alter (fzero off m) path |>)).
  destruct (write_zeros_loop _ _ _ _ _) as [r d']. cbn in IH |- *. destruct IH as [IHt IHo]. split.
  - trans (d <| files ::= alter (fzero off m) path |>).
    + apply alter_touches. intros f. eapply file_touched_mono; [|apply fzero_touched]. cbn. intros i. unfold region. split; [done|lia].
    + eapply region_sub; [| |exact IHt]; lia.
  - intros -> f Hf.
    destruct (IHt path (fzero off m f)) as (f'' & Hf'' & Htouch); [by intros []|cbn; by rewrite lookup_alter_eq, Hf|].
    destruct (IHo eq_refl (fzero off m f)) as (f' & Hf' & Hb & Hs); [cbn; by rewrite lookup_alter_eq, Hf|].
    assert (f'' = f') by congruence. subst f''. exists f'. split_and!; [done| |].
    + intros i Hi. destruct (decide (i < off + m)); [|apply Hb; lia].
      rewrite (ft_bytes _ _ _ Htouch) by (intros [_ ?]; lia). rewrite fbyte_fzero. by rewrite decide_True by lia.
    + intros _. pose proof (ft_size _ _ _ Htouch) as Hsz. cbn in Hsz. destruct (decide (0 < left - m)); [specialize (Hs ltac:(lia))|]; lia.
Qed.

(** A read returns the bytes of the file, zeros past its end. *)
Definition file_wf (f : file) : Prop := (∀ i, f_size f ≤ i → fbyte f i = 0) ∧ (∀ i, 0 ≤ fbyte f i < 256).

Lemma fread_eq f off n : fread f off n = (λ i, fbyte f (off + i)) <$> seqZ 0 n.
Proof.
  unfold fread. assert (H : ∀ m off, read_loop f off m = (λ i, fbyte f (off + i)) <$> seqZ 0 (Z.of_nat m)).
  { clear. induction m as [|m IH]; intros off; [done|]. rewrite seqZ_cons by lia. cbn [read_loop fmap list_fmap]. f_equal; [f_equal; lia|]. rewrite IH.
    replace (Z.pred (Z.of_nat (S m))) with (Z.of_nat m) by lia. change (Z.succ 0) with (1 + 0). rewrite <- fmap_add_seqZ. rewrite <- list_fmap_compose.
    apply list_fmap_ext. intros _ x _. cbn. f_equal. lia. }
  rewrite H. destruct (Z.le_ge_cases 0 n); [by rewrite Z2Nat.id|]. by rewrite !seqZ_nil by lia.
Qed.

Lemma length_fread f off n : 0 ≤ n → Z.of_nat (length (fread f off n)) = n.
Proof. intros. rewrite fread_eq, length_fmap, length_seqZ. lia. Qed.

Lemma fread_split f off n m : 0 ≤ m ≤ n → fread f off n = fread f off m ++ fread f (off + m) (n - m).
Proof.
  intros H. rewrite !fread_eq. replace n with (m + (n - m)) at 1 by lia. rewrite seqZ_app by lia. rewrite fmap_app. f_equal.
  rewrite Z.add_0_l. replace (seqZ m (n - m)) with (Z.add m <$> seqZ 0 (n - m)) by (rewrite fmap_add_seqZ; f_equal; lia).
  change (map ?f ?l) with (f <$> l). rewrite <- list_fmap_compose. apply list_fmap_ext. intros j i _. cbn. f_equal. lia.
Qed.

Lemma fread_nil f off n : n ≤ 0 → fread f off n = [].
Proof. intros H. rewrite fread_eq. by rewrite seqZ_nil. Qed.

Lemma pread_loop_ok ans f off len d r d' : pread_loop ans f off len d = (Ok r, d') →
  ∃ k, 0 ≤ k ≤ Z.max 0 len ∧ r = fread f off k ∧ (k < len → f_size f ≤ off + k).
Proof.
  revert off len r d'. induction ans as [|a ans IH]; intros off len r d'; cbn [pread_loop];
    (case_bool_decide as Hl; [intros [= <- <-]; exists 0; rewrite fread_nil by lia; split_and!; (done || lia)|]); [done|].
  destruct a as [n| | | |]; try done; [|apply IH].
  set (m := available_bytes n len (f_size f - off)).
  assert (Hm : 0 ≤ m ≤ len ∧ (m = 0 → f_size f ≤ off)) by (unfold m, available_bytes; case_bool_decide; lia).
  case_bool_decide as H0; [intros [= <- <-]; exists 0; rewrite fread_nil by lia; split_and!; (done || lia)|].
  destruct (pread_loop ans f (off + m) (len - m) d) as [r1 d1] eqn:E. destruct r1 as [rest| |]; intros [= <- <-].
  destruct (IH _ _ _ _ E) as (k & Hk & -> & He). exists (m + k). split; [lia|]. split; [|lia].
  rewrite (fread_split f off (m + k) m) by lia. do 2 f_equal. lia.
Qed.

Lemma fread_zeros f off n : (∀ i, off ≤ i < off + n → fbyte f i = 0) → fread f off n = replicate (Z.to_nat n) 0.
Proof.
  intros H. apply list_eq. intros i. rewrite fread_eq. rewrite list_lookup_fmap. destruct (decide (i < Z.to_nat n)%nat) as [Hi|Hi].
  - rewrite lookup_seqZ_lt by lia. rewrite lookup_replicate_2 by done. cbn. f_equal. apply H. lia.
  - rewrite lookup_seqZ_ge by lia. symmetry. apply lookup_replicate_None. lia.
Qed.

Lemma read_block_ok eof path off n d data d' : read_block eof path off n d = (Ok data, d') →
  (∀ p f, files d !! p = Some f → file_wf f) → 0 ≤ n → ∃ f, files d !! path = Some f ∧ data = fread f off n.
Proof.
  intros E Hwf Hn. unfold read_block in E.
  assert (Hopen : ∀ o d1, sys_open path d = (Ok o, d1) → o = inr tt ∨ o = inl (files d !! path)).
  { intros o d1. unfold sys_open, sys_call, next_answer, mbind, M_bind, gets, mret, M_ret. destruct (answers d) as [|a ans]; [done|].
    destruct a; cbn; intros [= <- <-]; auto. }
  unfold guard_err in E. destruct (_ || _); [done|]. unfold mbind, M_bind in E. cbn [mret M_ret] in E.
  destruct (negb (is_aligned off)); [done|]. cbn in E.
  destruct (sys_open path d) as [[o| |] d1]; [|done|done]. destruct (Hopen o d1 eq_refl) as [->| ->]; [done|].
  destruct (files d !! path) as [f|] eqn:Ef; [|done]. cbn in E. destruct (aligned_buffer d1) as [[[]| |] d2]; [|done|done].
  unfold pread_all in E. destruct (pread_loop (answers d2) f off n d2) as [[got| |] d3] eqn:Er; [|done|done].
  destruct (pread_loop_ok _ _ _ _ _ _ _ Er) as (k & Hk & -> & He). destruct (eof && _); [done|]. injection E as <- <-.
  exists f. split; [done|]. rewrite (fread_split f off n k) by lia. rewrite length_fread by lia. f_equal. symmetry. apply fread_zeros.
  intros i Hi. destruct (Hwf path f Ef) as [Hz _]. apply Hz. destruct (decide (k < n)); [specialize (He ltac:(done))|]; lia.
Qed.

(** ** Well-formed disks *)
Definition disk_wf (d : disk) : Prop := ∀ p f, files d !! p = Some f → file_wf f.
Definition keeps_wf (d d' : disk) : Prop := disk_wf d → disk_wf d'.

#[export] Instance keeps_wf_preorder : PreOrder keeps_wf.
Proof. split; [intros d H; exact H|]. intros d e h H1 H2 H. auto. Qed.

Lemma keeps_wf_files d d' : files d' = files d → keeps_wf d d'.
Proof. intros E H p f. rewrite E. apply H. Qed.

Lemma file_wf_empty dev ino : file_wf (empty_file dev ino).
Proof. split; intros i; unfold fbyte; cbn; rewrite ?lookup_empty; cbn; lia. Qed.

Lemma file_wf_fwrite off data f : wf_bytes data → file_wf f → file_wf (fwrite off data f).
Proof.
  intros Hd [Hz Hb]. split; intros i.
  - intros Hi. change (f_size (fwrite off data f)) with (Z.max (off + Z.of_nat (length data)) (f_size f)) in Hi.
    rewrite fbyte_fwrite, decide_False by lia. apply Hz. lia.
  - rewrite fbyte_fwrite. case_decide; [|apply Hb]. destruct (lookup_lt_is_Some_2 data (Z.to_nat (i - off))) as [b E]; [lia|].
    rewrite E. cbn. by eapply (Forall_lookup_1 _ _ _ _ Hd).
Qed.

Lemma file_wf_fzero off n f : file_wf f → file_wf (fzero off n f).
Proof.
  intros [Hz Hb]. split; intros i.
  - intros Hi. change (f_size (fzero off n f)) with (Z.max (off + n) (f_size f)) in Hi. rewrite fbyte_fzero. case_decide; [done|]. apply Hz. lia.
  - rewrite fbyte_fzero. case_decide; [lia|apply Hb].
Qed.

Lemma alter_keeps_wf path g d : (∀ f, file_wf f → file_wf (g f)) → keeps_wf d (d <| files ::= alter g path |>).
Proof.
  intros Hg Hd p f. cbn. destruct (decide (p = path)) as [->|Hne].
  - rewrite lookup_alter_eq. destruct (files d !! path) eqn:E; cbn; [|done]. intros [= <-]. eapply Hg, Hd, E.
  - rewrite lookup_alter_ne by done. apply Hd.
Qed.

#[export] Instance keeps_wf_rel : DiskRel keeps_wf.
Proof.
  split; [apply _|apply keeps_wf_files| |].
  - intros d d' path ino Hn E Hd p f. rewrite E. intros [[<- <-]|[_ Hf]]%lookup_insert_Some; [apply file_wf_empty|by eapply Hd].
  - intros d path. by apply alter_keeps_wf.
Qed.

Lemma update_file_wf path g : (∀ f, file_wf f → file_wf (g f)) → frames keeps_wf (update_file path g).
Proof. intros Hg d. by apply alter_keeps_wf. Qed.
Lemma pwrite_all_wf path off data : wf_bytes data → frames keeps_wf (pwrite_all path off data).
Proof.
  intros Hd d. unfold pwrite_all. generalize (answers d) as ans. intros ans. revert off data Hd d.
  induction ans as [|a ans IH]; intros off data Hd d; (destruct data as [|b data]; cbn [pwrite_loop]; [by apply keeps_wf_files|]); [by apply keeps_wf_files|].
  destruct a as [n| | | |]; [|by apply IH|by apply keeps_wf_files..].
  case_bool_decide; [by apply keeps_wf_files|]. etrans; [|apply IH; by apply Forall_drop].
  apply alter_keeps_wf. intros f. by apply file_wf_fwrite, Forall_take.
Qed.
Lemma zero_all_wf path off n : frames keeps_wf (zero_all path off n).
Proof.
  intros d. unfold zero_all. generalize (answers d) as ans. intros ans. revert off n d.
  induction ans as [|a ans IH]; intros off n d; cbn [write_zeros_loop]; (case_bool_decide; [by apply keeps_wf_files|]);
    (destruct (negb _); [by apply keeps_wf_files|]); [by apply keeps_wf_files|].
  destruct a as [k| | | |]; [|by apply IH|by apply keeps_wf_files..].
  case_bool_decide; [by apply keeps_wf_files|]. etrans; [|apply IH]. apply alter_keeps_wf. intros f. apply file_wf_fzero.
Qed.
#[export] Hint Resolve zero_all_wf keeps_wf_rel : snvme.

(** ** Blocks *)

(** A file as a successful [fsync] leaves it. *)
Lemma fsync_ok path d d' : sys_fsync path d = (Ok true, d') → files d' = alter (λ f, f <| f_dirty := [] |>) path (files d).
Proof.
  unfold sys_fsync, sys_call, next_answer, mbind, M_bind, mret, M_ret. destruct (answers d) as [|a ans]; [done|].
  destruct a; cbn; intros [= <-]; done.
Qed.

(** Unfolding a chain of calls one bind at a time. *)
Lemma bind_inv {S A B} (m : M S A) (k : A → M S B) s b s' : (m ≫= k) s = (Ok b, s') → ∃ a s1, m s = (Ok a, s1) ∧ k a s1 = (Ok b, s').
Proof. unfold mbind, M_bind. destruct (m s) as [[a| |] s1]; [|done|done]. by exists a, s1. Qed.

Lemma guard_inv {S} b e (s s' : S) : guard_err b e s = (Ok tt, s') → b = false ∧ s' = s.
Proof. destruct b; [done|]. by intros [= <-]. Qed.

Lemma write_block_touches path off data : frames (touches nothing (region path off (off + Z.of_nat (length data)))) (write_block path off data).
Proof.
  unfold write_block. frame_calls. case_match; [case_match|]; frame_calls. intros d. apply pwrite_all_ok.
Qed.

Lemma write_block_wf path off data : wf_bytes data → frames keeps_wf (write_block path off data).
Proof.
  intros Hd. unfold write_block. frame_calls. case_match; [case_match|]; frame_calls. by apply pwrite_all_wf.
Qed.

(** The file an opened path stands for, after calls that keep files. *)
Lemma calls_keep_files {A} (m : M disk A) d a d1 : frames (λ x y, files y = files x) m → m d = (Ok a, d1) → files d1 = files d.
Proof. intros H E. specialize (H d). by rewrite E in H. Qed.

#[export] Instance same_files_preorder : PreOrder (λ x y : disk, files y = files x).
Proof. split; [by intros d|]. intros x y z. congruence. Qed.

Lemma next_answer_same : frames (λ x y, files y = files x) next_answer.
Proof. intros d. unfold next_answer. by destruct (answers d). Qed.
Lemma sys_call_same : frames (λ x y, files y = files x) sys_call.
Proof. apply frames_bind; [apply _|apply next_answer_same|]. intros a. apply frames_ret, _. Qed.
Lemma check_call_same : frames (λ x y, files y = files x) check_call.
Proof. apply frames_bind; [apply _|apply sys_call_same|]. intros a. apply frames_guard, _. Qed.
Lemma sys_open_same path : frames (λ x y, files y = files x) (sys_open path).
Proof.
  apply frames_bind; [apply _|apply sys_call_same|]. intros ok. apply frames_bind; [apply _|apply frames_gets, _|].
  intros f. apply frames_ret, _.
Qed.

Lemma pread_all_same f off len : frames (λ x y, files y = files x) (pread_all f off len).
Proof. intros d. apply pread_files. Qed.
Lemma read_block_same eof path off n : frames (λ x y, files y = files x) (read_block eof path off n).
Proof.
  unfold read_block. apply frames_bind; [apply _|apply frames_guard, _|intros _]. apply frames_bind; [apply _|apply frames_guard, _|intros _].
  apply frames_bind; [apply _|apply sys_open_same|]. intros [[f|]|[]]; [|apply frames_fail, _..].
  apply frames_bind; [apply _|apply check_call_same|intros _]. apply frames_bind; [apply _|apply pread_all_same|intros got].
  apply frames_bind; [apply _|apply frames_guard, _|intros _]. apply frames_ret, _.
Qed.

Lemma sys_open_result path d o d1 : sys_open path d = (Ok o, d1) → files d1 = files d ∧ (o = inr tt ∨ o = inl (files d !! path)).
Proof.
  intros E. split; [by eapply (calls_keep_files _ d _ d1 (sys_open_same path))|]. revert E.
  unfold sys_open, sys_call, next_answer, mbind, M_bind, gets, mret, M_ret. destruct (answers d) as [|a ans]; [done|].
  destruct a; cbn; intros [= <- <-]; auto.
Qed.

(** A block whose write returned OK is on the file and synced. *)
Lemma write_block_ok path off data d d' : write_block path off data d = (Ok tt, d') →
  ∃ f', files d' !! path = Some f' ∧ f_dirty f' = [] ∧ fread f' off (Z.of_nat (length data)) = data ∧
        off + Z.of_nat (length data) ≤ f_size f'.
Proof.
  unfold write_block. intros E.
  apply bind_inv in E as ([] & s1 & [Hn ->]%guard_inv & E). apply bind_inv in E as ([] & s2 & [Ha ->]%guard_inv & E).
  apply bind_inv in E as ([] & s3 & E3 & E). apply orb_false_elim in Hn as [Hn%bool_decide_eq_false _]. apply (calls_keep_files _ _ _ _ check_call_same) in E3.
  apply bind_inv in E as (o & s4 & E4 & E). apply sys_open_result in E4 as [F4 [->| ->]]; [done|].
  rewrite E3 in *. destruct (files d !! path) as [f|] eqn:Ef; [|done].
  apply bind_inv in E as ([] & s5 & E5 & E). apply bind_inv in E as (ok & s6 & E6 & E). apply guard_inv in E as [Hok ->].
  destruct ok; [|done]. apply fsync_ok in E6.
  destruct (pwrite_all_ok path off data s4) as [_ Hw]. rewrite E5 in Hw. destruct (Hw eq_refl f) as (f1 & Hf1 & Hb & Hz); [by rewrite F4|].
  exists (f1 <| f_dirty := [] |>). split_and!; [by rewrite E6, lookup_alter_eq; cbn in Hf1; rewrite Hf1|done| |by apply Hz].
  apply list_eq. intros i. rewrite fread_eq. rewrite list_lookup_fmap. destruct (decide (i < length data)%nat) as [Hi|Hi].
  - rewrite lookup_seqZ_lt by lia. cbn. change (fbyte (f1 <| f_dirty := [] |>)) with (fbyte f1). rewrite Z.add_0_l, Hb by done.
    by destruct (lookup_lt_is_Some_2 data i Hi) as [b ->].
  - rewrite lookup_seqZ_ge by lia. symmetry. apply lookup_ge_None_2. lia.
Qed.

Lemma write_zeros_touches path off n : frames (touches nothing (region path off (off + n))) (write_zeros path off n).
Proof.
  unfold write_zeros. case_bool_decide; [apply frames_ret, _|]. apply frames_bind; [apply _|apply aligned_buffer_frames, _|intros _].
  intros d. apply write_zeros_loop_ok.
Qed.

Lemma write_zeros_wf path off n : frames keeps_wf (write_zeros path off n).
Proof.
  unfold write_zeros. case_bool_decide; [apply frames_ret, _|]. apply frames_bind; [apply _|apply aligned_buffer_frames, _|intros _]. apply zero_all_wf.
Qed.

Lemma zero_file_range_touches path off n : frames (touches nothing (region path off (off + n))) (zero_file_range path off n).
Proof.
  unfold zero_file_range. frame_calls. case_match; [case_match|]; frame_calls. apply write_zeros_touches.
Qed.

Lemma zero_file_range_wf path off n : frames keeps_wf (zero_file_range path off n).
Proof.
  unfold zero_file_range. frame_calls. case_match; [case_match|]; frame_calls. apply write_zeros_wf.
Qed.

(** A range whose zeroing returned OK reads as zeros and is synced. *)
Lemma zero_file_range_ok path off n d d' : zero_file_range path off n d = (Ok tt, d') →
  ∃ f', files d' !! path = Some f' ∧ f_dirty f' = [] ∧ ∀ i, off ≤ i < off + n → fbyte f' i = 0.
Proof.
  unfold zero_file_range. intros E. apply bind_inv in E as ([] & s1 & [_ ->]%guard_inv & E).
  apply bind_inv in E as (o & s2 & E2 & E). apply sys_open_result in E2 as [F2 [->| ->]]; [done|].
  destruct (files d !! path) as [f|] eqn:Ef; [|done].
  apply bind_inv in E as ([] & s3 & E3 & E). apply bind_inv in E as (ok & s4 & E4 & E). apply guard_inv in E as [Hok ->].
  destruct ok; [|done]. apply fsync_ok in E4. unfold write_zeros in E3. case_bool_decide as Hn.
  - injection E3 as <-. exists (f <| f_dirty := [] |>). rewrite E4, lookup_alter_eq, F2, Ef. split_and!; [done..|lia].
  - apply bind_inv in E3 as ([] & s5 & E5 & E3). apply (calls_keep_files _ _ _ _ check_call_same) in E5.
    destruct (write_zeros_loop_ok (answers s5) path off n s5) as [_ Hw]. unfold zero_all in E3. rewrite E3 in Hw.
    destruct (Hw eq_refl f) as (f1 & Hf1 & Hb & _); [by rewrite E5, F2|]. cbn in Hf1.
    exists (f1 <| f_dirty := [] |>). rewrite E4, lookup_alter_eq, Hf1. by split_and!.
Qed.

(** ** Directories, markers and segment files *)
Lemma ensure_directory_frames Rel `{!DiskRel Rel} path : frames Rel (ensure_directory path).
Proof.
  unfold ensure_directory. frame_calls. apply frames_for_each; [apply _|]. intros x. frame_call.
Qed.

Lemma sync_directory_frames Rel `{!DiskRel Rel} path : frames Rel (sync_directory path).
Proof.
  unfold sync_directory. frame_calls.
Qed.

Lemma filesystem_lock_root_frames Rel `{!DiskRel Rel} path : frames Rel (filesystem_lock_root path).
Proof.
  unfold filesystem_lock_root. apply frames_bind; [apply _|apply next_answer_frames, _|intros a].
  destruct a as [current| | | |]; [|apply frames_fail, _..].
  intros d. unfold lock_root_from. generalize (answers d) as ans. intros ans. apply dr_files.
  generalize (parent_of path) as dir. revert current d. induction ans as [|a ans IH]; intros current d dir; cbn; case_bool_decide; try done.
  destruct a; try done. case_bool_decide; [done|]. apply IH.
Qed.

Lemma read_ready_frames Rel `{!DiskRel Rel} path st : frames Rel (read_ready_record path st).
Proof.
  unfold read_ready_record. frame_calls. case_match; [case_match|]; frame_calls.
Qed.

Lemma stat_file_frames Rel `{!DiskRel Rel} path : frames Rel (stat_file path).
Proof.
  unfold stat_file. frame_calls.
Qed.

Lemma verify_extents_frames Rel `{!DiskRel Rel} n : frames Rel (verify_segment_extents n).
Proof.
  intros d. unfold verify_segment_extents. generalize (answers d) as ans. intros ans. apply dr_files.
  generalize 0 at 1 as cursor. generalize 0 at 1 as pe. generalize 0 as ex. revert d.
  induction ans as [|a ans IH]; intros d ex pe cursor; cbn; case_bool_decide; try done.
  destruct a as [| | |l|]; try done. destruct l; [done|]. destruct (check_extents _ _ _ _ _) as [e|[[c p] x]]; [done|]. apply IH.
Qed.

Definition markers (path p : string) : Prop := p = ready_path path ∨ p = pending_path path.

(** Anything may happen to the two marker files. *)
Lemma update_marker_touches path q g R : markers path q → frames (touches (markers path) R) (update_file q g).
Proof.
  intros Hq d p f Hp Hf. exists f. split; [|reflexivity]. cbn. rewrite lookup_alter_ne by congruence. done.
Qed.

Lemma append_ne path s : chars s ≠ [] → String.append path s ≠ path.
Proof. intros Hs E. apply (f_equal (λ x, length (chars x))) in E. rewrite chars_app, length_app in E. destruct (chars s); [done|cbn in E; lia]. Qed.

Lemma not_marker path : ¬ markers path path.
Proof. intros [E|E]; symmetry in E; revert E; apply append_ne; by vm_compute. Qed.

Section materialise.
Context (path : string) (L : Z).

(** The segment file holds at least [L] bytes, and nothing below [L] moves. *)
Definition sized (d : disk) : Prop := match files d !! path with Some f => L ≤ f_size f | None => L ≤ 0 end.
Definition beyond (p : string) (i : Z) : Prop := p = path ∧ L ≤ i.
Definition grows (d d' : disk) : Prop := sized d → touches (markers path) beyond d d' ∧ sized d'.

Lemma touches_sized R d d' : touches (markers path) R d d' → (files d !! path = None → sized d → sized d') → sized d → sized d'.
Proof.
  intros Ht Hn Hs. destruct (files d !! path) as [f|] eqn:E; [|by apply Hn].
  destruct (Ht path f (not_marker path) E) as (f' & Hf' & Hft). unfold sized in *. rewrite E in Hs. rewrite Hf'.
  pose proof (ft_size _ _ _ Hft). lia.
Qed.

#[export] Instance grows_preorder : PreOrder grows.
Proof.
  split; [intros d Hs; by split|]. intros x y z H1 H2 Hs. destruct (H1 Hs) as [T1 S1]. destruct (H2 S1) as [T2 S2]. split; [by etrans|done].
Qed.

#[export] Instance grows_rel : DiskRel grows.
Proof.
  split; [apply _| | |].
  - intros d d' E Hs. split; [by apply touches_files|]. unfold sized in *. by rewrite E.
  - intros d d' q ino Hn E Hs. split; [by eapply (dr_new d d' q ino)|]. unfold sized in *. rewrite E.
    destruct (decide (q = path)) as [->|]; [rewrite lookup_insert_eq, Hn in *; done|by rewrite lookup_insert_ne].
  - intros d q Hs. split; [apply dr_sync|]. unfold sized in *. cbn.
    destruct (decide (q = path)) as [->|]; [rewrite lookup_alter_eq; by destruct (files d !! path)|by rewrite lookup_alter_ne].
Qed.

(** Marker updates and zeros past [L] are such steps. *)
Lemma frames_grows {A} (m : M disk A) : frames (touches (markers path) beyond) m →
  (∀ d, files d !! path = None → files (m d).2 !! path = None) → frames grows m.
Proof.
  intros Ht Hn d Hs. split; [apply Ht|]. eapply touches_sized; [apply Ht| |done]. intros E H. specialize (Hn d E). unfold sized. rewrite Hn.
  unfold sized in H. by rewrite E in H.
Qed.

Lemma write_zeros_grows off n : L ≤ off → frames grows (write_zeros path off n).
Proof.
  intros Ho d Hs. assert (Ht : touches (markers path) beyond d (write_zeros path off n d).2).
  { eapply touches_mono; [| |apply (write_zeros_touches path off n d)]; [by intros p []|]. intros p i _ [-> Hi]. split; [done|lia]. }
  split; [done|]. eapply touches_sized; [exact Ht| |done]. intros E H. unfold sized in *. rewrite E in H.
  destruct (files (write_zeros path off n d).2 !! path) as [f|] eqn:E2; [|done].
  exfalso. revert E2. unfold write_zeros. case_bool_decide; [cbn; congruence|].
  unfold mbind, M_bind. destruct (aligned_buffer d) as [[[]| |] d1] eqn:Ea.
  2,3: pose proof (check_call_same d) as Hc; unfold aligned_buffer in Ea; fold check_call in Ea; rewrite Ea in Hc; cbn in *; congruence.
  pose proof (check_call_same d) as Hc. change check_call with aligned_buffer in Hc. rewrite Ea in Hc. cbn in Hc. unfold zero_all.
  assert (Hz : ∀ ans o k x, files x !! path = None → files (write_zeros_loop ans path o k x).2 !! path = None).
  { clear. induction ans as [|a ans IH]; intros o k x Hx; cbn [write_zeros_loop]; (case_bool_decide; [done|]); (destruct (negb _); [done|]); [done|].
    destruct a; try done; [|by apply IH]. case_bool_decide; [done|]. apply IH. cbn. by rewrite lookup_alter_eq, Hx. }
  rewrite Hz by congruence. done.
Qed.

Lemma update_marker_grows q g : markers path q → frames grows (update_file q g).
Proof.
  intros Hq. apply frames_grows; [by apply update_marker_touches|]. intros d Hn. cbn. rewrite lookup_alter_ne; [done|].
  intros <-. by apply (not_marker q).
Qed.

Lemma rename_grows : frames grows (modify (λ d, d <| files ::= λ m, match m !! pending_path path with
  | Some f => <[ready_path path := f]> (delete (pending_path path) m) | None => m end |>)).
Proof.
  assert (Hp : ready_path path ≠ path ∧ pending_path path ≠ path) by (split; apply append_ne; by vm_compute). destruct Hp as [Hr Hq].
  assert (Hsame : ∀ d p, ¬ markers path p → files (d <| files ::= λ m, match m !! pending_path path with
    | Some f => <[ready_path path := f]> (delete (pending_path path) m) | None => m end |>) !! p = files d !! p).
  { intros d p Hm. cbn. unfold markers in Hm. destruct (files d !! pending_path path); [|done].
    rewrite lookup_insert_ne, lookup_delete_ne; [done|intros E; apply Hm; rewrite <- E; tauto..]. }
  apply frames_grows.
  - intros d p f Hm Hf. exists f. split; [|reflexivity]. cbn [snd modify]. by rewrite Hsame.
  - intros d Hn. cbn [snd modify]. rewrite Hsame; [done|apply not_marker].
Qed.

Lemma publish_grows st n : frames grows (publish_segment_ready path st n).
Proof.
  unfold publish_segment_ready. frame_calls; [apply update_marker_grows; by right| |apply rename_grows|apply sync_directory_frames, _].
  case_match; frame_calls. apply update_marker_grows. by right.
Qed.

(** What is known of the file that [fstat] describes. *)
Lemma stat_grows {A} (k : file → M disk A) : (∀ st, L ≤ f_size st → frames grows (k st)) → frames grows (stat_file path ≫= k).
Proof.
  intros Hk d Hs. unfold mbind, M_bind. pose proof (stat_file_frames grows path d Hs) as [Ht Hs1].
  destruct (stat_file path d) as [[st| |] d1] eqn:E; [|done|done].
  assert (Hst : L ≤ f_size st).
  { revert E. unfold stat_file, mbind, M_bind. destruct (check_call d) as [[[]| |] d2] eqn:E2; [|done|done].
    pose proof (check_call_same d) as Hc. rewrite E2 in Hc. cbn in Hc. unfold gets, from_opt. cbn.
    destruct (files d2 !! path) as [f|] eqn:Ef; [|done]. intros [= <- <-]. unfold sized in Hs. rewrite <- Hc, Ef in Hs. done. }
  destruct (Hk st Hst d1 Hs1) as [T2 S2]. split; [by etrans|done].
Qed.

Lemma materialise_grows n : frames grows (materialise_segment_file path n).
Proof.
  unfold materialise_segment_file. frame_calls; [apply ensure_directory_frames, _|apply filesystem_lock_root_frames, _|].
  apply stat_grows. intros st Hst. frame_calls; [apply read_ready_frames, _|case_match; [|frame_call]; case_match; frame_calls|].
  case_match; [frame_call|]. frame_calls; [|apply verify_extents_frames, _|apply publish_grows].
  apply frames_when; [apply _|]. unfold extend_segment. frame_calls. case_match; frame_calls. by apply write_zeros_grows.
Qed.
End materialise.

Lemma publish_wf path st n : frames keeps_wf (publish_segment_ready path st n).
Proof.
  unfold publish_segment_ready. frame_calls; [apply update_file_wf| | |apply sync_directory_frames, _].
  - intros f _. split; intros i; unfold fbyte; cbn; rewrite ?lookup_empty; cbn; lia.
  - case_match; frame_calls. apply update_file_wf. intros f. apply file_wf_fwrite, Forall_take. repeat apply Forall_app_2; apply wf_le_bytes.
  - intros d Hd p f. cbn. destruct (files d !! pending_path path) as [g|] eqn:E; [|apply Hd].
    intros [[<- <-]|[_ [_ Hf]%lookup_delete_Some]]%lookup_insert_Some; by eapply Hd.
Qed.

Lemma materialise_wf path n : frames keeps_wf (materialise_segment_file path n).
Proof.
  unfold materialise_segment_file. frame_calls; [apply ensure_directory_frames, _|apply filesystem_lock_root_frames, _|].
  apply frames_bind; [apply _|apply stat_file_frames, _|intros st]. frame_calls; [apply read_ready_frames, _|case_match; [|frame_call]; case_match; frame_calls|].
  case_match; [frame_call|]. frame_calls; [|apply verify_extents_frames, _|apply publish_wf].
  apply frames_when; [apply _|]. unfold extend_segment. frame_calls. case_match; frame_calls. apply write_zeros_wf.
Qed.

(** ** The only fault of a reader is the end of its answers *)
Definition only_fuel {S A} (m : M S A) : Prop := ∀ s f, (m s).1 = Fault f → f = OutOfFuel.

Lemma only_fuel_bind {S A B} (m : M S A) (k : A → M S B) : only_fuel m → (∀ a, only_fuel (k a)) → only_fuel (m ≫= k).
Proof. intros Hm Hk s f. unfold mbind, M_bind. specialize (Hm s). destruct (m s) as [[a|e|x] s']; cbn in *; [apply Hk|done|]. intros [= <-]. by apply Hm. Qed.
Lemma only_fuel_guard {S} b e : only_fuel (guard_err b e : M S unit).
Proof. intros s f. by destruct b. Qed.
Lemma only_fuel_next : only_fuel next_answer.
Proof. intros d f. unfold next_answer. destruct (answers d); [by intros [= <-]|done]. Qed.
Lemma only_fuel_pread f off len : only_fuel (pread_all f off len).
Proof.
  intros d. unfold pread_all. generalize (answers d) as ans. intros ans. revert off len. induction ans as [|a ans IH]; intros off len x; cbn [pread_loop];
    (case_bool_decide; [done|]); [by intros [= <-]|]. destruct a as [n| | | |]; try done; [|apply IH]. case_bool_decide; [done|].
  set (m := available_bytes n len (f_size f - off)). specialize (IH (off + m) (len - m)). destruct (pread_loop _ _ _ _ d) as [[r|e|y] d']; cbn in *; try done.
  intros [= <-]. by apply IH.
Qed.

Lemma read_block_only_fuel eof path off n : only_fuel (read_block eof path off n).
Proof.
  assert (Hcall : only_fuel sys_call) by (apply only_fuel_bind; [apply only_fuel_next|by intros a s f]).
  unfold read_block. apply only_fuel_bind; [apply only_fuel_guard|intros _]. apply only_fuel_bind; [apply only_fuel_guard|intros _].
  apply only_fuel_bind.
  { apply only_fuel_bind; [done|intros ok]. apply only_fuel_bind; [by intros s f|]. by intros a s f. }
  intros [[f|]|[]]; [|by intros s x..]. apply only_fuel_bind; [apply only_fuel_bind; [done|intros ok; apply only_fuel_guard]|intros _].
  apply only_fuel_bind; [apply only_fuel_pread|intros got]. apply only_fuel_bind; [apply only_fuel_guard|by intros _ s x].
Qed.

(** ** Reads when no call fails *)
Definition is_done (a : answer) : Prop := match a with Done _ => True | _ => False end.
Definition healthy (d : disk) : Prop := Forall is_done (answers d).
#[export] Instance is_done_dec a : Decision (is_done a).
Proof. destruct a; apply _. Defined.
#[export] Instance healthy_dec d : Decision (healthy d).
Proof. unfold healthy. apply _. Defined.
Definition keeps_healthy (d d' : disk) : Prop := files d' = files d ∧ (healthy d → healthy d').

#[export] Instance keeps_healthy_preorder : PreOrder keeps_healthy.
Proof. split; [by intros d|]. intros d e h [E1 H1] [E2 H2]. split; [congruence|auto]. Qed.

Lemma pread_healthy ans f off len d : Forall is_done ans → healthy (pread_loop ans f off len d).2.
Proof.
  intros H. revert off len d. induction H as [|a ans Ha Hans IH]; intros off len d; cbn [pread_loop]; case_bool_decide; try by constructor.
  destruct a as [n| | | |]; try done. case_bool_decide; [done|]. specialize (IH (off + available_bytes n len (f_size f - off)) (len - available_bytes n len (f_size f - off)) d).
  by destruct (pread_loop ans f _ _ d).
Qed.

Lemma pread_loop_done ans f off len d : Forall is_done ans → ∃ r, (pread_loop ans f off len d).1 = r ∧ (r = Fault OutOfFuel ∨ ∃ got, r = Ok got).
Proof.
  intros H. eexists. split; [done|]. revert off len d. induction H as [|a ans Ha Hans IH]; intros off len d; cbn [pread_loop]; (case_bool_decide; [by eauto|]); [by eauto|].
  destruct a as [n| | | |]; try done. case_bool_decide; [by eauto|]. specialize (IH (off + available_bytes n len (f_size f - off)) (len - available_bytes n len (f_size f - off)) d).
  destruct (pread_loop ans f _ _ d) as [r d']. cbn in *. destruct IH as [->|[got ->]]; eauto.
Qed.

Lemma sys_open_done path d : healthy d → sys_open path d = (Fault OutOfFuel, d) ∨ ∃ d1, sys_open path d = (Ok (inl (files d !! path)), d1) ∧ keeps_healthy d d1.
Proof.
  unfold healthy, sys_open, sys_call, next_answer, mbind, M_bind, gets, mret, M_ret. intros H. destruct (answers d) as [|a ans] eqn:E; [by left|]. right.
  apply Forall_cons in H as [Ha Hans]. destruct a; try done. cbn. eexists. split; [done|]. by split.
Qed.

Lemma check_call_done d : healthy d → check_call d = (Fault OutOfFuel, d) ∨ ∃ d1, check_call d = (Ok tt, d1) ∧ keeps_healthy d d1.
Proof.
  unfold healthy, check_call, sys_call, next_answer, mbind, M_bind, gets, mret, M_ret. intros H. destruct (answers d) as [|a ans] eqn:E; [by left|]. right.
  apply Forall_cons in H as [Ha Hans]. destruct a; try done. cbn. eexists. split; [done|]. by split.
Qed.

(** A read either stops for want of answers, or reports an absent block, or
    returns the bytes on the media. *)
Lemma read_block_done eof path off n d : healthy d → disk_wf d → 0 < n → is_aligned n = true → is_aligned off = true →
  let '(r, d') := read_block eof path off n d in keeps_healthy d d' ∧
  (r = Fault OutOfFuel ∨
   (r = Err NOT_FOUND ∧ match files d !! path with Some f => eof = true ∧ f_size f ≤ off | None => True end) ∨
   (∃ f, files d !! path = Some f ∧ r = Ok (fread f off n))).
Proof.
  intros Hh Hw Hn Hal Hal2. destruct (read_block eof path off n d) as [r d'] eqn:E. pose proof (read_block_same eof path off n d) as Hs. rewrite E in Hs. cbn in Hs.
  assert (Hok : ∀ data, r = Ok data → ∃ f, files d !! path = Some f ∧ data = fread f off n).
  { intros data ->. eapply read_block_ok; [exact E|exact Hw|lia]. }
  assert (H : healthy d' ∧ (r = Fault OutOfFuel ∨ (∃ data, r = Ok data) ∨
    (r = Err NOT_FOUND ∧ match files d !! path with Some f => eof = true ∧ f_size f ≤ off | None => True end))).
  2: { destruct H as [Hd [->|[[data ->]|?]]]; (split; [by split|]); [by left| |by right; left]. right. right.
       destruct (Hok data eq_refl) as (f & ? & ->). by exists f. }
  clear Hok. revert E. unfold read_block, guard_err. rewrite Hal, Hal2, bool_decide_eq_false_2 by lia. cbn [orb negb]. unfold mbind, M_bind, mret, M_ret.
  destruct (sys_open_done path d Hh) as [->|(d1 & -> & [F1 H1])]; [intros [= <- <-]; auto|].
  destruct (files d !! path) as [f|] eqn:Ef; [|intros [= <- <-]; split; [auto|]; right; right; done].
  destruct (check_call_done d1 (H1 Hh)) as [Ec|(d2 & Ec & [F2 H2])]; change check_call with aligned_buffer in Ec; rewrite Ec; [intros [= <- <-]; split; [auto|by left]|].
  unfold pread_all. assert (Hd2 : healthy d2) by auto. pose proof (pread_healthy _ f off n d2 Hd2) as Hp.
  destruct (pread_loop_done _ f off n d2 Hd2) as (r0 & Er0 & Hr0). destruct (pread_loop (answers d2) f off n d2) as [rr d3] eqn:Ep. cbn in Er0, Hp. subst rr.
  destruct Hr0 as [->|[got ->]]; [intros [= <- <-]; split; [done|by left]|].
  destruct (pread_loop_ok _ _ _ _ _ _ _ Ep) as (k & Hk & -> & He). destruct (eof && _) eqn:Hz; intros [= <- <-]; (split; [done|]); [|right; left; by eexists].
  right. right. split; [done|]. apply andb_true_iff in Hz as [-> Hz%bool_decide_eq_true]. split; [done|].
  assert (k = 0) as ->. { apply (f_equal (λ l, Z.of_nat (length l))) in Hz. rewrite length_fread in Hz by lia. cbn in Hz. done. }
  specialize (He ltac:(lia)). lia.
Qed.

(** ** Programs on one file *)
Definition only_file (path : string) (d d' : disk) : Prop := ∀ q, q ≠ path → files d' !! q = files d !! q.

#[export] Instance only_file_preorder path : PreOrder (only_file path).
Proof. split; [by intros d q|]. intros d e h H1 H2 q Hq. rewrite H2, H1 by done. done. Qed.

Lemma only_same {A} path (m : M disk A) : frames (λ x y, files y = files x) m → frames (only_file path) m.
Proof. intros H d q _. by rewrite (H d). Qed.

Lemma only_update path g : frames (only_file path) (update_file path g).
Proof. intros d q Hq. cbn. by rewrite lookup_alter_ne. Qed.

Lemma only_create path : frames (only_file path) (sys_create path).
Proof.
  apply frames_bind; [apply _|apply only_same, sys_call_same|]. intros ok. destruct (negb ok); [apply frames_ret, _|].
  apply frames_bind; [apply _|apply frames_gets, _|]. intros [f|]; (apply frames_bind; [apply _| |intros; apply frames_ret, _]); [apply frames_ret, _|].
  intros d q Hq. cbn. by rewrite lookup_insert_ne.
Qed.

Lemma only_fsync path : frames (only_file path) (sys_fsync path).
Proof.
  apply frames_bind; [apply _|apply only_same, sys_call_same|]. intros ok. apply frames_bind; [apply _| |intros; apply frames_ret, _].
  apply frames_when; [apply _|]. apply only_update.
Qed.

Lemma only_zeros path off n : frames (only_file path) (write_zeros path off n).
Proof.
  unfold write_zeros. case_bool_decide; [apply frames_ret, _|]. apply frames_bind; [apply _|apply only_same, check_call_same|intros _].
  intros d. unfold zero_all. clear H. generalize (answers d) as ans. intros ans. revert off n d.
  induction ans as [|a ans IH]; intros off n d; cbn [write_zeros_loop]; (case_bool_decide; [by intros q|]); (destruct (negb _); [by intros q|]); [by intros q|].
  destruct a as [k| | | |]; [|apply IH|by intros q..]. case_bool_decide; [by intros q|]. etrans; [|apply IH]. intros q Hq. cbn. by rewrite lookup_alter_ne.
Qed.

Lemma ensure_directory_same path : frames (λ x y, files y = files x) (ensure_directory path).
Proof.
  unfold ensure_directory. apply frames_bind; [apply _|apply frames_guard, _|intros _]. apply frames_for_each; [apply _|]. intros _. apply check_call_same.
Qed.
Lemma stat_file_same path : frames (λ x y, files y = files x) (stat_file path).
Proof.
  unfold stat_file. apply frames_bind; [apply _|apply check_call_same|intros _]. apply frames_bind; [apply _|apply frames_gets, _|intros f]. apply frames_from_opt, _.
Qed.

Ltac only_calls := repeat first
  [ apply frames_guard, _ | apply frames_ret, _ | apply frames_fail, _ | apply frames_gets, _ | apply frames_from_opt, _
  | apply only_update | apply only_create | apply only_fsync | apply only_zeros
  | apply only_same, check_call_same | apply only_same, ensure_directory_same | apply only_same, stat_file_same | apply only_same, sys_open_same
  | apply frames_bind; [apply _| |intros ?] ].

Lemma ensure_metadata_only path size : frames (only_file path) (ensure_metadata_file path size).
Proof. unfold ensure_metadata_file, sync_directory. only_calls. case_bool_decide; only_calls. Qed.

Lemma file_wf_truncate size f : file_wf f → file_wf (ftruncate_to size f).
Proof.
  assert (E : ∀ i, fbyte (ftruncate_to size f) i = if decide (i < size) then fbyte f i else 0).
  { intros i. unfold fbyte, ftruncate_to. cbn. rewrite map_lookup_filter. destruct (f_data f !! i) as [v|]; cbn; repeat case_decide; done. }
  intros [Hz Hb]. split; intros i; rewrite E; [|case_decide; [apply Hb|lia]]. change (f_size (ftruncate_to size f)) with size. intros Hi. by rewrite decide_False by lia.
Qed.

Lemma ensure_metadata_wf path size : frames keeps_wf (ensure_metadata_file path size).
Proof.
  unfold ensure_metadata_file. frame_calls; [apply ensure_directory_frames, _|]. apply frames_bind; [apply _|apply stat_file_frames, _|intros st].
  case_bool_decide; frame_calls; [apply update_file_wf, file_wf_truncate|apply write_zeros_wf|apply sync_directory_frames, _].
Qed.

(** A header read back is inside its file. *)
Lemma read_block_present path off n d data d' : read_block true path off n d = (Ok data, d') → 0 < n → ∃ f, files d !! path = Some f ∧ off < f_size f.
Proof.
  intros E Hn. unfold read_block in E. apply bind_inv in E as ([] & s1 & [_ ->]%guard_inv & E). apply bind_inv in E as ([] & s2 & [_ ->]%guard_inv & E).
  apply bind_inv in E as (o & s3 & E3 & E). apply sys_open_result in E3 as [F3 [->| ->]]; [done|]. destruct (files d !! path) as [f|] eqn:Ef; [|done].
  apply bind_inv in E as ([] & s4 & _ & E). apply bind_inv in E as (got & s5 & E5 & E). apply bind_inv in E as ([] & s6 & [Hg _]%guard_inv & _).
  exists f. split; [done|]. cbn in Hg. apply bool_decide_eq_false in Hg. unfold pread_all in E5. destruct (Z.lt_ge_cases off (f_size f)) as [|Hge]; [done|].
  exfalso. apply Hg. clear -E5 Hge. revert E5. generalize (answers s4) as ans. intros ans. revert got s5.
  induction ans as [|a ans IH]; intros got s5; cbn [pread_loop]; (case_bool_decide; [by intros [= <- _]|]); [done|].
  destruct a as [k| | | |]; try done; [|apply IH]. unfold available_bytes. rewrite (bool_decide_eq_true_2 (f_size f - off ≤ 0)) by lia. by intros [= <- _].
Qed.
