(* ===== verification/Residency.v ===== *)
(** * Cross-rank residency (csrc/storage_objects/residency_bitmap.cpp,
      ResidencyBitmapLayout of storage_object_store.h)

    One bitmap file per rank, mapped shared: a mapping is the path of its
    file, and a bit written through it is a byte written to the file, unsynced
    until the kernel gets to it. *)
From S2P Require Import Prelude Digest Bytes SlotPlace ObjHeader Checkpoint Media MediaSpec.

(** ** Layout *)
Definition kResMagic : bytes := [0x54; 0x55; 0x54; 0x54; 0x49; 0x52; 0x45; 0x53].
Definition kResVersion : Z := 1.
Definition kResHeaderBytes : Z := 4096.
Definition kRankIdOffset : nat := 12.
Definition kRankCountOffset : nat := 16.
Definition kSlotCountOffset : nat := 20.
Definition kFingerprintOffset : nat := 28.

Definition residency_file_bytes (slot_count : Z) : Z := round_up (u64 (kResHeaderBytes + u64 (slot_count + 7) / 8)) kAlignment.
Definition residency_bit_offset (slot : Z) : Z := kResHeaderBytes + slot / 8.
Definition residency_bit_shift (slot : Z) : Z := slot `mod` 8.

Definition encode_residency_header (rank_id rank_count slot_count fingerprint_digest : Z) : bytes :=
  let out := replicate (Z.to_nat kResHeaderBytes) 0 in
  let out := list_inserts kMagicOffset kResMagic out in
  let out := store_u32 kVersionOffset kResVersion out in
  let out := store_u32 kRankIdOffset rank_id out in
  let out := store_u32 kRankCountOffset rank_count out in
  let out := store_u64 kSlotCountOffset slot_count out in
  store_u64 kFingerprintOffset fingerprint_digest out.

Inductive ResidencyRejection : Set :=
  | kResNone | kEmptyFile | kResBadMagic | kResUnsupportedVersion | kResTruncatedBuffer | kSlotCountMismatch
  | kFingerprintMismatch | kRankCountMismatch.

#[export] Instance ResidencyRejection_eq_dec : EqDecision ResidencyRejection.
Proof. solve_decision. Defined.

Definition validate_residency_header (data : bytes) (rank_count slot_count fingerprint_digest : Z) : option ResidencyRejection :=
  if bool_decide (Z.of_nat (length data) < kResHeaderBytes) then Some kResTruncatedBuffer else
  zero ← magic_is_zero kMagicOffset data;
  if (zero : bool) then Some kEmptyFile else
  matches ← magic_matches kMagicOffset kResMagic data;
  if negb matches then Some kResBadMagic else
  version ← load_u32 kVersionOffset data;
  if bool_decide (version ≠ kResVersion) then Some kResUnsupportedVersion else
  ranks ← load_u32 kRankCountOffset data;
  if bool_decide (ranks ≠ rank_count) then Some kRankCountMismatch else
  slots ← load_u64 kSlotCountOffset data;
  if bool_decide (slots ≠ slot_count) then Some kSlotCountMismatch else
  digest ← load_u64 kFingerprintOffset data;
  if bool_decide (digest ≠ fingerprint_digest) then Some kFingerprintMismatch else
  Some kResNone.

(** ** Mappings *)
Record ResidencyBitmap := {
  rb_base : option string;
  rb_slot_count : Z;
  rb_writable : bool;
}.

#[export] Instance ResidencyBitmap_eq_dec : EqDecision ResidencyBitmap.
Proof. solve_decision. Defined.

Definition closed_bitmap : ResidencyBitmap := {| rb_base := None; rb_slot_count := 0; rb_writable := false |}.
Definition usable (b : ResidencyBitmap) : bool := bool_decide (rb_base b ≠ None).

Definition open_writable (path : string) (rank_id rank_count slot_count fingerprint_digest : Z) : M disk ResidencyBitmap :=
  guard_err (bool_decide (slot_count = 0)) INVALID_ARGUMENT;;
  let want_bytes := residency_file_bytes slot_count in
  ok ← sys_create path;
  guard_err (negb ok) INTERNAL;;
  st ← stat_file path;
  let fresh := bool_decide (f_size st = 0) in
  (if fresh then check_call;; update_file path (ftruncate_to want_bytes)
   else guard_err (bool_decide (f_size st ≠ want_bytes)) INVALID_ARGUMENT);;
  check_call;;  (* mmap *)
  let initialise := update_file path (fwrite 0 (encode_residency_header rank_id rank_count slot_count fingerprint_digest)) in
  (if fresh then initialise else
   rejection ← from_opt OutOfBounds (validate_residency_header (fread st 0 want_bytes) rank_count slot_count fingerprint_digest);
   if bool_decide (rejection = kEmptyFile) then initialise
   else guard_err (bool_decide (rejection ≠ kResNone)) INVALID_ARGUMENT);;
  mret {| rb_base := Some path; rb_slot_count := slot_count; rb_writable := true |}.

Definition open_readonly (path : string) (rank_count slot_count fingerprint_digest : Z) : M disk ResidencyBitmap :=
  guard_err (bool_decide (slot_count = 0)) INVALID_ARGUMENT;;
  let want_bytes := residency_file_bytes slot_count in
  o ← sys_open path;
  match o with
  | inl (Some _) =>
      st ← stat_file path;
      guard_err (bool_decide (f_size st ≠ want_bytes)) INVALID_ARGUMENT;;
      check_call;;  (* mmap *)
      rejection ← from_opt OutOfBounds (validate_residency_header (fread st 0 want_bytes) rank_count slot_count fingerprint_digest);
      guard_err (bool_decide (rejection ≠ kResNone)) INVALID_ARGUMENT;;
      mret {| rb_base := Some path; rb_slot_count := slot_count; rb_writable := false |}
  | _ => fail INTERNAL
  end.

(** ** Bits *)
Definition mapped_byte (d : disk) (path : string) (i : Z) : Z := match files d !! path with Some f => fbyte f i | None => 0 end.

Definition test (d : disk) (b : ResidencyBitmap) (slot : Z) : bool :=
  match rb_base b with
  | None => false
  | Some path =>
      if bool_decide (rb_slot_count b ≤ slot) then false else
      bool_decide (Z.land (Z.shiftr (mapped_byte d path (residency_bit_offset slot)) (residency_bit_shift slot)) 1 ≠ 0)
  end.

Definition store_byte (path : string) (i : Z) (g : Z → Z) : M disk unit :=
  update_file path (λ f, fwrite i [g (fbyte f i)] f).

Definition set_bit (b : ResidencyBitmap) (slot : Z) : M disk unit :=
  match rb_base b with
  | Some path =>
      if negb (rb_writable b) || bool_decide (rb_slot_count b ≤ slot) then mret tt else
      store_byte path (residency_bit_offset slot) (λ v, Z.lor v (u8 (Z.shiftl 1 (residency_bit_shift slot))))
  | None => mret tt
  end.

Definition clear_bit (b : ResidencyBitmap) (slot : Z) : M disk unit :=
  match rb_base b with
  | Some path =>
      if negb (rb_writable b) || bool_decide (rb_slot_count b ≤ slot) then mret tt else
      store_byte path (residency_bit_offset slot) (λ v, Z.land v (u8 (Z.lnot (Z.shiftl 1 (residency_bit_shift slot)))))
  | None => mret tt
  end.

Definition clear_all (b : ResidencyBitmap) : M disk unit :=
  match rb_base b with
  | Some path =>
      if negb (rb_writable b) then mret tt else
      update_file path (fzero kResHeaderBytes (residency_file_bytes (rb_slot_count b) - kResHeaderBytes))
  | None => mret tt
  end.

(** [msync(MS_ASYNC)]: asks for writeback, proves nothing. *)
Definition sync (b : ResidencyBitmap) : M disk unit :=
  match rb_base b with
  | Some _ => if negb (rb_writable b) then mret tt else check_call
  | None => mret tt
  end.

Definition all_ranks_committed (d : disk) (ranks : list ResidencyBitmap) (slot : Z) : bool :=
  if bool_decide (ranks = []) then false else forallb (λ b, usable b && test d b slot) ranks.

(** ** Geometry and headers *)
Lemma bit_in_file slot_count slot : 0 ≤ slot < slot_count → slot_count + 16384 < 2 ^ 64 →
  kResHeaderBytes ≤ residency_bit_offset slot < residency_file_bytes slot_count.
Proof.
  intros Hs Hb. unfold residency_bit_offset, residency_file_bytes, kResHeaderBytes.
  rewrite (wrap_small 64 (slot_count + 7)) by lia.
  pose proof (Z.div_mod (slot_count + 7) 8 ltac:(lia)). pose proof (Z.mod_pos_bound (slot_count + 7) 8 ltac:(lia)).
  pose proof (Z.div_mod slot 8 ltac:(lia)). pose proof (Z.mod_pos_bound slot 8 ltac:(lia)).
  rewrite (wrap_small 64) by lia. destruct (round_up_spec (4096 + (slot_count + 7) / 8)) as [_ Hr]; [lia..|]. lia.
Qed.

Ltac res_bounds := unfold kResHeaderBytes, kMagicOffset, kVersionOffset, kRankIdOffset, kRankCountOffset, kSlotCountOffset, kFingerprintOffset in *.

(** The header check never reads outside the mapping. *)
Lemma validate_residency_total data rank_count slot_count digest : ∃ r, validate_residency_header data rank_count slot_count digest = Some r.
Proof.
  unfold validate_residency_header. case_bool_decide as Hl; [by eexists|]. unfold magic_is_zero, magic_matches. res_bounds.
  rewrite !read_bytes_slice, !load_u32_value, !load_u64_value by lia. cbn [mbind option_bind]. repeat case_match; by eexists.
Qed.

(** A header is accepted by whoever agrees on ranks, slots and fingerprint,
    and by nobody else. *)
Lemma residency_header_roundtrip rank_id rank_count slot_count digest rest rank_count' slot_count' digest' :
  fits 32 rank_count → fits 64 slot_count → fits 64 digest → 
  validate_residency_header (encode_residency_header rank_id rank_count slot_count digest ++ rest) rank_count' slot_count' digest' = Some kResNone ↔
  rank_count' = rank_count ∧ slot_count' = slot_count ∧ digest' = digest.
Proof.
  intros F1 F2 F3. set (h := encode_residency_header rank_id rank_count slot_count digest).
  assert (Hl : length h = Z.to_nat 4096) by (unfold h, encode_residency_header; autorewrite with codec; done).
  set (z := replicate (Z.to_nat kResHeaderBytes) 0).
  assert (Hz : length z = Z.to_nat 4096) by apply length_replicate.
  assert (Hm : slice 0 8 h = kResMagic).
  { unfold h, encode_residency_header. res_bounds. slice_field. apply (slice_inserts_same 0 kResMagic). rewrite length_replicate.
    change (length kResMagic) with 8%nat. lia. }
  assert (Hv : slice 8 4 h = le_bytes 4 kResVersion) by (unfold h, encode_residency_header; fold z; res_bounds; by slice_field).
  assert (Hr : slice 16 4 h = le_bytes 4 rank_count) by (unfold h, encode_residency_header; fold z; res_bounds; by slice_field).
  assert (Hs : slice 20 8 h = le_bytes 8 slot_count) by (unfold h, encode_residency_header; fold z; res_bounds; by slice_field).
  assert (Hd : slice 28 8 h = le_bytes 8 digest) by (unfold h, encode_residency_header; fold z; res_bounds; by slice_field).
  unfold validate_residency_header. rewrite length_app, bool_decide_eq_false_2 by (res_bounds; lia).
  unfold magic_is_zero, magic_matches. res_bounds.
  rewrite !read_bytes_slice, !load_u32_value, !load_u64_value by (rewrite length_app; lia). cbn [mbind option_bind].
  rewrite !slice_app_l by lia. rewrite Hm, Hv, Hr, Hs, Hd. replace (forallb _ kResMagic) with false by reflexivity.
  rewrite bool_decide_eq_true_2 by done. cbn [negb]. rewrite !le_value_small by (done || by vm_compute).
  rewrite bool_decide_eq_false_2 by (intros []; done). clear. repeat case_bool_decide; (split; [intros [=]; split_and!; congruence|intros (? & ? & ?); congruence]).
Qed.

(** ** Bits *)
Lemma land_1_testbit v k : 0 ≤ k → bool_decide (Z.land (Z.shiftr v k) 1 ≠ 0) = Z.testbit v k.
Proof.
  intros Hk. rewrite land_1, Z.shiftr_spec by done. rewrite Z.add_0_l. destruct (Z.testbit v k); cbn [Z.b2z].
  - by rewrite bool_decide_eq_true_2.
  - by rewrite bool_decide_eq_false_2 by (intros []; done).
Qed.

Lemma test_bit d b path slot : rb_base b = Some path → 0 ≤ slot < rb_slot_count b →
  test d b slot = Z.testbit (mapped_byte d path (residency_bit_offset slot)) (residency_bit_shift slot).
Proof.
  intros Hb Hs. unfold test. rewrite Hb, bool_decide_eq_false_2 by lia. apply land_1_testbit.
  unfold residency_bit_shift. apply Z.mod_pos_bound. lia.
Qed.

Lemma bit_place s t : 0 ≤ s → 0 ≤ t → residency_bit_offset s = residency_bit_offset t → residency_bit_shift s = residency_bit_shift t → s = t.
Proof.
  unfold residency_bit_offset, residency_bit_shift. intros Hs Ht E1 E2. pose proof (Z.div_mod s 8). pose proof (Z.div_mod t 8). lia.
Qed.

Lemma mapped_store d path i g j f : files d !! path = Some f →
  mapped_byte (store_byte path i g d).2 path j = if decide (j = i) then g (mapped_byte d path i) else mapped_byte d path j.
Proof.
  intros Hf. unfold mapped_byte, store_byte. cbn. rewrite lookup_alter_eq, Hf. cbn. rewrite fbyte_fwrite. cbn [length]. case_decide as H1.
  - replace (Z.to_nat (j - i)) with O by lia. rewrite decide_True by lia. done.
  - by rewrite decide_False by lia.
Qed.

Lemma bit_mask k : 0 ≤ k < 8 → u8 (Z.shiftl 1 k) = 2 ^ k.
Proof.
  intros Hk. rewrite Z.shiftl_mul_pow2, Z.mul_1_l by lia. apply wrap_small. split; [lia|]. apply Z.pow_lt_mono_r; lia.
Qed.

(** Setting a bit sets exactly that slot's bit. *)
Lemma set_bit_exact d b path f slot t : rb_base b = Some path → rb_writable b = true → files d !! path = Some f →
  0 ≤ slot < rb_slot_count b → 0 ≤ t < rb_slot_count b →
  test (set_bit b slot d).2 b t = (bool_decide (t = slot) || test d b t).
Proof.
  intros Hb Hw Hf Hs Ht. unfold set_bit. rewrite Hb, Hw, bool_decide_eq_false_2 by lia. cbn [negb orb].
  rewrite !(test_bit _ b path t) by done. rewrite (mapped_store _ _ _ _ _ f) by done.
  pose proof (Z.mod_pos_bound slot 8 ltac:(lia)) as Hk. fold (residency_bit_shift slot) in Hk.
  pose proof (Z.mod_pos_bound t 8 ltac:(lia)) as Hk'. fold (residency_bit_shift t) in Hk'.
  case_decide as E; [|by rewrite bool_decide_eq_false_2 by congruence].
  rewrite Z.lor_spec, bit_mask, Z.pow2_bits_eqb by lia. rewrite E, orb_comm. f_equal.
  destruct (Z.eqb_spec (residency_bit_shift slot) (residency_bit_shift t)) as [E2|E2].
  - rewrite bool_decide_eq_true_2; [done|]. by apply bit_place; [lia..| |].
  - rewrite bool_decide_eq_false_2; [done|]. congruence.
Qed.

Lemma clear_mask k j : 0 ≤ k < 8 → 0 ≤ j < 8 → Z.testbit (u8 (Z.lnot (Z.shiftl 1 k))) j = negb (Z.eqb k j).
Proof.
  intros Hk Hj. unfold wrap. rewrite Z.mod_pow2_bits_low by lia. rewrite Z.lnot_spec by lia.
  rewrite Z.shiftl_mul_pow2, Z.mul_1_l by lia. by rewrite Z.pow2_bits_eqb by lia.
Qed.

Lemma clear_bit_exact d b path f slot t : rb_base b = Some path → rb_writable b = true → files d !! path = Some f →
  0 ≤ slot < rb_slot_count b → 0 ≤ t < rb_slot_count b →
  test (clear_bit b slot d).2 b t = (negb (bool_decide (t = slot)) && test d b t).
Proof.
  intros Hb Hw Hf Hs Ht. unfold clear_bit. rewrite Hb, Hw, bool_decide_eq_false_2 by lia. cbn [negb orb].
  rewrite !(test_bit _ b path t) by done. rewrite (mapped_store _ _ _ _ _ f) by done.
  pose proof (Z.mod_pos_bound slot 8 ltac:(lia)) as Hk. fold (residency_bit_shift slot) in Hk.
  pose proof (Z.mod_pos_bound t 8 ltac:(lia)) as Hk'. fold (residency_bit_shift t) in Hk'.
  case_decide as E; [|by rewrite bool_decide_eq_false_2 by congruence].
  rewrite Z.land_spec, clear_mask by lia. rewrite E, andb_comm. f_equal. f_equal.
  destruct (Z.eqb_spec (residency_bit_shift slot) (residency_bit_shift t)) as [E2|E2].
  - rewrite bool_decide_eq_true_2; [done|]. by apply bit_place; [lia..| |].
  - rewrite bool_decide_eq_false_2; [done|]. congruence.
Qed.

(** The conjunction over the ranks. *)
Lemma all_ranks_spec d ranks slot : all_ranks_committed d ranks slot = true ↔
  ranks ≠ [] ∧ Forall (λ b, usable b = true ∧ test d b slot = true) ranks.
Proof.
  unfold all_ranks_committed. case_bool_decide as H; [naive_solver|]. rewrite forallb_forall, Forall_forall. split.
  - intros Hf. split; [done|]. intros b Hb%list_elem_of_In. by apply andb_prop, Hf.
  - intros [_ Hf] b Hb%list_elem_of_In. apply andb_true_intro. by apply Hf.
Qed.
