(* ===== verification/StorageTheorems.v ===== *)
(** * What the storage-object codecs, the allocator and the placement promise

    The theorems about the parts below [ObjectStoreCore]: the slot allocator
    over whole histories, the placement of slots in segment files, and the
    three on-media formats. *)
From stdpp Require Import pretty.
From S2P Require Import Prelude Digest Bytes SlotPlace SpaceAlloc ObjHeader Checkpoint Media MediaSpec Residency.
Open Scope Z_scope.

(** ** The slot allocator *)

(** C19: After any sequence of the allocator's operations, whatever slots the
    callers name, every slot below the high-water mark is on exactly the list
    its state says, and never twice; the five figures of [stats] add up to the
    capacity; and a further reservation of n hands out distinct slots that
    nobody holds, each already backed by media (below the mark or the ready
    limit), rejects the rest, rejects only when no free or backed slot
    is left, and changes no other slot. *)
Theorem allocator_sound ops n : Forall alloc_op_ok ops → 0 ≤ n →
  let a := foldl alloc_apply new_allocator ops in
  alloc_inv a ∧
  st_free_slots (stats a) + st_reserved_slots (stats a) + st_committed_slots (stats a) + st_reclaiming_slots (stats a)
    + st_unmaterialised_slots (stats a) = total_slots a ∧
  reserved n a (reserve n a).1 (reserve n a).2.
Proof.
  intros Hops Hn a. assert (Ha : alloc_inv a) by (apply alloc_run_inv; [done|apply alloc_inv_new]).
  split; [done|]. split; [by apply stats_partition|by apply reserve_ok].
Qed.

Definition demo_alloc_config : SpaceAllocatorConfig := {| cfg_slot_bytes := 8192; cfg_capacity_bytes := 32768 |}.
Definition demo_alloc_ops : list alloc_op := [OpReserve 3; OpCommit [0; 1]; OpAbort [2]; OpRelease [0]; OpTake 5].
Definition demo_alloc_rest : list alloc_op := [OpFinish [0; 2]; OpRequeue [2]].

Lemma allocator_sound_witness :
  alloc_inv (foldl alloc_apply new_allocator (OpConfigure demo_alloc_config :: demo_alloc_ops)) ∧
  rs_slots (reserve 4 (foldl alloc_apply new_allocator (OpConfigure demo_alloc_config :: demo_alloc_ops))).1 = [3].
Proof.
  split; [|by vm_compute]. apply (allocator_sound _ 4); [|lia]. apply (bool_decide_unpack _). by vm_compute.
Defined.

Lemma configured_generation config s : generation_at (configure config new_allocator).2 s = 0.
Proof.
  unfold configure. case_bool_decide; [done|]. case_bool_decide; [done|]. unfold generation_at. cbn.
  destruct (replicate _ 0 !! _) as [g|] eqn:E; [|done]. by apply lookup_replicate in E as [-> _].
Qed.

Lemma total_scrubs_app l1 l2 : total_scrubs (l1 ++ l2) = total_scrubs l1 + total_scrubs l2.
Proof. unfold total_scrubs. induction l1 as [|op l1 IH]; cbn; [done|]. rewrite IH. lia. Qed.

(** C20: A slot that was held, given back and scrubbed carries a higher
    generation ever after: whoever still has the old reservation of the slot
    can tell.  The bound says the 64-bit counter has not wrapped. *)
Theorem recycled_slot_is_newer config ops mid rest s :
  alloc_op_ok (OpConfigure config) → Forall alloc_op_ok (ops ++ mid ++ rest) → forallb no_configure (ops ++ mid ++ rest) = true →
  total_scrubs (ops ++ mid ++ rest) < 2 ^ 64 → 0 ≤ s →
  let a := foldl alloc_apply (alloc_apply new_allocator (OpConfigure config)) ops in
  state_at a s ≠ kFree → state_at (foldl alloc_apply a mid) s = kFree →
  generation_at a s < generation_at (foldl alloc_apply a (mid ++ rest)) s.
Proof.
  intros Hc Hops Hn Hb Hs a H1 H2. rewrite !forallb_app in Hn. apply Forall_app in Hops as [O1 [O2 O3]%Forall_app].
  apply andb_prop in Hn as [N1 [N2 N3]%andb_prop]. rewrite !total_scrubs_app in Hb.
  pose proof (total_scrubs_nonneg ops). pose proof (total_scrubs_nonneg mid). pose proof (total_scrubs_nonneg rest).
  assert (Hi0 : alloc_inv (alloc_apply new_allocator (OpConfigure config))) by (apply alloc_apply_inv; [done|apply alloc_inv_new]).
  assert (G0 : generation_at (alloc_apply new_allocator (OpConfigure config)) s = 0) by apply configured_generation.
  assert (A1 : aged s (total_scrubs ops) (alloc_apply new_allocator (OpConfigure config)) a) by (apply alloc_run_aged; (done || lia)).
  assert (Hi1 : alloc_inv a) by by apply alloc_run_inv. pose proof (ag_mono _ _ _ _ A1) as M1. rewrite G0 in M1.
  assert (A2 : aged s (total_scrubs mid) a (foldl alloc_apply a mid)) by (apply alloc_run_aged; (done || lia)).
  pose proof (ag_mono _ _ _ _ A2) as M2. pose proof (ag_recycled _ _ _ _ A2 H1 H2) as R.
  assert (Hi2 : alloc_inv (foldl alloc_apply a mid)) by by apply alloc_run_inv.
  rewrite foldl_app. assert (A3 : aged s (total_scrubs rest) (foldl alloc_apply a mid) (foldl alloc_apply (foldl alloc_apply a mid) rest))
    by (apply alloc_run_aged; (done || lia)). pose proof (ag_mono _ _ _ _ A3). lia.
Qed.

Lemma recycled_slot_is_newer_witness :
  generation_at (foldl alloc_apply (alloc_apply new_allocator (OpConfigure demo_alloc_config)) demo_alloc_ops) 0 = 0 ∧
  0 < generation_at (foldl alloc_apply (foldl alloc_apply (alloc_apply new_allocator (OpConfigure demo_alloc_config)) demo_alloc_ops)
    (demo_alloc_rest ++ [OpReserve 2])) 0.
Proof.
  split; [by vm_compute|]. refine (recycled_slot_is_newer demo_alloc_config demo_alloc_ops demo_alloc_rest [OpReserve 2] 0 _ _ _ _ _ _ _).
  all: try (apply (bool_decide_unpack _)); by vm_compute.
Defined.

(** ** Checksums *)

(** C36: The table-driven CRC-32C of any buffer is the bit-serial one, one
    shift-register step per message bit, and extends piecewise; and no change
    confined to four consecutive bytes goes unnoticed. *)
Theorem crc_exact pre mid post : wf_bytes (pre ++ mid ++ post) → mid ≠ [] →
  crc32c (pre ++ mid ++ post) = crc32c_bitwise (pre ++ mid ++ post) ∧
  crc32c (pre ++ mid ++ post) = crc32c_final (crc32c_update (crc32c_update crc32c_init (pre ++ mid)) post) ∧
  ∀ mid', wf_bytes mid' → length mid = length mid' → (length mid ≤ 4)%nat → mid ≠ mid' →
    crc32c (pre ++ mid ++ post) ≠ crc32c (pre ++ mid' ++ post).
Proof.
  intros Hw Hm. assert (Hne : pre ++ mid ++ post ≠ []) by (destruct pre, mid; done). split_and!.
  - unfold crc32c, crc32c_bitwise. rewrite bool_decide_eq_false_2 by done. by rewrite update_bitwise.
  - unfold crc32c. rewrite bool_decide_eq_false_2 by done. by rewrite <- crc32c_update_app, <- app_assoc.
  - intros mid' ????. apply Forall_app in Hw as [? [??]%Forall_app]. by apply crc32c_burst.
Qed.

(** The check value of CRC-32C: the digits 1 to 9 in ASCII. *)
Lemma crc_exact_witness :
  crc32c [49; 50; 51; 52; 53; 54; 55; 56; 57] = 0xE3069283 ∧
  crc32c_bitwise [49; 50; 51; 52; 53; 54; 55; 56; 57] = 0xE3069283.
Proof.
  assert (E : crc32c [49; 50; 51; 52; 53; 54; 55; 56; 57] = 0xE3069283) by by vm_compute. split; [done|]. rewrite <- E. symmetry.
  refine (proj1 (crc_exact [49] [50; 51] [52; 53; 54; 55; 56; 57] _ _)); [|done]. apply (bool_decide_unpack _). by vm_compute.
Defined.

(** ** On-media formats *)

(** C21: The header written for an object is accepted by whoever expects that
    object (and generation, when asked) and read back field by field; a header
    accepted under any expectation names the expected key's identity, length
    and checksum, the payload size and the generation; the decoder never reads
    outside the buffer, whatever it holds; and a header changed inside any
    four bytes of the covered part is rejected. *)
Theorem header_fail_closed out key payload generation seq :
  (kHeaderBytes ≤ length out)%nat → wf_bytes out → key ≠ [] → wf_bytes key → Z.of_nat (length key) < 2 ^ 32 →
  payload ≠ 0 → fits 64 payload → fits 64 generation → fits 64 seq →
  ∃ d, encode_object_header out key payload generation seq = (true, d) ∧ length d = length out ∧
  (∀ check, decode_object_header d {| ex_key := key; ex_payload_bytes := payload; ex_generation := generation; ex_check_generation := check |} =
     Some (inr {| hf_identity := key_identity key; hf_payload_bytes := payload; hf_generation := generation; hf_commit_seq := seq;
                  hf_key_len := Z.of_nat (length key); hf_key_crc32 := key_crc32 key |})) ∧
  (∀ buf e, ∃ r, decode_object_header buf e = Some r ∧ ∀ f, r = inr f →
     hf_identity f = key_identity (ex_key e) ∧ hf_key_len f = Z.of_nat (length (ex_key e)) ∧ hf_key_crc32 f = key_crc32 (ex_key e) ∧
     hf_payload_bytes f = ex_payload_bytes e ∧ (ex_check_generation e = true → hf_generation f = ex_generation e)) ∧
  (∀ pre mid mid' post e, d = pre ++ mid ++ post → wf_bytes mid' → length mid = length mid' → (length mid ≤ 4)%nat → mid ≠ mid' →
     (length pre + length mid ≤ kCrcCoveredBytes)%nat → ∃ r, decode_object_header (pre ++ mid' ++ post) e = Some (inl r)).
Proof.
  intros Hl Hw Hk Fk Hkl Hp Fp Fg Fs. destruct (encode_ok out key payload generation seq Hl Hk Hp) as (d & E & Hd & En & Hwd).
  specialize (Hwd Hw). pose proof (encoded_structure _ _ _ _ _ En Hwd Fp Fg Fs Fk) as Hs.
  rewrite (wrap_small 32) in Hs by lia. exists d. split; [done|]. split; [done|]. split_and!.
  - intros check. rewrite decode_total. f_equal. unfold accepted. cbn [ex_key ex_payload_bytes].
    rewrite !bool_decide_eq_false_2, Hs by done. unfold check_expectation. cbn. rewrite !(bool_decide_eq_false_2 (_ ≠ _)) by (intros []; done).
    by rewrite andb_false_r.
  - intros buf e. rewrite decode_total. eexists. split; [done|]. intros f Ha. apply accepted_fields in Ha. tauto.
  - intros pre mid mid' post e -> Hm' Hlen Hle Hne Hcov. pose proof Hwd as Hwd2. apply Forall_app in Hwd2 as [? [??]%Forall_app].
    destruct (header_burst pre mid mid' post _ ltac:(done) ltac:(done) Hm' ltac:(done) Hlen Hle Hne Hcov Hs) as [r Hr].
    rewrite decode_total. unfold accepted. destruct (_ || _); [by eexists|]. rewrite Hr. by eexists.
Qed.

Lemma header_fail_closed_witness : ∃ d, encode_object_header (replicate kHeaderBytes 255) [7; 8] 4096 3 5 = (true, d) ∧
  decode_object_header d {| ex_key := [7; 8]; ex_payload_bytes := 4096; ex_generation := 3; ex_check_generation := true |} =
    Some (inr {| hf_identity := key_identity [7; 8]; hf_payload_bytes := 4096; hf_generation := 3; hf_commit_seq := 5;
                 hf_key_len := 2; hf_key_crc32 := key_crc32 [7; 8] |}).
Proof.
  destruct (header_fail_closed (replicate kHeaderBytes 255) [7; 8] 4096 3 5) as (d & E & _ & Hd & _).
  1: by rewrite length_replicate. 1: apply Forall_replicate; lia.
  all: try (apply (bool_decide_unpack _); by vm_compute).
  exists d. split; [exact E|]. exact (Hd true).
Defined.

(** C22: Reading back a checkpoint, with whatever follows it on the media,
    yields its sequence number and its entries, all of them and in order; the
    container sized for a number of entries and a key length holds every
    such checkpoint; and the decoder, given any bytes at all, never
    reads outside them and returns only well-formed entries. *)
Theorem checkpoint_codec es seq max_entries max_key pad :
  Forall entry_ok es → fits 64 seq → Z.of_nat (length es) ≤ max_entries →
  Forall (λ e, Z.of_nat (length (ce_key e)) ≤ max_key) es → 0 ≤ max_key → 8 + max_entries * (36 + max_key) + 8192 ≤ 2 ^ 64 →
  Z.of_nat (length (encode_checkpoint es seq ++ pad)) < 2 ^ 64 →
  decode_checkpoint (encode_checkpoint es seq ++ pad) = Some (inr (seq, es)) ∧
  Z.of_nat (length (encode_checkpoint es seq)) ≤ checkpoint_container_bytes max_entries max_key ∧
  ∀ data, wf_bytes data → Z.of_nat (length data) < 2 ^ 64 →
    ∃ r, decode_checkpoint data = Some r ∧ ∀ q l, r = inr (q, l) → Forall entry_ok l ∧ fits 64 q.
Proof.
  intros Hes Hseq Hn Hk Hm Hb Hl. split_and!.
  - pose proof (checkpoint_body_bound es max_entries max_key Hn Hk Hm). apply decode_encode; (done || lia).
  - by apply image_fits_container.
  - intros data Hw Hd. destruct (decode_checkpoint_total data Hw Hd) as [r Hr]. exists r. split; [done|].
    intros q l ->. by apply (decode_ok data).
Qed.

Definition demo_entries : list CheckpointEntry :=
  [{| ce_key := [1; 2]; ce_slot := 4; ce_payload_bytes := 4096; ce_generation := 1; ce_commit_seq := 9 |};
   {| ce_key := [3]; ce_slot := 0; ce_payload_bytes := 8; ce_generation := 0; ce_commit_seq := 2 |}].

Lemma demo_entries_ok : Forall entry_ok demo_entries.
Proof. repeat constructor; cbn; try done; try lia; by apply (bool_decide_unpack _). Qed.

Lemma checkpoint_codec_witness : decode_checkpoint (encode_checkpoint demo_entries 3) = Some (inr (3, demo_entries)).
Proof.
  rewrite <- (app_nil_r (encode_checkpoint demo_entries 3)).
  refine (proj1 (checkpoint_codec demo_entries 3 2 2 [] demo_entries_ok _ _ _ _ _ _)).
  all: apply (bool_decide_unpack _); by vm_compute.
Defined.

(** Setting or clearing a rank's residency bit changes the answer for that
    slot and for no other; a slot counts as resident everywhere exactly when
    every rank's bitmap is open and says so, and never when there are
    no ranks. *)
Theorem residency_exact d b path f slot t ranks : rb_base b = Some path → rb_writable b = true → files d !! path = Some f →
  0 ≤ slot < rb_slot_count b → 0 ≤ t < rb_slot_count b →
  test (set_bit b slot d).2 b t = (bool_decide (t = slot) || test d b t) ∧
  test (clear_bit b slot d).2 b t = (negb (bool_decide (t = slot)) && test d b t) ∧
  (all_ranks_committed d ranks slot = true ↔ ranks ≠ [] ∧ Forall (λ b, usable b = true ∧ test d b slot = true) ranks).
Proof.
  intros Hb Hw Hf Hs Ht. split_and!; [by eapply set_bit_exact|by eapply clear_bit_exact|apply all_ranks_spec].
Qed.

(** A bitmap of 20 slots, bit 9 set: 9 is there, 10 is not. *)
Definition demo_bitmap : ResidencyBitmap := {| rb_base := Some "/r"; rb_slot_count := 20; rb_writable := true |}.
Definition demo_bits : file := {| f_size := 8192; f_data := ∅; f_dirty := []; f_dev := 1; f_ino := 1 |}.
Definition demo_bits_disk : disk := {| files := {[ "/r" := demo_bits ]}; next_ino := 2; answers := [] |}.

Lemma residency_exact_witness :
  test (set_bit demo_bitmap 9 demo_bits_disk).2 demo_bitmap 9 = true ∧ test (set_bit demo_bitmap 9 demo_bits_disk).2 demo_bitmap 10 = false.
Proof.
  destruct (residency_exact demo_bits_disk demo_bitmap "/r" demo_bits 9 9 []) as [-> _]; [by vm_compute..|].
  destruct (residency_exact demo_bits_disk demo_bitmap "/r" demo_bits 9 10 []) as [-> _]; by vm_compute.
Defined.
