(* ===== verification/ObjStore.v ===== *)
(** * The object store (csrc/storage_objects/object_store_core.cpp)

    [ObjectStoreCore]: the index from keys to slots, the allocator, the pins,
    the residency bitmaps and the media below.  Every public operation is a
    program on [store]; the code runs each one under the store's lock, except
    that [precreate_step] gives the lock up while it builds files, which is why
    it comes in three parts.  A [Status] other than OK is [Err] with its code.
    An [unordered_map] is a finite map; where the code walks one, the walk is
    in the map's own order. *)
From stdpp Require Import sorting pretty.
From S2P Require Import Prelude Digest Bytes SlotPlace SpaceAlloc ObjHeader Checkpoint Media MediaSpec Residency.
Open Scope Z_scope.

(** ** Data *)
Record StoreConfig := {
  uri : string;
  capacity_slots : Z;
  capacity_bytes : Z;
  segment_bytes : Z;
  segment_count : Z;
  segment_file_slots : Z;
  segment_header_bytes : Z;
  namespace_fingerprint : bytes;
  devices : list string;
  rank_id : Z;
  rank_count : Z;
  read_only : bool;
}.

Definition layout_payload_bytes (c : StoreConfig) : Z := u64 (segment_bytes c * segment_count c).

Record Entry := {
  en_slot : Z;
  en_generation : Z;
  en_commit_seq : Z;
  en_committed : bool;
}.

#[export] Instance Entry_eq_dec : EqDecision Entry.
Proof. solve_decision. Defined.

Record RecoveryReport := {
  rr_entries : Z;
  rr_accepted : Z;
  rr_dropped_header : Z;
  rr_dropped_geometry : Z;
  rr_dropped_duplicate : Z;
  rr_available : bool;
}.

Record ObjectPlacement := {
  pl_uri : string;
  pl_offset : Z;
  pl_payload_bytes : Z;
  pl_slot : Z;
  pl_generation : Z;
}.

Record ReserveOutcome := {
  ro_accepted : list ObjectPlacement;
  ro_accepted_keys : list ObjectKey;
  ro_rejected_count : Z;
}.

Record StoreUsage := {
  us_capacity_bytes : Z;
  us_committed_bytes : Z;
  us_reserved_bytes : Z;
  us_reclaiming_bytes : Z;
  us_usable_bytes : Z;
  us_per_device_bytes : list Z;
}.

Record store := {
  media : disk;
  config_ : StoreConfig;
  opened_ : bool;
  placement_ : option FixedSegmentFilePlacement;
  slot_bytes_ : Z;
  mount_count_ : Z;
  precreated_ : Z;
  group_slots_ : Z;
  precreate_busy_ : bool;
  precreate_target_ : Z;
  commit_seq_ : Z;
  checkpoint_seq_ : Z;
  container_bytes_ : Z;
  checkpoint_dirty_ : bool;
  allocator_ : SpaceAllocator;
  index_ : gmap ObjectKey Entry;
  slot_owner_ : gmap Z ObjectKey;
  pins_ : gmap ObjectKey Z;
  own_residency_ : ResidencyBitmap;
  peer_residency_ : list ResidencyBitmap;
  recovery_ : RecoveryReport;
}.

#[export] Instance set_media : Setter media := λ f r,
  {| media := f (media r); config_ := config_ r; opened_ := opened_ r; placement_ := placement_ r; slot_bytes_ := slot_bytes_ r; mount_count_ := mount_count_ r; precreated_ := precreated_ r; group_slots_ := group_slots_ r; precreate_busy_ := precreate_busy_ r; precreate_target_ := precreate_target_ r; commit_seq_ := commit_seq_ r; checkpoint_seq_ := checkpoint_seq_ r; container_bytes_ := container_bytes_ r; checkpoint_dirty_ := checkpoint_dirty_ r; allocator_ := allocator_ r; index_ := index_ r; slot_owner_ := slot_owner_ r; pins_ := pins_ r; own_residency_ := own_residency_ r; peer_residency_ := peer_residency_ r; recovery_ := recovery_ r |}.
#[export] Instance set_config_ : Setter config_ := λ f r,
  {| media := media r; config_ := f (config_ r); opened_ := opened_ r; placement_ := placement_ r; slot_bytes_ := slot_bytes_ r; mount_count_ := mount_count_ r; precreated_ := precreated_ r; group_slots_ := group_slots_ r; precreate_busy_ := precreate_busy_ r; precreate_target_ := precreate_target_ r; commit_seq_ := commit_seq_ r; checkpoint_seq_ := checkpoint_seq_ r; container_bytes_ := container_bytes_ r; checkpoint_dirty_ := checkpoint_dirty_ r; allocator_ := allocator_ r; index_ := index_ r; slot_owner_ := slot_owner_ r; pins_ := pins_ r; own_residency_ := own_residency_ r; peer_residency_ := peer_residency_ r; recovery_ := recovery_ r |}.
#[export] Instance set_opened_ : Setter opened_ := λ f r,
  {| media := media r; config_ := config_ r; opened_ := f (opened_ r); placement_ := placement_ r; slot_bytes_ := slot_bytes_ r; mount_count_ := mount_count_ r; precreated_ := precreated_ r; group_slots_ := group_slots_ r; precreate_busy_ := precreate_busy_ r; precreate_target_ := precreate_target_ r; commit_seq_ := commit_seq_ r; checkpoint_seq_ := checkpoint_seq_ r; container_bytes_ := container_bytes_ r; checkpoint_dirty_ := checkpoint_dirty_ r; allocator_ := allocator_ r; index_ := index_ r; slot_owner_ := slot_owner_ r; pins_ := pins_ r; own_residency_ := own_residency_ r; peer_residency_ := peer_residency_ r; recovery_ := recovery_ r |}.
#[export] Instance set_placement_ : Setter placement_ := λ f r,
  {| media := media r; config_ := config_ r; opened_ := opened_ r; placement_ := f (placement_ r); slot_bytes_ := slot_bytes_ r; mount_count_ := mount_count_ r; precreated_ := precreated_ r; group_slots_ := group_slots_ r; precreate_busy_ := precreate_busy_ r; precreate_target_ := precreate_target_ r; commit_seq_ := commit_seq_ r; checkpoint_seq_ := checkpoint_seq_ r; container_bytes_ := container_bytes_ r; checkpoint_dirty_ := checkpoint_dirty_ r; allocator_ := allocator_ r; index_ := index_ r; slot_owner_ := slot_owner_ r; pins_ := pins_ r; own_residency_ := own_residency_ r; peer_residency_ := peer_residency_ r; recovery_ := recovery_ r |}.
#[export] Instance set_slot_bytes_ : Setter slot_bytes_ := λ f r,
  {| media := media r; config_ := config_ r; opened_ := opened_ r; placement_ := placement_ r; slot_bytes_ := f (slot_bytes_ r); mount_count_ := mount_count_ r; precreated_ := precreated_ r; group_slots_ := group_slots_ r; precreate_busy_ := precreate_busy_ r; precreate_target_ := precreate_target_ r; commit_seq_ := commit_seq_ r; checkpoint_seq_ := checkpoint_seq_ r; container_bytes_ := container_bytes_ r; checkpoint_dirty_ := checkpoint_dirty_ r; allocator_ := allocator_ r; index_ := index_ r; slot_owner_ := slot_owner_ r; pins_ := pins_ r; own_residency_ := own_residency_ r; peer_residency_ := peer_residency_ r; recovery_ := recovery_ r |}.
#[export] Instance set_mount_count_ : Setter mount_count_ := λ f r,
  {| media := media r; config_ := config_ r; opened_ := opened_ r; placement_ := placement_ r; slot_bytes_ := slot_bytes_ r; mount_count_ := f (mount_count_ r); precreated_ := precreated_ r; group_slots_ := group_slots_ r; precreate_busy_ := precreate_busy_ r; precreate_target_ := precreate_target_ r; commit_seq_ := commit_seq_ r; checkpoint_seq_ := checkpoint_seq_ r; container_bytes_ := container_bytes_ r; checkpoint_dirty_ := checkpoint_dirty_ r; allocator_ := allocator_ r; index_ := index_ r; slot_owner_ := slot_owner_ r; pins_ := pins_ r; own_residency_ := own_residency_ r; peer_residency_ := peer_residency_ r; recovery_ := recovery_ r |}.
#[export] Instance set_precreated_ : Setter precreated_ := λ f r,
  {| media := media r; config_ := config_ r; opened_ := opened_ r; placement_ := placement_ r; slot_bytes_ := slot_bytes_ r; mount_count_ := mount_count_ r; precreated_ := f (precreated_ r); group_slots_ := group_slots_ r; precreate_busy_ := precreate_busy_ r; precreate_target_ := precreate_target_ r; commit_seq_ := commit_seq_ r; checkpoint_seq_ := checkpoint_seq_ r; container_bytes_ := container_bytes_ r; checkpoint_dirty_ := checkpoint_dirty_ r; allocator_ := allocator_ r; index_ := index_ r; slot_owner_ := slot_owner_ r; pins_ := pins_ r; own_residency_ := own_residency_ r; peer_residency_ := peer_residency_ r; recovery_ := recovery_ r |}.
#[export] Instance set_group_slots_ : Setter group_slots_ := λ f r,
  {| media := media r; config_ := config_ r; opened_ := opened_ r; placement_ := placement_ r; slot_bytes_ := slot_bytes_ r; mount_count_ := mount_count_ r; precreated_ := precreated_ r; group_slots_ := f (group_slots_ r); precreate_busy_ := precreate_busy_ r; precreate_target_ := precreate_target_ r; commit_seq_ := commit_seq_ r; checkpoint_seq_ := checkpoint_seq_ r; container_bytes_ := container_bytes_ r; checkpoint_dirty_ := checkpoint_dirty_ r; allocator_ := allocator_ r; index_ := index_ r; slot_owner_ := slot_owner_ r; pins_ := pins_ r; own_residency_ := own_residency_ r; peer_residency_ := peer_residency_ r; recovery_ := recovery_ r |}.
#[export] Instance set_precreate_busy_ : Setter precreate_busy_ := λ f r,
  {| media := media r; config_ := config_ r; opened_ := opened_ r; placement_ := placement_ r; slot_bytes_ := slot_bytes_ r; mount_count_ := mount_count_ r; precreated_ := precreated_ r; group_slots_ := group_slots_ r; precreate_busy_ := f (precreate_busy_ r); precreate_target_ := precreate_target_ r; commit_seq_ := commit_seq_ r; checkpoint_seq_ := checkpoint_seq_ r; container_bytes_ := container_bytes_ r; checkpoint_dirty_ := checkpoint_dirty_ r; allocator_ := allocator_ r; index_ := index_ r; slot_owner_ := slot_owner_ r; pins_ := pins_ r; own_residency_ := own_residency_ r; peer_residency_ := peer_residency_ r; recovery_ := recovery_ r |}.
#[export] Instance set_precreate_target_ : Setter precreate_target_ := λ f r,
  {| media := media r; config_ := config_ r; opened_ := opened_ r; placement_ := placement_ r; slot_bytes_ := slot_bytes_ r; mount_count_ := mount_count_ r; precreated_ := precreated_ r; group_slots_ := group_slots_ r; precreate_busy_ := precreate_busy_ r; precreate_target_ := f (precreate_target_ r); commit_seq_ := commit_seq_ r; checkpoint_seq_ := checkpoint_seq_ r; container_bytes_ := container_bytes_ r; checkpoint_dirty_ := checkpoint_dirty_ r; allocator_ := allocator_ r; index_ := index_ r; slot_owner_ := slot_owner_ r; pins_ := pins_ r; own_residency_ := own_residency_ r; peer_residency_ := peer_residency_ r; recovery_ := recovery_ r |}.
#[export] Instance set_commit_seq_ : Setter commit_seq_ := λ f r,
  {| media := media r; config_ := config_ r; opened_ := opened_ r; placement_ := placement_ r; slot_bytes_ := slot_bytes_ r; mount_count_ := mount_count_ r; precreated_ := precreated_ r; group_slots_ := group_slots_ r; precreate_busy_ := precreate_busy_ r; precreate_target_ := precreate_target_ r; commit_seq_ := f (commit_seq_ r); checkpoint_seq_ := checkpoint_seq_ r; container_bytes_ := container_bytes_ r; checkpoint_dirty_ := checkpoint_dirty_ r; allocator_ := allocator_ r; index_ := index_ r; slot_owner_ := slot_owner_ r; pins_ := pins_ r; own_residency_ := own_residency_ r; peer_residency_ := peer_residency_ r; recovery_ := recovery_ r |}.
#[export] Instance set_checkpoint_seq_ : Setter checkpoint_seq_ := λ f r,
  {| media := media r; config_ := config_ r; opened_ := opened_ r; placement_ := placement_ r; slot_bytes_ := slot_bytes_ r; mount_count_ := mount_count_ r; precreated_ := precreated_ r; group_slots_ := group_slots_ r; precreate_busy_ := precreate_busy_ r; precreate_target_ := precreate_target_ r; commit_seq_ := commit_seq_ r; checkpoint_seq_ := f (checkpoint_seq_ r); container_bytes_ := container_bytes_ r; checkpoint_dirty_ := checkpoint_dirty_ r; allocator_ := allocator_ r; index_ := index_ r; slot_owner_ := slot_owner_ r; pins_ := pins_ r; own_residency_ := own_residency_ r; peer_residency_ := peer_residency_ r; recovery_ := recovery_ r |}.
#[export] Instance set_container_bytes_ : Setter container_bytes_ := λ f r,
  {| media := media r; config_ := config_ r; opened_ := opened_ r; placement_ := placement_ r; slot_bytes_ := slot_bytes_ r; mount_count_ := mount_count_ r; precreated_ := precreated_ r; group_slots_ := group_slots_ r; precreate_busy_ := precreate_busy_ r; precreate_target_ := precreate_target_ r; commit_seq_ := commit_seq_ r; checkpoint_seq_ := checkpoint_seq_ r; container_bytes_ := f (container_bytes_ r); checkpoint_dirty_ := checkpoint_dirty_ r; allocator_ := allocator_ r; index_ := index_ r; slot_owner_ := slot_owner_ r; pins_ := pins_ r; own_residency_ := own_residency_ r; peer_residency_ := peer_residency_ r; recovery_ := recovery_ r |}.
#[export] Instance set_checkpoint_dirty_ : Setter checkpoint_dirty_ := λ f r,
  {| media := media r; config_ := config_ r; opened_ := opened_ r; placement_ := placement_ r; slot_bytes_ := slot_bytes_ r; mount_count_ := mount_count_ r; precreated_ := precreated_ r; group_slots_ := group_slots_ r; precreate_busy_ := precreate_busy_ r; precreate_target_ := precreate_target_ r; commit_seq_ := commit_seq_ r; checkpoint_seq_ := checkpoint_seq_ r; container_bytes_ := container_bytes_ r; checkpoint_dirty_ := f (checkpoint_dirty_ r); allocator_ := allocator_ r; index_ := index_ r; slot_owner_ := slot_owner_ r; pins_ := pins_ r; own_residency_ := own_residency_ r; peer_residency_ := peer_residency_ r; recovery_ := recovery_ r |}.
#[export] Instance set_allocator_ : Setter allocator_ := λ f r,
  {| media := media r; config_ := config_ r; opened_ := opened_ r; placement_ := placement_ r; slot_bytes_ := slot_bytes_ r; mount_count_ := mount_count_ r; precreated_ := precreated_ r; group_slots_ := group_slots_ r; precreate_busy_ := precreate_busy_ r; precreate_target_ := precreate_target_ r; commit_seq_ := commit_seq_ r; checkpoint_seq_ := checkpoint_seq_ r; container_bytes_ := container_bytes_ r; checkpoint_dirty_ := checkpoint_dirty_ r; allocator_ := f (allocator_ r); index_ := index_ r; slot_owner_ := slot_owner_ r; pins_ := pins_ r; own_residency_ := own_residency_ r; peer_residency_ := peer_residency_ r; recovery_ := recovery_ r |}.
#[export] Instance set_index_ : Setter index_ := λ f r,
  {| media := media r; config_ := config_ r; opened_ := opened_ r; placement_ := placement_ r; slot_bytes_ := slot_bytes_ r; mount_count_ := mount_count_ r; precreated_ := precreated_ r; group_slots_ := group_slots_ r; precreate_busy_ := precreate_busy_ r; precreate_target_ := precreate_target_ r; commit_seq_ := commit_seq_ r; checkpoint_seq_ := checkpoint_seq_ r; container_bytes_ := container_bytes_ r; checkpoint_dirty_ := checkpoint_dirty_ r; allocator_ := allocator_ r; index_ := f (index_ r); slot_owner_ := slot_owner_ r; pins_ := pins_ r; own_residency_ := own_residency_ r; peer_residency_ := peer_residency_ r; recovery_ := recovery_ r |}.
#[export] Instance set_slot_owner_ : Setter slot_owner_ := λ f r,
  {| media := media r; config_ := config_ r; opened_ := opened_ r; placement_ := placement_ r; slot_bytes_ := slot_bytes_ r; mount_count_ := mount_count_ r; precreated_ := precreated_ r; group_slots_ := group_slots_ r; precreate_busy_ := precreate_busy_ r; precreate_target_ := precreate_target_ r; commit_seq_ := commit_seq_ r; checkpoint_seq_ := checkpoint_seq_ r; container_bytes_ := container_bytes_ r; checkpoint_dirty_ := checkpoint_dirty_ r; allocator_ := allocator_ r; index_ := index_ r; slot_owner_ := f (slot_owner_ r); pins_ := pins_ r; own_residency_ := own_residency_ r; peer_residency_ := peer_residency_ r; recovery_ := recovery_ r |}.
#[export] Instance set_pins_ : Setter pins_ := λ f r,
  {| media := media r; config_ := config_ r; opened_ := opened_ r; placement_ := placement_ r; slot_bytes_ := slot_bytes_ r; mount_count_ := mount_count_ r; precreated_ := precreated_ r; group_slots_ := group_slots_ r; precreate_busy_ := precreate_busy_ r; precreate_target_ := precreate_target_ r; commit_seq_ := commit_seq_ r; checkpoint_seq_ := checkpoint_seq_ r; container_bytes_ := container_bytes_ r; checkpoint_dirty_ := checkpoint_dirty_ r; allocator_ := allocator_ r; index_ := index_ r; slot_owner_ := slot_owner_ r; pins_ := f (pins_ r); own_residency_ := own_residency_ r; peer_residency_ := peer_residency_ r; recovery_ := recovery_ r |}.
#[export] Instance set_own_residency_ : Setter own_residency_ := λ f r,
  {| media := media r; config_ := config_ r; opened_ := opened_ r; placement_ := placement_ r; slot_bytes_ := slot_bytes_ r; mount_count_ := mount_count_ r; precreated_ := precreated_ r; group_slots_ := group_slots_ r; precreate_busy_ := precreate_busy_ r; precreate_target_ := precreate_target_ r; commit_seq_ := commit_seq_ r; checkpoint_seq_ := checkpoint_seq_ r; container_bytes_ := container_bytes_ r; checkpoint_dirty_ := checkpoint_dirty_ r; allocator_ := allocator_ r; index_ := index_ r; slot_owner_ := slot_owner_ r; pins_ := pins_ r; own_residency_ := f (own_residency_ r); peer_residency_ := peer_residency_ r; recovery_ := recovery_ r |}.
#[export] Instance set_peer_residency_ : Setter peer_residency_ := λ f r,
  {| media := media r; config_ := config_ r; opened_ := opened_ r; placement_ := placement_ r; slot_bytes_ := slot_bytes_ r; mount_count_ := mount_count_ r; precreated_ := precreated_ r; group_slots_ := group_slots_ r; precreate_busy_ := precreate_busy_ r; precreate_target_ := precreate_target_ r; commit_seq_ := commit_seq_ r; checkpoint_seq_ := checkpoint_seq_ r; container_bytes_ := container_bytes_ r; checkpoint_dirty_ := checkpoint_dirty_ r; allocator_ := allocator_ r; index_ := index_ r; slot_owner_ := slot_owner_ r; pins_ := pins_ r; own_residency_ := own_residency_ r; peer_residency_ := f (peer_residency_ r); recovery_ := recovery_ r |}.
#[export] Instance set_recovery_ : Setter recovery_ := λ f r,
  {| media := media r; config_ := config_ r; opened_ := opened_ r; placement_ := placement_ r; slot_bytes_ := slot_bytes_ r; mount_count_ := mount_count_ r; precreated_ := precreated_ r; group_slots_ := group_slots_ r; precreate_busy_ := precreate_busy_ r; precreate_target_ := precreate_target_ r; commit_seq_ := commit_seq_ r; checkpoint_seq_ := checkpoint_seq_ r; container_bytes_ := container_bytes_ r; checkpoint_dirty_ := checkpoint_dirty_ r; allocator_ := allocator_ r; index_ := index_ r; slot_owner_ := slot_owner_ r; pins_ := pins_ r; own_residency_ := own_residency_ r; peer_residency_ := peer_residency_ r; recovery_ := f (recovery_ r) |}.

Definition no_report : RecoveryReport :=
  {| rr_entries := 0; rr_accepted := 0; rr_dropped_header := 0; rr_dropped_geometry := 0; rr_dropped_duplicate := 0; rr_available := false |}.
Definition no_config : StoreConfig :=
  {| uri := EmptyString; capacity_slots := 0; capacity_bytes := 0; segment_bytes := 0; segment_count := 0; segment_file_slots := 0;
     segment_header_bytes := 0; namespace_fingerprint := []; devices := []; rank_id := 0; rank_count := 1; read_only := false |}.

(** A new process's object over the files it finds. *)
Definition new_store (d : disk) : store :=
  {| media := d; config_ := no_config; opened_ := false; placement_ := None; slot_bytes_ := 0; mount_count_ := 1; precreated_ := 0;
     group_slots_ := 0; precreate_busy_ := false; precreate_target_ := 0; commit_seq_ := 0; checkpoint_seq_ := 0; container_bytes_ := 0;
     checkpoint_dirty_ := false; allocator_ := new_allocator; index_ := ∅; slot_owner_ := ∅; pins_ := ∅;
     own_residency_ := closed_bitmap; peer_residency_ := []; recovery_ := no_report |}.

(** ** Plumbing *)
Definition on_disk {A} (m : M disk A) : M store A := λ s, let '(r, d) := m (media s) in (r, s <| media := d |>).

(** A call whose status the caller looks at instead of returning it. *)
Definition attempt {S A} (m : M S A) : M S (Z + A) := λ s,
  match m s with
  | (Ok a, s') => (Ok (inr a), s')
  | (Err e, s') => (Ok (inl e), s')
  | (Fault f, s') => (Fault f, s')
  end.

Definition the_placement : M store FixedSegmentFilePlacement := p ← gets placement_; from_opt NullDeref p.

Definition kMaxKeyBytes : Z := 256.
Definition checkpoint_entry_capacity (total : Z) : Z := total.

Definition fingerprint_digest_locked (s : store) : Z := object_identity (namespace_fingerprint (config_ s)).
Definition checkpoint_path_locked (s : store) : string := join (join (uri (config_ s)) "meta") "checkpoint.bin".
Definition residency_path_locked (rank : Z) (s : store) : string :=
  join (join (uri (config_ s)) "residency") (String.append "r" (String.append (pretty (Z.to_N rank)) ".bitmap")).

(** ** Placement *)

(** The distinct mount paths, in the order of their first device. *)
Definition distinct_mounts (l : list string) : list string :=
  foldl (λ mounts m, if bool_decide (m ∈ mounts) then mounts else mounts ++ [m]) [] l.

Definition build_backend_locked : M store unit :=
  c ← gets config_;
  guard_err (bool_decide (devices c = [])) INVALID_ARGUMENT;;
  guard_err (bool_decide (Exists (λ m, m = EmptyString) (devices c))) INVALID_ARGUMENT;;
  let mounts := distinct_mounts (devices c) in
  modify (λ s, s <| mount_count_ := Z.of_nat (length mounts) |>);;
  slot ← gets slot_bytes_;
  let segmented := make_placement mounts (String.append "r" (String.append (pretty (Z.to_N (rank_id c))) "/segments"))
                     slot (u64 (slot * segment_file_slots c)) (segment_header_bytes c) in
  guard_err (negb (geometry_valid segmented)) INVALID_ARGUMENT;;
  modify (λ s, s <| placement_ := Some segmented |>).

Definition placement_locked (p : FixedSegmentFilePlacement) (c : StoreConfig) (slot generation : Z) : ObjectPlacement :=
  {| pl_uri := uri_for_slot p slot; pl_offset := payload_offset_for_slot p slot; pl_payload_bytes := layout_payload_bytes c;
     pl_slot := slot; pl_generation := generation |}.

(** One segment directory per mount. *)
Definition ensure_layout_locked : M store unit :=
  c ← gets config_;
  on_disk (ensure_directory (uri c));;
  on_disk (ensure_directory (join (uri c) "meta"));;
  n ← gets mount_count_;
  total ← gets (λ s, total_slots (allocator_ s));
  p ← the_placement;
  for_each (λ slot, let path := path_for_slot p slot in
                    if bool_decide (slash ∈ chars path) then on_disk (ensure_directory (parent_of path)) else mret tt)
    (seqZ 0 (Z.min n total)).

(** ** File groups *)
Definition group_paths_locked (slot : Z) (s : store) (p : FixedSegmentFilePlacement) : list string :=
  let group_start := slot / group_slots_ s * group_slots_ s in
  map (path_for_slot p) (filter (λ first, first < total_slots (allocator_ s)) (map (λ dev, group_start + dev) (seqZ 0 (mount_count_ s)))).

Definition materialise_group (p : FixedSegmentFilePlacement) (paths : list string) : M disk unit :=
  for_each (λ path, materialise_segment_file path (fp_file_bytes p)) paths.

(** Whether every file of a group is ready; the first that is not ends the
    search. *)
Fixpoint group_ready (p : FixedSegmentFilePlacement) (paths : list string) : M disk bool :=
  match paths with
  | [] => mret true
  | path :: rest =>
      present ← segment_file_is_ready path (fp_file_bytes p);
      if (present : bool) then group_ready p rest else mret false
  end.

Fixpoint adopt_loop (fuel : nat) (p : FixedSegmentFilePlacement) : M store unit :=
  match fuel with
  | O => crash OutOfFuel
  | S fuel =>
      total ← gets (λ s, total_slots (allocator_ s));
      made ← gets precreated_;
      if bool_decide (total ≤ made) then mret tt else
      paths ← gets (λ s, group_paths_locked made s p);
      r ← on_disk (group_ready p paths);
      if negb r then mret tt else
      modify (λ s, s <| precreated_ := Z.min total (made + group_slots_ s) |>);;
      adopt_loop fuel p
  end.
Definition adopt_existing_groups_locked : M store unit :=
  p ← the_placement;
  n ← gets (λ s, total_slots (allocator_ s) - precreated_ s);
  adopt_loop (S (Z.to_nat n)) p.

(** ** Checkpoints *)

(** One container: its sequence number (0: empty or unreadable) and body. *)
Definition read_container (i : Z) : M store (Z * list CheckpointEntry) :=
  path ← gets checkpoint_path_locked;
  size ← gets container_bytes_;
  r ← attempt (on_disk (read_checkpoint_container path (checkpoint_container_offset i size) size));
  match r with
  | inl _ => mret (0, [])
  | inr buf =>
      decoded ← from_opt OutOfBounds (decode_checkpoint buf);
      mret match decoded with inl _ => (0, []) | inr (seq, entries) => (seq, entries) end
  end.

Definition read_container_sequences_locked : M store (list (Z * list CheckpointEntry)) :=
  c0 ← read_container 0; c1 ← read_container 1; mret [c0; c1].

(** The committed part of the index as checkpoint entries. *)
Definition checkpoint_entries (c : StoreConfig) (idx : gmap ObjectKey Entry) : list CheckpointEntry :=
  map (λ kv, {| ce_key := kv.1; ce_slot := en_slot kv.2; ce_payload_bytes := layout_payload_bytes c;
                ce_generation := en_generation kv.2; ce_commit_seq := en_commit_seq kv.2 |})
      (map_to_list (filter (λ kv, en_committed kv.2 = true) idx)).

Definition persist_checkpoint_locked : M store unit :=
  entries ← gets (λ s, checkpoint_entries (config_ s) (index_ s));
  containers ← read_container_sequences_locked;
  let sequences := map fst containers in
  let container := next_checkpoint_container sequences in
  let highest := foldr Z.max 0 sequences in
  seq ← gets checkpoint_seq_;
  let next_seq := u64 (Z.max seq highest + 1) in
  let image := encode_checkpoint entries next_seq in
  size ← gets container_bytes_;
  guard_err (bool_decide (size < Z.of_nat (length image))) INTERNAL;;
  path ← gets checkpoint_path_locked;
  let padded := fill image (replicate (Z.to_nat size) 0) in
  on_disk (write_checkpoint_container path (checkpoint_container_offset (Z.of_nat container) size) padded);;
  modify (λ s, s <| checkpoint_seq_ := next_seq |> <| checkpoint_dirty_ := false |>).

Definition checkpoint : M store unit :=
  c ← gets config_;
  guard_err (read_only c) UNSUPPORTED;;
  opened ← gets opened_;
  guard_err (negb opened) NOT_READY;;
  persist_checkpoint_locked;;
  own ← gets own_residency_;
  attempt (on_disk (Residency.sync own)) ≫= λ _, mret tt.

(** ** Recovery *)
Inductive verdict := DropGeometry | DropDuplicate | DropHeader | Accept (e : Entry).

(** What recovery decides about one checkpoint entry. *)
Definition judge_entry (p : FixedSegmentFilePlacement) (e : CheckpointEntry) : M store verdict :=
  s ← gets id;
  if bool_decide (total_slots (allocator_ s) ≤ ce_slot e) || bool_decide (ce_payload_bytes e ≠ layout_payload_bytes (config_ s))
  then mret DropGeometry else
  if bool_decide (is_Some (index_ s !! ce_key e)) || bool_decide (is_Some (slot_owner_ s !! ce_slot e))
  then mret DropDuplicate else
  r ← attempt (on_disk (read_object_header (path_for_slot p (ce_slot e)) (header_offset_for_slot p (ce_slot e)) (Z.of_nat kHeaderBytes)));
  match r with
  | inl _ => mret DropHeader
  | inr header =>
      decoded ← from_opt OutOfBounds (decode_object_header header
        {| ex_key := ce_key e; ex_payload_bytes := ce_payload_bytes e; ex_generation := ce_generation e; ex_check_generation := true |});
      mret match decoded with
           | inl _ => DropHeader
           | inr fields => Accept {| en_slot := ce_slot e; en_generation := ce_generation e; en_commit_seq := hf_commit_seq fields;
                                     en_committed := true |}
           end
  end.

Definition add_report (v : verdict) (r : RecoveryReport) : RecoveryReport :=
  {| rr_entries := rr_entries r; rr_available := rr_available r;
     rr_accepted := rr_accepted r + match v with Accept _ => 1 | _ => 0 end;
     rr_dropped_header := rr_dropped_header r + match v with DropHeader => 1 | _ => 0 end;
     rr_dropped_geometry := rr_dropped_geometry r + match v with DropGeometry => 1 | _ => 0 end;
     rr_dropped_duplicate := rr_dropped_duplicate r + match v with DropDuplicate => 1 | _ => 0 end |}.

(** The loop over the entries: the accepted slots and the highest commit
    number seen. *)
Fixpoint recover_loop (p : FixedSegmentFilePlacement) (entries : list CheckpointEntry) (to_commit : list Z) (highest : Z) : M store (list Z * Z) :=
  match entries with
  | [] => mret (to_commit, highest)
  | e :: rest =>
      v ← judge_entry p e;
      modify (λ s, s <| recovery_ ::= add_report v |>);;
      match v with
      | Accept live =>
          modify (λ s, s <| index_ ::= <[ce_key e := live]> |> <| slot_owner_ ::= <[ce_slot e := ce_key e]> |>);;
          recover_loop p rest (to_commit ++ [ce_slot e]) (Z.max highest (en_commit_seq live))
      | _ => recover_loop p rest to_commit highest
      end
  end.

(** Move the recovered slots through the allocator. *)
Definition claim_slots (to_commit : list Z) (a : SpaceAllocator) : SpaceAllocator :=
  match last (merge_sort Z.le to_commit) with
  | None => a
  | Some top =>
      let '(claimed, a1) := SpaceAlloc.reserve (top + 1) a in
      let gaps := filter (λ slot, slot ∉ to_commit) (rs_slots claimed) in
      let a2 := SpaceAlloc.commit (merge_sort Z.le to_commit) a1 in
      if bool_decide (gaps = []) then a2 else SpaceAlloc.abort gaps a2
  end.

(** The bits of the recovered objects, in the map's order. *)
Definition rebuild_residency : M store unit :=
  own ← gets own_residency_;
  if negb (usable own) then mret tt else
  on_disk (clear_all own);;
  slots ← gets (λ s, map (λ kv, en_slot kv.2) (map_to_list (filter (λ kv, en_committed kv.2 = true) (index_ s))));
  for_each (λ slot, on_disk (set_bit own slot)) slots.

Definition load_checkpoint_locked : M store unit :=
  modify (λ s, s <| recovery_ := no_report |>);;
  containers ← read_container_sequences_locked;
  match select_checkpoint_container (map fst containers) with
  | None => mret tt
  | Some chosen =>
      chosen ← from_opt OutOfBounds (containers !! chosen);
      modify (λ s, s <| checkpoint_seq_ := fst chosen |>
                     <| recovery_ := {| rr_entries := Z.of_nat (length (snd chosen)); rr_accepted := 0; rr_dropped_header := 0;
                                        rr_dropped_geometry := 0; rr_dropped_duplicate := 0; rr_available := true |} |>);;
      p ← the_placement;
      r ← recover_loop p (snd chosen) [] 0;
      let '(to_commit, highest) := r in
      modify (λ s, s <| commit_seq_ ::= Z.max highest |>);;
      modify (λ s, s <| allocator_ ::= claim_slots to_commit |>);;
      rebuild_residency
  end.

Definition recover (s : store) : option (list ObjectKey) :=
  if opened_ s then Some (map fst (map_to_list (filter (λ kv, en_committed kv.2 = true) (index_ s)))) else None.

(** ** Opening and closing *)

(** The argument checks of [open], before it touches the object. *)
Definition config_rejected (c : StoreConfig) : bool :=
  bool_decide (uri c = EmptyString) || bool_decide (segment_bytes c = 0) || bool_decide (segment_count c = 0)
  || bool_decide (segment_bytes c `mod` 4096 ≠ 0) || bool_decide (segment_file_slots c = 0)
  || bool_decide (segment_header_bytes c < Z.of_nat kHeaderBytes) || bool_decide (segment_header_bytes c `mod` 4096 ≠ 0)
  || bool_decide (UINT64_MAX - segment_header_bytes c < layout_payload_bytes c)
  || bool_decide (UINT64_MAX / (segment_header_bytes c + layout_payload_bytes c) < segment_file_slots c).

Definition same_namespace (c c' : StoreConfig) : bool :=
  bool_decide (segment_bytes c = segment_bytes c') && bool_decide (segment_count c = segment_count c')
  && bool_decide (segment_file_slots c = segment_file_slots c') && bool_decide (segment_header_bytes c = segment_header_bytes c')
  && bool_decide (namespace_fingerprint c = namespace_fingerprint c') && bool_decide (uri c = uri c').

Definition configure_locked (c : StoreConfig) : M store unit :=
  slot ← gets slot_bytes_;
  ok ← (λ s, let '(ok, a) := configure {| cfg_capacity_bytes := if bool_decide (0 < capacity_slots c) then u64 (capacity_slots c * slot)
                                                              else capacity_bytes c;
                                          cfg_slot_bytes := slot |} (allocator_ s) in
             (Ok ok, s <| allocator_ := a |>)) : M store bool;
  guard_err (negb ok) INVALID_ARGUMENT;;
  n ← gets mount_count_;
  guard_err (bool_decide (UINT64_MAX / n < segment_file_slots c)) INVALID_ARGUMENT;;
  modify (λ s, s <| group_slots_ := segment_file_slots c * n |>).

Definition open_metadata (c : StoreConfig) : M store unit :=
  when (negb (read_only c)) ensure_layout_locked;;
  total ← gets (λ s, total_slots (allocator_ s));
  modify (λ s, s <| container_bytes_ := checkpoint_container_bytes (checkpoint_entry_capacity total) kMaxKeyBytes |>);;
  size ← gets container_bytes_;
  path ← gets checkpoint_path_locked;
  when (negb (read_only c)) (on_disk (ensure_metadata_file path (u64 (size * Z.of_nat kContainerCount))));;
  load_checkpoint_locked.

(** A writer adopts the groups on media, or builds the first one. *)
Definition open_groups : M store unit :=
  adopt_existing_groups_locked;;
  made ← gets precreated_;
  when (bool_decide (made = 0))
    (p ← the_placement;
     paths ← gets (λ s, group_paths_locked 0 s p);
     on_disk (materialise_group p paths);;
     modify (λ s, s <| precreated_ := Z.min (group_slots_ s) (total_slots (allocator_ s)) |>));;
  modify (λ s, s <| allocator_ ::= set_ready_limit (precreated_ s) |>).

(** [(void)bitmap.open_...]: a bitmap that cannot be opened stays closed. *)
Definition try_bitmap (m : M disk ResidencyBitmap) : M store ResidencyBitmap :=
  r ← attempt (on_disk m);
  mret match r with inr b => b | inl _ => closed_bitmap end.

Fixpoint open_peers (ranks : list Z) (own count slots digest : Z) : M store (list ResidencyBitmap) :=
  match ranks with
  | [] => mret []
  | rank :: rest =>
      b ← (if bool_decide (rank = own) then mret closed_bitmap else
           path ← gets (residency_path_locked rank);
           try_bitmap (open_readonly path count slots digest));
      bs ← open_peers rest own count slots digest;
      mret (b :: bs)
  end.

Definition open_residency (c : StoreConfig) : M store unit :=
  slots ← gets (λ s, total_slots (allocator_ s));
  digest ← gets fingerprint_digest_locked;
  when (negb (read_only c)) (on_disk (ensure_directory (join (uri c) "residency")));;
  path ← gets (residency_path_locked (rank_id c));
  own ← try_bitmap (if read_only c then open_readonly path (rank_count c) slots digest
                    else open_writable path (rank_id c) (rank_count c) slots digest);
  modify (λ s, s <| own_residency_ := own |>);;
  peers ← open_peers (seqZ 0 (rank_count c)) (rank_id c) (rank_count c) slots digest;
  modify (λ s, s <| peer_residency_ := peers |>).

Definition open (c : StoreConfig) : M store unit :=
  guard_err (config_rejected c) INVALID_ARGUMENT;;
  opened ← gets opened_;
  if (opened : bool) then
    old ← gets config_;
    guard_err (negb (same_namespace c old)) INVALID_ARGUMENT
  else
    modify (λ s, s <| config_ := c |> <| slot_bytes_ := segment_header_bytes c + layout_payload_bytes c |>);;
    build_backend_locked;;
    configure_locked c;;
    open_metadata c;;
    when (negb (read_only c)) open_groups;;
    when (bool_decide (1 < rank_count c)) (open_residency c);;
    modify (λ s, s <| opened_ := true |>).

Definition close : M store unit :=
  opened ← gets opened_;
  if negb opened then mret tt else
  dirty ← gets checkpoint_dirty_;
  status ← (if (dirty : bool) then attempt persist_checkpoint_locked else mret (inr tt));
  own ← gets own_residency_;
  attempt (on_disk (Residency.sync own)) ≫= λ _,
  modify (λ s, s <| own_residency_ := closed_bitmap |> <| peer_residency_ := [] |> <| opened_ := false |>);;
  match status with inl e => fail e | inr _ => mret tt end.

(** ** Queries *)
Definition contains (key : ObjectKey) (s : store) : bool :=
  match index_ s !! key with Some e => en_committed e | None => false end.

Fixpoint prefix_length (hit : ObjectKey → bool) (keys : list ObjectKey) : Z :=
  match keys with [] => 0 | k :: rest => if hit k then 1 + prefix_length hit rest else 0 end.

Definition contains_prefix (keys : list ObjectKey) (s : store) : Z := prefix_length (λ k, contains k s) keys.

Definition rank_bitmaps (s : store) : list ResidencyBitmap :=
  map (λ rank, if bool_decide (rank = rank_id (config_ s)) then own_residency_ s
               else default closed_bitmap (peer_residency_ s !! Z.to_nat rank)) (seqZ 0 (rank_count (config_ s))).

Definition contains_prefix_all_ranks (keys : list ObjectKey) (s : store) : Z :=
  if bool_decide (rank_count (config_ s) ≤ 1) || negb (usable (own_residency_ s)) then contains_prefix keys s else
  let ranks := rank_bitmaps s in
  prefix_length (λ k, match index_ s !! k with
                      | Some e => en_committed e && all_ranks_committed (media s) ranks (en_slot e)
                      | None => false
                      end) keys.

Definition lookup (key : ObjectKey) : M store ObjectPlacement :=
  e ← gets (λ s, index_ s !! key);
  match e with
  | Some e =>
      if en_committed e then
        p ← the_placement; c ← gets config_;
        mret (placement_locked p c (en_slot e) (en_generation e))
      else fail NOT_FOUND
  | None => fail NOT_FOUND
  end.

Definition usage (s : store) : StoreUsage :=
  let st := stats (allocator_ s) in
  let used := st_committed_slots st + st_reserved_slots st + st_reclaiming_slots st in
  {| us_capacity_bytes := u64 (st_total_slots st * slot_bytes_ s);
     us_committed_bytes := u64 (st_committed_slots st * slot_bytes_ s);
     us_reserved_bytes := u64 (st_reserved_slots st * slot_bytes_ s);
     us_reclaiming_bytes := u64 (st_reclaiming_slots st * slot_bytes_ s);
     us_usable_bytes := u64 ((st_free_slots st + st_unmaterialised_slots st) * slot_bytes_ s);
     us_per_device_bytes :=
       if bool_decide (0 < mount_count_ s)
       then map (λ d, u64 (used / mount_count_ s * slot_bytes_ s + if bool_decide (d < used `mod` mount_count_ s) then slot_bytes_ s else 0))
                (seqZ 0 (mount_count_ s))
       else [] |}.

Definition ready_slots (s : store) : Z := if opened_ s then precreated_ s else 0.
Definition slot_uri (slot : Z) (s : store) : string :=
  match placement_ s with
  | Some p => if opened_ s && bool_decide (slot < total_slots (allocator_ s)) then uri_for_slot p slot else EmptyString
  | None => EmptyString
  end.
Definition slot_generation (slot : Z) (s : store) : Z :=
  if opened_ s && bool_decide (slot < total_slots (allocator_ s)) then generation_of (allocator_ s) slot else 0.

(** ** The write path *)
Definition alloc_reserve (count : Z) : M store SlotReservation := λ s,
  let '(out, a) := SpaceAlloc.reserve count (allocator_ s) in (Ok out, s <| allocator_ := a |>).

Definition add_accepted (p : ObjectPlacement) (k : ObjectKey) (out : ReserveOutcome) : ReserveOutcome :=
  {| ro_accepted := ro_accepted out ++ [p]; ro_accepted_keys := ro_accepted_keys out ++ [k]; ro_rejected_count := ro_rejected_count out |}.
Definition add_rejected (n : Z) (out : ReserveOutcome) : ReserveOutcome :=
  {| ro_accepted := ro_accepted out; ro_accepted_keys := ro_accepted_keys out; ro_rejected_count := ro_rejected_count out + n |}.
Definition no_outcome : ReserveOutcome := {| ro_accepted := []; ro_accepted_keys := []; ro_rejected_count := 0 |}.

Fixpoint reserve_keys (keys : list ObjectKey) (out : ReserveOutcome) : M store ReserveOutcome :=
  match keys with
  | [] => mret out
  | k :: rest =>
      if bool_decide (k = []) || bool_decide (kMaxKeyBytes < Z.of_nat (length k)) then reserve_keys rest (add_rejected 1 out) else
      existing ← gets (λ s, index_ s !! k);
      p ← the_placement; c ← gets config_;
      match existing with
      | Some e => reserve_keys rest (add_accepted (placement_locked p c (en_slot e) (en_generation e)) k out)
      | None =>
          got ← alloc_reserve 1;
          match rs_slots got, rs_generations got with
          | slot :: _, generation :: _ =>
              modify (λ s, s <| index_ ::= <[k := {| en_slot := slot; en_generation := generation; en_commit_seq := 0; en_committed := false |}]> |>
                             <| slot_owner_ ::= <[slot := k]> |>);;
              reserve_keys rest (add_accepted (placement_locked p c slot generation) k out)
          | _, _ => mret (add_rejected (Z.of_nat (length keys)) out)
          end
      end
  end.

Definition writable : M store unit := c ← gets config_; guard_err (read_only c) UNSUPPORTED.
Definition ready : M store unit := o ← gets opened_; guard_err (negb o) NOT_READY.

Definition reserve (keys : list ObjectKey) : M store ReserveOutcome := writable;; ready;; reserve_keys keys no_outcome.

Definition write_header_locked (slot : Z) (key : ObjectKey) (generation commit_seq : Z) : M store unit :=
  c ← gets config_;
  p ← the_placement;
  let '(ok, header) := encode_object_header (replicate kHeaderBytes 0) key (layout_payload_bytes c) generation commit_seq in
  guard_err (negb ok) INVALID_ARGUMENT;;
  on_disk (write_object_header (path_for_slot p slot) (header_offset_for_slot p slot) header).

(** The loop of [commit]: a header that cannot be written ends it at once. *)
Fixpoint commit_keys (keys : list ObjectKey) (committed : list Z) : M store (list Z) :=
  match keys with
  | [] => mret committed
  | k :: rest =>
      e ← gets (λ s, index_ s !! k);
      match e with
      | Some e =>
          if en_committed e then commit_keys rest committed else
          modify (λ s, s <| commit_seq_ ::= λ q, u64 (q + 1) |>);;
          seq ← gets commit_seq_;
          write_header_locked (en_slot e) k (en_generation e) seq;;
          modify (λ s, s <| index_ ::= <[k := {| en_slot := en_slot e; en_generation := en_generation e; en_commit_seq := seq; en_committed := true |}]> |>);;
          own ← gets own_residency_;
          on_disk (set_bit own (en_slot e));;
          commit_keys rest (committed ++ [en_slot e])
      | None => commit_keys rest committed
      end
  end.

Definition commit (keys : list ObjectKey) : M store unit :=
  writable;; ready;;
  slots ← commit_keys keys [];
  when (negb (bool_decide (slots = [])))
    (modify (λ s, s <| allocator_ ::= SpaceAlloc.commit slots |> <| checkpoint_dirty_ := true |>)).

Fixpoint abort_keys (keys : list ObjectKey) (slots : list Z) : M store (list Z) :=
  match keys with
  | [] => mret slots
  | k :: rest =>
      e ← gets (λ s, index_ s !! k);
      match e with
      | Some e =>
          if en_committed e then abort_keys rest slots else
          modify (λ s, s <| slot_owner_ ::= delete (en_slot e) |> <| index_ ::= delete k |>);;
          abort_keys rest (slots ++ [en_slot e])
      | None => abort_keys rest slots
      end
  end.
Definition abort (keys : list ObjectKey) : M store unit :=
  writable;;
  slots ← abort_keys keys [];
  when (negb (bool_decide (slots = []))) (modify (λ s, s <| allocator_ ::= SpaceAlloc.abort slots |>)).

(** ** Release and pins *)
Definition pinned (k : ObjectKey) (s : store) : bool := match pins_ s !! k with Some n => bool_decide (0 < n) | None => false end.

Fixpoint release_keys (keys : list ObjectKey) (slots : list Z) : M store (list Z) :=
  match keys with
  | [] => mret slots
  | k :: rest =>
      e ← gets (λ s, index_ s !! k);
      match e with
      | Some e =>
          held ← gets (pinned k);
          if negb (en_committed e) || held then release_keys rest slots else
          own ← gets own_residency_;
          on_disk (clear_bit own (en_slot e));;
          modify (λ s, s <| slot_owner_ ::= delete (en_slot e) |> <| index_ ::= delete k |>);;
          release_keys rest (slots ++ [en_slot e])
      | None => release_keys rest slots
      end
  end.
Definition release (keys : list ObjectKey) : M store Z :=
  writable;;
  slots ← release_keys keys [];
  when (negb (bool_decide (slots = [])))
    (modify (λ s, s <| allocator_ ::= λ a, (SpaceAlloc.release slots a).2 |> <| checkpoint_dirty_ := true |>));;
  mret (Z.of_nat (length slots)).

Definition pin (keys : list ObjectKey) : M store unit :=
  writable;; for_each (λ k, modify (λ s, s <| pins_ ::= λ m, <[k := u32 (default 0 (m !! k) + 1)]> m |>)) keys.

Definition unpin_key (k : ObjectKey) (m : gmap ObjectKey Z) : gmap ObjectKey Z :=
  match m !! k with
  | None => m
  | Some n => let n := if bool_decide (0 < n) then n - 1 else n in if bool_decide (n = 0) then delete k m else <[k := n]> m
  end.
Definition unpin (keys : list ObjectKey) : M store unit :=
  writable;; for_each (λ k, modify (λ s, s <| pins_ ::= unpin_key k |>)) keys.

(** ** Reclamation *)
Fixpoint zero_slots (p : FixedSegmentFilePlacement) (size : Z) (taken done failed : list Z) : M disk (list Z * list Z) :=
  match taken with
  | [] => mret (done, failed)
  | slot :: rest =>
      r ← attempt (zero_file_range (path_for_slot p slot) (header_offset_for_slot p slot) size);
      match r with
      | inl _ => zero_slots p size rest done (failed ++ [slot])
      | inr _ => zero_slots p size rest (done ++ [slot]) failed
      end
  end.

Definition drain_reclaim (max : Z) : M store Z :=
  taken ← (λ s, let '(t, a) := take_reclaimable max (allocator_ s) in (Ok t, s <| allocator_ := a |>)) : M store (list Z);
  if bool_decide (taken = []) then mret 0 else
  p ← the_placement;
  size ← gets slot_bytes_;
  r ← on_disk (zero_slots p size taken [] []);
  let '(done, failed) := r in
  when (negb (bool_decide (failed = []))) (modify (λ s, s <| allocator_ ::= requeue_reclaim failed |>));;
  when (negb (bool_decide (done = []))) (modify (λ s, s <| allocator_ ::= finish_reclaim done |>));;
  mret (Z.of_nat (length done)).

(** ** Growth: [precreate_step] up to the point where it drops the lock, the
    file work without it, and the part after it takes the lock again. *)
Definition precreate_begin (headroom : Z) : M store (option (Z * Z * list string)) :=
  ready;;
  s ← gets id;
  if read_only (config_ s) then mret None else
  let total := total_slots (allocator_ s) in
  let frontier := total - st_unmaterialised_slots (stats (allocator_ s)) in
  let wanted := if bool_decide (total - frontier ≤ headroom) then total else frontier + headroom in
  let rounded := u64 (u64 (wanted + group_slots_ s - 1) / group_slots_ s * group_slots_ s) in
  modify (λ s, s <| precreate_target_ := Z.min total rounded |>);;
  if precreate_busy_ s || bool_decide (Z.min total rounded ≤ precreated_ s) then mret None else
  p ← the_placement;
  let start := precreated_ s in
  modify (λ s, s <| precreate_busy_ := true |>);;
  mret (Some (start, Z.min total (u64 (start + group_slots_ s)), group_paths_locked start s p)).

Definition precreate_build (paths : list string) : M store (Z + unit) :=
  p ← the_placement; attempt (on_disk (materialise_group p paths)).

Definition precreate_end (finish : Z) (made : Z + unit) : M store unit :=
  modify (λ s, s <| precreate_busy_ := false |>);;
  match made with
  | inr _ => modify (λ s, s <| precreated_ := finish |>);; modify (λ s, s <| allocator_ ::= set_ready_limit (precreated_ s) |>)
  | inl e => fail e
  end.

Definition precreate_step (headroom : Z) : M store Z :=
  job ← precreate_begin headroom;
  match job with
  | None => mret 0
  | Some (start, finish, paths) =>
      made ← precreate_build paths;
      precreate_end finish made;;
      mret (finish - start)
  end.
