(* ===== verification/ObjStoreInv.v ===== *)
(** * Consistency of the object store

    Keys own distinct slots, the reverse map agrees, the allocator holds every
    owned slot, and every object the index calls committed has its header on
    the media, synced.  Every operation keeps this on each of its outcomes:
    success, error, or a crash in the middle of an I/O. *)
From stdpp Require Import sorting pretty.
From S2P Require Import Prelude Digest Bytes SlotPlace SpaceAlloc ObjHeader Checkpoint Media MediaSpec Residency ObjStore.
Open Scope Z_scope.

(** ** The memory side *)
Definition owned_state (a : SpaceAllocator) (e : Entry) : Prop :=
  0 ≤ en_slot e ∧ (state_at a (en_slot e) = kReserved ∨ (state_at a (en_slot e) = kCommitted ∧ en_committed e = true)).

Record entry_wf (k : ObjectKey) (e : Entry) : Prop := {
  ew_key : k ≠ [] ∧ Z.of_nat (length k) < 2 ^ 32 ∧ wf_bytes k;
  ew_gen : fits 64 (en_generation e);
  ew_seq : fits 64 (en_commit_seq e);
}.

Record index_inv (a : SpaceAllocator) (idx : gmap ObjectKey Entry) (owner : gmap Z ObjectKey) : Prop := {
  ii_owner : ∀ k e, idx !! k = Some e → owner !! en_slot e = Some k;
  ii_back : ∀ slot k, owner !! slot = Some k → ∃ e, idx !! k = Some e ∧ en_slot e = slot;
  ii_state : ∀ k e, idx !! k = Some e → owned_state a e;
  ii_wf : ∀ k e, idx !! k = Some e → entry_wf k e;
}.

Lemma index_inj a idx owner k k' e e' : index_inv a idx owner → idx !! k = Some e → idx !! k' = Some e' → en_slot e = en_slot e' → k = k'.
Proof. intros H Hk Hk' E. apply (ii_owner _ _ _ H) in Hk, Hk'. congruence. Qed.

Definition gens_fit (a : SpaceAllocator) : Prop := ∀ s, fits 64 (generation_at a s).

Record store_inv (s : store) : Prop := {
  si_alloc : alloc_inv (allocator_ s);
  si_gens : gens_fit (allocator_ s);
  si_index : index_inv (allocator_ s) (index_ s) (slot_owner_ s);
  si_seq : fits 64 (commit_seq_ s);
}.

(** States the allocator keeps for the owned slots. *)
Lemma index_inv_states a a' idx owner : (∀ k e, idx !! k = Some e → owned_state a e → owned_state a' e) →
  index_inv a idx owner → index_inv a' idx owner.
Proof. intros H [H1 H2 H3 H4]. split; try done. intros k e Hk. by apply (H k e Hk), (H3 k). Qed.

(** A key taken out of both maps. *)
Lemma index_inv_remove a idx owner k e : idx !! k = Some e → index_inv a idx owner →
  index_inv a (delete k idx) (delete (en_slot e) owner).
Proof.
  intros Hk H. split.
  - intros k' e' [Hne Hk']%lookup_delete_Some. rewrite lookup_delete_ne; [by apply (ii_owner _ _ _ H)|].
    intros E. apply Hne. by apply (index_inj _ _ _ k k' e e' H).
  - intros slot k' [Hne Hs]%lookup_delete_Some. destruct (ii_back _ _ _ H slot k' Hs) as (e' & Hk' & <-).
    exists e'. split; [|done]. rewrite lookup_delete_ne; [done|]. intros <-. congruence.
  - intros k' e' [_ Hk']%lookup_delete_Some. by apply (ii_state _ _ _ H k').
  - intros k' e' [_ Hk']%lookup_delete_Some. by apply (ii_wf _ _ _ H k').
Qed.

(** A fresh key bound to an unowned slot. *)
Lemma index_inv_add a idx owner k e : idx !! k = None → owner !! en_slot e = None → owned_state a e → entry_wf k e →
  index_inv a idx owner → index_inv a (<[k := e]> idx) (<[en_slot e := k]> owner).
Proof.
  intros Hk Ho Hs Hw H. split.
  - intros k' e' [[<- <-]|[Hne Hk']]%lookup_insert_Some; [by rewrite lookup_insert_eq|].
    rewrite lookup_insert_ne; [by apply (ii_owner _ _ _ H)|]. intros E. apply (ii_owner _ _ _ H) in Hk'. congruence.
  - intros slot k' [[<- <-]|[Hne Hs']]%lookup_insert_Some; [exists e; by rewrite lookup_insert_eq|].
    destruct (ii_back _ _ _ H slot k' Hs') as (e' & Hk' & <-). exists e'. split; [|done]. rewrite lookup_insert_ne; [done|congruence].
  - intros k' e' [[<- <-]|[_ Hk']]%lookup_insert_Some; [done|]. by apply (ii_state _ _ _ H k').
  - intros k' e' [[<- <-]|[_ Hk']]%lookup_insert_Some; [done|]. by apply (ii_wf _ _ _ H k').
Qed.

(** An entry that becomes committed in place. *)
Lemma index_inv_commit a idx owner k e seq : idx !! k = Some e → fits 64 seq → index_inv a idx owner →
  index_inv a (<[k := {| en_slot := en_slot e; en_generation := en_generation e; en_commit_seq := seq; en_committed := true |}]> idx) owner.
Proof.
  intros Hk Hq H. split.
  - intros k' e' [[<- <-]|[Hne Hk']]%lookup_insert_Some; [by apply (ii_owner _ _ _ H k e)|by apply (ii_owner _ _ _ H)].
  - intros slot k' Hs. destruct (ii_back _ _ _ H slot k' Hs) as (e' & Hk' & <-). destruct (decide (k = k')) as [<-|].
    + rewrite lookup_insert_eq. eexists. split; [done|]. cbn. congruence.
    + rewrite lookup_insert_ne by done. by exists e'.
  - intros k' e' [[<- <-]|[_ Hk']]%lookup_insert_Some; [|by apply (ii_state _ _ _ H k')].
    destruct (ii_state _ _ _ H k e Hk) as [H0 [Hst|[Hst _]]]; split; cbn; auto.
  - intros k' e' [[<- <-]|[_ Hk']]%lookup_insert_Some; [|by apply (ii_wf _ _ _ H k')].
    destruct (ii_wf _ _ _ H k e Hk) as [W1 W2 W3]. by split.
Qed.

(** ** The media side *)
Section live.
Context (c : StoreConfig) (p : FixedSegmentFilePlacement).

(** What [open] has checked of the configuration and built from it. *)
Record geometry : Prop := {
  ge_placement : placement_ok p;
  ge_slot : fp_slot_bytes p = segment_header_bytes c + layout_payload_bytes c;
  ge_header : fp_header_bytes p = segment_header_bytes c;
  ge_header_min : 4096 ≤ segment_header_bytes c;
  ge_aligned : fp_slot_bytes p `mod` 4096 = 0;
}.

Definition in_header (slot i : Z) : Prop := header_offset_for_slot p slot ≤ i < header_offset_for_slot p slot + 4096.

Definition expectation (k : ObjectKey) (e : Entry) : HeaderExpectation :=
  {| ex_key := k; ex_payload_bytes := layout_payload_bytes c; ex_generation := en_generation e; ex_check_generation := true |}.

(** The header of an object is on the media, intact and synced. *)
Record header_on (d : disk) (k : ObjectKey) (e : Entry) (f : file) : Prop := {
  ho_file : files d !! path_for_slot p (en_slot e) = Some f;
  ho_size : header_offset_for_slot p (en_slot e) + 4096 ≤ f_size f;
  ho_clean : ∀ i, in_header (en_slot e) i → ¬ dirty_at f i;
  ho_accepted : ∃ fields, accepted (fread f (header_offset_for_slot p (en_slot e)) 4096) (expectation k e) = inr fields ∧
                          hf_commit_seq fields = en_commit_seq e;
}.

Definition durable (d : disk) (idx : gmap ObjectKey Entry) : Prop :=
  ∀ k e, idx !! k = Some e → en_committed e = true → ∃ f, header_on d k e f.

Record live (s : store) : Prop := {
  lv_config : config_ s = c;
  lv_placement : placement_ s = Some p;
  lv_slot_bytes : slot_bytes_ s = fp_slot_bytes p;
  lv_inv : store_inv s;
  lv_disk : disk_wf (media s);
  lv_durable : durable (media s) (index_ s);
  lv_bitmap : ∀ path, rb_base (own_residency_ s) = Some path → ∀ slot, path_for_slot p slot ≠ path;
}.

Lemma fread_ext f f' off n : (∀ i, off ≤ i < off + n → fbyte f' i = fbyte f i) → fread f' off n = fread f off n.
Proof.
  intros H. rewrite !fread_eq. apply list_eq. intros i. rewrite !list_lookup_fmap.
  destruct (decide (i < Z.to_nat n)%nat); [rewrite lookup_seqZ_lt by lia; cbn; f_equal; apply H; lia|by rewrite lookup_seqZ_ge by lia].
Qed.

(** Media steps that leave a header's bytes alone leave the header on. *)
Lemma header_on_touched W R d d' k e f : touches W R d d' → ¬ W (path_for_slot p (en_slot e)) →
  (∀ i, in_header (en_slot e) i → ¬ R (path_for_slot p (en_slot e)) i) → header_on d k e f → ∃ f', header_on d' k e f'.
Proof.
  intros Ht Hw Hr [H1 H2 H3 (fields & H4 & H5)]. destruct (Ht _ f Hw H1) as (f' & Hf' & [_ _ Hs Hb Hd]). exists f'. split.
  - done.
  - lia.
  - intros i Hi Hdi. apply (H3 i Hi), Hd; [by apply Hr|done].
  - exists fields. split; [|done]. rewrite <- H4. f_equal. apply fread_ext. intros i Hi. apply Hb, Hr. done.
Qed.

Lemma durable_touched W R d d' idx : touches W R d d' →
  (∀ k e, idx !! k = Some e → en_committed e = true → ¬ W (path_for_slot p (en_slot e)) ∧
          ∀ i, in_header (en_slot e) i → ¬ R (path_for_slot p (en_slot e)) i) →
  durable d idx → durable d' idx.
Proof.
  intros Ht Hr H k e Hk Hc. destruct (H k e Hk Hc) as [f Hf]. destruct (Hr k e Hk Hc). by eapply header_on_touched.
Qed.

Lemma durable_subset d idx idx' : (∀ k e, idx' !! k = Some e → en_committed e = true → idx !! k = Some e) → durable d idx → durable d idx'.
Proof. intros H Hd k e Hk Hc. by apply Hd; [apply H|]. Qed.
End live.

(** ** Names

    Segment files, markers, the checkpoint file and bitmaps are told apart by
    the character before the last. *)
Definition tail2 (x : string) : option Ascii.ascii := rev (chars x) !! 1%nat.

Lemma tail2_append s t : (2 ≤ length (chars t))%nat → tail2 (String.append s t) = tail2 t.
Proof. intros H. unfold tail2. rewrite chars_app, rev_app_distr, lookup_app_l; [done|]. rewrite length_rev. lia. Qed.

Lemma tail2_join d leaf : (2 ≤ length (chars leaf))%nat → tail2 (join d leaf) = tail2 leaf.
Proof.
  intros H. unfold join. case_bool_decide; [done|]. destruct (ends_with_slash d); [by apply tail2_append|].
  rewrite tail2_append by (cbn; lia). change (String slash leaf) with (String.append (String slash EmptyString) leaf). by apply tail2_append.
Qed.

Lemma tail2_segment p slot : tail2 (path_for_slot p slot) = Some (Ascii.ascii_of_N 101).
Proof.
  unfold path_for_slot, segment_name. rewrite tail2_join by (rewrite chars_app, length_app; cbn; lia). by rewrite tail2_append by (cbn; lia).
Qed.

Lemma segment_not_marker p slot path : ¬ markers path (path_for_slot p slot).
Proof.
  intros H. pose proof (tail2_segment p slot) as Hs.
  destruct H as [E|E]; rewrite E in Hs; unfold ready_path, pending_path in Hs; rewrite tail2_append in Hs by (cbn; lia); by vm_compute in Hs.
Qed.

Lemma segment_not_checkpoint p slot s : path_for_slot p slot ≠ checkpoint_path_locked s.
Proof.
  intros E. pose proof (tail2_segment p slot) as Hs. rewrite E in Hs. unfold checkpoint_path_locked in Hs.
  rewrite tail2_join in Hs by (cbn; lia). by vm_compute in Hs.
Qed.

Lemma segment_not_residency p slot rank s : path_for_slot p slot ≠ residency_path_locked rank s.
Proof.
  intros E. pose proof (tail2_segment p slot) as Hs. rewrite E in Hs. unfold residency_path_locked in Hs.
  rewrite tail2_join in Hs by (rewrite !chars_app, !length_app; cbn; lia). rewrite !tail2_append in Hs by (rewrite ?chars_app, ?length_app; cbn; lia).
  by vm_compute in Hs.
Qed.

(** ** Media steps of a live store *)
Section steps.
Context (c : StoreConfig) (p : FixedSegmentFilePlacement) (Hg : geometry c p).

Lemma header_disjoint s t path i lo : 0 ≤ s → 0 ≤ t → s ≠ t → in_header p s i →
  lo ≤ fp_slot_bytes p → ¬ region (path_for_slot p t) (header_offset_for_slot p t) (header_offset_for_slot p t + lo) path i ∨ path ≠ path_for_slot p s.
Proof using Hg.
  intros Hs Ht Hne Hi Hlo. destruct (decide (path = path_for_slot p s)) as [->|]; [left|by right]. intros [E Hr].
  destruct (slots_disjoint p (ge_placement _ _ Hg) s t Hs Ht Hne E) as [Hd|Hd]; unfold in_header in Hi;
    pose proof (ge_slot _ _ Hg); pose proof (ge_header_min _ _ Hg); pose proof (po_header p (ge_placement _ _ Hg)); pose proof (ge_header _ _ Hg); lia.
Qed.

Definition safe_region (idx : gmap ObjectKey Entry) (W : string → Prop) (R : string → Z → Prop) : Prop :=
  ∀ k e, idx !! k = Some e → en_committed e = true → ¬ W (path_for_slot p (en_slot e)) ∧
         ∀ i, in_header p (en_slot e) i → ¬ R (path_for_slot p (en_slot e)) i.

Lemma live_media s W R d' : live c p s → safe_region (index_ s) W R → touches W R (media s) d' → disk_wf d' → live c p (s <| media := d' |>).
Proof using Hg.
  intros [L1 L2 L3 [I1 I2 I3 I4] L5 L6 L7] Hr Ht Hd. split; try done. cbn. by eapply (durable_touched c p W R).
Qed.

(** Running a media program on a live store. *)
Lemma on_disk_live {A} (m : M disk A) s W R : live c p s → safe_region (index_ s) W R → frames (touches W R) m → frames keeps_wf m →
  live c p (on_disk m s).2 ∧ ∃ d', (on_disk m s).2 = s <| media := d' |> ∧ (on_disk m s).1 = (m (media s)).1 ∧ d' = (m (media s)).2.
Proof using Hg.
  intros Hl Hr Ht Hw. unfold on_disk. specialize (Ht (media s)). specialize (Hw (media s) (lv_disk _ _ _ Hl)).
  destruct (m (media s)) as [r d']. cbn in *. split; [by eapply live_media|]. by exists d'.
Qed.

(** Slots not owned by a committed key may be rewritten. *)
Lemma slot_region_safe idx t n : 0 ≤ t → n ≤ fp_slot_bytes p → (∀ k e, idx !! k = Some e → 0 ≤ en_slot e) →
  (∀ k e, idx !! k = Some e → en_committed e = true → en_slot e ≠ t) →
  safe_region idx nothing (region (path_for_slot p t) (header_offset_for_slot p t) (header_offset_for_slot p t + n)).
Proof using Hg.
  intros Ht Hn Hpos Hne k e Hk Hc. split; [by intros []|]. intros i Hi.
  destruct (header_disjoint (en_slot e) t (path_for_slot p (en_slot e)) i n) as [H|H]; try done; [by apply (Hpos k)|by apply (Hne k)].
Qed.

(** Files that are not segment files may be rewritten. *)
Lemma other_file_safe idx path lo hi : (∀ slot, path_for_slot p slot ≠ path) → safe_region idx nothing (region path lo hi).
Proof using Type. intros Hne k e Hk Hc. split; [by intros []|]. intros i _ [E _]. by apply (Hne (en_slot e)). Qed.
End steps.
