(* ===== verification/ObjStoreOps.v ===== *)
(** * The operations of the object store on a live store

    Each operation keeps the store live on every outcome and does what its
    interface says. *)
From stdpp Require Import sorting pretty.
From S2P Require Import Prelude Digest Bytes SlotPlace SpaceAlloc ObjHeader Checkpoint Media MediaSpec Residency ObjStore ObjStoreInv.
Open Scope Z_scope.

Section ops.
Context (c : StoreConfig) (p : FixedSegmentFilePlacement) (Hg : geometry c p).

(** Programs of the media below. *)
Lemma wp_on_disk {A} (m : M disk A) (Q : outcome A → store → Prop) s W R :
  live c p s → safe_region p (index_ s) W R → frames (touches W R) m → frames keeps_wf m →
  (∀ r d', m (media s) = (r, d') → live c p (s <| media := d' |>) → touches W R (media s) d' → Q r (s <| media := d' |>)) → wp (on_disk m) Q s.
Proof using Hg.
  intros Hl Hr Ht Hw HQ. destruct (on_disk_live c p Hg m s W R Hl Hr Ht Hw) as [Hl' _]. unfold wp, on_disk in *. specialize (Ht (media s)).
  destruct (m (media s)) as [r d'] eqn:E. cbn in *. by apply HQ.
Qed.

Lemma wp_attempt {S A} (m : M S A) (Q : outcome (Z + A) → S → Prop) s :
  wp m (λ r s', match r with Ok a => Q (Ok (inr a)) s' | Err e => Q (Ok (inl e)) s' | Fault f => Q (Fault f) s' end) s → wp (attempt m) Q s.
Proof. unfold wp, attempt. by destruct (m s) as [[a|e|f] s']. Qed.

Lemma wp_the_placement (Q : outcome FixedSegmentFilePlacement → store → Prop) s : live c p s → Q (Ok p) s → wp the_placement Q s.
Proof using Type. intros Hl HQ. unfold the_placement. wp_steps. rewrite (lv_placement _ _ _ Hl). by apply wp_ret. Qed.

(** ** Reserve *)
Definition new_entry (slot generation : Z) : Entry := {| en_slot := slot; en_generation := generation; en_commit_seq := 0; en_committed := false |}.

(** Nothing the index held changes, what is new is not committed, media and
    the rest stay. *)
Record reserve_frame (s s' : store) : Prop := {
  rf_media : media s' = media s;
  rf_index : index_ s ⊆ index_ s';
  rf_new : ∀ k e, index_ s' !! k = Some e → index_ s !! k = None → en_committed e = false;
  rf_pins : pins_ s' = pins_ s;
  rf_total : total_slots (allocator_ s') = total_slots (allocator_ s);
  rf_precreated : precreated_ s' = precreated_ s;
}.

#[export] Instance reserve_frame_preorder : PreOrder reserve_frame.
Proof.
  split; [intros s; split; try done; intros; congruence|]. intros s t u [A1 A2 A3 A4 A5 A6] [B1 B2 B3 B4 B5 B6]. split; try congruence; [by etrans|].
  intros k e Hk Hn. destruct (index_ t !! k) as [e'|] eqn:E; [|by eapply B3].
  assert (e' = e) as ->; [|by eapply A3]. apply (lookup_weaken _ _ _ _ E) in B2. congruence.
Qed.

(** A key accepted by a reservation: its placement is the one of its entry. *)
Definition accepted_at (s : store) (pl : ObjectPlacement) (k : ObjectKey) : Prop :=
  ∃ e, index_ s !! k = Some e ∧ pl = placement_locked p c (en_slot e) (en_generation e).

Definition outcome_ok (s : store) (count : Z) (out : ReserveOutcome) : Prop :=
  Forall2 (accepted_at s) (ro_accepted out) (ro_accepted_keys out) ∧
  Z.of_nat (length (ro_accepted_keys out)) + ro_rejected_count out = count.

Lemma outcome_ok_mono s s' n out : index_ s ⊆ index_ s' → outcome_ok s n out → outcome_ok s' n out.
Proof.
  intros Hsub [H1 H2]. split; [|done]. eapply Forall2_impl; [exact H1|]. intros pl k (e & Hk & ->). exists e. split; [|done].
  by eapply lookup_weaken.
Qed.

Lemma outcome_ok_accept s n out e k : index_ s !! k = Some e → outcome_ok s n out →
  outcome_ok s (n + 1) (add_accepted (placement_locked p c (en_slot e) (en_generation e)) k out).
Proof.
  intros Hk [H1 H2]. split; cbn; [|rewrite length_app; cbn; lia]. apply Forall2_app; [done|]. constructor; [|constructor]. by exists e.
Qed.

Lemma outcome_ok_reject s n out m : outcome_ok s n out → outcome_ok s (n + m) (add_rejected m out).
Proof. intros [H1 H2]. split; cbn; [done|lia]. Qed.

(** A key that may be stored. *)
Definition good_key (k : ObjectKey) : bool := negb (bool_decide (k = []) || bool_decide (kMaxKeyBytes < Z.of_nat (length k))).

(** No slot can be handed out. *)
Definition exhausted (a : SpaceAllocator) : Prop := free_list a = [] ∧ Z.min (total_slots a) (ready_limit a) ≤ high_water a.

(** How [reserve_keys] goes through [keys]: every good key it sees is accepted,
    in order; it stops before the end only at a good key without an entry when
    there is no slot left. *)
Definition answered (keys : list ObjectKey) (out out' : ReserveOutcome) (s' : store) : Prop :=
  ∃ seen rest, keys = seen ++ rest ∧
    ro_accepted_keys out' = ro_accepted_keys out ++ filter (λ k, good_key k = true) seen ∧
    (rest = [] ∨ exhausted (allocator_ s') ∧ ∃ k rest', rest = k :: rest' ∧ good_key k = true ∧ index_ s' !! k = None).

Lemma answered_bad k keys out out' s' n :
  good_key k = false → answered keys (add_rejected n out) out' s' → answered (k :: keys) out out' s'.
Proof.
  intros Hk (seen & rest & -> & E & Hr). exists (k :: seen), rest. split_and!; [done| |done].
  by rewrite filter_cons_False by congruence.
Qed.

Lemma answered_good k pl keys out out' s' :
  good_key k = true → answered keys (add_accepted pl k out) out' s' → answered (k :: keys) out out' s'.
Proof.
  intros Hk (seen & rest & -> & E & Hr). exists (k :: seen), rest. split_and!; [done| |done].
  rewrite filter_cons_True by done. cbn in E. by rewrite E, <- app_assoc.
Qed.

(** One slot taken from the allocator. *)
Lemma alloc_one s : live c p s →
  let '(out, a) := SpaceAlloc.reserve 1 (allocator_ s) in
  store_inv (s <| allocator_ := a |>) ∧ total_slots a = total_slots (allocator_ s) ∧
  ((rs_slots out = [] ∧ exhausted a) ∨
   ∃ slot, rs_slots out = [slot] ∧ rs_generations out = [generation_at (allocator_ s) slot] ∧ 0 ≤ slot ∧
           state_at (allocator_ s) slot = kFree ∧ state_at a slot = kReserved).
Proof using Type.
  intros Hl. destruct (lv_inv _ _ _ Hl) as [I1 I2 I3 I4]. pose proof (reserve_ok 1 (allocator_ s) ltac:(lia) I1) as H.
  destruct (SpaceAlloc.reserve 1 (allocator_ s)) as [out a]. destruct H as [R1 R2 R3 R4 R5 R6 (E1 & E2 & E3 & _) R8]. cbn in *.
  split; [|split; [done|]].
  - split; cbn; try done.
    + intros x. unfold generation_at. rewrite E2. apply I2.
    + eapply index_inv_states; [|exact I3]. intros k e Hk [H0 Hst]. split; [done|]. rewrite R6; [done|done|].
      intros Hin. destruct (R4 _ Hin) as (_ & Hf & _). destruct Hst as [?|[? _]]; congruence.
  - destruct (rs_slots out) as [|slot [|slot' l]] eqn:Es; [left; cbn in R2; split; [done|]; unfold exhausted; rewrite E1, E3; apply R8; lia| |cbn in R2; lia].
    right. exists slot. destruct (R4 slot) as (Hb & Hf & Hr & _); [by left|]. split_and!; try done. lia.
Qed.

Lemma live_alloc s a : live c p s → store_inv (s <| allocator_ := a |>) → live c p (s <| allocator_ := a |>).
Proof using Type. intros [L1 L2 L3 _ L5 L6 L7] Hi. by split. Qed.

(** A free slot belongs to nobody. *)
Lemma free_unowned s slot : live c p s → state_at (allocator_ s) slot = kFree → slot_owner_ s !! slot = None.
Proof using Type.
  intros Hl Hf. destruct (slot_owner_ s !! slot) as [k|] eqn:E; [|done]. destruct (lv_inv _ _ _ Hl) as [_ _ I3 _].
  destruct (ii_back _ _ _ I3 slot k E) as (e & Hk & <-). destruct (ii_state _ _ _ I3 k e Hk) as [_ [?|[? _]]]; congruence.
Qed.

Lemma reserve_keys_ok keys out s n : live c p s → Forall wf_bytes keys → outcome_ok s n out →
  wp (reserve_keys keys out) (λ r s', live c p s' ∧ reserve_frame s s' ∧ ∃ out', r = Ok out' ∧ outcome_ok s' (n + Z.of_nat (length keys)) out' ∧ answered keys out out' s') s.
Proof using Hg.
  intros Hl Hw. revert out s n Hl. induction Hw as [|k keys Hk _ IH]; intros out s n Hl Ho; cbn [reserve_keys length].
  { apply wp_ret. split_and!; [done|reflexivity|]. exists out. rewrite Z.add_0_r. split_and!; [done|done|].
    exists [], []. split_and!; [done|symmetry; apply app_nil_r|by left]. }
  replace (n + Z.of_nat (S (length keys))) with (n + 1 + Z.of_nat (length keys)) by lia.
  destruct (_ || _) eqn:Ek.
  { eapply wp_mono; [by apply IH; [|apply outcome_ok_reject]|]. intros r s' (? & ? & out' & ? & ? & ?). split_and!; [done|done|].
    exists out'. split_and!; [done|done|]. eapply answered_bad; [|done]. unfold good_key. by rewrite Ek. }
  assert (Hgood : good_key k = true) by (unfold good_key; by rewrite Ek).
  apply orb_false_elim in Ek as [Hk1%bool_decide_eq_false Hk2%bool_decide_eq_false].
  wp_steps. apply wp_the_placement; [done|]. wp_steps. rewrite (lv_config _ _ _ Hl).
  destruct (index_ s !! k) as [e|] eqn:Ei.
  { eapply wp_mono; [by apply IH; [|apply outcome_ok_accept]|]. intros r s' (? & ? & out' & ? & ? & ?). split_and!; [done|done|].
    exists out'. split_and!; [done|done|]. by eapply answered_good. }
  apply wp_bind. unfold alloc_reserve, wp. pose proof (alloc_one s Hl) as Ha.
  destruct (SpaceAlloc.reserve 1 (allocator_ s)) as [got a] eqn:Er. cbn [fst snd].
  destruct Ha as (Hi & Ht & [(Es & Hrej)|(slot & Es & Egen & Hs0 & Hfree & Hres)]).
  - rewrite Es. change (wp (mret (add_rejected (Z.of_nat (S (length keys))) out) : M store ReserveOutcome)
      (λ r s', live c p s' ∧ reserve_frame s s' ∧ ∃ out', r = Ok out' ∧ outcome_ok s' (n + 1 + Z.of_nat (length keys)) out' ∧ answered (k :: keys) out out' s') (s <| allocator_ := a |>)).
    apply wp_ret. split_and!; [by apply live_alloc|split; try done; intros; cbn in *; congruence|]. eexists. split; [done|].
    replace (n + 1 + _) with (n + Z.of_nat (S (length keys))) by lia. split; [by apply outcome_ok_reject|].
    exists [], (k :: keys). cbn. rewrite app_nil_r. split_and!; [done|done|]. right. split; [done|]. by exists k, keys.
  - rewrite Es, Egen. set (g := generation_at (allocator_ s) slot). set (s1 := s <| allocator_ := a |>).
    set (s2 := s1 <| index_ ::= <[k := new_entry slot g]> |> <| slot_owner_ ::= <[slot := k]> |>).
    assert (Hl1 : live c p s1) by by apply live_alloc.
    assert (Hl2 : live c p s2).
    { destruct Hl1 as [L1 L2 L3 [I1 I2 I3 I4] L5 L6 L7]. split; try done.
      - split; try done. apply (index_inv_add a (index_ s) (slot_owner_ s) k (new_entry slot g)); try done.
        + by apply free_unowned.
        + split; [done|by left].
        + split; [split_and!; [done|unfold kMaxKeyBytes in *; lia|done]|apply (si_gens _ (lv_inv _ _ _ Hl))|by vm_compute].
      - eapply durable_subset; [|exact L6]. cbn. intros k' e' [[<- <-]|[_ ?]]%lookup_insert_Some; done. }
    assert (Hf2 : reserve_frame s s2).
    { split; try done; cbn.
      - by apply insert_subseteq.
      - intros k' e' [[<- <-]|[_ ?]]%lookup_insert_Some Hn; [done|congruence]. }
    change (wp (modify (λ s, s <| index_ ::= <[k := new_entry slot g]> |> <| slot_owner_ ::= <[slot := k]> |>);;
      reserve_keys keys (add_accepted (placement_locked p c slot g) k out))
      (λ r s', live c p s' ∧ reserve_frame s s' ∧ ∃ out', r = Ok out' ∧ outcome_ok s' (n + 1 + Z.of_nat (length keys)) out' ∧ answered (k :: keys) out out' s') s1).
    wp_steps. eapply wp_mono; [apply (IH _ s2 (n + 1)); [done|]|].
    + apply (outcome_ok_accept s2 n out (new_entry slot g) k); [cbn; by rewrite lookup_insert_eq|]. eapply outcome_ok_mono; [|exact Ho].
      apply Hf2.
    + intros r s' (? & ? & out' & ? & ? & ?). split_and!; [done|by etrans|]. exists out'. split_and!; [done|done|].
      by eapply answered_good.
Qed.

(** ** Commit *)
Definition committed_entry (e : Entry) (seq : Z) : Entry :=
  {| en_slot := en_slot e; en_generation := en_generation e; en_commit_seq := seq; en_committed := true |}.

Lemma kHeader_4096 : Z.of_nat kHeaderBytes = 4096.
Proof. unfold kHeaderBytes. lia. Qed.

Lemma payload_fits : fits 64 (layout_payload_bytes c).
Proof. apply wrap_fits. lia. Qed.

(** The header [commit] writes is accepted for its object. *)
Lemma encoded_accepted k e seq d : entry_wf k e → fits 64 seq → layout_payload_bytes c ≠ 0 → wf_bytes d →
  encoded k (layout_payload_bytes c) (en_generation e) seq d →
  ∃ fields, accepted d (expectation c k (committed_entry e seq)) = inr fields ∧ hf_commit_seq fields = seq.
Proof.
  intros [(Hk & Hkl & Hkw) Hgen _] Hq Hp Hd He. unfold accepted. cbn [ex_key ex_payload_bytes expectation].
  rewrite !bool_decide_eq_false_2 by done. cbn [orb].
  rewrite (encoded_structure k _ _ _ d He Hd payload_fits Hgen Hq Hkw). match goal with |- context [check_expectation _ ?fl] => exists fl end. split; [|reflexivity].
  unfold check_expectation. cbn. rewrite !bool_decide_eq_false_2; try done; try (intros []; done).
  intros []. apply wrap_small. lia.
Qed.

Lemma write_header_ok s k e seq : live c p s → index_ s !! k = Some e → en_committed e = false → fits 64 seq →
  wp (write_header_locked (en_slot e) k (en_generation e) seq)
     (λ r s', live c p s' ∧ (∃ d', s' = s <| media := d' |>) ∧ (r = Ok tt → ∃ f, header_on c p (media s') k (committed_entry e seq) f)) s.
Proof using Hg.
  intros Hl Hk Hc Hq. pose proof (lv_inv _ _ _ Hl) as [I1 I2 I3 I4]. pose proof (ii_wf _ _ _ I3 k e Hk) as Hwf.
  destruct (ii_state _ _ _ I3 k e Hk) as [Hs0 Hst]. unfold write_header_locked. wp_steps. apply wp_the_placement; [done|].
  rewrite (lv_config _ _ _ Hl). assert (Hbuf : length (replicate kHeaderBytes 0) = kHeaderBytes ∧ wf_bytes (replicate kHeaderBytes 0)).
  { split; [apply length_replicate|apply Forall_replicate; lia]. }
  generalize dependent (replicate kHeaderBytes 0). intros buf [Hbl Hbw].
  destruct (encode_object_header _ _ _ _ _) as [ok header] eqn:Ee.
  assert (Hok : ok = true → layout_payload_bytes c ≠ 0 ∧ Z.of_nat (length header) = 4096 ∧ wf_bytes header ∧
    encoded k (layout_payload_bytes c) (en_generation e) seq header).
  { intros ->. assert (Hp : layout_payload_bytes c ≠ 0).
    { intros E0. revert Ee. unfold encode_object_header. rewrite (bool_decide_eq_false_2 (_ < _)%nat) by lia.
      rewrite E0, (bool_decide_eq_true_2 (0 = 0)), orb_true_r by done. done. }
    destruct (encode_ok buf k (layout_payload_bytes c) (en_generation e) seq) as (d & Ed & El & Hen & Hw);
      [lia|by apply Hwf|done|]. assert (d = header) as -> by congruence. split_and!; [done| |by apply Hw|done].
    rewrite El, Hbl. apply kHeader_4096. }
  apply wp_bind, wp_guard.
  { intros _. split_and!; [done|by exists (media s); destruct s|done]. }
  intros Hneg. destruct ok; [|done]. destruct (Hok eq_refl) as (Hp & Hlen & Hw & Hen). clear Ee Hok.
  pose proof (ge_slot _ _ Hg). pose proof (ge_header_min _ _ Hg). pose proof payload_fits as Hpf. unfold fits in Hpf.
  eapply (wp_on_disk (write_object_header _ _ header) _ s nothing _ Hl); [|apply write_block_touches|by apply write_block_wf|].
  - rewrite Hlen. apply (slot_region_safe c p Hg); [done|lia|intros k' e' Hk'; by apply (ii_state _ _ _ I3 k' e')|].
    intros k' e' Hk' Hc' E. assert (k' = k) by (by apply (index_inj _ _ _ k' k e' e I3)). congruence.
  - intros r d' Er Hl' _. split_and!; [done|by exists d'|]. intros ->. apply write_block_ok in Er as (f & Hf & Hd & Hr & Hz). rewrite Hlen in Hr, Hz.
    exists f. split; cbn; [done|done| |].
    + intros i _ (x & Hx & _). rewrite Hd in Hx. by apply elem_of_nil in Hx.
    + rewrite Hr. by apply encoded_accepted.
Qed.

(** What a run of [commit] may change: entries become committed in place. *)
Record commit_frame (s s' : store) : Prop := {
  cf_index : ∀ k, index_ s' !! k = index_ s !! k ∨
                  ∃ e seq, index_ s !! k = Some e ∧ en_committed e = false ∧ index_ s' !! k = Some (committed_entry e seq);
  cf_pins : pins_ s' = pins_ s;
  cf_opened : opened_ s' = opened_ s;
  cf_alloc : allocator_ s' = allocator_ s;
}.

#[export] Instance commit_frame_preorder : PreOrder commit_frame.
Proof.
  split; [intros s; split; auto|]. intros s t u [A1 A2 A3 A4] [B1 B2 B3 B4]. split; try congruence. intros k.
  destruct (B1 k) as [E|(e & seq & E1 & E2 & E3)]; [rewrite E; apply A1|]. destruct (A1 k) as [E'|(e' & seq' & F1 & F2 & F3)].
  - right. exists e, seq. split_and!; try done. congruence.
  - rewrite F3 in E1. injection E1 as <-. done.
Qed.

Lemma live_commit_entry s k e seq f : live c p s → index_ s !! k = Some e → fits 64 seq → header_on c p (media s) k (committed_entry e seq) f →
  live c p (s <| index_ ::= <[k := committed_entry e seq]> |>).
Proof using Type.
  intros [L1 L2 L3 [I1 I2 I3 I4] L5 L6 L7] Hk Hq Hf. split; try done.
  - split; try done. by apply index_inv_commit.
  - cbn. intros k' e' [[<- <-]|[_ Hk']]%lookup_insert_Some Hc; [by exists f|by apply L6].
Qed.

(** Touching the bitmap, which is no segment file. *)
Lemma bitmap_live s b g path i (Q : outcome unit → store → Prop) : live c p s → rb_base b = Some path → own_residency_ s = b →
  (∀ v, 0 ≤ v < 256 → 0 ≤ g v < 256) →
  (∀ d', live c p (s <| media := d' |>) → Q (Ok tt) (s <| media := d' |>)) → wp (on_disk (store_byte path i g)) Q s.
Proof using Hg.
  intros Hl Hb Ho Hgv HQ. eapply (wp_on_disk (store_byte path i g) _ s nothing (region path i (i + 1)) Hl).
  - apply other_file_safe. apply (lv_bitmap _ _ _ Hl). by rewrite Ho.
  - intros d. apply alter_touches. intros f. eapply file_touched_mono; [|apply fwrite_touched]. cbn. intros j Hj. by split.
  - apply update_file_wf. intros f Hf. apply file_wf_fwrite; [|done]. constructor; [|constructor]. apply Hgv, Hf.
  - intros r d' E Hl' _. injection E as <- <-. by apply HQ.
Qed.

Lemma byte_lor v w : 0 ≤ v < 256 → 0 ≤ w < 256 → 0 ≤ Z.lor v w < 256.
Proof.
  intros Hv Hw. rewrite <- (Z.mod_small v (2 ^ 8)), <- (Z.mod_small w (2 ^ 8)) by lia. rewrite <- !Z.land_ones by lia.
  rewrite <- Z.land_lor_distr_l, Z.land_ones by lia. apply Z.mod_pos_bound. lia.
Qed.

Lemma byte_land v w : 0 ≤ v < 256 → 0 ≤ Z.land v w < 256.
Proof.
  intros Hv. rewrite <- (Z.mod_small v (2 ^ 8)) by lia. rewrite <- Z.land_ones, <- Z.land_assoc, (Z.land_comm (Z.ones 8)), Z.land_assoc by lia.
  rewrite Z.land_ones by lia. apply Z.mod_pos_bound. lia.
Qed.

Lemma set_bit_live s b slot (Q : outcome unit → store → Prop) : live c p s → own_residency_ s = b →
  (∀ d', live c p (s <| media := d' |>) → Q (Ok tt) (s <| media := d' |>)) → wp (on_disk (set_bit b slot)) Q s.
Proof using Hg.
  intros Hl Ho HQ. assert (Hnop : wp (on_disk (mret tt : M disk unit)) Q s).
  { unfold wp, on_disk. cbn. apply (HQ (media s)). destruct s; done. }
  unfold set_bit. destruct (rb_base b) as [path|] eqn:Hb; [|done]. destruct (_ || _); [done|].
  apply (bitmap_live s b _ path); try done. intros v Hv. apply byte_lor; [done|]. apply (wrap_fits 8). lia.
Qed.

Lemma clear_bit_live s b slot (Q : outcome unit → store → Prop) : live c p s → own_residency_ s = b →
  (∀ d', live c p (s <| media := d' |>) → Q (Ok tt) (s <| media := d' |>)) → wp (on_disk (clear_bit b slot)) Q s.
Proof using Hg.
  intros Hl Ho HQ. assert (Hnop : wp (on_disk (mret tt : M disk unit)) Q s).
  { unfold wp, on_disk. cbn. apply (HQ (media s)). destruct s; done. }
  unfold clear_bit. destruct (rb_base b) as [path|] eqn:Hb; [|done]. destruct (_ || _); [done|].
  apply (bitmap_live s b _ path); try done. intros v Hv. by apply byte_land.
Qed.
End ops.
