(* ===== verification/ObjStoreWrite.v ===== *)
(** * Commit, abort, release and pins on a live store

    The key loops of the write path with what they do to the index, and the
    whole operations with what the allocator then holds. *)
From stdpp Require Import sorting pretty.
From S2P Require Import Prelude Digest Bytes SlotPlace SpaceAlloc ObjHeader Checkpoint Media MediaSpec Residency ObjStore ObjStoreInv ObjStoreOps.
Open Scope Z_scope.

Section write.
Context (c : StoreConfig) (p : FixedSegmentFilePlacement) (Hg : geometry c p).

(** A new allocator that keeps every owned slot. *)
Lemma live_states s a' : live c p s → alloc_inv a' → gens_fit a' →
  (∀ k e, index_ s !! k = Some e → owned_state (allocator_ s) e → owned_state a' e) → live c p (s <| allocator_ := a' |>).
Proof using Type. clear Hg.
  intros Hl Ha Hgen Ho. apply live_alloc; [done|]. destruct (lv_inv _ _ _ Hl) as [I1 I2 I3 I4]. split; try done.
  by eapply index_inv_states.
Qed.

(** Fields that the invariant does not mention. *)
Lemma live_dirty s b : live c p s → live c p (s <| checkpoint_dirty_ := b |>).
Proof using Type. intros [L1 L2 L3 [I1 I2 I3 I4] L5 L6 L7]. by split. Qed.
Lemma live_pins s g : live c p s → live c p (s <| pins_ ::= g |>).
Proof using Type. intros [L1 L2 L3 [I1 I2 I3 I4] L5 L6 L7]. by split. Qed.
Lemma live_seq s q : live c p s → fits 64 q → live c p (s <| commit_seq_ := q |>).
Proof using Type. intros [L1 L2 L3 [I1 I2 I3 I4] L5 L6 L7] Hq. by split. Qed.

Lemma gens_fit_same a a' : generations a' = generations a → gens_fit a → gens_fit a'.
Proof. intros E H x. unfold generation_at. rewrite E. apply H. Qed.

(** The guards at the top of every operation. *)
Lemma wp_writable (Q : outcome unit → store → Prop) s : Q (Err UNSUPPORTED) s → Q (Ok tt) s → wp writable Q s.
Proof. intros. unfold writable. wp_steps. by apply wp_guard. Qed.
Lemma wp_ready (Q : outcome unit → store → Prop) s : Q (Err NOT_READY) s → Q (Ok tt) s → wp ready Q s.
Proof. intros. unfold ready. wp_steps. by apply wp_guard. Qed.

(** ** Commit *)

(** What the loop leaves when it returns: every named object is committed,
    and the slots to move in the allocator are exactly those of the objects
    that were not. *)
Record committed_all (keys : list ObjectKey) (s s' : store) (slots : list Z) : Prop := {
  ca_keys : ∀ k e, k ∈ keys → index_ s !! k = Some e → contains k s' = true;
  ca_slots : ∀ x, x ∈ slots → ∃ k e, k ∈ keys ∧ index_ s !! k = Some e ∧ en_committed e = false ∧ en_slot e = x;
  ca_moved : ∀ k e, k ∈ keys → index_ s !! k = Some e → en_committed e = false → en_slot e ∈ slots;
  ca_others : ∀ k, k ∉ keys → index_ s' !! k = index_ s !! k;
}.

Lemma commit_frame_contains s s' k : commit_frame s s' → contains k s = true → contains k s' = true.
Proof.
  intros H. unfold contains. destruct (cf_index _ _ H k) as [->|(e & q & -> & _ & ->)]; done.
Qed.

(** One object committed: header written, entry marked, bit set. *)
Lemma commit_one_ok s k e : live c p s → index_ s !! k = Some e → en_committed e = false →
  wp (modify (λ s, s <| commit_seq_ ::= λ q, u64 (q + 1) |>);;
      seq ← gets commit_seq_;
      write_header_locked (en_slot e) k (en_generation e) seq;;
      modify (λ s, s <| index_ ::= <[k := {| en_slot := en_slot e; en_generation := en_generation e; en_commit_seq := seq; en_committed := true |}]> |>);;
      own ← gets own_residency_;
      on_disk (set_bit own (en_slot e)))
     (λ r s', live c p s' ∧ commit_frame s s' ∧ (r = Ok tt → ∃ q, index_ s' = <[k := committed_entry e q]> (index_ s))) s.
Proof using Hg.
  intros Hl Hk Hc. wp_steps. set (q := u64 (commit_seq_ s + 1)). assert (Hq : fits 64 q) by (apply wrap_fits; lia).
  set (s1 := s <| commit_seq_ ::= λ q, u64 (q + 1) |>). assert (Hl1 : live c p s1) by (by apply (live_seq s q)).
  change (commit_seq_ s1) with q. assert (F1 : commit_frame s s1) by (split; auto).
  eapply wp_mono; [apply (write_header_ok c p Hg s1 k e q Hl1 Hk Hc Hq)|].
  intros r s2 (Hl2 & (d2 & ->) & Hok). assert (F2 : commit_frame s (s1 <| media := d2 |>)) by (split; auto).
  destruct r as [[]|e'|f']; [|by split_and!..]. destruct (Hok eq_refl) as [f Hf]. wp_steps.
  set (s3 := (s1 <| media := d2 |>) <| index_ ::= <[k := committed_entry e q]> |>).
  assert (Hl3 : live c p s3) by (by eapply (live_commit_entry c p (s1 <| media := d2 |>) k e q f)).
  change (wp (on_disk (set_bit (own_residency_ s3) (en_slot e))) (λ r s', live c p s' ∧ commit_frame s s' ∧
    (r = Ok tt → ∃ q0, index_ s' = <[k := committed_entry e q0]> (index_ s))) s3).
  apply (set_bit_live c p Hg); [done|done|]. intros d' Hl4. split_and!; [done| |intros _; by exists q].
  split; [|done..]. intros k'. cbn. destruct (decide (k = k')) as [<-|Hne]; [rewrite lookup_insert_eq; right; by exists e, q|].
  rewrite lookup_insert_ne by done. by left.
Qed.

Lemma commit_keys_ok keys acc s : live c p s →
  wp (commit_keys keys acc) (λ r s', live c p s' ∧ commit_frame s s' ∧
    ∀ slots, r = Ok slots → ∃ new, slots = acc ++ new ∧ committed_all keys s s' new) s.
Proof using Hg.
  revert acc s. induction keys as [|k keys IH]; intros acc s Hl; cbn [commit_keys].
  { apply wp_ret. split_and!; [done|reflexivity|]. intros slots [= <-]. exists []. rewrite app_nil_r. split; [done|]. split; set_solver. }
  wp_steps. destruct (index_ s !! k) as [e|] eqn:Hk; [destruct (en_committed e) eqn:Hc|].
  - eapply wp_mono; [by apply IH|]. intros r s' (? & F & Hr). split_and!; [done..|]. intros slots Hs.
    destruct (Hr slots Hs) as (new & -> & [A1 A2 A3 A4]). exists new. split; [done|]. split.
    + intros k' e' [->|Hin]%elem_of_cons Hk'; [|by eapply A1]. eapply commit_frame_contains; [done|]. unfold contains. by rewrite Hk.
    + set_solver.
    + intros k' e' [->|Hin]%elem_of_cons Hk' Hc'; [congruence|by eapply A3].
    + intros k' Hn. apply A4. set_solver.
  - pose proof (commit_one_ok s k e Hl Hk Hc) as H1. unfold wp in H1 |- *. unfold mbind, M_bind, modify, gets in H1 |- *.
    destruct (write_header_locked _ _ _ _ _) as [[[]|e1|f1] s1]; cbn [fst snd] in H1 |- *; [|by destruct H1 as (? & ? & _); split_and!..].
    destruct (on_disk _ _) as [[[]|e1|f1] s2]; cbn [fst snd] in H1 |- *; [|by destruct H1 as (? & ? & _); split_and!..].
    destruct H1 as (Hl2 & F2 & Hi). destruct (Hi eq_refl) as [q Hq]. clear Hi. destruct (IH (acc ++ [en_slot e]) s2 Hl2) as (Hl3 & F3 & Hr).
    split_and!; [done|by etrans|]. intros slots Hs. destruct (Hr slots Hs) as (new & -> & [A1 A2 A3 A4]).
    exists (en_slot e :: new). split; [by rewrite <- app_assoc|]. split.
    + intros k' e' Hin Hk'. destruct (decide (k' = k)) as [->|Hne].
      * eapply commit_frame_contains; [exact F3|]. unfold contains. by rewrite Hq, lookup_insert_eq.
      * apply (A1 k' e'); [set_solver|]. by rewrite Hq, lookup_insert_ne.
    + intros x [->|Hin]%elem_of_cons; [exists k, e; set_solver|]. destruct (A2 x Hin) as (k' & e' & H1 & H2 & H3 & H4).
      rewrite Hq in H2. apply lookup_insert_Some in H2 as [[<- <-]|[Hne H2]]; [done|]. exists k', e'. set_solver.
    + intros k' e' Hin Hk' Hc'. destruct (decide (k' = k)) as [->|Hne]; [apply elem_of_cons; left; congruence|].
      right. apply (A3 k' e'); [set_solver| |done]. by rewrite Hq, lookup_insert_ne.
    + intros k' Hn. rewrite A4 by set_solver. rewrite Hq, lookup_insert_ne; [done|]. set_solver.
  - eapply wp_mono; [by apply IH|]. intros r s' (? & F & Hr). split_and!; [done..|]. intros slots Hs.
    destruct (Hr slots Hs) as (new & -> & [A1 A2 A3 A4]). exists new. split; [done|]. split; [|set_solver| |].
    + intros k' e' [->|Hin]%elem_of_cons Hk'; [congruence|by eapply A1].
    + intros k' e' [->|Hin]%elem_of_cons Hk' Hc'; [congruence|by eapply A3].
    + intros k' Hn. apply A4. set_solver.
Qed.

(** The entry an object has after a run of [commit]. *)
Lemma commit_frame_entry s s' k e : commit_frame s s' → index_ s !! k = Some e →
  ∃ e', index_ s' !! k = Some e' ∧ en_slot e' = en_slot e ∧ (contains k s' = true → en_committed e' = true).
Proof using Type. clear Hg.
  intros H Hk. unfold contains. destruct (cf_index _ _ H k) as [E|(e0 & q & E1 & _ & E3)].
  - exists e. rewrite E, Hk. by split_and!.
  - assert (e0 = e) as -> by congruence. exists (committed_entry e q). by rewrite E3.
Qed.

(** The allocator moves the slots of freshly committed objects. *)
Lemma live_commit_slots keys s s' slots : live c p s → live c p s' → commit_frame s s' → committed_all keys s s' slots →
  live c p (s' <| allocator_ ::= SpaceAlloc.commit slots |>) ∧
  (∀ k e, k ∈ keys → index_ s !! k = Some e → en_committed e = false → state_at (SpaceAlloc.commit slots (allocator_ s')) (en_slot e) = kCommitted).
Proof using Type. clear Hg.
  intros Hl Hl' F [A1 A2 A3 A4]. destruct (lv_inv _ _ _ Hl) as [I1 _ I3 _]. destruct (lv_inv _ _ _ Hl') as [J1 J2 J3 _].
  assert (Hu : u64s slots).
  { apply Forall_forall. intros x Hx. destruct (A2 x Hx) as (k & e & _ & Hk & _ & <-). by apply (ii_state _ _ _ I3 k e). }
  destruct (commit_moves slots (allocator_ s') Hu J1) as (Hst & _ & Hgen & _). split.
  - apply live_states; [done|by apply commit_inv|by eapply gens_fit_same|]. intros k e Hk [H0 Ho]. split; [done|]. rewrite Hst by done. unfold moved.
    case_decide as Hd; [|done]. right. split; [done|]. destruct Hd as [Hin _]. destruct (A2 _ Hin) as (k0 & e0 & Hk0 & He0 & _ & E0).
    destruct (commit_frame_entry s s' k0 e0 F He0) as (e1 & He1 & Es & Hc). specialize (Hc (A1 k0 e0 Hk0 He0)).
    assert (k = k0) as -> by (apply (index_inj _ _ _ k k0 e e1 J3); congruence). congruence.
  - intros k e Hk He Hc. destruct (ii_state _ _ _ I3 k e He) as [H0 [Hr|[_ ?]]]; [|congruence]. rewrite Hst by done. unfold moved.
    rewrite (cf_alloc _ _ F). rewrite decide_True; [done|]. split; [by eapply A3|done].
Qed.

(** A finished [commit]: named objects are committed in the index and in the
    allocator. *)
Record commit_done (keys : list ObjectKey) (s s' : store) : Prop := {
  cd_contains : ∀ k e, k ∈ keys → index_ s !! k = Some e → contains k s' = true;
  cd_state : ∀ k e, k ∈ keys → index_ s !! k = Some e → en_committed e = false → state_at (allocator_ s') (en_slot e) = kCommitted;
  cd_others : ∀ k, k ∉ keys → index_ s' !! k = index_ s !! k;
}.

Lemma commit_ok keys s : live c p s → wp (ObjStore.commit keys) (λ r s', live c p s' ∧ (r = Ok tt → commit_done keys s s')) s.
Proof using Hg.
  intros Hl. unfold ObjStore.commit. apply wp_bind, wp_writable; [done|]. apply wp_bind, wp_ready; [done|]. apply wp_bind.
  eapply wp_mono; [apply (commit_keys_ok keys [] s Hl)|]. intros r s1 (Hl1 & F & Hr). destruct r as [slots|e|f]; [|done..].
  destruct (Hr slots eq_refl) as (new & -> & Hall). cbn [app]. destruct (live_commit_slots keys s s1 new Hl Hl1 F Hall) as [Hl2 Hst].
  destruct Hall as [A1 A2 A3 A4]. apply wp_when; intros Hne.
  - wp_steps. split; [by apply live_dirty|]. intros _. by split.
  - split; [done|]. intros _. split; [done| |done]. intros k e Hk He Hc. apply negb_false_iff, bool_decide_eq_true in Hne. subst new.
    specialize (A3 k e Hk He Hc). set_solver.
Qed.

(** ** Abort and release *)

(** The index without the named objects that [drop] selects. *)
Definition removed (drop : ObjectKey → Entry → bool) (keys : list ObjectKey) (idx : gmap ObjectKey Entry) : gmap ObjectKey Entry :=
  filter (λ kv, ¬ (kv.1 ∈ keys ∧ drop kv.1 kv.2 = true)) idx.

Lemma removed_nil drop idx : removed drop [] idx = idx.
Proof using Type. apply map_filter_id. intros k e _ [H _]. by apply elem_of_nil in H. Qed.

Lemma removed_cons drop k keys idx : removed drop (k :: keys) idx =
  removed drop keys (match idx !! k with Some e => if drop k e then delete k idx else idx | None => idx end).
Proof using Type. clear Hg.
  apply map_eq. intros k'. apply option_eq. intros e'. unfold removed. rewrite !map_lookup_filter_Some. cbn.
  destruct (idx !! k) as [e|] eqn:Hk; [destruct (drop k e) eqn:Hd|].
  - rewrite lookup_delete_Some. split; [|intros ((Hne & H) & Hn); split; [done|]; intros [[->|?]%elem_of_cons ?]; tauto].
    intros [H Hn]. destruct (decide (k = k')) as [<-|]; [|set_solver]. exfalso. apply Hn. split; [by left|]. congruence.
  - split; intros [H Hn]; (split; [done|]); [set_solver|]. intros [[->|?]%elem_of_cons ?]; [congruence|tauto].
  - split; intros [H Hn]; (split; [done|]); [set_solver|]. intros [[->|?]%elem_of_cons ?]; [congruence|tauto].
Qed.

(** One object taken out of both maps: its slot has no owner. *)
Lemma live_remove s k e : live c p s → index_ s !! k = Some e →
  live c p (s <| slot_owner_ ::= delete (en_slot e) |> <| index_ ::= delete k |>).
Proof using Type. clear Hg.
  intros [L1 L2 L3 [I1 I2 I3 I4] L5 L6 L7] Hk. split; try done; cbn.
  - split; try done. by apply index_inv_remove.
  - eapply durable_subset; [|exact L6]. by intros k' e' [_ ?]%lookup_delete_Some.
Qed.

(** Slots given up by the loops: valid numbers without an owner. *)
Definition unowned (s : store) (slots : list Z) : Prop := ∀ x, x ∈ slots → 0 ≤ x ∧ slot_owner_ s !! x = None.

Lemma unowned_add s k e slots : live c p s → index_ s !! k = Some e → unowned s slots →
  unowned (s <| slot_owner_ ::= delete (en_slot e) |> <| index_ ::= delete k |>) (slots ++ [en_slot e]).
Proof using Type. clear Hg.
  intros Hl Hk Hu x [Hx| ->%list_elem_of_singleton]%elem_of_app; cbn.
  - destruct (Hu x Hx) as [? ?]. split; [done|]. by rewrite lookup_delete_None; right.
  - split; [|by rewrite lookup_delete_eq]. destruct (lv_inv _ _ _ Hl) as [_ _ I3 _]. by apply (ii_state _ _ _ I3 k e).
Qed.

(** What both loops leave. *)
Record dropped (drop : ObjectKey → Entry → bool) (keys : list ObjectKey) (s s' : store) (acc slots : list Z) : Prop := {
  dr_live : live c p s';
  dr_index : index_ s' = removed drop keys (index_ s);
  dr_unowned : unowned s' slots;
  dr_slots : ∀ x, x ∈ slots ↔ x ∈ acc ∨ ∃ k e, k ∈ keys ∧ index_ s !! k = Some e ∧ drop k e = true ∧ en_slot e = x;
  dr_alloc : allocator_ s' = allocator_ s;
  dr_pins : pins_ s' = pins_ s;
}.

Lemma dropped_nil drop s acc : live c p s → unowned s acc → dropped drop [] s s acc acc.
Proof using Type. clear Hg. intros Hl Hu. split; try done; [by rewrite removed_nil|]. set_solver. Qed.

Lemma dropped_skip drop k keys s s' acc slots : (∀ e, index_ s !! k = Some e → drop k e = false) →
  dropped drop keys s s' acc slots → dropped drop (k :: keys) s s' acc slots.
Proof using Type. clear Hg.
  intros Hk [D1 D2 D3 D4 D5 D6]. split; try done.
  - rewrite removed_cons, D2. destruct (index_ s !! k) as [e|] eqn:E; [|done]. by rewrite (Hk e).
  - intros x. rewrite D4. split; [set_solver|]. intros [?|(k' & e & [->|Hin]%elem_of_cons & He & Hd & Hs)]; [by left| |right; by exists k', e].
    specialize (Hk e He). congruence.
Qed.

Lemma dropped_take drop k e keys s s1 s' acc slots : index_ s !! k = Some e → drop k e = true →
  index_ s1 = delete k (index_ s) → allocator_ s1 = allocator_ s → pins_ s1 = pins_ s →
  dropped drop keys s1 s' (acc ++ [en_slot e]) slots → dropped drop (k :: keys) s s' acc slots.
Proof using Type. clear Hg.
  intros Hk Hd Hi Ha Hp [D1 D2 D3 D4 D5 D6]. split; try done; try congruence.
  - by rewrite removed_cons, D2, Hk, Hd, Hi.
  - intros x. rewrite D4, elem_of_app, list_elem_of_singleton, Hi. split.
    + intros [[?| ->]|(k' & e' & ? & [_ ?]%lookup_delete_Some & ? & ?)]; [by left|right; exists k, e; set_solver|right; exists k', e'; set_solver].
    + intros [?|(k' & e' & [->|Hin]%elem_of_cons & He & Hd' & Hs)]; [by left; left|left; right; congruence|].
      destruct (decide (k' = k)) as [->|]; [left; right; congruence|]. right. exists k', e'. by rewrite lookup_delete_ne.
Qed.

(** Slots with no owner go back to the allocator. *)
Lemma live_give_back s a' from slots : live c p s → unowned s slots → alloc_inv a' → generations a' = generations (allocator_ s) →
  (∀ x, 0 ≤ x → state_at a' x = moved from kReclaiming slots (allocator_ s) x) → live c p (s <| allocator_ := a' |>).
Proof using Type. clear Hg.
  intros Hl Hu Ha Hgen Hst. destruct (lv_inv _ _ _ Hl) as [I1 I2 I3 I4]. apply live_states; [done|done|by eapply gens_fit_same|].
  intros k e Hk [H0 Ho]. split; [done|]. rewrite Hst by done. unfold moved. case_decide as Hd; [|done]. destruct Hd as [Hin _].
  destruct (Hu _ Hin) as [_ Hn]. rewrite (ii_owner _ _ _ I3 k e Hk) in Hn. done.
Qed.

Lemma unowned_u64 s slots : unowned s slots → u64s slots.
Proof using Type. intros H. apply Forall_forall. intros x Hx. by apply H. Qed.

Definition uncommitted (_ : ObjectKey) (e : Entry) : bool := negb (en_committed e).

Lemma abort_keys_ok keys acc s : live c p s → unowned s acc →
  wp (abort_keys keys acc) (λ r s', ∃ slots, r = Ok slots ∧ dropped uncommitted keys s s' acc slots ∧ media s' = media s) s.
Proof using Type. clear Hg.
  revert acc s. induction keys as [|k keys IH]; intros acc s Hl Hu; cbn [abort_keys].
  { apply wp_ret. exists acc. split_and!; [done|by apply dropped_nil|done]. }
  wp_steps. destruct (index_ s !! k) as [e|] eqn:Hk; [destruct (en_committed e) eqn:Hc|].
  - eapply wp_mono; [by apply IH|]. intros r s' (slots & -> & Hd & Hm). exists slots. split_and!; [done| |done].
    apply dropped_skip; [|done]. intros e' He'. unfold uncommitted. assert (e' = e) as -> by congruence. by rewrite Hc.
  - wp_steps. eapply wp_mono; [apply IH; [by apply live_remove|by apply unowned_add]|]. intros r s' (slots & -> & Hd & Hm).
    exists slots. split_and!; [done| |done]. eapply (dropped_take _ k e); [done| |..|exact Hd]; try done. unfold uncommitted. by rewrite Hc.
  - eapply wp_mono; [by apply IH|]. intros r s' (slots & -> & Hd & Hm). exists slots. split_and!; [done| |done].
    apply dropped_skip; [|done]. intros e' He'. congruence.
Qed.

Lemma abort_ok keys s : live c p s → wp (ObjStore.abort keys) (λ r s', live c p s' ∧ (r = Ok tt →
  index_ s' = removed uncommitted keys (index_ s) ∧ pins_ s' = pins_ s ∧
  ∀ k e, k ∈ keys → index_ s !! k = Some e → en_committed e = false → state_at (allocator_ s') (en_slot e) = kReclaiming)) s.
Proof using Type. clear Hg.
  intros Hl. unfold ObjStore.abort. apply wp_bind, wp_writable; [done|]. apply wp_bind.
  eapply wp_mono; [apply (abort_keys_ok keys [] s Hl); by intros x ?%elem_of_nil|]. intros r s1 (slots & -> & [D1 D2 D3 D4 D5 D6] & _). cbv beta iota.
  destruct (lv_inv _ _ _ D1) as [J1 J2 J3 _]. destruct (lv_inv _ _ _ Hl) as [_ _ I3 _].
  destruct (abort_moves slots (allocator_ s1) (unowned_u64 _ _ D3) J1) as (Hst & _ & Hgen & _).
  apply wp_when; intros Hne.
  - wp_steps. split.
    + eapply (live_give_back s1 _ kReserved slots); try done. apply abort_inv; [by eapply unowned_u64|done].
    + intros _. split_and!; [done..|]. intros k e Hk He Hc. cbn. destruct (ii_state _ _ _ I3 k e He) as [H0 [Hr|[_ ?]]]; [|congruence].
      rewrite Hst by done. unfold moved. rewrite decide_True; [done|]. rewrite D5. split; [|done]. apply D4. right. exists k, e.
      unfold uncommitted. by rewrite Hc.
  - split; [done|]. intros _. split_and!; [done..|]. intros k e Hk He Hc. apply negb_false_iff, bool_decide_eq_true in Hne.
    exfalso. apply (not_elem_of_nil (en_slot e)). rewrite <- Hne, D4. right. exists k, e. unfold uncommitted. by rewrite Hc.
Qed.

Definition released (s : store) (k : ObjectKey) (e : Entry) : bool := en_committed e && negb (pinned k s).

Lemma release_keys_ok keys acc s : live c p s → unowned s acc →
  wp (release_keys keys acc) (λ r s', ∃ slots, r = Ok slots ∧ dropped (released s) keys s s' acc slots) s.
Proof using Hg.
  revert acc s. induction keys as [|k keys IH]; intros acc s Hl Hu; cbn [release_keys].
  { apply wp_ret. exists acc. split_and!; [done|by apply dropped_nil]. }
  wp_steps. destruct (index_ s !! k) as [e|] eqn:Hk; [wp_steps; destruct (negb (en_committed e) || pinned k s) eqn:Hc|].
  - eapply wp_mono; [by apply IH|]. intros r s' (slots & -> & Hd). exists slots. split; [done|].
    apply dropped_skip; [|done]. intros e' He'. unfold released. assert (e' = e) as -> by congruence.
    by destruct (en_committed e), (pinned k s).
  - wp_steps. apply (clear_bit_live c p Hg); [done|done|]. intros d' Hl'. wp_steps.
    assert (Hu' : unowned (s <| media := d' |>) acc) by done.
    eapply wp_mono; [apply IH; [by apply (live_remove (s <| media := d' |>))|by apply (unowned_add (s <| media := d' |>))]|]. intros r s' (slots & -> & Hd).
    exists slots. split; [done|]. eapply (dropped_take _ k e); [done| |..|exact Hd]; try done. unfold released.
    by destruct (en_committed e), (pinned k s).
  - eapply wp_mono; [by apply IH|]. intros r s' (slots & -> & Hd). exists slots. split; [done|].
    apply dropped_skip; [|done]. intros e' He'. congruence.
Qed.

Lemma release_ok keys s : live c p s → wp (ObjStore.release keys) (λ r s', live c p s' ∧ (∀ n, r = Ok n →
  index_ s' = removed (released s) keys (index_ s) ∧ pins_ s' = pins_ s ∧
  ∃ slots, n = Z.of_nat (length slots) ∧
    (∀ x, x ∈ slots ↔ ∃ k e, k ∈ keys ∧ index_ s !! k = Some e ∧ released s k e = true ∧ en_slot e = x) ∧
    ∀ x, 0 ≤ x → state_at (allocator_ s') x = moved kCommitted kReclaiming slots (allocator_ s) x)) s.
Proof using Hg.
  intros Hl. unfold ObjStore.release. apply wp_bind, wp_writable; [done|]. apply wp_bind.
  eapply wp_mono; [apply (release_keys_ok keys [] s Hl); by intros x ?%elem_of_nil|]. intros r s1 (slots & -> & [D1 D2 D3 D4 D5 D6]). cbv beta iota.
  destruct (lv_inv _ _ _ D1) as [J1 J2 J3 _].
  assert (D4' : ∀ x, x ∈ slots ↔ ∃ k e, k ∈ keys ∧ index_ s !! k = Some e ∧ released s k e = true ∧ en_slot e = x).
  { intros x. rewrite D4. split; [by intros [?%elem_of_nil|?]|by right]. }
  destruct (release_moves slots (allocator_ s1) (unowned_u64 _ _ D3) J1) as (Hst & _ & Hgen & _).
  apply wp_bind. apply wp_when; intros Hne.
  - wp_steps. split.
    + apply live_dirty. eapply (live_give_back s1 _ kCommitted slots); try done. apply release_inv; [by eapply unowned_u64|done].
    + intros n [= <-]. split_and!; [done..|]. exists slots. split_and!; [done|exact D4'|]. intros x Hx. cbn.
      rewrite Hst by done. unfold moved. by rewrite D5.
  - wp_steps. split; [done|]. intros n [= <-]. split_and!; [done..|]. exists slots. split_and!; [done|exact D4'|]. intros x Hx.
    apply negb_false_iff, bool_decide_eq_true in Hne. rewrite Hne, D5. unfold moved. rewrite decide_False; [done|].
    by intros [?%elem_of_nil _].
Qed.

(** ** Pins *)
Lemma pins_loop (f : ObjectKey → gmap ObjectKey Z → gmap ObjectKey Z) keys s : live c p s →
  wp (for_each (λ k, modify (λ s, s <| pins_ ::= f k |>)) keys) (λ r s', live c p s' ∧ index_ s' = index_ s ∧ allocator_ s' = allocator_ s) s.
Proof using Type. clear Hg.
  intros Hl. eapply wp_mono; [apply (wp_for_each _ (λ _ s', live c p s' ∧ index_ s' = index_ s ∧ allocator_ s' = allocator_ s))|by intros r s' [_ ?]].
  - done.
  - intros k l s1 (Hl1 & E1 & E2). wp_steps. split_and!; [done|by apply live_pins|done..].
Qed.

Lemma pin_ok keys s : live c p s → wp (pin keys) (λ r s', live c p s' ∧ index_ s' = index_ s ∧ allocator_ s' = allocator_ s) s.
Proof using Type. intros Hl. unfold pin. apply wp_bind, wp_writable; [done|]. by apply (pins_loop (λ k m, <[k := u32 (default 0 (m !! k) + 1)]> m)). Qed.
Lemma unpin_ok keys s : live c p s → wp (unpin keys) (λ r s', live c p s' ∧ index_ s' = index_ s ∧ allocator_ s' = allocator_ s) s.
Proof using Type. intros Hl. unfold unpin. apply wp_bind, wp_writable; [done|]. by apply (pins_loop unpin_key). Qed.
End write.
