(* ===== verification/ObjStoreMedia.v ===== *)
(** * Reclamation, growth, checkpoints and closing on a live store

    The operations that spend their time on the media.  Whatever the calls
    below answer, the headers of the committed objects stay as they are. *)
From stdpp Require Import sorting pretty.
From S2P Require Import Prelude Digest Bytes SlotPlace SpaceAlloc ObjHeader Checkpoint Media MediaSpec Residency ObjStore ObjStoreInv ObjStoreOps ObjStoreWrite.
Open Scope Z_scope.

Lemma frames_attempt {S A} (R : S → S → Prop) (m : M S A) : frames R m → frames R (attempt m).
Proof. intros H s. specialize (H s). unfold attempt. by destruct (m s) as [[a|e|f] s']. Qed.

Section media.
Context (c : StoreConfig) (p : FixedSegmentFilePlacement) (Hg : geometry c p).

(** ** Reclamation *)

(** The bytes of the slots being cleared. *)
Definition slots_region (size : Z) (slots : list Z) (path : string) (i : Z) : Prop :=
  ∃ x, x ∈ slots ∧ region (path_for_slot p x) (header_offset_for_slot p x) (header_offset_for_slot p x + size) path i.

Lemma zero_slots_frames Rel size `{!PreOrder Rel} taken dn failed :
  (∀ x, x ∈ taken → frames Rel (zero_file_range (path_for_slot p x) (header_offset_for_slot p x) size)) →
  frames Rel (zero_slots p size taken dn failed).
Proof using Type. clear Hg.
  revert dn failed. induction taken as [|x taken IH]; intros dn failed H; cbn [zero_slots]; [apply frames_ret, _|].
  apply frames_bind; [apply _|apply frames_attempt, H; by left|]. intros [e|[]]; apply IH; intros y Hy; apply H; by right.
Qed.

(** The two result lists split the slots. *)
Lemma zero_slots_split size taken dn failed d r d' : zero_slots p size taken dn failed d = (Ok r, d') →
  r.1 ++ r.2 ≡ₚ dn ++ failed ++ taken.
Proof using Type. clear Hg.
  revert dn failed d. induction taken as [|x taken IH]; intros dn failed d; cbn [zero_slots].
  { intros [= <- _]. cbn. by rewrite app_nil_r. }
  unfold mbind, M_bind. destruct (attempt _ d) as [[[e|[]]|e|f] d1]; [| |done..]; intros H; apply IH in H; rewrite H; solve_Permutation.
Qed.

Lemma safe_slots idx slots : (∀ x, x ∈ slots → 0 ≤ x ∧ ∀ k e, idx !! k = Some e → en_slot e ≠ x) →
  (∀ k e, idx !! k = Some e → 0 ≤ en_slot e) → safe_region p idx nothing (slots_region (fp_slot_bytes p) slots).
Proof using Hg.
  intros Hs Hpos k e Hk Hc. split; [by intros []|]. intros i Hi (x & Hx & Hr). destruct (Hs x Hx) as [H0 Hne].
  destruct (slot_region_safe c p Hg idx x (fp_slot_bytes p) H0 ltac:(lia) Hpos ltac:(intros ? ? ? _; by eapply Hne) k e Hk Hc) as [_ H].
  by apply (H i Hi).
Qed.

(** Slots the allocator is reclaiming belong to nobody. *)
Lemma reclaiming_unowned s x k e : live c p s → index_ s !! k = Some e → state_at (allocator_ s) x = kReclaiming → en_slot e ≠ x.
Proof using Type. clear Hg.
  intros Hl Hk Hx <-. destruct (lv_inv _ _ _ Hl) as [_ _ I3 _]. destruct (ii_state _ _ _ I3 k e Hk) as [_ [?|[? _]]]; congruence.
Qed.

(** Finishing or requeueing slots in flight: only their states and
    generations change. *)
Lemma requeue_same l a : states (requeue_reclaim l a) = states a ∧ generations (requeue_reclaim l a) = generations a.
Proof using Type. clear Hg.
  unfold requeue_reclaim. revert a. induction l as [|x l IH]; intros a; [done|]. cbn [foldl]. destruct (IH (requeue_slot a x)) as [-> ->].
  unfold requeue_slot. by repeat case_bool_decide.
Qed.

Lemma finish_others l a y : 0 ≤ y → u64s l → alloc_inv a → y ∉ l → state_at (finish_reclaim l a) y = state_at a y.
Proof using Type. clear Hg.
  unfold finish_reclaim. intros Hy Hl. revert a. induction Hl as [|x l Hx _ IH]; intros a Ha Hn; [done|]. cbn [foldl].
  rewrite IH; [|by apply finish_slot_inv|set_solver]. unfold finish_slot. repeat case_bool_decide; try done.
  trans (state_at (put_state x kFree a) y); [done|]. apply state_at_put_ne; [done|done|set_solver].
Qed.

Lemma finish_gens l a : gens_fit a → gens_fit (finish_reclaim l a).
Proof using Type. clear Hg.
  unfold finish_reclaim. revert a. induction l as [|x l IH]; intros a Ha; [done|]. cbn [foldl]. apply IH. unfold finish_slot.
  repeat case_bool_decide; try done. intros y. unfold generation_at. cbn. destruct (decide (Z.to_nat x = Z.to_nat y)) as [E|E].
  - rewrite <- E, list_lookup_alter_eq. destruct (generations a !! Z.to_nat x) as [g|]; cbn; [apply wrap_fits; lia|by vm_compute].
  - rewrite list_lookup_alter_ne by done. apply Ha.
Qed.

Lemma zero_taken_ok s slots : live c p s → (∀ x, x ∈ slots → 0 ≤ x ∧ state_at (allocator_ s) x = kReclaiming) →
  wp (on_disk (zero_slots p (fp_slot_bytes p) slots [] [])) (λ r s', live c p s' ∧ (∃ d', s' = s <| media := d' |>) ∧
    ∀ l, r = Ok l → l.1 ++ l.2 ≡ₚ slots) s.
Proof using Hg.
  intros Hl Hs. eapply (wp_on_disk c p Hg _ _ s nothing (slots_region (fp_slot_bytes p) slots) Hl).
  - apply safe_slots; [|intros k e Hk; destruct (lv_inv _ _ _ Hl) as [_ _ I3 _]; by apply (ii_state _ _ _ I3 k e)].
    intros x Hx. destruct (Hs x Hx) as [H0 Hr]. split; [done|]. intros k e Hk. by apply (reclaiming_unowned s x k e).
  - apply zero_slots_frames; [apply _|]. intros x Hx d. eapply touches_mono; [| |apply zero_file_range_touches]; [done|].
    intros q i _ Hr. by exists x.
  - apply zero_slots_frames; [apply _|]. intros x _. apply zero_file_range_wf.
  - intros r d' E Hl' _. split_and!; [done|by exists d'|]. intros l ->. by apply zero_slots_split in E.
Qed.

Lemma drain_reclaim_ok max s : live c p s → wp (drain_reclaim max) (λ r s', live c p s' ∧ index_ s' = index_ s ∧ slot_owner_ s' = slot_owner_ s) s.
Proof using Hg.
  intros Hl. unfold drain_reclaim. apply wp_bind. unfold wp at 1. pose proof (lv_inv _ _ _ Hl) as [I1 I2 I3 I4].
  pose proof (take_reclaimable_loop_ok (reclaim_queue (allocator_ s)) max _ eq_refl I1) as Ht. fold (take_reclaimable max (allocator_ s)) in Ht.
  destruct (take_reclaimable max (allocator_ s)) as [taken a]. cbn [fst snd]. destruct Ht as (Ha & Hout & _ & Hfl & Hst & Hgen & _).
  assert (Hl1 : live c p (s <| allocator_ := a |>)).
  { apply live_states; [done|done|by eapply gens_fit_same|]. intros k e _. unfold owned_state, state_at. by rewrite Hst. }
  assert (Htk : ∀ x, x ∈ taken → 0 ≤ x ∧ state_at a x = kReclaiming).
  { intros x Hx. destruct (in_flight_reclaiming a x Ha) as (? & ? & _); [rewrite Hfl; set_solver|]. split; [lia|done]. }
  case_bool_decide; [by apply wp_ret|]. apply wp_bind, (wp_the_placement c p); [done|]. wp_steps. rewrite (lv_slot_bytes _ _ _ Hl1).
  eapply wp_mono; [by apply (zero_taken_ok _ taken Hl1)|]. intros r s2 (Hl2 & (d' & ->) & Hsplit). destruct r as [[dn failed]|e|f]; [|done..].
  specialize (Hsplit _ eq_refl). cbn [fst snd] in Hsplit. assert (Hdn : ∀ x, x ∈ dn → x ∈ taken) by (intros x Hx; rewrite <- Hsplit; set_solver).
  assert (Hfd : ∀ x, x ∈ failed → x ∈ taken) by (intros x Hx; rewrite <- Hsplit; set_solver).
  assert (Hu : u64s dn ∧ u64s failed) by (split; apply Forall_forall; intros x Hx; apply Htk; auto). destruct Hu as [Hu1 Hu2].
  assert (Hrq : ∀ a', alloc_inv a' → states a' = states a → gens_fit a' → (∀ s3, s3 = s <| allocator_ := a' |> <| media := d' |> → live c p s3 →
    live c p (s3 <| allocator_ ::= finish_reclaim dn |>))).
  { intros a' Ha' Es Hg' s3 -> Hl3. apply live_states; [done|by apply finish_inv|by apply finish_gens|]. intros k e Hk [H0 Ho]. split; [done|].
    cbn. rewrite finish_others; try done. intros Hx. destruct (Htk _ (Hdn _ Hx)) as [_ Hr].
    cbn in Ho. unfold state_at in *. rewrite Es, Hr in Ho. destruct Ho as [?|[? _]]; done. }
  assert (Hfin : ∀ a', alloc_inv a' → states a' = states a → gens_fit a' → live c p (s <| allocator_ := a' |> <| media := d' |>) →
    wp (when (negb (bool_decide (dn = []))) (modify (λ s, s <| allocator_ ::= finish_reclaim dn |>));; mret (Z.of_nat (length dn)))
      (λ r s', live c p s' ∧ index_ s' = index_ s ∧ slot_owner_ s' = slot_owner_ s) (s <| allocator_ := a' |> <| media := d' |>)).
  { intros a' Ha' Es Hg' Hl3. apply wp_bind, wp_when; intros _; wp_steps; split_and!; try done. by eapply (Hrq a'). }
  destruct (requeue_same failed a) as [Es Eg]. assert (Hga : gens_fit a) by by eapply gens_fit_same.
  apply wp_bind, wp_when; intros _; [|by apply Hfin]. apply wp_modify. apply (Hfin (requeue_reclaim failed a)); [by apply requeue_inv|done|by eapply gens_fit_same|].
  change (live c p ((s <| allocator_ := a |> <| media := d' |>) <| allocator_ := requeue_reclaim failed a |>)).
  apply live_states; [done|by apply requeue_inv|by eapply gens_fit_same|].
  intros k e _. unfold owned_state, state_at. cbn. by rewrite Es.
Qed.

(** ** Growth *)

(** Building a segment file: nothing below its present end changes. *)
Lemma materialise_live s slot n (Q : outcome unit → store → Prop) : live c p s →
  (∀ r d', live c p (s <| media := d' |>) → Q r (s <| media := d' |>)) → wp (on_disk (materialise_segment_file (path_for_slot p slot) n)) Q s.
Proof using Hg.
  intros Hl HQ. set (path := path_for_slot p slot). set (L := match files (media s) !! path with Some f => f_size f | None => 0 end).
  assert (Hs : sized path L (media s)) by (unfold sized, L; destruct (files (media s) !! path); lia).
  destruct (materialise_grows path L n (media s) Hs) as [Ht _]. pose proof (materialise_wf path n (media s) (lv_disk _ _ _ Hl)) as Hw.
  unfold wp, on_disk. destruct (materialise_segment_file path n (media s)) as [r d'] eqn:E. cbn in Ht, Hw |- *. apply HQ.
  eapply (live_media c p Hg); [done| |exact Ht|done]. intros k e Hk Hc. split; [apply segment_not_marker|]. intros i Hi [Ep HL].
  destruct (lv_durable _ _ _ Hl k e Hk Hc) as (f & [H1 H2 _ _]). unfold in_header in Hi. unfold L in HL. rewrite <- Ep, H1 in HL. lia.
Qed.

Lemma materialise_group_live slots s (Q : outcome unit → store → Prop) : live c p s →
  (∀ r d', live c p (s <| media := d' |>) → Q r (s <| media := d' |>)) → wp (on_disk (materialise_group p (map (path_for_slot p) slots))) Q s.
Proof using Hg.
  revert s. induction slots as [|x slots IH]; intros s Hl HQ; cbn [map].
  { unfold wp, on_disk. cbn. apply HQ. by destruct s. }
  pose proof (materialise_live s x (fp_file_bytes p) (λ _ s', ∃ d', s' = s <| media := d' |> ∧ live c p s') Hl ltac:(intros r d' H; by exists d')) as H1.
  unfold wp, on_disk in *. unfold materialise_group in *. cbn [for_each]. unfold mbind, M_bind.
  destruct (materialise_segment_file _ _ (media s)) as [[[]|e|f] d1]; cbn [fst snd] in H1 |- *; destruct H1 as (d' & E & Hl1);
    (assert (d' = d1) as -> by (by apply (f_equal media) in E)).
  2,3: by apply HQ.
  specialize (IH (s <| media := d1 |>) Hl1). change (media (s <| media := d1 |>)) with d1 in IH.
  destruct (for_each _ _ d1) as [r d2]. cbn in *. apply IH. intros r' d''. apply HQ.
Qed.

Lemma group_paths_slots slot s q : ∃ slots, group_paths_locked slot s q = map (path_for_slot q) slots.
Proof using Type. by eexists. Qed.

Lemma live_growth s b t n : live c p s → live c p (s <| precreate_busy_ := b |> <| precreate_target_ := t |> <| precreated_ := n |>).
Proof using Type. intros [L1 L2 L3 [I1 I2 I3 I4] L5 L6 L7]. by split. Qed.

Lemma precreate_begin_ok headroom s : live c p s →
  wp (precreate_begin headroom) (λ r s', live c p s' ∧ index_ s' = index_ s ∧
    ∀ start finish paths, r = Ok (Some (start, finish, paths)) → ∃ slots, paths = map (path_for_slot p) slots) s.
Proof using Type. clear Hg.
  intros Hl. unfold precreate_begin. apply wp_bind, wp_ready; [done|]. wp_steps. cbn [id]. destruct (read_only _); [by apply wp_ret|].
  wp_steps. set (t := Z.min _ _). assert (Hl1 : live c p (s <| precreate_target_ := t |>)) by (by apply (live_growth s (precreate_busy_ s) t (precreated_ s))).
  destruct (_ || _); [by apply wp_ret|]. apply wp_bind, (wp_the_placement c p); [done|]. wp_steps. split_and!; [|done|].
  - by apply (live_growth s true t (precreated_ s)).
  - intros start finish paths [= <- <- <-]. apply group_paths_slots.
Qed.

Lemma precreate_build_ok slots s : live c p s → wp (precreate_build (map (path_for_slot p) slots)) (λ r s', live c p s' ∧ index_ s' = index_ s) s.
Proof using Hg.
  intros Hl. unfold precreate_build. apply wp_bind, (wp_the_placement c p); [done|]. apply wp_attempt, materialise_group_live; [done|].
  intros r d' Hl'. by destruct r.
Qed.

Lemma precreate_end_ok finish made s : live c p s → wp (precreate_end finish made) (λ r s', live c p s' ∧ index_ s' = index_ s) s.
Proof using Type. clear Hg.
  intros Hl. unfold precreate_end. wp_steps. assert (Hl1 : live c p (s <| precreate_busy_ := false |>)).
  { by apply (live_growth s false (precreate_target_ s) (precreated_ s)). }
  destruct made as [e|[]]; wp_steps; [done|]. split; [|done].
  set (s1 := s <| precreate_busy_ := false |> <| precreated_ := finish |>). change (live c p (s1 <| allocator_ ::= set_ready_limit (precreated_ s1) |>)).
  assert (Hl2 : live c p s1) by (by apply (live_growth s false (precreate_target_ s) finish)).
  destruct (lv_inv _ _ _ Hl2) as [I1 I2 I3 I4]. apply live_states; [done| |done|done]. by destruct I1; split.
Qed.
End media.
