(* ===== verification/ObjStoreCkpt.v ===== *)
(** * Checkpoints of a live store

    Reading the two containers, writing the next one, and what stays on the
    media when the write stops half way. *)
From stdpp Require Import sorting pretty.
From S2P Require Import Prelude Digest Bytes SlotPlace SpaceAlloc ObjHeader Checkpoint Media MediaSpec Residency ObjStore ObjStoreInv ObjStoreOps ObjStoreWrite ObjStoreMedia.
Open Scope Z_scope.

(** Steps that only consume answers of the kernel. *)
Definition quiet (s s' : store) : Prop := ∃ d', s' = s <| media := d' |> ∧ files d' = files (media s).

#[export] Instance quiet_preorder : PreOrder quiet.
Proof.
  split; [intros s; exists (media s); by destruct s|]. intros s t u (d1 & -> & E1) (d2 & -> & E2). exists d2. split; [done|]. by rewrite E2.
Qed.

Lemma on_disk_quiet {A} (m : M disk A) s : frames (λ x y, files y = files x) m → quiet s (on_disk m s).2.
Proof. intros H. specialize (H (media s)). unfold on_disk. destruct (m (media s)) as [r d']. by exists d'. Qed.

Lemma live_quiet c p s s' : live c p s → quiet s s' → live c p s'.
Proof.
  intros [L1 L2 L3 [I1 I2 I3 I4] L5 L6 L7] (d' & -> & E). split; try done; cbn.
  - intros q f. rewrite E. apply L5.
  - intros k e Hk Hc. destruct (L6 k e Hk Hc) as (f & [H1 H2 H3 H4]). exists f. split; try done. by rewrite E.
Qed.

(** A container as it is on the media. *)
Definition container_bytes (s : store) (i : Z) : option bytes :=
  (λ f, fread f (checkpoint_container_offset i (container_bytes_ s)) (container_bytes_ s)) <$> files (media s) !! checkpoint_path_locked s.
Definition container (s : store) (i : Z) : Z * list CheckpointEntry :=
  match container_bytes s i ≫= decode_checkpoint with Some (inr x) => x | _ => (0, []) end.

Lemma container_quiet s s' i : quiet s s' → container s' i = container s i.
Proof. intros (d' & -> & E). unfold container, container_bytes. cbn. by rewrite E. Qed.

Lemma wf_fread f off n : file_wf f → wf_bytes (fread f off n).
Proof. intros [_ H]. rewrite fread_eq. apply Forall_fmap, Forall_forall. intros i _. apply H. Qed.

(** The size [open] computes for a container: room for every slot. *)
Definition meta_ok (s : store) : Prop :=
  container_bytes_ s = checkpoint_container_bytes (checkpoint_entry_capacity (total_slots (allocator_ s))) kMaxKeyBytes ∧
  8 + total_slots (allocator_ s) * 292 + 8192 ≤ 2 ^ 63.

Lemma container_geometry s : 0 ≤ total_slots (allocator_ s) → meta_ok s →
  0 < container_bytes_ s < 2 ^ 63 ∧ container_bytes_ s `mod` 4096 = 0.
Proof.
  intros H0 [-> Hb]. unfold checkpoint_container_bytes, checkpoint_entry_capacity, kMaxKeyBytes. ckpt_bounds. change (4 + 8 + 8 + 8 + 8 + 256) with 292.
  rewrite (wrap_small 64 (8 + _)) by lia. rewrite wrap_small by lia.
  destruct (round_up_spec (Z.of_nat (Z.to_nat 4096) + (8 + total_slots (allocator_ s) * 292))) as [H1 H2]; [lia..|]. ckpt_bounds; split; [lia|done].
Qed.

Lemma container_offset s i : 0 ≤ total_slots (allocator_ s) → meta_ok s → i = 0 ∨ i = 1 →
  checkpoint_container_offset i (container_bytes_ s) = i * container_bytes_ s ∧ is_aligned (checkpoint_container_offset i (container_bytes_ s)) = true.
Proof.
  intros H0 Hm Hi. destruct (container_geometry s H0 Hm) as [Hb Ha]. unfold checkpoint_container_offset, is_aligned, kMediaAlignment.
  rewrite wrap_small by lia. split; [done|]. apply bool_decide_eq_true. destruct Hi as [-> | ->]; [done|]. by rewrite Z.mul_1_l.
Qed.

(** What a read of a container shows: its contents, or nothing when a call
    failed. *)
Definition seen (s : store) (i : Z) (x : Z * list CheckpointEntry) : Prop := x = container s i ∨ (x = (0, []) ∧ ¬ healthy (media s)).

Definition still (s s' : store) : Prop := quiet s s' ∧ (healthy (media s) → healthy (media s')).

#[export] Instance still_preorder : PreOrder still.
Proof. split; [by intros s|]. intros s t u [A1 A2] [B1 B2]. split; [by etrans|auto]. Qed.

Lemma seen_still s s' i x : still s s' → seen s' i x → seen s i x.
Proof. intros [Hq Hh] [->|[-> Hn]]; [left; by apply container_quiet|]. right. split; [done|]. auto. Qed.

(** Reading a container never leaves the buffer it was read into. *)
Lemma read_container_ok i s : disk_wf (media s) → 0 ≤ total_slots (allocator_ s) → meta_ok s → i = 0 ∨ i = 1 →
  wp (read_container i) (λ r s', still s s' ∧ (r = Fault OutOfFuel ∨ ∃ x, r = Ok x ∧ seen s i x)) s.
Proof.
  intros Hw H0 Hm Hi. destruct (container_geometry s H0 Hm) as [Hsz Hal]. destruct (container_offset s i H0 Hm Hi) as [_ Hao].
  unfold read_container. wp_steps. apply wp_attempt. unfold wp.
  set (path := checkpoint_path_locked s). set (off := checkpoint_container_offset i (container_bytes_ s)) in *. set (size := container_bytes_ s) in *.
  set (m := read_checkpoint_container path off size). pose proof (on_disk_quiet m s (read_block_same _ _ _ _)) as Hq. revert Hq. unfold on_disk.
  assert (Hdone : healthy (media s) → let '(r, d') := m (media s) in keeps_healthy (media s) d' ∧ (∀ e, r = Err e → files (media s) !! path = None)).
  { intros Hh. pose proof (read_block_done false path off size (media s) Hh Hw ltac:(lia) ltac:(by apply bool_decide_eq_true) Hao) as H.
    unfold m, read_checkpoint_container. destruct (read_block _ _ _ _ _) as [r d']. destruct H as [H1 H2]. split; [done|].
    intros e ->. destruct H2 as [?|[[_ H2]|(f & _ & ?)]]; [done| |done]. destruct (files _ !! path); [by destruct H2|done]. }
  destruct (m (media s)) as [r d'] eqn:E. cbn [fst snd]. intros Hq.
  assert (Hst : still s (s <| media := d' |>)) by (split; [done|]; intros Hh; by apply Hdone).
  destruct r as [buf|e|f].
  - destruct (read_block_ok _ _ _ _ _ _ _ E Hw) as (f & Hf & ->); [lia|].
    destruct (decode_checkpoint_total (fread f off size)) as [x Hx]; [by apply wf_fread, (Hw _ _ Hf)|rewrite length_fread; lia|].
    change (wp (decoded ← from_opt OutOfBounds (decode_checkpoint (fread f off size)); mret match decoded with inl _ => (0, []) | inr (seq, entries) => (seq, entries) end)
       (λ r s', still s s' ∧ (r = Fault OutOfFuel ∨ ∃ x, r = Ok x ∧ seen s i x)) (s <| media := d' |>)).
    apply wp_bind. rewrite Hx. eapply wp_from_opt; [done|]. cbv beta iota. apply wp_ret. split; [done|]. right. eexists. split; [done|]. left.
    unfold container, container_bytes. fold path size off. rewrite Hf. cbn. fold off. rewrite Hx. by destruct x as [|[seq es]].
  - apply wp_ret. split; [done|]. right. eexists. split; [done|]. destruct (decide (healthy (media s))) as [Hh|]; [left|by right].
    destruct (Hdone Hh) as [_ Hn]. unfold container, container_bytes. fold path. by rewrite (Hn e).
  - split; [done|]. left. f_equal. assert (Hof : only_fuel m) by apply read_block_only_fuel. apply (Hof (media s)). by rewrite E.
Qed.

Lemma read_sequences_ok s : disk_wf (media s) → 0 ≤ total_slots (allocator_ s) → meta_ok s →
  wp read_container_sequences_locked (λ r s', still s s' ∧ (r = Fault OutOfFuel ∨ ∃ x0 x1, r = Ok [x0; x1] ∧ seen s 0 x0 ∧ seen s 1 x1)) s.
Proof.
  intros Hw H0 Hm. unfold read_container_sequences_locked. apply wp_bind.
  eapply wp_mono; [apply (read_container_ok 0 s Hw H0 Hm); by left|]. intros r s1 [S1 Hr].
  destruct Hr as [->|(x0 & -> & Hx0)]; [split; [done|by left]|]. apply wp_bind.
  assert (Hw1 : disk_wf (media s1)) by (destruct S1 as [(d' & -> & E) _]; intros q f; cbn; rewrite E; apply Hw).
  assert (Hm1 : meta_ok s1 ∧ 0 ≤ total_slots (allocator_ s1)) by (by destruct S1 as [(d' & -> & _) _]). destruct Hm1 as [Hm1 H1].
  eapply wp_mono; [apply (read_container_ok 1 s1 Hw1 H1 Hm1); by right|]. intros r s2 [S2 Hr].
  destruct Hr as [->|(x1 & -> & Hx1)]; [split; [by etrans|by left]|]. apply wp_ret. split; [by etrans|]. right. exists x0, x1.
  split_and!; [done|done|by eapply seen_still].
Qed.

(** Every entry of a checkpoint of a live store is one the codec keeps, and
    there are no more entries than slots. *)
Section persist.
Context (c : StoreConfig) (p : FixedSegmentFilePlacement) (Hg : geometry c p).

Lemma entries_spec s ce : ce ∈ checkpoint_entries c (index_ s) ↔
  ∃ k e, index_ s !! k = Some e ∧ en_committed e = true ∧
    ce = {| ce_key := k; ce_slot := en_slot e; ce_payload_bytes := layout_payload_bytes c; ce_generation := en_generation e; ce_commit_seq := en_commit_seq e |}.
Proof using Type. clear Hg.
  unfold checkpoint_entries. rewrite list_elem_of_fmap. split.
  - intros ([k e] & -> & [Hk Hc]%elem_of_map_to_list%map_lookup_filter_Some). by exists k, e.
  - intros (k & e & Hk & Hc & ->). exists (k, e). split; [done|]. apply elem_of_map_to_list, map_lookup_filter_Some. done.
Qed.

Lemma entries_ok s : live c p s → Forall entry_ok (checkpoint_entries c (index_ s)).
Proof using Type. clear Hg.
  intros Hl. destruct (lv_inv _ _ _ Hl) as [I1 _ I3 _]. apply Forall_forall; intros ce (k & e & Hk & Hc & ->)%entries_spec.
  destruct (ii_wf _ _ _ I3 k e Hk) as [(K1 & K2 & K3) G S]. destruct (ii_state _ _ _ I3 k e Hk) as [H0 Hst].
  assert (Hn : state_at (allocator_ s) (en_slot e) ≠ kFree) by (destruct Hst as [->|[-> _]]; done).
  pose proof (below_total _ _ I1 H0 Hn). pose proof (ai_bounds _ I1).
  split; cbn; try done; [unfold fits; lia|apply payload_fits].
Qed.

(** Keys as [reserve] admits them. *)
Definition short_keys (s : store) : Prop := ∀ k e, index_ s !! k = Some e → Z.of_nat (length k) ≤ kMaxKeyBytes.

Lemma entries_short s : short_keys s → Forall (λ e, Z.of_nat (length (ce_key e)) ≤ kMaxKeyBytes) (checkpoint_entries c (index_ s)).
Proof using Type. clear Hg. intros H. apply Forall_forall. intros ce (k & e & Hk & Hc & ->)%entries_spec. by apply (H k e). Qed.

Lemma entries_count s : live c p s → Z.of_nat (length (checkpoint_entries c (index_ s))) ≤ total_slots (allocator_ s).
Proof using Type. clear Hg.
  intros Hl. destruct (lv_inv _ _ _ Hl) as [I1 _ I3 _]. pose proof (ai_bounds _ I1).
  assert (Hnd : NoDup (ce_slot <$> checkpoint_entries c (index_ s))).
  { unfold checkpoint_entries. match goal with |- context [map ?f ?l] => change (map f l) with (f <$> l) end. rewrite <- list_fmap_compose. apply NoDup_fmap_2_strong; [|apply NoDup_map_to_list].
    intros [k e] [k' e'] [Hk _]%elem_of_map_to_list%map_lookup_filter_Some [Hk' _]%elem_of_map_to_list%map_lookup_filter_Some E. cbn in E.
    assert (k = k') as <- by (by apply (index_inj _ _ _ k k' e e' I3)). congruence. }
  assert (Hsub : ce_slot <$> checkpoint_entries c (index_ s) ⊆+ seqZ 0 (total_slots (allocator_ s))).
  { apply NoDup_submseteq; [done|]. intros x (ce & -> & (k & e & Hk & Hc & ->)%entries_spec)%list_elem_of_fmap. cbn.
    destruct (ii_state _ _ _ I3 k e Hk) as [H0 Hst]. assert (Hn : state_at (allocator_ s) (en_slot e) ≠ kFree) by (destruct Hst as [->|[-> _]]; done).
    pose proof (below_total _ _ I1 H0 Hn). apply elem_of_seqZ. lia. }
  apply submseteq_length in Hsub. rewrite length_fmap, length_seqZ in Hsub. lia.
Qed.

Definition next_of (x0 x1 : Z * list CheckpointEntry) : Z := Z.of_nat (next_checkpoint_container [x0.1; x1.1]).

Lemma next_of_range x0 x1 : next_of x0 x1 = 0 ∨ next_of x0 x1 = 1.
Proof using Type. unfold next_of, next_checkpoint_container. cbn. repeat case_bool_decide; auto. Qed.

(** Everything of the store that a checkpoint leaves alone. *)
Record ckpt_frame (s s' : store) : Prop := {
  kf_index : index_ s' = index_ s;
  kf_owner : slot_owner_ s' = slot_owner_ s;
  kf_alloc : allocator_ s' = allocator_ s;
  kf_config : config_ s' = config_ s;
  kf_size : container_bytes_ s' = container_bytes_ s;
  kf_opened : opened_ s' = opened_ s;
}.

#[local] Instance ckpt_frame_preorder : PreOrder ckpt_frame.
Proof. split; [by intros s|]. intros s t u [] []. split; congruence. Qed.

Lemma quiet_frame s s' : quiet s s' → ckpt_frame s s'.
Proof using Type. by intros (d' & -> & _). Qed.

(** The image in its padding. *)
Lemma padded_image image size : Z.of_nat (length image) ≤ size →
  fill image (replicate (Z.to_nat size) 0) = image ++ replicate (Z.to_nat size - length image) 0.
Proof using Type. clear Hg.
  intros H. unfold fill. by rewrite drop_replicate.
Qed.

(** The write of the next container. *)
Lemma write_container_ok s i es q : live c p s → meta_ok s → is_Some (files (media s) !! checkpoint_path_locked s) → i = 0 ∨ i = 1 → fits 64 q →
  es = checkpoint_entries c (index_ s) → short_keys s →
  let image := fill (encode_checkpoint es q) (replicate (Z.to_nat (container_bytes_ s)) 0) in
  wp (on_disk (write_checkpoint_container (checkpoint_path_locked s) (checkpoint_container_offset i (container_bytes_ s)) image))
    (λ r s', live c p s' ∧ (∃ d', s' = s <| media := d' |>) ∧ container_bytes s' (1 - i) = container_bytes s (1 - i) ∧
             (r = Ok tt → container s' i = (q, es))) s.
Proof using Hg.
  intros Hl Hm [f0 Hf0] Hi Hq Hes Hsh image. pose proof (ai_bounds _ (si_alloc _ (lv_inv _ _ _ Hl))) as Hb.
  destruct (container_geometry s ltac:(lia) Hm) as [Hsz Hal]. destruct (container_offset s i ltac:(lia) Hm Hi) as [Hoff Hao].
  destruct (container_offset s (1 - i) ltac:(lia) Hm ltac:(lia)) as [Hoff' _].
  pose proof (entries_ok s Hl) as Hok. pose proof (entries_short s Hsh) as Hkeys. pose proof (entries_count s Hl) as Hcnt.
  rewrite <- Hes in Hok, Hkeys, Hcnt. assert (Hfit : Z.of_nat (length (encode_checkpoint es q)) ≤ container_bytes_ s).
  { destruct Hm as [-> Hm]. apply image_fits_container; [done|done|by vm_compute|]. unfold checkpoint_entry_capacity, kMaxKeyBytes. lia. }
  unfold image. rewrite (padded_image _ _ Hfit). clear image. set (pad := replicate _ 0). set (image := encode_checkpoint es q ++ pad).
  assert (Hlen : Z.of_nat (length image) = container_bytes_ s) by (unfold image, pad; rewrite length_app, length_replicate; lia).
  assert (Hwf : wf_bytes image) by (apply Forall_app_2; [by apply wf_encode|apply Forall_replicate; lia]).
  set (path := checkpoint_path_locked s) in *. set (off := checkpoint_container_offset i (container_bytes_ s)) in *.
  eapply (wp_on_disk c p Hg _ _ s nothing (region path off (off + Z.of_nat (length image))) Hl).
  - apply other_file_safe. intros slot. apply segment_not_checkpoint.
  - apply write_block_touches.
  - by apply write_block_wf.
  - intros r d' E Hl' Ht. split_and!; [done|by exists d'| |].
    + unfold container_bytes. cbn. change (checkpoint_path_locked (s <| media := d' |>)) with path.
      destruct (Ht path f0 ltac:(by intros []) Hf0) as (f' & Hf' & [_ _ _ Hbyte _]). fold path. rewrite Hf', Hf0. cbn. f_equal. rewrite Hoff'.
      apply fread_ext. intros j Hj. apply Hbyte. intros [_ Hr]. rewrite Hoff, Hlen in Hr. destruct Hi; subst i; nia.
    + intros ->. apply write_block_ok in E as (f' & Hf' & _ & Hr & _). unfold container, container_bytes. cbn.
      change (checkpoint_path_locked (s <| media := d' |>)) with path. rewrite Hf'. cbn. fold off. rewrite Hlen in Hr. rewrite Hr. unfold image.
      rewrite decode_encode; try done; [fold image; lia|].
      pose proof (checkpoint_body_bound es _ kMaxKeyBytes Hcnt Hkeys ltac:(by vm_compute)). unfold kMaxKeyBytes in *. destruct Hm. lia.
Qed.

(** ** Persisting *)
Definition next_seq (s : store) (x0 x1 : Z * list CheckpointEntry) : Z := u64 (Z.max (checkpoint_seq_ s) (foldr Z.max 0 [x0.1; x1.1]) + 1).

(** On every outcome the container that is not the target keeps its bytes;
    on success the target holds the committed part of the index. *)
Definition persisted (s s' : store) (r : outcome unit) : Prop :=
  ∃ x0 x1, seen s 0 x0 ∧ seen s 1 x1 ∧
    container_bytes s' (1 - next_of x0 x1) = container_bytes s (1 - next_of x0 x1) ∧
    (r = Ok tt → container s' (next_of x0 x1) = (next_seq s x0 x1, checkpoint_entries c (index_ s)) ∧ checkpoint_seq_ s' = next_seq s x0 x1).

Lemma live_ckpt s q b : live c p s → live c p (s <| checkpoint_seq_ := q |> <| checkpoint_dirty_ := b |>).
Proof using Type. intros [L1 L2 L3 [I1 I2 I3 I4] L5 L6 L7]. by split. Qed.

Lemma container_bytes_quiet s s' i : quiet s s' → container_bytes s' i = container_bytes s i.
Proof using Type. intros (d' & -> & E). unfold container_bytes. cbn. by rewrite E. Qed.

Lemma persist_ok s : live c p s → meta_ok s → short_keys s → is_Some (files (media s) !! checkpoint_path_locked s) →
  wp persist_checkpoint_locked (λ r s', live c p s' ∧ ckpt_frame s s' ∧ persisted s s' r) s.
Proof using Hg.
  intros Hl Hm Hsh Hf. pose proof (ai_bounds _ (si_alloc _ (lv_inv _ _ _ Hl))) as Hb. unfold persist_checkpoint_locked. wp_steps. rewrite (lv_config _ _ _ Hl).
  eapply wp_mono; [apply (read_sequences_ok s (lv_disk _ _ _ Hl) ltac:(lia) Hm)|]. intros r s1 [S1 Hr].
  pose proof S1 as [Hq _]. assert (Hl1 : live c p s1) by (by eapply live_quiet).
  assert (Hnot : ∀ r', r' ≠ Ok tt → persisted s s1 r').
  { intros r' Hr'. exists (container s 0), (container s 1). split_and!; [by left|by left|by apply container_bytes_quiet|done]. }
  destruct Hr as [->|(x0 & x1 & -> & Hx0 & Hx1)]; [split_and!; [done|by apply quiet_frame|by apply Hnot]|]. cbn [map fst]. wp_steps.
  set (q := u64 (Z.max (checkpoint_seq_ s1) _ + 1)).
  apply wp_guard; [intros _; split_and!; [done|by apply quiet_frame|by apply Hnot]|]. intros _. wp_steps.
  assert (Hi : next_of x0 x1 = 0 ∨ next_of x0 x1 = 1) by apply next_of_range. unfold next_of in Hi.
  assert (Hent : checkpoint_entries c (index_ s) = checkpoint_entries c (index_ s1)) by (by destruct Hq as (d' & -> & _)).
  eapply wp_mono; [apply (write_container_ok s1 _ _ q Hl1); [| |exact Hi|apply wrap_fits; lia|exact Hent|]|].
  1,2,3: by destruct Hq as (d' & -> & E); cbn; rewrite ?E.
  intros r s2 (Hl2 & (d2 & ->) & Hother & Hok). fold (next_of x0 x1) in Hother, Hok.
  assert (Hfr : ckpt_frame s (s1 <| media := d2 |>)) by (by destruct Hq as (d' & -> & _)).
  assert (Hoth : container_bytes (s1 <| media := d2 |>) (1 - next_of x0 x1) = container_bytes s (1 - next_of x0 x1)).
  { rewrite Hother. by apply container_bytes_quiet. }
  destruct r as [[]|e|x]; [|split_and!; [done..|]; exists x0, x1; by split_and!..].
  wp_steps. split_and!; [by apply live_ckpt|by destruct Hfr; split|]. exists x0, x1. split_and!; [done..|]. intros _.
  assert (Hq' : q = next_seq s x0 x1) by (by destruct Hq as (d' & -> & _)). rewrite <- Hq'. split; [|done].
  trans (container (s1 <| media := d2 |>) (next_of x0 x1)); [done|]. exact (Hok eq_refl).
Qed.

Lemma sync_quiet s b : quiet s (on_disk (Residency.sync b) s).2.
Proof using Type.
  apply on_disk_quiet. unfold sync. destruct (rb_base b); [destruct (negb _)|]; [apply frames_ret, _|apply check_call_same|apply frames_ret, _].
Qed.

(** Attempting to sync the bitmap is quiet. *)
Lemma wp_sync s b (Q : outcome (Z + unit) → store → Prop) :
  (∀ x s', quiet s s' → Q (Ok x) s') → (∀ f s', quiet s s' → Q (Fault f) s') → wp (attempt (on_disk (Residency.sync b))) Q s.
Proof using Type.
  intros H1 H2. apply wp_attempt. unfold wp. pose proof (sync_quiet s b) as H. destruct (on_disk _ s) as [[a|e|f] s']; cbn in *; auto.
Qed.

Lemma persisted_quiet s s' s'' r r' : quiet s' s'' → (r' = Ok tt → r = Ok tt) → persisted s s' r → persisted s s'' r'.
Proof using Type.
  intros Hq Hr (x0 & x1 & H0 & H1 & H2 & H3). exists x0, x1. rewrite (container_bytes_quiet s' s''), (container_quiet s' s'') by done.
  split_and!; [done..|]. intros E. destruct (H3 (Hr E)) as [-> E']. split; [done|]. by destruct Hq as (d' & -> & _).
Qed.

Lemma checkpoint_ok s : live c p s → meta_ok s → short_keys s → is_Some (files (media s) !! checkpoint_path_locked s) →
  wp checkpoint (λ r s', live c p s' ∧ ckpt_frame s s' ∧ persisted s s' r) s.
Proof using Hg.
  intros Hl Hm Hsh Hf. assert (Hnot : ∀ e, persisted s s (Err e)).
  { intros e. exists (container s 0), (container s 1). split_and!; try done; by left. }
  unfold checkpoint. wp_steps. apply wp_guard; [intros _; split_and!; [done|reflexivity|apply Hnot]|intros _]. wp_steps. apply wp_guard; [intros _; split_and!; [done|reflexivity|apply Hnot]|intros _]. wp_steps.
  eapply wp_mono; [by apply persist_ok|]. intros r s1 (Hl1 & F1 & P1). destruct r as [[]|e|x]; [|by split_and!..].
  wp_steps. apply wp_sync; intros x s2 Hq; wp_steps; (split_and!; [by eapply live_quiet|etrans; [done|by apply quiet_frame]|by eapply persisted_quiet]).
Qed.
End persist.
