(* ===== verification/ObjStoreRun.v ===== *)
(** * Histories of the object store

    The operations of [StorageObjectStore] as a step function, and the
    consistency of every state a live store goes through: any operations with
    any arguments, any answers of the kernel, and a crash in any call. *)
From stdpp Require Import sorting pretty.
From S2P Require Import Prelude Digest Bytes SlotPlace SpaceAlloc ObjHeader Checkpoint Media MediaSpec Residency ObjStore ObjStoreInv ObjStoreOps ObjStoreWrite ObjStoreMedia ObjStoreCkpt.
Open Scope Z_scope.

(** [precreate_step] drops the lock while it builds files: its three parts are
    steps of their own, with other operations in between.  [slots] are the
    slots whose files the middle part builds. *)
Inductive store_op :=
  | SOpen (config : StoreConfig)
  | SReserve (keys : list ObjectKey)
  | SCommit (keys : list ObjectKey)
  | SAbort (keys : list ObjectKey)
  | SRelease (keys : list ObjectKey)
  | SPin (keys : list ObjectKey)
  | SUnpin (keys : list ObjectKey)
  | SDrain (max : Z)
  | SGrowBegin (headroom : Z)
  | SGrowBuild (slots : list Z)
  | SGrowEnd (finish : Z) (made : Z + unit)
  | SCheckpoint
  | SClose
  | SAnswers (ans : list answer).

Definition store_step (p : FixedSegmentFilePlacement) (s : store) (op : store_op) : store :=
  match op with
  | SOpen config => (ObjStore.open config s).2
  | SReserve keys => (ObjStore.reserve keys s).2
  | SCommit keys => (ObjStore.commit keys s).2
  | SAbort keys => (ObjStore.abort keys s).2
  | SRelease keys => (ObjStore.release keys s).2
  | SPin keys => (pin keys s).2
  | SUnpin keys => (unpin keys s).2
  | SDrain max => (drain_reclaim max s).2
  | SGrowBegin headroom => (precreate_begin headroom s).2
  | SGrowBuild slots => (precreate_build (map (path_for_slot p) slots) s).2
  | SGrowEnd finish made => (precreate_end finish made s).2
  | SCheckpoint => (checkpoint s).2
  | SClose => (close s).2
  | SAnswers ans => s <| media ::= λ d, d <| answers := ans |> |>
  end.

(** Keys are byte strings, and a store is opened again only while it is open:
    [open] after [close] on the same object adds to its old index and
    allocator and is not part of these histories ([second_open_shares_slot]
    shows what it does). *)
Definition store_op_ok (s : store) (op : store_op) : Prop :=
  match op with
  | SReserve keys => Forall wf_bytes keys
  | SOpen _ => opened_ s = true
  | _ => True
  end.

Fixpoint history_ok (p : FixedSegmentFilePlacement) (s : store) (ops : list store_op) : Prop :=
  match ops with
  | [] => True
  | op :: rest => store_op_ok s op ∧ history_ok p (store_step p s op) rest
  end.

(** On an open store [open] only compares configurations. *)
Lemma open_opened config s : opened_ s = true → (ObjStore.open config s).2 = s.
Proof.
  intros Ho. unfold ObjStore.open, guard_err, mbind, M_bind, gets, fail, mret, M_ret. destruct (config_rejected config); [done|].
  rewrite Ho. by destruct (negb _).
Qed.

Lemma wp_frames {S A} (R : S → S → Prop) (m : M S A) (Q : outcome A → S → Prop) s : frames R m → (∀ r s', R s s' → Q r s') → wp m Q s.
Proof. intros H HQ. apply HQ, H. Qed.

Section run.
Context (c : StoreConfig) (p : FixedSegmentFilePlacement) (Hg : geometry c p).

Lemma on_disk_quiet_frames {A} (m : M disk A) : frames (λ x y, files y = files x) m → frames quiet (on_disk m).
Proof. intros H s. by apply on_disk_quiet. Qed.

Lemma read_sequences_quiet : frames quiet read_container_sequences_locked.
Proof.
  assert (Hr : ∀ i, frames quiet (read_container i)).
  { intros i. unfold read_container. do 2 (apply frames_bind; [apply _|apply frames_gets, _|intros ?]).
    apply frames_bind; [apply _|apply frames_attempt, on_disk_quiet_frames, read_block_same|]. intros [e|buf]; [apply frames_ret, _|].
    apply frames_bind; [apply _|apply frames_from_opt, _|intros ?]. apply frames_ret, _. }
  unfold read_container_sequences_locked. do 2 (apply frames_bind; [apply _|apply Hr|intros ?]). apply frames_ret, _.
Qed.

Lemma live_bitmap_closed s peers o : live c p s →
  live c p (s <| own_residency_ := closed_bitmap |> <| peer_residency_ := peers |> <| opened_ := o |>).
Proof using Type. intros [L1 L2 L3 [I1 I2 I3 I4] L5 L6 L7]. by split. Qed.

(** Writing a checkpoint touches no segment file, whatever was read before. *)
Lemma persist_live s : live c p s → wp persist_checkpoint_locked (λ r s', live c p s') s.
Proof using Hg.
  intros Hl. unfold persist_checkpoint_locked. wp_steps. rewrite (lv_config _ _ _ Hl).
  eapply wp_frames; [apply read_sequences_quiet|]. intros r s1 Hq. assert (Hl1 : live c p s1) by (by eapply live_quiet).
  destruct r as [containers|e|f]; [|done..].
  assert (Hent : checkpoint_entries c (index_ s) = checkpoint_entries c (index_ s1)) by (by destruct Hq as (d' & -> & _)). rewrite Hent. clear Hent Hq Hl s.
  wp_steps. apply wp_guard; [done|intros _]. wp_steps. set (image := fill _ _).
  eapply (wp_on_disk c p Hg _ _ s1 nothing _ Hl1); [|apply write_block_touches|apply write_block_wf|].
  - apply other_file_safe. intros slot. apply segment_not_checkpoint.
  - apply wf_fill; [apply wf_encode, (entries_ok c p s1 Hl1)|apply Forall_replicate; lia].
  - intros r d' _ Hl2 _. destruct r as [[]|e|f]; [|done..]. wp_steps. by apply live_ckpt.
Qed.

Lemma checkpoint_live s : live c p s → wp checkpoint (λ r s', live c p s') s.
Proof using Hg.
  intros Hl. unfold checkpoint. wp_steps. apply wp_guard; [done|intros _]. wp_steps. apply wp_guard; [done|intros _]. wp_steps.
  eapply wp_mono; [by apply persist_live|]. intros [[]|e|f] s1 Hl1; [|done..]. wp_steps.
  apply wp_sync; intros; wp_steps; by eapply live_quiet.
Qed.

Lemma close_live s : live c p s → wp close (λ r s', live c p s') s.
Proof using Hg.
  intros Hl. unfold close. wp_steps. destruct (negb _); [by apply wp_ret|]. wp_steps.
  set (rest := λ status : Z + unit, own ← gets own_residency_; attempt (on_disk (Residency.sync own)) ≫= λ _,
    modify (λ s, s <| own_residency_ := closed_bitmap |> <| peer_residency_ := [] |> <| opened_ := false |>);;
    match status with inl e => fail e | inr _ => mret tt end).
  assert (Hrest : ∀ status s1, live c p s1 → wp (rest status) (λ r s', live c p s') s1).
  { intros status s1 Hl1. unfold rest. wp_steps. apply wp_sync; intros x s2 Hq; [|by eapply live_quiet]. wp_steps.
    assert (Hl2 : live c p s2) by (by eapply live_quiet). destruct status; by apply live_bitmap_closed. }
  destruct (checkpoint_dirty_ s).
  - apply wp_attempt. eapply wp_mono; [by apply persist_live|]. intros [[]|e|f] s1 Hl1; [by apply (Hrest (inr tt))|by apply (Hrest (inl e))|done].
  - apply wp_ret. by apply (Hrest (inr tt)).
Qed.

(** One step, on every outcome. *)
Lemma store_step_live s op : store_op_ok s op → live c p s → live c p (store_step p s op).
Proof using Hg.
  intros Hop Hl. destruct op; cbn [store_step].
  - by rewrite open_opened.
  - assert (H : wp (ObjStore.reserve keys) (λ _ s', live c p s') s); [|done]. unfold ObjStore.reserve.
    apply wp_bind, wp_writable; [done|]. apply wp_bind, wp_ready; [done|].
    eapply wp_mono; [apply (reserve_keys_ok c p Hg keys no_outcome s 0); [done|done|split; [constructor|done]]|by intros r s' [? _]].
  - by apply (commit_ok c p Hg keys s Hl).
  - by apply (abort_ok c p keys s Hl).
  - by apply (release_ok c p Hg keys s Hl).
  - by apply (pin_ok c p keys s Hl).
  - by apply (unpin_ok c p keys s Hl).
  - by apply (drain_reclaim_ok c p Hg max s Hl).
  - by apply (precreate_begin_ok c p headroom s Hl).
  - by apply (precreate_build_ok c p Hg slots s Hl).
  - by apply (precreate_end_ok c p finish made s Hl).
  - by apply (checkpoint_live s Hl).
  - by apply (close_live s Hl).
  - apply (live_quiet c p s); [done|]. by exists ((media s) <| answers := ans |>).
Qed.

Lemma store_run_live s ops : history_ok p s ops → live c p s → live c p (foldl (store_step p) s ops).
Proof using Hg.
  revert s. induction ops as [|op ops IH]; intros s; [done|]. intros [Hop Hops] Hl. apply (IH _ Hops). by apply store_step_live.
Qed.
End run.
