(* ===== verification/ObjStoreLoad.v ===== *)
(** * Recovery

    Loading a checkpoint, whatever the media hold: every object the index
    takes in has its header on the media, no slot gets two owners, and the
    allocator holds exactly the recovered slots. *)
From stdpp Require Import sorting pretty.
From S2P Require Import Prelude Digest Bytes SlotPlace SpaceAlloc ObjHeader Checkpoint Media MediaSpec Residency ObjStore ObjStoreInv ObjStoreOps ObjStoreWrite ObjStoreMedia ObjStoreCkpt ObjStoreRun.
Open Scope Z_scope.

(** ** The allocator claims the recovered slots *)
Lemma sorted_last_max (l : list Z) top : StronglySorted Z.le l → last l = Some top → ∀ x, x ∈ l → x ≤ top.
Proof.
  induction 1 as [|y l Hs IH Hall]; [done|]. intros Hl x Hx. destruct l as [|z l]; [cbn in Hl; set_solver|]. rewrite last_cons_cons in Hl.
  apply elem_of_cons in Hx as [->|Hx]; [|by apply IH]. trans z; [|apply IH; [done|by left]]. by apply Forall_cons in Hall as [? _].
Qed.

Lemma top_slot l top : last (merge_sort Z.le l) = Some top → top ∈ l ∧ ∀ x, x ∈ l → x ≤ top.
Proof.
  intros H. pose proof (merge_sort_Permutation Z.le l) as Hp. split.
  - rewrite <- Hp. apply last_Some in H as [l' ->]. set_solver.
  - intros x Hx. rewrite <- Hp in Hx. eapply sorted_last_max; [|done|done]. apply StronglySorted_merge_sort; apply _.
Qed.

(** A fresh allocator gives its lowest slots. *)
Lemma reserve_fresh n a x : alloc_inv a → free_list a = [] → ready_limit a = UINT64_MAX → high_water a = 0 → 0 ≤ x < n → n ≤ total_slots a →
  x ∈ rs_slots (SpaceAlloc.reserve n a).1.
Proof.
  intros Ha Hf Hr Hh Hx Hn. pose proof (ai_bounds a Ha) as Hb. unfold SpaceAlloc.reserve. rewrite <- (Z2Nat.id n) in Hx, Hn by lia. revert Hx Hn.
  generalize (Z.to_nat n) as m. clear n. intros m Hx Hn.
  assert (Hgen : ∀ m a, free_list a = [] → ready_limit a = UINT64_MAX → 0 ≤ high_water a → high_water a + Z.of_nat m ≤ total_slots a < 2 ^ 64 →
    rs_slots (reserve_loop m a).1 = seqZ (high_water a) (Z.of_nat m)).
  2: { rewrite Hgen by (done || lia). apply elem_of_seqZ. lia. }
  clear. induction m as [|m IH]; intros a Hf Hr Hh Hb; [done|]. cbn [reserve_loop]. unfold take_free_slot_locked. rewrite Hf, Hr.
  unfold UINT64_MAX in *. rewrite bool_decide_eq_true_2 by lia. cbv beta iota.
  rewrite (bool_decide_eq_false_2 (total_slots (a <| high_water ::= λ h : Z, u64 (h + 1) |>) ≤ _)) by (cbn; lia).
  set (a1 := put_state _ _ _). specialize (IH a1). destruct (reserve_loop m a1) as [out a2]. cbn [fst rs_slots] in *.
  assert (Eh : high_water a1 = high_water a + 1) by (unfold a1; cbn; apply wrap_small; lia). rewrite IH; [|done|done|lia|].
  - rewrite Eh, (seqZ_cons (high_water a)) by lia. by replace (Z.pred (Z.of_nat (S m))) with (Z.of_nat m) by lia.
  - rewrite Eh. change (total_slots a1) with (total_slots a). lia.
Qed.

(** The slots end committed, the gaps below them go to the reclaimer. *)
Lemma claim_slots_ok to_commit a : alloc_inv a → free_list a = [] → ready_limit a = UINT64_MAX → high_water a = 0 →
  (∀ x, x ∈ to_commit → 0 ≤ x < total_slots a) →
  alloc_inv (claim_slots to_commit a) ∧ generations (claim_slots to_commit a) = generations a ∧ total_slots (claim_slots to_commit a) = total_slots a ∧
  (∀ x, x ∈ to_commit → state_at (claim_slots to_commit a) x = kCommitted) ∧
  (∀ x, 0 ≤ x → x ∉ to_commit → state_at (claim_slots to_commit a) x = kFree ∨ state_at (claim_slots to_commit a) x = kReclaiming).
Proof.
  intros Ha Hf Hr Hh Hb. unfold claim_slots. destruct (last _) as [top|] eqn:Et.
  2: { assert (Hnil : to_commit = []).
       { apply last_None in Et. apply Permutation_nil. rewrite <- (merge_sort_Permutation Z.le to_commit). by rewrite Et. }
       subst. split_and!; try done; [set_solver|]. intros x Hx _. left. apply (ai_above a Ha). lia. }
  destruct (top_slot _ _ Et) as [Htop Hmax]. pose proof (Hb top Htop) as Htb. set (sorted := merge_sort Z.le to_commit) in *.
  assert (Hin : ∀ x, x ∈ sorted ↔ x ∈ to_commit) by (intros x; unfold sorted; by rewrite (merge_sort_Permutation Z.le to_commit)).
  pose proof (reserve_ok (top + 1) a ltac:(lia) Ha) as Hres. pose proof (reserve_fresh (top + 1) a) as Hfresh.
  destruct (SpaceAlloc.reserve (top + 1) a) as [claimed a1]. destruct Hres as [R1 R2 R3 R4 R5 R6 (E1 & E2 & _) R8]. cbn [fst snd] in *.
  assert (Hu : u64s sorted) by (apply Forall_forall; intros x Hx%Hin; by apply Hb).
  destruct (commit_moves sorted a1 Hu R1) as (Hst & F1 & F2 & _). pose proof (commit_inv a1 sorted Hu R1) as Hi2.
  set (gaps := filter (λ slot, slot ∉ to_commit) (rs_slots claimed)). set (a2 := SpaceAlloc.commit sorted a1) in *.
  assert (Hgp : ∀ x, x ∈ gaps ↔ x ∉ to_commit ∧ x ∈ rs_slots claimed) by (intros x; unfold gaps; by rewrite list_elem_of_filter).
  assert (Hug : u64s gaps) by (apply Forall_forall; intros x [_ Hx]%Hgp; by apply R4).
  destruct (abort_moves gaps a2 Hug Hi2) as (Hst3 & G1 & G2 & _). pose proof (abort_inv a2 gaps Hug Hi2) as Hi3.
  assert (Hfinal : (if bool_decide (gaps = []) then a2 else SpaceAlloc.abort gaps a2) = SpaceAlloc.abort gaps a2).
  { case_bool_decide as Hg; [|done]. by rewrite Hg. }
  rewrite Hfinal. split_and!; [done|congruence|congruence| |].
  - intros x Hx. pose proof (Hb x Hx). specialize (Hmax x Hx). assert (Hcl : x ∈ rs_slots claimed) by (apply Hfresh; try done; lia).
    destruct (R4 x Hcl) as (_ & _ & Hres & _). rewrite Hst3 by lia. unfold moved. rewrite decide_False by (intros [Hg _]; apply Hgp in Hg; tauto).
    rewrite Hst by lia. unfold moved. rewrite decide_True; [done|]. split; [by apply Hin|done].
  - intros x Hx Hn. rewrite Hst3 by done. unfold moved. case_decide as Hd; [by right|]. rewrite Hst by done. unfold moved.
    rewrite decide_False by (intros [?%Hin _]; done). destruct (decide (x ∈ rs_slots claimed)) as [Hc|Hc].
    + exfalso. apply Hd. split; [by apply Hgp|]. rewrite Hst by done. unfold moved. rewrite decide_False by (intros [?%Hin _]; done). by apply R4.
    + left. rewrite R6 by done. apply (ai_above a Ha). lia.
Qed.

(** ** The loop over the entries *)
Section load.
Context (c : StoreConfig) (p : FixedSegmentFilePlacement) (Hg : geometry c p).

(** Segment files as a stopped writer leaves them: whole blocks, nothing
    waiting to be written back. *)
Definition at_rest (d : disk) : Prop := ∀ slot f, files d !! path_for_slot p slot = Some f → f_dirty f = [] ∧ f_size f `mod` 4096 = 0.

(** The store [open] has configured, before it loads. *)
Record loading (s : store) : Prop := {
  ld_config : config_ s = c;
  ld_placement : placement_ s = Some p;
  ld_slot_bytes : slot_bytes_ s = fp_slot_bytes p;
  ld_alloc : alloc_inv (allocator_ s);
  ld_free : free_list (allocator_ s) = [] ∧ ready_limit (allocator_ s) = UINT64_MAX ∧ high_water (allocator_ s) = 0;
  ld_gens : gens_fit (allocator_ s);
  ld_disk : disk_wf (media s);
  ld_rest : at_rest (media s);
  ld_own : own_residency_ s = closed_bitmap;
  ld_seq : fits 64 (commit_seq_ s);
}.

Lemma loading_quiet s s' : loading s → quiet s s' → loading s'.
Proof using Type. clear Hg.
  intros [L1 L2 L3 L4 L5 L6 L7 L8 L9 L10] (d' & -> & E). split; try done; cbn; intros x f; rewrite E; [apply L7|apply L8].
Qed.

Lemma header_offset_aligned slot : 0 ≤ slot → header_offset_for_slot p slot `mod` 4096 = 0.
Proof using Hg.
  intros H. destruct (header_offset_exact p (ge_placement _ _ Hg) slot H) as [-> _]. rewrite Z.mul_mod, (ge_aligned _ _ Hg) by lia. by rewrite Z.mul_0_r.
Qed.

(** What an accepted checkpoint entry is. *)
Record accepted_entry (s : store) (ce : CheckpointEntry) (e : Entry) : Prop := {
  ae_slot : en_slot e = ce_slot ce;
  ae_gen : en_generation e = ce_generation ce;
  ae_committed : en_committed e = true;
  ae_seq : fits 64 (en_commit_seq e);
  ae_range : ce_slot ce < total_slots (allocator_ s);
  ae_fresh : index_ s !! ce_key ce = None ∧ slot_owner_ s !! ce_slot ce = None;
  ae_header : ∃ f, header_on c p (media s) (ce_key ce) e f;
}.

Lemma accepted_payload d k e fields : accepted d (expectation c k e) = inr fields → wf_bytes d → fields = fields_of d ∧ fits 64 (hf_commit_seq fields).
Proof using Type. clear Hg.
  unfold accepted, structure_of. intros H Hw. destruct (_ || _); [done|]. destruct (bool_decide (length d < kHeaderBytes)%nat) eqn:Hl; [done|].
  apply bool_decide_eq_false in Hl. revert H. do 5 (case_match; [done|]). simplify_eq. unfold check_expectation. do 4 (case_match; [done|]).
  intros [= <-]. split; [done|]. eapply (load_u64_fits kCommitSeqOffset d); [done|]. apply load_u64_value. header_bounds. lia.
Qed.

Lemma judge_ok s ce : loading s → entry_ok ce →
  wp (judge_entry p ce) (λ r s', quiet s s' ∧ ∀ e, r = Ok (Accept e) → accepted_entry s ce e) s.
Proof using Hg.
  intros Hld Hce. unfold judge_entry. wp_steps. cbn [id]. rewrite (ld_config _ Hld).
  destruct (_ || _) eqn:E1; [by apply wp_ret|].
  apply orb_false_elim in E1 as [Hr%bool_decide_eq_false Hp%bool_decide_eq_false].
  destruct (_ || _) eqn:E2; [by apply wp_ret|]. wp_steps. apply wp_attempt. apply orb_false_elim in E2 as [Hk%bool_decide_eq_false Ho%bool_decide_eq_false].
  apply dec_stable in Hp. apply eq_None_not_Some in Hk, Ho.
  unfold wp. set (m := read_object_header _ _ _). pose proof (on_disk_quiet m s (read_block_same _ _ _ _)) as Hq. revert Hq. unfold on_disk.
  destruct (m (media s)) as [r d'] eqn:E. cbn [fst snd]. intros Hq. destruct r as [buf|e|f]; [|by apply wp_ret|by split].
  destruct (read_block_ok _ _ _ _ _ _ _ E (ld_disk _ Hld)) as (f & Hf & ->); [rewrite kHeader_4096; lia|].
  destruct (read_block_present _ _ _ _ _ _ E) as (f' & Hf' & Hsz); [rewrite kHeader_4096; lia|]. assert (f' = f) as -> by congruence. rewrite kHeader_4096.
  rewrite decode_total. split; [done|]. intros e0 He0. cbn in He0. destruct (accepted _ _) as [rej|fields] eqn:Ea; [done|]. injection He0 as <-.
  pose proof (eo_slot _ Hce) as Hslot. unfold fits in Hslot.
  destruct (accepted_payload (fread f (header_offset_for_slot p (ce_slot ce)) 4096) (ce_key ce)
    {| en_slot := ce_slot ce; en_generation := ce_generation ce; en_commit_seq := hf_commit_seq fields; en_committed := true |} fields) as [_ Hq64].
  { unfold expectation. cbn [en_generation]. by rewrite <- Hp. }
  { by apply wf_fread, (ld_disk _ Hld _ _ Hf). }
  split; cbn; try done; [lia|]. exists f. destruct (ld_rest _ Hld _ _ Hf) as [Hcl Hal]. pose proof (header_offset_aligned (ce_slot ce) ltac:(lia)).
  split; cbn; [done| | |].
  - pose proof (Z.div_mod (f_size f) 4096 ltac:(lia)). pose proof (Z.div_mod (header_offset_for_slot p (ce_slot ce)) 4096 ltac:(lia)). lia.
  - intros i _ (x & Hx & _). rewrite Hcl in Hx. by apply elem_of_nil in Hx.
  - exists fields. split; [|done]. unfold expectation. cbn [en_generation]. by rewrite <- Hp.
Qed.

(** An allocator that would hold every slot: the slots the loop hands out are
    claimed only after it. *)
Definition all_reserved (a : SpaceAllocator) : SpaceAllocator := a <| states := replicate (Z.to_nat (total_slots a)) kReserved |>.

Lemma all_reserved_state a x : 0 ≤ x < total_slots a → state_at (all_reserved a) x = kReserved.
Proof using Type. intros H. unfold state_at, all_reserved. cbn. by rewrite lookup_replicate_2 by lia. Qed.

Record recovering (s : store) (to_commit : list Z) (highest : Z) : Prop := {
  rc_loading : loading s;
  rc_index : index_inv (all_reserved (allocator_ s)) (index_ s) (slot_owner_ s);
  rc_committed : ∀ k e, index_ s !! k = Some e → en_committed e = true;
  rc_durable : durable c p (media s) (index_ s);
  rc_slots : ∀ x, x ∈ to_commit ↔ ∃ k e, index_ s !! k = Some e ∧ en_slot e = x;
  rc_range : ∀ x, x ∈ to_commit → 0 ≤ x < total_slots (allocator_ s);
  rc_highest : fits 64 highest;
}.

Lemma durable_files d d' idx : files d' = files d → durable c p d idx → durable c p d' idx.
Proof using Type. intros E H k e Hk Hc. destruct (H k e Hk Hc) as (f & [H1 H2 H3 H4]). exists f. split; try done. by rewrite E. Qed.

Lemma recovering_quiet s s' l h : recovering s l h → quiet s s' → recovering s' l h.
Proof using Type. clear Hg.
  intros [R1 R2 R3 R4 R5 R6 R7] Hq. assert (loading s') by (by eapply loading_quiet). destruct Hq as (d' & -> & E). split; try done. by eapply durable_files.
Qed.

Lemma recovering_report s l h g : recovering s l h → recovering (s <| recovery_ ::= g |>) l h.
Proof using Type. intros [[L1 L2 L3 L4 L5 L6 L7 L8 L9 L10] R2 R3 R4 R5 R6 R7]. by split; [split|..]. Qed.

(** Taking one accepted entry in. *)
Lemma recovering_accept s l h ce e : recovering s l h → entry_ok ce → accepted_entry s ce e →
  recovering (s <| index_ ::= <[ce_key ce := e]> |> <| slot_owner_ ::= <[ce_slot ce := ce_key ce]> |>) (l ++ [ce_slot ce]) (Z.max h (en_commit_seq e)).
Proof using Type. clear Hg.
  intros [[L1 L2 L3 L4 L5 L6 L7 L8 L9 L10] R2 R3 R4 R5 R6 R7] Hce [A1 A2 A3 A4 A5 [A6 A7] A8].
  assert (Hrange : 0 ≤ ce_slot ce < total_slots (allocator_ s)) by (pose proof (eo_slot _ Hce) as Hf; unfold fits in Hf; lia).
  split; cbn; [by split|..].
  - rewrite <- A1. apply index_inv_add; [done|by rewrite A1| | |done].
    + split; [lia|]. left. rewrite A1. by apply all_reserved_state.
    + destruct Hce as [K1 K2 K3 K4 K5 K6 K7]. split; [done|by rewrite A2|done].
  - intros k e' [[<- <-]|[_ Hk]]%lookup_insert_Some; [done|by eapply R3].
  - intros k e' [[<- <-]|[_ Hk]]%lookup_insert_Some Hc; [done|by apply R4].
  - intros x. rewrite elem_of_app, list_elem_of_singleton, R5. split.
    + intros [(k & e' & Hk & Hs)| ->]; [|exists (ce_key ce), e; by rewrite lookup_insert_eq].
      exists k, e'. split; [|done]. rewrite lookup_insert_ne; [done|]. intros E. congruence.
    + intros (k & e' & [[<- <-]|[_ Hk]]%lookup_insert_Some & Hs); [right; congruence|left; by exists k, e'].
  - intros x [Hx| ->%list_elem_of_singleton]%elem_of_app; [by apply R6|done].
  - unfold fits in *. lia.
Qed.

Lemma recover_loop_ok entries l h s : recovering s l h → Forall entry_ok entries →
  wp (recover_loop p entries l h) (λ r s', total_slots (allocator_ s') = total_slots (allocator_ s) ∧ ∀ l' h', r = Ok (l', h') → recovering s' l' h') s.
Proof using Hg.
  intros Hr He. revert l h s Hr. induction He as [|ce entries Hce _ IH]; intros l h s Hr; cbn [recover_loop].
  { apply wp_ret. split; [done|]. by intros l' h' [= <- <-]. }
  apply wp_bind. eapply wp_mono; [apply (judge_ok s ce (rc_loading _ _ _ Hr) Hce)|]. intros r s1 [Hq Hacc].
  assert (Ht : total_slots (allocator_ s1) = total_slots (allocator_ s)) by (by destruct Hq as (d' & -> & _)).
  destruct r as [v|e|f]; [|by split..]. wp_steps. assert (Hr1 : recovering (s1 <| recovery_ ::= add_report v |>) l h) by (by apply recovering_report, (recovering_quiet s)).
  destruct v as [| | |e]; [by eapply wp_mono; [apply IH, Hr1|]; intros r s' [E ?]; split; [by rewrite E|]..|]. wp_steps.
  assert (Ha : accepted_entry (s1 <| recovery_ ::= add_report (Accept e) |>) ce e).
  { destruct (Hacc e eq_refl) as [A1 A2 A3 A4 A5 A6 (f & [H1 H2 H3 H4])]. destruct Hq as (d' & -> & E). split; try done. exists f. split; try done. cbn. by rewrite E. }
  eapply wp_mono; [apply IH, recovering_accept; [exact Hr1|done|done]|]. intros r s' [E ?]. split; [by rewrite E|done].
Qed.

(** The store after recovery: live, all objects committed, the allocator
    holding exactly their slots. *)
Record recovered (s : store) : Prop := {
  rd_live : live c p s;
  rd_committed : ∀ k e, index_ s !! k = Some e → en_committed e = true ∧ state_at (allocator_ s) (en_slot e) = kCommitted;
  rd_unused : ∀ x, 0 ≤ x → slot_owner_ s !! x = None → state_at (allocator_ s) x = kFree ∨ state_at (allocator_ s) x = kReclaiming;
}.

(** Claiming the slots ends the recovery. *)
Lemma recovering_claim s l h : recovering s l h →
  recovered (s <| commit_seq_ ::= Z.max h |> <| allocator_ ::= claim_slots l |>).
Proof using Type. clear Hg.
  intros [[L1 L2 L3 L4 (L5 & L5' & L5'') L6 L7 L8 L9 L10] R2 R3 R4 R5 R6 R7].
  destruct (claim_slots_ok l (allocator_ s) L4 L5 L5' L5'' R6) as (Hi & Hgen & Ht & Hc & Ho).
  assert (Hst : ∀ k e, index_ s !! k = Some e → state_at (claim_slots l (allocator_ s)) (en_slot e) = kCommitted).
  { intros k e Hk. apply Hc, R5. by exists k, e. }
  split; [split|..]; try done.
  - split; cbn; [done|by eapply gens_fit_same| |unfold fits in *; lia]. eapply index_inv_states; [|exact R2]. intros k e Hk [H0 _]. split; [done|].
    right. split; [by eapply Hst|by eapply R3].
  - cbn. intros path. rewrite L9. done.
  - intros k e Hk. split; [by eapply R3|by eapply Hst].
  - cbn. intros x Hx Hn. apply Ho; [done|]. intros Hin. apply R5 in Hin as (k & e & Hk & <-). rewrite (ii_owner _ _ _ R2 k e Hk) in Hn. done.
Qed.

Lemma container_ok s i : disk_wf (media s) → Forall entry_ok (container s i).2 ∧ fits 64 (container s i).1.
Proof using Type. clear Hg.
  intros Hw. unfold container, container_bytes. destruct (files (media s) !! checkpoint_path_locked s) as [f|] eqn:Hf; cbn; [|split; [constructor|by vm_compute]].
  destruct (decode_checkpoint _) as [[|[q es]]|] eqn:Ed; cbn; [by split; [constructor|vm_compute]| |by split; [constructor|vm_compute]].
  by eapply decode_ok; [apply wf_fread, (Hw _ _ Hf)|].
Qed.

Lemma seen_ok s i x : disk_wf (media s) → seen s i x → Forall entry_ok x.2 ∧ fits 64 x.1.
Proof using Type. clear Hg. intros Hw [->|[-> _]]; [by apply container_ok|]. split; [constructor|by vm_compute]. Qed.

Lemma recovering_start s : loading s → index_ s = ∅ → slot_owner_ s = ∅ → recovering s [] 0.
Proof using Type. clear Hg.
  intros Hl Hi Ho. split; try done; try rewrite Hi; try rewrite Ho; try by (intros ? ? ?%lookup_empty_Some).
  - by split; intros ? ? ?%lookup_empty_Some.
  - intros x. split; [by intros ?%elem_of_nil|]. intros (k & e & ?%lookup_empty_Some & _). done.
  - by intros x ?%elem_of_nil.
Qed.

Lemma loading_seq s q g : loading s → loading (s <| checkpoint_seq_ := q |> <| recovery_ := g |>).
Proof using Type. intros [L1 L2 L3 L4 L5 L6 L7 L8 L9 L10]. by split. Qed.

Lemma wp_loading_placement (Q : outcome FixedSegmentFilePlacement → store → Prop) s : loading s → Q (Ok p) s → wp the_placement Q s.
Proof using Type. intros Hl HQ. unfold the_placement. wp_steps. rewrite (ld_placement _ Hl). by apply wp_ret. Qed.

Lemma rebuild_closed s (Q : outcome unit → store → Prop) : own_residency_ s = closed_bitmap → Q (Ok tt) s → wp rebuild_residency Q s.
Proof using Type. intros H HQ. unfold rebuild_residency. wp_steps. rewrite H. by apply wp_ret. Qed.

(** [claim_slots] of nothing changes nothing: a cold start is a recovery. *)
Lemma cold_start s : loading s → index_ s = ∅ → slot_owner_ s = ∅ → recovered s.
Proof using Type. clear Hg.
  intros Hl Hi Ho. pose proof (recovering_claim s [] 0 (recovering_start s Hl Hi Ho)) as H. destruct H as [[L1 L2 L3 [I1 I2 I3 I4] L5 L6 L7] R2 R3].
  split; try done. split; try done. split; try done. apply Hl.
Qed.

Lemma load_checkpoint_ok s : loading s → index_ s = ∅ → slot_owner_ s = ∅ → meta_ok s →
  wp load_checkpoint_locked (λ r s', total_slots (allocator_ s') = total_slots (allocator_ s) ∧ (r = Ok tt → recovered s')) s.
Proof using Hg.
  intros Hl Hi Ho Hm. pose proof (ai_bounds _ (ld_alloc _ Hl)) as Hb. unfold load_checkpoint_locked. wp_steps.
  set (s0 := s <| recovery_ := no_report |>). assert (Hl0 : loading s0) by (by apply (loading_seq s (checkpoint_seq_ s))).
  eapply wp_mono; [apply (read_sequences_ok s0); [by apply Hl|cbn; lia|done]|]. intros r s1 [[Hq _] Hr].
  assert (Ht : total_slots (allocator_ s1) = total_slots (allocator_ s)) by (by destruct Hq as (d' & -> & _)).
  assert (Hl1 : loading s1) by (by eapply loading_quiet). assert (Hi1 : index_ s1 = ∅ ∧ slot_owner_ s1 = ∅) by (by destruct Hq as (d' & -> & _)).
  destruct Hr as [->|(x0 & x1 & -> & Hx0 & Hx1)]; [by split|]. destruct Hi1 as [Hi1 Ho1].
  destruct (select_checkpoint_container _) as [i|] eqn:Hsel; [|apply wp_ret; split; [done|]; intros _; by apply cold_start].
  assert (Hx : ∃ x, [x0; x1] !! i = Some x ∧ Forall entry_ok x.2).
  { destruct (seen_ok s0 0 x0 (ld_disk _ Hl) Hx0) as [A0 B0]. destruct (seen_ok s0 1 x1 (ld_disk _ Hl) Hx1) as [A1 B1]. unfold fits in *.
    pose proof (select_newest (map fst [x0; x1])) as Hn. rewrite Hsel in Hn. destruct Hn as (q & Hq' & _); [by repeat constructor; lia|].
    apply list_lookup_fmap_Some in Hq' as (x & -> & Hx). exists x. split; [done|]. destruct i as [|[|i]]; cbn in Hx; by simplify_eq. }
  destruct Hx as (x & Hx & Hex). apply wp_bind. eapply wp_from_opt; [exact Hx|]. cbv beta iota. wp_steps.
  apply wp_loading_placement; [by apply loading_seq|]. apply wp_bind.
  eapply wp_mono; [apply (recover_loop_ok _ [] 0); [|exact Hex]; apply recovering_start; [by apply loading_seq|done|done]|].
  intros r s2 [Ht2 Hr2]. assert (Ht' : total_slots (allocator_ s2) = total_slots (allocator_ s)) by (by rewrite Ht2).
  destruct r as [[l h]|e|f]; [|by split..]. specialize (Hr2 l h eq_refl). wp_steps. apply rebuild_closed; [apply (rc_loading _ _ _ Hr2)|].
  split; [|intros _; by apply recovering_claim]. cbn. destruct (rc_loading _ _ _ Hr2) as [M1 M2 M3 M4 (M5 & M5' & M5'') _ _ _ _ _].
  destruct (claim_slots_ok l _ M4 M5 M5' M5'' (rc_range _ _ _ Hr2)) as (_ & _ & -> & _). done.
Qed.
End load.
