(* ===== verification/ObjStoreOpen.v ===== *)
(** * Opening a store

    [open] of a new object over any media: a store that opens is live, and what
    it recovered is on the media. *)
From stdpp Require Import sorting pretty.
From S2P Require Import Prelude Digest Bytes SlotPlace SpaceAlloc ObjHeader Checkpoint Media MediaSpec Residency ObjStore ObjStoreInv ObjStoreOps ObjStoreWrite ObjStoreMedia ObjStoreCkpt ObjStoreRun ObjStoreLoad.
Open Scope Z_scope.

(** ** The geometry *)
Definition segments_dir (c : StoreConfig) : string := String.append "r" (String.append (pretty (Z.to_N (rank_id c))) "/segments").

(** The placement [build_backend_locked] makes. *)
Definition placement_of (c : StoreConfig) : FixedSegmentFilePlacement :=
  let slot := segment_header_bytes c + layout_payload_bytes c in
  make_placement (distinct_mounts (devices c)) (segments_dir c) slot (u64 (slot * segment_file_slots c)) (segment_header_bytes c).

(** Fields of a C++ configuration, within their types. *)
Record fields_ok (c : StoreConfig) : Prop := {
  fo_segment : fits 64 (segment_bytes c) ∧ fits 64 (segment_count c);
  fo_slots : fits 64 (segment_file_slots c);
  fo_header : fits 64 (segment_header_bytes c);
  fo_capacity : fits 64 (capacity_slots c) ∧ fits 64 (capacity_bytes c);
}.

(** The same, on mounts whose segment directories have different names. *)
Record config_ok (c : StoreConfig) : Prop := {
  co_segment : fits 64 (segment_bytes c) ∧ fits 64 (segment_count c);
  co_slots : fits 64 (segment_file_slots c);
  co_header : fits 64 (segment_header_bytes c);
  co_capacity : fits 64 (capacity_slots c) ∧ fits 64 (capacity_bytes c);
  co_mounts : NoDup (map (λ m, join m (segments_dir c)) (distinct_mounts (devices c)));
}.

Lemma distinct_mounts_nonempty l : l ≠ [] → distinct_mounts l ≠ [].
Proof.
  unfold distinct_mounts. assert (H : ∀ l acc, acc ≠ [] → foldl (λ mounts m, if bool_decide (m ∈ mounts) then mounts else mounts ++ [m]) acc l ≠ ([] : list string)).
  { clear. induction l as [|x l IH]; intros acc Ha; [done|]. cbn. apply IH. case_bool_decide; [done|]. by destruct acc. }
  destruct l as [|x l]; [done|]. intros _. cbn. apply H. done.
Qed.

(** Repeated mounts are dropped; names without a trailing slash then give
    different directories. *)
Lemma distinct_mounts_nodup l : NoDup (distinct_mounts l) ∧ ∀ m, m ∈ distinct_mounts l → m ∈ l.
Proof.
  unfold distinct_mounts.
  assert (H : ∀ l acc, NoDup acc → let r := foldl (λ mounts m, if bool_decide (m ∈ mounts) then mounts else mounts ++ [m]) acc l in
    NoDup r ∧ ∀ m : string, m ∈ r → m ∈ acc ∨ m ∈ l).
  { clear. induction l as [|x l IH]; intros acc Ha; cbn [foldl]; [split; [done|by left]|].
    case_bool_decide as Hx.
    - destruct (IH acc Ha) as [H1 H2]. split; [exact H1|]. intros m Hm. specialize (H2 m Hm). set_solver.
    - destruct (IH (acc ++ [x])) as [H1 H2].
      { apply NoDup_app. split_and!; [done|set_solver|apply NoDup_singleton]. }
      split; [exact H1|]. intros m Hm. specialize (H2 m Hm). set_solver. }
  destruct (H l [] (NoDup_nil_2)) as [H1 H2]. split; [exact H1|]. intros m Hm. destruct (H2 m Hm); [set_solver|done].
Qed.

Lemma join_plain_inj m1 m2 leaf : plain_dir m1 → plain_dir m2 → join m1 leaf = join m2 leaf → m1 = m2.
Proof.
  intros H1 H2 E. apply (f_equal chars) in E. rewrite !chars_join_plain in E by done.
  apply chars_inj. by apply app_inj_2 in E as [? _].
Qed.

Lemma plain_config_ok c : fields_ok c → Forall (λ m, plain_dir m) (devices c) → config_ok c.
Proof.
  intros [F1 F2 F3 F4] Hpl. split; try done. destruct (distinct_mounts_nodup (devices c)) as [Hnd Hin].
  rewrite Forall_forall in Hpl. induction Hnd as [|m l Hm Hnd IH]; cbn; constructor.
  - intros (m' & E & Hm')%list_elem_of_fmap. apply join_plain_inj in E; [|by apply Hpl, Hin; left|by apply Hpl, Hin; right]. congruence.
  - apply IH. intros m' Hm'. apply Hin. by right.
Qed.

(** Directory names that end in a letter. *)
Lemma ends_append s t : chars t ≠ [] → ends_with_slash (String.append s t) = ends_with_slash t.
Proof.
  unfold ends_with_slash. rewrite chars_app. intros H. destruct (exists_last H) as (l & x & E). rewrite E, app_assoc. by rewrite !last_snoc.
Qed.

Lemma plain_join m leaf : chars leaf ≠ [] → ends_with_slash leaf = false → plain_dir (join m leaf).
Proof.
  intros Hn He. unfold join. assert (Hp : ∀ s, plain_dir (String.append s leaf)).
  { intros s. split; [|by rewrite ends_append]. intros E. apply (f_equal chars) in E. rewrite chars_app in E. by apply app_nil in E as [_ ?]. }
  case_bool_decide; [apply (Hp EmptyString)|]. destruct (ends_with_slash m); [apply Hp|].
  change (String slash leaf) with (String.append (String slash EmptyString) leaf). destruct (Hp (String slash EmptyString)) as [_ He'].
  split; [|by rewrite ends_append]. intros E. apply (f_equal chars) in E. rewrite chars_app in E. by apply app_nil in E as [_ ?].
Qed.

Lemma geometry_of c : config_ok c → config_rejected c = false → devices c ≠ [] → geometry c (placement_of c).
Proof.
  intros [[C1 C2] C3 C4 [C5 C6] C7] Hr Hd. unfold config_rejected in Hr.
  repeat match goal with H : _ || _ = false |- _ => apply orb_false_elim in H as [H ?] end.
  repeat match goal with H : bool_decide _ = false |- _ => apply bool_decide_eq_false in H end.
  pose proof kHeader_4096 as Hk. pose proof (payload_fits c) as Hpf. unfold fits in *. set (slot := segment_header_bytes c + layout_payload_bytes c) in *.
  assert (Hslot : 4096 ≤ slot) by lia.
  assert (Hno : slot * segment_file_slots c < 2 ^ 64).
  { assert (segment_file_slots c ≤ UINT64_MAX / slot) by lia. pose proof (Z.mul_div_le UINT64_MAX slot ltac:(lia)). unfold UINT64_MAX in *. nia. }
  unfold placement_of. fold slot. rewrite (wrap_small 64 (slot * _)) by nia. split; cbn; try done; try lia.
  - apply make_placement_ok; try done; try lia; [by apply distinct_mounts_nonempty|]. apply Forall_true. intros m.
    apply plain_join; unfold segments_dir; [rewrite chars_app; done|]. 
    rewrite ends_append by (rewrite chars_app; by destruct (chars (pretty _))). by rewrite ends_append.
  - unfold slot, layout_payload_bytes, wrap. assert (Hseg : segment_bytes c `mod` 4096 = 0) by lia. assert (Hh : segment_header_bytes c `mod` 4096 = 0) by lia.
    apply Z.mod_divide in Hseg as [a Ha]; [|lia]. apply Z.mod_divide in Hh as [b Hb]; [|lia]. rewrite Ha, Hb. apply Z.mod_divide; [lia|].
    apply Z.divide_add_r; [by exists b|]. rewrite Z.mod_eq by lia. apply Z.divide_sub_r; [exists (a * segment_count c); ring|].
    apply Z.divide_mul_l. by exists (2 ^ 52).
Qed.

(** ** The steps of [open] *)
Section open.
Context (c : StoreConfig) (Hc : config_ok c).

Lemma build_backend_ok s : config_ s = c → slot_bytes_ s = segment_header_bytes c + layout_payload_bytes c →
  wp build_backend_locked (λ r s', r = Ok tt → devices c ≠ [] ∧ ∃ n, s' = s <| mount_count_ := n |> <| placement_ := Some (placement_of c) |>) s.
Proof using Type. clear Hc.
  intros Ec Es. unfold build_backend_locked. wp_steps. rewrite Ec. apply wp_guard; [done|]. intros Hd%bool_decide_eq_false. cbv beta iota. wp_steps.
  apply wp_guard; [done|intros _]. wp_steps. apply wp_guard; [done|intros _]. wp_steps. intros _. split; [done|]. eexists. cbn. by rewrite Es.
Qed.

(** A freshly configured allocator. *)
Record fresh_allocator (a : SpaceAllocator) : Prop := {
  fa_inv : alloc_inv a;
  fa_empty : free_list a = [] ∧ ready_limit a = UINT64_MAX ∧ high_water a = 0;
  fa_gens : gens_fit a;
  fa_total : 0 < total_slots a ∧ 8 + total_slots a * 292 + 8192 ≤ 2 ^ 63;
}.

Lemma configure_fresh config a : fits 64 (cfg_capacity_bytes config) → 4096 ≤ cfg_slot_bytes config →
  configure config new_allocator = (true, a) → fresh_allocator a.
Proof using Type. clear Hc.
  intros H1 H2 E. destruct (alloc_configure_ok config new_allocator true a H1 ltac:(lia) E) as [_ H]. destruct (H eq_refl) as (Hi & Ht & Hp & Hh & Hr).
  unfold configure in E. repeat case_bool_decide; try done. injection E as <-. split; [done|by split_and!| |].
  - intros x. unfold generation_at. cbn. destruct (replicate _ 0 !! _) as [g|] eqn:Eg; cbn; [apply lookup_replicate in Eg as [-> _]|]; by vm_compute.
  - cbn in Ht |- *. split; [lia|]. unfold fits in H1. assert (cfg_capacity_bytes config / cfg_slot_bytes config ≤ 2 ^ 52); [|lia].
    trans (cfg_capacity_bytes config / 4096); [apply Z.div_le_compat_l; lia|]. apply Z.div_le_upper_bound; lia.
Qed.

(** The number of slots a configuration gives. *)
Definition configured_slots (slot : Z) : Z := (if bool_decide (0 < capacity_slots c) then u64 (capacity_slots c * slot) else capacity_bytes c) / slot.

Lemma configure_locked_ok s : allocator_ s = new_allocator → 4096 ≤ slot_bytes_ s →
  wp (configure_locked c) (λ r s', r = Ok tt → ∃ a g, s' = s <| allocator_ := a |> <| group_slots_ := g |> ∧ fresh_allocator a ∧ total_slots a = configured_slots (slot_bytes_ s)) s.
Proof using Hc.
  intros Ea Es. unfold configure_locked. wp_steps. unfold wp. rewrite Ea. set (config := {| cfg_capacity_bytes := _ |}).
  assert (Hcap : fits 64 (cfg_capacity_bytes config)) by (cbn; case_bool_decide; [apply wrap_fits; lia|apply Hc]).
  destruct (configure config new_allocator) as [ok a] eqn:E. cbn [fst snd]. destruct ok; [|done]. pose proof (configure_fresh config a Hcap Es E) as Hf.
  destruct (alloc_configure_ok config new_allocator true a Hcap ltac:(cbn; lia) E) as [_ Hok]. destruct (Hok eq_refl) as (_ & Ht & _).
  assert (H : wp (n ← gets mount_count_; guard_err (bool_decide (UINT64_MAX / n < segment_file_slots c)) INVALID_ARGUMENT;;
    modify (λ s, s <| group_slots_ := segment_file_slots c * n |>)) (λ r s', r = Ok tt → ∃ a g, s' = s <| allocator_ := a |> <| group_slots_ := g |> ∧ fresh_allocator a ∧ total_slots a = configured_slots (slot_bytes_ s))
    (s <| allocator_ := a |>)); [|exact H].
  wp_steps. apply wp_guard; [done|intros _]. wp_steps. intros _. by exists a, (segment_file_slots c * mount_count_ (s <| allocator_ := a |>)).
Qed.

Context (p : FixedSegmentFilePlacement) (Hg : geometry c p).

Lemma ensure_layout_quiet : frames quiet ensure_layout_locked.
Proof using Type.
  unfold ensure_layout_locked. assert (Hd : ∀ d, frames quiet (on_disk (ensure_directory d))) by (intros d; apply on_disk_quiet_frames, ensure_directory_same).
  apply frames_bind; [apply _|apply frames_gets, _|intros c0]. do 2 (apply frames_bind; [apply _|apply Hd|intros _]).
  do 2 (apply frames_bind; [apply _|apply frames_gets, _|intros ?]). apply frames_bind; [apply _| |intros q].
  { unfold the_placement. apply frames_bind; [apply _|apply frames_gets, _|intros o]. apply frames_from_opt, _. }
  apply frames_for_each; [apply _|]. intros slot. case_bool_decide; [apply Hd|apply frames_ret, _].
Qed.

(** A store that has nothing in it yet. *)
Record blank (s : store) : Prop := {
  bl_loading : loading c p s;
  bl_index : index_ s = ∅ ∧ slot_owner_ s = ∅;
  bl_total : 0 < total_slots (allocator_ s) ∧ 8 + total_slots (allocator_ s) * 292 + 8192 ≤ 2 ^ 63;
}.

Lemma blank_quiet s s' : blank s → quiet s s' → blank s'.
Proof using Type.
  intros [B1 B2 B3] Hq. assert (loading c p s') by (by eapply loading_quiet). by destruct Hq as (d' & -> & _).
Qed.

Lemma blank_container s n : blank s → blank (s <| container_bytes_ := n |>).
Proof using Type. intros [[L1 L2 L3 L4 L5 L6 L7 L8 L9 L10] B2 B3]. by split; [split|..]. Qed.

Lemma metadata_ok s size : blank s → blank (on_disk (ensure_metadata_file (checkpoint_path_locked s) size) s).2.
Proof using Type. clear Hg Hc.
  intros [[L1 L2 L3 L4 L5 L6 L7 L8 L9 L10] B2 B3]. unfold on_disk. pose proof (ensure_metadata_only (checkpoint_path_locked s) size (media s)) as Ho.
  pose proof (ensure_metadata_wf (checkpoint_path_locked s) size (media s) L7) as Hw. destruct (ensure_metadata_file _ size (media s)) as [r d']. cbn in *.
  split; [split|..]; try done. cbn. intros slot f Hf. apply (L8 slot). rewrite <- Hf. symmetry. apply Ho, segment_not_checkpoint.
Qed.

Lemma open_metadata_ok s : blank s → wp (open_metadata c) (λ r s', r = Ok tt → recovered c p s') s.
Proof using Hg. clear Hc.
  intros Hb. unfold open_metadata. apply wp_bind.
  assert (Hlay : wp (when (negb (read_only c)) ensure_layout_locked) (λ r s', blank s') s).
  { apply wp_when; intros _; [|done]. eapply wp_frames; [apply ensure_layout_quiet|]. intros r s' Hq. by eapply blank_quiet. }
  eapply wp_mono; [exact Hlay|]. clear s Hb Hlay. intros r s Hb. destruct r as [[]|e|f]; [|done..]. wp_steps.
  set (s1 := s <| container_bytes_ := _ |>). assert (Hb1 : blank s1) by by apply blank_container.
  assert (Hm1 : meta_ok s1) by (split; [done|]; apply Hb).
  assert (Hmeta : wp (when (negb (read_only c)) (on_disk (ensure_metadata_file (checkpoint_path_locked s1) (u64 (container_bytes_ s1 * Z.of_nat kContainerCount)))))
    (λ r s', blank s' ∧ meta_ok s') s1).
  { apply wp_when; intros _; [|done]. unfold wp. pose proof (metadata_ok s1 (u64 (container_bytes_ s1 * Z.of_nat kContainerCount)) Hb1) as H. split; [done|].
    unfold on_disk. by destruct (ensure_metadata_file _ _ _). }
  eapply wp_mono; [exact Hmeta|]. intros r s2 [Hb2 Hm2]. destruct r as [[]|e|f]; [|done..].
  eapply wp_mono; [apply (load_checkpoint_ok c p Hg s2); [apply Hb2|apply Hb2|apply Hb2|done]|]. by intros r s' [_ ?].
Qed.

(** ** Groups and bitmaps *)
Lemma recovered_same s s' : recovered c p s → live c p s' → index_ s' = index_ s → slot_owner_ s' = slot_owner_ s →
  states (allocator_ s') = states (allocator_ s) → recovered c p s'.
Proof using Type. clear Hg Hc.
  intros [R1 R2 R3] Hl Ei Eo Es. split; [done| |]; unfold state_at in *; rewrite Es; [rewrite Ei; exact R2|rewrite Eo; exact R3].
Qed.

Lemma recovered_quiet s s' : recovered c p s → quiet s s' → recovered c p s'.
Proof using Type. clear Hg Hc.
  intros Hr Hq. eapply recovered_same; [exact Hr|eapply live_quiet, Hq; apply Hr|by destruct Hq as (d' & -> & _)..].
Qed.

Lemma recovered_precreated s n : recovered c p s → recovered c p (s <| precreated_ := n |>).
Proof using Type. clear Hg Hc.
  intros Hr. eapply recovered_same; [exact Hr| |done..]. apply (live_growth c p s (precreate_busy_ s) (precreate_target_ s) n), Hr.
Qed.

Lemma recovered_limit s n : recovered c p s → recovered c p (s <| allocator_ ::= set_ready_limit n |>).
Proof using Type. clear Hg Hc.
  intros Hr. eapply recovered_same; [exact Hr| |done..]. destruct (lv_inv _ _ _ (rd_live _ _ _ Hr)) as [I1 I2 I3 I4].
  apply live_states; [apply Hr| |done|done]. by destruct I1; split.
Qed.

Lemma group_ready_same q paths : frames (λ x y, files y = files x) (group_ready q paths).
Proof using Type. clear Hg Hc.
  induction paths as [|path paths IH]; cbn [group_ready]; [apply frames_ret, _|]. apply frames_bind; [apply _| |intros []; [done|apply frames_ret, _]].
  unfold segment_file_is_ready. apply frames_bind; [apply _|apply frames_guard, _|intros _]. apply frames_bind; [apply _|apply sys_open_same|].
  intros [[f|]|[]]; [|apply frames_ret, _|apply frames_fail, _]. apply frames_bind; [apply _|apply check_call_same|intros _].
  apply frames_bind; [apply _|apply stat_file_same|intros st]. case_bool_decide; [apply frames_ret, _|]. unfold segment_ready, read_ready_record.
  apply frames_bind; [apply _| |intros ?; apply frames_ret, _]. apply frames_bind; [apply _|apply sys_open_same|].
  intros [[g|]|[]]; [|apply frames_ret, _..]. apply frames_bind; [apply _|apply next_answer_same|intros ?; apply frames_ret, _].
Qed.

Lemma adopt_loop_ok fuel s : recovered c p s → wp (adopt_loop fuel p) (λ r s', recovered c p s') s.
Proof using Type. clear Hg Hc.
  revert s. induction fuel as [|fuel IH]; intros s Hr; cbn [adopt_loop]; [done|]. wp_steps. case_bool_decide; [by apply wp_ret|]. wp_steps.
  eapply wp_frames; [apply on_disk_quiet_frames, group_ready_same|]. intros r s1 Hq. assert (Hr1 : recovered c p s1) by (by eapply recovered_quiet).
  destruct r as [[]|e|f]; [|by apply wp_ret|done..]. cbn [negb]. wp_steps. by apply IH, recovered_precreated.
Qed.

(** Each round publishes at least one slot, so the fuel that
    [adopt_existing_groups_locked] gives is enough: more changes nothing. *)
Lemma adopt_loop_enough n1 n2 q s : 0 < group_slots_ s → (0 < n1)%nat → (0 < n2)%nat →
  total_slots (allocator_ s) - precreated_ s < Z.of_nat n1 → total_slots (allocator_ s) - precreated_ s < Z.of_nat n2 →
  adopt_loop n1 q s = adopt_loop n2 q s.
Proof using Type. clear Hg Hc.
  revert n2 s. induction n1 as [|n1 IH]; intros n2 s Hgr H1 H2 H3 H4; [lia|]. destruct n2 as [|n2]; [lia|].
  cbn [adopt_loop]. unfold mbind, M_bind, gets, modify, mret, M_ret. cbn beta iota. case_bool_decide; [done|]. unfold on_disk.
  destruct (group_ready q _ (media s)) as [[[]|e|f] d]; cbn; [|done..]. apply IH; cbn; (done || lia).
Qed.

Lemma open_groups_ok s : recovered c p s → wp open_groups (λ r s', recovered c p s') s.
Proof using Hg. clear Hc.
  intros Hr. unfold open_groups, adopt_existing_groups_locked. wp_steps. apply (wp_the_placement c p); [apply Hr|]. wp_steps.
  eapply wp_mono; [by apply adopt_loop_ok|]. clear s Hr. intros r s Hr. destruct r as [[]|e|f]; [|done..]. wp_steps.
  assert (Hlast : ∀ s, recovered c p s → wp (modify (λ s, s <| allocator_ ::= set_ready_limit (precreated_ s) |>)) (λ r s', recovered c p s') s).
  { intros s1 Hr1. apply wp_modify. by apply recovered_limit. }
  apply wp_when; intros _; [|by apply Hlast]. wp_steps. apply (wp_the_placement c p); [apply Hr|]. wp_steps. unfold group_paths_locked.
  apply (materialise_group_live c p Hg); [apply Hr|]. intros r d' Hl'. assert (Hr1 : recovered c p (s <| media := d' |>)) by (by eapply recovered_same).
  destruct r as [[]|e|f]; [|done..]. wp_steps. apply Hlast. by apply recovered_precreated.
Qed.

(** Opening a bitmap touches its file only. *)
Lemma open_writable_only path a b n g : frames (only_file path) (open_writable path a b n g).
Proof using Type. clear Hg Hc.
  unfold open_writable. only_calls; [case_bool_decide; only_calls|]. case_bool_decide; only_calls. case_bool_decide; only_calls.
Qed.

Lemma open_writable_wf path a b n g : frames keeps_wf (open_writable path a b n g).
Proof using Type. clear Hg Hc.
  unfold open_writable. frame_calls. apply frames_bind; [apply _|apply stat_file_frames, _|intros st].
  assert (Hini : frames keeps_wf (update_file path (fwrite 0 (encode_residency_header a b n g)))).
  { apply update_file_wf. intros f. apply file_wf_fwrite. unfold encode_residency_header, store_u32, store_u64.
    repeat (apply wf_inserts; [apply wf_le_bytes || (repeat constructor; lia)|]). apply Forall_replicate. lia. }
  apply frames_bind; [apply _| |intros _]; [case_bool_decide; frame_calls; apply update_file_wf, file_wf_truncate|]. frame_calls.
  case_bool_decide; [done|]. frame_calls. case_bool_decide; [done|frame_calls].
Qed.

Lemma open_readonly_same path b n g : frames (λ x y, files y = files x) (open_readonly path b n g).
Proof using Type. clear Hg Hc.
  unfold open_readonly. apply frames_bind; [apply _|apply frames_guard, _|intros _]. apply frames_bind; [apply _|apply sys_open_same|].
  intros [[f|]|[]]; [|apply frames_fail, _..]. apply frames_bind; [apply _|apply stat_file_same|intros st].
  apply frames_bind; [apply _|apply frames_guard, _|intros _]. apply frames_bind; [apply _|apply check_call_same|intros _].
  apply frames_bind; [apply _|apply frames_from_opt, _|intros x]. apply frames_bind; [apply _|apply frames_guard, _|intros _]. apply frames_ret, _.
Qed.

Lemma live_only s path d' : live c p s → (∀ slot, path_for_slot p slot ≠ path) → only_file path (media s) d' → disk_wf d' → live c p (s <| media := d' |>).
Proof using Hg. clear Hc.
  intros Hl Hn Ho Hw. eapply (live_media c p Hg s (λ q, q = path) (λ _ _, False)); [done| | |done].
  - intros k e Hk He. split; [apply Hn|]. by intros i _ [].
  - intros q f Hq Hf. exists f. split; [|reflexivity]. by rewrite Ho.
Qed.

(** The bitmap that comes back is mapped from the named file. *)
Lemma open_writable_base path a b n g d r d' : open_writable path a b n g d = (Ok r, d') → rb_base r = Some path.
Proof using Type. clear Hg Hc.
  unfold open_writable. intros H. apply bind_inv in H as (? & ? & _ & H). apply bind_inv in H as (? & ? & _ & H). apply bind_inv in H as (? & ? & _ & H).
  do 4 (apply bind_inv in H as (? & ? & _ & H)). by injection H as <- _.
Qed.

Lemma open_readonly_base path b n g d r d' : open_readonly path b n g d = (Ok r, d') → rb_base r = Some path.
Proof using Type. clear Hg Hc.
  unfold open_readonly. intros H. apply bind_inv in H as (? & ? & _ & H). apply bind_inv in H as ([[f|]|[]] & ? & _ & H); [|done..].
  do 5 (apply bind_inv in H as (? & ? & _ & H)). by injection H as <- _.
Qed.

(** A bitmap, opened or left closed, that is no segment file. *)
Definition harmless (b : ResidencyBitmap) : Prop := ∀ path, rb_base b = Some path → ∀ slot, path_for_slot p slot ≠ path.

Lemma wp_try_bitmap s (m : M disk ResidencyBitmap) path : recovered c p s → (∀ slot, path_for_slot p slot ≠ path) → frames (only_file path) m → frames keeps_wf m →
  (∀ d b d', m d = (Ok b, d') → rb_base b = Some path) →
  wp (try_bitmap m) (λ r s', recovered c p s' ∧ ∀ b, r = Ok b → harmless b) s.
Proof using Hg. clear Hc.
  intros Hr Hn Ho Hw Hb. unfold try_bitmap. apply wp_bind, wp_attempt. unfold wp, on_disk. specialize (Ho (media s)). specialize (Hw (media s) (lv_disk _ _ _ (rd_live _ _ _ Hr))).
  specialize (Hb (media s)). destruct (m (media s)) as [r d'] eqn:E. cbn [fst snd] in *.
  assert (Hr' : recovered c p (s <| media := d' |>)) by (eapply recovered_same; [exact Hr|eapply live_only; (done || apply Hr)|done..]).
  destruct r as [b|e|f]; split; try done.
  - intros b' [= <-] q Hq. specialize (Hb b d' eq_refl). assert (q = path) as -> by congruence. done.
  - by intros b' [= <-].
Qed.

Lemma recovered_own s b : recovered c p s → harmless b → recovered c p (s <| own_residency_ := b |>).
Proof using Type. clear Hg Hc.
  intros Hr Hb. eapply recovered_same; [exact Hr| |done..]. destruct (rd_live _ _ _ Hr) as [L1 L2 L3 [I1 I2 I3 I4] L5 L6 L7]. by split.
Qed.
Lemma recovered_peers s b : recovered c p s → recovered c p (s <| peer_residency_ := b |>).
Proof using Type. clear Hg Hc.
  intros Hr. eapply recovered_same; [exact Hr| |done..]. destruct (rd_live _ _ _ Hr) as [L1 L2 L3 [I1 I2 I3 I4] L5 L6 L7]. by split.
Qed.
Lemma recovered_opened s b : recovered c p s → recovered c p (s <| opened_ := b |>).
Proof using Type. clear Hg Hc.
  intros Hr. eapply recovered_same; [exact Hr| |done..]. destruct (rd_live _ _ _ Hr) as [L1 L2 L3 [I1 I2 I3 I4] L5 L6 L7]. by split.
Qed.

Lemma open_peers_ok ranks own n slots g s : recovered c p s → wp (open_peers ranks own n slots g) (λ r s', recovered c p s') s.
Proof using Type. clear Hg Hc.
  revert s. induction ranks as [|rank ranks IH]; intros s Hr; cbn [open_peers]; [by apply wp_ret|]. apply wp_bind.
  assert (Hone : wp (if bool_decide (rank = own) then mret closed_bitmap else path ← gets (residency_path_locked rank); try_bitmap (open_readonly path n slots g))
    (λ r s', recovered c p s') s).
  { case_bool_decide; [by apply wp_ret|]. wp_steps. unfold try_bitmap. apply wp_bind, wp_attempt.
    eapply wp_frames; [apply on_disk_quiet_frames, open_readonly_same|]. intros r s' Hq. assert (recovered c p s') by (by eapply recovered_quiet). by destruct r. }
  eapply wp_mono; [exact Hone|]. clear Hone. intros r s1 Hr1. destruct r as [b|e|f]; [|done..]. apply wp_bind.
  eapply wp_mono; [by apply IH|]. intros r s2 Hr2. destruct r; [|done..]. by apply wp_ret.
Qed.

Lemma open_residency_ok s : recovered c p s → wp (open_residency c) (λ r s', recovered c p s') s.
Proof using Hg. clear Hc.
  intros Hr. unfold open_residency. wp_steps.
  set (n := total_slots (allocator_ s)). set (g := fingerprint_digest_locked s).
  assert (Hdir : wp (when (negb (read_only c)) (on_disk (ensure_directory (join (uri c) "residency")))) (λ r s', recovered c p s') s).
  { apply wp_when; intros _; [|done]. eapply wp_frames; [apply on_disk_quiet_frames, ensure_directory_same|]. intros r s' Hq. by eapply recovered_quiet. }
  eapply wp_mono; [exact Hdir|]. clear Hdir. intros r s1 Hr1. destruct r as [[]|e|f]; [|done..]. wp_steps.
  set (path := residency_path_locked (rank_id c) s1). assert (Hn : ∀ slot, path_for_slot p slot ≠ path) by (intros slot; apply segment_not_residency).
  eapply wp_mono; [apply (wp_try_bitmap s1 _ path Hr1 Hn)|].
  - destruct (read_only c); [apply only_same, open_readonly_same|apply open_writable_only].
  - destruct (read_only c); [|apply open_writable_wf]. intros d. apply keeps_wf_files. apply open_readonly_same.
  - intros d b d'. destruct (read_only c); [apply open_readonly_base|apply open_writable_base].
  - intros r s2 [Hr2 Hb]. destruct r as [b|e|f]; [|done..]. wp_steps.
    eapply wp_mono; [apply open_peers_ok, recovered_own; [done|by apply Hb]|]. intros r s3 Hr3. destruct r as [bs|e|f]; [|done..].
    wp_steps. by apply recovered_peers.
Qed.
End open.

(** ** Opening *)

(** The media a new process finds. *)
Record media_ok (c : StoreConfig) (d : disk) : Prop := {
  mo_wf : disk_wf d;
  mo_rest : at_rest (placement_of c) d;
}.

Lemma open_ok c d : config_ok c → media_ok c d →
  wp (open c) (λ r s', r = Ok tt → geometry c (placement_of c) ∧ recovered c (placement_of c) s' ∧ opened_ s' = true) (new_store d).
Proof.
  intros Hc [Hw Hrest]. unfold open. apply wp_bind, wp_guard; [done|]. intros Hrej. cbv beta iota. wp_steps. cbn [opened_ new_store]. wp_steps.
  set (s0 := (new_store d) <| config_ := c |> <| slot_bytes_ := _ |>).
  eapply wp_mono; [by apply (build_backend_ok c s0)|]. intros r s1 Hr. destruct r as [[]|e|f]; [|done..]. destruct (Hr eq_refl) as (Hd & n & ->). clear Hr.
  pose proof (geometry_of c Hc Hrej Hd) as Hg. set (p := placement_of c) in *. set (s1 := s0 <| mount_count_ := n |> <| placement_ := Some p |>). wp_steps.
  pose proof (ge_header_min _ _ Hg). pose proof (payload_fits c) as Hpf. unfold fits in Hpf.
  eapply wp_mono; [apply (configure_locked_ok c Hc s1); [done|]|]. { change (slot_bytes_ s1) with (segment_header_bytes c + layout_payload_bytes c). lia. }
  intros r s2 Hr. destruct r as [[]|e|f]; [|done..]. destruct (Hr eq_refl) as (a & g & -> & [A1 A2 A3 A4] & _). clear Hr.
  set (s2 := s1 <| allocator_ := a |> <| group_slots_ := g |>). assert (Hb : blank c p s2).
  { split; [split|..]; try done. }
  wp_steps. eapply wp_mono; [apply (open_metadata_ok c p Hg s2 Hb)|]. intros r s3 Hr. destruct r as [[]|e|f]; [|done..]. specialize (Hr eq_refl).
  apply wp_bind. assert (Hgr : wp (when (negb (read_only c)) open_groups) (λ r s', recovered c p s') s3) by (apply wp_when; intros _; [by apply open_groups_ok|done]).
  eapply wp_mono; [exact Hgr|]. clear Hgr Hr s3. intros r s3 Hr. destruct r as [[]|e|f]; [|done..]. apply wp_bind.
  assert (Hrs : wp (when (bool_decide (1 < rank_count c)) (open_residency c)) (λ r s', recovered c p s') s3) by (apply wp_when; intros _; [by apply open_residency_ok|done]).
  eapply wp_mono; [exact Hrs|]. clear Hrs Hr s3. intros r s3 Hr. destruct r as [[]|e|f]; [|done..]. wp_steps. intros _.
  split_and!; [done|by apply recovered_opened|done].
Qed.
