(* ===== verification/ObjStoreRestart.v ===== *)
(** * Restart

    A checkpoint written by one process and loaded by the next gives back the
    committed objects, and a write that stops half way leaves the newest
    checkpoint as it was. *)
From stdpp Require Import sorting pretty.
From S2P Require Import Prelude Digest Bytes SlotPlace SpaceAlloc ObjHeader Checkpoint Media MediaSpec Residency ObjStore ObjStoreInv ObjStoreOps ObjStoreWrite ObjStoreMedia ObjStoreCkpt ObjStoreRun ObjStoreLoad.
Open Scope Z_scope.

Section restart.
Context (c : StoreConfig) (p : FixedSegmentFilePlacement) (Hg : geometry c p).

Definition entry_of (kv : ObjectKey * Entry) : CheckpointEntry :=
  {| ce_key := kv.1; ce_slot := en_slot kv.2; ce_payload_bytes := layout_payload_bytes c; ce_generation := en_generation kv.2; ce_commit_seq := en_commit_seq kv.2 |}.

(** An object that recovery can take in. *)
Record loadable (s : store) (kv : ObjectKey * Entry) : Prop := {
  lo_committed : en_committed kv.2 = true;
  lo_range : 0 ≤ en_slot kv.2 < total_slots (allocator_ s);
  lo_fresh : index_ s !! kv.1 = None ∧ slot_owner_ s !! en_slot kv.2 = None;
  lo_header : ∃ f, header_on c p (media s) kv.1 kv.2 f;
}.

(** With calls that work, its header is read and accepted. *)
Lemma judge_accepts s kv : loading c p s → healthy (media s) → loadable s kv →
  wp (judge_entry p (entry_of kv)) (λ r s', still s s' ∧ (r = Fault OutOfFuel ∨ r = Ok (Accept kv.2))) s.
Proof using Hg.
  destruct kv as [k e]. intros Hld Hh [Lc Lr [Lf Lo] (f & [H1 H2 H3 (fields & H4 & H5)])]. cbn [fst snd] in *. unfold judge_entry. wp_steps. cbn [id entry_of ce_slot ce_key ce_payload_bytes ce_generation fst snd].
  rewrite (ld_config _ _ _ Hld), Lf, Lo. rewrite !bool_decide_eq_false_2 by (lia || (intros []; done)). cbn [orb]. wp_steps. apply wp_attempt. unfold wp, on_disk.
  pose proof (header_offset_aligned c p Hg (en_slot e) ltac:(lia)) as Hal.
  pose proof (read_block_done true (path_for_slot p (en_slot e)) (header_offset_for_slot p (en_slot e)) 4096 (media s) Hh (ld_disk _ _ _ Hld) ltac:(lia) eq_refl
    ltac:(by apply bool_decide_eq_true)) as Hrd. rewrite kHeader_4096. unfold read_object_header.
  destruct (read_block _ _ _ _ _) as [r d']. destruct Hrd as [[Ef Hk] Hr]. cbn [fst snd].
  assert (Hst : still s (s <| media := d' |>)) by (split; [by exists d'|exact Hk]).
  destruct Hr as [->|[[-> Hn]|(f' & Hf' & ->)]]; [by split; [|left]| |].
  - exfalso. rewrite H1 in Hn. destruct Hn. lia.
  - assert (f' = f) as -> by congruence. rewrite decode_total. split; [done|]. right. cbn. unfold expectation in H4. rewrite H4. unfold mbind, M_bind, mret, M_ret. cbn [fst].
    rewrite H5. destruct e; cbn in *; by subst.
Qed.

Lemma loadable_still s s' kv : still s s' → loadable s kv → loadable s' kv.
Proof using Type. clear Hg.
  intros [(d' & -> & E) _] [L1 L2 L3 (f & [H1 H2 H3 H4])]. split; try done. exists f. split; try done. cbn. by rewrite E.
Qed.

(** The loop takes in every entry. *)
Lemma recover_all kvs l h s : loading c p s → healthy (media s) → NoDup kvs.*1 → NoDup (en_slot <$> kvs.*2) → Forall (loadable s) kvs →
  wp (recover_loop p (map entry_of kvs) l h) (λ r s', r = Fault OutOfFuel ∨ ∃ x, r = Ok x ∧ index_ s' = list_to_map kvs ∪ index_ s ∧ own_residency_ s' = own_residency_ s) s.
Proof using Hg.
  revert l h s. induction kvs as [|[k e] kvs IH]; intros l h s Hld Hh Hk Hs Hall; cbn [map recover_loop].
  { apply wp_ret. right. eexists. split_and!; [done| |done]. cbn. by rewrite map_empty_union. }
  apply Forall_cons in Hall as [Ha Hall]. cbn in Hk, Hs. apply NoDup_cons in Hk as [Hk1 Hk2]. apply NoDup_cons in Hs as [Hs1 Hs2]. apply wp_bind.
  eapply wp_mono; [by apply (judge_accepts s (k, e))|]. intros r s1 [Hst Hr]. destruct Hr as [->| ->]; [by left|]. wp_steps.
  pose proof Hst as [Hq Hh']. set (s2 := s1 <| recovery_ ::= add_report (Accept (k, e).2) |> <| index_ ::= _ |> <| slot_owner_ ::= _ |>).
  assert (Hld2 : loading c p s2).
  { pose proof (loading_quiet c p s s1 Hld Hq) as [L1 L2 L3 L4 L5 L6 L7 L8 L9 L10]. by split. }
  eapply wp_mono; [apply (IH _ _ s2 Hld2); [by apply Hh'|done|done|]|].
  - apply Forall_forall. intros [k' e'] Hin. pose proof (proj1 (Forall_forall _ _) Hall _ Hin) as Hlo. pose proof (loadable_still s s1 _ Hst Hlo) as [L1 L2 [L3 L4] L5].
    split; try done. cbn in *. split.
    + rewrite lookup_insert_ne; [done|]. intros <-. apply Hk1. apply list_elem_of_fmap. by exists (k, e').
    + rewrite lookup_insert_ne; [done|]. intros E. apply Hs1. rewrite E. apply list_elem_of_fmap. exists e'. split; [done|].
      apply list_elem_of_fmap. by exists (k', e').
  - intros r s3 [->|(x & -> & Hi & Ho)]; [by left|]. right. exists x. split_and!; [done| |by rewrite Ho; destruct Hq as (d' & -> & _)]. rewrite Hi. cbn.
    assert (Ei : index_ s1 = index_ s) by (by destruct Hq as (d' & -> & _)). rewrite Ei.
    rewrite <- insert_union_l. rewrite insert_union_r; [done|]. by apply not_elem_of_list_to_map_1.
Qed.

(** Two containers: the one with the higher number is chosen. *)
Lemma select_first q t : q ≠ 0 → 0 ≤ t < q → select_checkpoint_container [q; t] = Some 0%nat.
Proof using Type. clear Hg.
  intros Hq Ht. pose proof (select_newest [q; t] ltac:(repeat constructor; lia)) as Hn. destruct (select_checkpoint_container _) as [[|[|j]]|]; [done|..].
  - destruct Hn as (u & [= <-] & _ & Hmax). specialize (Hmax 0%nat q eq_refl). lia.
  - by destruct Hn as (u & ? & _).
  - by apply Forall_cons in Hn as [? _].
Qed.
Lemma select_second q t : q ≠ 0 → 0 ≤ t < q → select_checkpoint_container [t; q] = Some 1%nat.
Proof using Type. clear Hg.
  intros Hq Ht. pose proof (select_newest [t; q] ltac:(repeat constructor; lia)) as Hn. destruct (select_checkpoint_container _) as [[|[|j]]|]; [|done|..].
  - destruct Hn as (u & [= <-] & _ & Hmax). specialize (Hmax 1%nat q eq_refl). lia.
  - by destruct Hn as (u & ? & _).
  - apply Forall_cons in Hn as [_ Hn]. by apply Forall_cons in Hn as [? _].
Qed.

(** The committed part of an index, as recovery sees it. *)
Definition committed_part (idx : gmap ObjectKey Entry) : gmap ObjectKey Entry := filter (λ kv, en_committed kv.2 = true) idx.

Lemma entries_of_index idx : checkpoint_entries c idx = map entry_of (map_to_list (committed_part idx)).
Proof using Type. done. Qed.

Lemma load_gives_back s s1 i q : live c p s → loading c p s1 → index_ s1 = ∅ → slot_owner_ s1 = ∅ → meta_ok s1 → healthy (media s1) →
  files (media s1) = files (media s) → total_slots (allocator_ s1) = total_slots (allocator_ s) →
  i = 0 ∨ i = 1 → container s1 i = (q, checkpoint_entries c (index_ s)) → q ≠ 0 → (container s1 (1 - i)).1 < q →
  wp load_checkpoint_locked (λ r s', r = Fault OutOfFuel ∨ (r = Ok tt ∧ index_ s' = committed_part (index_ s))) s1.
Proof using Hg.
  intros Hl Hld Hi Ho Hm Hh Hf Ht Hix Hci Hq0 Hlt. pose proof (ai_bounds _ (ld_alloc _ _ _ Hld)) as Hb. unfold load_checkpoint_locked. wp_steps.
  set (s0 := s1 <| recovery_ := no_report |>). assert (Hl0 : loading c p s0) by (by apply (loading_seq c p s1 (checkpoint_seq_ s1))).
  eapply wp_mono; [apply (read_sequences_ok s0); [by apply Hld|cbn; lia|done]|]. intros r s2 [Hst Hr].
  destruct Hr as [->|(x0 & x1 & -> & Hx0 & Hx1)]; [by left|].
  assert (Hseen : x0 = container s1 0 ∧ x1 = container s1 1) by (destruct Hx0 as [->|[_ ?]]; [|done]; by destruct Hx1 as [->|[_ ?]]).
  destruct Hseen as [-> ->]. pose proof (proj2 (container_ok s1 0 (ld_disk _ _ _ Hld))) as P0. pose proof (proj2 (container_ok s1 1 (ld_disk _ _ _ Hld))) as P1.
  unfold fits in P0, P1. assert (Hsel : select_checkpoint_container (map fst [container s1 0; container s1 1]) = Some (Z.to_nat i)).
  { assert (Hqi : (container s1 i).1 = q) by (by rewrite Hci). cbn [map]. destruct Hix as [-> | ->].
    - change (1 - 0) with 1 in Hlt. rewrite Hqi. by apply (select_first _ _ Hq0); lia.
    - change (1 - 1) with 0 in Hlt. rewrite Hqi. by apply (select_second _ _ Hq0); lia. }
  rewrite Hsel. apply wp_bind. eapply (wp_from_opt _ _ (container s1 i)); [by destruct Hix as [-> | ->]|]. cbv beta iota. wp_steps.
  pose proof Hst as [Hq Hh2]. assert (Hld2 : loading c p s2) by (by eapply loading_quiet).
  apply (wp_loading_placement c p); [by apply loading_seq|]. apply wp_bind. rewrite Hci. cbn [snd fst].
  set (s3 := s2 <| checkpoint_seq_ := q |> <| recovery_ := _ |>). assert (Hld3 : loading c p s3) by by apply loading_seq.
  assert (Hemp : index_ s3 = ∅ ∧ slot_owner_ s3 = ∅ ∧ total_slots (allocator_ s3) = total_slots (allocator_ s) ∧ files (media s3) = files (media s)).
  { destruct Hq as (d' & -> & E). cbn in *. rewrite E. done. }
  destruct Hemp as (E1 & E2 & E3 & E4). pose proof (lv_inv _ _ _ Hl) as [I1 I2 I3 I4].
  rewrite entries_of_index. eapply wp_mono; [apply (recover_all _ [] 0 s3 Hld3); [by apply Hh2|apply NoDup_fst_map_to_list| |]|].
  - rewrite <- list_fmap_compose. apply NoDup_fmap_2_strong; [|apply NoDup_map_to_list].
    intros [k e] [k' e'] [Hk _]%elem_of_map_to_list%map_lookup_filter_Some [Hk' _]%elem_of_map_to_list%map_lookup_filter_Some E. cbn in E.
    assert (k = k') as <- by (by apply (index_inj _ _ _ k k' e e' I3)). congruence.
  - apply Forall_forall. intros [k e] [Hk Hc]%elem_of_map_to_list%map_lookup_filter_Some. cbn in Hc. split; cbn [fst snd].
    + done.
    + destruct (ii_state _ _ _ I3 k e Hk) as [H0 Hs]. rewrite E3. split; [done|]. apply (below_total _ _ I1 H0). destruct Hs as [->|[-> _]]; done.
    + rewrite E1, E2. by rewrite !lookup_empty.
    + destruct (lv_durable _ _ _ Hl k e Hk Hc) as (f & [F1 F2 F3 F4]). exists f. split; try done. by rewrite E4.
  - intros r s4 [->|(x & -> & Hi4 & Ho4)]; [by left|]. destruct x as [l' h']. wp_steps. apply rebuild_closed.
    { cbn. rewrite Ho4. apply Hld3. }
    right. split; [done|]. cbn. rewrite Hi4, E1, list_to_map_to_list. apply map_union_empty.
Qed.

(** ** What a checkpoint leaves on the media *)

(** The containers of a store whose sequence numbers can still grow. *)
Definition seqs_ok (s : store) : Prop :=
  0 ≤ checkpoint_seq_ s < 2 ^ 64 - 1 ∧ (container s 0).1 < 2 ^ 64 - 1 ∧ (container s 1).1 < 2 ^ 64 - 1.

Lemma container_same_bytes s s' i : container_bytes s' i = container_bytes s i → container s' i = container s i.
Proof using Type. unfold container. by intros ->. Qed.

Lemma persisted_newest s s' : live c p s → healthy (media s) → seqs_ok s → persisted c s s' (Ok tt) →
  ∃ i q, (i = 0 ∨ i = 1) ∧ container s' i = (q, checkpoint_entries c (index_ s)) ∧ q ≠ 0 ∧ (container s' (1 - i)).1 < q.
Proof using Type. clear Hg.
  intros Hl Hh (Hq & H0 & H1) (x0 & x1 & Hx0 & Hx1 & Hb & Hok). destruct (Hok eq_refl) as [Hc _]. clear Hok.
  assert (Hseen : x0 = container s 0 ∧ x1 = container s 1) by (destruct Hx0 as [->|[_ ?]]; [|done]; by destruct Hx1 as [->|[_ ?]]). destruct Hseen as [-> ->].
  pose proof (proj2 (container_ok s 0 (lv_disk _ _ _ Hl))) as P0. pose proof (proj2 (container_ok s 1 (lv_disk _ _ _ Hl))) as P1. unfold fits in P0, P1.
  exists (next_of (container s 0) (container s 1)), (next_seq s (container s 0) (container s 1)).
  assert (Hn : next_seq s (container s 0) (container s 1) = Z.max (checkpoint_seq_ s) (Z.max (container s 0).1 (container s 1).1) + 1).
  { unfold next_seq. cbn [foldr]. rewrite wrap_small by lia. lia. }
  split_and!; [apply next_of_range|done|lia|]. rewrite (container_same_bytes s s') by done.
  destruct (next_of_range (container s 0) (container s 1)) as [E|E]; rewrite E in *; [change (1 - 0) with 1|change (1 - 1) with 0]; lia.
Qed.

(** On every outcome, a crash included, the newest container is as it was. *)
Lemma persisted_spares s s' r n : live c p s → healthy (media s) →
  ((container s 0).1 = (container s 1).1 → (container s 0).1 = 0) →
  select_checkpoint_container [(container s 0).1; (container s 1).1] = Some n → persisted c s s' r →
  container s' (Z.of_nat n) = container s (Z.of_nat n).
Proof using Type. clear Hg.
  intros Hl Hh Hd Hsel (x0 & x1 & Hx0 & Hx1 & Hb & _).
  assert (Hseen : x0 = container s 0 ∧ x1 = container s 1) by (destruct Hx0 as [->|[_ ?]]; [|done]; by destruct Hx1 as [->|[_ ?]]). destruct Hseen as [-> ->].
  pose proof (proj2 (container_ok s 0 (lv_disk _ _ _ Hl))) as P0. pose proof (proj2 (container_ok s 1 (lv_disk _ _ _ Hl))) as P1. unfold fits in P0, P1.
  destruct (next_spares_newest [(container s 0).1; (container s 1).1] n) as [Hlt Hne]; [done|repeat constructor; lia| |done|].
  { intros j k t Hj Hk Ht. destruct j as [|[|j]], k as [|[|k]]; cbn in Hj, Hk; simplify_eq; try done; exfalso; assert (E := Hd ltac:(congruence)); congruence. }
  assert (Hn2 : (n < 2)%nat).
  { pose proof (select_newest [(container s 0).1; (container s 1).1] ltac:(repeat constructor; lia)) as Hn. rewrite Hsel in Hn.
    destruct Hn as (t & Hn & _). apply lookup_lt_Some in Hn. done. }
  apply container_same_bytes. change (length _) with 2%nat in Hlt. unfold next_of in Hb. cbn [fst] in Hb. replace (Z.of_nat n) with (1 - Z.of_nat (next_checkpoint_container [(container s 0).1; (container s 1).1])) by lia.
  done.
Qed.
End restart.
