(* ===== verification/ObjStoreReopen.v ===== *)
(** * Reopening a store

    [open] in a new process on the files a checkpoint left: with calls that
    work, the new store holds exactly the committed objects of the old one. *)
From stdpp Require Import sorting pretty.
From S2P Require Import Prelude Digest Bytes SlotPlace SpaceAlloc ObjHeader Checkpoint Media MediaSpec Residency ObjStore ObjStoreInv ObjStoreOps ObjStoreWrite ObjStoreMedia ObjStoreCkpt ObjStoreRun ObjStoreLoad ObjStoreOpen ObjStoreRestart.
Open Scope Z_scope.

(** ** Calls that work stay available *)
Lemma next_answer_keeps : frames keeps_healthy next_answer.
Proof. intros d. unfold next_answer, keeps_healthy, healthy. destruct (answers d) as [|a ans] eqn:E; cbn; (split; [done|]); [by rewrite E|]. by intros [_ ?]%Forall_cons. Qed.
Lemma sys_call_keeps : frames keeps_healthy sys_call.
Proof. apply frames_bind; [apply _|apply next_answer_keeps|]. intros a. apply frames_ret, _. Qed.
Lemma check_call_keeps : frames keeps_healthy check_call.
Proof. apply frames_bind; [apply _|apply sys_call_keeps|]. intros a. apply frames_guard, _. Qed.
Lemma ensure_directory_keeps path : frames keeps_healthy (ensure_directory path).
Proof.
  unfold ensure_directory. apply frames_bind; [apply _|apply frames_guard, _|intros _]. apply frames_for_each; [apply _|]. intros _. apply check_call_keeps.
Qed.

(** An existing metadata file that is long enough is left alone. *)
Lemma ensure_metadata_keeps path size d f : files d !! path = Some f → size ≤ f_size f → keeps_healthy d (ensure_metadata_file path size d).2.
Proof.
  intros Hf Hs. unfold ensure_metadata_file, guard_err. destruct (_ || _); [done|]. unfold mbind, M_bind, mret, M_ret.
  pose proof (ensure_directory_keeps (parent_of path) d) as H1. destruct (ensure_directory (parent_of path) d) as [[[]| |] d1]; [|done..]. cbn in H1.
  pose proof H1 as [E1 _]. unfold sys_create. unfold mbind, M_bind, mret, M_ret. pose proof (sys_call_keeps d1) as H2. destruct (sys_call d1) as [[ok| |] d2]; [|by etrans..].
  cbn in H2. pose proof H2 as [E2 _]. assert (H12 : keeps_healthy d d2) by by etrans. destruct ok; cbn; [|done].
  rewrite E2, E1, Hf. cbn. unfold stat_file. unfold mbind, M_bind, mret, M_ret.
  pose proof (check_call_keeps d2) as H3. destruct (check_call d2) as [[[]| |] d3]; [|by etrans..]. cbn in H3. pose proof H3 as [E3 _].
  assert (H13 : keeps_healthy d d3) by by etrans. cbn. rewrite E3, E2, E1, Hf. cbn. by rewrite bool_decide_eq_true_2.
Qed.

Lemma on_disk_still {A} (m : M disk A) s : keeps_healthy (media s) (m (media s)).2 → still s (on_disk m s).2.
Proof. unfold on_disk. destruct (m (media s)) as [r d']. cbn. intros [E H]. split; [by exists d'|done]. Qed.

Lemma ensure_layout_still : frames still ensure_layout_locked.
Proof.
  unfold ensure_layout_locked. assert (Hd : ∀ d, frames still (on_disk (ensure_directory d))) by (intros d s; apply on_disk_still, ensure_directory_keeps).
  apply frames_bind; [apply _|apply frames_gets, _|intros c0]. do 2 (apply frames_bind; [apply _|apply Hd|intros _]).
  do 2 (apply frames_bind; [apply _|apply frames_gets, _|intros ?]). apply frames_bind; [apply _| |intros q].
  { unfold the_placement. apply frames_bind; [apply _|apply frames_gets, _|intros o]. apply frames_from_opt, _. }
  apply frames_for_each; [apply _|]. intros slot. case_bool_decide; [apply Hd|apply frames_ret, _].
Qed.

(** ** The index is not touched after it was loaded *)
Definition same_index (s s' : store) : Prop := index_ s' = index_ s.
#[export] Instance same_index_preorder : PreOrder same_index.
Proof. split; [by intros s|]. intros s t u H1 H2. unfold same_index in *. congruence. Qed.

Lemma on_disk_index {A} (m : M disk A) : frames same_index (on_disk m).
Proof. intros s. unfold on_disk. by destruct (m (media s)). Qed.
Lemma placement_index : frames same_index the_placement.
Proof. unfold the_placement. apply frames_bind; [apply _|apply frames_gets, _|intros o]. apply frames_from_opt, _. Qed.

Lemma open_groups_index : frames same_index open_groups.
Proof.
  unfold open_groups, adopt_existing_groups_locked. apply frames_bind; [apply _| |intros _].
  - apply frames_bind; [apply _|apply placement_index|intros q]. apply frames_bind; [apply _|apply frames_gets, _|intros n].
    generalize (S (Z.to_nat n)) as fuel. induction fuel as [|fuel IH]; cbn [adopt_loop]; [apply frames_crash, _|].
    do 2 (apply frames_bind; [apply _|apply frames_gets, _|intros ?]). case_bool_decide; [apply frames_ret, _|].
    apply frames_bind; [apply _|apply frames_gets, _|intros ?]. apply frames_bind; [apply _|apply on_disk_index|intros r]. destruct (negb r); [apply frames_ret, _|].
    apply frames_bind; [apply _|by apply frames_modify|intros _; done].
  - apply frames_bind; [apply _|apply frames_gets, _|intros made]. apply frames_bind; [apply _| |intros _; by apply frames_modify].
    apply frames_when; [apply _|]. apply frames_bind; [apply _|apply placement_index|intros q]. apply frames_bind; [apply _|apply frames_gets, _|intros ?].
    apply frames_bind; [apply _|apply on_disk_index|intros _]. by apply frames_modify.
Qed.

Lemma open_residency_index c : frames same_index (open_residency c).
Proof.
  assert (Ht : ∀ m, frames same_index (try_bitmap m)).
  { intros m. unfold try_bitmap. apply frames_bind; [apply _|apply frames_attempt, on_disk_index|intros ?]. apply frames_ret, _. }
  unfold open_residency. do 2 (apply frames_bind; [apply _|apply frames_gets, _|intros ?]). apply frames_bind; [apply _|apply frames_when; [apply _|apply on_disk_index]|intros _].
  apply frames_bind; [apply _|apply frames_gets, _|intros ?]. apply frames_bind; [apply _|apply Ht|intros own]. apply frames_bind; [apply _|by apply frames_modify|intros _].
  apply frames_bind; [apply _| |intros ?; by apply frames_modify]. induction (seqZ 0 (rank_count c)) as [|rank ranks IH]; cbn [open_peers]; [apply frames_ret, _|].
  apply frames_bind; [apply _| |intros b; apply frames_bind; [apply _|done|intros bs; apply frames_ret, _]].
  case_bool_decide; [apply frames_ret, _|]. apply frames_bind; [apply _|apply frames_gets, _|intros ?]. apply Ht.
Qed.

(** ** Reopening *)
Section reopen.
Context (c : StoreConfig) (Hc : config_ok c).
Let p := placement_of c.

(** The state [s] in which the old process stopped, and the files it left. *)
Record left_behind (s : store) (d : disk) (i q : Z) : Prop := {
  lb_live : live c p s;
  lb_meta : meta_ok s;
  lb_total : total_slots (allocator_ s) = configured_slots c (segment_header_bytes c + layout_payload_bytes c);
  lb_files : files d = files (media s);
  lb_media : media_ok c d;
  lb_calls : healthy d;
  lb_size : ∃ f, files d !! checkpoint_path_locked s = Some f ∧ u64 (container_bytes_ s * Z.of_nat kContainerCount) ≤ f_size f;
  lb_newest : (i = 0 ∨ i = 1) ∧ container s i = (q, checkpoint_entries c (index_ s)) ∧ q ≠ 0 ∧ (container s (1 - i)).1 < q;
}.

Lemma metadata_gives_back s d i q s1 : geometry c p → left_behind s d i q → blank c p s1 → files (media s1) = files d → healthy (media s1) →
  total_slots (allocator_ s1) = total_slots (allocator_ s) →
  wp (open_metadata c) (λ r s', r = Ok tt → index_ s' = committed_part (index_ s)) s1.
Proof using Type. clear Hc.
  intros Hg [L1 L2 L3 L4 L5 L6 (f & Hf & Hsz) (Hi & Hci & Hq & Hlt)] Hb Hfs Hh Ht. unfold open_metadata. apply wp_bind.
  assert (Hlay : wp (when (negb (read_only c)) ensure_layout_locked) (λ r s', still s1 s') s1).
  { apply wp_when; intros _; [|done]. eapply wp_frames; [apply ensure_layout_still|]. done. }
  eapply wp_mono; [exact Hlay|]. clear Hlay. intros r s2 Hst. destruct r as [[]|e|x]; [|done..]. wp_steps.
  pose proof Hst as [Hq2 Hh2]. assert (Hb2 : blank c p s2) by (by eapply blank_quiet).
  assert (E2 : files (media s2) = files d ∧ total_slots (allocator_ s2) = total_slots (allocator_ s) ∧ config_ s2 = c).
  { destruct Hb2 as [[B1 _ _ _ _ _ _ _ _ _] _ _]. destruct Hq2 as (d' & -> & E). cbn in *. rewrite E. done. }
  destruct E2 as (Ef2 & Et2 & Ec2). set (s3 := s2 <| container_bytes_ := _ |>).
  assert (Hsize : container_bytes_ s3 = container_bytes_ s). { destruct L2 as [-> _]. cbn. by rewrite Et2. }
  assert (Hpath : checkpoint_path_locked s3 = checkpoint_path_locked s).
  { unfold checkpoint_path_locked. change (config_ s3) with (config_ s2). by rewrite Ec2, (lv_config _ _ _ L1). }
  assert (Hb3 : blank c p s3) by by apply blank_container. assert (Hm3 : meta_ok s3) by (split; [done|]; apply Hb3).
  assert (Hmeta : wp (when (negb (read_only c)) (on_disk (ensure_metadata_file (checkpoint_path_locked s3) (u64 (container_bytes_ s3 * Z.of_nat kContainerCount)))))
    (λ r s', still s3 s') s3).
  { apply wp_when; intros _; [|done]. unfold wp. apply on_disk_still. eapply (ensure_metadata_keeps _ _ _ f); [|by rewrite Hsize].
    rewrite Hpath. change (media s3) with (media s2). by rewrite Ef2. }
  eapply wp_mono; [exact Hmeta|]. clear Hmeta. intros r s4 Hst4. destruct r as [[]|e|x]; [|done..]. pose proof Hst4 as [Hq4 Hh4].
  assert (Hb4 : blank c p s4) by (by eapply blank_quiet).
  assert (E4 : files (media s4) = files (media s) ∧ container_bytes_ s4 = container_bytes_ s ∧ checkpoint_path_locked s4 = checkpoint_path_locked s ∧
    total_slots (allocator_ s4) = total_slots (allocator_ s) ∧ meta_ok s4).
  { destruct Hq4 as (d' & -> & E). rewrite <- Hpath, <- Hsize. split_and!; try done. cbn. rewrite E. change (media s3) with (media s2). congruence. }
  destruct E4 as (F4 & Z4 & P4 & T4 & M4).
  assert (Hcont : ∀ j, container s4 j = container s j) by (intros j; unfold container, container_bytes; by rewrite F4, Z4, P4).
  eapply wp_mono; [apply (load_gives_back c p Hg s s4 i q); try done; try apply Hb4|].
  - auto.
  - by rewrite Hcont.
  - by rewrite Hcont.
  - intros r s' [->|[-> H]]; [done|]. done.
Qed.

Lemma reopen_ok s d i q : left_behind s d i q →
  wp (open c) (λ r s', r = Ok tt → index_ s' = committed_part (index_ s)) (new_store d).
Proof using Hc.
  intros Hlb. pose proof Hlb as [L1 L2 L3 L4 [L5 L5'] L6 L7 L8]. unfold open. apply wp_bind, wp_guard; [done|]. intros Hrej. cbv beta iota. wp_steps. cbn [opened_ new_store]. wp_steps.
  set (s0 := (new_store d) <| config_ := c |> <| slot_bytes_ := _ |>).
  eapply wp_mono; [by apply (build_backend_ok c s0)|]. intros r s1 Hr. destruct r as [[]|e|f]; [|done..]. destruct (Hr eq_refl) as (Hd & n & ->). clear Hr.
  pose proof (geometry_of c Hc Hrej Hd) as Hg. fold p in Hg |- *. set (s1 := s0 <| mount_count_ := n |> <| placement_ := Some p |>). wp_steps.
  pose proof (ge_header_min _ _ Hg). pose proof (payload_fits c) as Hpf. unfold fits in Hpf.
  eapply wp_mono; [apply (configure_locked_ok c Hc s1); [done|]|]. { change (slot_bytes_ s1) with (segment_header_bytes c + layout_payload_bytes c). lia. }
  intros r s2 Hr. destruct r as [[]|e|f]; [|done..]. destruct (Hr eq_refl) as (a & g & -> & [A1 A2 A3 A4] & Ht). clear Hr.
  set (s2 := s1 <| allocator_ := a |> <| group_slots_ := g |>). assert (Hb : blank c p s2).
  { split; [split|..]; try done. }
  wp_steps. eapply wp_mono; [apply (metadata_gives_back s d i q s2 Hg Hlb Hb); [done|done|by rewrite L3]|]. intros r s3 Hr.
  destruct r as [[]|e|f]; [|done..]. specialize (Hr eq_refl). apply wp_bind.
  eapply wp_frames; [apply (frames_when same_index), open_groups_index|]. intros r s4 E4. unfold same_index in E4. destruct r as [[]|e|f]; [|done..]. apply wp_bind.
  eapply wp_frames; [apply (frames_when same_index), open_residency_index|]. intros r s5 E5. unfold same_index in E5. destruct r as [[]|e|f]; [|done..].
  wp_steps. intros _. cbn. congruence.
Qed.
End reopen.
