(* ===== verification/StoreTheorems.v ===== *)
(** * What the object store promises

    The theorems about [ObjectStoreCore] as a whole, with a small store that
    runs through open, reserve, commit, checkpoint and a second open. *)
From stdpp Require Import sorting pretty.
From S2P Require Import Prelude Digest Bytes SlotPlace SpaceAlloc ObjHeader Checkpoint Media MediaSpec Residency ObjStore ObjStoreInv ObjStoreOps ObjStoreWrite ObjStoreMedia ObjStoreCkpt ObjStoreRun ObjStoreLoad ObjStoreOpen ObjStoreRestart ObjStoreReopen.
Open Scope Z_scope.

(** ** A small store: three slots of 8 KiB, two per file, on one mount *)
Definition demo_config : StoreConfig :=
  {| uri := "/n"; capacity_slots := 3; capacity_bytes := 0; segment_bytes := 4096; segment_count := 1; segment_file_slots := 2;
     segment_header_bytes := 4096; namespace_fingerprint := []; devices := ["/m"]; rank_id := 0; rank_count := 1; read_only := false |}.
Definition call : answer := Done (2 ^ 24).
Definition one_extent : answer := Extents [{| fe_logical := 0; fe_physical := 1048576; fe_length := 16384; fe_bad := false |}].
(** The answers of a first start on empty media, and some more. *)
Definition demo_disk : disk :=
  {| files := ∅; next_ino := 1; answers := replicate 36 call ++ [Space (2 ^ 30); call; call; call; one_extent] ++ replicate 40 call |}.
Definition demo_open : store := (open demo_config (new_store demo_disk)).2.
Definition demo_ops : list store_op := [SReserve [[1]; [2]]; SCommit [[1]]].
Definition demo_store : store := foldl (store_step (placement_of demo_config)) demo_open demo_ops.
Definition demo_saved : store := (checkpoint demo_store).2.
(** The files of the first process under a second one, calls working. *)
Definition demo_disk2 : disk := (media demo_saved) <| answers := replicate 60 call |>.

Lemma demo_config_ok : config_ok demo_config.
Proof. split; try (split; [lia|by vm_compute]); try by vm_compute. apply (bool_decide_unpack _). by vm_compute. Qed.

Lemma demo_media_ok : media_ok demo_config demo_disk.
Proof. split; [intros q f Hf|intros slot f Hf]; change (files demo_disk) with (∅ : gmap string file) in Hf; by rewrite lookup_empty in Hf. Qed.

Lemma run_eq {S A} (m : M S A) s r : (m s).1 = r → m s = (r, (m s).2).
Proof. intros <-. apply surjective_pairing. Qed.

Lemma demo_opens : open demo_config (new_store demo_disk) = (Ok tt, demo_open).
Proof. unfold demo_open. apply (run_eq (open demo_config) (new_store demo_disk) (Ok tt)). by vm_compute. Qed.

Lemma pair_wp {S A} (m : M S A) (Q : outcome A → S → Prop) s r s' : wp m Q s → m s = (r, s') → Q r s'.
Proof. unfold wp. intros H E. by rewrite E in H. Qed.

Lemma opened_recovered c d s : config_ok c → media_ok c d → open c (new_store d) = (Ok tt, s) →
  geometry c (placement_of c) ∧ recovered c (placement_of c) s ∧ opened_ s = true.
Proof. intros Hc Hm E. by apply (pair_wp _ _ _ _ _ (open_ok c d Hc Hm) E). Qed.

(** ** Placement *)

(** C34: In the placement [open] builds for an accepted configuration whose
    mount paths do not end in a slash, every slot lies whole inside its segment
    file, its payload right behind its header, without 64-bit overflow, and two
    different slots whose files have the same path never share a byte.  (Files
    are told apart by their path strings, as the code does: a directory named
    in two spellings is out of reach.) *)
Theorem slots_never_overlap c s t :
  fields_ok c → config_rejected c = false → devices c ≠ [] → Forall (λ m, plain_dir m) (devices c) → 0 ≤ s → 0 ≤ t →
  let p := placement_of c in
  0 ≤ header_offset_for_slot p s ∧ header_offset_for_slot p s + fp_slot_bytes p ≤ fp_file_bytes p ∧
  payload_offset_for_slot p s = header_offset_for_slot p s + fp_header_bytes p ∧
  (s ≠ t → path_for_slot p s = path_for_slot p t →
   header_offset_for_slot p s + fp_slot_bytes p ≤ header_offset_for_slot p t ∨
   header_offset_for_slot p t + fp_slot_bytes p ≤ header_offset_for_slot p s).
Proof.
  intros Hf Hr Hd Hpl Hs Ht p.
  assert (Hp : placement_ok p) by (apply (ge_placement c), geometry_of; [by apply plain_config_ok|done|done]).
  destruct (header_offset_exact p Hp s Hs) as (_ & H1 & H2). split_and!; [done..|by apply payload_offset_exact|].
  intros Hne E. by apply slots_disjoint.
Qed.

(** Two mounts; the first is listed twice. *)
Definition demo_mounts : StoreConfig :=
  {| uri := "/n"; capacity_slots := 6; capacity_bytes := 0; segment_bytes := 4096; segment_count := 1; segment_file_slots := 2;
     segment_header_bytes := 4096; namespace_fingerprint := []; devices := ["/a"; "/b"; "/a"]; rank_id := 0; rank_count := 1; read_only := false |}.

Lemma slots_never_overlap_witness :
  path_for_slot (placement_of demo_mounts) 1 = "/b/r0/segments/0.seg" ∧
  path_for_slot (placement_of demo_mounts) 1 = path_for_slot (placement_of demo_mounts) 3 ∧
  (header_offset_for_slot (placement_of demo_mounts) 1 + 8192 ≤ header_offset_for_slot (placement_of demo_mounts) 3 ∨
   header_offset_for_slot (placement_of demo_mounts) 3 + 8192 ≤ header_offset_for_slot (placement_of demo_mounts) 1).
Proof.
  split; [by vm_compute|]. split; [by vm_compute|]. apply (slots_never_overlap demo_mounts 1 3); [|by vm_compute|done| |lia|lia|lia|by vm_compute].
  - split; try (split; [lia|by vm_compute]); by vm_compute.
  - apply (bool_decide_unpack _). by vm_compute.
Defined.

(** ** Consistency *)

(** C10: A store that a new process opens, on mounts with different segment
    directories and over files at rest (no unsynced data, sizes in multiples of
    4096), stays consistent through every history of its operations up to and
    after its close, further calls of [open] on the open store included,
    whatever the kernel answers and wherever a call stops: no two keys share a
    slot, every object reported as present has its intact, synced header on
    the media, and the allocator's books balance.  Opening the same object
    again after a close is outside ([second_open_shares_slot]). *)
Theorem store_consistent c d s ops : config_ok c → media_ok c d → open c (new_store d) = (Ok tt, s) → history_ok (placement_of c) s ops →
  let s' := foldl (store_step (placement_of c)) s ops in
  live c (placement_of c) s' ∧ alloc_inv (allocator_ s') ∧
  (∀ k k' e e', index_ s' !! k = Some e → index_ s' !! k' = Some e' → en_slot e = en_slot e' → k = k') ∧
  (∀ k, contains k s' = true → ∃ e f, index_ s' !! k = Some e ∧ header_on c (placement_of c) (media s') k e f).
Proof.
  intros Hc Hm E Hops s'. destruct (opened_recovered c d s Hc Hm E) as (Hg & Hr & _).
  assert (Hl : live c (placement_of c) s') by (apply (store_run_live c _ Hg); [done|apply Hr]). pose proof (lv_inv _ _ _ Hl) as [I1 I2 I3 I4].
  split_and!; [done|done|intros k k' e e'; by apply (index_inj _ _ _ k k' e e' I3)|].
  intros k. unfold contains. destruct (index_ s' !! k) as [e|] eqn:Hk; [|done]. intros Hcm. destruct (lv_durable _ _ _ Hl k e Hk Hcm) as [f Hf]. by exists e, f.
Qed.

(** With a second [open] first, which changes nothing. *)
Lemma store_consistent_witness : contains [1] demo_store = true ∧
  live demo_config (placement_of demo_config) (foldl (store_step (placement_of demo_config)) demo_open (SOpen demo_config :: demo_ops)).
Proof.
  split; [by vm_compute|].
  refine (proj1 (store_consistent demo_config demo_disk demo_open (SOpen demo_config :: demo_ops) demo_config_ok demo_media_ok demo_opens _)).
  cbn [history_ok demo_ops store_op_ok]. split; [by vm_compute|]. split_and!; [repeat constructor; lia|done|done].
Defined.

(** C12: Recovery trusts nothing it has not checked: after [open] every object of
    the index is committed, its header on the media names exactly this key,
    payload size and generation, and the allocator has committed exactly the
    slots of these objects. *)
Theorem recovery_sound c d s : config_ok c → media_ok c d → open c (new_store d) = (Ok tt, s) →
  (∀ k e, index_ s !! k = Some e → en_committed e = true ∧ state_at (allocator_ s) (en_slot e) = kCommitted ∧
     ∃ f fields, files (media s) !! path_for_slot (placement_of c) (en_slot e) = Some f ∧
       accepted (fread f (header_offset_for_slot (placement_of c) (en_slot e)) 4096) (expectation c k e) = inr fields) ∧
  (∀ x, 0 ≤ x → state_at (allocator_ s) x = kCommitted → is_Some (slot_owner_ s !! x)) ∧
  (∀ x, state_at (allocator_ s) x = kReserved → x < 0).
Proof.
  intros Hc Hm E. destruct (opened_recovered c d s Hc Hm E) as (Hg & [Hl Hcm Hun] & _). split_and!.
  - intros k e Hk. destruct (Hcm k e Hk) as [H1 H2]. split_and!; [done|done|]. destruct (lv_durable _ _ _ Hl k e Hk H1) as (f & [F1 _ _ (fields & F4 & _)]).
    by exists f, fields.
  - intros x Hx Hs. destruct (slot_owner_ s !! x) eqn:Eo; [done|]. destruct (Hun x Hx Eo); congruence.
  - intros x Hs. destruct (Z.lt_ge_cases x 0) as [|Hx]; [done|]. exfalso. destruct (slot_owner_ s !! x) as [k|] eqn:Eo.
    + destruct (lv_inv _ _ _ Hl) as [_ _ I3 _]. destruct (ii_back _ _ _ I3 x k Eo) as (e & Hk & <-). destruct (Hcm k e Hk) as [_ ?]. congruence.
    + destruct (Hun x Hx Eo); congruence.
Qed.

(** ** Restart *)
Lemma demo_geometry : geometry demo_config (placement_of demo_config).
Proof. by apply (opened_recovered demo_config demo_disk demo_open demo_config_ok demo_media_ok demo_opens). Qed.

Lemma demo_live : live demo_config (placement_of demo_config) demo_store.
Proof. apply (store_run_live _ _ demo_geometry); [cbn; split_and!; [repeat constructor; lia|done|done]|]. by apply (opened_recovered _ _ _ demo_config_ok demo_media_ok demo_opens). Qed.

Lemma demo_saves : checkpoint demo_store = (Ok tt, demo_saved).
Proof. unfold demo_saved. apply (run_eq checkpoint demo_store (Ok tt)). by vm_compute. Qed.

(** A store about to write a checkpoint, with room left in its numbers and
    calls that work. *)
Record checkpointing (c : StoreConfig) (s : store) : Prop := {
  cp_live : live c (placement_of c) s;
  cp_meta : meta_ok s;
  cp_keys : short_keys s;
  cp_total : total_slots (allocator_ s) = configured_slots c (segment_header_bytes c + layout_payload_bytes c);
  cp_file : is_Some (files (media s) !! checkpoint_path_locked s);
  cp_calls : healthy (media s);
  cp_seqs : seqs_ok s;
}.

(** C11: A restart keeps exactly the committed objects: what [checkpoint] wrote,
    [open] in a new process on the same files gives back, key by key with slot,
    generation and commit number, and nothing else. *)
Theorem restart_keeps_objects c s s1 d s2 f : config_ok c → geometry c (placement_of c) → checkpointing c s →
  checkpoint s = (Ok tt, s1) → files d = files (media s1) → media_ok c d → healthy d →
  files d !! checkpoint_path_locked s1 = Some f → u64 (container_bytes_ s1 * Z.of_nat kContainerCount) ≤ f_size f →
  open c (new_store d) = (Ok tt, s2) → index_ s2 = committed_part (index_ s).
Proof.
  intros Hc Hg [K1 K2 K3 K4 K5 K6 K7] Es Ef Hm Hh Hf Hsz Eo.
  destruct (pair_wp _ _ _ _ _ (checkpoint_ok c _ Hg s K1 K2 K3 K5) Es) as (Hl1 & [F1 F2 F3 F4 F5 F6] & Hp).
  destruct (persisted_newest c (placement_of c) s s1 K1 K6 K7 Hp) as (i & q & Hi & Hci & Hq & Hlt). rewrite <- F1.
  refine (pair_wp _ _ _ _ _ (reopen_ok c Hc s1 d i q _) Eo eq_refl). split; try done; [|by rewrite F3|by exists f|].
  - destruct K2 as [K2 K2']. split; [by rewrite F5, F3|by rewrite F3].
  - by rewrite F1.
Qed.

(** *** The second process of the small store *)
Lemma at_rest_files p d : map_Forall (λ path f, tail2 path = Some (Ascii.ascii_of_N 101) → f_dirty f = [] ∧ f_size f `mod` 4096 = 0) (files d) → at_rest p d.
Proof. intros H slot f Hf. apply (H _ f Hf). apply tail2_segment. Qed.

Lemma demo_saved_live : live demo_config (placement_of demo_config) demo_saved.
Proof. apply (pair_wp _ _ _ _ _ (checkpoint_live _ _ demo_geometry demo_store demo_live) demo_saves). Qed.

(** New answers, same files. *)
Lemma wf_answers d ans : disk_wf d → disk_wf (d <| answers := ans |>).
Proof. done. Qed.
Lemma files_answers d ans : files (d <| answers := ans |>) = files d.
Proof. done. Qed.

Lemma demo_media_ok2 : media_ok demo_config demo_disk2.
Proof.
  split; [unfold demo_disk2; apply wf_answers; exact (lv_disk _ _ _ demo_saved_live)|]. apply at_rest_files. apply (bool_decide_unpack _). by vm_compute.
Qed.

Definition demo_reopen : store := (open demo_config (new_store demo_disk2)).2.
Lemma demo_reopens : open demo_config (new_store demo_disk2) = (Ok tt, demo_reopen).
Proof. unfold demo_reopen. apply (run_eq (open demo_config) (new_store demo_disk2) (Ok tt)). by vm_compute. Qed.

Lemma demo_ckpt_file : ∃ f, files demo_disk2 !! checkpoint_path_locked demo_saved = Some f ∧ u64 (container_bytes_ demo_saved * Z.of_nat kContainerCount) ≤ f_size f.
Proof.
  assert (H : match files demo_disk2 !! checkpoint_path_locked demo_saved with
              | Some f => bool_decide (u64 (container_bytes_ demo_saved * Z.of_nat kContainerCount) ≤ f_size f) | None => false end = true) by (by vm_compute).
  destruct (files demo_disk2 !! _) as [f|]; [|done]. exists f. split; [done|]. by apply bool_decide_eq_true in H.
Qed.

Lemma demo_checkpointing : checkpointing demo_config demo_store.
Proof.
  split; [exact demo_live|split; by vm_compute| |by vm_compute|apply (bool_decide_unpack _); by vm_compute|apply (bool_decide_unpack _); by vm_compute|].
  - assert (H : map_Forall (λ k _, Z.of_nat (length k) ≤ kMaxKeyBytes) (index_ demo_store)) by (apply (bool_decide_unpack _); by vm_compute).
    intros k e Hk. exact (H k e Hk).
  - split_and!; by vm_compute.
Qed.

Lemma restart_keeps_objects_witness : index_ demo_reopen = committed_part (index_ demo_store) ∧ contains [1] demo_reopen = true ∧ contains [2] demo_store = false.
Proof.
  split; [|split; by vm_compute]. destruct demo_ckpt_file as (f & Hf & Hsz).
  apply (restart_keeps_objects demo_config demo_store demo_saved demo_disk2 demo_reopen f demo_config_ok demo_geometry demo_checkpointing demo_saves (files_answers _ _)
    demo_media_ok2 ltac:(apply (bool_decide_unpack _); by vm_compute) Hf Hsz demo_reopens).
Defined.

Lemma recovery_sound_witness : contains [1] demo_reopen = true ∧ ∀ x, 0 ≤ x → state_at (allocator_ demo_reopen) x = kCommitted → is_Some (slot_owner_ demo_reopen !! x).
Proof.
  split; [by vm_compute|]. apply (recovery_sound demo_config demo_disk2 demo_reopen demo_config_ok demo_media_ok2 demo_reopens).
Defined.

(** C13: Writing a checkpoint never endangers the newest one: as long as no call
    reports an error, and wherever the process stops, in the middle of the
    write included, the container that recovery would choose before the write
    still holds the same checkpoint after it.  [read_error_loses_checkpoint]
    shows that the condition is needed. *)
Theorem newest_checkpoint_survives c p s r s1 n : geometry c p → live c p s → meta_ok s → short_keys s →
  is_Some (files (media s) !! checkpoint_path_locked s) → healthy (media s) →
  ((container s 0).1 = (container s 1).1 → (container s 0).1 = 0) →
  select_checkpoint_container [(container s 0).1; (container s 1).1] = Some n →
  checkpoint s = (r, s1) → container s1 (Z.of_nat n) = container s (Z.of_nat n) ∧ live c p s1.
Proof.
  intros Hg Hl Hm Hk Hf Hh Hd Hsel E. destruct (pair_wp _ _ _ _ _ (checkpoint_ok c p Hg s Hl Hm Hk Hf) E) as (Hl1 & _ & Hp).
  split; [|done]. by apply (persisted_spares c p s s1 r n Hl Hh Hd Hsel Hp).
Qed.

(** The second object committed as well; the write of the next checkpoint stops
    after its first block. *)
Definition demo_second : store := foldl (store_step (placement_of demo_config)) demo_saved [SCommit [[2]]; SAnswers (replicate 8 call ++ [Done 4096])].

Lemma demo_second_live : live demo_config (placement_of demo_config) demo_second.
Proof. apply (store_run_live _ _ demo_geometry); [by cbn|exact demo_saved_live]. Qed.

Lemma newest_checkpoint_survives_witness :
  (checkpoint demo_second).1 = Fault OutOfFuel ∧ (container demo_second 0).1 = 1 ∧
  container (checkpoint demo_second).2 (Z.of_nat 0) = container demo_second (Z.of_nat 0).
Proof.
  split; [by vm_compute|]. split; [by vm_compute|].
  refine (proj1 (newest_checkpoint_survives demo_config (placement_of demo_config) demo_second (checkpoint demo_second).1 (checkpoint demo_second).2 0 _ _ _ _ _ _ _ _ _)).
  - exact demo_geometry.
  - exact demo_second_live.
  - split; by vm_compute.
  - assert (H : map_Forall (λ k _, Z.of_nat (length k) ≤ kMaxKeyBytes) (index_ demo_second)) by (apply (bool_decide_unpack _); by vm_compute).
    intros k e Hk. exact (H k e Hk).
  - apply (bool_decide_unpack _). by vm_compute.
  - apply (bool_decide_unpack _). by vm_compute.
  - apply (bool_decide_unpack _). by vm_compute.
  - by vm_compute.
  - apply surjective_pairing.
Defined.

(** When the newest container cannot be read it counts as empty and becomes the
    target: a crash in that write leaves no checkpoint at all. *)
Lemma read_error_loses_checkpoint :
  let s := store_step (placement_of demo_config) demo_second (SAnswers ([Failed] ++ replicate 5 call ++ [Done 4096])) in
  let s1 := (checkpoint s).2 in
  (container s 0).1 = 1 ∧ (checkpoint s).1 = Fault OutOfFuel ∧ (container s1 0).1 = 0 ∧ (container s1 1).1 = 0.
Proof. split_and!; by vm_compute. Qed.

(** ** The write path *)

(** C17: [reserve] goes through the keys in order and accepts each one that is
    neither empty nor longer than 256 bytes, with the file, payload offset,
    payload size, slot and generation of the entry that is now the key's own;
    it stops early only at such a key without an entry when the allocator has
    no backed slot left, and counts as rejected exactly the keys it did not
    accept.  What the index held before is unchanged, nothing new is committed
    and nothing is written. *)
Theorem reserve_accounts c p keys s out s1 : geometry c p → live c p s → Forall wf_bytes keys →
  ObjStore.reserve keys s = (Ok out, s1) →
  live c p s1 ∧ reserve_frame s s1 ∧ Z.of_nat (length (ro_accepted_keys out)) + ro_rejected_count out = Z.of_nat (length keys) ∧
  (∃ seen rest, keys = seen ++ rest ∧ ro_accepted_keys out = filter (λ k, good_key k = true) seen ∧
     (rest = [] ∨ exhausted (allocator_ s1) ∧ ∃ k rest', rest = k :: rest' ∧ good_key k = true ∧ index_ s1 !! k = None)) ∧
  Forall2 (λ pl k, ∃ e, index_ s1 !! k = Some e ∧ pl_slot pl = en_slot e ∧ pl_generation pl = en_generation e ∧ pl_uri pl = uri_for_slot p (en_slot e) ∧
             pl_offset pl = payload_offset_for_slot p (en_slot e) ∧ pl_payload_bytes pl = layout_payload_bytes c)
          (ro_accepted out) (ro_accepted_keys out).
Proof.
  intros Hg Hl Hw E. assert (H : wp (ObjStore.reserve keys) (λ r s', ∀ out, r = Ok out → live c p s' ∧ reserve_frame s s' ∧
    outcome_ok c p s' (Z.of_nat (length keys)) out ∧ answered keys no_outcome out s') s).
  { unfold ObjStore.reserve. apply wp_bind, wp_writable; [done|]. apply wp_bind, wp_ready; [done|].
    eapply wp_mono; [apply (reserve_keys_ok c p Hg keys no_outcome s 0 Hl Hw); split; [constructor|done]|].
    intros r s' (Hl' & Hf & out' & -> & Ho & Ha) out0 [= <-]. by split_and!. }
  destruct (pair_wp _ _ _ _ _ H E out eq_refl) as (Hl1 & Hf & [Ho1 Ho2] & Ha). split_and!; [done|done|done|exact Ha|].
  eapply Forall2_impl; [exact Ho1|]. intros pl k (e & Hk & ->). by exists e.
Qed.

Definition demo_keys : list ObjectKey := [[1]; [3]; []].
Definition result_or {A} (a : A) (r : outcome A) : A := match r with Ok x => x | _ => a end.
Definition demo_outcome : ReserveOutcome := result_or no_outcome (ObjStore.reserve demo_keys demo_store).1.
Lemma demo_reserves : ObjStore.reserve demo_keys demo_store = (Ok demo_outcome, (ObjStore.reserve demo_keys demo_store).2).
Proof. apply (run_eq (ObjStore.reserve demo_keys) demo_store (Ok demo_outcome)). by vm_compute. Qed.

Lemma reserve_accounts_witness : Z.of_nat (length (ro_accepted_keys demo_outcome)) = 1 ∧
  Z.of_nat (length (ro_accepted_keys demo_outcome)) + ro_rejected_count demo_outcome = Z.of_nat (length demo_keys).
Proof.
  split; [by vm_compute|]. assert (Hw : Forall wf_bytes demo_keys) by (repeat constructor; lia).
  destruct (reserve_accounts demo_config (placement_of demo_config) demo_keys demo_store demo_outcome _ demo_geometry demo_live Hw demo_reserves) as (_ & _ & H & _).
  exact H.
Defined.

(** C16: A finished [commit] has committed every named object that was reserved,
    in the index and in the allocator, and no other object changed; a failed
    one leaves the store consistent. *)
Theorem commit_exact c p keys s r s1 : geometry c p → live c p s → ObjStore.commit keys s = (r, s1) →
  live c p s1 ∧
  (r = Ok tt → (∀ k e, k ∈ keys → index_ s !! k = Some e → contains k s1 = true) ∧
               (∀ k e, k ∈ keys → index_ s !! k = Some e → en_committed e = false → state_at (allocator_ s1) (en_slot e) = kCommitted) ∧
               (∀ k, k ∉ keys → index_ s1 !! k = index_ s !! k)).
Proof.
  intros Hg Hl E. destruct (pair_wp _ _ _ _ _ (commit_ok c p Hg keys s Hl) E) as [Hl1 Hr]. split; [done|].
  intros ->. destruct (Hr eq_refl) as [C1 C2 C3]. by split_and!.
Qed.

Lemma commit_exact_witness : live demo_config (placement_of demo_config) (ObjStore.commit [[2]] demo_store).2 ∧
  (ObjStore.commit [[2]] demo_store).1 = Ok tt.
Proof.
  split; [|by vm_compute].
  exact (proj1 (commit_exact demo_config (placement_of demo_config) [[2]] demo_store _ _ demo_geometry demo_live (surjective_pairing (ObjStore.commit [[2]] demo_store)))).
Defined.

(** C18: [release] takes exactly the named committed objects that nobody has
    pinned out of the index; pinned, uncommitted and unnamed objects stay, and
    so do the pins.  A removed object's slot goes to the reclaimer when the
    allocator has it as committed and otherwise keeps its state (a slot that a
    failed [commit] left reserved stays reserved, [failed_commit_leaks_slot]);
    no other slot changes. *)
Theorem release_respects_pins c p keys s n s1 : geometry c p → live c p s → ObjStore.release keys s = (Ok n, s1) →
  live c p s1 ∧ pins_ s1 = pins_ s ∧
  (∀ k e, index_ s !! k = Some e → k ∉ keys ∨ pinned k s = true ∨ en_committed e = false → index_ s1 !! k = Some e) ∧
  (∀ k e, k ∈ keys → index_ s !! k = Some e → pinned k s = false → en_committed e = true →
     index_ s1 !! k = None ∧ state_at (allocator_ s1) (en_slot e) =
       if decide (state_at (allocator_ s) (en_slot e) = kCommitted) then kReclaiming else state_at (allocator_ s) (en_slot e)) ∧
  (∀ x, 0 ≤ x → (∀ k e, k ∈ keys → index_ s !! k = Some e → pinned k s = false → en_committed e = true → en_slot e ≠ x) →
     state_at (allocator_ s1) x = state_at (allocator_ s) x).
Proof.
  intros Hg Hl E. destruct (pair_wp _ _ _ _ _ (release_ok c p Hg keys s Hl) E) as [Hl1 Hr].
  destruct (Hr n eq_refl) as (Hi & Hp & slots & _ & Hslots & Hst). unfold moved in Hst. split_and!; [done|done| | |].
  - intros k e Hk Hkeep. rewrite Hi. apply map_lookup_filter_Some. split; [done|]. cbn. unfold released. intros [Hin Hd].
    apply andb_prop in Hd as [D1 D2%negb_true_iff]. destruct Hkeep as [?|[?|?]]; [done|congruence|congruence].
  - intros k e Hin Hk Hpin Hc. assert (Hrel : released s k e = true) by (unfold released; by rewrite Hc, Hpin). split.
    + rewrite Hi. apply map_lookup_filter_None. right. cbn. intros e' He' []. split; [done|]. congruence.
    + destruct (lv_inv _ _ _ Hl) as [_ _ I3 _]. destruct (ii_state _ _ _ I3 k e Hk) as [H0 _]. rewrite Hst by done.
      assert (en_slot e ∈ slots) as Hin' by (apply Hslots; by exists k, e). repeat case_decide; tauto.
  - intros x Hx Hno. rewrite Hst by done. rewrite decide_False; [done|]. intros [Hin _].
    apply Hslots in Hin as (k & e & Hk & He & Hrel & Hex). unfold released in Hrel. apply andb_prop in Hrel as [H1 H2%negb_true_iff].
    by apply (Hno k e).
Qed.

Definition demo_pinned : store := (pin [[1]] demo_store).2.
Definition demo_entry : Entry := {| en_slot := 0; en_generation := 0; en_commit_seq := 1; en_committed := true |}.
Lemma demo_pinned_live : live demo_config (placement_of demo_config) demo_pinned.
Proof. apply (pin_ok _ _ [[1]] demo_store demo_live). Qed.
Lemma demo_pinned_release : ObjStore.release [[1]] demo_pinned = (Ok 0, (ObjStore.release [[1]] demo_pinned).2).
Proof. apply (run_eq (ObjStore.release [[1]]) demo_pinned). by vm_compute. Qed.
Lemma demo_pinned_entry : index_ demo_pinned !! [1] = Some demo_entry ∧ pinned [1] demo_pinned = true.
Proof. split; by vm_compute. Qed.

Lemma release_respects_pins_witness : index_ (ObjStore.release [[1]] demo_pinned).2 !! [1] = Some demo_entry.
Proof.
  destruct (release_respects_pins demo_config (placement_of demo_config) [[1]] demo_pinned 0 _ demo_geometry demo_pinned_live demo_pinned_release) as (_ & _ & H & _).
  exact (H [1] demo_entry (proj1 demo_pinned_entry) (or_intror (or_introl (proj2 demo_pinned_entry)))).
Defined.

(** ** What a failed commit leaves *)

(** When the header of a later key cannot be written, [commit] returns
    without telling the allocator about the earlier ones and without marking
    the checkpoint stale: such an object is served as committed, is not in the
    next clean shutdown's checkpoint, and once released its slot has no owner
    and stays reserved, outside the reclaimer and the free list. *)
Theorem failed_commit_leaks_slot :
  let s := store_step (placement_of demo_config) (store_step (placement_of demo_config) demo_open (SReserve [[1]; [2]])) (SAnswers (replicate 4 call ++ [call; Failed])) in
  let s1 := (ObjStore.commit [[1]; [2]] s).2 in
  let s2 := (ObjStore.release [[1]] s1).2 in
  (ObjStore.commit [[1]; [2]] s).1 = Err INTERNAL ∧ contains [1] s1 = true ∧ checkpoint_dirty_ s1 = false ∧
  (ObjStore.release [[1]] s1).1 = Ok 1 ∧ slot_owner_ s2 !! 0 = None ∧ state_at (allocator_ s2) 0 = kReserved ∧
  reclaim_queue (allocator_ s2) = [].
Proof. split_and!; by vm_compute. Qed.

(** Opening the same object again after [close] keeps the index while the
    allocator starts over: a new key gets the slot of a committed one. *)
Lemma second_open_shares_slot :
  let s := store_step (placement_of demo_config) (store_step (placement_of demo_config) demo_store SClose) (SAnswers (replicate 60 call)) in
  let s1 := (open demo_config s).2 in
  let s2 := (ObjStore.reserve [[7]] s1).2 in
  (open demo_config s).1 = Ok tt ∧ contains [1] s2 = true ∧ en_slot <$> index_ s2 !! [7] = en_slot <$> index_ s2 !! [1].
Proof. split_and!; by vm_compute. Qed.
